(* ===== verification/_CoqProject ===== *)
-Q . S2P
Prelude.v
Intervals.v
Api.v
Object.v
TreeEdit.v
Batch.v
Provider.v
Authority.v
Config.v
Catalog.v
SegmentStore.v
StorageNode.v
Streams.v
NativeApi.v
Plane.v
Timeline.v
History.v
Gc.v
Retention.v
Coordinator.v
SegmentPool.v
CowTree.v
CowSpec.v
Trees.v
ReadPath.v
ReadSpec.v
BlockOps.v
BlockPlan.v
BlockCommit.v
Store.v
Device.v
DeviceOps.v
Devices.v
Arrays.v
Collection.v
StreamOps.v
NativeOps.v
Server.v
Client.v
ServerSpec.v
Codec.v
CodecObjects.v
CodecApi.v
Network.v
Chaos.v
NetworkSpec.v
DataLog.v
LogStore.v
LogSpec.v
Maintenance.v
Compaction.v
Publish.v
PublishSpec.v
Durable.v
Sim.v
