(* ===== verification/Prelude.v ===== *)
(** * Verification of the copy-on-write block store

    The repository is a block store with copy-on-write metadata.  A client sends
    block or file requests over a transport to a server; the server runs them on
    a coordinator; the coordinator writes payloads as immutable segments to
    storage nodes under signed grants, builds new metadata trees that refer to
    the segments, and publishes the new roots in the metadata plane, which keeps
    a commit timeline for restore, forks and garbage collection.  Paths below
    are relative to [src/src/].

    ** What each file models

    - [Prelude] (this file): errors ([error.rs]), results, the state-and-error
      monad [ST], machine integers, ordered maps, sorting and the automation the
      other files share.  [Intervals]: lists of disjoint intervals.
    - [Api] ([api.rs]), [Object] ([object.rs]), [NativeApi] ([extent.rs]),
      [Provider] ([provider.rs]): the values of the interfaces, their validation,
      the canonical encoding and the deterministic proof of grants and receipts.
    - [Authority] ([local/proof.rs]): issuing and checking grants, receipts and
      reference evidence.  [Config] ([local/config.rs], [local/util.rs]):
      configuration and payload checksums.
    - [Catalog] ([local/segment_catalog.rs]), [SegmentStore]
      ([local/segment_store.rs]), [StorageNode] ([local/storage_node.rs]): the
      life cycle of segments, their bytes, a node behind [send], the registry.
    - [TreeEdit], [Batch] ([local/metadata_tree.rs]): leaf edits and the
      collapsing of write batches.
    - [Plane], [Streams], [StreamOps], [Gc] ([local/metadata_plane.rs]): the
      state [MetadataInner] and its operations; append streams; mark and sweep.
      [Timeline], [History] and [Retention] hold their theory.
    - [Coordinator], [CowTree], [ReadPath], [BlockOps], [NativeOps]
      ([local/coordinator.rs], [local/read_path.rs],
      [local/durable/block_delta.rs], [local/durable/native_file_delta.rs]): the
      state [LocalCoordinator], the tree edits, the reads, the block and file
      operations and the replay of recorded deltas.  [CowSpec], [Trees] (trees),
      [SegmentPool] (the storage nodes behind the registry), [ReadSpec] (reads),
      [BlockPlan] (planning a batch) and [BlockCommit] (writing and marking its
      segments) hold their theory.
    - [Store], [Device], [DeviceOps], [Devices], [Arrays]: the theory of the
      coordinator as a whole.  [Store] has the invariant [cow_wf] of a
      coordinator and the cells of a device ([device_contents]), each a byte and
      whether it was written to be verified; [Device] and
      [DeviceOps] follow a write batch and a discard from the request to the
      published commit; [Devices] creation, forks, restores and deletion;
      [Arrays] the abstract machine in which a device is an array of cells;
      [Collection] runs the two custodians between requests.
    - [Server] ([local/server.rs], [local/transport/in_process.rs]), [Client]
      ([local/client.rs]): request deduplication and dispatch; the client
      methods.  [ServerSpec] holds the theory.
    - [Codec], [CodecObjects], [CodecApi] ([local/codec.rs]): the codecs of every
      stored object and message with their laws.
    - [Network] ([local/transport/network.rs], [remote.rs], [tcp.rs]), [Chaos]
      ([local/transport/chaos.rs]): frames, endpoints, typed transports, the TCP
      pipe and fault injection.  [NetworkSpec] holds the theory.
    - [DataLog] ([local/durable/data_log.rs]), [LogStore] and [Publish]
      ([local/durable/sqlite.rs], [persist.rs], [reopen.rs]), [Maintenance]
      ([local/durable/policy.rs], [maintenance.rs]): the durable payloads.  A
      record of a data log; the state [LogStore] of log files and catalogs, with
      appending and syncing; publishing segments and loading them; compaction,
      the scheduler and the background worker.  [LogSpec], [Compaction] and
      [PublishSpec] hold the theory, [Durable] the theorems on the whole.
    - [Sim] ([core/mod.rs], [sim.rs]): the machine that turns commands into
      effects, and the simulator's clock, generator, fault injector, trace and
      minimizer of failing traces.

    A mutable structure of the code is a record; the operations on it are state
    transformers [ST S A := S -> Result A * S], so that what was changed before
    an early return stays changed.  A [BTreeMap] is a [gmap] iterated in key
    order; a machine integer is a [Z] with the checks or the wrap-around of the
    code written out; a trait with several implementations is a class.

    ** What the theorems show

    - The store ([Arrays]): every sequence of block requests on a coordinator
      gives the results that the same sequence gives on plain arrays, as long as
      the 64-bit counters and sizes do not overflow ([op_bounded]); a read that
      insists on verified payloads fails exactly when its range has a byte that
      was written unchecked.  Without collections in between, a restore to a
      commit brings back the contents the device had at it, whatever was written
      since.  The custodians may run between any two requests ([Collection]): no
      live device changes.
    - Timeline ([History]): any device can be restored to any commit, checkpoint
      or time it was at; a publish is atomic; forks are isolated.
    - Collection ([Retention]): the sweep removes exactly what is unreachable,
      keeps live devices and the restore window, and preserves the invariant.
    - Trees ([Trees], [CowSpec]): an edit of a well-formed tree terminates,
      succeeds, changes no stored node and overlays exactly its ranges; the
      single-path shortcut agrees with the general routine; a new device is empty.
    - Storage ([SegmentStore], [Catalog], [StorageNode], [SegmentPool]): a granted
      write commits and reads back; a referenced segment survives every other
      request; retries are idempotent; the life cycle only moves forward.
    - Batches and streams ([Batch], [Streams], [Object]): collapsing keeps the
      last writer, publication takes exact prefixes, replay is contiguous.
    - Authority ([Authority], [Provider], [Config]): grants and receipts verify
      for what they were issued for and nothing else; the encoding is injective;
      the checksum of chunks is that of the whole.
    - Requests ([ServerSpec], [NetworkSpec]): a request identity is executed once;
      the wire of the fault injection, which loses, repeats, delays and reorders
      messages and damages the first byte of responses, cannot make it execute
      twice or return another answer; frames are exact.  Other damage is not
      covered: frames have no checksum.
    - Durability ([DataLog], [Durable]): the records of a data log are exact;
      the durable segments are a map that only flushes change, over any sequence
      of flushes, prestaged writes, compactions, maintenance ticks and crashes;
      the background worker comes to rest under a policy that lets it progress,
      with nothing left that it scans and that fits its budget; an accepted policy
      under which every candidate fits the budget of a tick but not that of one
      compaction makes it loop without end; and a tick removes a sealed log
      without live segments even if prestaged records wait in it, whose flush
      then fails.
    - Simulator ([Sim]): the generator never reaches zero and never maps two states
      to one; the minimizer of failing traces ends with a minimal one.

    ** Fuel

    Recursions that follow stored identifiers carry fuel.  [tree_fuel blocks] is
    [1 + log2_up blocks]: an internal node splits its range into at least two
    non-empty parts, so no tree is deeper ([create_device_ok],
    [replace_ranges_ok]).  [node_fuel] is the same for the range of a node.
    [mark_fuel] bounds the mark by the number of nodes and edges
    ([mark_terminates]).  The tree check uses the number of stored nodes, since
    it must also stop on a cycle.  Running out of fuel is an error value, and
    the theorems show that it is not reached.  [drain] runs the loop of the
    background worker for a number of ticks; one more than there are logs with
    dead bytes is enough ([worker_comes_to_rest]).  The minimizer of traces runs
    at most once per event ([minimizer_minimal]).

    ** What is not modelled

    - Locks are never poisoned and requests are served one at a time; timings,
      profiles and observability events have no effect on the stored state.
    - [usize] has 64 bits; arithmetic that the code does not check wraps around,
      except the counters of 128-bit identifiers, which count up in [Z].
    - When a read fails, the contents of the caller's buffer are not described.
    - The crates [crc32c] and [bincode] are parameters, with the documented laws
      of the first as a class.  Sockets are byte queues.
    - A table of SQLite is a map, a statement the change it makes and a
      transaction the composition of its statements, which is durable when it
      commits; the byte counters of a log, which SQLite keeps in 64 bits, are
      unbounded.  A file is its bytes with the number of them that were synced;
      a crash keeps the synced bytes of the files whose directory was synced
      ([crash_files]).  The only failures of the file system are missing files.
      Creating the directory of a node is not modelled.
    - Of the durable store, the tables of the metadata, the publish journals, the
      append runs of streams and the group commit of its coordinator are not
      modelled; nor the transactional key-value store and the benchmark
      binaries.  The closure given to the minimizer of traces is a function. *)

From stdpp Require Export base tactics list numbers gmap sets strings pretty sorting.
From stdpp Require Import options.

#[global] Open Scope Z_scope.

(** ** Errors ([error.rs]) *)

(** [StorageError]: the constructors of the enum, each with its reason.  The
    [id] of [NotFound] is the decimal rendering of the raw identifier. *)
Inductive StorageError : Type :=
| InvalidArgument (reason : string)
| NotFound (kind : string) (id : string)
| Conflict (reason : string)
| Unavailable (reason : string)
| Corrupt (reason : string)
| Unsupported (reason : string).

#[export] Instance StorageError_eq_dec : EqDecision StorageError.
Proof. solve_decision. Defined.

(** [StorageError::not_found(kind, id.to_string())]. *)
Definition not_found (kind : string) (id : Z) : StorageError :=
  NotFound kind (pretty id).

(** ** The result type *)

Inductive Result (A : Type) : Type :=
| Ok (a : A)
| Err (e : StorageError).
Arguments Ok {A} a.
Arguments Err {A} e.

#[export] Instance Result_eq_dec {A} `{EqDecision A} : EqDecision (Result A).
Proof. solve_decision. Defined.

#[export] Instance Result_ret : MRet Result := fun A a => Ok a.
#[export] Instance Result_bind : MBind Result :=
  fun A B f m => match m with Ok a => f a | Err e => Err e end.
#[export] Instance Result_fmap : FMap Result :=
  fun A B f m => match m with Ok a => Ok (f a) | Err e => Err e end.

(** [if cond { return Err(e) }]. *)
Definition reject_if (cond : bool) (e : StorageError) : Result unit :=
  if cond then Err e else Ok tt.

(** [Option::ok_or_else]. *)
Definition ok_or {A} (o : option A) (e : StorageError) : Result A :=
  match o with Some a => Ok a | None => Err e end.

Definition is_ok {A} (r : Result A) : bool :=
  match r with Ok _ => true | Err _ => false end.

(** A [for] loop whose body may return early with an error. *)
Fixpoint try_fold {A B} (f : B -> A -> Result B) (acc : B) (l : list A) : Result B :=
  match l with
  | [] => Ok acc
  | x :: l => acc' ← f acc x; try_fold f acc' l
  end.

(** [for x in l { check(x)?; }]. *)
Fixpoint try_for {A} (f : A -> Result unit) (l : list A) : Result unit :=
  match l with
  | [] => Ok tt
  | x :: l => f x;; try_for f l
  end.

(** [l.iter().map(f).collect::<Result<Vec<_>>>()]. *)
Fixpoint try_map {A B} (f : A -> Result B) (l : list A) : Result (list B) :=
  match l with
  | [] => Ok []
  | x :: l => y ← f x; ys ← try_map f l; Ok (y :: ys)
  end.

(** ** Stateful operations

    A method on [&mut self] (or on the data behind a mutex) that returns a
    [Result] is a function from the state to the result and the state it
    leaves behind.  What was mutated before an early return stays mutated. *)
Definition ST (S A : Type) : Type := S -> Result A * S.

#[export] Instance ST_ret {S} : MRet (ST S) := fun A a s => (Ok a, s).
#[export] Instance ST_bind {S} : MBind (ST S) :=
  fun A B f m s =>
    match m s with
    | (Ok a, s') => f a s'
    | (Err e, s') => (Err e, s')
    end.

Definition st_lift {S A} (r : Result A) : ST S A := fun s => (r, s).
Definition st_get {S} : ST S S := fun s => (Ok s, s).
Definition st_put {S} (s' : S) : ST S unit := fun _ => (Ok tt, s').
Definition st_modify {S} (f : S -> S) : ST S unit := fun s => (Ok tt, f s).
Definition st_gets {S A} (f : S -> A) : ST S A := fun s => (Ok (f s), s).
Definition st_ask {S A} (f : S -> Result A) : ST S A := fun s => (f s, s).
Definition st_reject_if {S} (cond : bool) (e : StorageError) : ST S unit :=
  st_lift (reject_if cond e).

(** [for x in l { body(x)?; }] with effects. *)
Fixpoint st_for {S A} (f : A -> ST S unit) (l : list A) : ST S unit :=
  match l with
  | [] => mret tt
  | x :: l => f x;; st_for f l
  end.

(** The same with an accumulator threaded through the iterations. *)
Fixpoint st_fold {S A B} (f : B -> A -> ST S B) (acc : B) (l : list A) : ST S B :=
  match l with
  | [] => mret acc
  | x :: l => acc' ← f acc x; st_fold f acc' l
  end.

(** [l.map(f).collect::<Result<Vec<_>>>()] with effects. *)
Fixpoint st_map {S A B} (f : A -> ST S B) (l : list A) : ST S (list B) :=
  match l with
  | [] => mret []
  | x :: l => y ← f x; ys ← st_map f l; mret (y :: ys)
  end.

(** ** Machine integers

    An unsigned [w]-bit integer is a [Z] in [0, 2^w). *)
Definition U32_MOD : Z := 2 ^ 32.
Definition U64_MOD : Z := 2 ^ 64.
Definition U128_MOD : Z := 2 ^ 128.
Definition U64_MAX : Z := U64_MOD - 1.

Definition in_u32 (z : Z) : Prop := 0 <= z < U32_MOD.
Definition in_u64 (z : Z) : Prop := 0 <= z < U64_MOD.
Definition in_u128 (z : Z) : Prop := 0 <= z < U128_MOD.

Definition checked_add (m a b : Z) : option Z :=
  if a + b <? m then Some (a + b) else None.
Definition checked_mul (m a b : Z) : option Z :=
  if a * b <? m then Some (a * b) else None.
Definition checked_sub (a b : Z) : option Z :=
  if b <=? a then Some (a - b) else None.
Definition saturating_sub (a b : Z) : Z := Z.max 0 (a - b).
Definition saturating_add (m a b : Z) : Z := Z.min (m - 1) (a + b).

(** Unchecked operators, with the wrap-around of a release build. *)
Definition wsub64 (a b : Z) : Z := (a - b) mod U64_MOD.
Definition wadd64 (a b : Z) : Z := (a + b) mod U64_MOD.
Definition wmul64 (a b : Z) : Z := (a * b) mod U64_MOD.

(** [u64::try_from(v.len())]. *)
Definition len_u64 {A} (l : list A) (e : StorageError) : Result Z :=
  if Z.of_nat (length l) <? U64_MOD then Ok (Z.of_nat (length l)) else Err e.

(** [x.is_multiple_of(m)]: a multiple of zero is only zero. *)
Definition is_multiple_of (x m : Z) : bool :=
  if m =? 0 then x =? 0 else x mod m =? 0.

Definition is_power_of_two (x : Z) : bool :=
  (0 <? x) && (Z.land x (x - 1) =? 0).

(** A byte of a payload is a [Z] in [0, 256). *)
Definition zeros (n : Z) : list Z := replicate (Z.to_nat n) 0.

(** [&v[start..start + len]] on a range inside the vector. *)
Definition slice {A} (l : list A) (start len : Z) : list A :=
  take (Z.to_nat len) (drop (Z.to_nat start) l).

(** [v[start..start + src.len()].copy_from_slice(src)]. *)
Definition splice {A} (l : list A) (start : Z) (src : list A) : list A :=
  take (Z.to_nat start) l ++ src ++ drop (Z.to_nat start + length src) l.

(** ** Ordered maps

    [BTreeMap<Id, V>] is a [gmap Z V]; its iterators go in ascending key
    order. *)
Definition key_le {V} (p q : Z * V) : Prop := p.1 <= q.1.

#[export] Instance key_le_dec {V} (p q : Z * V) : Decision (key_le p q).
Proof. unfold key_le. apply _. Defined.

Definition bt_iter {V} (m : gmap Z V) : list (Z * V) :=
  merge_sort key_le (map_to_list m).
Definition bt_keys {V} (m : gmap Z V) : list Z := (bt_iter m).*1.
Definition bt_values {V} (m : gmap Z V) : list V := (bt_iter m).*2.
Definition bs_iter (s : gset Z) : list Z := merge_sort Z.le (elements s).

(** [v.sort_by(cmp)]: a stable sort; [leb x y] holds when [cmp] does not put
    [x] after [y]. *)
Fixpoint insert_by {A} (leb : A -> A -> bool) (x : A) (l : list A) : list A :=
  match l with
  | [] => [x]
  | y :: l' => if leb x y then x :: l else y :: insert_by leb x l'
  end.
Fixpoint sort_by {A} (leb : A -> A -> bool) (l : list A) : list A :=
  match l with
  | [] => []
  | x :: l => insert_by leb x (sort_by leb l)
  end.

(** [v.sort_by_key(key)] for an integer key and for a tuple of integers. *)
Definition sort_by_key {A} (key : A -> Z) : list A -> list A :=
  sort_by (fun x y => key x <=? key y).
Fixpoint lex_leb (xs ys : list Z) : bool :=
  match xs, ys with
  | [], _ => true
  | _ :: _, [] => false
  | x :: xs, y :: ys => (x <? y) || ((x =? y) && lex_leb xs ys)
  end.
Definition sort_by_tuple {A} (key : A -> list Z) : list A -> list A :=
  sort_by (fun x y => lex_leb (key x) (key y)).

(** [iter.max_by_key(key)]: the last of the maximal elements. *)
Definition max_by_key {A} (key : A -> Z) (l : list A) : option A :=
  fold_left (fun best x =>
    match best with
    | Some b => if key b <=? key x then Some x else best
    | None => Some x
    end) l None.

(** ** Tactics and hint databases *)

Create HintDb storage.
Create Rewrite HintDb storage.

Lemma bind_Ok {A B} (m : Result A) (k : A -> Result B) b :
  m ≫= k = Ok b <-> exists a, m = Ok a /\ k a = Ok b.
Proof. destruct m; cbn; split; [eauto|intros (? & [= <-] & ?); done|intros [=]|intros (? & [=] & _)]. Qed.

Lemma reject_if_Ok c e u : reject_if c e = Ok u <-> c = false.
Proof. destruct c, u; cbn; split; congruence. Qed.

Lemma ok_or_Ok {A} (o : option A) e a : ok_or o e = Ok a <-> o = Some a.
Proof. destruct o; cbn; split; congruence. Qed.

Lemma st_bind_Ok {S A B} (m : ST S A) (k : A -> ST S B) s b s' :
  (m ≫= k) s = (Ok b, s') <->
  exists a s1, m s = (Ok a, s1) /\ k a s1 = (Ok b, s').
Proof.
  unfold mbind, ST_bind. destruct (m s) as [[a|e] s1]; split.
  - eauto.
  - intros (a' & s1' & [= <- <-] & ?). done.
  - intros [=].
  - intros (a' & s1' & [=] & _).
Qed.

Lemma st_bind_run {S A B} (m : ST S A) (k : A -> ST S B) s :
  (m ≫= k) s = match m s with (Ok a, s') => k a s' | (Err e, s') => (Err e, s') end.
Proof. done. Qed.
Lemma st_bind_step {S A B} (m : ST S A) (k : A -> ST S B) s a s1 :
  m s = (Ok a, s1) -> (m ≫= k) s = k a s1.
Proof. intros H. by rewrite st_bind_run, H. Qed.
Lemma st_bind_lift {S A B} (r : Result A) (k : A -> ST S B) s :
  (st_lift r ≫= k) s = match r with Ok a => k a s | Err e => (Err e, s) end.
Proof. by destruct r. Qed.

Lemma st_lift_Ok {S A} (r : Result A) (s : S) a s' :
  st_lift r s = (Ok a, s') <-> r = Ok a /\ s' = s.
Proof. unfold st_lift. split; [by intros [= -> <-]|by intros [-> ->]]. Qed.

Lemma st_reject_if_Ok {S} c e (s : S) u s' :
  st_reject_if c e s = (Ok u, s') <-> c = false /\ s' = s.
Proof. unfold st_reject_if. rewrite st_lift_Ok. by rewrite reject_if_Ok. Qed.

Lemma checked_add_Some m a b c :
  checked_add m a b = Some c <-> a + b < m /\ c = a + b.
Proof. unfold checked_add. case_match; split; intros; destruct_and?; simplify_eq; try done; lia. Qed.
Lemma checked_mul_Some m a b c :
  checked_mul m a b = Some c <-> a * b < m /\ c = a * b.
Proof. unfold checked_mul. case_match; split; intros; destruct_and?; simplify_eq; try done; lia. Qed.
Lemma checked_sub_Some a b c :
  checked_sub a b = Some c <-> b <= a /\ c = a - b.
Proof. unfold checked_sub. case_match; split; intros; destruct_and?; simplify_eq; try done; lia. Qed.

Lemma checked_add_ok m a b : a + b < m -> checked_add m a b = Some (a + b).
Proof. intros. by apply checked_add_Some. Qed.
Lemma checked_mul_ok m a b : a * b < m -> checked_mul m a b = Some (a * b).
Proof. intros. by apply checked_mul_Some. Qed.
Lemma checked_sub_ok a b : b <= a -> checked_sub a b = Some (a - b).
Proof. intros. by apply checked_sub_Some. Qed.

Lemma len_u64_Ok {A} (l : list A) e n :
  len_u64 l e = Ok n <-> n = Z.of_nat (length l) /\ in_u64 n.
Proof.
  unfold len_u64, in_u64. case_match; split; intros; destruct_and?; simplify_eq; try done; lia.
Qed.

Lemma pair_of_fst {A B} (p : A * B) a : p.1 = a -> p = (a, p.2).
Proof. by destruct p; intros [= <-]. Qed.

Lemma wsub64_exact a b : in_u64 a -> 0 <= b <= a -> wsub64 a b = a - b.
Proof. unfold wsub64, in_u64. intros. apply Z.mod_small. lia. Qed.
Lemma wadd64_exact a b : 0 <= a + b < U64_MOD -> wadd64 a b = a + b.
Proof. unfold wadd64. intros. apply Z.mod_small. lia. Qed.
Lemma wmul64_exact a b : 0 <= a * b < U64_MOD -> wmul64 a b = a * b.
Proof. unfold wmul64. intros. apply Z.mod_small. lia. Qed.

#[export] Hint Rewrite @bind_Ok reject_if_Ok @ok_or_Ok @st_bind_Ok
  checked_add_Some checked_mul_Some checked_sub_Some @len_u64_Ok : storage.

(** [ok_inv]: open every hypothesis saying that a computation succeeded. *)
Ltac ok_inv_step :=
  match goal with
  | H : exists _, _ |- _ => destruct H
  | u : unit |- _ => destruct u
  | H : _ /\ _ |- _ => destruct H
  | H : Ok _ = Ok _ |- _ => injection H as H
  | H : Err _ = Ok _ |- _ => discriminate H
  | H : Ok _ = Err _ |- _ => discriminate H
  | H : (_ ≫= _) = Ok _ |- _ => apply bind_Ok in H
  | H : reject_if _ _ = Ok _ |- _ => apply reject_if_Ok in H
  | H : ok_or _ _ = Ok _ |- _ => apply ok_or_Ok in H
  | H : checked_add _ _ _ = Some _ |- _ => apply checked_add_Some in H
  | H : checked_mul _ _ _ = Some _ |- _ => apply checked_mul_Some in H
  | H : checked_sub _ _ = Some _ |- _ => apply checked_sub_Some in H
  | H : len_u64 _ _ = Ok _ |- _ => apply len_u64_Ok in H
  | H : (_ ≫= _) _ = (Ok _, _) |- _ => apply st_bind_Ok in H
  | H : st_lift _ _ = (Ok _, _) |- _ => unfold st_lift in H
  | H : st_ask _ _ = (Ok _, _) |- _ => unfold st_ask in H
  | H : st_get _ = (Ok _, _) |- _ => unfold st_get in H
  | H : st_gets _ _ = (Ok _, _) |- _ => unfold st_gets in H
  | H : st_put _ _ = (Ok _, _) |- _ => unfold st_put in H
  | H : st_modify _ _ = (Ok _, _) |- _ => unfold st_modify in H
  | H : st_reject_if _ _ _ = (Ok _, _) |- _ => unfold st_reject_if in H
  | H : mret _ _ = (Ok _, _) |- _ => unfold mret, ST_ret in H
  | H : mret _ = Ok _ |- _ => unfold mret, Result_ret in H
  | H : (_, _) = (_, _) |- _ => injection H as ? H
  | H : (if ?b then Err _ else _) = Ok _ |- _ => destruct b eqn:?; [discriminate H|]
  | H : (if ?b then _ else Err _) = Ok _ |- _ => destruct b eqn:?; [|discriminate H]
  end.
Ltac ok_inv := repeat (ok_inv_step; simplify_eq/=).

(** [bool_prop]: turn boolean tests in the context into propositions. *)
Ltac bool_prop :=
  repeat match goal with
  | H : _ && _ = true |- _ => apply andb_prop in H as [? ?]
  | H : _ || _ = false |- _ => apply orb_false_elim in H as [? ?]
  | H : negb _ = true |- _ => apply negb_true_iff in H
  | H : negb _ = false |- _ => apply negb_false_iff in H
  | H : bool_decide _ = true |- _ => apply bool_decide_eq_true in H
  | H : bool_decide _ = false |- _ => apply bool_decide_eq_false in H
  | H : Is_true _ |- _ => apply Is_true_eq_true in H
  | H : (_ =? _) = true |- _ => apply Z.eqb_eq in H
  | H : (_ =? _) = false |- _ => apply Z.eqb_neq in H
  | H : (_ <? _) = true |- _ => apply Z.ltb_lt in H
  | H : (_ <? _) = false |- _ => apply Z.ltb_ge in H
  | H : (_ <=? _) = true |- _ => apply Z.leb_le in H
  | H : (_ <=? _) = false |- _ => apply Z.leb_gt in H
  end.

(** [ztest]: evaluate the integer comparisons of the goal that [lia] decides. *)
Ltac ztest_step :=
  match goal with
  | |- context [?a =? ?b] =>
      first [rewrite (proj2 (Z.eqb_eq a b)) by lia | rewrite (proj2 (Z.eqb_neq a b)) by lia]
  | |- context [?a <? ?b] =>
      first [rewrite (proj2 (Z.ltb_lt a b)) by lia | rewrite (proj2 (Z.ltb_ge a b)) by lia]
  | |- context [?a <=? ?b] =>
      first [rewrite (proj2 (Z.leb_le a b)) by lia | rewrite (proj2 (Z.leb_gt a b)) by lia]
  end.
Ltac ztest :=
  repeat (ztest_step; cbn [andb orb negb reject_if mbind Result_bind ok_or]).

(** [conj_split]: split conjunctions only (never an equation). *)
Ltac conj_split := repeat match goal with |- _ /\ _ => split end.

(** [syn_done]: close a goal that is syntactically a hypothesis or [x = x];
    for goals with terms whose unfolding is expensive. *)
Ltac syn_done :=
  match goal with
  | |- ?a = ?b => constr_eq a b; reflexivity
  | |- ?P => match goal with H : ?Q |- _ => constr_eq P Q; exact H end
  end.

Ltac u64_unfold := unfold in_u64, in_u32, in_u128, U64_MAX, U64_MOD, U32_MOD, U128_MOD in *.

(** ** Loops *)

Lemma try_for_Ok {A} (f : A -> Result unit) l u :
  try_for f l = Ok u <-> Forall (fun x => f x = Ok tt) l.
Proof.
  destruct u. induction l as [|x l IH]; cbn [try_for]; [naive_solver|].
  rewrite bind_Ok, Forall_cons, <- IH. split; [|naive_solver].
  intros ([] & ? & ?). done.
Qed.

Lemma try_map_Ok {A B} (f : A -> Result B) l l' :
  try_map f l = Ok l' <-> Forall2 (fun x y => f x = Ok y) l l'.
Proof.
  revert l'. induction l as [|x l IH]; intros l'; cbn [try_map].
  - split; [intros [= <-]; constructor|]. by intros ->%Forall2_nil_inv_l.
  - rewrite bind_Ok. setoid_rewrite bind_Ok. split.
    + intros (y & Hy & ys & ?%IH & [= <-]). by constructor.
    + intros (y & ys & ? & ?%IH & ->)%Forall2_cons_inv_l. eauto.
Qed.

Lemma try_fold_inv {A B} (P : list A -> B -> Prop) (f : B -> A -> Result B) b0 l b :
  P [] b0 ->
  (forall done x acc acc', (exists rest, l = done ++ x :: rest) ->
     P done acc -> f acc x = Ok acc' -> P (done ++ [x]) acc') ->
  try_fold f b0 l = Ok b -> P l b.
Proof.
  intros H0 Hstep.
  cut (forall done rest acc, l = done ++ rest -> P done acc ->
         try_fold f acc rest = Ok b -> P l b).
  { intros Hcut. by apply (Hcut [] l). }
  intros done rest. revert done. induction rest as [|x rest IH]; intros done acc Hl HP Hf.
  - simplify_eq/=. by rewrite app_nil_r.
  - cbn [try_fold] in Hf. ok_inv.
    eapply (IH (done ++ [x])); [by rewrite <-app_assoc| |done]. eauto.
Qed.

(** ** Effects as relations

    [st_rel R m]: whatever [m] returns, the state it leaves is related by the
    preorder [R] to the state it found. *)
Definition st_rel {T A} (R : relation T) (m : ST T A) : Prop :=
  forall s r s', m s = (r, s') -> R s s'.

Section st_rel.
Context {T : Type} (R : relation T) `{!PreOrder R}.

Lemma st_rel_ret {A} (a : A) : st_rel R (mret a).
Proof using PreOrder0. intros s r s' [= _ <-]. reflexivity. Qed.
Lemma st_rel_lift {A} (x : Result A) : st_rel R (st_lift x).
Proof using PreOrder0. intros s r s' [= _ <-]. reflexivity. Qed.
Lemma st_rel_get : st_rel R st_get.
Proof using PreOrder0. intros s r s' [= _ <-]. reflexivity. Qed.
Lemma st_rel_gets {A} (f : T -> A) : st_rel R (st_gets f).
Proof using PreOrder0. intros s r s' [= _ <-]. reflexivity. Qed.
Lemma st_rel_ask {A} (f : T -> Result A) : st_rel R (st_ask f).
Proof using PreOrder0. intros s r s' [= _ <-]. reflexivity. Qed.
Lemma st_rel_reject_if c e : st_rel R (st_reject_if c e).
Proof using PreOrder0. apply st_rel_lift. Qed.
Lemma st_rel_modify f : (forall s, R s (f s)) -> st_rel R (st_modify f).
Proof using Type. intros Hf s r s' [= _ <-]. apply Hf. Qed.
Lemma st_rel_bind {A B} (m : ST T A) (k : A -> ST T B) :
  st_rel R m -> (forall a, st_rel R (k a)) -> st_rel R (m ≫= k).
Proof using PreOrder0.
  intros Hm Hk s r s'. unfold mbind, ST_bind. destruct (m s) as [[a|e] s1] eqn:Hs.
  - intros Hr. etrans; [by eapply Hm|by eapply Hk].
  - intros [= _ <-]. by eapply Hm.
Qed.
Lemma st_rel_map {A B} (f : A -> ST T B) l :
  (forall a, st_rel R (f a)) -> st_rel R (st_map f l).
Proof using PreOrder0.
  intros Hf. induction l as [|x l IH]; cbn [st_map]; [apply st_rel_ret|].
  apply st_rel_bind; [done|]. intros y. apply st_rel_bind; [done|]. intros. apply st_rel_ret.
Qed.
Lemma st_rel_fold {A B} (f : B -> A -> ST T B) b l :
  (forall b a, st_rel R (f b a)) -> st_rel R (st_fold f b l).
Proof using PreOrder0.
  intros Hf. revert b. induction l as [|x l IH]; intros b; cbn [st_fold]; [apply st_rel_ret|].
  by apply st_rel_bind.
Qed.
Lemma st_rel_for {A} (f : A -> ST T unit) l :
  (forall a, st_rel R (f a)) -> st_rel R (st_for f l).
Proof using PreOrder0.
  intros Hf. induction l as [|x l IH]; cbn [st_for]; [apply st_rel_ret|]. by apply st_rel_bind.
Qed.
End st_rel.

(** A loop whose steps are related by [R] on the elements it visits; a fact that
    a successful step leaves, and that [R] keeps, holds at the end. *)
Lemma st_for_run {T A} (R : relation T) `{!PreOrder R} (Q : A -> T -> Prop)
    (f : A -> ST T unit) l s r s' :
  (forall a s1 r1 s2, a ∈ l -> R s s1 -> f a s1 = (r1, s2) -> R s1 s2 /\ (r1 = Ok tt -> Q a s2)) ->
  (forall a s1 s2, R s1 s2 -> Q a s1 -> Q a s2) ->
  st_for f l s = (r, s') -> R s s' /\ (r = Ok tt -> forall a, a ∈ l -> Q a s').
Proof.
  intros Hf HQ. assert (Hgen : forall s0, R s s0 -> st_for f l s0 = (r, s') ->
    R s0 s' /\ (r = Ok tt -> forall a, a ∈ l -> Q a s')).
  2:{ apply Hgen. reflexivity. }
  induction l as [|a l IH]; intros s0 H0; cbn [st_for].
  { intros [= <- <-]. split; [reflexivity|]. by intros _ a ?%not_elem_of_nil. }
  unfold mbind, ST_bind. destruct (f a s0) as [[[]|e] s1] eqn:Ha; intros H.
  - destruct (Hf a s0 (Ok tt) s1) as [H01 HQa]; [by left|done|done|].
    destruct (IH ltac:(intros; eapply Hf; [by right|done|done]) s1) as [H1' HQl]; [by etrans|done|].
    split; [by etrans|]. intros -> a' [->|Ha']%elem_of_cons; [|by apply HQl].
    eapply HQ; [exact H1'|]. by apply HQa.
  - injection H as <- <-. destruct (Hf a s0 (Err e) s1) as [H01 _]; [by left|done|done|]. by split.
Qed.

(** [st_rel_tac]: decompose a monadic program down to its state changes. *)
Ltac st_rel_step :=
  match goal with
  | |- st_rel _ (_ ≫= _) => apply st_rel_bind; [typeclasses eauto| |intros ?]
  | |- st_rel _ (mret _) => apply st_rel_ret; typeclasses eauto
  | |- st_rel _ (st_lift _) => apply st_rel_lift; typeclasses eauto
  | |- st_rel _ st_get => apply st_rel_get; typeclasses eauto
  | |- st_rel _ (st_gets _) => apply st_rel_gets; typeclasses eauto
  | |- st_rel _ (st_ask _) => apply st_rel_ask; typeclasses eauto
  | |- st_rel _ (st_reject_if _ _) => apply st_rel_reject_if; typeclasses eauto
  | |- st_rel _ (st_map _ _) => apply st_rel_map; [typeclasses eauto|intros ?]
  | |- st_rel _ (st_fold _ _ _) => apply st_rel_fold; [typeclasses eauto|intros ? ?]
  | |- st_rel _ (st_for _ _) => apply st_rel_for; [typeclasses eauto|intros ?]
  | |- st_rel _ (if ?b then _ else _) => destruct b eqn:?
  | |- st_rel _ (match ?x with _ => _ end) => destruct x eqn:?
  | |- st_rel _ (let _ := _ in _) => cbv zeta
  end.
Ltac st_rel_tac := repeat st_rel_step.

(** [st_err R m]: the same of the failing runs of [m] only. *)
Definition st_err {T A} (R : relation T) (m : ST T A) : Prop :=
  forall s e s', m s = (Err e, s') -> R s s'.

Lemma st_err_rel {T A} (R : relation T) (m : ST T A) : st_rel R m -> st_err R m.
Proof. intros Hm s e s'. apply Hm. Qed.
Lemma st_err_never {T A} (R : relation T) (m : ST T A) : (forall s, is_ok (m s).1) -> st_err R m.
Proof. intros Hm s e s' H. specialize (Hm s). by rewrite H in Hm. Qed.
Lemma st_err_bind {T A B} (R : relation T) `{!PreOrder R} (m : ST T A) (k : A -> ST T B) :
  st_rel R m -> (forall a, st_err R (k a)) -> st_err R (m ≫= k).
Proof.
  intros Hm Hk s e s'. unfold mbind, ST_bind. destruct (m s) as [[a|e'] s1] eqn:E; intros H.
  - etrans; [by eapply Hm|by eapply Hk].
  - injection H as <- <-. by eapply Hm.
Qed.

(** ** Runs of state transformers *)

(** [st_run m s Q E]: [m] from [s] succeeds with [Q] or fails with [E]. *)
Definition st_run {T A} (m : ST T A) (s : T) (Q : A -> T -> Prop) (E : T -> Prop) : Prop :=
  match m s with (Ok a, s') => Q a s' | (Err _, s') => E s' end.

Section st_run.
Context {T : Type}.

Lemma st_run_mono {A} (m : ST T A) s (Q Q' : A -> T -> Prop) (E E' : T -> Prop) :
  st_run m s Q E -> (forall a s', Q a s' -> Q' a s') -> (forall s', E s' -> E' s') -> st_run m s Q' E'.
Proof. unfold st_run. destruct (m s) as [[a|e] s']; auto. Qed.
Lemma st_run_bind {A B} (m : ST T A) (k : A -> ST T B) s Q E :
  st_run m s (fun a s' => st_run (k a) s' Q E) E -> st_run (m ≫= k) s Q E.
Proof. unfold st_run. rewrite st_bind_run. by destruct (m s) as [[a|e] s']. Qed.
Lemma st_run_ret {A} (a : A) s (Q : A -> T -> Prop) (E : T -> Prop) : Q a s -> st_run (mret a) s Q E.
Proof. done. Qed.
Lemma st_run_lift {A} (r : Result A) s (Q : A -> T -> Prop) (E : T -> Prop) :
  (forall a, r = Ok a -> Q a s) -> E s -> st_run (st_lift r) s Q E.
Proof. unfold st_run, st_lift. destruct r; auto. Qed.
Lemma st_run_ask {A} (f : T -> Result A) s (Q : A -> T -> Prop) (E : T -> Prop) :
  (forall a, f s = Ok a -> Q a s) -> E s -> st_run (st_ask f) s Q E.
Proof. unfold st_run, st_ask. destruct (f s); auto. Qed.
Lemma st_run_modify f s (Q : unit -> T -> Prop) (E : T -> Prop) : Q tt (f s) -> st_run (st_modify f) s Q E.
Proof. done. Qed.
Lemma st_run_get s (Q : T -> T -> Prop) (E : T -> Prop) : Q s s -> st_run st_get s Q E.
Proof. done. Qed.
Lemma st_run_gets {A} (f : T -> A) s (Q : A -> T -> Prop) (E : T -> Prop) :
  Q (f s) s -> st_run (st_gets f) s Q E.
Proof. done. Qed.
Lemma st_run_reject_if c e s (Q : unit -> T -> Prop) (E : T -> Prop) :
  (c = false -> Q tt s) -> E s -> st_run (st_reject_if c e) s Q E.
Proof. unfold st_run, st_reject_if, st_lift, reject_if. destruct c; auto. Qed.

(** Loops: [I] of what was done so far. *)
Lemma st_run_fold {A B} (f : B -> A -> ST T B) (I : list A -> B -> T -> Prop) (E : T -> Prop) l b s :
  I [] b s ->
  (forall done x rest b s, l = done ++ x :: rest -> I done b s ->
     st_run (f b x) s (fun b' s' => I (done ++ [x]) b' s') E) ->
  st_run (st_fold f b l) s (fun b' s' => I l b' s') E.
Proof.
  intros H0 Hstep. cut (forall rest done b s, l = done ++ rest -> I done b s ->
    st_run (st_fold f b rest) s (fun b' s' => I l b' s') E); [intros Hc; by apply (Hc l [])|].
  clear b s H0. induction rest as [|x rest IH]; intros done b s Hl HI; cbn [st_fold].
  - rewrite app_nil_r in Hl. subst. by apply st_run_ret.
  - apply st_run_bind. eapply st_run_mono; [by eapply Hstep| |done]. intros b' s' HI'.
    eapply IH; [|done]. by rewrite <-app_assoc.
Qed.
Lemma st_run_for {A} (f : A -> ST T unit) (I : list A -> T -> Prop) (E : T -> Prop) l s :
  I [] s ->
  (forall done x rest s, l = done ++ x :: rest -> I done s ->
     st_run (f x) s (fun _ s' => I (done ++ [x]) s') E) ->
  st_run (st_for f l) s (fun _ s' => I l s') E.
Proof.
  intros H0 Hstep. cut (forall rest done s, l = done ++ rest -> I done s ->
    st_run (st_for f rest) s (fun _ s' => I l s') E); [intros Hc; by apply (Hc l [])|].
  clear s H0. induction rest as [|x rest IH]; intros done s Hl HI; cbn [st_for].
  - rewrite app_nil_r in Hl. subst. by apply st_run_ret.
  - apply st_run_bind. eapply st_run_mono; [by eapply Hstep| |done]. intros [] s' HI'.
    eapply IH; [|done]. by rewrite <-app_assoc.
Qed.
Lemma st_run_map {A B} (f : A -> ST T B) (R : A -> B -> Prop) l s :
  (forall x, x ∈ l -> st_run (f x) s (fun y s' => R x y /\ s' = s) (fun s' => s' = s)) ->
  st_run (st_map f l) s (fun l' s' => Forall2 R l l' /\ s' = s) (fun s' => s' = s).
Proof.
  induction l as [|x l IH]; intros Hf; cbn [st_map]; [apply st_run_ret; by split|].
  apply st_run_bind. eapply st_run_mono; [apply Hf; by left| |done]. intros y s' [Hy ->].
  apply st_run_bind. eapply st_run_mono; [apply IH; intros; apply Hf; by right| |done].
  intros l' s' [Hl ->]. apply st_run_ret. split; [by constructor|done].
Qed.
Lemma st_run_elim {A} (m : ST T A) s (Q : A -> T -> Prop) (E : T -> Prop) r s' :
  st_run m s Q E -> m s = (r, s') -> match r with Ok a => Q a s' | Err _ => E s' end.
Proof. unfold st_run. intros H Hm. rewrite Hm in H. by destruct r. Qed.
End st_run.

Ltac st_step :=
  match goal with
  | |- st_run (_ ≫= _) _ _ _ => apply st_run_bind
  | |- st_run (mret _) _ _ _ => apply st_run_ret
  | |- st_run (st_lift _) _ _ _ => apply st_run_lift; [intros|]
  | |- st_run (st_ask _) _ _ _ => apply st_run_ask; [intros|]
  | |- st_run (st_modify _) _ _ _ => apply st_run_modify
  | |- st_run st_get _ _ _ => apply st_run_get
  | |- st_run (st_gets _) _ _ _ => apply st_run_gets
  | |- st_run (st_reject_if _ _) _ _ _ => apply st_run_reject_if; [intros|]
  end.

(** ** Sorting *)

Lemma insert_by_perm {A} leb (x : A) l : insert_by leb x l ≡ₚ x :: l.
Proof.
  induction l as [|y l IH]; cbn; [done|]. case_match; [done|].
  rewrite IH. apply Permutation_swap.
Qed.
Lemma sort_by_perm {A} leb (l : list A) : sort_by leb l ≡ₚ l.
Proof. induction l as [|x l IH]; cbn; [done|]. by rewrite insert_by_perm, IH. Qed.
Lemma sort_by_key_perm {A} key (l : list A) : sort_by_key key l ≡ₚ l.
Proof. apply sort_by_perm. Qed.
Lemma sort_by_tuple_perm {A} key (l : list A) : sort_by_tuple key l ≡ₚ l.
Proof. apply sort_by_perm. Qed.

Section sort_by.
Context {A : Type} (leb : A -> A -> bool).
Hypothesis leb_total : forall x y, leb x y = false -> leb y x = true.
Hypothesis leb_trans : forall x y z, leb x y = true -> leb y z = true -> leb x z = true.

Lemma insert_by_sorted x l :
  StronglySorted leb l -> StronglySorted leb (insert_by leb x l).
Proof using leb_total leb_trans.
  induction 1 as [|y l HS IH Hf]; cbn; [repeat constructor|].
  destruct (leb x y) eqn:Hxy.
  - constructor; [by constructor|]. constructor; [by rewrite Hxy|].
    eapply Forall_impl; [exact Hf|]. cbn. intros z Hz%Is_true_true.
    apply Is_true_true. eauto.
  - constructor; [done|]. rewrite insert_by_perm.
    constructor; [by apply Is_true_true, leb_total|done].
Qed.

Lemma sort_by_sorted l : StronglySorted leb (sort_by leb l).
Proof using leb_total leb_trans.
  induction l; cbn; [constructor|]. by apply insert_by_sorted.
Qed.

Lemma sort_by_id l : StronglySorted leb l -> sort_by leb l = l.
Proof using Type.
  induction 1 as [|x l HS IH Hf]; cbn; [done|]. rewrite IH.
  destruct l as [|y l]; cbn; [done|]. inversion Hf as [|? ? Hxy]; subst.
  apply Is_true_true in Hxy. by rewrite Hxy.
Qed.

(** The sort is stable, so it commutes with a filter. *)
Lemma filter_insert_by (P : A -> Prop) `{!forall x, Decision (P x)} x l :
  StronglySorted leb l ->
  filter P (insert_by leb x l) =
  if decide (P x) then insert_by leb x (filter P l) else filter P l.
Proof using leb_trans.
  induction 1 as [|y l HS IH Hf]; cbn [insert_by]; [by rewrite filter_cons|].
  destruct (leb x y) eqn:Hxy.
  - rewrite (filter_cons P x). destruct (decide (P x)) as [Px|]; [|done].
    assert (Hall : Forall (fun z => leb x z = true) (filter P (y :: l))).
    { apply Forall_forall. intros z [_ Hz]%list_elem_of_filter.
      apply elem_of_cons in Hz as [->|Hz]; [done|]. rewrite Forall_forall in Hf.
      specialize (Hf z Hz). apply Is_true_true in Hf. by eapply leb_trans. }
    destruct Hall as [|z l' Hz _]; cbn [insert_by]; [done|]. by rewrite Hz.
  - rewrite !(filter_cons P y), IH. destruct (decide (P x)), (decide (P y)); try done.
    cbn [insert_by]. by rewrite Hxy.
Qed.

Lemma filter_sort_by (P : A -> Prop) `{!forall x, Decision (P x)} l :
  filter P (sort_by leb l) = sort_by leb (filter P l).
Proof using leb_total leb_trans.
  induction l as [|x l IH]; [done|]. cbn [sort_by].
  rewrite filter_insert_by by apply sort_by_sorted. rewrite filter_cons, IH. by case_decide.
Qed.

(** Lists without ties have one sorted permutation. *)
Lemma sort_by_perm_eq l l' :
  (forall x y, x ∈ l -> y ∈ l -> leb x y = true -> leb y x = true -> x = y) ->
  l ≡ₚ l' -> sort_by leb l = sort_by leb l'.
Proof using leb_total leb_trans.
  intros Hanti Hp.
  assert (Hs : sort_by leb l ≡ₚ sort_by leb l') by (by rewrite !sort_by_perm).
  assert (Hin : forall x, x ∈ sort_by leb l -> x ∈ l) by (intros x; by rewrite sort_by_perm).
  generalize (sort_by_sorted l) (sort_by_sorted l') Hs Hin.
  generalize (sort_by leb l) (sort_by leb l'). clear Hp Hs Hin.
  intros s1. induction s1 as [|x s1 IH]; intros s2 H1 H2 Hp Hin.
  { symmetry in Hp. by apply Permutation_nil_r in Hp. }
  destruct s2 as [|y s2]; [by apply Permutation_nil_r in Hp|].
  assert (x = y) as ->.
  { apply Hanti.
    - apply Hin. left.
    - apply Hin. rewrite Hp. left.
    - apply StronglySorted_inv in H1 as [_ Hf].
      assert (Hy : y ∈ x :: s1) by (rewrite Hp; left).
      apply elem_of_cons in Hy as [->|Hy].
      + destruct (leb x x) eqn:E; [done|]. rewrite (leb_total _ _ E) in E. done.
      + rewrite Forall_forall in Hf. by apply Is_true_true, Hf.
    - apply StronglySorted_inv in H2 as [_ Hf].
      assert (Hx : x ∈ y :: s2) by (rewrite <-Hp; left).
      apply elem_of_cons in Hx as [->|Hx].
      + destruct (leb y y) eqn:E; [done|]. rewrite (leb_total _ _ E) in E. done.
      + rewrite Forall_forall in Hf. by apply Is_true_true, Hf. }
  f_equal. apply IH.
  - by apply StronglySorted_inv in H1 as [? _].
  - by apply StronglySorted_inv in H2 as [? _].
  - by apply Permutation_cons_inv in Hp.
  - intros z Hz. apply Hin. by right.
Qed.
End sort_by.

Definition sorted_by {A} (key : A -> Z) : list A -> Prop :=
  StronglySorted (fun x y => key x <= key y).

Lemma StronglySorted_impl' {A} (R R' : A -> A -> Prop) l :
  (forall x y, R x y -> R' x y) -> StronglySorted R l -> StronglySorted R' l.
Proof.
  intros HR. induction 1; constructor; [done|]. eapply Forall_impl; [done|]. auto.
Qed.

Lemma sort_by_key_sorted {A} key (l : list A) : sorted_by key (sort_by_key key l).
Proof.
  eapply StronglySorted_impl'; [|apply sort_by_sorted].
  - cbn. intros x y H. bool_prop. lia.
  - intros x y H. bool_prop. lia.
  - intros x y z H1 H2. bool_prop. lia.
Qed.
Lemma sort_by_key_id {A} key (l : list A) : sorted_by key l -> sort_by_key key l = l.
Proof.
  intros H. apply sort_by_id. eapply StronglySorted_impl'; [|exact H].
  cbn. intros x y ?. apply Is_true_true. lia.
Qed.

Lemma lex_leb_total xs ys : lex_leb xs ys = false -> lex_leb ys xs = true.
Proof.
  revert ys. induction xs as [|x xs IH]; intros [|y ys]; cbn; try done.
  intros H. destruct (Z.lt_trichotomy x y) as [?|[->|?]].
  - rewrite (proj2 (Z.ltb_lt x y)) in H by done. done.
  - rewrite Z.ltb_irrefl, Z.eqb_refl in *. cbn in *. auto.
  - by rewrite (proj2 (Z.ltb_lt y x)).
Qed.
Lemma lex_leb_refl xs : lex_leb xs xs = true.
Proof. induction xs as [|x xs IH]; cbn; [done|]. by rewrite Z.eqb_refl, IH, orb_true_r. Qed.
Lemma lex_leb_trans xs ys zs :
  lex_leb xs ys = true -> lex_leb ys zs = true -> lex_leb xs zs = true.
Proof.
  revert ys zs. induction xs as [|x xs IH]; intros [|y ys] [|z zs]; cbn; try done.
  rewrite !orb_true_iff, !andb_true_iff, !Z.ltb_lt, !Z.eqb_eq.
  intros [?|[-> ?]] [?|[-> ?]]; [left; lia|left; lia|left; lia|right]. eauto.
Qed.
Lemma lex_leb_antisym xs ys : lex_leb xs ys = true -> lex_leb ys xs = true -> xs = ys.
Proof.
  revert ys. induction xs as [|x xs IH]; intros [|y ys]; cbn; try done.
  rewrite !orb_true_iff, !andb_true_iff, !Z.ltb_lt, !Z.eqb_eq.
  intros [?|[-> ?]] [?|[? ?]]; try lia. f_equal. auto.
Qed.

Lemma sort_by_tuple_sorted {A} key (l : list A) :
  StronglySorted (fun x y => lex_leb (key x) (key y)) (sort_by_tuple key l).
Proof. apply sort_by_sorted; intros; eauto using lex_leb_total, lex_leb_trans. Qed.

Lemma sort_by_tuple_perm_eq {A} key (l l' : list A) :
  (forall x y, x ∈ l -> y ∈ l -> key x = key y -> x = y) ->
  l ≡ₚ l' -> sort_by_tuple key l = sort_by_tuple key l'.
Proof.
  intros Hk. apply sort_by_perm_eq; eauto using lex_leb_total, lex_leb_trans, lex_leb_antisym.
Qed.

Lemma StronglySorted_rev {A} (R : A -> A -> Prop) l :
  StronglySorted (fun x y => R y x) l -> StronglySorted R (rev l).
Proof.
  induction 1 as [|x l HS IH Hf]; cbn; [constructor|].
  apply StronglySorted_app_2; [|done|by repeat constructor].
  intros y z Hy ->%list_elem_of_singleton. rewrite Forall_forall in Hf. apply Hf.
  rewrite list_elem_of_In in Hy |- *. by apply in_rev.
Qed.

(** ** Ordered maps *)

Lemma bt_iter_perm {V} (m : gmap Z V) : bt_iter m ≡ₚ map_to_list m.
Proof. apply merge_sort_Permutation. Qed.

Lemma elem_of_bt_iter {V} (m : gmap Z V) k v :
  (k, v) ∈ bt_iter m <-> m !! k = Some v.
Proof. rewrite bt_iter_perm. apply elem_of_map_to_list. Qed.

Lemma bt_iter_sorted {V} (m : gmap Z V) : StronglySorted key_le (bt_iter m).
Proof.
  apply StronglySorted_merge_sort.
  - intros [a x] [b y] [c z]. unfold key_le. cbn. lia.
  - intros [a x] [b y]. unfold key_le. cbn. lia.
Qed.

Lemma bt_keys_nodup {V} (m : gmap Z V) : NoDup (bt_keys m).
Proof. unfold bt_keys. rewrite bt_iter_perm. apply NoDup_fst_map_to_list. Qed.

Lemma elem_of_bt_keys {V} (m : gmap Z V) k : k ∈ bt_keys m <-> is_Some (m !! k).
Proof.
  unfold bt_keys. rewrite list_elem_of_fmap. split.
  - intros ([k' v] & -> & Hv%elem_of_bt_iter). by exists v.
  - intros [v Hv]. exists (k, v). by rewrite elem_of_bt_iter.
Qed.

Lemma elem_of_bt_values {V} (m : gmap Z V) v :
  v ∈ bt_values m <-> exists k, m !! k = Some v.
Proof.
  unfold bt_values. rewrite list_elem_of_fmap. split.
  - intros ([k v'] & -> & Hv%elem_of_bt_iter). eauto.
  - intros [k Hv]. exists (k, v). by rewrite elem_of_bt_iter.
Qed.

Lemma elem_of_bs_iter (s : gset Z) k : k ∈ bs_iter s <-> k ∈ s.
Proof.
  unfold bs_iter. rewrite merge_sort_Permutation. apply elem_of_elements.
Qed.

(** ** Byte vectors *)

Section slices.
Context {A : Type}.
Implicit Types l src : list A.

Lemma slice_length l start len :
  0 <= start -> 0 <= len -> start + len <= Z.of_nat (length l) ->
  Z.of_nat (length (slice l start len)) = len.
Proof. intros. unfold slice. rewrite length_take, length_drop. lia. Qed.

Lemma slice_lookup l start len (i : nat) :
  0 <= start -> Z.of_nat i < len ->
  slice l start len !! i = l !! (Z.to_nat start + i)%nat.
Proof.
  intros. unfold slice. rewrite lookup_take_lt by lia. by rewrite lookup_drop.
Qed.

Lemma splice_length l start src :
  0 <= start -> start + Z.of_nat (length src) <= Z.of_nat (length l) ->
  length (splice l start src) = length l.
Proof.
  intros. unfold splice. rewrite !length_app, length_take, length_drop. lia.
Qed.

Lemma splice_lookup_in l start src (i : nat) :
  0 <= start -> start + Z.of_nat (length src) <= Z.of_nat (length l) ->
  start <= Z.of_nat i < start + Z.of_nat (length src) ->
  splice l start src !! i = src !! (i - Z.to_nat start)%nat.
Proof.
  intros. unfold splice.
  rewrite lookup_app_r; rewrite length_take; [|lia].
  rewrite lookup_app_l; [|lia]. f_equal. lia.
Qed.

Lemma splice_lookup_out l start src (i : nat) :
  0 <= start -> start + Z.of_nat (length src) <= Z.of_nat (length l) ->
  Z.of_nat i < start \/ start + Z.of_nat (length src) <= Z.of_nat i ->
  splice l start src !! i = l !! i.
Proof.
  intros ? ? [?|?]; unfold splice.
  - rewrite lookup_app_l; [|rewrite length_take; lia].
    rewrite lookup_take_lt; [done|lia].
  - rewrite lookup_app_r; rewrite length_take; [|lia].
    rewrite lookup_app_r; [|lia]. rewrite lookup_drop. f_equal. lia.
Qed.
End slices.

#[export] Hint Resolve elem_of_bt_iter bt_iter_sorted bt_keys_nodup : storage.
