(* ===== verification/Intervals.v ===== *)
(** * Lists of disjoint intervals

    Leaf entries, collapsed writes and run extents are all lists of half-open
    intervals that carry a partial map.  This file has what they share: the
    sorted and the pairwise-disjoint lists, the map of such a list, cutting a
    range out of it, and merging neighbours. *)

From S2P Require Import Prelude.

(** The loop shape [if let Some(last) = out.last_mut() && mergeable { *last =
    merged; continue; } out.push(x)]: [try_merge last x] is the merged element,
    if any.  The vector is kept in reverse. *)
Definition coalesce_step {A} (try_merge : A -> A -> Result (option A)) (acc : list A) (x : A)
    : Result (list A) :=
  match acc with
  | last :: rest =>
    m ← try_merge last x;
    match m with
    | Some merged => Ok (merged :: rest)
    | None => Ok (x :: acc)
    end
  | [] => Ok [x]
  end.

Definition coalesce_with {A} (try_merge : A -> A -> Result (option A)) (l : list A)
    : Result (list A) :=
  acc ← try_fold (coalesce_step try_merge) [] l; Ok (rev acc).

(** The value of the first element of [l] that is defined at [x]. *)
Fixpoint first_at {A B} (f : A -> Z -> option B) (l : list A) (x : Z) : option B :=
  match l with
  | [] => None
  | a :: l => match f a x with Some b => Some b | None => first_at f l x end
  end.

Section intervals.
Context {A B : Type} (lo hi : A -> Z) (f : A -> Z -> option B).

Definition iv_before (a b : A) : Prop := hi a <= lo b.
Definition iv_disjoint (a b : A) : Prop := iv_before a b \/ iv_before b a.
Definition iv_nonempty (a : A) : Prop := lo a < hi a.

Definition iv_sorted (l : list A) : Prop :=
  StronglySorted iv_before l /\ Forall iv_nonempty l.
Definition iv_apart (l : list A) : Prop :=
  StronglySorted iv_disjoint l /\ Forall iv_nonempty l.

Definition in_range (s e x : Z) : bool := (s <=? x) && (x <? e).

(** [ps] is what remains of [a] outside [s, e). *)
Definition is_cut (s e : Z) (a : A) (ps : list A) : Prop :=
  iv_apart ps /\
  Forall (fun p => lo a <= lo p /\ hi p <= hi a /\ (hi p <= s \/ e <= lo p)) ps /\
  forall x, first_at f ps x = if in_range s e x then None else f a x.

Lemma iv_sorted_apart l : iv_sorted l -> iv_apart l.
Proof using Type.
  intros [H1 H2]. split; [|done]. eapply StronglySorted_impl'; [|done]. by left.
Qed.

Lemma iv_apart_perm l l' : l ≡ₚ l' -> iv_apart l -> iv_apart l'.
Proof using Type.
  intros Hp [HS Hn]. split; [|by rewrite <-Hp]. clear Hn. revert HS.
  induction Hp as [|x l l' Hp IH|x y l|]; intros HS; [done| | |auto].
  - apply StronglySorted_inv in HS as [HS Hf]. constructor; [auto|]. by rewrite <-Hp.
  - apply StronglySorted_inv in HS as [HS Hf]. apply StronglySorted_inv in HS as [HS Hg].
    apply Forall_cons in Hf as [Hyx Hf].
    constructor; [by constructor|]. constructor; [|done].
    destruct Hyx; [by right|by left].
Qed.

Lemma iv_apart_sort l : iv_apart l -> iv_sorted (sort_by_key lo l).
Proof using Type.
  intros Ha. apply (iv_apart_perm _ (sort_by_key lo l)) in Ha;
    [|by rewrite sort_by_key_perm].
  destruct Ha as [HS Hn]. split; [|done].
  pose proof (sort_by_key_sorted lo l) as Hso. revert HS Hn Hso.
  generalize (sort_by_key lo l). clear l. unfold sorted_by.
  induction 1 as [|x l HS IH Hf]; intros Hn Hso; [constructor|].
  apply StronglySorted_inv in Hso as [Hso Hle]. apply Forall_cons in Hn as [Hx Hn].
  constructor; [auto|]. rewrite Forall_forall in Hf, Hle, Hn |- *. intros y Hy.
  destruct (Hf y Hy) as [?|Hb]; [done|]. specialize (Hle y Hy). specialize (Hn y Hy).
  unfold iv_before, iv_nonempty in *. lia.
Qed.

Lemma iv_apart_app l1 l2 :
  iv_apart (l1 ++ l2) <->
  iv_apart l1 /\ iv_apart l2 /\ forall a b, a ∈ l1 -> b ∈ l2 -> iv_disjoint a b.
Proof using Type.
  unfold iv_apart. rewrite StronglySorted_app, Forall_app. naive_solver.
Qed.

Lemma iv_apart_nil : iv_apart [].
Proof using Type. split; constructor. Qed.

Lemma iv_apart_singleton a : iv_nonempty a -> iv_apart [a].
Proof using Type. intros. split; repeat constructor. done. Qed.

Lemma iv_sorted_app l1 l2 :
  iv_sorted (l1 ++ l2) <->
  iv_sorted l1 /\ iv_sorted l2 /\ forall a b, a ∈ l1 -> b ∈ l2 -> hi a <= lo b.
Proof using Type.
  unfold iv_sorted. rewrite StronglySorted_app, Forall_app. unfold iv_before. naive_solver.
Qed.

Lemma first_at_app l1 l2 x :
  first_at f (l1 ++ l2) x =
  match first_at f l1 x with Some b => Some b | None => first_at f l2 x end.
Proof using Type. induction l1 as [|a l1 IH]; cbn; [done|]. by destruct (f a x). Qed.

Lemma first_at_Some_elem l x b :
  first_at f l x = Some b -> exists a, a ∈ l /\ f a x = Some b.
Proof using Type.
  induction l as [|a l IH]; cbn; [done|]. destruct (f a x) eqn:Ha.
  - intros [= <-]. exists a. split; [left|done].
  - intros (a' & ? & ?)%IH. exists a'. split; [by right|done].
Qed.

Lemma first_at_None l x :
  first_at f l x = None <-> forall a, a ∈ l -> f a x = None.
Proof using Type.
  induction l as [|a l IH]; cbn.
  - split; [by intros _ a ?%not_elem_of_nil|done].
  - destruct (f a x) eqn:Ha.
    + split; [done|]. intros H. rewrite H in Ha by left. done.
    + rewrite IH. split; [intros H a' [->|?]%elem_of_cons; auto|].
      intros H a' ?. apply H. by right.
Qed.

(** The partial map of an element is defined only inside its interval. *)
Hypothesis f_dom : forall a x b, f a x = Some b -> lo a <= x < hi a.

Lemma f_outside a x : ~ (lo a <= x < hi a) -> f a x = None.
Proof using f_dom. destruct (f a x) eqn:H; [|done]. by apply f_dom in H. Qed.

Lemma first_at_apart l a x b :
  iv_apart l -> a ∈ l -> f a x = Some b -> first_at f l x = Some b.
Proof using f_dom.
  intros [HS _] Hin Ha. induction HS as [|a' l HS IH Hf]; [by apply not_elem_of_nil in Hin|].
  apply elem_of_cons in Hin as [->|Hin]; cbn; [by rewrite Ha|].
  rewrite Forall_forall in Hf. specialize (Hf a Hin). apply f_dom in Ha as Hx.
  rewrite f_outside; [auto|]. destruct Hf; unfold iv_before in *; lia.
Qed.

Lemma first_at_perm l l' x :
  iv_apart l -> l ≡ₚ l' -> first_at f l x = first_at f l' x.
Proof using f_dom.
  intros Ha Hp. destruct (first_at f l x) as [b|] eqn:Hl.
  - apply first_at_Some_elem in Hl as (a & Hin & Hb). symmetry.
    apply (first_at_apart _ a); [by eapply iv_apart_perm| |done]. by rewrite <-Hp.
  - symmetry. apply first_at_None. intros a Hin. rewrite first_at_None in Hl.
    apply Hl. by rewrite Hp.
Qed.

Lemma in_range_true s e x : in_range s e x = true <-> s <= x < e.
Proof using Type. unfold in_range. rewrite andb_true_iff. lia. Qed.
Lemma in_range_false s e x : in_range s e x = false <-> ~ (s <= x < e).
Proof using Type. rewrite <-in_range_true. by destruct (in_range s e x). Qed.

(** Cutting [s, e) out of every element cuts it out of the map. *)
Lemma cut_concat s e l pieces :
  iv_apart l -> Forall2 (is_cut s e) l pieces ->
  iv_apart (concat pieces) /\
  Forall (fun p => hi p <= s \/ e <= lo p) (concat pieces) /\
  Forall (fun p => exists a, a ∈ l /\ lo a <= lo p /\ hi p <= hi a) (concat pieces) /\
  forall x, first_at f (concat pieces) x = if in_range s e x then None else first_at f l x.
Proof using f_dom.
  intros [HS Hn] HF. revert HS Hn. induction HF as [|a ps l pieces Hc HF IH]; intros HS Hn.
  { cbn. split_and!; [apply iv_apart_nil|done|done|]. intros. by case_match. }
  apply StronglySorted_inv in HS as [HS Hf]. apply Forall_cons in Hn as [Ha Hn].
  destruct (IH HS Hn) as (IH1 & IH2 & IH3 & IH4). destruct Hc as (Hc1 & Hc2 & Hc3).
  rewrite Forall_forall in Hf. cbn. split_and!.
  - apply iv_apart_app. split_and!; [done|done|]. intros p q Hp Hq.
    rewrite Forall_forall in Hc2, IH3. apply Hc2 in Hp as (? & ? & _).
    apply IH3 in Hq as (a' & Ha' & ? & ?). apply Hf in Ha'.
    unfold iv_disjoint, iv_before in *. lia.
  - apply Forall_app. split; [|done]. eapply Forall_impl; [exact Hc2|]. cbn. tauto.
  - apply Forall_app. split.
    + eapply Forall_impl; [exact Hc2|]. cbn. intros p (? & ? & _). exists a. split; [left|done].
    + eapply Forall_impl; [exact IH3|]. cbn. intros p (a' & ? & ?). exists a'. by split; [right|].
  - intros x. rewrite first_at_app, Hc3, IH4. cbn. by destruct (in_range s e x), (f a x).
Qed.

(** Cutting [s, e) out of the map and adding an element for [s, e), then
    sorting, overlays the new element on the map. *)
Lemma cut_overlay s e l pieces r :
  iv_apart l -> Forall2 (is_cut s e) l pieces -> lo r = s -> hi r = e -> s < e ->
  iv_sorted (sort_by_key lo (concat pieces ++ [r])) /\
  forall x, first_at f (sort_by_key lo (concat pieces ++ [r])) x =
            if in_range s e x then f r x else first_at f l x.
Proof using f_dom.
  intros Ha HF <- <- Hlt. destruct (cut_concat _ _ _ _ Ha HF) as (H1 & H2 & _ & H4).
  assert (Hap : iv_apart (concat pieces ++ [r])).
  { apply iv_apart_app. split_and!; [done|by apply iv_apart_singleton|].
    intros p q Hp ->%list_elem_of_singleton. rewrite Forall_forall in H2.
    apply H2 in Hp. unfold iv_disjoint, iv_before. lia. }
  split; [by apply iv_apart_sort|]. intros x.
  rewrite <-(first_at_perm (concat pieces ++ [r]) _ x Hap) by (by rewrite sort_by_key_perm).
  rewrite first_at_app, H4. cbn. destruct (in_range (lo r) (hi r) x) eqn:Hx.
  - by destruct (f r x).
  - apply in_range_false in Hx. rewrite (f_outside r x Hx). by destruct (first_at f l x).
Qed.

Lemma cut_remove s e l pieces :
  iv_apart l -> Forall2 (is_cut s e) l pieces ->
  iv_sorted (sort_by_key lo (concat pieces)) /\
  forall x, first_at f (sort_by_key lo (concat pieces)) x =
            if in_range s e x then None else first_at f l x.
Proof using f_dom.
  intros Ha HF. destruct (cut_concat _ _ _ _ Ha HF) as (H1 & _ & _ & H4).
  split; [by apply iv_apart_sort|]. intros x. rewrite <-H4. symmetry.
  apply first_at_perm; [done|]. by rewrite sort_by_key_perm.
Qed.

Lemma no_overlap_is_cut s e a :
  iv_nonempty a -> hi a <= s \/ e <= lo a -> is_cut s e a [a].
Proof using f_dom.
  intros Hn Ho. split_and!; [by apply iv_apart_singleton| |].
  - apply Forall_singleton. lia.
  - intros x. cbn. destruct (in_range s e x) eqn:Hx; [|by destruct (f a x)].
    apply in_range_true in Hx. rewrite f_outside; [done|lia].
Qed.

(** [sl a s t] is the part of [a] inside [s, t). *)
Context (sl : A -> Z -> Z -> A).

Definition cut_pieces (s e : Z) (a : A) : list A :=
  (if lo a <? s then [sl a (lo a) s] else []) ++ (if e <? hi a then [sl a e (hi a)] else []).

Definition slice_spec (a : A) : Prop := forall s t, lo a <= s -> s < t -> t <= hi a ->
  lo (sl a s t) = s /\ hi (sl a s t) = t /\
  forall x, f (sl a s t) x = if in_range s t x then f a x else None.

Lemma cut_pieces_is_cut s e a :
  slice_spec a -> iv_nonempty a -> lo a < e -> s < hi a -> s < e ->
  is_cut s e a (cut_pieces s e a).
Proof using f_dom.
  unfold cut_pieces, iv_nonempty. intros Hsl Hn H1 H2 H3.
  destruct (lo a <? s) eqn:Hl, (e <? hi a) eqn:Hr; bool_prop; cbn [app];
    try (destruct (Hsl (lo a) s) as (L1 & L2 & L3); [lia..|]);
    try (destruct (Hsl e (hi a)) as (R1 & R2 & R3); [lia..|]);
    (split_and!;
     [split; repeat constructor; unfold iv_disjoint, iv_before, iv_nonempty; lia
     |repeat constructor; lia
     |intros x; cbn; rewrite ?L3, ?R3; pose proof (f_outside a x) as Ho;
      unfold in_range; destruct (f a x); try (by repeat case_match)]).
  all: destruct (decide (lo a <= x < hi a)) as [Hx|Hx]; [|discriminate (Ho Hx)].
  all: repeat case_match; try done; bool_prop;
    repeat match goal with H : _ && _ = false |- _ => apply andb_false_iff in H end; lia.
Qed.

(** ** Merging neighbours *)

Context (P : A -> Prop) (try_merge : A -> A -> Result (option A)).

(** Merging never fails on good elements and joins two intervals that touch
    into one with both maps. *)
Hypothesis merge_ok : forall a b, P a -> P b -> hi a <= lo b ->
  match try_merge a b with
  | Ok (Some m) => P m /\ lo m = lo a /\ hi m = hi b /\
      forall x, f m x = match f a x with Some y => Some y | None => f b x end
  | Ok None => True
  | Err _ => False
  end.

Lemma coalesce_fold acc l :
  iv_sorted (rev acc ++ l) -> Forall P (rev acc ++ l) ->
  exists acc', try_fold (coalesce_step try_merge) acc l = Ok acc' /\
    iv_sorted (rev acc') /\ Forall P (rev acc') /\
    (forall x, first_at f (rev acc') x = first_at f (rev acc ++ l) x) /\
    (length acc' <= length acc + length l)%nat.
Proof using f_dom merge_ok.
  revert acc. induction l as [|x l IH]; intros acc Hs HP; cbn [try_fold].
  { exists acc. rewrite app_nil_r in *. split_and!; try done. lia. }
  assert (Hpush : exists acc', try_fold (coalesce_step try_merge) (x :: acc) l = Ok acc' /\
    iv_sorted (rev acc') /\ Forall P (rev acc') /\
    (forall y, first_at f (rev acc') y = first_at f (rev acc ++ x :: l) y) /\
    (length acc' <= length acc + length (x :: l))%nat).
  { destruct (IH (x :: acc)) as (acc' & ? & ? & ? & ? & ?).
    - cbn [rev]. by rewrite <-app_assoc.
    - cbn [rev]. by rewrite <-app_assoc.
    - exists acc'. cbn [rev length] in *. rewrite <-app_assoc in *. split_and!; try done. lia. }
  destruct acc as [|last rest]; [exact Hpush|]. cbn [coalesce_step].
  cbn [rev] in *. rewrite <-app_assoc in *. cbn [app] in *.
  apply Forall_app in HP as [HPr HPl]. apply Forall_cons in HPl as [HPlast HPl].
  apply Forall_cons in HPl as [HPx HPl].
  apply iv_sorted_app in Hs as (Hsr & Hsl & Hrl).
  destruct Hsl as [Hsl Hnl]. apply StronglySorted_inv in Hsl as [Hsl Hlast].
  apply StronglySorted_inv in Hsl as [Hsl Hx]. apply Forall_cons in Hlast as [Hlx Hlast].
  apply Forall_cons in Hnl as [Hn1 Hnl]. apply Forall_cons in Hnl as [Hn2 Hnl].
  pose proof (merge_ok last x HPlast HPx Hlx) as Hm.
  destruct (try_merge last x) as [[m|]|e]; cbn [mbind Result_bind]; [|exact Hpush|done].
  destruct Hm as (HPm & Hlo & Hhi & Hf).
  assert (Hsm : iv_sorted (rev rest ++ m :: l)).
  { apply iv_sorted_app. split_and!; [done| |].
    - split; constructor; [done| |unfold iv_nonempty in *; unfold iv_before in *; lia|done].
      eapply Forall_impl; [exact Hx|]. unfold iv_before. rewrite Hhi. done.
    - intros a b Ha [->|Hb]%elem_of_cons.
      + rewrite Hlo. apply Hrl; [done|left].
      + apply Hrl; [done|]. by do 2 right. }
  destruct (IH (m :: rest)) as (acc' & ? & ? & ? & Hfa & ?).
  - cbn [rev]. by rewrite <-app_assoc.
  - cbn [rev]. rewrite <-app_assoc. apply Forall_app. split; [done|]. by constructor.
  - exists acc'. cbn [rev length] in *. rewrite <-app_assoc in Hfa. cbn [app] in Hfa.
    split_and!; try done; [|lia].
    intros y. rewrite Hfa, !first_at_app. cbn. rewrite Hf. by destruct (f last y).
Qed.

Lemma coalesce_with_ok l :
  iv_sorted l -> Forall P l ->
  exists out, coalesce_with try_merge l = Ok out /\ iv_sorted out /\ Forall P out /\
    forall x, first_at f out x = first_at f l x.
Proof using f_dom merge_ok.
  intros Hs HP. destruct (coalesce_fold [] l Hs HP) as (acc & Hf & ? & ? & ? & _).
  exists (rev acc). unfold coalesce_with. rewrite Hf. done.
Qed.
End intervals.
