(* ===== verification/Api.v ===== *)
(** * The public block API ([api.rs])

    Device shapes, byte and block ranges, the block requests and their
    validation, and the [BlockDevice] trait with its default methods. *)

From S2P Require Import Prelude.

(** ** Identifiers ([id.rs])

    Every identifier is a newtype over an unsigned integer; [raw] and
    [from_raw] are the identity. *)
Abbreviation DeviceId := Z (only parsing).
Abbreviation KeyspaceId := Z (only parsing).
Abbreviation FileId := Z (only parsing).
Abbreviation TenantId := Z (only parsing).
Abbreviation PrincipalId := Z (only parsing).
Abbreviation RequestId := Z (only parsing).
Abbreviation ClientEpoch := Z (only parsing).
Abbreviation ServerIncarnation := Z (only parsing).
Abbreviation DeviceGeneration := Z (only parsing).
Abbreviation KeyspaceGeneration := Z (only parsing).
Abbreviation FileVersion := Z (only parsing).
Abbreviation WriterEpoch := Z (only parsing).
Abbreviation CommitSeq := Z (only parsing).
Abbreviation CommitGroupId := Z (only parsing).
Abbreviation CheckpointId := Z (only parsing).
Abbreviation SegmentId := Z (only parsing).
Abbreviation StorageNodeId := Z (only parsing).
Abbreviation StorageNodeKeyId := Z (only parsing).
Abbreviation MetadataNodeId := Z (only parsing).
Abbreviation KeyspaceRootId := Z (only parsing).
Abbreviation KeyspaceCatalogShardId := Z (only parsing).
Abbreviation ShardId := Z (only parsing).
Abbreviation WriteIntentId := Z (only parsing).
Abbreviation GrantId := Z (only parsing).
Abbreviation GrantNonce := Z (only parsing).
Abbreviation GrantEpoch := Z (only parsing).
Abbreviation AppendStreamId := Z (only parsing).
Abbreviation AppendTicketId := Z (only parsing).
Abbreviation AppendPublishTicketId := Z (only parsing).
Abbreviation AppendRunId := Z (only parsing).
Abbreviation ExtentId := Z (only parsing).
Abbreviation LogicalTime := Z (only parsing).
Abbreviation LogicalDeadline := Z (only parsing).
Abbreviation BlockIndex := Z (only parsing).
Abbreviation BlockCount := Z (only parsing).

(** ** Device shape *)

Record DeviceSpec := mkDeviceSpec {
  ds_logical_blocks : Z;
  ds_block_size : Z;
}.

#[export] Instance DeviceSpec_eq_dec : EqDecision DeviceSpec.
Proof. solve_decision. Defined.

(** [DeviceSpec::validate] *)
Definition DeviceSpec_validate (self : DeviceSpec) : Result unit :=
  reject_if (ds_logical_blocks self =? 0)
    (InvalidArgument "logical_blocks must be greater than zero");;
  reject_if (ds_block_size self =? 0)
    (InvalidArgument "block_size must be greater than zero");;
  reject_if (negb (is_power_of_two (ds_block_size self)))
    (InvalidArgument "block_size must be a power of two");;
  Ok tt.

(** [DeviceSpec::logical_bytes] *)
Definition DeviceSpec_logical_bytes (self : DeviceSpec) : Result Z :=
  DeviceSpec_validate self;;
  ok_or (checked_mul U64_MOD (ds_logical_blocks self) (ds_block_size self))
    (InvalidArgument "device byte size overflows u64").

Record DeviceInfo := mkDeviceInfo {
  di_device_id : DeviceId;
  di_generation : DeviceGeneration;
  di_spec : DeviceSpec;
  di_latest_commit : CommitSeq;
}.

Record CreateDeviceRequest := mkCreateDeviceRequest {
  cdr_spec : DeviceSpec;
  cdr_name : option string;
}.

(** [CreateDeviceRequest::validate] *)
Definition CreateDeviceRequest_validate (self : CreateDeviceRequest) : Result unit :=
  DeviceSpec_validate (cdr_spec self).

(** ** Byte ranges *)

Record ByteRange := mkByteRange {
  br_offset : Z;
  br_len : Z;
}.

#[export] Instance ByteRange_eq_dec : EqDecision ByteRange.
Proof. solve_decision. Defined.

(** [ByteRange::end_exclusive] *)
Definition ByteRange_end_exclusive (self : ByteRange) : Result Z :=
  ok_or (checked_add U64_MOD (br_offset self) (br_len self))
    (InvalidArgument "byte range overflows u64").

(** [ByteRange::is_aligned_to] *)
Definition ByteRange_is_aligned_to (self : ByteRange) (block_size : Z) : bool :=
  negb (block_size =? 0) &&
  is_multiple_of (br_offset self) block_size &&
  is_multiple_of (br_len self) block_size.

(** [ByteRange::validate_for_device] *)
Definition ByteRange_validate_for_device (self : ByteRange) (spec : DeviceSpec) : Result unit :=
  DeviceSpec_validate spec;;
  reject_if (negb (ByteRange_is_aligned_to self (ds_block_size spec)))
    (InvalidArgument "range offset and length must be block aligned");;
  end_ ← ByteRange_end_exclusive self;
  bytes ← DeviceSpec_logical_bytes spec;
  reject_if (bytes <? end_)
    (InvalidArgument "range extends past end of device");;
  Ok tt.

(** ** Block ranges *)

Record BlockRange := mkBlockRange {
  bk_start : BlockIndex;
  bk_blocks : BlockCount;
}.

#[export] Instance BlockRange_eq_dec : EqDecision BlockRange.
Proof. solve_decision. Defined.

(** [BlockRange::end_exclusive] *)
Definition BlockRange_end_exclusive (self : BlockRange) : Result Z :=
  ok_or (checked_add U64_MOD (bk_start self) (bk_blocks self))
    (InvalidArgument "block range overflows u64").

(** [BlockRange::is_empty] *)
Definition BlockRange_is_empty (self : BlockRange) : bool := bk_blocks self =? 0.

(** [BlockRange::validate_non_empty] *)
Definition BlockRange_validate_non_empty (self : BlockRange) : Result unit :=
  BlockRange_end_exclusive self;;
  reject_if (BlockRange_is_empty self)
    (InvalidArgument "block range must contain at least one block");;
  Ok tt.

(** [BlockRange::contains_range] *)
Definition BlockRange_contains_range (self other : BlockRange) : Result bool :=
  self_end ← BlockRange_end_exclusive self;
  other_end ← BlockRange_end_exclusive other;
  Ok ((bk_start self <=? bk_start other) && (other_end <=? self_end)).

(** [BlockRange::overlaps] *)
Definition BlockRange_overlaps (self other : BlockRange) : Result bool :=
  self_end ← BlockRange_end_exclusive self;
  other_end ← BlockRange_end_exclusive other;
  if BlockRange_is_empty self || BlockRange_is_empty other then Ok false
  else Ok ((bk_start self <? other_end) && (bk_start other <? self_end)).

(** [BlockRange::intersection] *)
Definition BlockRange_intersection (self other : BlockRange) : Result (option BlockRange) :=
  ov ← BlockRange_overlaps self other;
  if negb ov then Ok None
  else
    let start := Z.max (bk_start self) (bk_start other) in
    self_end ← BlockRange_end_exclusive self;
    other_end ← BlockRange_end_exclusive other;
    let end_ := Z.min self_end other_end in
    Ok (Some (mkBlockRange start (wsub64 end_ start))).

(** [BlockRange::is_adjacent_to] *)
Definition BlockRange_is_adjacent_to (self other : BlockRange) : Result bool :=
  self_end ← BlockRange_end_exclusive self;
  other_end ← BlockRange_end_exclusive other;
  if BlockRange_is_empty self || BlockRange_is_empty other then Ok false
  else Ok ((self_end =? bk_start other) || (other_end =? bk_start self)).

(** [BlockRange::split_at] *)
Definition BlockRange_split_at (self : BlockRange) (split : BlockIndex)
    : Result (BlockRange * BlockRange) :=
  end_ ← BlockRange_end_exclusive self;
  reject_if ((split <? bk_start self) || (end_ <? split))
    (InvalidArgument "split point must be inside block range bounds");;
  Ok (mkBlockRange (bk_start self) (wsub64 split (bk_start self)),
      mkBlockRange split (wsub64 end_ split)).

(** ** Options and results of block operations *)

Inductive WriteDurability := Acknowledged | Flushed.
Inductive PayloadIntegrity := Verified | Unchecked.
Inductive ReadVerification := RvDefault | RvRequireVerified | RvSkip.
Inductive FlushScope := FlushDevice | FlushAll.

#[export] Instance WriteDurability_eq_dec : EqDecision WriteDurability.
Proof. solve_decision. Defined.
#[export] Instance PayloadIntegrity_eq_dec : EqDecision PayloadIntegrity.
Proof. solve_decision. Defined.
#[export] Instance ReadVerification_eq_dec : EqDecision ReadVerification.
Proof. solve_decision. Defined.

Record WriteCommit := mkWriteCommit {
  wc_device_id : DeviceId;
  wc_commit_seq : CommitSeq;
  wc_range : ByteRange;
  wc_durability : WriteDurability;
}.

Record BlockBatchWrite := mkBlockBatchWrite {
  bw_offset : Z;
  bw_bytes : list Z;
  bw_payload_integrity : PayloadIntegrity;
}.

(** [BlockBatchWrite::byte_range] *)
Definition BlockBatchWrite_byte_range (self : BlockBatchWrite) : Result ByteRange :=
  len ← len_u64 (bw_bytes self) (InvalidArgument "batch write byte length overflows u64");
  Ok (mkByteRange (bw_offset self) len).

(** [BlockBatchWrite::validate_for_device] *)
Definition BlockBatchWrite_validate_for_device (self : BlockBatchWrite) (spec : DeviceSpec)
    : Result unit :=
  range ← BlockBatchWrite_byte_range self;
  reject_if (br_len range =? 0)
    (InvalidArgument "batch write must contain at least one byte");;
  ByteRange_validate_for_device range spec.

Record BlockBatchCommit := mkBlockBatchCommit {
  bbc_device_id : DeviceId;
  bbc_commit_seq : CommitSeq;
  bbc_write_count : Z;
  bbc_collapsed_range_count : Z;
  bbc_committed_bytes : Z;
  bbc_durability : WriteDurability;
}.

Record FlushResult := mkFlushResult {
  fr_device_id : DeviceId;
  fr_durable_through : CommitSeq;
}.

Record DeleteResult := mkDeleteResult {
  dr_device_id : DeviceId;
  dr_commit_seq : CommitSeq;
}.

Record ForkRequest := mkForkRequest {
  fkr_target : option DeviceId;
  fkr_name : option string;
}.

Inductive RestorePoint :=
| RpCommit (seq : CommitSeq)
| RpCheckpoint (id : CheckpointId)
| RpTime (t : LogicalTime).

(** ** The [BlockDevice] trait

    The required methods are the fields; the methods with a default body are
    definitions over the class. *)
Class BlockDevice (T : Type) := {
  bd_device_id : DeviceId;
  bd_info : ST T DeviceInfo;
  bd_read_at_with_verification : Z -> Z -> ReadVerification -> ST T (list Z);
  bd_commit_batch : list BlockBatchWrite -> ST T BlockBatchCommit;
  bd_flush : ST T FlushResult;
  bd_write_zeroes : Z -> Z -> ST T WriteCommit;
  bd_discard : Z -> Z -> ST T WriteCommit;
  bd_fork : ForkRequest -> ST T DeviceId;
  bd_restore : RestorePoint -> ST T DeviceId;
  bd_delete : ST T DeleteResult;
}.

(** [BlockDevice::read_at]: the buffer length is an argument, the bytes it
    is filled with the result. *)
Definition bd_read_at `{BlockDevice T} (offset len : Z) : ST T (list Z) :=
  bd_read_at_with_verification offset len RvDefault.

(** [BlockDevice::write_at_with_integrity] *)
Definition bd_write_at_with_integrity `{BlockDevice T} (offset : Z) (data : list Z)
    (payload_integrity : PayloadIntegrity) : ST T WriteCommit :=
  len ← st_lift (len_u64 data (InvalidArgument "write byte length overflows u64"));
  let range := mkByteRange offset len in
  match data with
  | [] =>
    info ← bd_info;
    mret (mkWriteCommit bd_device_id (di_latest_commit info) range Acknowledged)
  | _ :: _ =>
    commit ← bd_commit_batch [mkBlockBatchWrite offset data payload_integrity];
    mret (mkWriteCommit (bbc_device_id commit) (bbc_commit_seq commit) range
            (bbc_durability commit))
  end.

(** [BlockDevice::write_at] *)
Definition bd_write_at `{BlockDevice T} (offset : Z) (data : list Z) : ST T WriteCommit :=
  bd_write_at_with_integrity offset data Verified.

(** ** Requests and responses *)

Inductive BlockOperation :=
| OpCreate | OpInfo | OpRead | OpWrite | OpCommitBatch | OpFlush
| OpWriteZeroes | OpDiscard | OpFork | OpRestore | OpDelete.

Inductive BlockRequest :=
| RqCreate (request : CreateDeviceRequest)
| RqInfo (device_id : DeviceId)
| RqRead (device_id : DeviceId) (range : ByteRange) (verification : ReadVerification)
| RqWrite (device_id : DeviceId) (offset : Z) (bytes : list Z)
    (payload_integrity : PayloadIntegrity) (durability : WriteDurability)
| RqCommitBatch (device_id : DeviceId) (writes : list BlockBatchWrite)
    (durability : WriteDurability)
| RqFlush (device_id : DeviceId) (scope : FlushScope)
| RqWriteZeroes (device_id : DeviceId) (range : ByteRange)
| RqDiscard (device_id : DeviceId) (range : ByteRange)
| RqFork (source : DeviceId) (request : ForkRequest)
| RqRestore (source : DeviceId) (point : RestorePoint)
| RqDelete (device_id : DeviceId).

(** [BlockRequest::operation] *)
Definition BlockRequest_operation (self : BlockRequest) : BlockOperation :=
  match self with
  | RqCreate _ => OpCreate
  | RqInfo _ => OpInfo
  | RqRead _ _ _ => OpRead
  | RqWrite _ _ _ _ _ => OpWrite
  | RqCommitBatch _ _ _ => OpCommitBatch
  | RqFlush _ _ => OpFlush
  | RqWriteZeroes _ _ => OpWriteZeroes
  | RqDiscard _ _ => OpDiscard
  | RqFork _ _ => OpFork
  | RqRestore _ _ => OpRestore
  | RqDelete _ => OpDelete
  end.

(** [BlockRequest::target_device_id] *)
Definition BlockRequest_target_device_id (self : BlockRequest) : option DeviceId :=
  match self with
  | RqInfo d | RqRead d _ _ | RqWrite d _ _ _ _ | RqCommitBatch d _ _ | RqFlush d _
  | RqWriteZeroes d _ | RqDiscard d _ | RqDelete d => Some d
  | RqFork s _ | RqRestore s _ => Some s
  | RqCreate _ => None
  end.

(** [BlockRequest::byte_range] *)
Definition BlockRequest_byte_range (self : BlockRequest) : Result (option ByteRange) :=
  match self with
  | RqRead _ range _ | RqWriteZeroes _ range | RqDiscard _ range => Ok (Some range)
  | RqWrite _ offset bytes _ _ =>
    len ← len_u64 bytes (InvalidArgument "write byte length overflows u64");
    Ok (Some (mkByteRange offset len))
  | RqCommitBatch _ _ _ => Ok None
  | RqCreate _ | RqInfo _ | RqFlush _ _ | RqFork _ _ | RqRestore _ _ | RqDelete _ => Ok None
  end.

(** [BlockRequest::validate_for_new_device] *)
Definition BlockRequest_validate_for_new_device (self : BlockRequest) : Result unit :=
  match self with
  | RqCreate request => CreateDeviceRequest_validate request
  | _ => Err (InvalidArgument "request does not create a device")
  end.

(** [BlockRequest::validate_for_existing_device] *)
Definition BlockRequest_validate_for_existing_device (self : BlockRequest) (spec : DeviceSpec)
    : Result unit :=
  DeviceSpec_validate spec;;
  match self with
  | RqCreate _ => Err (InvalidArgument "create request does not target an existing device")
  | RqRead _ _ _ | RqWrite _ _ _ _ _ | RqWriteZeroes _ _ | RqDiscard _ _ =>
    o ← BlockRequest_byte_range self;
    match o with
    | Some range => ByteRange_validate_for_device range spec;; Ok tt
    | None => Ok tt
    end
  | RqCommitBatch _ writes _ =>
    reject_if (match writes with [] => true | _ => false end)
      (InvalidArgument "block batch must contain at least one write");;
    try_for (fun write => BlockBatchWrite_validate_for_device write spec) writes;;
    Ok tt
  | RqInfo _ | RqFlush _ _ | RqFork _ _ | RqRestore _ _ | RqDelete _ => Ok tt
  end.

Inductive BlockResponse :=
| RsCreated (device_id : DeviceId)
| RsInfo (info : DeviceInfo)
| RsRead (bytes : list Z)
| RsWrite (commit : WriteCommit)
| RsBatchCommitted (commit : BlockBatchCommit)
| RsFlush (result : FlushResult)
| RsForked (device_id : DeviceId)
| RsRestored (device_id : DeviceId)
| RsDeleted (result : DeleteResult).

Record BlockRequestEnvelope := mkBlockRequestEnvelope {
  bre_request_id : RequestId;
  bre_client_epoch : ClientEpoch;
  bre_deadline : option LogicalDeadline;
  bre_request : BlockRequest;
}.

Record BlockResponseEnvelope := mkBlockResponseEnvelope {
  bse_request_id : RequestId;
  bse_response : BlockResponse;
}.

(** [BlockRequestEnvelope::respond] *)
Definition BlockRequestEnvelope_respond (self : BlockRequestEnvelope) (response : BlockResponse)
    : BlockResponseEnvelope :=
  mkBlockResponseEnvelope (bre_request_id self) response.

(** ** Ranges as sets of blocks *)

Definition wf_block_range (r : BlockRange) : Prop :=
  in_u64 (bk_start r) /\ 0 <= bk_blocks r /\ bk_start r + bk_blocks r < U64_MOD.

Definition in_block_range (r : BlockRange) (b : Z) : Prop :=
  bk_start r <= b < bk_start r + bk_blocks r.

#[export] Instance in_block_range_dec r b : Decision (in_block_range r b).
Proof. unfold in_block_range. apply _. Defined.

Definition bk_end (r : BlockRange) : Z := bk_start r + bk_blocks r.

Lemma BlockRange_end_exclusive_wf r :
  wf_block_range r -> BlockRange_end_exclusive r = Ok (bk_end r).
Proof.
  intros (? & ? & ?). unfold BlockRange_end_exclusive, checked_add, bk_end.
  case_match; bool_prop; [done|lia].
Qed.

Lemma BlockRange_end_exclusive_Ok r e :
  BlockRange_end_exclusive r = Ok e <-> bk_end r < U64_MOD /\ e = bk_end r.
Proof. unfold BlockRange_end_exclusive, bk_end. rewrite ok_or_Ok. apply checked_add_Some. Qed.

Lemma ByteRange_end_exclusive_Ok r e :
  ByteRange_end_exclusive r = Ok e <->
  br_offset r + br_len r < U64_MOD /\ e = br_offset r + br_len r.
Proof. unfold ByteRange_end_exclusive. rewrite ok_or_Ok. apply checked_add_Some. Qed.

(** [range_wf]: evaluate the end of every well-formed range of the goal. *)
Ltac range_wf :=
  repeat match goal with
  | H : wf_block_range ?r |- context [BlockRange_end_exclusive ?r] =>
      rewrite (BlockRange_end_exclusive_wf r H); cbn [mbind Result_bind]
  end.

Lemma overlaps_spec a b :
  wf_block_range a -> wf_block_range b ->
  exists ov, BlockRange_overlaps a b = Ok ov /\
    (ov = true <-> exists x, in_block_range a x /\ in_block_range b x).
Proof.
  intros Ha Hb. unfold BlockRange_overlaps. range_wf.
  destruct Ha as (? & ? & ?), Hb as (? & ? & ?).
  unfold BlockRange_is_empty, in_block_range, bk_end.
  destruct (bk_blocks a =? 0) eqn:?, (bk_blocks b =? 0) eqn:?; cbn [orb];
    eexists; split; try reflexivity; bool_prop;
    (split; [intros Ht; try discriminate Ht|intros (x & ? & ?); try lia]).
  exists (Z.max (bk_start a) (bk_start b)). lia.
Qed.

Lemma intersection_wf_aux a b r :
  wf_block_range a -> wf_block_range b ->
  BlockRange_intersection a b = Ok (Some r) ->
  r = mkBlockRange (Z.max (bk_start a) (bk_start b))
        (Z.min (bk_end a) (bk_end b) - Z.max (bk_start a) (bk_start b)) /\
  0 < bk_blocks r.
Proof.
  intros Ha Hb. unfold BlockRange_intersection, BlockRange_overlaps. range_wf.
  destruct Ha as ([? ?] & ? & ?), Hb as ([? ?] & ? & ?).
  unfold BlockRange_is_empty, bk_end.
  destruct (_ || _) eqn:?; cbn [mbind Result_bind negb]; [discriminate|].
  destruct (_ && _) eqn:?; cbn [negb]; [|discriminate].
  intros [= <-]. bool_prop. rewrite wsub64_exact by (u64_unfold; lia). cbn. split; [done|lia].
Qed.

(** The intersection of two block ranges is computed without overflow and
    contains exactly the blocks that are in both; it is [None] when there are none. *)
Lemma intersection_spec a b :
  wf_block_range a -> wf_block_range b ->
  exists o, BlockRange_intersection a b = Ok o /\
    match o with
    | Some r => wf_block_range r /\ 0 < bk_blocks r /\
        forall x, in_block_range r x <-> in_block_range a x /\ in_block_range b x
    | None => forall x, ~ (in_block_range a x /\ in_block_range b x)
    end.
Proof.
  intros Ha Hb.
  destruct (overlaps_spec a b Ha Hb) as (ov & Hov & Hiff).
  destruct (BlockRange_intersection a b) as [[r|]|e] eqn:Hi.
  - exists (Some r). split; [done|].
    destruct (intersection_wf_aux a b r Ha Hb Hi) as [-> ?].
    unfold wf_block_range, in_block_range, bk_end in *. cbn in *. u64_unfold.
    split_and!; try lia.
  - exists None. split; [done|]. intros x Hx.
    unfold BlockRange_intersection in Hi. rewrite Hov in Hi.
    destruct ov; [|by destruct Hiff as [_ Hf]; discriminate Hf; eauto].
    revert Hi. cbn. range_wf. done.
  - exfalso. revert Hi. unfold BlockRange_intersection. rewrite Hov. cbn.
    destruct ov; cbn; range_wf; done.
Qed.

(** Splitting a block range inside its bounds gives two ranges that partition it
    at the split point; any other split point is rejected. *)
Lemma split_at_spec r split :
  wf_block_range r ->
  (bk_start r <= split <= bk_end r ->
   exists l rr, BlockRange_split_at r split = Ok (l, rr) /\
     wf_block_range l /\ wf_block_range rr /\ bk_blocks l + bk_blocks rr = bk_blocks r /\
     forall x, in_block_range r x <->
       (in_block_range l x /\ x < split) \/ (in_block_range rr x /\ split <= x)) /\
  (~ (bk_start r <= split <= bk_end r) ->
   BlockRange_split_at r split =
     Err (InvalidArgument "split point must be inside block range bounds")).
Proof.
  intros Hr. unfold BlockRange_split_at. range_wf.
  destruct Hr as ([? ?] & ? & ?). unfold bk_end in *. split; intros Hs.
  - destruct (_ || _) eqn:Hc; [apply orb_prop in Hc as [|]; bool_prop; lia|]. cbn.
    eexists _, _. split; [done|]. unfold wf_block_range, in_block_range. cbn.
    rewrite !wsub64_exact by (u64_unfold; lia). u64_unfold. split_and!; try lia.
  - destruct (_ || _) eqn:Hc; [done|]. bool_prop. lia.
Qed.

Lemma DeviceSpec_validate_Ok spec u :
  DeviceSpec_validate spec = Ok u <->
  ds_logical_blocks spec <> 0 /\ ds_block_size spec <> 0 /\
  is_power_of_two (ds_block_size spec) = true.
Proof.
  destruct u. unfold DeviceSpec_validate. split.
  - intros H. ok_inv. bool_prop. done.
  - intros (? & ? & Hp). rewrite Hp. by rewrite !(proj2 (Z.eqb_neq _ _)).
Qed.

Lemma ByteRange_aligned_spec r bs :
  ByteRange_is_aligned_to r bs = true <->
  bs <> 0 /\ br_offset r mod bs = 0 /\ br_len r mod bs = 0.
Proof.
  unfold ByteRange_is_aligned_to, is_multiple_of.
  destruct (bs =? 0) eqn:?; bool_prop; cbn; [split; [done|tauto]|].
  rewrite andb_true_iff, !Z.eqb_eq. tauto.
Qed.

(** A byte range is accepted for a device exactly when the device shape is
    valid, the range is aligned to the block size, and the range and the
    device both fit in 64 bits with the range inside the device. *)
Lemma validate_for_device_Ok r spec :
  ByteRange_validate_for_device r spec = Ok tt <->
  DeviceSpec_validate spec = Ok tt /\
  br_offset r mod ds_block_size spec = 0 /\ br_len r mod ds_block_size spec = 0 /\
  br_offset r + br_len r < U64_MOD /\
  ds_logical_blocks spec * ds_block_size spec < U64_MOD /\
  br_offset r + br_len r <= ds_logical_blocks spec * ds_block_size spec.
Proof.
  unfold ByteRange_validate_for_device, DeviceSpec_logical_bytes. split.
  - intros H. ok_inv. bool_prop.
    apply ByteRange_end_exclusive_Ok in H1 as [? ->].
    apply ByteRange_aligned_spec in H0 as (? & ? & ?). split_and!; try done.
  - intros (Hv & Ho & Hl & Hr & Hb & Hle). rewrite Hv. cbn.
    apply DeviceSpec_validate_Ok in Hv as (? & ? & ?).
    rewrite (proj2 (ByteRange_aligned_spec _ _)) by done. cbn.
    rewrite (proj2 (ByteRange_end_exclusive_Ok _ _)) by done. cbn.
    unfold checked_mul. rewrite (proj2 (Z.ltb_lt _ _) Hb). cbn.
    rewrite (proj2 (Z.ltb_ge _ _)) by lia. done.
Qed.
