(* ===== verification/Object.v ===== *)
(** * Metadata objects ([object.rs])

    The immutable objects of the metadata plane (heads, tree nodes, leaf
    entries, append runs, timeline records), their local validation, the
    coalescing of append-run ranges and the replay of append publishes. *)

From S2P Require Import Prelude Intervals Api.

(** ** Heads *)

Inductive SegmentPayloadIntegrity := Crc32c (crc : Z) | SpUnchecked.

#[export] Instance SegmentPayloadIntegrity_eq_dec : EqDecision SegmentPayloadIntegrity.
Proof. solve_decision. Defined.

Inductive MappingOwner :=
| OwnBlockDevice (d : DeviceId)
| OwnNativeKeyspace (k : KeyspaceId).

#[export] Instance MappingOwner_eq_dec : EqDecision MappingOwner.
Proof. solve_decision. Defined.

Record DeviceHead := mkDeviceHead {
  dh_device_id : DeviceId;
  dh_generation : DeviceGeneration;
  dh_shard_roots : list MetadataNodeId;
  dh_latest_commit : CommitSeq;
}.

#[export] Instance DeviceHead_eq_dec : EqDecision DeviceHead.
Proof. solve_decision. Defined.

Record KeyspaceHead := mkKeyspaceHead {
  kh_keyspace_id : KeyspaceId;
  kh_generation : KeyspaceGeneration;
  kh_shard_roots : list KeyspaceCatalogShardId;
  kh_file_count : Z;
  kh_latest_commit : CommitSeq;
}.

(** [DeviceHead::validate] *)
Definition DeviceHead_validate (self : DeviceHead) (expected_shard_count : Z) : Result unit :=
  reject_if (expected_shard_count =? 0)
    (InvalidArgument "expected shard count must be greater than zero");;
  reject_if (negb (Z.of_nat (length (dh_shard_roots self)) =? expected_shard_count))
    (InvalidArgument ("device head has " +:+ pretty (length (dh_shard_roots self))
       +:+ " shard roots, expected " +:+ pretty expected_shard_count));;
  Ok tt.

Record FileHead := mkFileHead {
  fh_file_id : FileId;
  fh_version : FileVersion;
  fh_root : MetadataNodeId;
  fh_size : Z;
  fh_latest_commit : CommitSeq;
}.

#[export] Instance FileHead_eq_dec : EqDecision FileHead.
Proof. solve_decision. Defined.

(** [byte_capacity] *)
Definition byte_capacity (range : BlockRange) (block_size : Z) : Result Z :=
  BlockRange_validate_non_empty range;;
  reject_if (block_size =? 0) (InvalidArgument "block_size must be greater than zero");;
  reject_if (negb (is_power_of_two block_size))
    (InvalidArgument "block_size must be a power of two");;
  ok_or (checked_mul U64_MOD (bk_blocks range) block_size)
    (InvalidArgument "range byte capacity overflows u64").

(** [FileHead::validate_current] *)
Definition FileHead_validate_current (self : FileHead) (root_coverage : BlockRange)
    (block_size : Z) : Result unit :=
  capacity ← byte_capacity root_coverage block_size;
  reject_if (capacity <? fh_size self)
    (InvalidArgument "file size exceeds current root coverage");;
  Ok tt.

(** [FileHead::validate_transition_from] *)
Definition FileHead_validate_transition_from (self previous : FileHead)
    (root_coverage : BlockRange) (block_size : Z) : Result unit :=
  FileHead_validate_current self root_coverage block_size;;
  reject_if (negb (fh_file_id self =? fh_file_id previous))
    (InvalidArgument "file-head transition changed file_id");;
  reject_if (fh_version self <? fh_version previous)
    (InvalidArgument "file version must not regress");;
  reject_if (fh_latest_commit self <? fh_latest_commit previous)
    (InvalidArgument "file latest_commit must not regress");;
  reject_if ((negb (fh_root self =? fh_root previous) || negb (fh_size self =? fh_size previous))
             && (fh_version self =? fh_version previous))
    (InvalidArgument "file root or size changes must advance file version");;
  Ok tt.

Record KeyspaceFile := mkKeyspaceFile {
  kf_name : option string;
  kf_head : FileHead;
}.

Record KeyspaceCatalogShard := mkKeyspaceCatalogShard {
  kcs_shard_id : KeyspaceCatalogShardId;
  kcs_files : gmap Z KeyspaceFile;
}.

(** [KeyspaceCatalogShard::validate] *)
Definition KeyspaceCatalogShard_validate (self : KeyspaceCatalogShard) : Result unit :=
  try_for (fun '(file_id, entry) =>
    reject_if (negb (file_id =? fh_file_id (kf_head entry)))
      (InvalidArgument "keyspace catalog key does not match file head"))
    (bt_iter (kcs_files self)).

Record KeyspaceRoot := mkKeyspaceRoot {
  kr_root_id : KeyspaceRootId;
  kr_shard_roots : list KeyspaceCatalogShardId;
  kr_file_count : Z;
}.

(** [KeyspaceRoot::validate] *)
Definition KeyspaceRoot_validate (self : KeyspaceRoot) : Result unit :=
  reject_if (match kr_shard_roots self with [] => true | _ => false end)
    (InvalidArgument "keyspace catalog root must include at least one shard").

(** ** Append-log runs *)

Record AppendLogRun := mkAppendLogRun {
  alr_run_id : AppendRunId;
  alr_storage_node : StorageNodeId;
  alr_stream_id : AppendStreamId;
  alr_writer_epoch : WriterEpoch;
  alr_keyspace_id : KeyspaceId;
  alr_file_id : FileId;
  alr_file_offset_start : Z;
  alr_payload_len : Z;
  alr_log_id : Z;
  alr_log_payload_offset : Z;
  alr_log_record_bytes : Z;
  alr_integrity : SegmentPayloadIntegrity;
}.

Record AppendLogRunRange := mkAppendLogRunRange {
  rr_run_id : AppendRunId;
  rr_storage_node : StorageNodeId;
  rr_stream_id : AppendStreamId;
  rr_writer_epoch : WriterEpoch;
  rr_keyspace_id : KeyspaceId;
  rr_file_id : FileId;
  rr_file_offset_start : Z;
  rr_payload_len : Z;
  rr_log_id : Z;
  rr_log_payload_offset : Z;
  rr_integrity : SegmentPayloadIntegrity;
}.

#[export] Instance AppendLogRun_eq_dec : EqDecision AppendLogRun.
Proof. solve_decision. Defined.
#[export] Instance AppendLogRunRange_eq_dec : EqDecision AppendLogRunRange.
Proof. solve_decision. Defined.

(** [AppendLogRun::file_offset_end] *)
Definition AppendLogRun_file_offset_end (self : AppendLogRun) : Result Z :=
  ok_or (checked_add U64_MOD (alr_file_offset_start self) (alr_payload_len self))
    (InvalidArgument "append run file range overflows").

(** [AppendLogRun::log_payload_end] *)
Definition AppendLogRun_log_payload_end (self : AppendLogRun) : Result Z :=
  ok_or (checked_add U64_MOD (alr_log_payload_offset self) (alr_payload_len self))
    (InvalidArgument "append run log range overflows").

(** [AppendLogRun::validate] *)
Definition AppendLogRun_validate (self : AppendLogRun) : Result unit :=
  reject_if (alr_payload_len self =? 0)
    (InvalidArgument "append log run must contain bytes");;
  AppendLogRun_file_offset_end self;;
  AppendLogRun_log_payload_end self;;
  reject_if (alr_log_record_bytes self <? alr_payload_len self)
    (InvalidArgument "append log record must cover payload bytes");;
  Ok tt.

(** [AppendLogRun::full_range] *)
Definition AppendLogRun_full_range (self : AppendLogRun) : AppendLogRunRange :=
  mkAppendLogRunRange (alr_run_id self) (alr_storage_node self) (alr_stream_id self)
    (alr_writer_epoch self) (alr_keyspace_id self) (alr_file_id self)
    (alr_file_offset_start self) (alr_payload_len self) (alr_log_id self)
    (alr_log_payload_offset self) (alr_integrity self).

(** [AppendLogRunRange::file_offset_end] *)
Definition RunRange_file_offset_end (self : AppendLogRunRange) : Result Z :=
  ok_or (checked_add U64_MOD (rr_file_offset_start self) (rr_payload_len self))
    (InvalidArgument "append run file range overflows").

(** [AppendLogRunRange::log_payload_end] *)
Definition RunRange_log_payload_end (self : AppendLogRunRange) : Result Z :=
  ok_or (checked_add U64_MOD (rr_log_payload_offset self) (rr_payload_len self))
    (InvalidArgument "append run log range overflows").

(** [AppendLogRunRange::validate] *)
Definition RunRange_validate (self : AppendLogRunRange) : Result unit :=
  reject_if (rr_payload_len self =? 0)
    (InvalidArgument "append log run range must contain bytes");;
  RunRange_file_offset_end self;;
  RunRange_log_payload_end self;;
  Ok tt.

(** [AppendLogRunRange::can_coalesce_with]: [&&] stops at the first false
    conjunct, so the ends are computed only for ranges of one run. *)
Definition RunRange_can_coalesce_with (self next : AppendLogRunRange) : Result bool :=
  if (rr_run_id self =? rr_run_id next)
     && (rr_storage_node self =? rr_storage_node next)
     && (rr_stream_id self =? rr_stream_id next)
     && (rr_writer_epoch self =? rr_writer_epoch next)
     && (rr_keyspace_id self =? rr_keyspace_id next)
     && (rr_file_id self =? rr_file_id next)
     && (rr_log_id self =? rr_log_id next)
     && bool_decide (rr_integrity self = rr_integrity next)
  then
    fe ← RunRange_file_offset_end self;
    if fe =? rr_file_offset_start next then
      le ← RunRange_log_payload_end self;
      Ok (le =? rr_log_payload_offset next)
    else Ok false
  else Ok false.

Definition set_rr_payload_len (self : AppendLogRunRange) (len : Z) : AppendLogRunRange :=
  mkAppendLogRunRange (rr_run_id self) (rr_storage_node self) (rr_stream_id self)
    (rr_writer_epoch self) (rr_keyspace_id self) (rr_file_id self)
    (rr_file_offset_start self) len (rr_log_id self) (rr_log_payload_offset self)
    (rr_integrity self).

(** One iteration of the loop of [coalesce_append_log_run_ranges]; the vector
    [coalesced] is kept in reverse, its last element first. *)
Definition coalesce_run_step (coalesced : list AppendLogRunRange) (range : AppendLogRunRange)
    : Result (list AppendLogRunRange) :=
  RunRange_validate range;;
  match coalesced with
  | previous :: rest =>
    pe ← RunRange_file_offset_end previous;
    reject_if (rr_file_offset_start range <? pe)
      (InvalidArgument "append run ranges must not overlap");;
    c ← RunRange_can_coalesce_with previous range;
    if (c : bool) then
      len ← ok_or (checked_add U64_MOD (rr_payload_len previous) (rr_payload_len range))
              (InvalidArgument "append run coalesced length overflows");
      Ok (set_rr_payload_len previous len :: rest)
    else Ok (range :: coalesced)
  | [] => Ok [range]
  end.

Definition run_range_sort_key (range : AppendLogRunRange) : list Z :=
  [rr_file_offset_start range; rr_storage_node range; rr_log_id range;
   rr_log_payload_offset range; rr_run_id range].

(** [coalesce_append_log_run_ranges] *)
Definition coalesce_append_log_run_ranges (ranges : list AppendLogRunRange)
    : Result (list AppendLogRunRange) :=
  coalesced ← try_fold coalesce_run_step [] (sort_by_tuple run_range_sort_key ranges);
  Ok (rev coalesced).

Record RunBackedFileExtent := mkRunBackedFileExtent {
  rx_file_offset_start : Z;
  rx_payload_len : Z;
  rx_run : AppendLogRunRange;
}.

#[export] Instance RunBackedFileExtent_eq_dec : EqDecision RunBackedFileExtent.
Proof. solve_decision. Defined.

(** [RunBackedFileExtent::validate] *)
Definition RunExtent_validate (self : RunBackedFileExtent) : Result unit :=
  RunRange_validate (rx_run self);;
  reject_if (rx_payload_len self =? 0)
    (InvalidArgument "run-backed file extent must contain bytes");;
  reject_if (negb (rx_file_offset_start self =? rr_file_offset_start (rx_run self))
             || negb (rx_payload_len self =? rr_payload_len (rx_run self)))
    (InvalidArgument "run-backed file extent range must match run range");;
  Ok tt.

(** [validate_run_backed_file_extents] *)
Definition validate_run_backed_file_extents (extents : list RunBackedFileExtent) : Result unit :=
  try_fold (fun previous_end extent =>
    RunExtent_validate extent;;
    reject_if (match previous_end with
               | Some pe => rx_file_offset_start extent <? pe
               | None => false
               end)
      (InvalidArgument "run-backed file extents must not overlap");;
    e ← ok_or (checked_add U64_MOD (rx_file_offset_start extent) (rx_payload_len extent))
          (InvalidArgument "run-backed file extent range overflows");
    Ok (Some e)) None extents;;
  Ok tt.

(** ** Visible append publishes *)

Record AppendVisiblePublish := mkAppendVisiblePublish {
  avp_record_id : AppendPublishTicketId;
  avp_commit_seq : CommitSeq;
  avp_keyspace_id : KeyspaceId;
  avp_file_id : FileId;
  avp_base_writer_epoch : WriterEpoch;
  avp_writer_epoch : WriterEpoch;
  avp_base_file_version : FileVersion;
  avp_new_file_version : FileVersion;
  avp_old_size : Z;
  avp_new_size : Z;
  avp_publish_through : Z;
  avp_run_extents : list RunBackedFileExtent;
}.

(** The extent loop of [AppendVisiblePublish::validate]: the accumulator is
    [next_offset]. *)
Definition publish_extent_step (self : AppendVisiblePublish) (next_offset : Z)
    (extent : RunBackedFileExtent) : Result Z :=
  RunExtent_validate extent;;
  reject_if (negb (rx_file_offset_start extent =? next_offset))
    (InvalidArgument "append visible publish extents must be contiguous");;
  reject_if (negb (rr_keyspace_id (rx_run extent) =? avp_keyspace_id self)
             || negb (rr_file_id (rx_run extent) =? avp_file_id self)
             || negb (rr_writer_epoch (rx_run extent) =? avp_writer_epoch self))
    (InvalidArgument "append visible publish extent belongs to a different file lineage");;
  next ← ok_or (checked_add U64_MOD next_offset (rx_payload_len extent))
           (InvalidArgument "append visible publish extent range overflows");
  reject_if (avp_new_size self <? next)
    (InvalidArgument "append visible publish extents exceed new file size");;
  Ok next.

(** [AppendVisiblePublish::validate] *)
Definition AppendVisiblePublish_validate (self : AppendVisiblePublish) : Result unit :=
  reject_if (avp_commit_seq self =? 0)
    (InvalidArgument "append visible publish commit sequence must be nonzero");;
  reject_if (avp_new_size self <=? avp_old_size self)
    (InvalidArgument "append visible publish must advance file size");;
  reject_if (avp_writer_epoch self <? avp_base_writer_epoch self)
    (InvalidArgument "append visible publish writer epoch must not precede base epoch");;
  reject_if (negb (avp_publish_through self =? avp_new_size self))
    (InvalidArgument "append visible publish target must match new file size");;
  expected_version ← ok_or (checked_add U64_MOD (avp_base_file_version self) 1)
    (InvalidArgument "append visible publish file version overflows");
  reject_if (negb (avp_new_file_version self =? expected_version))
    (InvalidArgument "append visible publish must advance file version once");;
  reject_if (match avp_run_extents self with [] => true | _ => false end)
    (InvalidArgument "append visible publish must include run extents");;
  next_offset ← try_fold (publish_extent_step self) (avp_old_size self) (avp_run_extents self);
  reject_if (negb (next_offset =? avp_new_size self))
    (InvalidArgument "append visible publish extents do not cover published suffix");;
  Ok tt.

(** [AppendVisiblePublish::validate_for_reconstructed_head]; the writer epoch
    of the head is an unused argument of the source. *)
Definition AppendVisiblePublish_validate_for_reconstructed_head (self : AppendVisiblePublish)
    (keyspace_id : KeyspaceId) (file_id : FileId) (file_version : FileVersion)
    (size : Z) (latest_commit : CommitSeq) : Result unit :=
  AppendVisiblePublish_validate self;;
  reject_if (negb (avp_keyspace_id self =? keyspace_id)
             || negb (avp_file_id self =? file_id)
             || negb (avp_base_file_version self =? file_version)
             || negb (avp_old_size self =? size))
    (InvalidArgument "append visible publish record does not match reconstructed file head");;
  reject_if (avp_commit_seq self <=? latest_commit)
    (InvalidArgument
       "append visible publish commit sequence does not advance reconstructed file head");;
  Ok tt.

Record AppendVisiblePublishReplay := mkAppendVisiblePublishReplay {
  avr_keyspace_id : KeyspaceId;
  avr_file_id : FileId;
  avr_base_writer_epoch : WriterEpoch;
  avr_base_file_version : FileVersion;
  avr_base_size : Z;
  avr_base_commit_seq : CommitSeq;
  avr_latest_writer_epoch : WriterEpoch;
  avr_latest_file_version : FileVersion;
  avr_latest_size : Z;
  avr_latest_commit_seq : CommitSeq;
  avr_run_extents : list RunBackedFileExtent;
}.

(** The mutable locals of [replay_append_visible_publishes_for_file]. *)
Record ReplayCursor := mkReplayCursor {
  rc_writer_epoch : WriterEpoch;
  rc_file_version : FileVersion;
  rc_size : Z;
  rc_commit_seq : CommitSeq;
  rc_run_extents : list RunBackedFileExtent;
}.

(** [remaining.iter().position(p)] followed by [remaining.remove(index)]. *)
Fixpoint remove_first {A} (p : A -> bool) (l : list A) : option (A * list A) :=
  match l with
  | [] => None
  | x :: l =>
    if p x then Some (x, l)
    else match remove_first p l with
         | Some (y, l') => Some (y, x :: l')
         | None => None
         end
  end.

(** The assignments at the end of an iteration of the loop. *)
Definition replay_advance (cur : ReplayCursor) (record : AppendVisiblePublish) : ReplayCursor :=
  mkReplayCursor (Z.max (rc_writer_epoch cur) (avp_writer_epoch record))
    (avp_new_file_version record) (avp_new_size record) (avp_commit_seq record)
    (rc_run_extents cur ++ avp_run_extents record).

(** The [while let] loop.  Each iteration removes one record, so [fuel] equal
    to the number of records is enough. *)
Fixpoint replay_publish_loop (fuel : nat) (keyspace_id : KeyspaceId) (file_id : FileId)
    (cur : ReplayCursor) (remaining : list AppendVisiblePublish)
    : Result (ReplayCursor * list AppendVisiblePublish) :=
  match fuel with
  | O => Ok (cur, remaining)
  | S fuel =>
    match remove_first (fun record =>
            (avp_base_file_version record =? rc_file_version cur)
            && (avp_old_size record =? rc_size cur)) remaining with
    | None => Ok (cur, remaining)
    | Some (record, remaining') =>
      AppendVisiblePublish_validate_for_reconstructed_head record keyspace_id file_id
        (rc_file_version cur) (rc_size cur) (rc_commit_seq cur);;
      replay_publish_loop fuel keyspace_id file_id (replay_advance cur record) remaining'
    end
  end.

Definition publish_sort_key (record : AppendVisiblePublish) : list Z :=
  [avp_base_file_version record; avp_old_size record; avp_new_file_version record;
   avp_record_id record].

(** [replay_append_visible_publishes_for_file] *)
Definition replay_append_visible_publishes_for_file (keyspace_id : KeyspaceId)
    (file_id : FileId) (base_writer_epoch : WriterEpoch) (base_file_version : FileVersion)
    (base_size : Z) (base_commit_seq : CommitSeq) (records : list AppendVisiblePublish)
    : Result AppendVisiblePublishReplay :=
  '(cur, remaining) ← replay_publish_loop (length records) keyspace_id file_id
    (mkReplayCursor base_writer_epoch base_file_version base_size base_commit_seq [])
    (sort_by_tuple publish_sort_key records);
  reject_if (match remaining with [] => false | _ => true end)
    (InvalidArgument "append visible publish replay is not contiguous");;
  Ok (mkAppendVisiblePublishReplay keyspace_id file_id base_writer_epoch base_file_version
        base_size base_commit_seq (rc_writer_epoch cur) (rc_file_version cur) (rc_size cur)
        (rc_commit_seq cur) (rc_run_extents cur)).

(** ** Metadata tree nodes *)

Record SegmentDescriptor := mkSegmentDescriptor {
  sd_segment_id : SegmentId;
  sd_blocks : BlockCount;
  sd_bytes : Z;
  sd_integrity : SegmentPayloadIntegrity;
}.

#[export] Instance SegmentDescriptor_eq_dec : EqDecision SegmentDescriptor.
Proof. solve_decision. Defined.

(** [SegmentDescriptor::validate] *)
Definition SegmentDescriptor_validate (self : SegmentDescriptor) (block_size : Z) : Result unit :=
  reject_if (block_size =? 0) (InvalidArgument "block_size must be greater than zero");;
  reject_if (negb (is_power_of_two block_size))
    (InvalidArgument "block_size must be a power of two");;
  reject_if (sd_blocks self =? 0)
    (InvalidArgument "segment must contain at least one block");;
  expected_bytes ← ok_or (checked_mul U64_MOD (sd_blocks self) block_size)
    (InvalidArgument "segment byte size overflows u64");
  reject_if (negb (sd_bytes self =? expected_bytes))
    (InvalidArgument "segment byte size must equal blocks * block_size");;
  Ok tt.

Record MetadataChild := mkMetadataChild {
  mc_range : BlockRange;
  mc_node_id : MetadataNodeId;
}.

Record LeafEntry := mkLeafEntry {
  le_logical_start : BlockIndex;
  le_blocks : BlockCount;
  le_segment_id : SegmentId;
  le_segment_offset : BlockIndex;
}.

#[export] Instance MetadataChild_eq_dec : EqDecision MetadataChild.
Proof. solve_decision. Defined.
#[export] Instance LeafEntry_eq_dec : EqDecision LeafEntry.
Proof. solve_decision. Defined.

Inductive MetadataNodeKind :=
| Internal (children : list MetadataChild)
| Leaf (entries : list LeafEntry) (run_extents : list RunBackedFileExtent).

#[export] Instance MetadataNodeKind_eq_dec : EqDecision MetadataNodeKind.
Proof. solve_decision. Defined.

Record MetadataNode := mkMetadataNode {
  mn_node_id : MetadataNodeId;
  mn_covered_range : BlockRange;
  mn_kind : MetadataNodeKind;
}.

#[export] Instance MetadataNode_eq_dec : EqDecision MetadataNode.
Proof. solve_decision. Defined.

(** [LeafEntry::logical_range] *)
Definition LeafEntry_logical_range (self : LeafEntry) : BlockRange :=
  mkBlockRange (le_logical_start self) (le_blocks self).

(** [LeafEntry::segment_end_exclusive] *)
Definition LeafEntry_segment_end_exclusive (self : LeafEntry) : Result Z :=
  ok_or (checked_add U64_MOD (le_segment_offset self) (le_blocks self))
    (InvalidArgument "segment slice overflows u64").

(** [LeafEntry::validate_against] *)
Definition LeafEntry_validate_against (self : LeafEntry) (covered_range : BlockRange)
    (descriptor : SegmentDescriptor) : Result unit :=
  BlockRange_validate_non_empty (LeafEntry_logical_range self);;
  c ← BlockRange_contains_range covered_range (LeafEntry_logical_range self);
  reject_if (negb c) (InvalidArgument "leaf entry is outside node covered range");;
  reject_if (negb (le_segment_id self =? sd_segment_id descriptor))
    (InvalidArgument "leaf entry segment_id does not match descriptor");;
  e ← LeafEntry_segment_end_exclusive self;
  reject_if (sd_blocks descriptor <? e)
    (InvalidArgument "leaf entry segment slice exceeds segment bounds");;
  Ok tt.

(** The loop of [validate_child_ranges]; the accumulator is [previous] and
    [next_expected_start]. *)
Definition child_range_step (covered_range : BlockRange)
    (acc : option BlockRange * Z) (child : MetadataChild) : Result (option BlockRange * Z) :=
  let '(previous, next_expected_start) := acc in
  let range := mc_range child in
  BlockRange_validate_non_empty range;;
  c ← BlockRange_contains_range covered_range range;
  reject_if (negb c)
    (InvalidArgument "metadata child range is outside node covered range");;
  match previous with
  | Some previous =>
    reject_if (bk_start range <? bk_start previous)
      (InvalidArgument "metadata child ranges must be sorted");;
    previous_end ← BlockRange_end_exclusive previous;
    reject_if (bk_start range <? previous_end)
      (InvalidArgument "metadata child ranges must not overlap");;
    reject_if (previous_end <? bk_start range)
      (InvalidArgument "metadata child ranges must cover the parent without gaps")
  | None =>
    reject_if (negb (bk_start range =? next_expected_start))
      (InvalidArgument "first metadata child must start at the parent start")
  end;;
  e ← BlockRange_end_exclusive range;
  Ok (Some range, e).

(** [validate_child_ranges] *)
Definition validate_child_ranges (covered_range : BlockRange) (children : list MetadataChild)
    : Result unit :=
  reject_if (match children with [] => true | _ => false end)
    (InvalidArgument "internal metadata node must have children");;
  '(_, next_expected_start) ←
    try_fold (child_range_step covered_range) (None, bk_start covered_range) children;
  e ← BlockRange_end_exclusive covered_range;
  reject_if (negb (next_expected_start =? e))
    (InvalidArgument "metadata child ranges must end at the parent end");;
  Ok tt.

(** The loop of [validate_leaf_entries]; the accumulator is [previous]. *)
Definition leaf_entry_step (covered_range : BlockRange) (segments : list SegmentDescriptor)
    (previous : option BlockRange) (entry : LeafEntry) : Result (option BlockRange) :=
  descriptor ← ok_or (List.find (fun segment => sd_segment_id segment =? le_segment_id entry)
                        segments)
    (InvalidArgument "leaf entry references missing segment");
  LeafEntry_validate_against entry covered_range descriptor;;
  let range := LeafEntry_logical_range entry in
  match previous with
  | Some previous =>
    reject_if (bk_start range <? bk_start previous)
      (InvalidArgument "leaf entries must be sorted");;
    pe ← BlockRange_end_exclusive previous;
    reject_if (bk_start range <? pe) (InvalidArgument "leaf entries must not overlap")
  | None => Ok tt
  end;;
  Ok (Some range).

(** [validate_leaf_entries] *)
Definition validate_leaf_entries (covered_range : BlockRange) (entries : list LeafEntry)
    (segments : list SegmentDescriptor) : Result unit :=
  try_fold (leaf_entry_step covered_range segments) None entries;; Ok tt.

(** [MetadataNode::validate] *)
Definition MetadataNode_validate (self : MetadataNode) (segments : list SegmentDescriptor)
    : Result unit :=
  BlockRange_validate_non_empty (mn_covered_range self);;
  match mn_kind self with
  | Internal children => validate_child_ranges (mn_covered_range self) children
  | Leaf entries run_extents =>
    validate_leaf_entries (mn_covered_range self) entries segments;;
    validate_run_backed_file_extents run_extents
  end.

(** ** Timeline records *)

Record ShardRootUpdate := mkShardRootUpdate {
  sru_shard_id : ShardId;
  sru_old_root : MetadataNodeId;
  sru_new_root : MetadataNodeId;
}.

Inductive RootUpdate :=
| RuBlockShard (update : ShardRootUpdate)
| RuFileCreated (file_id : FileId) (new_root : MetadataNodeId) (new_size : Z)
| RuFileRoot (file_id : FileId) (old_root new_root : MetadataNodeId) (new_size : Z).

Record CommitGroup := mkCommitGroup {
  cg_commit_group : CommitGroupId;
  cg_commit_seq : CommitSeq;
  cg_owner : MappingOwner;
  cg_updates : list RootUpdate;
}.

Record ForkRecord := mkForkRecord {
  fk_commit_seq : CommitSeq;
  fk_source : DeviceId;
  fk_target : DeviceId;
  fk_shard_roots : list MetadataNodeId;
}.

Record ShardCommit := mkShardCommit {
  sc_commit_seq : CommitSeq;
  sc_commit_group : CommitGroupId;
  sc_time : LogicalTime;
  sc_device_id : DeviceId;
  sc_shard_id : ShardId;
  sc_old_root : MetadataNodeId;
  sc_new_root : MetadataNodeId;
}.

Record KeyspaceCommit := mkKeyspaceCommit {
  kc_commit_seq : CommitSeq;
  kc_commit_group : CommitGroupId;
  kc_time : LogicalTime;
  kc_keyspace_id : KeyspaceId;
  kc_shard_index : Z;
  kc_old_shard : KeyspaceCatalogShardId;
  kc_new_shard : KeyspaceCatalogShardId;
  kc_old_file_count : Z;
  kc_new_file_count : Z;
}.

Record FileCommit := mkFileCommit {
  fc_commit_seq : CommitSeq;
  fc_commit_group : CommitGroupId;
  fc_time : LogicalTime;
  fc_keyspace_id : KeyspaceId;
  fc_file_id : FileId;
  fc_old_root : option MetadataNodeId;
  fc_new_root : MetadataNodeId;
  fc_old_version : option FileVersion;
  fc_new_version : FileVersion;
  fc_old_size : Z;
  fc_new_size : Z;
}.

Record DeleteRecord := mkDeleteRecord {
  del_commit_seq : CommitSeq;
  del_time : LogicalTime;
  del_device_id : DeviceId;
  del_shard_roots : list MetadataNodeId;
}.

Inductive CheckpointRoots :=
| CrBlockShard (roots : list MetadataNodeId)
| CrNativeKeyspace (root : KeyspaceRootId).

Record Checkpoint := mkCheckpoint {
  cp_checkpoint_id : CheckpointId;
  cp_commit_seq : CommitSeq;
  cp_time : LogicalTime;
  cp_owner : MappingOwner;
  cp_roots : CheckpointRoots;
}.

(** ** Children of an internal node *)

(** The children tile [s, e) in order, none empty. *)
Fixpoint children_chain (s : Z) (children : list MetadataChild) (e : Z) : Prop :=
  match children with
  | [] => s = e
  | c :: children =>
    bk_start (mc_range c) = s /\ 0 < bk_blocks (mc_range c) /\
    children_chain (bk_end (mc_range c)) children e
  end.

Lemma children_chain_le s cs e : children_chain s cs e -> s <= e.
Proof.
  revert s. induction cs as [|c cs IH]; cbn; intros s; [lia|].
  unfold bk_end. intros (? & ? & H%IH). lia.
Qed.

Lemma children_chain_bounds s cs e c :
  children_chain s cs e -> c ∈ cs ->
  s <= bk_start (mc_range c) /\ 0 < bk_blocks (mc_range c) /\ bk_end (mc_range c) <= e.
Proof.
  revert s. induction cs as [|c' cs IH]; cbn; intros s; [by intros _ ?%not_elem_of_nil|].
  intros (? & ? & H) [->|Hin]%elem_of_cons.
  - apply children_chain_le in H. lia.
  - apply IH in H; [|done]. unfold bk_end in *. lia.
Qed.

Lemma children_chain_unique s cs e b :
  children_chain s cs e -> s <= b < e ->
  exists pre c post, cs = pre ++ c :: post /\ in_block_range (mc_range c) b /\
    Forall (fun c' => ~ in_block_range (mc_range c') b) (pre ++ post).
Proof.
  revert s. induction cs as [|c cs IH]; cbn; intros s; [lia|].
  intros (Hs & Hp & H) Hb. destruct (decide (b < bk_end (mc_range c))) as [Hlt|Hge].
  - exists [], c, cs. unfold in_block_range, bk_end in *. split_and!; [done|lia|lia|].
    apply Forall_forall. intros c' Hc' ?.
    pose proof (children_chain_bounds _ _ _ _ H Hc'). unfold bk_end in *. lia.
  - destruct (IH _ H) as (pre & c' & post & -> & Hin & Hf); [lia|].
    exists (c :: pre), c', post. split_and!; [done|done|].
    constructor; [|done]. unfold in_block_range, bk_end in *. lia.
Qed.

Lemma child_fold_chain cov cs prev s acc :
  Forall (fun c => 0 <= bk_blocks (mc_range c)) cs ->
  match prev with Some p => bk_end p = s | None => True end ->
  try_fold (child_range_step cov) (prev, s) cs = Ok acc ->
  children_chain s cs acc.2.
Proof.
  revert prev s. induction cs as [|c cs IH]; cbn [try_fold]; intros prev s Hty Hprev H.
  { ok_inv. done. }
  apply Forall_cons in Hty as [Hc Hcs]. apply bind_Ok in H as (acc' & Hstep & H).
  assert (bk_start (mc_range c) = s /\ bk_blocks (mc_range c) <> 0 /\
    acc' = (Some (mc_range c), bk_end (mc_range c))) as (? & ? & ->).
  { unfold child_range_step, BlockRange_validate_non_empty, BlockRange_is_empty in Hstep.
    ok_inv. destruct prev; ok_inv; bool_prop;
    repeat match goal with H : BlockRange_end_exclusive _ = Ok _ |- _ =>
      apply BlockRange_end_exclusive_Ok in H as [? ->] end; split_and!; try done; lia. }
  cbn. split_and!; [done|lia|]. eapply IH; [done| |exact H]. done.
Qed.

Lemma child_fold_complete cov cs prev s :
  wf_block_range cov ->
  bk_start cov <= s ->
  match prev with Some p => bk_end p = s /\ 0 <= bk_blocks p | None => True end ->
  children_chain s cs (bk_end cov) ->
  exists p, try_fold (child_range_step cov) (prev, s) cs = Ok (p, bk_end cov).
Proof.
  intros Hw. revert prev s. induction cs as [|c cs IH]; cbn [try_fold children_chain];
    intros prev s Hs Hprev Hch.
  { subst. eauto. }
  destruct Hch as (Hcs & Hp & Hch). pose proof (children_chain_le _ _ _ Hch) as Hle.
  destruct (IH (Some (mc_range c)) (bk_end (mc_range c))) as [p Hfold];
    [unfold bk_end in *; lia|unfold bk_end in *; lia|done|].
  exists p. rewrite <-Hfold.
  assert (Hwc : wf_block_range (mc_range c)).
  { destruct Hw as ([? ?] & ? & ?). unfold wf_block_range, bk_end in *. u64_unfold. lia. }
  unfold child_range_step, BlockRange_validate_non_empty, BlockRange_contains_range, BlockRange_is_empty.
  range_wf. ztest. destruct prev as [p0|]; [|by ztest].
  destruct Hprev as [Hpe ?], Hw as ([? ?] & ? & ?).
  rewrite (proj2 (BlockRange_end_exclusive_Ok p0 s)) by (unfold bk_end in *; lia).
  cbn [mbind Result_bind]. assert (bk_start p0 <= s) by (unfold bk_end in *; lia). by ztest.
Qed.

(** An internal node is accepted exactly when its children tile the
    covered range: non-empty, in order, without gap or overlap. *)
Lemma validate_child_ranges_spec cov cs :
  wf_block_range cov ->
  Forall (fun c => 0 <= bk_blocks (mc_range c)) cs ->
  validate_child_ranges cov cs = Ok tt <->
  cs <> [] /\ children_chain (bk_start cov) cs (bk_end cov).
Proof.
  intros Hw Hty. unfold validate_child_ranges. range_wf. split.
  - intros (? & Hne%reject_if_Ok & ([p e] & Hfold & H)%bind_Ok)%bind_Ok.
    cbn in H. ok_inv. bool_prop. subst.
    split; [by destruct cs|]. by apply child_fold_chain in Hfold.
  - intros [Hne Hch]. destruct cs; [done|]. cbn [reject_if mbind Result_bind].
    destruct (child_fold_complete cov (m :: cs) None (bk_start cov)) as [p ->]; try done.
    cbn. by rewrite Z.eqb_refl.
Qed.

(** ** The mapping of a leaf *)

(** Where an entry places a logical block: a segment and a block of it. *)
Definition entry_lookup (e : LeafEntry) (b : Z) : option (SegmentId * BlockIndex) :=
  if decide (in_block_range (LeafEntry_logical_range e) b)
  then Some (le_segment_id e, le_segment_offset e + (b - le_logical_start e))
  else None.

Definition entries_lookup (es : list LeafEntry) (b : Z) : option (SegmentId * BlockIndex) :=
  first_at entry_lookup es b.

Definition le_end (e : LeafEntry) : Z := le_logical_start e + le_blocks e.

(** Non-empty entries in ascending order, each ending before the next. *)
Definition leaf_sorted (es : list LeafEntry) : Prop :=
  iv_sorted le_logical_start le_end es.

Lemma entry_lookup_Some e b x :
  entry_lookup e b = Some x <->
  le_logical_start e <= b < le_end e /\
  x = (le_segment_id e, le_segment_offset e + (b - le_logical_start e)).
Proof.
  unfold entry_lookup, in_block_range, LeafEntry_logical_range, le_end. cbn.
  case_decide; naive_solver.
Qed.
Lemma entry_lookup_None e b :
  entry_lookup e b = None <-> ~ (le_logical_start e <= b < le_end e).
Proof.
  unfold entry_lookup, in_block_range, LeafEntry_logical_range, le_end. cbn.
  case_decide; naive_solver.
Qed.

Lemma entry_lookup_dom e b x : entry_lookup e b = Some x -> le_logical_start e <= b < le_end e.
Proof. by intros [? _]%entry_lookup_Some. Qed.

(** In a sorted leaf the first match is the only one. *)
Lemma leaf_sorted_lookup es e b x :
  leaf_sorted es -> e ∈ es -> entry_lookup e b = Some x -> entries_lookup es b = Some x.
Proof.
  intros H. apply (first_at_apart le_logical_start le_end); eauto using entry_lookup_dom.
  by apply iv_sorted_apart.
Qed.

Definition entry_within (cov : BlockRange) (segments : list SegmentDescriptor) (e : LeafEntry) : Prop :=
  bk_start cov <= le_logical_start e /\ le_end e <= bk_end cov /\
  exists d, d ∈ segments /\ sd_segment_id d = le_segment_id e /\
    le_segment_offset e + le_blocks e <= sd_blocks d.

Lemma leaf_entry_step_Ok cov segs prev e acc :
  leaf_entry_step cov segs prev e = Ok acc ->
  acc = Some (LeafEntry_logical_range e) /\ entry_within cov segs e /\ le_blocks e <> 0 /\
  match prev with Some p => bk_end p <= le_logical_start e | None => True end.
Proof.
  unfold leaf_entry_step, LeafEntry_validate_against, BlockRange_validate_non_empty,
    BlockRange_contains_range, LeafEntry_segment_end_exclusive, BlockRange_is_empty.
  intros H. ok_inv.
  repeat match goal with H : BlockRange_end_exclusive _ = Ok _ |- _ =>
    apply BlockRange_end_exclusive_Ok in H as [? ->] end.
  match goal with H : List.find _ _ = Some _ |- _ => apply find_some in H as [Hin Hid] end.
  bool_prop. cbn in *. split_and!; try done.
  - unfold entry_within, le_end, bk_end in *. cbn in *. split_and!; try lia.
    eexists. split; [by apply list_elem_of_In|]. split; [|lia]. lia.
  - destruct prev; [|done]. ok_inv. bool_prop.
    repeat match goal with H : BlockRange_end_exclusive _ = Ok _ |- _ =>
      apply BlockRange_end_exclusive_Ok in H as [? ->] end. lia.
Qed.

Lemma leaf_fold_sorted cov segs es prev acc :
  Forall (fun e => 0 <= le_blocks e) es ->
  try_fold (leaf_entry_step cov segs) prev es = Ok acc ->
  leaf_sorted es /\ Forall (entry_within cov segs) es /\
  match prev with Some p => Forall (fun e => bk_end p <= le_logical_start e) es | None => True end.
Proof.
  revert prev. induction es as [|e es IH]; cbn [try_fold]; intros prev Hty H.
  { split; [split; constructor|]. split; [constructor|]. destruct prev; [constructor|done]. }
  apply Forall_cons in Hty as [Hc Hcs]. apply bind_Ok in H as (acc' & Hstep & H).
  apply leaf_entry_step_Ok in Hstep as (-> & Hw & Hnz & Hprev).
  destruct (IH _ Hcs H) as ([HS Hpos] & HF & Hafter).
  split_and!; [split| |].
  - constructor; [done|]. exact Hafter.
  - constructor; [unfold iv_nonempty, le_end; lia|done].
  - by constructor.
  - destruct prev; [|done]. constructor; [done|].
    eapply Forall_impl; [exact Hafter|]. cbn. unfold bk_end in *. cbn. intros. lia.
Qed.

(** The entries of an accepted leaf are sorted and disjoint, so each
    logical block is mapped by at most one entry; each mapping stays inside the
    covered range and inside the referenced segment. *)
Lemma validate_leaf_entries_sound cov es segs :
  Forall (fun e => 0 <= le_blocks e /\ 0 <= le_segment_offset e) es ->
  validate_leaf_entries cov es segs = Ok tt ->
  leaf_sorted es /\
  (forall e b x, e ∈ es -> entry_lookup e b = Some x -> entries_lookup es b = Some x) /\
  (forall b seg blk, entries_lookup es b = Some (seg, blk) ->
     bk_start cov <= b < bk_end cov /\
     exists d, d ∈ segs /\ sd_segment_id d = seg /\ 0 <= blk < sd_blocks d).
Proof.
  intros Hty H. unfold validate_leaf_entries in H. ok_inv.
  match goal with H : try_fold _ _ _ = Ok _ |- _ => apply leaf_fold_sorted in H as (Hs & Hw & _) end.
  2:{ eapply Forall_impl; [exact Hty|]. cbn. tauto. }
  split_and!; [done|eauto using leaf_sorted_lookup|].
  intros b seg blk (e & He & Hl)%first_at_Some_elem.
  rewrite Forall_forall in Hw, Hty. destruct (Hw e He) as (? & ? & d & ? & ? & ?), (Hty e He).
  apply entry_lookup_Some in Hl as [? [= -> ->]]. unfold le_end in *.
  split; [lia|]. exists d. split_and!; [done|done|lia|lia].
Qed.

(** ** Coalescing of append-run ranges *)

(** Where a run range places a byte of the file: node, log and log offset. *)
Definition run_loc (r : AppendLogRunRange) (x : Z) : option (StorageNodeId * Z * Z) :=
  if decide (rr_file_offset_start r <= x < rr_file_offset_start r + rr_payload_len r)
  then Some (rr_storage_node r, rr_log_id r,
             rr_log_payload_offset r + (x - rr_file_offset_start r))
  else None.

Definition runs_at (l : list AppendLogRunRange) (x : Z) (loc : StorageNodeId * Z * Z) : Prop :=
  exists r, r ∈ l /\ run_loc r x = Some loc.

Definition rr_end (r : AppendLogRunRange) : Z := rr_file_offset_start r + rr_payload_len r.

Definition runs_sorted (l : list AppendLogRunRange) : Prop :=
  StronglySorted (fun a b => rr_end a <= rr_file_offset_start b) l /\
  Forall (fun r => 0 < rr_payload_len r) l.

(** The same of the reversed accumulator of the loop. *)
Definition runs_rsorted (l : list AppendLogRunRange) : Prop :=
  StronglySorted (fun a b => rr_end b <= rr_file_offset_start a) l /\
  Forall (fun r => 0 < rr_payload_len r) l.

Lemma run_loc_Some r x loc :
  run_loc r x = Some loc <->
  rr_file_offset_start r <= x < rr_end r /\
  loc = (rr_storage_node r, rr_log_id r, rr_log_payload_offset r + (x - rr_file_offset_start r)).
Proof. unfold run_loc, rr_end. case_decide; naive_solver. Qed.

Lemma runs_at_cons r l x loc : runs_at (r :: l) x loc <-> run_loc r x = Some loc \/ runs_at l x loc.
Proof. unfold runs_at. setoid_rewrite elem_of_cons. naive_solver. Qed.

Lemma runs_at_perm l l' x loc : l ≡ₚ l' -> runs_at l x loc <-> runs_at l' x loc.
Proof. intros Hp. unfold runs_at. by setoid_rewrite Hp. Qed.

Lemma RunRange_validate_pos r :
  0 <= rr_payload_len r -> RunRange_validate r = Ok tt -> 0 < rr_payload_len r.
Proof. unfold RunRange_validate. intros ? H. ok_inv. bool_prop. lia. Qed.

Lemma can_coalesce_true p r :
  RunRange_can_coalesce_with p r = Ok true ->
  rr_storage_node p = rr_storage_node r /\ rr_log_id p = rr_log_id r /\
  rr_end p = rr_file_offset_start r /\
  rr_log_payload_offset p + rr_payload_len p = rr_log_payload_offset r.
Proof.
  unfold RunRange_can_coalesce_with, RunRange_file_offset_end, RunRange_log_payload_end.
  destruct (_ && bool_decide _) eqn:Hc; [|done]. intros H. ok_inv.
  destruct (_ =? rr_file_offset_start r) eqn:Hs; [|done]. ok_inv. bool_prop.
  unfold rr_end. split_and!; lia.
Qed.

Lemma coalesce_run_step_Ok acc r acc' :
  runs_rsorted acc -> 0 <= rr_payload_len r -> coalesce_run_step acc r = Ok acc' ->
  runs_rsorted acc' /\
  (forall x loc, runs_at acc' x loc <-> run_loc r x = Some loc \/ runs_at acc x loc).
Proof.
  intros [HS Hpos] Hty H. unfold coalesce_run_step in H. apply bind_Ok in H as ([] & Hv & H).
  apply RunRange_validate_pos in Hv; [|done].
  destruct acc as [|p rest].
  { ok_inv. split; [split; repeat constructor; done|]. intros. apply runs_at_cons. }
  unfold RunRange_file_offset_end in H. apply bind_Ok in H as (pe & Hpe & H).
  apply bind_Ok in H as (? & Hov & H). apply bind_Ok in H as (c & Hc & H). ok_inv. bool_prop.
  apply Forall_cons in Hpos as [Hp Hpos]. apply StronglySorted_inv in HS as [HS Hf].
  destruct c; ok_inv.
  - apply can_coalesce_true in Hc as (Hn & Hl & Hend & Hlog). unfold rr_end in Hend.
    split; [split; [constructor; [done|]|constructor; [cbn; lia|done]]|].
    { eapply Forall_impl; [exact Hf|]. done. }
    intros x loc. rewrite !runs_at_cons, !run_loc_Some.
    unfold rr_end, set_rr_payload_len. cbn. split.
    + intros [[? ->]|?]; [|by auto].
      destruct (decide (x < rr_file_offset_start r)).
      * right. left. split; [lia|done].
      * left. split; [lia|]. rewrite Hn, Hl. f_equal. lia.
    + intros [[? ->]|[[? ->]|?]]; [left|left|by auto]; (split; [lia|]).
      * rewrite Hn, Hl. f_equal. lia.
      * done.
  - split; [split; [constructor; [by constructor|]|by repeat constructor]|].
    { constructor; [unfold rr_end; lia|]. eapply Forall_impl; [exact Hf|]. cbn.
      unfold rr_end in *. intros. lia. }
    intros. apply runs_at_cons.
Qed.

Lemma coalesce_runs_sound ranges out :
  Forall (fun r => 0 <= rr_payload_len r) ranges ->
  coalesce_append_log_run_ranges ranges = Ok out ->
  runs_sorted out /\ (forall x loc, runs_at out x loc <-> runs_at ranges x loc).
Proof.
  intros Hty H. unfold coalesce_append_log_run_ranges in H.
  apply bind_Ok in H as (acc & Hfold & H). ok_inv.
  assert (runs_rsorted acc /\
    forall x loc, runs_at acc x loc <-> runs_at (sort_by_tuple run_range_sort_key ranges) x loc)
    as [[HS Hpos] Hat].
  { rewrite <-(sort_by_tuple_perm run_range_sort_key ranges) in Hty.
    revert Hty. eapply (try_fold_inv (fun l acc => Forall _ l -> runs_rsorted acc /\
      forall x loc, runs_at acc x loc <-> runs_at l x loc)); [..|exact Hfold].
    - intros _. split; [split; constructor|done].
    - intros dn x a a' _ IH Hstep Hf. apply Forall_app in Hf as [Hd Hx].
      rewrite Forall_singleton in Hx. destruct (IH Hd) as [Hr Ha].
      destruct (coalesce_run_step_Ok _ _ _ Hr Hx Hstep) as [Hr' Ha']. split; [done|].
      intros y loc. rewrite Ha', Ha. rewrite (runs_at_perm (dn ++ [x]) (x :: dn)).
      2:{ by rewrite Permutation_app_comm. }
      by rewrite runs_at_cons. }
  split; [split; [by apply StronglySorted_rev|by rewrite <-Permutation_rev]|].
  intros. rewrite (runs_at_perm (rev acc) acc) by (symmetry; apply Permutation_rev).
  rewrite Hat. apply runs_at_perm, sort_by_tuple_perm.
Qed.

Lemma runs_sorted_functional l x loc loc' :
  runs_sorted l -> runs_at l x loc -> runs_at l x loc' -> loc = loc'.
Proof.
  intros [Hs _]. induction Hs as [|r l HS IH Hf]; [by intros (? & ?%not_elem_of_nil & _)|].
  rewrite Forall_forall in Hf.
  rewrite !runs_at_cons. intros [H1|H1] [H2|H2]; [congruence| | |auto].
  - destruct H2 as (r2 & Hr2 & H2). apply run_loc_Some in H1 as [? _], H2 as [? _].
    specialize (Hf _ Hr2). lia.
  - destruct H1 as (r1 & Hr1 & H1). apply run_loc_Some in H1 as [? _], H2 as [? _].
    specialize (Hf _ Hr1). lia.
Qed.

(** Coalescing append runs keeps the location of every byte: the result is
    sorted and disjoint, and a file byte has a location in the result exactly
    when it has it in the input; so an accepted input gives no byte two
    locations. *)
Lemma coalesce_append_log_run_ranges_sound ranges out :
  Forall (fun r => 0 <= rr_payload_len r) ranges ->
  coalesce_append_log_run_ranges ranges = Ok out ->
  runs_sorted out /\ (forall x loc, runs_at out x loc <-> runs_at ranges x loc) /\
  (forall x loc loc', runs_at ranges x loc -> runs_at ranges x loc' -> loc = loc').
Proof.
  intros Hty H. destruct (coalesce_runs_sound _ _ Hty H) as [Hs Hiff].
  split_and!; [done..|]. intros x loc loc'. rewrite <-!Hiff. by apply runs_sorted_functional.
Qed.

(** ** Replay of append publishes *)

(** The records apply one after the other from [cur] to [cur']. *)
Fixpoint publish_chain (k : KeyspaceId) (f : FileId) (cur : ReplayCursor)
    (records : list AppendVisiblePublish) (cur' : ReplayCursor) : Prop :=
  match records with
  | [] => cur = cur'
  | r :: records =>
    AppendVisiblePublish_validate_for_reconstructed_head r k f
      (rc_file_version cur) (rc_size cur) (rc_commit_seq cur) = Ok tt /\
    publish_chain k f (replay_advance cur r) records cur'
  end.

(** The extents tile the bytes from [s] to [e]. *)
Fixpoint extents_chain (s : Z) (xs : list RunBackedFileExtent) (e : Z) : Prop :=
  match xs with
  | [] => s = e
  | x :: xs => rx_file_offset_start x = s /\ extents_chain (s + rx_payload_len x) xs e
  end.

Lemma extents_chain_app s xs m ys e :
  extents_chain s xs m -> extents_chain m ys e -> extents_chain s (xs ++ ys) e.
Proof.
  revert s. induction xs as [|x xs IH]; cbn; intros s; [by intros ->|].
  intros [? ?] ?. eauto.
Qed.

Lemma remove_first_Some {A} p (l : list A) x l' :
  remove_first p l = Some (x, l') -> p x = true /\ l ≡ₚ x :: l'.
Proof.
  revert x l'. induction l as [|y l IH]; cbn; intros x l'; [done|].
  destruct (p y) eqn:Hp; [by intros [= -> ->]|].
  destruct (remove_first p l) as [[z l2]|]; [|done]. intros [= -> <-].
  destruct (IH _ _ eq_refl) as [? ->]. split; [done|apply Permutation_swap].
Qed.
Lemma remove_first_None {A} p (l : list A) :
  remove_first p l = None -> forall x, x ∈ l -> p x = false.
Proof.
  induction l as [|y l IH]; cbn; [by intros _ x ?%not_elem_of_nil|].
  destruct (p y) eqn:Hp; [done|].
  destruct (remove_first p l) as [[z l2]|]; [done|].
  intros _ x [->|?]%elem_of_cons; auto.
Qed.

Lemma validate_head_inv r k f v s c :
  AppendVisiblePublish_validate_for_reconstructed_head r k f v s c = Ok tt ->
  avp_base_file_version r = v /\ avp_new_file_version r = v + 1 /\ avp_old_size r = s /\
  c < avp_commit_seq r /\ s < avp_new_size r /\
  extents_chain s (avp_run_extents r) (avp_new_size r).
Proof.
  unfold AppendVisiblePublish_validate_for_reconstructed_head, AppendVisiblePublish_validate.
  intros H. ok_inv. bool_prop. subst. split_and!; try lia.
  match goal with H : try_fold _ _ _ = Ok _ |- _ => revert H end.
  match goal with H : ?a = avp_new_size r |- _ => rewrite <-H; generalize a end. intros e He.
  cut (forall xs s0, try_fold (publish_extent_step r) s0 xs = Ok e -> extents_chain s0 xs e); [auto|].
  clear. induction xs as [|x xs IH]; cbn [try_fold]; intros s0 H; [by ok_inv|].
  apply bind_Ok in H as (n & Hn & H). unfold publish_extent_step in Hn. ok_inv. bool_prop.
  cbn. split; [lia|]. auto.
Qed.

Lemma replay_loop_sound fuel k f cur remaining cur' rest :
  replay_publish_loop fuel k f cur remaining = Ok (cur', rest) ->
  exists recs, recs ++ rest ≡ₚ remaining /\ publish_chain k f cur recs cur'.
Proof.
  revert cur remaining. induction fuel as [|fuel IH]; cbn; intros cur remaining H.
  { ok_inv. exists []. done. }
  destruct (remove_first _ remaining) as [[r remaining']|] eqn:Hr.
  - apply bind_Ok in H as ([] & Hv & H). destruct (IH _ _ H) as (recs & Hp & Hc).
    apply remove_first_Some in Hr as [_ Hr]. exists (r :: recs). split; [|done].
    cbn. by rewrite Hp, Hr.
  - ok_inv. exists []. done.
Qed.

Lemma publish_chain_versions k f cur recs cur' :
  publish_chain k f cur recs cur' ->
  Forall (fun r => rc_file_version cur <= avp_base_file_version r) recs.
Proof.
  revert cur. induction recs as [|r recs IH]; cbn; intros cur; [constructor|].
  intros [(Hb & Hn & _)%validate_head_inv Hc]. apply IH in Hc. cbn in Hc.
  constructor; [lia|]. eapply Forall_impl; [exact Hc|]. cbn. intros. lia.
Qed.

Lemma replay_loop_complete fuel k f cur remaining recs cur' :
  recs ≡ₚ remaining -> (length recs <= fuel)%nat -> publish_chain k f cur recs cur' ->
  replay_publish_loop fuel k f cur remaining = Ok (cur', []).
Proof.
  revert cur remaining recs. induction fuel as [|fuel IH]; intros cur remaining recs Hp Hlen Hc.
  { destruct recs; [|cbn in Hlen; lia]. apply Permutation_nil_l in Hp. cbn in Hc. by subst. }
  destruct recs as [|r recs]; cbn in Hc.
  { apply Permutation_nil_l in Hp. by subst. }
  destruct Hc as [Hv Hc]. pose proof (validate_head_inv _ _ _ _ _ _ Hv) as (Hb & Hn & Hs & _).
  pose proof (publish_chain_versions _ _ _ _ _ Hc) as Hvs. rewrite Forall_forall in Hvs.
  cbn. destruct (remove_first _ remaining) as [[r' remaining']|] eqn:Hr.
  - apply remove_first_Some in Hr as [Hm Hr]. bool_prop.
    assert (r' = r) as ->.
    { assert (Hin : r' ∈ r :: recs) by (rewrite Hp, Hr; left).
      apply elem_of_cons in Hin as [->|Hin]; [done|]. apply Hvs in Hin. cbn in Hin. lia. }
    rewrite Hv. cbn. apply (IH _ _ recs); [|cbn in Hlen; lia|done].
    rewrite Hr in Hp. by apply Permutation_cons_inv in Hp.
  - assert (Hin : r ∈ remaining) by (rewrite <-Hp; left).
    apply (remove_first_None _ _ Hr) in Hin. revert Hin. rewrite Hb, Hs, !Z.eqb_refl. done.
Qed.

Lemma publish_chain_result k f cur recs cur' s0 :
  publish_chain k f cur recs cur' ->
  extents_chain s0 (rc_run_extents cur) (rc_size cur) ->
  rc_file_version cur' = rc_file_version cur + Z.of_nat (length recs) /\
  rc_commit_seq cur <= rc_commit_seq cur' /\
  extents_chain s0 (rc_run_extents cur') (rc_size cur').
Proof.
  revert cur. induction recs as [|r recs IH]; cbn; intros cur.
  { intros <- ?. split_and!; [lia|lia|done]. }
  intros [(Hb & Hn & Hs & Hc & Hlt & Hx)%validate_head_inv Hch] Hx0.
  apply IH in Hch; [|cbn; by eapply extents_chain_app].
  cbn in Hch. destruct Hch as (? & ? & ?). split_and!; [lia|lia|done].
Qed.

(** C35: replay of append publishes does not depend on the order in which the
    records are stored: it succeeds exactly when some ordering of the records
    applies one after the other from the base head, and then gives the result
    of that ordering. *)
Theorem replay_publishes_spec k f we v s c records out :
  replay_append_visible_publishes_for_file k f we v s c records = Ok out <->
  exists recs cur, recs ≡ₚ records /\
    publish_chain k f (mkReplayCursor we v s c []) recs cur /\
    out = mkAppendVisiblePublishReplay k f we v s c (rc_writer_epoch cur)
            (rc_file_version cur) (rc_size cur) (rc_commit_seq cur) (rc_run_extents cur).
Proof.
  unfold replay_append_visible_publishes_for_file. split.
  - intros ([cur rest] & Hl & H)%bind_Ok. cbn in H. ok_inv.
    apply replay_loop_sound in Hl as (recs & Hp & Hc). exists recs, cur.
    destruct rest; [|discriminate]. rewrite app_nil_r, sort_by_tuple_perm in Hp. done.
  - intros (recs & cur & Hp & Hc & ->).
    rewrite (replay_loop_complete _ _ _ _ _ recs cur); [done| | |done].
    + by rewrite sort_by_tuple_perm.
    + by rewrite Hp.
Qed.

(** A successful replay advances the version once per record, never moves
    the commit sequence back, and its extents cover exactly the bytes from the
    base size to the new size, in order and without gap. *)
Lemma replay_publishes_contiguous k f we v s c records out :
  replay_append_visible_publishes_for_file k f we v s c records = Ok out ->
  avr_latest_file_version out = v + Z.of_nat (length records) /\
  c <= avr_latest_commit_seq out /\
  extents_chain s (avr_run_extents out) (avr_latest_size out).
Proof.
  unfold replay_append_visible_publishes_for_file.
  intros ([cur rest] & Hl & H)%bind_Ok. cbn in H. ok_inv.
  apply replay_loop_sound in Hl as (recs & Hp & Hc).
  destruct rest; [|discriminate]. rewrite app_nil_r, sort_by_tuple_perm in Hp.
  apply (publish_chain_result _ _ _ _ _ s) in Hc; [|done]. cbn in Hc. by rewrite <-Hp.
Qed.

(** ** Concrete nodes and publishes *)

Lemma validate_child_ranges_spec_witness :
  validate_child_ranges (mkBlockRange 0 8)
    [mkMetadataChild (mkBlockRange 0 4) 1; mkMetadataChild (mkBlockRange 4 4) 2] = Ok tt.
Proof.
  apply (validate_child_ranges_spec (mkBlockRange 0 8)
    [mkMetadataChild (mkBlockRange 0 4) 1; mkMetadataChild (mkBlockRange 4 4) 2]).
  - unfold wf_block_range. cbn. u64_unfold. lia.
  - repeat constructor; cbn; lia.
  - split; [discriminate|]. cbn. auto with lia.
Defined.

Definition demo_publish (base size len log_offset : Z) : AppendVisiblePublish :=
  mkAppendVisiblePublish (base + 1) (base + 1) 4 5 3 3 base (base + 1) size (size + len) (size + len)
    [mkRunBackedFileExtent size len
      (mkAppendLogRunRange 1 1 2 3 4 5 size len 6 log_offset SpUnchecked)].

Lemma replay_publishes_contiguous_witness :
  exists out, replay_append_visible_publishes_for_file 4 5 3 0 0 0
      [demo_publish 1 10 5 70; demo_publish 0 0 10 0] = Ok out /\
    extents_chain 0 (avr_run_extents out) (avr_latest_size out).
Proof.
  destruct (replay_append_visible_publishes_for_file 4 5 3 0 0 0
    [demo_publish 1 10 5 70; demo_publish 0 0 10 0]) as [out|e] eqn:H; [|by vm_compute in H].
  exists out. split; [done|]. by apply (replay_publishes_contiguous 4 5 3 0 0 0
    [demo_publish 1 10 5 70; demo_publish 0 0 10 0] out).
Defined.
