(* ===== verification/TreeEdit.v ===== *)
(** * Edits of leaf entries and run extents ([local/metadata_tree.rs])

    Replacing a block range inside a leaf, coalescing neighbouring entries, and
    replacing a byte range of run-backed extents. *)

From S2P Require Import Prelude Intervals Api Object.

(** ** Leaf entries *)

Definition set_le_blocks (e : LeafEntry) (blocks : Z) : LeafEntry :=
  mkLeafEntry (le_logical_start e) blocks (le_segment_id e) (le_segment_offset e).

(** The body of the loop of [replace_leaf_entries]: what is pushed for one
    entry. *)
Definition cut_leaf_entry (replacement_range : BlockRange) (replacement_end : Z)
    (entry : LeafEntry) : Result (list LeafEntry) :=
  let entry_range := LeafEntry_logical_range entry in
  entry_end ← BlockRange_end_exclusive entry_range;
  ov ← BlockRange_overlaps entry_range replacement_range;
  if negb ov then Ok [entry]
  else
    let left :=
      if le_logical_start entry <? bk_start replacement_range
      then [mkLeafEntry (le_logical_start entry)
              (wsub64 (bk_start replacement_range) (le_logical_start entry))
              (le_segment_id entry) (le_segment_offset entry)]
      else [] in
    if replacement_end <? entry_end then
      let skipped_blocks := wsub64 replacement_end (le_logical_start entry) in
      segment_offset ← ok_or (checked_add U64_MOD (le_segment_offset entry) skipped_blocks)
        (InvalidArgument "leaf segment offset overflows");
      Ok (left ++ [mkLeafEntry replacement_end (wsub64 entry_end replacement_end)
                     (le_segment_id entry) segment_offset])
    else Ok left.

(** The merge test of [coalesce_leaf_entries]. *)
Definition leaf_try_merge (previous entry : LeafEntry) : Result (option LeafEntry) :=
  if le_segment_id previous =? le_segment_id entry then
    e ← BlockRange_end_exclusive (LeafEntry_logical_range previous);
    if e =? le_logical_start entry then
      se ← LeafEntry_segment_end_exclusive previous;
      if se =? le_segment_offset entry then
        blocks ← ok_or (checked_add U64_MOD (le_blocks previous) (le_blocks entry))
          (InvalidArgument "leaf entry size overflows");
        Ok (Some (set_le_blocks previous blocks))
      else Ok None
    else Ok None
  else Ok None.

(** [coalesce_leaf_entries] *)
Definition coalesce_leaf_entries (entries : list LeafEntry) : Result (list LeafEntry) :=
  coalesce_with leaf_try_merge entries.

(** [replace_leaf_entries] *)
Definition replace_leaf_entries (entries : list LeafEntry) (covered_range : BlockRange)
    (replacement_range : BlockRange) (replacement : option LeafEntry)
    : Result (list LeafEntry) :=
  BlockRange_validate_non_empty replacement_range;;
  c ← BlockRange_contains_range covered_range replacement_range;
  reject_if (negb c) (InvalidArgument "replacement range is outside leaf coverage");;
  replacement_end ← BlockRange_end_exclusive replacement_range;
  pieces ← try_map (cut_leaf_entry replacement_range replacement_end) entries;
  let out := concat pieces ++ match replacement with Some r => [r] | None => [] end in
  coalesce_leaf_entries (sort_by_key le_logical_start out).

(** ** Byte ranges *)

(** [byte_ranges_overlap] *)
Definition byte_ranges_overlap (a_start a_end b_start b_end : Z) : bool :=
  (a_start <? b_end) && (b_start <? a_end).

(** [block_range_to_byte_range] *)
Definition block_range_to_byte_range (range : BlockRange) (block_size : Z) : Result ByteRange :=
  offset ← ok_or (checked_mul U64_MOD (bk_start range) block_size)
    (InvalidArgument "block range byte offset overflows");
  len ← ok_or (checked_mul U64_MOD (bk_blocks range) block_size)
    (InvalidArgument "block range byte length overflows");
  Ok (mkByteRange offset len).

(** [byte_range_intersection] *)
Definition byte_range_intersection (a b : ByteRange) : Result (option ByteRange) :=
  a_end ← ByteRange_end_exclusive a;
  b_end ← ByteRange_end_exclusive b;
  let start := Z.max (br_offset a) (br_offset b) in
  let end_ := Z.min a_end b_end in
  if end_ <=? start then Ok None
  else Ok (Some (mkByteRange start (wsub64 end_ start))).

(** [blocks_for_bytes] *)
Definition blocks_for_bytes (bytes block_size : Z) : Result Z :=
  reject_if (block_size =? 0) (InvalidArgument "block_size must be greater than zero");;
  if bytes =? 0 then Ok 0
  else
    adjusted ← ok_or (checked_add U64_MOD bytes (wsub64 block_size 1))
      (InvalidArgument "byte count overflows block count");
    Ok (adjusted / block_size).

(** ** Run-backed extents *)

(** [run_extent_end] *)
Definition run_extent_end (extent : RunBackedFileExtent) : Result Z :=
  ok_or (checked_add U64_MOD (rx_file_offset_start extent) (rx_payload_len extent))
    (InvalidArgument "run-backed extent end overflows").

(** [slice_run_extent] *)
Definition slice_run_extent (extent : RunBackedFileExtent) (start end_ : Z)
    : Result (option RunBackedFileExtent) :=
  if end_ <=? start then Ok None
  else
    extent_end ← run_extent_end extent;
    reject_if ((start <? rx_file_offset_start extent) || (extent_end <? end_))
      (InvalidArgument "run-backed extent slice exceeds source extent");;
    let delta := wsub64 start (rx_file_offset_start extent) in
    let run := rx_run extent in
    let integrity :=
      if (start =? rx_file_offset_start extent) && (end_ =? extent_end)
      then rr_integrity run else SpUnchecked in
    offset ← ok_or (checked_add U64_MOD (rr_log_payload_offset run) delta)
      (InvalidArgument "append run offset overflows");
    Ok (Some (mkRunBackedFileExtent start (wsub64 end_ start)
      (mkAppendLogRunRange (rr_run_id run) (rr_storage_node run) (rr_stream_id run)
         (rr_writer_epoch run) (rr_keyspace_id run) (rr_file_id run) start
         (wsub64 end_ start) (rr_log_id run) offset integrity))).

Definition opt_list {A} (o : option A) : list A :=
  match o with Some a => [a] | None => [] end.

(** The body of the loop of [replace_run_backed_file_extents]. *)
Definition cut_run_extent (replacement_start replacement_end : Z) (extent : RunBackedFileExtent)
    : Result (list RunBackedFileExtent) :=
  RunExtent_validate extent;;
  extent_end ← run_extent_end extent;
  if negb (byte_ranges_overlap (rx_file_offset_start extent) extent_end
             replacement_start replacement_end)
  then Ok [extent]
  else
    left ← (if rx_file_offset_start extent <? replacement_start
            then slice_run_extent extent (rx_file_offset_start extent)
                   (Z.min replacement_start extent_end)
            else Ok None);
    right ← (if replacement_end <? extent_end
             then slice_run_extent extent
                    (Z.max replacement_end (rx_file_offset_start extent)) extent_end
             else Ok None);
    Ok (opt_list left ++ opt_list right).

(** The conversion of a coalesced run back into an extent. *)
Definition extent_of_run (run : AppendLogRunRange) : Result RunBackedFileExtent :=
  let extent := mkRunBackedFileExtent (rr_file_offset_start run) (rr_payload_len run) run in
  RunExtent_validate extent;; Ok extent.

(** [replace_run_backed_file_extents] *)
Definition replace_run_backed_file_extents (extents : list RunBackedFileExtent)
    (replacement_range : ByteRange) (replacements : list RunBackedFileExtent)
    : Result (list RunBackedFileExtent) :=
  let replacement_start := br_offset replacement_range in
  replacement_end ← ByteRange_end_exclusive replacement_range;
  pieces ← try_map (cut_run_extent replacement_start replacement_end) extents;
  ranges ← coalesce_append_log_run_ranges (rx_run <$> (concat pieces ++ replacements));
  try_map extent_of_run ranges.

(** ** Correctness of leaf edits *)

(** An entry whose logical and segment ranges fit in 64 bits. *)
Definition wf_entry (e : LeafEntry) : Prop :=
  0 <= le_logical_start e /\ 0 < le_blocks e /\ le_end e < U64_MOD /\
  0 <= le_segment_offset e /\ le_segment_offset e + le_blocks e < U64_MOD.

Lemma wf_entry_range e : wf_entry e -> wf_block_range (LeafEntry_logical_range e).
Proof.
  unfold wf_entry, wf_block_range, le_end, LeafEntry_logical_range. cbn. u64_unfold. lia.
Qed.

Lemma overlaps_eval a b :
  wf_block_range a -> wf_block_range b -> 0 < bk_blocks a -> 0 < bk_blocks b ->
  BlockRange_overlaps a b = Ok ((bk_start a <? bk_end b) && (bk_start b <? bk_end a)).
Proof.
  intros Ha Hb ? ?. unfold BlockRange_overlaps, BlockRange_is_empty. range_wf. by ztest.
Qed.

Lemma entry_lookup_eval e b :
  entry_lookup e b = if in_range (le_logical_start e) (le_end e) b
    then Some (le_segment_id e, le_segment_offset e + (b - le_logical_start e)) else None.
Proof.
  unfold entry_lookup, in_block_range, LeafEntry_logical_range. cbn.
  destruct (in_range _ _ _) eqn:Hb.
  - apply in_range_true in Hb. unfold le_end in Hb. by rewrite decide_True by lia.
  - apply in_range_false in Hb. unfold le_end in Hb. by rewrite decide_False by lia.
Qed.

Ltac in_range_cases :=
  repeat match goal with
  | |- context [in_range ?s ?e ?x] =>
      let H := fresh "Hr" in
      destruct (in_range s e x) eqn:H;
      [apply in_range_true in H|apply in_range_false in H]
  end.

(** The part of an entry inside [s, t). *)
Definition le_slice (e : LeafEntry) (s t : Z) : LeafEntry :=
  mkLeafEntry s (t - s) (le_segment_id e) (le_segment_offset e + (s - le_logical_start e)).

Lemma le_slice_spec e : slice_spec le_logical_start le_end entry_lookup le_slice e.
Proof.
  intros s t ? ? ?. split_and!; [done|unfold le_end; cbn; lia|].
  intros x. rewrite !entry_lookup_eval. unfold le_end in *. cbn. rewrite Zplus_minus.
  in_range_cases; try done; try lia. do 2 f_equal. lia.
Qed.

Lemma le_slice_wf e s t :
  wf_entry e -> le_logical_start e <= s -> s < t -> t <= le_end e -> wf_entry (le_slice e s t).
Proof. unfold wf_entry, le_slice, le_end. cbn. lia. Qed.

Lemma cut_leaf_entry_eval r e :
  wf_entry e -> wf_block_range r -> 0 < bk_blocks r ->
  cut_leaf_entry r (bk_end r) e =
  Ok (if (le_logical_start e <? bk_end r) && (bk_start r <? le_end e)
      then cut_pieces le_logical_start le_end le_slice (bk_start r) (bk_end r) e else [e]).
Proof.
  intros He Hr Hb. unfold cut_leaf_entry, cut_pieces.
  pose proof (wf_entry_range e He) as Hre. range_wf.
  rewrite overlaps_eval by (try done; apply He). cbn [mbind Result_bind].
  destruct He as (H1 & H2 & H3 & H4 & H5), Hr as ([H6 _] & _ & H7).
  unfold bk_end, le_end in *. cbn in *.
  destruct (_ && _) eqn:Hov; cbn [negb]; [|done]. bool_prop.
  assert (Hl : (if le_logical_start e <? bk_start r then
      [mkLeafEntry (le_logical_start e) (wsub64 (bk_start r) (le_logical_start e))
         (le_segment_id e) (le_segment_offset e)] else []) =
    if le_logical_start e <? bk_start r then [le_slice e (le_logical_start e) (bk_start r)] else []).
  { case_match; [|done]. bool_prop. unfold le_slice.
    rewrite wsub64_exact by (u64_unfold; lia). do 2 f_equal. lia. }
  rewrite Hl. destruct (_ <? le_logical_start e + le_blocks e) eqn:Hright; bool_prop.
  - rewrite !wsub64_exact by (u64_unfold; lia). unfold checked_add. by ztest.
  - by rewrite app_nil_r.
Qed.

Lemma cut_leaf_entry_ok r e :
  wf_entry e -> wf_block_range r -> 0 < bk_blocks r ->
  exists ps, cut_leaf_entry r (bk_end r) e = Ok ps /\
    is_cut le_logical_start le_end entry_lookup (bk_start r) (bk_end r) e ps /\
    Forall wf_entry ps.
Proof.
  intros He Hr Hb. rewrite cut_leaf_entry_eval by done. eexists. split; [done|].
  assert (iv_nonempty le_logical_start le_end e) by (unfold iv_nonempty, le_end; apply Z.lt_add_pos_r, He).
  destruct (_ && _) eqn:Hov; bool_prop.
  - split.
    + apply cut_pieces_is_cut; eauto using entry_lookup_dom, le_slice_spec. unfold bk_end. lia.
    + unfold cut_pieces. apply Forall_app.
      split; case_match; bool_prop; rewrite ?Forall_singleton; try (by constructor);
        apply le_slice_wf; try done; lia.
  - split; [|by rewrite Forall_singleton].
    apply no_overlap_is_cut; eauto using entry_lookup_dom.
    apply andb_false_iff in Hov as [|]; bool_prop; lia.
Qed.

Lemma leaf_try_merge_ok a b :
  wf_entry a -> wf_entry b -> le_end a <= le_logical_start b ->
  match leaf_try_merge a b with
  | Ok (Some m) => wf_entry m /\ le_logical_start m = le_logical_start a /\ le_end m = le_end b /\
      forall x, entry_lookup m x =
        match entry_lookup a x with Some y => Some y | None => entry_lookup b x end
  | Ok None => True
  | Err _ => False
  end.
Proof.
  intros Ha Hb Hab. unfold leaf_try_merge, LeafEntry_segment_end_exclusive.
  pose proof (wf_entry_range a Ha) as Hra. destruct (_ =? _) eqn:Hid; [|done]. range_wf.
  destruct Ha as (A1 & A2 & A3 & A4 & A5), Hb as (B1 & B2 & B3 & B4 & B5).
  destruct (bk_end _ =? _) eqn:He; [|done].
  rewrite (checked_add_ok _ (le_segment_offset a)) by lia. cbn [ok_or mbind Result_bind].
  destruct (_ =? le_segment_offset b) eqn:Hs; [|done].
  bool_prop. unfold bk_end, le_end in *. cbn in He.
  rewrite checked_add_ok by lia. cbn [ok_or mbind Result_bind]. split_and!; cbn; [unfold wf_entry, le_end; cbn; lia|done|lia|].
  intros x. rewrite !entry_lookup_eval. unfold le_end. cbn.
  in_range_cases; try done; try lia. rewrite Hid. do 2 f_equal. lia.
Qed.

Lemma coalesce_leaf_entries_ok es :
  leaf_sorted es -> Forall wf_entry es ->
  exists out, coalesce_leaf_entries es = Ok out /\ leaf_sorted out /\ Forall wf_entry out /\
    forall b, entries_lookup out b = entries_lookup es b.
Proof. apply coalesce_with_ok; [apply entry_lookup_dom|apply leaf_try_merge_ok]. Qed.

Lemma cut_leaf_entries_ok r es :
  Forall wf_entry es -> wf_block_range r -> 0 < bk_blocks r ->
  exists pieces, try_map (cut_leaf_entry r (bk_end r)) es = Ok pieces /\
    Forall2 (is_cut le_logical_start le_end entry_lookup (bk_start r) (bk_end r)) es pieces /\
    Forall wf_entry (concat pieces).
Proof.
  intros Hes Hr Hb. induction Hes as [|e es He Hes (pieces & IH1 & IH2 & IH3)].
  { exists []. split_and!; constructor. }
  destruct (cut_leaf_entry_ok r e He Hr Hb) as (ps & H1 & H2 & H3).
  exists (ps :: pieces). cbn [try_map]. rewrite H1, IH1. split_and!; [done|by constructor|].
  cbn. by apply Forall_app.
Qed.

(** Replacing a range inside a leaf succeeds, keeps the leaf sorted and
    disjoint, and is the pointwise overlay: inside the range the new leaf maps
    as the replacement (or to nothing), outside it maps as before. *)
Lemma replace_leaf_entries_overlay es cov r repl :
  leaf_sorted es -> Forall wf_entry es ->
  wf_block_range cov -> wf_block_range r -> 0 < bk_blocks r ->
  bk_start cov <= bk_start r -> bk_end r <= bk_end cov ->
  (forall e, repl = Some e -> wf_entry e /\ LeafEntry_logical_range e = r) ->
  exists out, replace_leaf_entries es cov r repl = Ok out /\
    leaf_sorted out /\ Forall wf_entry out /\
    forall b, entries_lookup out b =
      if in_range (bk_start r) (bk_end r) b
      then match repl with Some e => entry_lookup e b | None => None end
      else entries_lookup es b.
Proof.
  intros Hs Hes Hcov Hr Hb H1 H2 Hrepl.
  unfold replace_leaf_entries, BlockRange_validate_non_empty, BlockRange_contains_range,
    BlockRange_is_empty. range_wf. ztest.
  destruct (cut_leaf_entries_ok r es Hes Hr Hb) as (pieces & -> & Hcut & Hwf).
  cbn [mbind Result_bind]. apply iv_sorted_apart in Hs as Ha.
  assert (Hnew : let out := sort_by_key le_logical_start (concat pieces ++
      match repl with Some e => [e] | None => [] end) in
    leaf_sorted out /\ Forall wf_entry out /\ forall b, entries_lookup out b =
      if in_range (bk_start r) (bk_end r) b
      then match repl with Some e => entry_lookup e b | None => None end
      else entries_lookup es b).
  { destruct repl as [e|].
    - destruct (Hrepl e eq_refl) as [Hwe <-].
      destruct (cut_overlay le_logical_start le_end entry_lookup entry_lookup_dom
        _ _ es pieces e Ha Hcut) as [? ?]; [done|done|unfold bk_end; lia|].
      cbn. split_and!; [done| |done]. rewrite sort_by_key_perm. apply Forall_app.
      split; [done|by constructor].
    - rewrite app_nil_r. destruct (cut_remove le_logical_start le_end entry_lookup
        entry_lookup_dom _ _ es pieces Ha Hcut) as [? ?].
      cbn. split_and!; [done| |done]. by rewrite sort_by_key_perm. }
  destruct Hnew as (N1 & N2 & N3).
  destruct (coalesce_leaf_entries_ok _ N1 N2) as (out & -> & ? & ? & Ho).
  exists out. split_and!; [done..|]. intros b. by rewrite Ho, N3.
Qed.

(** ** Correctness of run-extent edits *)

Definition wf_run (r : AppendLogRunRange) : Prop :=
  0 <= rr_file_offset_start r /\ 0 < rr_payload_len r /\ rr_end r < U64_MOD /\
  0 <= rr_log_payload_offset r /\ rr_log_payload_offset r + rr_payload_len r < U64_MOD.

(** An extent that repeats the range of its run. *)
Definition wf_extent (x : RunBackedFileExtent) : Prop :=
  wf_run (rx_run x) /\ rx_file_offset_start x = rr_file_offset_start (rx_run x) /\
  rx_payload_len x = rr_payload_len (rx_run x).

Definition runs_apart (l : list AppendLogRunRange) : Prop :=
  iv_apart rr_file_offset_start rr_end l.

Lemma RunRange_validate_ok r : wf_run r -> RunRange_validate r = Ok tt.
Proof.
  unfold wf_run, rr_end. intros (? & ? & ? & ? & ?).
  unfold RunRange_validate, RunRange_file_offset_end, RunRange_log_payload_end.
  rewrite !checked_add_ok by lia. by ztest.
Qed.

Lemma RunExtent_validate_ok x : wf_extent x -> RunExtent_validate x = Ok tt.
Proof.
  intros (Hw & H1 & H2). unfold RunExtent_validate. rewrite RunRange_validate_ok by done.
  rewrite H1, H2, !Z.eqb_refl. destruct Hw as (? & ? & _). cbn. by ztest.
Qed.

Lemma run_loc_dom r x loc : run_loc r x = Some loc -> rr_file_offset_start r <= x < rr_end r.
Proof. by intros [? _]%run_loc_Some. Qed.

Lemma runs_at_first_at l x loc :
  runs_apart l -> runs_at l x loc <-> first_at run_loc l x = Some loc.
Proof.
  intros Ha. split.
  - intros (r & Hr & Hl). eapply first_at_apart; eauto using run_loc_dom.
  - by apply first_at_Some_elem.
Qed.

Lemma can_coalesce_ok p r : wf_run p -> exists c, RunRange_can_coalesce_with p r = Ok c.
Proof.
  unfold wf_run, rr_end. intros (? & ? & ? & ? & ?).
  unfold RunRange_can_coalesce_with, RunRange_file_offset_end, RunRange_log_payload_end.
  rewrite !checked_add_ok by lia. cbn [ok_or mbind Result_bind]. repeat case_match; eauto.
Qed.

Lemma coalesce_run_step_total acc r l :
  iv_sorted rr_file_offset_start rr_end (rev acc ++ r :: l) -> Forall wf_run (rev acc ++ r :: l) ->
  exists acc', coalesce_run_step acc r = Ok acc' /\
    iv_sorted rr_file_offset_start rr_end (rev acc' ++ l) /\ Forall wf_run (rev acc' ++ l).
Proof.
  intros Hs Hw. unfold coalesce_run_step.
  assert (wf_run r) as Hr by (apply Forall_app in Hw as [_ Hw]; by apply Forall_cons in Hw as [? _]).
  rewrite RunRange_validate_ok by done. cbn [mbind Result_bind].
  destruct acc as [|p rest]; [by exists [r]|].
  cbn [rev] in *. rewrite <-app_assoc in *. cbn [app] in *.
  apply Forall_app in Hw as [Hwrest Hw]. apply Forall_cons in Hw as [Hwp Hw].
  apply Forall_cons in Hw as [_ Hw].
  pose proof Hs as (Hs1 & [Hs2 Hn2] & Hs3)%iv_sorted_app.
  apply StronglySorted_inv in Hs2 as [Hs2 Hp]. apply Forall_cons in Hp as [Hpr Hp].
  apply StronglySorted_inv in Hs2 as [Hs2 Hra]. apply Forall_cons in Hn2 as [Hn1 Hn2].
  apply Forall_cons in Hn2 as [Hn2 Hn3]. unfold iv_before, iv_nonempty in *.
  unfold RunRange_file_offset_end.
  rewrite (checked_add_ok _ (rr_file_offset_start p)) by (apply Hwp).
  cbn [ok_or mbind Result_bind]. fold (rr_end p). ztest.
  destruct (can_coalesce_ok p r Hwp) as [c Hc]. rewrite Hc. cbn [mbind Result_bind].
  destruct c; [|exists (r :: p :: rest); cbn [rev]; rewrite <-!app_assoc; split_and!; [done|done|];
                apply Forall_app; split; [done|by repeat (constructor; [done|])]].
  apply can_coalesce_true in Hc as (_ & _ & He & Hlog).
  destruct Hwp as (? & ? & ? & ? & ?), Hr as (? & ? & ? & ? & ?). unfold rr_end in *.
  rewrite checked_add_ok by lia. cbn [ok_or mbind Result_bind].
  eexists. split; [done|]. cbn [rev]. rewrite <-app_assoc. cbn [app]. split.
  - apply iv_sorted_app. unfold iv_sorted, iv_nonempty, iv_before, rr_end in *.
    split_and!; [apply Hs1..| | |].
    + constructor; [done|]. cbn. eapply Forall_impl; [exact Hra|]. cbn. intros. lia.
    + constructor; [cbn; lia|done].
    + intros a b Ha [->|Hb]%elem_of_cons; [cbn; apply Hs3; [done|left]|].
      apply Hs3; [done|]. by do 2 right.
  - apply Forall_app. split; [done|]. constructor; [|done]. unfold wf_run, rr_end. cbn. lia.
Qed.

Lemma coalesce_runs_total acc l :
  iv_sorted rr_file_offset_start rr_end (rev acc ++ l) -> Forall wf_run (rev acc ++ l) ->
  exists acc', try_fold coalesce_run_step acc l = Ok acc' /\ Forall wf_run (rev acc').
Proof.
  revert acc. induction l as [|r l IH]; intros acc Hs Hw; cbn [try_fold].
  { rewrite app_nil_r in Hw. eauto. }
  destruct (coalesce_run_step_total acc r l Hs Hw) as (acc' & -> & ? & ?). by apply IH.
Qed.

Lemma sort_by_tuple_head {A} (lo : A -> Z) key l :
  (forall a, exists t, key a = lo a :: t) -> sorted_by lo (sort_by_tuple key l).
Proof.
  intros Hk. eapply StronglySorted_impl'; [|apply sort_by_tuple_sorted].
  cbn. intros x y. destruct (Hk x) as [tx ->], (Hk y) as [ty ->]. cbn.
  intros H%Is_true_true. apply orb_prop in H as [H|H]; bool_prop; lia.
Qed.

(** Coalescing a list of valid, pairwise disjoint runs succeeds. *)
Lemma coalesce_append_log_run_ranges_total l :
  runs_apart l -> Forall wf_run l ->
  exists out, coalesce_append_log_run_ranges l = Ok out /\ Forall wf_run out.
Proof.
  intros Ha Hw. unfold coalesce_append_log_run_ranges.
  destruct (coalesce_runs_total [] (sort_by_tuple run_range_sort_key l)) as (acc & -> & Hacc).
  - cbn. apply (iv_apart_perm _ _ _ (sort_by_tuple run_range_sort_key l)) in Ha;
      [|by rewrite sort_by_tuple_perm].
    rewrite <-(sort_by_key_id rr_file_offset_start (sort_by_tuple run_range_sort_key l)).
    + by apply iv_apart_sort.
    + apply sort_by_tuple_head. intros a. unfold run_range_sort_key. eauto.
  - cbn. by rewrite sort_by_tuple_perm.
  - exists (rev acc). done.
Qed.

(** The part of an extent inside [s, t). *)
Definition rx_slice (x : RunBackedFileExtent) (s t : Z) : RunBackedFileExtent :=
  let run := rx_run x in
  let integrity :=
    if (s =? rx_file_offset_start x) && (t =? rx_file_offset_start x + rx_payload_len x)
    then rr_integrity run else SpUnchecked in
  mkRunBackedFileExtent s (t - s)
    (mkAppendLogRunRange (rr_run_id run) (rr_storage_node run) (rr_stream_id run)
       (rr_writer_epoch run) (rr_keyspace_id run) (rr_file_id run) s (t - s) (rr_log_id run)
       (rr_log_payload_offset run + (s - rx_file_offset_start x)) integrity).

Definition rx_end (x : RunBackedFileExtent) : Z := rx_file_offset_start x + rx_payload_len x.
Definition ext_loc (x : RunBackedFileExtent) (y : Z) : option (StorageNodeId * Z * Z) :=
  if in_range (rx_file_offset_start x) (rx_end x) y then run_loc (rx_run x) y else None.

Lemma ext_loc_run x y : wf_extent x -> ext_loc x y = run_loc (rx_run x) y.
Proof.
  intros (_ & H1 & H2). unfold ext_loc, rx_end, run_loc. rewrite H1, H2.
  in_range_cases; [done|]. by rewrite decide_False by lia.
Qed.

Lemma ext_loc_dom x y l : ext_loc x y = Some l -> rx_file_offset_start x <= y < rx_end x.
Proof. unfold ext_loc. in_range_cases; [done|done]. Qed.

Lemma slice_run_extent_eval x s t :
  wf_extent x -> rx_file_offset_start x <= s -> s < t -> t <= rx_end x ->
  slice_run_extent x s t = Ok (Some (rx_slice x s t)) /\ wf_extent (rx_slice x s t).
Proof.
  intros (Hw & H1 & H2) ? ? ?. unfold rx_end, wf_run, rr_end in *.
  destruct Hw as (? & ? & ? & ? & ?). split.
  - unfold slice_run_extent, run_extent_end. ztest.
    rewrite (checked_add_ok _ (rx_file_offset_start x)) by lia. cbn [ok_or mbind Result_bind]. ztest.
    rewrite !wsub64_exact by (u64_unfold; lia).
    rewrite checked_add_ok by lia. done.
  - unfold wf_extent, wf_run, rr_end, rx_slice. cbn. lia.
Qed.

Lemma slice_run_extent_ok x s t :
  wf_extent x -> rx_file_offset_start x <= s -> s < t -> t <= rx_end x ->
  slice_run_extent x s t = Ok (Some (rx_slice x s t)).
Proof. intros. by apply slice_run_extent_eval. Qed.

Lemma rx_slice_spec x :
  wf_extent x -> slice_spec rx_file_offset_start rx_end ext_loc rx_slice x.
Proof.
  intros (_ & Hs & Hl) s t ? ? ?. split_and!; [done|unfold rx_end; cbn; lia|]. intros y. unfold ext_loc, rx_end, run_loc in *. cbn.
  rewrite Zplus_minus. in_range_cases; try done; try lia; rewrite !decide_True by lia.
  do 2 f_equal. lia.
Qed.

Lemma cut_run_extent_eval s e x :
  wf_extent x -> s < e ->
  cut_run_extent s e x =
  Ok (if byte_ranges_overlap (rx_file_offset_start x) (rx_end x) s e
      then cut_pieces rx_file_offset_start rx_end rx_slice s e x else [x]).
Proof.
  intros Hx Hse. unfold cut_run_extent, run_extent_end, cut_pieces, byte_ranges_overlap.
  rewrite RunExtent_validate_ok by done. pose proof Hx as ((? & ? & ? & _) & Hs & Hl).
  unfold rr_end in *. cbn [mbind Result_bind].
  rewrite checked_add_ok by lia. cbn [ok_or mbind Result_bind]. fold (rx_end x).
  destruct (_ && _) eqn:Hov; cbn [negb]; [|done]. bool_prop.
  rewrite Z.min_l, Z.max_l by lia.
  destruct (rx_file_offset_start x <? s) eqn:Hleft, (e <? rx_end x) eqn:Hright; bool_prop;
    rewrite ?slice_run_extent_ok by (first [done|lia]); done.
Qed.

Lemma cut_run_extents_ok s e xs :
  Forall wf_extent xs -> s < e ->
  exists pieces, try_map (cut_run_extent s e) xs = Ok pieces /\
    Forall2 (is_cut rx_file_offset_start rx_end ext_loc s e) xs pieces /\
    Forall wf_extent (concat pieces).
Proof.
  intros Hxs Hse. induction Hxs as [|x xs Hx Hxs (pieces & IH1 & IH2 & IH3)].
  { exists []. split_and!; constructor. }
  cbn [try_map]. rewrite cut_run_extent_eval, IH1 by done. cbn [mbind Result_bind].
  eexists. split; [done|]. cbn [concat].
  pose proof Hx as ((? & ? & ? & _) & Hs & Hl). unfold rr_end in *.
  assert (iv_nonempty rx_file_offset_start rx_end x) by (unfold iv_nonempty, rx_end; lia).
  unfold byte_ranges_overlap. destruct (_ && _) eqn:Hov; bool_prop.
  - split; [constructor; [|done]|].
    + apply cut_pieces_is_cut; eauto using ext_loc_dom, rx_slice_spec.
    + apply Forall_app. split; [|done]. unfold cut_pieces. apply Forall_app.
      split; case_match; bool_prop; rewrite ?Forall_singleton; try (by constructor);
        apply slice_run_extent_eval; try done; unfold rx_end in *; lia.
  - split; [constructor; [|done]|by constructor].
    apply no_overlap_is_cut; eauto using ext_loc_dom.
    apply andb_false_iff in Hov as [|]; bool_prop; lia.
Qed.

Lemma extents_apart_runs xs :
  Forall wf_extent xs -> iv_apart rx_file_offset_start rx_end xs -> runs_apart (rx_run <$> xs).
Proof.
  intros Hw [HS Hn]. induction HS as [|x xs HS IH Hf]; [apply iv_apart_nil|].
  apply Forall_cons in Hw as [(Hr & H1 & H2) Hw], Hn as [Hnx Hn].
  destruct (IH Hw Hn) as [IH1 IH2]. cbn.
  assert (Hend : forall y, wf_extent y -> rx_end y = rr_end (rx_run y)).
  { intros y (_ & Hy1 & Hy2). unfold rx_end, rr_end. by rewrite Hy1, Hy2. }
  split; constructor; try done.
  - rewrite Forall_forall in Hf, Hw. apply Forall_forall. intros r (y & -> & Hy)%list_elem_of_fmap.
    specialize (Hf y Hy). specialize (Hw y Hy). unfold iv_disjoint, iv_before in *.
    rewrite (Hend x), (Hend y), H1 in Hf by done. destruct Hw as (_ & Hy1 & _). by rewrite Hy1 in Hf.
  - unfold iv_nonempty. destruct Hr as (? & ? & _). unfold rr_end. lia.
Qed.

Lemma runs_at_app l1 l2 x loc :
  runs_at (l1 ++ l2) x loc <-> runs_at l1 x loc \/ runs_at l2 x loc.
Proof. unfold runs_at. setoid_rewrite elem_of_app. naive_solver. Qed.

Lemma extents_at xs y loc :
  Forall wf_extent xs -> iv_apart rx_file_offset_start rx_end xs ->
  runs_at (rx_run <$> xs) y loc <-> first_at ext_loc xs y = Some loc.
Proof.
  intros Hw Ha. rewrite Forall_forall in Hw. split.
  - intros (r & (x & -> & Hx)%list_elem_of_fmap & Hl).
    apply (first_at_apart rx_file_offset_start rx_end _ ext_loc_dom _ x); [done..|].
    by rewrite ext_loc_run by auto.
  - intros (x & Hx & Hl)%first_at_Some_elem. exists (rx_run x).
    rewrite ext_loc_run in Hl by auto. split; [|done]. apply list_elem_of_fmap. eauto.
Qed.

Lemma extents_of_runs rs :
  Forall wf_run rs ->
  exists out, try_map extent_of_run rs = Ok out /\ Forall wf_extent out /\ rx_run <$> out = rs.
Proof.
  induction 1 as [|r rs Hr Hrs (out & IH1 & IH2 & IH3)]; [by exists []|].
  assert (Hx : extent_of_run r =
    Ok (mkRunBackedFileExtent (rr_file_offset_start r) (rr_payload_len r) r)).
  { unfold extent_of_run. by rewrite RunExtent_validate_ok. }
  cbn [try_map]. rewrite Hx, IH1. cbn [mbind Result_bind].
  eexists. split; [done|]. split; [by constructor|]. cbn. by rewrite IH3.
Qed.

(** Replacing a byte range of run-backed extents succeeds on valid
    disjoint extents, gives valid, sorted, disjoint extents, and is the
    pointwise overlay: a byte inside the range has the location the
    replacements give it, a byte outside keeps its location. *)
Lemma replace_run_extents_overlay xs range repls :
  Forall wf_extent xs -> iv_apart rx_file_offset_start rx_end xs ->
  Forall wf_extent repls -> iv_apart rx_file_offset_start rx_end repls ->
  Forall (fun x => br_offset range <= rx_file_offset_start x /\
                   rx_end x <= br_offset range + br_len range) repls ->
  0 < br_len range -> br_offset range + br_len range < U64_MOD ->
  exists out, replace_run_backed_file_extents xs range repls = Ok out /\
    Forall wf_extent out /\ runs_sorted (rx_run <$> out) /\
    forall y loc, runs_at (rx_run <$> out) y loc <->
      if in_range (br_offset range) (br_offset range + br_len range) y
      then runs_at (rx_run <$> repls) y loc else runs_at (rx_run <$> xs) y loc.
Proof.
  intros Hxs Hxa Hrs Hra Hin Hlen Hend. unfold replace_run_backed_file_extents.
  unfold ByteRange_end_exclusive. rewrite checked_add_ok by lia. cbn [ok_or mbind Result_bind].
  set (s := br_offset range) in *. set (e := s + br_len range) in *.
  destruct (cut_run_extents_ok s e xs Hxs) as (pieces & -> & Hcut & Hwp); [lia|].
  cbn [mbind Result_bind].
  destruct (cut_concat _ _ _ ext_loc_dom _ _ _ _ Hxa Hcut) as (Ha & Hout & _ & Hat).
  assert (Hap : iv_apart rx_file_offset_start rx_end (concat pieces ++ repls)).
  { apply iv_apart_app. split_and!; [done..|]. intros a b Ha' Hb.
    rewrite Forall_forall in Hout, Hin. apply Hout in Ha'. apply Hin in Hb.
    unfold iv_disjoint, iv_before. lia. }
  assert (Hwf : Forall wf_extent (concat pieces ++ repls)) by (by apply Forall_app).
  assert (Hwr : Forall wf_run (rx_run <$> (concat pieces ++ repls))).
  { apply Forall_fmap. eapply Forall_impl; [exact Hwf|]. by intros x [? _]. }
  destruct (coalesce_append_log_run_ranges_total (rx_run <$> (concat pieces ++ repls)))
    as (rs & Hrs' & Hwrs); [by apply extents_apart_runs|done|].
  rewrite Hrs'. cbn [mbind Result_bind].
  apply coalesce_runs_sound in Hrs' as (Hsorted & Hiff).
  2:{ eapply Forall_impl; [exact Hwr|]. intros r (? & ? & _). lia. }
  destruct (extents_of_runs rs Hwrs) as (out & -> & Hwo & Hro).
  exists out. rewrite Hro. split_and!; [done..|]. intros y loc. rewrite Hiff.
  rewrite fmap_app, runs_at_app, !extents_at by (done || by apply Forall_app in Hwf as [? _]).
  rewrite Hat. in_range_cases.
  - split; [by intros [|]|by right].
  - rewrite !extents_at by done. split; [|by left].
    intros [?|(x & Hx & Hl)%first_at_Some_elem]; [done|].
    rewrite Forall_forall in Hin. apply Hin in Hx. apply ext_loc_dom in Hl. lia.
Qed.
