(* ===== verification/Batch.v ===== *)
(** * Collapsing write batches ([local/metadata_tree.rs], [extent.rs])

    A batch of overlapping writes is collapsed in request order into disjoint
    sorted writes; native file batches are then grouped into block-aligned
    segments. *)

From S2P Require Import Prelude Intervals Api TreeEdit.

(** [FileBatchWrite] of [extent.rs]. *)
Record FileBatchWrite := mkFileBatchWrite {
  fw_offset : Z;
  fw_bytes : list Z;
}.

(** [FileBatchWrite::byte_range] *)
Definition FileBatchWrite_byte_range (self : FileBatchWrite) : Result ByteRange :=
  len ← len_u64 (fw_bytes self) (InvalidArgument "write byte length overflows u64");
  let range := mkByteRange (fw_offset self) len in
  ByteRange_end_exclusive range;;
  Ok range.

Record CollapsedFileWrite := mkCollapsedFileWrite {
  cf_offset : Z;
  cf_bytes : list Z;
}.

Record CollapsedBlockWrite := mkCollapsedBlockWrite {
  cb_offset : Z;
  cb_bytes : list Z;
  cb_payload_integrity : PayloadIntegrity;
}.

(** [CollapsedFileWrite::end] *)
Definition CollapsedFileWrite_end (self : CollapsedFileWrite) : Result Z :=
  len ← len_u64 (cf_bytes self) (InvalidArgument "native batch write length overflows u64");
  ok_or (checked_add U64_MOD (cf_offset self) len)
    (InvalidArgument "native batch write range overflows").

(** [CollapsedBlockWrite::byte_range] *)
Definition CollapsedBlockWrite_byte_range (self : CollapsedBlockWrite) : Result ByteRange :=
  len ← len_u64 (cb_bytes self) (InvalidArgument "block batch write length overflows u64");
  Ok (mkByteRange (cb_offset self) len).

(** [CollapsedBlockWrite::end] *)
Definition CollapsedBlockWrite_end (self : CollapsedBlockWrite) : Result Z :=
  len ← len_u64 (cb_bytes self) (InvalidArgument "block batch write length overflows u64");
  ok_or (checked_add U64_MOD (cb_offset self) len)
    (InvalidArgument "block batch write range overflows").

(** ** Block batches *)

(** What the loop of [insert_collapsed_block_write] keeps of one write. *)
Definition cut_block_write (offset end_ : Z) (existing : CollapsedBlockWrite)
    : Result (list CollapsedBlockWrite) :=
  let existing_start := cb_offset existing in
  existing_end ← CollapsedBlockWrite_end existing;
  if (existing_end <=? offset) || (end_ <=? existing_start) then Ok [existing]
  else
    let left :=
      if existing_start <? offset then
        let keep_len := wsub64 offset existing_start in
        [mkCollapsedBlockWrite existing_start (take (Z.to_nat keep_len) (cb_bytes existing))
           (cb_payload_integrity existing)]
      else [] in
    let right :=
      if end_ <? existing_end then
        let keep_start := wsub64 end_ existing_start in
        [mkCollapsedBlockWrite end_ (drop (Z.to_nat keep_start) (cb_bytes existing))
           (cb_payload_integrity existing)]
      else [] in
    Ok (left ++ right).

(** The merge test of [coalesce_adjacent_block_writes]. *)
Definition block_try_merge (last write : CollapsedBlockWrite)
    : Result (option CollapsedBlockWrite) :=
  if bool_decide (cb_payload_integrity last = cb_payload_integrity write) then
    e ← CollapsedBlockWrite_end last;
    if e =? cb_offset write then
      Ok (Some (mkCollapsedBlockWrite (cb_offset last) (cb_bytes last ++ cb_bytes write)
                  (cb_payload_integrity last)))
    else Ok None
  else Ok None.

(** [coalesce_adjacent_block_writes] *)
Definition coalesce_adjacent_block_writes (writes : list CollapsedBlockWrite)
    : Result (list CollapsedBlockWrite) :=
  coalesce_with block_try_merge writes.

(** [insert_collapsed_block_write] *)
Definition insert_collapsed_block_write (collapsed : list CollapsedBlockWrite) (offset : Z)
    (bytes : list Z) (payload_integrity : PayloadIntegrity) : Result (list CollapsedBlockWrite) :=
  len ← len_u64 bytes (InvalidArgument "block batch length overflows u64");
  end_ ← ok_or (checked_add U64_MOD offset len) (InvalidArgument "block batch range overflows");
  pieces ← try_map (cut_block_write offset end_) collapsed;
  let next := concat pieces ++ [mkCollapsedBlockWrite offset bytes payload_integrity] in
  coalesce_adjacent_block_writes (sort_by_key cb_offset next).

(** One write of the batch; the accumulator is [collapsed] and [total_bytes]. *)
Definition collapse_block_step (spec : DeviceSpec) (max_batch_bytes : Z)
    (acc : list CollapsedBlockWrite * Z) (write : BlockBatchWrite)
    : Result (list CollapsedBlockWrite * Z) :=
  let '(collapsed, total_bytes) := acc in
  BlockBatchWrite_validate_for_device write spec;;
  len ← len_u64 (bw_bytes write) (InvalidArgument "block batch byte length overflows u64");
  total_bytes ← ok_or (checked_add U64_MOD total_bytes len)
    (InvalidArgument "block batch byte length overflows");
  reject_if (max_batch_bytes <? total_bytes)
    (InvalidArgument "block batch exceeds maximum payload bytes");;
  collapsed ← insert_collapsed_block_write collapsed (bw_offset write) (bw_bytes write)
    (bw_payload_integrity write);
  Ok (collapsed, total_bytes).

(** [collapse_block_batch_writes] *)
Definition collapse_block_batch_writes (writes : list BlockBatchWrite) (spec : DeviceSpec)
    (max_batch_bytes : Z) : Result (list CollapsedBlockWrite) :=
  reject_if (match writes with [] => true | _ => false end)
    (InvalidArgument "block batch must not be empty");;
  '(collapsed, _) ← try_fold (collapse_block_step spec max_batch_bytes) ([], 0) writes;
  reject_if (match collapsed with [] => true | _ => false end)
    (InvalidArgument "block batch must contain at least one non-empty write");;
  Ok collapsed.

(** ** Native file batches *)

(** What the loop of [insert_collapsed_file_write] keeps of one write. *)
Definition cut_file_write (offset end_ : Z) (existing : CollapsedFileWrite)
    : Result (list CollapsedFileWrite) :=
  let existing_start := cf_offset existing in
  existing_end ← CollapsedFileWrite_end existing;
  if (existing_end <=? offset) || (end_ <=? existing_start) then Ok [existing]
  else
    let left :=
      if existing_start <? offset then
        let keep_len := wsub64 offset existing_start in
        [mkCollapsedFileWrite existing_start (take (Z.to_nat keep_len) (cf_bytes existing))]
      else [] in
    let right :=
      if end_ <? existing_end then
        let keep_start := wsub64 end_ existing_start in
        [mkCollapsedFileWrite end_ (drop (Z.to_nat keep_start) (cf_bytes existing))]
      else [] in
    Ok (left ++ right).

(** [insert_collapsed_file_write] *)
Definition insert_collapsed_file_write (collapsed : list CollapsedFileWrite) (offset : Z)
    (bytes : list Z) : Result (list CollapsedFileWrite) :=
  len ← len_u64 bytes (InvalidArgument "native file batch length overflows u64");
  end_ ← ok_or (checked_add U64_MOD offset len)
    (InvalidArgument "native file batch range overflows");
  pieces ← try_map (cut_file_write offset end_) collapsed;
  Ok (sort_by_key cf_offset (concat pieces ++ [mkCollapsedFileWrite offset bytes])).

(** The mutable locals of [collapse_native_file_batch_writes]. *)
Record NativeCollapse := mkNativeCollapse {
  nc_collapsed : list CollapsedFileWrite;
  nc_running_size : Z;
  nc_total_bytes : Z;
  nc_first_offset : option Z;
}.

(** One write of the batch. *)
Definition collapse_file_step (max_batch_bytes : Z) (acc : NativeCollapse)
    (write : FileBatchWrite) : Result NativeCollapse :=
  range ← FileBatchWrite_byte_range write;
  let first_offset := match nc_first_offset acc with
                      | Some o => Some o | None => Some (br_offset range) end in
  end_ ← ByteRange_end_exclusive range;
  reject_if (nc_running_size acc <? br_offset range)
    (InvalidArgument "native file batch cannot create a sparse gap");;
  let running_size := Z.max (nc_running_size acc) end_ in
  match fw_bytes write with
  | [] => Ok (mkNativeCollapse (nc_collapsed acc) running_size (nc_total_bytes acc) first_offset)
  | _ :: _ =>
    len ← len_u64 (fw_bytes write)
      (InvalidArgument "native file batch byte length overflows u64");
    total_bytes ← ok_or (checked_add U64_MOD (nc_total_bytes acc) len)
      (InvalidArgument "native file batch byte length overflows");
    reject_if (max_batch_bytes <? total_bytes)
      (InvalidArgument "native file batch exceeds maximum payload bytes");;
    collapsed ← insert_collapsed_file_write (nc_collapsed acc) (fw_offset write) (fw_bytes write);
    Ok (mkNativeCollapse collapsed running_size total_bytes first_offset)
  end.

(** [collapse_native_file_batch_writes] *)
Definition collapse_native_file_batch_writes (writes : list FileBatchWrite) (base_size : Z)
    (max_batch_bytes : Z) : Result (list CollapsedFileWrite * ByteRange * Z) :=
  reject_if (match writes with [] => true | _ => false end)
    (InvalidArgument "native file batch must not be empty");;
  acc ← try_fold (collapse_file_step max_batch_bytes) (mkNativeCollapse [] base_size 0 None) writes;
  match nc_collapsed acc with
  | [] => Ok ([], mkByteRange (default base_size (nc_first_offset acc)) 0, base_size)
  | first :: _ =>
    last ← ok_or (last (nc_collapsed acc)) (Corrupt "missing collapsed file write");
    end_ ← CollapsedFileWrite_end last;
    let start := cf_offset first in
    Ok (nc_collapsed acc, mkByteRange start (wsub64 end_ start), nc_running_size acc)
  end.

Record NativeBatchSegmentGroup := mkNativeBatchSegmentGroup {
  ng_start : Z;
  ng_end : Z;
  ng_first_write : Z;
  ng_last_write : Z;
}.

(** One write of [native_batch_segment_groups]; the vector of groups is kept in
    reverse, with the index of the next write. *)
Definition segment_group_step (block_size : Z) (acc : list NativeBatchSegmentGroup * Z)
    (write : CollapsedFileWrite) : Result (list NativeBatchSegmentGroup * Z) :=
  let '(groups, index) := acc in
  write_end ← CollapsedFileWrite_end write;
  group_start ← ok_or (checked_mul U64_MOD (cf_offset write / block_size) block_size)
    (InvalidArgument "native batch group overflows");
  group_blocks ← blocks_for_bytes (wsub64 write_end group_start) block_size;
  group_len ← ok_or (checked_mul U64_MOD group_blocks block_size)
    (InvalidArgument "native batch group length overflows");
  group_end ← ok_or (checked_add U64_MOD group_start group_len)
    (InvalidArgument "native batch group end overflows");
  match groups with
  | last :: rest =>
    if group_start <=? ng_end last then
      Ok (mkNativeBatchSegmentGroup (ng_start last) (Z.max (ng_end last) group_end)
            (ng_first_write last) (index + 1) :: rest, index + 1)
    else Ok (mkNativeBatchSegmentGroup group_start group_end index (index + 1) :: groups, index + 1)
  | [] => Ok ([mkNativeBatchSegmentGroup group_start group_end index (index + 1)], index + 1)
  end.

(** [native_batch_segment_groups] *)
Definition native_batch_segment_groups (writes : list CollapsedFileWrite) (block_size : Z)
    : Result (list NativeBatchSegmentGroup) :=
  '(groups, _) ← try_fold (segment_group_step block_size) ([], 0) writes;
  Ok (rev groups).

(** The loop of [native_batch_writes_cover_range]: the exits are its early returns. *)
Fixpoint cover_loop (writes : list CollapsedFileWrite) (covered_through target_end : Z)
    : Result bool :=
  match writes with
  | [] => Ok false
  | write :: writes =>
    write_end ← CollapsedFileWrite_end write;
    if write_end <=? covered_through then cover_loop writes covered_through target_end
    else if covered_through <? cf_offset write then Ok false
    else if target_end <=? write_end then Ok true
    else cover_loop writes write_end target_end
  end.

(** [native_batch_writes_cover_range] *)
Definition native_batch_writes_cover_range (writes : list CollapsedFileWrite) (range : ByteRange)
    : Result bool :=
  if br_len range =? 0 then Ok true
  else
    target_end ← ByteRange_end_exclusive range;
    cover_loop writes (br_offset range) target_end.

(** [overlay_native_batch_writes]: the new contents of the buffer. *)
Definition overlay_native_batch_writes (group_start : Z) (writes : list CollapsedFileWrite)
    (bytes : list Z) : Result (list Z) :=
  try_fold (fun bytes write =>
    let start := wsub64 (cf_offset write) group_start in
    end_ ← ok_or (checked_add U64_MOD start (Z.of_nat (length (cf_bytes write))))
      (InvalidArgument "native batch write end overflows");
    reject_if (Z.of_nat (length bytes) <? end_)
      (Corrupt "native batch segment range does not cover payload");;
    Ok (splice bytes start (cf_bytes write))) bytes writes.

(** ** The contents of writes *)

(** The byte at position [x] of a vector placed at [offset]. *)
Definition bytes_at (offset : Z) (bytes : list Z) (x : Z) : option Z :=
  if offset <=? x then bytes !! Z.to_nat (x - offset) else None.

Definition zlen {A} (l : list A) : Z := Z.of_nat (length l).

Lemma bytes_at_dom offset bytes x b :
  bytes_at offset bytes x = Some b -> offset <= x < offset + zlen bytes.
Proof.
  unfold bytes_at, zlen. destruct (offset <=? x) eqn:?; [|done]. bool_prop.
  intros Hl%lookup_lt_Some. lia.
Qed.

Lemma bytes_at_inside offset bytes x :
  offset <= x < offset + zlen bytes -> is_Some (bytes_at offset bytes x).
Proof.
  unfold bytes_at, zlen. intros. ztest. apply lookup_lt_is_Some. lia.
Qed.

Lemma bytes_at_take offset bytes t x :
  offset <= t ->
  bytes_at offset (take (Z.to_nat (t - offset)) bytes) x =
  if in_range offset t x then bytes_at offset bytes x else None.
Proof.
  intros. unfold bytes_at, in_range. destruct (offset <=? x) eqn:?; [|done]. cbn. bool_prop.
  destruct (x <? t) eqn:?; bool_prop.
  - apply lookup_take_lt. lia.
  - apply lookup_take_ge. lia.
Qed.

Lemma bytes_at_drop offset bytes s x :
  offset <= s ->
  bytes_at s (drop (Z.to_nat (s - offset)) bytes) x =
  if s <=? x then bytes_at offset bytes x else None.
Proof.
  intros. unfold bytes_at. destruct (s <=? x) eqn:?; [|done]. bool_prop. ztest.
  rewrite lookup_drop. f_equal. lia.
Qed.

Lemma bytes_at_app offset l1 l2 x :
  bytes_at offset (l1 ++ l2) x =
  match bytes_at offset l1 x with Some b => Some b | None => bytes_at (offset + zlen l1) l2 x end.
Proof.
  unfold bytes_at, zlen. destruct (offset <=? x) eqn:?; bool_prop.
  - destruct (l1 !! Z.to_nat (x - offset)) as [b|] eqn:Hl.
    + by apply lookup_app_l_Some.
    + apply lookup_ge_None in Hl. rewrite lookup_app_r by done. ztest. f_equal. lia.
  - by ztest.
Qed.

Lemma zlen_take {A} (l : list A) n : 0 <= n <= zlen l -> zlen (take (Z.to_nat n) l) = n.
Proof. unfold zlen. intros. rewrite length_take. lia. Qed.
Lemma zlen_drop {A} (l : list A) n : 0 <= n <= zlen l -> zlen (drop (Z.to_nat n) l) = zlen l - n.
Proof. unfold zlen. intros. rewrite length_drop. lia. Qed.

(** The value at [x] of a list of writes applied in order: the last write that
    covers [x]. *)
Definition last_writer {A B} (f : A -> Z -> option B) (ws : list A) (x : Z) : option B :=
  first_at f (rev ws) x.

Lemma last_writer_snoc {A B} (f : A -> Z -> option B) ws w x :
  last_writer f (ws ++ [w]) x =
  match f w x with Some b => Some b | None => last_writer f ws x end.
Proof. unfold last_writer. by rewrite rev_app_distr. Qed.

(** ** Block batches: last writer wins *)

Definition cb_end (w : CollapsedBlockWrite) : Z := cb_offset w + zlen (cb_bytes w).
Definition cb_at (w : CollapsedBlockWrite) (x : Z) : option (Z * PayloadIntegrity) :=
  (fun b => (b, cb_payload_integrity w)) <$> bytes_at (cb_offset w) (cb_bytes w) x.
Definition bw_at (w : BlockBatchWrite) (x : Z) : option (Z * PayloadIntegrity) :=
  (fun b => (b, bw_payload_integrity w)) <$> bytes_at (bw_offset w) (bw_bytes w) x.

(** Non-empty, with 64-bit bounds, and block aligned. *)
Definition wf_cb (bs : Z) (w : CollapsedBlockWrite) : Prop :=
  0 <= cb_offset w /\ 0 < zlen (cb_bytes w) /\ cb_end w < U64_MOD /\
  cb_offset w mod bs = 0 /\ zlen (cb_bytes w) mod bs = 0.

Lemma cb_at_dom w x b : cb_at w x = Some b -> cb_offset w <= x < cb_end w.
Proof. unfold cb_at. intros (? & H & ?)%fmap_Some. by apply bytes_at_dom in H. Qed.

Lemma len_u64_ok {A} (l : list A) e : zlen l < U64_MOD -> len_u64 l e = Ok (zlen l).
Proof. unfold len_u64, zlen. intros. by ztest. Qed.

Lemma CollapsedBlockWrite_end_ok bs w : wf_cb bs w -> CollapsedBlockWrite_end w = Ok (cb_end w).
Proof.
  intros (? & ? & ? & _). unfold CollapsedBlockWrite_end, cb_end in *.
  rewrite len_u64_ok by lia. cbn [mbind Result_bind]. by rewrite checked_add_ok.
Qed.

(** The part of a write inside [s, t). *)
Definition cb_slice (w : CollapsedBlockWrite) (s t : Z) : CollapsedBlockWrite :=
  mkCollapsedBlockWrite s
    (take (Z.to_nat (t - s)) (drop (Z.to_nat (s - cb_offset w)) (cb_bytes w)))
    (cb_payload_integrity w).

Lemma cb_slice_spec w : slice_spec cb_offset cb_end cb_at cb_slice w.
Proof.
  intros s t ? ? ?. unfold cb_end in *. split_and!; [done| |].
  - cbn. rewrite zlen_take; [lia|]. rewrite zlen_drop; lia.
  - intros x. unfold cb_at, cb_slice. cbn. rewrite bytes_at_take by lia.
    unfold in_range. destruct (s <=? x) eqn:Hs; [|done]. cbn [andb].
    rewrite bytes_at_drop by lia. rewrite Hs. by destruct (x <? t).
Qed.

Lemma mod_sub_0 a b m : m <> 0 -> a mod m = 0 -> b mod m = 0 -> (a - b) mod m = 0.
Proof. intros Hm Ha Hb. rewrite Zminus_mod, Ha, Hb. done. Qed.
Lemma mod_add_0 a b m : m <> 0 -> a mod m = 0 -> b mod m = 0 -> (a + b) mod m = 0.
Proof. intros Hm Ha Hb. rewrite Zplus_mod, Ha, Hb. done. Qed.

Lemma cb_slice_wf bs w s t :
  bs <> 0 -> wf_cb bs w -> cb_offset w <= s -> s < t -> t <= cb_end w ->
  s mod bs = 0 -> t mod bs = 0 -> wf_cb bs (cb_slice w s t).
Proof.
  intros Hbs (? & ? & ? & ? & ?) ? ? ? ? ?. destruct (cb_slice_spec w s t) as (Hs & Ht & _); [lia..|].
  assert (Hz : zlen (cb_bytes (cb_slice w s t)) = t - s) by (unfold cb_end in Ht; lia).
  unfold wf_cb. rewrite Ht, Hz. split_and!; try done; try lia. by apply mod_sub_0.
Qed.

Lemma cb_slice_left w t :
  0 <= cb_offset w -> cb_offset w <= t -> t < U64_MOD ->
  mkCollapsedBlockWrite (cb_offset w)
    (take (Z.to_nat (wsub64 t (cb_offset w))) (cb_bytes w)) (cb_payload_integrity w) =
  cb_slice w (cb_offset w) t.
Proof.
  intros. unfold cb_slice. rewrite wsub64_exact by (u64_unfold; lia).
  rewrite Z.sub_diag. done.
Qed.
Lemma cb_slice_right w s :
  0 <= cb_offset w -> cb_offset w <= s -> s <= cb_end w -> s < U64_MOD ->
  mkCollapsedBlockWrite s
    (drop (Z.to_nat (wsub64 s (cb_offset w))) (cb_bytes w)) (cb_payload_integrity w) =
  cb_slice w s (cb_end w).
Proof.
  intros. unfold cb_slice, cb_end, zlen in *. rewrite wsub64_exact by (u64_unfold; lia).
  f_equal. rewrite take_ge; [done|]. rewrite length_drop. lia.
Qed.

Lemma cut_block_write_eval bs s e w :
  wf_cb bs w -> 0 <= s -> s < e -> e < U64_MOD ->
  cut_block_write s e w =
  Ok (if (cb_end w <=? s) || (e <=? cb_offset w) then [w]
      else cut_pieces cb_offset cb_end cb_slice s e w).
Proof.
  intros Hw ? ? ?. unfold cut_block_write. erewrite CollapsedBlockWrite_end_ok by done.
  cbn [mbind Result_bind]. destruct Hw as (? & ? & ? & _).
  destruct (_ || _) eqn:Ho; [done|]. bool_prop. unfold cut_pieces. do 2 f_equal.
  - case_match; [|done]. bool_prop. by rewrite cb_slice_left by lia.
  - case_match; [|done]. bool_prop. by rewrite cb_slice_right by lia.
Qed.

Lemma cut_block_writes_ok bs s e ws :
  bs <> 0 -> Forall (wf_cb bs) ws -> 0 <= s -> s < e -> e < U64_MOD -> s mod bs = 0 -> e mod bs = 0 ->
  exists pieces, try_map (cut_block_write s e) ws = Ok pieces /\
    Forall2 (is_cut cb_offset cb_end cb_at s e) ws pieces /\ Forall (wf_cb bs) (concat pieces).
Proof.
  intros Hbs Hws ? ? ? Hsm Hem. induction Hws as [|w ws Hw Hws (pieces & IH1 & IH2 & IH3)].
  { exists []. split_and!; constructor. }
  cbn [try_map]. erewrite cut_block_write_eval, IH1 by done. cbn [mbind Result_bind].
  eexists. split; [done|]. cbn [concat]. pose proof Hw as (? & ? & ? & Ho & Hl).
  assert (iv_nonempty cb_offset cb_end w) by (unfold iv_nonempty, cb_end; lia).
  assert (cb_end w mod bs = 0) by (by apply mod_add_0).
  destruct (_ || _) eqn:Hov; bool_prop.
  - split; [constructor; [|done]|by constructor].
    apply no_overlap_is_cut; eauto using cb_at_dom.
    apply orb_prop in Hov as [|]; bool_prop; lia.
  - split; [constructor; [|done]|].
    + apply cut_pieces_is_cut; eauto using cb_at_dom, cb_slice_spec.
    + apply Forall_app. split; [|done]. unfold cut_pieces. apply Forall_app.
      split; case_match; bool_prop; rewrite ?Forall_singleton; try (by constructor);
        apply cb_slice_wf; try done; lia.
Qed.

Lemma block_try_merge_ok bs a b :
  bs <> 0 -> wf_cb bs a -> wf_cb bs b -> cb_end a <= cb_offset b ->
  match block_try_merge a b with
  | Ok (Some m) => wf_cb bs m /\ cb_offset m = cb_offset a /\ cb_end m = cb_end b /\
      forall x, cb_at m x = match cb_at a x with Some y => Some y | None => cb_at b x end
  | Ok None => True
  | Err _ => False
  end.
Proof.
  intros Hbs Ha Hb Hab. unfold block_try_merge. case_bool_decide as Hi; [|done].
  erewrite CollapsedBlockWrite_end_ok by done. cbn [mbind Result_bind].
  destruct (_ =? _) eqn:He; [|done]. bool_prop.
  destruct Ha as (? & ? & ? & ? & ?), Hb as (? & ? & ? & ? & ?). unfold wf_cb, cb_end in *. cbn.
  assert (Hz : zlen (cb_bytes a ++ cb_bytes b) = zlen (cb_bytes a) + zlen (cb_bytes b)).
  { unfold zlen. rewrite length_app. lia. }
  rewrite Hz. split_and!; try done; try lia; [by apply mod_add_0|].
  intros x. unfold cb_at. cbn. rewrite bytes_at_app, He, <-Hi.
  by destruct (bytes_at (cb_offset a) (cb_bytes a) x).
Qed.

Lemma insert_collapsed_block_write_ok bs ws w :
  bs <> 0 -> iv_sorted cb_offset cb_end ws -> Forall (wf_cb bs) ws -> wf_cb bs w ->
  exists out, insert_collapsed_block_write ws (cb_offset w) (cb_bytes w) (cb_payload_integrity w)
      = Ok out /\
    iv_sorted cb_offset cb_end out /\ Forall (wf_cb bs) out /\
    forall x, first_at cb_at out x =
      match cb_at w x with Some b => Some b | None => first_at cb_at ws x end.
Proof.
  intros Hbs Hs Hws Hw. unfold insert_collapsed_block_write.
  pose proof Hw as (? & ? & ? & Ho & Hl). unfold cb_end in *.
  rewrite len_u64_ok by lia. cbn [mbind Result_bind].
  rewrite checked_add_ok by lia. cbn [mbind Result_bind ok_or]. fold (cb_end w) in *.
  destruct (cut_block_writes_ok bs (cb_offset w) (cb_end w) ws) as (pieces & -> & Hcut & Hwp);
    try done; [unfold cb_end; lia|by apply mod_add_0|]. cbn [mbind Result_bind].
  destruct (cut_overlay cb_offset cb_end cb_at cb_at_dom _ _ ws pieces w
    (iv_sorted_apart _ _ _ Hs) Hcut eq_refl eq_refl) as [Hso Hat]; [unfold cb_end; lia|].
  replace (mkCollapsedBlockWrite (cb_offset w) (cb_bytes w) (cb_payload_integrity w)) with w
    by (by destruct w).
  unfold coalesce_adjacent_block_writes. destruct (coalesce_with_ok cb_offset cb_end cb_at cb_at_dom (wf_cb bs) block_try_merge
    (fun a b Ha Hb => block_try_merge_ok bs a b Hbs Ha Hb)
    (sort_by_key cb_offset (concat pieces ++ [w]))) as (out & -> & ? & ? & Hout).
  - done.
  - rewrite sort_by_key_perm. apply Forall_app. split; [done|by constructor].
  - exists out. split_and!; [done..|]. intros x. rewrite Hout, Hat.
    destruct (in_range _ _ x) eqn:Hr.
    + apply in_range_true in Hr. destruct (bytes_at_inside (cb_offset w) (cb_bytes w) x Hr) as [b Hb].
      unfold cb_at. by rewrite Hb.
    + apply in_range_false in Hr. destruct (cb_at w x) eqn:Hx; [|done].
      by apply cb_at_dom in Hx.
Qed.

(** The single-write form of a batch element. *)
Definition collapsed_of (w : BlockBatchWrite) : CollapsedBlockWrite :=
  mkCollapsedBlockWrite (bw_offset w) (bw_bytes w) (bw_payload_integrity w).

Definition batch_bytes (ws : list BlockBatchWrite) : Z :=
  foldr (fun w n => zlen (bw_bytes w) + n) 0 ws.

Lemma batch_bytes_nonneg ws : 0 <= batch_bytes ws.
Proof. unfold batch_bytes, zlen. induction ws; cbn; lia. Qed.

Lemma batch_write_valid spec w :
  0 <= bw_offset w -> BlockBatchWrite_validate_for_device w spec = Ok tt ->
  ds_block_size spec <> 0 /\ wf_cb (ds_block_size spec) (collapsed_of w).
Proof.
  intros ? H. unfold BlockBatchWrite_validate_for_device, BlockBatchWrite_byte_range in H.
  ok_inv. match goal with H : ByteRange_validate_for_device _ _ = _ |- _ =>
    apply validate_for_device_Ok in H as (Hv & ? & ? & ? & ? & ?) end.
  apply DeviceSpec_validate_Ok in Hv as (? & ? & ?). bool_prop. cbn in *.
  unfold wf_cb, cb_end, collapsed_of. cbn. unfold zlen in *. split_and!; try done; lia.
Qed.

Lemma collapse_fold_sound spec mx ws acc total out total' prior :
  Forall (fun w => 0 <= bw_offset w) ws ->
  iv_sorted cb_offset cb_end acc -> Forall (wf_cb (ds_block_size spec)) acc ->
  (forall x, first_at cb_at acc x = last_writer bw_at prior x) ->
  try_fold (collapse_block_step spec mx) (acc, total) ws = Ok (out, total') ->
  iv_sorted cb_offset cb_end out /\ Forall (wf_cb (ds_block_size spec)) out /\
  (forall x, first_at cb_at out x = last_writer bw_at (prior ++ ws) x) /\
  Forall (fun w => BlockBatchWrite_validate_for_device w spec = Ok tt) ws /\
  total' = total + batch_bytes ws /\ (ws <> [] -> total' <= mx /\ total' < U64_MOD).
Proof.
  revert acc total prior. induction ws as [|w ws IH]; intros acc total prior Hty Hs Hw Hat H.
  { cbn in H. ok_inv. rewrite app_nil_r. split_and!; try done. lia. }
  apply Forall_cons in Hty as [Hw0 Hty]. cbn [try_fold] in H.
  apply bind_Ok in H as ([acc1 total1] & Hstep & H). unfold collapse_block_step in Hstep.
  apply bind_Ok in Hstep as ([] & Hv & Hstep). ok_inv. bool_prop.
  destruct (batch_write_valid spec w Hw0 Hv) as [Hbs Hwf].
  destruct (insert_collapsed_block_write_ok _ acc (collapsed_of w) Hbs Hs Hw Hwf)
    as (acc1' & Hins & Hs1 & Hw1 & Hat1).
  match goal with H : insert_collapsed_block_write _ _ _ _ = Ok _ |- _ =>
    cbn in Hins; rewrite Hins in H; injection H as <- end.
  destruct (IH acc1' (total + zlen (bw_bytes w)) (prior ++ [w])) as (? & ? & Hl & ? & ? & Htot);
    try done.
  { intros x. rewrite Hat1, last_writer_snoc, Hat. done. }
  rewrite <-app_assoc in Hl. cbn [batch_bytes foldr]. split_and!; try done; [by constructor|lia|].
  intros _. destruct ws as [|w' ws]; [|by apply Htot]. cbn in *. unfold zlen in *. lia.
Qed.

Lemma collapse_fold_total spec mx ws acc total :
  Forall (fun w => 0 <= bw_offset w) ws ->
  iv_sorted cb_offset cb_end acc -> Forall (wf_cb (ds_block_size spec)) acc ->
  Forall (fun w => BlockBatchWrite_validate_for_device w spec = Ok tt) ws ->
  total + batch_bytes ws <= mx -> mx < U64_MOD ->
  exists r, try_fold (collapse_block_step spec mx) (acc, total) ws = Ok r.
Proof.
  revert acc total. induction ws as [|w ws IH]; intros acc total Hty Hs Hw Hv Hmx HU.
  { by eexists. }
  apply Forall_cons in Hty as [Hw0 Hty], Hv as [Hv1 Hv]. cbn [batch_bytes foldr] in Hmx.
  pose proof (batch_bytes_nonneg ws) as Hnn. fold (batch_bytes ws) in *.
  destruct (batch_write_valid spec w Hw0 Hv1) as [Hbs Hwf].
  destruct (insert_collapsed_block_write_ok _ acc (collapsed_of w) Hbs Hs Hw Hwf)
    as (acc1 & Hins & Hs1 & Hw1 & _).
  destruct (IH acc1 (total + zlen (bw_bytes w))) as [r Hr]; try done; [lia|].
  exists r. cbn [try_fold]. rewrite <-Hr. f_equal.
  enough (Hstep : collapse_block_step spec mx (acc, total) w = Ok (acc1, total + zlen (bw_bytes w)))
    by (by rewrite Hstep).
  unfold collapse_block_step. rewrite Hv1. cbn [mbind Result_bind].
  destruct Hwf as (? & ? & Hend & _). unfold cb_end, collapsed_of in Hend. cbn in Hend.
  assert (zlen (bw_bytes w) < U64_MOD) by lia.
  rewrite len_u64_ok by lia. cbn [mbind Result_bind].
  rewrite checked_add_ok by lia. cbn [ok_or mbind Result_bind]. ztest.
  cbn in Hins. by rewrite Hins.
Qed.

Lemma last_writer_nonempty ws w :
  w ∈ ws -> 0 < zlen (bw_bytes w) -> exists x b, last_writer bw_at ws x = Some b.
Proof.
  intros Hin Hl. destruct (bytes_at_inside (bw_offset w) (bw_bytes w) (bw_offset w)) as [b Hb]; [lia|].
  exists (bw_offset w). destruct (last_writer bw_at ws (bw_offset w)) as [b'|] eqn:Hn; [eauto|].
  unfold last_writer in Hn. rewrite first_at_None in Hn. rewrite list_elem_of_In, in_rev in Hin.
  apply list_elem_of_In, Hn in Hin. unfold bw_at in Hin. by rewrite Hb in Hin.
Qed.

Lemma collapsed_nonempty spec ws out :
  ws <> [] -> Forall (fun w => 0 <= bw_offset w) ws ->
  Forall (fun w => BlockBatchWrite_validate_for_device w spec = Ok tt) ws ->
  (forall x, first_at cb_at out x = last_writer bw_at ws x) -> out <> [].
Proof.
  intros Hne Hty Hv Hat ->. destruct ws as [|w ws]; [done|].
  apply Forall_cons in Hty as [Hw _], Hv as [Hv _].
  destruct (batch_write_valid spec w Hw Hv) as [_ (_ & Hl & _)].
  destruct (last_writer_nonempty (w :: ws) w) as (x & b & Hb); [left|done|].
  rewrite <-Hat in Hb. done.
Qed.

Lemma collapse_block_batch_total spec mx ws :
  Forall (fun w => 0 <= bw_offset w) ws -> mx < U64_MOD -> ws <> [] ->
  Forall (fun w => BlockBatchWrite_validate_for_device w spec = Ok tt) ws -> batch_bytes ws <= mx ->
  exists out, collapse_block_batch_writes ws spec mx = Ok out.
Proof.
  intros Hty HU Hne Hv Hmx. unfold collapse_block_batch_writes.
  assert (Hnil : iv_sorted cb_offset cb_end []) by (split; constructor).
  destruct (collapse_fold_total spec mx ws [] 0) as [[out total] Hf]; try done.
  rewrite Hf. destruct ws as [|w ws]; [done|]. cbn [reject_if mbind Result_bind].
  apply (collapse_fold_sound _ _ _ _ _ _ _ []) in Hf as (_ & _ & Hat & _); try done.
  assert (out <> []) by (by eapply collapsed_nonempty). destruct out; [done|]. by eexists.
Qed.

Lemma collapse_block_batch_sound spec mx ws out :
  Forall (fun w => 0 <= bw_offset w) ws -> collapse_block_batch_writes ws spec mx = Ok out ->
  (ws <> [] /\ Forall (fun w => BlockBatchWrite_validate_for_device w spec = Ok tt) ws /\
   batch_bytes ws <= mx) /\
  iv_sorted cb_offset cb_end out /\ Forall (wf_cb (ds_block_size spec)) out /\ out <> [] /\
  forall x, first_at cb_at out x = last_writer bw_at ws x.
Proof.
  intros Hty H. unfold collapse_block_batch_writes in H.
  assert (Hnil : iv_sorted cb_offset cb_end []) by (split; constructor).
  destruct ws as [|w ws]; [done|]. cbn [reject_if mbind Result_bind] in H.
  destruct (try_fold _ _ _) as [[out' total]|e] eqn:Hf; [|done].
  apply (collapse_fold_sound _ _ _ _ _ _ _ []) in Hf as (? & ? & Hat & Hv & Ht & Hm); try done.
  cbn [mbind Result_bind] in H. ok_inv. destruct Hm as [Hm _]; [done|]. cbn [app] in Hat.
  assert (out <> []) by (by eapply (collapsed_nonempty spec (w :: ws))). split_and!; try done; lia.
Qed.

(** C31: a block batch is accepted exactly when it is non-empty, every write is
    valid for the device and the payload is within the limit; the collapsed
    writes are then sorted, disjoint, block aligned and hold at every byte the
    data and integrity of the last write of the batch that covers it. *)
Theorem collapse_block_batch_spec spec mx ws :
  Forall (fun w => 0 <= bw_offset w) ws -> mx < U64_MOD ->
  (is_ok (collapse_block_batch_writes ws spec mx) = true <->
   ws <> [] /\ Forall (fun w => BlockBatchWrite_validate_for_device w spec = Ok tt) ws /\
   batch_bytes ws <= mx) /\
  forall out, collapse_block_batch_writes ws spec mx = Ok out ->
    iv_sorted cb_offset cb_end out /\ Forall (wf_cb (ds_block_size spec)) out /\
    forall x, first_at cb_at out x = last_writer bw_at ws x.
Proof.
  intros Hty HU. split; [split|].
  - destruct (collapse_block_batch_writes ws spec mx) as [out|] eqn:H; [|done]. intros _.
    by apply collapse_block_batch_sound in H as [? _].
  - intros (? & ? & ?). by destruct (collapse_block_batch_total spec mx ws) as [out ->].
  - intros out H. apply collapse_block_batch_sound in H as (_ & ? & ? & _ & ?); done.
Qed.

(** The collapsed writes are not longer than the batch. *)
Definition points {A} (lo len : A -> Z) (l : list A) : gset Z :=
  ⋃ ((fun a => list_to_set (seqZ (lo a) (len a))) <$> l).

Lemma elem_of_points {A} (lo len : A -> Z) l x :
  x ∈ points lo len l <-> exists a, a ∈ l /\ lo a <= x < lo a + len a.
Proof.
  unfold points. rewrite elem_of_union_list. setoid_rewrite list_elem_of_fmap. split.
  - intros (X & (a & -> & Ha) & Hx). rewrite elem_of_list_to_set, elem_of_seqZ in Hx. exists a. split; [done|lia].
  - intros (a & Ha & Hx). eexists. split; [by eexists|]. rewrite elem_of_list_to_set, elem_of_seqZ. lia.
Qed.

Lemma points_size {A} (lo len : A -> Z) l :
  Forall (fun a => 0 <= len a) l -> Z.of_nat (size (points lo len l)) <= foldr (fun a n => len a + n) 0 l.
Proof.
  induction 1 as [|a l Ha Hl IH]; cbn [foldr].
  { unfold points. cbn. by rewrite size_empty. }
  change (points lo len (a :: l)) with (list_to_set (seqZ (lo a) (len a)) ∪ points lo len l).
  rewrite size_union_alt. assert (Hs : size (list_to_set (seqZ (lo a) (len a)) : gset Z) = Z.to_nat (len a)).
  { rewrite size_list_to_set by apply NoDup_seqZ. apply length_seqZ. }
  pose proof (subseteq_size (points lo len l ∖ list_to_set (seqZ (lo a) (len a))) (points lo len l) ltac:(set_solver)). lia.
Qed.

Lemma points_size_apart {A} (lo len : A -> Z) l :
  iv_apart lo (fun a => lo a + len a) l -> Z.of_nat (size (points lo len l)) = foldr (fun a n => len a + n) 0 l.
Proof.
  intros [HS Hn]. induction HS as [|a l HS IH Hf]; cbn [foldr].
  { unfold points. cbn. by rewrite size_empty. }
  apply Forall_cons in Hn as [Ha Hn]. specialize (IH Hn). unfold iv_nonempty in Ha.
  change (points lo len (a :: l)) with (list_to_set (seqZ (lo a) (len a)) ∪ points lo len l).
  rewrite size_union.
  - rewrite size_list_to_set by apply NoDup_seqZ. rewrite length_seqZ. lia.
  - intros x Hx (b & Hb & Hxb)%elem_of_points. rewrite elem_of_list_to_set, elem_of_seqZ in Hx.
    rewrite Forall_forall in Hf. specialize (Hf b Hb). unfold iv_disjoint, iv_before in Hf. lia.
Qed.

Lemma collapsed_bytes out ws :
  iv_sorted cb_offset cb_end out -> (forall x, first_at cb_at out x = last_writer bw_at ws x) ->
  foldr (fun w n => zlen (cb_bytes w) + n) 0 out <= batch_bytes ws.
Proof.
  intros Hs Hat. pose proof (iv_sorted_apart _ _ _ Hs) as Ha.
  rewrite <-(points_size_apart cb_offset (fun w => zlen (cb_bytes w)) out Ha).
  etrans; [|apply (points_size bw_offset (fun w => zlen (bw_bytes w)))].
  2:{ apply Forall_forall. intros w _. unfold zlen. lia. }
  apply inj_le, subseteq_size. intros x (w & Hw & Hx)%elem_of_points. apply elem_of_points.
  destruct (bytes_at_inside (cb_offset w) (cb_bytes w) x Hx) as [b Hb].
  assert (Hsome : first_at cb_at out x <> None).
  { intros Hnone. rewrite first_at_None in Hnone. specialize (Hnone w Hw). unfold cb_at in Hnone. by rewrite Hb in Hnone. }
  rewrite Hat in Hsome. unfold last_writer in Hsome.
  destruct (first_at bw_at (rev ws) x) as [b'|] eqn:Hf; [|done].
  apply first_at_Some_elem in Hf as (w' & Hw' & Hf). exists w'. rewrite list_elem_of_In, <-in_rev, <-list_elem_of_In in Hw'.
  split; [done|]. unfold bw_at in Hf. destruct (bytes_at (bw_offset w') _ _) as [b''|] eqn:Hb'; [|done]. exact (bytes_at_dom _ _ _ _ Hb').
Qed.

(** ** Native batches *)

Definition cf_end (w : CollapsedFileWrite) : Z := cf_offset w + zlen (cf_bytes w).
Definition cf_at (w : CollapsedFileWrite) (x : Z) : option Z := bytes_at (cf_offset w) (cf_bytes w) x.
Definition fw_at (w : FileBatchWrite) (x : Z) : option Z := bytes_at (fw_offset w) (fw_bytes w) x.

Definition wf_cf (w : CollapsedFileWrite) : Prop :=
  0 <= cf_offset w /\ 0 < zlen (cf_bytes w) /\ cf_end w < U64_MOD.

Lemma cf_at_dom w x b : cf_at w x = Some b -> cf_offset w <= x < cf_end w.
Proof. apply bytes_at_dom. Qed.

Lemma CollapsedFileWrite_end_ok w : wf_cf w -> CollapsedFileWrite_end w = Ok (cf_end w).
Proof.
  intros (? & ? & ?). unfold CollapsedFileWrite_end, cf_end in *.
  rewrite len_u64_ok by lia. cbn [mbind Result_bind]. by rewrite checked_add_ok.
Qed.

(** The part of a write inside [s, t). *)
Definition cf_slice (w : CollapsedFileWrite) (s t : Z) : CollapsedFileWrite :=
  mkCollapsedFileWrite s
    (take (Z.to_nat (t - s)) (drop (Z.to_nat (s - cf_offset w)) (cf_bytes w))).

Lemma cf_slice_spec w : slice_spec cf_offset cf_end cf_at cf_slice w.
Proof.
  intros s t ? ? ?. unfold cf_end in *. split_and!; [done| |].
  - cbn. rewrite zlen_take; [lia|]. rewrite zlen_drop; lia.
  - intros x. unfold cf_at, cf_slice. cbn. rewrite bytes_at_take by lia.
    unfold in_range. destruct (s <=? x) eqn:Hs; [|done]. cbn [andb].
    rewrite bytes_at_drop by lia. rewrite Hs. by destruct (x <? t).
Qed.

Lemma cf_slice_wf w s t :
  wf_cf w -> cf_offset w <= s -> s < t -> t <= cf_end w -> wf_cf (cf_slice w s t).
Proof.
  intros (? & ? & ?) ? ? ?. destruct (cf_slice_spec w s t) as (Hs & Ht & _); [lia..|].
  unfold wf_cf. rewrite Ht. unfold cf_end in Ht. cbn in *. lia.
Qed.

Lemma cut_file_write_eval s e w :
  wf_cf w -> 0 <= s -> s < e -> e < U64_MOD ->
  cut_file_write s e w =
  Ok (if (cf_end w <=? s) || (e <=? cf_offset w) then [w]
      else cut_pieces cf_offset cf_end cf_slice s e w).
Proof.
  intros Hw ? ? ?. unfold cut_file_write. rewrite CollapsedFileWrite_end_ok by done.
  cbn [mbind Result_bind]. destruct Hw as (? & ? & ?).
  destruct (_ || _) eqn:Ho; [done|]. bool_prop. unfold cut_pieces, cf_slice. do 2 f_equal.
  - case_match; [|done]. bool_prop. rewrite wsub64_exact by (u64_unfold; lia).
    by rewrite Z.sub_diag.
  - case_match; [|done]. bool_prop. rewrite wsub64_exact by (u64_unfold; lia).
    do 2 f_equal. unfold cf_end, zlen in *. rewrite take_ge; [done|]. rewrite length_drop. lia.
Qed.

Lemma cut_file_writes_ok s e ws :
  Forall wf_cf ws -> 0 <= s -> s < e -> e < U64_MOD ->
  exists pieces, try_map (cut_file_write s e) ws = Ok pieces /\
    Forall2 (is_cut cf_offset cf_end cf_at s e) ws pieces /\ Forall wf_cf (concat pieces).
Proof.
  intros Hws ? ? ?. induction Hws as [|w ws Hw Hws (pieces & IH1 & IH2 & IH3)].
  { exists []. split_and!; constructor. }
  cbn [try_map]. rewrite cut_file_write_eval, IH1 by done. cbn [mbind Result_bind].
  eexists. split; [done|]. cbn [concat]. pose proof Hw as (? & ? & ?).
  assert (iv_nonempty cf_offset cf_end w) by (unfold iv_nonempty, cf_end; lia).
  destruct (_ || _) eqn:Hov; bool_prop.
  - split; [constructor; [|done]|by constructor].
    apply no_overlap_is_cut; eauto using cf_at_dom.
    apply orb_prop in Hov as [|]; bool_prop; lia.
  - split; [constructor; [|done]|].
    + apply cut_pieces_is_cut; eauto using cf_at_dom, cf_slice_spec.
    + apply Forall_app. split; [|done]. unfold cut_pieces. apply Forall_app.
      split; case_match; bool_prop; rewrite ?Forall_singleton; try (by constructor);
        apply cf_slice_wf; try done; lia.
Qed.

Lemma insert_collapsed_file_write_ok ws w :
  iv_sorted cf_offset cf_end ws -> Forall wf_cf ws -> wf_cf w ->
  exists out, insert_collapsed_file_write ws (cf_offset w) (cf_bytes w) = Ok out /\
    iv_sorted cf_offset cf_end out /\ Forall wf_cf out /\
    forall x, first_at cf_at out x =
      match cf_at w x with Some b => Some b | None => first_at cf_at ws x end.
Proof.
  intros Hs Hws Hw. unfold insert_collapsed_file_write.
  pose proof Hw as (? & ? & ?). unfold cf_end in *.
  rewrite len_u64_ok by lia. cbn [mbind Result_bind].
  rewrite checked_add_ok by lia. cbn [mbind Result_bind ok_or]. fold (cf_end w) in *.
  destruct (cut_file_writes_ok (cf_offset w) (cf_end w) ws) as (pieces & -> & Hcut & Hwp);
    try done; [unfold cf_end; lia|]. cbn [mbind Result_bind].
  destruct (cut_overlay cf_offset cf_end cf_at cf_at_dom _ _ ws pieces w
    (iv_sorted_apart _ _ _ Hs) Hcut eq_refl eq_refl) as [Hso Hat]; [unfold cf_end; lia|].
  replace (mkCollapsedFileWrite (cf_offset w) (cf_bytes w)) with w by (by destruct w).
  eexists. split; [done|]. split_and!; [done| |].
  - rewrite sort_by_key_perm. apply Forall_app. split; [done|by constructor].
  - intros x. rewrite Hat. destruct (in_range _ _ x) eqn:Hr.
    + apply in_range_true in Hr. destruct (bytes_at_inside (cf_offset w) (cf_bytes w) x Hr) as [b Hb].
      unfold cf_at. by rewrite Hb.
    + apply in_range_false in Hr. destruct (cf_at w x) eqn:Hx; [|done]. by apply cf_at_dom in Hx.
Qed.

(** What the loop of [collapse_native_file_batch_writes] maintains. *)
Definition native_collapse_inv (base : Z) (prior : list FileBatchWrite) (acc : NativeCollapse) : Prop :=
  iv_sorted cf_offset cf_end (nc_collapsed acc) /\ Forall wf_cf (nc_collapsed acc) /\
  (forall x, first_at cf_at (nc_collapsed acc) x = last_writer fw_at prior x) /\
  base <= nc_running_size acc /\
  (forall x, base <= x < nc_running_size acc -> is_Some (last_writer fw_at prior x)) /\
  (forall x b, last_writer fw_at prior x = Some b -> x < nc_running_size acc).

Lemma collapse_file_step_inv mx base prior acc w acc' :
  0 <= fw_offset w -> native_collapse_inv base prior acc ->
  collapse_file_step mx acc w = Ok acc' -> native_collapse_inv base (prior ++ [w]) acc'.
Proof.
  intros Hw0 (Hs & Hwf & Hat & Hb & Hcov & Hlt) H. unfold collapse_file_step in H.
  apply bind_Ok in H as (range & Hr & H). unfold FileBatchWrite_byte_range in Hr.
  apply bind_Ok in Hr as (len & [-> Hlen]%len_u64_Ok & Hr).
  apply bind_Ok in Hr as (e0 & _ & [= <-]).
  cbn in H. apply bind_Ok in H as (e & He%ByteRange_end_exclusive_Ok & H). cbn in He.
  destruct He as [He ->]. apply bind_Ok in H as ([] & Hgap%reject_if_Ok & H). bool_prop. cbn in *.
  fold (zlen (fw_bytes w)) in *.
  assert (Hsn : forall x, last_writer fw_at (prior ++ [w]) x =
    match fw_at w x with Some b => Some b | None => last_writer fw_at prior x end)
    by (intros; apply last_writer_snoc).
  assert (Hcov' : forall x, base <= x < Z.max (nc_running_size acc) (fw_offset w + zlen (fw_bytes w)) ->
    is_Some (last_writer fw_at (prior ++ [w]) x)).
  { intros x Hx. rewrite Hsn. destruct (fw_at w x) eqn:Hfx; [eauto|].
    destruct (decide (x < nc_running_size acc)); [apply Hcov; lia|].
    destruct (bytes_at_inside (fw_offset w) (fw_bytes w) x) as [b Hb']; [lia|].
    unfold fw_at in Hfx. congruence. }
  assert (Hlt' : forall x b, last_writer fw_at (prior ++ [w]) x = Some b ->
    x < Z.max (nc_running_size acc) (fw_offset w + zlen (fw_bytes w))).
  { intros x b. rewrite Hsn. destruct (fw_at w x) eqn:Hfx.
    - apply bytes_at_dom in Hfx. lia.
    - intros ?%Hlt. lia. }
  destruct (fw_bytes w) as [|b0 bs] eqn:Hbs; ok_inv.
  - split_and!; cbn; try done; [|lia]. intros x. rewrite Hsn, Hat.
    assert (fw_at w x = None) as -> by (unfold fw_at, bytes_at; rewrite Hbs; by case_match). done.
  - set (cw := mkCollapsedFileWrite (fw_offset w) (b0 :: bs)).
    assert (Hcw : wf_cf cw) by (unfold wf_cf, cf_end, zlen, cw in *; cbn in *; lia).
    destruct (insert_collapsed_file_write_ok _ cw Hs Hwf Hcw) as (out & Hins & ? & ? & Hat').
    match goal with H : insert_collapsed_file_write _ _ _ = Ok _ |- _ =>
      cbn in Hins; rewrite Hins in H; injection H as <- end.
    split_and!; cbn; try done; [|lia]. intros x. rewrite Hsn, Hat', Hat.
    assert (fw_at w x = cf_at cw x) as -> by (unfold fw_at, cf_at; by rewrite Hbs). done.
Qed.

Lemma last_writer_collapse_fold mx base ws acc :
  Forall (fun w => 0 <= fw_offset w) ws ->
  try_fold (collapse_file_step mx) (mkNativeCollapse [] base 0 None) ws = Ok acc ->
  native_collapse_inv base ws acc.
Proof.
  intros Hty H. eapply (try_fold_inv (fun l acc => native_collapse_inv base l acc)); [..|exact H].
  - split_and!; cbn; try done; try lia; split; constructor.
  - intros dn x a a' [rest ->] Hinv Hstep. eapply collapse_file_step_inv; [|done|done].
    by apply Forall_app in Hty as [_ [? _]%Forall_cons].
Qed.

(** C32: an accepted native file batch collapses to sorted disjoint writes that
    hold at every byte the data of the last write of the batch covering it; the
    new size is at least the old one, every byte between the old and the new
    size is written (no sparse gap), and the reported range spans the writes. *)
Theorem collapse_native_batch_sound mx base ws out range size :
  Forall (fun w => 0 <= fw_offset w) ws ->
  collapse_native_file_batch_writes ws base mx = Ok (out, range, size) ->
  iv_sorted cf_offset cf_end out /\ Forall wf_cf out /\
  (forall x, first_at cf_at out x = last_writer fw_at ws x) /\
  (forall x, base <= x < size -> is_Some (last_writer fw_at ws x)) /\
  (forall x b, last_writer fw_at ws x = Some b ->
     br_offset range <= x < br_offset range + br_len range /\ x < size) /\
  base <= size.
Proof.
  intros Hty H. unfold collapse_native_file_batch_writes in H.
  apply bind_Ok in H as (? & _ & H). apply bind_Ok in H as (acc & Hf & H).
  apply last_writer_collapse_fold in Hf as (Hs & Hwf & Hat & Hb & Hcov & Hlt); [|done].
  destruct (nc_collapsed acc) as [|first rest] eqn:Hc.
  - ok_inv. split_and!; try done; [intros; lia|].
    intros x b Hx. rewrite <-Hat in Hx. done.
  - apply bind_Ok in H as (lst & Hl%ok_or_Ok & H). apply bind_Ok in H as (e & He & H). ok_inv.
    assert (Hin : lst ∈ first :: rest).
    { apply last_Some in Hl as [l' ->]. apply elem_of_app. right. by left. }
    pose proof Hwf as Hwf'. rewrite Forall_forall in Hwf'.
    rewrite CollapsedFileWrite_end_ok in He by auto. injection He as <-.
    assert (Hhull : forall w, w ∈ first :: rest -> cf_offset first <= cf_offset w /\ cf_end w <= cf_end lst).
    { intros w Hw. destruct Hs as [HS Hn]. rewrite Forall_forall in Hn. split.
      - apply StronglySorted_inv in HS as [_ Hf]. apply elem_of_cons in Hw as [->|Hw]; [lia|].
        rewrite Forall_forall in Hf. pose proof (Hf w Hw). pose proof (Hn first ltac:(left)).
        unfold iv_before, iv_nonempty in *. lia.
      - apply last_Some in Hl as [l' Hl]. rewrite Hl in HS, Hw. apply elem_of_app in Hw as [Hw|Hw].
        + apply StronglySorted_app in HS as [HS _].
          pose proof (HS w lst Hw ltac:(by left)). pose proof (Hn lst Hin).
          unfold iv_before, iv_nonempty in *. lia.
        + apply list_elem_of_singleton in Hw as ->. lia. }
    split_and!; try done. intros x b Hx. pose proof (Hlt x b Hx). split; [|done].
    rewrite <-Hat in Hx.
    apply (first_at_Some_elem cf_at (first :: rest)) in Hx as (w & Hw & Hx%cf_at_dom).
    pose proof (Hhull w Hw). pose proof (Hhull first ltac:(left)).
    destruct (Hwf' first ltac:(left)) as (? & ? & ?), (Hwf' lst Hin) as (? & ? & ?).
    cbn. rewrite wsub64_exact by (unfold cf_end in *; u64_unfold; lia). lia.
Qed.

Lemma cover_loop_spec ws ct te :
  iv_sorted cf_offset cf_end ws -> Forall wf_cf ws -> ct < te ->
  exists b, cover_loop ws ct te = Ok b /\
    (b = true <-> forall x, ct <= x < te -> is_Some (first_at cf_at ws x)).
Proof.
  revert ct. induction ws as [|w ws IH]; intros ct Hs Hwf Hlt; cbn [cover_loop first_at].
  { exists false. split; [done|]. split; [done|]. intros H. destruct (H ct); [lia|done]. }
  apply Forall_cons in Hwf as [Hw Hwf]. rewrite CollapsedFileWrite_end_ok by done.
  cbn [mbind Result_bind].
  assert (Hs' : iv_sorted cf_offset cf_end ws).
  { destruct Hs as [HS Hn]. apply StronglySorted_inv in HS as [? _].
    apply Forall_cons in Hn as [_ ?]. by split. }
  assert (Hout : forall x, ~ (cf_offset w <= x < cf_end w) -> cf_at w x = None)
    by (intros; by apply (f_outside cf_offset cf_end cf_at cf_at_dom)).
  destruct (cf_end w <=? ct) eqn:H1; bool_prop.
  { destruct (IH ct Hs' Hwf Hlt) as (b & Hb & Hiff). exists b. split; [done|]. rewrite Hiff.
    split; intros H x Hx; specialize (H x Hx); [by rewrite Hout by lia|].
    rewrite Hout in H by lia. done. }
  destruct (ct <? cf_offset w) eqn:H2; bool_prop.
  { exists false. split; [done|]. split; [done|]. intros H. specialize (H ct ltac:(lia)).
    rewrite Hout in H by lia. destruct H as [b Hb].
    apply first_at_Some_elem in Hb as (w' & Hw' & Hb%cf_at_dom).
    destruct Hs as [HS _]. apply StronglySorted_inv in HS as [_ Hf]. rewrite Forall_forall in Hf.
    specialize (Hf w' Hw'). unfold iv_before in Hf. lia. }
  assert (Hin : forall x, ct <= x < cf_end w -> exists b, cf_at w x = Some b)
    by (intros; apply bytes_at_inside; unfold cf_end in *; lia).
  destruct (te <=? cf_end w) eqn:H3; bool_prop.
  { exists true. split; [done|]. split; [|done]. intros _ x Hx.
    destruct (Hin x) as [b ->]; [lia|]. eauto. }
  destruct (IH (cf_end w) Hs' Hwf H3) as (b & Hb & Hiff). exists b. split; [done|]. rewrite Hiff.
  split; intros H x Hx.
  - destruct (decide (x < cf_end w)); [destruct (Hin x) as [? ->]; [lia|eauto]|].
    rewrite Hout by lia. apply H. lia.
  - specialize (H x ltac:(lia)). by rewrite Hout in H by lia.
Qed.

(** [native_batch_writes_cover_range] decides whether sorted disjoint
    writes hold every byte of a range. *)
Lemma cover_range_spec ws range :
  iv_sorted cf_offset cf_end ws -> Forall wf_cf ws ->
  0 <= br_len range -> br_offset range + br_len range < U64_MOD ->
  exists b, native_batch_writes_cover_range ws range = Ok b /\
    (b = true <-> forall x, br_offset range <= x < br_offset range + br_len range ->
                    is_Some (first_at cf_at ws x)).
Proof.
  intros Hs Hwf Hl He. unfold native_batch_writes_cover_range.
  destruct (br_len range =? 0) eqn:H0; bool_prop.
  - exists true. split; [done|]. split; [intros _ x ?; lia|done].
  - unfold ByteRange_end_exclusive. rewrite checked_add_ok by lia. cbn [ok_or mbind Result_bind].
    apply cover_loop_spec; [done..|lia].
Qed.

(** Laying sorted or unsorted writes over a buffer writes, at every
    position, the byte of the last write that covers it and leaves the other
    positions alone. *)
Lemma overlay_spec group_start ws bytes :
  0 <= group_start -> group_start + zlen bytes < U64_MOD ->
  Forall (fun w => group_start <= cf_offset w /\ cf_end w <= group_start + zlen bytes) ws ->
  exists out, overlay_native_batch_writes group_start ws bytes = Ok out /\
    length out = length bytes /\
    forall x, bytes_at group_start out x =
      match last_writer cf_at ws x with Some b => Some b | None => bytes_at group_start bytes x end.
Proof.
  intros Hg Hlen Hin. induction ws as [|w ws IH] using rev_ind.
  { exists bytes. done. }
  apply Forall_app in Hin as [Hin Hw]. rewrite Forall_singleton in Hw. destruct Hw as [Hw1 Hw2].
  destruct (IH Hin) as (out & Ho & Hl & Hat). clear IH. unfold overlay_native_batch_writes in *.
  assert (Hfold : forall {A B} (f : B -> A -> Result B) l1 l2 b,
    try_fold f b (l1 ++ l2) = (b' ← try_fold f b l1; try_fold f b' l2)).
  { clear. intros A B f l1. induction l1 as [|x l1 IH]; intros l2 b; cbn [app try_fold]; [done|].
    destruct (f b x); cbn [mbind Result_bind]; [apply IH|done]. }
  rewrite Hfold, Ho. cbn [mbind Result_bind try_fold]. unfold cf_end, zlen in *.
  rewrite wsub64_exact by (u64_unfold; lia). rewrite checked_add_ok by (u64_unfold; lia).
  cbn [ok_or mbind Result_bind]. rewrite (proj2 (Z.ltb_ge _ _)) by lia. cbn.
  eexists. split; [done|]. split; [rewrite splice_length; lia|]. intros x.
  rewrite last_writer_snoc. unfold cf_at at 1. unfold bytes_at at 1 2.
  destruct (group_start <=? x) eqn:Hx; bool_prop.
  2:{ ztest. rewrite <-Hat. unfold bytes_at. by ztest. }
  destruct (cf_offset w <=? x) eqn:Hx2; bool_prop.
  - destruct (cf_bytes w !! Z.to_nat (x - cf_offset w)) as [b|] eqn:Hb.
    + apply lookup_lt_Some in Hb as Hlt. rewrite splice_lookup_in by lia. rewrite <-Hb. f_equal. lia.
    + apply lookup_ge_None in Hb. rewrite splice_lookup_out by lia.
      rewrite <-Hat. unfold bytes_at. by ztest.
  - rewrite splice_lookup_out by lia. rewrite <-Hat. unfold bytes_at. by ztest.
Qed.

(** ** Segment groups *)

Lemma blocks_for_bytes_Ok n bs k :
  0 <= n -> 0 < bs < U64_MOD -> blocks_for_bytes n bs = Ok k -> n <= k * bs < n + bs.
Proof.
  intros Hn Hbs H. unfold blocks_for_bytes in H. rewrite wsub64_exact in H by (u64_unfold; lia).
  ok_inv. destruct (n =? 0) eqn:?; bool_prop; ok_inv; [lia|].
  pose proof (Z.div_mod (n + (bs - 1)) bs ltac:(lia)).
  pose proof (Z.mod_pos_bound (n + (bs - 1)) bs ltac:(lia)). lia.
Qed.

Definition group_holds (g : NativeBatchSegmentGroup) (w : CollapsedFileWrite) : Prop :=
  ng_start g <= cf_offset w /\ cf_end w <= ng_end g.

Definition wf_group (bs : Z) (g : NativeBatchSegmentGroup) : Prop :=
  ng_start g mod bs = 0 /\ ng_end g mod bs = 0 /\ ng_start g < ng_end g.

(** The groups (last first) number the writes consecutively up to [n]. *)
Fixpoint group_indexes (groups : list NativeBatchSegmentGroup) (n : Z) : Prop :=
  match groups with
  | [] => n = 0
  | g :: groups => ng_last_write g = n /\ ng_first_write g < n /\
      group_indexes groups (ng_first_write g)
  end.

Definition groups_inv (bs : Z) (ws : list CollapsedFileWrite)
    (groups : list NativeBatchSegmentGroup) : Prop :=
  Forall (wf_group bs) groups /\
  StronglySorted (fun a b => ng_end b < ng_start a) groups /\
  group_indexes groups (zlen ws) /\
  (forall i w, ws !! i = Some w -> exists g, g ∈ groups /\
    ng_first_write g <= Z.of_nat i < ng_last_write g /\ group_holds g w) /\
  match groups with
  | g :: _ => exists w0, w0 ∈ ws /\ ng_start g <= cf_offset w0
  | [] => True
  end.

Lemma segment_group_bounds bs w ws_end gs gb :
  0 < bs < U64_MOD -> wf_cf w -> ws_end = cf_end w ->
  gs = cf_offset w / bs * bs -> blocks_for_bytes (wsub64 ws_end gs) bs = Ok gb ->
  gs <= cf_offset w /\ cf_end w <= gs + gb * bs /\ gs mod bs = 0 /\ (gs + gb * bs) mod bs = 0 /\
  gs < gs + gb * bs.
Proof.
  intros Hbs (Hw1 & Hw2 & Hw3) -> -> H.
  pose proof (Z.div_mod (cf_offset w) bs ltac:(lia)).
  pose proof (Z.mod_pos_bound (cf_offset w) bs ltac:(lia)).
  assert (0 <= cf_offset w / bs * bs) by (apply Z.mul_nonneg_nonneg; [apply Z.div_pos|]; lia).
  unfold cf_end in *.
  rewrite wsub64_exact in H by (u64_unfold; lia).
  apply blocks_for_bytes_Ok in H; [|lia..].
  split_and!; [lia|lia|apply Z_mod_mult| |lia].
  rewrite <-Z.mul_add_distr_r. apply Z_mod_mult.
Qed.

Lemma lookup_snoc_inv {A} (l : list A) x i y :
  (l ++ [x]) !! i = Some y -> l !! i = Some y \/ (i = length l /\ y = x).
Proof.
  intros [?|[? Hl]]%lookup_app_Some; [by left|right].
  destruct (i - length l)%nat eqn:Hi; [|done]. cbn in Hl. split; [lia|congruence].
Qed.

(** A write that opens a new group. *)
Lemma groups_inv_push bs ws groups w gs ge :
  groups_inv bs ws groups -> Forall (fun b => ng_end b < gs) groups ->
  gs mod bs = 0 -> ge mod bs = 0 -> gs <= cf_offset w -> cf_end w <= ge -> gs < ge ->
  groups_inv bs (ws ++ [w]) (mkNativeBatchSegmentGroup gs ge (zlen ws) (zlen ws + 1) :: groups).
Proof.
  intros (Hwf & HS & Hidx & Hin & _) Hf ? ? ? ? ?.
  assert (Hz : zlen (ws ++ [w]) = zlen ws + 1) by (unfold zlen; rewrite length_app; cbn; lia).
  unfold groups_inv. rewrite Hz. split_and!; [by constructor|by constructor|cbn; split_and!; [done|lia|done]| |].
  - intros i w' [Hi|[-> ->]]%lookup_snoc_inv.
    + destruct (Hin i w' Hi) as (g & ? & ? & ?). exists g. split; [by right|done].
    + eexists. split; [left|]. cbn. unfold zlen. split; [lia|done].
  - exists w. split; [apply elem_of_app; right; by left|done].
Qed.

(** A write that extends the last group. *)
Lemma groups_inv_extend bs ws g groups w ge :
  groups_inv bs ws (g :: groups) -> ge mod bs = 0 ->
  ng_start g <= cf_offset w -> cf_end w <= ge ->
  groups_inv bs (ws ++ [w])
    (mkNativeBatchSegmentGroup (ng_start g) (Z.max (ng_end g) ge) (ng_first_write g) (zlen ws + 1)
       :: groups).
Proof.
  intros (Hwf & HS & Hidx & Hin & _) ? ? ?.
  assert (Hz : zlen (ws ++ [w]) = zlen ws + 1) by (unfold zlen; rewrite length_app; cbn; lia).
  apply Forall_cons in Hwf as [(G1 & G2 & G3) Hwf]. apply StronglySorted_inv in HS as [HS Hf].
  destruct Hidx as (Hl & Hfl & Hidx). unfold groups_inv. rewrite Hz. split_and!.
  - constructor; [|done]. unfold wf_group. cbn. split_and!; [done| |lia].
    by destruct (Z.max_spec (ng_end g) ge) as [[_ ->]|[_ ->]].
  - by constructor.
  - cbn. split_and!; [done|lia|done].
  - intros i w' [Hi|[-> ->]]%lookup_snoc_inv.
    + destruct (Hin i w' Hi) as (g' & [->|Hg']%elem_of_cons & Hrng & [Hh1 Hh2]).
      * eexists. split; [left|]. unfold group_holds. cbn. lia.
      * exists g'. split; [by right|done].
    + eexists. split; [left|]. unfold group_holds, zlen in *. cbn. lia.
  - exists w. split; [apply elem_of_app; right; by left|done].
Qed.

Lemma segment_group_step_inv bs ws rest w groups n r :
  0 < bs < U64_MOD -> wf_cf w -> iv_sorted cf_offset cf_end (ws ++ w :: rest) ->
  n = zlen ws -> groups_inv bs ws groups ->
  segment_group_step bs (groups, n) w = Ok r ->
  groups_inv bs (ws ++ [w]) r.1 /\ r.2 = zlen (ws ++ [w]).
Proof.
  intros Hbs Hw Hs -> Hinv H. unfold segment_group_step in H.
  rewrite CollapsedFileWrite_end_ok in H by done. cbn [mbind Result_bind] in H.
  apply bind_Ok in H as (gs & [_ Hgs]%ok_or_Ok%checked_mul_Some & H).
  apply bind_Ok in H as (gb & Hgb & H). apply bind_Ok in H as (gl & [_ ->]%ok_or_Ok%checked_mul_Some & H).
  apply bind_Ok in H as (ge & [_ ->]%ok_or_Ok%checked_add_Some & H).
  destruct (segment_group_bounds bs w _ gs gb Hbs Hw eq_refl Hgs Hgb) as (B1 & B2 & B3 & B4 & B5).
  assert (Hz : zlen (ws ++ [w]) = zlen ws + 1) by (unfold zlen; rewrite length_app; cbn; lia).
  rewrite Hz. destruct groups as [|g groups].
  { injection H as <-. cbn. split; [|done]. by apply groups_inv_push. }
  pose proof Hinv as (Hwf & HS & _ & _ & (w0 & Hw0 & Hg0)).
  apply StronglySorted_inv in HS as [HS Hf]. apply Forall_cons in Hwf as [(_ & _ & G3) _].
  destruct (gs <=? ng_end g) eqn:Hle; injection H as <-; bool_prop; cbn; (split; [|done]).
  - apply groups_inv_extend; try done.
    pose proof Hs as (_ & _ & Hsep)%iv_sorted_app.
    pose proof (Hsep w0 w Hw0 ltac:(left)).
    destruct Hs as [_ Hn]. rewrite Forall_forall in Hn.
    pose proof (Hn w0 ltac:(apply elem_of_app; by left)). unfold iv_nonempty in *. lia.
  - apply groups_inv_push; try done. constructor; [lia|].
    eapply Forall_impl; [exact Hf|]. cbn. intros. lia.
Qed.

(** The segment groups of a collapsed native batch are block aligned, in
    order and separated by a gap; they number the writes consecutively, and
    each write lies inside the group that holds its index. *)
Lemma segment_groups_sound bs ws groups :
  0 < bs < U64_MOD -> iv_sorted cf_offset cf_end ws -> Forall wf_cf ws ->
  native_batch_segment_groups ws bs = Ok groups ->
  Forall (wf_group bs) groups /\
  StronglySorted (fun a b => ng_end a < ng_start b) groups /\
  group_indexes (rev groups) (zlen ws) /\
  forall i w, ws !! i = Some w -> exists g, g ∈ groups /\
    ng_first_write g <= Z.of_nat i < ng_last_write g /\ group_holds g w.
Proof.
  intros Hbs Hs Hwf H. unfold native_batch_segment_groups in H.
  apply bind_Ok in H as ([gs n] & Hf & [= <-]).
  assert (groups_inv bs ws gs) as (H1 & H2 & H3 & H4 & _).
  { apply (try_fold_inv (fun l acc => groups_inv bs l acc.1 /\ acc.2 = zlen l) _ _ _ _) in Hf as [? _];
      [done|split; [|done]; split_and!; cbn; try done; constructor|].
    intros dn x [a m] acc' [rest ->] [Hinv Hm] Hstep. cbn in *.
    eapply segment_group_step_inv; [done| |done|done|done|done].
    by apply Forall_app in Hwf as [_ [? _]%Forall_cons]. }
  split_and!.
  - by rewrite <-Permutation_rev.
  - by apply StronglySorted_rev.
  - by rewrite rev_involutive.
  - intros i w Hi. destruct (H4 i w Hi) as (g & ? & ?). exists g. split; [|done].
    by rewrite <-Permutation_rev.
Qed.

(** ** Concrete batches *)

Definition demo_batch : list BlockBatchWrite :=
  [mkBlockBatchWrite 0 [1; 1; 1; 1] Verified; mkBlockBatchWrite 2 [2; 2] Unchecked].

Lemma collapse_block_batch_spec_witness :
  exists out, collapse_block_batch_writes demo_batch (mkDeviceSpec 8 2) 100 = Ok out /\
    first_at cb_at out 3 = last_writer bw_at demo_batch 3.
Proof.
  destruct (collapse_block_batch_spec (mkDeviceSpec 8 2) 100 demo_batch) as [_ Hout].
  - repeat constructor; cbn; lia.
  - by vm_compute.
  - destruct (collapse_block_batch_writes demo_batch (mkDeviceSpec 8 2) 100) as [out|e] eqn:H;
      [|by vm_compute in H].
    exists out. split; [done|]. by apply (Hout out).
Defined.

Lemma collapse_native_batch_sound_witness :
  exists out range size, collapse_native_file_batch_writes
      [mkFileBatchWrite 4 [7; 7]; mkFileBatchWrite 5 [8; 8; 8]] 4 100 = Ok (out, range, size) /\
    first_at cf_at out 5 = last_writer fw_at [mkFileBatchWrite 4 [7; 7]; mkFileBatchWrite 5 [8; 8; 8]] 5.
Proof.
  destruct (collapse_native_file_batch_writes
    [mkFileBatchWrite 4 [7; 7]; mkFileBatchWrite 5 [8; 8; 8]] 4 100) as [[[out range] size]|e] eqn:H;
    [|by vm_compute in H].
  exists out, range, size. split; [done|].
  apply (collapse_native_batch_sound 100 4 [mkFileBatchWrite 4 [7; 7]; mkFileBatchWrite 5 [8; 8; 8]]
    out range size); [repeat constructor; cbn; lia|exact H].
Defined.
