(* ===== verification/Provider.v ===== *)
(** * Provider types and canonical encodings ([provider.rs])

    Write grants, segment receipts and reference evidence, the canonical byte
    encoding they are hashed over, and the deterministic test hash. *)

From S2P Require Import Prelude Api Object.

(** ** Grants, receipts and evidence *)

Inductive ProofScheme := DeterministicTestMacV1 | NodeSignatureV1.

#[export] Instance ProofScheme_eq_dec : EqDecision ProofScheme.
Proof. solve_decision. Defined.

(** [ProofTag] and [GrantHash] are 32 bytes. *)
Abbreviation ProofTag := (list Z) (only parsing).
Abbreviation GrantHash := (list Z) (only parsing).
Definition ProofTag_ZERO : list Z := replicate 32 0.

Inductive WriteGrantIntent :=
| IntentBlockWrite (device_id : DeviceId) (range : BlockRange) (fence : DeviceGeneration)
    (shard_id : ShardId) (old_root : MetadataNodeId)
| IntentNativeWrite (keyspace_id : KeyspaceId) (file_id : FileId) (range : ByteRange)
    (base_version : FileVersion)
| IntentNativeAppendStream (keyspace_id : KeyspaceId) (file_id : FileId)
    (stream_id : AppendStreamId) (ticket_id : AppendTicketId) (append_offset : Z) (bytes : Z)
    (writer_epoch : WriterEpoch)
| IntentInternal (owner : MappingOwner).

#[export] Instance WriteGrantIntent_eq_dec : EqDecision WriteGrantIntent.
Proof. solve_decision. Defined.

(** [WriteGrantIntent::owner] *)
Definition WriteGrantIntent_owner (self : WriteGrantIntent) : MappingOwner :=
  match self with
  | IntentBlockWrite device_id _ _ _ _ => OwnBlockDevice device_id
  | IntentNativeWrite keyspace_id _ _ _
  | IntentNativeAppendStream keyspace_id _ _ _ _ _ _ => OwnNativeKeyspace keyspace_id
  | IntentInternal owner => owner
  end.

Record WriteGrantRequest := mkWriteGrantRequest {
  wgr_tenant : TenantId;
  wgr_principal : PrincipalId;
  wgr_intent : WriteGrantIntent;
  wgr_write_intent : WriteIntentId;
  wgr_segment_id : SegmentId;
  wgr_storage_node : StorageNodeId;
  wgr_max_bytes : Z;
  wgr_payload_integrity : PayloadIntegrity;
  wgr_durability : WriteDurability;
  wgr_expires_at : LogicalDeadline;
}.

Record WriteGrant := mkWriteGrant {
  wg_tenant : TenantId;
  wg_principal : PrincipalId;
  wg_grant_id : GrantId;
  wg_nonce : GrantNonce;
  wg_grant_epoch : GrantEpoch;
  wg_expires_at : LogicalDeadline;
  wg_owner : MappingOwner;
  wg_intent : WriteGrantIntent;
  wg_write_intent : WriteIntentId;
  wg_segment_id : SegmentId;
  wg_storage_node : StorageNodeId;
  wg_max_bytes : Z;
  wg_payload_integrity : PayloadIntegrity;
  wg_durability : WriteDurability;
  wg_key_id : StorageNodeKeyId;
  wg_proof_scheme : ProofScheme;
  wg_proof : ProofTag;
}.

#[export] Instance WriteGrant_eq_dec : EqDecision WriteGrant.
Proof. solve_decision. Defined.

Inductive SegmentReceiptLifecycle := RlDurablePendingMetadata.

#[export] Instance SegmentReceiptLifecycle_eq_dec : EqDecision SegmentReceiptLifecycle.
Proof. solve_decision. Defined.

Record SegmentReplicaPlacement := mkSegmentReplicaPlacement {
  pl_segment_id : SegmentId;
  pl_storage_node : StorageNodeId;
  pl_offset : Z;
  pl_bytes : Z;
}.

#[export] Instance SegmentReplicaPlacement_eq_dec : EqDecision SegmentReplicaPlacement.
Proof. solve_decision. Defined.

Record SegmentReplicaCommit := mkSegmentReplicaCommit {
  rcm_descriptor : SegmentDescriptor;
  rcm_placement : SegmentReplicaPlacement;
}.

#[export] Instance SegmentReplicaCommit_eq_dec : EqDecision SegmentReplicaCommit.
Proof. solve_decision. Defined.

Record SegmentWriteReceipt := mkSegmentWriteReceipt {
  sr_tenant : TenantId;
  sr_grant_id : GrantId;
  sr_grant_hash : GrantHash;
  sr_principal : PrincipalId;
  sr_owner : MappingOwner;
  sr_storage_node : StorageNodeId;
  sr_storage_node_incarnation : ServerIncarnation;
  sr_segment_id : SegmentId;
  sr_write_intent : WriteIntentId;
  sr_intent : WriteGrantIntent;
  sr_bytes : Z;
  sr_integrity : SegmentPayloadIntegrity;
  sr_durability : WriteDurability;
  sr_lifecycle : SegmentReceiptLifecycle;
  sr_receipt_epoch : GrantEpoch;
  sr_expires_at : LogicalDeadline;
  sr_node_key_id : StorageNodeKeyId;
  sr_proof_scheme : ProofScheme;
  sr_proof : ProofTag;
  sr_descriptor : SegmentDescriptor;
  sr_placement : SegmentReplicaPlacement;
}.

#[export] Instance SegmentWriteReceipt_eq_dec : EqDecision SegmentWriteReceipt.
Proof. solve_decision. Defined.

(** [SegmentWriteReceipt::replica_commit] *)
Definition SegmentWriteReceipt_replica_commit (self : SegmentWriteReceipt) : SegmentReplicaCommit :=
  mkSegmentReplicaCommit (sr_descriptor self) (sr_placement self).

Record VerifiedSegmentReceipt := mkVerifiedSegmentReceipt {
  vr_receipt : SegmentWriteReceipt;
  vr_descriptor : SegmentDescriptor;
}.

Record ReferenceEvidence := mkReferenceEvidence {
  ev_tenant : TenantId;
  ev_principal : PrincipalId;
  ev_owner : MappingOwner;
  ev_grant_id : GrantId;
  ev_segment_id : SegmentId;
  ev_storage_node : StorageNodeId;
  ev_metadata_commit : CommitSeq;
  ev_receipt_epoch : GrantEpoch;
  ev_node_key_id : StorageNodeKeyId;
  ev_proof_scheme : ProofScheme;
  ev_proof : ProofTag;
}.

(** ** Canonical encoding

    The encoders are generic in the sink: a byte vector or a running hash. *)

Class CanonicalSink (T : Type) := sink_append : T -> list Z -> T.

#[export] Instance vec_sink : CanonicalSink (list Z) := fun out bytes => out ++ bytes.

(** [value.to_be_bytes()] for an integer of [n] bytes. *)
Fixpoint be_bytes (n : nat) (value : Z) : list Z :=
  match n with
  | O => []
  | S n => (value / 256 ^ Z.of_nat n) mod 256 :: be_bytes n value
  end.

(** The bytes of an ASCII literal. *)
Fixpoint ascii_bytes (s : string) : list Z :=
  match s with
  | EmptyString => []
  | String c s => Z.of_nat (Ascii.nat_of_ascii c) :: ascii_bytes s
  end.

Section encoders.
Context {T : Type} `{CanonicalSink T}.
Implicit Types out : T.

(** [put_u8] *)
Definition put_u8 out (value : Z) : T := sink_append out [value].
(** [put_u64] *)
Definition put_u64 out (value : Z) : T := sink_append out (be_bytes 8 value).
(** [put_u128] *)
Definition put_u128 out (value : Z) : T := sink_append out (be_bytes 16 value).
(** [put_bytes] *)
Definition put_bytes out (bytes : list Z) : T :=
  let out := put_u64 out (Z.of_nat (length bytes) mod U64_MOD) in sink_append out bytes.

(** [put_mapping_owner] *)
Definition put_mapping_owner out (owner : MappingOwner) : T :=
  match owner with
  | OwnBlockDevice device_id => let out := put_u8 out 1 in put_u128 out device_id
  | OwnNativeKeyspace keyspace_id => let out := put_u8 out 2 in put_u128 out keyspace_id
  end.

(** [put_write_grant_intent] *)
Definition put_write_grant_intent out (intent : WriteGrantIntent) : T :=
  match intent with
  | IntentBlockWrite device_id range fence shard_id old_root =>
    let out := put_u8 out 1 in
    let out := put_u128 out device_id in
    let out := put_u64 out (bk_start range) in
    let out := put_u64 out (bk_blocks range) in
    let out := put_u64 out fence in
    let out := put_u64 out shard_id in
    put_u128 out old_root
  | IntentNativeWrite keyspace_id file_id range base_version =>
    let out := put_u8 out 2 in
    let out := put_u128 out keyspace_id in
    let out := put_u128 out file_id in
    let out := put_u64 out (br_offset range) in
    let out := put_u64 out (br_len range) in
    put_u64 out base_version
  | IntentNativeAppendStream keyspace_id file_id stream_id ticket_id append_offset bytes
      writer_epoch =>
    let out := put_u8 out 3 in
    let out := put_u128 out keyspace_id in
    let out := put_u128 out file_id in
    let out := put_u128 out stream_id in
    let out := put_u128 out ticket_id in
    let out := put_u64 out append_offset in
    let out := put_u64 out bytes in
    put_u64 out writer_epoch
  | IntentInternal owner =>
    let out := put_u8 out 4 in put_mapping_owner out owner
  end.

(** [put_write_durability] *)
Definition put_write_durability out (durability : WriteDurability) : T :=
  match durability with Acknowledged => put_u8 out 1 | Flushed => put_u8 out 2 end.

(** [put_payload_integrity] *)
Definition put_payload_integrity out (integrity : PayloadIntegrity) : T :=
  match integrity with Verified => put_u8 out 1 | Unchecked => put_u8 out 2 end.

(** [put_segment_payload_integrity] *)
Definition put_segment_payload_integrity out (integrity : SegmentPayloadIntegrity) : T :=
  match integrity with
  | Crc32c checksum => let out := put_u8 out 1 in put_u64 out checksum
  | SpUnchecked => put_u8 out 2
  end.

(** [put_proof_scheme] *)
Definition put_proof_scheme out (scheme : ProofScheme) : T :=
  match scheme with DeterministicTestMacV1 => put_u8 out 1 | NodeSignatureV1 => put_u8 out 2 end.

(** [put_segment_receipt_lifecycle] *)
Definition put_segment_receipt_lifecycle out (lifecycle : SegmentReceiptLifecycle) : T :=
  match lifecycle with RlDurablePendingMetadata => put_u8 out 1 end.

(** [put_segment_descriptor] *)
Definition put_segment_descriptor out (descriptor : SegmentDescriptor) : T :=
  let out := put_u128 out (sd_segment_id descriptor) in
  let out := put_u64 out (sd_blocks descriptor) in
  let out := put_u64 out (sd_bytes descriptor) in
  put_segment_payload_integrity out (sd_integrity descriptor).

(** [put_segment_replica_placement] *)
Definition put_segment_replica_placement out (placement : SegmentReplicaPlacement) : T :=
  let out := put_u128 out (pl_segment_id placement) in
  let out := put_u128 out (pl_storage_node placement) in
  let out := put_u64 out (pl_offset placement) in
  put_u64 out (pl_bytes placement).

(** [WriteGrant::write_canonical] *)
Definition WriteGrant_write_canonical (self : WriteGrant) out : T :=
  let out := put_bytes out (ascii_bytes "TCOW_WRITE_GRANT_V1") in
  let out := put_u128 out (wg_tenant self) in
  let out := put_u128 out (wg_principal self) in
  let out := put_u128 out (wg_grant_id self) in
  let out := put_u128 out (wg_nonce self) in
  let out := put_u64 out (wg_grant_epoch self) in
  let out := put_u64 out (wg_expires_at self) in
  let out := put_mapping_owner out (wg_owner self) in
  let out := put_write_grant_intent out (wg_intent self) in
  let out := put_u128 out (wg_write_intent self) in
  let out := put_u128 out (wg_segment_id self) in
  let out := put_u128 out (wg_storage_node self) in
  let out := put_u64 out (wg_max_bytes self) in
  let out := put_payload_integrity out (wg_payload_integrity self) in
  let out := put_write_durability out (wg_durability self) in
  let out := put_u128 out (wg_key_id self) in
  put_proof_scheme out (wg_proof_scheme self).

(** [SegmentWriteReceipt::write_canonical] *)
Definition SegmentWriteReceipt_write_canonical (self : SegmentWriteReceipt) out : T :=
  let out := put_bytes out (ascii_bytes "TCOW_SEGMENT_RECEIPT_V1") in
  let out := put_u128 out (sr_tenant self) in
  let out := put_u128 out (sr_grant_id self) in
  let out := put_bytes out (sr_grant_hash self) in
  let out := put_u128 out (sr_principal self) in
  let out := put_mapping_owner out (sr_owner self) in
  let out := put_u128 out (sr_storage_node self) in
  let out := put_u64 out (sr_storage_node_incarnation self) in
  let out := put_u128 out (sr_segment_id self) in
  let out := put_u128 out (sr_write_intent self) in
  let out := put_write_grant_intent out (sr_intent self) in
  let out := put_u64 out (sr_bytes self) in
  let out := put_segment_payload_integrity out (sr_integrity self) in
  let out := put_write_durability out (sr_durability self) in
  let out := put_segment_receipt_lifecycle out (sr_lifecycle self) in
  let out := put_u64 out (sr_receipt_epoch self) in
  let out := put_u64 out (sr_expires_at self) in
  let out := put_u128 out (sr_node_key_id self) in
  let out := put_proof_scheme out (sr_proof_scheme self) in
  let out := put_segment_descriptor out (sr_descriptor self) in
  put_segment_replica_placement out (sr_placement self).

(** [ReferenceEvidence::write_canonical] *)
Definition ReferenceEvidence_write_canonical (self : ReferenceEvidence) out : T :=
  let out := put_bytes out (ascii_bytes "TCOW_REFERENCE_EVIDENCE_V1") in
  let out := put_u128 out (ev_tenant self) in
  let out := put_u128 out (ev_principal self) in
  let out := put_mapping_owner out (ev_owner self) in
  let out := put_u128 out (ev_grant_id self) in
  let out := put_u128 out (ev_segment_id self) in
  let out := put_u128 out (ev_storage_node self) in
  let out := put_u64 out (ev_metadata_commit self) in
  let out := put_u64 out (ev_receipt_epoch self) in
  let out := put_u128 out (ev_node_key_id self) in
  put_proof_scheme out (ev_proof_scheme self).
End encoders.

(** [canonical_body] of the three objects. *)
Definition WriteGrant_canonical_body (self : WriteGrant) : list Z :=
  WriteGrant_write_canonical self [].
Definition SegmentWriteReceipt_canonical_body (self : SegmentWriteReceipt) : list Z :=
  SegmentWriteReceipt_write_canonical self [].
Definition ReferenceEvidence_canonical_body (self : ReferenceEvidence) : list Z :=
  ReferenceEvidence_write_canonical self [].

(** ** The deterministic test hash *)

Record StableHash32 := mkStableHash32 {
  h_lanes : list Z;
  h_index : Z;
}.

(** [StableHash32::new] *)
Definition StableHash32_new : StableHash32 :=
  mkStableHash32
    [0x243f6a8885a308d3; 0x13198a2e03707344; 0xa4093822299f31d0; 0x082efa98ec4e6c89] 0.

Definition rotate_left64 (x k : Z) : Z :=
  Z.lor (Z.shiftl x k mod U64_MOD) (Z.shiftr x (64 - k)).
Definition rotate_right64 (x k : Z) : Z :=
  Z.lor (Z.shiftr x k) (Z.shiftl x (64 - k) mod U64_MOD).

(** The body of the loop of [StableHash32::update]. *)
Definition hash_byte (self : StableHash32) (byte : Z) : StableHash32 :=
  let lane := Z.to_nat (h_index self mod 4) in
  let v := Z.lxor (nth lane (h_lanes self) 0) (Z.shiftl byte ((h_index self mod 8) * 8)) in
  let v := wmul64 (rotate_left64 v (7 + Z.of_nat lane * 5)) 0x9e3779b185ebca87 in
  let lanes := <[lane := v]> (h_lanes self) in
  let next := Nat.modulo (lane + 1) 4 in
  let lanes := <[next := Z.lxor (nth next lanes 0) (rotate_right64 v 11)]> lanes in
  mkStableHash32 lanes (saturating_add U64_MOD (h_index self) 1).

(** [StableHash32::update] *)
Definition StableHash32_update (self : StableHash32) (bytes : list Z) : StableHash32 :=
  fold_left hash_byte bytes self.

(** [StableHash32::finish] *)
Definition StableHash32_finish (self : StableHash32) : ProofTag :=
  concat (be_bytes 8 <$> h_lanes self).

#[export] Instance hash_sink : CanonicalSink StableHash32 := StableHash32_update.

(** [BodyAndProofHash32]: one pass feeds both hashes. *)
#[export] Instance body_and_proof_sink : CanonicalSink (StableHash32 * StableHash32) :=
  fun out bytes => (StableHash32_update out.1 bytes, StableHash32_update out.2 bytes).

(** [WriteGrant::hash] *)
Definition WriteGrant_hash (self : WriteGrant) : GrantHash :=
  StableHash32_finish (WriteGrant_write_canonical self StableHash32_new).

(** [deterministic_test_proof_for_canonical] *)
Definition deterministic_test_proof_for_canonical (key_id : StorageNodeKeyId)
    (write_body : StableHash32 -> StableHash32) : ProofTag :=
  StableHash32_finish (write_body (StableHash32_update StableHash32_new (be_bytes 16 key_id))).

(** [deterministic_test_proof_for_grant] *)
Definition deterministic_test_proof_for_grant (key_id : StorageNodeKeyId) (grant : WriteGrant)
    : ProofTag :=
  deterministic_test_proof_for_canonical key_id (WriteGrant_write_canonical grant).

(** [deterministic_test_grant_hash_and_proof] *)
Definition deterministic_test_grant_hash_and_proof (key_id : StorageNodeKeyId)
    (grant : WriteGrant) : GrantHash * ProofTag :=
  let hash := StableHash32_new in
  let proof := StableHash32_update StableHash32_new (be_bytes 16 key_id) in
  let '(hash, proof) := WriteGrant_write_canonical grant (hash, proof) in
  (StableHash32_finish hash, StableHash32_finish proof).

(** [deterministic_test_proof_for_receipt] *)
Definition deterministic_test_proof_for_receipt (key_id : StorageNodeKeyId)
    (receipt : SegmentWriteReceipt) : ProofTag :=
  deterministic_test_proof_for_canonical key_id (SegmentWriteReceipt_write_canonical receipt).

(** [deterministic_test_proof_for_reference] *)
Definition deterministic_test_proof_for_reference (key_id : StorageNodeKeyId)
    (evidence : ReferenceEvidence) : ProofTag :=
  deterministic_test_proof_for_canonical key_id (ReferenceEvidence_write_canonical evidence).

(** ** Streaming and batch encoding agree *)

Class SinkLaws (T : Type) `{CanonicalSink T} := {
  sink_append_nil : forall out : T, sink_append out [] = out;
  sink_append_app : forall (out : T) a b,
    sink_append (sink_append out a) b = sink_append out (a ++ b);
}.

#[export] Instance vec_sink_laws : SinkLaws (list Z).
Proof.
  split; unfold sink_append, vec_sink; intros; [apply app_nil_r|by rewrite app_assoc].
Qed.
#[export] Instance hash_sink_laws : SinkLaws StableHash32.
Proof.
  split; unfold sink_append, hash_sink, StableHash32_update; intros; [done|].
  by rewrite fold_left_app.
Qed.
#[export] Instance body_and_proof_sink_laws : SinkLaws (StableHash32 * StableHash32).
Proof.
  split.
  - by intros [? ?].
  - intros [? ?] a b. unfold sink_append, body_and_proof_sink, StableHash32_update. cbn.
    by rewrite !fold_left_app.
Qed.

(** [canon_bytes] computes the byte string an encoder appends. *)
Ltac canon_bytes :=
  unfold put_segment_replica_placement, put_segment_descriptor, put_segment_receipt_lifecycle,
    put_proof_scheme, put_segment_payload_integrity, put_payload_integrity, put_write_durability,
    put_write_grant_intent, put_mapping_owner, put_bytes, put_u128, put_u64, put_u8 in *.

(** The byte strings of the variable-shape fields. *)
Definition enc_owner (o : MappingOwner) : list Z := put_mapping_owner [] o.
Definition enc_intent (i : WriteGrantIntent) : list Z := put_write_grant_intent [] i.
Definition enc_integrity (i : SegmentPayloadIntegrity) : list Z := put_segment_payload_integrity [] i.
Definition enc_bytes (b : list Z) : list Z := put_bytes [] b.
Definition enc_durability (d : WriteDurability) : list Z := put_write_durability [] d.
Definition enc_payload (p : PayloadIntegrity) : list Z := put_payload_integrity [] p.
Definition enc_scheme (p : ProofScheme) : list Z := put_proof_scheme [] p.
Definition enc_lifecycle (l : SegmentReceiptLifecycle) : list Z := put_segment_receipt_lifecycle [] l.

Lemma vec_append (l bytes : list Z) : sink_append l bytes = l ++ bytes.
Proof. done. Qed.

Section streaming.
Context {T : Type} `{SinkLaws T}.
Implicit Types out : T.

Lemma put_u64_app out v : put_u64 out v = sink_append out (be_bytes 8 v).
Proof using Type. done. Qed.
Lemma put_u128_app out v : put_u128 out v = sink_append out (be_bytes 16 v).
Proof using Type. done. Qed.
Lemma put_mapping_owner_app out o : put_mapping_owner out o = sink_append out (enc_owner o).
Proof using All.
  unfold enc_owner. destruct o; canon_bytes; by rewrite sink_append_app, !vec_append.
Qed.
Lemma put_write_grant_intent_app out i :
  put_write_grant_intent out i = sink_append out (enc_intent i).
Proof using All.
  unfold enc_intent. destruct i as [| | |o]; [| | |destruct o]; canon_bytes;
    rewrite !sink_append_app, !vec_append; by rewrite <-?app_assoc.
Qed.
Lemma put_segment_payload_integrity_app out i :
  put_segment_payload_integrity out i = sink_append out (enc_integrity i).
Proof using All.
  unfold enc_integrity. destruct i; canon_bytes; by rewrite ?sink_append_app, ?vec_append.
Qed.
Lemma put_bytes_app out b : put_bytes out b = sink_append out (enc_bytes b).
Proof using All. unfold enc_bytes. canon_bytes. by rewrite !sink_append_app, !vec_append. Qed.
Lemma put_write_durability_app out d :
  put_write_durability out d = sink_append out (enc_durability d).
Proof using Type. by destruct d. Qed.
Lemma put_payload_integrity_app out p :
  put_payload_integrity out p = sink_append out (enc_payload p).
Proof using Type. by destruct p. Qed.
Lemma put_proof_scheme_app out p : put_proof_scheme out p = sink_append out (enc_scheme p).
Proof using Type. by destruct p. Qed.
Lemma put_segment_receipt_lifecycle_app out l :
  put_segment_receipt_lifecycle out l = sink_append out (enc_lifecycle l).
Proof using Type. by destruct l. Qed.
End streaming.

(** A canonical body as the concatenation of its fields. *)
Definition grant_fields (g : WriteGrant) : list (list Z) :=
  [enc_bytes (ascii_bytes "TCOW_WRITE_GRANT_V1"); be_bytes 16 (wg_tenant g);
   be_bytes 16 (wg_principal g); be_bytes 16 (wg_grant_id g); be_bytes 16 (wg_nonce g);
   be_bytes 8 (wg_grant_epoch g); be_bytes 8 (wg_expires_at g);
   enc_owner (wg_owner g); enc_intent (wg_intent g);
   be_bytes 16 (wg_write_intent g); be_bytes 16 (wg_segment_id g);
   be_bytes 16 (wg_storage_node g); be_bytes 8 (wg_max_bytes g);
   enc_payload (wg_payload_integrity g); enc_durability (wg_durability g);
   be_bytes 16 (wg_key_id g); enc_scheme (wg_proof_scheme g)].

Definition receipt_fields (r : SegmentWriteReceipt) : list (list Z) :=
  [enc_bytes (ascii_bytes "TCOW_SEGMENT_RECEIPT_V1"); be_bytes 16 (sr_tenant r);
   be_bytes 16 (sr_grant_id r); enc_bytes (sr_grant_hash r); be_bytes 16 (sr_principal r);
   enc_owner (sr_owner r); be_bytes 16 (sr_storage_node r);
   be_bytes 8 (sr_storage_node_incarnation r); be_bytes 16 (sr_segment_id r);
   be_bytes 16 (sr_write_intent r); enc_intent (sr_intent r);
   be_bytes 8 (sr_bytes r); enc_integrity (sr_integrity r);
   enc_durability (sr_durability r); enc_lifecycle (sr_lifecycle r);
   be_bytes 8 (sr_receipt_epoch r); be_bytes 8 (sr_expires_at r); be_bytes 16 (sr_node_key_id r);
   enc_scheme (sr_proof_scheme r);
   be_bytes 16 (sd_segment_id (sr_descriptor r)); be_bytes 8 (sd_blocks (sr_descriptor r));
   be_bytes 8 (sd_bytes (sr_descriptor r));
   enc_integrity (sd_integrity (sr_descriptor r));
   be_bytes 16 (pl_segment_id (sr_placement r)); be_bytes 16 (pl_storage_node (sr_placement r));
   be_bytes 8 (pl_offset (sr_placement r)); be_bytes 8 (pl_bytes (sr_placement r))].

Lemma sink_concat `{SinkLaws T} (out : T) fields :
  sink_append out (concat fields) = fold_left sink_append fields out.
Proof.
  revert out. induction fields as [|f fields IH]; intros out; cbn.
  - apply sink_append_nil.
  - by rewrite <-IH, sink_append_app.
Qed.

Lemma grant_canonical_fields `{SinkLaws T} g (out : T) :
  WriteGrant_write_canonical g out = sink_append out (concat (grant_fields g)).
Proof.
  rewrite sink_concat. unfold WriteGrant_write_canonical. cbn [grant_fields fold_left].
  by rewrite put_bytes_app, put_mapping_owner_app, put_write_grant_intent_app,
    put_payload_integrity_app, put_write_durability_app, put_proof_scheme_app, !put_u64_app,
    !put_u128_app.
Qed.

Lemma receipt_canonical_fields `{SinkLaws T} r (out : T) :
  SegmentWriteReceipt_write_canonical r out = sink_append out (concat (receipt_fields r)).
Proof.
  rewrite sink_concat. unfold SegmentWriteReceipt_write_canonical, put_segment_descriptor,
    put_segment_replica_placement. cbn [receipt_fields fold_left].
  by rewrite !put_bytes_app, put_mapping_owner_app, put_write_grant_intent_app,
    !put_segment_payload_integrity_app, put_write_durability_app,
    put_segment_receipt_lifecycle_app, put_proof_scheme_app, !put_u64_app, !put_u128_app.
Qed.

Lemma grant_body_fields g : WriteGrant_canonical_body g = concat (grant_fields g).
Proof. unfold WriteGrant_canonical_body. by rewrite grant_canonical_fields. Qed.
Lemma receipt_body_fields r : SegmentWriteReceipt_canonical_body r = concat (receipt_fields r).
Proof. unfold SegmentWriteReceipt_canonical_body. by rewrite receipt_canonical_fields. Qed.

(** The one-pass computation of the grant hash and proof gives the hash of
    the canonical body and the proof of the canonical body under the key, the
    same values as the two separate computations. *)
Lemma hash_and_proof_one_pass key g :
  deterministic_test_grant_hash_and_proof key g =
    (WriteGrant_hash g, deterministic_test_proof_for_grant key g) /\
  WriteGrant_hash g =
    StableHash32_finish (StableHash32_update StableHash32_new (WriteGrant_canonical_body g)) /\
  deterministic_test_proof_for_grant key g =
    StableHash32_finish (StableHash32_update
      (StableHash32_update StableHash32_new (be_bytes 16 key)) (WriteGrant_canonical_body g)).
Proof.
  unfold deterministic_test_grant_hash_and_proof, WriteGrant_hash,
    deterministic_test_proof_for_grant, deterministic_test_proof_for_canonical.
  rewrite !grant_canonical_fields, grant_body_fields. done.
Qed.

(** ** The canonical encoding is injective *)


(** An encoder whose output determines the value and where it ends. *)
Definition prefix_inj {A} (P : A -> Prop) (enc : A -> list Z) : Prop :=
  forall a b r r', P a -> P b -> enc a ++ r = enc b ++ r' -> a = b /\ r = r'.

Lemma be_bytes_length n v : length (be_bytes n v) = n.
Proof. induction n; cbn [be_bytes length]; [done|]. by rewrite IHn. Qed.

Lemma be_bytes_inj n v v' :
  be_bytes n v = be_bytes n v' -> v mod 256 ^ Z.of_nat n = v' mod 256 ^ Z.of_nat n.
Proof.
  induction n as [|n IH]; cbn [be_bytes]; intros H; [by rewrite !Z.mod_1_r|].
  injection H as H1 H2. apply IH in H2.
  rewrite Nat2Z.inj_succ, Z.pow_succ_r by lia. set (m := 256 ^ Z.of_nat n) in *.
  assert (0 < m) by (apply Z.pow_pos_nonneg; lia).
  rewrite (Z.mul_comm 256 m), !Z.rem_mul_r by lia. by rewrite H1, H2.
Qed.

Lemma be_bytes_prefix_inj n :
  prefix_inj (fun v => 0 <= v < 256 ^ Z.of_nat n) (be_bytes n).
Proof.
  intros a b r r' Ha Hb H. apply app_inj_1 in H as [H ->]; [|by rewrite !be_bytes_length].
  split; [|done]. apply be_bytes_inj in H. by rewrite !Z.mod_small in H.
Qed.

Lemma u64_prefix_inj : prefix_inj in_u64 (be_bytes 8).
Proof. intros a b r r' Ha Hb. by apply be_bytes_prefix_inj. Qed.
Lemma u128_prefix_inj : prefix_inj in_u128 (be_bytes 16).
Proof. intros a b r r' Ha Hb. by apply be_bytes_prefix_inj. Qed.

#[local] Arguments be_bytes : simpl never.
#[local] Arguments enc_bytes : simpl never.
#[local] Arguments ascii_bytes : simpl never.

Definition wf_owner (o : MappingOwner) : Prop :=
  match o with OwnBlockDevice d => in_u128 d | OwnNativeKeyspace k => in_u128 k end.

Definition wf_intent (i : WriteGrantIntent) : Prop :=
  match i with
  | IntentBlockWrite d range fence shard root =>
    in_u128 d /\ in_u64 (bk_start range) /\ in_u64 (bk_blocks range) /\ in_u64 fence /\
    in_u32 shard /\ in_u128 root
  | IntentNativeWrite k f range v =>
    in_u128 k /\ in_u128 f /\ in_u64 (br_offset range) /\ in_u64 (br_len range) /\ in_u64 v
  | IntentNativeAppendStream k f s t o n e =>
    in_u128 k /\ in_u128 f /\ in_u128 s /\ in_u128 t /\ in_u64 o /\ in_u64 n /\ in_u64 e
  | IntentInternal o => wf_owner o
  end.

(** [peel H]: split an equation between two encodings at their first field. *)
Ltac peel H :=
  first
  [ apply (be_bytes_prefix_inj 8) in H as [? H];
    [|first [done|u64_unfold; cbn; lia]..]
  | apply (be_bytes_prefix_inj 16) in H as [? H];
    [|first [done|u64_unfold; cbn; lia]..] ].

Lemma cons_inj {A} (x y : A) l l' : x :: l = y :: l' -> x = y /\ l = l'.
Proof. by intros [= -> ->]. Qed.

Lemma owner_prefix_inj : prefix_inj wf_owner enc_owner.
Proof.
  intros a b r r' Ha Hb H. unfold enc_owner in H.
  destruct a, b; canon_bytes; rewrite !vec_append in H; cbn [app] in H;
    apply cons_inj in H as [Htag H]; try discriminate Htag;
    cbn in Ha, Hb; apply u128_prefix_inj in H as [-> ->]; done.
Qed.

Lemma intent_prefix_inj : prefix_inj wf_intent enc_intent.
Proof.
  intros a b r r' Ha Hb H. unfold enc_intent in H.
  destruct a as [d [s n] f sh o|k f [s n] v|k f s t o n e|ow],
    b as [d' [s' n'] f' sh' o'|k' f' [s' n'] v'|k' f' s' t' o' n' e'|ow'];
    cbn [put_write_grant_intent] in H; rewrite ?put_mapping_owner_app in H;
    unfold put_u8, put_u64, put_u128 in H; rewrite !vec_append in H; cbn [app] in H;
    rewrite <-?app_assoc in H; cbn [app] in H;
    apply cons_inj in H as [Htag H]; try discriminate Htag; cbn in Ha, Hb; destruct_and?.
  4:{ apply owner_prefix_inj in H as [-> ->]; done. }
  all: repeat peel H; cbn in *; split; [congruence|done].
Qed.

Lemma small_prefix_inj :
  prefix_inj (fun _ => True) enc_durability /\ prefix_inj (fun _ => True) enc_payload /\
  prefix_inj (fun _ => True) enc_scheme /\ prefix_inj (fun _ => True) enc_lifecycle.
Proof.
  split_and!; intros [] [] r r' _ _ H; cbn in H; injection H as H; try discriminate H; by subst.
Qed.

Definition wf_integrity (i : SegmentPayloadIntegrity) : Prop :=
  match i with Crc32c c => in_u64 c | SpUnchecked => True end.

Lemma integrity_prefix_inj : prefix_inj wf_integrity enc_integrity.
Proof.
  intros a b r r' Ha Hb H. unfold enc_integrity in H.
  destruct a, b; canon_bytes; rewrite !vec_append in H; cbn [app] in H;
    apply cons_inj in H as [Htag H]; try discriminate Htag; [|by subst].
  cbn in Ha, Hb. apply u64_prefix_inj in H as [-> ->]; done.
Qed.

Lemma bytes_prefix_inj : prefix_inj (fun b : list Z => Z.of_nat (length b) < U64_MOD) enc_bytes.
Proof.
  intros a b r r' Ha Hb H. unfold enc_bytes in H. canon_bytes. rewrite !vec_append in H.
  cbn [app] in H. rewrite <-!app_assoc in H. rewrite !Z.mod_small in H by lia.
  apply u64_prefix_inj in H as [Hl H]; [|u64_unfold; lia..].
  apply app_inj_1 in H as [-> ->]; [done|lia].
Qed.

(** The fields of a grant are integers of their width. *)
Definition wf_grant (g : WriteGrant) : Prop :=
  in_u128 (wg_tenant g) /\ in_u128 (wg_principal g) /\ in_u128 (wg_grant_id g) /\
  in_u128 (wg_nonce g) /\ in_u64 (wg_grant_epoch g) /\ in_u64 (wg_expires_at g) /\
  wf_owner (wg_owner g) /\ wf_intent (wg_intent g) /\ in_u128 (wg_write_intent g) /\
  in_u128 (wg_segment_id g) /\ in_u128 (wg_storage_node g) /\ in_u64 (wg_max_bytes g) /\
  in_u128 (wg_key_id g).

Definition grant_sans_proof (g : WriteGrant) : WriteGrant :=
  mkWriteGrant (wg_tenant g) (wg_principal g) (wg_grant_id g) (wg_nonce g) (wg_grant_epoch g)
    (wg_expires_at g) (wg_owner g) (wg_intent g) (wg_write_intent g) (wg_segment_id g)
    (wg_storage_node g) (wg_max_bytes g) (wg_payload_integrity g) (wg_durability g)
    (wg_key_id g) (wg_proof_scheme g) ProofTag_ZERO.

(** [peel_with L H]: the same with the injectivity lemma [L]. *)
Ltac peel_with L H := apply L in H as [? H]; [|done|done].

(** C38: two grants have the same canonical body only if they agree on every
    field except the proof, so the grant hash and proof are computed from the
    whole authorization. *)
Theorem grant_canonical_body_inj g g' :
  wf_grant g -> wf_grant g' ->
  WriteGrant_canonical_body g = WriteGrant_canonical_body g' ->
  grant_sans_proof g = grant_sans_proof g'.
Proof.
  intros Hg Hg' H. rewrite !grant_body_fields in H. unfold grant_fields in H. cbn [concat] in H.
  destruct small_prefix_inj as (Hdur & Hpay & Hsch & _).
  destruct Hg as (? & ? & ? & ? & ? & ? & ? & ? & ? & ? & ? & ? & ?).
  destruct Hg' as (? & ? & ? & ? & ? & ? & ? & ? & ? & ? & ? & ? & ?).
  peel_with bytes_prefix_inj H.
  do 4 peel_with u128_prefix_inj H. do 2 peel_with u64_prefix_inj H.
  peel_with owner_prefix_inj H. peel_with intent_prefix_inj H.
  do 3 peel_with u128_prefix_inj H. peel_with u64_prefix_inj H.
  peel_with Hpay H. peel_with Hdur H. peel_with u128_prefix_inj H. peel_with Hsch H.
  unfold grant_sans_proof. f_equal; done.
Qed.

(** The fields of a receipt are integers of their width and the grant hash has
    32 bytes. *)
Definition wf_receipt (r : SegmentWriteReceipt) : Prop :=
  in_u128 (sr_tenant r) /\ in_u128 (sr_grant_id r) /\ length (sr_grant_hash r) = 32%nat /\
  in_u128 (sr_principal r) /\ wf_owner (sr_owner r) /\ in_u128 (sr_storage_node r) /\
  in_u64 (sr_storage_node_incarnation r) /\ in_u128 (sr_segment_id r) /\
  in_u128 (sr_write_intent r) /\ wf_intent (sr_intent r) /\ in_u64 (sr_bytes r) /\
  wf_integrity (sr_integrity r) /\ in_u64 (sr_receipt_epoch r) /\ in_u64 (sr_expires_at r) /\
  in_u128 (sr_node_key_id r) /\ in_u128 (sd_segment_id (sr_descriptor r)) /\
  in_u64 (sd_blocks (sr_descriptor r)) /\ in_u64 (sd_bytes (sr_descriptor r)) /\
  wf_integrity (sd_integrity (sr_descriptor r)) /\ in_u128 (pl_segment_id (sr_placement r)) /\
  in_u128 (pl_storage_node (sr_placement r)) /\ in_u64 (pl_offset (sr_placement r)) /\
  in_u64 (pl_bytes (sr_placement r)).

Definition set_sr_proof (r : SegmentWriteReceipt) (proof : ProofTag) : SegmentWriteReceipt :=
  mkSegmentWriteReceipt (sr_tenant r) (sr_grant_id r) (sr_grant_hash r) (sr_principal r)
    (sr_owner r) (sr_storage_node r) (sr_storage_node_incarnation r) (sr_segment_id r)
    (sr_write_intent r) (sr_intent r) (sr_bytes r) (sr_integrity r) (sr_durability r)
    (sr_lifecycle r) (sr_receipt_epoch r) (sr_expires_at r) (sr_node_key_id r)
    (sr_proof_scheme r) proof (sr_descriptor r) (sr_placement r).

(** The canonical body of a receipt determines every field but the proof,
    including the descriptor and the placement it certifies. *)
Lemma receipt_canonical_body_inj r r' :
  wf_receipt r -> wf_receipt r' ->
  SegmentWriteReceipt_canonical_body r = SegmentWriteReceipt_canonical_body r' ->
  set_sr_proof r ProofTag_ZERO = set_sr_proof r' ProofTag_ZERO.
Proof.
  intros Hr Hr' H. rewrite !receipt_body_fields in H. unfold receipt_fields in H. cbn [concat] in H.
  destruct small_prefix_inj as (Hdur & Hpay & Hsch & Hlif).
  unfold wf_receipt in Hr, Hr'. destruct_and!.
  destruct (sr_descriptor r) as [a1 a2 a3 a4] eqn:E1, (sr_descriptor r') as [b1 b2 b3 b4] eqn:E2.
  destruct (sr_placement r) as [c1 c2 c3 c4] eqn:E3, (sr_placement r') as [d1 d2 d3 d4] eqn:E4.
  cbn [sd_segment_id sd_blocks sd_bytes sd_integrity pl_segment_id pl_storage_node pl_offset pl_bytes] in *.
  peel_with bytes_prefix_inj H. do 2 peel_with u128_prefix_inj H.
  apply bytes_prefix_inj in H as [? H]; [|u64_unfold; lia..].
  peel_with u128_prefix_inj H. peel_with owner_prefix_inj H. peel_with u128_prefix_inj H.
  peel_with u64_prefix_inj H. do 2 peel_with u128_prefix_inj H. peel_with intent_prefix_inj H.
  peel_with u64_prefix_inj H. peel_with integrity_prefix_inj H. peel_with Hdur H.
  peel_with Hlif H. do 2 peel_with u64_prefix_inj H. peel_with u128_prefix_inj H.
  peel_with Hsch H. peel_with u128_prefix_inj H. do 2 peel_with u64_prefix_inj H.
  peel_with integrity_prefix_inj H. do 2 peel_with u128_prefix_inj H.
  do 2 peel_with u64_prefix_inj H. unfold set_sr_proof. f_equal; try done.
  all: rewrite ?E1, ?E2, ?E3, ?E4; f_equal; done.
Qed.

(** A concrete grant and receipt. *)
Definition demo_grant (bytes : Z) : WriteGrant :=
  mkWriteGrant 1 1 9 3 1 7 (OwnBlockDevice 1) (IntentBlockWrite 1 (mkBlockRange 0 1) 0 0 1) 5 9 1
    bytes Verified Acknowledged 1 DeterministicTestMacV1 ProofTag_ZERO.
Lemma demo_grant_wf : wf_grant (demo_grant 4096).
Proof. unfold wf_grant, demo_grant. cbn. u64_unfold. split_and!; lia. Qed.

Lemma grant_canonical_body_inj_witness :
  grant_sans_proof (demo_grant 4096) = grant_sans_proof (demo_grant (64 * 64)).
Proof. apply grant_canonical_body_inj; [apply demo_grant_wf|apply demo_grant_wf|reflexivity]. Defined.
