(* ===== verification/Authority.v ===== *)
(** * The local grant and receipt authority ([local/proof.rs])

    Issues write grants, turns a verified write into a receipt, checks grants,
    receipts and reference evidence. *)

From S2P Require Import Prelude Api Object Provider.

(** [LOCAL_GRANT_EPOCH] and [LOCAL_GRANT_EXPIRATION] of [local/mod.rs]. *)
Definition LOCAL_GRANT_EPOCH : GrantEpoch := 1.
Definition LOCAL_GRANT_EXPIRATION : LogicalDeadline := U64_MAX.

Definition rotate_left128 (x k : Z) : Z :=
  Z.lor (Z.shiftl x k mod U128_MOD) (Z.shiftr x (128 - k)).

(** [LocalGrantReceiptAuthority::node_key_id] *)
Definition node_key_id (storage_node : StorageNodeId) : StorageNodeKeyId := storage_node.

(** [LocalGrantReceiptAuthority::grant_id] *)
Definition grant_id_of (segment_id : SegmentId) : GrantId := segment_id.

(** [LocalGrantReceiptAuthority::nonce] *)
Definition grant_nonce (segment_id : SegmentId) (write_intent : WriteIntentId) : GrantNonce :=
  Z.lxor segment_id (rotate_left128 write_intent 17).

(** [verify_expected_proof] *)
Definition verify_expected_proof (expected proof : ProofTag) : Result unit :=
  reject_if (negb (bool_decide (proof = expected))) (Conflict "proof verification failed").

(** [verify_grant_proof_and_hash] *)
Definition verify_grant_proof_and_hash (grant : WriteGrant) : Result GrantHash :=
  let '(hash, expected_proof) := deterministic_test_grant_hash_and_proof (wg_key_id grant) grant in
  verify_expected_proof expected_proof (wg_proof grant);;
  Ok hash.

(** [verify_receipt_proof] *)
Definition verify_receipt_proof (receipt : SegmentWriteReceipt) : Result unit :=
  verify_expected_proof (deterministic_test_proof_for_receipt (sr_node_key_id receipt) receipt)
    (sr_proof receipt).

(** [verify_reference_proof] *)
Definition verify_reference_proof (evidence : ReferenceEvidence) : Result unit :=
  verify_expected_proof (deterministic_test_proof_for_reference (ev_node_key_id evidence) evidence)
    (ev_proof evidence).

(** [verify_not_expired] *)
Definition verify_not_expired (expires_at : LogicalDeadline) : Result unit :=
  reject_if (expires_at <? LOCAL_GRANT_EPOCH) (Unavailable "write grant expired").

(** [verify_write_grant_and_hash] *)
Definition verify_write_grant_and_hash (grant : WriteGrant) (storage_node : StorageNodeId)
    (segment_id : SegmentId) (bytes : Z) : Result GrantHash :=
  verify_not_expired (wg_expires_at grant);;
  reject_if (negb (wg_grant_epoch grant =? LOCAL_GRANT_EPOCH))
    (Conflict "write grant epoch does not match verifier epoch");;
  reject_if (negb (bool_decide (wg_owner grant = WriteGrantIntent_owner (wg_intent grant))))
    (Conflict "write grant owner does not match intent");;
  reject_if (wg_max_bytes grant =? 0)
    (InvalidArgument "write grant must authorize at least one byte");;
  reject_if (negb (bool_decide (wg_proof_scheme grant = DeterministicTestMacV1)))
    (Unsupported "local grant verifier supports only deterministic test proofs");;
  reject_if (negb (wg_key_id grant =? node_key_id (wg_storage_node grant)))
    (Conflict "grant key does not match storage node");;
  grant_hash ← verify_grant_proof_and_hash grant;
  reject_if (negb (wg_storage_node grant =? storage_node))
    (Conflict "write grant storage node does not match request");;
  reject_if (negb (wg_segment_id grant =? segment_id))
    (Conflict "write grant segment ID does not match request");;
  reject_if (negb (bytes =? wg_max_bytes grant))
    (InvalidArgument "write grant byte count does not match granted segment length");;
  Ok grant_hash.

Definition set_wg_proof (g : WriteGrant) (proof : ProofTag) : WriteGrant :=
  mkWriteGrant (wg_tenant g) (wg_principal g) (wg_grant_id g) (wg_nonce g) (wg_grant_epoch g)
    (wg_expires_at g) (wg_owner g) (wg_intent g) (wg_write_intent g) (wg_segment_id g)
    (wg_storage_node g) (wg_max_bytes g) (wg_payload_integrity g) (wg_durability g)
    (wg_key_id g) (wg_proof_scheme g) proof.

(** [issue_write_grant] *)
Definition issue_write_grant (request : WriteGrantRequest) : Result WriteGrant :=
  reject_if (wgr_max_bytes request =? 0)
    (InvalidArgument "write grant must authorize at least one byte");;
  verify_not_expired (wgr_expires_at request);;
  let owner := WriteGrantIntent_owner (wgr_intent request) in
  let key_id := node_key_id (wgr_storage_node request) in
  let grant := mkWriteGrant (wgr_tenant request) (wgr_principal request)
    (grant_id_of (wgr_segment_id request))
    (grant_nonce (wgr_segment_id request) (wgr_write_intent request))
    LOCAL_GRANT_EPOCH (wgr_expires_at request) owner (wgr_intent request)
    (wgr_write_intent request) (wgr_segment_id request) (wgr_storage_node request)
    (wgr_max_bytes request) (wgr_payload_integrity request) (wgr_durability request)
    key_id DeterministicTestMacV1 ProofTag_ZERO in
  Ok (set_wg_proof grant (deterministic_test_proof_for_grant key_id grant)).

(** [verify_write_grant] *)
Definition verify_write_grant (grant : WriteGrant) (storage_node : StorageNodeId)
    (segment_id : SegmentId) (bytes : Z) : Result unit :=
  verify_write_grant_and_hash grant storage_node segment_id bytes;; Ok tt.

(** [create_segment_receipt_after_verified_write] *)
Definition create_segment_receipt_after_verified_write (grant : WriteGrant)
    (grant_hash : GrantHash) (commit : SegmentReplicaCommit)
    (storage_node_incarnation : ServerIncarnation) : Result SegmentWriteReceipt :=
  reject_if (negb (sd_segment_id (rcm_descriptor commit) =? wg_segment_id grant)
             || negb (pl_segment_id (rcm_placement commit) =? wg_segment_id grant))
    (Conflict "receipt commit does not match granted segment");;
  reject_if (negb (sd_bytes (rcm_descriptor commit) =? wg_max_bytes grant)
             || negb (pl_bytes (rcm_placement commit) =? wg_max_bytes grant))
    (Conflict "receipt byte count does not match granted byte count");;
  let receipt := mkSegmentWriteReceipt (wg_tenant grant) (wg_grant_id grant) grant_hash
    (wg_principal grant) (wg_owner grant) (wg_storage_node grant) storage_node_incarnation
    (wg_segment_id grant) (wg_write_intent grant) (wg_intent grant) (wg_max_bytes grant)
    (sd_integrity (rcm_descriptor commit)) (wg_durability grant) RlDurablePendingMetadata
    (wg_grant_epoch grant) (wg_expires_at grant) (node_key_id (wg_storage_node grant))
    DeterministicTestMacV1 ProofTag_ZERO (rcm_descriptor commit) (rcm_placement commit) in
  Ok (set_sr_proof receipt (deterministic_test_proof_for_receipt (sr_node_key_id receipt) receipt)).

(** [create_segment_receipt] *)
Definition create_segment_receipt (grant : WriteGrant) (commit : SegmentReplicaCommit)
    (storage_node_incarnation : ServerIncarnation) : Result SegmentWriteReceipt :=
  grant_hash ← verify_write_grant_and_hash grant (pl_storage_node (rcm_placement commit))
    (sd_segment_id (rcm_descriptor commit)) (sd_bytes (rcm_descriptor commit));
  create_segment_receipt_after_verified_write grant grant_hash commit storage_node_incarnation.

(** [verify_segment_receipt] *)
Definition verify_segment_receipt (receipt : SegmentWriteReceipt) : Result VerifiedSegmentReceipt :=
  let descriptor := sr_descriptor receipt in
  let placement := sr_placement receipt in
  verify_not_expired (sr_expires_at receipt);;
  reject_if (negb (sr_receipt_epoch receipt =? LOCAL_GRANT_EPOCH))
    (Conflict "receipt epoch does not match verifier epoch");;
  reject_if (negb (bool_decide (sr_owner receipt = WriteGrantIntent_owner (sr_intent receipt))))
    (Conflict "receipt owner does not match intent");;
  reject_if (sr_bytes receipt =? 0)
    (InvalidArgument "receipt must describe at least one byte");;
  reject_if (negb (bool_decide (sr_proof_scheme receipt = DeterministicTestMacV1)))
    (Unsupported "local receipt verifier supports only deterministic test proofs");;
  reject_if (negb (sr_node_key_id receipt =? node_key_id (sr_storage_node receipt)))
    (Conflict "receipt key does not match storage node");;
  verify_receipt_proof receipt;;
  reject_if (negb (bool_decide (sr_lifecycle receipt = RlDurablePendingMetadata)))
    (Conflict "receipt is not durable-pending-metadata");;
  reject_if (negb (sr_segment_id receipt =? sd_segment_id descriptor)
             || negb (sr_segment_id receipt =? pl_segment_id placement))
    (Conflict "receipt segment IDs do not match descriptor and placement");;
  reject_if (negb (sr_storage_node receipt =? pl_storage_node placement))
    (Conflict "receipt storage node does not match placement");;
  reject_if (negb (sr_bytes receipt =? sd_bytes descriptor)
             || negb (sr_bytes receipt =? pl_bytes placement))
    (Conflict "receipt byte count does not match descriptor and placement");;
  reject_if (negb (bool_decide (sr_integrity receipt = sd_integrity descriptor)))
    (Conflict "receipt payload integrity does not match descriptor");;
  Ok (mkVerifiedSegmentReceipt receipt descriptor).

(** [verify_receipt_matches_grant] *)
Definition verify_receipt_matches_grant (grant : WriteGrant) (receipt : SegmentWriteReceipt)
    : Result VerifiedSegmentReceipt :=
  grant_hash ← verify_write_grant_and_hash grant (sr_storage_node receipt) (sr_segment_id receipt)
    (sr_bytes receipt);
  verified ← verify_segment_receipt receipt;
  reject_if (negb (sr_grant_id receipt =? wg_grant_id grant)
             || negb (bool_decide (sr_grant_hash receipt = grant_hash))
             || negb (sr_tenant receipt =? wg_tenant grant)
             || negb (sr_principal receipt =? wg_principal grant)
             || negb (bool_decide (sr_owner receipt = wg_owner grant))
             || negb (bool_decide (sr_intent receipt = wg_intent grant))
             || negb (sr_write_intent receipt =? wg_write_intent grant)
             || negb (sr_segment_id receipt =? wg_segment_id grant)
             || negb (sr_storage_node receipt =? wg_storage_node grant)
             || negb (sr_bytes receipt =? wg_max_bytes grant)
             || negb (bool_decide (sr_durability receipt = wg_durability grant))
             || negb (sr_receipt_epoch receipt =? wg_grant_epoch grant)
             || negb (sr_expires_at receipt =? wg_expires_at grant)
             || negb (sr_node_key_id receipt =? wg_key_id grant))
    (Conflict "segment receipt does not match write grant");;
  Ok verified.

Definition set_ev_proof (e : ReferenceEvidence) (proof : ProofTag) : ReferenceEvidence :=
  mkReferenceEvidence (ev_tenant e) (ev_principal e) (ev_owner e) (ev_grant_id e)
    (ev_segment_id e) (ev_storage_node e) (ev_metadata_commit e) (ev_receipt_epoch e)
    (ev_node_key_id e) (ev_proof_scheme e) proof.

(** [create_reference_evidence] *)
Definition create_reference_evidence (receipt : SegmentWriteReceipt) (metadata_commit : CommitSeq)
    : Result ReferenceEvidence :=
  verify_segment_receipt receipt;;
  let evidence := mkReferenceEvidence (sr_tenant receipt) (sr_principal receipt) (sr_owner receipt)
    (sr_grant_id receipt) (sr_segment_id receipt) (sr_storage_node receipt) metadata_commit
    (sr_receipt_epoch receipt) (sr_node_key_id receipt) DeterministicTestMacV1 ProofTag_ZERO in
  Ok (set_ev_proof evidence
        (deterministic_test_proof_for_reference (ev_node_key_id evidence) evidence)).

(** [verify_reference_evidence] *)
Definition verify_reference_evidence (evidence : ReferenceEvidence) (segment_id : SegmentId)
    (storage_node : StorageNodeId) : Result unit :=
  reject_if (negb (bool_decide (ev_proof_scheme evidence = DeterministicTestMacV1)))
    (Unsupported "local reference verifier supports only deterministic test proofs");;
  reject_if (negb (ev_segment_id evidence =? segment_id))
    (Conflict "reference evidence segment ID does not match request");;
  reject_if (negb (ev_storage_node evidence =? storage_node))
    (Conflict "reference evidence storage node does not match request");;
  reject_if (negb (ev_node_key_id evidence =? node_key_id storage_node))
    (Conflict "reference evidence key does not match storage node");;
  verify_reference_proof evidence.

(** ** Properties *)

Lemma grant_proof_of_set g proof key :
  deterministic_test_proof_for_grant key (set_wg_proof g proof) =
  deterministic_test_proof_for_grant key g.
Proof. done. Qed.

Lemma one_pass_pair key g :
  deterministic_test_grant_hash_and_proof key g =
  (WriteGrant_hash g, deterministic_test_proof_for_grant key g).
Proof.
  unfold deterministic_test_grant_hash_and_proof, WriteGrant_hash,
    deterministic_test_proof_for_grant, deterministic_test_proof_for_canonical.
  by rewrite !grant_canonical_fields.
Qed.

Lemma receipt_proof_of_set r proof key :
  deterministic_test_proof_for_receipt key (set_sr_proof r proof) =
  deterministic_test_proof_for_receipt key r.
Proof.
  assert (Hf : receipt_fields (set_sr_proof r proof) = receipt_fields r) by reflexivity.
  unfold deterministic_test_proof_for_receipt, deterministic_test_proof_for_canonical.
  by rewrite !receipt_canonical_fields, Hf.
Qed.

Lemma reference_proof_of_set e proof key :
  deterministic_test_proof_for_reference key (set_ev_proof e proof) =
  deterministic_test_proof_for_reference key e.
Proof.
  unfold deterministic_test_proof_for_reference, ReferenceEvidence_write_canonical, set_ev_proof.
  cbn [ev_tenant ev_principal ev_owner ev_grant_id ev_segment_id ev_storage_node
    ev_metadata_commit ev_receipt_epoch ev_node_key_id ev_proof_scheme]. reflexivity.
Qed.

#[local] Opaque deterministic_test_proof_for_grant deterministic_test_proof_for_receipt
  deterministic_test_proof_for_reference WriteGrant_hash ProofTag_ZERO.

Lemma verify_grant_proof_and_hash_Ok g h :
  verify_grant_proof_and_hash g = Ok h <->
  wg_proof g = deterministic_test_proof_for_grant (wg_key_id g) g /\ h = WriteGrant_hash g.
Proof.
  unfold verify_grant_proof_and_hash, verify_expected_proof. rewrite one_pass_pair. cbn.
  case_bool_decide; cbn; (split; [|intros [? ->]]); try (intros [=]); try congruence.
  - by split; [|symmetry].
Qed.

(** [checks]: evaluate a chain of checks that all pass. *)
Ltac checks :=
  repeat first
  [ rewrite receipt_proof_of_set
  | rewrite bool_decide_true by (first [syn_done|assumption])
  | rewrite Z.eqb_refl
  | progress (cbn [negb orb reject_if mbind Result_bind]) ].

(** What a verified grant is. *)
Definition grant_ok (g : WriteGrant) (node : StorageNodeId) (seg : SegmentId) (bytes : Z) : Prop :=
  LOCAL_GRANT_EPOCH <= wg_expires_at g /\ wg_grant_epoch g = LOCAL_GRANT_EPOCH /\
  wg_owner g = WriteGrantIntent_owner (wg_intent g) /\ wg_max_bytes g <> 0 /\
  wg_proof_scheme g = DeterministicTestMacV1 /\ wg_key_id g = node_key_id (wg_storage_node g) /\
  wg_proof g = deterministic_test_proof_for_grant (wg_key_id g) g /\
  wg_storage_node g = node /\ wg_segment_id g = seg /\ bytes = wg_max_bytes g.

Lemma verify_write_grant_and_hash_Ok g node seg bytes h :
  verify_write_grant_and_hash g node seg bytes = Ok h <->
  grant_ok g node seg bytes /\ h = WriteGrant_hash g.
Proof.
  unfold verify_write_grant_and_hash, verify_not_expired, grant_ok. split.
  - intros H. ok_inv. bool_prop.
    match goal with H : verify_grant_proof_and_hash _ = Ok _ |- _ =>
      apply verify_grant_proof_and_hash_Ok in H as [? ->] end.
    conj_split; syn_done.
  - intros ((? & H2 & H3 & ? & H5 & H6 & H7 & H8 & H9 & H10) & ->).
    rewrite H2, H3, H5, H6, H8, H9, H10. ztest. checks.
    rewrite (proj2 (verify_grant_proof_and_hash_Ok g (WriteGrant_hash g))) by (split; syn_done).
    checks. syn_done.
Qed.

Lemma issue_write_grant_ok request :
  wgr_max_bytes request <> 0 -> LOCAL_GRANT_EPOCH <= wgr_expires_at request ->
  exists g, issue_write_grant request = Ok g /\
    grant_ok g (wgr_storage_node request) (wgr_segment_id request) (wgr_max_bytes request) /\
    wg_tenant g = wgr_tenant request /\ wg_principal g = wgr_principal request /\
    wg_intent g = wgr_intent request /\ wg_write_intent g = wgr_write_intent request /\
    wg_durability g = wgr_durability request /\
    wg_payload_integrity g = wgr_payload_integrity request.
Proof.
  intros ? ?. unfold issue_write_grant, verify_not_expired. ztest.
  set (g := mkWriteGrant _ _ _ _ _ _ _ _ _ _ _ _ _ _ _ _ _).
  exists (set_wg_proof g (deterministic_test_proof_for_grant (wg_key_id g) g)).
  split; [reflexivity|]. unfold grant_ok. rewrite grant_proof_of_set.
  conj_split; first [assumption|reflexivity].
Qed.

Lemma issued_grant_inv request g :
  issue_write_grant request = Ok g ->
  grant_ok g (wgr_storage_node request) (wgr_segment_id request) (wgr_max_bytes request).
Proof.
  intros H. assert (wgr_max_bytes request <> 0 /\ LOCAL_GRANT_EPOCH <= wgr_expires_at request) as [H1 H2].
  { unfold issue_write_grant, verify_not_expired in H.
    apply bind_Ok in H as (? & ?%reject_if_Ok & H). apply bind_Ok in H as (? & ?%reject_if_Ok & _).
    bool_prop. split; assumption. }
  destruct (issue_write_grant_ok request H1 H2) as (g' & Hg & Hok & _).
  rewrite Hg in H. injection H as <-. exact Hok.
Qed.

(** C37: a grant issued for a request verifies for exactly the storage node,
    segment and byte count of the request, and for nothing else. *)
Theorem issued_grant_scope request g node seg bytes :
  issue_write_grant request = Ok g ->
  is_ok (verify_write_grant g node seg bytes) = true <->
  node = wgr_storage_node request /\ seg = wgr_segment_id request /\
  bytes = wgr_max_bytes request.
Proof.
  intros Hok%issued_grant_inv. unfold verify_write_grant. split.
  - intros Hv. destruct (verify_write_grant_and_hash g node seg bytes) eqn:E; [|discriminate Hv].
    apply verify_write_grant_and_hash_Ok in E as [E _].
    destruct Hok as (_ & _ & _ & _ & _ & _ & _ & H1 & H2 & H3), E as (_ & _ & _ & _ & _ & _ & _ & E1 & E2 & E3).
    conj_split; congruence.
  - intros (-> & -> & ->).
    rewrite (proj2 (verify_write_grant_and_hash_Ok _ _ _ _ _) (conj Hok eq_refl)). reflexivity.
Qed.

(** A commit that describes the granted segment on the granted node. *)
Definition commit_matches (g : WriteGrant) (c : SegmentReplicaCommit) : Prop :=
  sd_segment_id (rcm_descriptor c) = wg_segment_id g /\
  pl_segment_id (rcm_placement c) = wg_segment_id g /\
  sd_bytes (rcm_descriptor c) = wg_max_bytes g /\ pl_bytes (rcm_placement c) = wg_max_bytes g.

(** What a verified receipt is. *)
Definition receipt_ok (r : SegmentWriteReceipt) : Prop :=
  LOCAL_GRANT_EPOCH <= sr_expires_at r /\ sr_receipt_epoch r = LOCAL_GRANT_EPOCH /\
  sr_owner r = WriteGrantIntent_owner (sr_intent r) /\ sr_bytes r <> 0 /\
  sr_proof_scheme r = DeterministicTestMacV1 /\
  sr_node_key_id r = node_key_id (sr_storage_node r) /\
  sr_proof r = deterministic_test_proof_for_receipt (sr_node_key_id r) r /\
  sr_segment_id r = sd_segment_id (sr_descriptor r) /\
  sr_segment_id r = pl_segment_id (sr_placement r) /\
  sr_storage_node r = pl_storage_node (sr_placement r) /\
  sr_bytes r = sd_bytes (sr_descriptor r) /\ sr_bytes r = pl_bytes (sr_placement r) /\
  sr_integrity r = sd_integrity (sr_descriptor r).

Lemma verify_segment_receipt_Ok r v :
  verify_segment_receipt r = Ok v <->
  receipt_ok r /\ v = mkVerifiedSegmentReceipt r (sr_descriptor r).
Proof.
  unfold verify_segment_receipt, verify_not_expired, verify_receipt_proof, verify_expected_proof,
    receipt_ok. split.
  - intros H. ok_inv. bool_prop. conj_split; syn_done.
  - intros ((? & H2 & H3 & ? & H5 & H6 & H7 & H8 & H9 & H10 & H11 & H12 & H13) & ->).
    rewrite (proj2 (Z.ltb_ge _ _)) by assumption.
    rewrite (proj2 (Z.eqb_eq _ _) H2), (proj2 (Z.eqb_neq _ 0)) by assumption.
    rewrite (proj2 (Z.eqb_eq _ _) H6), (proj2 (Z.eqb_eq _ _) H8), (proj2 (Z.eqb_eq _ _) H9),
      (proj2 (Z.eqb_eq _ _) H10), (proj2 (Z.eqb_eq _ _) H11), (proj2 (Z.eqb_eq _ _) H12).
    rewrite !bool_decide_true by (first [syn_done|by destruct (sr_lifecycle r)]).
    reflexivity.
Qed.

(** The receipt repeats the grant. *)
Definition receipt_for (g : WriteGrant) (r : SegmentWriteReceipt) : Prop :=
  sr_grant_id r = wg_grant_id g /\ sr_grant_hash r = WriteGrant_hash g /\
  sr_tenant r = wg_tenant g /\ sr_principal r = wg_principal g /\ sr_owner r = wg_owner g /\
  sr_intent r = wg_intent g /\ sr_write_intent r = wg_write_intent g /\
  sr_segment_id r = wg_segment_id g /\ sr_storage_node r = wg_storage_node g /\
  sr_bytes r = wg_max_bytes g /\ sr_durability r = wg_durability g /\
  sr_receipt_epoch r = wg_grant_epoch g /\ sr_expires_at r = wg_expires_at g /\
  sr_node_key_id r = wg_key_id g.

Lemma verify_receipt_matches_grant_Ok g r v :
  verify_receipt_matches_grant g r = Ok v <->
  grant_ok g (sr_storage_node r) (sr_segment_id r) (sr_bytes r) /\ receipt_ok r /\
  receipt_for g r /\ v = mkVerifiedSegmentReceipt r (sr_descriptor r).
Proof.
  unfold verify_receipt_matches_grant, receipt_for. split.
  - intros H. apply bind_Ok in H as (h & [Hok ->]%verify_write_grant_and_hash_Ok & H).
    apply bind_Ok in H as (v' & [Hr ->]%verify_segment_receipt_Ok & H). ok_inv. bool_prop.
    conj_split; syn_done.
  - intros (Hok & Hr & (H1 & H2 & H3 & H4 & H5 & H6 & H7 & H8 & H9 & H10 & H11 & H12 & H13 & H14) & ->).
    rewrite (proj2 (verify_write_grant_and_hash_Ok g _ _ _ (WriteGrant_hash g)) (conj Hok eq_refl)).
    rewrite (proj2 (verify_segment_receipt_Ok r _) (conj Hr eq_refl)). cbn [mbind Result_bind].
    rewrite H1, H2, H3, H4, H5, H6, H7, H8, H9, H10, H11, H12, H13, H14. checks. reflexivity.
Qed.

Lemma create_receipt_after_write_ok g node seg bytes h c inc :
  grant_ok g node seg bytes -> h = WriteGrant_hash g -> commit_matches g c ->
  pl_storage_node (rcm_placement c) = node ->
  exists r, create_segment_receipt_after_verified_write g h c inc = Ok r /\
    receipt_ok r /\ receipt_for g r /\
    sr_descriptor r = rcm_descriptor c /\ sr_placement r = rcm_placement c.
Proof.
  intros Hok -> (C1 & C2 & C3 & C4) Hnode.
  destruct Hok as (G0 & G1 & G2 & G3 & G4 & G5 & G6 & G7 & G8 & G9).
  unfold create_segment_receipt_after_verified_write. rewrite C1, C2, C3, C4. checks.
  set (r := mkSegmentWriteReceipt _ _ _ _ _ _ _ _ _ _ _ _ _ _ _ _ _ _ _ _ _).
  exists (set_sr_proof r (deterministic_test_proof_for_receipt (sr_node_key_id r) r)).
  split; [reflexivity|]. unfold receipt_ok, receipt_for. rewrite receipt_proof_of_set.
  subst r. cbn [set_sr_proof sr_expires_at sr_receipt_epoch sr_owner sr_intent sr_bytes
      sr_proof_scheme sr_node_key_id sr_storage_node sr_proof sr_lifecycle sr_segment_id
      sr_descriptor sr_placement sr_integrity sr_grant_id sr_grant_hash sr_tenant
      sr_principal sr_write_intent sr_durability].
  rewrite C1, C2, C3, C4, Hnode. conj_split; try syn_done. symmetry. exact G5.
Qed.

(** C36: issue, write, receipt and verification round trip: for an issued grant
    and a commit of the granted segment, the receipt is created, verifies on
    its own, and verifies against the grant. *)
Theorem receipt_roundtrip request g c inc :
  issue_write_grant request = Ok g -> commit_matches g c ->
  pl_storage_node (rcm_placement c) = wgr_storage_node request ->
  exists r, create_segment_receipt g c inc = Ok r /\
    verify_segment_receipt r = Ok (mkVerifiedSegmentReceipt r (rcm_descriptor c)) /\
    verify_receipt_matches_grant g r = Ok (mkVerifiedSegmentReceipt r (rcm_descriptor c)) /\
    sr_descriptor r = rcm_descriptor c /\ sr_placement r = rcm_placement c.
Proof.
  intros H Hc Hn. apply issued_grant_inv in H as Hok.
  destruct (create_receipt_after_write_ok g _ _ _ _ c inc Hok eq_refl Hc Hn)
    as (r & Hr & Hro & Hrf & Hd & Hp).
  assert (Hs : sr_storage_node r = wg_storage_node g /\ sr_segment_id r = wg_segment_id g /\
    sr_bytes r = wg_max_bytes g) by (unfold receipt_for in Hrf; tauto).
  destruct Hs as (S1 & S2 & S3), Hc as (C1 & C2 & C3 & C4).
  pose proof Hok as (_ & _ & _ & _ & _ & _ & _ & G1 & G2 & G3).
  exists r. unfold create_segment_receipt. rewrite Hn, C1, C3, G2, <-G3.
  rewrite (proj2 (verify_write_grant_and_hash_Ok g _ _ _ _) (conj Hok eq_refl)).
  cbn [mbind Result_bind]. conj_split; [syn_done| | |syn_done|syn_done].
  - apply verify_segment_receipt_Ok. rewrite Hd. split; [exact Hro|reflexivity].
  - apply verify_receipt_matches_grant_Ok. rewrite S1, S2, S3, Hd, G1, G2, <-G3.
    conj_split; [exact Hok|exact Hro|exact Hrf|reflexivity].
Qed.

(** Whatever receipt verifies against a grant describes the granted
    segment: same node, same segment, same size in its descriptor and its
    placement. *)
Lemma verified_receipt_describes_grant g r v :
  verify_receipt_matches_grant g r = Ok v ->
  vr_receipt v = r /\ vr_descriptor v = sr_descriptor r /\
  sd_segment_id (sr_descriptor r) = wg_segment_id g /\
  sd_bytes (sr_descriptor r) = wg_max_bytes g /\
  pl_segment_id (sr_placement r) = wg_segment_id g /\
  pl_storage_node (sr_placement r) = wg_storage_node g /\
  pl_bytes (sr_placement r) = wg_max_bytes g /\
  sr_owner r = WriteGrantIntent_owner (wg_intent g) /\ sr_grant_hash r = WriteGrant_hash g.
Proof.
  intros (Hok & Hr & Hf & ->)%verify_receipt_matches_grant_Ok. cbn [vr_receipt vr_descriptor].
  destruct Hr as (_ & _ & R3 & _ & _ & _ & _ & R8 & R9 & R10 & R11 & R12 & _).
  destruct Hf as (_ & F2 & _ & _ & _ & F6 & _ & F8 & F9 & F10 & _).
  rewrite <-R8, <-R9, <-R10, <-R11, <-R12, R3, F6, F8, F9, F10. conj_split; syn_done.
Qed.

(** Reference evidence is made only from a receipt that verifies, and is
    accepted for exactly the segment and node of that receipt. *)
Lemma reference_evidence_scope r seq e seg node :
  create_reference_evidence r seq = Ok e ->
  is_ok (verify_segment_receipt r) = true /\
  (is_ok (verify_reference_evidence e seg node) = true <->
   seg = sr_segment_id r /\ node = sr_storage_node r).
Proof.
  unfold create_reference_evidence. intros H. apply bind_Ok in H as (v & Hv & H).
  rewrite Hv. split; [reflexivity|].
  apply verify_segment_receipt_Ok in Hv as [(_ & _ & _ & _ & _ & Hk & _) _].
  match type of H with Ok (set_ev_proof ?x _) = _ => set (e0 := x) in H end. injection H as <-.
  unfold verify_reference_evidence, verify_reference_proof, verify_expected_proof.
  rewrite reference_proof_of_set. subst e0.
  cbn [set_ev_proof ev_proof_scheme ev_segment_id ev_storage_node ev_node_key_id ev_proof].
  rewrite !bool_decide_true by reflexivity. cbn [negb reject_if mbind Result_bind].
  destruct (sr_segment_id r =? seg) eqn:H1; cbn [negb reject_if mbind Result_bind is_ok]; bool_prop.
  2:{ split; [intros [=]|]. intros [-> _]. congruence. }
  destruct (sr_storage_node r =? node) eqn:H2; cbn [negb reject_if mbind Result_bind is_ok]; bool_prop.
  2:{ split; [intros [=]|]. intros [_ ->]. congruence. }
  rewrite <-H1, <-H2, Hk, Z.eqb_refl. cbn [negb reject_if mbind Result_bind is_ok]. tauto.
Qed.

(** ** Concrete grants *)

Definition demo_request : WriteGrantRequest :=
  mkWriteGrantRequest 1 1 (IntentBlockWrite 1 (mkBlockRange 0 1) 0 0 1) 5 9 1 4096 Verified
    Acknowledged 7.
Definition demo_commit : SegmentReplicaCommit :=
  mkSegmentReplicaCommit (mkSegmentDescriptor 9 1 4096 SpUnchecked)
    (mkSegmentReplicaPlacement 9 1 0 4096).

Lemma issued_grant_scope_witness :
  exists g, issue_write_grant demo_request = Ok g /\
    is_ok (verify_write_grant g 1 9 4096) = true /\ is_ok (verify_write_grant g 2 9 4096) <> true.
Proof.
  destruct (issue_write_grant demo_request) as [g|e] eqn:H; [|by vm_compute in H].
  exists g. split; [reflexivity|]. split.
  - apply (issued_grant_scope demo_request g 1 9 4096 H). vm_compute. auto.
  - intros Hv. apply (issued_grant_scope demo_request g 2 9 4096 H) in Hv. by destruct Hv.
Defined.

Lemma receipt_roundtrip_witness :
  exists g r, issue_write_grant demo_request = Ok g /\
    create_segment_receipt g demo_commit 1 = Ok r /\ sr_descriptor r = rcm_descriptor demo_commit.
Proof.
  destruct (issue_write_grant demo_request) as [g|e] eqn:H; [|by vm_compute in H].
  destruct (receipt_roundtrip demo_request g demo_commit 1 H) as (r & Hr & _ & _ & Hd & _).
  - pose proof (issued_grant_inv _ _ H) as (_ & _ & _ & _ & _ & _ & _ & _ & Hs & Hb).
    unfold commit_matches. rewrite Hs, <-Hb. vm_compute. auto.
  - reflexivity.
  - exists g, r. split; [reflexivity|]. split; [exact Hr|exact Hd].
Defined.
