(* ===== verification/Config.v ===== *)
(** * Store configuration and shared helpers ([local/config.rs], [local/util.rs])

    The configuration record with its validation, the node list
    normalisation, the lock striping and the payload checksums.  The [crc32c]
    crate is outside the repository: it is the class [Crc32cCrate], and what its
    documentation promises is the class [Crc32cLaws]. *)

From S2P Require Import Prelude Api Object.

(** ** Configuration *)

Record LocalStoreConfig := mkLocalStoreConfig {
  shard_count : Z;
  cfg_block_size : Z;
  file_root_blocks : Z;
  metadata_fanout : Z;
  metadata_leaf_blocks : Z;
  cfg_storage_node : StorageNodeId;
  observability_event_capacity : Z;
  stream_auto_persist_bytes : option Z;
}.

Definition DEFAULT_OBSERVABILITY_EVENT_CAPACITY : Z := 1024.

Definition LocalStoreConfig_default : LocalStoreConfig :=
  mkLocalStoreConfig 1 4096 1 4 1024 1 DEFAULT_OBSERVABILITY_EVENT_CAPACITY None.

Definition storage_shape_matches (self other : LocalStoreConfig) : bool :=
  (shard_count self =? shard_count other) &&
  (cfg_block_size self =? cfg_block_size other) &&
  (file_root_blocks self =? file_root_blocks other) &&
  (metadata_fanout self =? metadata_fanout other) &&
  (metadata_leaf_blocks self =? metadata_leaf_blocks other) &&
  (cfg_storage_node self =? cfg_storage_node other).

Definition with_runtime_policy (self expected : LocalStoreConfig) : LocalStoreConfig :=
  mkLocalStoreConfig (shard_count self) (cfg_block_size self) (file_root_blocks self)
    (metadata_fanout self) (metadata_leaf_blocks self) (cfg_storage_node self)
    (observability_event_capacity expected) (stream_auto_persist_bytes expected).

Definition LocalStoreConfig_validate (self : LocalStoreConfig) : Result unit :=
  reject_if (shard_count self =? 0) (InvalidArgument "shard_count must be greater than zero");;
  reject_if (cfg_block_size self =? 0) (InvalidArgument "block_size must be greater than zero");;
  reject_if (negb (is_power_of_two (cfg_block_size self)))
    (InvalidArgument "block_size must be a power of two");;
  reject_if (file_root_blocks self =? 0)
    (InvalidArgument "file_root_blocks must be greater than zero");;
  reject_if (metadata_fanout self <? 2)
    (InvalidArgument "metadata_fanout must be at least two");;
  reject_if (metadata_leaf_blocks self =? 0)
    (InvalidArgument "metadata_leaf_blocks must be greater than zero");;
  reject_if (observability_event_capacity self =? 0)
    (InvalidArgument "observability_event_capacity must be greater than zero");;
  reject_if (bool_decide (stream_auto_persist_bytes self = Some 0))
    (InvalidArgument "stream_auto_persist_bytes must be greater than zero when configured").

Definition for_storage_node (self : LocalStoreConfig) (storage_node : StorageNodeId)
    : LocalStoreConfig :=
  mkLocalStoreConfig (shard_count self) (cfg_block_size self) (file_root_blocks self)
    (metadata_fanout self) (metadata_leaf_blocks self) storage_node
    (observability_event_capacity self) (stream_auto_persist_bytes self).

(** The fields of a configuration value fit their Rust types. *)
Definition config_typed (c : LocalStoreConfig) : Prop :=
  in_u64 (shard_count c) /\ in_u32 (cfg_block_size c) /\ in_u64 (file_root_blocks c) /\
  in_u64 (metadata_fanout c) /\ in_u64 (metadata_leaf_blocks c) /\
  in_u128 (cfg_storage_node c).

(** The loop keeps the first occurrence of every node. *)
Definition normalize_storage_nodes (primary : StorageNodeId) (storage_nodes : list StorageNodeId)
    : list StorageNodeId :=
  fst (fold_left (fun '(out, seen) node_id =>
      if bool_decide (node_id ∈ seen) then (out, seen)
      else (out ++ [node_id], {[ node_id ]} ∪ seen))
    (primary :: storage_nodes) ([], (∅ : gset Z))).

(** ** Lock stripes and request ids *)

Definition SERVER_LOCK_STRIPES : Z := 64.
Definition stripe_for_raw (raw : Z) : Z := raw mod SERVER_LOCK_STRIPES.

Definition block_request_stripe (request : BlockRequest) : Z :=
  match BlockRequest_target_device_id request with
  | Some device_id => stripe_for_raw device_id
  | None => 0
  end.

Definition next_request_id : ST Z RequestId :=
  request_id ← st_get;
  next ← st_lift (ok_or (checked_add U128_MOD request_id 1) (Conflict "request id overflow"));
  st_put next;; mret request_id.

(** ** Payload checksums *)

Class Crc32cCrate := {
  crc32c : list Z -> Z;
  crc32c_append : Z -> list Z -> Z;
  crc32c_combine : Z -> Z -> Z -> Z;
}.

(** The crate's documentation: the checksum is a [u32]; appending continues a
    checksum as if the data had been contiguous; combining gives the checksum
    of the concatenation from the checksums of the parts and the length of the
    second one. *)
Class Crc32cLaws (C : Crc32cCrate) : Prop := {
  crc32c_u32 : forall b, in_u32 (crc32c b);
  crc32c_append_nil : forall b, crc32c_append 0 b = crc32c b;
  crc32c_append_crc : forall a b, crc32c_append (crc32c a) b = crc32c (a ++ b);
  crc32c_combine_crc : forall a b,
    crc32c_combine (crc32c a) (crc32c b) (Z.of_nat (length b)) = crc32c (a ++ b);
}.

Section checksums.
Context `{Crc32cCrate}.

Definition data_log_checksum (bytes : list Z) : Z := crc32c bytes.

Definition data_log_checksum_chunks (chunks : list (list Z)) : Z :=
  fold_left crc32c_append chunks 0.

Definition segment_payload_integrity (mode : PayloadIntegrity) (bytes : list Z)
    : SegmentPayloadIntegrity :=
  match mode with
  | Verified => Crc32c (data_log_checksum bytes)
  | Unchecked => SpUnchecked
  end.

Definition segment_payload_integrity_chunks (mode : PayloadIntegrity) (chunks : list (list Z))
    : SegmentPayloadIntegrity :=
  match mode with
  | Verified => Crc32c (data_log_checksum_chunks chunks)
  | Unchecked => SpUnchecked
  end.

(** [left as u32] drops the upper half of the [u64]. *)
Definition combine_segment_payload_integrity (left right : SegmentPayloadIntegrity)
    (right_len : Z) : Result SegmentPayloadIntegrity :=
  match left, right with
  | Crc32c l, Crc32c r =>
      Ok (Crc32c (crc32c_combine (l mod U32_MOD) (r mod U32_MOD) right_len))
  | _, _ => Ok SpUnchecked
  end.

Definition verify_segment_payload_integrity (integrity : SegmentPayloadIntegrity)
    (bytes : list Z) : Result unit :=
  match integrity with
  | Crc32c expected =>
      reject_if (negb (data_log_checksum bytes =? expected))
        (Corrupt "segment payload checksum mismatch")
  | SpUnchecked => Ok tt
  end.
End checksums.

(** ** Properties *)

Lemma config_valid c u :
  LocalStoreConfig_validate c = Ok u <->
  shard_count c <> 0 /\ cfg_block_size c <> 0 /\ is_power_of_two (cfg_block_size c) = true /\
  file_root_blocks c <> 0 /\ 2 <= metadata_fanout c /\ metadata_leaf_blocks c <> 0 /\
  observability_event_capacity c <> 0 /\ stream_auto_persist_bytes c <> Some 0.
Proof.
  unfold LocalStoreConfig_validate. split.
  - intros H. ok_inv. bool_prop. tauto.
  - intros (? & ? & H3 & ? & ? & ? & ? & ?). destruct u. ztest. rewrite H3. cbn. ztest.
    by rewrite bool_decide_false.
Qed.

(** Normalising the node list keeps exactly the primary and the listed nodes,
    each once, the primary first. *)
Lemma normalize_storage_nodes_spec primary nodes :
  NoDup (normalize_storage_nodes primary nodes) /\
  head (normalize_storage_nodes primary nodes) = Some primary /\
  forall n, n ∈ normalize_storage_nodes primary nodes <-> n = primary \/ n ∈ nodes.
Proof.
  unfold normalize_storage_nodes. cbn [fold_left].
  rewrite bool_decide_false by set_solver. cbn [app].
  assert (Hgen : forall l out seen, NoDup out -> (forall n, n ∈ seen <-> n ∈ out) ->
    head out = Some primary ->
    let r := fst (fold_left (fun '(out, seen) node_id =>
      if bool_decide (node_id ∈ seen) then (out, seen)
      else (out ++ [node_id], {[ node_id ]} ∪ seen)) l (out, seen : gset Z)) in
    NoDup r /\ head r = Some primary /\ forall n, n ∈ r <-> n ∈ out \/ n ∈ l).
  { induction l as [|x l IH]; intros out seen Hnd Hs Hh; cbn [fold_left].
    { cbn. split_and!; [done..|]. set_solver. }
    case_bool_decide as Hx.
    - destruct (IH out seen Hnd Hs Hh) as (H1 & H2 & H3). split_and!; [done..|].
      intros n. rewrite H3. set_solver.
    - destruct (IH (out ++ [x]) ({[ x ]} ∪ seen)) as (H1 & H2 & H3).
      + apply NoDup_app. split_and!; [done| |apply NoDup_singleton]. set_solver.
      + set_solver.
      + by destruct out.
      + split_and!; [done..|]. intros n. rewrite H3. set_solver. }
  destruct (Hgen nodes [primary] ({[ primary ]} ∪ ∅)) as (H1 & H2 & H3);
    [apply NoDup_singleton|set_solver|done|].
  split_and!; [done..|]. intros n. rewrite H3. set_solver.
Qed.

Section checksum_laws.
Context `{!Crc32cCrate} `{!Crc32cLaws _}.

Lemma checksum_chunks_append a chunks :
  fold_left crc32c_append chunks (crc32c a) = crc32c (a ++ concat chunks).
Proof.
  revert a. induction chunks as [|c chunks IH]; intros a; cbn; [by rewrite app_nil_r|].
  by rewrite crc32c_append_crc, IH, app_assoc.
Qed.

Lemma integrity_chunks_concat mode chunks :
  chunks <> [] ->
  segment_payload_integrity_chunks mode chunks = segment_payload_integrity mode (concat chunks).
Proof.
  destruct mode, chunks as [|c chunks]; cbn; [done| |done..]. intros _.
  unfold data_log_checksum_chunks, data_log_checksum. cbn.
  by rewrite crc32c_append_nil, checksum_chunks_append.
Qed.

Lemma combine_integrity mode a b :
  combine_segment_payload_integrity (segment_payload_integrity mode a)
    (segment_payload_integrity mode b) (Z.of_nat (length b)) =
  Ok (segment_payload_integrity mode (a ++ b)).
Proof.
  destruct mode; cbn; [|done]. unfold data_log_checksum.
  pose proof (crc32c_u32 a). pose proof (crc32c_u32 b). unfold in_u32 in *.
  by rewrite !Z.mod_small, crc32c_combine_crc by done.
Qed.

Lemma verify_integrity_ok mode bytes :
  verify_segment_payload_integrity (segment_payload_integrity mode bytes) bytes = Ok tt.
Proof using Type. destruct mode; cbn; [|done]. by rewrite Z.eqb_refl. Qed.

(** C39: the three ways the store computes a payload checksum agree: chunk by
    chunk, on the concatenation, and by combining the checksums of two parts;
    and a checksum computed on a payload verifies against it. *)
Theorem payload_checksums_agree mode a b chunks :
  chunks <> [] ->
  segment_payload_integrity_chunks mode chunks =
    segment_payload_integrity mode (concat chunks) /\
  combine_segment_payload_integrity (segment_payload_integrity mode a)
    (segment_payload_integrity mode b) (Z.of_nat (length b)) =
    Ok (segment_payload_integrity_chunks mode [a; b]) /\
  verify_segment_payload_integrity (segment_payload_integrity_chunks mode chunks)
    (concat chunks) = Ok tt.
Proof.
  intros Hc. rewrite !integrity_chunks_concat by done. cbn [concat]. rewrite app_nil_r.
  auto using combine_integrity, verify_integrity_ok.
Qed.
End checksum_laws.

(** A concrete checksum with the laws, to instantiate the class: the sum of
    the bytes modulo [2^32]. *)
Definition byte_sum (b : list Z) : Z := foldr Z.add 0 b.
Definition sum_crc : Crc32cCrate := {|
  crc32c b := byte_sum b mod U32_MOD;
  crc32c_append c b := (c + byte_sum b) mod U32_MOD;
  crc32c_combine l r _ := (l + r) mod U32_MOD;
|}.

Lemma byte_sum_app a b : byte_sum (a ++ b) = byte_sum a + byte_sum b.
Proof. unfold byte_sum. induction a; cbn; lia. Qed.

Lemma sum_crc_laws : Crc32cLaws sum_crc.
Proof.
  constructor; cbn [crc32c crc32c_append crc32c_combine sum_crc]; intros.
  - unfold in_u32. apply Z.mod_pos_bound. done.
  - done.
  - by rewrite byte_sum_app, Zplus_mod_idemp_l.
  - by rewrite byte_sum_app, Zplus_mod_idemp_l, Zplus_mod_idemp_r.
Qed.

Lemma payload_checksums_agree_witness :
  @segment_payload_integrity_chunks sum_crc Verified [[1; 2]; [3]] =
  @segment_payload_integrity sum_crc Verified [1; 2; 3].
Proof.
  apply (@payload_checksums_agree sum_crc sum_crc_laws Verified [1] [2] [[1; 2]; [3]]). discriminate.
Defined.
