(* ===== verification/Catalog.v ===== *)
(** * The local segment catalog ([local/segment_catalog.rs])

    One storage node's record of every segment it was ever asked to hold, and
    the lifecycle each segment goes through.  The operations are state
    transformers on [CatalogInner] (the data behind the catalog's mutex); the
    properties are stated over any sequence of operations, by induction on the
    steps. *)

From S2P Require Import Prelude Api Object Provider Config.

(** ** State *)

Inductive SegmentLifecycleState :=
| Reserved
| Writing
| DurablePendingMetadata
| Referenced
| Released
| Freed.

#[export] Instance SegmentLifecycleState_eq_dec : EqDecision SegmentLifecycleState.
Proof. solve_decision. Defined.

Record SegmentReservationIntent := mkSegmentReservationIntent {
  ri_write_intent : WriteIntentId;
  ri_owner : MappingOwner;
  ri_bytes : Z;
}.

Record SegmentReservation := mkSegmentReservation {
  rs_segment_id : SegmentId;
  rs_bytes : Z;
}.

#[export] Instance SegmentReservation_eq_dec : EqDecision SegmentReservation.
Proof. solve_decision. Defined.

Record CatalogEntry := mkCatalogEntry {
  ce_intent : SegmentReservationIntent;
  ce_reservation : SegmentReservation;
  ce_state : SegmentLifecycleState;
  ce_receipt : option SegmentWriteReceipt;
}.

Record CatalogInner := mkCatalogInner {
  next_segment_id : Z;
  entries : gmap SegmentId CatalogEntry;
}.

Record CatalogLifecycleCounts := mkCatalogLifecycleCounts {
  lc_reserved : Z;
  lc_writing : Z;
  lc_durable_pending : Z;
  lc_referenced : Z;
  lc_released : Z;
  lc_freed : Z;
}.

Definition Catalog_new : CatalogInner := mkCatalogInner 1 ∅.

Definition set_ce_state (e : CatalogEntry) (s : SegmentLifecycleState) : CatalogEntry :=
  mkCatalogEntry (ce_intent e) (ce_reservation e) s (ce_receipt e).

(** Storing back through the [&mut CatalogEntry] that [get_entry_mut] returns. *)
Definition put_entry (segment_id : SegmentId) (e : CatalogEntry) : ST CatalogInner unit :=
  st_modify (fun inner =>
    mkCatalogInner (next_segment_id inner) (<[segment_id := e]> (entries inner))).

Definition get_entry_mut (segment_id : SegmentId) : ST CatalogInner CatalogEntry :=
  st_ask (fun inner => ok_or (entries inner !! segment_id) (not_found "segment" segment_id)).

(** ** Operations *)

Definition reserve_segment_with_id (segment_id : SegmentId) (intent : SegmentReservationIntent)
    : ST CatalogInner SegmentReservation :=
  st_reject_if (ri_bytes intent =? 0)
    (InvalidArgument "segment reservation must contain bytes");;
  inner ← st_get;
  st_reject_if (bool_decide (is_Some (entries inner !! segment_id)))
    (Conflict "segment ID already exists");;
  next ← st_lift (if next_segment_id inner <=? segment_id
    then ok_or (checked_add U128_MOD segment_id 1) (Conflict "segment id overflow")
    else Ok (next_segment_id inner));
  let reservation := mkSegmentReservation segment_id (ri_bytes intent) in
  st_put (mkCatalogInner next
    (<[segment_id := mkCatalogEntry intent reservation Reserved None]> (entries inner)));;
  mret reservation.

Definition reserve_segment (intent : SegmentReservationIntent)
    : ST CatalogInner SegmentReservation :=
  st_reject_if (ri_bytes intent =? 0)
    (InvalidArgument "segment reservation must contain bytes");;
  segment_id ← st_gets next_segment_id;
  reserve_segment_with_id segment_id intent.

Definition contains_segment (inner : CatalogInner) (segment_id : SegmentId) : bool :=
  bool_decide (is_Some (entries inner !! segment_id)).

Definition catalog_state (inner : CatalogInner) (segment_id : SegmentId)
    : Result SegmentLifecycleState :=
  ok_or (ce_state <$> entries inner !! segment_id) (not_found "segment" segment_id).

Definition receipt_for_segment (inner : CatalogInner) (segment_id : SegmentId)
    : Result SegmentWriteReceipt :=
  entry ← ok_or (entries inner !! segment_id) (not_found "segment" segment_id);
  ok_or (ce_receipt entry) (Unavailable "segment has no durable receipt").

Definition commit_for_segment (inner : CatalogInner) (segment_id : SegmentId)
    : Result SegmentReplicaCommit :=
  entry ← ok_or (entries inner !! segment_id) (not_found "segment" segment_id);
  ok_or (SegmentWriteReceipt_replica_commit <$> ce_receipt entry)
    (Unavailable "segment has no durable receipt").

Definition intent_for_segment (inner : CatalogInner) (segment_id : SegmentId)
    : Result SegmentReservationIntent :=
  ok_or (ce_intent <$> entries inner !! segment_id) (not_found "segment" segment_id).

Definition catalog_entries (inner : CatalogInner)
    : list (SegmentId * SegmentLifecycleState * WriteIntentId) :=
  (fun '(segment_id, entry) => (segment_id, ce_state entry, ri_write_intent (ce_intent entry)))
    <$> bt_iter (entries inner).

Definition lifecycle_counts (inner : CatalogInner) : CatalogLifecycleCounts :=
  fold_left (fun c entry =>
    match ce_state entry, c with
    | Reserved, mkCatalogLifecycleCounts a b d e f g => mkCatalogLifecycleCounts (a + 1) b d e f g
    | Writing, mkCatalogLifecycleCounts a b d e f g => mkCatalogLifecycleCounts a (b + 1) d e f g
    | DurablePendingMetadata, mkCatalogLifecycleCounts a b d e f g =>
        mkCatalogLifecycleCounts a b (d + 1) e f g
    | Referenced, mkCatalogLifecycleCounts a b d e f g => mkCatalogLifecycleCounts a b d (e + 1) f g
    | Released, mkCatalogLifecycleCounts a b d e f g => mkCatalogLifecycleCounts a b d e (f + 1) g
    | Freed, mkCatalogLifecycleCounts a b d e f g => mkCatalogLifecycleCounts a b d e f (g + 1)
    end) (bt_values (entries inner)) (mkCatalogLifecycleCounts 0 0 0 0 0 0).

Definition begin_write (reservation : SegmentReservation) : ST CatalogInner unit :=
  entry ← get_entry_mut (rs_segment_id reservation);
  st_reject_if (negb (bool_decide (ce_reservation entry = reservation)))
    (Conflict "reservation does not match catalog entry");;
  match ce_state entry with
  | Reserved => put_entry (rs_segment_id reservation) (set_ce_state entry Writing)
  | Writing => mret tt
  | _ => st_lift (Err (Conflict "segment write can only begin from Reserved state"))
  end.

Definition commit_segment (config : LocalStoreConfig) (reservation : SegmentReservation)
    (receipt : SegmentWriteReceipt) : ST CatalogInner unit :=
  let id := rs_segment_id reservation in
  entry ← get_entry_mut id;
  st_reject_if (negb (bool_decide (ce_reservation entry = reservation)))
    (Conflict "reservation does not match catalog entry");;
  st_reject_if (negb (sr_segment_id receipt =? id) ||
      negb (sd_segment_id (sr_descriptor receipt) =? id) ||
      negb (pl_segment_id (sr_placement receipt) =? id))
    (InvalidArgument "segment receipt IDs must match reservation");;
  st_reject_if (negb (sr_storage_node receipt =? cfg_storage_node config) ||
      negb (pl_storage_node (sr_placement receipt) =? cfg_storage_node config))
    (InvalidArgument "segment receipt storage node does not match local catalog");;
  st_reject_if (negb (sr_bytes receipt =? rs_bytes reservation) ||
      negb (sd_bytes (sr_descriptor receipt) =? rs_bytes reservation) ||
      negb (pl_bytes (sr_placement receipt) =? rs_bytes reservation))
    (InvalidArgument "segment receipt bytes must match reservation");;
  match ce_state entry with
  | Writing =>
      put_entry id (mkCatalogEntry (ce_intent entry) (ce_reservation entry)
        DurablePendingMetadata (Some receipt))
  | DurablePendingMetadata =>
      if bool_decide (ce_receipt entry = Some receipt) then mret tt
      else st_lift (Err (Conflict "segment receipt requires Writing state"))
  | _ => st_lift (Err (Conflict "segment receipt requires Writing state"))
  end.

(** The transitions of one entry that share a shape: from [from] to [to],
    already-[to] is accepted, everything else is a conflict. *)
Definition transition (from to : SegmentLifecycleState) (reason : string)
    (segment_id : SegmentId) : ST CatalogInner unit :=
  entry ← get_entry_mut segment_id;
  if bool_decide (ce_state entry = from) then put_entry segment_id (set_ce_state entry to)
  else if bool_decide (ce_state entry = to) then mret tt
  else st_lift (Err (Conflict reason)).

Definition mark_segment_referenced : SegmentId -> ST CatalogInner unit :=
  transition DurablePendingMetadata Referenced
    "segment can be referenced only from DurablePendingMetadata state".
Definition release_segment : SegmentId -> ST CatalogInner unit :=
  transition Referenced Released "segment can be released only from Referenced state".
Definition expire_reservation : SegmentId -> ST CatalogInner unit :=
  transition Reserved Freed "only Reserved segments can expire as reservations".
Definition fail_write : SegmentId -> ST CatalogInner unit :=
  transition Writing Freed "only Writing segments can fail as writes".
Definition free_orphan_segment : SegmentId -> ST CatalogInner unit :=
  transition DurablePendingMetadata Freed
    "only DurablePendingMetadata orphan segments can be freed".
Definition catalog_delete_segment : SegmentId -> ST CatalogInner unit :=
  transition Released Freed "only Released segments are safe to delete".

Definition locate_segment (inner : CatalogInner) (segment_id : SegmentId)
    : Result SegmentReplicaPlacement :=
  entry ← ok_or (entries inner !! segment_id) (not_found "segment" segment_id);
  match ce_state entry with
  | DurablePendingMetadata | Referenced | Released =>
      ok_or (sr_placement <$> ce_receipt entry) (Corrupt "committed segment missing placement")
  | Freed => Err (not_found "segment" segment_id)
  | Reserved | Writing => Err (Unavailable "segment placement is not committed yet")
  end.

(** ** The lifecycle as a step relation *)

(** The legal moves of one segment. *)
Inductive lifecycle_edge : SegmentLifecycleState -> SegmentLifecycleState -> Prop :=
| edge_begin : lifecycle_edge Reserved Writing
| edge_commit : lifecycle_edge Writing DurablePendingMetadata
| edge_reference : lifecycle_edge DurablePendingMetadata Referenced
| edge_release : lifecycle_edge Referenced Released
| edge_expire : lifecycle_edge Reserved Freed
| edge_fail : lifecycle_edge Writing Freed
| edge_orphan : lifecycle_edge DurablePendingMetadata Freed
| edge_delete : lifecycle_edge Released Freed.

(** The operations that change the catalog. *)
Inductive catalog_op :=
| OpReserveWithId (id : SegmentId) (intent : SegmentReservationIntent)
| OpReserve (intent : SegmentReservationIntent)
| OpBegin (reservation : SegmentReservation)
| OpCommit (reservation : SegmentReservation) (receipt : SegmentWriteReceipt)
| OpMark (id : SegmentId)
| OpRelease (id : SegmentId)
| OpExpire (id : SegmentId)
| OpFail (id : SegmentId)
| OpFreeOrphan (id : SegmentId)
| OpDelete (id : SegmentId).

Definition catalog_run (config : LocalStoreConfig) (op : catalog_op) : ST CatalogInner unit :=
  match op with
  | OpReserveWithId id intent => reserve_segment_with_id id intent;; mret tt
  | OpReserve intent => reserve_segment intent;; mret tt
  | OpBegin r => begin_write r
  | OpCommit r rc => commit_segment config r rc
  | OpMark id => mark_segment_referenced id
  | OpRelease id => release_segment id
  | OpExpire id => expire_reservation id
  | OpFail id => fail_write id
  | OpFreeOrphan id => free_orphan_segment id
  | OpDelete id => catalog_delete_segment id
  end.

(** A sequence of operations, each run whatever the earlier ones returned. *)
Definition catalog_runs (config : LocalStoreConfig) (ops : list catalog_op) (s : CatalogInner)
    : CatalogInner :=
  fold_left (fun s op => (catalog_run config op s).2) ops s.

(** A receipt that [commit_segment] accepts for a reservation. *)
Definition receipt_matches (config : LocalStoreConfig) (r : SegmentReservation)
    (rc : SegmentWriteReceipt) : Prop :=
  sr_segment_id rc = rs_segment_id r /\ sd_segment_id (sr_descriptor rc) = rs_segment_id r /\
  pl_segment_id (sr_placement rc) = rs_segment_id r /\
  sr_storage_node rc = cfg_storage_node config /\
  pl_storage_node (sr_placement rc) = cfg_storage_node config /\
  sr_bytes rc = rs_bytes r /\ sd_bytes (sr_descriptor rc) = rs_bytes r /\
  pl_bytes (sr_placement rc) = rs_bytes r.

(** What one operation does to the one entry it changes. *)
Inductive entry_step (config : LocalStoreConfig) (id : SegmentId)
    : catalog_op -> option CatalogEntry -> CatalogEntry -> Prop :=
| es_reserve op intent :
    op = OpReserveWithId id intent \/ op = OpReserve intent -> ri_bytes intent <> 0 ->
    entry_step config id op None
      (mkCatalogEntry intent (mkSegmentReservation id (ri_bytes intent)) Reserved None)
| es_begin e :
    rs_segment_id (ce_reservation e) = id -> ce_state e = Reserved ->
    entry_step config id (OpBegin (ce_reservation e)) (Some e) (set_ce_state e Writing)
| es_commit e rc :
    rs_segment_id (ce_reservation e) = id ->
    ce_state e = Writing -> receipt_matches config (ce_reservation e) rc ->
    entry_step config id (OpCommit (ce_reservation e) rc) (Some e)
      (mkCatalogEntry (ce_intent e) (ce_reservation e) DurablePendingMetadata (Some rc))
| es_mark e : ce_state e = DurablePendingMetadata ->
    entry_step config id (OpMark id) (Some e) (set_ce_state e Referenced)
| es_release e : ce_state e = Referenced ->
    entry_step config id (OpRelease id) (Some e) (set_ce_state e Released)
| es_expire e : ce_state e = Reserved ->
    entry_step config id (OpExpire id) (Some e) (set_ce_state e Freed)
| es_fail e : ce_state e = Writing ->
    entry_step config id (OpFail id) (Some e) (set_ce_state e Freed)
| es_orphan e : ce_state e = DurablePendingMetadata ->
    entry_step config id (OpFreeOrphan id) (Some e) (set_ce_state e Freed)
| es_delete e : ce_state e = Released ->
    entry_step config id (OpDelete id) (Some e) (set_ce_state e Freed).

(** One operation: no effect, or a success that steps one entry. *)
Definition catalog_effect (config : LocalStoreConfig) (op : catalog_op) (r : Result unit)
    (s s' : CatalogInner) : Prop :=
  s' = s \/
  (r = Ok tt /\ exists id new, entries s' = <[id := new]> (entries s) /\
    entry_step config id op (entries s !! id) new /\
    next_segment_id s <= next_segment_id s' /\
    (entries s !! id = None -> id < next_segment_id s')).

(** The invariant of a reachable catalog: ids are below the allocator, a
    reservation carries its own id and a non-zero size, and a committed
    segment has a receipt that matches it. *)
Definition entry_wf (config : LocalStoreConfig) (id : SegmentId) (e : CatalogEntry) : Prop :=
  rs_segment_id (ce_reservation e) = id /\ rs_bytes (ce_reservation e) <> 0 /\
  rs_bytes (ce_reservation e) = ri_bytes (ce_intent e) /\
  match ce_state e with
  | Reserved | Writing => ce_receipt e = None
  | DurablePendingMetadata | Referenced | Released =>
      exists rc, ce_receipt e = Some rc /\ receipt_matches config (ce_reservation e) rc
  | Freed => forall rc, ce_receipt e = Some rc -> receipt_matches config (ce_reservation e) rc
  end.

Definition catalog_wf (config : LocalStoreConfig) (s : CatalogInner) : Prop :=
  map_Forall (fun id e => id < next_segment_id s /\ entry_wf config id e) (entries s).

(** ** Properties *)

Lemma transition_effect config op from to reason id s r s' :
  (forall e, ce_state e = from -> entry_step config id op (Some e) (set_ce_state e to)) ->
  transition from to reason id s = (r, s') -> catalog_effect config op r s s'.
Proof.
  unfold transition, get_entry_mut, put_entry, st_ask, st_modify, st_lift, catalog_effect.
  unfold mbind, ST_bind, mret, ST_ret. intros Hop H.
  destruct (entries s !! id) as [e|] eqn:He; cbn in H; [|by simplify_eq; left].
  destruct (bool_decide (ce_state e = from)) eqn:Hf.
  2:{ destruct (bool_decide (ce_state e = to)); simplify_eq/=; by left. }
  bool_prop. simplify_eq/=. right. split; [done|]. exists id, (set_ce_state e to). cbn. rewrite He.
  split_and!; [done|by apply Hop|lia|done].
Qed.

Lemma reserve_with_id_effect config op id intent s r s' :
  op = OpReserveWithId id intent \/ op = OpReserve intent ->
  (reserve_segment_with_id id intent;; mret tt) s = (r, s') -> catalog_effect config op r s s'.
Proof.
  unfold reserve_segment_with_id, st_reject_if, st_lift, st_get, st_put, mret, ST_ret, catalog_effect.
  unfold mbind, ST_bind. intros Hop H.
  destruct (ri_bytes intent =? 0) eqn:Hb; cbn in H; [by simplify_eq; left|]. bool_prop.
  case_bool_decide as Hs; cbn in H; [by simplify_eq; left|].
  apply eq_None_not_Some in Hs.
  destruct (if next_segment_id s <=? id then _ else _) as [n|] eqn:Hn; simplify_eq/=; [|by left].
  right. split; [done|]. eexists id, _. split; [done|]. rewrite Hs.
  split; [by constructor|]. cbn.
  destruct (next_segment_id s <=? id) eqn:Hl; ok_inv; bool_prop; lia.
Qed.

Lemma catalog_run_effect config op s r s' :
  catalog_run config op s = (r, s') -> catalog_effect config op r s s'.
Proof.
  destruct op as [id intent|intent|res|res rc|id|id|id|id|id|id]; cbn [catalog_run];
    try (apply transition_effect; intros; by constructor).
  - apply reserve_with_id_effect. by left.
  - unfold reserve_segment, st_reject_if, st_lift, st_gets. intros H.
    unfold mbind at 1 2 3, ST_bind at 1 2 3 in H.
    destruct (ri_bytes intent =? 0) eqn:Hb; cbn [reject_if] in H; [simplify_eq; by left|].
    eapply (reserve_with_id_effect config _ (next_segment_id s) intent); [by right|].
    unfold mbind, ST_bind in *. done.
  - unfold begin_write, get_entry_mut, st_ask, st_reject_if, st_lift, put_entry, st_modify.
    unfold mbind, ST_bind, mret, ST_ret. intros H.
    destruct (entries s !! _) as [e|] eqn:He; cbn in H; [|by simplify_eq; left].
    case_bool_decide as Hr; cbn in H; [|by simplify_eq; left].
    destruct (ce_state e) eqn:Hs; simplify_eq/=; try (by left).
    right. split; [done|]. eexists _, _. split; [done|]. rewrite He.
    split; [by constructor|]. cbn. split; [lia|done].
  - unfold commit_segment, get_entry_mut, st_ask, st_reject_if, st_lift, put_entry, st_modify.
    unfold mbind, ST_bind, mret, ST_ret. intros H.
    destruct (entries s !! _) as [e|] eqn:He; cbn in H; [|by simplify_eq; left].
    case_bool_decide as Hr; cbn in H; [|by simplify_eq; left].
    repeat match goal with
    | H : context [reject_if ?c _] |- _ =>
        destruct c eqn:?; cbn [reject_if] in H; [simplify_eq; by left|]
    end.
    destruct (ce_state e) eqn:Hs; simplify_eq/=; try (by left).
    2:{ case_bool_decide; simplify_eq/=; by left. }
    bool_prop. right. split; [done|]. eexists _, _. split; [done|]. rewrite He.
    split; [constructor; by unfold receipt_matches|]. cbn. split; [lia|done].
Qed.

(** C30: every catalog operation is atomic: when it returns an error the
    catalog is exactly as before, and when it succeeds it changes at most one
    entry, along an edge of the lifecycle. *)
Theorem catalog_op_atomic config op s r s' :
  catalog_run config op s = (r, s') ->
  ((exists e, r = Err e) -> s' = s) /\
  (s' = s \/ exists id new, entries s' = <[id := new]> (entries s) /\
     match entries s !! id with
     | None => ce_state new = Reserved
     | Some old => lifecycle_edge (ce_state old) (ce_state new)
     end).
Proof.
  intros [->|(-> & id & new & Hn & Hstep & _)]%catalog_run_effect; [by auto|].
  split; [by intros [e [=]]|]. right. exists id, new. split; [done|].
  destruct Hstep; cbn;
    repeat match goal with H : ce_state _ = _ |- _ => rewrite H end; constructor.
Qed.

Lemma entry_step_wf config id op old new :
  entry_step config id op old new ->
  (forall e, old = Some e -> entry_wf config id e) -> entry_wf config id new.
Proof.
  unfold entry_wf. intros Hstep Hold.
  destruct Hstep; cbn; try (specialize (Hold _ eq_refl) as (? & ? & ? & Hr));
    repeat match goal with H : ce_state _ = _ |- _ => rewrite H in Hr; clear H end;
    try (split_and!; [done..|]); try done; try (by eauto); intros rc' Hrc;
    naive_solver congruence.
Qed.

Lemma catalog_run_wf config op s :
  catalog_wf config s -> catalog_wf config (catalog_run config op s).2.
Proof.
  intros Hwf. destruct (catalog_run config op s) as [r s'] eqn:Hrun. cbn.
  apply catalog_run_effect in Hrun as [->|(_ & id & new & Hs & Hstep & Hn & Hid)]; [done|].
  intros id' e. rewrite Hs. intros [[<- <-]|[Hne He]]%lookup_insert_Some.
  - split.
    + destruct (entries s !! id) as [old|] eqn:Ho; [|by auto]. destruct (Hwf _ _ Ho). lia.
    + eapply entry_step_wf; [done|]. intros old Ho. by apply (Hwf _ _ Ho).
  - destruct (Hwf _ _ He). split; [lia|done].
Qed.

Lemma catalog_runs_inv config (P : CatalogInner -> Prop) ops s :
  P s -> (forall op s, op ∈ ops -> P s -> P (catalog_run config op s).2) ->
  P (catalog_runs config ops s).
Proof.
  unfold catalog_runs. revert s. induction ops as [|op ops IH]; intros s Hs Hstep; cbn; [done|].
  apply IH.
  - apply Hstep; [by left|done].
  - intros op' s' Hin. apply Hstep. by right.
Qed.

Lemma catalog_runs_wf config ops : catalog_wf config (catalog_runs config ops Catalog_new).
Proof.
  apply (catalog_runs_inv config (catalog_wf config)); [done|]. auto using catalog_run_wf.
Qed.

(** In every catalog reachable by any sequence of operations from the empty
    one, segment ids stay below the allocator, a reservation keeps its id and
    its non-zero size, and exactly the segments that were committed have a
    receipt, which matches the reservation and the node. *)
Lemma catalog_reachable_wf config ops :
  catalog_wf config (catalog_runs config ops Catalog_new).
Proof. apply catalog_runs_wf. Qed.

(** How one operation moves an existing entry. *)
Lemma catalog_run_entry config op s id e :
  entries s !! id = Some e ->
  exists e', entries (catalog_run config op s).2 !! id = Some e' /\
    (e' = e \/ entry_step config id op (Some e) e').
Proof.
  intros He. destruct (catalog_run config op s) as [r s'] eqn:Hrun. cbn.
  apply catalog_run_effect in Hrun as [->|(_ & id' & new & Hs & Hstep & _)]; [by eauto|].
  rewrite Hs. destruct (decide (id' = id)) as [->|Hne].
  - rewrite lookup_insert_eq. rewrite He in Hstep. eauto.
  - rewrite lookup_insert_ne by done. eauto.
Qed.

(** A freed segment is never reused: whatever operations follow, its entry
    stays exactly as it is. *)
Lemma freed_is_final config ops s id e :
  entries s !! id = Some e -> ce_state e = Freed ->
  entries (catalog_runs config ops s) !! id = Some e.
Proof.
  intros He Hf. apply (catalog_runs_inv config (fun s => entries s !! id = Some e)); [done|].
  intros op s' _ He'. destruct (catalog_run_entry config op s' id e He') as (e' & -> & [->|Hs]);
    [done|].
  inversion Hs; congruence.
Qed.

(** A segment that metadata references stays referenced, with the same
    receipt, as long as nobody releases that very segment: no other
    operation, in any order, can free or change it. *)
Lemma referenced_until_released config ops s id e :
  entries s !! id = Some e -> ce_state e = Referenced -> OpRelease id ∉ ops ->
  entries (catalog_runs config ops s) !! id = Some e.
Proof.
  intros He Hf Hno. apply (catalog_runs_inv config (fun s => entries s !! id = Some e)); [done|].
  intros op s' Hop He'. destruct (catalog_run_entry config op s' id e He') as (e' & -> & [->|Hs]);
    [done|].
  inversion Hs; subst; congruence.
Qed.

(** The durable receipt of a segment never changes: once an entry has one,
    every later state of the catalog holds the same receipt, reservation and
    intent for that segment. *)
Lemma receipt_is_immutable config ops s id e rc :
  catalog_wf config s -> entries s !! id = Some e -> ce_receipt e = Some rc ->
  exists e', entries (catalog_runs config ops s) !! id = Some e' /\
    ce_receipt e' = Some rc /\ ce_reservation e' = ce_reservation e /\ ce_intent e' = ce_intent e.
Proof.
  intros Hwf He Hrc.
  apply (catalog_runs_inv config (fun s => catalog_wf config s /\
    exists e', entries s !! id = Some e' /\ ce_receipt e' = Some rc /\
      ce_reservation e' = ce_reservation e /\ ce_intent e' = ce_intent e)); [by eauto 10|].
  intros op s' _ [Hwf' (e1 & He1 & H1 & H2 & H3)]. split; [by apply catalog_run_wf|].
  destruct (catalog_run_entry config op s' id e1 He1) as (e2 & -> & [->|Hs]); [by eauto|].
  exists e2. split; [done|]. destruct (Hwf' _ _ He1) as [_ (_ & _ & _ & Hst)].
  inversion Hs; subst; cbn; try done.
  match goal with H : ce_state e1 = Writing |- _ => rewrite H in Hst end. congruence.
Qed.

(** In a reachable catalog a segment can be located exactly while it is
    committed and not freed; the placement is the one of its receipt on this
    node, and the "committed segment missing placement" corruption never
    occurs. *)
Lemma locate_segment_spec config s id p :
  catalog_wf config s ->
  (locate_segment s id = Ok p <->
   exists e rc, entries s !! id = Some e /\
     (ce_state e = DurablePendingMetadata \/ ce_state e = Referenced \/ ce_state e = Released) /\
     ce_receipt e = Some rc /\ p = sr_placement rc /\
     pl_segment_id p = id /\ pl_storage_node p = cfg_storage_node config /\
     pl_bytes p = rs_bytes (ce_reservation e)) /\
  locate_segment s id <> Err (Corrupt "committed segment missing placement").
Proof.
  intros Hwf. unfold locate_segment.
  destruct (entries s !! id) as [e|] eqn:He; cbn; [|split; [|done]; split; [done|naive_solver]].
  destruct (Hwf _ _ He) as [_ (Hid & _ & _ & Hst)]. unfold receipt_matches in Hst.
  destruct (ce_state e) eqn:Hs; cbn;
    try (split; [|done]; split; [done|intros (? & ? & [= <-] & [?|[?|?]] & _); congruence]);
    destruct Hst as (rc & Hrc & _ & _ & H1 & _ & H2 & _ & _ & H3); rewrite Hrc; cbn;
    (split; [|done]); split; try (intros [= <-]; exists e, rc; rewrite <-Hid; tauto);
    intros (e' & rc' & [= <-] & _ & Hrc' & -> & _); congruence.
Qed.

(** Reserving without an id succeeds for any non-empty segment while the
    128-bit allocator has room, and the id is one that was never used before;
    an empty segment and an exhausted allocator are rejected. *)
Lemma reserve_segment_spec config s intent :
  catalog_wf config s -> 0 <= next_segment_id s < U128_MOD ->
  let id := next_segment_id s in
  entries s !! id = None /\
  (catalog_run config (OpReserve intent) s).1 =
    (if ri_bytes intent =? 0 then Err (InvalidArgument "segment reservation must contain bytes")
     else if id + 1 <? U128_MOD then Ok tt else Err (Conflict "segment id overflow")) /\
  (ri_bytes intent <> 0 -> id + 1 < U128_MOD ->
   (reserve_segment intent s) = (Ok (mkSegmentReservation id (ri_bytes intent)),
     mkCatalogInner (id + 1) (<[id := mkCatalogEntry intent
       (mkSegmentReservation id (ri_bytes intent)) Reserved None]> (entries s)))).
Proof.
  intros Hwf Hn id.
  assert (Hnone : entries s !! id = None).
  { apply eq_None_not_Some. intros [e He]. destruct (Hwf _ _ He) as [Hlt _]. unfold id in Hlt. lia. }
  assert (Hrun : reserve_segment intent s =
    (if ri_bytes intent =? 0 then (Err (InvalidArgument "segment reservation must contain bytes"), s)
     else if id + 1 <? U128_MOD then
       (Ok (mkSegmentReservation id (ri_bytes intent)),
        mkCatalogInner (id + 1) (<[id := mkCatalogEntry intent
         (mkSegmentReservation id (ri_bytes intent)) Reserved None]> (entries s)))
     else (Err (Conflict "segment id overflow"), s))).
  { unfold reserve_segment, reserve_segment_with_id, st_reject_if, st_lift, st_get, st_gets,
      st_put, mret, ST_ret, mbind, ST_bind.
    destruct (ri_bytes intent =? 0) eqn:Hb; cbn [reject_if]; [done|]. fold id.
    rewrite bool_decide_false by (by rewrite Hnone; apply is_Some_None). cbn [reject_if].
    rewrite Z.leb_refl. unfold checked_add. destruct (id + 1 <? U128_MOD); done. }
  split_and!; [done| |].
  - cbn [catalog_run]. unfold mbind, ST_bind. rewrite Hrun.
    destruct (ri_bytes intent =? 0); [done|]. by destruct (id + 1 <? U128_MOD).
  - intros ? ?. rewrite Hrun. ztest. done.
Qed.

(** The counts per state add up to the number of segments. *)
Lemma lifecycle_counts_total s :
  let c := lifecycle_counts s in
  lc_reserved c + lc_writing c + lc_durable_pending c + lc_referenced c + lc_released c +
    lc_freed c = Z.of_nat (size (entries s)).
Proof.
  cbn zeta. unfold lifecycle_counts.
  assert (Hlen : length (bt_values (entries s)) = size (entries s)).
  { unfold bt_values. rewrite length_fmap, bt_iter_perm. apply length_map_to_list. }
  rewrite <-Hlen. change (0 + 0 + 0 + 0 + 0 + 0) with 0.
  generalize (bt_values (entries s)). intros l.
  enough (Hgen : forall c, let c' := fold_left _ l c in
    lc_reserved c' + lc_writing c' + lc_durable_pending c' + lc_referenced c' +
      lc_released c' + lc_freed c' =
    lc_reserved c + lc_writing c + lc_durable_pending c + lc_referenced c +
      lc_released c + lc_freed c + Z.of_nat (length l)) by apply Hgen.
  clear Hlen. induction l as [|e l IH]; intros c; cbn [fold_left length]; [lia|].
  cbn zeta in IH |- *. rewrite IH. destruct (ce_state e), c; cbn; lia.
Qed.

(** ** A concrete catalog *)

Definition demo_node_config : LocalStoreConfig := LocalStoreConfig_default.
Definition demo_reserved : CatalogInner :=
  catalog_runs demo_node_config
    [OpReserve (mkSegmentReservationIntent 5 (OwnBlockDevice 1) 4096)] Catalog_new.

Lemma catalog_op_atomic_witness :
  (catalog_run demo_node_config (OpExpire 77) demo_reserved).2 = demo_reserved.
Proof.
  destruct (catalog_run demo_node_config (OpExpire 77) demo_reserved) as [r s'] eqn:H. cbn [snd].
  apply (catalog_op_atomic demo_node_config (OpExpire 77) demo_reserved r s' H).
  vm_compute in H. injection H as <- _. by eexists.
Defined.

Definition demo_intent_5 : SegmentReservationIntent :=
  mkSegmentReservationIntent 5 (OwnBlockDevice 1) 4096.
Definition demo_freed : CatalogInner := catalog_runs demo_node_config [OpExpire 1] demo_reserved.
Definition demo_freed_entry : CatalogEntry :=
  mkCatalogEntry demo_intent_5 (mkSegmentReservation 1 4096) Freed None.

Lemma freed_is_final_witness :
  entries (catalog_runs demo_node_config [OpMark 1; OpReserveWithId 1 demo_intent_5; OpRelease 1]
    demo_freed) !! 1 = Some demo_freed_entry.
Proof. apply freed_is_final; [by vm_compute|reflexivity]. Defined.

Definition demo_referenced_entry : CatalogEntry :=
  mkCatalogEntry demo_intent_5 (mkSegmentReservation 1 4096) Referenced None.
Lemma referenced_until_released_witness :
  entries (catalog_runs demo_node_config [OpExpire 1; OpFreeOrphan 1; OpDelete 1; OpRelease 2]
    (mkCatalogInner 2 {[1 := demo_referenced_entry]})) !! 1 = Some demo_referenced_entry.
Proof. apply referenced_until_released; [by vm_compute|reflexivity|]. set_solver. Defined.
