(* ===== verification/SegmentStore.v ===== *)
(** * The segment store ([local/segment_store.rs])

    The payload bytes of one storage node.  A buffer that a Rust function
    fills is an argument (its length is checked) and the filled buffer is the
    result. *)

From S2P Require Import Prelude Api Object Provider Config Catalog.

(** ** State *)

Record SegmentRecord := mkSegmentRecord {
  sg_bytes : list Z;
  sg_synced : bool;
  sg_commit : SegmentReplicaCommit;
}.

Record SegmentStoreInner := mkSegmentStoreInner {
  next_offset : Z;
  segments : gmap SegmentId SegmentRecord;
}.

Record DurableSegmentPayload := mkDurableSegmentPayload {
  dp_segment_id : SegmentId;
  dp_storage_node : StorageNodeId;
  dp_integrity : SegmentPayloadIntegrity;
  dp_bytes : list Z;
}.

Definition SegmentStore_new : SegmentStoreInner := mkSegmentStoreInner 0 ∅.

(** ** Operations *)

Section store.
Context {CR : Crc32cCrate}.
Context (config : LocalStoreConfig).

Definition write_segment_owned (reservation : SegmentReservation) (bytes : list Z)
    (payload_integrity : PayloadIntegrity) : ST SegmentStoreInner SegmentReplicaCommit :=
  st_lift (LocalStoreConfig_validate config);;
  st_reject_if (bool_decide (bytes = []))
    (InvalidArgument "segment write must contain bytes");;
  bytes_len ← st_lift (len_u64 bytes (InvalidArgument "segment write length overflows u64"));
  st_reject_if (negb (rs_bytes reservation =? bytes_len))
    (InvalidArgument "reservation byte count does not match write length");;
  st_reject_if (negb (bytes_len mod cfg_block_size config =? 0))
    (InvalidArgument "segment write length must be block aligned");;
  let integrity := segment_payload_integrity payload_integrity bytes in
  inner ← st_get;
  match segments inner !! rs_segment_id reservation with
  | Some existing =>
      if bool_decide (sg_bytes existing = bytes) then mret (sg_commit existing)
      else st_lift (Err (Conflict "segment ID already exists with different bytes"))
  | None =>
      let offset := next_offset inner in
      next ← st_lift (ok_or (checked_add U64_MOD (next_offset inner) (rs_bytes reservation))
        (Conflict "local segment offset overflow"));
      let blocks := rs_bytes reservation `div` cfg_block_size config in
      let commit := mkSegmentReplicaCommit
        (mkSegmentDescriptor (rs_segment_id reservation) blocks (rs_bytes reservation) integrity)
        (mkSegmentReplicaPlacement (rs_segment_id reservation) (cfg_storage_node config)
          offset (rs_bytes reservation)) in
      st_put (mkSegmentStoreInner next
        (<[rs_segment_id reservation := mkSegmentRecord bytes false commit]> (segments inner)));;
      mret commit
  end.

Definition sync_segment (segment_id : SegmentId) : ST SegmentStoreInner unit :=
  inner ← st_get;
  record ← st_lift (ok_or (segments inner !! segment_id) (not_found "segment" segment_id));
  st_put (mkSegmentStoreInner (next_offset inner)
    (<[segment_id := mkSegmentRecord (sg_bytes record) true (sg_commit record)]>
      (segments inner))).

Definition store_delete_segment (segment_id : SegmentId) : ST SegmentStoreInner unit :=
  st_modify (fun inner =>
    mkSegmentStoreInner (next_offset inner) (delete segment_id (segments inner))).

Definition store_read_segment (inner : SegmentStoreInner) (segment_id : SegmentId)
    (range : ByteRange) (buf : list Z) : Result (list Z) :=
  record ← ok_or (segments inner !! segment_id) (not_found "segment" segment_id);
  reject_if (negb (sg_synced record)) (Unavailable "segment is not synced");;
  end_ ← ByteRange_end_exclusive range;
  record_len ← len_u64 (sg_bytes record) (InvalidArgument "segment byte length overflows u64");
  reject_if (record_len <? end_) (InvalidArgument "segment read extends past end of segment");;
  buf_len ← len_u64 buf (InvalidArgument "read buffer length overflows u64");
  reject_if (negb (buf_len =? br_len range))
    (InvalidArgument "read buffer length must match range length");;
  Ok (slice (sg_bytes record) (br_offset range) (br_len range)).

Definition verify_segment_payload_for_read (inner : SegmentStoreInner) (segment_id : SegmentId)
    (verification : ReadVerification) : Result unit :=
  match verification with
  | RvSkip => Ok tt
  | _ =>
      record ← ok_or (segments inner !! segment_id) (not_found "segment" segment_id);
      match sd_integrity (rcm_descriptor (sg_commit record)) with
      | SpUnchecked =>
          match verification with
          | RvRequireVerified =>
              Err (Conflict "read requires verified payload but segment is unchecked")
          | _ => Ok tt
          end
      | Crc32c crc => verify_segment_payload_integrity (Crc32c crc) (sg_bytes record)
      end
  end.

Definition is_synced (inner : SegmentStoreInner) (segment_id : SegmentId) : Result bool :=
  ok_or (sg_synced <$> segments inner !! segment_id) (not_found "segment" segment_id).

Definition store_contains_segment (inner : SegmentStoreInner) (segment_id : SegmentId) : bool :=
  bool_decide (is_Some (segments inner !! segment_id)).

Definition segment_ids (inner : SegmentStoreInner) : gset SegmentId := dom (segments inner).

(** ** Exports to the durable layer *)

Definition payload_of (storage_node : StorageNodeId) (segment_id : SegmentId)
    (record : SegmentRecord) : DurableSegmentPayload :=
  mkDurableSegmentPayload segment_id storage_node
    (sd_integrity (rcm_descriptor (sg_commit record))) (sg_bytes record).

Definition state_inner_for_persist (inner : SegmentStoreInner)
    (previous_segments : gset SegmentId) (storage_node : StorageNodeId)
    : SegmentStoreInner * gset SegmentId * list DurableSegmentPayload :=
  let '(current, new) := fold_left (fun '(current, new) '(segment_id, record) =>
      ({[ segment_id ]} ∪ current,
       if bool_decide (segment_id ∈ previous_segments) then new
       else new ++ [payload_of storage_node segment_id record]))
    (bt_iter (segments inner)) ((∅ : gset Z), []) in
  (mkSegmentStoreInner (next_offset inner) ∅, current, new).

Definition payload_for_segment (inner : SegmentStoreInner) (storage_node : StorageNodeId)
    (segment_id : SegmentId) : Result DurableSegmentPayload :=
  record ← ok_or (segments inner !! segment_id) (not_found "segment" segment_id);
  Ok (payload_of storage_node segment_id record).

Definition payloads_for_segments (inner : SegmentStoreInner) (storage_node : StorageNodeId)
    (selected previous_segments : gset SegmentId) : Result (Z * list DurableSegmentPayload) :=
  payloads ← try_map (payload_for_segment inner storage_node)
    (filter (fun id => id ∉ previous_segments) (bs_iter selected));
  Ok (next_offset inner, payloads).

(** ** Invariant *)

(** A stored record is what its commit says: its key, its size, whole blocks,
    its place on this node, and its checksum when it has one. *)
Definition record_wf (id : SegmentId) (r : SegmentRecord) : Prop :=
  let c := sg_commit r in
  sg_bytes r <> [] /\
  sd_segment_id (rcm_descriptor c) = id /\ pl_segment_id (rcm_placement c) = id /\
  pl_storage_node (rcm_placement c) = cfg_storage_node config /\
  sd_bytes (rcm_descriptor c) = Z.of_nat (length (sg_bytes r)) /\
  pl_bytes (rcm_placement c) = Z.of_nat (length (sg_bytes r)) /\
  sd_blocks (rcm_descriptor c) * cfg_block_size config = Z.of_nat (length (sg_bytes r)) /\
  verify_segment_payload_integrity (sd_integrity (rcm_descriptor c)) (sg_bytes r) = Ok tt.

Definition pl_end (p : SegmentReplicaPlacement) : Z := pl_offset p + pl_bytes p.

(** Placements are below the allocation cursor and pairwise disjoint. *)
Definition store_wf (s : SegmentStoreInner) : Prop :=
  in_u64 (next_offset s) /\
  map_Forall (fun id r => record_wf id r /\
    0 <= pl_offset (rcm_placement (sg_commit r)) /\
    pl_end (rcm_placement (sg_commit r)) <= next_offset s) (segments s) /\
  forall i j ri rj, i <> j -> segments s !! i = Some ri -> segments s !! j = Some rj ->
    pl_end (rcm_placement (sg_commit ri)) <= pl_offset (rcm_placement (sg_commit rj)) \/
    pl_end (rcm_placement (sg_commit rj)) <= pl_offset (rcm_placement (sg_commit ri)).

Inductive store_op :=
| SoWrite (reservation : SegmentReservation) (bytes : list Z) (pi : PayloadIntegrity)
| SoSync (id : SegmentId)
| SoDelete (id : SegmentId).

Definition store_run (op : store_op) : ST SegmentStoreInner unit :=
  match op with
  | SoWrite r b pi => write_segment_owned r b pi;; mret tt
  | SoSync id => sync_segment id
  | SoDelete id => store_delete_segment id
  end.

Definition store_runs (ops : list store_op) (s : SegmentStoreInner) : SegmentStoreInner :=
  fold_left (fun s op => (store_run op s).2) ops s.
End store.

(** ** Properties *)

Section store_props.
Context {CR : Crc32cCrate}.
Context (config : LocalStoreConfig).

(** The commit record of a fresh write. *)
Definition fresh_commit (r : SegmentReservation) (bytes : list Z) (pi : PayloadIntegrity)
    (offset : Z) : SegmentReplicaCommit :=
  mkSegmentReplicaCommit
    (mkSegmentDescriptor (rs_segment_id r) (rs_bytes r `div` cfg_block_size config) (rs_bytes r)
      (segment_payload_integrity pi bytes))
    (mkSegmentReplicaPlacement (rs_segment_id r) (cfg_storage_node config) offset (rs_bytes r)).

Definition write_allowed (r : SegmentReservation) (bytes : list Z) : Prop :=
  LocalStoreConfig_validate config = Ok tt /\ bytes <> [] /\
  rs_bytes r = Z.of_nat (length bytes) /\ in_u64 (rs_bytes r) /\
  rs_bytes r mod cfg_block_size config = 0.

Definition write_effect (r : SegmentReservation) (bytes : list Z) (pi : PayloadIntegrity)
    (s : SegmentStoreInner) (c : SegmentReplicaCommit) (s' : SegmentStoreInner) : Prop :=
  match segments s !! rs_segment_id r with
  | Some existing => sg_bytes existing = bytes /\ c = sg_commit existing /\ s' = s
  | None =>
      next_offset s + rs_bytes r < U64_MOD /\ c = fresh_commit r bytes pi (next_offset s) /\
      s' = mkSegmentStoreInner (next_offset s + rs_bytes r)
        (<[rs_segment_id r := mkSegmentRecord bytes false c]> (segments s))
  end.

Lemma write_segment_Ok r bytes pi s c s' :
  write_segment_owned config r bytes pi s = (Ok c, s') <->
  write_allowed r bytes /\ write_effect r bytes pi s c s'.
Proof.
  unfold write_segment_owned, write_allowed, write_effect, st_reject_if, st_lift, st_get, st_put.
  unfold mret, ST_ret, mbind, ST_bind.
  destruct (LocalStoreConfig_validate config) as [[]|e]; [|naive_solver].
  case_bool_decide as Hb; cbn [reject_if]; [naive_solver|].
  unfold len_u64, in_u64. destruct (_ <? U64_MOD) eqn:Hl; bool_prop; [|naive_solver lia].
  destruct (rs_bytes r =? _) eqn:Hr; cbn [negb reject_if]; bool_prop; [|naive_solver].
  rewrite <-Hr in *. destruct (_ mod _ =? 0) eqn:Hm; cbn [negb reject_if]; bool_prop; [|naive_solver].
  destruct (segments s !! _) as [ex|] eqn:Hex.
  - case_bool_decide; naive_solver lia.
  - unfold checked_add. destruct (next_offset s + _ <? _) eqn:Ho; cbn [ok_or]; bool_prop.
    + split; [intros [= <- <-]|intros (_ & _ & -> & ->); done]. split_and!; naive_solver lia.
    + split; [done|]. intros (_ & ? & _). lia.
Qed.

Lemma write_segment_Err r bytes pi s e s' :
  write_segment_owned config r bytes pi s = (Err e, s') -> s' = s.
Proof.
  unfold write_segment_owned, st_reject_if, st_lift, st_get, st_put, mret, ST_ret, mbind, ST_bind.
  intros H. repeat (case_match; simplify_eq; try done).
Qed.

Lemma fresh_record_wf r bytes pi s :
  write_allowed r bytes ->
  record_wf config (rs_segment_id r)
    (mkSegmentRecord bytes false (fresh_commit r bytes pi (next_offset s))).
Proof.
  intros (Hv & Hb & Hr & Hu & Hm). apply config_valid in Hv as (_ & Hbs & _).
  unfold record_wf. cbn. rewrite Hr in *.
  split_and!; try done.
  - rewrite (Z_div_mod_eq_full (Z.of_nat (length bytes)) (cfg_block_size config)) at 2. lia.
  - apply verify_integrity_ok.
Qed.

Lemma store_run_wf op s : store_wf config s -> store_wf config (store_run config op s).2.
Proof.
  intros (Hn & Hrec & Hdisj). destruct op as [r bytes pi|id|id]; cbn [store_run].
  - unfold mbind, ST_bind. destruct (write_segment_owned config r bytes pi s) as [[c|e] s'] eqn:Hw;
      cbn; [|by rewrite (write_segment_Err _ _ _ _ _ _ Hw)].
    apply write_segment_Ok in Hw as [Hok Hw]. unfold write_effect in Hw.
    destruct (segments s !! rs_segment_id r) as [ex|] eqn:Hex; [by destruct Hw as (_ & _ & ->)|].
    destruct Hw as (Hlt & -> & ->). pose proof Hok as (_ & _ & Hr & Hu & _).
    unfold store_wf, in_u64 in *. cbn [next_offset segments]. split_and!; [lia|lia| |].
    + intros id rec [[<- <-]|[Hne Hl]]%lookup_insert_Some.
      * split; [by apply fresh_record_wf|]. cbn. unfold pl_end. cbn. lia.
      * destruct (Hrec _ _ Hl) as (? & ? & ?). split_and!; [done..|lia].
    + intros i j ri rj Hij [[<- <-]|[Hne1 Hi]]%lookup_insert_Some
        [[<- <-]|[Hne2 Hj]]%lookup_insert_Some; unfold pl_end in *; cbn in *; try done; eauto.
      * right. destruct (Hrec _ _ Hj) as (_ & _ & ?). unfold pl_end in *. lia.
      * left. destruct (Hrec _ _ Hi) as (_ & _ & ?). unfold pl_end in *. lia.
  - unfold sync_segment, st_get, st_lift, st_put, mbind, ST_bind.
    destruct (segments s !! id) as [rec|] eqn:Hid; cbn; [|done].
    assert (Hc : forall i ri, <[id:=mkSegmentRecord (sg_bytes rec) true (sg_commit rec)]>
      (segments s) !! i = Some ri ->
      exists r0, segments s !! i = Some r0 /\ sg_commit ri = sg_commit r0 /\ sg_bytes ri = sg_bytes r0).
    { intros i ri [[<- <-]|[_ Hi]]%lookup_insert_Some; eauto. }
    split_and!; [done| |].
    + intros i ri (r0 & H0 & Hc1 & Hb1)%Hc. destruct (Hrec _ _ H0) as (Hwf & ? & ?).
      unfold record_wf in *. rewrite Hc1, Hb1. cbn. tauto.
    + intros i j ri rj Hij (r0 & H0 & -> & _)%Hc (r1 & H1 & -> & _)%Hc. eauto.
  - unfold store_delete_segment, st_modify, store_wf. cbn [snd next_offset segments]. split_and!; [done| |].
    + intros i ri [_ Hi]%lookup_delete_Some. by apply Hrec.
    + intros i j ri rj Hij [_ Hi]%lookup_delete_Some [_ Hj]%lookup_delete_Some. eauto.
Qed.

Lemma store_runs_inv (P : SegmentStoreInner -> Prop) ops s :
  P s -> (forall op s, op ∈ ops -> P s -> P (store_run config op s).2) ->
  P (store_runs config ops s).
Proof.
  unfold store_runs. revert s. induction ops as [|op ops IH]; intros s Hs Hstep; cbn; [done|].
  apply IH.
  - apply Hstep; [by left|done].
  - intros op' s' Hin. apply Hstep. by right.
Qed.

Lemma store_new_wf : store_wf config SegmentStore_new.
Proof.
  split_and!; [done..|intros i j ri rj _ H; cbn in H; by rewrite lookup_empty in H].
Qed.

(** After any sequence of writes, syncs and deletes, every stored segment
    is whole blocks of exactly the size its commit says, on this node, passes
    its own checksum, and no two segments share a byte of the log. *)
Lemma store_reachable_wf ops : store_wf config (store_runs config ops SegmentStore_new).
Proof.
  apply store_runs_inv; [apply store_new_wf|by auto using store_run_wf].
Qed.

Lemma store_run_keeps_bytes op s id r :
  segments s !! id = Some r -> op <> SoDelete id ->
  exists r', segments (store_run config op s).2 !! id = Some r' /\ sg_bytes r' = sg_bytes r /\
    sg_commit r' = sg_commit r /\ (sg_synced r = true -> sg_synced r' = true).
Proof.
  intros Hr Hop. destruct op as [res bytes pi|id'|id']; cbn [store_run].
  - unfold mbind, ST_bind. destruct (write_segment_owned config res bytes pi s) as [[c|e] s'] eqn:Hw;
      cbn; [|rewrite (write_segment_Err _ _ _ _ _ _ Hw); by eauto].
    apply write_segment_Ok in Hw as [_ Hw]. unfold write_effect in Hw.
    destruct (segments s !! rs_segment_id res) as [ex|] eqn:Hex; [destruct Hw as (_ & _ & ->); by eauto|].
    destruct Hw as (_ & -> & ->). cbn. rewrite lookup_insert_ne by congruence. eauto.
  - unfold sync_segment, st_get, st_lift, st_put, mbind, ST_bind.
    destruct (segments s !! id') as [rec|] eqn:Hid; cbn; [|by eauto].
    destruct (decide (id' = id)) as [->|]; [rewrite lookup_insert_eq|rewrite lookup_insert_ne by done];
      simplify_eq; eauto.
  - cbn. rewrite lookup_delete_ne by congruence. eauto.
Qed.

(** C29: segments are immutable: until a segment itself is deleted, no operation
    changes its bytes or its commit record, or makes it unsynced. *)
Theorem segment_immutable ops s id r :
  segments s !! id = Some r -> SoDelete id ∉ ops ->
  exists r', segments (store_runs config ops s) !! id = Some r' /\
    sg_bytes r' = sg_bytes r /\ sg_commit r' = sg_commit r /\
    (sg_synced r = true -> sg_synced r' = true).
Proof.
  intros Hr Hno.
  apply (store_runs_inv (fun s => exists r', segments s !! id = Some r' /\
    sg_bytes r' = sg_bytes r /\ sg_commit r' = sg_commit r /\
    (sg_synced r = true -> sg_synced r' = true))); [by eauto|].
  intros op s1 Hop (r1 & H1 & Hb & Hc & Hs).
  destruct (store_run_keeps_bytes op s1 id r1 H1) as (r2 & H2 & Hb2 & Hc2 & Hs2); [by intros ->|].
  exists r2. split_and!; [done|congruence|congruence|auto].
Qed.

Lemma read_segment_Ok s id range buf out :
  store_read_segment s id range buf = Ok out <->
  exists r, segments s !! id = Some r /\ sg_synced r = true /\
    br_offset range + br_len range < U64_MOD /\ in_u64 (Z.of_nat (length (sg_bytes r))) /\
    br_offset range + br_len range <= Z.of_nat (length (sg_bytes r)) /\
    Z.of_nat (length buf) = br_len range /\ in_u64 (br_len range) /\
    out = slice (sg_bytes r) (br_offset range) (br_len range).
Proof.
  unfold store_read_segment, ByteRange_end_exclusive. split.
  - intros Hr. apply bind_Ok in Hr as (r & Hr%ok_or_Ok & H). exists r.
    ok_inv. bool_prop. subst. split_and!; try done; congruence.
  - intros (r & -> & Hs & Hlt & Hu & Hle & Hb & Hbu & ->). cbn. rewrite Hs. cbn.
    rewrite checked_add_ok by done. cbn. unfold len_u64. u64_unfold. ztest. done.
Qed.

(** What was written is what is read: after a successful write and sync,
    reading any range inside the segment into a buffer of that size returns
    exactly those bytes, and the payload passes verification. *)
Lemma segment_write_sync_read r bytes pi s c s1 s2 off len buf :
  write_segment_owned config r bytes pi s = (Ok c, s1) ->
  sync_segment (rs_segment_id r) s1 = (Ok tt, s2) ->
  0 <= off -> 0 <= len -> off + len <= Z.of_nat (length bytes) ->
  Z.of_nat (length buf) = len ->
  store_read_segment s2 (rs_segment_id r) (mkByteRange off len) buf = Ok (slice bytes off len).
Proof.
  intros [Hok Hw]%write_segment_Ok Hsync Hoff Hlen Hle Hbuf.
  assert (Hb1 : exists r1, segments s1 !! rs_segment_id r = Some r1 /\ sg_bytes r1 = bytes).
  { unfold write_effect in Hw. destruct (segments s !! _) as [ex|] eqn:Hex.
    - destruct Hw as (? & _ & ->). eauto.
    - destruct Hw as (_ & _ & ->). cbn. rewrite lookup_insert_eq. eauto. }
  destruct Hb1 as (r1 & Hr1 & Hbytes).
  unfold sync_segment, st_get, st_lift, st_put, mbind, ST_bind in Hsync.
  rewrite Hr1 in Hsync. cbn in Hsync. injection Hsync as <-.
  destruct Hok as (_ & _ & Hrb & Hu & _). u64_unfold.
  apply read_segment_Ok. eexists. cbn. rewrite lookup_insert_eq. split; [done|]. cbn.
  subst bytes. u64_unfold. split_and!; try done; lia.
Qed.

(** Writing is idempotent and never overwrites: repeating a successful
    write returns the same commit and leaves the store alone, and a write of
    different bytes under a used segment id is a conflict without effect. *)
Lemma segment_write_once r bytes pi s c s' :
  write_segment_owned config r bytes pi s = (Ok c, s') ->
  write_segment_owned config r bytes pi s' = (Ok c, s') /\
  forall bytes' pi', bytes' <> bytes -> write_allowed r bytes' ->
    write_segment_owned config r bytes' pi' s' =
      (Err (Conflict "segment ID already exists with different bytes"), s').
Proof.
  intros [Hok Hw]%write_segment_Ok.
  assert (Hr : exists ex, segments s' !! rs_segment_id r = Some ex /\ sg_bytes ex = bytes /\
    sg_commit ex = c).
  { unfold write_effect in Hw. destruct (segments s !! _) as [ex|] eqn:Hex.
    - destruct Hw as (? & -> & ->). eauto.
    - destruct Hw as (_ & -> & ->). cbn. rewrite lookup_insert_eq. eauto. }
  destruct Hr as (ex & Hex & Hb & Hc). split.
  { apply write_segment_Ok. split; [done|]. unfold write_effect. by rewrite Hex. }
  intros bytes' pi' Hne Hok'. destruct Hok' as (Hv & Hnil & Hrb & Hu & Hm).
  unfold write_segment_owned, st_reject_if, st_lift, st_get, mbind, ST_bind.
  rewrite Hv, bool_decide_false by done. cbn [reject_if].
  unfold len_u64. rewrite <-Hrb. rewrite (proj2 (Z.ltb_lt _ _)) by apply Hu.
  rewrite Z.eqb_refl, Hm. cbn. rewrite Hex, bool_decide_false by congruence. done.
Qed.
End store_props.

(** ** A concrete store *)

Definition demo_store_config : LocalStoreConfig := mkLocalStoreConfig 1 2 1 4 4 1 1024 None.
Definition demo_store_write : store_op := SoWrite (mkSegmentReservation 3 2) [7; 8] Verified.
Definition demo_store : SegmentStoreInner :=
  @store_runs sum_crc demo_store_config [demo_store_write; SoSync 3] SegmentStore_new.

Lemma segment_immutable_witness :
  exists r, segments (@store_runs sum_crc demo_store_config
      [SoWrite (mkSegmentReservation 3 2) [1; 1] Unchecked; SoDelete 4] demo_store) !! 3 = Some r /\
    sg_bytes r = [7; 8].
Proof.
  destruct (segments demo_store !! 3) as [r|] eqn:H; [|by vm_compute in H].
  destruct (@segment_immutable sum_crc demo_store_config
    [SoWrite (mkSegmentReservation 3 2) [1; 1] Unchecked; SoDelete 4] demo_store 3 r H)
    as (r' & Hr' & Hb & _).
  - set_solver.
  - exists r'. split; [exact Hr'|]. rewrite Hb. vm_compute in H. by injection H as <-.
Defined.

Lemma segment_write_sync_read_witness :
  store_read_segment demo_store 3 (mkByteRange 1 1) [0] = Ok [8].
Proof.
  destruct (@write_segment_owned sum_crc demo_store_config (mkSegmentReservation 3 2) [7; 8] Verified
    SegmentStore_new) as [[c|e] s1] eqn:H; [|by vm_compute in H].
  apply (@segment_write_sync_read sum_crc demo_store_config (mkSegmentReservation 3 2) [7; 8] Verified
    SegmentStore_new c s1 demo_store 1 1 [0]); [exact H| |lia|lia|vm_compute; discriminate|reflexivity].
  vm_compute in H. injection H as <- <-. by vm_compute.
Defined.
