(* ===== verification/StorageNode.v ===== *)
(** * Storage nodes and their registry ([local/storage_node.rs])

    A storage node is a segment store and a segment catalog behind the request
    interface [send]; the registry routes to the nodes, places new segments and
    allocates segment ids.  Observability counters and timings are left out. *)

From S2P Require Import Prelude Api Object Provider Authority Config Catalog SegmentStore.

Definition LOCAL_STORAGE_NODE_INCARNATION : Z := 1.

(** ** One node *)

Record LocalStorageNode := mkLocalStorageNode {
  ln_storage_node : StorageNodeId;
  ln_config : LocalStoreConfig;
  ln_store : SegmentStoreInner;
  ln_catalog : CatalogInner;
}.

Definition on_store {A} (m : ST SegmentStoreInner A) : ST LocalStorageNode A :=
  fun n => let '(r, s) := m (ln_store n) in
    (r, mkLocalStorageNode (ln_storage_node n) (ln_config n) s (ln_catalog n)).
Definition on_catalog {A} (m : ST CatalogInner A) : ST LocalStorageNode A :=
  fun n => let '(r, c) := m (ln_catalog n) in
    (r, mkLocalStorageNode (ln_storage_node n) (ln_config n) (ln_store n) c).

(** [verify_read_integrity_policy] ([local/read_path.rs]). *)
Definition verify_read_integrity_policy (integrity : SegmentPayloadIntegrity)
    (verification : ReadVerification) : Result unit :=
  match integrity, verification with
  | SpUnchecked, RvRequireVerified =>
      Err (Conflict "read requires verified payload but source is unchecked")
  | _, _ => Ok tt
  end.

Record StorageNodeCustodianReport := mkStorageNodeCustodianReport {
  cr_expired_reservations : list SegmentId;
  cr_failed_writes : list SegmentId;
  cr_orphan_segments : list SegmentId;
  cr_deleted_released_segments : list SegmentId;
}.

Record StorageNodeMaintenanceObservation := mkStorageNodeMaintenanceObservation {
  mo_storage_node : StorageNodeId;
  mo_counts : CatalogLifecycleCounts;
}.

Record StorageNodeMaintenanceReport := mkStorageNodeMaintenanceReport {
  mr_storage_node : StorageNodeId;
  mr_deleted_released_segments : list SegmentId;
  mr_skipped_segments : list SegmentId;
}.

Inductive StorageNodeRequest :=
| SnWriteSegment (grant : WriteGrant) (bytes : list Z)
| SnReadSegment (segment_id : SegmentId) (range : ByteRange)
| SnMarkReferenced (evidence : ReferenceEvidence)
| SnRelease (segment_id : SegmentId)
| SnRunCustodian (expired_write_intents : gset WriteIntentId)
| SnObserveMaintenance
| SnRunMaintenanceTick.

Inductive StorageNodeResponse :=
| SnrWriteSegment (receipt : SegmentWriteReceipt)
| SnrReadSegment (bytes : list Z)
| SnrMarkReferenced
| SnrReleased
| SnrCustodian (report : StorageNodeCustodianReport)
| SnrMaintenanceObserved (observation : StorageNodeMaintenanceObservation)
| SnrMaintenanceTicked (report : StorageNodeMaintenanceReport).

Section node.
Context {CR : Crc32cCrate}.

Definition read_segment_with_integrity (self : LocalStorageNode) (segment_id : SegmentId)
    (range : ByteRange) (integrity : SegmentPayloadIntegrity) (verification : ReadVerification)
    (buf : list Z) : Result (list Z) :=
  receipt ← receipt_for_segment (ln_catalog self) segment_id;
  reject_if (negb (sr_storage_node receipt =? ln_storage_node self) ||
      negb (sr_segment_id receipt =? segment_id) ||
      negb (bool_decide (sr_integrity receipt = integrity)))
    (Corrupt "read plan segment source disagrees with storage-node catalog");;
  verify_read_integrity_policy integrity verification;;
  verify_segment_payload_for_read (ln_store self) segment_id verification;;
  store_read_segment (ln_store self) segment_id range buf.

(** The retry branch of [write_segment]: the segment is already known. *)
Definition write_segment_duplicate (grant : WriteGrant) (grant_hash : GrantHash)
    (bytes : list Z) (bytes_len : Z) (self : LocalStorageNode) : Result SegmentWriteReceipt :=
  receipt ← receipt_for_segment (ln_catalog self) (wg_segment_id grant);
  verify_segment_receipt receipt;;
  let conflict := Conflict "duplicate segment write conflicts with existing receipt" in
  if (sr_grant_id receipt =? wg_grant_id grant) &&
     bool_decide (sr_grant_hash receipt = grant_hash) &&
     (sr_bytes receipt =? bytes_len) &&
     bool_decide (sr_integrity receipt =
       segment_payload_integrity (wg_payload_integrity grant) bytes)
  then
    existing ← store_read_segment (ln_store self) (wg_segment_id grant)
      (mkByteRange 0 bytes_len) (zeros bytes_len);
    if bool_decide (existing = bytes) then Ok receipt else Err conflict
  else Err conflict.

Definition write_segment (grant : WriteGrant) (bytes : list Z)
    : ST LocalStorageNode SegmentWriteReceipt :=
  self ← st_get;
  bytes_len ← st_lift (len_u64 bytes (InvalidArgument "segment write length overflows u64"));
  grant_hash ← st_lift (verify_write_grant_and_hash grant (ln_storage_node self)
    (wg_segment_id grant) bytes_len);
  if contains_segment (ln_catalog self) (wg_segment_id grant)
  then st_ask (write_segment_duplicate grant grant_hash bytes bytes_len)
  else
    let intent := mkSegmentReservationIntent (wg_write_intent grant) (wg_owner grant)
      (wg_max_bytes grant) in
    reservation ← on_catalog (reserve_segment_with_id (wg_segment_id grant) intent);
    on_catalog (begin_write reservation);;
    commit ← on_store (write_segment_owned (ln_config self) reservation bytes
      (wg_payload_integrity grant));
    on_store (sync_segment (rs_segment_id reservation));;
    receipt ← st_lift (create_segment_receipt_after_verified_write grant grant_hash commit
      LOCAL_STORAGE_NODE_INCARNATION);
    on_catalog (commit_segment (ln_config self) reservation receipt);;
    mret receipt.

Definition node_mark_segment_referenced (evidence : ReferenceEvidence)
    : ST LocalStorageNode unit :=
  self ← st_get;
  let segment_id := ev_segment_id evidence in
  st_lift (verify_reference_evidence evidence segment_id (ln_storage_node self));;
  on_catalog (mark_segment_referenced segment_id).

Definition observe_maintenance (self : LocalStorageNode) : StorageNodeMaintenanceObservation :=
  mkStorageNodeMaintenanceObservation (ln_storage_node self)
    (lifecycle_counts (ln_catalog self)).

(** One entry of [run_maintenance_tick]; the loop iterates over the snapshot of
    the entries taken before it starts. *)
Definition maintenance_entry (acc : list SegmentId * list SegmentId)
    (entry : SegmentId * SegmentLifecycleState * WriteIntentId)
    : ST LocalStorageNode (list SegmentId * list SegmentId) :=
  let '(segment_id, state, _) := entry in
  let '(deleted, skipped) := acc in
  match state with
  | Released =>
      on_catalog (catalog_delete_segment segment_id);;
      on_store (store_delete_segment segment_id);;
      mret (deleted ++ [segment_id], skipped)
  | Reserved | Writing | DurablePendingMetadata => mret (deleted, skipped ++ [segment_id])
  | _ => mret (deleted, skipped)
  end.

Definition run_maintenance_tick : ST LocalStorageNode StorageNodeMaintenanceReport :=
  self ← st_get;
  acc ← st_fold maintenance_entry ([], []) (catalog_entries (ln_catalog self));
  mret (mkStorageNodeMaintenanceReport (ln_storage_node self) acc.1 acc.2).

(** One entry of [run_custodian]. *)
Definition custodian_entry (expired_write_intents : gset WriteIntentId)
    (report : StorageNodeCustodianReport)
    (entry : SegmentId * SegmentLifecycleState * WriteIntentId)
    : ST LocalStorageNode StorageNodeCustodianReport :=
  let '(segment_id, state, write_intent) := entry in
  let '(mkStorageNodeCustodianReport er fw os dr) := report in
  let expired := bool_decide (write_intent ∈ expired_write_intents) in
  match state, expired with
  | Reserved, true =>
      on_catalog (expire_reservation segment_id);;
      on_store (store_delete_segment segment_id);;
      mret (mkStorageNodeCustodianReport (er ++ [segment_id]) fw os dr)
  | Writing, true =>
      on_catalog (fail_write segment_id);;
      on_store (store_delete_segment segment_id);;
      mret (mkStorageNodeCustodianReport er (fw ++ [segment_id]) os dr)
  | DurablePendingMetadata, true =>
      on_catalog (free_orphan_segment segment_id);;
      on_store (store_delete_segment segment_id);;
      mret (mkStorageNodeCustodianReport er fw (os ++ [segment_id]) dr)
  | Released, _ =>
      on_catalog (catalog_delete_segment segment_id);;
      on_store (store_delete_segment segment_id);;
      mret (mkStorageNodeCustodianReport er fw os (dr ++ [segment_id]))
  | _, _ => mret report
  end.

Definition run_custodian (expired_write_intents : gset WriteIntentId)
    : ST LocalStorageNode StorageNodeCustodianReport :=
  self ← st_get;
  st_fold (custodian_entry expired_write_intents) (mkStorageNodeCustodianReport [] [] [] [])
    (catalog_entries (ln_catalog self)).

(** [StorageNodeTransport::send]. *)
Definition send (request : StorageNodeRequest) : ST LocalStorageNode StorageNodeResponse :=
  match request with
  | SnWriteSegment grant bytes =>
      receipt ← write_segment grant bytes; mret (SnrWriteSegment receipt)
  | SnReadSegment segment_id range =>
      bytes ← st_ask (fun self =>
        store_read_segment (ln_store self) segment_id range (zeros (br_len range)));
      mret (SnrReadSegment bytes)
  | SnMarkReferenced evidence =>
      node_mark_segment_referenced evidence;; mret SnrMarkReferenced
  | SnRelease segment_id => on_catalog (release_segment segment_id);; mret SnrReleased
  | SnRunCustodian expired => report ← run_custodian expired; mret (SnrCustodian report)
  | SnObserveMaintenance => st_gets (fun self => SnrMaintenanceObserved (observe_maintenance self))
  | SnRunMaintenanceTick => report ← run_maintenance_tick; mret (SnrMaintenanceTicked report)
  end.
End node.

(** ** The registry *)

Record StorageNodeRegistry := mkStorageNodeRegistry {
  rg_config : LocalStoreConfig;
  node_order : list StorageNodeId;
  nodes : gmap StorageNodeId LocalStorageNode;
  next_placement_index : Z;
  rg_next_segment_id : Z;
}.

Definition Registry_new (config : LocalStoreConfig) (storage_nodes : list StorageNodeId)
    : Result StorageNodeRegistry :=
  LocalStoreConfig_validate config;;
  let order := normalize_storage_nodes (cfg_storage_node config) storage_nodes in
  nodes ← try_fold (fun nodes node_id =>
      let node_config := for_storage_node config node_id in
      LocalStoreConfig_validate node_config;;
      Ok (<[node_id := mkLocalStorageNode node_id node_config SegmentStore_new Catalog_new]> nodes))
    (∅ : gmap Z LocalStorageNode) order;
  Ok (mkStorageNodeRegistry config order nodes 0 1).

(** The persisted image of a registry. *)
Record StorageNodeInner := mkStorageNodeInner {
  si_segment_store : SegmentStoreInner;
  si_segment_catalog : CatalogInner;
}.

Record StorageNodeRegistryInner := mkStorageNodeRegistryInner {
  rgi_next_segment_id : Z;
  rgi_next_placement_index : Z;
  rgi_node_order : list StorageNodeId;
  rgi_nodes : gmap StorageNodeId StorageNodeInner;
}.

Definition Registry_from_inner (config : LocalStoreConfig) (inner : StorageNodeRegistryInner)
    : Result StorageNodeRegistry :=
  LocalStoreConfig_validate config;;
  reject_if (bool_decide (rgi_node_order inner = []))
    (Corrupt "storage node registry has no nodes");;
  seen ← try_fold (fun (seen : gset Z) node_id =>
      reject_if (bool_decide (node_id ∈ seen))
        (Corrupt "storage node registry has duplicate node IDs");;
      reject_if (bool_decide (rgi_nodes inner !! node_id = None))
        (Corrupt "storage node registry order references missing node");;
      Ok ({[ node_id ]} ∪ seen)) ∅ (rgi_node_order inner);
  try_for (fun node_id =>
      reject_if (bool_decide (node_id ∉ seen))
        (Corrupt "storage node registry contains unordered node")) (bt_keys (rgi_nodes inner));;
  nodes ← try_fold (fun nodes node_id =>
      image ← ok_or (rgi_nodes inner !! node_id) (Corrupt "storage node image missing");
      let node_config := for_storage_node config node_id in
      LocalStoreConfig_validate node_config;;
      Ok (<[node_id := mkLocalStorageNode node_id node_config (si_segment_store image)
        (si_segment_catalog image)]> nodes))
    (∅ : gmap Z LocalStorageNode) (rgi_node_order inner);
  reject_if (negb (rgi_next_segment_id inner <? U64_MOD))
    (Corrupt "storage node segment id cursor exceeds local limit");;
  Ok (mkStorageNodeRegistry config (rgi_node_order inner) nodes (rgi_next_placement_index inner)
    (rgi_next_segment_id inner)).

Definition Registry_state_inner_for_persist (self : StorageNodeRegistry)
    (previous_segments : gset SegmentId)
    : StorageNodeRegistryInner * gset SegmentId * list DurableSegmentPayload :=
  let '(ns, current, new) := fold_left (fun '(ns, current, new) '(node_id, node) =>
      let '(store, node_segments, node_new) :=
        state_inner_for_persist (ln_store node) previous_segments node_id in
      (<[node_id := mkStorageNodeInner store (ln_catalog node)]> ns,
       current ∪ node_segments, new ++ node_new))
    (bt_iter (nodes self)) ((∅ : gmap Z StorageNodeInner), (∅ : gset Z), []) in
  (mkStorageNodeRegistryInner (rg_next_segment_id self) (next_placement_index self)
    (node_order self) ns, current, new).

Definition registry_node (self : StorageNodeRegistry) (storage_node : StorageNodeId)
    : Result LocalStorageNode :=
  ok_or (nodes self !! storage_node) (not_found "storage_node" storage_node).

Definition owner_node_for_segment (self : StorageNodeRegistry) (segment_id : SegmentId)
    : Result LocalStorageNode :=
  found ← try_fold (fun found '(node_id, node) =>
      if contains_segment (ln_catalog node) segment_id
      then
        reject_if (bool_decide (is_Some found))
          (Corrupt "segment appears in multiple storage-node catalogs");;
        Ok (Some node_id)
      else Ok found)
    (None : option Z) (bt_iter (nodes self));
  node_id ← ok_or found (not_found "segment" segment_id);
  registry_node self node_id.

(** Running an operation of one node of the registry. *)
Definition on_node {A} (storage_node : StorageNodeId) (m : ST LocalStorageNode A)
    : ST StorageNodeRegistry A :=
  self ← st_get;
  node ← st_lift (registry_node self storage_node);
  let '(r, node') := m node in
  st_put (mkStorageNodeRegistry (rg_config self) (node_order self)
    (<[storage_node := node']> (nodes self)) (next_placement_index self)
    (rg_next_segment_id self));;
  st_lift r.

Definition on_segment_owner {A} (segment_id : SegmentId) (m : ST LocalStorageNode A)
    : ST StorageNodeRegistry A :=
  owner ← st_ask (fun self => owner_node_for_segment self segment_id);
  on_node (ln_storage_node owner) m.

(** [candidates[index]] is in range, [index] being a remainder. *)
Definition choose_storage_node (candidates : list StorageNodeId)
    : ST StorageNodeRegistry StorageNodeId :=
  st_reject_if (bool_decide (candidates = []))
    (InvalidArgument "placement policy requires at least one storage node");;
  self ← st_get;
  let index := next_placement_index self mod Z.of_nat (length candidates) in
  node_id ← st_lift (ok_or (candidates !! Z.to_nat index) (Corrupt "index out of bounds"));
  st_lift (registry_node self node_id);;
  next ← st_lift (ok_or (checked_add U64_MOD (next_placement_index self) 1)
    (Conflict "placement index overflow"));
  st_put (mkStorageNodeRegistry (rg_config self) (node_order self) (nodes self) next
    (rg_next_segment_id self));;
  mret node_id.

Definition allocate_segment_id : ST StorageNodeRegistry SegmentId :=
  self ← st_get;
  next ← st_lift (ok_or (checked_add U64_MOD (rg_next_segment_id self) 1)
    (Conflict "segment id overflow"));
  st_put (mkStorageNodeRegistry (rg_config self) (node_order self) (nodes self)
    (next_placement_index self) next);;
  mret (rg_next_segment_id self).

Section registry.
Context {CR : Crc32cCrate}.

Definition Registry_receipt_for_segment (self : StorageNodeRegistry) (segment_id : SegmentId)
    : Result SegmentWriteReceipt :=
  owner ← owner_node_for_segment self segment_id;
  receipt_for_segment (ln_catalog owner) segment_id.

Definition Registry_state (self : StorageNodeRegistry) (segment_id : SegmentId)
    : Result SegmentLifecycleState :=
  owner ← owner_node_for_segment self segment_id;
  catalog_state (ln_catalog owner) segment_id.

Definition Registry_mark_segment_referenced (receipt : SegmentWriteReceipt)
    (commit_seq : CommitSeq) : ST StorageNodeRegistry unit :=
  evidence ← st_lift (create_reference_evidence receipt commit_seq);
  response ← on_segment_owner (sr_segment_id receipt) (send (SnMarkReferenced evidence));
  match response with
  | SnrMarkReferenced => mret tt
  | _ => st_lift (Err (Corrupt "storage node returned unexpected mark-referenced response"))
  end.

Definition Registry_release_segment (segment_id : SegmentId) : ST StorageNodeRegistry unit :=
  response ← on_segment_owner segment_id (send (SnRelease segment_id));
  match response with
  | SnrReleased => mret tt
  | _ => st_lift (Err (Corrupt "storage node returned unexpected release response"))
  end.

Definition Registry_read_segment (segment_id : SegmentId) (range : ByteRange) (buf : list Z)
    : ST StorageNodeRegistry (list Z) :=
  response ← on_segment_owner segment_id (send (SnReadSegment segment_id range));
  match response with
  | SnrReadSegment bytes =>
      st_reject_if (negb (bool_decide (length bytes = length buf)))
        (Corrupt "storage node read response length disagrees with buffer");;
      mret bytes
  | _ => st_lift (Err (Corrupt "storage node returned unexpected read response"))
  end.

Definition read_segment_from_node (self : StorageNodeRegistry) (storage_node : StorageNodeId)
    (segment_id : SegmentId) (range : ByteRange) (integrity : SegmentPayloadIntegrity)
    (verification : ReadVerification) (buf : list Z) : Result (list Z) :=
  node ← registry_node self storage_node;
  read_segment_with_integrity node segment_id range integrity verification buf.

Definition Registry_verify_segment_payload_for_read (self : StorageNodeRegistry)
    (segment_id : SegmentId) (verification : ReadVerification) : Result unit :=
  owner ← owner_node_for_segment self segment_id;
  verify_segment_payload_for_read (ln_store owner) segment_id verification.
End registry.

(** ** Properties of a node *)

Section node_props.
Context {CR : Crc32cCrate}.
#[local] Opaque WriteGrant_hash deterministic_test_proof_for_grant
  deterministic_test_proof_for_receipt deterministic_test_proof_for_reference.

(** The receipt's claims about a committed segment are backed by a synced
    record of the store. *)
Definition backed (store : SegmentStoreInner) (id : SegmentId) (e : CatalogEntry) : Prop :=
  exists rc r, ce_receipt e = Some rc /\ receipt_ok rc /\
    segments store !! id = Some r /\ sg_synced r = true /\
    sg_commit r = SegmentWriteReceipt_replica_commit rc.

Definition entry_backed (store : SegmentStoreInner) (id : SegmentId) (e : CatalogEntry) : Prop :=
  match ce_state e with
  | Reserved | Freed => segments store !! id = None
  | Writing => True
  | DurablePendingMetadata | Referenced | Released => backed store id e
  end.

(** The invariant of a storage node. *)
Definition node_wf (n : LocalStorageNode) : Prop :=
  cfg_storage_node (ln_config n) = ln_storage_node n /\
  catalog_wf (ln_config n) (ln_catalog n) /\ store_wf (ln_config n) (ln_store n) /\
  map_Forall (entry_backed (ln_store n)) (entries (ln_catalog n)) /\
  forall id, is_Some (segments (ln_store n) !! id) -> is_Some (entries (ln_catalog n) !! id).

(** The states a node goes through while it writes a new segment. *)
Definition writing_entry (g : WriteGrant) : CatalogEntry :=
  mkCatalogEntry (mkSegmentReservationIntent (wg_write_intent g) (wg_owner g) (wg_max_bytes g))
    (mkSegmentReservation (wg_segment_id g) (wg_max_bytes g)) Writing None.
Definition catalog_with (n : LocalStorageNode) (id : SegmentId) (e : CatalogEntry) : CatalogInner :=
  mkCatalogInner (if next_segment_id (ln_catalog n) <=? id then id + 1
    else next_segment_id (ln_catalog n)) (<[id := e]> (entries (ln_catalog n))).
Definition committed_entry (g : WriteGrant) (rc : SegmentWriteReceipt) : CatalogEntry :=
  mkCatalogEntry (ce_intent (writing_entry g)) (ce_reservation (writing_entry g))
    DurablePendingMetadata (Some rc).

(** A write under a granted, unused segment id either fails on the way, leaving
    at most a [Writing] entry without bytes behind, or commits the segment. *)
Inductive fresh_write (n : LocalStorageNode) (g : WriteGrant) (bytes : list Z)
    : Result SegmentWriteReceipt -> LocalStorageNode -> Prop :=
| fw_ids_exhausted e : U128_MOD <= wg_segment_id g + 1 -> fresh_write n g bytes (Err e) n
| fw_store_failed e s' :
    write_segment_owned (ln_config n) (ce_reservation (writing_entry g)) bytes
      (wg_payload_integrity g) (ln_store n) = (Err e, s') ->
    fresh_write n g bytes (Err e) (mkLocalStorageNode (ln_storage_node n) (ln_config n)
      (ln_store n) (catalog_with n (wg_segment_id g) (writing_entry g)))
| fw_committed rc :
    let c := fresh_commit (ln_config n) (ce_reservation (writing_entry g)) bytes
      (wg_payload_integrity g) (next_offset (ln_store n)) in
    write_allowed (ln_config n) (ce_reservation (writing_entry g)) bytes ->
    next_offset (ln_store n) + wg_max_bytes g < U64_MOD ->
    receipt_ok rc -> receipt_for g rc ->
    sr_descriptor rc = rcm_descriptor c -> sr_placement rc = rcm_placement c ->
    fresh_write n g bytes (Ok rc) (mkLocalStorageNode (ln_storage_node n) (ln_config n)
      (mkSegmentStoreInner (next_offset (ln_store n) + wg_max_bytes g)
        (<[wg_segment_id g := mkSegmentRecord bytes true c]> (segments (ln_store n))))
      (catalog_with n (wg_segment_id g) (committed_entry g rc))).

Lemma reserve_then_begin n g :
  entries (ln_catalog n) !! wg_segment_id g = None -> wg_max_bytes g <> 0 ->
  (reservation ← on_catalog (reserve_segment_with_id (wg_segment_id g)
     (ce_intent (writing_entry g)));
   on_catalog (begin_write reservation);; mret reservation) n =
  if (next_segment_id (ln_catalog n) <=? wg_segment_id g) &&
     (U128_MOD <=? wg_segment_id g + 1)
  then (Err (Conflict "segment id overflow"), n)
  else (Ok (ce_reservation (writing_entry g)),
    mkLocalStorageNode (ln_storage_node n) (ln_config n) (ln_store n)
      (catalog_with n (wg_segment_id g) (writing_entry g))).
Proof.
  intros Hnone Hb. unfold on_catalog, reserve_segment_with_id, begin_write, st_reject_if, st_lift,
    st_get, st_put, get_entry_mut, st_ask, put_entry, st_modify, mret, ST_ret, mbind, ST_bind.
  cbn [ce_intent writing_entry ri_bytes]. rewrite (proj2 (Z.eqb_neq _ 0)) by done.
  cbn [reject_if]. rewrite bool_decide_false by (by rewrite Hnone; apply is_Some_None).
  cbn [reject_if]. unfold checked_add, catalog_with.
  destruct (next_segment_id (ln_catalog n) <=? wg_segment_id g) eqn:Hl; cbn [andb].
  - destruct (U128_MOD <=? wg_segment_id g + 1) eqn:Ho; bool_prop.
    + ztest. cbn [ok_or]. by destruct n.
    + ztest. cbn. rewrite lookup_insert_eq. cbn.
      rewrite bool_decide_true by done. cbn. by rewrite insert_insert_eq.
  - cbn. rewrite lookup_insert_eq. cbn.
    rewrite bool_decide_true by done. cbn. by rewrite insert_insert_eq.
Qed.

Lemma st_then_assoc {T A B} (m1 : ST T A) (m2 : A -> ST T unit) (k : A -> ST T B) s :
  (r ← m1; m2 r;; k r) s = (r ← (r ← m1; m2 r;; mret r); k r) s.
Proof.
  unfold mbind, ST_bind, mret, ST_ret.
  destruct (m1 s) as [[a|e] s1]; [|done]. by destruct (m2 a s1) as [[[]|e] s2].
Qed.

Lemma commit_writing n g rc :
  receipt_for g rc ->
  sd_segment_id (sr_descriptor rc) = wg_segment_id g ->
  pl_segment_id (sr_placement rc) = wg_segment_id g ->
  sd_bytes (sr_descriptor rc) = wg_max_bytes g -> pl_bytes (sr_placement rc) = wg_max_bytes g ->
  wg_storage_node g = cfg_storage_node (ln_config n) ->
  pl_storage_node (sr_placement rc) = cfg_storage_node (ln_config n) ->
  commit_segment (ln_config n) (mkSegmentReservation (wg_segment_id g) (wg_max_bytes g)) rc
    (catalog_with n (wg_segment_id g) (writing_entry g)) =
  (Ok tt, catalog_with n (wg_segment_id g) (committed_entry g rc)).
Proof.
  intros Hf H1 H2 H3 H4 H5 H6.
  destruct Hf as (_ & _ & _ & _ & _ & _ & _ & F1 & F2 & F3 & _).
  unfold commit_segment, get_entry_mut, st_ask, put_entry, st_modify, st_reject_if, st_lift,
    mbind, ST_bind, catalog_with.
  cbn [rs_segment_id rs_bytes entries]. rewrite lookup_insert_eq.
  cbn [ok_or ce_reservation writing_entry]. rewrite bool_decide_true by reflexivity.
  rewrite F1, F2, F3, H1, H2, H3, H4, H5, H6, !Z.eqb_refl.
  cbn [negb orb reject_if ce_state writing_entry next_segment_id entries]. rewrite insert_insert_eq. reflexivity.
Qed.

Lemma write_segment_fresh n g bytes r n' :
  node_wf n -> grant_ok g (ln_storage_node n) (wg_segment_id g) (Z.of_nat (length bytes)) ->
  in_u64 (Z.of_nat (length bytes)) ->
  contains_segment (ln_catalog n) (wg_segment_id g) = false ->
  write_segment g bytes n = (r, n') -> fresh_write n g bytes r n'.
Proof.
  intros (Hcfg & Hcat & Hst & Hback & Hdom) Hg Hu Hc Hw.
  unfold contains_segment in Hc. apply bool_decide_eq_false in Hc as Hnone.
  apply eq_None_not_Some in Hnone.
  assert (Hsnone : segments (ln_store n) !! wg_segment_id g = None).
  { apply eq_None_not_Some. intros [? ?]. destruct (Hdom (wg_segment_id g)) as [? ?]; [by eauto|].
    congruence. }
  pose proof Hg as (_ & _ & _ & Hmax & _ & _ & _ & _ & _ & Hlen).
  unfold write_segment in Hw. unfold mbind at 1, ST_bind at 1, st_get in Hw.
  unfold mbind at 1, ST_bind at 1, st_lift at 1 in Hw.
  rewrite (proj2 (len_u64_Ok bytes _ _) (conj eq_refl Hu)) in Hw.
  unfold mbind at 1, ST_bind at 1, st_lift at 1 in Hw.
  rewrite (proj2 (verify_write_grant_and_hash_Ok g _ _ _ _) (conj Hg eq_refl)) in Hw.
  unfold contains_segment in Hw. rewrite Hc in Hw.
  change (mkSegmentReservationIntent _ _ _) with (ce_intent (writing_entry g)) in Hw.
  rewrite st_then_assoc in Hw. unfold mbind at 1, ST_bind at 1 in Hw.
  rewrite reserve_then_begin in Hw by done.
  destruct (_ && _) eqn:Hov.
  { simplify_eq. apply fw_ids_exhausted. bool_prop. lia. }
  unfold mbind at 1, ST_bind at 1, on_store at 1 in Hw. cbn [ln_store] in Hw.
  destruct (write_segment_owned _ _ _ _ _) as [[c|e] s'] eqn:Hwr.
  2:{ pose proof (write_segment_Err _ _ _ _ _ _ _ Hwr) as ->. injection Hw as <- <-. eapply fw_store_failed. exact Hwr. }
  apply write_segment_Ok in Hwr as [Hal Hef]. unfold write_effect in Hef.
  cbn [ce_reservation writing_entry rs_segment_id rs_bytes] in Hef. rewrite Hsnone in Hef.
  destruct Hef as (Hlt & -> & ->).
  set (res := mkSegmentReservation (wg_segment_id g) (wg_max_bytes g)) in *.
  set (c := fresh_commit _ res _ _ _) in *.
  cbn [ln_storage_node ln_config ln_store ln_catalog] in Hw.
  unfold mbind at 1, ST_bind at 1, on_store at 1, sync_segment at 1, mbind at 1, ST_bind at 1,
    st_get at 1, mbind at 1, ST_bind at 1, st_lift at 1, st_put at 1 in Hw.
  cbn [ce_reservation writing_entry rs_segment_id ln_store segments] in Hw.
  rewrite lookup_insert_eq in Hw.
  cbn [ok_or sg_bytes sg_commit next_offset ln_storage_node ln_config ln_store ln_catalog] in Hw.
  rewrite insert_insert_eq in Hw.
  pose proof Hg as (_ & _ & _ & _ & _ & _ & _ & Hnode & _ & _).
  destruct (create_receipt_after_write_ok g (ln_storage_node n) (wg_segment_id g)
    (Z.of_nat (length bytes)) (WriteGrant_hash g) c LOCAL_STORAGE_NODE_INCARNATION Hg eq_refl)
    as (rc & Hrc & Hok & Hfor & Hd & Hp); [by unfold commit_matches|exact Hcfg|].
  unfold mbind at 1, ST_bind at 1, st_lift at 1 in Hw. rewrite Hrc in Hw.
  unfold mbind, ST_bind, on_catalog, mret, ST_ret in Hw. cbn [ln_catalog] in Hw.
  rewrite (commit_writing n g rc) in Hw; [|exact Hfor|rewrite ?Hd, ?Hp; subst c res; cbn; congruence..].
  cbn [ln_storage_node ln_config ln_store] in Hw. injection Hw as <- <-.
  apply fw_committed; assumption.
Qed.

Lemma entry_backed_ext store store' id e :
  segments store' !! id = segments store !! id ->
  entry_backed store id e -> entry_backed store' id e.
Proof. unfold entry_backed, backed. intros ->. done. Qed.

Lemma catalog_with_wf config n id e :
  catalog_wf config (ln_catalog n) -> entry_wf config id e ->
  catalog_wf config (catalog_with n id e).
Proof.
  intros Hwf He id' e'. unfold catalog_with. cbn [entries next_segment_id].
  intros [[<- <-]|[Hne Hl]]%lookup_insert_Some.
  - split; [|done]. destruct (_ <=? id) eqn:?; bool_prop; lia.
  - destruct (Hwf _ _ Hl). split; [|done]. destruct (_ <=? id) eqn:?; bool_prop; lia.
Qed.

Lemma fresh_write_wf n g bytes r n' :
  node_wf n -> wg_max_bytes g <> 0 ->
  segments (ln_store n) !! wg_segment_id g = None ->
  wg_storage_node g = ln_storage_node n ->
  fresh_write n g bytes r n' -> node_wf n'.
Proof.
  intros (Hcfg & Hcat & Hst & Hback & Hdom) Hmax Hnone Hnode Hf.
  destruct Hf as [e Hov|e s' Hwr|rc c Hal Hlt Hok Hfor Hd Hp].
  - by unfold node_wf.
  - unfold node_wf. cbn [ln_storage_node ln_config ln_store ln_catalog]. split_and!; try done.
    + apply catalog_with_wf; [done|]. by unfold entry_wf.
    + apply map_Forall_insert_2; [done|]. done.
    + intros id Hid. cbn. destruct (decide (wg_segment_id g = id)) as [->|];
        [rewrite lookup_insert_eq; by eauto|rewrite lookup_insert_ne by done; by apply Hdom].
  - unfold node_wf. cbn [ln_storage_node ln_config ln_store ln_catalog]. split_and!; try done.
    + apply catalog_with_wf; [done|]. unfold entry_wf. cbn. split_and!; try done.
      exists rc. split; [done|]. unfold receipt_matches. cbn. rewrite Hd, Hp.
      destruct Hfor as (_ & _ & _ & _ & _ & _ & _ & F1 & F2 & F3 & _).
      subst c. cbn. conj_split; congruence.
    + set (res := ce_reservation (writing_entry g)).
      pose proof (store_run_wf (ln_config n) (SoWrite res bytes (wg_payload_integrity g))
        (ln_store n) Hst) as H1.
      assert (Hw : write_segment_owned (ln_config n) res bytes (wg_payload_integrity g)
        (ln_store n) = (Ok c, mkSegmentStoreInner (next_offset (ln_store n) + wg_max_bytes g)
          (<[wg_segment_id g := mkSegmentRecord bytes false c]> (segments (ln_store n))))).
      { apply write_segment_Ok. split; [done|]. unfold write_effect. cbn. by rewrite Hnone. }
      cbn [store_run] in H1. unfold mbind, ST_bind in H1. rewrite Hw in H1. cbn [snd mret ST_ret] in H1.
      pose proof (store_run_wf (ln_config n) (SoSync (wg_segment_id g)) _ H1) as H2.
      cbn [store_run] in H2. unfold sync_segment, mbind, ST_bind, st_get, st_lift, st_put in H2.
      cbn [segments mret ST_ret snd] in H2. rewrite lookup_insert_eq in H2. cbn [ok_or snd sg_bytes sg_commit next_offset] in H2.
      by rewrite insert_insert_eq in H2.
    + intros id e. unfold catalog_with. cbn [entries].
      intros [[<- <-]|[Hne Hl]]%lookup_insert_Some.
      * cbn. exists rc, (mkSegmentRecord bytes true c). cbn. rewrite lookup_insert_eq.
        unfold SegmentWriteReceipt_replica_commit. rewrite Hd, Hp. conj_split; try done.
      * eapply entry_backed_ext; [|by apply Hback]. cbn. by rewrite lookup_insert_ne.
    + intros id. cbn. destruct (decide (wg_segment_id g = id)) as [->|];
        [rewrite !lookup_insert_eq; by eauto|rewrite !lookup_insert_ne by done; by apply Hdom].
Qed.

Lemma write_segment_cases n g bytes r n' :
  node_wf n -> write_segment g bytes n = (r, n') ->
  n' = n \/
  (segments (ln_store n) !! wg_segment_id g = None /\
   entries (ln_catalog n) !! wg_segment_id g = None /\
   grant_ok g (ln_storage_node n) (wg_segment_id g) (Z.of_nat (length bytes)) /\
   fresh_write n g bytes r n').
Proof.
  intros Hwf Hw. pose proof Hw as Hw0. unfold write_segment in Hw.
  unfold mbind at 1, ST_bind at 1, st_get in Hw.
  unfold mbind at 1, ST_bind at 1, st_lift at 1 in Hw.
  destruct (len_u64 bytes _) as [len|] eqn:Hl; [|injection Hw as _ <-; by left].
  apply len_u64_Ok in Hl as [-> Hu].
  unfold mbind at 1, ST_bind at 1, st_lift at 1 in Hw.
  destruct (verify_write_grant_and_hash _ _ _ _) as [h|] eqn:Hv; [|injection Hw as _ <-; by left].
  apply verify_write_grant_and_hash_Ok in Hv as [Hg ->].
  destruct (contains_segment _ _) eqn:Hc; [unfold st_ask in Hw; injection Hw as _ <-; by left|].
  right. split_and!; [| |exact Hg|by eapply write_segment_fresh].
  - apply eq_None_not_Some. intros Hs. destruct Hwf as (_ & _ & _ & _ & Hdom).
    apply Hdom in Hs. unfold contains_segment in Hc. by apply bool_decide_eq_false in Hc.
  - apply eq_None_not_Some. unfold contains_segment in Hc. by apply bool_decide_eq_false in Hc.
Qed.

(** *** Requests as sequences of moves *)

Definition with_entry (n : LocalStorageNode) (store : SegmentStoreInner) (id : SegmentId)
    (e : CatalogEntry) : LocalStorageNode :=
  mkLocalStorageNode (ln_storage_node n) (ln_config n) store
    (mkCatalogInner (next_segment_id (ln_catalog n)) (<[id := e]> (entries (ln_catalog n)))).

Definition without_bytes (s : SegmentStoreInner) (id : SegmentId) : SegmentStoreInner :=
  mkSegmentStoreInner (next_offset s) (delete id (segments s)).

(** What a request may do to the node, one segment at a time.  Only a [Release]
    request moves a segment out of [Referenced]. *)
Inductive node_move (req : StorageNodeRequest) (n : LocalStorageNode) : LocalStorageNode -> Prop :=
| nm_write g bytes r n' :
    segments (ln_store n) !! wg_segment_id g = None ->
    entries (ln_catalog n) !! wg_segment_id g = None ->
    grant_ok g (ln_storage_node n) (wg_segment_id g) (Z.of_nat (length bytes)) ->
    fresh_write n g bytes r n' -> node_move req n n'
| nm_mark id e :
    entries (ln_catalog n) !! id = Some e -> ce_state e = DurablePendingMetadata ->
    node_move req n (with_entry n (ln_store n) id (set_ce_state e Referenced))
| nm_release id e :
    req = SnRelease id -> entries (ln_catalog n) !! id = Some e -> ce_state e = Referenced ->
    node_move req n (with_entry n (ln_store n) id (set_ce_state e Released))
| nm_free id e :
    entries (ln_catalog n) !! id = Some e -> ce_state e <> Referenced ->
    node_move req n (with_entry n (without_bytes (ln_store n) id) id (set_ce_state e Freed)).

Lemma with_entry_same n id e st :
  entries (ln_catalog n) !! id = Some e -> ce_state e = st ->
  with_entry n (ln_store n) id (set_ce_state e st) = n.
Proof.
  intros He <-. destruct n as [sn cfg store [next m]], e. unfold with_entry. cbn in *.
  by rewrite insert_id.
Qed.

Lemma on_transition_cases {A} from to reason id (k : ST LocalStorageNode A) n r n' :
  (on_catalog (transition from to reason id);; k) n = (r, n') ->
  ((exists e, r = Err e) /\ n' = n) \/
  exists e, entries (ln_catalog n) !! id = Some e /\ (ce_state e = from \/ ce_state e = to) /\
    k (with_entry n (ln_store n) id (set_ce_state e to)) = (r, n').
Proof.
  unfold on_catalog, transition, get_entry_mut, put_entry, st_ask, st_modify, st_lift.
  unfold mbind, ST_bind, mret, ST_ret.
  destruct (entries (ln_catalog n) !! id) as [e|] eqn:He; cbn [ok_or].
  2:{ intros [= <- <-]. left. split; [by eauto|by destruct n]. }
  destruct (bool_decide (ce_state e = from)) eqn:H1; bool_prop.
  { intros Hk. right. exists e. split_and!; [done|by left|exact Hk]. }
  destruct (bool_decide (ce_state e = to)) eqn:H2; bool_prop.
  2:{ intros [= <- <-]. left. split; [by eauto|by destruct n]. }
  intros Hk. right. exists e. split_and!; [done|by right|].
  rewrite with_entry_same by done. by destruct n.
Qed.

(** The one move the collectors make. *)
Inductive node_free (n : LocalStorageNode) : LocalStorageNode -> Prop :=
| nf_free id e :
    entries (ln_catalog n) !! id = Some e -> ce_state e <> Referenced ->
    node_free n (with_entry n (without_bytes (ln_store n) id) id (set_ce_state e Freed)).

Lemma frees_moves req n n' : rtc node_free n n' -> rtc (node_move req) n n'.
Proof. apply rtc_subrel. intros ? ? [id e He Hs]. by apply nm_free. Qed.

Lemma free_moves {A} from reason id (x : A) n r n' :
  from <> Referenced ->
  (on_catalog (transition from Freed reason id);; on_store (store_delete_segment id);; mret x) n
    = (r, n') ->
  rtc node_free n n'.
Proof.
  intros Hfrom [[_ ->]|(e & He & Hs & Hk)]%on_transition_cases; [done|].
  unfold on_store, store_delete_segment, st_modify, mbind, ST_bind, mret, ST_ret in Hk.
  injection Hk as _ <-. apply rtc_once. apply (nf_free n id e He). by destruct Hs as [->| ->].
Qed.

Lemma st_fold_rtc {A B} (R : relation LocalStorageNode) (f : B -> A -> ST LocalStorageNode B) l :
  (forall acc x n r n', f acc x n = (r, n') -> rtc R n n') ->
  forall acc n r n', st_fold f acc l n = (r, n') -> rtc R n n'.
Proof.
  intros Hf. induction l as [|x l IH]; intros acc n r n'; cbn [st_fold].
  { intros [= _ <-]. done. }
  unfold mbind, ST_bind. destruct (f acc x n) as [[b|e] n1] eqn:Hx.
  - intros Hr. etrans; [by eapply Hf|by eapply IH].
  - intros [= _ <-]. by eapply Hf.
Qed.

Lemma custodian_moves expired report entry n r n' :
  custodian_entry expired report entry n = (r, n') -> rtc node_free n n'.
Proof.
  destruct entry as [[id st] wi], report as [er fw os dr]. unfold custodian_entry.
  destruct st, (bool_decide (wi ∈ expired)); try (intros [= _ <-]; reflexivity);
    apply free_moves; discriminate.
Qed.

Lemma maintenance_moves acc entry n r n' :
  maintenance_entry acc entry n = (r, n') -> rtc node_free n n'.
Proof.
  destruct entry as [[id st] wi], acc as [d s]. unfold maintenance_entry.
  destruct st; try (intros [= _ <-]; reflexivity). apply free_moves. discriminate.
Qed.

Lemma bind_ret_inv {A B} (m : ST LocalStorageNode A) (f : A -> B) n r n' :
  (x ← m; mret (f x)) n = (r, n') -> exists r0, m n = (r0, n').
Proof.
  unfold mbind, ST_bind, mret, ST_ret. destruct (m n) as [[a|e] n1]; intros [= _ <-]; eauto.
Qed.

Lemma run_custodian_frees expired n r n' : run_custodian expired n = (r, n') -> rtc node_free n n'.
Proof.
  unfold run_custodian, st_get. unfold mbind at 1, ST_bind at 1. apply st_fold_rtc. intros. by eapply custodian_moves.
Qed.

Lemma send_moves req n r n' :
  node_wf n -> send req n = (r, n') -> rtc (node_move req) n n'.
Proof.
  intros Hwf. destruct req as [g bytes|id range|ev|id|expired| |]; cbn [send].
  - intros [r0 Hw]%bind_ret_inv.
    apply write_segment_cases in Hw as [->|(? & ? & ? & ?)]; [done| |exact Hwf].
    apply rtc_once. eapply nm_write; eassumption.
  - intros [r0 Hr]%bind_ret_inv. unfold st_ask in Hr. by injection Hr as _ <-.
  - intros [r0 Hr]%(bind_ret_inv _ (fun _ => SnrMarkReferenced)).
    unfold node_mark_segment_referenced in Hr. unfold mbind at 1, ST_bind at 1, st_get in Hr.
    unfold mbind at 1, ST_bind at 1, st_lift in Hr.
    destruct (verify_reference_evidence _ _ _); [|by injection Hr as _ <-].
    assert (Hr' : (on_catalog (mark_segment_referenced (ev_segment_id ev));; mret tt) n = (r0, n')).
    { unfold mbind, ST_bind, mret, ST_ret. rewrite Hr. by destruct r0 as [[]|]. }
    apply on_transition_cases in Hr' as [[_ ->]|(e & He & [Hs|Hs] & Hk)]; [done| |];
      injection Hk as _ <-.
    + apply rtc_once. by apply nm_mark.
    + by rewrite with_entry_same by done.
  - intros [[_ ->]|(e & He & [Hs|Hs] & Hk)]%on_transition_cases; [done| |]; injection Hk as _ <-.
    + apply rtc_once. by apply nm_release.
    + by rewrite with_entry_same by done.
  - intros [r0 Hr]%bind_ret_inv. by apply frees_moves, (run_custodian_frees expired _ r0).
  - intros [= _ <-]. done.
  - intros [r0 Hr]%bind_ret_inv. unfold run_maintenance_tick, st_get in Hr.
    unfold mbind at 1, ST_bind at 1 in Hr. apply bind_ret_inv in Hr as [r1 Hr].
    apply frees_moves. eapply st_fold_rtc; [|exact Hr]. intros. by eapply maintenance_moves.
Qed.

Lemma with_entry_wf n store id e e' :
  node_wf n -> entries (ln_catalog n) !! id = Some e -> entry_wf (ln_config n) id e' ->
  store_wf (ln_config n) store -> entry_backed store id e' ->
  (forall id', id' <> id -> segments store !! id' = segments (ln_store n) !! id') ->
  node_wf (with_entry n store id e').
Proof.
  intros (Hcfg & Hcat & Hst & Hback & Hdom) He He' Hst' Hb Hsame.
  unfold node_wf, with_entry. cbn [ln_storage_node ln_config ln_store ln_catalog].
  split_and!; [done| |done| |].
  - intros id' x. cbn [entries next_segment_id]. intros [[<- <-]|[Hne Hl]]%lookup_insert_Some.
    + split; [|done]. by destruct (Hcat _ _ He).
    + by apply Hcat.
  - intros id' x. cbn [entries]. intros [[<- <-]|[Hne Hl]]%lookup_insert_Some; [done|].
    eapply entry_backed_ext; [apply Hsame; congruence|by apply Hback].
  - intros id' Hid. cbn [entries]. destruct (decide (id' = id)) as [->|Hne].
    + rewrite lookup_insert_eq. by eauto.
    + rewrite lookup_insert_ne by done. apply Hdom. by rewrite <-Hsame.
Qed.

Lemma set_state_wf n id e op s' :
  node_wf n -> entries (ln_catalog n) !! id = Some e ->
  entry_step (ln_config n) id op (Some e) s' -> entry_wf (ln_config n) id s'.
Proof.
  intros (_ & Hcat & _) He Hs. eapply entry_step_wf; [exact Hs|].
  intros e0 [= <-]. by destruct (Hcat _ _ He).
Qed.

Lemma freed_entry_wf config id e : entry_wf config id e -> entry_wf config id (set_ce_state e Freed).
Proof.
  unfold entry_wf. cbn. intros (H1 & H2 & H3 & Hs). split_and!; [done..|]. intros rc Hrc.
  destruct (ce_state e); naive_solver congruence.
Qed.

Lemma node_move_wf req n n' : node_wf n -> node_move req n n' -> node_wf n'.
Proof.
  intros Hwf Hm.
  destruct Hm as [g bytes r n' Hs He Hg Hf|id e He Hs|id e _ He Hs|id e He Hs];
    pose proof Hwf as (_ & Hcat & Hst & Hback & _).
  - destruct Hg as (_ & _ & _ & ? & _ & _ & _ & ? & _). by eapply fresh_write_wf.
  - eapply with_entry_wf; try done; [eapply (set_state_wf n id e (OpMark id)); [done..|by constructor]|].
    specialize (Hback _ _ He). unfold entry_backed in *. rewrite Hs in Hback. exact Hback.
  - eapply with_entry_wf; try done; [eapply (set_state_wf n id e (OpRelease id)); [done..|by constructor]|].
    specialize (Hback _ _ He). unfold entry_backed in *. rewrite Hs in Hback. exact Hback.
  - eapply with_entry_wf; try done.
    + apply freed_entry_wf. by destruct (Hcat _ _ He).
    + apply (store_run_wf (ln_config n) (SoDelete id) _ Hst).
    + unfold entry_backed. cbn. by rewrite lookup_delete_eq.
    + intros id' Hne. cbn. by rewrite lookup_delete_ne.
Qed.

Lemma send_wf req n : node_wf n -> node_wf (send req n).2.
Proof.
  intros Hwf. destruct (send req n) as [r n'] eqn:Hs. cbn [snd].
  apply send_moves in Hs; [|done]. revert Hwf.
  induction Hs as [|n n1 n2 Hm _ IH]; [done|]. intros Hwf. apply IH. by eapply node_move_wf.
Qed.

(** A node serving a sequence of requests, whatever they return. *)
Definition node_serve (reqs : list StorageNodeRequest) (n : LocalStorageNode) : LocalStorageNode :=
  fold_left (fun n req => (send req n).2) reqs n.

Definition node_new (config : LocalStoreConfig) : LocalStorageNode :=
  mkLocalStorageNode (cfg_storage_node config) config SegmentStore_new Catalog_new.

Lemma node_new_wf config : node_wf (node_new config).
Proof.
  unfold node_wf, node_new. cbn [ln_storage_node ln_config ln_store ln_catalog].
  split_and!; [done|done| |done|].
  - apply (store_new_wf config).
  - intros id. cbn [SegmentStore_new segments]. rewrite lookup_empty. by intros [? ?].
Qed.

Lemma node_serve_inv (P : LocalStorageNode -> Prop) reqs n :
  P n -> (forall req n, req ∈ reqs -> P n -> P (send req n).2) -> P (node_serve reqs n).
Proof.
  unfold node_serve. revert n. induction reqs as [|req reqs IH]; intros n Hn Hstep; cbn; [done|].
  apply IH; [apply Hstep; [by left|done]|]. intros r n' Hin. apply Hstep. by right.
Qed.

Lemma node_serve_wf reqs n : node_wf n -> node_wf (node_serve reqs n).
Proof. intros Hn. apply node_serve_inv; [done|]. auto using send_wf. Qed.

(** C27: in every state a storage node can reach by serving requests, valid or
    not, each committed segment of the catalog has a verifying receipt and a
    synced record in the store with the same commit, freed segments have no
    bytes, and the store holds nothing the catalog does not know. *)
Theorem node_reachable_wf config reqs : node_wf (node_serve reqs (node_new config)).
Proof. apply node_serve_wf, node_new_wf. Qed.

Lemma node_move_keeps req n n' id e :
  node_move req n n' -> entries (ln_catalog n) !! id = Some e -> ce_state e = Referenced ->
  req <> SnRelease id ->
  entries (ln_catalog n') !! id = Some e /\
  segments (ln_store n') !! id = segments (ln_store n) !! id /\
  ln_storage_node n' = ln_storage_node n.
Proof.
  intros Hm He Hs Hreq.
  destruct Hm as [g bytes r n' Hn Hn' Hg Hf|id' e' He' Hs'|id' e' -> He' Hs'|id' e' He' Hs'].
  - assert (id <> wg_segment_id g) by congruence.
    destruct Hf; cbn; [done|by rewrite lookup_insert_ne|]. by rewrite !lookup_insert_ne by done.
  - assert (id <> id') by congruence. cbn. by rewrite lookup_insert_ne.
  - assert (id <> id') by congruence. cbn. by rewrite lookup_insert_ne.
  - assert (id <> id') by congruence. cbn. by rewrite lookup_insert_ne, lookup_delete_ne.
Qed.

(** C26: a referenced segment is safe: as long as no [Release] of that segment
    is among the requests, whatever else the node is asked (writes, retries,
    custodian runs with any expired intents, maintenance ticks), reads of the
    segment give exactly what they gave before. *)
Theorem referenced_segment_safe reqs n id e range integrity verification buf :
  node_wf n -> entries (ln_catalog n) !! id = Some e -> ce_state e = Referenced ->
  SnRelease id ∉ reqs ->
  read_segment_with_integrity (node_serve reqs n) id range integrity verification buf =
  read_segment_with_integrity n id range integrity verification buf.
Proof.
  intros Hwf He Hs Hno.
  assert (H : node_wf (node_serve reqs n) /\
    entries (ln_catalog (node_serve reqs n)) !! id = Some e /\
    segments (ln_store (node_serve reqs n)) !! id = segments (ln_store n) !! id /\
    ln_storage_node (node_serve reqs n) = ln_storage_node n).
  { apply (node_serve_inv (fun n1 => node_wf n1 /\ entries (ln_catalog n1) !! id = Some e /\
      segments (ln_store n1) !! id = segments (ln_store n) !! id /\
      ln_storage_node n1 = ln_storage_node n)); [done|].
    intros req n1 Hin (Hwf1 & He1 & Hst1 & Hn1). split; [by apply send_wf|].
    destruct (send req n1) as [r n2] eqn:Hsend. cbn [snd]. apply send_moves in Hsend; [|done].
    rewrite <-Hst1, <-Hn1. clear Hst1 Hn1 Hwf1. assert (req <> SnRelease id) by (by intros ->).
    induction Hsend as [|n1 n2 n3 Hm _ IH]; [done|].
    destruct (node_move_keeps _ _ _ _ _ Hm He1 Hs) as (H1 & <- & <-); [done|]. by apply IH. }
  destruct H as (_ & He' & Hst' & Hn'). unfold read_segment_with_integrity, receipt_for_segment.
  unfold verify_segment_payload_for_read, store_read_segment. by rewrite He', He, Hst', Hn'.
Qed.

(** The checks before the duplicate test. *)
Lemma write_segment_checked n g bytes :
  grant_ok g (ln_storage_node n) (wg_segment_id g) (Z.of_nat (length bytes)) ->
  in_u64 (Z.of_nat (length bytes)) ->
  contains_segment (ln_catalog n) (wg_segment_id g) = true ->
  write_segment g bytes n =
  (write_segment_duplicate g (WriteGrant_hash g) bytes (Z.of_nat (length bytes)) n, n).
Proof.
  intros Hg Hu Hc. unfold write_segment. unfold mbind at 1, ST_bind at 1, st_get.
  unfold mbind at 1, ST_bind at 1, st_lift at 1.
  rewrite (proj2 (len_u64_Ok bytes _ _) (conj eq_refl Hu)).
  unfold mbind at 1, ST_bind at 1, st_lift at 1.
  rewrite (proj2 (verify_write_grant_and_hash_Ok g _ _ _ _) (conj Hg eq_refl)).
  rewrite Hc. reflexivity.
Qed.

Lemma write_segment_Ok_inv g bytes n rc n' :
  write_segment g bytes n = (Ok rc, n') ->
  grant_ok g (ln_storage_node n) (wg_segment_id g) (Z.of_nat (length bytes)) /\
  in_u64 (Z.of_nat (length bytes)).
Proof.
  intros Hw. unfold write_segment in Hw. unfold mbind at 1, ST_bind at 1, st_get in Hw.
  unfold mbind at 1, ST_bind at 1, st_lift at 1 in Hw.
  destruct (len_u64 bytes _) as [len|] eqn:Hl; [|discriminate Hw].
  apply len_u64_Ok in Hl as [-> Hu].
  unfold mbind at 1, ST_bind at 1, st_lift at 1 in Hw.
  destruct (verify_write_grant_and_hash _ _ _ _) as [h|] eqn:Hv; [|discriminate Hw].
  apply verify_write_grant_and_hash_Ok in Hv as [Hg _]. by split.
Qed.

Lemma committed_read n id e rc r range verification buf :
  entries (ln_catalog n) !! id = Some e -> ce_receipt e = Some rc ->
  segments (ln_store n) !! id = Some r -> sg_synced r = true ->
  sg_commit r = SegmentWriteReceipt_replica_commit rc -> receipt_ok rc ->
  record_wf (ln_config n) id r -> sr_storage_node rc = ln_storage_node n ->
  in_u64 (Z.of_nat (length (sg_bytes r))) ->
  0 <= br_offset range -> 0 <= br_len range ->
  br_offset range + br_len range <= Z.of_nat (length (sg_bytes r)) ->
  Z.of_nat (length buf) = br_len range ->
  (verification = RvRequireVerified -> sr_integrity rc <> SpUnchecked) ->
  read_segment_with_integrity n id range (sr_integrity rc) verification buf =
  Ok (slice (sg_bytes r) (br_offset range) (br_len range)).
Proof.
  intros He Hrc Hr Hsync Hc Hok Hrw Hn Hu Ho Hl Hle Hb Hv.
  destruct Hok as (_ & _ & _ & _ & _ & _ & _ & Hsd & _ & _ & _ & _ & Hint).
  destruct Hrw as (_ & Hid & _ & _ & _ & _ & _ & Hver). rewrite Hc in Hid, Hver. cbn in Hid, Hver.
  unfold read_segment_with_integrity, receipt_for_segment. rewrite He. cbn [ok_or mbind Result_bind].
  rewrite Hrc. cbn [ok_or mbind Result_bind]. rewrite Hn, Hsd, Hid, !Z.eqb_refl.
  rewrite bool_decide_true by reflexivity. cbn [negb orb reject_if mbind Result_bind].
  assert (Hpol : verify_read_integrity_policy (sr_integrity rc) verification = Ok tt).
  { destruct (sr_integrity rc), verification; try done. by destruct Hv. }
  rewrite Hpol. cbn [mbind Result_bind].
  assert (Hvp : verify_segment_payload_for_read (ln_store n) id verification = Ok tt).
  { unfold verify_segment_payload_for_read. rewrite <-Hint in Hver.
    destruct verification; [| |done]; rewrite Hr; cbn [ok_or mbind Result_bind];
      rewrite Hc; cbn [rcm_descriptor SegmentWriteReceipt_replica_commit]; rewrite <-Hint;
      destruct (sr_integrity rc); try done. }
  rewrite Hvp. cbn [mbind Result_bind]. apply read_segment_Ok. exists r.
  u64_unfold. split_and!; try done; lia.
Qed.

Lemma fresh_write_reads n g bytes rc n' range verification buf :
  node_wf n -> segments (ln_store n) !! wg_segment_id g = None ->
  grant_ok g (ln_storage_node n) (wg_segment_id g) (Z.of_nat (length bytes)) ->
  in_u64 (Z.of_nat (length bytes)) -> fresh_write n g bytes (Ok rc) n' ->
  0 <= br_offset range -> 0 <= br_len range ->
  br_offset range + br_len range <= Z.of_nat (length bytes) ->
  Z.of_nat (length buf) = br_len range ->
  (verification = RvRequireVerified -> wg_payload_integrity g = Verified) ->
  read_segment_with_integrity n' (wg_segment_id g) range (sr_integrity rc) verification buf =
  Ok (slice bytes (br_offset range) (br_len range)).
Proof.
  intros Hwf Hs Hg Hu Hf Ho Hl Hle Hb Hv. pose proof Hg as (_ & _ & _ & Hmax & _ & _ & _ & Hnode & _).
  pose proof (fresh_write_wf _ _ _ _ _ Hwf Hmax Hs Hnode Hf) as Hwf'.
  remember (Ok rc) as r0 eqn:Er. destruct Hf as [| |rc0 c Hal Hlt Hok Hfor Hd Hp]; try discriminate Er.
  injection Er as ->.
  assert (Hint : sr_integrity rc = segment_payload_integrity (wg_payload_integrity g) bytes).
  { destruct Hok as (_ & _ & _ & _ & _ & _ & _ & _ & _ & _ & _ & _ & ->). rewrite Hd. reflexivity. }
  destruct Hfor as (_ & _ & _ & _ & _ & _ & _ & _ & Hsn & _).
  destruct Hwf' as (_ & _ & (_ & Hrecs & _) & _ & _).
  eapply (committed_read _ _ (committed_entry g rc) rc (mkSegmentRecord bytes true c)); try done.
  - cbn. by rewrite lookup_insert_eq.
  - cbn. by rewrite lookup_insert_eq.
  - unfold SegmentWriteReceipt_replica_commit. cbn. rewrite Hd, Hp. by destruct c.
  - apply (Hrecs (wg_segment_id g)). cbn. by rewrite lookup_insert_eq.
  - cbn. congruence.
  - intros ->. rewrite Hint, Hv by done. done.
Qed.

(** A granted write of an unused segment commits, when there is room. *)
Lemma write_segment_granted n request g bytes :
  node_wf n -> issue_write_grant request = Ok g ->
  wgr_storage_node request = ln_storage_node n ->
  wgr_max_bytes request = Z.of_nat (length bytes) ->
  entries (ln_catalog n) !! wg_segment_id g = None -> wg_segment_id g + 1 < U128_MOD ->
  write_allowed (ln_config n) (mkSegmentReservation (wg_segment_id g) (wg_max_bytes g)) bytes ->
  next_offset (ln_store n) + Z.of_nat (length bytes) < U64_MOD ->
  exists rc n', write_segment g bytes n = (Ok rc, n') /\ fresh_write n g bytes (Ok rc) n' /\
    grant_ok g (ln_storage_node n) (wg_segment_id g) (Z.of_nat (length bytes)) /\
    segments (ln_store n) !! wg_segment_id g = None /\
    verify_receipt_matches_grant g rc = Ok (mkVerifiedSegmentReceipt rc (sr_descriptor rc)).
Proof.
  intros Hwf Hg Hnode Hlen Hnone Hid Hal Hroom.
  assert (Hok : grant_ok g (ln_storage_node n) (wg_segment_id g) (Z.of_nat (length bytes))).
  { apply issued_grant_inv in Hg. rewrite Hnode, Hlen in Hg.
    pose proof Hg as (_ & _ & _ & _ & _ & _ & _ & _ & Hseg & _). rewrite <-Hseg in Hg. exact Hg. }
  pose proof Hal as (_ & _ & Hrb & Hu & _). cbn in Hrb. cbn [rs_bytes] in Hu. rewrite Hrb in Hu.
  assert (Hsn : segments (ln_store n) !! wg_segment_id g = None).
  { apply eq_None_not_Some. intros Hs. destruct Hwf as (_ & _ & _ & _ & Hdom).
    destruct (Hdom _ Hs). congruence. }
  destruct (write_segment g bytes n) as [r n'] eqn:Hw.
  assert (Hf : fresh_write n g bytes r n').
  { apply write_segment_fresh; try done. unfold contains_segment. apply bool_decide_eq_false.
    rewrite Hnone. apply is_Some_None. }
  assert (Hrok : exists rc, r = Ok rc).
  { destruct Hf as [e Hov|e s' Hwr|rc]; [lia| |by eauto]. exfalso.
    assert (Hwok : exists c s1, write_segment_owned (ln_config n) (ce_reservation (writing_entry g))
      bytes (wg_payload_integrity g) (ln_store n) = (Ok c, s1)).
    { eexists _, _. apply write_segment_Ok. split; [exact Hal|]. unfold write_effect. cbn.
      rewrite Hsn, Hrb. split_and!; [done|reflexivity|reflexivity]. }
    destruct Hwok as (c & s1 & Hwok). congruence. }
  destruct Hrok as [rc ->]. exists rc, n'. split; [done|]. split_and!; [exact Hf|exact Hok|exact Hsn|].
  remember (Ok rc) as r0 eqn:Er. destruct Hf as [| |rc0 c _ _ Hro Hfor Hd Hp]; try discriminate Er.
  injection Er as ->. apply verify_receipt_matches_grant_Ok.
  pose proof Hfor as (_ & _ & _ & _ & _ & _ & _ & S1 & S2 & S3 & _).
  pose proof Hok as (_ & _ & _ & _ & _ & _ & _ & G1 & _ & G3).
  rewrite S1, S2, S3, G1, <-G3. conj_split; [exact Hok|exact Hro|exact Hfor|reflexivity].
Qed.

(** C25: writing through a grant works end to end: on a reachable node, for an
    issued grant of an unused segment, a block-aligned payload of the granted
    size and room in the log and the id space, the write returns a receipt
    that verifies against the grant, the segment becomes durable pending
    metadata, and every range of it reads back as written. *)
Theorem granted_write_then_read n request g bytes :
  node_wf n -> issue_write_grant request = Ok g ->
  wgr_storage_node request = ln_storage_node n ->
  wgr_max_bytes request = Z.of_nat (length bytes) ->
  entries (ln_catalog n) !! wg_segment_id g = None -> wg_segment_id g + 1 < U128_MOD ->
  write_allowed (ln_config n) (mkSegmentReservation (wg_segment_id g) (wg_max_bytes g)) bytes ->
  next_offset (ln_store n) + Z.of_nat (length bytes) < U64_MOD ->
  exists rc n', write_segment g bytes n = (Ok rc, n') /\
    verify_receipt_matches_grant g rc = Ok (mkVerifiedSegmentReceipt rc (sr_descriptor rc)) /\
    catalog_state (ln_catalog n') (wg_segment_id g) = Ok DurablePendingMetadata /\
    forall range verification buf,
      0 <= br_offset range -> 0 <= br_len range ->
      br_offset range + br_len range <= Z.of_nat (length bytes) ->
      Z.of_nat (length buf) = br_len range ->
      (verification = RvRequireVerified -> wg_payload_integrity g = Verified) ->
      read_segment_with_integrity n' (wg_segment_id g) range (sr_integrity rc) verification buf =
      Ok (slice bytes (br_offset range) (br_len range)).
Proof.
  intros Hwf Hg Hnode Hlen Hnone Hid Hal Hroom.
  destruct (write_segment_granted n request g bytes) as (rc & n' & Hw & Hf & Hok & Hsn & Hv); [done..|].
  exists rc, n'. split_and!; [done|exact Hv| |].
  - remember (Ok rc) as r0 eqn:Er. destruct Hf; try discriminate Er.
    unfold catalog_state. cbn. by rewrite lookup_insert_eq.
  - pose proof Hal as (_ & _ & Hrb & Hu & _). cbn in Hrb. cbn [rs_bytes] in Hu. rewrite Hrb in Hu.
    intros. by eapply fresh_write_reads.
Qed.

(** C28: a segment write is idempotent: repeating a write that succeeded, with
    the same grant and the same bytes, returns the same receipt and leaves the
    node unchanged. *)
Theorem segment_write_retry n g bytes rc n' :
  node_wf n -> write_segment g bytes n = (Ok rc, n') ->
  write_segment g bytes n' = (Ok rc, n').
Proof.
  intros Hwf Hw. destruct (write_segment_Ok_inv _ _ _ _ _ Hw) as [Hg Hu].
  pose proof Hw as Hw'. apply write_segment_cases in Hw as [->|(Hs & He & _ & Hf)]; [done| |done].
  assert (Hread : forall v, v <> RvRequireVerified ->
    read_segment_with_integrity n' (wg_segment_id g) (mkByteRange 0 (Z.of_nat (length bytes)))
      (sr_integrity rc) v (zeros (Z.of_nat (length bytes))) = Ok bytes).
  { intros v Hv. rewrite (fresh_write_reads n g bytes); try done; cbn; try lia.
    - unfold slice. cbn. by rewrite Nat2Z.id, drop_0, firstn_all.
    - unfold zeros. rewrite length_replicate. lia. }
  specialize (Hread RvSkip ltac:(done)).
  remember (Ok rc) as r0 eqn:Er. destruct Hf as [| |rc0 c Hal Hlt Hro Hfor Hd Hp]; try discriminate Er.
  injection Er as ->. cbn [ln_storage_node] in *.
  rewrite write_segment_checked; [|exact Hg|exact Hu|].
  2:{ unfold contains_segment. cbn. rewrite lookup_insert_eq. by rewrite bool_decide_true by eauto. }
  f_equal. unfold read_segment_with_integrity in Hread. unfold write_segment_duplicate.
  assert (Hrf : forall nn, entries (ln_catalog nn) !! wg_segment_id g = Some (committed_entry g rc) ->
    receipt_for_segment (ln_catalog nn) (wg_segment_id g) = Ok rc).
  { intros nn Hnn. unfold receipt_for_segment. by rewrite Hnn. }
  rewrite Hrf in Hread |- * by (cbn; by rewrite lookup_insert_eq).
  cbn [mbind Result_bind] in Hread |- *.
  apply bind_Ok in Hread as (? & _ & Hread). apply bind_Ok in Hread as (? & _ & Hread).
  cbn [verify_segment_payload_for_read mbind Result_bind] in Hread.
  rewrite (proj2 (verify_segment_receipt_Ok rc _) (conj Hro eq_refl)). cbn [mbind Result_bind].
  destruct Hfor as (F1 & F2 & _ & _ & _ & _ & _ & _ & _ & F10 & _). rewrite F1, F2, F10.
  destruct Hg as (_ & _ & _ & _ & _ & _ & _ & _ & _ & G10). rewrite <-G10, !Z.eqb_refl.
  assert (Hint : sr_integrity rc = segment_payload_integrity (wg_payload_integrity g) bytes).
  { destruct Hro as (_ & _ & _ & _ & _ & _ & _ & _ & _ & _ & _ & _ & ->). rewrite Hd. reflexivity. }
  rewrite (bool_decide_true (WriteGrant_hash g = _)) by reflexivity.
  rewrite (bool_decide_true (sr_integrity rc = _)) by exact Hint. cbn [andb].
  cbn [ln_store] in Hread |- *. rewrite <-G10 in Hread. rewrite Hread.
  cbn [mbind Result_bind]. by rewrite bool_decide_true.
Qed.
End node_props.

(** ** Properties of the registry *)

(** The nodes whose catalog knows a segment, in node order. *)
Definition holders (self : StorageNodeRegistry) (id : SegmentId) : list (Z * LocalStorageNode) :=
  filter (fun p => contains_segment (ln_catalog p.2) id = true) (bt_iter (nodes self)).

Lemma owner_search_holders id (l : list (Z * LocalStorageNode)) found :
  try_fold (fun (found : option Z) '(node_id, node) =>
      if contains_segment (ln_catalog node) id
      then
        reject_if (bool_decide (is_Some found))
          (Corrupt "segment appears in multiple storage-node catalogs");;
        Ok (Some node_id)
      else Ok found) found l =
  match found, filter (fun p => contains_segment (ln_catalog p.2) id = true) l with
  | _, [] => Ok found
  | None, [p] => Ok (Some p.1)
  | _, _ => Err (Corrupt "segment appears in multiple storage-node catalogs")
  end.
Proof.
  revert found. induction l as [|[k n] l IH]; intros found; cbn [try_fold].
  { by destruct found. }
  rewrite filter_cons. cbn [snd]. destruct (contains_segment (ln_catalog n) id) eqn:Hc.
  - rewrite decide_True by done. destruct found as [k'|]; cbn.
    + done.
    + rewrite IH. by destruct (filter _ l).
  - rewrite decide_False by done. cbn. apply IH.
Qed.

(** Routing by segment finds exactly the one node whose catalog knows the
    segment: it is [NotFound] when no node does and [Corrupt] when several do,
    never a wrong node. *)
Lemma owner_node_for_segment_spec self id :
  owner_node_for_segment self id =
    match holders self id with
    | [] => Err (not_found "segment" id)
    | [p] => Ok p.2
    | _ => Err (Corrupt "segment appears in multiple storage-node catalogs")
    end /\
  forall k n, (k, n) ∈ holders self id <->
    nodes self !! k = Some n /\ contains_segment (ln_catalog n) id = true.
Proof.
  assert (Hel : forall k n, (k, n) ∈ holders self id <->
    nodes self !! k = Some n /\ contains_segment (ln_catalog n) id = true).
  { intros k n. unfold holders. rewrite list_elem_of_filter, elem_of_bt_iter. tauto. }
  split; [|exact Hel]. unfold owner_node_for_segment. rewrite owner_search_holders.
  change (filter _ (bt_iter (nodes self))) with (holders self id).
  destruct (holders self id) as [|[k n] [|p l]] eqn:Hh; cbn [mbind Result_bind ok_or fst]; [done| |done].
  unfold registry_node. destruct (proj1 (Hel k n)) as [-> _]; [by left|]. done.
Qed.

(** The registry allocates segment ids in increasing order, without
    repetition, until the 64-bit counter is exhausted, and then refuses. *)
Lemma allocate_segment_id_spec self :
  in_u64 (rg_next_segment_id self) ->
  match allocate_segment_id self with
  | (Ok id, self') =>
      id = rg_next_segment_id self /\ rg_next_segment_id self' = id + 1 /\
      in_u64 (id + 1) /\ nodes self' = nodes self /\ node_order self' = node_order self
  | (Err e, self') =>
      e = Conflict "segment id overflow" /\ self' = self /\ rg_next_segment_id self = U64_MAX
  end.
Proof.
  intros Hu. unfold allocate_segment_id, st_get, st_lift, st_put, mret, ST_ret, mbind, ST_bind.
  unfold checked_add. destruct (_ + 1 <? U64_MOD) eqn:Hn; cbn [ok_or]; bool_prop.
  - unfold in_u64 in *. cbn [rg_next_segment_id nodes node_order]. split_and!; try done; lia.
  - unfold in_u64, U64_MAX in *. split_and!; try done; lia.
Qed.

(** Placement is round robin: over the registry's own nodes, consecutive
    choices walk the node order cyclically, so each of [k] nodes receives one
    of every [k] consecutive segments. *)
Lemma choose_storage_node_round_robin self :
  node_order self <> [] ->
  (forall id, id ∈ node_order self -> is_Some (nodes self !! id)) ->
  0 <= next_placement_index self -> next_placement_index self + 1 < U64_MOD ->
  exists id self', choose_storage_node (node_order self) self = (Ok id, self') /\
    node_order self !! Z.to_nat (next_placement_index self mod
      Z.of_nat (length (node_order self))) = Some id /\
    next_placement_index self' = next_placement_index self + 1 /\
    nodes self' = nodes self /\ node_order self' = node_order self.
Proof.
  intros Hne Hn H0 Hlt. unfold choose_storage_node, st_reject_if, st_get, st_lift, st_put,
    mret, ST_ret, mbind, ST_bind.
  rewrite bool_decide_false by done. cbn [reject_if].
  set (i := next_placement_index self mod Z.of_nat (length (node_order self))).
  assert (Hi : 0 <= i < Z.of_nat (length (node_order self))).
  { apply Z.mod_pos_bound. destruct (node_order self); [done|]. cbn. lia. }
  destruct (lookup_lt_is_Some_2 (node_order self) (Z.to_nat i)) as [id Hid]; [lia|].
  rewrite Hid. cbn [ok_or]. unfold registry_node.
  destruct (Hn id) as [n Hnode]; [by eapply list_elem_of_lookup_2|]. rewrite Hnode. cbn [ok_or].
  rewrite checked_add_ok by done. cbn [ok_or]. eauto 10.
Qed.

(** The registry invariant: the order lists exactly the nodes, each once, each
    under its own id with the invariant of a node. *)
Definition registry_wf `{Crc32cCrate} (self : StorageNodeRegistry) : Prop :=
  NoDup (node_order self) /\
  (forall id, id ∈ node_order self <-> is_Some (nodes self !! id)) /\
  map_Forall (fun id n => ln_storage_node n = id /\ node_wf n) (nodes self).

Lemma build_nodes_spec (f : Z -> Result LocalStorageNode) g order (acc ns : gmap Z LocalStorageNode) :
  (forall acc id, g acc id = (n ← f id; Ok (<[id := n]> acc))) ->
  try_fold g acc order = Ok ns ->
  (forall id, is_Some (ns !! id) <-> id ∈ order \/ is_Some (acc !! id)) /\
  (forall id n, ns !! id = Some n -> (id ∈ order /\ f id = Ok n) \/ acc !! id = Some n).
Proof.
  intros Hg. revert acc. induction order as [|x order IH]; intros acc; cbn [try_fold].
  { intros [= <-]. split; [set_solver|]. auto. }
  rewrite Hg. intros (ns' & (n & Hf & [= <-])%bind_Ok & H)%bind_Ok. apply IH in H as [H1 H2]. split.
  - intros id. rewrite H1, lookup_insert_is_Some. destruct (decide (x = id)); set_solver.
  - intros id n' Hn. apply H2 in Hn as [[? ?]|Hn]; [left; set_solver|].
    apply lookup_insert_Some in Hn as [[-> ->]|[_ ?]]; [left; set_solver|by right].
Qed.

Section registry_props.
Context {CR : Crc32cCrate}.

(** A new registry contains exactly the configured nodes, each once and
    empty, and satisfies the registry invariant. *)
Lemma registry_new_wf config storage_nodes self :
  Registry_new config storage_nodes = Ok self ->
  registry_wf self /\
  (forall id, is_Some (nodes self !! id) <-> id = cfg_storage_node config \/ id ∈ storage_nodes).
Proof.
  unfold Registry_new. intros (? & _ & (ns & Hns & [= <-])%bind_Ok)%bind_Ok.
  destruct (normalize_storage_nodes_spec (cfg_storage_node config) storage_nodes) as (Hnd & _ & Hel).
  apply (build_nodes_spec (fun node_id => _ ← LocalStoreConfig_validate
    (for_storage_node config node_id); Ok (node_new (for_storage_node config node_id)))) in Hns
    as [H1 H2].
  2:{ intros acc id. by destruct (LocalStoreConfig_validate _). }
  assert (Hin : forall id, is_Some (ns !! id) <->
    id ∈ normalize_storage_nodes (cfg_storage_node config) storage_nodes).
  { intros id. rewrite H1, lookup_empty. split; [intros [?|[? [=]]]; done|auto]. }
  assert (Hnew : forall id n, ns !! id = Some n -> n = node_new (for_storage_node config id)).
  { intros id n Hn. apply H2 in Hn as [[_ (? & _ & [= <-])%bind_Ok]|Hn]; [done|].
    by rewrite lookup_empty in Hn. }
  unfold registry_wf. cbn [node_order nodes]. split_and!; [done| | |].
  - intros id. by rewrite Hin.
  - intros id n Hn. rewrite (Hnew _ _ Hn). split; [done|apply node_new_wf].
  - intros id. by rewrite Hin.
Qed.
End registry_props.

(** ** A concrete node *)

Definition demo_write_request : WriteGrantRequest :=
  mkWriteGrantRequest 1 1 (IntentBlockWrite 1 (mkBlockRange 0 1) 0 0 1) 5 9 1 2 Verified
    Acknowledged 7.
Definition demo_write_grant : WriteGrant :=
  match issue_write_grant demo_write_request with Ok g => g | Err _ => demo_grant 2 end.
Lemma demo_write_grant_issued : issue_write_grant demo_write_request = Ok demo_write_grant.
Proof. vm_compute. reflexivity. Qed.
Definition demo_empty_node : LocalStorageNode := node_new demo_store_config.

Lemma granted_write_then_read_witness :
  exists rc n', @write_segment sum_crc demo_write_grant [7; 8] demo_empty_node = (Ok rc, n') /\
    @read_segment_with_integrity sum_crc n' 9 (mkByteRange 1 1) (sr_integrity rc) RvRequireVerified [0] =
      Ok [8].
Proof.
  destruct (@granted_write_then_read sum_crc demo_empty_node demo_write_request demo_write_grant [7; 8])
    as (rc & n' & Hw & _ & _ & Hr).
  - apply (@node_new_wf sum_crc).
  - apply demo_write_grant_issued.
  - reflexivity.
  - reflexivity.
  - by vm_compute.
  - by vm_compute.
  - split; [by vm_compute|]. split; [discriminate|]. split; [by vm_compute|].
    split; [split; by vm_compute|by vm_compute].
  - by vm_compute.
  - exists rc, n'. split; [exact Hw|].
    replace 9 with (wg_segment_id demo_write_grant) by (vm_compute; reflexivity).
    apply (Hr (mkByteRange 1 1) RvRequireVerified [0]); [cbn; lia|cbn; lia|cbn; lia|reflexivity|].
    intros _. by vm_compute.
Defined.

Lemma demo_write_ok : is_ok (@write_segment sum_crc demo_write_grant [7; 8] demo_empty_node).1 = true.
Proof. vm_compute. reflexivity. Qed.

Lemma segment_write_retry_witness :
  exists rc n', @write_segment sum_crc demo_write_grant [7; 8] demo_empty_node = (Ok rc, n') /\
    @write_segment sum_crc demo_write_grant [7; 8] n' = (Ok rc, n').
Proof.
  pose proof demo_write_ok as Hok.
  destruct (@write_segment sum_crc demo_write_grant [7; 8] demo_empty_node) as [[rc|e] n'] eqn:H;
    [|discriminate Hok].
  exists rc, n'. split; [reflexivity|].
  apply (@segment_write_retry sum_crc demo_empty_node); [apply (@node_new_wf sum_crc)|exact H].
Defined.

Lemma choose_storage_node_round_robin_witness :
  exists self', choose_storage_node [4; 6]
      (mkStorageNodeRegistry demo_store_config [4; 6]
        (<[4 := demo_empty_node]> {[6 := demo_empty_node]}) 3 1) = (Ok 6, self').
Proof.
  destruct (choose_storage_node_round_robin (mkStorageNodeRegistry demo_store_config [4; 6]
    (<[4 := demo_empty_node]> {[6 := demo_empty_node]}) 3 1)) as (id & self' & H & Hid & _).
  - discriminate.
  - cbn [node_order nodes]. intros id [->|[->|[]%not_elem_of_nil]%elem_of_cons]%elem_of_cons; by eexists.
  - cbn. lia.
  - by vm_compute.
  - exists self'. vm_compute in Hid. injection Hid as <-. exact H.
Defined.

(** The node after a write and the reference to it. *)
Definition demo_marked_node : LocalStorageNode :=
  let n := @node_serve sum_crc [SnWriteSegment demo_write_grant [7; 8]] demo_empty_node in
  match receipt_for_segment (ln_catalog n) 9 with
  | Ok rc =>
      match create_reference_evidence rc 1 with
      | Ok evidence => @node_serve sum_crc [SnMarkReferenced evidence] n
      | Err _ => n
      end
  | Err _ => n
  end.

Lemma demo_marked_node_wf : @node_wf sum_crc demo_marked_node.
Proof.
  unfold demo_marked_node. cbv zeta.
  assert (Hn : @node_wf sum_crc (@node_serve sum_crc [SnWriteSegment demo_write_grant [7; 8]] demo_empty_node))
    by apply node_serve_wf, node_new_wf.
  destruct (receipt_for_segment _ _) as [rc|]; [|exact Hn].
  destruct (create_reference_evidence _ _) as [ev|]; [|exact Hn]. by apply node_serve_wf.
Qed.

Lemma demo_marked_state :
  ce_state <$> entries (ln_catalog demo_marked_node) !! 9 = Some Referenced.
Proof. vm_compute. reflexivity. Qed.

Lemma referenced_segment_safe_witness :
  @read_segment_with_integrity sum_crc (@node_serve sum_crc
      [SnRunCustodian {[5]}; SnWriteSegment demo_write_grant [1; 1]; SnRelease 8; SnRunMaintenanceTick]
      demo_marked_node) 9 (mkByteRange 0 2) SpUnchecked RvDefault [0; 0] =
  @read_segment_with_integrity sum_crc demo_marked_node 9 (mkByteRange 0 2) SpUnchecked
    RvDefault [0; 0].
Proof.
  pose proof demo_marked_state as Hs.
  destruct (entries (ln_catalog demo_marked_node) !! 9) as [e|] eqn:He; [|discriminate Hs].
  apply (@referenced_segment_safe sum_crc
    [SnRunCustodian {[5]}; SnWriteSegment demo_write_grant [1; 1]; SnRelease 8; SnRunMaintenanceTick]
    demo_marked_node 9 e); [apply demo_marked_node_wf|exact He|injection Hs as ->; reflexivity|].
  rewrite !not_elem_of_cons. split_and!; [discriminate..|apply not_elem_of_nil].
Defined.
