(* ===== verification/Streams.v ===== *)
(** * Append streams ([local/metadata_plane.rs], stream part)

    The state of one private append stream: the runs its writer has appended,
    how far they are durable and published, and the selection of runs to
    persist or publish.  A run record says where a byte range of the file is
    in a data log. *)

From S2P Require Import Prelude Intervals Api Object Config.

Definition MAX_STREAM_DATA_LOG_SYNC_GROUP_BYTES : Z := 32 * 1024 * 1024.

(** ** Tokens and tickets ([extent.rs]) *)

Record AppendStream := mkAppendStream {
  as_keyspace_id : KeyspaceId;
  as_file_id : FileId;
  as_stream_id : AppendStreamId;
  as_writer_epoch : WriterEpoch;
  as_base_version : FileVersion;
  as_visible_base_size : Z;
}.

Record AppendTicket := mkAppendTicket {
  at_keyspace_id : KeyspaceId;
  at_file_id : FileId;
  at_stream_id : AppendStreamId;
  at_ticket_id : AppendTicketId;
  at_writer_epoch : WriterEpoch;
  at_range : ByteRange;
}.

Record AppendPublishTicket := mkAppendPublishTicket {
  pt_keyspace_id : KeyspaceId;
  pt_file_id : FileId;
  pt_stream_id : AppendStreamId;
  pt_ticket_id : AppendPublishTicketId;
  pt_writer_epoch : WriterEpoch;
  pt_publish_through : Z;
}.

#[export] Instance AppendPublishTicket_eq_dec : EqDecision AppendPublishTicket.
Proof. solve_decision. Defined.

Record AppendPublishCommit := mkAppendPublishCommit {
  pc_keyspace_id : KeyspaceId;
  pc_file_id : FileId;
  pc_range : ByteRange;
  pc_version : FileVersion;
  pc_commit_seq : CommitSeq;
  pc_durability : WriteDurability;
}.

(** ** Run records *)

Inductive AppendStreamStatus := AsActive | AsReleased | AsFenced | AsAborted.

#[export] Instance AppendStreamStatus_eq_dec : EqDecision AppendStreamStatus.
Proof. solve_decision. Defined.

Record AppendStreamRunRecord := mkAppendStreamRunRecord {
  asr_ticket_id : AppendTicketId;
  asr_offset : Z;
  asr_len : Z;
  asr_run : AppendLogRun;
}.

Definition Record_end_exclusive (self : AppendStreamRunRecord) : Result Z :=
  ok_or (checked_add U64_MOD (asr_offset self) (asr_len self))
    (InvalidArgument "append record end overflows").

Definition Record_payload_bytes (self : AppendStreamRunRecord) : Z :=
  alr_payload_len (asr_run self).

Definition Record_slice (self : AppendStreamRunRecord) (start end_ : Z)
    : Result (option AppendStreamRunRecord) :=
  if end_ <=? start then Ok None
  else
    record_end ← Record_end_exclusive self;
    reject_if ((start <? asr_offset self) || (record_end <? end_))
      (InvalidArgument "append stream record slice exceeds source record");;
    let delta := start - asr_offset self in
    let len := end_ - start in
    let r := asr_run self in
    let integrity := if (start =? asr_offset self) && (end_ =? record_end)
      then alr_integrity r else SpUnchecked in
    offset ← ok_or (checked_add U64_MOD (alr_log_payload_offset r) delta)
      (InvalidArgument "append run offset overflows");
    let run := mkAppendLogRun (alr_run_id r) (alr_storage_node r) (alr_stream_id r)
      (alr_writer_epoch r) (alr_keyspace_id r) (alr_file_id r) start len (alr_log_id r)
      offset len integrity in
    AppendLogRun_validate run;;
    Ok (Some (mkAppendStreamRunRecord (asr_ticket_id self) start len run)).

Section coalesce.
Context {CR : Crc32cCrate}.

Definition Record_coalesce_with (self next : AppendStreamRunRecord)
    : Result (option AppendStreamRunRecord) :=
  let a := asr_run self in
  let b := asr_run next in
  self_end ← Record_end_exclusive self;
  if negb (self_end =? asr_offset next) ||
     negb (alr_log_record_bytes a =? alr_payload_len a) ||
     negb (alr_log_record_bytes b =? alr_payload_len b) ||
     negb (alr_storage_node a =? alr_storage_node b) ||
     negb (alr_stream_id a =? alr_stream_id b) ||
     negb (alr_writer_epoch a =? alr_writer_epoch b) ||
     negb (alr_keyspace_id a =? alr_keyspace_id b) ||
     negb (alr_file_id a =? alr_file_id b) ||
     negb (alr_log_id a =? alr_log_id b) ||
     negb (alr_file_offset_start a =? asr_offset self) ||
     negb (alr_file_offset_start b =? asr_offset next) ||
     negb (bool_decide (checked_add U64_MOD (alr_log_payload_offset a) (alr_payload_len a) =
       Some (alr_log_payload_offset b)))
  then Ok None
  else
    len ← ok_or (checked_add U64_MOD (asr_len self) (asr_len next))
      (InvalidArgument "append run length overflows");
    if MAX_STREAM_DATA_LOG_SYNC_GROUP_BYTES <? len then Ok None
    else
      integrity ← combine_segment_payload_integrity (alr_integrity a) (alr_integrity b)
        (asr_len next);
      let run := mkAppendLogRun (alr_run_id a) (alr_storage_node a) (alr_stream_id a)
        (alr_writer_epoch a) (alr_keyspace_id a) (alr_file_id a) (alr_file_offset_start a) len
        (alr_log_id a) (alr_log_payload_offset a) len integrity in
      AppendLogRun_validate run;;
      Ok (Some (mkAppendStreamRunRecord (asr_ticket_id self) (asr_offset self) len run)).
End coalesce.

(** ** Stream state *)

Record AppendStreamState := mkAppendStreamState {
  ss_keyspace_id : KeyspaceId;
  ss_file_id : FileId;
  ss_stream_id : AppendStreamId;
  ss_base_writer_epoch : WriterEpoch;
  ss_writer_epoch : WriterEpoch;
  ss_base_version : FileVersion;
  ss_visible_base_size : Z;
  ss_accepted_tail : Z;
  ss_durable_through : Z;
  ss_published_through : Z;
  ss_status : AppendStreamStatus;
  ss_records : list AppendStreamRunRecord;
}.

(** The fields that operations assign, over the ones that never change. *)
Definition set_stream (s : AppendStreamState) (accepted durable published : Z)
    (status : AppendStreamStatus) (records : list AppendStreamRunRecord) : AppendStreamState :=
  mkAppendStreamState (ss_keyspace_id s) (ss_file_id s) (ss_stream_id s)
    (ss_base_writer_epoch s) (ss_writer_epoch s) (ss_base_version s) (ss_visible_base_size s)
    accepted durable published status records.

Definition set_stream_status (s : AppendStreamState) (status : AppendStreamStatus)
    : AppendStreamState :=
  set_stream s (ss_accepted_tail s) (ss_durable_through s) (ss_published_through s) status
    (ss_records s).

Definition public_stream (self : AppendStreamState) : AppendStream :=
  mkAppendStream (ss_keyspace_id self) (ss_file_id self) (ss_stream_id self)
    (ss_writer_epoch self) (ss_base_version self) (ss_visible_base_size self).

Definition validate_token (self : AppendStreamState) (stream : AppendStream) : Result unit :=
  reject_if (negb (ss_keyspace_id self =? as_keyspace_id stream) ||
      negb (ss_file_id self =? as_file_id stream) ||
      negb (ss_stream_id self =? as_stream_id stream) ||
      negb (ss_writer_epoch self =? as_writer_epoch stream) ||
      negb (ss_base_version self =? as_base_version stream) ||
      negb (ss_visible_base_size self =? as_visible_base_size stream) ||
      negb (bool_decide (ss_status self = AsActive)))
    (Conflict "stale append stream").

(** The loop of [contiguous_record_tail_from]: a record that ends before the
    expected offset is skipped, a gap ends the loop. *)
Fixpoint contiguous_tail (records : list AppendStreamRunRecord) (expected : Z) : Result Z :=
  match records with
  | [] => Ok expected
  | record :: records =>
      end_ ← Record_end_exclusive record;
      if end_ <=? expected then contiguous_tail records expected
      else if expected <? asr_offset record then Ok expected
      else contiguous_tail records end_
  end.

Definition contiguous_record_tail_from (self : AppendStreamState) (start : Z) : Result Z :=
  contiguous_tail (ss_records self) start.

(** The loop of [publish_records]. *)
Fixpoint publish_select (records : list AppendStreamRunRecord) (expected end_ : Z)
    (selected : list AppendStreamRunRecord) : Result (list AppendStreamRunRecord) :=
  let gap := Err (Conflict "append-run publish requires contiguous durable records") in
  match records with
  | [] => gap
  | record :: records =>
      record_end ← Record_end_exclusive record;
      if record_end <=? expected then publish_select records expected end_ selected
      else if expected <? asr_offset record then gap
      else
        let slice_end := Z.min record_end end_ in
        slice ← Record_slice record expected slice_end;
        '(expected, selected) ← match slice with
          | Some slice =>
              e ← Record_end_exclusive slice; Ok (e, selected ++ [slice])
          | None => Ok (expected, selected)
          end;
        if expected =? end_ then Ok selected
        else publish_select records expected end_ selected
  end.

Definition publish_records (self : AppendStreamState) (start end_ : Z)
    : Result (list AppendStreamRunRecord) :=
  reject_if (end_ <=? start) (InvalidArgument "append stream publish range must not be empty");;
  publish_select (ss_records self) start end_ [].

Record AppendStreamPrefixPersistBatch := mkAppendStreamPrefixPersistBatch {
  pb_records : list AppendStreamRunRecord;
  pb_durable_through : Z;
  pb_payload_bytes : Z;
}.

(** The loop of [prefix_persist_batch]. *)
Fixpoint prefix_select (max_batch_bytes : Z) (records : list AppendStreamRunRecord)
    (expected payload_bytes : Z) (selected : list AppendStreamRunRecord)
    : Result AppendStreamPrefixPersistBatch :=
  let overflow := InvalidArgument "append batch bytes overflow" in
  match records with
  | [] => Ok (mkAppendStreamPrefixPersistBatch selected expected payload_bytes)
  | record :: records =>
      end_ ← Record_end_exclusive record;
      if end_ <=? expected then
        prefix_select max_batch_bytes records expected payload_bytes selected
      else if expected <? asr_offset record then
        Ok (mkAppendStreamPrefixPersistBatch selected expected payload_bytes)
      else
        slice ← Record_slice record expected end_;
        match slice with
        | None => prefix_select max_batch_bytes records expected payload_bytes selected
        | Some slice =>
            let bytes := Record_payload_bytes slice in
            would_exceed ← (if bool_decide (selected = []) then Ok false
              else
                total ← ok_or (checked_add U64_MOD payload_bytes bytes) overflow;
                Ok (max_batch_bytes <? total));
            if (would_exceed : bool) then
              Ok (mkAppendStreamPrefixPersistBatch selected expected payload_bytes)
            else
              total ← ok_or (checked_add U64_MOD payload_bytes bytes) overflow;
              prefix_select max_batch_bytes records end_ total (selected ++ [slice])
        end
  end.

Definition prefix_persist_batch (self : AppendStreamState) (max_batch_bytes : Z)
    : Result AppendStreamPrefixPersistBatch :=
  reject_if (max_batch_bytes =? 0)
    (InvalidArgument "append stream prefix-persist batch byte cap must be greater than zero");;
  prefix_select max_batch_bytes (ss_records self) (ss_durable_through self) 0 [].

(** The records that end at or before a mark. *)
Definition record_ends_by (mark : Z) (record : AppendStreamRunRecord) : bool :=
  match checked_add U64_MOD (asr_offset record) (asr_len record) with
  | Some end_ => end_ <=? mark
  | None => false
  end.

Definition durable_export_at (self : AppendStreamState) (durable_through : Z)
    : Result AppendStreamState :=
  reject_if (durable_through <? ss_durable_through self)
    (Conflict "append stream durable export cannot regress");;
  tail ← contiguous_record_tail_from self (ss_durable_through self);
  reject_if (tail <? durable_through)
    (Conflict "append stream durable export exceeds contiguous records");;
  Ok (set_stream self durable_through durable_through (ss_published_through self)
    (ss_status self) (filter (fun r => record_ends_by durable_through r = true) (ss_records self))).

Definition payload_bytes_by_storage_node (self : AppendStreamPrefixPersistBatch)
    : Result (gmap StorageNodeId Z) :=
  try_fold (fun (out : gmap Z Z) record =>
      let node := alr_storage_node (asr_run record) in
      total ← ok_or (checked_add U64_MOD (default 0 (out !! node)) (Record_payload_bytes record))
        (InvalidArgument "append batch bytes overflow");
      Ok (<[node := total]> out))
    ∅ (pb_records self).

(** ** Identifiers *)

Record AppendStreamAllocator := mkAppendStreamAllocator {
  asa_incarnation : Z;
  asa_next_counter : Z;
}.

Definition Allocator_new (incarnation : Z) : AppendStreamAllocator :=
  mkAppendStreamAllocator incarnation 1.

Definition next_raw : ST AppendStreamAllocator Z :=
  self ← st_get;
  next ← st_lift (ok_or (checked_add U64_MOD (asa_next_counter self) 1)
    (Conflict "append stream counter overflow"));
  st_put (mkAppendStreamAllocator (asa_incarnation self) next);;
  mret (Z.lor (Z.shiftl (asa_incarnation self) 64) (asa_next_counter self)).

(** ** Operations on one stream

    The bodies that [InMemoryMetadataPlane] runs on the stream after it has
    found it and validated the token. *)

Section stream_ops.
Context {CR : Crc32cCrate}.

(** [record_append_stream_run] from [range.end_exclusive()] on. *)
Definition record_run (ticket_id : AppendTicketId) (range : ByteRange) (run : AppendLogRun)
    : ST AppendStreamState unit :=
  state ← st_get;
  next_tail ← st_lift (ByteRange_end_exclusive range);
  st_reject_if (negb (br_offset range =? ss_accepted_tail state))
    (Conflict "append stream record must start at accepted tail");;
  st_lift (match last (ss_records state) with
    | Some l =>
        e ← Record_end_exclusive l;
        reject_if (br_offset range <? e)
          (Conflict "append stream records must commit in stream order")
    | None => Ok tt
    end);;
  let record := mkAppendStreamRunRecord ticket_id (br_offset range) (br_len range) run in
  coalesced ← st_lift (match last (ss_records state) with
    | Some l =>
        e ← Record_end_exclusive l;
        if ss_durable_through state <? e then Record_coalesce_with l record else Ok None
    | None => Ok None
    end);
  let records := match coalesced with
    | Some c => removelast (ss_records state) ++ [c]
    | None => ss_records state ++ [record]
    end in
  st_put (set_stream state next_tail (ss_durable_through state) (ss_published_through state)
    (ss_status state) records).

(** [mark_append_stream_durable]. *)
Definition mark_durable : ST AppendStreamState Z :=
  state ← st_get;
  tail ← st_lift (contiguous_record_tail_from state (ss_durable_through state));
  st_put (set_stream state (ss_accepted_tail state) tail (ss_published_through state)
    (ss_status state) (ss_records state));;
  mret tail.

(** [mark_append_stream_durable_through]. *)
Definition mark_durable_through (durable_through : Z) : ST AppendStreamState Z :=
  state ← st_get;
  if durable_through <=? ss_durable_through state then mret (ss_durable_through state)
  else
    tail ← st_lift (contiguous_record_tail_from state (ss_durable_through state));
    st_reject_if (tail <? durable_through)
      (Conflict "append stream durable high-water is not valid");;
    st_put (set_stream state (ss_accepted_tail state) durable_through
      (ss_published_through state) (ss_status state) (ss_records state));;
    mret durable_through.

(** The records that remain after everything up to [through] is published. *)
Fixpoint retain_after (through : Z) (records : list AppendStreamRunRecord)
    : Result (list AppendStreamRunRecord) :=
  match records with
  | [] => Ok []
  | record :: records =>
      record_end ← Record_end_exclusive record;
      if record_end <=? through then retain_after through records
      else if asr_offset record <? through then
        suffix ← Record_slice record through record_end;
        rest ← retain_after through records;
        Ok (match suffix with Some s => s :: rest | None => rest end)
      else
        rest ← retain_after through records;
        Ok (record :: rest)
  end.

(** [mark_append_stream_published]: the high-water mark is stored before the
    records are trimmed. *)
Definition mark_published (through : Z) : ST AppendStreamState unit :=
  state ← st_get;
  st_put (set_stream state (ss_accepted_tail state) (ss_durable_through state) through
    (ss_status state) (ss_records state));;
  retained ← st_lift (retain_after through (ss_records state));
  st_put (set_stream state (ss_accepted_tail state) (ss_durable_through state) through
    (ss_status state) retained).
End stream_ops.

(** ** What the records describe *)

Definition asr_end (r : AppendStreamRunRecord) : Z := asr_offset r + asr_len r.

(** A record of a non-empty byte range and the matching bytes of a log. *)
Definition record_ok (r : AppendStreamRunRecord) : Prop :=
  0 <= asr_offset r /\ 0 < asr_len r /\ asr_end r < U64_MOD /\
  alr_file_offset_start (asr_run r) = asr_offset r /\ alr_payload_len (asr_run r) = asr_len r /\
  asr_len r <= alr_log_record_bytes (asr_run r) /\ 0 <= alr_log_payload_offset (asr_run r) /\
  alr_log_payload_offset (asr_run r) + asr_len r < U64_MOD.

(** Where the byte at file offset [x] is: node, log, position in the log. *)
Definition record_loc (r : AppendStreamRunRecord) (x : Z) : option (StorageNodeId * Z * Z) :=
  if in_range (asr_offset r) (asr_end r) x
  then Some (alr_storage_node (asr_run r), alr_log_id (asr_run r),
    alr_log_payload_offset (asr_run r) + (x - asr_offset r))
  else None.
Definition records_loc (rs : list AppendStreamRunRecord) : Z -> option (StorageNodeId * Z * Z) :=
  first_at record_loc rs.

(** The records tile [s, e). *)
Fixpoint records_chain (s : Z) (rs : list AppendStreamRunRecord) (e : Z) : Prop :=
  match rs with
  | [] => s = e
  | r :: rs => asr_offset r = s /\ record_ok r /\ records_chain (asr_end r) rs e
  end.

(** The invariant of a stream: its records tile exactly the accepted bytes that
    are not published yet, and the durable mark is among them. *)
Definition stream_wf (s : AppendStreamState) : Prop :=
  0 <= ss_published_through s /\ ss_accepted_tail s < U64_MOD /\
  records_chain (ss_published_through s) (ss_records s) (ss_accepted_tail s) /\
  ss_published_through s <= ss_durable_through s <= ss_accepted_tail s.

(** ** Properties *)

Lemma record_end_ok r : record_ok r -> Record_end_exclusive r = Ok (asr_end r).
Proof.
  intros (_ & _ & ? & _). unfold Record_end_exclusive, asr_end in *. by rewrite checked_add_ok.
Qed.

Lemma record_loc_in r x :
  asr_offset r <= x < asr_end r ->
  record_loc r x = Some (alr_storage_node (asr_run r), alr_log_id (asr_run r),
    alr_log_payload_offset (asr_run r) + (x - asr_offset r)).
Proof. intros. unfold record_loc. by rewrite (proj2 (in_range_true _ _ _)) by lia. Qed.
Lemma record_loc_out r x : x < asr_offset r \/ asr_end r <= x -> record_loc r x = None.
Proof. intros. unfold record_loc. by rewrite (proj2 (in_range_false _ _ _)) by lia. Qed.

Lemma records_chain_le s rs e : records_chain s rs e -> s <= e.
Proof.
  revert s. induction rs as [|r rs IH]; intros s; cbn; [lia|].
  intros (<- & Hr & H%IH). unfold record_ok, asr_end in *. lia.
Qed.

Lemma records_chain_app s rs1 rs2 e :
  records_chain s (rs1 ++ rs2) e <->
  exists m, records_chain s rs1 m /\ records_chain m rs2 e.
Proof.
  revert s. induction rs1 as [|r rs1 IH]; intros s; cbn; [naive_solver|].
  rewrite IH. naive_solver.
Qed.

Lemma records_chain_bounds s rs e r :
  records_chain s rs e -> r ∈ rs -> s <= asr_offset r /\ asr_end r <= e /\ record_ok r.
Proof.
  revert s. induction rs as [|r' rs IH]; intros s; cbn; [by intros _ ?%not_elem_of_nil|].
  intros (<- & Hr & Hc) [->|Hin]%elem_of_cons.
  - apply records_chain_le in Hc. unfold asr_end in *. auto with lia.
  - destruct (IH _ Hc Hin) as (? & ? & ?). unfold record_ok, asr_end in *. lia.
Qed.

Lemma records_loc_out s rs e x :
  records_chain s rs e -> x < s \/ e <= x -> records_loc rs x = None.
Proof.
  intros Hc Hx. apply first_at_None. intros r Hr.
  destruct (records_chain_bounds _ _ _ _ Hc Hr) as (? & ? & _). apply record_loc_out. lia.
Qed.

(** A slice of a record is a record of the sub-range, at the same place. *)
Lemma record_slice_ok r a b :
  record_ok r -> asr_offset r <= a -> a < b -> b <= asr_end r ->
  exists r', Record_slice r a b = Ok (Some r') /\ record_ok r' /\
    asr_offset r' = a /\ asr_end r' = b /\
    forall x, a <= x < b -> record_loc r' x = record_loc r x.
Proof.
  intros Hr Ha Hab Hb. pose proof Hr as (H0 & H1 & H2 & H3 & H4 & H5 & H6 & H7).
  unfold Record_slice. rewrite (proj2 (Z.leb_gt b a)) by lia.
  rewrite record_end_ok by done. cbn [mbind Result_bind].
  unfold asr_end in *. ztest. rewrite checked_add_ok by lia. cbn [ok_or mbind Result_bind].
  unfold AppendLogRun_validate, AppendLogRun_file_offset_end, AppendLogRun_log_payload_end.
  cbn [alr_payload_len alr_file_offset_start alr_log_payload_offset alr_log_record_bytes].
  rewrite (checked_add_ok _ a) by lia.
  rewrite (checked_add_ok _ (alr_log_payload_offset (asr_run r) + (a - asr_offset r))) by lia.
  ztest. cbn [ok_or mbind Result_bind]. eexists. split; [reflexivity|].
  unfold record_ok, asr_end. cbn. split_and!; try lia.
  intros x Hx. rewrite !record_loc_in by (unfold asr_end; cbn; lia). cbn.
  do 2 f_equal. lia.
Qed.

Lemma contiguous_tail_chain s rs e x :
  records_chain s rs e -> s <= x <= e -> contiguous_tail rs x = Ok e.
Proof.
  revert s x. induction rs as [|r rs IH]; intros s x; cbn [records_chain contiguous_tail].
  { intros ->. intros. f_equal. lia. }
  intros (<- & Hr & Hc) Hx. rewrite record_end_ok by done. cbn [mbind Result_bind].
  destruct (asr_end r <=? x) eqn:Hle; bool_prop; [eapply IH; [done|lia]|]. ztest.
  eapply IH; [done|]. apply records_chain_le in Hc. lia.
Qed.

Lemma records_loc_head s r rs e x :
  records_chain s (r :: rs) e -> asr_end r <= x -> records_loc (r :: rs) x = records_loc rs x.
Proof. intros _ Hx. unfold records_loc. cbn. by rewrite record_loc_out by lia. Qed.

Lemma publish_select_chain s rs e a b sel :
  records_chain s rs e -> s <= a -> a < b -> b <= e ->
  exists sel', publish_select rs a b sel = Ok (sel ++ sel') /\ records_chain a sel' b /\
    forall x, a <= x < b -> records_loc sel' x = records_loc rs x.
Proof.
  revert s a sel. induction rs as [|r rs IH]; intros s a sel Hc Hs Hab Hb; [cbn in Hc; lia|].
  pose proof Hc as (<- & Hr & Hc'). cbn [publish_select].
  rewrite record_end_ok by done. cbn [mbind Result_bind].
  destruct (asr_end r <=? a) eqn:Hle; bool_prop.
  { destruct (IH (asr_end r) a sel Hc') as (sel' & Hs' & Hch & Hloc); [lia..|].
    exists sel'. split_and!; [done..|]. intros x Hx.
    rewrite Hloc by done. symmetry. eapply records_loc_head; [done|lia]. }
  ztest. destruct (record_slice_ok r a (Z.min (asr_end r) b)) as (r' & -> & Hr' & Ho & He & Hl);
    [done|lia..|].
  cbn [mbind Result_bind]. rewrite record_end_ok by done. cbn [mbind Result_bind]. rewrite He.
  destruct (Z.min (asr_end r) b =? b) eqn:Hm; bool_prop.
  - exists [r']. split_and!; [done|cbn; split_and!; try done; lia|].
    intros x Hx. unfold records_loc. cbn. rewrite Hl by lia. by rewrite record_loc_in by lia.
  - assert (asr_end r < b) by lia. replace (Z.min (asr_end r) b) with (asr_end r) in * by lia.
    destruct (IH (asr_end r) (asr_end r) (sel ++ [r']) Hc') as (sel' & -> & Hch & Hloc); [lia..|].
    exists (r' :: sel'). split_and!; [by rewrite <-app_assoc|cbn; rewrite He; done|].
    intros x Hx. unfold records_loc. cbn. destruct (decide (x < asr_end r)).
    + rewrite Hl by lia. by rewrite record_loc_in by lia.
    + rewrite !record_loc_out by lia. apply Hloc. lia.
Qed.

(** C33: publishing selects exactly the requested bytes: on a well-formed
    stream, for any non-empty range between the published and the accepted
    mark, the selection succeeds, its records tile the range without gap or
    overlap, and every byte stays at the place in the log where the writer
    put it. *)
Theorem publish_records_exact s a b :
  stream_wf s -> ss_published_through s <= a -> a < b -> b <= ss_accepted_tail s ->
  exists recs, publish_records s a b = Ok recs /\ records_chain a recs b /\
    forall x, a <= x < b -> records_loc recs x = records_loc (ss_records s) x.
Proof.
  intros (_ & _ & Hc & _) Ha Hab Hb. unfold publish_records. ztest.
  destruct (publish_select_chain _ _ _ a b [] Hc) as (sel & ? & ? & ?); [done..|]. eauto.
Qed.

Lemma prefix_select_chain cap s rs e x p sel :
  records_chain s rs e -> s <= x <= e -> 0 <= p -> p + (e - x) < U64_MOD ->
  (sel = [] -> p = 0) ->
  exists sel' d, prefix_select cap rs x p sel =
      Ok (mkAppendStreamPrefixPersistBatch (sel ++ sel') d (p + (d - x))) /\
    x <= d <= e /\ records_chain x sel' d /\
    (sel = [] -> x < e -> x < d) /\
    (p + (d - x) <= Z.max p cap \/ (sel = [] /\ exists r, sel' = [r])) /\
    forall y, x <= y < d -> records_loc sel' y = records_loc rs y.
Proof.
  revert s x p sel. induction rs as [|r rs IH]; intros s x p sel Hc Hx Hp Hpo Hsel.
  { cbn in Hc. exists [], x. cbn. rewrite app_nil_r, Z.sub_diag, Z.add_0_r.
    split_and!; try done; try lia. }
  pose proof Hc as (<- & Hr & Hc'). cbn [prefix_select].
  rewrite record_end_ok by done. cbn [mbind Result_bind].
  pose proof (records_chain_le _ _ _ Hc') as Hle'.
  destruct (asr_end r <=? x) eqn:Hle; bool_prop.
  { destruct (IH (asr_end r) x p sel Hc') as (sel' & d & -> & ? & ? & ? & ? & Hl); [lia..|done|].
    exists sel', d. split_and!; try done; try lia.
    intros y Hy. rewrite Hl by done. symmetry. eapply records_loc_head; [done|lia]. }
  ztest. destruct (record_slice_ok r x (asr_end r)) as (r' & -> & Hr' & Ho & He & Hl); [done|lia..|].
  cbn [mbind Result_bind].
  assert (Hpb : Record_payload_bytes r' = asr_end r - x).
  { unfold Record_payload_bytes. destruct Hr' as (_ & _ & _ & _ & -> & _).
    unfold asr_end in *. lia. }
  rewrite Hpb, !checked_add_ok by lia. cbn [ok_or mbind Result_bind].
  assert (Hstep : exists sel' d, prefix_select cap rs (asr_end r) (p + (asr_end r - x)) (sel ++ [r']) =
      Ok (mkAppendStreamPrefixPersistBatch (sel ++ r' :: sel') d (p + (d - x))) /\
    asr_end r <= d <= e /\ records_chain x (r' :: sel') d /\
    p + (d - x) <= Z.max (p + (asr_end r - x)) cap /\
    (asr_end r < d -> p + (d - x) <= Z.max (p + (asr_end r - x)) cap) /\
    forall y, x <= y < d -> records_loc (r' :: sel') y = records_loc (r :: rs) y).
  { destruct (IH (asr_end r) (asr_end r) (p + (asr_end r - x)) (sel ++ [r']) Hc')
      as (sel' & d & -> & ? & ? & _ & Hcap & Hl'); [lia..|by destruct sel|].
    exists sel', d. split_and!; try lia.
    - do 2 f_equal; [by rewrite <-app_assoc|lia].
    - cbn. by rewrite He.
    - destruct Hcap as [|[? _]]; [lia|]. by destruct sel.
    - destruct Hcap as [|[? _]]; [lia|]. by destruct sel.
    - intros y Hy. unfold records_loc. cbn. destruct (decide (y < asr_end r)).
      + rewrite Hl by lia. by rewrite record_loc_in by lia.
      + rewrite !record_loc_out by lia. apply Hl'. lia. }
  destruct Hstep as (sel' & d & Hsel' & ? & ? & ? & ? & Hl').
  case_bool_decide as Hnil; cbn [mbind Result_bind].
  - subst sel. rewrite Hsel'. exists (r' :: sel'), d. rewrite (Hsel eq_refl) in *.
    split_and!; try done; try lia.
    destruct sel' as [|r1 sel1]; [by right; eauto|]. left.
    destruct (decide (0 + (asr_end r - x) <= cap)) as [|Hbig]; [lia|]. exfalso.
    assert (records_chain (asr_end r') (r1 :: sel1) d) as (Ho1 & Hr1 & Hc1) by (by destruct H0 as (_ & _ & ?)).
    apply records_chain_le in Hc1. unfold record_ok, asr_end in Hr1, Hc1.
    rewrite He in Ho1. lia.
  - destruct (cap <? p + (asr_end r - x)) eqn:Hbig; bool_prop.
    + exists [], x. rewrite app_nil_r, Z.sub_diag, Z.add_0_r. split_and!; try done; try lia.
    + rewrite Hsel'. exists (r' :: sel'), d. split_and!; try done; try lia.
Qed.

(** C34: the next batch of a stream to make durable: on a well-formed stream it
    is computed without error, starts at the durable mark, tiles a contiguous
    prefix at unchanged log positions, makes progress whenever something is
    not durable, and exceeds the byte cap only when it is a single record. *)
Theorem prefix_persist_batch_spec s cap :
  stream_wf s -> 0 < cap ->
  exists recs d,
    prefix_persist_batch s cap =
      Ok (mkAppendStreamPrefixPersistBatch recs d (d - ss_durable_through s)) /\
    ss_durable_through s <= d <= ss_accepted_tail s /\
    records_chain (ss_durable_through s) recs d /\
    (ss_durable_through s < ss_accepted_tail s -> ss_durable_through s < d) /\
    (d - ss_durable_through s <= cap \/ exists r, recs = [r]) /\
    forall y, ss_durable_through s <= y < d -> records_loc recs y = records_loc (ss_records s) y.
Proof.
  intros (H0 & Ht & Hc & Hd) Hcap. unfold prefix_persist_batch. ztest.
  destruct (prefix_select_chain cap _ _ _ (ss_durable_through s) 0 [] Hc)
    as (recs & d & -> & ? & ? & Hp & Hs & ?); [lia..|done|].
  exists recs, d. cbn [app]. rewrite Z.add_0_l. split_and!; try done; try lia.
  - intros. by apply Hp.
  - destruct Hs as [?|[_ ?]]; [left; lia|by right].
Qed.

Section stream_props.
Context {CR : Crc32cCrate}.

(** A run that matches the range it is recorded for. *)
Definition run_matches (range : ByteRange) (run : AppendLogRun) : Prop :=
  alr_file_offset_start run = br_offset range /\ alr_payload_len run = br_len range /\
  br_len range <= alr_log_record_bytes run /\ 0 <= alr_log_payload_offset run /\
  alr_log_payload_offset run + br_len range < U64_MOD.

Lemma run_matches_record t range run :
  run_matches range run -> 0 <= br_offset range -> 0 < br_len range ->
  br_offset range + br_len range < U64_MOD ->
  record_ok (mkAppendStreamRunRecord t (br_offset range) (br_len range) run).
Proof. unfold run_matches, record_ok, asr_end. cbn. intros. split_and!; lia. Qed.

(** Coalescing two neighbours never fails, and what it produces describes both. *)
Lemma coalesce_records a b :
  record_ok a -> record_ok b -> asr_end a = asr_offset b ->
  exists m, Record_coalesce_with a b = Ok m /\
    match m with
    | None => True
    | Some c => record_ok c /\ asr_offset c = asr_offset a /\ asr_end c = asr_end b /\
        forall x, record_loc c x = records_loc [a; b] x
    end.
Proof.
  intros Ha Hb Hab. unfold Record_coalesce_with. rewrite record_end_ok by done.
  cbn [mbind Result_bind].
  destruct (_ || _) eqn:Hg; [by exists None|]. bool_prop.
  pose proof Ha as (A0 & A1 & A2 & A3 & A4 & A5 & A6 & A7).
  pose proof Hb as (B0 & B1 & B2 & B3 & B4 & B5 & B6 & B7). unfold asr_end in *.
  repeat match goal with H : checked_add _ _ _ = Some _ |- _ => apply checked_add_Some in H as [? ?] end.
  rewrite checked_add_ok by lia. cbn [ok_or mbind Result_bind].
  destruct (_ <? asr_len a + asr_len b); [by exists None|].
  assert (Hi : exists i, combine_segment_payload_integrity (alr_integrity (asr_run a))
    (alr_integrity (asr_run b)) (asr_len b) = Ok i).
  { unfold combine_segment_payload_integrity. destruct (alr_integrity (asr_run a)), (alr_integrity (asr_run b)); eauto. }
  destruct Hi as [i ->]. cbn [mbind Result_bind].
  unfold AppendLogRun_validate, AppendLogRun_file_offset_end, AppendLogRun_log_payload_end.
  cbn [alr_payload_len alr_file_offset_start alr_log_payload_offset alr_log_record_bytes].
  rewrite (checked_add_ok _ (alr_file_offset_start (asr_run a))) by lia.
  rewrite (checked_add_ok _ (alr_log_payload_offset (asr_run a))) by lia.
  ztest. cbn [ok_or mbind Result_bind]. eexists. split; [reflexivity|].
  unfold record_ok, asr_end. cbn. split_and!; try lia.
  intros x. unfold records_loc. cbn.
  destruct (decide (asr_offset a <= x < asr_offset a + asr_len a)).
  { rewrite (record_loc_in a) by (unfold asr_end; lia).
    rewrite record_loc_in by (unfold asr_end; cbn; lia). done. }
  rewrite (record_loc_out a) by (unfold asr_end; lia).
  destruct (decide (asr_offset b <= x < asr_offset b + asr_len b)).
  { rewrite (record_loc_in b) by (unfold asr_end; lia).
    rewrite record_loc_in by (unfold asr_end; cbn; lia). cbn.
    repeat match goal with H : _ = alr_storage_node _ |- _ => rewrite H; clear H
      | H : _ = alr_log_id _ |- _ => rewrite H; clear H end.
    do 2 f_equal. lia. }
  rewrite (record_loc_out b) by (unfold asr_end; lia). apply record_loc_out. unfold asr_end. cbn. lia.
Qed.

Lemma last_removelast {A} (l : list A) x :
  last l = Some x -> l = removelast l ++ [x].
Proof.
  intros Hl. apply last_Some in Hl as [l' ->]. by rewrite removelast_last.
Qed.

Lemma records_loc_app rs1 rs2 x :
  records_loc (rs1 ++ rs2) x =
  match records_loc rs1 x with Some b => Some b | None => records_loc rs2 x end.
Proof. apply first_at_app. Qed.

(** Recording an appended run: on a well-formed stream a matching run at the
    accepted tail is always accepted; the stream stays well formed, its tail
    moves by exactly the run's length, the new bytes are found where the run
    says and every earlier byte where it was, whether or not the run was
    merged into the previous record. *)
Lemma record_run_spec s t range run :
  stream_wf s -> run_matches range run -> br_offset range = ss_accepted_tail s ->
  0 < br_len range -> br_offset range + br_len range < U64_MOD ->
  exists s', record_run t range run s = (Ok tt, s') /\ stream_wf s' /\
    ss_accepted_tail s' = br_offset range + br_len range /\
    ss_published_through s' = ss_published_through s /\
    ss_durable_through s' = ss_durable_through s /\
    public_stream s' = public_stream s /\ ss_status s' = ss_status s /\
    forall x, records_loc (ss_records s') x =
      if in_range (br_offset range) (br_offset range + br_len range) x
      then Some (alr_storage_node run, alr_log_id run,
        alr_log_payload_offset run + (x - br_offset range))
      else records_loc (ss_records s) x.
Proof.
  intros (H0 & Ht & Hc & Hd) Hm Ho Hl Hu.
  pose proof (records_chain_le _ _ _ Hc) as Hle.
  set (rec := mkAppendStreamRunRecord t (br_offset range) (br_len range) run).
  assert (Hrec : record_ok rec) by (apply run_matches_record; try done; lia).
  assert (Hend : asr_end rec = br_offset range + br_len range) by done.
  assert (Hnew : forall rs, records_chain (ss_published_through s) rs (asr_end rec) ->
    (forall x, records_loc rs x = records_loc (ss_records s ++ [rec]) x) ->
    let s' := set_stream s (br_offset range + br_len range) (ss_durable_through s)
      (ss_published_through s) (ss_status s) rs in
    stream_wf s' /\ forall x, records_loc (ss_records s') x =
      if in_range (br_offset range) (br_offset range + br_len range) x
      then Some (alr_storage_node run, alr_log_id run,
        alr_log_payload_offset run + (x - br_offset range))
      else records_loc (ss_records s) x).
  { intros rs Hrs Hloc. split.
    { unfold stream_wf. cbn. rewrite Hend in Hrs. split_and!; try done; lia. }
    intros x. cbn [ss_records set_stream]. rewrite Hloc, records_loc_app.
    destruct (in_range _ _ x) eqn:Hx.
    - apply in_range_true in Hx. rewrite (records_loc_out _ _ _ x Hc) by lia.
      unfold records_loc. cbn. by rewrite record_loc_in by (rewrite Hend; cbn; lia).
    - apply in_range_false in Hx. unfold records_loc at 2. cbn.
      rewrite record_loc_out by (rewrite Hend; cbn; lia).
      by destruct (records_loc (ss_records s) x). }
  assert (Hpush : records_chain (ss_published_through s) (ss_records s ++ [rec]) (asr_end rec)).
  { apply records_chain_app. exists (ss_accepted_tail s). split; [done|]. cbn. by rewrite <-Ho. }
  unfold record_run, st_get, st_lift, st_reject_if, st_put, mbind, ST_bind.
  unfold ByteRange_end_exclusive. rewrite checked_add_ok by done. cbn [ok_or].
  rewrite Ho, Z.eqb_refl. cbn [negb reject_if]. rewrite <-Ho. fold rec.
  destruct (last (ss_records s)) as [l|] eqn:Hlast.
  - apply last_removelast in Hlast as Hsplit. rewrite Hsplit in Hc.
    apply records_chain_app in Hc as (m & Hc1 & (Hlo & Hlok & Hle')). cbn in Hle'.
    rewrite record_end_ok by done. cbn [mbind Result_bind]. rewrite Hle', <-Ho.
    ztest. destruct (ss_durable_through s <? br_offset range).
    + destruct (coalesce_records l rec) as (c & -> & Hcoal); [done..|cbn; congruence|].
      destruct c as [c|].
      * destruct Hcoal as (Hcok & Hco & Hce & Hcl).
        destruct (Hnew (removelast (ss_records s) ++ [c])) as [Hwf Hloc].
        { apply records_chain_app. exists m. split; [done|]. cbn. split_and!; congruence || done. }
        { intros x. rewrite Hsplit at 2. rewrite <-app_assoc, !records_loc_app.
          destruct (records_loc (removelast (ss_records s)) x); [done|].
          pose proof (Hcl x) as E. unfold records_loc in E |- *. cbn [first_at] in E |- *.
          rewrite E. by destruct (record_loc l x), (record_loc rec x). }
        eexists. split; [reflexivity|]. split_and!; done.
      * destruct (Hnew _ Hpush (fun _ => eq_refl)) as [Hwf Hloc].
        eexists. split; [reflexivity|]. split_and!; done.
    + destruct (Hnew _ Hpush (fun _ => eq_refl)) as [Hwf Hloc].
      eexists. split; [reflexivity|]. split_and!; done.
  - destruct (Hnew _ Hpush (fun _ => eq_refl)) as [Hwf Hloc].
    eexists. split; [reflexivity|]. split_and!; done.
Qed.

Lemma retain_after_all s rs e p : records_chain s rs e -> p <= s -> retain_after p rs = Ok rs.
Proof.
  revert s. induction rs as [|r rs IH]; intros s; cbn [records_chain retain_after]; [done|].
  intros (<- & Hr & Hc) Hp. rewrite record_end_ok by done. cbn [mbind Result_bind].
  pose proof Hr as (_ & ? & _). rewrite (IH (asr_end r)) by (done || (unfold asr_end; lia)).
  unfold asr_end. ztest. done.
Qed.

Lemma retain_after_chain s rs e p :
  records_chain s rs e -> s <= p <= e ->
  exists rs', retain_after p rs = Ok rs' /\ records_chain p rs' e /\
    forall x, p <= x -> records_loc rs' x = records_loc rs x.
Proof.
  revert s. induction rs as [|r rs IH]; intros s; cbn [records_chain retain_after].
  { intros -> ?. exists []. split_and!; try done. cbn. lia. }
  intros (<- & Hr & Hc) Hp. rewrite record_end_ok by done. cbn [mbind Result_bind].
  destruct (asr_end r <=? p) eqn:Hle; bool_prop.
  { destruct (IH (asr_end r) Hc) as (rs' & -> & ? & Hl); [lia|]. exists rs'. split_and!; [done..|].
    intros x Hx. rewrite Hl by done. unfold records_loc. cbn. by rewrite record_loc_out by lia. }
  rewrite (retain_after_all (asr_end r) rs e) by (done || lia).
  destruct (asr_offset r <? p) eqn:Hlt; bool_prop; cbn [mbind Result_bind].
  - destruct (record_slice_ok r p (asr_end r)) as (r' & -> & Hr' & Ho & He & Hl); [done|lia..|].
    cbn [mbind Result_bind]. exists (r' :: rs). split_and!; [done|cbn; by rewrite He|].
    intros x Hx. unfold records_loc. cbn. destruct (decide (x < asr_end r)).
    + by rewrite Hl by lia.
    + by rewrite !record_loc_out by lia.
  - exists (r :: rs). split_and!; [done| |done]. cbn. split_and!; [lia|done|done].
Qed.

(** Publishing a prefix of a stream: for any mark between the published and
    the durable one the operation succeeds, the stream stays well formed, the
    records left are exactly those of the unpublished bytes, and each of these
    bytes stays where it is in the log. *)
Lemma mark_published_spec s p :
  stream_wf s -> ss_published_through s <= p <= ss_durable_through s ->
  exists s', mark_published p s = (Ok tt, s') /\ stream_wf s' /\
    ss_published_through s' = p /\ ss_accepted_tail s' = ss_accepted_tail s /\
    ss_durable_through s' = ss_durable_through s /\
    records_chain p (ss_records s') (ss_accepted_tail s) /\
    forall x, p <= x -> records_loc (ss_records s') x = records_loc (ss_records s) x.
Proof.
  intros (H0 & Ht & Hc & Hd) Hp.
  destruct (retain_after_chain _ _ _ p Hc) as (rs & Hrs & Hc' & Hl); [lia|].
  unfold mark_published, st_get, st_put, st_lift, mbind, ST_bind. rewrite Hrs.
  eexists. split; [reflexivity|]. unfold stream_wf. cbn. split_and!; try done; lia.
Qed.

(** Marking a stream durable: the mark reaches the accepted tail at once
    ([mark_append_stream_durable]) or exactly the requested point when that
    lies between the old mark and the tail; it never goes back, and a target
    beyond the accepted bytes is a conflict without effect. *)
Lemma mark_durable_spec s p :
  stream_wf s ->
  (exists s1, mark_durable s = (Ok (ss_accepted_tail s), s1) /\ stream_wf s1 /\
    ss_durable_through s1 = ss_accepted_tail s /\ ss_records s1 = ss_records s) /\
  match mark_durable_through p s with
  | (Ok d, s2) => stream_wf s2 /\ d = Z.max p (ss_durable_through s) /\ p <= ss_accepted_tail s /\
      ss_durable_through s2 = d /\ ss_records s2 = ss_records s
  | (Err e, s2) => ss_accepted_tail s < p /\ s2 = s
  end.
Proof.
  intros Hwf. pose proof Hwf as (H0 & Ht & Hc & Hd).
  pose proof (contiguous_tail_chain _ _ _ (ss_durable_through s) Hc ltac:(lia)) as Htail.
  split.
  - unfold mark_durable, contiguous_record_tail_from, st_get, st_put, st_lift, mbind, ST_bind, mret,
      ST_ret. rewrite Htail. eexists. split; [reflexivity|]. unfold stream_wf. cbn.
    split_and!; try done; lia.
  - unfold mark_durable_through, contiguous_record_tail_from, st_get, st_put, st_lift,
      st_reject_if, mbind, ST_bind, mret, ST_ret. rewrite Htail.
    destruct (p <=? ss_durable_through s) eqn:Hp; bool_prop; [split_and!; try done; lia|].
    destruct (ss_accepted_tail s <? p) eqn:Hb; bool_prop; unfold st_lift; cbn [reject_if]; [done|].
    unfold stream_wf. cbn. split_and!; try done; lia.
Qed.
End stream_props.

(** Identifiers of streams and tickets never repeat: within an incarnation
    the counter advances, and different incarnations give different upper
    halves. *)
Lemma next_raw_unique a1 a2 id1 id2 a1' a2' :
  in_u64 (asa_next_counter a1) -> in_u64 (asa_next_counter a2) ->
  0 <= asa_incarnation a1 -> 0 <= asa_incarnation a2 ->
  next_raw a1 = (Ok id1, a1') -> next_raw a2 = (Ok id2, a2') ->
  id1 = id2 -> a1 = a2.
Proof.
  unfold next_raw. intros Hc1 Hc2 Hi1 Hi2 H1 H2 Heq. ok_inv.
  assert (Hlor : forall i c, 0 <= i -> in_u64 c -> Z.lor (Z.shiftl i 64) c = i * U64_MOD + c).
  { intros i c Hi Hc.
    assert (Hland : Z.land (Z.shiftl i 64) c = 0).
    { apply Z.bits_inj'. intros n Hn. rewrite Z.land_spec, Z.bits_0.
      destruct (decide (n < 64)); [by rewrite Z.shiftl_spec_low|].
      replace c with (c mod 2 ^ 64) by (apply Z.mod_small; exact Hc).
      by rewrite Z.mod_pow2_bits_high, andb_false_r by lia. }
    by rewrite <-Z.lxor_lor, <-Z.add_nocarry_lxor, Z.shiftl_mul_pow2 by (done || lia). }
  rewrite !Hlor in * by done.
  match goal with
  | H : asa_incarnation ?a * _ + _ = asa_incarnation ?b * _ + _ |- _ => destruct a, b; cbn in *
  end.
  u64_unfold. f_equal; lia.
Qed.

(** ** A concrete stream *)

Definition demo_run (start len log_offset : Z) : AppendLogRun :=
  mkAppendLogRun 1 1 2 3 4 5 start len 6 log_offset len SpUnchecked.
(** Ten bytes appended at offset 100 in two runs; the first four are durable. *)
Definition demo_stream : AppendStreamState :=
  mkAppendStreamState 4 5 2 3 3 1 100 110 104 100 AsActive
    [mkAppendStreamRunRecord 1 100 4 (demo_run 100 4 0);
     mkAppendStreamRunRecord 2 104 6 (demo_run 104 6 50)].

Lemma demo_stream_wf : stream_wf demo_stream.
Proof.
  unfold stream_wf, demo_stream. cbn. unfold record_ok, asr_end. cbn. u64_unfold.
  split_and!; try done; lia.
Qed.

Lemma publish_records_exact_witness :
  exists recs, publish_records demo_stream 102 107 = Ok recs /\ records_chain 102 recs 107.
Proof.
  destruct (publish_records_exact demo_stream 102 107 demo_stream_wf) as (recs & H & Hc & _);
    [cbn; lia|lia|cbn; lia|]. by exists recs.
Defined.

Lemma prefix_persist_batch_spec_witness :
  exists recs d, prefix_persist_batch demo_stream 4 =
    Ok (mkAppendStreamPrefixPersistBatch recs d (d - 104)) /\ 104 < d.
Proof.
  destruct (prefix_persist_batch_spec demo_stream 4 demo_stream_wf) as (recs & d & H & _ & _ & Hd & _);
    [lia|]. exists recs, d. split; [exact H|]. apply Hd. cbn. lia.
Defined.

Lemma record_run_spec_witness :
  exists s', @record_run sum_crc 3 (mkByteRange 110 5) (demo_run 110 5 56) demo_stream = (Ok tt, s') /\
    stream_wf s' /\ ss_accepted_tail s' = 115.
Proof.
  destruct (@record_run_spec sum_crc demo_stream 3 (mkByteRange 110 5) (demo_run 110 5 56) demo_stream_wf)
    as (s' & H & Hw & Ht & _).
  - unfold run_matches. cbn. u64_unfold. split_and!; lia.
  - reflexivity.
  - cbn. lia.
  - by vm_compute.
  - by exists s'.
Defined.

Lemma mark_published_spec_witness :
  exists s', mark_published 103 demo_stream = (Ok tt, s') /\ stream_wf s' /\ ss_published_through s' = 103.
Proof.
  destruct (mark_published_spec demo_stream 103 demo_stream_wf) as (s' & H & Hw & Hp & _);
    [cbn; lia|]. by exists s'.
Defined.
