(* ===== verification/NativeApi.v ===== *)
(** * The native file API ([extent.rs])

    Requests, responses and envelopes of the keyspace and file API, their
    validation, and the default methods of the file handle. *)

From S2P Require Import Prelude Api Batch Streams.

(** ** Values *)

Record CreateKeyspaceRequest := mkCreateKeyspaceRequest { ckr_name : option string }.

Record KeyspaceInfo := mkKeyspaceInfo {
  ki_keyspace_id : KeyspaceId;
  ki_generation : KeyspaceGeneration;
  ki_latest_commit : CommitSeq;
  ki_file_count : Z;
}.

Record SnapshotKeyspaceRequest := mkSnapshotKeyspaceRequest {
  skr_target : option KeyspaceId;
  skr_name : option string;
}.

Record FileSpec := mkFileSpec { fsp_name : option string }.

Record CreateFileRequest := mkCreateFileRequest { cfr_spec : FileSpec }.

Record FileInfo := mkFileInfo {
  fi_keyspace_id : KeyspaceId;
  fi_file_id : FileId;
  fi_size : Z;
  fi_version : FileVersion;
}.

Record FileWriteCommit := mkFileWriteCommit {
  fwc_keyspace_id : KeyspaceId;
  fwc_file_id : FileId;
  fwc_range : ByteRange;
  fwc_version : FileVersion;
  fwc_commit_seq : CommitSeq;
  fwc_durability : WriteDurability;
}.

(** ** Requests *)

Inductive NativeOperation :=
| NoCreateKeyspace | NoKeyspaceInfo | NoCreateFile | NoFileInfo | NoRead | NoCommitFileBatch
| NoOpenAppendStream | NoAppendStream | NoSubmitAppendPublish | NoWaitAppendPublish
| NoPublishAppendStream | NoReleaseAppendStream | NoAbortAppendStream | NoFlush
| NoCheckpointKeyspace | NoSnapshotKeyspace | NoRestoreKeyspace.

Inductive NativeRequest :=
| NrCreateKeyspace (request : CreateKeyspaceRequest)
| NrKeyspaceInfo (keyspace_id : KeyspaceId)
| NrCreateFile (keyspace_id : KeyspaceId) (request : CreateFileRequest)
| NrFileInfo (keyspace_id : KeyspaceId) (file_id : FileId)
| NrRead (keyspace_id : KeyspaceId) (file_id : FileId) (range : ByteRange)
    (verification : ReadVerification)
| NrCommitFileBatch (keyspace_id : KeyspaceId) (file_id : FileId) (writes : list FileBatchWrite)
    (payload_integrity : PayloadIntegrity) (durability : WriteDurability)
| NrOpenAppendStream (keyspace_id : KeyspaceId) (file_id : FileId)
| NrAppendStream (keyspace_id : KeyspaceId) (file_id : FileId) (stream : AppendStream)
    (bytes : list Z) (payload_integrity : PayloadIntegrity)
| NrSubmitAppendPublish (keyspace_id : KeyspaceId) (file_id : FileId) (stream : AppendStream)
    (publish_through : Z)
| NrWaitAppendPublish (keyspace_id : KeyspaceId) (file_id : FileId) (ticket : AppendPublishTicket)
| NrPublishAppendStream (keyspace_id : KeyspaceId) (file_id : FileId) (stream : AppendStream)
    (publish_through : Z)
| NrReleaseAppendStream (keyspace_id : KeyspaceId) (file_id : FileId) (stream : AppendStream)
| NrAbortAppendStream (keyspace_id : KeyspaceId) (file_id : FileId) (stream : AppendStream)
| NrFlush (keyspace_id : KeyspaceId) (file_id : FileId)
| NrCheckpointKeyspace (keyspace_id : KeyspaceId)
| NrSnapshotKeyspace (source : KeyspaceId) (request : SnapshotKeyspaceRequest)
| NrRestoreKeyspace (source : KeyspaceId) (point : RestorePoint).

(** [NativeRequest::operation] *)
Definition NativeRequest_operation (self : NativeRequest) : NativeOperation :=
  match self with
  | NrCreateKeyspace _ => NoCreateKeyspace
  | NrKeyspaceInfo _ => NoKeyspaceInfo
  | NrCreateFile _ _ => NoCreateFile
  | NrFileInfo _ _ => NoFileInfo
  | NrRead _ _ _ _ => NoRead
  | NrCommitFileBatch _ _ _ _ _ => NoCommitFileBatch
  | NrOpenAppendStream _ _ => NoOpenAppendStream
  | NrAppendStream _ _ _ _ _ => NoAppendStream
  | NrSubmitAppendPublish _ _ _ _ => NoSubmitAppendPublish
  | NrWaitAppendPublish _ _ _ => NoWaitAppendPublish
  | NrPublishAppendStream _ _ _ _ => NoPublishAppendStream
  | NrReleaseAppendStream _ _ _ => NoReleaseAppendStream
  | NrAbortAppendStream _ _ _ => NoAbortAppendStream
  | NrFlush _ _ => NoFlush
  | NrCheckpointKeyspace _ => NoCheckpointKeyspace
  | NrSnapshotKeyspace _ _ => NoSnapshotKeyspace
  | NrRestoreKeyspace _ _ => NoRestoreKeyspace
  end.

(** [NativeRequest::target_keyspace_id] *)
Definition NativeRequest_target_keyspace_id (self : NativeRequest) : option KeyspaceId :=
  match self with
  | NrKeyspaceInfo k | NrCreateFile k _ | NrFileInfo k _ | NrRead k _ _ _
  | NrCommitFileBatch k _ _ _ _ | NrOpenAppendStream k _ | NrAppendStream k _ _ _ _
  | NrSubmitAppendPublish k _ _ _ | NrWaitAppendPublish k _ _ | NrPublishAppendStream k _ _ _
  | NrReleaseAppendStream k _ _ | NrAbortAppendStream k _ _ | NrFlush k _
  | NrCheckpointKeyspace k => Some k
  | NrSnapshotKeyspace s _ | NrRestoreKeyspace s _ => Some s
  | NrCreateKeyspace _ => None
  end.

(** [NativeRequest::target_file_id] *)
Definition NativeRequest_target_file_id (self : NativeRequest) : option FileId :=
  match self with
  | NrFileInfo _ f | NrRead _ f _ _ | NrCommitFileBatch _ f _ _ _ | NrOpenAppendStream _ f
  | NrAppendStream _ f _ _ _ | NrSubmitAppendPublish _ f _ _ | NrWaitAppendPublish _ f _
  | NrPublishAppendStream _ f _ _ | NrReleaseAppendStream _ f _ | NrAbortAppendStream _ f _
  | NrFlush _ f => Some f
  | NrCreateKeyspace _ | NrKeyspaceInfo _ | NrCreateFile _ _ | NrCheckpointKeyspace _
  | NrSnapshotKeyspace _ _ | NrRestoreKeyspace _ _ => None
  end.

(** The loop of [NativeRequest::byte_range] over a batch: the least offset and
    the greatest end so far. *)
Definition batch_range_step (acc : Z * Z) (write : FileBatchWrite) : Result (Z * Z) :=
  range ← FileBatchWrite_byte_range write;
  end_ ← ByteRange_end_exclusive range;
  Ok (Z.min acc.1 (br_offset range), Z.max acc.2 end_).

(** [NativeRequest::byte_range] *)
Definition NativeRequest_byte_range (self : NativeRequest) : Result (option ByteRange) :=
  match self with
  | NrRead _ _ range _ => Ok (Some range)
  | NrCommitFileBatch _ _ writes _ _ =>
      acc ← try_fold batch_range_step (U64_MAX, 0) writes;
      if acc.1 =? U64_MAX then Ok None
      else Ok (Some (mkByteRange acc.1 (wsub64 acc.2 acc.1)))
  | NrAppendStream _ _ stream bytes _ =>
      len ← len_u64 bytes (InvalidArgument "append byte length overflows u64");
      Ok (Some (mkByteRange (as_visible_base_size stream) len))
  | _ => Ok None
  end.

(** [NativeRequest::validate_for_new_keyspace] *)
Definition NativeRequest_validate_for_new_keyspace (self : NativeRequest) : Result unit :=
  match self with
  | NrCreateKeyspace _ => Ok tt
  | _ => Err (InvalidArgument "request does not create a keyspace")
  end.

(** [NativeRequest::validate_for_new_file] *)
Definition NativeRequest_validate_for_new_file (self : NativeRequest) : Result unit :=
  match self with
  | NrCreateFile _ _ => Ok tt
  | _ => Err (InvalidArgument "request does not create a file")
  end.

Definition stream_target_check (keyspace_id : KeyspaceId) (file_id : FileId) (stream : AppendStream)
    : Result unit :=
  reject_if (negb (keyspace_id =? as_keyspace_id stream) || negb (file_id =? as_file_id stream))
    (InvalidArgument "append stream target does not match request target").

(** [NativeRequest::validate_for_existing_file] *)
Definition NativeRequest_validate_for_existing_file (self : NativeRequest) : Result unit :=
  match self with
  | NrCreateFile _ _ =>
      Err (InvalidArgument "create-file request does not target an existing file")
  | NrCommitFileBatch _ _ writes _ _ =>
      reject_if (bool_decide (length writes = 0%nat))
        (InvalidArgument "native file batch must not be empty");;
      try_for (fun write => FileBatchWrite_byte_range write;; Ok tt) writes
  | NrAppendStream keyspace_id file_id stream bytes _ =>
      reject_if (bool_decide (length bytes = 0%nat))
        (InvalidArgument "append payload must not be empty");;
      stream_target_check keyspace_id file_id stream
  | NrSubmitAppendPublish keyspace_id file_id stream publish_through
  | NrPublishAppendStream keyspace_id file_id stream publish_through =>
      stream_target_check keyspace_id file_id stream;;
      reject_if (publish_through <=? as_visible_base_size stream)
        (InvalidArgument "append publish target must advance past stream base")
  | NrReleaseAppendStream keyspace_id file_id stream
  | NrAbortAppendStream keyspace_id file_id stream =>
      stream_target_check keyspace_id file_id stream
  | NrWaitAppendPublish keyspace_id file_id ticket =>
      reject_if (negb (keyspace_id =? pt_keyspace_id ticket) || negb (file_id =? pt_file_id ticket))
        (InvalidArgument "append publish target does not match ticket")
  | _ => Ok tt
  end.

(** ** Responses and envelopes *)

Inductive NativeResponse :=
| NsKeyspaceCreated (keyspace_id : KeyspaceId)
| NsKeyspaceInfo (info : KeyspaceInfo)
| NsFileCreated (file_id : FileId)
| NsFileInfo (info : FileInfo)
| NsRead (bytes : list Z)
| NsFileBatchCommitted (commit : FileWriteCommit)
| NsAppendStreamOpened (stream : AppendStream)
| NsAppendTicket (ticket : AppendTicket)
| NsAppendPublishSubmitted (ticket : AppendPublishTicket)
| NsAppendPublished (commit : AppendPublishCommit)
| NsAppendReleased
| NsAppendAborted
| NsFlush (flush : FlushResult)
| NsKeyspaceCheckpointed (checkpoint_id : CheckpointId)
| NsKeyspaceSnapshotted (keyspace_id : KeyspaceId)
| NsKeyspaceRestored (keyspace_id : KeyspaceId).

Record NativeRequestEnvelope := mkNativeRequestEnvelope {
  nre_request_id : RequestId;
  nre_client_epoch : ClientEpoch;
  nre_deadline : option LogicalDeadline;
  nre_request : NativeRequest;
}.

Record NativeResponseEnvelope := mkNativeResponseEnvelope {
  nse_request_id : RequestId;
  nse_response : NativeResponse;
}.

(** [NativeRequestEnvelope::respond] *)
Definition NativeRequestEnvelope_respond (self : NativeRequestEnvelope) (response : NativeResponse)
    : NativeResponseEnvelope :=
  mkNativeResponseEnvelope (nre_request_id self) response.

(** ** File handles *)

(** The methods of [NativeFile] that an implementation has to give; its state
    is [S]. *)
Class NativeFile (S : Type) := {
  nf_commit_batch_with_integrity : list FileBatchWrite -> PayloadIntegrity -> ST S FileWriteCommit;
  nf_read_at_with_verification : Z -> list Z -> ReadVerification -> ST S (list Z);
  nf_append_stream_with_integrity : AppendStream -> list Z -> PayloadIntegrity -> ST S AppendTicket;
  nf_submit_append_publish : AppendStream -> Z -> ST S AppendPublishTicket;
  nf_wait_append_publish : AppendPublishTicket -> ST S AppendPublishCommit;
}.

Section native_file.
Context {S : Type} {NF : NativeFile S}.

Definition nf_read_at (offset : Z) (buf : list Z) : ST S (list Z) :=
  nf_read_at_with_verification offset buf RvDefault.
Definition nf_write_at_with_integrity (offset : Z) (data : list Z)
    (payload_integrity : PayloadIntegrity) : ST S FileWriteCommit :=
  nf_commit_batch_with_integrity [mkFileBatchWrite offset data] payload_integrity.
Definition nf_write_at (offset : Z) (data : list Z) : ST S FileWriteCommit :=
  nf_write_at_with_integrity offset data Verified.
Definition nf_commit_batch (writes : list FileBatchWrite) : ST S FileWriteCommit :=
  nf_commit_batch_with_integrity writes Verified.
Definition nf_append_stream (stream : AppendStream) (data : list Z) : ST S AppendTicket :=
  nf_append_stream_with_integrity stream data Verified.
Definition nf_publish_append_stream (stream : AppendStream) (publish_through : Z)
    : ST S AppendPublishCommit :=
  ticket ← nf_submit_append_publish stream publish_through;
  nf_wait_append_publish ticket.
End native_file.

(** ** What validation establishes *)

(** The range a batch reports contains every write of it. *)
Lemma batch_range_covers writes acc acc' :
  try_fold batch_range_step acc writes = Ok acc' ->
  acc'.1 <= acc.1 /\ acc.2 <= acc'.2 /\
  forall w, w ∈ writes -> acc'.1 <= fw_offset w /\ fw_offset w + Z.of_nat (length (fw_bytes w)) <= acc'.2.
Proof.
  revert acc. induction writes as [|w writes IH]; cbn [try_fold]; intros acc H.
  - injection H as <-. split_and!; [lia|lia|]. by intros w ?%not_elem_of_nil.
  - apply bind_Ok in H as (acc1 & Hs & H). apply IH in H as (H1 & H2 & Hin).
    unfold batch_range_step, FileBatchWrite_byte_range in Hs. ok_inv.
    repeat match goal with H : ByteRange_end_exclusive _ = Ok _ |- _ =>
      apply ByteRange_end_exclusive_Ok in H as [? ?]; cbn in * end. subst. cbn in *.
    split_and!; [lia|lia|]. intros w' [->|Hw]%elem_of_cons; [lia|]. by apply Hin.
Qed.
