(* ===== verification/Plane.v ===== *)
(** * The metadata plane: state and operations ([local/metadata_plane.rs])

    All metadata of the store behind one mutex: heads of block devices and
    native keyspaces, the copy-on-write metadata nodes, the commit timelines,
    fork and delete records and checkpoints.  An operation is a state
    transformer on [MetadataInner]; what was changed before an early return
    stays changed.  The 128-bit identifier counters that the code advances
    with an unchecked [+= 1] count up in [Z]. *)

From S2P Require Import Prelude Api Object Provider Config Streams.

(** ** State *)

Record AppendPublishInFlight := mkAppendPublishInFlight {
  if_ticket_id : AppendPublishTicketId;
  if_stream_id : AppendStreamId;
  if_commit_seq : CommitSeq;
  if_writer_epoch : WriterEpoch;
  if_keyspace_id : KeyspaceId;
  if_file_id : FileId;
  if_publish_through : Z;
  if_old_root : MetadataNodeId;
  if_old_size : Z;
}.

Record MetadataInner := mkMetadataInner {
  next_device_id : Z;
  next_keyspace_id : Z;
  next_file_id : Z;
  next_metadata_node_id : Z;
  next_keyspace_root_id : Z;
  next_keyspace_catalog_shard_id : Z;
  next_commit_group_id : Z;
  next_commit_seq : Z;
  next_checkpoint_id : Z;
  next_gc_epoch : Z;
  device_heads : gmap DeviceId DeviceHead;
  deleted_device_heads : gmap DeviceId DeviceHead;
  device_specs : gmap DeviceId DeviceSpec;
  keyspace_heads : gmap KeyspaceId KeyspaceHead;
  keyspace_roots : gmap KeyspaceRootId KeyspaceRoot;
  keyspace_catalog_shards : gmap KeyspaceCatalogShardId KeyspaceCatalogShard;
  file_writer_epochs : gmap (KeyspaceId * FileId) WriterEpoch;
  append_streams : gmap AppendStreamId AppendStreamState;
  append_publish_in_flight : gmap AppendPublishTicketId AppendPublishInFlight;
  metadata_nodes : gmap MetadataNodeId MetadataNode;
  commit_groups : gmap CommitGroupId CommitGroup;
  shard_commits : list ShardCommit;
  keyspace_commits : list KeyspaceCommit;
  file_commits : list FileCommit;
  fork_records : gmap CommitSeq ForkRecord;
  delete_records : gmap CommitSeq DeleteRecord;
  checkpoints : gmap CheckpointId Checkpoint;
  metadata_last_mark_epoch : gmap MetadataNodeId Z;
  segment_last_mark_epoch : gmap SegmentId Z;
}.

Definition MetadataInner_new : MetadataInner :=
  mkMetadataInner 1 1 1 1 1 1 1 1 1 1 ∅ ∅ ∅ ∅ ∅ ∅ ∅ ∅ ∅ ∅ ∅ [] [] [] ∅ ∅ ∅ ∅ ∅.

(** Assignment to one field. *)
Definition set_next_device_id (v : Z) (m : MetadataInner) : MetadataInner :=
  mkMetadataInner v (next_keyspace_id m) (next_file_id m) (next_metadata_node_id m)
    (next_keyspace_root_id m) (next_keyspace_catalog_shard_id m) (next_commit_group_id m)
    (next_commit_seq m) (next_checkpoint_id m) (next_gc_epoch m) (device_heads m)
    (deleted_device_heads m) (device_specs m) (keyspace_heads m) (keyspace_roots m)
    (keyspace_catalog_shards m) (file_writer_epochs m) (append_streams m)
    (append_publish_in_flight m) (metadata_nodes m) (commit_groups m) (shard_commits m)
    (keyspace_commits m) (file_commits m) (fork_records m) (delete_records m)
    (checkpoints m) (metadata_last_mark_epoch m) (segment_last_mark_epoch m).
Definition set_next_keyspace_id (v : Z) (m : MetadataInner) : MetadataInner :=
  mkMetadataInner (next_device_id m) v (next_file_id m) (next_metadata_node_id m)
    (next_keyspace_root_id m) (next_keyspace_catalog_shard_id m) (next_commit_group_id m)
    (next_commit_seq m) (next_checkpoint_id m) (next_gc_epoch m) (device_heads m)
    (deleted_device_heads m) (device_specs m) (keyspace_heads m) (keyspace_roots m)
    (keyspace_catalog_shards m) (file_writer_epochs m) (append_streams m)
    (append_publish_in_flight m) (metadata_nodes m) (commit_groups m) (shard_commits m)
    (keyspace_commits m) (file_commits m) (fork_records m) (delete_records m)
    (checkpoints m) (metadata_last_mark_epoch m) (segment_last_mark_epoch m).
Definition set_next_file_id (v : Z) (m : MetadataInner) : MetadataInner :=
  mkMetadataInner (next_device_id m) (next_keyspace_id m) v (next_metadata_node_id m)
    (next_keyspace_root_id m) (next_keyspace_catalog_shard_id m) (next_commit_group_id m)
    (next_commit_seq m) (next_checkpoint_id m) (next_gc_epoch m) (device_heads m)
    (deleted_device_heads m) (device_specs m) (keyspace_heads m) (keyspace_roots m)
    (keyspace_catalog_shards m) (file_writer_epochs m) (append_streams m)
    (append_publish_in_flight m) (metadata_nodes m) (commit_groups m) (shard_commits m)
    (keyspace_commits m) (file_commits m) (fork_records m) (delete_records m)
    (checkpoints m) (metadata_last_mark_epoch m) (segment_last_mark_epoch m).
Definition set_next_metadata_node_id (v : Z) (m : MetadataInner) : MetadataInner :=
  mkMetadataInner (next_device_id m) (next_keyspace_id m) (next_file_id m) v
    (next_keyspace_root_id m) (next_keyspace_catalog_shard_id m) (next_commit_group_id m)
    (next_commit_seq m) (next_checkpoint_id m) (next_gc_epoch m) (device_heads m)
    (deleted_device_heads m) (device_specs m) (keyspace_heads m) (keyspace_roots m)
    (keyspace_catalog_shards m) (file_writer_epochs m) (append_streams m)
    (append_publish_in_flight m) (metadata_nodes m) (commit_groups m) (shard_commits m)
    (keyspace_commits m) (file_commits m) (fork_records m) (delete_records m)
    (checkpoints m) (metadata_last_mark_epoch m) (segment_last_mark_epoch m).
Definition set_next_keyspace_root_id (v : Z) (m : MetadataInner) : MetadataInner :=
  mkMetadataInner (next_device_id m) (next_keyspace_id m) (next_file_id m)
    (next_metadata_node_id m) v (next_keyspace_catalog_shard_id m) (next_commit_group_id m)
    (next_commit_seq m) (next_checkpoint_id m) (next_gc_epoch m) (device_heads m)
    (deleted_device_heads m) (device_specs m) (keyspace_heads m) (keyspace_roots m)
    (keyspace_catalog_shards m) (file_writer_epochs m) (append_streams m)
    (append_publish_in_flight m) (metadata_nodes m) (commit_groups m) (shard_commits m)
    (keyspace_commits m) (file_commits m) (fork_records m) (delete_records m)
    (checkpoints m) (metadata_last_mark_epoch m) (segment_last_mark_epoch m).
Definition set_next_keyspace_catalog_shard_id (v : Z) (m : MetadataInner) : MetadataInner :=
  mkMetadataInner (next_device_id m) (next_keyspace_id m) (next_file_id m)
    (next_metadata_node_id m) (next_keyspace_root_id m) v (next_commit_group_id m)
    (next_commit_seq m) (next_checkpoint_id m) (next_gc_epoch m) (device_heads m)
    (deleted_device_heads m) (device_specs m) (keyspace_heads m) (keyspace_roots m)
    (keyspace_catalog_shards m) (file_writer_epochs m) (append_streams m)
    (append_publish_in_flight m) (metadata_nodes m) (commit_groups m) (shard_commits m)
    (keyspace_commits m) (file_commits m) (fork_records m) (delete_records m)
    (checkpoints m) (metadata_last_mark_epoch m) (segment_last_mark_epoch m).
Definition set_next_commit_group_id (v : Z) (m : MetadataInner) : MetadataInner :=
  mkMetadataInner (next_device_id m) (next_keyspace_id m) (next_file_id m)
    (next_metadata_node_id m) (next_keyspace_root_id m) (next_keyspace_catalog_shard_id m) v
    (next_commit_seq m) (next_checkpoint_id m) (next_gc_epoch m) (device_heads m)
    (deleted_device_heads m) (device_specs m) (keyspace_heads m) (keyspace_roots m)
    (keyspace_catalog_shards m) (file_writer_epochs m) (append_streams m)
    (append_publish_in_flight m) (metadata_nodes m) (commit_groups m) (shard_commits m)
    (keyspace_commits m) (file_commits m) (fork_records m) (delete_records m)
    (checkpoints m) (metadata_last_mark_epoch m) (segment_last_mark_epoch m).
Definition set_next_commit_seq (v : Z) (m : MetadataInner) : MetadataInner :=
  mkMetadataInner (next_device_id m) (next_keyspace_id m) (next_file_id m)
    (next_metadata_node_id m) (next_keyspace_root_id m) (next_keyspace_catalog_shard_id m)
    (next_commit_group_id m) v (next_checkpoint_id m) (next_gc_epoch m) (device_heads m)
    (deleted_device_heads m) (device_specs m) (keyspace_heads m) (keyspace_roots m)
    (keyspace_catalog_shards m) (file_writer_epochs m) (append_streams m)
    (append_publish_in_flight m) (metadata_nodes m) (commit_groups m) (shard_commits m)
    (keyspace_commits m) (file_commits m) (fork_records m) (delete_records m)
    (checkpoints m) (metadata_last_mark_epoch m) (segment_last_mark_epoch m).
Definition set_next_checkpoint_id (v : Z) (m : MetadataInner) : MetadataInner :=
  mkMetadataInner (next_device_id m) (next_keyspace_id m) (next_file_id m)
    (next_metadata_node_id m) (next_keyspace_root_id m) (next_keyspace_catalog_shard_id m)
    (next_commit_group_id m) (next_commit_seq m) v (next_gc_epoch m) (device_heads m)
    (deleted_device_heads m) (device_specs m) (keyspace_heads m) (keyspace_roots m)
    (keyspace_catalog_shards m) (file_writer_epochs m) (append_streams m)
    (append_publish_in_flight m) (metadata_nodes m) (commit_groups m) (shard_commits m)
    (keyspace_commits m) (file_commits m) (fork_records m) (delete_records m)
    (checkpoints m) (metadata_last_mark_epoch m) (segment_last_mark_epoch m).
Definition set_next_gc_epoch (v : Z) (m : MetadataInner) : MetadataInner :=
  mkMetadataInner (next_device_id m) (next_keyspace_id m) (next_file_id m)
    (next_metadata_node_id m) (next_keyspace_root_id m) (next_keyspace_catalog_shard_id m)
    (next_commit_group_id m) (next_commit_seq m) (next_checkpoint_id m) v (device_heads m)
    (deleted_device_heads m) (device_specs m) (keyspace_heads m) (keyspace_roots m)
    (keyspace_catalog_shards m) (file_writer_epochs m) (append_streams m)
    (append_publish_in_flight m) (metadata_nodes m) (commit_groups m) (shard_commits m)
    (keyspace_commits m) (file_commits m) (fork_records m) (delete_records m)
    (checkpoints m) (metadata_last_mark_epoch m) (segment_last_mark_epoch m).
Definition set_device_heads (v : gmap DeviceId DeviceHead) (m : MetadataInner) : MetadataInner :=
  mkMetadataInner (next_device_id m) (next_keyspace_id m) (next_file_id m)
    (next_metadata_node_id m) (next_keyspace_root_id m) (next_keyspace_catalog_shard_id m)
    (next_commit_group_id m) (next_commit_seq m) (next_checkpoint_id m) (next_gc_epoch m) v
    (deleted_device_heads m) (device_specs m) (keyspace_heads m) (keyspace_roots m)
    (keyspace_catalog_shards m) (file_writer_epochs m) (append_streams m)
    (append_publish_in_flight m) (metadata_nodes m) (commit_groups m) (shard_commits m)
    (keyspace_commits m) (file_commits m) (fork_records m) (delete_records m)
    (checkpoints m) (metadata_last_mark_epoch m) (segment_last_mark_epoch m).
Definition set_deleted_device_heads (v : gmap DeviceId DeviceHead) (m : MetadataInner) : MetadataInner :=
  mkMetadataInner (next_device_id m) (next_keyspace_id m) (next_file_id m)
    (next_metadata_node_id m) (next_keyspace_root_id m) (next_keyspace_catalog_shard_id m)
    (next_commit_group_id m) (next_commit_seq m) (next_checkpoint_id m) (next_gc_epoch m)
    (device_heads m) v (device_specs m) (keyspace_heads m) (keyspace_roots m)
    (keyspace_catalog_shards m) (file_writer_epochs m) (append_streams m)
    (append_publish_in_flight m) (metadata_nodes m) (commit_groups m) (shard_commits m)
    (keyspace_commits m) (file_commits m) (fork_records m) (delete_records m)
    (checkpoints m) (metadata_last_mark_epoch m) (segment_last_mark_epoch m).
Definition set_device_specs (v : gmap DeviceId DeviceSpec) (m : MetadataInner) : MetadataInner :=
  mkMetadataInner (next_device_id m) (next_keyspace_id m) (next_file_id m)
    (next_metadata_node_id m) (next_keyspace_root_id m) (next_keyspace_catalog_shard_id m)
    (next_commit_group_id m) (next_commit_seq m) (next_checkpoint_id m) (next_gc_epoch m)
    (device_heads m) (deleted_device_heads m) v (keyspace_heads m) (keyspace_roots m)
    (keyspace_catalog_shards m) (file_writer_epochs m) (append_streams m)
    (append_publish_in_flight m) (metadata_nodes m) (commit_groups m) (shard_commits m)
    (keyspace_commits m) (file_commits m) (fork_records m) (delete_records m)
    (checkpoints m) (metadata_last_mark_epoch m) (segment_last_mark_epoch m).
Definition set_keyspace_heads (v : gmap KeyspaceId KeyspaceHead) (m : MetadataInner) : MetadataInner :=
  mkMetadataInner (next_device_id m) (next_keyspace_id m) (next_file_id m)
    (next_metadata_node_id m) (next_keyspace_root_id m) (next_keyspace_catalog_shard_id m)
    (next_commit_group_id m) (next_commit_seq m) (next_checkpoint_id m) (next_gc_epoch m)
    (device_heads m) (deleted_device_heads m) (device_specs m) v (keyspace_roots m)
    (keyspace_catalog_shards m) (file_writer_epochs m) (append_streams m)
    (append_publish_in_flight m) (metadata_nodes m) (commit_groups m) (shard_commits m)
    (keyspace_commits m) (file_commits m) (fork_records m) (delete_records m)
    (checkpoints m) (metadata_last_mark_epoch m) (segment_last_mark_epoch m).
Definition set_keyspace_roots (v : gmap KeyspaceRootId KeyspaceRoot) (m : MetadataInner) : MetadataInner :=
  mkMetadataInner (next_device_id m) (next_keyspace_id m) (next_file_id m)
    (next_metadata_node_id m) (next_keyspace_root_id m) (next_keyspace_catalog_shard_id m)
    (next_commit_group_id m) (next_commit_seq m) (next_checkpoint_id m) (next_gc_epoch m)
    (device_heads m) (deleted_device_heads m) (device_specs m) (keyspace_heads m) v
    (keyspace_catalog_shards m) (file_writer_epochs m) (append_streams m)
    (append_publish_in_flight m) (metadata_nodes m) (commit_groups m) (shard_commits m)
    (keyspace_commits m) (file_commits m) (fork_records m) (delete_records m)
    (checkpoints m) (metadata_last_mark_epoch m) (segment_last_mark_epoch m).
Definition set_keyspace_catalog_shards (v : gmap KeyspaceCatalogShardId KeyspaceCatalogShard) (m : MetadataInner) : MetadataInner :=
  mkMetadataInner (next_device_id m) (next_keyspace_id m) (next_file_id m)
    (next_metadata_node_id m) (next_keyspace_root_id m) (next_keyspace_catalog_shard_id m)
    (next_commit_group_id m) (next_commit_seq m) (next_checkpoint_id m) (next_gc_epoch m)
    (device_heads m) (deleted_device_heads m) (device_specs m) (keyspace_heads m)
    (keyspace_roots m) v (file_writer_epochs m) (append_streams m)
    (append_publish_in_flight m) (metadata_nodes m) (commit_groups m) (shard_commits m)
    (keyspace_commits m) (file_commits m) (fork_records m) (delete_records m)
    (checkpoints m) (metadata_last_mark_epoch m) (segment_last_mark_epoch m).
Definition set_file_writer_epochs (v : gmap (KeyspaceId * FileId) WriterEpoch) (m : MetadataInner) : MetadataInner :=
  mkMetadataInner (next_device_id m) (next_keyspace_id m) (next_file_id m)
    (next_metadata_node_id m) (next_keyspace_root_id m) (next_keyspace_catalog_shard_id m)
    (next_commit_group_id m) (next_commit_seq m) (next_checkpoint_id m) (next_gc_epoch m)
    (device_heads m) (deleted_device_heads m) (device_specs m) (keyspace_heads m)
    (keyspace_roots m) (keyspace_catalog_shards m) v (append_streams m)
    (append_publish_in_flight m) (metadata_nodes m) (commit_groups m) (shard_commits m)
    (keyspace_commits m) (file_commits m) (fork_records m) (delete_records m)
    (checkpoints m) (metadata_last_mark_epoch m) (segment_last_mark_epoch m).
Definition set_append_streams (v : gmap AppendStreamId AppendStreamState) (m : MetadataInner) : MetadataInner :=
  mkMetadataInner (next_device_id m) (next_keyspace_id m) (next_file_id m)
    (next_metadata_node_id m) (next_keyspace_root_id m) (next_keyspace_catalog_shard_id m)
    (next_commit_group_id m) (next_commit_seq m) (next_checkpoint_id m) (next_gc_epoch m)
    (device_heads m) (deleted_device_heads m) (device_specs m) (keyspace_heads m)
    (keyspace_roots m) (keyspace_catalog_shards m) (file_writer_epochs m) v
    (append_publish_in_flight m) (metadata_nodes m) (commit_groups m) (shard_commits m)
    (keyspace_commits m) (file_commits m) (fork_records m) (delete_records m)
    (checkpoints m) (metadata_last_mark_epoch m) (segment_last_mark_epoch m).
Definition set_append_publish_in_flight (v : gmap AppendPublishTicketId AppendPublishInFlight) (m : MetadataInner) : MetadataInner :=
  mkMetadataInner (next_device_id m) (next_keyspace_id m) (next_file_id m)
    (next_metadata_node_id m) (next_keyspace_root_id m) (next_keyspace_catalog_shard_id m)
    (next_commit_group_id m) (next_commit_seq m) (next_checkpoint_id m) (next_gc_epoch m)
    (device_heads m) (deleted_device_heads m) (device_specs m) (keyspace_heads m)
    (keyspace_roots m) (keyspace_catalog_shards m) (file_writer_epochs m) (append_streams m)
    v (metadata_nodes m) (commit_groups m) (shard_commits m) (keyspace_commits m)
    (file_commits m) (fork_records m) (delete_records m) (checkpoints m)
    (metadata_last_mark_epoch m) (segment_last_mark_epoch m).
Definition set_metadata_nodes (v : gmap MetadataNodeId MetadataNode) (m : MetadataInner) : MetadataInner :=
  mkMetadataInner (next_device_id m) (next_keyspace_id m) (next_file_id m)
    (next_metadata_node_id m) (next_keyspace_root_id m) (next_keyspace_catalog_shard_id m)
    (next_commit_group_id m) (next_commit_seq m) (next_checkpoint_id m) (next_gc_epoch m)
    (device_heads m) (deleted_device_heads m) (device_specs m) (keyspace_heads m)
    (keyspace_roots m) (keyspace_catalog_shards m) (file_writer_epochs m) (append_streams m)
    (append_publish_in_flight m) v (commit_groups m) (shard_commits m) (keyspace_commits m)
    (file_commits m) (fork_records m) (delete_records m) (checkpoints m)
    (metadata_last_mark_epoch m) (segment_last_mark_epoch m).
Definition set_commit_groups (v : gmap CommitGroupId CommitGroup) (m : MetadataInner) : MetadataInner :=
  mkMetadataInner (next_device_id m) (next_keyspace_id m) (next_file_id m)
    (next_metadata_node_id m) (next_keyspace_root_id m) (next_keyspace_catalog_shard_id m)
    (next_commit_group_id m) (next_commit_seq m) (next_checkpoint_id m) (next_gc_epoch m)
    (device_heads m) (deleted_device_heads m) (device_specs m) (keyspace_heads m)
    (keyspace_roots m) (keyspace_catalog_shards m) (file_writer_epochs m) (append_streams m)
    (append_publish_in_flight m) (metadata_nodes m) v (shard_commits m) (keyspace_commits m)
    (file_commits m) (fork_records m) (delete_records m) (checkpoints m)
    (metadata_last_mark_epoch m) (segment_last_mark_epoch m).
Definition set_shard_commits (v : list ShardCommit) (m : MetadataInner) : MetadataInner :=
  mkMetadataInner (next_device_id m) (next_keyspace_id m) (next_file_id m)
    (next_metadata_node_id m) (next_keyspace_root_id m) (next_keyspace_catalog_shard_id m)
    (next_commit_group_id m) (next_commit_seq m) (next_checkpoint_id m) (next_gc_epoch m)
    (device_heads m) (deleted_device_heads m) (device_specs m) (keyspace_heads m)
    (keyspace_roots m) (keyspace_catalog_shards m) (file_writer_epochs m) (append_streams m)
    (append_publish_in_flight m) (metadata_nodes m) (commit_groups m) v (keyspace_commits m)
    (file_commits m) (fork_records m) (delete_records m) (checkpoints m)
    (metadata_last_mark_epoch m) (segment_last_mark_epoch m).
Definition set_keyspace_commits (v : list KeyspaceCommit) (m : MetadataInner) : MetadataInner :=
  mkMetadataInner (next_device_id m) (next_keyspace_id m) (next_file_id m)
    (next_metadata_node_id m) (next_keyspace_root_id m) (next_keyspace_catalog_shard_id m)
    (next_commit_group_id m) (next_commit_seq m) (next_checkpoint_id m) (next_gc_epoch m)
    (device_heads m) (deleted_device_heads m) (device_specs m) (keyspace_heads m)
    (keyspace_roots m) (keyspace_catalog_shards m) (file_writer_epochs m) (append_streams m)
    (append_publish_in_flight m) (metadata_nodes m) (commit_groups m) (shard_commits m) v
    (file_commits m) (fork_records m) (delete_records m) (checkpoints m)
    (metadata_last_mark_epoch m) (segment_last_mark_epoch m).
Definition set_file_commits (v : list FileCommit) (m : MetadataInner) : MetadataInner :=
  mkMetadataInner (next_device_id m) (next_keyspace_id m) (next_file_id m)
    (next_metadata_node_id m) (next_keyspace_root_id m) (next_keyspace_catalog_shard_id m)
    (next_commit_group_id m) (next_commit_seq m) (next_checkpoint_id m) (next_gc_epoch m)
    (device_heads m) (deleted_device_heads m) (device_specs m) (keyspace_heads m)
    (keyspace_roots m) (keyspace_catalog_shards m) (file_writer_epochs m) (append_streams m)
    (append_publish_in_flight m) (metadata_nodes m) (commit_groups m) (shard_commits m)
    (keyspace_commits m) v (fork_records m) (delete_records m) (checkpoints m)
    (metadata_last_mark_epoch m) (segment_last_mark_epoch m).
Definition set_fork_records (v : gmap CommitSeq ForkRecord) (m : MetadataInner) : MetadataInner :=
  mkMetadataInner (next_device_id m) (next_keyspace_id m) (next_file_id m)
    (next_metadata_node_id m) (next_keyspace_root_id m) (next_keyspace_catalog_shard_id m)
    (next_commit_group_id m) (next_commit_seq m) (next_checkpoint_id m) (next_gc_epoch m)
    (device_heads m) (deleted_device_heads m) (device_specs m) (keyspace_heads m)
    (keyspace_roots m) (keyspace_catalog_shards m) (file_writer_epochs m) (append_streams m)
    (append_publish_in_flight m) (metadata_nodes m) (commit_groups m) (shard_commits m)
    (keyspace_commits m) (file_commits m) v (delete_records m) (checkpoints m)
    (metadata_last_mark_epoch m) (segment_last_mark_epoch m).
Definition set_delete_records (v : gmap CommitSeq DeleteRecord) (m : MetadataInner) : MetadataInner :=
  mkMetadataInner (next_device_id m) (next_keyspace_id m) (next_file_id m)
    (next_metadata_node_id m) (next_keyspace_root_id m) (next_keyspace_catalog_shard_id m)
    (next_commit_group_id m) (next_commit_seq m) (next_checkpoint_id m) (next_gc_epoch m)
    (device_heads m) (deleted_device_heads m) (device_specs m) (keyspace_heads m)
    (keyspace_roots m) (keyspace_catalog_shards m) (file_writer_epochs m) (append_streams m)
    (append_publish_in_flight m) (metadata_nodes m) (commit_groups m) (shard_commits m)
    (keyspace_commits m) (file_commits m) (fork_records m) v (checkpoints m)
    (metadata_last_mark_epoch m) (segment_last_mark_epoch m).
Definition set_checkpoints (v : gmap CheckpointId Checkpoint) (m : MetadataInner) : MetadataInner :=
  mkMetadataInner (next_device_id m) (next_keyspace_id m) (next_file_id m)
    (next_metadata_node_id m) (next_keyspace_root_id m) (next_keyspace_catalog_shard_id m)
    (next_commit_group_id m) (next_commit_seq m) (next_checkpoint_id m) (next_gc_epoch m)
    (device_heads m) (deleted_device_heads m) (device_specs m) (keyspace_heads m)
    (keyspace_roots m) (keyspace_catalog_shards m) (file_writer_epochs m) (append_streams m)
    (append_publish_in_flight m) (metadata_nodes m) (commit_groups m) (shard_commits m)
    (keyspace_commits m) (file_commits m) (fork_records m) (delete_records m) v
    (metadata_last_mark_epoch m) (segment_last_mark_epoch m).
Definition set_metadata_last_mark_epoch (v : gmap MetadataNodeId Z) (m : MetadataInner) : MetadataInner :=
  mkMetadataInner (next_device_id m) (next_keyspace_id m) (next_file_id m)
    (next_metadata_node_id m) (next_keyspace_root_id m) (next_keyspace_catalog_shard_id m)
    (next_commit_group_id m) (next_commit_seq m) (next_checkpoint_id m) (next_gc_epoch m)
    (device_heads m) (deleted_device_heads m) (device_specs m) (keyspace_heads m)
    (keyspace_roots m) (keyspace_catalog_shards m) (file_writer_epochs m) (append_streams m)
    (append_publish_in_flight m) (metadata_nodes m) (commit_groups m) (shard_commits m)
    (keyspace_commits m) (file_commits m) (fork_records m) (delete_records m)
    (checkpoints m) v (segment_last_mark_epoch m).
Definition set_segment_last_mark_epoch (v : gmap SegmentId Z) (m : MetadataInner) : MetadataInner :=
  mkMetadataInner (next_device_id m) (next_keyspace_id m) (next_file_id m)
    (next_metadata_node_id m) (next_keyspace_root_id m) (next_keyspace_catalog_shard_id m)
    (next_commit_group_id m) (next_commit_seq m) (next_checkpoint_id m) (next_gc_epoch m)
    (device_heads m) (deleted_device_heads m) (device_specs m) (keyspace_heads m)
    (keyspace_roots m) (keyspace_catalog_shards m) (file_writer_epochs m) (append_streams m)
    (append_publish_in_flight m) (metadata_nodes m) (commit_groups m) (shard_commits m)
    (keyspace_commits m) (file_commits m) (fork_records m) (delete_records m)
    (checkpoints m) (metadata_last_mark_epoch m) v.

(** ** Requests ([provider.rs]) *)

Inductive MetadataFence :=
| MfDeviceGeneration (generation : DeviceGeneration)
| MfFileVersion (version : FileVersion)
| MfAppendStream (stream_id : AppendStreamId) (writer_epoch : WriterEpoch).

Record CommitGroupIntent := mkCommitGroupIntent {
  ci_owner : MappingOwner;
  ci_fence : MetadataFence;
  ci_updates : list RootUpdate;
}.

Record MetadataNodeWrite := mkMetadataNodeWrite {
  nw_node : MetadataNode;
  nw_segment_receipts : list VerifiedSegmentReceipt;
}.

Definition segment_descriptors (self : MetadataNodeWrite) : list SegmentDescriptor :=
  vr_descriptor <$> nw_segment_receipts self.

Record RetentionPolicy := mkRetentionPolicy {
  retain_deleted_devices : bool;
  deleted_device_grace_commits : Z;
  pitr_grace_commits : Z;
}.

Definition RetentionPolicy_retain_everything : RetentionPolicy := mkRetentionPolicy true 0 U64_MAX.
Definition RetentionPolicy_retain_deleted_devices : RetentionPolicy := mkRetentionPolicy true 0 0.
Definition RetentionPolicy_expire_deleted_immediately : RetentionPolicy := mkRetentionPolicy false 0 0.
Definition RetentionPolicy_expire_deleted_after_commits (commits : Z) : RetentionPolicy :=
  mkRetentionPolicy false commits 0.
Definition with_pitr_grace_commits (self : RetentionPolicy) (commits : Z) : RetentionPolicy :=
  mkRetentionPolicy (retain_deleted_devices self) (deleted_device_grace_commits self) commits.

(** ** Identifier allocation *)

Definition alloc (get : MetadataInner -> Z) (put : Z -> MetadataInner -> MetadataInner)
    : ST MetadataInner Z :=
  id ← st_gets get; st_modify (put (id + 1));; mret id.

Definition alloc_device_id := alloc next_device_id set_next_device_id.
Definition alloc_keyspace_id := alloc next_keyspace_id set_next_keyspace_id.
Definition alloc_file_id := alloc next_file_id set_next_file_id.
Definition alloc_metadata_node_id := alloc next_metadata_node_id set_next_metadata_node_id.
Definition alloc_keyspace_root_id := alloc next_keyspace_root_id set_next_keyspace_root_id.
Definition alloc_keyspace_catalog_shard_id :=
  alloc next_keyspace_catalog_shard_id set_next_keyspace_catalog_shard_id.
Definition alloc_commit_group_id := alloc next_commit_group_id set_next_commit_group_id.
Definition alloc_checkpoint_id := alloc next_checkpoint_id set_next_checkpoint_id.

(** The 64-bit counters are checked. *)
Definition alloc_checked (get : MetadataInner -> Z) (put : Z -> MetadataInner -> MetadataInner)
    (reason : string) : ST MetadataInner Z :=
  id ← st_gets get;
  next ← st_lift (ok_or (checked_add U64_MOD id 1) (Conflict reason));
  st_modify (put next);; mret id.

Definition alloc_commit_seq := alloc_checked next_commit_seq set_next_commit_seq
  "commit sequence overflow".
Definition alloc_gc_epoch := alloc_checked next_gc_epoch set_next_gc_epoch "GC epoch overflow".

(** [reserve_device_id_at_least_after] and [reserve_keyspace_id_at_least_after]. *)
Definition reserve_at_least_after (get : MetadataInner -> Z)
    (put : Z -> MetadataInner -> MetadataInner) (reason : string) (id : Z)
    : ST MetadataInner unit :=
  current ← st_gets get;
  if current <=? id then
    next ← st_lift (ok_or (checked_add U128_MOD id 1) (Conflict reason));
    st_modify (put next)
  else mret tt.

Definition reserve_device_id_at_least_after :=
  reserve_at_least_after next_device_id set_next_device_id "device id overflow".
Definition reserve_keyspace_id_at_least_after :=
  reserve_at_least_after next_keyspace_id set_next_keyspace_id "keyspace id overflow".

Definition insert_checkpoint (owner : MappingOwner) (commit_seq : CommitSeq)
    (roots : CheckpointRoots) : ST MetadataInner CheckpointId :=
  checkpoint_id ← alloc_checkpoint_id;
  st_modify (fun m => set_checkpoints
    (<[checkpoint_id := mkCheckpoint checkpoint_id commit_seq commit_seq owner roots]>
      (checkpoints m)) m);;
  mret checkpoint_id.

Definition append_publish_in_flight_for_file (self : MetadataInner) (keyspace_id : KeyspaceId)
    (file_id : FileId) : bool :=
  existsb (fun p => (if_keyspace_id p =? keyspace_id) && (if_file_id p =? file_id))
    (bt_values (append_publish_in_flight self)).

Definition append_publish_in_flight_for_stream (self : MetadataInner) (stream : AppendStream)
    : bool :=
  existsb (fun p => (if_keyspace_id p =? as_keyspace_id stream) &&
      (if_file_id p =? as_file_id stream) && (if_stream_id p =? as_stream_id stream) &&
      (if_writer_epoch p =? as_writer_epoch stream))
    (bt_values (append_publish_in_flight self)).

Definition prune_append_streams_for_durable_export (self : MetadataInner) : MetadataInner :=
  set_append_streams ((fun s =>
      set_stream s (Z.min (ss_accepted_tail s) (ss_durable_through s)) (ss_durable_through s)
        (ss_published_through s) (ss_status s)
        (filter (fun r => record_ends_by (ss_durable_through s) r = true) (ss_records s)))
    <$> append_streams self)
  (set_append_publish_in_flight ∅ self).

(** ** Metadata nodes *)

Definition insert_metadata_node (node : MetadataNode) : ST MetadataInner unit :=
  st_modify (fun m => set_metadata_nodes (<[mn_node_id node := node]> (metadata_nodes m)) m).

Definition get_metadata_node (inner : MetadataInner) (node_id : MetadataNodeId)
    : Result MetadataNode :=
  ok_or (metadata_nodes inner !! node_id) (not_found "metadata_node" node_id).

Definition allocate_metadata_node (covered_range : BlockRange) (kind : MetadataNodeKind)
    : ST MetadataInner MetadataNode :=
  node_id ← alloc_metadata_node_id; mret (mkMetadataNode node_id covered_range kind).

Definition persist_metadata_node (write : MetadataNodeWrite) : ST MetadataInner unit :=
  st_lift (MetadataNode_validate (nw_node write) (segment_descriptors write));;
  inner ← st_get;
  match metadata_nodes inner !! mn_node_id (nw_node write) with
  | Some existing =>
      if bool_decide (existing = nw_node write) then mret tt
      else st_lift (Err (Conflict "metadata node ID already exists with different content"))
  | None => insert_metadata_node (nw_node write)
  end.

(** The range of the [i]-th of [n] equal parts of a range, as
    [create_empty_tree] and [create_device] compute it. *)
Definition part_range (blocks n i : Z) (start_error end_error : StorageError) : Result (Z * Z) :=
  s ← ok_or (checked_mul U64_MOD blocks i) start_error;
  e ← ok_or (checked_mul U64_MOD blocks (i + 1)) end_error;
  Ok (s `div` n, e `div` n).

(** The recursion halves the range at least, so [tree_fuel] of the range is
    enough. *)
Definition tree_fuel (blocks : Z) : nat := S (Z.to_nat (Z.log2_up blocks)).

Fixpoint create_empty_tree (fuel : nat) (config : LocalStoreConfig) (range : BlockRange)
    : ST MetadataInner MetadataNode :=
  match fuel with
  | O => st_lift (Err (Unsupported "metadata tree recursion depth"))
  | S fuel =>
      st_lift (BlockRange_validate_non_empty range);;
      if bk_blocks range <=? metadata_leaf_blocks config then
        node_id ← alloc_metadata_node_id;
        let node := mkMetadataNode node_id range (Leaf [] []) in
        st_lift (MetadataNode_validate node []);;
        insert_metadata_node node;;
        mret node
      else
        let child_count := Z.min (metadata_fanout config) (bk_blocks range) in
        children ← st_map (fun child_index =>
            offsets ← st_lift (part_range (bk_blocks range) child_count child_index
              (InvalidArgument "child range start overflows")
              (InvalidArgument "child range end overflows"));
            child_start ← st_lift (ok_or (checked_add U64_MOD (bk_start range) offsets.1)
              (InvalidArgument "child range start overflows"));
            let child_range := mkBlockRange child_start (offsets.2 - offsets.1) in
            child ← create_empty_tree fuel config child_range;
            mret (mkMetadataChild child_range (mn_node_id child)))
          (seqZ 0 child_count);
        node_id ← alloc_metadata_node_id;
        let node := mkMetadataNode node_id range (Internal children) in
        st_lift (MetadataNode_validate node []);;
        insert_metadata_node node;;
        mret node
  end.

(** ** Block devices *)

Definition next_generation (generation : DeviceGeneration) : Result DeviceGeneration :=
  ok_or (checked_add U64_MOD generation 1) (Conflict "device generation overflow").
Definition next_keyspace_generation (generation : KeyspaceGeneration)
    : Result KeyspaceGeneration :=
  ok_or (checked_add U64_MOD generation 1) (Conflict "keyspace generation overflow").
Definition next_file_version (version : FileVersion) : Result FileVersion :=
  ok_or (checked_add U64_MOD version 1) (Conflict "file version overflow").

Definition get_head (inner : MetadataInner) (device_id : DeviceId) : Result DeviceHead :=
  ok_or (device_heads inner !! device_id) (not_found "device" device_id).

Definition device_info (inner : MetadataInner) (device_id : DeviceId) : Result DeviceInfo :=
  head ← get_head inner device_id;
  spec ← ok_or (device_specs inner !! device_id) (Corrupt "device head exists without spec");
  Ok (mkDeviceInfo device_id (dh_generation head) spec (dh_latest_commit head)).

(** The head, the spec and the checkpoint of a device that comes into being. *)
Definition install_device (head : DeviceHead) (spec : DeviceSpec) : ST MetadataInner unit :=
  st_modify (fun m => set_device_specs (<[dh_device_id head := spec]> (device_specs m)) m);;
  st_modify (fun m => set_device_heads (<[dh_device_id head := head]> (device_heads m)) m).

Definition checkpoint_of_head (head : DeviceHead) : ST MetadataInner CheckpointId :=
  insert_checkpoint (OwnBlockDevice (dh_device_id head)) (dh_latest_commit head)
    (CrBlockShard (dh_shard_roots head)).

Definition create_device (config : LocalStoreConfig) (spec : DeviceSpec)
    : ST MetadataInner DeviceHead :=
  st_lift (LocalStoreConfig_validate config);;
  st_lift (DeviceSpec_validate spec);;
  st_reject_if (ds_logical_blocks spec <? shard_count config)
    (InvalidArgument "logical_blocks must be at least shard_count");;
  device_id ← alloc_device_id;
  shard_roots ← st_map (fun shard =>
      offsets ← st_lift (part_range (ds_logical_blocks spec) (shard_count config) shard
        (InvalidArgument "shard start overflows") (InvalidArgument "shard end overflows"));
      node ← create_empty_tree (tree_fuel (offsets.2 - offsets.1)) config
        (mkBlockRange offsets.1 (offsets.2 - offsets.1));
      mret (mn_node_id node))
    (seqZ 0 (shard_count config));
  let head := mkDeviceHead device_id 0 shard_roots 0 in
  st_lift (DeviceHead_validate head (shard_count config));;
  install_device head spec;;
  checkpoint_of_head head;;
  mret head.

(** The loop over the shard updates of a block commit: the new roots and the
    commits to log. *)
Definition block_update_step (inner : MetadataInner)
    (acc : list MetadataNodeId * list (ShardId * MetadataNodeId * MetadataNodeId))
    (update : RootUpdate)
    : Result (list MetadataNodeId * list (ShardId * MetadataNodeId * MetadataNodeId)) :=
  let '(next_roots, commits) := acc in
  match update with
  | RuBlockShard u =>
      match next_roots !! Z.to_nat (sru_shard_id u) with
      | None => Err (InvalidArgument "shard update is outside device root set")
      | Some root =>
          reject_if (negb (root =? sru_old_root u)) (Conflict "stale shard root");;
          reject_if (bool_decide (metadata_nodes inner !! sru_new_root u = None))
            (not_found "metadata_node" (sru_new_root u));;
          Ok (<[Z.to_nat (sru_shard_id u) := sru_new_root u]> next_roots,
              commits ++ [(sru_shard_id u, sru_old_root u, sru_new_root u)])
      end
  | _ => Err (InvalidArgument "block device commit cannot include file-root updates")
  end.

Definition publish_block (device_id : DeviceId) (intent : CommitGroupIntent)
    : ST MetadataInner CommitGroup :=
  inner ← st_get;
  current ← st_lift (get_head inner device_id);
  st_lift (match ci_fence intent with
    | MfDeviceGeneration _ => Ok tt
    | _ => Err (InvalidArgument "block device commit requires device-generation fence")
    end);;
  st_reject_if (bool_decide (ci_updates intent = []))
    (InvalidArgument "commit group must include at least one root update");;
  acc ← st_lift (try_fold (block_update_step inner) (dh_shard_roots current, [])
    (ci_updates intent));
  commit_seq ← alloc_commit_seq;
  commit_group_id ← alloc_commit_group_id;
  let commit_group := mkCommitGroup commit_group_id commit_seq (ci_owner intent)
    (ci_updates intent) in
  st_modify (fun m => set_shard_commits (shard_commits m ++
    ((fun '(shard_id, old_root, new_root) =>
        mkShardCommit commit_seq commit_group_id commit_seq device_id shard_id old_root new_root)
      <$> acc.2)) m);;
  generation ← st_lift (next_generation (dh_generation current));
  let next_head := mkDeviceHead (dh_device_id current) generation acc.1 commit_seq in
  st_modify (fun m => set_device_heads (<[device_id := next_head]> (device_heads m)) m);;
  st_modify (fun m => set_commit_groups (<[commit_group_id := commit_group]> (commit_groups m)) m);;
  mret commit_group.

Definition fork_device (config : LocalStoreConfig) (source : DeviceId)
    (target : option DeviceId) : ST MetadataInner DeviceHead :=
  inner ← st_get;
  source_head ← st_lift (get_head inner source);
  source_spec ← st_lift (ok_or (device_specs inner !! source)
    (Corrupt "source device head exists without spec"));
  target ← match target with
    | Some target =>
        st_reject_if (bool_decide (is_Some (device_heads inner !! target)) ||
            bool_decide (is_Some (deleted_device_heads inner !! target)))
          (Conflict "target device already exists");;
        reserve_device_id_at_least_after target;;
        mret target
    | None => alloc_device_id
    end;
  latest_commit ← alloc_commit_seq;
  let head := mkDeviceHead target 0 (dh_shard_roots source_head) latest_commit in
  st_lift (DeviceHead_validate head (shard_count config));;
  install_device head source_spec;;
  st_modify (fun m => set_fork_records
    (<[latest_commit := mkForkRecord latest_commit source target (dh_shard_roots source_head)]>
      (fork_records m)) m);;
  checkpoint_of_head head;;
  mret head.

Definition delete_device (device_id : DeviceId) : ST MetadataInner DeleteResult :=
  inner ← st_get;
  head ← st_lift (get_head inner device_id);
  commit_seq ← alloc_commit_seq;
  st_modify (fun m => set_device_heads (delete device_id (device_heads m)) m);;
  let head := mkDeviceHead (dh_device_id head) (dh_generation head) (dh_shard_roots head)
    commit_seq in
  st_modify (fun m => set_deleted_device_heads
    (<[device_id := head]> (deleted_device_heads m)) m);;
  st_modify (fun m => set_delete_records
    (<[commit_seq := mkDeleteRecord commit_seq commit_seq device_id (dh_shard_roots head)]>
      (delete_records m)) m);;
  mret (mkDeleteResult device_id commit_seq).

Definition checkpoint (device_id : DeviceId) : ST MetadataInner CheckpointId :=
  head ← st_ask (fun inner => get_head inner device_id);
  insert_checkpoint (OwnBlockDevice device_id) (dh_latest_commit head)
    (CrBlockShard (dh_shard_roots head)).

(** ** Timelines and restore *)

Definition checkpoint_block_roots (checkpoint : Checkpoint) : Result (list MetadataNodeId) :=
  match cp_roots checkpoint with
  | CrBlockShard roots => Ok roots
  | CrNativeKeyspace _ => Err (InvalidArgument "checkpoint does not contain block shard roots")
  end.
Definition checkpoint_keyspace_root (checkpoint : Checkpoint) : Result KeyspaceRootId :=
  match cp_roots checkpoint with
  | CrNativeKeyspace root => Ok root
  | CrBlockShard _ => Err (InvalidArgument "checkpoint does not contain native keyspace root")
  end.

Definition shard_commits_for_device (inner : MetadataInner) (device_id : DeviceId)
    : list ShardCommit :=
  sort_by_tuple (fun c => [sc_commit_seq c; sc_shard_id c])
    (filter (fun c => sc_device_id c = device_id) (shard_commits inner)).

(** [latest_device_checkpoint_at_or_before_locked] and its keyspace twin. *)
Definition latest_checkpoint_at_or_before (inner : MetadataInner) (owner : MappingOwner)
    (commit_seq : CommitSeq) (excluded_checkpoint : option CheckpointId) : option Checkpoint :=
  max_by_key cp_commit_seq
    (filter (fun c => cp_owner c = owner /\ cp_commit_seq c <= commit_seq /\
        Some (cp_checkpoint_id c) <> excluded_checkpoint)
      (bt_values (checkpoints inner))).

Definition replay_shard_commit (roots : list MetadataNodeId) (commit : ShardCommit)
    : Result (list MetadataNodeId) :=
  let shard := Z.to_nat (sc_shard_id commit) in
  match roots !! shard with
  | None => Err (Corrupt "shard commit references shard outside root set")
  | Some root =>
      reject_if (negb (root =? sc_old_root commit))
        (Corrupt "shard commit old_root does not match replay state");;
      Ok (<[shard := sc_new_root commit]> roots)
  end.

Definition replay_device_roots (inner : MetadataInner) (device_id : DeviceId)
    (commit_seq : CommitSeq) (excluded_checkpoint : option CheckpointId)
    : Result (list MetadataNodeId) :=
  checkpoint ← ok_or (latest_checkpoint_at_or_before inner (OwnBlockDevice device_id) commit_seq
    excluded_checkpoint) (not_found "checkpoint" device_id);
  roots ← checkpoint_block_roots checkpoint;
  try_fold replay_shard_commit roots
    (filter (fun c => cp_commit_seq checkpoint < sc_commit_seq c /\ sc_commit_seq c <= commit_seq)
      (shard_commits_for_device inner device_id)).

Definition device_timeline_contains_commit (inner : MetadataInner) (device_id : DeviceId)
    (commit_seq : CommitSeq) : bool :=
  existsb (fun c => bool_decide (cp_owner c = OwnBlockDevice device_id) &&
      (cp_commit_seq c =? commit_seq)) (bt_values (checkpoints inner)) ||
  existsb (fun c => (sc_device_id c =? device_id) && (sc_commit_seq c =? commit_seq))
    (shard_commits inner).

(** The candidates of a restore to a time: the commits of the device up to that
    time, and whether the commit is its deletion. *)
Definition restore_candidates (inner : MetadataInner) (device_id : DeviceId) (time : LogicalTime)
    : list (CommitSeq * bool) :=
  ((fun c => (cp_commit_seq c, false)) <$>
    filter (fun c => cp_owner c = OwnBlockDevice device_id /\ cp_time c <= time)
      (bt_values (checkpoints inner))) ++
  ((fun c => (sc_commit_seq c, false)) <$>
    filter (fun c => sc_device_id c = device_id /\ sc_time c <= time) (shard_commits inner)) ++
  ((fun r => (del_commit_seq r, true)) <$>
    filter (fun r => del_device_id r = device_id /\ del_time r <= time)
      (bt_values (delete_records inner))).

(** [max_by_key] with a key of integers compared lexicographically. *)
Definition max_by_tuple {A} (key : A -> list Z) (l : list A) : option A :=
  fold_left (fun best x =>
    match best with
    | Some b => if lex_leb (key b) (key x) then Some x else best
    | None => Some x
    end) l None.

Definition target_commit_for_restore (inner : MetadataInner) (device_id : DeviceId)
    (point : RestorePoint) : Result CommitSeq :=
  match point with
  | RpCommit commit_seq =>
      if device_timeline_contains_commit inner device_id commit_seq then Ok commit_seq
      else Err (not_found "commit" commit_seq)
  | RpCheckpoint checkpoint_id =>
      checkpoint ← ok_or (checkpoints inner !! checkpoint_id)
        (not_found "checkpoint" checkpoint_id);
      reject_if (negb (bool_decide (cp_owner checkpoint = OwnBlockDevice device_id)))
        (InvalidArgument "checkpoint does not belong to source device");;
      Ok (cp_commit_seq checkpoint)
  | RpTime time =>
      best ← ok_or (max_by_tuple (fun c : Z * bool => [c.1; if c.2 then 1 else 0])
        (restore_candidates inner device_id time)) (not_found "restore_time" time);
      reject_if best.2 (NotFound "restore_time" (pretty time +:+ " is after device deletion"));;
      Ok best.1
  end.

Definition restore_device (config : LocalStoreConfig) (source : DeviceId) (point : RestorePoint)
    : ST MetadataInner DeviceHead :=
  inner ← st_get;
  source_spec ← st_lift (ok_or (device_specs inner !! source) (not_found "device" source));
  target_commit ← st_lift (target_commit_for_restore inner source point);
  shard_roots ← st_lift (replay_device_roots inner source target_commit None);
  st_lift (try_for (fun root =>
      reject_if (bool_decide (metadata_nodes inner !! root = None)) (not_found "metadata_node" root))
    shard_roots);;
  target ← alloc_device_id;
  latest_commit ← alloc_commit_seq;
  let head := mkDeviceHead target 0 shard_roots latest_commit in
  st_lift (DeviceHead_validate head (shard_count config));;
  install_device head source_spec;;
  checkpoint_of_head head;;
  mret head.

(** ** Native keyspaces *)

Definition KEYSPACE_CATALOG_SHARD_COUNT : Z := 256.

Definition keyspace_root_locked (inner : MetadataInner) (root_id : KeyspaceRootId)
    : Result KeyspaceRoot :=
  ok_or (keyspace_roots inner !! root_id) (not_found "keyspace_root" root_id).
Definition keyspace_catalog_shard_locked (inner : MetadataInner)
    (shard_id : KeyspaceCatalogShardId) : Result KeyspaceCatalogShard :=
  ok_or (keyspace_catalog_shards inner !! shard_id) (not_found "keyspace_catalog_shard" shard_id).
Definition get_keyspace_head (inner : MetadataInner) (keyspace_id : KeyspaceId)
    : Result KeyspaceHead :=
  ok_or (keyspace_heads inner !! keyspace_id) (not_found "keyspace" keyspace_id).

Definition keyspace_catalog_shard_index_for_len (file_id : FileId) (shard_count : Z)
    : Result Z :=
  reject_if (shard_count =? 0) (Corrupt "keyspace root has no catalog shards");;
  Ok (file_id mod shard_count).

(** [shard_roots[shard_index]]: the index is a remainder, hence in range. *)
Definition shard_at (shard_roots : list KeyspaceCatalogShardId) (shard_index : Z)
    : Result KeyspaceCatalogShardId :=
  ok_or (shard_roots !! Z.to_nat shard_index) (Corrupt "index out of bounds").

Definition keyspace_file_in_shards (inner : MetadataInner)
    (shard_roots : list KeyspaceCatalogShardId) (file_id : FileId) : Result KeyspaceFile :=
  shard_index ← keyspace_catalog_shard_index_for_len file_id (Z.of_nat (length shard_roots));
  shard_id ← shard_at shard_roots shard_index;
  shard ← keyspace_catalog_shard_locked inner shard_id;
  ok_or (kcs_files shard !! file_id) (not_found "file" file_id).

Definition file_head_locked (inner : MetadataInner) (keyspace_id : KeyspaceId) (file_id : FileId)
    : Result FileHead :=
  head ← get_keyspace_head inner keyspace_id;
  entry ← keyspace_file_in_shards inner (kh_shard_roots head) file_id;
  Ok (kf_head entry).

Definition insert_keyspace_catalog_shard (files : gmap FileId KeyspaceFile)
    : ST MetadataInner KeyspaceCatalogShard :=
  shard_id ← alloc_keyspace_catalog_shard_id;
  let shard := mkKeyspaceCatalogShard shard_id files in
  st_lift (KeyspaceCatalogShard_validate shard);;
  st_modify (fun m => set_keyspace_catalog_shards
    (<[shard_id := shard]> (keyspace_catalog_shards m)) m);;
  mret shard.

Definition insert_keyspace_root (shard_roots : list KeyspaceCatalogShardId) (file_count : Z)
    : ST MetadataInner KeyspaceRoot :=
  root_id ← alloc_keyspace_root_id;
  let root := mkKeyspaceRoot root_id shard_roots file_count in
  st_lift (KeyspaceRoot_validate root);;
  st_modify (fun m => set_keyspace_roots (<[root_id := root]> (keyspace_roots m)) m);;
  mret root.

Definition insert_empty_keyspace_root : ST MetadataInner KeyspaceRoot :=
  shard_roots ← st_map (fun _ =>
      shard ← insert_keyspace_catalog_shard ∅; mret (kcs_shard_id shard))
    (seqZ 0 KEYSPACE_CATALOG_SHARD_COUNT);
  insert_keyspace_root shard_roots 0.

Definition create_keyspace (config : LocalStoreConfig) : ST MetadataInner KeyspaceHead :=
  st_lift (LocalStoreConfig_validate config);;
  keyspace_id ← alloc_keyspace_id;
  root ← insert_empty_keyspace_root;
  let head := mkKeyspaceHead keyspace_id 0 (kr_shard_roots root) (kr_file_count root) 0 in
  st_modify (fun m => set_keyspace_heads (<[keyspace_id := head]> (keyspace_heads m)) m);;
  insert_checkpoint (OwnNativeKeyspace keyspace_id) 0 (CrNativeKeyspace (kr_root_id root));;
  mret head.

Definition update_keyspace_file (shard_roots : list KeyspaceCatalogShardId) (file_count : Z)
    (file_id : FileId) (entry : KeyspaceFile)
    : ST MetadataInner (Z * KeyspaceCatalogShardId * KeyspaceCatalogShard * Z) :=
  inner ← st_get;
  shard_index ← st_lift (keyspace_catalog_shard_index_for_len file_id
    (Z.of_nat (length shard_roots)));
  shard_id ← st_lift (shard_at shard_roots shard_index);
  shard ← st_lift (keyspace_catalog_shard_locked inner shard_id);
  let replaced := bool_decide (is_Some (kcs_files shard !! file_id)) in
  new_shard ← insert_keyspace_catalog_shard (<[file_id := entry]> (kcs_files shard));
  file_count ← st_lift (if replaced then Ok file_count
    else ok_or (checked_add U64_MOD file_count 1) (Conflict "keyspace file count overflow"));
  mret (shard_index, shard_id, new_shard, file_count).

(** What a native commit does to the keyspace head and to the timelines, as
    [create_file] and the native branch of [publish_commit_group] share it. *)
Definition advance_keyspace (head : KeyspaceHead) (generation : KeyspaceGeneration)
    (commit_seq : CommitSeq) (shard_index : Z) (new_shard : KeyspaceCatalogShardId)
    (file_count : Z) : KeyspaceHead :=
  mkKeyspaceHead (kh_keyspace_id head) generation
    (<[Z.to_nat shard_index := new_shard]> (kh_shard_roots head)) file_count commit_seq.

Definition push_keyspace_commit (commit : KeyspaceCommit) : ST MetadataInner unit :=
  st_reject_if (negb (kc_shard_index commit <? U32_MOD))
    (InvalidArgument "keyspace shard index overflows u32");;
  st_modify (fun m => set_keyspace_commits (keyspace_commits m ++ [commit]) m).
Definition push_file_commit (commit : FileCommit) : ST MetadataInner unit :=
  st_modify (fun m => set_file_commits (file_commits m ++ [commit]) m).
Definition put_keyspace_head (keyspace_id : KeyspaceId) (head : KeyspaceHead)
    : ST MetadataInner unit :=
  st_modify (fun m => set_keyspace_heads (<[keyspace_id := head]> (keyspace_heads m)) m).
Definition put_commit_group (group : CommitGroup) : ST MetadataInner unit :=
  st_modify (fun m => set_commit_groups (<[cg_commit_group group := group]> (commit_groups m)) m).

Definition create_file (config : LocalStoreConfig) (keyspace_id : KeyspaceId)
    (name : option string) : ST MetadataInner FileHead :=
  st_lift (LocalStoreConfig_validate config);;
  keyspace_head ← st_ask (fun inner => get_keyspace_head inner keyspace_id);
  file_id ← alloc_file_id;
  root ← create_empty_tree (tree_fuel (file_root_blocks config)) config
    (mkBlockRange 0 (file_root_blocks config));
  commit_seq ← alloc_commit_seq;
  commit_group_id ← alloc_commit_group_id;
  let file_head := mkFileHead file_id 0 (mn_node_id root) 0 commit_seq in
  st_lift (FileHead_validate_current file_head (mn_covered_range root) (cfg_block_size config));;
  updated ← update_keyspace_file (kh_shard_roots keyspace_head) (kh_file_count keyspace_head)
    file_id (mkKeyspaceFile name file_head);
  let '(shard_index, old_shard, new_shard, new_file_count) := updated in
  let commit_group := mkCommitGroup commit_group_id commit_seq (OwnNativeKeyspace keyspace_id)
    [RuFileCreated file_id (mn_node_id root) 0] in
  generation ← st_lift (next_keyspace_generation (kh_generation keyspace_head));
  st_modify (fun m => set_file_writer_epochs
    (<[(keyspace_id, file_id) := 0]> (file_writer_epochs m)) m);;
  put_keyspace_head keyspace_id (advance_keyspace keyspace_head generation commit_seq shard_index
    (kcs_shard_id new_shard) new_file_count);;
  push_keyspace_commit (mkKeyspaceCommit commit_seq commit_group_id commit_seq keyspace_id
    shard_index old_shard (kcs_shard_id new_shard) (kh_file_count keyspace_head) new_file_count);;
  push_file_commit (mkFileCommit commit_seq commit_group_id commit_seq keyspace_id file_id
    None (mn_node_id root) None 0 0 0);;
  put_commit_group commit_group;;
  mret file_head.

(** The fence of a native commit: [None] for a file version, the stream and its
    epoch for an append stream. *)
Definition native_fence (inner : MetadataInner) (keyspace_id : KeyspaceId) (file_id : FileId)
    (current : FileHead) (fence : MetadataFence)
    : Result (option (AppendStreamId * WriterEpoch)) :=
  match fence with
  | MfFileVersion version =>
      if version =? fh_version current then Ok None
      else Err (Conflict "stale file version fence")
  | MfAppendStream stream_id writer_epoch =>
      match append_streams inner !! stream_id with
      | None => Err (Conflict "stale append stream")
      | Some stream =>
          reject_if (negb (ss_keyspace_id stream =? keyspace_id) ||
              negb (ss_file_id stream =? file_id) ||
              negb (ss_writer_epoch stream =? writer_epoch) ||
              negb (ss_published_through stream =? fh_size current) ||
              negb (bool_decide (ss_status stream = AsActive)))
            (Conflict "stale append stream");;
          Ok (Some (stream_id, writer_epoch))
      end
  | _ => Err (InvalidArgument "native file commit requires file-version or append-stream fence")
  end.

Definition publish_native (config : LocalStoreConfig) (keyspace_id : KeyspaceId)
    (intent : CommitGroupIntent) : ST MetadataInner CommitGroup :=
  inner ← st_get;
  current_keyspace ← st_lift (get_keyspace_head inner keyspace_id);
  update ← st_lift (match ci_updates intent with
    | [RuFileRoot file_id old_root new_root new_size] => Ok (file_id, old_root, new_root, new_size)
    | [_] => Err (InvalidArgument "native keyspace append commit requires a file-root update")
    | _ =>
        Err (InvalidArgument "native keyspace commit must include exactly one file-root update")
    end);
  let '(file_id, old_root, new_root, new_size) := update in
  current_entry ← st_lift (keyspace_file_in_shards inner (kh_shard_roots current_keyspace) file_id);
  let current := kf_head current_entry in
  st_reject_if (append_publish_in_flight_for_file inner keyspace_id file_id)
    (Conflict "append publish already in flight for file");;
  append_stream_commit ← st_lift (native_fence inner keyspace_id file_id current (ci_fence intent));
  st_reject_if (negb (fh_root current =? old_root)) (Conflict "stale file root");;
  new_root_node ← st_lift (get_metadata_node inner new_root);
  commit_seq ← alloc_commit_seq;
  commit_group_id ← alloc_commit_group_id;
  let commit_group := mkCommitGroup commit_group_id commit_seq (ci_owner intent)
    [RuFileRoot file_id old_root new_root new_size] in
  version ← st_lift (next_file_version (fh_version current));
  let next_head := mkFileHead (fh_file_id current) version new_root new_size commit_seq in
  st_lift (FileHead_validate_transition_from next_head current (mn_covered_range new_root_node)
    (cfg_block_size config));;
  updated ← update_keyspace_file (kh_shard_roots current_keyspace)
    (kh_file_count current_keyspace) file_id (mkKeyspaceFile (kf_name current_entry) next_head);
  let '(shard_index, old_shard, new_shard, new_file_count) := updated in
  generation ← st_lift (next_keyspace_generation (kh_generation current_keyspace));
  put_keyspace_head keyspace_id (advance_keyspace current_keyspace generation commit_seq
    shard_index (kcs_shard_id new_shard) new_file_count);;
  push_keyspace_commit (mkKeyspaceCommit commit_seq commit_group_id commit_seq keyspace_id
    shard_index old_shard (kcs_shard_id new_shard) (kh_file_count current_keyspace)
    new_file_count);;
  push_file_commit (mkFileCommit commit_seq commit_group_id commit_seq keyspace_id file_id
    (Some (fh_root current)) new_root (Some (fh_version current)) version (fh_size current)
    new_size);;
  put_commit_group commit_group;;
  match append_stream_commit with
  | Some (stream_id, writer_epoch) =>
      st_modify (fun m => set_file_writer_epochs
        (<[(keyspace_id, file_id) := writer_epoch]> (file_writer_epochs m)) m);;
      st_modify (fun m => set_append_streams
        (alter (fun s => if ss_writer_epoch s =? writer_epoch
           then set_stream s (ss_accepted_tail s) (ss_durable_through s) new_size (ss_status s)
             (ss_records s)
           else s) stream_id (append_streams m)) m)
  | None => mret tt
  end;;
  mret commit_group.

(** [publish_commit_group]. *)
Definition publish_commit_group (config : LocalStoreConfig) (intent : CommitGroupIntent)
    : ST MetadataInner CommitGroup :=
  match ci_owner intent with
  | OwnBlockDevice device_id => publish_block device_id intent
  | OwnNativeKeyspace keyspace_id => publish_native config keyspace_id intent
  end.

Definition keyspace_commits_for_keyspace (inner : MetadataInner) (keyspace_id : KeyspaceId)
    : list KeyspaceCommit :=
  sort_by_key kc_commit_seq
    (filter (fun c => kc_keyspace_id c = keyspace_id) (keyspace_commits inner)).

Definition replay_keyspace_commit (acc : list KeyspaceCatalogShardId * Z)
    (commit : KeyspaceCommit) : Result (list KeyspaceCatalogShardId * Z) :=
  let '(shard_roots, file_count) := acc in
  let shard_index := Z.to_nat (kc_shard_index commit) in
  match shard_roots !! shard_index with
  | None => Err (Corrupt "keyspace commit references shard outside root set")
  | Some shard =>
      reject_if (negb (shard =? kc_old_shard commit) ||
          negb (file_count =? kc_old_file_count commit))
        (Corrupt "keyspace commit old state does not match replay state");;
      Ok (<[shard_index := kc_new_shard commit]> shard_roots, kc_new_file_count commit)
  end.

Definition replay_keyspace_root (inner : MetadataInner) (keyspace_id : KeyspaceId)
    (commit_seq : CommitSeq) (excluded_checkpoint : option CheckpointId) : Result KeyspaceRoot :=
  checkpoint ← ok_or (latest_checkpoint_at_or_before inner (OwnNativeKeyspace keyspace_id)
    commit_seq excluded_checkpoint) (not_found "checkpoint" keyspace_id);
  root_id ← checkpoint_keyspace_root checkpoint;
  root ← keyspace_root_locked inner root_id;
  acc ← try_fold replay_keyspace_commit (kr_shard_roots root, kr_file_count root)
    (filter (fun c => cp_commit_seq checkpoint < kc_commit_seq c /\ kc_commit_seq c <= commit_seq)
      (keyspace_commits_for_keyspace inner keyspace_id));
  Ok (mkKeyspaceRoot root_id acc.1 acc.2).

Definition keyspace_timeline_contains_commit (inner : MetadataInner) (keyspace_id : KeyspaceId)
    (commit_seq : CommitSeq) : bool :=
  existsb (fun c => bool_decide (cp_owner c = OwnNativeKeyspace keyspace_id) &&
      (cp_commit_seq c =? commit_seq)) (bt_values (checkpoints inner)) ||
  existsb (fun c => (kc_keyspace_id c =? keyspace_id) && (kc_commit_seq c =? commit_seq))
    (keyspace_commits inner).

Definition target_commit_for_keyspace_restore (inner : MetadataInner) (keyspace_id : KeyspaceId)
    (point : RestorePoint) : Result CommitSeq :=
  match point with
  | RpCommit commit_seq =>
      if keyspace_timeline_contains_commit inner keyspace_id commit_seq then Ok commit_seq
      else Err (not_found "commit" commit_seq)
  | RpCheckpoint checkpoint_id =>
      checkpoint ← ok_or (checkpoints inner !! checkpoint_id)
        (not_found "checkpoint" checkpoint_id);
      reject_if (negb (bool_decide (cp_owner checkpoint = OwnNativeKeyspace keyspace_id)))
        (InvalidArgument "checkpoint does not belong to source keyspace");;
      Ok (cp_commit_seq checkpoint)
  | RpTime time =>
      ok_or (max_by_key (fun s : Z => s)
        ((cp_commit_seq <$> filter (fun c => cp_owner c = OwnNativeKeyspace keyspace_id /\
            cp_time c <= time) (bt_values (checkpoints inner))) ++
         (kc_commit_seq <$> filter (fun c => kc_keyspace_id c = keyspace_id /\ kc_time c <= time)
            (keyspace_commits inner)))) (not_found "restore_time" time)
  end.

(** The head and the checkpoint of a keyspace made from existing shards. *)
Definition install_keyspace_copy (target : KeyspaceId) (shard_roots : list KeyspaceCatalogShardId)
    (file_count : Z) : ST MetadataInner KeyspaceHead :=
  latest_commit ← alloc_commit_seq;
  let head := mkKeyspaceHead target 0 shard_roots file_count latest_commit in
  checkpoint_root ← insert_keyspace_root (kh_shard_roots head) (kh_file_count head);
  put_keyspace_head target head;;
  insert_checkpoint (OwnNativeKeyspace target) latest_commit
    (CrNativeKeyspace (kr_root_id checkpoint_root));;
  mret head.

Definition snapshot_keyspace (source : KeyspaceId) (target : option KeyspaceId)
    : ST MetadataInner KeyspaceHead :=
  inner ← st_get;
  source_head ← st_lift (get_keyspace_head inner source);
  target ← match target with
    | Some target =>
        st_reject_if (bool_decide (is_Some (keyspace_heads inner !! target)))
          (Conflict "target keyspace already exists");;
        reserve_keyspace_id_at_least_after target;;
        mret target
    | None => alloc_keyspace_id
    end;
  install_keyspace_copy target (kh_shard_roots source_head) (kh_file_count source_head).

Definition restore_keyspace (source : KeyspaceId) (point : RestorePoint)
    : ST MetadataInner KeyspaceHead :=
  inner ← st_get;
  st_reject_if (bool_decide (keyspace_heads inner !! source = None)) (not_found "keyspace" source);;
  root ← st_lift (match point with
    | RpCheckpoint checkpoint_id =>
        checkpoint ← ok_or (checkpoints inner !! checkpoint_id)
          (not_found "checkpoint" checkpoint_id);
        reject_if (negb (bool_decide (cp_owner checkpoint = OwnNativeKeyspace source)))
          (InvalidArgument "checkpoint does not belong to source keyspace");;
        root_id ← checkpoint_keyspace_root checkpoint;
        keyspace_root_locked inner root_id
    | _ =>
        target_commit ← target_commit_for_keyspace_restore inner source point;
        replay_keyspace_root inner source target_commit None
    end);
  target ← alloc_keyspace_id;
  install_keyspace_copy target (kr_shard_roots root) (kr_file_count root).

Definition checkpoint_keyspace (keyspace_id : KeyspaceId) : ST MetadataInner CheckpointId :=
  head ← st_ask (fun inner => get_keyspace_head inner keyspace_id);
  checkpoint_root ← insert_keyspace_root (kh_shard_roots head) (kh_file_count head);
  insert_checkpoint (OwnNativeKeyspace keyspace_id) (kh_latest_commit head)
    (CrNativeKeyspace (kr_root_id checkpoint_root)).

(** ** Checkpoint validation *)

Definition validate_checkpoint_root_shape (inner : MetadataInner) (device_id : DeviceId)
    (shard_roots : list MetadataNodeId) (expected_shard_count : Z) : Result unit :=
  reject_if (bool_decide (device_specs inner !! device_id = None)) (not_found "device" device_id);;
  reject_if (negb (Z.of_nat (length shard_roots) =? expected_shard_count))
    (Corrupt "checkpoint shard root count does not match device layout");;
  try_for (fun root =>
      reject_if (bool_decide (metadata_nodes inner !! root = None)) (not_found "metadata_node" root))
    shard_roots.

Definition validate_checkpoint (config : LocalStoreConfig) (inner : MetadataInner)
    (checkpoint : Checkpoint) : Result unit :=
  match cp_owner checkpoint with
  | OwnBlockDevice device_id =>
      checkpoint_roots ← checkpoint_block_roots checkpoint;
      match replay_device_roots inner device_id (cp_commit_seq checkpoint)
          (Some (cp_checkpoint_id checkpoint)) with
      | Ok replayed =>
          reject_if (negb (bool_decide (replayed = checkpoint_roots)))
            (Corrupt "checkpoint roots do not match replayed timeline")
      | Err error =>
          if cp_commit_seq checkpoint =? 0 then
            validate_checkpoint_root_shape inner device_id checkpoint_roots (shard_count config)
          else Err error
      end
  | OwnNativeKeyspace keyspace_id =>
      checkpoint_root ← checkpoint_keyspace_root checkpoint;
      match replay_keyspace_root inner keyspace_id (cp_commit_seq checkpoint)
          (Some (cp_checkpoint_id checkpoint)) with
      | Ok replayed =>
          root ← keyspace_root_locked inner checkpoint_root;
          reject_if (negb (bool_decide (kr_shard_roots replayed = kr_shard_roots root)) ||
              negb (kr_file_count replayed =? kr_file_count root))
            (Corrupt "keyspace checkpoint root does not match replayed timeline")
      | Err error =>
          if cp_commit_seq checkpoint =? 0 then
            reject_if (bool_decide (keyspace_roots inner !! checkpoint_root = None))
              (not_found "keyspace_root" checkpoint_root)
          else Err error
      end
  end.
