(* ===== verification/Timeline.v ===== *)
(** * The block-device timeline ([local/metadata_plane.rs])

    Every publish appends to the commit timeline of its device; restore replays
    the timeline from a checkpoint.  This file proves that the two agree: the
    invariant of the metadata plane, that every operation preserves it, that a
    replay gives the roots that were current at that commit, and what publish,
    fork, restore and delete do. *)

From S2P Require Import Prelude Api Object Provider Config Streams Plane.

(** ** Folding and sorting *)

Lemma try_fold_app {A B} (f : B -> A -> Result B) b l1 l2 :
  try_fold f b (l1 ++ l2) = (b' ← try_fold f b l1; try_fold f b' l2).
Proof.
  revert b. induction l1 as [|x l1 IH]; intros b; cbn [try_fold app]; [done|].
  destruct (f b x) as [b'|e]; cbn [mbind Result_bind]; [apply IH|done].
Qed.

Lemma insert_by_app {A} (leb : A -> A -> bool) x l1 l2 :
  (forall y, y ∈ l2 -> leb x y = true) -> insert_by leb x (l1 ++ l2) = insert_by leb x l1 ++ l2.
Proof.
  intros Hx. induction l1 as [|y l1 IH]; cbn.
  - destruct l2 as [|z l2]; cbn; [done|]. by rewrite Hx by (by left).
  - destruct (leb x y); [done|]. cbn. by rewrite IH.
Qed.

Lemma sort_by_app {A} (leb : A -> A -> bool) l1 l2 :
  (forall x y, x ∈ l1 -> y ∈ l2 -> leb x y = true) ->
  sort_by leb (l1 ++ l2) = sort_by leb l1 ++ sort_by leb l2.
Proof.
  induction l1 as [|x l1 IH]; intros Hl; cbn; [done|].
  rewrite IH by (intros; apply Hl; [by right|done]).
  apply insert_by_app. intros y Hy. apply Hl; [by left|]. by rewrite sort_by_perm in Hy.
Qed.

(** ** Replaying shard commits *)

Definition replay (roots : list MetadataNodeId) (cs : list ShardCommit)
    : Result (list MetadataNodeId) := try_fold replay_shard_commit roots cs.

Lemma replay_step_Ok roots c roots' :
  replay_shard_commit roots c = Ok roots' <->
  roots !! Z.to_nat (sc_shard_id c) = Some (sc_old_root c) /\
  roots' = <[Z.to_nat (sc_shard_id c) := sc_new_root c]> roots.
Proof.
  unfold replay_shard_commit. destruct (roots !! _) as [r|] eqn:Hr; [|naive_solver].
  destruct (r =? sc_old_root c) eqn:E; cbn; bool_prop; naive_solver congruence.
Qed.

Lemma replay_step_length roots c roots' :
  replay_shard_commit roots c = Ok roots' -> length roots' = length roots.
Proof. intros [_ ->]%replay_step_Ok. apply length_insert. Qed.

Lemma replay_length roots cs roots' : replay roots cs = Ok roots' -> length roots' = length roots.
Proof.
  revert roots. induction cs as [|c cs IH]; intros roots; cbn; [by intros [= <-]|].
  intros (r1 & H1%replay_step_length & H2%IH)%bind_Ok. congruence.
Qed.

Lemma replay_Forall (P : MetadataNodeId -> Prop) roots cs roots' :
  Forall P roots -> Forall (fun c => P (sc_new_root c)) cs -> replay roots cs = Ok roots' ->
  Forall P roots'.
Proof.
  intros Hr Hc. revert roots Hr. induction Hc as [|c cs Hp Hc IH]; intros roots Hr; cbn.
  { by intros [= <-]. }
  intros (r1 & [_ ->]%replay_step_Ok & H)%bind_Ok. eapply IH; [|exact H].
  by apply Forall_insert.
Qed.

(** Replay can be undone: a commit names the root it replaced. *)
Lemma replay_inj a b cs x : replay a cs = Ok x -> replay b cs = Ok x -> a = b.
Proof.
  revert a b. induction cs as [|c cs IH]; intros a b; cbn; [congruence|].
  intros (a' & [Ha Ha']%replay_step_Ok & Hx)%bind_Ok (b' & [Hb Hb']%replay_step_Ok & Hx')%bind_Ok.
  assert (a' = b') as Heq by eauto. subst a' b'.
  rewrite <-(list_insert_id a _ _ Ha), <-(list_insert_id b _ _ Hb).
  rewrite <-(list_insert_insert_eq a _ _ (sc_new_root c)), Heq. by rewrite list_insert_insert_eq.
Qed.

(** Commits to different shards can be replayed in either order. *)
Lemma replay_swap roots c1 c2 cs x :
  Z.to_nat (sc_shard_id c1) <> Z.to_nat (sc_shard_id c2) ->
  replay roots (c1 :: c2 :: cs) = Ok x -> replay roots (c2 :: c1 :: cs) = Ok x.
Proof.
  intros Hne. cbn. intros (r1 & [H1 ->]%replay_step_Ok & (r2 & [H2 ->]%replay_step_Ok & Hx)%bind_Ok)%bind_Ok.
  rewrite list_lookup_insert_ne in H2 by done.
  apply bind_Ok. eexists. split; [apply replay_step_Ok; by split|].
  apply bind_Ok. eexists. split.
  - apply replay_step_Ok. split; [by rewrite list_lookup_insert_ne|done].
  - by rewrite list_insert_insert_ne.
Qed.

Definition commit_key (c : ShardCommit) : list Z := [sc_commit_seq c; sc_shard_id c].
Definition commit_leb (c c' : ShardCommit) : bool := lex_leb (commit_key c) (commit_key c').

Lemma replay_insert roots c cs x :
  (forall c', c' ∈ cs -> sc_commit_seq c' = sc_commit_seq c) ->
  (forall c', c' ∈ c :: cs -> 0 <= sc_shard_id c') ->
  replay roots (c :: cs) = Ok x -> replay roots (insert_by commit_leb c cs) = Ok x.
Proof.
  revert roots. induction cs as [|c' cs IH]; intros roots Hseq Hpos H; cbn [insert_by]; [done|].
  destruct (commit_leb c c') eqn:Hl; [done|].
  assert (Hne : Z.to_nat (sc_shard_id c) <> Z.to_nat (sc_shard_id c')).
  { unfold commit_leb, commit_key in Hl. cbn in Hl.
    rewrite (Hseq c') in Hl by (by left). rewrite Z.ltb_irrefl, Z.eqb_refl in Hl. cbn in Hl.
    rewrite andb_true_r in Hl. apply orb_false_elim in Hl as [? ?]. bool_prop.
    pose proof (Hpos c ltac:(by left)). pose proof (Hpos c' ltac:(right; by left)). lia. }
  apply (replay_swap _ _ _ _ _ Hne) in H. unfold replay in H |- *. cbn [try_fold] in H |- *.
  apply bind_Ok in H as (r1 & H1 & H2). apply bind_Ok. exists r1. split; [done|].
  apply IH; [intros; apply Hseq; by right| |done].
  intros c'' [->|?]%elem_of_cons; apply Hpos; [by left|right; by right].
Qed.

(** The commits of one group, sorted by shard, replay to the same roots. *)
Lemma replay_sort roots cs seq x :
  (forall c, c ∈ cs -> sc_commit_seq c = seq /\ 0 <= sc_shard_id c) ->
  replay roots cs = Ok x -> replay roots (sort_by commit_leb cs) = Ok x.
Proof.
  revert roots. induction cs as [|c cs IH]; intros roots Hcs H; [done|]. cbn [sort_by].
  apply replay_insert.
  - intros c' Hc'. rewrite sort_by_perm in Hc'.
    rewrite (proj1 (Hcs c ltac:(by left))). apply Hcs. by right.
  - intros c' Hc'. rewrite sort_by_perm in Hc'. by apply Hcs.
  - cbn in H |- *. apply bind_Ok in H as (r1 & H1 & H2). apply bind_Ok. exists r1.
    split; [done|]. apply IH; [|done]. intros. apply Hcs. by right.
Qed.

(** ** The invariant of the plane *)

(** The current roots of a device, live or deleted. *)
Definition device_roots (m : MetadataInner) (d : DeviceId) : option (list MetadataNodeId) :=
  match device_heads m !! d with
  | Some h => Some (dh_shard_roots h)
  | None => dh_shard_roots <$> deleted_device_heads m !! d
  end.

Definition commits_after (m : MetadataInner) (d : DeviceId) (T : CommitSeq) : list ShardCommit :=
  filter (fun c => T < sc_commit_seq c) (shard_commits_for_device m d).

(** The roots that were current at commit [T]: those from which the later
    commits lead to the roots of now. *)
Definition roots_at (m : MetadataInner) (d : DeviceId) (T : CommitSeq)
    (r : list MetadataNodeId) : Prop :=
  exists cur, device_roots m d = Some cur /\ replay r (commits_after m d T) = Ok cur.

Definition head_ok (config : LocalStoreConfig) (m : MetadataInner) (d : DeviceId)
    (h : DeviceHead) : Prop :=
  dh_device_id h = d /\ d < next_device_id m /\
  0 <= dh_generation h <= dh_latest_commit h /\
  Z.of_nat (length (dh_shard_roots h)) = shard_count config /\
  Forall (fun r => is_Some (metadata_nodes m !! r)) (dh_shard_roots h) /\
  0 <= dh_latest_commit h < next_commit_seq m /\ is_Some (device_specs m !! d) /\
  (forall c, c ∈ shard_commits m -> sc_device_id c = d -> sc_commit_seq c <= dh_latest_commit h) /\
  (forall k c, checkpoints m !! k = Some c -> cp_owner c = OwnBlockDevice d ->
    cp_commit_seq c <= dh_latest_commit h).

Definition checkpoint_ok (m : MetadataInner) (k : CheckpointId) (c : Checkpoint) : Prop :=
  cp_checkpoint_id c = k /\
  forall d, cp_owner c = OwnBlockDevice d ->
    0 <= cp_commit_seq c < next_commit_seq m /\ cp_time c = cp_commit_seq c /\
    exists r, cp_roots c = CrBlockShard r /\ roots_at m d (cp_commit_seq c) r.

Definition commit_ok (m : MetadataInner) (c : ShardCommit) : Prop :=
  0 < sc_commit_seq c < next_commit_seq m /\ 0 <= sc_shard_id c /\
  sc_time c = sc_commit_seq c /\ is_Some (device_roots m (sc_device_id c)).

(** The allocators are ahead of every id in use. *)
Definition ids_fresh (m : MetadataInner) : Prop :=
  (forall id, is_Some (metadata_nodes m !! id) -> id < next_metadata_node_id m) /\
  (forall k, is_Some (checkpoints m !! k) -> k < next_checkpoint_id m).

(** Heads point at existing nodes and at their own timeline; every checkpoint
    holds the roots that were current at its commit; the timeline only
    mentions known devices. *)
Record plane_wf (config : LocalStoreConfig) (m : MetadataInner) : Prop := {
  pw_seq : 0 < next_commit_seq m;
  pw_fresh : ids_fresh m;
  pw_heads : map_Forall (head_ok config m) (device_heads m);
  pw_deleted : map_Forall (head_ok config m) (deleted_device_heads m);
  pw_disjoint : forall d, is_Some (device_heads m !! d) -> deleted_device_heads m !! d = None;
  pw_checkpoints : map_Forall (checkpoint_ok m) (checkpoints m);
  pw_commits : Forall (commit_ok m) (shard_commits m);
}.

(** *** Searching and sorting the timeline *)

Lemma max_by_key_Some {A} (key : A -> Z) l x :
  max_by_key key l = Some x -> x ∈ l /\ forall y, y ∈ l -> key y <= key x.
Proof.
  unfold max_by_key.
  assert (Hgen : forall best, (forall b, best = Some b -> True) ->
    fold_left (fun best x => match best with
      | Some b => if key b <=? key x then Some x else best | None => Some x end) l best = Some x ->
    (x ∈ l \/ best = Some x) /\ (forall y, y ∈ l -> key y <= key x) /\
    (forall b, best = Some b -> key b <= key x)).
  { induction l as [|y l IH]; intros best _; cbn [fold_left].
    - intros ->. split_and!; [by right|by intros ? ?%not_elem_of_nil|by intros b [= ->]].
    - intros H. destruct best as [b|].
      + destruct (key b <=? key y) eqn:Hb; bool_prop; apply IH in H as (H1 & H2 & H3); try done.
        * split_and!; [destruct H1 as [|[= ->]]; [left; by right|left; by left]| |].
          -- intros z [->|Hz]%elem_of_cons; [by apply H3|by apply H2].
          -- intros b' [= <-]. specialize (H3 y eq_refl). lia.
        * split_and!; [destruct H1 as [|[= ->]]; [left; by right|by right]| |].
          -- intros z [->|Hz]%elem_of_cons; [specialize (H3 b eq_refl); lia|by apply H2].
          -- intros b' [= <-]. by apply H3.
      + apply IH in H as (H1 & H2 & H3); [|done].
        split_and!; [destruct H1 as [|[= ->]]; [left; by right|left; by left]| |done].
        intros z [->|Hz]%elem_of_cons; [by apply H3|by apply H2]. }
  intros H. apply Hgen in H as ([?|[=]] & ? & _); done.
Qed.

Lemma max_by_key_None {A} (key : A -> Z) l : max_by_key key l = None -> l = [].
Proof.
  unfold max_by_key. destruct l as [|x l]; [done|]. cbn [fold_left].
  enough (Hgen : forall b, fold_left (fun best x => match best with
      | Some b => if key b <=? key x then Some x else best | None => Some x end) l (Some b) <> None)
    by (intros H; by apply Hgen in H).
  induction l as [|y l IH]; intros b; cbn [fold_left]; [done|].
  destruct (key b <=? key y); apply IH.
Qed.

Lemma device_commits_sorted m d :
  StronglySorted (fun a b => sc_commit_seq a <= sc_commit_seq b) (shard_commits_for_device m d).
Proof.
  eapply StronglySorted_impl'; [|apply sort_by_tuple_sorted].
  intros a b. cbn. intros H%Is_true_true. apply orb_prop in H as [H|[H _]%andb_prop]; bool_prop; lia.
Qed.

Lemma elem_of_device_commits m d c :
  c ∈ shard_commits_for_device m d <-> c ∈ shard_commits m /\ sc_device_id c = d.
Proof.
  unfold shard_commits_for_device. rewrite sort_by_tuple_perm, list_elem_of_filter. tauto.
Qed.

Lemma filter_split_sorted (l : list ShardCommit) a T :
  a <= T -> StronglySorted (fun a b => sc_commit_seq a <= sc_commit_seq b) l ->
  filter (fun c => a < sc_commit_seq c) l =
  filter (fun c => a < sc_commit_seq c /\ sc_commit_seq c <= T) l ++
  filter (fun c => T < sc_commit_seq c) l.
Proof.
  intros Ha. induction 1 as [|c l HS IH Hf]; [done|]. rewrite !filter_cons, IH.
  destruct (decide (T < sc_commit_seq c)) as [Hc|Hc].
  - rewrite decide_True by lia. rewrite decide_False by lia.
    enough (filter (fun c => a < sc_commit_seq c /\ sc_commit_seq c <= T) l = []) as -> by done.
    apply elem_of_nil_inv. intros x [? Hx]%list_elem_of_filter.
    rewrite Forall_forall in Hf. specialize (Hf x Hx). cbn in Hf. lia.
  - destruct (decide (a < sc_commit_seq c)).
    + by rewrite decide_True by lia.
    + by rewrite decide_False by lia.
Qed.

Lemma commits_between m d a T :
  a <= T ->
  commits_after m d a =
  filter (fun c => a < sc_commit_seq c /\ sc_commit_seq c <= T) (shard_commits_for_device m d) ++
  commits_after m d T.
Proof. intros. apply filter_split_sorted; [done|apply device_commits_sorted]. Qed.

Lemma roots_at_unique m d T r1 r2 : roots_at m d T r1 -> roots_at m d T r2 -> r1 = r2.
Proof. intros (c1 & H1 & R1) (c2 & H2 & R2). simplify_eq. by eapply replay_inj. Qed.

(** Replay from the latest checkpoint gives the roots current at that commit. *)
Lemma replay_device_roots_Ok config m d T r :
  plane_wf config m ->
  replay_device_roots m d T None = Ok r <->
  roots_at m d T r /\
  exists k c, checkpoints m !! k = Some c /\ cp_owner c = OwnBlockDevice d /\ cp_commit_seq c <= T.
Proof.
  intros Hwf. unfold replay_device_roots, latest_checkpoint_at_or_before.
  destruct (max_by_key _ _) as [c|] eqn:Hmax.
  - apply max_by_key_Some in Hmax as [Hin Hmax].
    apply list_elem_of_filter in Hin as [(Ho & HT & _) [k Hk]%elem_of_bt_values].
    destruct (pw_checkpoints _ _ Hwf _ _ Hk) as (_ & Hr).
    destruct (Hr d Ho) as (_ & _ & r0 & Hr0 & cur & Hcur & Hrep).
    cbn [ok_or mbind Result_bind]. unfold checkpoint_block_roots. rewrite Hr0.
    cbn [mbind Result_bind]. rewrite (commits_between m d _ T) in Hrep by done.
    unfold replay in Hrep. rewrite try_fold_app in Hrep.
    apply bind_Ok in Hrep as (r1 & -> & Hrep). split.
    + intros [= <-]. split; [|by eauto 10]. exists cur. by split.
    + intros [Hat _]. f_equal. eapply roots_at_unique; [|exact Hat]. exists cur. by split.
  - apply max_by_key_None in Hmax. cbn [ok_or mbind Result_bind]. split; [done|].
    intros (_ & k & c & Hk & Ho & HT).
    assert (Hin : c ∈ @nil Checkpoint).
    { rewrite <-Hmax. apply list_elem_of_filter. split; [done|]. apply elem_of_bt_values. eauto. }
    by apply not_elem_of_nil in Hin.
Qed.

(** ** Operations that leave the block timeline alone *)

Record block_frame (m m' : MetadataInner) : Prop := {
  bf_heads : device_heads m' = device_heads m;
  bf_deleted : deleted_device_heads m' = deleted_device_heads m;
  bf_commits : shard_commits m' = shard_commits m;
  bf_specs : forall d, is_Some (device_specs m !! d) -> is_Some (device_specs m' !! d);
  bf_nodes : metadata_nodes m ⊆ metadata_nodes m';
  bf_seq : next_commit_seq m <= next_commit_seq m';
  bf_dev : next_device_id m <= next_device_id m';
  bf_cps : checkpoints m ⊆ checkpoints m';
  bf_new_cps : forall k c, checkpoints m' !! k = Some c ->
    checkpoints m !! k = Some c \/ (cp_checkpoint_id c = k /\ forall d, cp_owner c <> OwnBlockDevice d);
}.

Definition frame_rel (m m' : MetadataInner) : Prop :=
  ids_fresh m -> ids_fresh m' /\ block_frame m m'.

#[export] Instance frame_rel_preorder : PreOrder frame_rel.
Proof.
  split.
  - intros m Hf. split; [done|]. constructor; auto with lia.
  - intros m1 m2 m3 H12 H23 Hf. destruct (H12 Hf) as [Hf2 F1]. destruct (H23 Hf2) as [Hf3 F2].
    destruct F1 as [A1 A2 A3 A4 A5 A6 A7 A8 A9], F2 as [B1 B2 B3 B4 B5 B6 B7 B8 B9].
    split; [done|]. constructor; try congruence; try lia; try (by etrans); [by auto|].
    intros k c Hk. apply B9 in Hk as [Hk|?]; [by apply A9|by right].
Qed.

Lemma roots_at_frame m m' d T r : block_frame m m' -> roots_at m' d T r <-> roots_at m d T r.
Proof.
  intros F. unfold roots_at, device_roots, commits_after, shard_commits_for_device.
  by rewrite (bf_heads _ _ F), (bf_deleted _ _ F), (bf_commits _ _ F).
Qed.

Lemma head_ok_frame config m m' d h : block_frame m m' -> head_ok config m d h -> head_ok config m' d h.
Proof.
  intros F (H1 & H2 & Hg & H3 & H4 & H5 & H6 & H7 & H8).
  pose proof (bf_dev _ _ F). pose proof (bf_seq _ _ F). unfold head_ok.
  rewrite (bf_commits _ _ F). split_and!; try done; try lia.
  - eapply Forall_impl; [exact H4|]. intros r [n Hn]. exists n. by eapply lookup_weaken, (bf_nodes _ _ F).
  - by apply (bf_specs _ _ F).
  - intros k c Hk Ho. destruct (bf_new_cps _ _ F k c Hk) as [Hk'|[_ Hn]]; [by eapply H8|].
    by destruct (Hn d).
Qed.

Lemma plane_wf_frame config m m' : plane_wf config m -> frame_rel m m' -> plane_wf config m'.
Proof.
  intros Hwf HR. destruct Hwf as [W1 W2 W3 W4 W5 W6 W7]. destruct (HR W2) as [Hf F].
  pose proof (bf_seq _ _ F). constructor.
  - lia.
  - done.
  - rewrite (bf_heads _ _ F). eapply map_Forall_impl; [exact W3|]. intros. by eapply head_ok_frame.
  - rewrite (bf_deleted _ _ F). eapply map_Forall_impl; [exact W4|]. intros. by eapply head_ok_frame.
  - rewrite (bf_heads _ _ F), (bf_deleted _ _ F). done.
  - intros k c Hk. apply (bf_new_cps _ _ F) in Hk as [Hk|[Hid Hn]].
    + destruct (W6 _ _ Hk) as [Hid Hb]. split; [done|]. intros d Ho.
      destruct (Hb d Ho) as (? & ? & r & ? & Hr). split; [lia|]. split; [done|].
      exists r. split; [done|]. by apply (roots_at_frame _ _ _ _ _ F).
    + split; [done|]. intros d Ho. by destruct (Hn d).
  - rewrite (bf_commits _ _ F). eapply Forall_impl; [exact W7|].
    intros c (? & ? & ? & Hd). unfold commit_ok, device_roots in *.
    rewrite (bf_heads _ _ F), (bf_deleted _ _ F). split_and!; try done; lia.
Qed.

(** [frame_set]: an assignment to a field outside the block timeline. *)
Ltac frame_set :=
  intros [? ?]; split; [split; cbn; auto with lia|constructor; cbn; auto with lia].

Create HintDb frame.

Lemma alloc_frame (get : MetadataInner -> Z) put :
  (forall s, frame_rel s (put (get s + 1) s)) -> st_rel frame_rel (alloc get put).
Proof.
  intros Hput s r s'. unfold alloc, st_gets, st_modify, mret, ST_ret, mbind, ST_bind.
  intros [= _ <-]. apply Hput.
Qed.

Lemma alloc_checked_frame (get : MetadataInner -> Z) put reason :
  (forall s, frame_rel s (put (get s + 1) s)) -> st_rel frame_rel (alloc_checked get put reason).
Proof.
  intros Hput s r s'. unfold alloc_checked, st_gets, st_modify, st_lift, mret, ST_ret, mbind, ST_bind.
  unfold checked_add. destruct (_ <? _); cbn [ok_or]; intros [= _ <-]; [apply Hput|reflexivity].
Qed.

Lemma set_node_id_frame s : frame_rel s (set_next_metadata_node_id (next_metadata_node_id s + 1) s).
Proof.
  intros [Hn Hc]; split; [split; cbn; [|done]|constructor; cbn; auto with lia].
  intros id Hid. specialize (Hn id Hid). lia.
Qed.
Lemma set_checkpoint_id_frame s : frame_rel s (set_next_checkpoint_id (next_checkpoint_id s + 1) s).
Proof.
  intros [Hn Hc]; split; [split; cbn; [done|]|constructor; cbn; auto with lia].
  intros id Hid. specialize (Hc id Hid). lia.
Qed.

Lemma alloc_device_id_frame : st_rel frame_rel alloc_device_id.
Proof. apply alloc_frame. intros s. frame_set. Qed.
Lemma alloc_keyspace_id_frame : st_rel frame_rel alloc_keyspace_id.
Proof. apply alloc_frame. intros s. frame_set. Qed.
Lemma alloc_file_id_frame : st_rel frame_rel alloc_file_id.
Proof. apply alloc_frame. intros s. frame_set. Qed.
Lemma alloc_metadata_node_id_frame : st_rel frame_rel alloc_metadata_node_id.
Proof. apply alloc_frame. intros s. apply set_node_id_frame. Qed.
Lemma alloc_keyspace_root_id_frame : st_rel frame_rel alloc_keyspace_root_id.
Proof. apply alloc_frame. intros s. frame_set. Qed.
Lemma alloc_keyspace_catalog_shard_id_frame : st_rel frame_rel alloc_keyspace_catalog_shard_id.
Proof. apply alloc_frame. intros s. frame_set. Qed.
Lemma alloc_commit_group_id_frame : st_rel frame_rel alloc_commit_group_id.
Proof. apply alloc_frame. intros s. frame_set. Qed.
Lemma alloc_commit_seq_frame : st_rel frame_rel alloc_commit_seq.
Proof. apply alloc_checked_frame. intros s. frame_set. Qed.
#[export] Hint Resolve alloc_device_id_frame alloc_keyspace_id_frame alloc_file_id_frame
  alloc_metadata_node_id_frame alloc_keyspace_root_id_frame alloc_keyspace_catalog_shard_id_frame
  alloc_commit_group_id_frame alloc_commit_seq_frame : frame.

(** A node stored under the id just allocated for it. *)
Lemma alloc_insert_frame {A} (check : Z -> Result A) (mk : Z -> MetadataNode) :
  (forall id, mn_node_id (mk id) = id) ->
  st_rel frame_rel (node_id ← alloc_metadata_node_id;
    st_lift (check node_id);; insert_metadata_node (mk node_id);; mret (mk node_id)).
Proof.
  intros Hmk s r s'. unfold alloc_metadata_node_id, alloc, st_gets, st_modify, st_lift,
    insert_metadata_node, mret, ST_ret, mbind, ST_bind.
  destruct (check _); intros [= _ <-]; [|apply set_node_id_frame].
  intros [Hn Hc]. cbn. rewrite Hmk.
  assert (Hnone : metadata_nodes s !! next_metadata_node_id s = None).
  { apply eq_None_not_Some. intros Hs. specialize (Hn _ Hs). lia. }
  split; [split; cbn; [|done]|constructor; cbn; auto with lia].
  - intros id. rewrite lookup_insert_is_Some'. intros [->|Hid]; [lia|]. specialize (Hn _ Hid). lia.
  - by apply insert_subseteq.
Qed.

Lemma create_empty_tree_frame fuel config range :
  st_rel frame_rel (create_empty_tree fuel config range).
Proof.
  revert range. induction fuel as [|fuel IH]; intros range; cbn [create_empty_tree].
  { apply st_rel_lift. apply _. }
  apply st_rel_bind; [apply _|apply st_rel_lift; apply _|]. intros _.
  destruct (_ <=? _).
  - apply (alloc_insert_frame (fun id => MetadataNode_validate (mkMetadataNode id range (Leaf [] [])) [])
      (fun id => mkMetadataNode id range (Leaf [] []))). done.
  - cbv zeta. apply st_rel_bind; [apply _| |].
    + st_rel_tac. apply IH.
    + intros children. apply (alloc_insert_frame
        (fun id => MetadataNode_validate (mkMetadataNode id range (Internal children)) [])
        (fun id => mkMetadataNode id range (Internal children))). done.
Qed.
#[export] Hint Resolve create_empty_tree_frame : frame.

Lemma insert_keyspace_checkpoint_frame k seq roots :
  st_rel frame_rel (insert_checkpoint (OwnNativeKeyspace k) seq roots).
Proof.
  intros s r s'. unfold insert_checkpoint, alloc_checkpoint_id, alloc, st_gets, st_modify, mret,
    ST_ret, mbind, ST_bind. intros [= _ <-] [Hn Hc]. cbn.
  assert (Hnone : checkpoints s !! next_checkpoint_id s = None).
  { apply eq_None_not_Some. intros Hs. specialize (Hc _ Hs). lia. }
  split; [split; cbn; [done|]|constructor; cbn; auto with lia].
  - intros id. rewrite lookup_insert_is_Some'. intros [->|Hid]; [lia|]. specialize (Hc _ Hid). lia.
  - by apply insert_subseteq.
  - intros k' c [[<- <-]|[_ ?]]%lookup_insert_Some; [by right|by left].
Qed.
#[export] Hint Resolve insert_keyspace_checkpoint_frame : frame.

Lemma reserve_keyspace_id_frame id : st_rel frame_rel (reserve_keyspace_id_at_least_after id).
Proof.
  unfold reserve_keyspace_id_at_least_after, reserve_at_least_after. st_rel_tac.
  apply st_rel_modify. intros s. frame_set.
Qed.
Lemma insert_keyspace_catalog_shard_frame files :
  st_rel frame_rel (insert_keyspace_catalog_shard files).
Proof.
  unfold insert_keyspace_catalog_shard. st_rel_tac; [auto with frame|].
  apply st_rel_modify. intros s. frame_set.
Qed.
Lemma insert_keyspace_root_frame roots n : st_rel frame_rel (insert_keyspace_root roots n).
Proof.
  unfold insert_keyspace_root. st_rel_tac; [auto with frame|].
  apply st_rel_modify. intros s. frame_set.
Qed.
Lemma put_keyspace_head_frame k h : st_rel frame_rel (put_keyspace_head k h).
Proof. apply st_rel_modify. intros s. frame_set. Qed.
Lemma push_keyspace_commit_frame c : st_rel frame_rel (push_keyspace_commit c).
Proof. unfold push_keyspace_commit. st_rel_tac. apply st_rel_modify. intros s. frame_set. Qed.
Lemma push_file_commit_frame c : st_rel frame_rel (push_file_commit c).
Proof. apply st_rel_modify. intros s. frame_set. Qed.
Lemma put_commit_group_frame c : st_rel frame_rel (put_commit_group c).
Proof. apply st_rel_modify. intros s. frame_set. Qed.
#[export] Hint Resolve reserve_keyspace_id_frame insert_keyspace_catalog_shard_frame
  insert_keyspace_root_frame put_keyspace_head_frame push_keyspace_commit_frame
  push_file_commit_frame put_commit_group_frame : frame.

(** The native operations leave the block timeline alone. *)
Lemma update_keyspace_file_frame roots n id e : st_rel frame_rel (update_keyspace_file roots n id e).
Proof. unfold update_keyspace_file. st_rel_tac; auto with frame. Qed.
#[export] Hint Resolve update_keyspace_file_frame : frame.

Lemma create_keyspace_frame config : st_rel frame_rel (create_keyspace config).
Proof.
  unfold create_keyspace, insert_empty_keyspace_root. st_rel_tac; auto with frame.
  apply st_rel_modify. intros s. frame_set.
Qed.
Lemma create_file_frame config k name : st_rel frame_rel (create_file config k name).
Proof.
  unfold create_file. st_rel_tac; auto with frame. apply st_rel_modify. intros s. frame_set.
Qed.
Lemma publish_native_frame config k intent : st_rel frame_rel (publish_native config k intent).
Proof.
  unfold publish_native. st_rel_tac; auto with frame; apply st_rel_modify; intros s; frame_set.
Qed.
Lemma install_keyspace_copy_frame t roots n : st_rel frame_rel (install_keyspace_copy t roots n).
Proof. unfold install_keyspace_copy. st_rel_tac; auto with frame. Qed.
#[export] Hint Resolve install_keyspace_copy_frame : frame.
Lemma snapshot_keyspace_frame k t : st_rel frame_rel (snapshot_keyspace k t).
Proof. unfold snapshot_keyspace. st_rel_tac; auto with frame. Qed.
Lemma restore_keyspace_frame k p : st_rel frame_rel (restore_keyspace k p).
Proof. unfold restore_keyspace. st_rel_tac; auto with frame. Qed.
Lemma checkpoint_keyspace_frame k : st_rel frame_rel (checkpoint_keyspace k).
Proof. unfold checkpoint_keyspace. st_rel_tac; auto with frame. Qed.

(** ** Publishing block commits *)

(** The log record of one shard update of a group. *)
Definition commit_of (seq : CommitSeq) (group : CommitGroupId) (d : DeviceId)
    (u : ShardId * MetadataNodeId * MetadataNodeId) : ShardCommit :=
  mkShardCommit seq group seq d u.1.1 u.1.2 u.2.

Lemma block_updates_replay m us roots cs roots' cs' seq group d :
  try_fold (block_update_step m) (roots, cs) us = Ok (roots', cs') ->
  exists new, cs' = cs ++ new /\
    us = (fun u => RuBlockShard (mkShardRootUpdate u.1.1 u.1.2 u.2)) <$> new /\
    Forall (fun u => is_Some (metadata_nodes m !! u.2)) new /\
    replay roots (commit_of seq group d <$> new) = Ok roots'.
Proof.
  revert roots cs. induction us as [|u us IH]; intros roots cs; cbn [try_fold].
  { intros [= <- <-]. exists []. rewrite app_nil_r. split_and!; done. }
  intros ([r1 c1] & Hs & H)%bind_Ok. unfold block_update_step in Hs.
  destruct u as [[sh old new]| |]; cbn in Hs; try discriminate Hs.
  destruct (roots !! Z.to_nat sh) as [root|] eqn:Hr; [|discriminate Hs].
  apply bind_Ok in Hs as (? & Ho%reject_if_Ok & Hs). apply bind_Ok in Hs as (? & Hn%reject_if_Ok & Hs).
  bool_prop. injection Hs as <- <-. subst root.
  apply IH in H as (ups & -> & -> & Hf & Hrep).
  exists ((sh, old, new) :: ups). split_and!.
  - by rewrite <-app_assoc.
  - done.
  - constructor; [by apply not_eq_None_Some|done].
  - cbn. unfold replay_shard_commit. cbn. rewrite Hr, Z.eqb_refl. cbn. done.
Qed.

(** The state after a successful block commit. *)
Definition published (m : MetadataInner) (d : DeviceId) (h : DeviceHead) (intent : CommitGroupIntent)
    (roots : list MetadataNodeId) (ups : list (ShardId * MetadataNodeId * MetadataNodeId))
    : MetadataInner :=
  let seq := next_commit_seq m in
  let group := next_commit_group_id m in
  set_commit_groups (<[group := mkCommitGroup group seq (ci_owner intent) (ci_updates intent)]>
    (commit_groups m))
  (set_device_heads (<[d := mkDeviceHead (dh_device_id h) (dh_generation h + 1) roots seq]>
    (device_heads m))
  (set_shard_commits (shard_commits m ++ (commit_of seq group d <$> ups))
  (set_next_commit_group_id (group + 1)
  (set_next_commit_seq (seq + 1) m)))).

(** [publish_block] on a head whose generation can advance: all or nothing. *)
Lemma publish_block_cases d intent m r m' :
  (forall h, device_heads m !! d = Some h -> dh_generation h < next_commit_seq m) ->
  publish_block d intent m = (r, m') ->
  ((exists e, r = Err e) /\ m' = m) \/
  exists h roots ups, device_heads m !! d = Some h /\
    (exists gen, ci_fence intent = MfDeviceGeneration gen) /\ ci_updates intent <> [] /\
    try_fold (block_update_step m) (dh_shard_roots h, []) (ci_updates intent) = Ok (roots, ups) /\
    next_commit_seq m + 1 < U64_MOD /\
    r = Ok (mkCommitGroup (next_commit_group_id m) (next_commit_seq m) (ci_owner intent)
      (ci_updates intent)) /\
    m' = published m d h intent roots ups.
Proof.
  intros Hgen. unfold publish_block, get_head, st_get, st_lift, st_reject_if, st_modify,
    alloc_commit_seq, alloc_checked, alloc_commit_group_id, alloc, st_gets, mret, ST_ret, mbind, ST_bind.
  destruct (device_heads m !! d) as [h|] eqn:Hh; cbn [ok_or]; [|intros [= <- <-]; eauto].
  specialize (Hgen h eq_refl).
  destruct (ci_fence intent) as [gen| |] eqn:Hf; [|intros [= <- <-]; by eauto..].
  case_bool_decide as Hu; unfold st_lift; cbn [reject_if]; [intros [= <- <-]; by eauto|].
  destruct (try_fold _ _ _) as [[roots ups]|] eqn:Hfold; [|intros [= <- <-]; by eauto].
  unfold checked_add at 1. destruct (_ + 1 <? U64_MOD) eqn:Hs; cbn [ok_or]; bool_prop;
    [|intros [= <- <-]; by eauto].
  unfold next_generation. rewrite checked_add_ok by lia. cbn [ok_or]. intros [= <- <-].
  right. exists h, roots, ups. split_and!; try done; [by exists gen|].
  assert (E : (fun '(shard_id, old_root, new_root) => mkShardCommit (next_commit_seq m)
      (next_commit_group_id m) (next_commit_seq m) d shard_id old_root new_root) <$> ups =
    commit_of (next_commit_seq m) (next_commit_group_id m) d <$> ups).
  { apply list_fmap_ext. by intros i [[? ?] ?] _. }
  unfold published. by rewrite <-E.
Qed.

Lemma device_commits_app m m' d new :
  shard_commits m' = shard_commits m ++ new ->
  Forall (fun c => sc_commit_seq c < next_commit_seq m) (shard_commits m) ->
  Forall (fun c => sc_commit_seq c = next_commit_seq m) new ->
  shard_commits_for_device m' d =
  shard_commits_for_device m d ++ sort_by commit_leb (filter (fun c => sc_device_id c = d) new).
Proof.
  intros Heq Hold Hnew. unfold shard_commits_for_device. rewrite Heq, filter_app.
  unfold sort_by_tuple. rewrite Forall_forall in Hold. rewrite Forall_forall in Hnew.
  apply sort_by_app. intros x y [_ Hx]%list_elem_of_filter [_ Hy]%list_elem_of_filter.
  specialize (Hold x Hx). specialize (Hnew y Hy). cbn in Hold, Hnew |- *.
  rewrite (proj2 (Z.ltb_lt _ _)) by lia. done.
Qed.

Lemma filter_all {A} (P : A -> Prop) `{!forall x, Decision (P x)} l : Forall P l -> filter P l = l.
Proof. induction 1; [done|]. rewrite filter_cons_True by done. by f_equal. Qed.
Lemma filter_none {A} (P : A -> Prop) `{!forall x, Decision (P x)} l :
  Forall (fun x => ~ P x) l -> filter P l = [].
Proof. induction 1; [done|]. by rewrite filter_cons_False. Qed.

Lemma commits_seq_lt config m :
  plane_wf config m -> Forall (fun c => sc_commit_seq c < next_commit_seq m) (shard_commits m).
Proof. intros Hwf. eapply Forall_impl; [apply Hwf|]. intros c (? & _). lia. Qed.

Section published.
Context (config : LocalStoreConfig) (m : MetadataInner) (d : DeviceId) (h : DeviceHead)
  (intent : CommitGroupIntent) (roots : list MetadataNodeId)
  (ups : list (ShardId * MetadataNodeId * MetadataNodeId)).
Hypothesis Hwf : plane_wf config m.
Hypothesis Hh : device_heads m !! d = Some h.
Hypothesis Htyped : Forall (fun u : Z * Z * Z => 0 <= u.1.1) ups.
Hypothesis Hnodes : Forall (fun u : Z * Z * Z => is_Some (metadata_nodes m !! u.2)) ups.
Hypothesis Hrep : replay (dh_shard_roots h)
  (commit_of (next_commit_seq m) (next_commit_group_id m) d <$> ups) = Ok roots.

Let m' := published m d h intent roots ups.
Let new := commit_of (next_commit_seq m) (next_commit_group_id m) d <$> ups.

Lemma published_new : Forall (fun c => sc_commit_seq c = next_commit_seq m /\ sc_device_id c = d /\
  0 <= sc_shard_id c /\ sc_time c = sc_commit_seq c) new.
Proof using Htyped.
  unfold new. apply Forall_fmap. eapply Forall_impl; [exact Htyped|]. intros u Hu. done.
Qed.

Lemma published_commits_after e T :
  T < next_commit_seq m ->
  commits_after m' e T = commits_after m e T ++ (if decide (e = d) then sort_by commit_leb new else []).
Proof using Hwf Htyped.
  intros HT. pose proof published_new as Hn. unfold commits_after.
  rewrite (device_commits_app m m' e new).
  - rewrite filter_app. f_equal. case_decide as He.
    + subst e. rewrite (filter_all _ new) by (eapply Forall_impl; [exact Hn|]; by intros c (_ & ? & _)).
      apply filter_all. rewrite sort_by_perm. eapply Forall_impl; [exact Hn|]. cbn. lia.
    + rewrite (filter_none _ new); [done|]. eapply Forall_impl; [exact Hn|]. intros c (_ & Hc & _). congruence.
  - done.
  - by eapply commits_seq_lt.
  - eapply Forall_impl; [exact Hn|]. by intros c (? & _).
Qed.

Lemma published_device_roots e :
  device_roots m' e = if decide (e = d) then Some roots else device_roots m e.
Proof using Type.
  unfold device_roots, m', published. cbn. case_decide as He.
  - subst e. by rewrite lookup_insert_eq.
  - by rewrite lookup_insert_ne.
Qed.

Lemma published_roots_at e T r :
  T < next_commit_seq m -> roots_at m e T r -> roots_at m' e T r.
Proof using Hwf Hh Htyped Hrep.
  intros HT (cur & Hcur & Hr). unfold roots_at. rewrite published_device_roots, published_commits_after by done.
  case_decide as He.
  - subst e. exists roots. split; [done|]. unfold device_roots in Hcur. rewrite Hh in Hcur.
    injection Hcur as <-. unfold replay in *. rewrite try_fold_app, Hr. cbn [mbind Result_bind].
    eapply replay_sort; [|exact Hrep]. intros c Hc.
    pose proof published_new as Hn. rewrite Forall_forall in Hn. by destruct (Hn c Hc) as (? & ? & ? & ?).
  - exists cur. by rewrite app_nil_r.
Qed.

Lemma published_now r : roots_at m' d (next_commit_seq m) r <-> r = roots.
Proof using Hwf Htyped.
  unfold roots_at. rewrite published_device_roots, decide_True by done.
  assert (Hnil : commits_after m' d (next_commit_seq m) = []).
  { apply filter_none. rewrite Forall_forall. intros c [Hc _]%elem_of_device_commits.
    unfold m', published in Hc. cbn in Hc. apply elem_of_app in Hc as [Hc|Hc].
    - pose proof (commits_seq_lt _ _ Hwf) as Hl. rewrite Forall_forall in Hl.
      specialize (Hl c Hc). cbn in Hl. lia.
    - pose proof published_new as Hn. rewrite Forall_forall in Hn.
      destruct (Hn c Hc) as [-> _]. lia. }
  rewrite Hnil. cbn. split; [by intros (? & [= <-] & [= ->])|intros ->; eauto].
Qed.

Lemma published_other e he : e <> d -> head_ok config m e he -> head_ok config m' e he.
Proof using Htyped.
  intros Hne (H1 & H2 & Hg & H3 & H4 & H5 & H6 & H7 & H8). unfold head_ok. cbn.
  split_and!; try done; try lia.
  intros c [Hc|Hc]%elem_of_app Hd; [by apply H7|].
  pose proof published_new as Hn. rewrite Forall_forall in Hn. destruct (Hn c Hc) as (_ & ? & _).
  congruence.
Qed.

Lemma published_head :
  head_ok config m' d (mkDeviceHead (dh_device_id h) (dh_generation h + 1) roots (next_commit_seq m)).
Proof using Hwf Hh Htyped Hnodes Hrep.
  destruct (pw_heads _ _ Hwf _ _ Hh) as (H1 & H2 & Hg & H3 & H4 & H5 & H6 & H7 & H8).
  pose proof (pw_commits _ _ Hwf) as W7. unfold head_ok. cbn. split_and!; try done; try lia.
  - by rewrite (replay_length _ _ _ Hrep).
  - eapply replay_Forall; [exact H4| |exact Hrep]. by apply Forall_fmap.
  - intros c [Hc|Hc]%elem_of_app _.
    + rewrite Forall_forall in W7. destruct (W7 _ Hc). lia.
    + pose proof published_new as Hn. rewrite Forall_forall in Hn. destruct (Hn c Hc) as [-> _]. lia.
  - intros k c Hk Ho. destruct (pw_checkpoints _ _ Hwf _ _ Hk) as [_ Hb]. destruct (Hb d Ho). lia.
Qed.

Lemma published_wf : plane_wf config m'.
Proof using Hwf Hh Htyped Hnodes Hrep.
  destruct Hwf as [W1 W2 W3 W4 W5 W6 W7]. constructor.
  - unfold m', published. cbn. lia.
  - exact W2.
  - intros e he. unfold m', published. cbn [device_heads set_commit_groups set_device_heads].
    intros [[<- <-]|[Hne He]]%lookup_insert_Some; [apply published_head|].
    apply published_other; [done|by apply W3].
  - intros e he He. apply published_other; [|by apply W4].
    intros ->. assert (deleted_device_heads m !! d = None) by (apply W5; eauto).
    unfold m', published in He. cbn in He. congruence.
  - intros e. unfold m', published. cbn [device_heads deleted_device_heads set_commit_groups set_device_heads].
    intros He. apply W5. destruct (decide (d = e)) as [->|Hne]; [by eauto|].
    by rewrite lookup_insert_ne in He.
  - intros k c Hk. destruct (W6 _ _ Hk) as [Hid Hb]. split; [done|]. intros e Ho.
    destruct (Hb e Ho) as (Hseq & Ht & r & Hr & Hat). unfold m', published. cbn.
    split; [lia|]. split; [done|]. exists r. split; [done|]. apply published_roots_at; [lia|done].
  - unfold m' at 2, published. cbn. apply Forall_app. split.
    + eapply Forall_impl; [exact W7|]. intros c (? & ? & ? & Hs). unfold commit_ok.
      rewrite published_device_roots. cbn. split_and!; try done; try lia. by case_decide.
    + eapply Forall_impl; [exact published_new|]. intros c (Hs & Hd & Hp & Ht).
      unfold commit_ok. rewrite published_device_roots, decide_True by done. cbn.
      split_and!; try done; try lia.
Qed.
End published.

(** ** New devices *)

(** The state after [install_device] and [checkpoint_of_head]. *)
Definition new_device (m : MetadataInner) (h : DeviceHead) (spec : DeviceSpec) : MetadataInner :=
  let k := next_checkpoint_id m in
  set_checkpoints (<[k := mkCheckpoint k (dh_latest_commit h) (dh_latest_commit h)
    (OwnBlockDevice (dh_device_id h)) (CrBlockShard (dh_shard_roots h))]> (checkpoints m))
  (set_next_checkpoint_id (k + 1)
  (set_device_heads (<[dh_device_id h := h]> (device_heads m))
  (set_device_specs (<[dh_device_id h := spec]> (device_specs m)) m))).

(** A later state of the plane: nothing of the history is lost. *)
Record extends (m m' : MetadataInner) : Prop := {
  ex_roots : forall d T r, T < next_commit_seq m -> roots_at m d T r -> roots_at m' d T r;
  ex_cps : checkpoints m ⊆ checkpoints m';
  ex_nodes : metadata_nodes m ⊆ metadata_nodes m';
  ex_seq : next_commit_seq m <= next_commit_seq m';
  ex_commits : forall c, c ∈ shard_commits m -> c ∈ shard_commits m';
  ex_specs : forall d, is_Some (device_specs m !! d) -> is_Some (device_specs m' !! d);
}.

#[export] Instance extends_preorder : PreOrder extends.
Proof.
  split.
  - intros m. constructor; auto with lia.
  - intros m1 m2 m3 [A1 A2 A3 A4 A5 A6] [B1 B2 B3 B4 B5 B6].
    constructor; [|by etrans|by etrans|lia|by auto..]. intros d T r HT Hr. apply B1; [lia|]. by apply A1.
Qed.

Lemma frame_extends m m' : block_frame m m' -> extends m m'.
Proof.
  intros F. constructor; try apply F.
  - intros d T r _ Hr. by apply (roots_at_frame _ _ _ _ _ F).
  - by rewrite (bf_commits _ _ F).
Qed.

Lemma published_extends config m d h intent roots ups :
  plane_wf config m -> device_heads m !! d = Some h ->
  Forall (fun u : Z * Z * Z => 0 <= u.1.1) ups ->
  replay (dh_shard_roots h) (commit_of (next_commit_seq m) (next_commit_group_id m) d <$> ups) =
    Ok roots ->
  extends m (published m d h intent roots ups).
Proof.
  intros. constructor; [|done|done|cbn; lia| |done].
  - intros. by eapply published_roots_at.
  - intros c Hc. cbn. apply elem_of_app. by left.
Qed.

Section new_device.
Context (config : LocalStoreConfig) (m : MetadataInner) (h : DeviceHead) (spec : DeviceSpec).
Hypothesis Hwf : plane_wf config m.
Hypothesis Hfresh : device_roots m (dh_device_id h) = None.
Hypothesis Hid : dh_device_id h < next_device_id m.
Hypothesis Hgen : dh_generation h = 0.
Hypothesis Hlen : Z.of_nat (length (dh_shard_roots h)) = shard_count config.
Hypothesis Hroots : Forall (fun r => is_Some (metadata_nodes m !! r)) (dh_shard_roots h).
Hypothesis Hseq : 0 <= dh_latest_commit h < next_commit_seq m.

Let d := dh_device_id h.
Let m' := new_device m h spec.

Lemma fresh_no_commits c : c ∈ shard_commits m -> sc_device_id c <> d.
Proof using Hwf Hfresh.
  intros Hc Hd. pose proof (pw_commits _ _ Hwf) as W. rewrite Forall_forall in W.
  destruct (W c Hc) as (_ & _ & _ & [? Hs]). rewrite Hd in Hs. unfold d in Hs. congruence.
Qed.

Lemma fresh_no_checkpoints k c : checkpoints m !! k = Some c -> cp_owner c <> OwnBlockDevice d.
Proof using Hwf Hfresh.
  intros Hk Ho. destruct (pw_checkpoints _ _ Hwf _ _ Hk) as [_ Hb].
  destruct (Hb _ Ho) as (_ & _ & r & _ & cur & Hcur & _). unfold d in Hcur. congruence.
Qed.

Lemma new_device_roots e :
  device_roots m' e = if decide (e = d) then Some (dh_shard_roots h) else device_roots m e.
Proof using Type.
  unfold device_roots, m', new_device. cbn. fold d. case_decide as He.
  - subst e. by rewrite lookup_insert_eq.
  - by rewrite lookup_insert_ne.
Qed.

Lemma new_device_roots_at_other e T r : e <> d -> roots_at m' e T r <-> roots_at m e T r.
Proof using Type.
  intros He. unfold roots_at. rewrite new_device_roots, decide_False by done. done.
Qed.

Lemma new_device_roots_at T r : roots_at m' d T r <-> r = dh_shard_roots h.
Proof using Hwf Hfresh.
  unfold roots_at. rewrite new_device_roots, decide_True by done.
  assert (Hnil : commits_after m' d T = []).
  { apply filter_none. rewrite Forall_forall. intros c [Hc Hd]%elem_of_device_commits.
    by destruct (fresh_no_commits c). }
  rewrite Hnil. cbn. split; [by intros (? & [= <-] & [= ->])|intros ->; eauto].
Qed.

Lemma new_device_extends : extends m m'.
Proof using Hwf Hfresh.
  constructor; [| |done|cbn; lia|done|].
  - intros e T r _ Hr. destruct (decide (e = d)) as [->|He].
    + destruct Hr as (cur & Hcur & _). unfold d in Hcur. congruence.
    + by apply new_device_roots_at_other.
  - unfold m', new_device. cbn. apply insert_subseteq, eq_None_not_Some. intros Hs.
    destruct (pw_fresh _ _ Hwf) as [_ Hc]. specialize (Hc _ Hs). lia.
  - intros e He. unfold m', new_device. cbn. apply lookup_insert_is_Some'. by right.
Qed.

Lemma new_device_checkpoint k c :
  checkpoints m' !! k = Some c ->
  checkpoints m !! k = Some c \/
  (k = next_checkpoint_id m /\ cp_checkpoint_id c = k /\ cp_owner c = OwnBlockDevice d /\
   cp_commit_seq c = dh_latest_commit h /\ cp_time c = dh_latest_commit h /\
   cp_roots c = CrBlockShard (dh_shard_roots h)).
Proof using Type.
  unfold m', new_device. cbn. intros [[<- <-]|[_ ?]]%lookup_insert_Some; [by right|by left].
Qed.

Lemma new_device_other e he : e <> d -> head_ok config m e he -> head_ok config m' e he.
Proof using Type.
  intros Hne (H1 & H2 & Hg & H3 & H4 & H5 & H6 & H7 & H8). unfold head_ok.
  split_and!; try done; try (cbn; lia).
  - unfold m', new_device. cbn. by rewrite lookup_insert_ne.
  - intros k c [Hk|(_ & _ & Ho & _)]%new_device_checkpoint Ho'; [by eapply H8|congruence].
Qed.

Lemma new_device_wf : plane_wf config m'.
Proof using Hwf Hfresh Hid Hgen Hlen Hroots Hseq.
  destruct Hwf as [W1 W2 W3 W4 W5 W6 W7]. constructor.
  - done.
  - destruct W2 as [Hn Hc]. split; [done|]. unfold m', new_device. cbn. intros k.
    rewrite lookup_insert_is_Some'. intros [->|Hk]; [lia|]. specialize (Hc _ Hk). lia.
  - intros e he. unfold m', new_device. cbn [device_heads set_checkpoints set_next_checkpoint_id set_device_heads].
    intros [[<- <-]|[Hne He]]%lookup_insert_Some.
    + unfold head_ok. split_and!; try done; try (cbn; lia).
      * unfold m', new_device. cbn. rewrite lookup_insert_eq. eauto.
      * intros c Hc Hd. by destruct (fresh_no_commits c).
      * intros k c [Hk|(_ & _ & _ & -> & _)]%new_device_checkpoint Ho; [|lia].
        by destruct (fresh_no_checkpoints k c).
    + apply new_device_other; [done|by apply W3].
  - intros e he He. apply new_device_other; [|by apply W4].
    intros ->. unfold m', new_device in He. cbn in He. unfold device_roots in Hfresh.
    fold d in Hfresh. rewrite He in Hfresh. by destruct (device_heads m !! d).
  - intros e. unfold m', new_device.
    cbn [device_heads deleted_device_heads set_checkpoints set_next_checkpoint_id set_device_heads].
    destruct (decide (d = e)) as [<-|Hne].
    + intros _. unfold device_roots in Hfresh. fold d in Hfresh. cbn.
      destruct (device_heads m !! d); [done|]. by destruct (deleted_device_heads m !! d).
    + rewrite lookup_insert_ne by done. apply W5.
  - intros k c [Hk|(-> & Hk' & Ho & Hs & Ht & Hr)]%new_device_checkpoint.
    + destruct (W6 _ _ Hk) as [Hk' Hb]. split; [done|]. intros e Ho.
      destruct (Hb e Ho) as (? & ? & r & ? & Hat). split; [done|]. split; [done|].
      exists r. split; [done|]. apply new_device_roots_at_other; [|done].
      intros ->. by destruct (fresh_no_checkpoints k c).
    + split; [done|]. intros e Ho'. assert (e = d) as -> by congruence.
      rewrite Hs, Ht. split; [cbn; lia|]. split; [done|]. eexists. split; [done|].
      by apply new_device_roots_at.
  - eapply Forall_impl; [exact W7|]. intros c (? & ? & ? & Hs). unfold commit_ok.
    rewrite new_device_roots. split_and!; try done; try (cbn; lia). by case_decide.
Qed.
End new_device.

(** The facts about a device that an operation added. *)
Definition added (config : LocalStoreConfig) (m m' : MetadataInner) (h : DeviceHead) : Prop :=
  plane_wf config m' /\ extends m m' /\ device_roots m (dh_device_id h) = None /\
  device_heads m' = <[dh_device_id h := h]> (device_heads m) /\
  deleted_device_heads m' = deleted_device_heads m /\
  (forall T r, roots_at m' (dh_device_id h) T r <-> r = dh_shard_roots h) /\
  (exists k c, checkpoints m' !! k = Some c /\ cp_owner c = OwnBlockDevice (dh_device_id h) /\
    cp_commit_seq c = dh_latest_commit h) /\
  forall k c, checkpoints m' !! k = Some c -> cp_owner c = OwnBlockDevice (dh_device_id h) ->
    cp_commit_seq c = dh_latest_commit h.

(** What becomes of the plane when a device is added. *)
Lemma device_added config m m1 h spec f :
  plane_wf config m -> frame_rel m m1 -> device_roots m (dh_device_id h) = None ->
  dh_device_id h < next_device_id m1 -> dh_generation h = 0 ->
  Z.of_nat (length (dh_shard_roots h)) = shard_count config ->
  Forall (fun r => is_Some (metadata_nodes m1 !! r)) (dh_shard_roots h) ->
  0 <= dh_latest_commit h < next_commit_seq m1 ->
  added config m (set_fork_records f (new_device m1 h spec)) h.
Proof.
  intros Hwf HR Hfresh Hid Hgen Hlen Hroots Hseq. set (m' := set_fork_records _ _). unfold added.
  destruct (HR (pw_fresh _ _ Hwf)) as [_ F]. pose proof (plane_wf_frame _ _ _ Hwf HR) as Hwf1.
  assert (Hfresh1 : device_roots m1 (dh_device_id h) = None).
  { unfold device_roots in *. by rewrite (bf_heads _ _ F), (bf_deleted _ _ F). }
  assert (HF : frame_rel (new_device m1 h spec) m') by frame_set.
  assert (Hwf2 : plane_wf config (new_device m1 h spec)) by by apply new_device_wf.
  destruct (HF (pw_fresh _ _ Hwf2)) as [_ F2]. split_and!; [| |done|..].
  - by apply (plane_wf_frame _ _ _ Hwf2).
  - etrans; [by apply frame_extends|]. etrans; [by eapply new_device_extends|by apply frame_extends].
  - unfold m', new_device. cbn. by rewrite (bf_heads _ _ F).
  - unfold m', new_device. cbn. by rewrite (bf_deleted _ _ F).
  - intros T r. rewrite (roots_at_frame _ _ _ _ _ F2). by eapply new_device_roots_at.
  - eexists (next_checkpoint_id m1), _. split_and!; [apply lookup_insert_eq|done..].
  - intros k c [Hk|(_ & _ & _ & ? & _)]%(new_device_checkpoint m1 h spec) Ho; [|done].
    by destruct (fresh_no_checkpoints config m1 h Hwf1 Hfresh1 k c Hk).
Qed.

Lemma reserve_device_id_frame id : st_rel frame_rel (reserve_device_id_at_least_after id).
Proof.
  intros s r s'. unfold reserve_device_id_at_least_after, reserve_at_least_after, st_gets, st_lift,
    st_modify, mret, ST_ret, mbind, ST_bind. destruct (_ <=? _) eqn:Hle; bool_prop.
  - unfold checked_add. destruct (_ <? _); cbn [ok_or]; intros [= _ <-]; [|reflexivity]. frame_set.
  - intros [= _ <-]. reflexivity.
Qed.
#[export] Hint Resolve reserve_device_id_frame : frame.

Lemma reserve_device_id_Ok id m u m' :
  reserve_device_id_at_least_after id m = (Ok u, m') -> id < next_device_id m'.
Proof.
  unfold reserve_device_id_at_least_after, reserve_at_least_after, st_gets, st_lift,
    st_modify, mret, ST_ret, mbind, ST_bind. destruct (_ <=? _) eqn:Hle; bool_prop.
  - unfold checked_add. destruct (_ <? _); cbn [ok_or]; intros [= _ <-]. cbn. lia.
  - intros [= _ <-]. lia.
Qed.

Lemma fresh_device_id config m d :
  plane_wf config m -> next_device_id m <= d -> device_roots m d = None.
Proof.
  intros Hwf Hd. unfold device_roots. destruct (device_heads m !! d) as [h|] eqn:Hh.
  - destruct (pw_heads _ _ Hwf _ _ Hh) as (_ & ? & _). lia.
  - destruct (deleted_device_heads m !! d) as [h|] eqn:Hh'; [|done].
    destruct (pw_deleted _ _ Hwf _ _ Hh') as (_ & ? & _). lia.
Qed.

(** [st_err_tac]: the failing runs of an operation stop before its first change
    to the timeline. *)
Ltac st_err_step :=
  match goal with
  | |- st_err _ (install_device _ _ ≫= _) => apply st_err_never; intros ?; reflexivity
  | |- st_err _ (_ ≫= _) => apply st_err_bind; [typeclasses eauto|st_rel_tac; auto with frame|intros ?]
  | |- st_err _ (let _ := _ in _) => cbv zeta
  end.
Ltac st_err_tac := repeat st_err_step.

Lemma create_device_err config spec : st_err frame_rel (create_device config spec).
Proof. unfold create_device. st_err_tac. Qed.
Lemma fork_device_err config source target : st_err frame_rel (fork_device config source target).
Proof. unfold fork_device. st_err_tac. Qed.
Lemma restore_device_err config source point : st_err frame_rel (restore_device config source point).
Proof. unfold restore_device. st_err_tac. Qed.

Lemma alloc_commit_seq_Ok m seq m' :
  alloc_commit_seq m = (Ok seq, m') ->
  seq = next_commit_seq m /\ next_commit_seq m + 1 < U64_MOD /\
  m' = set_next_commit_seq (next_commit_seq m + 1) m.
Proof.
  unfold alloc_commit_seq, alloc_checked. intros. ok_inv. done.
Qed.

Lemma DeviceHead_validate_Ok h n u :
  DeviceHead_validate h n = Ok u -> Z.of_nat (length (dh_shard_roots h)) = n.
Proof. unfold DeviceHead_validate. intros. ok_inv. by bool_prop. Qed.

(** The id of a new device: unused, and below the next id to allocate. *)
Lemma fork_target_Ok config m target t m1 :
  plane_wf config m ->
  (match target with
   | Some target =>
       st_reject_if (bool_decide (is_Some (device_heads m !! target)) ||
           bool_decide (is_Some (deleted_device_heads m !! target)))
         (Conflict "target device already exists");;
       reserve_device_id_at_least_after target;;
       mret target
   | None => alloc_device_id
   end) m = (Ok t, m1) ->
  frame_rel m m1 /\ device_roots m t = None /\ t < next_device_id m1 /\
  next_commit_seq m1 = next_commit_seq m.
Proof.
  intros Hwf. destruct target as [t0|].
  - intros (u & s1 & H1 & H)%st_bind_Ok. unfold st_reject_if, st_lift in H1.
    injection H1 as H1 <-. apply reject_if_Ok, orb_false_elim in H1 as [Hh Hd].
    apply st_bind_Ok in H as (u' & s2 & H2 & H). unfold mret, ST_ret in H. injection H as <- <-.
    split_and!.
    + by apply (reserve_device_id_frame _ _ _ _ H2).
    + unfold device_roots. apply bool_decide_eq_false in Hh, Hd.
      rewrite (proj2 (eq_None_not_Some _) Hh), (proj2 (eq_None_not_Some _) Hd). done.
    + by apply (reserve_device_id_Ok _ _ _ _ H2).
    + unfold reserve_device_id_at_least_after, reserve_at_least_after in H2.
      apply st_bind_Ok in H2 as (cur & s3 & H3 & H2). unfold st_gets in H3. injection H3 as <- <-.
      destruct (_ <=? _); ok_inv; done.
  - intros H. split_and!.
    + by apply (alloc_device_id_frame _ _ _ H).
    + unfold alloc_device_id, alloc in H. ok_inv. by eapply fresh_device_id.
    + unfold alloc_device_id, alloc in H. ok_inv. cbn. lia.
    + unfold alloc_device_id, alloc in H. ok_inv. done.
Qed.

Lemma run_eq {S A} (m : ST S A) s r s' r0 s0 :
  m s = (r0, s0) -> m s = (r, s') -> r = r0 /\ s' = s0.
Proof. intros -> [= -> ->]. done. Qed.

(** The tails of [fork_device] and of [create_device] and [restore_device]. *)
Lemma install_fork_run head spec f m r m' :
  (install_device head spec;; st_modify (fun m => set_fork_records (f (fork_records m)) m);;
   checkpoint_of_head head;; mret head) m = (r, m') ->
  r = Ok head /\ m' = set_fork_records (f (fork_records m)) (new_device m head spec).
Proof.
  apply run_eq. destruct m. reflexivity.
Qed.
Lemma install_run head spec m r m' :
  (install_device head spec;; checkpoint_of_head head;; mret head) m = (r, m') ->
  r = Ok head /\ m' = set_fork_records (fork_records m) (new_device m head spec).
Proof.
  apply run_eq. destruct m. reflexivity.
Qed.

Lemma fork_device_Ok config source target m h m' :
  plane_wf config m -> fork_device config source target m = (Ok h, m') ->
  exists hs, device_heads m !! source = Some hs /\
    (forall t, target = Some t -> dh_device_id h = t) /\
    dh_shard_roots h = dh_shard_roots hs /\ dh_latest_commit h = next_commit_seq m /\
    added config m m' h.
Proof.
  intros Hwf. unfold fork_device. intros H.
  apply st_bind_Ok in H as (i & ? & Hg & H). injection Hg as <- <-.
  apply st_bind_Ok in H as (hs & ? & Hg & H). unfold st_lift, get_head in Hg.
  injection Hg as Hhs%ok_or_Ok <-.
  apply st_bind_Ok in H as (sp & ? & Hg & H). injection Hg as Hsp%ok_or_Ok <-.
  apply st_bind_Ok in H as (t & m1 & Ht & H).
  apply st_bind_Ok in H as (seq & m2 & Hseq & H).
  apply st_bind_Ok in H as (u & ? & Hg & H). injection Hg as Hlen%DeviceHead_validate_Ok <-.
  apply (install_fork_run _ _ (fun f => <[seq := mkForkRecord seq source t (dh_shard_roots hs)]> f))
    in H as [[= ->] ->].
  pose proof (fork_target_Ok _ _ _ _ _ Hwf Ht) as (HR & Hfresh & Hlt & Hseq1).
  assert (HR2 : frame_rel m m2) by (etrans; [exact HR|by apply (alloc_commit_seq_frame _ _ _ Hseq)]).
  apply alloc_commit_seq_Ok in Hseq as (-> & Hov & ->).
  exists hs. split_and!; try done.
  { intros t' ->. apply st_bind_Ok in Ht as (? & ? & _ & Ht).
    apply st_bind_Ok in Ht as (? & ? & _ & Ht). by injection Ht as <- _. }
  eapply device_added; [done..| |].
  - destruct (pw_heads _ _ Hwf _ _ Hhs) as (_ & _ & _ & _ & Hn & _).
    destruct (HR2 (pw_fresh _ _ Hwf)) as [_ F]. eapply Forall_impl; [exact Hn|].
    intros r [n Hr]. exists n. by eapply lookup_weaken, (bf_nodes _ _ F).
  - pose proof (pw_seq _ _ Hwf). cbn. rewrite Hseq1. lia.
Qed.

Lemma roots_at_nodes config m d T r :
  plane_wf config m -> roots_at m d T r -> length r = Z.to_nat (shard_count config).
Proof.
  intros Hwf (cur & Hcur & Hrep). apply replay_length in Hrep. rewrite <-Hrep.
  unfold device_roots in Hcur. destruct (device_heads m !! d) as [h|] eqn:Hh.
  - injection Hcur as <-. destruct (pw_heads _ _ Hwf _ _ Hh) as (_ & _ & _ & ? & _). lia.
  - destruct (deleted_device_heads m !! d) as [h|] eqn:Hh'; [|done]. injection Hcur as <-.
    destruct (pw_deleted _ _ Hwf _ _ Hh') as (_ & _ & _ & ? & _). lia.
Qed.

Lemma restore_device_Ok config source point m h m' :
  plane_wf config m -> restore_device config source point m = (Ok h, m') ->
  exists T, target_commit_for_restore m source point = Ok T /\
    replay_device_roots m source T None = Ok (dh_shard_roots h) /\
    Forall (fun r => is_Some (metadata_nodes m !! r)) (dh_shard_roots h) /\
    added config m m' h.
Proof.
  intros Hwf. unfold restore_device. intros H.
  apply st_bind_Ok in H as (i & ? & Hg & H). injection Hg as <- <-.
  apply st_bind_Ok in H as (sp & ? & Hg & H). injection Hg as Hsp%ok_or_Ok <-.
  apply st_bind_Ok in H as (T & ? & Hg & H). injection Hg as HT <-.
  apply st_bind_Ok in H as (roots & ? & Hg & H). injection Hg as Hroots <-.
  apply st_bind_Ok in H as (u & ? & Hg & H). injection Hg as Hn%try_for_Ok <-.
  apply st_bind_Ok in H as (t & m1 & Ht & H).
  apply st_bind_Ok in H as (seq & m2 & Hseq & H).
  apply st_bind_Ok in H as (u' & ? & Hg & H). injection Hg as Hlen%DeviceHead_validate_Ok <-.
  apply install_run in H as [[= ->] ->].
  pose proof (fork_target_Ok _ _ None _ _ Hwf Ht) as (HR & Hfresh & Hlt & Hseq1).
  assert (HR2 : frame_rel m m2) by (etrans; [exact HR|by apply (alloc_commit_seq_frame _ _ _ Hseq)]).
  apply alloc_commit_seq_Ok in Hseq as (-> & Hov & ->).
  assert (Hin : Forall (fun r => is_Some (metadata_nodes m !! r)) roots).
  { eapply Forall_impl; [exact Hn|]. intros r Hr. apply reject_if_Ok, bool_decide_eq_false in Hr.
    by apply not_eq_None_Some. }
  exists T. split_and!; try done. eapply device_added; [done..| |].
  - destruct (HR2 (pw_fresh _ _ Hwf)) as [_ F]. eapply Forall_impl; [exact Hin|].
    intros r [n Hr]. exists n. by eapply lookup_weaken, (bf_nodes _ _ F).
  - pose proof (pw_seq _ _ Hwf). cbn. rewrite Hseq1. lia.
Qed.

Lemma insert_node_stored n m u m' :
  insert_metadata_node n m = (Ok u, m') -> metadata_nodes m' !! mn_node_id n = Some n.
Proof. unfold insert_metadata_node. intros. ok_inv. by rewrite lookup_insert_eq. Qed.

(** Trees made by [create_empty_tree] are in the store. *)
Lemma create_empty_tree_stored fuel config range m n m' :
  create_empty_tree fuel config range m = (Ok n, m') ->
  metadata_nodes m' !! mn_node_id n = Some n.
Proof.
  destruct fuel as [|fuel]; cbn [create_empty_tree]; [done|].
  intros (? & ? & _ & H)%st_bind_Ok. destruct (_ <=? _).
  - apply st_bind_Ok in H as (id & s1 & _ & H). apply st_bind_Ok in H as (? & s2 & _ & H).
    apply st_bind_Ok in H as (? & s3 & Hi & H). unfold mret, ST_ret in H. injection H as <- <-.
    by apply insert_node_stored in Hi.
  - apply st_bind_Ok in H as (cs & s0 & _ & H). apply st_bind_Ok in H as (id & s1 & _ & H).
    apply st_bind_Ok in H as (? & s2 & _ & H).
    apply st_bind_Ok in H as (? & s3 & Hi & H). unfold mret, ST_ret in H. injection H as <- <-.
    by apply insert_node_stored in Hi.
Qed.

(** A loop whose every step leaves a fact that later steps keep. *)
Lemma st_map_Forall {S A B} (R : relation S) `{!PreOrder R} (P : B -> S -> Prop)
    (f : A -> ST S B) l s ys s' :
  (forall x, st_rel R (f x)) ->
  (forall b s1 s2, R s1 s2 -> P b s1 -> P b s2) ->
  (forall x s1 b s2, R s s1 -> f x s1 = (Ok b, s2) -> P b s2) ->
  st_map f l s = (Ok ys, s') -> R s s' /\ Forall (fun b => P b s') ys /\ length ys = length l.
Proof.
  intros HR Hmono Hf. assert (Hgen : forall s1, R s s1 -> st_map f l s1 = (Ok ys, s') ->
    R s1 s' /\ Forall (fun b => P b s') ys /\ length ys = length l).
  2:{ apply Hgen. reflexivity. }
  revert ys. induction l as [|x l IH]; intros ys s1 H1; cbn [st_map].
  { unfold mret, ST_ret. intros [= <- <-]. split_and!; [reflexivity|constructor|done]. }
  intros (b & s2 & Hb & H)%st_bind_Ok. apply st_bind_Ok in H as (bs & s3 & Hbs & H).
  unfold mret, ST_ret in H. injection H as <- <-.
  assert (H12 : R s1 s2) by by eapply HR.
  destruct (IH bs s2) as (H23 & Hbs' & Hlen); [by etrans|done|]. split_and!.
  - by etrans.
  - constructor; [|done]. eapply Hmono; [exact H23|]. by eapply Hf.
  - cbn. by f_equal.
Qed.

Lemma create_device_Ok config spec m h m' :
  plane_wf config m -> create_device config spec m = (Ok h, m') ->
  dh_device_id h = next_device_id m /\ dh_generation h = 0 /\ dh_latest_commit h = 0 /\
  added config m m' h.
Proof.
  intros Hwf. unfold create_device. intros H.
  apply st_bind_Ok in H as (? & ? & Hg & H). injection Hg as _ <-.
  apply st_bind_Ok in H as (? & ? & Hg & H). injection Hg as _ <-.
  apply st_bind_Ok in H as (? & ? & Hg & H). injection Hg as _ <-.
  apply st_bind_Ok in H as (t & m1 & Ht & H).
  apply st_bind_Ok in H as (roots & m2 & Hmap & H).
  apply st_bind_Ok in H as (u' & ? & Hg & H). injection Hg as Hlen%DeviceHead_validate_Ok <-.
  apply install_run in H as [[= ->] ->].
  pose proof (fork_target_Ok _ _ None _ _ Hwf Ht) as (HR & Hfresh & Hlt & Hseq1).
  destruct (HR (pw_fresh _ _ Hwf)) as [Hf1 F1].
  apply (st_map_Forall frame_rel (fun b s => ids_fresh s /\ is_Some (metadata_nodes s !! b)))
    in Hmap as (HR2 & Hst & _).
  - pose proof (transitivity HR HR2) as HR3.
    destruct (HR3 (pw_fresh _ _ Hwf)) as [Hf2 F]. destruct (HR2 Hf1) as [_ F2].
    split_and!; try done.
    + unfold alloc_device_id, alloc in Ht. by ok_inv.
    + eapply device_added; [done..| | | | |]; cbn; try done.
      * pose proof (bf_dev _ _ F2). lia.
      * eapply Forall_impl; [exact Hst|]. intros r Hr. apply Hr.
      * pose proof (pw_seq _ _ Hwf). pose proof (bf_seq _ _ F). lia.
  - intros i. st_rel_tac. auto with frame.
  - intros b s1 s2 H12 [Hf [n Hn]]. destruct (H12 Hf) as [Hf' F]. split; [done|].
    exists n. by eapply lookup_weaken, (bf_nodes _ _ F).
  - intros i s1 b s2 H1 Hrun.
    apply st_bind_Ok in Hrun as (o & ? & Hg & Hrun). injection Hg as _ <-.
    apply st_bind_Ok in Hrun as (n & s3 & Hc & Hrun). unfold mret, ST_ret in Hrun.
    injection Hrun as <- <-. destruct (H1 Hf1) as [Hfs _].
    destruct (create_empty_tree_frame _ _ _ _ _ _ Hc Hfs) as [? _]. split; [done|].
    apply create_empty_tree_stored in Hc. by eauto.
Qed.

(** At its latest commit a device has the roots of its head. *)
Lemma roots_at_latest config m d h T r :
  plane_wf config m -> device_heads m !! d = Some h \/ deleted_device_heads m !! d = Some h ->
  dh_latest_commit h <= T -> roots_at m d T r <-> r = dh_shard_roots h.
Proof.
  intros Hwf Hh HT. assert (Hok : head_ok config m d h).
  { destruct Hh as [Hh|Hh]; [by apply (pw_heads _ _ Hwf)|by apply (pw_deleted _ _ Hwf)]. }
  assert (Hdr : device_roots m d = Some (dh_shard_roots h)).
  { unfold device_roots. destruct Hh as [->|Hh]; [done|].
    destruct (device_heads m !! d) eqn:E; [|by rewrite Hh].
    rewrite (pw_disjoint _ _ Hwf) in Hh by eauto. done. }
  destruct Hok as (_ & _ & _ & _ & _ & _ & _ & Hc & _).
  assert (Hnil : commits_after m d T = []).
  { apply filter_none. rewrite Forall_forall. intros c [Hin Hd]%elem_of_device_commits.
    specialize (Hc c Hin Hd). lia. }
  unfold roots_at. rewrite Hdr, Hnil. cbn.
  split; [by intros (? & [= <-] & [= ->])|intros ->; eauto].
Qed.

(** The state after a successful delete. *)
Definition removed (m : MetadataInner) (d : DeviceId) (h : DeviceHead) : MetadataInner :=
  let seq := next_commit_seq m in
  set_delete_records (<[seq := mkDeleteRecord seq seq d (dh_shard_roots h)]> (delete_records m))
  (set_deleted_device_heads (<[d := mkDeviceHead (dh_device_id h) (dh_generation h)
    (dh_shard_roots h) seq]> (deleted_device_heads m))
  (set_device_heads (delete d (device_heads m))
  (set_next_commit_seq (seq + 1) m))).

Lemma delete_device_cases d m r m' :
  delete_device d m = (r, m') ->
  ((exists e, r = Err e) /\ m' = m) \/
  exists h, device_heads m !! d = Some h /\ next_commit_seq m + 1 < U64_MOD /\
    r = Ok (mkDeleteResult d (next_commit_seq m)) /\ m' = removed m d h.
Proof.
  unfold delete_device, get_head, st_get, st_lift, st_modify, alloc_commit_seq, alloc_checked, st_gets,
    mret, ST_ret, mbind, ST_bind.
  destruct (device_heads m !! d) as [h|]; cbn [ok_or]; [|intros [= <- <-]; by eauto].
  unfold checked_add. destruct (_ + 1 <? U64_MOD) eqn:Hs; cbn [ok_or]; bool_prop;
    [|intros [= <- <-]; by eauto].
  intros H. right. exists h. injection H as <- <-. done.
Qed.

Section removed.
Context (config : LocalStoreConfig) (m : MetadataInner) (d : DeviceId) (h : DeviceHead).
Hypothesis Hwf : plane_wf config m.
Hypothesis Hh : device_heads m !! d = Some h.
Let m' := removed m d h.

Lemma removed_device_roots e : device_roots m' e = device_roots m e.
Proof using Hh.
  unfold device_roots, m', removed. cbn. destruct (decide (d = e)) as [<-|Hne].
  - by rewrite lookup_delete_eq, lookup_insert_eq, Hh.
  - by rewrite lookup_delete_ne, lookup_insert_ne.
Qed.

Lemma removed_roots_at e T r : roots_at m' e T r <-> roots_at m e T r.
Proof using Hh. unfold roots_at. by rewrite removed_device_roots. Qed.

Lemma removed_head e he : head_ok config m e he -> head_ok config m' e he.
Proof using Type.
  intros (H1 & H2 & Hg & H3 & H4 & H5 & H6 & H7 & H8).
  unfold head_ok. split_and!; try done; try (cbn; lia).
Qed.

Lemma removed_extends : extends m m'.
Proof using Hh.
  constructor; [|done|done|cbn; lia|done|done]. intros. by apply removed_roots_at.
Qed.

Lemma removed_wf : plane_wf config m'.
Proof using Hwf Hh.
  destruct Hwf as [W1 W2 W3 W4 W5 W6 W7]. constructor.
  - cbn. lia.
  - exact W2.
  - intros e he He. cbn in He. apply lookup_delete_Some in He as [_ He]. by apply removed_head, W3.
  - intros e he He. cbn in He. apply lookup_insert_Some in He as [[<- <-]|[_ He]]; [|by apply removed_head, W4].
    destruct (W3 _ _ Hh) as (H1 & H2 & Hg & H3 & H4 & H5 & H6 & H7 & H8).
    unfold head_ok. split_and!; try done; try (cbn; lia).
    + intros c Hc Hd. specialize (H7 c Hc Hd). cbn. lia.
    + intros k c Hk Ho. specialize (H8 k c Hk Ho). cbn. lia.
  - intros e. unfold m', removed. cbn [device_heads deleted_device_heads set_delete_records
      set_deleted_device_heads set_device_heads]. intros [he [Hne He]%lookup_delete_Some].
    rewrite lookup_insert_ne by done. apply W5. by eexists.
  - intros k c Hk. destruct (W6 _ _ Hk) as [Hid Hb]. split; [done|]. intros e Ho.
    destruct (Hb e Ho) as (? & ? & r & ? & ?). split; [cbn; lia|]. split; [done|].
    exists r. split; [done|]. by apply removed_roots_at.
  - eapply Forall_impl; [exact W7|]. intros c (? & ? & ? & ?). unfold commit_ok.
    rewrite removed_device_roots. split_and!; try done; cbn; lia.
Qed.
End removed.

(** The state after a checkpoint of a device at a commit. *)
Definition checkpoint_put (m : MetadataInner) (d : DeviceId) (T : CommitSeq)
    (r : list MetadataNodeId) : MetadataInner :=
  let k := next_checkpoint_id m in
  set_checkpoints (<[k := mkCheckpoint k T T (OwnBlockDevice d) (CrBlockShard r)]> (checkpoints m))
  (set_next_checkpoint_id (k + 1) m).

Lemma insert_block_checkpoint_run d T r m :
  insert_checkpoint (OwnBlockDevice d) T (CrBlockShard r) m =
  (Ok (next_checkpoint_id m), checkpoint_put m d T r).
Proof. reflexivity. Qed.

Lemma checkpoint_cases d m r m' :
  checkpoint d m = (r, m') ->
  ((exists e, r = Err e) /\ m' = m) \/
  exists h, device_heads m !! d = Some h /\ r = Ok (next_checkpoint_id m) /\
    m' = checkpoint_put m d (dh_latest_commit h) (dh_shard_roots h).
Proof.
  unfold checkpoint, get_head, st_ask, mbind, ST_bind.
  destruct (device_heads m !! d) as [h|]; cbn [ok_or]; [|intros [= <- <-]; by eauto].
  rewrite insert_block_checkpoint_run. intros [= <- <-]. right. by exists h.
Qed.

Section checkpoint_put.
Context (config : LocalStoreConfig) (m : MetadataInner) (d : DeviceId) (T : CommitSeq)
  (r : list MetadataNodeId).
Hypothesis Hwf : plane_wf config m.
Hypothesis Hat : roots_at m d T r.
Hypothesis HT : 0 <= T.
Hypothesis Hlatest : forall h, device_heads m !! d = Some h \/ deleted_device_heads m !! d = Some h ->
  T <= dh_latest_commit h.
Let m' := checkpoint_put m d T r.

Lemma checkpoint_put_extends : extends m m'.
Proof using Hwf.
  constructor; [done| |done|done|done|done].
  apply insert_subseteq, eq_None_not_Some. intros Hs.
  destruct (pw_fresh _ _ Hwf) as [_ Hc]. specialize (Hc _ Hs). lia.
Qed.

Lemma checkpoint_put_lookup k c :
  checkpoints m' !! k = Some c ->
  checkpoints m !! k = Some c \/
  (k = next_checkpoint_id m /\ cp_checkpoint_id c = k /\ cp_owner c = OwnBlockDevice d /\
   cp_commit_seq c = T /\ cp_time c = T /\ cp_roots c = CrBlockShard r).
Proof using Type.
  unfold m', checkpoint_put. cbn. intros [[<- <-]|[_ ?]]%lookup_insert_Some; [by right|by left].
Qed.

Lemma checkpoint_put_head e he :
  device_heads m !! e = Some he \/ deleted_device_heads m !! e = Some he -> head_ok config m' e he.
Proof using Hwf Hlatest.
  intros He. assert (Hok : head_ok config m e he).
  { destruct He; [by apply (pw_heads _ _ Hwf)|by apply (pw_deleted _ _ Hwf)]. }
  destruct Hok as (H1 & H2 & Hg & H3 & H4 & H5 & H6 & H7 & H8).
  unfold head_ok. split_and!; try done; try (cbn; lia).
  intros k c [Hk|(_ & _ & Ho & -> & _)]%checkpoint_put_lookup Ho'; [by eapply H8|].
  assert (e = d) as -> by congruence. by apply Hlatest.
Qed.

Lemma checkpoint_put_wf : plane_wf config m'.
Proof using Hwf Hat HT Hlatest.
  pose proof Hwf as [W1 W2 W3 W4 W5 W6 W7]. constructor.
  - done.
  - destruct W2 as [Hn Hc]. split; [done|]. unfold m', checkpoint_put. cbn. intros k.
    rewrite lookup_insert_is_Some'. intros [->|Hk]; [lia|]. specialize (Hc _ Hk). lia.
  - intros e he He. apply checkpoint_put_head. by left.
  - intros e he He. apply checkpoint_put_head. by right.
  - exact W5.
  - intros k c [Hk|(-> & Hk' & Ho & Hs & Ht & Hr)]%checkpoint_put_lookup; [by apply W6|].
    split; [done|]. intros e Ho'. assert (e = d) as -> by congruence. rewrite Hs, Ht.
    split; [|split; [done|by exists r]]. split; [done|].
    destruct Hat as (cur & Hcur & _). unfold device_roots in Hcur.
    destruct (device_heads m !! d) as [h|] eqn:Hh.
    + destruct (W3 _ _ Hh) as (_ & _ & _ & _ & _ & ? & _).
      pose proof (Hlatest h (or_introl eq_refl)). cbn. lia.
    + destruct (deleted_device_heads m !! d) as [h|] eqn:Hh'; [|done].
      destruct (W4 _ _ Hh') as (_ & _ & _ & _ & _ & ? & _).
      pose proof (Hlatest h (or_intror eq_refl)). cbn. lia.
  - exact W7.
Qed.
End checkpoint_put.

Lemma checkpoint_head_put config m d h :
  plane_wf config m -> device_heads m !! d = Some h ->
  let m' := checkpoint_put m d (dh_latest_commit h) (dh_shard_roots h) in
  plane_wf config m' /\ extends m m'.
Proof.
  intros Hwf Hh m'. split; [|by eapply checkpoint_put_extends].
  destruct (pw_heads _ _ Hwf _ _ Hh) as (_ & _ & _ & _ & _ & ? & _). apply checkpoint_put_wf; [done| |lia|].
  - apply (roots_at_latest config m d h); [done|by left|lia|done].
  - intros h' [Hh'|Hh'].
    + assert (h' = h) as -> by congruence. lia.
    + rewrite (pw_disjoint _ _ Hwf) in Hh' by eauto. done.
Qed.

(** Persisting a node under an id that was allocated. *)
Lemma persist_metadata_node_frame w m r m' :
  mn_node_id (nw_node w) < next_metadata_node_id m ->
  persist_metadata_node w m = (r, m') -> frame_rel m m'.
Proof.
  intros Hid. unfold persist_metadata_node, insert_metadata_node, st_get, st_lift, st_modify, mret, ST_ret,
    mbind, ST_bind. destruct (MetadataNode_validate _ _); [|intros [= _ <-]; reflexivity].
  destruct (metadata_nodes m !! _) as [n|] eqn:Hn.
  - case_bool_decide; intros [= _ <-]; reflexivity.
  - intros [= _ <-] [Hf Hc]. split; [split; cbn; [|done]|constructor; cbn; auto with lia].
    + intros id. rewrite lookup_insert_is_Some'. intros [<-|Hs]; [done|by apply Hf].
    + by apply insert_subseteq.
Qed.
