(* ===== verification/History.v ===== *)
(** * Histories of the metadata plane ([local/metadata_plane.rs])

    The operations of the plane as steps, the states they reach, and what holds
    along every history: the plane stays well formed, no commit of the past is
    ever changed, a device can be restored to any commit it was at, and an
    operation only touches the device it names. *)

From S2P Require Import Prelude Api Object Provider Config Streams Plane Timeline.

(** ** Steps *)

Inductive plane_op :=
  | PoCreateDevice (spec : DeviceSpec)
  | PoPublish (intent : CommitGroupIntent)
  | PoForkDevice (source : DeviceId) (target : option DeviceId)
  | PoRestoreDevice (source : DeviceId) (point : RestorePoint)
  | PoDeleteDevice (device_id : DeviceId)
  | PoCheckpoint (device_id : DeviceId)
  | PoAllocateNode (range : BlockRange) (kind : MetadataNodeKind)
  | PoPersistNode (write : MetadataNodeWrite)
  | PoCreateKeyspace
  | PoCreateFile (keyspace_id : KeyspaceId) (name : option string)
  | PoSnapshotKeyspace (source : KeyspaceId) (target : option KeyspaceId)
  | PoRestoreKeyspace (source : KeyspaceId) (point : RestorePoint)
  | PoCheckpointKeyspace (keyspace_id : KeyspaceId).

(** The state an operation leaves, whether it succeeds or not. *)
Definition plane_exec (config : LocalStoreConfig) (op : plane_op) (m : MetadataInner)
    : MetadataInner :=
  match op with
  | PoCreateDevice spec => (create_device config spec m).2
  | PoPublish intent => (publish_commit_group config intent m).2
  | PoForkDevice source target => (fork_device config source target m).2
  | PoRestoreDevice source point => (restore_device config source point m).2
  | PoDeleteDevice d => (delete_device d m).2
  | PoCheckpoint d => (checkpoint d m).2
  | PoAllocateNode range kind => (allocate_metadata_node range kind m).2
  | PoPersistNode write => (persist_metadata_node write m).2
  | PoCreateKeyspace => (create_keyspace config m).2
  | PoCreateFile k name => (create_file config k name m).2
  | PoSnapshotKeyspace source target => (snapshot_keyspace source target m).2
  | PoRestoreKeyspace source point => (restore_keyspace source point m).2
  | PoCheckpointKeyspace k => (checkpoint_keyspace k m).2
  end.

(** What the types and the callers guarantee: shard ids are unsigned, and a
    node is persisted under the id that was allocated for it. *)
Definition update_typed (u : RootUpdate) : Prop :=
  match u with RuBlockShard u => 0 <= sru_shard_id u | _ => True end.
Definition op_ok (m : MetadataInner) (op : plane_op) : Prop :=
  match op with
  | PoPublish intent => Forall update_typed (ci_updates intent)
  | PoPersistNode write => mn_node_id (nw_node write) < next_metadata_node_id m
  | _ => True
  end.

Definition plane_step (config : LocalStoreConfig) (m m' : MetadataInner) : Prop :=
  exists op, op_ok m op /\ m' = plane_exec config op m.

(** The states of a store that starts empty. *)
Definition plane_reachable (config : LocalStoreConfig) : MetadataInner -> Prop :=
  rtc (plane_step config) MetadataInner_new.

(** The device whose head an operation may change. *)
Definition op_device (op : plane_op) : option DeviceId :=
  match op with
  | PoPublish intent => match ci_owner intent with OwnBlockDevice d => Some d | _ => None end
  | PoDeleteDevice d => Some d
  | _ => None
  end.

(** ** Every live device can be replayed to its latest commit *)

Definition anchored_at (m : MetadataInner) (d : DeviceId) (T : CommitSeq) : Prop :=
  device_timeline_contains_commit m d T = true /\
  exists k c, checkpoints m !! k = Some c /\ cp_owner c = OwnBlockDevice d /\ cp_commit_seq c <= T.

Definition anchored (m : MetadataInner) : Prop :=
  forall d h, device_heads m !! d = Some h -> anchored_at m d (dh_latest_commit h).

Lemma timeline_contains_spec m d T :
  device_timeline_contains_commit m d T = true <->
  (exists k c, checkpoints m !! k = Some c /\ cp_owner c = OwnBlockDevice d /\ cp_commit_seq c = T) \/
  (exists c, c ∈ shard_commits m /\ sc_device_id c = d /\ sc_commit_seq c = T).
Proof.
  unfold device_timeline_contains_commit. rewrite orb_true_iff, !existsb_exists.
  setoid_rewrite andb_true_iff. setoid_rewrite bool_decide_eq_true. setoid_rewrite Z.eqb_eq.
  setoid_rewrite <-list_elem_of_In. setoid_rewrite elem_of_bt_values. naive_solver.
Qed.

Lemma anchored_at_extends m m' d T : extends m m' -> anchored_at m d T -> anchored_at m' d T.
Proof.
  intros E [Hc (k & c & Hk & ? & ?)]. split.
  - apply timeline_contains_spec. apply timeline_contains_spec in Hc as [(k' & c' & Hk' & ?)|(c' & Hin & ?)].
    + left. exists k', c'. split; [|done]. by eapply lookup_weaken, (ex_cps _ _ E).
    + right. exists c'. split; [|done]. by apply (ex_commits _ _ E).
  - exists k, c. split; [|done]. by eapply lookup_weaken, (ex_cps _ _ E).
Qed.

Lemma added_anchored config m m' h : anchored m -> added config m m' h -> anchored m'.
Proof.
  intros Ha (_ & E & _ & Hh & _ & _ & (k & c & Hk & Ho & Hs) & _) d h'. rewrite Hh.
  intros [[<- <-]|[_ Hd]]%lookup_insert_Some.
  - split; [apply timeline_contains_spec; left; by eauto 10|]. exists k, c. split_and!; [done..|lia].
  - by apply (anchored_at_extends m), Ha.
Qed.

Lemma published_anchored config m d h intent roots ups :
  plane_wf config m -> device_heads m !! d = Some h -> anchored m -> ups <> [] ->
  extends m (published m d h intent roots ups) -> anchored (published m d h intent roots ups).
Proof.
  intros Hwf Hh Ha Hne E e he. unfold published at 1. cbn [device_heads set_commit_groups set_device_heads].
  intros [[<- <-]|[_ Hd]]%lookup_insert_Some; [|by apply (anchored_at_extends m), Ha].
  cbn [dh_latest_commit]. destruct (Ha _ _ Hh) as [_ (k & c & Hk & Ho & Hs)]. split.
  - apply timeline_contains_spec. right. destruct ups as [|u ups]; [done|].
    exists (commit_of (next_commit_seq m) (next_commit_group_id m) d u). split; [|done].
    cbn. apply elem_of_app. right. by left.
  - exists k, c. split_and!; [done..|].
    destruct (pw_heads _ _ Hwf _ _ Hh) as (_ & _ & _ & _ & _ & ? & _). lia.
Qed.

Lemma same_heads_anchored m m' :
  extends m m' -> (forall d h, device_heads m' !! d = Some h -> device_heads m !! d = Some h) ->
  anchored m -> anchored m'.
Proof. intros E Hh Ha d h Hd. by apply (anchored_at_extends m), Ha, Hh. Qed.

Lemma frame_anchored config m m' : plane_wf config m -> frame_rel m m' -> anchored m -> anchored m'.
Proof.
  intros Hwf HR. destruct (HR (pw_fresh _ _ Hwf)) as [_ F]. apply same_heads_anchored.
  - by apply frame_extends.
  - by rewrite (bf_heads _ _ F).
Qed.

(** ** Every step keeps the invariant and the past *)

(** What a step guarantees of the state it leaves. *)
Definition step_ok (config : LocalStoreConfig) (m m' : MetadataInner) : Prop :=
  plane_wf config m' /\ extends m m' /\ (anchored m -> anchored m').

Lemma step_ok_refl config m : plane_wf config m -> step_ok config m m.
Proof. intros. split_and!; [done|reflexivity|done]. Qed.

Lemma publish_block_step config d intent m :
  plane_wf config m -> Forall update_typed (ci_updates intent) ->
  step_ok config m (publish_block d intent m).2.
Proof.
  intros Hwf Hty. destruct (publish_block d intent m) as [r m'] eqn:H. cbn.
  apply publish_block_cases in H as [[_ ->]|(h & roots & ups & Hh & _ & Hne & Hf & _ & _ & ->)].
  - by apply step_ok_refl.
  - apply (block_updates_replay _ _ _ _ _ _ (next_commit_seq m) (next_commit_group_id m) d)
      in Hf as (new & -> & Hus & Hn & Hrep). cbn [app] in *.
    assert (Hpos : Forall (fun u : Z * Z * Z => 0 <= u.1.1) new).
    { rewrite Hus, Forall_fmap in Hty. eapply Forall_impl; [exact Hty|]. done. }
    assert (E : extends m (published m d h intent roots new)) by by eapply published_extends.
    split_and!; [by apply published_wf|done|]. intros Ha. eapply published_anchored; [done..| |done].
    intros ->. by rewrite Hus in Hne.
  - intros h Hh. destruct (pw_heads _ _ Hwf _ _ Hh) as (_ & _ & ? & _ & _ & ? & _). lia.
Qed.

Lemma added_step config m m' h : added config m m' h -> step_ok config m m'.
Proof. intros H. split_and!; [apply H..|]. intros Ha. by eapply added_anchored. Qed.

Lemma frame_step config m m' : plane_wf config m -> frame_rel m m' -> step_ok config m m'.
Proof.
  intros Hwf HR. split_and!; [by eapply plane_wf_frame| |by eapply frame_anchored].
  by apply frame_extends, HR, Hwf.
Qed.

Lemma rel_step {A} config m (p : ST MetadataInner A) :
  plane_wf config m -> st_rel frame_rel p ->
  step_ok config m (p m).2.
Proof.
  intros Hwf Hp. destruct (p m) as [r m'] eqn:H. cbn. apply frame_step; [done|by eapply Hp].
Qed.

(** An operation that adds a device when it succeeds. *)
Lemma adding_step config m (p : ST MetadataInner DeviceHead) :
  plane_wf config m -> st_err frame_rel p ->
  (forall h m', p m = (Ok h, m') -> added config m m' h) ->
  step_ok config m (p m).2.
Proof.
  intros Hwf He Ho. destruct (p m) as [[h|e] m'] eqn:H; cbn.
  - by eapply added_step, Ho.
  - apply frame_step; [done|by eapply He].
Qed.

Lemma plane_exec_ok config op m :
  plane_wf config m -> op_ok m op ->
  step_ok config m (plane_exec config op m).
Proof.
  intros Hwf Hop. destruct op; cbn [plane_exec op_ok] in *.
  - apply adding_step; [done|apply create_device_err|]. intros. by eapply create_device_Ok.
  - unfold publish_commit_group. destruct (ci_owner intent).
    + by apply publish_block_step.
    + apply rel_step; [done|apply publish_native_frame].
  - apply adding_step; [done|apply fork_device_err|].
    intros h m' H. by destruct (fork_device_Ok _ _ _ _ _ _ Hwf H) as (? & _ & _ & _ & _ & ?).
  - apply adding_step; [done|apply restore_device_err|].
    intros h m' H. by destruct (restore_device_Ok _ _ _ _ _ _ Hwf H) as (? & _ & _ & _ & ?).
  - destruct (delete_device device_id m) as [r m'] eqn:H. cbn.
    apply delete_device_cases in H as [[_ ->]|(h & Hh & _ & _ & ->)]; [by apply step_ok_refl|].
    pose proof (removed_extends m device_id h Hh) as E. split_and!; [by apply removed_wf|done|].
    apply same_heads_anchored; [done|]. intros d h'. cbn. by intros [_ ?]%lookup_delete_Some.
  - destruct (checkpoint device_id m) as [r m'] eqn:H. cbn.
    apply checkpoint_cases in H as [[_ ->]|(h & Hh & _ & ->)]; [by apply step_ok_refl|].
    destruct (checkpoint_head_put config m device_id h Hwf Hh) as [? E].
    split_and!; [done|done|by apply same_heads_anchored].
  - apply rel_step; [done|]. unfold allocate_metadata_node. st_rel_tac. auto with frame.
  - destruct (persist_metadata_node write m) as [r m'] eqn:H. cbn.
    apply frame_step; [done|by eapply persist_metadata_node_frame].
  - apply rel_step; [done|apply create_keyspace_frame].
  - apply rel_step; [done|apply create_file_frame].
  - apply rel_step; [done|apply snapshot_keyspace_frame].
  - apply rel_step; [done|apply restore_keyspace_frame].
  - apply rel_step; [done|apply checkpoint_keyspace_frame].
Qed.

Lemma new_wf config : plane_wf config MetadataInner_new.
Proof.
  constructor; try (intros ? ? Hk; done).
  - done.
  - split; intros ? [? Hk]; done.
  - intros ? [? Hk]; done.
  - constructor.
Qed.

Lemma run_ok config m m' :
  plane_wf config m -> rtc (plane_step config) m m' -> step_ok config m m'.
Proof.
  intros Hwf H. induction H as [m|m1 m2 m3 (op & Hop & ->) _ IH]; [by apply step_ok_refl|].
  destruct (plane_exec_ok _ _ _ Hwf Hop) as (Hwf2 & He & Ha). destruct (IH Hwf2) as (? & ? & Ha').
  split_and!; [done|by etrans|by auto].
Qed.

Lemma reachable_ok config m : plane_reachable config m -> plane_wf config m /\ anchored m.
Proof.
  intros H. destruct (run_ok config _ _ (new_wf config) H) as (? & _ & Ha). split; [done|].
  apply Ha. intros d h Hd. done.
Qed.


(** ** Restore *)

Lemma history_kept config m m' d h :
  plane_reachable config m -> rtc (plane_step config) m m' -> device_heads m !! d = Some h ->
  plane_wf config m' /\ extends m m' /\ anchored_at m' d (dh_latest_commit h) /\
  roots_at m' d (dh_latest_commit h) (dh_shard_roots h).
Proof.
  intros Hr Hrun Hh. destruct (reachable_ok _ _ Hr) as [Hwf Ha].
  destruct (run_ok _ _ _ Hwf Hrun) as (Hwf' & E & _). split_and!; [done|done| |].
  - by apply (anchored_at_extends m), Ha.
  - apply (ex_roots _ _ E).
    + destruct (pw_heads _ _ Hwf _ _ Hh) as (_ & _ & _ & _ & _ & ? & _). lia.
    + apply (roots_at_latest config m d h); [done|by left|lia|done].
Qed.

Lemma alloc_commit_seq_run m :
  next_commit_seq m + 1 < U64_MOD ->
  alloc_commit_seq m = (Ok (next_commit_seq m), set_next_commit_seq (next_commit_seq m + 1) m).
Proof.
  intros. unfold alloc_commit_seq, alloc_checked, st_gets, st_lift, mbind, ST_bind.
  by rewrite checked_add_ok.
Qed.

Lemma restore_device_succeeds config source point m T roots :
  is_Some (device_specs m !! source) -> target_commit_for_restore m source point = Ok T ->
  replay_device_roots m source T None = Ok roots ->
  Forall (fun r => is_Some (metadata_nodes m !! r)) roots ->
  Z.of_nat (length roots) = shard_count config -> 0 < shard_count config ->
  next_commit_seq m + 1 < U64_MOD ->
  exists h m', restore_device config source point m = (Ok h, m') /\
    h = mkDeviceHead (next_device_id m) 0 roots (next_commit_seq m) /\
    next_commit_seq m' = next_commit_seq m + 1 /\ next_device_id m' = next_device_id m + 1 /\
    forall sp, device_specs m !! source = Some sp -> device_specs m' = <[next_device_id m := sp]> (device_specs m).
Proof.
  intros [sp Hsp] HT Hr Hn Hlen Hpos Hov. unfold restore_device. setoid_rewrite st_bind_Ok.
  unfold st_get, st_lift. eexists _, _.
  split; [|split; [reflexivity|split; [|split; [|intros sp' Hsp'; assert (sp' = sp) as -> by congruence]]]].
  { do 2 eexists. split; [reflexivity|]. apply st_bind_Ok. rewrite Hsp. do 2 eexists. split; [reflexivity|].
    apply st_bind_Ok. rewrite HT. do 2 eexists. split; [reflexivity|].
    apply st_bind_Ok. rewrite Hr. do 2 eexists. split; [reflexivity|].
    apply st_bind_Ok. rewrite (proj2 (try_for_Ok _ roots tt)).
    2:{ eapply Forall_impl; [exact Hn|]. intros r [n Hr']. rewrite Hr'. done. }
    do 2 eexists. split; [reflexivity|].
    apply st_bind_Ok. do 2 eexists. split; [reflexivity|].
    apply st_bind_Ok. do 2 eexists. split; [by apply alloc_commit_seq_run|].
    apply st_bind_Ok. unfold DeviceHead_validate. cbn [dh_shard_roots]. rewrite Hlen, Z.eqb_refl.
    rewrite (proj2 (Z.eqb_neq _ 0)) by lia. do 2 eexists. split; [reflexivity|]. reflexivity. }
  all: reflexivity.
Qed.

(** The candidates of a restore to a time are the commits of the timeline. *)
Lemma max_by_tuple_Some {A} (key : A -> list Z) l x :
  max_by_tuple key l = Some x -> x ∈ l /\ forall y, y ∈ l -> lex_leb (key y) (key x) = true.
Proof.
  unfold max_by_tuple.
  assert (Hgen : forall best,
    fold_left (fun best x => match best with
      | Some b => if lex_leb (key b) (key x) then Some x else best | None => Some x end) l best = Some x ->
    (x ∈ l \/ best = Some x) /\ (forall y, y ∈ l \/ best = Some y -> lex_leb (key y) (key x) = true)).
  { induction l as [|y l IH]; intros best; cbn [fold_left].
    - intros ->. split; [by right|]. intros y [Hy%not_elem_of_nil|[= ->]]; [done|apply lex_leb_refl].
    - intros H. apply IH in H as (H1 & H2). destruct best as [b|].
      + destruct (lex_leb (key b) (key y)) eqn:Hb.
        * split; [destruct H1 as [|[= ->]]; [left; by right|left; by left]|].
          intros z [[->|Hz]%elem_of_cons|[= <-]]; [by apply H2; right|by apply H2; left|].
          eapply lex_leb_trans; [exact Hb|]. apply H2. by right.
        * split; [destruct H1 as [|[= ->]]; [left; by right|by right]|].
          intros z [[->|Hz]%elem_of_cons|[= <-]]; [|by apply H2; left|by apply H2; right].
          eapply lex_leb_trans; [by apply lex_leb_total|]. apply H2. by right.
      + split; [destruct H1 as [|[= ->]]; [left; by right|left; by left]|].
        intros z [[->|Hz]%elem_of_cons|[=]]; [by apply H2; right|by apply H2; left]. }
  intros H. apply Hgen in H as ([?|[=]] & Hall). split; [done|]. intros y Hy. apply Hall. by left.
Qed.

Lemma elem_of_restore_candidates m d t T b :
  (T, b) ∈ restore_candidates m d t <->
  (b = false /\ (exists k c, checkpoints m !! k = Some c /\ cp_owner c = OwnBlockDevice d /\
     cp_time c <= t /\ cp_commit_seq c = T)) \/
  (b = false /\ exists c, c ∈ shard_commits m /\ sc_device_id c = d /\ sc_time c <= t /\
     sc_commit_seq c = T) \/
  (b = true /\ exists k r, delete_records m !! k = Some r /\ del_device_id r = d /\ del_time r <= t /\
     del_commit_seq r = T).
Proof.
  unfold restore_candidates. rewrite !elem_of_app, !list_elem_of_fmap.
  setoid_rewrite list_elem_of_filter. setoid_rewrite elem_of_bt_values. naive_solver.
Qed.

(** The commit a restore to a time selects: the roots current at that time. *)
Lemma target_commit_time config m d t T r :
  plane_wf config m -> target_commit_for_restore m d (RpTime t) = Ok T ->
  T <= t /\ device_timeline_contains_commit m d T = true /\
  (roots_at m d T r <-> roots_at m d t r).
Proof.
  intros Hwf H. cbn in H. apply bind_Ok in H as ([T' b] & Hmax%ok_or_Ok & H).
  apply bind_Ok in H as (? & Hb%reject_if_Ok & [= <-]). cbn in Hb. subst b.
  apply max_by_tuple_Some in Hmax as [Hin Hmax]. cbn in *.
  assert (Hc : T' <= t /\ device_timeline_contains_commit m d T' = true).
  { rewrite timeline_contains_spec.
    apply elem_of_restore_candidates in Hin as [[_ (k & c & Hk & Ho & Ht & Hs)]|[[_ (c & Hc & Hd & Ht & Hs)]|[[=] _]]].
    - destruct (pw_checkpoints _ _ Hwf _ _ Hk) as [_ Hb]. destruct (Hb d Ho) as (_ & Htc & _).
      split; [lia|]. left. by eauto.
    - pose proof (pw_commits _ _ Hwf) as Hf. rewrite Forall_forall in Hf.
      destruct (Hf c Hc) as (_ & _ & Htc & _). split; [lia|]. right. by eauto. }
  destruct Hc as [Hle Hc]. split; [done|]. split; [done|].
  unfold roots_at. enough (commits_after m d T' = commits_after m d t) as -> by done.
  rewrite (commits_between m d T' t) by done. rewrite filter_none; [done|].
  rewrite Forall_forall. intros c [Hcin Hd]%elem_of_device_commits [Hlo Hhi].
  pose proof (pw_commits _ _ Hwf) as Hf. rewrite Forall_forall in Hf.
  destruct (Hf c Hcin) as (_ & _ & Htc & _).
  assert (Hcand : (sc_commit_seq c, false) ∈ restore_candidates m d t).
  { apply elem_of_restore_candidates. right. left. split; [done|]. exists c. split_and!; [done..|lia|done]. }
  specialize (Hmax _ Hcand). cbn in Hmax. apply orb_prop in Hmax as [Hm|[Hm _]%andb_prop]; bool_prop; lia.
Qed.

(** ** Operations touch only the device they name *)

(** A step of the plane that does not name [d]. *)
Definition plane_step_avoiding (config : LocalStoreConfig) (d : DeviceId) (m m' : MetadataInner)
    : Prop :=
  exists op, op_ok m op /\ op_device op <> Some d /\ m' = plane_exec config op m.

Lemma added_keeps config m m' h d hd :
  added config m m' h -> device_heads m !! d = Some hd -> device_heads m' !! d = Some hd.
Proof.
  intros (_ & _ & Hfresh & -> & _) Hd. rewrite lookup_insert_ne; [done|].
  intros Heq. rewrite Heq in Hfresh. unfold device_roots in Hfresh. by rewrite Hd in Hfresh.
Qed.

Lemma adding_keeps config m (p : ST MetadataInner DeviceHead) d hd :
  plane_wf config m -> st_err frame_rel p ->
  (forall h m', p m = (Ok h, m') -> added config m m' h) ->
  device_heads m !! d = Some hd -> device_heads (p m).2 !! d = Some hd.
Proof.
  intros Hwf He Ho Hd. destruct (p m) as [[h|e] m'] eqn:H; cbn.
  - by eapply added_keeps; [apply Ho|].
  - destruct (He _ _ _ H (pw_fresh _ _ Hwf)) as [_ F]. by rewrite (bf_heads _ _ F).
Qed.

Lemma rel_keeps {A} config m (p : ST MetadataInner A) :
  plane_wf config m -> st_rel frame_rel p -> device_heads (p m).2 = device_heads m.
Proof.
  intros Hwf Hp. destruct (p m) as [r m'] eqn:H. cbn.
  destruct (Hp _ _ _ H (pw_fresh _ _ Hwf)) as [_ F]. by rewrite (bf_heads _ _ F).
Qed.

Lemma plane_exec_keeps config op m d hd :
  plane_wf config m -> op_ok m op -> op_device op <> Some d ->
  device_heads m !! d = Some hd -> device_heads (plane_exec config op m) !! d = Some hd.
Proof.
  intros Hwf Hop Hne Hd. destruct op; cbn [plane_exec op_ok op_device] in *.
  - eapply adding_keeps; [done|apply create_device_err| |done]. intros. by eapply create_device_Ok.
  - unfold publish_commit_group. destruct (ci_owner intent) as [e|k].
    + destruct (publish_block e intent m) as [r m'] eqn:H. cbn.
      apply publish_block_cases in H as [[_ ->]|(h & roots & ups & _ & _ & _ & _ & _ & _ & ->)]; [done| |].
      * cbn. by rewrite lookup_insert_ne by congruence.
      * intros h Hh. destruct (pw_heads _ _ Hwf _ _ Hh) as (_ & _ & ? & _ & _ & ? & _). lia.
    + by rewrite (rel_keeps config) by auto using publish_native_frame.
  - eapply adding_keeps; [done|apply fork_device_err| |done].
    intros h m' H. by destruct (fork_device_Ok _ _ _ _ _ _ Hwf H) as (? & _ & _ & _ & _ & ?).
  - eapply adding_keeps; [done|apply restore_device_err| |done].
    intros h m' H. by destruct (restore_device_Ok _ _ _ _ _ _ Hwf H) as (? & _ & _ & _ & ?).
  - destruct (delete_device device_id m) as [r m'] eqn:H. cbn.
    apply delete_device_cases in H as [[_ ->]|(h & Hh & _ & _ & ->)]; [done|].
    cbn. by rewrite lookup_delete_ne by congruence.
  - destruct (checkpoint device_id m) as [r m'] eqn:H. cbn.
    by apply checkpoint_cases in H as [[_ ->]|(h & Hh & _ & ->)].
  - rewrite (rel_keeps config); [done|done|]. unfold allocate_metadata_node. st_rel_tac. auto with frame.
  - destruct (persist_metadata_node write m) as [r m'] eqn:H. cbn.
    destruct (persist_metadata_node_frame _ _ _ _ Hop H (pw_fresh _ _ Hwf)) as [_ F].
    by rewrite (bf_heads _ _ F).
  - by rewrite (rel_keeps config) by auto using create_keyspace_frame.
  - by rewrite (rel_keeps config) by auto using create_file_frame.
  - by rewrite (rel_keeps config) by auto using snapshot_keyspace_frame.
  - by rewrite (rel_keeps config) by auto using restore_keyspace_frame.
  - by rewrite (rel_keeps config) by auto using checkpoint_keyspace_frame.
Qed.

Lemma avoiding_run_keeps config m m' d hd :
  plane_wf config m -> rtc (plane_step_avoiding config d) m m' ->
  device_heads m !! d = Some hd -> device_heads m' !! d = Some hd.
Proof.
  intros Hwf H. induction H as [m|m1 m2 m3 (op & Hop & Hne & ->) _ IH]; [done|]. intros Hd.
  destruct (plane_exec_ok _ _ _ Hwf Hop) as (Hwf2 & _ & _).
  apply IH; [done|]. by apply plane_exec_keeps.
Qed.

Lemma avoiding_run config d m m' :
  rtc (plane_step_avoiding config d) m m' -> rtc (plane_step config) m m'.
Proof.
  apply rtc_subrel. intros x y (op & ? & _ & ?). by exists op.
Qed.

(** ** What a commit does *)

(** One update of a shard root. *)
Definition set_root (roots : list MetadataNodeId) (u : ShardRootUpdate) : list MetadataNodeId :=
  <[Z.to_nat (sru_shard_id u) := sru_new_root u]> roots.

(** Each update names the root that the updates before it left. *)
Definition updates_chain (m : MetadataInner) (roots : list MetadataNodeId) (us : list ShardRootUpdate) : Prop :=
  forall pre u post, us = pre ++ u :: post ->
    fold_left set_root pre roots !! Z.to_nat (sru_shard_id u) = Some (sru_old_root u) /\
    is_Some (metadata_nodes m !! sru_new_root u).

Lemma updates_chain_cons m roots u us :
  roots !! Z.to_nat (sru_shard_id u) = Some (sru_old_root u) -> is_Some (metadata_nodes m !! sru_new_root u) ->
  updates_chain m (set_root roots u) us -> updates_chain m roots (u :: us).
Proof.
  intros Ho Hn Hc pre u' post E. destruct pre as [|u0 pre]; injection E as <- E; [by subst|]. cbn. by eapply Hc.
Qed.

Lemma block_updates_chain m updates roots cs roots' cs' :
  try_fold (block_update_step m) (roots, cs) updates = Ok (roots', cs') ->
  exists us, updates = RuBlockShard <$> us /\ roots' = fold_left set_root us roots /\
    cs' = cs ++ ((fun u => (sru_shard_id u, sru_old_root u, sru_new_root u)) <$> us) /\ updates_chain m roots us.
Proof.
  revert roots cs. induction updates as [|update updates IH]; intros roots cs; cbn [try_fold].
  { intros [= <- <-]. exists []. rewrite app_nil_r. split_and!; try done. intros [] ? ? ?; discriminate. }
  intros ([roots1 cs1] & Hstep & Hrest)%bind_Ok. destruct update as [u| |]; cbn in Hstep; [|discriminate..].
  destruct (roots !! Z.to_nat (sru_shard_id u)) as [root|] eqn:Hroot; [|done]. ok_inv. bool_prop.
  destruct (IH _ _ Hrest) as (us & -> & -> & -> & Hc). exists (u :: us). split_and!; try done.
  - by rewrite <-app_assoc.
  - apply updates_chain_cons; [congruence|by apply not_eq_None_Some|done].
Qed.

(** C7: Publishing a block commit is all or nothing. In every reachable state, if
    it fails nothing changes.  If it succeeds, its updates are updates of shard
    roots, several of one shard included, and each named the root its shard had
    when its turn came and a stored node; the head of the device moves to the
    roots that the updates leave, with the next generation and the next commit
    sequence; the commit is logged with its updates, and one shard commit per
    update is appended in order to the timeline; and no other device, no
    specification, no checkpoint and no metadata node changes. *)
Theorem publish_block_atomic config m d intent r m' :
  plane_reachable config m -> publish_block d intent m = (r, m') ->
  match r with
  | Err _ => m' = m
  | Ok group =>
      exists h us, device_heads m !! d = Some h /\ ci_updates intent = RuBlockShard <$> us /\
        updates_chain m (dh_shard_roots h) us /\
        let seq := next_commit_seq m in
        device_heads m' = <[d := mkDeviceHead d (dh_generation h + 1)
          (fold_left set_root us (dh_shard_roots h)) seq]> (device_heads m) /\
        group = mkCommitGroup (next_commit_group_id m) seq (ci_owner intent) (ci_updates intent) /\
        commit_groups m' = <[cg_commit_group group := group]> (commit_groups m) /\
        shard_commits m' = shard_commits m ++ ((fun u => mkShardCommit seq (cg_commit_group group) seq d
          (sru_shard_id u) (sru_old_root u) (sru_new_root u)) <$> us) /\
        next_commit_seq m' = seq + 1 /\
        metadata_nodes m' = metadata_nodes m /\ checkpoints m' = checkpoints m /\
        device_specs m' = device_specs m /\ deleted_device_heads m' = deleted_device_heads m
  end.
Proof.
  intros Hr H. destruct (reachable_ok _ _ Hr) as [Hwf _].
  apply publish_block_cases in H as [[[e ->] ->]|(h & roots & ups & Hh & _ & _ & Hf & _ & -> & ->)]; [done| |].
  2:{ intros h Hh. destruct (pw_heads _ _ Hwf _ _ Hh) as (_ & _ & ? & _ & _ & ? & _). lia. }
  apply block_updates_chain in Hf as (us & Hus & -> & -> & Hc). destruct (pw_heads _ _ Hwf _ _ Hh) as (Hid & _).
  exists h, us. cbn [app published] in *. split_and!; try done; cbn; [by rewrite Hid|].
  by rewrite <-list_fmap_compose.
Qed.

(** In every state the plane reaches, every head has its own id, a
    generation no later than its commit and one existing root per shard, ids are
    never reused, live and deleted devices are disjoint, and every checkpoint and
    the commit log agree about the past of its device. *)
Lemma plane_reachable_wf config m : plane_reachable config m -> plane_wf config m.
Proof. intros H. by apply reachable_ok in H as [? _]. Qed.


(** Restoring a device to a time gives the roots it had at that time: if [h]
    was its head while the clock showed [t], a later restore to [t] that succeeds
    gives a device with the roots of [h]. *)
Lemma restore_to_time config m m' d h t h' m'' :
  plane_reachable config m -> device_heads m !! d = Some h ->
  dh_latest_commit h <= t < next_commit_seq m -> rtc (plane_step config) m m' ->
  restore_device config d (RpTime t) m' = (Ok h', m'') ->
  dh_shard_roots h' = dh_shard_roots h.
Proof.
  intros Hr Hh Ht Hrun Hres. destruct (reachable_ok _ _ Hr) as [Hwf _].
  destruct (run_ok _ _ _ Hwf Hrun) as (Hwf' & E & _).
  destruct (restore_device_Ok _ _ _ _ _ _ Hwf' Hres) as (T & HT & Hrep & _ & _).
  apply (replay_device_roots_Ok config) in Hrep as [Hat _]; [|done].
  apply (target_commit_time config _ _ _ _ (dh_shard_roots h') Hwf') in HT as (_ & _ & Heq).
  apply Heq in Hat. apply (roots_at_unique m' d t); [done|]. apply (ex_roots _ _ E); [lia|].
  by apply (roots_at_latest config m d h); [done|left|lia|].
Qed.


(** ** A concrete history

    A device of eight blocks in two shards, and a commit to its first shard. *)

Definition demo_config : LocalStoreConfig := mkLocalStoreConfig 2 4096 1 4 4 1 1024 None.
Definition demo_created : MetadataInner :=
  plane_exec demo_config (PoCreateDevice (mkDeviceSpec 8 4096)) MetadataInner_new.
Definition demo_node : MetadataNodeWrite :=
  mkMetadataNodeWrite (mkMetadataNode 3 (mkBlockRange 0 4) (Leaf [] [])) [].
Definition demo_intent : CommitGroupIntent :=
  mkCommitGroupIntent (OwnBlockDevice 1) (MfDeviceGeneration 0)
    [RuBlockShard (mkShardRootUpdate 0 1 3)].
Definition demo_allocated : MetadataInner :=
  plane_exec demo_config (PoAllocateNode (mkBlockRange 0 4) (Leaf [] [])) demo_created.
Definition demo_staged : MetadataInner :=
  plane_exec demo_config (PoPersistNode demo_node) demo_allocated.
Definition demo_published : MetadataInner :=
  plane_exec demo_config (PoPublish demo_intent) demo_staged.
Definition demo_head : DeviceHead := mkDeviceHead 1 0 [1; 2] 0.

Lemma demo_created_reachable : plane_reachable demo_config demo_created.
Proof. apply rtc_once. by exists (PoCreateDevice (mkDeviceSpec 8 4096)). Qed.

Lemma demo_staged_run : rtc (plane_step demo_config) demo_created demo_staged.
Proof.
  eapply rtc_l; [by exists (PoAllocateNode (mkBlockRange 0 4) (Leaf [] []))|].
  apply rtc_once. exists (PoPersistNode demo_node). split; [by vm_compute|done].
Qed.

Lemma demo_published_run : rtc (plane_step demo_config) demo_created demo_published.
Proof.
  eapply rtc_r; [apply demo_staged_run|]. exists (PoPublish demo_intent). split; [|done].
  repeat constructor. done.
Qed.

(** Two updates of one shard in one commit. *)
Definition demo_chain : CommitGroupIntent :=
  mkCommitGroupIntent (OwnBlockDevice 1) (MfDeviceGeneration 0)
    [RuBlockShard (mkShardRootUpdate 0 1 3); RuBlockShard (mkShardRootUpdate 0 3 1);
     RuBlockShard (mkShardRootUpdate 0 1 3)].

Lemma publish_block_atomic_witness :
  exists g m', publish_block 1 demo_chain demo_staged = (Ok g, m') /\
    shard_commits m' = [mkShardCommit 1 1 1 1 0 1 3; mkShardCommit 1 1 1 1 0 3 1; mkShardCommit 1 1 1 1 0 1 3] /\
    dh_shard_roots <$> device_heads m' !! 1 = Some [3; 2].
Proof.
  destruct (publish_block 1 demo_chain demo_staged) as [[g|e] m'] eqn:H; [|by vm_compute in H].
  assert (Hr : plane_reachable demo_config demo_staged)
    by (unfold plane_reachable; etrans; [apply demo_created_reachable|apply demo_staged_run]).
  destruct (publish_block_atomic demo_config demo_staged 1 demo_chain (Ok g) m' Hr H)
    as (h & us & Hh & Hus & _ & Hheads & -> & _ & Hsc & _).
  assert (Hd : device_heads demo_staged !! 1 = Some demo_head) by by vm_compute.
  rewrite Hd in Hh. injection Hh as <-.
  assert (us = [mkShardRootUpdate 0 1 3; mkShardRootUpdate 0 3 1; mkShardRootUpdate 0 1 3]) as ->.
  { cbn in Hus. destruct us as [|u1 [|u2 [|u3 [|]]]]; try discriminate Hus. by injection Hus as <- <- <-. }
  eexists _, m'. split; [reflexivity|]. rewrite Hsc, Hheads, lookup_insert_eq. split; by vm_compute.
Defined.


Lemma restore_to_time_witness :
  exists h' m'', restore_device demo_config 1 (RpTime 0) demo_published = (Ok h', m'') /\
    dh_shard_roots h' = [1; 2].
Proof.
  destruct (restore_device demo_config 1 (RpTime 0) demo_published) as [[h'|e] m''] eqn:H;
    [|by vm_compute in H].
  exists h', m''. split; [done|].
  rewrite (restore_to_time demo_config demo_created demo_published 1 demo_head 0 h' m''); [done|..|done].
  - apply demo_created_reachable.
  - by vm_compute.
  - by vm_compute.
  - apply demo_published_run.
Defined.

