(* ===== verification/Gc.v ===== *)
(** * Garbage collection of metadata ([local/metadata_plane.rs])

    Mark and sweep over the copy-on-write nodes, and the retention of the
    timelines that point-in-time restore needs.  The mark walks the nodes from
    the roots of every live head, every retained checkpoint, every retained
    commit and every retained deleted device; the sweep removes what is neither
    marked nor reachable and trims the timelines to the retention window. *)

From S2P Require Import Prelude Api Object Provider Config Streams Plane Timeline History.

(** ** Retention *)

Definition current_commit_seq (inner : MetadataInner) : CommitSeq :=
  saturating_sub (next_commit_seq inner) 1.

Definition pitr_retention_floor (inner : MetadataInner) (policy : RetentionPolicy)
    : option CommitSeq :=
  if 0 <? pitr_grace_commits policy then
    Some (saturating_sub (current_commit_seq inner) (saturating_sub (pitr_grace_commits policy) 1))
  else None.

Definition retain_pitr_commit (inner : MetadataInner) (policy : RetentionPolicy)
    (commit_seq : CommitSeq) : bool :=
  (0 <? pitr_grace_commits policy) &&
  (saturating_sub (current_commit_seq inner) commit_seq <? pitr_grace_commits policy).

Definition retain_deleted_device (inner : MetadataInner) (policy : RetentionPolicy)
    (device_id : DeviceId) : bool :=
  if retain_deleted_devices policy then
    bool_decide (is_Some (deleted_device_heads inner !! device_id))
  else
    match deleted_device_heads inner !! device_id with
    | None => false
    | Some head =>
        saturating_sub (current_commit_seq inner) (dh_latest_commit head) <?
          deleted_device_grace_commits policy
    end.

Definition owner_has_retained_pitr (inner : MetadataInner) (policy : RetentionPolicy)
    (owner : MappingOwner) : bool :=
  if pitr_grace_commits policy =? 0 then false
  else
    match owner with
    | OwnBlockDevice device_id =>
        bool_decide (is_Some (device_heads inner !! device_id)) ||
        retain_deleted_device inner policy device_id
    | OwnNativeKeyspace keyspace_id =>
        bool_decide (is_Some (keyspace_heads inner !! keyspace_id))
    end.

Definition block_pitr_anchor_targets (inner : MetadataInner) (policy : RetentionPolicy)
    : gmap DeviceId CommitSeq :=
  match pitr_retention_floor inner policy with
  | None => ∅
  | Some floor =>
      let anchor head := Z.min floor (dh_latest_commit head) in
      (anchor <$> filter (fun p => retain_deleted_device inner policy p.1 = true)
        (deleted_device_heads inner)) ∪
      (anchor <$> device_heads inner)
  end.

Definition keyspace_pitr_anchor_targets (inner : MetadataInner) (policy : RetentionPolicy)
    : gmap KeyspaceId CommitSeq :=
  match pitr_retention_floor inner policy with
  | None => ∅
  | Some floor => (fun head => Z.min floor (kh_latest_commit head)) <$> keyspace_heads inner
  end.

Definition checkpoint_exists (inner : MetadataInner) (owner : MappingOwner) (commit_seq : CommitSeq)
    : bool :=
  existsb (fun c => bool_decide (cp_owner c = owner) && (cp_commit_seq c =? commit_seq))
    (bt_values (checkpoints inner)).

(** One iteration of each loop of [ensure_pitr_anchor_checkpoints_locked]. *)
Definition ensure_block_anchor (target : DeviceId * CommitSeq) : ST MetadataInner unit :=
  inner ← st_get;
  let owner := OwnBlockDevice target.1 in
  if checkpoint_exists inner owner target.2 then mret tt
  else
    roots ← st_lift (replay_device_roots inner target.1 target.2 None);
    insert_checkpoint owner target.2 (CrBlockShard roots);;
    mret tt.

Definition ensure_keyspace_anchor (target : KeyspaceId * CommitSeq) : ST MetadataInner unit :=
  inner ← st_get;
  let owner := OwnNativeKeyspace target.1 in
  if checkpoint_exists inner owner target.2 then mret tt
  else
    root ← st_lift (replay_keyspace_root inner target.1 target.2 None);
    root ← insert_keyspace_root (kr_shard_roots root) (kr_file_count root);
    insert_checkpoint owner target.2 (CrNativeKeyspace (kr_root_id root));;
    mret tt.

Definition ensure_pitr_anchor_checkpoints (policy : RetentionPolicy) : ST MetadataInner unit :=
  targets ← st_gets (fun inner => block_pitr_anchor_targets inner policy);
  st_for ensure_block_anchor (bt_iter targets);;
  targets ← st_gets (fun inner => keyspace_pitr_anchor_targets inner policy);
  st_for ensure_keyspace_anchor (bt_iter targets).

Definition latest_checkpoint_at_or_before_floor (inner : MetadataInner) (owner : MappingOwner)
    (floor : CommitSeq) : option CheckpointId :=
  cp_checkpoint_id <$>
    max_by_key cp_commit_seq
      (filter (fun c => cp_owner c = owner /\ cp_commit_seq c <= floor)
        (bt_values (checkpoints inner))).

Definition retained_pitr_anchor (inner : MetadataInner) (policy : RetentionPolicy)
    (owner : MappingOwner) : option Checkpoint :=
  floor ← pitr_retention_floor inner policy;
  checkpoint_id ← latest_checkpoint_at_or_before_floor inner owner floor;
  checkpoints inner !! checkpoint_id.

Definition retain_checkpoint_for_pitr (inner : MetadataInner) (policy : RetentionPolicy)
    (checkpoint : Checkpoint) : bool :=
  retain_pitr_commit inner policy (cp_commit_seq checkpoint) ||
  match retained_pitr_anchor inner policy (cp_owner checkpoint) with
  | Some anchor => cp_checkpoint_id anchor =? cp_checkpoint_id checkpoint
  | None => false
  end.

(** [retain_shard_commit_for_pitr_locked] and its keyspace twin. *)
Definition retain_commit_for_pitr (inner : MetadataInner) (policy : RetentionPolicy)
    (owner : MappingOwner) (commit_seq : CommitSeq) : bool :=
  if negb (owner_has_retained_pitr inner policy owner) then false
  else
    match retained_pitr_anchor inner policy owner with
    | None => retain_pitr_commit inner policy commit_seq
    | Some anchor =>
        (cp_commit_seq anchor <? commit_seq) || retain_pitr_commit inner policy commit_seq
    end.
Definition retain_shard_commit_for_pitr (inner : MetadataInner) (policy : RetentionPolicy)
    (commit : ShardCommit) : bool :=
  retain_commit_for_pitr inner policy (OwnBlockDevice (sc_device_id commit)) (sc_commit_seq commit).
Definition retain_keyspace_commit_for_pitr (inner : MetadataInner) (policy : RetentionPolicy)
    (commit : KeyspaceCommit) : bool :=
  retain_commit_for_pitr inner policy (OwnNativeKeyspace (kc_keyspace_id commit))
    (kc_commit_seq commit).

Definition checkpoint_retained (inner : MetadataInner) (policy : RetentionPolicy)
    (checkpoint : Checkpoint) : bool :=
  owner_has_retained_pitr inner policy (cp_owner checkpoint) &&
  retain_checkpoint_for_pitr inner policy checkpoint.

Definition retained_checkpoint_ids (inner : MetadataInner) (policy : RetentionPolicy)
    : gset CheckpointId :=
  list_to_set (cp_checkpoint_id <$>
    filter (fun c => checkpoint_retained inner policy c = true) (bt_values (checkpoints inner))).

Definition retained_shard_commit_cutoffs (inner : MetadataInner) (policy : RetentionPolicy)
    : gmap DeviceId CommitSeq :=
  map_imap (fun device_id _ =>
      cp_commit_seq <$> retained_pitr_anchor inner policy (OwnBlockDevice device_id))
    (block_pitr_anchor_targets inner policy).
Definition retained_keyspace_commit_cutoffs (inner : MetadataInner) (policy : RetentionPolicy)
    : gmap KeyspaceId CommitSeq :=
  map_imap (fun keyspace_id _ =>
      cp_commit_seq <$> retained_pitr_anchor inner policy (OwnNativeKeyspace keyspace_id))
    (keyspace_pitr_anchor_targets inner policy).

(** ** Roots *)

Definition keyspace_shard_metadata_roots (inner : MetadataInner) (shard_id : KeyspaceCatalogShardId)
    : Result (list MetadataNodeId) :=
  shard ← keyspace_catalog_shard_locked inner shard_id;
  Ok ((fun entry => fh_root (kf_head entry)) <$> bt_values (kcs_files shard)).

Definition keyspace_metadata_roots (inner : MetadataInner) (root_id : KeyspaceRootId)
    : Result (list MetadataNodeId) :=
  root ← keyspace_root_locked inner root_id;
  roots ← try_map (keyspace_shard_metadata_roots inner) (kr_shard_roots root);
  Ok (concat roots).

Definition checkpoint_gc_roots (inner : MetadataInner) (policy : RetentionPolicy)
    (checkpoint : Checkpoint) : Result (list MetadataNodeId) :=
  if checkpoint_retained inner policy checkpoint then
    match cp_owner checkpoint with
    | OwnBlockDevice _ => checkpoint_block_roots checkpoint
    | OwnNativeKeyspace _ =>
        root ← checkpoint_keyspace_root checkpoint;
        keyspace_metadata_roots inner root
    end
  else Ok [].

(** [Vec::dedup] of a sorted vector. *)
Fixpoint dedup (l : list Z) : list Z :=
  match l with
  | x :: l' =>
      match l' with
      | y :: _ => if x =? y then dedup l' else x :: dedup l'
      | [] => [x]
      end
  | [] => []
  end.

Definition roots_for_gc_locked (inner : MetadataInner) (policy : RetentionPolicy)
    : Result (list MetadataNodeId) :=
  let heads := concat (dh_shard_roots <$> bt_values (device_heads inner)) in
  keyspaces ← try_map (fun head =>
      roots ← try_map (keyspace_shard_metadata_roots inner) (kh_shard_roots head);
      Ok (concat roots)) (bt_values (keyspace_heads inner));
  retained_checkpoints ← try_map (checkpoint_gc_roots inner policy) (bt_values (checkpoints inner));
  let commits := sc_new_root <$>
    filter (fun c => retain_shard_commit_for_pitr inner policy c = true) (shard_commits inner) in
  keyspace_commits ← try_map (fun c =>
      if retain_keyspace_commit_for_pitr inner policy c
      then keyspace_shard_metadata_roots inner (kc_new_shard c) else Ok [])
    (keyspace_commits inner);
  let deleted := concat ((fun p => dh_shard_roots p.2) <$>
    filter (fun p => retain_deleted_device inner policy p.1 = true)
      (bt_iter (deleted_device_heads inner))) in
  let records := concat (del_shard_roots <$>
    filter (fun r => retain_deleted_device inner policy (del_device_id r) = true)
      (bt_values (delete_records inner))) in
  Ok (dedup (sort_by_key id (heads ++ concat keyspaces ++ concat retained_checkpoints ++ commits ++
    concat keyspace_commits ++ deleted ++ records))).

(** [MetadataProvider::roots_for_gc] *)
Definition roots_for_gc (policy : RetentionPolicy) : ST MetadataInner (list MetadataNodeId) :=
  ensure_pitr_anchor_checkpoints policy;;
  st_ask (fun inner => roots_for_gc_locked inner policy).

(** ** Mark and sweep *)

Definition node_children (node : MetadataNode) : list MetadataNodeId :=
  match mn_kind node with
  | Internal children => mc_node_id <$> children
  | Leaf _ _ => []
  end.

(** [collect_node_segments] *)
Definition node_segments (node : MetadataNode) : list SegmentId :=
  match mn_kind node with
  | Internal _ => []
  | Leaf entries _ => le_segment_id <$> entries
  end.

Definition collect_all_segments (inner : MetadataInner) : gset SegmentId :=
  list_to_set (concat (node_segments <$> bt_values (metadata_nodes inner))).

(** The [while] loop of [collect_reachable_locked]; the top of the stack is the
    head of the list.  A node is expanded once, so the loop runs at most once
    per root and per child of a node: [mark_fuel]. *)
Fixpoint collect_loop (fuel : nat) (inner : MetadataInner) (stack : list MetadataNodeId)
    (nodes : gset MetadataNodeId) (segments : gset SegmentId)
    : Result (gset MetadataNodeId * gset SegmentId) :=
  match stack with
  | [] => Ok (nodes, segments)
  | node_id :: stack =>
      match fuel with
      | O => Err (Unsupported "mark fuel")
      | S fuel =>
          if bool_decide (node_id ∈ nodes) then collect_loop fuel inner stack nodes segments
          else
            node ← get_metadata_node inner node_id;
            collect_loop fuel inner (node_children node ++ stack) ({[node_id]} ∪ nodes)
              (list_to_set (node_segments node) ∪ segments)
      end
  end.

Definition child_count (nodes : gmap MetadataNodeId MetadataNode) : nat :=
  sum_list_with (fun p : Z * MetadataNode => length (node_children p.2)) (map_to_list nodes).

Definition mark_fuel (inner : MetadataInner) (roots : list MetadataNodeId) : nat :=
  length roots + child_count (metadata_nodes inner).

Definition collect_reachable (inner : MetadataInner) (roots : list MetadataNodeId)
    : Result (gset MetadataNodeId * gset SegmentId) :=
  collect_loop (mark_fuel inner roots) inner roots ∅ ∅.

Record MetadataMarkReport := mkMetadataMarkReport {
  mk_epoch : Z;
  mk_roots : list MetadataNodeId;
  mk_metadata_nodes : list MetadataNodeId;
  mk_segments : list SegmentId;
}.

Record MetadataSweepReport := mkMetadataSweepReport {
  sw_epoch : Z;
  sw_deleted_metadata_nodes : list MetadataNodeId;
  sw_released_segments : list SegmentId;
}.

(** [map.insert(k, epoch)] for every [k] of a set. *)
Definition mark_all (epoch : Z) (ids : gset Z) (marks : gmap Z Z) : gmap Z Z :=
  gset_to_gmap epoch ids ∪ marks.

Definition mark_reachable_for_gc (policy : RetentionPolicy) : ST MetadataInner MetadataMarkReport :=
  ensure_pitr_anchor_checkpoints policy;;
  epoch ← alloc_gc_epoch;
  inner ← st_get;
  roots ← st_lift (roots_for_gc_locked inner policy);
  reachable ← st_lift (collect_reachable inner roots);
  st_modify (fun m => set_metadata_last_mark_epoch
    (mark_all epoch reachable.1 (metadata_last_mark_epoch m)) m);;
  st_modify (fun m => set_segment_last_mark_epoch
    (mark_all epoch reachable.2 (segment_last_mark_epoch m)) m);;
  mret (mkMetadataMarkReport epoch roots (bs_iter reachable.1) (bs_iter reachable.2)).

(** The nodes a sweep removes: neither marked in the epoch nor reachable now. *)
Definition sweep_candidates (inner : MetadataInner) (epoch : Z) (reachable : gset MetadataNodeId)
    : gset MetadataNodeId :=
  filter (fun id => metadata_last_mark_epoch inner !! id <> Some epoch /\ id ∉ reachable)
    (dom (metadata_nodes inner)).

Definition released_segments (inner : MetadataInner) (epoch : Z) (reachable : gset SegmentId)
    : gset SegmentId :=
  filter (fun id => segment_last_mark_epoch inner !! id <> Some epoch /\ id ∉ reachable)
    (collect_all_segments inner).

Definition expired_devices (inner : MetadataInner) (policy : RetentionPolicy) : gset DeviceId :=
  filter (fun id => retain_deleted_device inner policy id = false) (dom (deleted_device_heads inner)).

(** [cutoffs.get(&owner).is_some_and(|cutoff| seq > cutoff)] *)
Definition after_cutoff (cutoffs : gmap Z CommitSeq) (owner : Z) (seq : CommitSeq) : bool :=
  match cutoffs !! owner with Some cutoff => cutoff <? seq | None => false end.

Definition checkpoint_kept (expired : gset DeviceId) (retained : gset CheckpointId)
    (checkpoint : Checkpoint) : bool :=
  match cp_owner checkpoint with
  | OwnBlockDevice device_id =>
      bool_decide (device_id ∉ expired) && bool_decide (cp_checkpoint_id checkpoint ∈ retained)
  | OwnNativeKeyspace _ => bool_decide (cp_checkpoint_id checkpoint ∈ retained)
  end.

(** The trimming of heads, records and timelines at the end of a sweep. *)
Definition trim_timelines (policy : RetentionPolicy) (m : MetadataInner) : MetadataInner :=
  let retained := retained_checkpoint_ids m policy in
  let cutoffs := retained_shard_commit_cutoffs m policy in
  let keyspace_cutoffs := retained_keyspace_commit_cutoffs m policy in
  let expired := expired_devices m policy in
  set_append_streams (filter (fun p => ss_status p.2 = AsActive) (append_streams m))
  (set_fork_records (filter (fun p => (fk_source p.2 ∉ expired) /\ (fk_target p.2 ∉ expired))
    (fork_records m))
  (set_file_commits (filter (fun c =>
      after_cutoff keyspace_cutoffs (fc_keyspace_id c) (fc_commit_seq c) = true) (file_commits m))
  (set_keyspace_commits (filter (fun c =>
      after_cutoff keyspace_cutoffs (kc_keyspace_id c) (kc_commit_seq c) = true) (keyspace_commits m))
  (set_shard_commits (filter (fun c => (sc_device_id c ∉ expired) /\
      after_cutoff cutoffs (sc_device_id c) (sc_commit_seq c) = true) (shard_commits m))
  (set_checkpoints (filter (fun p => checkpoint_kept expired retained p.2 = true) (checkpoints m))
  (set_delete_records (filter (fun p => del_device_id p.2 ∉ expired) (delete_records m))
  (set_device_specs (filter (fun p => p.1 ∉ expired) (device_specs m))
  (set_deleted_device_heads (filter (fun p => p.1 ∉ expired) (deleted_device_heads m)) m)))))))).

Definition sweep_unmarked_after_mark (policy : RetentionPolicy) (epoch : Z)
    : ST MetadataInner MetadataSweepReport :=
  st_reject_if (epoch =? 0) (InvalidArgument "GC epoch must be greater than zero");;
  next ← st_gets next_gc_epoch;
  st_reject_if (next <=? epoch) (InvalidArgument "unknown GC epoch");;
  ensure_pitr_anchor_checkpoints policy;;
  inner ← st_get;
  roots ← st_lift (roots_for_gc_locked inner policy);
  reachable ← st_lift (collect_reachable inner roots);
  let candidates := sweep_candidates inner epoch reachable.1 in
  let released := released_segments inner epoch reachable.2 in
  st_modify (fun m => set_metadata_last_mark_epoch
    (filter (fun p => p.1 ∉ candidates) (metadata_last_mark_epoch m))
    (set_metadata_nodes (filter (fun p => p.1 ∉ candidates) (metadata_nodes m)) m));;
  st_modify (trim_timelines policy);;
  mret (mkMetadataSweepReport epoch (bs_iter candidates) (bs_iter released)).

(** ** What the mark visits *)

(** The nodes reachable from a list of roots. *)
Inductive reach (nodes : gmap MetadataNodeId MetadataNode) (roots : list MetadataNodeId)
    : MetadataNodeId -> Prop :=
| reach_root r : r ∈ roots -> reach nodes roots r
| reach_child p n c :
    reach nodes roots p -> nodes !! p = Some n -> c ∈ node_children n -> reach nodes roots c.

Lemma reach_mono nodes nodes' roots roots' id :
  (forall r, r ∈ roots -> r ∈ roots') ->
  (forall p n, reach nodes' roots' p -> nodes !! p = Some n -> nodes' !! p = Some n) ->
  reach nodes roots id -> reach nodes' roots' id.
Proof.
  intros Hr Hn. induction 1 as [r ?|p n c _ IH Hp Hc]; [by apply reach_root, Hr|].
  eapply reach_child; [exact IH|by apply Hn|done].
Qed.

Lemma child_count_delete nodes id n :
  nodes !! id = Some n -> child_count nodes = (length (node_children n) + child_count (delete id nodes))%nat.
Proof.
  intros Hn. unfold child_count.
  by rewrite <-(map_to_list_delete nodes id n Hn).
Qed.

Lemma unvisited_delete (nodes : gmap MetadataNodeId MetadataNode) (seen : gset MetadataNodeId) id :
  filter (fun p => p.1 ∉ ({[id]} ∪ seen)) nodes = delete id (filter (fun p => p.1 ∉ seen) nodes).
Proof.
  apply map_eq. intros k. apply option_eq. intros n.
  rewrite lookup_delete_Some, !map_lookup_filter_Some. set_solver.
Qed.

(** What the loop has done when it stops: [nodes] was visited before. *)
Definition visited (inner : MetadataInner) (stack : list MetadataNodeId) (nodes : gset MetadataNodeId)
    (segments : gset SegmentId) (out : gset MetadataNodeId * gset SegmentId) : Prop :=
  (nodes ⊆ out.1) /\ (forall id, id ∈ stack -> id ∈ out.1) /\
  (forall id, id ∈ out.1 -> id ∉ nodes -> reach (metadata_nodes inner) stack id /\
    exists n, metadata_nodes inner !! id = Some n /\ forall c, c ∈ node_children n -> c ∈ out.1) /\
  (forall s, s ∈ out.2 <-> s ∈ segments \/
    exists id n, id ∈ out.1 /\ (id ∉ nodes) /\ metadata_nodes inner !! id = Some n /\ s ∈ node_segments n).

Lemma collect_loop_spec inner fuel stack nodes segments :
  (length stack + child_count (filter (fun p => p.1 ∉ nodes) (metadata_nodes inner)) <= fuel)%nat ->
  match collect_loop fuel inner stack nodes segments with
  | Ok out => visited inner stack nodes segments out
  | Err _ => exists id, reach (metadata_nodes inner) stack id /\ metadata_nodes inner !! id = None
  end.
Proof.
  revert stack nodes segments. induction fuel as [|fuel IH]; intros [|id stack] nodes segments Hfuel;
    cbn [collect_loop length] in *; try lia.
  - split_and!; cbn; [done|by intros ? ?%not_elem_of_nil|naive_solver|naive_solver].
  - split_and!; cbn; [done|by intros ? ?%not_elem_of_nil|naive_solver|naive_solver].
  - case_bool_decide as Hin.
    + specialize (IH stack nodes segments ltac:(lia)).
      destruct (collect_loop fuel inner stack nodes segments) as [out|e].
      * destruct IH as (V2 & V3 & V4 & V5). split_and!; try done.
        -- intros x [->|Hx]%elem_of_cons; [by apply V2|by apply V3].
        -- intros x Hx Hnx. destruct (V4 x Hx Hnx) as [Hr Hn]. split; [|done].
           eapply reach_mono; [| |exact Hr]; [intros; by right|done].
      * destruct IH as (x & Hr & Hx). exists x. split; [|done].
        eapply reach_mono; [| |exact Hr]; [intros; by right|done].
    + unfold get_metadata_node. destruct (metadata_nodes inner !! id) as [n|] eqn:Hn; cbn [ok_or mbind Result_bind].
      2:{ exists id. split; [apply reach_root; by left|done]. }
      assert (Hreach : forall x, reach (metadata_nodes inner) (node_children n ++ stack) x ->
        reach (metadata_nodes inner) (id :: stack) x).
      { induction 1 as [r [Hr|Hr]%elem_of_app|p q c _ Hp Hq Hc].
        - eapply reach_child; [apply reach_root; by left|done|done].
        - apply reach_root. by right.
        - by eapply reach_child. }
      specialize (IH (node_children n ++ stack) ({[id]} ∪ nodes)
        (list_to_set (node_segments n) ∪ segments)).
      rewrite unvisited_delete in IH.
      rewrite (child_count_delete _ id n) in Hfuel by (by apply map_lookup_filter_Some).
      rewrite length_app in IH. specialize (IH ltac:(lia)).
      destruct (collect_loop fuel inner _ _ _) as [out|e]; [|naive_solver].
      destruct IH as (V2 & V3 & V4 & V5). split_and!.
      * set_solver.
      * intros x [->|Hx]%elem_of_cons; [set_solver|]. apply V3, elem_of_app. by right.
      * intros x Hx Hnx. destruct (decide (x = id)) as [->|Hne].
        -- split; [apply reach_root; by left|]. exists n. split; [done|].
           intros c Hc. apply V3, elem_of_app. by left.
        -- destruct (V4 x Hx ltac:(set_solver)) as [Hr Hm]. split; [by apply Hreach|done].
      * intros x. rewrite V5. rewrite elem_of_union, elem_of_list_to_set. split.
        -- intros [[Hs|Hs]|(y & q & Hy & Hny & Hq & Hs)]; [|by left|].
           ++ right. exists id, n. split_and!; [set_solver|done..].
           ++ right. exists y, q. split_and!; [done|set_solver|done..].
        -- intros [Hs|(y & q & Hy & Hny & Hq & Hs)]; [by left; right|].
           destruct (decide (y = id)) as [->|Hne]; [left; left; congruence|].
           right. exists y, q. split_and!; [done|set_solver|done..].
Qed.

Lemma reach_visited inner roots (nodes : gset MetadataNodeId) :
  (forall r, r ∈ roots -> r ∈ nodes) ->
  (forall id, id ∈ nodes -> exists n, metadata_nodes inner !! id = Some n /\
    forall c, c ∈ node_children n -> c ∈ nodes) ->
  forall id, reach (metadata_nodes inner) roots id -> id ∈ nodes.
Proof.
  intros Hr Hc. induction 1 as [r ?|p n c _ IH Hp Hin]; [by apply Hr|].
  destruct (Hc p IH) as (n' & Hp' & Hall). assert (n' = n) as -> by congruence. by apply Hall.
Qed.

(** The mark phase terminates and is exact. *)
Lemma collect_reachable_spec inner roots :
  match collect_reachable inner roots with
  | Ok out =>
      (forall id, id ∈ out.1 <-> reach (metadata_nodes inner) roots id) /\
      (forall id, reach (metadata_nodes inner) roots id -> is_Some (metadata_nodes inner !! id)) /\
      (forall s, s ∈ out.2 <-> exists id n, reach (metadata_nodes inner) roots id /\
        metadata_nodes inner !! id = Some n /\ s ∈ node_segments n)
  | Err _ => exists id, reach (metadata_nodes inner) roots id /\ metadata_nodes inner !! id = None
  end.
Proof.
  unfold collect_reachable. pose proof (collect_loop_spec inner (mark_fuel inner roots) roots ∅ ∅) as H.
  rewrite map_filter_id in H by (intros ? ? ?; cbn; apply not_elem_of_empty). specialize (H ltac:(unfold mark_fuel; lia)).
  destruct (collect_loop _ _ _ _ _) as [out|e]; [|done]. destruct H as (_ & V3 & V4 & V5).
  assert (Hin : forall id, id ∈ out.1 <-> reach (metadata_nodes inner) roots id).
  { intros id. split.
    - intros Hid. apply (V4 id Hid). set_solver.
    - apply reach_visited; [done|]. intros id' Hid'. apply (V4 id' Hid'). set_solver. }
  split_and!; [done| |].
  - intros id Hid%Hin. destruct (V4 id Hid ltac:(set_solver)) as (_ & n & Hn & _). by eauto.
  - intros s. rewrite V5. setoid_rewrite <-Hin. set_solver.
Qed.
