(* ===== verification/Retention.v ===== *)
(** * What garbage collection keeps ([local/metadata_plane.rs])

    The sweep preserves the invariant of the plane; every live device keeps its
    head and every node below its roots; inside the retention window replay
    gives the roots it gave before, with every node below them. *)

From S2P Require Import Prelude Api Object Provider Config Streams Plane Timeline History Gc.

(** ** Anchor checkpoints *)

(** Only checkpoints, and keyspace roots, are added. *)
Record quiet (m m' : MetadataInner) : Prop := {
  q_heads : device_heads m' = device_heads m;
  q_deleted : deleted_device_heads m' = deleted_device_heads m;
  q_specs : device_specs m' = device_specs m;
  q_nodes : metadata_nodes m' = metadata_nodes m;
  q_commits : shard_commits m' = shard_commits m;
  q_seq : next_commit_seq m' = next_commit_seq m;
  q_cps : checkpoints m ⊆ checkpoints m';
  q_keyspaces : keyspace_heads m' = keyspace_heads m;
  q_shards : keyspace_catalog_shards m' = keyspace_catalog_shards m;
  q_marks : metadata_last_mark_epoch m' = metadata_last_mark_epoch m;
  q_segment_marks : segment_last_mark_epoch m' = segment_last_mark_epoch m;
  q_next : next_device_id m' = next_device_id m;
}.

#[export] Instance quiet_preorder : PreOrder quiet.
Proof.
  split.
  - intros m. by constructor.
  - intros m1 m2 m3 [A1 A2 A3 A4 A5 A6 A7 A8 A9 A10 A11 A12]
      [B1 B2 B3 B4 B5 B6 B7 B8 B9 B10 B11 B12].
    constructor; try congruence. by etrans.
Qed.

Definition quiet_wf (config : LocalStoreConfig) (m m' : MetadataInner) : Prop :=
  plane_wf config m -> plane_wf config m' /\ quiet m m'.

#[export] Instance quiet_wf_preorder config : PreOrder (quiet_wf config).
Proof.
  split.
  - intros m Hm. split; [done|reflexivity].
  - intros m1 m2 m3 H12 H23 H1. destruct (H12 H1) as [H2 Q12]. destruct (H23 H2) as [H3 Q23].
    split; [done|by etrans].
Qed.

Lemma checkpoint_exists_spec m owner T :
  checkpoint_exists m owner T = true <->
  exists k c, checkpoints m !! k = Some c /\ cp_owner c = owner /\ cp_commit_seq c = T.
Proof.
  unfold checkpoint_exists. rewrite existsb_exists. setoid_rewrite andb_true_iff.
  setoid_rewrite bool_decide_eq_true. setoid_rewrite Z.eqb_eq. setoid_rewrite <-list_elem_of_In.
  setoid_rewrite elem_of_bt_values. naive_solver.
Qed.

(** A target that the anchor of its device may have. *)
Definition target_ok (m : MetadataInner) (t : DeviceId * CommitSeq) : Prop :=
  0 <= t.2 /\ forall h, device_heads m !! t.1 = Some h \/ deleted_device_heads m !! t.1 = Some h ->
    t.2 <= dh_latest_commit h.

Definition has_checkpoint (m : MetadataInner) (owner : MappingOwner) (T : CommitSeq) : Prop :=
  exists k c, checkpoints m !! k = Some c /\ cp_owner c = owner /\ cp_commit_seq c = T.

Lemma ensure_block_anchor_run config t m r m' :
  plane_wf config m -> target_ok m t -> ensure_block_anchor t m = (r, m') ->
  (plane_wf config m' /\ quiet m m') /\ (r = Ok tt -> has_checkpoint m' (OwnBlockDevice t.1) t.2).
Proof.
  intros Hwf [Hpos Hle]. unfold ensure_block_anchor, st_get, st_lift, mbind, ST_bind.
  destruct (checkpoint_exists m (OwnBlockDevice t.1) t.2) eqn:Hex.
  { intros [= <- <-]. split; [split; [done|reflexivity]|]. intros _. by apply checkpoint_exists_spec. }
  destruct (replay_device_roots m t.1 t.2 None) as [roots|e] eqn:Hr.
  2:{ intros [= <- <-]. split; [split; [done|reflexivity]|done]. }
  rewrite insert_block_checkpoint_run. intros [= <- <-].
  apply (replay_device_roots_Ok config) in Hr as [Hat _]; [|done]. split; [split|].
  - by apply checkpoint_put_wf.
  - constructor; try done. apply (checkpoint_put_extends config m t.1 t.2 roots Hwf).
  - intros _. eexists (next_checkpoint_id m), _. split; [apply lookup_insert_eq|done].
Qed.

(** The fields that no anchor touches. *)
Definition untouched (m m' : MetadataInner) : Prop :=
  device_specs m' = device_specs m /\ metadata_nodes m' = metadata_nodes m /\
  next_commit_seq m' = next_commit_seq m /\ keyspace_heads m' = keyspace_heads m /\
  keyspace_catalog_shards m' = keyspace_catalog_shards m /\
  metadata_last_mark_epoch m' = metadata_last_mark_epoch m /\
  segment_last_mark_epoch m' = segment_last_mark_epoch m /\
  next_device_id m' = next_device_id m.

#[export] Instance untouched_preorder : PreOrder untouched.
Proof.
  split; [done|]. unfold untouched. intros m1 m2 m3 H12 H23. destruct_and! H12. destruct_and! H23.
  split_and!; congruence.
Qed.

Lemma ensure_keyspace_anchor_run config t m r m' :
  plane_wf config m -> ensure_keyspace_anchor t m = (r, m') -> plane_wf config m' /\ quiet m m'.
Proof.
  intros Hwf H.
  assert (HF : frame_rel m m').
  { revert H. apply (fun (X : st_rel frame_rel (ensure_keyspace_anchor t)) => X m r m').
    unfold ensure_keyspace_anchor. st_rel_tac; auto with frame. }
  assert (HU : untouched m m').
  { revert H. apply (fun (X : st_rel untouched (ensure_keyspace_anchor t)) => X m r m').
    unfold ensure_keyspace_anchor, insert_keyspace_root, insert_checkpoint, alloc_keyspace_root_id,
      alloc_checkpoint_id, alloc. st_rel_tac; apply st_rel_modify; by intros. }
  destruct (HF (pw_fresh _ _ Hwf)) as [_ F]. destruct HU as (? & ? & ? & ? & ? & ? & ? & ?).
  split; [by eapply plane_wf_frame|]. constructor; try done; apply F.
Qed.

(** ** The retention window *)

Lemma floor_spec m policy floor :
  0 < next_commit_seq m -> pitr_retention_floor m policy = Some floor ->
  0 < pitr_grace_commits policy /\
  floor = Z.max 0 (next_commit_seq m - pitr_grace_commits policy) /\ 0 <= floor < next_commit_seq m.
Proof.
  intros Hs. unfold pitr_retention_floor, current_commit_seq, saturating_sub.
  destruct (0 <? _) eqn:Hg; [|done]. intros [= <-]. bool_prop. split; [done|]. split; lia.
Qed.

Lemma retain_pitr_commit_spec m policy floor T :
  0 < next_commit_seq m -> pitr_retention_floor m policy = Some floor -> 0 <= T ->
  retain_pitr_commit m policy T = true <-> floor <= T.
Proof.
  intros Hs Hf HT. destruct (floor_spec _ _ _ Hs Hf) as (Hg & -> & _).
  unfold retain_pitr_commit, current_commit_seq, saturating_sub.
  rewrite andb_true_iff, !Z.ltb_lt. lia.
Qed.

Lemma retain_deleted_Some m policy d :
  retain_deleted_device m policy d = true -> is_Some (deleted_device_heads m !! d).
Proof.
  unfold retain_deleted_device. destruct (retain_deleted_devices policy).
  - by intros ?%bool_decide_eq_true.
  - by destruct (deleted_device_heads m !! d).
Qed.

(** The devices with an anchor: live ones and retained deleted ones. *)
Lemma block_targets_spec config m policy floor d T :
  plane_wf config m -> pitr_retention_floor m policy = Some floor ->
  block_pitr_anchor_targets m policy !! d = Some T <->
  exists h, (device_heads m !! d = Some h \/
      (deleted_device_heads m !! d = Some h /\ retain_deleted_device m policy d = true)) /\
    T = Z.min floor (dh_latest_commit h).
Proof.
  intros Hwf Hf. unfold block_pitr_anchor_targets. rewrite Hf.
  rewrite lookup_union_Some_raw, !lookup_fmap, !fmap_Some, fmap_None. split.
  - intros [(h & [Hh Hr]%map_lookup_filter_Some & ->)|[_ (h & Hh & ->)]]; exists h; split; [|done| |done].
    + by right.
    + by left.
  - intros (h & [Hh|[Hh Hr]] & ->).
    + right. split; [|by exists h]. apply map_lookup_filter_None. left.
      by apply (pw_disjoint _ _ Hwf); exists h.
    + left. exists h. split; [|done]. by apply map_lookup_filter_Some.
Qed.

Lemma owner_retained_spec m policy d :
  owner_has_retained_pitr m policy (OwnBlockDevice d) = true <->
  pitr_grace_commits policy <> 0 /\
  (is_Some (device_heads m !! d) \/ retain_deleted_device m policy d = true).
Proof.
  unfold owner_has_retained_pitr. destruct (_ =? 0) eqn:Hg; bool_prop; [naive_solver|].
  rewrite orb_true_iff, bool_decide_eq_true. tauto.
Qed.

Lemma quiet_targets m m' policy :
  quiet m m' -> block_pitr_anchor_targets m' policy = block_pitr_anchor_targets m policy /\
  pitr_retention_floor m' policy = pitr_retention_floor m policy /\
  (forall d, retain_deleted_device m' policy d = retain_deleted_device m policy d).
Proof.
  intros Q. unfold block_pitr_anchor_targets, pitr_retention_floor, retain_deleted_device, current_commit_seq.
  by rewrite (q_heads _ _ Q), (q_deleted _ _ Q), (q_seq _ _ Q).
Qed.

(** After the anchors are in place every target has its checkpoint. *)
Definition anchors_in_place (m : MetadataInner) (policy : RetentionPolicy) : Prop :=
  forall d T, block_pitr_anchor_targets m policy !! d = Some T -> has_checkpoint m (OwnBlockDevice d) T.

Lemma target_in_range config m policy d T :
  plane_wf config m -> block_pitr_anchor_targets m policy !! d = Some T -> target_ok m (d, T).
Proof.
  intros Hwf Ht. destruct (pitr_retention_floor m policy) as [floor|] eqn:Hf.
  2:{ unfold block_pitr_anchor_targets in Ht. by rewrite Hf, lookup_empty in Ht. }
  destruct (proj1 (block_targets_spec config m policy floor d T Hwf Hf) Ht) as (h & Hh & HT). rewrite HT.
  pose proof (floor_spec _ _ _ (pw_seq _ _ Hwf) Hf) as (_ & _ & Hf0).
  assert (Hlat : 0 <= dh_latest_commit h).
  { destruct Hh as [Hh|[Hh _]]; [destruct (pw_heads _ _ Hwf _ _ Hh) as (_ & _ & _ & _ & _ & ? & _)
      |destruct (pw_deleted _ _ Hwf _ _ Hh) as (_ & _ & _ & _ & _ & ? & _)]; lia. }
  split; cbn; [lia|]. intros h' Hh'. assert (h' = h) as ->; [|lia].
  destruct Hh as [Hh|[Hh _]], Hh' as [Hh'|Hh']; try congruence.
  - rewrite (pw_disjoint _ _ Hwf) in Hh' by eauto. done.
  - rewrite (pw_disjoint _ _ Hwf) in Hh by eauto. done.
Qed.

Lemma ensure_anchors_run config policy m r m' :
  plane_wf config m -> ensure_pitr_anchor_checkpoints policy m = (r, m') ->
  plane_wf config m' /\ quiet m m' /\ (r = Ok tt -> anchors_in_place m' policy).
Proof.
  intros Hwf. unfold ensure_pitr_anchor_checkpoints, st_gets, mbind, ST_bind.
  set (R := quiet_wf config).
  destruct (st_for ensure_block_anchor _ m) as [r1 m1] eqn:H1.
  apply (st_for_run R (fun t m => plane_wf config m /\ has_checkpoint m (OwnBlockDevice t.1) t.2)) in H1 as [HR1 HQ1].
  - destruct (HR1 Hwf) as [Hwf1 Q1].
    assert (Hanch : r1 = Ok tt -> anchors_in_place m1 policy).
    { intros -> d T Ht. apply (HQ1 eq_refl (d, T)), elem_of_bt_iter.
      by rewrite (proj1 (quiet_targets _ _ policy Q1)) in Ht. }
    destruct r1 as [[]|e]; [|intros [= <- <-]; by split_and!].
    destruct (st_for ensure_keyspace_anchor _ m1) as [r2 m2] eqn:H2. intros [= <- <-].
    apply (st_for_run R (fun _ _ => True)) in H2 as [HR2 _].
    + destruct (HR2 Hwf1) as [Hwf2 Q2]. split_and!; [done|by etrans|]. intros _ d T Ht.
      rewrite (proj1 (quiet_targets _ _ policy Q2)) in Ht.
      destruct (Hanch eq_refl d T Ht) as (k & c & Hk & Hc). exists k, c. split; [|done].
      by eapply lookup_weaken, (q_cps _ _ Q2).
    + intros t s1 r3 s2 _ _ Hrun. split; [|done]. intros Hs1. by eapply ensure_keyspace_anchor_run.
    + done.
  - intros [d T] s1 r3 s2 Hin HR Hrun. cbn [fst snd]. destruct (HR Hwf) as [Hs1 Q].
    assert (Ht : target_ok s1 (d, T)).
    { unfold target_ok. rewrite (q_heads _ _ Q), (q_deleted _ _ Q).
      apply (target_in_range config m policy); [done|]. by apply elem_of_bt_iter in Hin. }
    destruct (ensure_block_anchor_run config _ _ _ _ Hs1 Ht Hrun) as [[Hs2 ?] Hcp].
    split; [by intros _|]. intros Hr3. split; [done|by apply Hcp].
  - intros t s1 s2 HR [Hs1 (k & c & Hk & Hc)]. destruct (HR Hs1) as [Hs2 Q]. split; [done|].
    exists k, c. split; [|done]. by eapply lookup_weaken, (q_cps _ _ Q).
Qed.

(** ** The anchor of a device *)

Lemma latest_floor_spec m owner floor id :
  latest_checkpoint_at_or_before_floor m owner floor = Some id ->
  exists k c, checkpoints m !! k = Some c /\ cp_checkpoint_id c = id /\ cp_owner c = owner /\
    cp_commit_seq c <= floor /\
    forall k' c', checkpoints m !! k' = Some c' -> cp_owner c' = owner -> cp_commit_seq c' <= floor ->
      cp_commit_seq c' <= cp_commit_seq c.
Proof.
  unfold latest_checkpoint_at_or_before_floor. intros (c & Hmax & ->)%fmap_Some.
  apply max_by_key_Some in Hmax as [Hin Hmax].
  apply list_elem_of_filter in Hin as [[Ho Hle] [k Hk]%elem_of_bt_values].
  exists k, c. split_and!; try done. intros k' c' Hk' Ho' Hle'. apply Hmax.
  apply list_elem_of_filter. split; [done|]. apply elem_of_bt_values. eauto.
Qed.

Lemma latest_floor_exists m owner floor k c :
  checkpoints m !! k = Some c -> cp_owner c = owner -> cp_commit_seq c <= floor ->
  is_Some (latest_checkpoint_at_or_before_floor m owner floor).
Proof.
  intros Hk Ho Hle. unfold latest_checkpoint_at_or_before_floor. rewrite fmap_is_Some.
  destruct (max_by_key _ _) eqn:Hmax; [by eauto|]. apply max_by_key_None in Hmax.
  assert (Hin : c ∈ @nil Checkpoint).
  { rewrite <-Hmax. apply list_elem_of_filter. split; [done|]. apply elem_of_bt_values. eauto. }
  by apply not_elem_of_nil in Hin.
Qed.

(** [a] is where the retained history of [d] starts. *)
Definition is_anchor (m : MetadataInner) (policy : RetentionPolicy) (d : DeviceId) (floor : CommitSeq)
    (a : Checkpoint) : Prop :=
  retained_pitr_anchor m policy (OwnBlockDevice d) = Some a /\
  (exists k, checkpoints m !! k = Some a) /\ cp_owner a = OwnBlockDevice d /\ cp_commit_seq a <= floor /\
  forall k' c', checkpoints m !! k' = Some c' -> cp_owner c' = OwnBlockDevice d ->
    cp_commit_seq c' <= floor -> cp_commit_seq c' <= cp_commit_seq a.

Lemma anchor_exists config m policy floor d :
  plane_wf config m -> pitr_retention_floor m policy = Some floor -> anchors_in_place m policy ->
  owner_has_retained_pitr m policy (OwnBlockDevice d) = true ->
  exists a, is_anchor m policy d floor a /\
    retained_shard_commit_cutoffs m policy !! d = Some (cp_commit_seq a).
Proof.
  intros Hwf Hf Hanch [_ Hd]%owner_retained_spec.
  assert (Ht : exists T, block_pitr_anchor_targets m policy !! d = Some T /\ T <= floor).
  { destruct Hd as [[h Hh]|Hd].
    - exists (Z.min floor (dh_latest_commit h)). split; [|lia].
      apply (block_targets_spec config m policy floor); [done..|]. exists h. split; [by left|done].
    - destruct (retain_deleted_Some _ _ _ Hd) as [h Hh].
      exists (Z.min floor (dh_latest_commit h)). split; [|lia].
      apply (block_targets_spec config m policy floor); [done..|]. exists h. split; [by right|done]. }
  destruct Ht as (T & Ht & HT). destruct (Hanch d T Ht) as (k0 & c0 & Hk0 & Ho0 & Hs0).
  destruct (latest_floor_exists m (OwnBlockDevice d) floor k0 c0) as [id Hid]; [done|done|lia|].
  pose proof (latest_floor_spec _ _ _ _ Hid) as (k & a & Hk & Hka & Ho & Hle & Hmax).
  assert (id = k) as -> by (destruct (pw_checkpoints _ _ Hwf _ _ Hk) as [? _]; congruence).
  assert (Hret : retained_pitr_anchor m policy (OwnBlockDevice d) = Some a).
  { unfold retained_pitr_anchor. rewrite Hf. cbn. rewrite Hid. cbn. done. }
  exists a. split; [split_and!; [done|by exists k|done..]|].
  unfold retained_shard_commit_cutoffs. rewrite map_lookup_imap, Ht. cbn. by rewrite Hret.
Qed.

(** A checkpoint that is retained is at the anchor or after it. *)
Lemma retained_after_anchor config m policy floor d a k c :
  plane_wf config m -> pitr_retention_floor m policy = Some floor -> is_anchor m policy d floor a ->
  checkpoints m !! k = Some c -> cp_owner c = OwnBlockDevice d ->
  retain_checkpoint_for_pitr m policy c = true -> cp_commit_seq a <= cp_commit_seq c.
Proof.
  intros Hwf Hf (Hret & _ & _ & Hle & Hmax) Hk Ho Hr. unfold retain_checkpoint_for_pitr in Hr.
  apply orb_prop in Hr as [Hr|Hr].
  - destruct (pw_checkpoints _ _ Hwf _ _ Hk) as [_ Hb]. destruct (Hb d Ho) as ([? _] & _).
    apply (retain_pitr_commit_spec m policy floor) in Hr; [lia|apply Hwf|done|done].
  - rewrite Ho, Hret in Hr. apply Z.eqb_eq in Hr.
    destruct (pw_checkpoints _ _ Hwf _ _ Hk) as [Hkid _].
    unfold retained_pitr_anchor in Hret. rewrite Hf in Hret. cbn in Hret.
    apply bind_Some in Hret as (id & _ & Hid).
    destruct (pw_checkpoints _ _ Hwf _ _ Hid) as [Hidid _].
    assert (c = a) as -> by congruence. lia.
Qed.

(** ** The roots of a collection *)

Lemma dedup_elem (l : list Z) x : x ∈ dedup l <-> x ∈ l.
Proof.
  induction l as [|y l IH]; [done|]. cbn [dedup]. destruct l as [|z l]; [done|].
  destruct (y =? z) eqn:Hyz; bool_prop.
  - subst. rewrite IH. rewrite !elem_of_cons. tauto.
  - rewrite (elem_of_cons _ x y), (elem_of_cons (z :: l)), IH. tauto.
Qed.

(** A node id that must survive a collection under [policy]. *)
Inductive gc_root (m : MetadataInner) (policy : RetentionPolicy) (id : MetadataNodeId) : Prop :=
| gr_head d h : device_heads m !! d = Some h -> id ∈ dh_shard_roots h -> gc_root m policy id
| gr_keyspace k h s rs : keyspace_heads m !! k = Some h -> s ∈ kh_shard_roots h ->
    keyspace_shard_metadata_roots m s = Ok rs -> id ∈ rs -> gc_root m policy id
| gr_deleted d h : deleted_device_heads m !! d = Some h -> retain_deleted_device m policy d = true ->
    id ∈ dh_shard_roots h -> gc_root m policy id
| gr_checkpoint k c r d : checkpoints m !! k = Some c -> checkpoint_retained m policy c = true ->
    cp_owner c = OwnBlockDevice d -> cp_roots c = CrBlockShard r -> id ∈ r -> gc_root m policy id
| gr_commit c : c ∈ shard_commits m -> retain_shard_commit_for_pitr m policy c = true ->
    id = sc_new_root c -> gc_root m policy id.

Lemma try_map_elem {A B} (f : A -> Result B) l ys x :
  try_map f l = Ok ys -> x ∈ l -> exists y, f x = Ok y /\ y ∈ ys.
Proof.
  intros H%try_map_Ok Hx. induction H as [|a b l ys Hab HF IH]; [by apply not_elem_of_nil in Hx|].
  apply elem_of_cons in Hx as [->|Hx]; [exists b; split; [done|by left]|].
  destruct (IH Hx) as (y & ? & ?). exists y. split; [done|by right].
Qed.

Lemma elem_of_concat_of {A} (x : A) (l : list A) ls : l ∈ ls -> x ∈ l -> x ∈ concat ls.
Proof. intros Hl Hx. apply list_elem_of_In, in_concat. exists l. by rewrite <-!list_elem_of_In. Qed.

Lemma roots_for_gc_spec m policy roots id :
  roots_for_gc_locked m policy = Ok roots -> gc_root m policy id -> id ∈ roots.
Proof.
  unfold roots_for_gc_locked. intros (ks & Hks & H)%bind_Ok.
  apply bind_Ok in H as (cps & Hcps & H). apply bind_Ok in H as (kcs & Hkcs & [= <-]).
  intros Hr. apply dedup_elem. rewrite sort_by_key_perm, !elem_of_app. destruct Hr.
  - left. eapply elem_of_concat_of; [|done]. apply list_elem_of_fmap. exists h. split; [done|].
    apply elem_of_bt_values. eauto.
  - right; left. destruct (try_map_elem _ _ _ h Hks) as (out & Hout & Hin).
    { apply elem_of_bt_values. eauto. }
    apply bind_Ok in Hout as (parts & Hparts & [= <-]).
    destruct (try_map_elem _ _ _ s Hparts) as (y & Hy & Hyin); [done|].
    eapply elem_of_concat_of; [exact Hin|]. eapply elem_of_concat_of; [exact Hyin|]. congruence.
  - do 5 right; left. eapply elem_of_concat_of; [|done]. apply list_elem_of_fmap. exists (d, h).
    split; [done|]. apply list_elem_of_filter. split; [done|]. by apply elem_of_bt_iter.
  - do 2 right; left. destruct (try_map_elem _ _ _ c Hcps) as (y & Hy & Hyin).
    { apply elem_of_bt_values. eauto. }
    eapply elem_of_concat_of; [exact Hyin|]. unfold checkpoint_gc_roots in Hy.
    rewrite H0, H1 in Hy. unfold checkpoint_block_roots in Hy. rewrite H2 in Hy. congruence.
  - do 3 right; left. apply list_elem_of_fmap. exists c. split; [done|].
    by apply list_elem_of_filter.
Qed.

(** ** The sweep *)

(** The state after a sweep that removed the nodes [cand]. *)
Definition swept (m : MetadataInner) (policy : RetentionPolicy) (cand : gset MetadataNodeId)
    : MetadataInner :=
  trim_timelines policy (set_metadata_last_mark_epoch
    (filter (fun p => p.1 ∉ cand) (metadata_last_mark_epoch m))
    (set_metadata_nodes (filter (fun p => p.1 ∉ cand) (metadata_nodes m)) m)).

Lemma swept_fields m policy cand :
  let m' := swept m policy cand in
  let expired := expired_devices m policy in
  device_heads m' = device_heads m /\ keyspace_heads m' = keyspace_heads m /\
  keyspace_catalog_shards m' = keyspace_catalog_shards m /\
  next_commit_seq m' = next_commit_seq m /\ next_device_id m' = next_device_id m /\
  next_metadata_node_id m' = next_metadata_node_id m /\ next_checkpoint_id m' = next_checkpoint_id m /\
  metadata_nodes m' = filter (fun p => p.1 ∉ cand) (metadata_nodes m) /\
  deleted_device_heads m' = filter (fun p => p.1 ∉ expired) (deleted_device_heads m) /\
  device_specs m' = filter (fun p => p.1 ∉ expired) (device_specs m) /\
  shard_commits m' = filter (fun c => (sc_device_id c ∉ expired) /\
    after_cutoff (retained_shard_commit_cutoffs m policy) (sc_device_id c) (sc_commit_seq c) = true)
    (shard_commits m) /\
  checkpoints m' = filter (fun p => checkpoint_kept expired (retained_checkpoint_ids m policy) p.2 = true)
    (checkpoints m).
Proof. destruct m. split_and!; reflexivity. Qed.

Lemma sweep_shape policy epoch m rep m' :
  sweep_unmarked_after_mark policy epoch m = (Ok rep, m') ->
  exists m1 roots out,
    ensure_pitr_anchor_checkpoints policy m = (Ok tt, m1) /\
    roots_for_gc_locked m1 policy = Ok roots /\ collect_reachable m1 roots = Ok out /\
    m' = swept m1 policy (sweep_candidates m1 epoch out.1) /\
    rep = mkMetadataSweepReport epoch (bs_iter (sweep_candidates m1 epoch out.1))
      (bs_iter (released_segments m1 epoch out.2)).
Proof.
  unfold sweep_unmarked_after_mark. intros H.
  apply st_bind_Ok in H as (u1 & s1 & H1 & H). apply st_reject_if_Ok in H1 as [_ ->].
  unfold st_gets in H. apply st_bind_Ok in H as (n & s2 & [= <- <-] & H).
  apply st_bind_Ok in H as (u2 & s3 & H1 & H). apply st_reject_if_Ok in H1 as [_ ->].
  apply st_bind_Ok in H as ([] & m1 & Hens & H).
  unfold st_get in H. apply st_bind_Ok in H as (? & ? & [= <- <-] & H).
  apply st_bind_Ok in H as (roots & s4 & Hr & H). apply st_lift_Ok in Hr as [Hr ->].
  apply st_bind_Ok in H as (out & s5 & Hc & H). apply st_lift_Ok in Hc as [Hc ->].
  exists m1, roots, out. split_and!; [done..| |]; revert H;
    unfold st_modify, mret, ST_ret, mbind, ST_bind; by intros [= <- <-].
Qed.

Section swept.
Context (config : LocalStoreConfig) (m : MetadataInner) (policy : RetentionPolicy) (epoch : Z).
Context (roots : list MetadataNodeId) (out : gset MetadataNodeId * gset SegmentId).
Hypothesis Hwf : plane_wf config m.
Hypothesis Hanch : anchors_in_place m policy.
Hypothesis Hroots : roots_for_gc_locked m policy = Ok roots.
Hypothesis Hout : collect_reachable m roots = Ok out.
Local Abbreviation cand := (sweep_candidates m epoch out.1).
Local Abbreviation m' := (swept m policy cand).

(** Nothing below a root is removed. *)
Lemma swept_nodes id :
  reach (metadata_nodes m) roots id ->
  is_Some (metadata_nodes m !! id) /\ metadata_nodes m' !! id = metadata_nodes m !! id.
Proof using Hout.
  intros Hid. pose proof (collect_reachable_spec m roots) as Hspec. rewrite Hout in Hspec.
  destruct Hspec as (Hin & Hsome & _). split; [by apply Hsome|].
  destruct (swept_fields m policy cand) as (_ & _ & _ & _ & _ & _ & _ & -> & _).
  destruct (Hsome id Hid) as [n Hn]. rewrite Hn. apply map_lookup_filter_Some. split; [done|].
  cbn. unfold sweep_candidates. rewrite elem_of_filter. intros [[_ Hnot] _]. by apply Hnot, Hin.
Qed.

Lemma swept_root id : gc_root m policy id -> reach (metadata_nodes m) roots id.
Proof using Hroots. intros Hid. apply reach_root. by eapply roots_for_gc_spec. Qed.

Lemma swept_below rs id :
  Forall (gc_root m policy) rs -> reach (metadata_nodes m) rs id -> reach (metadata_nodes m) roots id.
Proof using Hroots.
  intros Hrs. rewrite Forall_forall in Hrs. induction 1 as [r Hr|p n c _ IH Hp Hc].
  - by apply swept_root, Hrs.
  - by eapply reach_child.
Qed.

Lemma elem_of_expired d :
  d ∈ expired_devices m policy <->
  is_Some (deleted_device_heads m !! d) /\ retain_deleted_device m policy d = false.
Proof. unfold expired_devices. rewrite elem_of_filter, elem_of_dom. tauto. Qed.

Lemma live_not_expired d : is_Some (device_heads m !! d) -> d ∉ expired_devices m policy.
Proof using Hwf.
  intros Hd [[h Hh] _]%elem_of_expired. by rewrite (pw_disjoint _ _ Hwf d Hd) in Hh.
Qed.

Lemma owner_not_expired d :
  owner_has_retained_pitr m policy (OwnBlockDevice d) = true -> d ∉ expired_devices m policy.
Proof using Hwf.
  intros [_ [Hd|Hd]]%owner_retained_spec; [by apply live_not_expired|].
  intros [_ He]%elem_of_expired. congruence.
Qed.

Lemma swept_device_roots d : d ∉ expired_devices m policy -> device_roots m' d = device_roots m d.
Proof.
  intros Hd. unfold device_roots. destruct (swept_fields m policy cand)
    as (-> & _ & _ & _ & _ & _ & _ & _ & -> & _).
  destruct (device_heads m !! d) as [h|]; [done|]. f_equal.
  destruct (deleted_device_heads m !! d) as [h|] eqn:Hh.
  - by apply map_lookup_filter_Some.
  - apply map_lookup_filter_None. by left.
Qed.

(** The commits after the anchor are kept. *)
Lemma swept_commits_after d c T :
  d ∉ expired_devices m policy -> retained_shard_commit_cutoffs m policy !! d = Some c -> c <= T ->
  commits_after m' d T = commits_after m d T.
Proof.
  intros Hd Hc HT. unfold commits_after, shard_commits_for_device, sort_by_tuple.
  rewrite !filter_sort_by by eauto using lex_leb_total, lex_leb_trans. f_equal.
  destruct (swept_fields m policy cand) as (_ & _ & _ & _ & _ & _ & _ & _ & _ & _ & -> & _).
  rewrite !list_filter_filter. apply list_filter_iff. intros x. unfold after_cutoff. split.
  - by intros [? _].
  - intros [? <-]. split_and!; [done|done|done|]. rewrite Hc. apply Z.ltb_lt. lia.
Qed.

Lemma swept_roots_at d c T r :
  d ∉ expired_devices m policy -> retained_shard_commit_cutoffs m policy !! d = Some c -> c <= T ->
  roots_at m' d T r <-> roots_at m d T r.
Proof.
  intros Hd Hc HT. unfold roots_at. by rewrite (swept_device_roots d Hd), (swept_commits_after d c T).
Qed.

Lemma swept_checkpoint k c :
  checkpoints m' !! k = Some c ->
  checkpoints m !! k = Some c /\ checkpoint_retained m policy c = true.
Proof using Hwf.
  destruct (swept_fields m policy cand) as (_ & _ & _ & _ & _ & _ & _ & _ & _ & _ & _ & ->).
  intros [Hk Hkept]%map_lookup_filter_Some. split; [done|].
  assert (Hin : cp_checkpoint_id c ∈ retained_checkpoint_ids m policy).
  { unfold checkpoint_kept in Hkept. cbn in Hkept. destruct (cp_owner c).
    - apply andb_prop in Hkept as [_ H]. by apply bool_decide_eq_true in H.
    - by apply bool_decide_eq_true in Hkept. }
  unfold retained_checkpoint_ids in Hin. rewrite elem_of_list_to_set in Hin.
  apply list_elem_of_fmap in Hin as (c' & Hid & [Hret [k' Hk']%elem_of_bt_values]%list_elem_of_filter).
  destruct (pw_checkpoints _ _ Hwf _ _ Hk) as [? _]. destruct (pw_checkpoints _ _ Hwf _ _ Hk') as [? _].
  assert (c' = c) as -> by congruence. done.
Qed.

Lemma swept_checkpoint_kept k c :
  checkpoints m !! k = Some c -> checkpoint_retained m policy c = true -> checkpoints m' !! k = Some c.
Proof using Hwf.
  intros Hk Hret. destruct (swept_fields m policy cand) as (_ & _ & _ & _ & _ & _ & _ & _ & _ & _ & _ & ->).
  apply map_lookup_filter_Some. split; [done|]. cbn. unfold checkpoint_kept.
  assert (Hin : cp_checkpoint_id c ∈ retained_checkpoint_ids m policy).
  { unfold retained_checkpoint_ids. rewrite elem_of_list_to_set. apply list_elem_of_fmap.
    exists c. split; [done|]. apply list_elem_of_filter. split; [done|]. apply elem_of_bt_values. eauto. }
  apply andb_prop in Hret as [Ho _]. destruct (cp_owner c).
  - rewrite !bool_decide_eq_true_2; [done|done|by apply owner_not_expired].
  - by rewrite bool_decide_eq_true_2.
Qed.

(** A head whose roots are roots of the collection stays well formed. *)
Lemma swept_head d h :
  head_ok config m d h -> d ∉ expired_devices m policy -> Forall (gc_root m policy) (dh_shard_roots h) ->
  head_ok config m' d h.
Proof using Hwf Hroots Hout.
  intros (H1 & H2 & Hg & H3 & H4 & H5 & H6 & H7 & H8) Hd Hr.
  destruct (swept_fields m policy cand) as (_ & _ & _ & Es & Ed & _ & _ & _ & _ & Esp & Ec & _).
  unfold head_ok. rewrite Es, Ed, Esp, Ec. split_and!; try done; try lia.
  - eapply Forall_impl; [exact Hr|]. intros r Hgr.
    destruct (swept_nodes r (swept_root r Hgr)) as [? ->]. done.
  - destruct H6 as [sp Hsp]. exists sp. by apply map_lookup_filter_Some.
  - intros c [_ Hc]%list_elem_of_filter. by apply H7.
  - intros k c [Hk _]%swept_checkpoint. by apply (H8 k).
Qed.

Lemma retained_cutoff d :
  owner_has_retained_pitr m policy (OwnBlockDevice d) = true ->
  forall floor, pitr_retention_floor m policy = Some floor ->
  exists a, is_anchor m policy d floor a /\
    retained_shard_commit_cutoffs m policy !! d = Some (cp_commit_seq a).
Proof using Hwf Hanch. intros Ho floor Hf. by eapply anchor_exists. Qed.

Lemma retained_floor c :
  checkpoint_retained m policy c = true -> is_Some (pitr_retention_floor m policy).
Proof.
  unfold checkpoint_retained, retain_checkpoint_for_pitr, retain_pitr_commit, retained_pitr_anchor,
    pitr_retention_floor. destruct (0 <? _); [by eauto|]. cbn. by rewrite andb_false_r.
Qed.

Lemma swept_checkpoint_ok k c : checkpoints m' !! k = Some c -> checkpoint_ok m' k c.
Proof using Hwf Hanch.
  intros [Hk Hret]%swept_checkpoint. destruct (pw_checkpoints _ _ Hwf _ _ Hk) as [Hid Hb].
  split; [done|]. intros d Ho. destruct (Hb d Ho) as (Hseq & Ht & r & Hr & Hat).
  destruct (swept_fields m policy cand) as (_ & _ & _ & -> & _). split_and!; [lia..|done|].
  exists r. split; [done|]. destruct (retained_floor c Hret) as [floor Hf].
  apply andb_prop in Hret as [Hown Hret]. rewrite Ho in Hown.
  destruct (retained_cutoff d Hown floor Hf) as (a & Ha & Hcut).
  apply (swept_roots_at d (cp_commit_seq a)); [by apply owner_not_expired|done| |done].
  by eapply retained_after_anchor.
Qed.

Lemma swept_wf : plane_wf config m'.
Proof using Hwf Hanch Hroots Hout.
  destruct (swept_fields m policy cand) as (Eh & _ & _ & Es & _ & En & Ek & Em & Edl & _ & Ec & Ecp).
  constructor.
  - rewrite Es. apply Hwf.
  - destruct (pw_fresh _ _ Hwf) as [F1 F2]. split.
    + rewrite Em, En. intros id [n [Hn _]%map_lookup_filter_Some]. apply F1. by eauto.
    + rewrite Ek. intros k [c [Hc _]%swept_checkpoint]. apply F2. by eauto.
  - rewrite Eh. intros d h Hh. apply swept_head; [by apply (pw_heads _ _ Hwf)|apply live_not_expired; by eauto|].
    apply Forall_forall. intros r Hr. by eapply gr_head.
  - rewrite Edl. intros d h [Hh Hd]%map_lookup_filter_Some. apply swept_head; [by apply (pw_deleted _ _ Hwf)|done|].
    apply Forall_forall. intros r Hr. eapply gr_deleted; [done| |done].
    apply not_false_is_true. intros Hf. apply Hd, elem_of_expired. cbn. by eauto.
  - rewrite Eh, Edl. intros d Hd. apply map_lookup_filter_None. left. by apply Hwf.
  - intros k c. apply swept_checkpoint_ok.
  - rewrite Ec. apply Forall_forall. intros c [[Hd _] Hc]%list_elem_of_filter.
    pose proof (pw_commits _ _ Hwf) as Hcs. rewrite Forall_forall in Hcs.
    destruct (Hcs c Hc) as (? & ? & ? & Hdr). unfold commit_ok. rewrite Es, (swept_device_roots _ Hd).
    split_and!; try done; lia.
Qed.

(** Inside the window replay starts at the anchor or later, and all it meets
    are roots of the collection. *)
Lemma swept_replay d floor T r :
  owner_has_retained_pitr m policy (OwnBlockDevice d) = true ->
  pitr_retention_floor m policy = Some floor -> floor <= T ->
  replay_device_roots m d T None = Ok r ->
  replay_device_roots m' d T None = Ok r /\ Forall (gc_root m policy) r.
Proof using Hwf Hanch Hroots Hout.
  intros Ho Hf HT Hr. destruct (retained_cutoff d Ho floor Hf) as (a & Ha & Hcut).
  pose proof Ha as (Hret & (k & Hk) & Hown & Hle & Hmax).
  assert (Hkept : checkpoint_retained m policy a = true).
  { unfold checkpoint_retained, retain_checkpoint_for_pitr. rewrite Hown, Ho, Hret, Z.eqb_refl.
    by rewrite orb_true_r. }
  apply (replay_device_roots_Ok config) in Hr as [Hat _]; [|done]. split.
  - apply (replay_device_roots_Ok config); [apply swept_wf|]. split.
    + apply (swept_roots_at d (cp_commit_seq a)); [by apply owner_not_expired|done|lia|done].
    + exists k, a. split_and!; [by apply swept_checkpoint_kept|done|lia].
  - destruct (pw_checkpoints _ _ Hwf _ _ Hk) as [_ Hb].
    destruct (Hb d Hown) as (_ & _ & r0 & Hr0 & cur & Hcur & Hrep).
    rewrite (commits_between m d _ T) in Hrep by lia. unfold replay in Hrep.
    rewrite try_fold_app in Hrep. apply bind_Ok in Hrep as (r1 & Hr1 & Hrep).
    assert (r1 = r) as ->. { eapply roots_at_unique; [|exact Hat]. exists cur. by split. }
    eapply replay_Forall; [| |exact Hr1]; apply Forall_forall.
    + intros x Hx. by eapply gr_checkpoint.
    + intros c [[Hac _] [Hc Hd]%elem_of_device_commits]%list_elem_of_filter.
      eapply gr_commit; [exact Hc| |done]. unfold retain_shard_commit_for_pitr, retain_commit_for_pitr.
      rewrite Hd, Ho, Hret. cbn [negb]. apply orb_true_intro. left. by apply Z.ltb_lt.
Qed.
End swept.

(** ** What a collection promises *)

(** A root that some live device or file uses. *)
Inductive live_root (m : MetadataInner) (id : MetadataNodeId) : Prop :=
| lr_device d h : device_heads m !! d = Some h -> id ∈ dh_shard_roots h -> live_root m id
| lr_file k h s shard f e : keyspace_heads m !! k = Some h -> s ∈ kh_shard_roots h ->
    keyspace_catalog_shards m !! s = Some shard -> kcs_files shard !! f = Some e ->
    id = fh_root (kf_head e) -> live_root m id.

Lemma live_root_gc m policy id : live_root m id -> gc_root m policy id.
Proof.
  intros [d h Hh Hid|k h s shard f e Hh Hs Hshard Hf ->]; [by eapply gr_head|].
  eapply gr_keyspace; [exact Hh|exact Hs| |].
  - unfold keyspace_shard_metadata_roots, keyspace_catalog_shard_locked. by rewrite Hshard.
  - apply list_elem_of_fmap. exists e. split; [done|]. apply elem_of_bt_values. eauto.
Qed.

Lemma live_root_quiet m m' id : quiet m m' -> live_root m id -> live_root m' id.
Proof.
  intros Q [d h Hh Hid|k h s shard f e Hh Hs Hshard Hf ->].
  - eapply lr_device; [|exact Hid]. by rewrite (q_heads _ _ Q).
  - eapply lr_file; [|exact Hs| |exact Hf|done].
    + by rewrite (q_keyspaces _ _ Q).
    + by rewrite (q_shards _ _ Q).
Qed.

(** The state a sweep works on. *)
Lemma sweep_run config policy epoch m rep m' :
  plane_wf config m -> sweep_unmarked_after_mark policy epoch m = (Ok rep, m') ->
  exists m1 roots out,
    roots_for_gc policy m = (Ok roots, m1) /\ plane_wf config m1 /\ quiet m m1 /\
    anchors_in_place m1 policy /\ roots_for_gc_locked m1 policy = Ok roots /\
    collect_reachable m1 roots = Ok out /\
    m' = swept m1 policy (sweep_candidates m1 epoch out.1) /\
    rep = mkMetadataSweepReport epoch (bs_iter (sweep_candidates m1 epoch out.1))
      (bs_iter (released_segments m1 epoch out.2)).
Proof.
  intros Hwf (m1 & roots & out & Hens & Hr & Hc & Hm & Hrep)%sweep_shape.
  destruct (ensure_anchors_run config _ _ _ _ Hwf Hens) as (Hwf1 & Q & Hanch).
  exists m1, roots, out. split_and!; try done; [|by apply Hanch].
  unfold roots_for_gc, st_ask, mbind, ST_bind. by rewrite Hens, Hr.
Qed.

(** Nothing below live roots is removed, and no segment there is released. *)
Lemma sweep_live config m policy epoch rep m' rs id :
  plane_wf config m -> sweep_unmarked_after_mark policy epoch m = (Ok rep, m') ->
  Forall (live_root m) rs -> reach (metadata_nodes m) rs id ->
  exists n, metadata_nodes m !! id = Some n /\ metadata_nodes m' !! id = Some n /\
    forall s, s ∈ node_segments n -> s ∉ sw_released_segments rep.
Proof.
  intros Hwf (m1 & roots & out & _ & Hwf1 & Q & Hanch & Hr & Hc & -> & ->)%(sweep_run config) Hrs Hid; [|done].
  rewrite <-(q_nodes _ _ Q) in *.
  assert (Hreach : reach (metadata_nodes m1) roots id).
  { eapply (swept_below m1 policy); [exact Hr| |exact Hid]. eapply Forall_impl; [exact Hrs|].
    intros x Hx. apply live_root_gc. by eapply live_root_quiet. }
  destruct (swept_nodes m1 policy epoch roots out Hc id Hreach) as [[n Hn] Heq].
  exists n. split_and!; [done|by rewrite Heq|]. cbn. intros s Hs [[_ Hnot] _]%elem_of_bs_iter%elem_of_filter.
  pose proof (collect_reachable_spec m1 roots) as Hspec. rewrite Hc in Hspec.
  destruct Hspec as (_ & _ & Hseg). apply Hnot, Hseg. eauto.
Qed.

(** C9: A sweep is safe for everything in use: it keeps the invariant of the plane,
    every device and keyspace head, and every metadata node below a root of a live
    device or file, with its contents; and no segment such a node refers to is
    released. *)
Theorem sweep_keeps_live config m policy epoch rep m' :
  plane_wf config m -> sweep_unmarked_after_mark policy epoch m = (Ok rep, m') ->
  plane_wf config m' /\ device_heads m' = device_heads m /\ keyspace_heads m' = keyspace_heads m /\
  keyspace_catalog_shards m' = keyspace_catalog_shards m /\
  forall rs id, Forall (live_root m) rs -> reach (metadata_nodes m) rs id ->
    exists n, metadata_nodes m !! id = Some n /\ metadata_nodes m' !! id = Some n /\
      forall s, s ∈ node_segments n -> s ∉ sw_released_segments rep.
Proof.
  intros Hwf Hrun. split_and!; [..|intros rs id; by eapply sweep_live];
    apply (sweep_run config) in Hrun as (m1 & roots & out & _ & Hwf1 & Q & Hanch & Hr & Hc & -> & ->); try done.
  - by eapply swept_wf.
  - destruct (swept_fields m1 policy (sweep_candidates m1 epoch out.1)) as (-> & _). apply Q.
  - destruct (swept_fields m1 policy (sweep_candidates m1 epoch out.1)) as (_ & -> & _). apply Q.
  - destruct (swept_fields m1 policy (sweep_candidates m1 epoch out.1)) as (_ & _ & -> & _). apply Q.
Qed.

(** C10: A sweep keeps point-in-time restore inside the retention window: if the
    device is live, or deleted and retained, every commit from the floor of the
    window on replays after the sweep to the roots it replayed to before, and
    every node below these roots is still there. *)
Theorem sweep_keeps_pitr config m policy epoch rep m' d floor T r :
  plane_wf config m -> sweep_unmarked_after_mark policy epoch m = (Ok rep, m') ->
  owner_has_retained_pitr m policy (OwnBlockDevice d) = true ->
  pitr_retention_floor m policy = Some floor -> floor <= T ->
  replay_device_roots m d T None = Ok r ->
  replay_device_roots m' d T None = Ok r /\
  forall id, reach (metadata_nodes m) r id ->
    is_Some (metadata_nodes m !! id) /\ metadata_nodes m' !! id = metadata_nodes m !! id.
Proof.
  intros Hwf (m1 & roots & out & _ & Hwf1 & Q & Hanch & Hr & Hc & -> & ->)%(sweep_run config);
    [|done]. intros Ho Hf HT Hrep. destruct (quiet_targets _ _ policy Q) as (_ & Hf1 & Hd1).
  apply (replay_device_roots_Ok config) in Hrep as [Hat (k & c & Hk & Hc0)]; [|done].
  assert (Hrep1 : replay_device_roots m1 d T None = Ok r).
  { apply (replay_device_roots_Ok config); [done|]. split.
    - revert Hat. unfold roots_at, device_roots, commits_after, shard_commits_for_device.
      by rewrite (q_heads _ _ Q), (q_deleted _ _ Q), (q_commits _ _ Q).
    - exists k, c. split; [|done]. by eapply lookup_weaken, (q_cps _ _ Q). }
  destruct (swept_replay config m1 policy epoch roots out Hwf1 Hanch Hr Hc d floor T r)
    as [Hrep' Hroots]; [|by rewrite Hf1|done|done|].
  { rewrite owner_retained_spec in *. by rewrite (q_heads _ _ Q), Hd1. }
  split; [done|]. intros id Hid. rewrite <-(q_nodes _ _ Q) in *.
  apply (swept_nodes m1 policy epoch roots out Hc). by eapply swept_below.
Qed.

(** C11: A sweep removes exactly the garbage: the nodes it reports and removes are
    those stored nodes that are neither marked in the epoch nor reachable from the
    current roots; all other nodes stay, and it releases exactly the segments of
    stored nodes that are neither marked nor held by a reachable node. *)
Theorem sweep_exact config m policy epoch rep m' :
  plane_wf config m -> sweep_unmarked_after_mark policy epoch m = (Ok rep, m') ->
  exists roots m1, roots_for_gc policy m = (Ok roots, m1) /\
    (forall id, id ∈ sw_deleted_metadata_nodes rep <->
      is_Some (metadata_nodes m !! id) /\ metadata_last_mark_epoch m !! id <> Some epoch /\
      ~ reach (metadata_nodes m) roots id) /\
    (forall id n, metadata_nodes m' !! id = Some n <->
      metadata_nodes m !! id = Some n /\ id ∉ sw_deleted_metadata_nodes rep) /\
    (forall s, s ∈ sw_released_segments rep <->
      (exists id n, metadata_nodes m !! id = Some n /\ s ∈ node_segments n) /\
      segment_last_mark_epoch m !! s <> Some epoch /\
      forall id n, reach (metadata_nodes m) roots id -> metadata_nodes m !! id = Some n ->
        s ∉ node_segments n).
Proof.
  intros Hwf (m1 & roots & out & Hroots & Hwf1 & Q & _ & Hr & Hc & -> & ->)%(sweep_run config); [|done].
  exists roots, m1. split; [done|]. pose proof (collect_reachable_spec m1 roots) as Hspec.
  rewrite Hc in Hspec. destruct Hspec as (Hnodes & _ & Hsegs).
  destruct (swept_fields m1 policy (sweep_candidates m1 epoch out.1))
    as (_ & _ & _ & _ & _ & _ & _ & -> & _).
  rewrite <-(q_nodes _ _ Q), <-(q_marks _ _ Q), <-(q_segment_marks _ _ Q). cbn. split_and!.
  - intros id. rewrite elem_of_bs_iter. unfold sweep_candidates.
    rewrite elem_of_filter, elem_of_dom, Hnodes. tauto.
  - intros id n. rewrite map_lookup_filter_Some, elem_of_bs_iter. done.
  - intros s. rewrite elem_of_bs_iter. unfold released_segments. rewrite elem_of_filter, Hsegs.
    unfold collect_all_segments. rewrite elem_of_list_to_set.
    rewrite list_elem_of_In, in_concat. setoid_rewrite <-list_elem_of_In.
    setoid_rewrite list_elem_of_fmap. setoid_rewrite elem_of_bt_values. naive_solver.
Qed.

(** C13: The mark terminates, and it succeeds exactly when no node it can reach is
    missing. *)
Theorem mark_terminates inner roots :
  is_ok (collect_reachable inner roots) = true <->
  forall id, reach (metadata_nodes inner) roots id -> is_Some (metadata_nodes inner !! id).
Proof.
  pose proof (collect_reachable_spec inner roots) as H. destruct (collect_reachable inner roots) as [out|e].
  - split; [intros _; apply H|done].
  - split; [done|]. intros Hall. destruct H as (id & Hr & Hn). destruct (Hall id Hr). congruence.
Qed.

(** ** Collections in a history *)

Definition keeps_wf (config : LocalStoreConfig) (m m' : MetadataInner) : Prop :=
  plane_wf config m -> plane_wf config m'.

#[export] Instance keeps_wf_preorder config : PreOrder (keeps_wf config).
Proof. unfold keeps_wf. split; [by intros m ?|]. intros m1 m2 m3. auto. Qed.

Lemma ensure_anchors_keeps config policy : st_rel (keeps_wf config) (ensure_pitr_anchor_checkpoints policy).
Proof. intros m r m' H Hwf. by eapply ensure_anchors_run in H as (? & _). Qed.

Lemma modify_frame_keeps config f :
  (forall m, frame_rel m (f m)) -> st_rel (keeps_wf config) (st_modify f).
Proof. intros Hf. apply st_rel_modify. intros m Hwf. by eapply plane_wf_frame. Qed.

Lemma mark_keeps_wf config policy : st_rel (keeps_wf config) (mark_reachable_for_gc policy).
Proof.
  unfold mark_reachable_for_gc, alloc_gc_epoch, alloc_checked.
  st_rel_tac; [apply ensure_anchors_keeps|apply modify_frame_keeps; intros m; frame_set..].
Qed.

(** The devices and their trees are as before. *)
Record still (m m' : MetadataInner) : Prop := {
  sl_heads : device_heads m' = device_heads m;
  sl_deleted : deleted_device_heads m' = deleted_device_heads m;
  sl_specs : device_specs m' = device_specs m;
  sl_nodes : metadata_nodes m' = metadata_nodes m;
  sl_seq : next_commit_seq m' = next_commit_seq m;
  sl_next : next_device_id m' = next_device_id m;
}.

Definition still_wf (config : LocalStoreConfig) (m m' : MetadataInner) : Prop :=
  plane_wf config m -> plane_wf config m' /\ still m m'.

#[export] Instance still_wf_preorder config : PreOrder (still_wf config).
Proof.
  split; [by intros m Hm|]. intros m1 m2 m3 H12 H23 H1. destruct (H12 H1) as [H2 [A1 A2 A3 A4 A5 A6]].
  destruct (H23 H2) as [H3 [B1 B2 B3 B4 B5 B6]]. split; [done|]. constructor; congruence.
Qed.

Lemma ensure_anchors_still config policy : st_rel (still_wf config) (ensure_pitr_anchor_checkpoints policy).
Proof. intros m r m' H Hwf. eapply ensure_anchors_run in H as (? & [] & _); [|done]. by split. Qed.

Lemma mark_still config policy : st_rel (still_wf config) (mark_reachable_for_gc policy).
Proof.
  unfold mark_reachable_for_gc, alloc_gc_epoch, alloc_checked.
  st_rel_tac; [apply ensure_anchors_still|apply st_rel_modify; intros m Hm;
    (split; [eapply plane_wf_frame; [exact Hm|frame_set]|done])..].
Qed.

Lemma sweep_failed_still config policy epoch : st_err (still_wf config) (sweep_unmarked_after_mark policy epoch).
Proof.
  unfold sweep_unmarked_after_mark. repeat (apply st_err_bind;
    [typeclasses eauto|st_rel_tac; by apply ensure_anchors_still|intros ?]).
  by apply st_err_never.
Qed.

Lemma sweep_keeps_wf config policy epoch m :
  plane_wf config m -> plane_wf config (sweep_unmarked_after_mark policy epoch m).2.
Proof.
  intros Hwf. destruct (sweep_unmarked_after_mark policy epoch m) as [[rep|e] m'] eqn:H; cbn.
  - apply (sweep_run config) in H as (m1 & roots & out & _ & Hwf1 & _ & Ha & Hr & Hc & -> & _); [|done].
    by eapply swept_wf.
  - by eapply sweep_failed_still in H as [? _].
Qed.

(** A step of a store that also collects garbage. *)
Definition store_step (config : LocalStoreConfig) (m m' : MetadataInner) : Prop :=
  plane_step config m m' \/
  (exists policy, m' = (roots_for_gc policy m).2) \/
  (exists policy, m' = (mark_reachable_for_gc policy m).2) \/
  (exists policy epoch, m' = (sweep_unmarked_after_mark policy epoch m).2).


(** ** Forks and collections *)

(** The device has no checkpoint before commit [T]. *)
Definition starts_at (d : DeviceId) (T : CommitSeq) (m : MetadataInner) : Prop :=
  forall k c, checkpoints m !! k = Some c -> cp_owner c = OwnBlockDevice d -> T <= cp_commit_seq c.

Definition keeps_start (d : DeviceId) (T : CommitSeq) (m m' : MetadataInner) : Prop :=
  ids_fresh m -> ids_fresh m' /\ (starts_at d T m -> starts_at d T m').

#[export] Instance keeps_start_preorder d T : PreOrder (keeps_start d T).
Proof.
  split; [by intros m ?|]. intros m1 m2 m3 H12 H23 Hf. destruct (H12 Hf) as [Hf2 ?].
  destruct (H23 Hf2) as [Hf3 ?]. auto.
Qed.

Lemma ensure_block_anchor_start d T t : st_rel (keeps_start d T) (ensure_block_anchor t).
Proof.
  intros m r m'. unfold ensure_block_anchor, st_get, st_lift, mbind, ST_bind.
  destruct (checkpoint_exists m _ _); [by intros [= <- <-] ?|].
  destruct (replay_device_roots m t.1 t.2 None) as [roots|e] eqn:Hr; [|by intros [= <- <-] ?].
  rewrite insert_block_checkpoint_run. intros [= <- <-] [Hn Hk]. split.
  - split; [done|]. cbn. intros k. rewrite lookup_insert_is_Some'.
    intros [<-|Hs]; [lia|]. specialize (Hk k Hs). lia.
  - intros Hst k c. cbn. intros [[<- <-]|[_ Hc]]%lookup_insert_Some; [|by eapply Hst].
    cbn. intros [= Hd]. rewrite Hd in Hr. unfold replay_device_roots in Hr.
    apply bind_Ok in Hr as (c & Hc%ok_or_Ok & _). unfold latest_checkpoint_at_or_before in Hc.
    apply max_by_key_Some in Hc as [[(Ho & Hle & _) [k Hc]%elem_of_bt_values]%list_elem_of_filter _].
    specialize (Hst _ _ Hc Ho). lia.
Qed.

Lemma ensure_keyspace_anchor_start d T t : st_rel (keeps_start d T) (ensure_keyspace_anchor t).
Proof.
  intros m r m' H Hf.
  assert (HF : frame_rel m m').
  { revert H. apply (fun (X : st_rel frame_rel (ensure_keyspace_anchor t)) => X m r m').
    unfold ensure_keyspace_anchor. st_rel_tac; auto with frame. }
  destruct (HF Hf) as [Hf' F]. split; [done|]. intros Hst k c Hk Ho.
  destruct (bf_new_cps _ _ F k c Hk) as [Hk'|[_ Hn]]; [by eapply Hst|]. by destruct (Hn d).
Qed.

(** No collection with a retention window can start before the window has moved
    past the first checkpoint of every device. *)
Lemma anchors_need_start config m policy floor d h T :
  plane_wf config m -> device_heads m !! d = Some h -> starts_at d T m ->
  pitr_retention_floor m policy = Some floor -> floor < T -> T <= dh_latest_commit h ->
  is_ok (ensure_pitr_anchor_checkpoints policy m).1 = false.
Proof.
  intros Hwf Hh Hst Hf HT HTh.
  destruct (ensure_pitr_anchor_checkpoints policy m) as [[[]|e] m'] eqn:Hens; [exfalso|done].
  assert (Hst' : starts_at d T m').
  { revert Hst. apply (fun (X : st_rel (keeps_start d T) (ensure_pitr_anchor_checkpoints policy)) =>
      X m (Ok tt) m' Hens (pw_fresh _ _ Hwf)).
    unfold ensure_pitr_anchor_checkpoints. st_rel_tac;
      [apply ensure_block_anchor_start|apply ensure_keyspace_anchor_start]. }
  destruct (ensure_anchors_run config _ _ _ _ Hwf Hens) as (Hwf' & Q & Hanch).
  destruct (quiet_targets _ _ policy Q) as (_ & Hf' & _).
  destruct (Hanch eq_refl d (Z.min floor (dh_latest_commit h))) as (k & c & Hk & Ho & Hs).
  - apply (block_targets_spec config m' policy floor); [done|by rewrite Hf'|]. exists h.
    split; [left; by rewrite (q_heads _ _ Q)|done].
  - specialize (Hst' _ _ Hk Ho). lia.
Qed.

(** C14: A fork disables collections with a retention window: as long as the floor of
    the window lies before the commit of the fork, computing the roots fails for the
    whole store, since the anchor asked for the new device precedes its only
    checkpoint. *)
Lemma fork_blocks_collection config m source target h m1 policy floor :
  plane_wf config m -> fork_device config source target m = (Ok h, m1) ->
  pitr_retention_floor m1 policy = Some floor -> floor < dh_latest_commit h ->
  is_ok (roots_for_gc policy m1).1 = false.
Proof.
  intros Hwf Hfork Hf HT.
  destruct (fork_device_Ok _ _ _ _ _ _ Hwf Hfork) as (hs & Hhs & _ & Hroots & Hseq & Hadd).
  destruct Hadd as (Hwf1 & _ & _ & Hh & _ & _ & _ & Hcps).
  assert (H : is_ok (ensure_pitr_anchor_checkpoints policy m1).1 = false).
  { apply (anchors_need_start config m1 policy floor (dh_device_id h) h (dh_latest_commit h)); try done.
    - rewrite Hh. apply lookup_insert_eq.
    - intros k c Hk Ho. by rewrite (Hcps k c Hk Ho). }
  unfold roots_for_gc, st_ask, mbind, ST_bind.
  by destruct (ensure_pitr_anchor_checkpoints policy m1) as [[[]|e] m2].
Qed.

(** ** A concrete collection

    The history of one device with a commit to its first shard: the root that the
    commit replaced is garbage once the window holds one commit. *)

Definition demo_policy : RetentionPolicy := mkRetentionPolicy false 0 1.
Definition demo_marked : MetadataInner := (mark_reachable_for_gc demo_policy demo_published).2.
Definition demo_sweep := sweep_unmarked_after_mark demo_policy 1 demo_marked.

Lemma demo_published_steps : rtc (store_step demo_config) MetadataInner_new demo_published.
Proof.
  apply (rtc_subrel (plane_step demo_config) (store_step demo_config)); [by left|].
  etrans; [apply demo_created_reachable|apply demo_published_run].
Qed.

Lemma demo_marked_wf : plane_wf demo_config demo_marked.
Proof.
  unfold demo_marked. destruct (mark_reachable_for_gc demo_policy demo_published) as [r m'] eqn:H.
  apply (mark_keeps_wf demo_config) in H. apply H.
  destruct (run_ok demo_config demo_created demo_published) as (Hwf & _); [|apply demo_published_run|].
  - apply (proj1 (reachable_ok _ _ demo_created_reachable)).
  - exact Hwf.
Qed.

Lemma demo_sweep_Ok :
  demo_sweep = (Ok (mkMetadataSweepReport 1 [1] []), demo_sweep.2).
Proof. apply pair_of_fst. by vm_compute. Qed.

Lemma sweep_keeps_live_witness :
  device_heads demo_sweep.2 = device_heads demo_marked /\
  is_Some (metadata_nodes demo_sweep.2 !! 3) /\ metadata_nodes demo_sweep.2 !! 1 = None.
Proof.
  destruct (sweep_keeps_live demo_config demo_marked demo_policy 1 _ _ demo_marked_wf demo_sweep_Ok)
    as (_ & Hh & _ & _ & Hn).
  destruct (Hn [3] 3) as (n & _ & Hn3 & _).
  - repeat constructor. eapply (lr_device _ _ 1 (mkDeviceHead 1 1 [3; 2] 1)); [by vm_compute|by left].
  - apply reach_root. by left.
  - split_and!; [exact Hh|by exists n|by vm_compute].
Defined.

Lemma sweep_keeps_pitr_witness :
  replay_device_roots demo_sweep.2 1 1 None = Ok [3; 2].
Proof.
  apply (sweep_keeps_pitr demo_config demo_marked demo_policy 1 _ _ 1 1 1 [3; 2] demo_marked_wf demo_sweep_Ok);
    by vm_compute.
Defined.

Lemma sweep_exact_witness :
  exists roots m1, roots_for_gc demo_policy demo_marked = (Ok roots, m1) /\
    ~ reach (metadata_nodes demo_marked) roots 1.
Proof.
  destruct (sweep_exact demo_config demo_marked demo_policy 1 _ _ demo_marked_wf demo_sweep_Ok)
    as (roots & m1 & Hr & Hd & _).
  exists roots, m1. split; [done|]. apply (proj1 (Hd 1)). by left.
Defined.


Definition demo_fork := fork_device demo_config 1 None demo_created.

Lemma demo_fork_Ok : demo_fork = (Ok (mkDeviceHead 2 0 [1; 2] 1), demo_fork.2).
Proof. apply pair_of_fst. by vm_compute. Qed.

Lemma demo_created_wf : plane_wf demo_config demo_created.
Proof. apply (proj1 (reachable_ok _ _ demo_created_reachable)). Qed.

Lemma fork_blocks_collection_witness :
  is_ok (roots_for_gc RetentionPolicy_retain_everything demo_fork.2).1 = false.
Proof.
  apply (fork_blocks_collection demo_config demo_created 1 None _ _ RetentionPolicy_retain_everything 0
    demo_created_wf demo_fork_Ok); [by vm_compute|done].
Defined.
