(* ===== verification/Coordinator.v ===== *)
(** * The coordinator ([local/coordinator.rs])

    The state of [LocalCoordinator] and the operations that move a payload to a
    storage node: grants, granted segment writes, the cache of verified receipts,
    and the custodians that collect metadata and segments. *)

From S2P Require Import Prelude Api Object Provider Authority Config Catalog SegmentStore.
From S2P Require Import StorageNode Streams Plane Gc.

Definition LOCAL_TENANT_ID : TenantId := 1.
Definition LOCAL_PRINCIPAL_ID : PrincipalId := 1.

(** ** State

    The locks of the append lanes and the profilers have no state of their
    own; the configuration of the plane is a parameter of the operations.  The
    plane's allocator of stream identifiers and its publish tickets, which are
    behind locks of their own, are fields here. *)
Record AppendPublishTicketRecord := mkAppendPublishTicketRecord {
  ptr_ticket : AppendPublishTicket;
  ptr_completed : option AppendPublishCommit;
}.

Record LocalCoordinator := mkLocalCoordinator {
  co_metadata : MetadataInner;
  co_append_stream_allocator : AppendStreamAllocator;
  co_append_publish_tickets : gmap AppendPublishTicketId AppendPublishTicketRecord;
  co_storage_nodes : StorageNodeRegistry;
  co_append_run_logs : gmap (StorageNodeId * Z) (list Z);
  co_append_stream_storage_lanes : gmap AppendStreamId StorageNodeId;
  co_next_write_intent : Z;
  co_next_extent_id : Z;
  co_verified_receipt_cache : gmap SegmentId VerifiedSegmentReceipt;
}.

Definition set_co_metadata (v : MetadataInner)
    (c : LocalCoordinator) : LocalCoordinator :=
  mkLocalCoordinator v (co_append_stream_allocator c) (co_append_publish_tickets c)
    (co_storage_nodes c) (co_append_run_logs c) (co_append_stream_storage_lanes c)
    (co_next_write_intent c) (co_next_extent_id c) (co_verified_receipt_cache c).
Definition set_co_append_stream_allocator (v : AppendStreamAllocator)
    (c : LocalCoordinator) : LocalCoordinator :=
  mkLocalCoordinator (co_metadata c) v (co_append_publish_tickets c)
    (co_storage_nodes c) (co_append_run_logs c) (co_append_stream_storage_lanes c)
    (co_next_write_intent c) (co_next_extent_id c) (co_verified_receipt_cache c).
Definition set_co_append_publish_tickets (v : gmap AppendPublishTicketId AppendPublishTicketRecord)
    (c : LocalCoordinator) : LocalCoordinator :=
  mkLocalCoordinator (co_metadata c) (co_append_stream_allocator c) v
    (co_storage_nodes c) (co_append_run_logs c) (co_append_stream_storage_lanes c)
    (co_next_write_intent c) (co_next_extent_id c) (co_verified_receipt_cache c).
Definition set_co_storage_nodes (v : StorageNodeRegistry)
    (c : LocalCoordinator) : LocalCoordinator :=
  mkLocalCoordinator (co_metadata c) (co_append_stream_allocator c) (co_append_publish_tickets c)
    v (co_append_run_logs c) (co_append_stream_storage_lanes c)
    (co_next_write_intent c) (co_next_extent_id c) (co_verified_receipt_cache c).
Definition set_co_append_run_logs (v : gmap (StorageNodeId * Z) (list Z))
    (c : LocalCoordinator) : LocalCoordinator :=
  mkLocalCoordinator (co_metadata c) (co_append_stream_allocator c) (co_append_publish_tickets c)
    (co_storage_nodes c) v (co_append_stream_storage_lanes c)
    (co_next_write_intent c) (co_next_extent_id c) (co_verified_receipt_cache c).
Definition set_co_append_stream_storage_lanes (v : gmap AppendStreamId StorageNodeId)
    (c : LocalCoordinator) : LocalCoordinator :=
  mkLocalCoordinator (co_metadata c) (co_append_stream_allocator c) (co_append_publish_tickets c)
    (co_storage_nodes c) (co_append_run_logs c) v
    (co_next_write_intent c) (co_next_extent_id c) (co_verified_receipt_cache c).
Definition set_co_next_write_intent (v : Z)
    (c : LocalCoordinator) : LocalCoordinator :=
  mkLocalCoordinator (co_metadata c) (co_append_stream_allocator c) (co_append_publish_tickets c)
    (co_storage_nodes c) (co_append_run_logs c) (co_append_stream_storage_lanes c)
    v (co_next_extent_id c) (co_verified_receipt_cache c).
Definition set_co_verified_receipt_cache (v : gmap SegmentId VerifiedSegmentReceipt)
    (c : LocalCoordinator) : LocalCoordinator :=
  mkLocalCoordinator (co_metadata c) (co_append_stream_allocator c) (co_append_publish_tickets c)
    (co_storage_nodes c) (co_append_run_logs c) (co_append_stream_storage_lanes c)
    (co_next_write_intent c) (co_next_extent_id c) v.

(** [LocalCoordinator::with_storage_nodes] *)
Definition with_storage_nodes (config : LocalStoreConfig) (storage_nodes : list StorageNodeId)
    : Result LocalCoordinator :=
  LocalStoreConfig_validate config;;
  registry ← Registry_new config storage_nodes;
  Ok (mkLocalCoordinator MetadataInner_new (Allocator_new 0) ∅ registry ∅ ∅ 1 1 ∅).

(** Running an operation of the metadata plane or of the registry. *)
Definition on_metadata {A} (p : ST MetadataInner A) : ST LocalCoordinator A :=
  fun c => let '(r, m) := p (co_metadata c) in (r, set_co_metadata m c).
Definition on_storage_nodes {A} (p : ST StorageNodeRegistry A) : ST LocalCoordinator A :=
  fun c => let '(r, s) := p (co_storage_nodes c) in (r, set_co_storage_nodes s c).
Definition ask_metadata {A} (f : MetadataInner -> Result A) : ST LocalCoordinator A :=
  st_ask (fun c => f (co_metadata c)).

Definition next_write_intent : ST LocalCoordinator WriteIntentId :=
  id ← st_gets co_next_write_intent;
  next ← st_lift (ok_or (checked_add U128_MOD id 1) (Conflict "write intent id overflow"));
  st_modify (set_co_next_write_intent next);;
  mret id.

Section coordinator.
Context {CR : Crc32cCrate}.

(** ** Segments *)

Definition cache_receipt (verified : VerifiedSegmentReceipt) : ST LocalCoordinator unit :=
  st_modify (fun c => set_co_verified_receipt_cache
    (<[sd_segment_id (vr_descriptor verified) := verified]> (co_verified_receipt_cache c)) c).

(** [LocalCoordinator::verify_segment_receipt] *)
Definition Coordinator_verify_segment_receipt (receipt : SegmentWriteReceipt)
    : ST LocalCoordinator VerifiedSegmentReceipt :=
  verified ← st_lift (verify_segment_receipt receipt);
  cache_receipt verified;;
  mret verified.

Definition verify_receipt_matches_grant_observed (grant : WriteGrant) (receipt : SegmentWriteReceipt)
    : ST LocalCoordinator VerifiedSegmentReceipt :=
  verified ← st_lift (verify_receipt_matches_grant grant receipt);
  cache_receipt verified;;
  mret verified.

Definition write_granted_segment_verified (grant : WriteGrant) (data : list Z)
    : ST LocalCoordinator VerifiedSegmentReceipt :=
  response ← on_storage_nodes (on_node (wg_storage_node grant) (send (SnWriteSegment grant data)));
  match response with
  | SnrWriteSegment receipt =>
      st_reject_if (negb (sr_segment_id receipt =? wg_segment_id grant))
        (Corrupt "storage node write receipt disagrees with requested segment ID");;
      verify_receipt_matches_grant_observed grant receipt
  | _ => st_lift (Err (Corrupt "storage node returned unexpected write response"))
  end.

(** [write_segment_for_intent_with_id_owned_verified] *)
Definition write_segment_for_intent (intent : WriteGrantIntent) (write_intent : WriteIntentId)
    (data : list Z) (durability : WriteDurability) (payload_integrity : PayloadIntegrity)
    : ST LocalCoordinator VerifiedSegmentReceipt :=
  max_bytes ← st_lift (len_u64 data
    (InvalidArgument "segment reservation byte length overflows u64"));
  candidates ← st_gets (fun c => node_order (co_storage_nodes c));
  storage_node ← on_storage_nodes (choose_storage_node candidates);
  segment_id ← on_storage_nodes allocate_segment_id;
  grant ← st_lift (issue_write_grant (mkWriteGrantRequest LOCAL_TENANT_ID LOCAL_PRINCIPAL_ID intent
    write_intent segment_id storage_node max_bytes payload_integrity durability
    LOCAL_GRANT_EXPIRATION));
  write_granted_segment_verified grant data.

(** [verified_receipts_for_entries_with_cache]: the receipts known to the
    caller come first, then the cache, then the storage nodes. *)
Definition receipts_by_segment (receipts : list VerifiedSegmentReceipt)
    : gmap SegmentId VerifiedSegmentReceipt :=
  fold_left (fun m v => <[sd_segment_id (vr_descriptor v) := v]> m) receipts ∅.

Definition receipt_step (c : LocalCoordinator) (local_cache : gmap SegmentId VerifiedSegmentReceipt)
    (acc : gmap SegmentId VerifiedSegmentReceipt * list VerifiedSegmentReceipt) (entry : LeafEntry)
    : Result (gmap SegmentId VerifiedSegmentReceipt * list VerifiedSegmentReceipt) :=
  let '(receipts, newly_verified) := acc in
  let segment_id := le_segment_id entry in
  match receipts !! segment_id with
  | Some _ => Ok acc
  | None =>
      match local_cache !! segment_id with
      | Some receipt => Ok (<[segment_id := receipt]> receipts, newly_verified)
      | None =>
          match co_verified_receipt_cache c !! segment_id with
          | Some receipt => Ok (<[segment_id := receipt]> receipts, newly_verified)
          | None =>
              receipt ← Registry_receipt_for_segment (co_storage_nodes c) segment_id;
              verified ← verify_segment_receipt receipt;
              Ok (<[segment_id := verified]> receipts, newly_verified ++ [verified])
          end
      end
  end.

Definition verified_receipts_for_entries_with_cache (entries : list LeafEntry)
    (additional_receipts : list VerifiedSegmentReceipt)
    : ST LocalCoordinator (list VerifiedSegmentReceipt) :=
  c ← st_get;
  acc ← st_lift (try_fold (receipt_step c (receipts_by_segment additional_receipts)) (∅, []) entries);
  st_for cache_receipt acc.2;;
  mret (bt_values acc.1).
End coordinator.
