(* ===== verification/SegmentPool.v ===== *)
(** * The storage nodes as a pool of immutable payloads

    Seen from the coordinator, the storage nodes of the registry are a map from
    segment identifiers to payloads that grows by writes of new segments: every
    payload has a verifying receipt, reads back in every range, and survives the
    writes and the references of other segments.  The operations of the
    coordinator that write and reference segments are proved against this view
    in [BlockCommit] and [Store]. *)

From S2P Require Import Prelude Api Object Provider Authority Config Catalog SegmentStore StorageNode.
From S2P Require Import Coordinator.

#[local] Opaque WriteGrant_hash deterministic_test_proof_for_grant
  deterministic_test_proof_for_receipt deterministic_test_proof_for_reference.

Section pool.
Context {CR : Crc32cCrate} (bs : Z).

(** The payload of a committed segment of a node. *)
Definition node_payload (n : LocalStorageNode) (id : SegmentId) : option (list Z) :=
  match entries (ln_catalog n) !! id with
  | Some e =>
      match ce_state e with
      | DurablePendingMetadata | Referenced => sg_bytes <$> segments (ln_store n) !! id
      | _ => None
      end
  | None => None
  end.

Definition segment_payload (self : StorageNodeRegistry) (id : SegmentId) : option (list Z) :=
  match owner_node_for_segment self id with
  | Ok n => node_payload n id
  | Err _ => None
  end.

(** Whether a payload was written to be verified, as its receipt tells it. *)
Definition receipt_mode (rc : SegmentWriteReceipt) : PayloadIntegrity :=
  match sr_integrity rc with SpUnchecked => Unchecked | Crc32c _ => Verified end.

Definition segment_mode (self : StorageNodeRegistry) (id : SegmentId) : PayloadIntegrity :=
  match Registry_receipt_for_segment self id with Ok rc => receipt_mode rc | Err _ => Verified end.

(** The payloads a read accepts. *)
Definition accepts (verification : ReadVerification) (mode : PayloadIntegrity) : bool :=
  match verification, mode with RvRequireVerified, Unchecked => false | _, _ => true end.

(** The nodes are well-formed and agree on the block size, every segment is in
    one catalog, and its identifier is below the next one. *)
Record pool_wf (self : StorageNodeRegistry) : Prop := {
  po_wf : registry_wf self;
  po_nodes : map_Forall (fun _ n => cfg_block_size (ln_config n) = bs /\
    LocalStoreConfig_validate (ln_config n) = Ok tt) (nodes self);
  po_unique : forall k1 n1 k2 n2 id, nodes self !! k1 = Some n1 -> nodes self !! k2 = Some n2 ->
    is_Some (entries (ln_catalog n1) !! id) -> is_Some (entries (ln_catalog n2) !! id) -> k1 = k2;
  po_fresh : forall k n id, nodes self !! k = Some n -> is_Some (entries (ln_catalog n) !! id) ->
    id < rg_next_segment_id self;
  po_next : in_u64 (rg_next_segment_id self);
  po_place : 0 <= next_placement_index self;
  po_order : node_order self <> [];
}.

(** Room for [bytes] more bytes, in segments of at least one byte. *)
Definition pool_room (self : StorageNodeRegistry) (bytes : Z) : Prop :=
  rg_next_segment_id self + bytes <= U64_MAX /\ next_placement_index self + bytes < U64_MOD /\
  map_Forall (fun _ n => next_offset (ln_store n) + bytes < U64_MOD) (nodes self).

(** A committed segment that no metadata refers to yet. *)
Definition pending (self : StorageNodeRegistry) (id : SegmentId) : Prop :=
  exists k n e, nodes self !! k = Some n /\ entries (ln_catalog n) !! id = Some e /\
    ce_state e = DurablePendingMetadata.

(** Room for [bytes] more bytes, and no write under way. *)
Definition pool_ready (self : StorageNodeRegistry) (bytes : Z) : Prop :=
  pool_room self bytes /\ forall id, ~ pending self id.

(** ** Looking up segments *)

Lemma owner_of self k n id :
  pool_wf self -> nodes self !! k = Some n -> is_Some (entries (ln_catalog n) !! id) ->
  owner_node_for_segment self id = Ok n.
Proof.
  intros Hwf Hk Hid. destruct (owner_node_for_segment_spec self id) as [-> Hel].
  assert (Hin : (k, n) ∈ holders self id).
  { apply Hel. split; [done|]. unfold contains_segment. by rewrite bool_decide_true. }
  assert (Hall : forall p, p ∈ holders self id -> p = (k, n)).
  { intros [k' n'] [Hk' Hc]%Hel. unfold contains_segment in Hc. apply bool_decide_eq_true in Hc.
    assert (k' = k) as -> by (by eapply po_unique). congruence. }
  assert (Hnd : NoDup (holders self id)) by (apply NoDup_filter, (NoDup_fmap_1 fst), bt_keys_nodup).
  destruct (holders self id) as [|p [|q l]]; [by apply not_elem_of_nil in Hin| |].
  - by rewrite (Hall p) by by left.
  - exfalso. apply NoDup_cons in Hnd as [Hnin _]. apply Hnin.
    rewrite (Hall p), (Hall q); [by left|right; by left|by left].
Qed.

Lemma payload_Some self id bytes :
  pool_wf self ->
  segment_payload self id = Some bytes <-> exists k n, nodes self !! k = Some n /\ node_payload n id = Some bytes.
Proof.
  intros Hwf. split.
  - unfold segment_payload. destruct (owner_node_for_segment self id) as [n|] eqn:Ho; [|done]. intros Hp.
    destruct (owner_node_for_segment_spec self id) as [Heq Hel]. rewrite Heq in Ho.
    destruct (holders self id) as [|[k n'] [|]]; try discriminate Ho. injection Ho as <-.
    destruct (proj1 (Hel k n')) as [Hk _]; [by left|]. eauto.
  - intros (k & n & Hk & Hp). unfold segment_payload. rewrite (owner_of self k n id); [done..|].
    unfold node_payload in Hp. by destruct (entries (ln_catalog n) !! id).
Qed.

Lemma refused_read n id e rc range verification buf :
  entries (ln_catalog n) !! id = Some e -> ce_receipt e = Some rc -> sr_integrity rc = SpUnchecked ->
  verification = RvRequireVerified ->
  exists err, read_segment_with_integrity n id range (sr_integrity rc) verification buf = Err err.
Proof.
  intros He Hrc Hun ->. unfold read_segment_with_integrity, receipt_for_segment. rewrite He. cbn [ok_or mbind Result_bind].
  rewrite Hrc. cbn [ok_or mbind Result_bind]. rewrite Hun. destruct (_ || _); by eexists.
Qed.

Lemma payload_not_fresh self id bytes :
  pool_wf self -> segment_payload self id = Some bytes -> id < rg_next_segment_id self.
Proof.
  intros Hwf (k & n & Hk & Hp)%payload_Some; [|done]. eapply po_fresh; [done..|].
  unfold node_payload in Hp. by destruct (entries (ln_catalog n) !! id).
Qed.

(** Every payload has a receipt that verifies, states its size, and reads any
    range of it, unless the read insists on a verified payload and this is not
    one. *)
Lemma payload_receipt self id bytes :
  pool_wf self -> segment_payload self id = Some bytes ->
  exists rc, Registry_receipt_for_segment self id = Ok rc /\ receipt_ok rc /\ sr_segment_id rc = id /\
    bytes <> [] /\ in_u64 (Z.of_nat (length bytes)) /\
    sd_segment_id (sr_descriptor rc) = id /\ sd_bytes (sr_descriptor rc) = Z.of_nat (length bytes) /\
    sd_blocks (sr_descriptor rc) * bs = Z.of_nat (length bytes) /\
    forall range verification buf, 0 <= br_offset range -> 0 <= br_len range ->
      br_offset range + br_len range <= Z.of_nat (length bytes) -> Z.of_nat (length buf) = br_len range ->
      let read := read_segment_from_node self (sr_storage_node rc) id range (sd_integrity (sr_descriptor rc))
        verification buf in
      if accepts verification (segment_mode self id)
      then read = Ok (slice bytes (br_offset range) (br_len range)) else exists e, read = Err e.
Proof.
  intros Hwf (k & n & Hk & Hp)%payload_Some; [|done]. unfold node_payload in Hp.
  destruct (entries (ln_catalog n) !! id) as [e|] eqn:He; [|done].
  destruct (po_wf _ Hwf) as (_ & _ & Hnodes). destruct (Hnodes k n Hk) as [Hkn Hn].
  destruct (po_nodes _ Hwf k n Hk) as [Hbs _]. pose proof Hn as (_ & Hcat & (Hoff & Hst & _) & Hback & _).
  specialize (Hback id e He). unfold entry_backed in Hback.
  assert (Hb : backed (ln_store n) id e /\ sg_bytes <$> segments (ln_store n) !! id = Some bytes)
    by (destruct (ce_state e); done). clear Hback Hp.
  destruct Hb as [(rc & r & Hrc & Hok & Hr & Hsync & Hcm) Hbytes]. rewrite Hr in Hbytes. injection Hbytes as <-.
  destruct (Hst id r Hr) as (Hrw & Hpl & Hend).
  destruct (Hcat id e He) as [_ (_ & _ & _ & Hstate)].
  assert (Hm : receipt_matches (ln_config n) (ce_reservation e) rc).
  { destruct (ce_state e); naive_solver. }
  pose proof Hok as (_ & _ & _ & _ & _ & _ & _ & Hsd & _ & _ & _ & _ & Hint).
  pose proof Hrw as (Hne & Hid & _ & _ & Hsb & Hpb & Hblk & _). rewrite Hcm in Hid, Hsb, Hblk. cbn in Hid, Hsb, Hblk.
  assert (Hnode : sr_storage_node rc = ln_storage_node n).
  { destruct Hm as (_ & _ & _ & -> & _). by destruct Hn as [-> _]. }
  assert (Hu : in_u64 (Z.of_nat (length (sg_bytes r)))).
  { unfold pl_end in Hend. rewrite Hpb in Hend. u64_unfold. lia. }
  assert (Hreg : Registry_receipt_for_segment self id = Ok rc).
  { unfold Registry_receipt_for_segment. rewrite (owner_of self k n id); [|done..|by eauto].
    cbn [mbind Result_bind]. unfold receipt_for_segment. by rewrite He; cbn; rewrite Hrc. }
  exists rc. split_and!; try done.
  - by rewrite Hsd.
  - by rewrite <-Hbs.
  - intros range v buf H1 H2 H3 H4 read. unfold read, read_segment_from_node, registry_node.
    rewrite Hnode, Hkn, Hk. cbn [ok_or mbind Result_bind]. rewrite <-Hint. unfold segment_mode. rewrite Hreg.
    destruct (accepts v (receipt_mode rc)) eqn:Hacc.
    + eapply committed_read; try done. intros ->. unfold receipt_mode in Hacc. by destruct (sr_integrity rc).
    + eapply refused_read; [done|done|..]; unfold receipt_mode in Hacc; by destruct v, (sr_integrity rc).
Qed.

(** ** Replacing a node *)

Definition put_node (self : StorageNodeRegistry) (k : StorageNodeId) (n : LocalStorageNode)
    : StorageNodeRegistry :=
  mkStorageNodeRegistry (rg_config self) (node_order self) (<[k := n]> (nodes self))
    (next_placement_index self) (rg_next_segment_id self).

Lemma on_node_run {A} self k n (m : ST LocalStorageNode A) r n' :
  nodes self !! k = Some n -> m n = (r, n') -> on_node k m self = (r, put_node self k n').
Proof.
  intros Hk Hm. unfold on_node, registry_node. rewrite st_bind_run. cbn [st_get].
  rewrite st_bind_lift, Hk. cbn [ok_or]. rewrite Hm. done.
Qed.

Lemma put_node_wf self k n n' :
  pool_wf self -> nodes self !! k = Some n -> node_wf n' ->
  ln_storage_node n' = ln_storage_node n -> ln_config n' = ln_config n ->
  (forall id, is_Some (entries (ln_catalog n') !! id) -> is_Some (entries (ln_catalog n) !! id) \/
    (id < rg_next_segment_id self /\
     forall k1 n1, nodes self !! k1 = Some n1 -> entries (ln_catalog n1) !! id = None)) ->
  pool_wf (put_node self k n').
Proof.
  intros Hwf Hk Hn' Hsn Hcfg Hids. pose proof (po_wf _ Hwf) as (Hnd & Hord & Hnodes).
  destruct (Hnodes k n Hk) as [Hkn _].
  assert (Hin : forall k1 n1 id, <[k := n']> (nodes self) !! k1 = Some n1 -> is_Some (entries (ln_catalog n1) !! id) ->
    id < rg_next_segment_id self /\
    forall k2 n2, nodes self !! k2 = Some n2 -> is_Some (entries (ln_catalog n2) !! id) -> k2 = k1).
  { intros k1 n1 id Hk1 Hid. apply lookup_insert_Some in Hk1 as [[<- <-]|[Hne Hk1]].
    - destruct (Hids id Hid) as [Hold|[Hlt Hnone]].
      + split; [by eapply po_fresh|]. intros k2 n2 Hk2 Hi2. by eapply po_unique.
      + split; [done|]. intros k2 n2 Hk2 [x Hx]. by rewrite (Hnone k2 n2 Hk2) in Hx.
    - split; [by eapply po_fresh|]. intros k2 n2 Hk2 Hi2. by eapply po_unique. }
  constructor; try apply Hwf; cbn [put_node nodes rg_next_segment_id].
  - unfold registry_wf. cbn [put_node nodes node_order]. split_and!; [done| |].
    + intros id. rewrite Hord, lookup_insert_is_Some. destruct (decide (k = id)) as [->|];
        [split; [by left|by eauto]|split; [by right|by intros [|[_ ?]]]].
    + intros id n1 [[<- <-]|[Hne Hl]]%lookup_insert_Some; [by rewrite Hsn|by apply Hnodes].
  - intros id n1 [[<- <-]|[Hne Hl]]%lookup_insert_Some; [rewrite Hcfg|]; by eapply po_nodes.
  - intros k1 n1 k2 n2 id Hk1 Hk2 Hi1 Hi2.
    pose proof Hk2 as Hk2'. apply lookup_insert_Some in Hk2' as [[Heq2 Hn2]|[Hne2 Hl2]].
    + pose proof Hk1 as Hk1'. apply lookup_insert_Some in Hk1' as [[? _]|[Hne1 Hl1]]; [congruence|].
      symmetry. destruct (Hin k2 n2 id Hk2 Hi2) as [_ H]. subst k2. symmetry. by apply (H k1 n1).
    + symmetry. destruct (Hin k1 n1 id Hk1 Hi1) as [_ H]. symmetry. symmetry. by apply (H k2 n2).
  - intros k1 n1 id Hk1 Hi1. by destruct (Hin k1 n1 id Hk1 Hi1).
Qed.

Lemma put_node_payload self k n n' id :
  pool_wf self -> pool_wf (put_node self k n') -> nodes self !! k = Some n ->
  (forall k1 n1, k1 <> k -> nodes self !! k1 = Some n1 -> node_payload n1 id = None) \/
    node_payload n' id = node_payload n id ->
  segment_payload (put_node self k n') id =
    if decide (node_payload n' id = node_payload n id) then segment_payload self id else node_payload n' id.
Proof.
  intros Hwf Hwf' Hk Hone. apply option_eq. intros bytes. rewrite payload_Some by done. cbn [put_node nodes].
  destruct (decide _) as [Heq|Hne].
  - rewrite payload_Some by done. split; intros (k1 & n1 & Hk1 & Hp).
    + apply lookup_insert_Some in Hk1 as [[<- <-]|[Hne Hk1]]; [exists k, n|exists k1, n1]; by rewrite <-?Heq.
    + destruct (decide (k1 = k)) as [->|Hkk].
      * exists k, n'. rewrite lookup_insert_eq. split; [done|]. congruence.
      * exists k1, n1. by rewrite lookup_insert_ne.
  - destruct Hone as [Hone|?]; [|done]. split.
    + intros (k1 & n1 & Hk1 & Hp). apply lookup_insert_Some in Hk1 as [[<- <-]|[Hkk Hk1]]; [done|].
      by rewrite (Hone k1 n1) in Hp.
    + intros Hp. exists k, n'. by rewrite lookup_insert_eq.
Qed.

Lemma owner_none self id :
  (forall k n, nodes self !! k = Some n -> entries (ln_catalog n) !! id = None) ->
  owner_node_for_segment self id = Err (not_found "segment" id).
Proof.
  intros Hnone. destruct (owner_node_for_segment_spec self id) as [-> Hel].
  destruct (holders self id) as [|[k n] l]; [done|]. exfalso.
  destruct (proj1 (Hel k n)) as [Hk Hc]; [by left|]. unfold contains_segment in Hc.
  apply bool_decide_eq_true in Hc as [? Hc]. by rewrite (Hnone k n Hk) in Hc.
Qed.

Lemma owner_cases self id :
  pool_wf self ->
  (exists k n, nodes self !! k = Some n /\ is_Some (entries (ln_catalog n) !! id) /\
    owner_node_for_segment self id = Ok n) \/
  (forall k n, nodes self !! k = Some n -> entries (ln_catalog n) !! id = None).
Proof.
  intros Hwf. destruct (owner_node_for_segment_spec self id) as [Heq Hel].
  destruct (holders self id) as [|[k n] l] eqn:Hh.
  - right. intros k n Hk. apply eq_None_not_Some. intros Hs. apply (not_elem_of_nil (k, n)), Hel.
    split; [done|]. unfold contains_segment. by rewrite bool_decide_true.
  - left. exists k, n. destruct (proj1 (Hel k n)) as [Hk Hc]; [by left|]. unfold contains_segment in Hc.
    apply bool_decide_eq_true in Hc. split_and!; [done..|]. by eapply owner_of.
Qed.

Lemma put_node_receipt self k n n' id :
  pool_wf self -> pool_wf (put_node self k n') -> nodes self !! k = Some n ->
  ce_receipt <$> entries (ln_catalog n') !! id = ce_receipt <$> entries (ln_catalog n) !! id ->
  Registry_receipt_for_segment (put_node self k n') id = Registry_receipt_for_segment self id.
Proof.
  intros Hwf Hwf' Hk Heq. unfold Registry_receipt_for_segment, receipt_for_segment.
  destruct (owner_cases self id Hwf) as [(k1 & n1 & Hk1 & Hid & Ho)|Hnone].
  - rewrite Ho. destruct (decide (k1 = k)) as [->|Hne].
    + assert (n1 = n) as -> by congruence. destruct Hid as [e He]. rewrite He in Heq.
      destruct (entries (ln_catalog n') !! id) as [e'|] eqn:He'; [|done]. injection Heq as Heq.
      rewrite (owner_of (put_node self k n') k n' id); [|done|by apply (lookup_insert_eq (nodes self))|by eauto].
      cbn [mbind Result_bind]. rewrite He, He'. cbn [ok_or mbind Result_bind]. by rewrite Heq.
    + rewrite (owner_of (put_node self k n') k1 n1 id); [done|done| |done].
      cbn [put_node nodes]. by rewrite lookup_insert_ne.
  - rewrite (owner_none self id Hnone), owner_none; [done|].
    cbn [put_node nodes]. intros k1 n1 [[<- <-]|[Hne Hl]]%lookup_insert_Some; [|by eapply Hnone].
    rewrite (Hnone k n Hk) in Heq. by destruct (entries (ln_catalog n') !! id).
Qed.

Lemma receipt_entry self id rc :
  pool_wf self -> Registry_receipt_for_segment self id = Ok rc ->
  sr_segment_id rc = id /\ id < rg_next_segment_id self.
Proof.
  intros Hwf. unfold Registry_receipt_for_segment, receipt_for_segment.
  destruct (owner_cases self id Hwf) as [(k & n & Hk & [e He] & ->)|Hnone]; [|by rewrite owner_none].
  cbn [mbind Result_bind]. rewrite He. cbn [ok_or mbind Result_bind]. destruct (ce_receipt e) as [rc'|] eqn:Hrc; [|done].
  intros [= ->]. split; [|by eapply po_fresh; eauto].
  destruct (po_wf _ Hwf) as (_ & _ & Hnodes). destruct (Hnodes k n Hk) as (_ & _ & Hcat & _).
  destruct (Hcat id e He) as [_ (Hid & _ & _ & Hst)]. rewrite <-Hid.
  destruct (ce_state e); try congruence; try (destruct Hst as (rc' & Hrc' & [H _]); congruence). by apply Hst.
Qed.

Lemma receipt_not_fresh self id rc :
  pool_wf self -> Registry_receipt_for_segment self id = Ok rc -> id < rg_next_segment_id self.
Proof. intros Hwf H. by apply receipt_entry in H as [_ ?]. Qed.

(** ** Writing a segment *)

(** What a write of a new segment does to the pool. *)
Record pool_write (self : StorageNodeRegistry) (data : list Z) (pi : PayloadIntegrity)
    (v : VerifiedSegmentReceipt) (self' : StorageNodeRegistry) : Prop := {
  pwr_id : sd_segment_id (vr_descriptor v) = rg_next_segment_id self;
  pwr_receipt : Registry_receipt_for_segment self' (rg_next_segment_id self) = Ok (vr_receipt v);
  pwr_verified : verify_segment_receipt (vr_receipt v) = Ok v;
  pwr_payload : segment_payload self' (rg_next_segment_id self) = Some data;
  pwr_mode : segment_mode self' (rg_next_segment_id self) = pi;
  pwr_next : rg_next_segment_id self' = rg_next_segment_id self + 1;
  pwr_others : forall id, id <> rg_next_segment_id self ->
    segment_payload self' id = segment_payload self id /\
    Registry_receipt_for_segment self' id = Registry_receipt_for_segment self id;
  pwr_pending : forall id, pending self' id -> pending self id \/ id = rg_next_segment_id self;
}.

Lemma choose_and_allocate self :
  pool_wf self -> pool_room self 1 ->
  exists k n self1 self2, choose_storage_node (node_order self) self = (Ok k, self1) /\
    allocate_segment_id self1 = (Ok (rg_next_segment_id self), self2) /\ nodes self !! k = Some n /\
    self2 = mkStorageNodeRegistry (rg_config self) (node_order self) (nodes self)
      (next_placement_index self + 1) (rg_next_segment_id self + 1).
Proof.
  intros Hwf (Hids & Hplace & _). pose proof (po_next _ Hwf) as Hu.
  assert (Hid : rg_next_segment_id self + 1 < U64_MOD) by (u64_unfold; lia).
  pose proof (po_wf _ Hwf) as (_ & Hord & _).
  destruct (choose_storage_node_round_robin self) as (k & self1 & Hrun & Hget & Hidx & Hn & Ho).
  { apply Hwf. } { intros id. apply Hord. } { apply Hwf. } { exact Hplace. }
  apply list_elem_of_lookup_2, Hord in Hget as [n Hk].
  exists k, n, self1. eexists. split_and!; [done| |done|reflexivity].
  unfold choose_storage_node in Hrun. rewrite st_bind_run in Hrun.
  unfold st_reject_if, st_lift, reject_if in Hrun. destruct (bool_decide _); [done|].
  rewrite st_bind_run in Hrun. cbn [st_get] in Hrun. rewrite st_bind_run in Hrun.
  destruct (ok_or _ _) as [k'|]; [|done]. rewrite st_bind_run in Hrun. unfold registry_node in Hrun.
  destruct (ok_or (nodes self !! k') _) as [|]; [|done]. rewrite st_bind_run, checked_add_ok in Hrun by done.
  cbn in Hrun. injection Hrun as -> <-. unfold allocate_segment_id. rewrite st_bind_run. cbn [st_get].
  rewrite st_bind_lift. cbn [rg_next_segment_id]. by rewrite checked_add_ok by done.
Qed.

Lemma fresh_write_payload n g bytes rc n' id :
  fresh_write n g bytes (Ok rc) n' ->
  node_payload n' id = (if decide (id = wg_segment_id g) then Some bytes else node_payload n id) /\
  (id <> wg_segment_id g -> entries (ln_catalog n') !! id = entries (ln_catalog n) !! id).
Proof.
  intros Hf. remember (Ok rc) as r0 eqn:Er. destruct Hf as [| |rc0 c]; try discriminate Er.
  unfold node_payload. cbn [ln_catalog ln_store catalog_with entries segments].
  destruct (decide (id = wg_segment_id g)) as [->|Hne].
  - by rewrite !lookup_insert_eq.
  - by rewrite !lookup_insert_ne by done.
Qed.

(** The registry after a node was chosen and an identifier allocated. *)
Definition advanced (self : StorageNodeRegistry) : StorageNodeRegistry :=
  mkStorageNodeRegistry (rg_config self) (node_order self) (nodes self)
    (next_placement_index self + 1) (rg_next_segment_id self + 1).

Lemma advanced_wf self : pool_wf self -> pool_room self 1 -> pool_wf (advanced self).
Proof.
  intros Hwf (Hids & Hplace & _). destruct Hwf. unfold in_u64, U64_MAX in *.
  constructor; try done; cbn [advanced nodes rg_next_segment_id next_placement_index].
  - intros k n id Hk Hid. pose proof (po_fresh0 k n id Hk Hid). lia.
  - unfold in_u64. lia.
  - lia.
Qed.

(** Committing a fresh segment on a node of the advanced registry. *)
Lemma fresh_write_pool self k n g data rc n' :
  pool_wf self -> pool_room self 1 -> nodes self !! k = Some n ->
  wg_segment_id g = rg_next_segment_id self -> wg_max_bytes g <> 0 -> wg_storage_node g = ln_storage_node n ->
  fresh_write n g data (Ok rc) n' ->
  pool_wf (put_node (advanced self) k n') /\
  pool_write self data (wg_payload_integrity g) (mkVerifiedSegmentReceipt rc (sr_descriptor rc))
    (put_node (advanced self) k n').
Proof.
  intros Hwf Hroom Hk Hid Hmax Hnode Hf.
  assert (Hnone : forall k1 n1, nodes self !! k1 = Some n1 ->
    entries (ln_catalog n1) !! rg_next_segment_id self = None).
  { intros k1 n1 Hk1. apply eq_None_not_Some. intros Hs. pose proof (po_fresh _ Hwf _ _ _ Hk1 Hs). lia. }
  assert (Hnp : forall k1 n1, nodes self !! k1 = Some n1 -> node_payload n1 (rg_next_segment_id self) = None).
  { intros k1 n1 Hk1. unfold node_payload. by rewrite (Hnone k1 n1 Hk1). }
  destruct (po_wf _ Hwf) as (_ & _ & Hnodes). destruct (Hnodes k n Hk) as [Hkn Hn].
  assert (Hsn : segments (ln_store n) !! wg_segment_id g = None).
  { apply eq_None_not_Some. intros Hs. destruct Hn as (_ & _ & _ & _ & Hdom).
    destruct (Hdom _ Hs) as [x Hx]. by rewrite Hid, (Hnone k n Hk) in Hx. }
  pose proof (fresh_write_wf _ _ _ _ _ Hn Hmax Hsn Hnode Hf) as Hn'.
  pose proof (fun id => fresh_write_payload n g data rc n' id Hf) as Hpay.
  pose proof (advanced_wf self Hwf Hroom) as Hadv.
  assert (Hshape : ln_storage_node n' = ln_storage_node n /\ ln_config n' = ln_config n /\
    entries (ln_catalog n') !! wg_segment_id g = Some (committed_entry g rc) /\
    receipt_ok rc /\ receipt_for g rc /\ receipt_mode rc = wg_payload_integrity g).
  { remember (Ok rc) as r0 eqn:Er. destruct Hf as [| |rc0 cm Hal Hlt Hok Hfor Hd Hp]; try discriminate Er. injection Er as ->.
    split_and!; try done; [apply lookup_insert_eq|]. unfold receipt_mode.
    destruct Hok as (_ & _ & _ & _ & _ & _ & _ & _ & _ & _ & _ & _ & ->). rewrite Hd. cbn. by destruct (wg_payload_integrity g). }
  destruct Hshape as (Hsn' & Hcfg' & Hent & Hrok & Hrfor & Hmode).
  assert (Hwf' : pool_wf (put_node (advanced self) k n')).
  { eapply put_node_wf; [exact Hadv|exact Hk|done..|]. intros id His.
    destruct (decide (id = wg_segment_id g)) as [->|Hne].
    - right. cbn [advanced rg_next_segment_id nodes]. rewrite Hid. split; [lia|exact Hnone].
    - left. by rewrite <-(proj2 (Hpay id)). }
  pose proof Hrok as (_ & _ & _ & _ & _ & _ & _ & Hsd & _).
  pose proof Hrfor as (_ & _ & _ & _ & _ & _ & _ & Hseg & _).
  assert (Hreg : Registry_receipt_for_segment (put_node (advanced self) k n') (rg_next_segment_id self) = Ok rc).
  { unfold Registry_receipt_for_segment. rewrite <-Hid.
    rewrite (owner_of _ k n'); [|exact Hwf'|apply (lookup_insert_eq (nodes self))|by rewrite Hent; eauto].
    cbn [mbind Result_bind]. unfold receipt_for_segment. by rewrite Hent. }
  split; [exact Hwf'|]. constructor; cbn [vr_descriptor vr_receipt].
  - congruence.
  - exact Hreg.
  - by apply verify_segment_receipt_Ok.
  - apply payload_Some; [exact Hwf'|]. exists k, n'. split; [apply (lookup_insert_eq (nodes self))|].
    rewrite (proj1 (Hpay _)), Hid. by rewrite decide_True.
  - unfold segment_mode. by rewrite Hreg.
  - done.
  - intros id Hne. rewrite <-Hid in Hne. destruct (Hpay id) as [Hp1 Hp2]. specialize (Hp2 Hne).
    rewrite decide_False in Hp1 by done. split.
    + rewrite (put_node_payload (advanced self) k n n' id); [|done|done|done|by right].
      rewrite decide_True by done. done.
    + rewrite (put_node_receipt (advanced self) k n n' id); [done..|]. by rewrite Hp2.
  - intros id (k1 & n1 & e1 & Hk1 & He1 & Hs1). rewrite <-Hid. destruct (decide (id = wg_segment_id g)) as [->|Hne]; [by right|].
    left. cbn [put_node advanced nodes] in Hk1. apply lookup_insert_Some in Hk1 as [[<- <-]|[_ Hk1]].
    + exists k, n, e1. by rewrite <-(proj2 (Hpay id)).
    + by exists k1, n1, e1.
Qed.

Lemma fresh_write_room self k n g data rc n' b :
  pool_room self b -> nodes self !! k = Some n -> fresh_write n g data (Ok rc) n' ->
  1 <= wg_max_bytes g -> pool_room (put_node (advanced self) k n') (b - wg_max_bytes g).
Proof.
  intros (H1 & H2 & H3) Hk Hf Hb. unfold pool_room, put_node, advanced.
  cbn [rg_next_segment_id next_placement_index nodes]. split_and!; [lia|lia|].
  intros k1 n1 [[<- <-]|[Hne Hl]]%lookup_insert_Some.
  - specialize (H3 k n Hk). cbn in H3. remember (Ok rc) as r0 eqn:Er. destruct Hf; try discriminate Er.
    cbn [ln_store next_offset]. lia.
  - specialize (H3 k1 n1 Hl). cbn in H3. lia.
Qed.

(** [write_segment_for_intent] stores the payload as a new segment, and nothing
    else changes but the caches and counters. *)
Lemma write_segment_run intent wi data dur pi c b :
  pool_wf (co_storage_nodes c) -> pool_room (co_storage_nodes c) b -> data <> [] ->
  Z.of_nat (length data) mod bs = 0 -> Z.of_nat (length data) <= b ->
  exists v s, write_segment_for_intent intent wi data dur pi c =
      (Ok v, set_co_verified_receipt_cache (<[rg_next_segment_id (co_storage_nodes c) := v]>
        (co_verified_receipt_cache c)) (set_co_storage_nodes s c)) /\
    pool_wf s /\ pool_room s (b - Z.of_nat (length data)) /\ pool_write (co_storage_nodes c) data pi v s.
Proof.
  intros Hwf Hroom Hne Hmod Hb. set (self := co_storage_nodes c) in *.
  assert (Hlen : 1 <= Z.of_nat (length data)) by (destruct data; [done|cbn; lia]).
  assert (Hroom1 : pool_room self 1).
  { destruct Hroom as (H1 & H2 & H3). split_and!; [lia|lia|]. intros k n Hk. specialize (H3 k n Hk). cbn in *. lia. }
  destruct (choose_and_allocate self Hwf Hroom1) as (k & n & self1 & self2 & Hch & Hal & Hk & Hs2).
  change self2 with self2 in Hs2. assert (self2 = advanced self) as -> by exact Hs2. clear Hs2.
  destruct (po_wf _ Hwf) as (_ & _ & Hnodes). destruct (Hnodes k n Hk) as [Hkn Hn].
  destruct (po_nodes _ Hwf k n Hk) as [Hbs Hval]. pose proof (po_next _ Hwf) as Hnext.
  assert (Hoff : 0 <= next_offset (ln_store n) /\ next_offset (ln_store n) + Z.of_nat (length data) < U64_MOD).
  { destruct Hn as (_ & _ & (Ho & _) & _). destruct Hroom as (_ & _ & H3). specialize (H3 k n Hk). cbn in H3.
    unfold in_u64 in Ho. lia. }
  set (req := mkWriteGrantRequest LOCAL_TENANT_ID LOCAL_PRINCIPAL_ID intent wi (rg_next_segment_id self) k
    (Z.of_nat (length data)) pi dur LOCAL_GRANT_EXPIRATION).
  destruct (issue_write_grant_ok req) as (g & Hg & Hgok & _ & _ & _ & _ & _ & Hpi); [cbn; lia|by vm_compute|].
  pose proof Hgok as (_ & _ & _ & Hmax & _ & _ & _ & Hgn & Hgs & Hgb).
  cbn [req wgr_storage_node wgr_segment_id wgr_max_bytes] in Hgn, Hgs, Hgb.
  destruct (write_segment_granted n req g data) as (rc & n' & Hw & Hf & _ & _ & Hv); try done.
  { rewrite Hgs. apply eq_None_not_Some. intros Hs. pose proof (po_fresh _ Hwf _ _ _ Hk Hs). lia. }
  { rewrite Hgs. u64_unfold. lia. }
  { unfold write_allowed. cbn [rs_bytes]. rewrite <-Hgb, Hbs. unfold in_u64. split_and!; try done; lia. }
  { lia. }
  destruct (fresh_write_pool self k n g data rc n') as [Hwf' Hpw]; try done; [congruence|]. rewrite Hpi in Hpw.
  exists (mkVerifiedSegmentReceipt rc (sr_descriptor rc)), (put_node (advanced self) k n').
  split_and!; [|done| |done].
  2:{ rewrite Hgb. eapply fresh_write_room; try done. lia. }
  unfold write_segment_for_intent, len_u64.
  replace (Z.of_nat (length data) <? U64_MOD) with true by (symmetry; apply Z.ltb_lt; lia).
  rewrite st_bind_lift. rewrite st_bind_run. unfold st_gets at 1.
  rewrite st_bind_run. unfold on_storage_nodes at 1. fold self. rewrite Hch.
  rewrite st_bind_run. unfold on_storage_nodes at 1. cbn [co_storage_nodes set_co_storage_nodes]. rewrite Hal.
  rewrite st_bind_lift. fold req. rewrite Hg. unfold write_granted_segment_verified.
  rewrite st_bind_run. unfold on_storage_nodes at 1. cbn [co_storage_nodes set_co_storage_nodes].
  rewrite Hgn, (on_node_run (advanced self) k n _ (Ok (SnrWriteSegment rc)) n'); [|exact Hk|].
  2:{ cbn [send]. by rewrite st_bind_run, Hw. }
  unfold st_reject_if. rewrite st_bind_lift.
  pose proof (pwr_id _ _ _ _ _ Hpw) as Hsid. cbn [vr_descriptor] in Hsid.
  assert (Hrs : sr_segment_id rc = wg_segment_id g).
  { apply verify_receipt_matches_grant_Ok in Hv as (_ & _ & (_ & _ & _ & _ & _ & _ & _ & Hx & _) & _). exact Hx. }
  rewrite Hrs, Z.eqb_refl. cbn [negb reject_if].
  unfold verify_receipt_matches_grant_observed. rewrite st_bind_lift, Hv.
  rewrite st_bind_run. unfold cache_receipt, st_modify. cbn [vr_descriptor]. rewrite Hsid. done.
Qed.

(** ** Referencing a segment *)

Lemma payload_entry self id bytes :
  pool_wf self -> segment_payload self id = Some bytes ->
  exists n e rc, nodes self !! sr_storage_node rc = Some n /\ node_wf n /\
    ln_storage_node n = sr_storage_node rc /\ entries (ln_catalog n) !! id = Some e /\
    (ce_state e = DurablePendingMetadata \/ ce_state e = Referenced) /\ ce_receipt e = Some rc /\
    receipt_ok rc /\ sr_segment_id rc = id.
Proof.
  intros Hwf (k & n & Hk & Hp)%payload_Some; [|done]. unfold node_payload in Hp.
  destruct (entries (ln_catalog n) !! id) as [e|] eqn:He; [|done].
  destruct (po_wf _ Hwf) as (_ & _ & Hnodes). destruct (Hnodes k n Hk) as [Hkn Hn].
  pose proof Hn as (Hcn & Hcat & _ & Hback & _). specialize (Hback id e He). unfold entry_backed in Hback.
  assert (Hb : backed (ln_store n) id e /\ (ce_state e = DurablePendingMetadata \/ ce_state e = Referenced))
    by (destruct (ce_state e); try done; split; auto).
  destruct Hb as [(rc & r & Hrc & Hok & _) Hst].
  destruct (Hcat id e He) as [_ (Hrid & _ & _ & Hstate)].
  assert (Hm : receipt_matches (ln_config n) (ce_reservation e) rc) by (destruct Hst as [Hs|Hs]; rewrite Hs in Hstate; naive_solver).
  assert (Hnode : sr_storage_node rc = ln_storage_node n) by (destruct Hm as (_ & _ & _ & -> & _); exact Hcn).
  exists n, e, rc. rewrite Hnode, Hkn. split_and!; try done. destruct Hm as (Hm & _). congruence.
Qed.

(** The entry after the reference. *)
Definition referenced_node (n : LocalStorageNode) (id : SegmentId) (e : CatalogEntry) : LocalStorageNode :=
  with_entry n (ln_store n) id (set_ce_state e Referenced).

Lemma node_mark_run n id e rc seq ev :
  entries (ln_catalog n) !! id = Some e ->
  ce_state e = DurablePendingMetadata \/ ce_state e = Referenced ->
  sr_segment_id rc = id -> sr_storage_node rc = ln_storage_node n ->
  create_reference_evidence rc seq = Ok ev ->
  send (SnMarkReferenced ev) n = (Ok SnrMarkReferenced, referenced_node n id e).
Proof.
  intros He Hst Hid Hnode Hev. cbn [send]. rewrite st_bind_run. unfold node_mark_segment_referenced.
  rewrite st_bind_run. cbn [st_get]. rewrite st_bind_lift.
  destruct (reference_evidence_scope rc seq ev (ev_segment_id ev) (ln_storage_node n) Hev) as [_ Hsc].
  assert (Hevid : ev_segment_id ev = id).
  { unfold create_reference_evidence in Hev. apply bind_Ok in Hev as (? & _ & [= <-]). exact Hid. }
  assert (Hvok : is_ok (verify_reference_evidence ev (ev_segment_id ev) (ln_storage_node n)) = true).
  { apply Hsc. split; congruence. }
  destruct (verify_reference_evidence _ _ _) as [u|]; [|done].
  rewrite Hevid. unfold on_catalog, mark_segment_referenced, transition. rewrite st_bind_run.
  unfold get_entry_mut, st_ask. rewrite He. cbn [ok_or]. destruct Hst as [Hs|Hs]; rewrite Hs.
  - rewrite bool_decide_true by done. done.
  - rewrite bool_decide_false, bool_decide_true by done. unfold referenced_node, mret, ST_ret.
    rewrite with_entry_same by done. by destruct n.
Qed.

Lemma referenced_node_wf n id e :
  node_wf n -> entries (ln_catalog n) !! id = Some e ->
  ce_state e = DurablePendingMetadata \/ ce_state e = Referenced -> node_wf (referenced_node n id e).
Proof.
  intros Hn He [Hs|Hs]; unfold referenced_node; [|by rewrite with_entry_same].
  apply (node_move_wf (SnRelease 0) n); [done|]. by apply nm_mark.
Qed.

Lemma referenced_node_same n id e i :
  entries (ln_catalog n) !! id = Some e ->
  ce_state e = DurablePendingMetadata \/ ce_state e = Referenced ->
  node_payload (referenced_node n id e) i = node_payload n i /\
  ce_receipt <$> entries (ln_catalog (referenced_node n id e)) !! i = ce_receipt <$> entries (ln_catalog n) !! i.
Proof.
  intros He Hst. unfold node_payload, referenced_node, with_entry. cbn [ln_catalog entries ln_store].
  destruct (decide (i = id)) as [->|Hne]; [|by rewrite !lookup_insert_ne].
  rewrite !lookup_insert_eq, He. cbn. by destruct Hst as [-> | ->].
Qed.

(** What referencing a stored segment does to the pool: nothing that can be
    seen through it. *)
Record pool_same (self s : StorageNodeRegistry) : Prop := {
  psm_payload : forall id, segment_payload s id = segment_payload self id;
  psm_receipt : forall id, Registry_receipt_for_segment s id = Registry_receipt_for_segment self id;
  psm_next : rg_next_segment_id s = rg_next_segment_id self;
  psm_room : forall b, pool_room self b -> pool_room s b;
  psm_pending : forall id, pending s id -> pending self id;
}.

#[export] Instance pool_same_preorder : PreOrder pool_same.
Proof using Type.
  split; [by constructor|]. intros s1 s2 s3 [P12 R12 N12 B12 Q12] [P23 R23 N23 B23 Q23].
  constructor; intros; [by rewrite P23|by rewrite R23|by rewrite N23|auto..].
Qed.

Lemma mark_referenced_run self id bytes rc seq :
  pool_wf self -> segment_payload self id = Some bytes -> Registry_receipt_for_segment self id = Ok rc ->
  exists s, Registry_mark_segment_referenced rc seq self = (Ok tt, s) /\ pool_wf s /\ pool_same self s /\
    ~ pending s id.
Proof.
  intros Hwf Hp Hrc. destruct (payload_entry self id bytes Hwf Hp) as (n & e & rc' & Hk & Hn & Hkn & He & Hst & Hcr & Hok & Hid).
  assert (Hown : owner_node_for_segment self id = Ok n) by (eapply owner_of; by eauto).
  assert (rc' = rc) as ->.
  { unfold Registry_receipt_for_segment, receipt_for_segment in Hrc. rewrite Hown in Hrc.
    cbn [mbind Result_bind] in Hrc. rewrite He in Hrc. cbn in Hrc. rewrite Hcr in Hrc. by injection Hrc. }
  set (n' := referenced_node n id e).
  assert (Hwf' : pool_wf (put_node self (sr_storage_node rc) n')).
  { eapply put_node_wf; [done..|by apply referenced_node_wf|done|done|]. intros i Hi. left.
    unfold n', referenced_node, with_entry in Hi. cbn in Hi. destruct (decide (i = id)) as [->|Hne]; [by eauto|].
    by rewrite lookup_insert_ne in Hi. }
  assert (Hsame : forall i, _) by exact (fun i => referenced_node_same n id e i He Hst).
  exists (put_node self (sr_storage_node rc) n'). split_and!; [|done| |].
  - unfold Registry_mark_segment_referenced.
    destruct (create_reference_evidence rc seq) as [ev|] eqn:Hev.
    2:{ unfold create_reference_evidence in Hev.
        rewrite (proj2 (verify_segment_receipt_Ok rc _) (conj Hok eq_refl)) in Hev. done. }
    rewrite st_bind_lift, st_bind_run. unfold on_segment_owner. rewrite st_bind_run. unfold st_ask.
    rewrite Hid, Hown, Hkn.
    by rewrite (on_node_run self _ n _ (Ok SnrMarkReferenced) n'); [|exact Hk|by eapply node_mark_run].
  - constructor; [| |done| |].
    + intros i. rewrite (put_node_payload self _ n n' i); [|done|done|done|right; apply Hsame].
      rewrite decide_True; [done|apply Hsame].
    + intros i. eapply put_node_receipt; [done..|]. apply Hsame.
    + intros b (H1 & H2 & H3). split_and!; [done|done|]. cbn [put_node nodes].
      intros k1 n1 [[<- <-]|[Hne Hl]]%lookup_insert_Some; [exact (H3 _ n Hk)|by eapply H3].
    + intros i (k1 & n1 & e1 & Hk1 & He1 & Hs1). cbn [put_node nodes] in Hk1.
      apply lookup_insert_Some in Hk1 as [[<- <-]|[_ Hk1]]; [|by exists k1, n1, e1]. exists (sr_storage_node rc), n.
      unfold n', referenced_node, with_entry in He1. cbn [ln_catalog entries] in He1.
      apply lookup_insert_Some in He1 as [[<- <-]|[_ He1]]; [done|by exists e1].
  - intros (k1 & n1 & e1 & Hk1 & He1 & Hs1).
    assert (He' : entries (ln_catalog n') !! id = Some (set_ce_state e Referenced)) by apply lookup_insert_eq.
    assert (k1 = sr_storage_node rc) as ->.
    { eapply (po_unique _ Hwf'); [exact Hk1|apply (lookup_insert_eq (nodes self))|by eauto..]. }
    cbn [put_node nodes] in Hk1. rewrite lookup_insert_eq in Hk1. injection Hk1 as <-. rewrite He' in He1. by injection He1 as <-.
Qed.
(** ** Collecting segments *)

(** A node after segments were released or freed; the payloads in [P] stay. *)
Record node_shrinks (P : SegmentId -> Prop) (n n' : LocalStorageNode) : Prop := {
  nsh_wf : node_wf n';
  nsh_node : ln_storage_node n' = ln_storage_node n;
  nsh_config : ln_config n' = ln_config n;
  nsh_offset : next_offset (ln_store n') = next_offset (ln_store n);
  nsh_receipt : forall id,
    ce_receipt <$> entries (ln_catalog n') !! id = ce_receipt <$> entries (ln_catalog n) !! id;
  nsh_payload : forall id, P id -> node_payload n' id = node_payload n id;
  nsh_pending : forall id e', entries (ln_catalog n') !! id = Some e' -> ce_state e' = DurablePendingMetadata ->
    exists e, entries (ln_catalog n) !! id = Some e /\ ce_state e = DurablePendingMetadata;
}.

Definition node_idle (n : LocalStorageNode) : Prop :=
  forall id e, entries (ln_catalog n) !! id = Some e -> ce_state e <> DurablePendingMetadata.

Lemma node_shrinks_refl P n : node_wf n -> node_shrinks P n n.
Proof using Type. intros Hn. constructor; [done..|]. by eauto. Qed.

Lemma node_shrinks_idle P n n' : node_shrinks P n n' -> node_idle n -> node_idle n'.
Proof using Type. intros S Hi id e' He' Hs. destruct (nsh_pending _ _ _ S id e' He' Hs) as (e & He & ?). by apply (Hi id e). Qed.

Lemma node_shrinks_trans P n1 n2 n3 : node_shrinks P n1 n2 -> node_shrinks P n2 n3 -> node_shrinks P n1 n3.
Proof using Type.
  intros [A1 A2 A3 A4 A5 A6 A7] [B1 B2 B3 B4 B5 B6 B7].
  constructor; [done|congruence..|intros; by rewrite B5|intros; by rewrite B6, A6 by done|].
  intros id e' He' Hs. destruct (B7 id e' He' Hs) as (e & He & Hs'). by eapply A7.
Qed.

Lemma with_entry_shrinks (P : SegmentId -> Prop) n store id e st :
  node_wf (with_entry n store id (set_ce_state e st)) -> entries (ln_catalog n) !! id = Some e ->
  st <> DurablePendingMetadata -> next_offset store = next_offset (ln_store n) ->
  (forall i, i <> id -> segments store !! i = segments (ln_store n) !! i) ->
  (P id -> node_payload (with_entry n store id (set_ce_state e st)) id = node_payload n id) ->
  node_shrinks P n (with_entry n store id (set_ce_state e st)).
Proof using Type.
  intros Hwf He Hst Ho Hs Hp. constructor; [done|done|done|done|..].
  - intros i. cbn [with_entry ln_catalog entries]. destruct (decide (i = id)) as [->|Hne]; [by rewrite lookup_insert_eq, He|].
    by rewrite lookup_insert_ne.
  - intros i Hi. destruct (decide (i = id)) as [->|Hne]; [by apply Hp|]. unfold node_payload, with_entry.
    cbn [ln_catalog entries ln_store]. rewrite lookup_insert_ne by done. by rewrite Hs.
  - intros i e'. cbn [with_entry ln_catalog entries]. intros [[<- <-]|[_ Hl]]%lookup_insert_Some Hs'; [done|by eauto].
Qed.

Lemma free_shrinks P n n' : node_wf n -> node_idle n -> rtc node_free n n' -> node_shrinks P n n'.
Proof using Type.
  intros Hwf Hi. induction 1 as [n|n ? n2 [id e He Hs] _ IH]; [by apply node_shrinks_refl|].
  set (n1 := with_entry _ _ _ _) in *.
  assert (Hwf1 : node_wf n1) by (apply (node_move_wf (SnRelease 0) n); [done|by apply nm_free]).
  assert (S : node_shrinks P n n1).
  { apply with_entry_shrinks; [done|done|done|done| |].
    - intros i Hne. cbn. by rewrite lookup_delete_ne.
    - intros _. unfold node_payload. cbn [with_entry ln_catalog entries]. rewrite lookup_insert_eq, He. cbn.
      specialize (Hi id e He). by destruct (ce_state e). }
  eapply node_shrinks_trans; [exact S|]. apply IH; [done|]. by eapply node_shrinks_idle.
Qed.

Lemma release_node_shrinks id n r n' :
  node_wf n -> send (SnRelease id) n = (r, n') -> node_shrinks (fun i => i <> id) n n'.
Proof using Type.
  intros Hwf Hrun. cbn [send] in Hrun. apply on_transition_cases in Hrun as [[_ ->]|(e & He & [Hs|Hs] & Hk)];
    [by apply node_shrinks_refl|..]; injection Hk as _ <-.
  - apply with_entry_shrinks; try done. apply (node_move_wf (SnRelease id) n); [done|by apply nm_release].
  - rewrite with_entry_same by done. by apply node_shrinks_refl.
Qed.

(** The pool after a collection: every receipt and the payloads in [P] stay. *)
Record pool_shrinks (P : SegmentId -> Prop) (self s : StorageNodeRegistry) : Prop := {
  psh_wf : pool_wf s;
  psh_receipt : forall id, Registry_receipt_for_segment s id = Registry_receipt_for_segment self id;
  psh_payload : forall id, P id -> segment_payload s id = segment_payload self id;
  psh_ready : forall b, pool_ready self b -> pool_ready s b;
  psh_pending : forall id, pending s id -> pending self id;
}.

Definition shrinks (P : SegmentId -> Prop) (self s : StorageNodeRegistry) : Prop :=
  pool_wf self -> (forall id, ~ pending self id) -> pool_shrinks P self s.

#[export] Instance shrinks_preorder P : PreOrder (shrinks P).
Proof using Type.
  split; [by intros self Hwf Hi; constructor|]. intros s1 s2 s3 H12 H23 Hwf Hi. destruct (H12 Hwf Hi) as [A1 A2 A3 A4 A5].
  destruct (H23 A1) as [B1 B2 B3 B4 B5]; [intros id Hp; by apply (Hi id), A5|].
  constructor; [done|intros; by rewrite B2|intros; by rewrite B3, A3 by done|auto..].
Qed.

Lemma put_node_shrinks P self k n n' :
  pool_wf self -> nodes self !! k = Some n -> node_shrinks P n n' -> pool_shrinks P self (put_node self k n').
Proof using Type.
  intros Hwf Hk [N1 N2 N3 N4 N5 N6 N7].
  assert (Hwf' : pool_wf (put_node self k n')).
  { eapply put_node_wf; [done..|]. intros id Hid. left. specialize (N5 id). destruct Hid as [e' He']. rewrite He' in N5.
    by destruct (entries (ln_catalog n) !! id). }
  assert (Hpend : forall id, pending (put_node self k n') id -> pending self id).
  { intros id (k1 & n1 & e1 & Hk1 & He1 & Hs1). cbn [put_node nodes] in Hk1.
    apply lookup_insert_Some in Hk1 as [[<- <-]|[_ Hk1]]; [|by exists k1, n1, e1].
    destruct (N7 id e1 He1 Hs1) as (e & He & Hs). by exists k, n, e. }
  constructor; [done| | | |done].
  - intros id. by eapply put_node_receipt.
  - intros id Hid. specialize (N6 id Hid). rewrite (put_node_payload self k n n' id); [|done|done|done|by right].
    by rewrite decide_True.
  - intros b [(H1 & H2 & H3) Hi]. split; [|by intros id ?%Hpend%Hi]. split_and!; [done|done|]. cbn [put_node nodes].
    intros k1 n1 [[<- <-]|[Hne Hl]]%lookup_insert_Some; [rewrite N4; exact (H3 _ n Hk)|by eapply H3].
Qed.

Lemma on_node_shrinks {A} P k (m : ST LocalStorageNode A) :
  (forall n r n', node_wf n -> node_idle n -> m n = (r, n') -> node_shrinks P n n') ->
  st_rel (shrinks P) (on_node k m).
Proof using Type.
  intros Hm self r s Hrun Hwf Hi. unfold on_node, registry_node in Hrun. rewrite st_bind_run in Hrun. cbn [st_get] in Hrun.
  rewrite st_bind_lift in Hrun. destruct (nodes self !! k) as [n|] eqn:Hk; cbn [ok_or] in Hrun.
  2:{ injection Hrun as _ <-. by constructor. }
  destruct (m n) as [r1 n'] eqn:Hn. assert (s = put_node self k n') as -> by (by destruct r1; injection Hrun as _ <-).
  destruct (po_wf _ Hwf) as (_ & _ & Hnodes). apply (put_node_shrinks P self k n); [done..|].
  eapply Hm; [by apply (Hnodes k n)| |exact Hn]. intros id e He Hs. apply (Hi id). by exists k, n, e.
Qed.

Lemma release_shrinks id : st_rel (shrinks (fun i => i <> id)) (Registry_release_segment id).
Proof using Type.
  unfold Registry_release_segment, on_segment_owner. st_rel_tac; try apply _.
  apply on_node_shrinks. intros n r n' Hn _ Hrun. by eapply release_node_shrinks.
Qed.

Lemma custodian_shrinks P k expired : st_rel (shrinks P) (on_node k (send (SnRunCustodian expired))).
Proof using Type.
  apply on_node_shrinks. intros n r n' Hn Hi Hrun. cbn [send] in Hrun. apply bind_ret_inv in Hrun as [r0 Hr].
  apply free_shrinks; [done..|]. by eapply run_custodian_frees.
Qed.
End pool.
