(* ===== verification/CowTree.v ===== *)
(** * Copy-on-write tree edits ([local/coordinator.rs])

    The metadata tree of a shard or a file maps blocks to segments.  An edit
    never changes a stored node: it writes new leaves and new ancestors, and the
    old root keeps its old meaning.  This file models the three edit routines
    (one range, several ranges, the single-path shortcut), the edit that installs
    append runs, and the tree checks. *)

From S2P Require Import Prelude Intervals Api Object TreeEdit Provider Authority Config Catalog.
From S2P Require Import SegmentStore StorageNode Streams Plane Timeline Coordinator.

(** ** Edits ([local/metadata_tree.rs]) *)

Record SegmentReplacement := mkSegmentReplacement {
  rp_segment_id : SegmentId;
  rp_segment_base : BlockIndex;
}.

Record TreeRangeEdit := mkTreeRangeEdit {
  te_range : BlockRange;
  te_replacement : option SegmentReplacement;
}.

Record TreeEditResult := mkTreeEditResult {
  tr_root : MetadataNodeId;
  tr_changed : bool;
}.

Record MetadataTreeStats := mkMetadataTreeStats {
  ts_nodes : Z;
  ts_leaves : Z;
  ts_max_depth : Z;
}.

(** The leaf entry that an edit puts into the part of its range in a leaf. *)
Definition replacement_entry (overlap : BlockRange) (replacement : SegmentReplacement) : LeafEntry :=
  mkLeafEntry (bk_start overlap) (bk_blocks overlap) (rp_segment_id replacement)
    (wsub64 (bk_start overlap) (rp_segment_base replacement)).

Section tree.
Context (config : LocalStoreConfig).

(** The tail of every edit of a leaf: receipts, a fresh node, validation,
    persistence. *)
Definition write_leaf_node (covered_range : BlockRange) (entries : list LeafEntry)
    (run_extents : list RunBackedFileExtent) (additional_receipts : list VerifiedSegmentReceipt)
    : ST LocalCoordinator TreeEditResult :=
  segment_receipts ← verified_receipts_for_entries_with_cache entries additional_receipts;
  new_node ← on_metadata (allocate_metadata_node covered_range (Leaf entries run_extents));
  st_lift (MetadataNode_validate new_node (vr_descriptor <$> segment_receipts));;
  on_metadata (persist_metadata_node (mkMetadataNodeWrite new_node segment_receipts));;
  mret (mkTreeEditResult (mn_node_id new_node) true).

(** The tail of every edit of an internal node. *)
Definition write_internal_node (covered_range : BlockRange) (children : list MetadataChild)
    : ST LocalCoordinator TreeEditResult :=
  new_node ← on_metadata (allocate_metadata_node covered_range (Internal children));
  st_lift (MetadataNode_validate new_node []);;
  on_metadata (persist_metadata_node (mkMetadataNodeWrite new_node []));;
  mret (mkTreeEditResult (mn_node_id new_node) true).

(** One edit applied to the contents of a leaf. *)
Definition edit_leaf (covered_range : BlockRange)
    (acc : list LeafEntry * list RunBackedFileExtent) (edit : TreeRangeEdit)
    : Result (list LeafEntry * list RunBackedFileExtent) :=
  overlap ← BlockRange_intersection covered_range (te_range edit);
  match overlap with
  | None => Ok acc
  | Some overlap =>
      let replacement := replacement_entry overlap <$> te_replacement edit in
      new_entries ← replace_leaf_entries acc.1 covered_range overlap replacement;
      overlap_bytes ← block_range_to_byte_range overlap (cfg_block_size config);
      new_run_extents ← replace_run_backed_file_extents acc.2 overlap_bytes [];
      Ok (new_entries, new_run_extents)
  end.

(** The loops over the children of an internal node; [recurse] is the edit of
    the subtree. *)
Definition edit_child (recurse : MetadataNode -> ST LocalCoordinator TreeEditResult)
    (acc : bool * list MetadataChild) (child : MetadataChild)
    : ST LocalCoordinator (bool * list MetadataChild) :=
  child_node ← ask_metadata (fun m => get_metadata_node m (mc_node_id child));
  child_result ← recurse child_node;
  mret (acc.1 || tr_changed child_result,
        acc.2 ++ [mkMetadataChild (mc_range child) (tr_root child_result)]).

(** The edits that overlap a range, in order. *)
Definition overlapping_edits (range : BlockRange) (edits : list TreeRangeEdit)
    : Result (list TreeRangeEdit) :=
  try_fold (fun out edit =>
    ov ← BlockRange_overlaps range (te_range edit);
    Ok (if (ov : bool) then out ++ [edit] else out)) [] edits.

Definition edit_child_one (edit : TreeRangeEdit)
    (recurse : MetadataNode -> ST LocalCoordinator TreeEditResult)
    (acc : bool * list MetadataChild) (child : MetadataChild)
    : ST LocalCoordinator (bool * list MetadataChild) :=
  ov ← st_lift (BlockRange_overlaps (mc_range child) (te_range edit));
  if negb ov then mret (acc.1, acc.2 ++ [child]) else edit_child recurse acc child.

Definition edit_child_many (edits : list TreeRangeEdit)
    (recurse : MetadataNode -> list TreeRangeEdit -> ST LocalCoordinator TreeEditResult)
    (acc : bool * list MetadataChild) (child : MetadataChild)
    : ST LocalCoordinator (bool * list MetadataChild) :=
  child_edits ← st_lift (overlapping_edits (mc_range child) edits);
  if bool_decide (child_edits = []) then mret (acc.1, acc.2 ++ [child])
  else edit_child (fun node => recurse node child_edits) acc child.

(** [replace_tree_range_at] *)
Fixpoint replace_tree_range_at (fuel : nat) (node : MetadataNode) (edit : TreeRangeEdit)
    (additional_receipts : list VerifiedSegmentReceipt) : ST LocalCoordinator TreeEditResult :=
  match fuel with
  | O => st_lift (Err (Unsupported "metadata tree recursion depth"))
  | S fuel =>
      ov ← st_lift (BlockRange_overlaps (mn_covered_range node) (te_range edit));
      let unchanged : ST LocalCoordinator TreeEditResult :=
        mret (mkTreeEditResult (mn_node_id node) false) in
      if negb ov then unchanged
      else
        match mn_kind node with
        | Leaf entries run_extents =>
            acc ← st_lift (edit_leaf (mn_covered_range node) (entries, run_extents) edit);
            if bool_decide (acc.1 = entries) && bool_decide (acc.2 = run_extents) then unchanged
            else write_leaf_node (mn_covered_range node) acc.1 acc.2 additional_receipts
        | Internal children =>
            acc ← st_fold (edit_child_one edit
                (fun node => replace_tree_range_at fuel node edit additional_receipts))
              (false, []) children;
            if negb acc.1 then unchanged
            else write_internal_node (mn_covered_range node) acc.2
        end
  end.

(** [replace_tree_ranges_at] *)
Fixpoint replace_tree_ranges_at (fuel : nat) (node : MetadataNode) (edits : list TreeRangeEdit)
    (additional_receipts : list VerifiedSegmentReceipt) : ST LocalCoordinator TreeEditResult :=
  match fuel with
  | O => st_lift (Err (Unsupported "metadata tree recursion depth"))
  | S fuel =>
      edits ← st_lift (overlapping_edits (mn_covered_range node) edits);
      let unchanged : ST LocalCoordinator TreeEditResult :=
        mret (mkTreeEditResult (mn_node_id node) false) in
      if bool_decide (edits = []) then unchanged
      else
        match mn_kind node with
        | Leaf entries run_extents =>
            acc ← st_lift (try_fold (edit_leaf (mn_covered_range node)) (entries, run_extents) edits);
            if bool_decide (acc.1 = entries) && bool_decide (acc.2 = run_extents) then unchanged
            else write_leaf_node (mn_covered_range node) acc.1 acc.2 additional_receipts
        | Internal children =>
            acc ← st_fold (edit_child_many edits
                (fun node edits => replace_tree_ranges_at fuel node edits additional_receipts))
              (false, []) children;
            if negb acc.1 then unchanged
            else write_internal_node (mn_covered_range node) acc.2
        end
  end.

(** The descriptors of the entries of a leaf, each once, in order of first use;
    [None] when one is not among the receipts of the caller. *)
Fixpoint leaf_descriptors (descriptors : gmap SegmentId SegmentDescriptor)
    (entries : list LeafEntry) (out : list SegmentDescriptor) : option (list SegmentDescriptor) :=
  match entries with
  | [] => Some out
  | entry :: entries =>
      match descriptors !! le_segment_id entry with
      | None => None
      | Some d =>
          leaf_descriptors descriptors entries
            (if existsb (fun e => sd_segment_id e =? le_segment_id entry) out then out
             else out ++ [d])
      end
  end.

(** The children that overlap a range, with their index. *)
Definition overlapping_children (range : BlockRange) (children : list MetadataChild)
    : Result (list (nat * MetadataChild)) :=
  try_fold (fun out p =>
    ov ← BlockRange_overlaps (mc_range p.2) range;
    Ok (if (ov : bool) then out ++ [p] else out)) [] (imap pair children).

(** [try_replace_tree_range_single_path_at]; a node is inserted as it is, the
    lock of the plane being held. *)
Fixpoint try_replace_tree_range_single_path_at (fuel : nat) (node : MetadataNode)
    (edit : TreeRangeEdit) (receipt_descriptors : gmap SegmentId SegmentDescriptor)
    : ST MetadataInner (option TreeEditResult) :=
  match fuel with
  | O => st_lift (Err (Unsupported "metadata tree recursion depth"))
  | S fuel =>
      ov ← st_lift (BlockRange_overlaps (mn_covered_range node) (te_range edit));
      let unchanged : ST MetadataInner (option TreeEditResult) :=
        mret (Some (mkTreeEditResult (mn_node_id node) false)) in
      if negb ov then unchanged
      else
        match mn_kind node with
        | Leaf entries run_extents =>
            acc ← st_lift (edit_leaf (mn_covered_range node) (entries, run_extents) edit);
            if bool_decide (acc.1 = entries) && bool_decide (acc.2 = run_extents) then unchanged
            else if negb (bool_decide (acc.2 = [])) then mret None
            else
              match leaf_descriptors receipt_descriptors acc.1 [] with
              | None => mret None
              | Some descriptors =>
                  node_id ← alloc_metadata_node_id;
                  let new_node := mkMetadataNode node_id (mn_covered_range node)
                    (Leaf acc.1 acc.2) in
                  st_lift (MetadataNode_validate new_node descriptors);;
                  insert_metadata_node new_node;;
                  mret (Some (mkTreeEditResult node_id true))
              end
        | Internal children =>
            overlapping ← st_lift (overlapping_children (te_range edit) children);
            match overlapping with
            | [(changed_index, child)] =>
                child_node ← st_ask (fun m => get_metadata_node m (mc_node_id child));
                child_result ← try_replace_tree_range_single_path_at fuel child_node edit
                  receipt_descriptors;
                match child_result with
                | None => mret None
                | Some child_result =>
                    if negb (tr_changed child_result) then unchanged
                    else
                      node_id ← alloc_metadata_node_id;
                      let new_node := mkMetadataNode node_id (mn_covered_range node)
                        (Internal (<[changed_index := mkMetadataChild (mc_range child)
                          (tr_root child_result)]> children)) in
                      st_lift (MetadataNode_validate new_node []);;
                      insert_metadata_node new_node;;
                      mret (Some (mkTreeEditResult node_id true))
                end
            | _ => mret None
            end
        end
  end.

(** The recursion descends a tree of the depth that [create_empty_tree] gives
    a tree over the range of its root. *)
Definition node_fuel (node : MetadataNode) : nat := tree_fuel (bk_blocks (mn_covered_range node)).

Definition edit_outside : StorageError :=
  InvalidArgument "edit range is outside metadata tree coverage".

Definition try_replace_tree_range_single_path (root_id : MetadataNodeId) (edit : TreeRangeEdit)
    (additional_receipts : list VerifiedSegmentReceipt)
    : ST LocalCoordinator (option TreeEditResult) :=
  if bool_decide (te_replacement edit = None) then mret None
  else
    let receipt_descriptors := vr_descriptor <$> receipts_by_segment additional_receipts in
    if bool_decide (receipt_descriptors = ∅) then mret None
    else
      root ← ask_metadata (fun m => get_metadata_node m root_id);
      inside ← st_lift (BlockRange_contains_range (mn_covered_range root) (te_range edit));
      st_reject_if (negb inside) edit_outside;;
      on_metadata (try_replace_tree_range_single_path_at (node_fuel root) root edit
        receipt_descriptors).

Definition replace_tree_range_with_receipts (root_id : MetadataNodeId) (edit : TreeRangeEdit)
    (additional_receipts : list VerifiedSegmentReceipt) : ST LocalCoordinator TreeEditResult :=
  st_lift (BlockRange_validate_non_empty (te_range edit));;
  shortcut ← try_replace_tree_range_single_path root_id edit additional_receipts;
  match shortcut with
  | Some result => mret result
  | None =>
      root ← ask_metadata (fun m => get_metadata_node m root_id);
      inside ← st_lift (BlockRange_contains_range (mn_covered_range root) (te_range edit));
      st_reject_if (negb inside) edit_outside;;
      replace_tree_range_at (node_fuel root) root edit additional_receipts
  end.

Definition replace_tree_range (root_id : MetadataNodeId) (edit : TreeRangeEdit)
    : ST LocalCoordinator TreeEditResult :=
  replace_tree_range_with_receipts root_id edit [].

(** The check that sorted edits do not overlap; the accumulator is
    [previous_end]. *)
Definition edit_order_step (previous_end : option Z) (edit : TreeRangeEdit) : Result (option Z) :=
  BlockRange_validate_non_empty (te_range edit);;
  end_ ← BlockRange_end_exclusive (te_range edit);
  reject_if (match previous_end with Some p => bk_start (te_range edit) <? p | None => false end)
    (InvalidArgument "batched tree edits must not overlap");;
  Ok (Some end_).

Definition replace_tree_ranges_with_receipts (root_id : MetadataNodeId) (edits : list TreeRangeEdit)
    (additional_receipts : list VerifiedSegmentReceipt) : ST LocalCoordinator TreeEditResult :=
  match edits with
  | [] => mret (mkTreeEditResult root_id false)
  | [edit] => replace_tree_range_with_receipts root_id edit additional_receipts
  | _ =>
      let sorted := sort_by_key (fun e => bk_start (te_range e)) edits in
      st_lift (try_fold edit_order_step None sorted);;
      root ← ask_metadata (fun m => get_metadata_node m root_id);
      st_lift (try_for (fun edit =>
        inside ← BlockRange_contains_range (mn_covered_range root) (te_range edit);
        reject_if (negb inside) edit_outside) sorted);;
      replace_tree_ranges_at (node_fuel root) root sorted additional_receipts
  end.

(** ** Append runs *)

(** The parts of the new runs that lie in a leaf. *)
Definition leaf_run_replacements (overlap : ByteRange) (replacements : list RunBackedFileExtent)
    : Result (list RunBackedFileExtent) :=
  parts ← try_map (fun replacement =>
      extent_overlap ← byte_range_intersection
        (mkByteRange (rx_file_offset_start replacement) (rx_payload_len replacement)) overlap;
      match extent_overlap with
      | None => Ok []
      | Some extent_overlap =>
          end_ ← ByteRange_end_exclusive extent_overlap;
          sliced ← slice_run_extent replacement (br_offset extent_overlap) end_;
          Ok (opt_list sliced)
      end) replacements;
  Ok (concat parts).

Definition edit_child_bytes (overlap : ByteRange)
    (recurse : MetadataNode -> ST LocalCoordinator TreeEditResult)
    (acc : bool * list MetadataChild) (child : MetadataChild)
    : ST LocalCoordinator (bool * list MetadataChild) :=
  child_range ← st_lift (block_range_to_byte_range (mc_range child) (cfg_block_size config));
  ov ← st_lift (byte_range_intersection child_range overlap);
  if bool_decide (ov = None) then mret (acc.1, acc.2 ++ [child]) else edit_child recurse acc child.

Fixpoint replace_tree_byte_range_with_run_extents_at (fuel : nat) (node : MetadataNode)
    (replacement_range : ByteRange) (replacements : list RunBackedFileExtent)
    : ST LocalCoordinator TreeEditResult :=
  match fuel with
  | O => st_lift (Err (Unsupported "metadata tree recursion depth"))
  | S fuel =>
      node_range ← st_lift (block_range_to_byte_range (mn_covered_range node) (cfg_block_size config));
      overlap ← st_lift (byte_range_intersection node_range replacement_range);
      let unchanged : ST LocalCoordinator TreeEditResult :=
        mret (mkTreeEditResult (mn_node_id node) false) in
      match overlap with
      | None => unchanged
      | Some overlap =>
          match mn_kind node with
          | Leaf entries run_extents =>
              leaf_replacements ← st_lift (leaf_run_replacements overlap replacements);
              new_run_extents ← st_lift (replace_run_backed_file_extents run_extents overlap
                leaf_replacements);
              if bool_decide (new_run_extents = run_extents) then unchanged
              else write_leaf_node (mn_covered_range node) entries new_run_extents []
          | Internal children =>
              acc ← st_fold (edit_child_bytes overlap (fun node =>
                  replace_tree_byte_range_with_run_extents_at fuel node overlap replacements))
                (false, []) children;
              if negb acc.1 then unchanged
              else write_internal_node (mn_covered_range node) acc.2
          end
      end
  end.

Definition replace_tree_byte_range_with_run_extents (root_id : MetadataNodeId)
    (replacement_range : ByteRange) (replacements : list RunBackedFileExtent)
    : ST LocalCoordinator TreeEditResult :=
  if br_len replacement_range =? 0 then mret (mkTreeEditResult root_id false)
  else
    root ← ask_metadata (fun m => get_metadata_node m root_id);
    replace_tree_byte_range_with_run_extents_at (node_fuel root) root replacement_range replacements.

(** ** Tree checks *)

(** The loop over the children; [visited] is threaded through the walk. *)
Definition validate_child
    (recurse : MetadataNodeId -> gset MetadataNodeId ->
      ST LocalCoordinator (MetadataTreeStats * gset MetadataNodeId))
    (acc : MetadataTreeStats * gset MetadataNodeId) (child : MetadataChild)
    : ST LocalCoordinator (MetadataTreeStats * gset MetadataNodeId) :=
  let '(stats, visited) := acc in
  child_node ← ask_metadata (fun m => get_metadata_node m (mc_node_id child));
  st_reject_if (negb (bool_decide (mn_covered_range child_node = mc_range child)))
    (Corrupt "metadata child range does not match child node coverage");;
  below ← recurse (mc_node_id child) visited;
  let '(child_stats, visited) := below in
  mret (mkMetadataTreeStats (ts_nodes stats + ts_nodes child_stats)
    (ts_leaves stats + ts_leaves child_stats)
    (Z.max (ts_max_depth stats) (ts_max_depth child_stats)), visited).

Fixpoint validate_metadata_tree_at (fuel : nat) (depth : Z) (node_id : MetadataNodeId)
    (visited : gset MetadataNodeId) : ST LocalCoordinator (MetadataTreeStats * gset MetadataNodeId) :=
  match fuel with
  | O => st_lift (Err (Unsupported "metadata tree recursion depth"))
  | S fuel =>
      st_reject_if (bool_decide (node_id ∈ visited))
        (Corrupt "metadata tree contains a repeated node ID");;
      let visited := {[ node_id ]} ∪ visited in
      node ← ask_metadata (fun m => get_metadata_node m node_id);
      match mn_kind node with
      | Leaf entries _ =>
          st_reject_if (metadata_leaf_blocks config <? bk_blocks (mn_covered_range node))
            (Corrupt "metadata leaf exceeds configured leaf block span");;
          receipts ← verified_receipts_for_entries_with_cache entries [];
          st_lift (MetadataNode_validate node (vr_descriptor <$> receipts));;
          mret (mkMetadataTreeStats 1 1 depth, visited)
      | Internal children =>
          st_reject_if (metadata_fanout config <? Z.of_nat (length children))
            (Corrupt "metadata internal node exceeds configured fanout");;
          st_lift (MetadataNode_validate node []);;
          st_fold (validate_child (validate_metadata_tree_at fuel (depth + 1)))
            (mkMetadataTreeStats 1 0 depth, visited) children
      end
  end.

(** No node is visited twice, so the walk is no deeper than there are nodes. *)
Definition validate_metadata_tree (root_id : MetadataNodeId) : ST LocalCoordinator MetadataTreeStats :=
  c ← st_get;
  out ← validate_metadata_tree_at (S (S (size (metadata_nodes (co_metadata c))))) 1 root_id ∅;
  mret out.1.

Fixpoint collect_metadata_tree_node_ids (fuel : nat) (inner : MetadataInner) (node_id : MetadataNodeId)
    : Result (list MetadataNodeId) :=
  match fuel with
  | O => Err (Unsupported "metadata tree recursion depth")
  | S fuel =>
      node ← get_metadata_node inner node_id;
      match mn_kind node with
      | Leaf _ _ => Ok [node_id]
      | Internal children =>
          below ← try_map (fun child => collect_metadata_tree_node_ids fuel inner (mc_node_id child))
            children;
          Ok (node_id :: concat below)
      end
  end.

Definition metadata_tree_node_ids (c : LocalCoordinator) (root_id : MetadataNodeId)
    : Result (list MetadataNodeId) :=
  root ← get_metadata_node (co_metadata c) root_id;
  collect_metadata_tree_node_ids (node_fuel root) (co_metadata c) root_id.
End tree.
