(* ===== verification/CowSpec.v ===== *)
(** * Tree edits are overlays ([local/coordinator.rs])

    The contents of a metadata tree as a function from blocks to leaves, and the
    proof that the edit routines terminate, succeed on well-formed trees, leave
    every stored node alone, and overlay exactly their edits. *)

From S2P Require Import Prelude Intervals Api Object TreeEdit Provider Authority Config Catalog.
From S2P Require Import SegmentStore StorageNode Streams Plane Timeline Coordinator CowTree.

(** ** The one-range routine is the many-range routine *)

Lemma st_fold_ext {S A B} (f g : B -> A -> ST S B) l :
  (forall b x s, x ∈ l -> f b x s = g b x s) -> forall b s, st_fold f b l s = st_fold g b l s.
Proof.
  induction l as [|x l IH]; intros H b s; cbn; [done|].
  unfold mbind, ST_bind. rewrite H by (by left). destruct (g b x s) as [[b'|e] s']; [|done].
  apply IH. intros. apply H. by right.
Qed.

Lemma overlapping_edits_one r e :
  overlapping_edits r [e] =
  (ov ← BlockRange_overlaps r (te_range e); Ok (if (ov : bool) then [e] else [])).
Proof. unfold overlapping_edits. cbn. by destruct (BlockRange_overlaps r (te_range e)) as [[]|]. Qed.

Lemma replace_range_at_many config fuel node edit adds c :
  replace_tree_range_at config fuel node edit adds c =
  replace_tree_ranges_at config fuel node [edit] adds c.
Proof.
  revert node c. induction fuel as [|fuel IH]; intros node c; cbn [replace_tree_range_at replace_tree_ranges_at]; [done|].
  rewrite overlapping_edits_one, !st_bind_lift.
  destruct (BlockRange_overlaps (mn_covered_range node) (te_range edit)) as [[]|e]; cbn [mbind Result_bind negb]; [|done..].
  rewrite bool_decide_eq_false_2 by done. cbv zeta. destruct (mn_kind node) as [children|entries xs].
  - rewrite !st_bind_run. rewrite (st_fold_ext _ (edit_child_many [edit]
      (fun node edits => replace_tree_ranges_at config fuel node edits adds))); [done|].
    intros acc child s _. unfold edit_child_one, edit_child_many.
    rewrite overlapping_edits_one, !st_bind_lift.
    destruct (BlockRange_overlaps _ _) as [[]|]; cbn [mbind Result_bind negb]; [|done..].
    rewrite bool_decide_eq_false_2 by done. unfold edit_child. rewrite !st_bind_run.
    destruct (ask_metadata _ _) as [[]]; [|done]. rewrite !st_bind_run. by rewrite IH.
  - rewrite !st_bind_lift. cbn [try_fold]. by destruct (edit_leaf _ _ _ _).
Qed.

(** ** What an edit may change *)

(** Only metadata nodes are added, under fresh ids. *)
Record nodes_grow (m m' : MetadataInner) : Prop := {
  ng_eq : m' = set_metadata_nodes (metadata_nodes m')
    (set_next_metadata_node_id (next_metadata_node_id m') m);
  ng_nodes : metadata_nodes m ⊆ metadata_nodes m';
  ng_next : next_metadata_node_id m <= next_metadata_node_id m';
  ng_new : forall id, is_Some (metadata_nodes m' !! id) ->
    is_Some (metadata_nodes m !! id) \/ next_metadata_node_id m <= id < next_metadata_node_id m';
}.

#[export] Instance nodes_grow_preorder : PreOrder nodes_grow.
Proof.
  split.
  - intros m. constructor; [by destruct m|done|lia|by left].
  - intros m1 m2 m3 [E12 N12 K12 F12] [E23 N23 K23 F23]. constructor.
    + rewrite E23, E12. by destruct m1.
    + by etrans.
    + lia.
    + intros id [Hid|?]%F23; [|right; lia]. apply F12 in Hid as [?|?]; [by left|right; lia].
Qed.

Lemma nodes_grow_fresh m m' : nodes_grow m m' -> ids_fresh m -> ids_fresh m'.
Proof.
  intros G [Hn Hc]. split.
  - intros id [Hid|?]%(ng_new _ _ G); [|lia]. apply Hn in Hid. pose proof (ng_next _ _ G). lia.
  - rewrite (ng_eq _ _ G). exact Hc.
Qed.

(** Where the receipt of a segment comes from. *)
Definition fetch_receipt (c : LocalCoordinator) (id : SegmentId) : Result VerifiedSegmentReceipt :=
  receipt ← Registry_receipt_for_segment (co_storage_nodes c) id; verify_segment_receipt receipt.

Definition receipt_source (c : LocalCoordinator) (adds : list VerifiedSegmentReceipt) (id : SegmentId)
    : Result VerifiedSegmentReceipt :=
  match receipts_by_segment adds !! id with
  | Some v => Ok v
  | None =>
      match co_verified_receipt_cache c !! id with
      | Some v => Ok v
      | None => fetch_receipt c id
      end
  end.

(** The cache is only filled, with what the storage nodes say. *)
Definition cache_grow (c c' : LocalCoordinator) : Prop :=
  forall id v, co_verified_receipt_cache c' !! id = Some v <->
    co_verified_receipt_cache c !! id = Some v \/
    (co_verified_receipt_cache c !! id = None /\
     co_verified_receipt_cache c' !! id = Some v /\ fetch_receipt c id = Ok v).

Record cow_rel (c c' : LocalCoordinator) : Prop := {
  cr_nodes : nodes_grow (co_metadata c) (co_metadata c');
  cr_registry : co_storage_nodes c' = co_storage_nodes c;
  cr_logs : co_append_run_logs c' = co_append_run_logs c;
  cr_allocator : co_append_stream_allocator c' = co_append_stream_allocator c;
  cr_tickets : co_append_publish_tickets c' = co_append_publish_tickets c;
  cr_lanes : co_append_stream_storage_lanes c' = co_append_stream_storage_lanes c;
  cr_intent : co_next_write_intent c' = co_next_write_intent c;
  cr_extent : co_next_extent_id c' = co_next_extent_id c;
  cr_cache : cache_grow c c';
}.

Lemma fetch_registry c c' id :
  co_storage_nodes c' = co_storage_nodes c -> fetch_receipt c' id = fetch_receipt c id.
Proof. unfold fetch_receipt. by intros ->. Qed.

#[export] Instance cow_rel_preorder : PreOrder cow_rel.
Proof.
  split.
  - intros c. constructor; try done. intros id v. naive_solver.
  - intros c1 c2 c3 [N12 R12 L12 P12 T12 A12 I12 X12 C12] [N23 R23 L23 P23 T23 A23 I23 X23 C23].
    constructor; [by etrans|congruence..|]. intros id v. split.
    + intros H3. pose proof H3 as [H2|(H2 & _ & Hf)]%C23.
      * pose proof H2 as [H1|(H1 & _ & Hf)]%C12; [by left|right; by split_and!].
      * right. rewrite (fetch_registry c1 c2 id R12) in Hf. split_and!; [|done..].
        destruct (co_verified_receipt_cache c1 !! id) as [w|] eqn:H1; [|done].
        assert (H : co_verified_receipt_cache c2 !! id = Some w) by (apply C12; by left). congruence.
    + intros [H1|(_ & H & _)]; [|done]. apply C23. left. apply C12. by left.
Qed.

Lemma receipt_source_grow c c' adds id :
  cow_rel c c' -> receipt_source c' adds id = receipt_source c adds id.
Proof.
  intros R. unfold receipt_source. destruct (receipts_by_segment adds !! id); [done|].
  rewrite (fetch_registry c c' id (cr_registry _ _ R)).
  destruct (co_verified_receipt_cache c' !! id) as [v|] eqn:H'.
  - pose proof H' as [->|(-> & _ & ->)]%(cr_cache _ _ R); done.
  - destruct (co_verified_receipt_cache c !! id) as [v|] eqn:H; [|done].
    assert (co_verified_receipt_cache c' !! id = Some v) by (apply (cr_cache _ _ R); by left). congruence.
Qed.

(** Every segment with a size has a receipt for at least that many blocks. *)
Definition receipts_ready (size : SegmentId -> option Z) (c : LocalCoordinator)
    (adds : list VerifiedSegmentReceipt) : Prop :=
  forall id n, size id = Some n -> exists v, receipt_source c adds id = Ok v /\
    sd_segment_id (vr_descriptor v) = id /\ n <= sd_blocks (vr_descriptor v).

Lemma receipts_ready_grow size c c' adds :
  cow_rel c c' -> receipts_ready size c adds -> receipts_ready size c' adds.
Proof. intros R H id n Hn. rewrite (receipt_source_grow c c' adds id R). by apply H. Qed.

(** The accumulator of the loop over the entries. *)
Definition receipts_acc (c : LocalCoordinator) (adds : list VerifiedSegmentReceipt)
    (seen : list LeafEntry)
    (acc : gmap SegmentId VerifiedSegmentReceipt * list VerifiedSegmentReceipt) : Prop :=
  (forall id v, acc.1 !! id = Some v <-> (exists e, e ∈ seen /\ le_segment_id e = id) /\
     receipt_source c adds id = Ok v) /\
  Forall (fun v => co_verified_receipt_cache c !! sd_segment_id (vr_descriptor v) = None /\
    fetch_receipt c (sd_segment_id (vr_descriptor v)) = Ok v) acc.2.

Lemma receipt_step_ok size c adds seen acc e :
  receipts_ready size c adds -> is_Some (size (le_segment_id e)) -> receipts_acc c adds seen acc ->
  exists acc', receipt_step c (receipts_by_segment adds) acc e = Ok acc' /\
    receipts_acc c adds (seen ++ [e]) acc'.
Proof.
  intros Hready [n Hn] [Ha Hnew]. destruct acc as [m newly]. cbn in Ha, Hnew.
  destruct (Hready _ _ Hn) as (v & Hv & Hid & _).
  assert (Hput : forall newly', Forall (fun v => co_verified_receipt_cache c !! sd_segment_id (vr_descriptor v) = None /\
      fetch_receipt c (sd_segment_id (vr_descriptor v)) = Ok v) newly' ->
    receipts_acc c adds (seen ++ [e]) (<[le_segment_id e := v]> m, newly')).
  { intros newly' Hnew'. split; [|done]. intros id w. cbn.
    destruct (decide (id = le_segment_id e)) as [->|Hne].
    - rewrite lookup_insert_eq. split.
      + intros [= <-]. split; [|done]. exists e. split; [|done]. apply elem_of_app. right. by left.
      + intros [_ Hw]. congruence.
    - rewrite lookup_insert_ne by done. rewrite Ha. setoid_rewrite elem_of_app.
      setoid_rewrite list_elem_of_singleton. naive_solver. }
  unfold receipt_step. destruct (m !! le_segment_id e) as [w|] eqn:Hm.
  { eexists. split; [done|]. split; [|done]. intros id w'. cbn. rewrite Ha. setoid_rewrite elem_of_app.
    setoid_rewrite list_elem_of_singleton. apply Ha in Hm as [(e' & He' & Hid') _].
    split; [naive_solver|]. intros [(e'' & [?|He] & <-) Hs]; [split; eauto|subst e''; split; eauto]. }
  unfold receipt_source in Hv. destruct (receipts_by_segment adds !! le_segment_id e) as [w|] eqn:Hadd.
  { injection Hv as ->. eexists. split; [done|]. by apply Hput. }
  destruct (co_verified_receipt_cache c !! le_segment_id e) as [w|] eqn:Hc.
  { injection Hv as ->. eexists. split; [done|]. by apply Hput. }
  pose proof Hv as Hf. unfold fetch_receipt in Hv. apply bind_Ok in Hv as (rc & -> & Hv).
  cbn [mbind Result_bind]. rewrite Hv. cbn [mbind Result_bind]. eexists. split; [done|]. apply Hput.
  apply Forall_app. split; [done|]. constructor; [|constructor]. by rewrite Hid.
Qed.

Lemma receipts_fold_ok size c adds es seen acc :
  receipts_ready size c adds -> Forall (fun e => is_Some (size (le_segment_id e))) es ->
  receipts_acc c adds seen acc ->
  exists acc', try_fold (receipt_step c (receipts_by_segment adds)) acc es = Ok acc' /\
    receipts_acc c adds (seen ++ es) acc'.
Proof.
  intros Hready Hes. revert seen acc. induction Hes as [|e es He Hes IH]; intros seen acc Hacc; cbn.
  { rewrite app_nil_r. eauto. }
  destruct (receipt_step_ok size c adds seen acc e Hready He Hacc) as (acc1 & -> & H1).
  destruct (IH _ _ H1) as (acc' & Hf & H2). cbn [mbind Result_bind]. exists acc'. split; [done|].
  by rewrite <-app_assoc in H2.
Qed.

(** Filling the cache. *)
Lemma cache_receipts_run vs c :
  Forall (fun v => co_verified_receipt_cache c !! sd_segment_id (vr_descriptor v) = None /\
    fetch_receipt c (sd_segment_id (vr_descriptor v)) = Ok v) vs ->
  exists c', st_for cache_receipt vs c = (Ok tt, c') /\ cow_rel c c' /\ co_metadata c' = co_metadata c.
Proof.
  intros Hvs.
  assert (Hgen : forall vs0 c0, Forall (fun v => fetch_receipt c (sd_segment_id (vr_descriptor v)) = Ok v /\
      co_verified_receipt_cache c !! sd_segment_id (vr_descriptor v) = None) vs0 ->
    cow_rel c c0 -> co_metadata c0 = co_metadata c ->
    exists c', st_for cache_receipt vs0 c0 = (Ok tt, c') /\ cow_rel c c' /\ co_metadata c' = co_metadata c).
  { induction vs0 as [|v vs0 IH]; intros c0 H0 R0 M0; [by exists c0|].
    apply Forall_cons in H0 as [[Hf Hn] H0]. cbn [st_for]. rewrite st_bind_run. cbn.
    apply IH; [done| |done]. destruct R0 as [N R L P T A I X C]. constructor; try done.
    intros id w. cbn. destruct (decide (id = sd_segment_id (vr_descriptor v))) as [->|Hne].
    - rewrite lookup_insert_eq, Hn. split; [intros [= <-]; by right|intros [|(_ & ? & _)]; done].
    - rewrite lookup_insert_ne by done. apply C. }
  apply Hgen; [|done..]. eapply Forall_impl; [exact Hvs|]. by intros v [].
Qed.

Lemma verified_receipts_ok size c adds es :
  receipts_ready size c adds -> Forall (fun e => is_Some (size (le_segment_id e))) es ->
  exists vs c', verified_receipts_for_entries_with_cache es adds c = (Ok vs, c') /\
    cow_rel c c' /\ co_metadata c' = co_metadata c /\
    forall e n, e ∈ es -> size (le_segment_id e) = Some n ->
      exists d, List.find (fun d => sd_segment_id d =? le_segment_id e) (vr_descriptor <$> vs) = Some d /\
        sd_segment_id d = le_segment_id e /\ n <= sd_blocks d.
Proof.
  intros Hready Hes. unfold verified_receipts_for_entries_with_cache.
  destruct (receipts_fold_ok size c adds es [] (∅, []) Hready Hes) as ([m newly] & Hf & Ha & Hn).
  { split; [|constructor]. intros id v. cbn. rewrite lookup_empty. split; [done|].
    intros [(e & He & _) _]. by apply not_elem_of_nil in He. }
  cbn in Ha, Hn. destruct (cache_receipts_run newly c Hn) as (c' & Hrun & R & HM).
  rewrite st_bind_run. cbn [st_get]. rewrite st_bind_lift, Hf, st_bind_run. cbn [snd].
  rewrite Hrun. exists (bt_values m), c'. split_and!; [done..|].
  intros e n He Hsz. destruct (Hready _ _ Hsz) as (v & Hv & Hid & Hle).
  assert (Hm : m !! le_segment_id e = Some v) by (apply Ha; eauto).
  destruct (List.find _ _) as [d|] eqn:Hfind.
  - apply find_some in Hfind as [Hin Heq]. bool_prop. rewrite <-list_elem_of_In in Hin.
    apply list_elem_of_fmap in Hin as (w & -> & [k Hk]%elem_of_bt_values).
    apply Ha in Hk as [(e' & He' & <-) Hsrc].
    rewrite Forall_forall in Hes. destruct (Hes e' He') as [n' Hn'].
    destruct (Hready _ _ Hn') as (w' & Hw' & Hid' & _). assert (w' = w) as -> by congruence.
    assert (w = v) as -> by congruence. eauto.
  - exfalso. assert (Hin : vr_descriptor v ∈ (vr_descriptor <$> bt_values m)).
    { apply list_elem_of_fmap. exists v. split; [done|]. apply elem_of_bt_values. eauto. }
    eapply find_none in Hfind; [|by apply list_elem_of_In]. bool_prop. lia.
Qed.

(** ** Well-formed trees and their contents *)

Section contents.
Context (bs : Z) (size : SegmentId -> option Z).

(** A leaf: sorted entries and extents inside the range, every entry inside
    its segment. *)
Record leaf_ok (r : BlockRange) (es : list LeafEntry) (xs : list RunBackedFileExtent) : Prop := {
  lo_sorted : leaf_sorted es;
  lo_wf : Forall wf_entry es;
  lo_in : forall b id k, entries_lookup es b = Some (id, k) ->
    in_block_range r b /\ exists n, size id = Some n /\ k < n;
  lo_extents : Forall wf_extent xs;
  lo_runs : runs_sorted (rx_run <$> xs);
  lo_bytes : forall y loc, runs_at (rx_run <$> xs) y loc -> in_block_range r (y / bs);
}.

Definition range_ok (r : BlockRange) : Prop :=
  wf_block_range r /\ 0 < bk_blocks r /\ bk_end r * bs < U64_MOD.

(** The tree of height at most [h] below a node. *)
Fixpoint tree_ok (h : nat) (nodes : gmap MetadataNodeId MetadataNode) (id : MetadataNodeId)
    (r : BlockRange) : Prop :=
  match h with
  | O => False
  | S h => exists n, nodes !! id = Some n /\ mn_node_id n = id /\ mn_covered_range n = r /\ range_ok r /\
      match mn_kind n with
      | Leaf es xs => leaf_ok r es xs
      | Internal cs => cs <> [] /\ children_chain (bk_start r) cs (bk_end r) /\
          Forall (fun c => tree_ok h nodes (mc_node_id c) (mc_range c)) cs
      end
  end.

Definition child_at (cs : list MetadataChild) (b : Z) : option MetadataChild :=
  List.find (fun c => in_range (bk_start (mc_range c)) (bk_end (mc_range c)) b) cs.

(** The leaf that holds a block. *)
Fixpoint leaf_at (h : nat) (nodes : gmap MetadataNodeId MetadataNode) (id : MetadataNodeId) (b : Z)
    : option (list LeafEntry * list RunBackedFileExtent) :=
  match h with
  | O => None
  | S h =>
      match nodes !! id with
      | None => None
      | Some n =>
          match mn_kind n with
          | Leaf es xs => Some (es, xs)
          | Internal cs =>
              match child_at cs b with
              | Some c => leaf_at h nodes (mc_node_id c) b
              | None => None
              end
          end
      end
  end.

Lemma child_at_Some s cs e b :
  children_chain s cs e -> s <= b < e ->
  exists c, child_at cs b = Some c /\ c ∈ cs /\ in_block_range (mc_range c) b.
Proof.
  intros Hch Hb. destruct (children_chain_unique s cs e b Hch Hb) as (pre & c & post & -> & Hin & _).
  unfold child_at. destruct (List.find _ _) as [c'|] eqn:Hf.
  - apply find_some in Hf as [Hin' Hr]. apply in_range_true in Hr. exists c'.
    split_and!; [done|by apply list_elem_of_In|exact Hr].
  - exfalso. eapply find_none in Hf; [|apply in_app_iff; right; by left].
    apply in_range_false in Hf. unfold bk_end, in_block_range in *. lia.
Qed.

Lemma tree_ok_range h nodes id r : tree_ok h nodes id r -> range_ok r.
Proof. destruct h; [done|]. by intros (n & _ & _ & _ & ? & _). Qed.

Lemma tree_ok_grow h nodes nodes' id r :
  nodes ⊆ nodes' -> tree_ok h nodes id r -> tree_ok h nodes' id r.
Proof.
  intros Hsub. revert id r. induction h as [|h IH]; intros id r; [done|].
  intros (n & Hn & Hid & Hr & Hok & Hk). exists n. split_and!; try done; [by eapply lookup_weaken|].
  destruct (mn_kind n) as [cs|]; [|done]. destruct Hk as (? & ? & Hcs). split_and!; [done..|].
  eapply Forall_impl; [exact Hcs|]. intros c. apply IH.
Qed.

Lemma leaf_at_grow h nodes nodes' id r b :
  nodes ⊆ nodes' -> tree_ok h nodes id r -> in_block_range r b ->
  leaf_at h nodes' id b = leaf_at h nodes id b.
Proof.
  intros Hsub. revert id r. induction h as [|h IH]; intros id r; [done|].
  intros (n & Hn & Hid & Hr & Hok & Hk) Hb. cbn [leaf_at].
  rewrite Hn, (lookup_weaken _ _ _ _ Hn Hsub). destruct (mn_kind n) as [cs|]; [|done].
  destruct Hk as (_ & Hch & Hcs). destruct (child_at_Some _ _ _ b Hch) as (c & -> & Hin & Hc); [exact Hb|].
  rewrite Forall_forall in Hcs. by eapply IH; [apply Hcs|].
Qed.

Lemma leaf_at_ok h nodes id r b :
  tree_ok h nodes id r -> in_block_range r b ->
  exists es xs r', leaf_at h nodes id b = Some (es, xs) /\ leaf_ok r' es xs.
Proof.
  revert id r. induction h as [|h IH]; intros id r; [done|].
  intros (n & Hn & Hid & Hr & Hok & Hk) Hb. cbn [leaf_at]. rewrite Hn.
  destruct (mn_kind n) as [cs|es xs]; [|by eauto].
  destruct Hk as (_ & Hch & Hcs). destruct (child_at_Some _ _ _ b Hch) as (c & -> & Hin & Hc); [exact Hb|].
  rewrite Forall_forall in Hcs. by eapply IH; [apply Hcs|].
Qed.

Lemma tree_ok_mono h h' nodes id r : (h <= h')%nat -> tree_ok h nodes id r -> tree_ok h' nodes id r.
Proof.
  revert h' id r. induction h as [|h IH]; intros h' id r Hle; [done|]. destruct h' as [|h']; [lia|].
  intros (n & Hn & Hid & Hr & Hok & Hk). exists n. split_and!; try done.
  destruct (mn_kind n) as [cs|]; [|done]. destruct Hk as (? & ? & Hcs). split_and!; [done..|].
  eapply Forall_impl; [exact Hcs|]. intros c. apply IH. lia.
Qed.

Lemma leaf_at_mono h h' nodes id r b :
  (h <= h')%nat -> tree_ok h nodes id r -> in_block_range r b ->
  leaf_at h' nodes id b = leaf_at h nodes id b.
Proof.
  revert h' id r. induction h as [|h IH]; intros h' id r Hle; [done|]. destruct h' as [|h']; [lia|].
  intros (n & Hn & Hid & Hr & Hok & Hk) Hb. cbn [leaf_at]. rewrite Hn.
  destruct (mn_kind n) as [cs|]; [|done]. destruct Hk as (_ & Hch & Hcs).
  destruct (child_at_Some _ _ _ b Hch) as (c & -> & Hin & Hc); [exact Hb|].
  rewrite Forall_forall in Hcs. eapply IH; [lia|by apply Hcs|done].
Qed.

(** ** Validation accepts well-formed nodes *)

Lemma entry_first es e b :
  leaf_sorted es -> e ∈ es -> le_logical_start e <= b < le_end e ->
  entries_lookup es b = Some (le_segment_id e, le_segment_offset e + (b - le_logical_start e)).
Proof. intros Hs He Hb. eapply leaf_sorted_lookup; [done..|]. by apply entry_lookup_Some. Qed.

Lemma leaf_entry_bounds r es xs e :
  leaf_ok r es xs -> e ∈ es ->
  bk_start r <= le_logical_start e /\ le_end e <= bk_end r /\
  exists n, size (le_segment_id e) = Some n /\ le_segment_offset e + le_blocks e <= n.
Proof.
  intros Hl He. pose proof (lo_wf _ _ _ Hl) as Hwf. rewrite Forall_forall in Hwf.
  destruct (Hwf e He) as (? & ? & _).
  pose proof (entry_first es e (le_logical_start e) (lo_sorted _ _ _ Hl) He) as H1.
  pose proof (entry_first es e (le_end e - 1) (lo_sorted _ _ _ Hl) He) as H2.
  unfold le_end in *. destruct (lo_in _ _ _ Hl _ _ _ (H1 ltac:(lia))) as [? _].
  destruct (lo_in _ _ _ Hl _ _ _ (H2 ltac:(lia))) as [? (n & Hn & ?)].
  unfold in_block_range, bk_end in *. split_and!; [lia..|]. exists n. split; [done|lia].
Qed.

Lemma validate_leaf_complete r es xs ds :
  wf_block_range r -> leaf_ok r es xs ->
  (forall e n, e ∈ es -> size (le_segment_id e) = Some n ->
    exists d, List.find (fun d => sd_segment_id d =? le_segment_id e) ds = Some d /\
      sd_segment_id d = le_segment_id e /\ n <= sd_blocks d) ->
  validate_leaf_entries r es ds = Ok tt.
Proof.
  intros Hr Hl Hds. unfold validate_leaf_entries.
  enough (Hgen : forall l prev, (forall e, e ∈ l -> e ∈ es) -> StronglySorted (iv_before le_logical_start le_end) l ->
    (forall p e, prev = Some p -> e ∈ l -> bk_end p <= le_logical_start e /\ 0 <= bk_blocks p /\ bk_start p + bk_blocks p < U64_MOD) ->
    exists acc, try_fold (leaf_entry_step r ds) prev l = Ok acc).
  { destruct (Hgen es None) as [acc ->]; [done|apply (lo_sorted _ _ _ Hl)|done|done]. }
  induction l as [|e l IH]; intros prev Hin Hs Hprev; cbn [try_fold]; [eauto|].
  apply StronglySorted_inv in Hs as [Hs Hafter].
  assert (He : e ∈ es) by (apply Hin; by left).
  destruct (leaf_entry_bounds r es xs e Hl He) as (Hlo & Hhi & n & Hn & Hbound).
  pose proof (lo_wf _ _ _ Hl) as Hwf. rewrite Forall_forall in Hwf.
  destruct (Hwf e He) as (? & ? & ? & ? & ?).
  destruct (Hds e n He Hn) as (d & Hfind & Hid & Hsz).
  destruct (IH (Some (LeafEntry_logical_range e))) as [acc Hacc].
  { intros. apply Hin. by right. }
  { done. }
  { intros p e' [= <-] He'. rewrite Forall_forall in Hafter. specialize (Hafter e' He').
    unfold iv_before, le_end in *. unfold bk_end. cbn. lia. }
  exists acc. rewrite <-Hacc.
  assert (Hwe : wf_block_range (LeafEntry_logical_range e)) by (by apply wf_entry_range, Hwf).
  enough (leaf_entry_step r ds prev e = Ok (Some (LeafEntry_logical_range e))) as -> by done.
  unfold leaf_entry_step, LeafEntry_validate_against, BlockRange_validate_non_empty,
    BlockRange_contains_range, BlockRange_is_empty, LeafEntry_segment_end_exclusive.
  rewrite Hfind. cbn [ok_or mbind Result_bind]. range_wf.
  unfold le_end, bk_end in *. cbn in *. rewrite checked_add_ok by lia. cbn [ok_or mbind Result_bind].
  ztest. destruct prev as [p|]; [|by ztest].
  destruct (Hprev p e eq_refl ltac:(by left)) as (? & ? & ?).
  rewrite (proj2 (BlockRange_end_exclusive_Ok p (bk_end p))) by (unfold bk_end; lia).
  cbn [mbind Result_bind]. unfold bk_end in *. by ztest.
Qed.

Lemma validate_extents_complete xs :
  Forall wf_extent xs -> runs_sorted (rx_run <$> xs) -> validate_run_backed_file_extents xs = Ok tt.
Proof.
  intros Hwf [Hs _]. unfold validate_run_backed_file_extents.
  enough (Hgen : forall prev, (forall p x, prev = Some p -> x ∈ xs -> p <= rx_file_offset_start x) ->
    exists acc, try_fold (fun previous_end extent =>
      RunExtent_validate extent;;
      reject_if (match previous_end with
        | Some pe => rx_file_offset_start extent <? pe | None => false end)
        (InvalidArgument "run-backed file extents must not overlap");;
      e ← ok_or (checked_add U64_MOD (rx_file_offset_start extent) (rx_payload_len extent))
        (InvalidArgument "run-backed file extent range overflows");
      Ok (Some e)) prev xs = Ok acc) by (by destruct (Hgen None) as [acc ->]).
  induction Hwf as [|x xs Hx Hxs IH]; intros prev Hprev; cbn [try_fold]; [eauto|].
  cbn [fmap list_fmap] in Hs. apply StronglySorted_inv in Hs as [Hs Hafter]. rewrite Forall_fmap in Hafter.
  rewrite (RunExtent_validate_ok x Hx). cbn [mbind Result_bind].
  destruct Hx as ((? & ? & Hend & ? & ?) & Hst & Hln). unfold rr_end in Hend.
  rewrite checked_add_ok by lia.
  destruct (IH Hs (Some (rx_file_offset_start x + rx_payload_len x))) as [acc Hacc].
  { intros p x' [= <-] Hx'. rewrite Forall_forall in Hafter. specialize (Hafter x' Hx').
    rewrite Forall_forall in Hxs. destruct (Hxs x' Hx') as (_ & Hst' & _).
    cbn in Hafter. unfold rr_end in Hafter. lia. }
  exists acc. rewrite <-Hacc. destruct prev as [p|]; [|done].
  specialize (Hprev p x eq_refl ltac:(by left)). by ztest.
Qed.

Lemma validate_internal_complete r cs :
  wf_block_range r -> cs <> [] -> children_chain (bk_start r) cs (bk_end r) ->
  validate_child_ranges r cs = Ok tt.
Proof.
  intros Hr Hne Hch. unfold validate_child_ranges. destruct cs as [|c cs]; [done|]. cbn [reject_if mbind Result_bind].
  destruct (child_fold_complete r (c :: cs) None (bk_start r)) as [p ->]; try done.
  cbn. range_wf. by rewrite Z.eqb_refl.
Qed.
End contents.

(** ** Editing a leaf *)

Lemma Forall_filter {A} (P Q : A -> Prop) `{!forall x, Decision (Q x)} l : Forall P l -> Forall P (filter Q l).
Proof. rewrite !Forall_forall. intros HP x [_ Hx]%list_elem_of_filter. by apply HP. Qed.

(** What the blocks of an edited tree map to. *)
Definition overlay1 (e : TreeRangeEdit) (b : Z) (old : option (SegmentId * BlockIndex))
    : option (SegmentId * BlockIndex) :=
  if in_range (bk_start (te_range e)) (bk_end (te_range e)) b
  then (fun rp => (rp_segment_id rp, b - rp_segment_base rp)) <$> te_replacement e
  else old.
Definition overlay (es : list TreeRangeEdit) (b : Z) (old : option (SegmentId * BlockIndex))
    : option (SegmentId * BlockIndex) :=
  fold_left (fun old e => overlay1 e b old) es old.
Definition covered (es : list TreeRangeEdit) (b : Z) : bool :=
  existsb (fun e => in_range (bk_start (te_range e)) (bk_end (te_range e)) b) es.

(** The contents of a leaf before and after some edits, as seen by block [b]. *)
Definition leaf_edit (bs : Z) (edits : list TreeRangeEdit) (b : Z)
    (l l' : list LeafEntry * list RunBackedFileExtent) : Prop :=
  entries_lookup l'.1 b = overlay edits b (entries_lookup l.1 b) /\
  forall y loc, y / bs = b ->
    runs_at (rx_run <$> l'.2) y loc <-> covered edits b = false /\ runs_at (rx_run <$> l.2) y loc.

Definition edit_ok (size : SegmentId -> option Z) (e : TreeRangeEdit) : Prop :=
  wf_block_range (te_range e) /\ 0 < bk_blocks (te_range e) /\
  forall rp, te_replacement e = Some rp -> exists n, size (rp_segment_id rp) = Some n /\
    n < U64_MOD /\ 0 <= rp_segment_base rp <= bk_start (te_range e) /\
    bk_end (te_range e) - rp_segment_base rp <= n.

Lemma overlay_app e1 e2 b o : overlay (e1 ++ e2) b o = overlay e2 b (overlay e1 b o).
Proof. apply fold_left_app. Qed.

Lemma leaf_edit_nil bs b l : leaf_edit bs [] b l l.
Proof. split; [done|]. intros y loc _. cbn. naive_solver. Qed.

Lemma leaf_edit_trans bs e1 e2 b l1 l2 l3 :
  leaf_edit bs e1 b l1 l2 -> leaf_edit bs e2 b l2 l3 -> leaf_edit bs (e1 ++ e2) b l1 l3.
Proof.
  intros [H1 R1] [H2 R2]. split; [by rewrite overlay_app, H2, H1|].
  intros y loc Hy. rewrite (R2 y loc Hy), (R1 y loc Hy). unfold covered.
  rewrite existsb_app, orb_false_iff. tauto.
Qed.

(** Edits that miss a block leave it alone. *)
Lemma overlay_miss edits b o : covered edits b = false -> overlay edits b o = o.
Proof.
  revert o. induction edits as [|e edits IH]; intros o; [done|]. unfold covered. cbn.
  intros [He Hes]%orb_false_iff. unfold overlay1. rewrite He. by apply IH.
Qed.

Lemma leaf_edit_miss bs edits b l : covered edits b = false -> leaf_edit bs edits b l l.
Proof.
  intros H. split; [by rewrite overlay_miss|]. intros y loc _. rewrite H. naive_solver.
Qed.

Lemma byte_in_blocks bs s e y : 0 < bs -> s * bs <= y < e * bs <-> s <= y / bs < e.
Proof.
  intros Hb. pose proof (Z.mul_div_le y bs Hb). pose proof (Z.mul_succ_div_gt y bs Hb). nia.
Qed.

Lemma sorted_extents_apart xs :
  Forall wf_extent xs -> runs_sorted (rx_run <$> xs) -> iv_apart rx_file_offset_start rx_end xs.
Proof.
  intros Hwf [Hs _]. apply iv_sorted_apart. split.
  - induction Hwf as [|x xs Hx Hxs IH]; [constructor|]. cbn [fmap list_fmap] in Hs.
    apply StronglySorted_inv in Hs as [Hs Hafter]. rewrite Forall_fmap in Hafter.
    constructor; [by apply IH|]. rewrite Forall_forall in Hafter, Hxs |- *. intros x' Hx'.
    specialize (Hafter x' Hx'). destruct (Hxs x' Hx') as (_ & Hst & _). destruct Hx as (_ & Hst0 & Hln).
    unfold iv_before, rx_end. cbn in Hafter. unfold rr_end in Hafter. lia.
  - eapply Forall_impl; [exact Hwf|]. intros x ((? & ? & _) & ? & ?). unfold iv_nonempty, rx_end. lia.
Qed.

Section leaves.
Context (config : LocalStoreConfig) (size : SegmentId -> option Z).
Let bs := cfg_block_size config.
Hypothesis Hbs : 0 < bs.

Lemma block_bytes_ok r :
  range_ok bs r -> block_range_to_byte_range r bs = Ok (mkByteRange (bk_start r * bs) (bk_blocks r * bs)).
Proof using Hbs.
  intros (((? & ?) & ? & ?) & ? & Hend). unfold bk_end in Hend. unfold block_range_to_byte_range.
  rewrite !checked_mul_ok by nia. done.
Qed.

(** The entries of a leaf after an overlay. *)
Lemma leaf_overlay_ok r es xs ov repl :
  range_ok bs r -> leaf_ok bs size r es xs -> wf_block_range ov -> 0 < bk_blocks ov ->
  bk_start r <= bk_start ov -> bk_end ov <= bk_end r ->
  (forall rp, repl = Some rp -> exists n, size (rp_segment_id rp) = Some n /\ n < U64_MOD /\
    0 <= rp_segment_base rp <= bk_start ov /\ bk_end ov - rp_segment_base rp <= n) ->
  exists es' xs', replace_leaf_entries es r ov (replacement_entry ov <$> repl) = Ok es' /\
    block_range_to_byte_range ov bs = Ok (mkByteRange (bk_start ov * bs) (bk_blocks ov * bs)) /\
    replace_run_backed_file_extents xs (mkByteRange (bk_start ov * bs) (bk_blocks ov * bs)) [] = Ok xs' /\
    leaf_ok bs size r es' xs' /\ forall b, leaf_edit bs [mkTreeRangeEdit ov repl] b (es, xs) (es', xs').
Proof using Hbs.
  intros Hr Hl Hov Hpos Hlo Hhi Hrepl. destruct Hr as (Hwr & Hrpos & Hend).
  pose proof Hov as ((? & ?) & ? & ?).
  destruct (replace_leaf_entries_overlay es r ov (replacement_entry ov <$> repl))
    as (es' & Hes' & Hs' & Hwf' & Hlook); [apply Hl|apply Hl|done..| |].
  { intros e (rp & Hrp & ->)%fmap_Some. destruct (Hrepl rp Hrp) as (n & _ & ? & ? & ?).
    unfold replacement_entry, wf_entry, LeafEntry_logical_range, le_end, bk_end in *. cbn.
    rewrite wsub64_exact by (u64_unfold; lia). split; [lia|by destruct ov]. }
  assert (Hbytes : range_ok bs ov) by (split_and!; [done..|]; unfold bk_end in *; nia).
  destruct (replace_run_extents_overlay xs (mkByteRange (bk_start ov * bs) (bk_blocks ov * bs)) [])
    as (xs' & Hxs' & Hwx' & Hsx' & Hruns).
  { apply Hl. }
  { apply sorted_extents_apart; apply Hl. }
  { constructor. }
  { apply iv_apart_nil. }
  { constructor. }
  { cbn. nia. }
  { cbn. destruct Hbytes as (_ & _ & ?). unfold bk_end in *. nia. }
  cbn [br_offset br_len] in Hruns. rewrite <-Z.mul_add_distr_r in Hruns.
  assert (Hedit : forall b, leaf_edit bs [mkTreeRangeEdit ov repl] b (es, xs) (es', xs')).
  { intros b. split.
    - cbn [fst]. rewrite Hlook. unfold overlay, overlay1. cbn [fold_left te_range te_replacement].
      destruct (in_range _ _ _) eqn:Hb; [|done]. apply in_range_true in Hb.
      destruct repl as [rp|]; [|done]. cbn. destruct (Hrepl rp eq_refl) as (n & _ & ? & ? & ?).
      apply entry_lookup_Some. unfold replacement_entry, le_end, bk_end in *. cbn.
      rewrite wsub64_exact by (u64_unfold; lia). split; [lia|]. f_equal. lia.
    - cbn [snd]. intros y loc Hy. rewrite Hruns. unfold covered, bk_end. cbn [existsb te_range].
      rewrite orb_false_r. fold (bk_end ov). destruct (in_range (bk_start ov * bs) _ y) eqn:Hin.
      + apply in_range_true in Hin. rewrite byte_in_blocks, Hy in Hin by done.
        rewrite (proj2 (in_range_true _ _ _)) by done. split; [by intros (? & ?%not_elem_of_nil & _)|naive_solver].
      + apply in_range_false in Hin. rewrite byte_in_blocks, Hy in Hin by done.
        rewrite (proj2 (in_range_false _ _ _)) by done. naive_solver. }
  exists es', xs'. split_and!; [done|by apply block_bytes_ok|done| |done].
  constructor; try done.
  - intros b id k Hb. rewrite Hlook in Hb. destruct (in_range _ _ _) eqn:Hin; [|by eapply lo_in].
    apply in_range_true in Hin. destruct repl as [rp|]; [|done]. cbn in Hb.
    destruct (Hrepl rp eq_refl) as (n & Hn & ? & ? & ?).
    apply entry_lookup_Some in Hb as [Hb [= -> ->]]. unfold replacement_entry, le_end, bk_end in *. cbn in *.
    rewrite wsub64_exact by (u64_unfold; lia). split; [unfold in_block_range; lia|].
    exists n. split; [done|lia].
  - intros y loc Hy. apply Hruns in Hy. destruct (in_range _ _ _).
    + by destruct Hy as (? & ?%not_elem_of_nil & _).
    + by eapply lo_bytes.
Qed.

Lemma edit_leaf_ok r acc e :
  range_ok bs r -> leaf_ok bs size r acc.1 acc.2 -> edit_ok size e ->
  exists out, edit_leaf config r acc e = Ok out /\ leaf_ok bs size r out.1 out.2 /\
    forall b, in_block_range r b -> leaf_edit bs [e] b acc out.
Proof using Hbs.
  intros Hr Hl (He & Hepos & Hrepl). pose proof Hr as (Hwr & _). unfold edit_leaf.
  destruct (intersection_spec r (te_range e) Hwr He) as (o & -> & Ho). cbn [mbind Result_bind].
  destruct o as [ov|].
  - destruct Ho as (Hov & Hpos & Hiff).
    assert (Hlo : bk_start r <= bk_start ov /\ bk_start (te_range e) <= bk_start ov).
    { destruct (proj1 (Hiff (bk_start ov))) as [? ?]; unfold in_block_range in *; lia. }
    assert (Hhi : bk_end ov <= bk_end r /\ bk_end ov <= bk_end (te_range e)).
    { destruct (proj1 (Hiff (bk_end ov - 1))) as [? ?]; unfold in_block_range, bk_end in *; lia. }
    destruct (leaf_overlay_ok r acc.1 acc.2 ov (te_replacement e)) as (es' & xs' & -> & Hb & Hx & Hl' & Hed);
      [done..|lia|lia| |].
    { intros rp Hrp. destruct (Hrepl rp Hrp) as (n & ? & ? & ? & ?). exists n. split_and!; [done..|lia|lia|lia]. }
    cbn [mbind Result_bind]. fold bs. rewrite Hb. cbn [mbind Result_bind]. rewrite Hx. cbn [mbind Result_bind].
    exists (es', xs'). split_and!; [done..|]. intros b Hbr. specialize (Hed b).
    destruct acc as [es xs]. cbn [fst snd] in *.
    assert (Hin : in_range (bk_start ov) (bk_end ov) b =
      in_range (bk_start (te_range e)) (bk_end (te_range e)) b).
    { specialize (Hiff b). unfold in_range, in_block_range, bk_end in *.
      destruct (Z.leb_spec (bk_start ov) b), (Z.ltb_spec b (bk_start ov + bk_blocks ov)),
        (Z.leb_spec (bk_start (te_range e)) b), (Z.ltb_spec b (bk_start (te_range e) + bk_blocks (te_range e)));
        cbn; try done; lia. }
    revert Hed. unfold leaf_edit, overlay, overlay1, covered. cbn [fold_left existsb te_range te_replacement].
    by rewrite Hin.
  - exists acc. split_and!; [done..|]. intros b Hb. apply leaf_edit_miss. unfold covered. cbn.
    rewrite orb_false_r. apply in_range_false. intros Hin. apply (Ho b). split; [done|exact Hin].
Qed.

Lemma edit_leaf_fold_ok r acc edits :
  range_ok bs r -> leaf_ok bs size r acc.1 acc.2 -> Forall (edit_ok size) edits ->
  exists out, try_fold (edit_leaf config r) acc edits = Ok out /\ leaf_ok bs size r out.1 out.2 /\
    forall b, in_block_range r b -> leaf_edit bs edits b acc out.
Proof using Hbs.
  intros Hr Hl Hes. revert acc Hl. induction Hes as [|e edits He Hes IH]; intros acc Hl; cbn [try_fold].
  { exists acc. split_and!; [done..|]. intros. apply leaf_edit_nil. }
  destruct (edit_leaf_ok r acc e Hr Hl He) as (acc1 & -> & Hl1 & H1). cbn [mbind Result_bind].
  destruct (IH acc1 Hl1) as (out & -> & Hl2 & H2). exists out. split_and!; [done..|].
  intros b Hb. apply (leaf_edit_trans bs [e] edits b acc acc1 out); auto.
Qed.
End leaves.

(** ** Writing a node *)

(** The state after a node was added under a fresh id. *)
Definition node_added (m : MetadataInner) (r : BlockRange) (kind : MetadataNodeKind) : MetadataInner :=
  let id := next_metadata_node_id m in
  set_metadata_nodes (<[id := mkMetadataNode id r kind]> (metadata_nodes m))
    (set_next_metadata_node_id (id + 1) m).

Lemma fresh_node m : ids_fresh m -> metadata_nodes m !! next_metadata_node_id m = None.
Proof. intros [Hn _]. apply eq_None_not_Some. intros Hs. specialize (Hn _ Hs). lia. Qed.

Lemma node_added_grow m r kind : ids_fresh m -> nodes_grow m (node_added m r kind).
Proof.
  intros Hf. constructor; [by destruct m| |cbn; lia|].
  - apply insert_subseteq. by apply fresh_node.
  - intros id. cbn. rewrite lookup_insert_is_Some'. intros [<-|?]; [right; lia|by left].
Qed.

(** Allocation, validation and persistence of a node that validates. *)
Lemma persist_new_node c r kind vs :
  ids_fresh (co_metadata c) ->
  MetadataNode_validate (mkMetadataNode (next_metadata_node_id (co_metadata c)) r kind)
    (vr_descriptor <$> vs) = Ok tt ->
  (new_node ← on_metadata (allocate_metadata_node r kind);
   st_lift (MetadataNode_validate new_node (vr_descriptor <$> vs));;
   on_metadata (persist_metadata_node (mkMetadataNodeWrite new_node vs));;
   mret (mkTreeEditResult (mn_node_id new_node) true)) c =
  (Ok (mkTreeEditResult (next_metadata_node_id (co_metadata c)) true),
   set_co_metadata (node_added (co_metadata c) r kind) c).
Proof.
  intros Hf Hv. rewrite st_bind_run.
  change (on_metadata (allocate_metadata_node r kind) c) with
    (Ok (mkMetadataNode (next_metadata_node_id (co_metadata c)) r kind),
     set_co_metadata (set_next_metadata_node_id (next_metadata_node_id (co_metadata c) + 1) (co_metadata c)) c).
  cbv beta iota. rewrite st_bind_lift, Hv, st_bind_run. unfold on_metadata, persist_metadata_node.
  rewrite st_bind_lift. unfold segment_descriptors. cbn [nw_node nw_segment_receipts]. rewrite Hv.
  rewrite st_bind_run. cbn [st_get co_metadata set_co_metadata mn_node_id].
  replace (metadata_nodes (set_next_metadata_node_id _ _) !! _) with (None : option MetadataNode)
    by (symmetry; by apply (fresh_node (co_metadata c))).
  reflexivity.
Qed.

Lemma added_cow_rel c r kind :
  ids_fresh (co_metadata c) -> cow_rel c (set_co_metadata (node_added (co_metadata c) r kind) c).
Proof. intros Hf. constructor; try done; [by apply node_added_grow|]. intros id v. naive_solver. Qed.

Section edits.
Context (config : LocalStoreConfig) (size : SegmentId -> option Z)
  (adds : list VerifiedSegmentReceipt).
Local Abbreviation bs := (cfg_block_size config).
Hypothesis Hbs : 0 < bs.

Lemma write_leaf_ok c r es xs :
  ids_fresh (co_metadata c) -> receipts_ready size c adds -> range_ok bs r -> leaf_ok bs size r es xs ->
  exists c', write_leaf_node r es xs adds c =
      (Ok (mkTreeEditResult (next_metadata_node_id (co_metadata c)) true), c') /\
    cow_rel c c' /\ co_metadata c' = node_added (co_metadata c) r (Leaf es xs).
Proof.
  intros Hf Hready Hr Hl. unfold write_leaf_node.
  destruct (verified_receipts_ok size c adds es Hready) as (vs & c1 & Hvs & R1 & M1 & Hd).
  { apply Forall_forall. intros e He. destruct (leaf_entry_bounds _ _ _ _ _ _ Hl He) as (_ & _ & n & Hn & _). eauto. }
  rewrite st_bind_run, Hvs, persist_new_node.
  - rewrite M1. eexists. split; [done|]. split; [|done]. etrans; [exact R1|].
    rewrite <-M1. apply added_cow_rel. by rewrite M1.
  - by rewrite M1.
  - destruct Hr as (Hwr & Hpos & _). unfold MetadataNode_validate, BlockRange_validate_non_empty, BlockRange_is_empty.
    cbn [mn_covered_range mn_kind]. range_wf. ztest.
    rewrite (validate_leaf_complete bs size r es xs) by done. cbn [mbind Result_bind].
    apply validate_extents_complete; apply Hl.
Qed.

Lemma write_internal_ok c r cs :
  ids_fresh (co_metadata c) -> range_ok bs r -> cs <> [] -> children_chain (bk_start r) cs (bk_end r) ->
  write_internal_node r cs c =
    (Ok (mkTreeEditResult (next_metadata_node_id (co_metadata c)) true),
     set_co_metadata (node_added (co_metadata c) r (Internal cs)) c).
Proof.
  intros Hf (Hwr & Hpos & _) Hne Hch. unfold write_internal_node.
  apply (persist_new_node c r (Internal cs) []); [done|].
  unfold MetadataNode_validate, BlockRange_validate_non_empty, BlockRange_is_empty.
  cbn [mn_covered_range mn_kind]. range_wf. ztest. by apply validate_internal_complete.
Qed.

(** ** The recursion *)

Definition hits (r : BlockRange) (e : TreeRangeEdit) : bool :=
  (bk_start r <? bk_end (te_range e)) && (bk_start (te_range e) <? bk_end r).

Lemma overlapping_edits_ok r edits :
  wf_block_range r -> 0 < bk_blocks r -> Forall (edit_ok size) edits ->
  overlapping_edits r edits = Ok (filter (fun e => hits r e = true) edits).
Proof.
  intros Hr Hpos Hes. unfold overlapping_edits.
  enough (Hgen : forall out, try_fold (fun out edit =>
      ov ← BlockRange_overlaps r (te_range edit);
      Ok (if (ov : bool) then out ++ [edit] else out)) out edits =
    Ok (out ++ filter (fun e => hits r e = true) edits)) by apply Hgen.
  induction Hes as [|e edits (He & Hepos & _) Hes IH]; intros out; cbn [try_fold].
  { by rewrite app_nil_r. }
  rewrite overlaps_eval by done. cbn [mbind Result_bind]. rewrite IH, filter_cons. fold (hits r e).
  destruct (hits r e); [rewrite decide_True by done; by rewrite <-app_assoc|by rewrite decide_False by done].
Qed.

Lemma misses r e b : hits r e = false -> 0 < bk_blocks r -> in_block_range r b ->
  in_range (bk_start (te_range e)) (bk_end (te_range e)) b = false.
Proof.
  unfold hits, in_block_range, bk_end. intros H Hpos Hb. apply in_range_false.
  apply andb_false_iff in H as [H|H]; bool_prop; lia.
Qed.

(** The edits that miss a range do not matter inside it. *)
Lemma leaf_edit_filter r edits b l l' :
  0 < bk_blocks r -> in_block_range r b ->
  leaf_edit bs (filter (fun e => hits r e = true) edits) b l l' -> leaf_edit bs edits b l l'.
Proof.
  intros Hpos Hb. unfold leaf_edit.
  assert (Ho : forall o, overlay (filter (fun e => hits r e = true) edits) b o = overlay edits b o).
  { induction edits as [|e edits IH]; intros o; [done|]. rewrite filter_cons. case_decide as Hh; cbn; [apply IH|].
    apply not_true_is_false in Hh. unfold overlay1. rewrite (misses r e b) by done. apply IH. }
  assert (Hc : covered (filter (fun e => hits r e = true) edits) b = covered edits b).
  { unfold covered. clear Ho. induction edits as [|e edits IH]; [done|]. rewrite filter_cons.
    case_decide as Hh; cbn; [by rewrite IH|]. apply not_true_is_false in Hh.
    by rewrite IH, (misses r e b) by done. }
  by rewrite Ho, Hc.
Qed.

(** What an edit of a tree does. *)
Definition tree_edited (h : nat) (edits : list TreeRangeEdit) (c c' : LocalCoordinator)
    (id id' : MetadataNodeId) (r : BlockRange) : Prop :=
  tree_ok bs size h (metadata_nodes (co_metadata c')) id' r /\
  forall b, in_block_range r b -> exists l l',
    leaf_at h (metadata_nodes (co_metadata c)) id b = Some l /\
    leaf_at h (metadata_nodes (co_metadata c')) id' b = Some l' /\ leaf_edit bs edits b l l'.

Lemma tree_edited_same h edits c c' id r :
  cow_rel c c' -> tree_ok bs size h (metadata_nodes (co_metadata c)) id r ->
  (forall b, in_block_range r b -> covered edits b = false) -> tree_edited h edits c c' id id r.
Proof.
  intros R Hok Hmiss. pose proof (ng_nodes _ _ (cr_nodes _ _ R)) as Hsub.
  split; [by eapply tree_ok_grow|]. intros b Hb.
  destruct (leaf_at_ok bs size h _ id r b Hok Hb) as (es & xs & r' & Hl & _).
  exists (es, xs), (es, xs). split_and!; [done| |by apply leaf_edit_miss, Hmiss].
  by rewrite (leaf_at_grow bs size h _ _ id r b Hsub Hok Hb).
Qed.

Lemma tree_edited_grow h edits c0 c c1 c2 id id' r :
  cow_rel c0 c -> tree_ok bs size h (metadata_nodes (co_metadata c0)) id r ->
  cow_rel c1 c2 -> tree_edited h edits c c1 id id' r -> tree_edited h edits c0 c2 id id' r.
Proof.
  intros R0 Hok0 R [Hok Hl]. pose proof (ng_nodes _ _ (cr_nodes _ _ R)) as Hsub.
  pose proof (ng_nodes _ _ (cr_nodes _ _ R0)) as Hsub0.
  split; [by eapply tree_ok_grow|]. intros b Hb. destruct (Hl b Hb) as (l & l' & H1 & H2 & H3).
  exists l, l'. split_and!; [|by erewrite leaf_at_grow|done].
  by rewrite <-(leaf_at_grow bs size h _ _ id r b Hsub0 Hok0 Hb).
Qed.

Definition edit_result (h : nat) (edits : list TreeRangeEdit) (c : LocalCoordinator)
    (id : MetadataNodeId) (r : BlockRange) (res : TreeEditResult) (c' : LocalCoordinator) : Prop :=
  cow_rel c c' /\ tree_edited h edits c c' id (tr_root res) r /\
  (tr_changed res = false -> tr_root res = id) /\
  (tr_changed res = true -> metadata_nodes (co_metadata c) !! tr_root res = None).

(** The routine succeeds on trees of height [h]. *)
Definition edits_ok (h : nat) : Prop :=
  forall node c edits r, ids_fresh (co_metadata c) -> receipts_ready size c adds ->
    tree_ok bs size h (metadata_nodes (co_metadata c)) (mn_node_id node) r ->
    metadata_nodes (co_metadata c) !! mn_node_id node = Some node -> Forall (edit_ok size) edits ->
    exists res c', replace_tree_ranges_at config h node edits adds c = (Ok res, c') /\
      edit_result h edits c (mn_node_id node) r res c'.

Definition child_edited (h : nat) (edits : list TreeRangeEdit) (c c' : LocalCoordinator)
    (old new : MetadataChild) : Prop :=
  mc_range new = mc_range old /\
  tree_edited h edits c c' (mc_node_id old) (mc_node_id new) (mc_range old).

Lemma edit_child_ok h edits c acc child :
  edits_ok h -> ids_fresh (co_metadata c) -> receipts_ready size c adds -> Forall (edit_ok size) edits ->
  tree_ok bs size h (metadata_nodes (co_metadata c)) (mc_node_id child) (mc_range child) ->
  exists c' chg new, edit_child_many edits
      (fun node edits => replace_tree_ranges_at config h node edits adds) acc child c =
      (Ok (acc.1 || chg, acc.2 ++ [new]), c') /\
    cow_rel c c' /\ child_edited h edits c c' child new /\ (chg = false -> new = child).
Proof.
  intros IH Hf Hready Hes Hok. pose proof (tree_ok_range _ _ _ _ _ _ Hok) as (Hwr & Hpos & _).
  unfold edit_child_many. rewrite st_bind_lift, overlapping_edits_ok by done.
  destruct (bool_decide _) eqn:Hnil.
  - apply bool_decide_eq_true in Hnil. exists c, false, child. rewrite orb_false_r.
    split_and!; [done|reflexivity| |done]. split; [done|]. apply tree_edited_same; [reflexivity|done|].
    intros b Hb. unfold covered. apply not_true_is_false. rewrite existsb_exists. intros (e & He & Hin).
    assert (Hh : e ∈ filter (fun e => hits (mc_range child) e = true) edits).
    { apply list_elem_of_filter. split; [|by apply list_elem_of_In]. apply not_false_is_true. intros Hm.
      by rewrite (misses _ _ _ Hm Hpos Hb) in Hin. }
    rewrite Hnil in Hh. by apply not_elem_of_nil in Hh.
  - clear Hnil. destruct h as [|h]; [done|]. pose proof Hok as (n & Hn & Hid & _).
    unfold edit_child. rewrite st_bind_run. unfold ask_metadata, st_ask, get_metadata_node. rewrite Hn. cbn [ok_or].
    destruct (IH n c (filter (fun e => hits (mc_range child) e = true) edits) (mc_range child))
      as (res & c' & Hrun & R & [Hok' Hl] & Hsame & _).
    + done.
    + done.
    + by rewrite Hid.
    + by rewrite Hid.
    + by apply Forall_filter.
    + rewrite st_bind_run, Hrun. exists c', (tr_changed res), (mkMetadataChild (mc_range child) (tr_root res)).
      split_and!; [done|done| |].
      * split; [done|]. split; [done|]. intros b Hb. destruct (Hl b Hb) as (l & l' & H1 & H2 & H3).
        rewrite Hid in H1. exists l, l'. split_and!; [done..|]. by eapply leaf_edit_filter.
      * intros Hc. rewrite (Hsame Hc), Hid. by destruct child.
Qed.

Lemma edit_children_ok h edits cs c acc :
  edits_ok h -> ids_fresh (co_metadata c) -> receipts_ready size c adds -> Forall (edit_ok size) edits ->
  Forall (fun child => tree_ok bs size h (metadata_nodes (co_metadata c)) (mc_node_id child) (mc_range child)) cs ->
  exists c' chg new, st_fold (edit_child_many edits
      (fun node edits => replace_tree_ranges_at config h node edits adds)) acc cs c =
      (Ok (acc.1 || chg, acc.2 ++ new), c') /\
    cow_rel c c' /\ Forall2 (child_edited h edits c c') cs new /\ (chg = false -> new = cs).
Proof.
  intros IH. revert c acc. induction cs as [|child cs IHcs]; intros c acc Hf Hready Hes Hcs; cbn [st_fold].
  { exists c, false, []. rewrite orb_false_r, app_nil_r. destruct acc.
    split_and!; [done|reflexivity|constructor|done]. }
  apply Forall_cons in Hcs as [Hc Hcs].
  destruct (edit_child_ok h edits c acc child IH Hf Hready Hes Hc) as (c1 & g1 & n1 & Hrun1 & R1 & E1 & S1).
  pose proof (ng_nodes _ _ (cr_nodes _ _ R1)) as Hsub.
  destruct (IHcs c1 (acc.1 || g1, acc.2 ++ [n1])) as (c2 & g2 & n2 & Hrun2 & R2 & E2 & S2).
  { eapply nodes_grow_fresh; [apply R1|done]. }
  { by eapply receipts_ready_grow. }
  { done. }
  { eapply Forall_impl; [exact Hcs|]. intros ch. by apply tree_ok_grow. }
  rewrite st_bind_run, Hrun1, Hrun2. exists c2, (g1 || g2), (n1 :: n2). cbn [fst snd].
  split_and!; [by rewrite <-app_assoc, orb_assoc|by etrans| |].
  - constructor.
    + destruct E1 as [? E1]. split; [done|]. eapply tree_edited_grow; [reflexivity|done|exact R2|done].
    + apply Forall2_same_length_lookup. split; [by eapply Forall2_length|]. intros i o n Ho Hn.
      destruct (Forall2_lookup_lr _ _ _ _ _ _ E2 Ho Hn) as [? E]. split; [done|].
      eapply tree_edited_grow; [exact R1| |reflexivity|exact E].
      rewrite Forall_forall in Hcs. apply Hcs. by eapply list_elem_of_lookup_2.
  - intros [-> ->]%orb_false_iff. by rewrite S1, S2.
Qed.

Lemma children_same_ranges cs new s e :
  Forall2 (fun o n : MetadataChild => mc_range n = mc_range o) cs new ->
  children_chain s cs e -> children_chain s new e.
Proof.
  intros H. revert s. induction H as [|o n cs new Hr _ IH]; intros s; cbn; [done|].
  rewrite Hr. intros (? & ? & ?). auto.
Qed.

Lemma child_at_same (P : MetadataChild -> MetadataChild -> Prop) cs new b c :
  Forall2 (fun o n => mc_range n = mc_range o /\ P o n) cs new -> child_at cs b = Some c ->
  exists c', child_at new b = Some c' /\ mc_range c' = mc_range c /\ P c c'.
Proof.
  induction 1 as [|o n cs new [Hr HP] _ IH]; [done|]. unfold child_at in *. cbn. rewrite Hr.
  destruct (in_range _ _ _); [|done]. intros [= <-]. eauto.
Qed.

(** The leaves below the old and the new children of a node. *)
Lemma children_leaves h edits c c' r cs new b :
  range_ok bs r -> children_chain (bk_start r) cs (bk_end r) ->
  Forall2 (child_edited h (filter (fun e => hits r e = true) edits) c c') cs new -> in_block_range r b ->
  exists o n l l', child_at cs b = Some o /\ child_at new b = Some n /\ in_block_range (mc_range o) b /\
    tree_ok bs size h (metadata_nodes (co_metadata c')) (mc_node_id n) (mc_range o) /\
    leaf_at h (metadata_nodes (co_metadata c)) (mc_node_id o) b = Some l /\
    leaf_at h (metadata_nodes (co_metadata c')) (mc_node_id n) b = Some l' /\ leaf_edit bs edits b l l'.
Proof.
  intros (_ & Hpos & _) Hch E Hb. destruct (child_at_Some _ _ _ b Hch) as (o & Ho & _ & Hin); [exact Hb|].
  destruct (child_at_same _ cs new b o E Ho) as (n & Hn & _ & [Hok Hl]).
  destruct (Hl b Hin) as (l & l' & H1 & H2 & H3). exists o, n, l, l'. split_and!; [done..|].
  by apply (leaf_edit_filter r).
Qed.

(** An internal node over edited children. *)
Lemma internal_edited h edits c c1 node r cs new :
  ids_fresh (co_metadata c1) -> range_ok bs r ->
  metadata_nodes (co_metadata c) !! mn_node_id node = Some node -> mn_kind node = Internal cs ->
  cs <> [] -> children_chain (bk_start r) cs (bk_end r) ->
  Forall2 (child_edited h (filter (fun e => hits r e = true) edits) c c1) cs new ->
  tree_edited (S h) edits c (set_co_metadata (node_added (co_metadata c1) r (Internal new)) c1)
    (mn_node_id node) (next_metadata_node_id (co_metadata c1)) r.
Proof.
  intros Hf Hr Hn Hkind Hne Hch E. pose proof (added_cow_rel c1 r (Internal new) Hf) as R.
  pose proof (ng_nodes _ _ (cr_nodes _ _ R)) as Hsub. split.
  - exists (mkMetadataNode (next_metadata_node_id (co_metadata c1)) r (Internal new)).
    split_and!; [apply lookup_insert_eq|done..|]. cbn [mn_kind]. split_and!; [by destruct E| |].
    + eapply children_same_ranges; [|exact Hch]. eapply Forall2_impl; [exact E|]. by intros o n [].
    + apply Forall_forall. intros n [i Hi]%list_elem_of_lookup_1.
      destruct (Forall2_lookup_r _ _ _ _ _ E Hi) as (o & _ & Hro & [Ho _]). rewrite Hro.
      by eapply tree_ok_grow.
  - intros b Hb. destruct (children_leaves h edits c c1 r cs new b Hr Hch E Hb)
      as (o & n & l & l' & Ho & Hn1 & Hin & Hok & H1 & H2 & H3).
    exists l, l'. cbn [leaf_at tr_root]. rewrite Hn, Hkind, Ho. split_and!; [done| |done].
    cbn. rewrite lookup_insert_eq. cbn. rewrite Hn1, <-H2.
    by apply (leaf_at_grow bs size h _ _ (mc_node_id n) (mc_range o) b Hsub).
Qed.

Lemma edit_internal_ok h edits c node r cs :
  edits_ok h -> ids_fresh (co_metadata c) -> receipts_ready size c adds -> Forall (edit_ok size) edits ->
  tree_ok bs size (S h) (metadata_nodes (co_metadata c)) (mn_node_id node) r ->
  metadata_nodes (co_metadata c) !! mn_node_id node = Some node -> mn_kind node = Internal cs ->
  exists res c', (acc ← st_fold (edit_child_many (filter (fun e => hits r e = true) edits)
        (fun node edits => replace_tree_ranges_at config h node edits adds)) (false, []) cs;
      if negb acc.1 then mret (mkTreeEditResult (mn_node_id node) false)
      else write_internal_node r acc.2) c = (Ok res, c') /\
    edit_result (S h) edits c (mn_node_id node) r res c'.
Proof.
  intros IH Hf Hready Hes Hok Hn Hkind.
  pose proof Hok as (n & Hn' & _ & Hr & Hrok & Hk). assert (n = node) as -> by congruence.
  rewrite Hkind in Hk. destruct Hk as (Hne & Hch & Hcs).
  destruct (edit_children_ok h (filter (fun e => hits r e = true) edits) cs c (false, []) IH Hf Hready)
    as (c1 & chg & new & Hrun & R & E & Hsame); [by apply Forall_filter|done|].
  rewrite st_bind_run, Hrun. cbn [fst snd orb app]. destruct chg; cbn [negb].
  - assert (Hf1 : ids_fresh (co_metadata c1)) by (eapply nodes_grow_fresh; [apply R|done]).
    rewrite (write_internal_ok c1 r new Hf1 Hrok).
    2:{ destruct E; done. }
    2:{ eapply children_same_ranges; [|exact Hch]. eapply Forall2_impl; [exact E|]. by intros o n []. }
    eexists _, _. split; [done|]. split_and!; [etrans; [exact R|by apply added_cow_rel]| |done|].
    + by eapply internal_edited.
    + intros _. cbn. apply eq_None_not_Some. intros Hs. destruct Hf as [Hf _]. specialize (Hf _ Hs).
      pose proof (ng_next _ _ (cr_nodes _ _ R)). lia.
  - eexists _, c1. split; [done|]. specialize (Hsame eq_refl) as ->. split_and!; [done| |done|done].
    split; [eapply tree_ok_grow; [apply R|exact Hok]|]. intros b Hb.
    destruct (children_leaves h edits c c1 r cs cs b Hrok Hch E Hb)
      as (o & n' & l & l' & Ho & Hn1 & _ & _ & H1 & H2 & H3). exists l, l'. cbn [leaf_at tr_root].
    rewrite (lookup_weaken _ _ _ _ Hn (ng_nodes _ _ (cr_nodes _ _ R))), Hn, Hkind, Ho.
    assert (n' = o) as -> by congruence. done.
Qed.

(** A node that an edit leaves as it is. *)
Lemma edit_result_self h edits c id r :
  tree_ok bs size h (metadata_nodes (co_metadata c)) id r ->
  (forall b, in_block_range r b -> exists l, leaf_at h (metadata_nodes (co_metadata c)) id b = Some l /\
    leaf_edit bs edits b l l) ->
  edit_result h edits c id r (mkTreeEditResult id false) c.
Proof.
  intros Hok Hl. split_and!; [reflexivity| |done|done]. split; [done|]. intros b Hb.
  destruct (Hl b Hb) as (l & ? & ?). by exists l, l.
Qed.

Lemma edit_leaf_node_ok h edits c node r es xs :
  ids_fresh (co_metadata c) -> receipts_ready size c adds -> Forall (edit_ok size) edits ->
  tree_ok bs size (S h) (metadata_nodes (co_metadata c)) (mn_node_id node) r ->
  metadata_nodes (co_metadata c) !! mn_node_id node = Some node -> mn_kind node = Leaf es xs ->
  exists res c', (acc ← st_lift (try_fold (edit_leaf config r) (es, xs)
          (filter (fun e => hits r e = true) edits));
      if bool_decide (acc.1 = es) && bool_decide (acc.2 = xs)
      then mret (mkTreeEditResult (mn_node_id node) false)
      else write_leaf_node r acc.1 acc.2 adds) c = (Ok res, c') /\
    edit_result (S h) edits c (mn_node_id node) r res c'.
Proof using Hbs.
  intros Hf Hready Hes Hok Hn Hkind.
  pose proof Hok as (n & Hn' & _ & Hr & Hrok & Hk). assert (n = node) as -> by congruence.
  rewrite Hkind in Hk. pose proof Hrok as (_ & Hpos & _).
  destruct (edit_leaf_fold_ok config size Hbs r (es, xs) (filter (fun e => hits r e = true) edits) Hrok Hk)
    as (out & Hout & Hl' & Hed); [by apply Forall_filter|].
  rewrite st_bind_lift, Hout. destruct (bool_decide (out.1 = es) && bool_decide (out.2 = xs)) eqn:Hsame.
  - apply andb_prop in Hsame as [H1%bool_decide_eq_true H2%bool_decide_eq_true].
    eexists _, c. split; [done|]. apply edit_result_self; [done|]. intros b Hb. exists (es, xs).
    cbn [leaf_at]. rewrite Hn, Hkind. split; [done|]. apply (leaf_edit_filter r); [done..|].
    replace (es, xs) with out at 2 by (destruct out; cbn in *; congruence). by apply Hed.
  - destruct (write_leaf_ok c r out.1 out.2 Hf Hready Hrok Hl') as (c' & Hrun & R & HM).
    exists (mkTreeEditResult (next_metadata_node_id (co_metadata c)) true), c'. split; [exact Hrun|].
    split_and!; [done| |done|by intros _; apply fresh_node]. split.
    + exists (mkMetadataNode (next_metadata_node_id (co_metadata c)) r (Leaf out.1 out.2)).
      split_and!; [rewrite HM; apply lookup_insert_eq|done..].
    + intros b Hb. exists (es, xs), out. cbn [leaf_at tr_root]. rewrite Hn, Hkind, HM. cbn. rewrite lookup_insert_eq.
      split_and!; [done|by destruct out|]. apply (leaf_edit_filter r); [done..|]. by apply Hed.
Qed.

Lemma replace_tree_ranges_at_ok h : edits_ok h.
Proof using Hbs.
  induction h as [|h IH]; intros node c edits r Hf Hready Hok Hn Hes; [done|].
  pose proof Hok as (n & Hn' & _ & Hr & Hrok & Hk). assert (n = node) as -> by congruence.
  pose proof Hrok as (Hwr & Hpos & _). cbn [replace_tree_ranges_at]. rewrite st_bind_lift, Hr.
  rewrite overlapping_edits_ok by done. cbv zeta. destruct (bool_decide _) eqn:Hnil.
  { apply bool_decide_eq_true in Hnil. eexists _, c. split; [done|]. apply edit_result_self; [done|].
    intros b Hb. destruct (leaf_at_ok bs size (S h) _ _ r b Hok Hb) as (es & xs & r' & Hl & _). exists (es, xs).
    split; [done|]. apply (leaf_edit_filter r); [done..|]. rewrite Hnil. apply leaf_edit_nil. }
  destruct (mn_kind node) as [cs|es xs] eqn:Hkind.
  - by apply edit_internal_ok.
  - by apply edit_leaf_node_ok.
Qed.
End edits.

(** ** The single-path shortcut *)

Lemma receipts_by_segment_key adds id v :
  receipts_by_segment adds !! id = Some v -> sd_segment_id (vr_descriptor v) = id.
Proof.
  unfold receipts_by_segment.
  enough (Hgen : forall m : gmap SegmentId VerifiedSegmentReceipt, (forall id v, m !! id = Some v -> sd_segment_id (vr_descriptor v) = id) ->
    fold_left (fun m v => <[sd_segment_id (vr_descriptor v) := v]> m) adds m !! id = Some v ->
    sd_segment_id (vr_descriptor v) = id).
  { apply Hgen. intros ? ?. by rewrite lookup_empty. }
  induction adds as [|w adds IH]; intros m Hm; cbn [fold_left]; [apply Hm|]. apply IH.
  intros id' v'. rewrite lookup_insert_Some. intros [[<- <-]|[_ ?]]; [done|by apply Hm].
Qed.

Lemma receipt_step_local c adds M newly e v :
  receipts_by_segment adds !! le_segment_id e = Some v ->
  receipt_step c (receipts_by_segment adds) (M, newly) e =
  match M !! le_segment_id e with
  | Some _ => Ok (M, newly)
  | None => Ok (<[le_segment_id e := v]> M, newly)
  end.
Proof. intros Hv. unfold receipt_step. by rewrite Hv. Qed.

(** Receipts that all come from the caller. *)
Lemma verified_receipts_local es adds c :
  (forall e, e ∈ es -> is_Some (receipts_by_segment adds !! le_segment_id e)) ->
  exists M, verified_receipts_for_entries_with_cache es adds c = (Ok (bt_values M), c) /\
    M ⊆ receipts_by_segment adds /\ forall e, e ∈ es -> is_Some (M !! le_segment_id e).
Proof.
  intros Hes. unfold verified_receipts_for_entries_with_cache.
  enough (Hgen : forall M, M ⊆ receipts_by_segment adds -> exists M',
    try_fold (receipt_step c (receipts_by_segment adds)) (M, []) es = Ok (M', []) /\
    M ⊆ M' /\ M' ⊆ receipts_by_segment adds /\ forall e, e ∈ es -> is_Some (M' !! le_segment_id e)).
  { destruct (Hgen ∅) as (M & HM & _ & Hsub & Hin); [apply map_empty_subseteq|]. exists M.
    rewrite st_bind_run. cbn [st_get]. rewrite st_bind_lift, HM. by split_and!. }
  induction es as [|e es IH]; intros M HM; cbn [try_fold].
  { exists M. split_and!; [done..|]. by intros e ?%not_elem_of_nil. }
  destruct (Hes e ltac:(by left)) as [v Hv]. rewrite (receipt_step_local c adds M [] e v Hv).
  assert (Hstep : exists M1, match M !! le_segment_id e with
      | Some _ => Ok (M, [])
      | None => Ok (<[le_segment_id e := v]> M, []) end = Ok (M1, [] : list VerifiedSegmentReceipt) /\ M ⊆ M1 /\
      M1 ⊆ receipts_by_segment adds /\ is_Some (M1 !! le_segment_id e)).
  { destruct (M !! le_segment_id e) as [w|] eqn:Hw; [by exists M; eauto|].
    exists (<[le_segment_id e := v]> M). split_and!; [done|by apply insert_subseteq| |].
    - apply insert_subseteq_l; done.
    - rewrite lookup_insert_eq. eauto. }
  destruct Hstep as (M1 & -> & HM1 & Hsub1 & Hin1). cbn [mbind Result_bind].
  destruct (IH ltac:(intros; apply Hes; by right) M1 Hsub1) as (M' & -> & Hsub & Hsub' & Hin).
  exists M'. split_and!; [done|by etrans|done|]. intros e' [->|He']%elem_of_cons; [|by apply Hin].
  destruct Hin1 as [w Hw]. exists w. by eapply lookup_weaken.
Qed.

(** Validation of a leaf looks descriptors up by their id only. *)
Lemma validate_leaf_find r es ds ds' :
  (forall e, e ∈ es -> List.find (fun d => sd_segment_id d =? le_segment_id e) ds =
    List.find (fun d => sd_segment_id d =? le_segment_id e) ds') ->
  validate_leaf_entries r es ds = validate_leaf_entries r es ds'.
Proof.
  intros Hds. unfold validate_leaf_entries.
  enough (Hgen : forall prev, try_fold (leaf_entry_step r ds) prev es = try_fold (leaf_entry_step r ds') prev es)
    by (by rewrite Hgen).
  induction es as [|e es IH]; intros prev; cbn [try_fold]; [done|].
  assert (leaf_entry_step r ds prev e = leaf_entry_step r ds' prev e) as ->.
  { unfold leaf_entry_step. by rewrite (Hds e) by (by left). }
  destruct (leaf_entry_step r ds' prev e); cbn [mbind Result_bind]; [|done]. apply IH. intros. apply Hds. by right.
Qed.

Lemma find_keyed (ds : list SegmentDescriptor) d :
  d ∈ ds -> (forall d', d' ∈ ds -> sd_segment_id d' = sd_segment_id d -> d' = d) ->
  List.find (fun d' => sd_segment_id d' =? sd_segment_id d) ds = Some d.
Proof.
  intros Hd Huniq. destruct (List.find _ _) as [d'|] eqn:Hf.
  - apply find_some in Hf as [Hin Heq]. bool_prop. f_equal. apply Huniq; [by apply list_elem_of_In|done].
  - eapply find_none in Hf; [|by apply list_elem_of_In]. bool_prop. lia.
Qed.

Lemma leaf_descriptors_Some (m : gmap SegmentId SegmentDescriptor) es out ds :
  leaf_descriptors m es out = Some ds ->
  (forall e, e ∈ es -> is_Some (m !! le_segment_id e)) /\
  (forall d, d ∈ ds -> d ∈ out \/ exists e, e ∈ es /\ m !! le_segment_id e = Some d) /\
  ((forall d, d ∈ out -> m !! sd_segment_id d = Some d) -> (forall id d, m !! id = Some d -> sd_segment_id d = id) ->
   forall e d, e ∈ es -> m !! le_segment_id e = Some d -> d ∈ ds) /\ (forall d, d ∈ out -> d ∈ ds).
Proof.
  revert out. induction es as [|e es IH]; intros out; cbn [leaf_descriptors].
  { intros [= <-]. split_and!; [by intros e ?%not_elem_of_nil|by left|by intros _ _ e d ?%not_elem_of_nil|done]. }
  destruct (m !! le_segment_id e) as [d|] eqn:Hd; [|done]. intros H. apply IH in H as (H1 & H2 & H3 & H4).
  set (out' := if existsb _ out then out else out ++ [d]) in *.
  assert (Hout : forall d', d' ∈ out' -> d' ∈ out \/ d' = d).
  { intros d'. unfold out'. destruct (existsb _ _); [by left|]. rewrite elem_of_app, list_elem_of_singleton. tauto. }
  assert (Hout' : forall d', d' ∈ out -> d' ∈ out').
  { intros d'. unfold out'. destruct (existsb _ _); [done|]. rewrite elem_of_app. by left. }
  split_and!.
  - intros e' [->|He']%elem_of_cons; [by eauto|by apply H1].
  - intros d' [Hd'|(e' & He' & Hm)]%H2.
    + apply Hout in Hd' as [?| ->]; [by left|]. right. exists e. split; [by left|done].
    + right. exists e'. split; [by right|done].
  - intros Ho Hkey e' d' [->|He']%elem_of_cons Hm.
    + apply H4. assert (d' = d) as -> by congruence. unfold out'. destruct (existsb _ _) eqn:Hex.
      * apply existsb_exists in Hex as (d' & Hin & Heq). bool_prop. rewrite <-list_elem_of_In in Hin.
        specialize (Ho d' Hin). rewrite Heq in Ho. congruence.
      * apply elem_of_app. right. by left.
    + eapply H3; [|done|exact He'|done]. intros d'' [Hin| ->]%Hout; [by apply Ho|]. by rewrite (Hkey _ _ Hd).
  - intros d' Hd'. by apply H4, Hout'.
Qed.

(** The descriptors of the shortcut and those of the general routine agree. *)
Lemma shortcut_descriptors adds es ds (M : gmap SegmentId VerifiedSegmentReceipt) e :
  leaf_descriptors (vr_descriptor <$> receipts_by_segment adds) es [] = Some ds ->
  M ⊆ receipts_by_segment adds -> (forall e, e ∈ es -> is_Some (M !! le_segment_id e)) -> e ∈ es ->
  exists v, receipts_by_segment adds !! le_segment_id e = Some v /\
    List.find (fun d => sd_segment_id d =? le_segment_id e) ds = Some (vr_descriptor v) /\
    List.find (fun d => sd_segment_id d =? le_segment_id e) (vr_descriptor <$> bt_values M) = Some (vr_descriptor v).
Proof.
  intros Hds Hsub HM He. destruct (HM e He) as [v Hv]. pose proof (lookup_weaken _ _ _ _ Hv Hsub) as Hv'.
  pose proof (receipts_by_segment_key _ _ _ Hv') as Hid. exists v. split; [done|].
  set (m := vr_descriptor <$> receipts_by_segment adds) in *.
  assert (Hkey : forall id d, m !! id = Some d -> sd_segment_id d = id).
  { intros id d. unfold m. rewrite lookup_fmap_Some. intros (w & <- & Hw). by eapply receipts_by_segment_key. }
  apply leaf_descriptors_Some in Hds as (_ & H2 & H3 & _).
  assert (Hd : m !! le_segment_id e = Some (vr_descriptor v)) by (unfold m; rewrite lookup_fmap, Hv'; done).
  rewrite <-Hid in Hd |- *. split.
  - apply find_keyed; [eapply H3; [by intros ? ?%not_elem_of_nil|done|exact He|by rewrite <-Hid]|].
    intros d' [?%not_elem_of_nil|(e' & _ & Hm)]%H2 Heq; [done|].
    pose proof (Hkey _ _ Hm) as Hk. rewrite <-Hk, Heq, Hd in Hm. congruence.
  - apply find_keyed.
    + apply list_elem_of_fmap. exists v. split; [done|]. apply elem_of_bt_values. eauto.
    + intros d' Hd' Heq. apply list_elem_of_fmap in Hd' as (w & -> & [k Hk]%elem_of_bt_values).
      pose proof (receipts_by_segment_key adds k w (lookup_weaken _ _ _ _ Hk Hsub)) as Hwk.
      assert (k = le_segment_id e) as -> by congruence. congruence.
Qed.

(** The children that overlap an edit. *)
Lemma overlapping_children_one r cs i ch :
  overlapping_children r cs = Ok [(i, ch)] ->
  exists pre post, cs = pre ++ ch :: post /\ i = length pre /\
    BlockRange_overlaps (mc_range ch) r = Ok true /\
    Forall (fun c => BlockRange_overlaps (mc_range c) r = Ok false) (pre ++ post).
Proof.
  unfold overlapping_children.
  enough (Hgen : forall k out l, try_fold (fun out p =>
      ov ← BlockRange_overlaps (mc_range p.2) r;
      Ok (if (ov : bool) then out ++ [p] else out)) out (imap (fun j c => (k + j, c)%nat) cs) = Ok l ->
    exists hit, l = out ++ hit /\ match hit with
      | [] => Forall (fun c => BlockRange_overlaps (mc_range c) r = Ok false) cs
      | [(i, ch)] => exists pre post, cs = pre ++ ch :: post /\ i = (k + length pre)%nat /\
          BlockRange_overlaps (mc_range ch) r = Ok true /\
          Forall (fun c => BlockRange_overlaps (mc_range c) r = Ok false) (pre ++ post)
      | _ => True
      end).
  { intros H. destruct (Hgen 0%nat [] [(i, ch)]) as (hit & Hh & Hm); [exact H|]. cbn in Hh. subst hit. exact Hm. }
  induction cs as [|c cs IH]; intros k out l; cbn [imap try_fold].
  { intros [= <-]. exists []. split; [by rewrite app_nil_r|constructor]. }
  intros (out1 & Hov & H)%bind_Ok. apply bind_Ok in Hov as (ov & Hov & [= <-]). cbn [snd] in Hov.
  rewrite (imap_ext _ (fun j c => (S k + j, c)%nat)) in H by (intros; cbn; f_equal; lia).
  apply IH in H as (hit & -> & Hm). destruct ov.
  - exists ((k + 0, c)%nat :: hit). split; [by rewrite <-app_assoc|]. destruct hit; [|done].
    exists [], cs. split_and!; [done|cbn; lia|done|done].
  - exists hit. split; [done|]. destruct hit as [|[i' ch'] [|]]; [by constructor| |done].
    destruct Hm as (pre & post & -> & -> & Ht & Hf). exists (c :: pre), post.
    split_and!; [done|cbn; lia|done|by constructor].
Qed.

Lemma insert_new_node m r kind ds :
  (node_id ← alloc_metadata_node_id;
   let new_node := mkMetadataNode node_id r kind in
   st_lift (MetadataNode_validate new_node ds);;
   insert_metadata_node new_node;;
   mret (Some (mkTreeEditResult node_id true))) m =
  match MetadataNode_validate (mkMetadataNode (next_metadata_node_id m) r kind) ds with
  | Ok _ => (Ok (Some (mkTreeEditResult (next_metadata_node_id m) true)), node_added m r kind)
  | Err e => (Err e, set_next_metadata_node_id (next_metadata_node_id m + 1) m)
  end.
Proof.
  rewrite st_bind_run. change (alloc_metadata_node_id m) with
    (Ok (next_metadata_node_id m), set_next_metadata_node_id (next_metadata_node_id m + 1) m).
  cbv beta iota zeta. rewrite st_bind_lift. by destruct (MetadataNode_validate _ _).
Qed.

Section shortcut.
Context (config : LocalStoreConfig) (edit : TreeRangeEdit)
  (adds : list VerifiedSegmentReceipt).

Lemma edit_child_skip rec acc ch c :
  BlockRange_overlaps (mc_range ch) (te_range edit) = Ok false ->
  edit_child_one edit rec acc ch c = (Ok (acc.1, acc.2 ++ [ch]), c).
Proof. intros Hch. unfold edit_child_one. by rewrite st_bind_lift, Hch. Qed.

Lemma edit_child_hit rec acc ch n res c c' :
  BlockRange_overlaps (mc_range ch) (te_range edit) = Ok true ->
  metadata_nodes (co_metadata c) !! mc_node_id ch = Some n -> rec n c = (Ok res, c') ->
  edit_child_one edit rec acc ch c =
  (Ok (acc.1 || tr_changed res, acc.2 ++ [mkMetadataChild (mc_range ch) (tr_root res)]), c').
Proof.
  intros Hch Hn Hrec. unfold edit_child_one. rewrite st_bind_lift, Hch. cbn [negb]. unfold edit_child.
  rewrite st_bind_run. unfold ask_metadata, st_ask, get_metadata_node. rewrite Hn. cbn [ok_or].
  by rewrite st_bind_run, Hrec.
Qed.

Lemma skip_children rec cs acc c :
  Forall (fun ch => BlockRange_overlaps (mc_range ch) (te_range edit) = Ok false) cs ->
  st_fold (edit_child_one edit rec) acc cs c = (Ok (acc.1, acc.2 ++ cs), c).
Proof.
  intros H. revert acc. induction H as [|ch cs Hch Hcs IH]; intros acc; cbn [st_fold].
  { rewrite app_nil_r. by destruct acc. }
  rewrite st_bind_run, edit_child_skip, IH by done. cbn [fst snd]. by rewrite <-app_assoc.
Qed.

Lemma edit_one_child rec pre ch post n res c c' :
  Forall (fun ch => BlockRange_overlaps (mc_range ch) (te_range edit) = Ok false) (pre ++ post) ->
  BlockRange_overlaps (mc_range ch) (te_range edit) = Ok true ->
  metadata_nodes (co_metadata c) !! mc_node_id ch = Some n -> rec n c = (Ok res, c') ->
  st_fold (edit_child_one edit rec) (false, []) (pre ++ ch :: post) c =
  (Ok (tr_changed res, pre ++ mkMetadataChild (mc_range ch) (tr_root res) :: post), c').
Proof.
  intros [Hpre Hpost]%Forall_app Hch Hn Hrec.
  assert (Hsplit : forall l1 l2 acc s, st_fold (edit_child_one edit rec) acc (l1 ++ l2) s =
    (acc' ← st_fold (edit_child_one edit rec) acc l1; st_fold (edit_child_one edit rec) acc' l2) s).
  { induction l1 as [|x l1 IH]; intros l2 acc s; cbn [app st_fold]; [done|].
    rewrite !st_bind_run. destruct (edit_child_one edit rec acc x s) as [[a|e] s1]; [|done]. apply IH. }
  rewrite Hsplit, st_bind_run, skip_children by done. cbn [st_fold fst snd app].
  rewrite st_bind_run, (edit_child_hit rec _ ch n res c c' Hch Hn Hrec), skip_children by done.
  cbn [fst snd orb]. by rewrite <-app_assoc.
Qed.

(** A new leaf of the shortcut is the one the general routine writes. *)
Lemma shortcut_leaf c r es xs ds :
  ids_fresh (co_metadata c) ->
  leaf_descriptors (vr_descriptor <$> receipts_by_segment adds) es [] = Some ds ->
  MetadataNode_validate (mkMetadataNode (next_metadata_node_id (co_metadata c)) r (Leaf es xs)) ds = Ok tt ->
  write_leaf_node r es xs adds c =
  (Ok (mkTreeEditResult (next_metadata_node_id (co_metadata c)) true),
   set_co_metadata (node_added (co_metadata c) r (Leaf es xs)) c).
Proof.
  intros Hf Hds Hv. unfold write_leaf_node.
  destruct (verified_receipts_local es adds c) as (M & HM & Hsub & Hin).
  { intros e He. apply leaf_descriptors_Some in Hds as (H1 & _). specialize (H1 e He).
    rewrite lookup_fmap, fmap_is_Some in H1. done. }
  rewrite st_bind_run, HM. apply persist_new_node; [done|].
  revert Hv. unfold MetadataNode_validate. cbn [mn_covered_range mn_kind].
  destruct (BlockRange_validate_non_empty r); cbn [mbind Result_bind]; [|done].
  rewrite (validate_leaf_find r es ds (vr_descriptor <$> bt_values M)); [done|].
  intros e He. destruct (shortcut_descriptors adds es ds M e Hds Hsub Hin He) as (v & _ & -> & ->). done.
Qed.

Lemma single_path_agrees_at fuel node c res m' :
  ids_fresh (co_metadata c) ->
  try_replace_tree_range_single_path_at config fuel node edit
    (vr_descriptor <$> receipts_by_segment adds) (co_metadata c) = (Ok (Some res), m') ->
  replace_tree_range_at config fuel node edit adds c = (Ok res, set_co_metadata m' c) /\
  nodes_grow (co_metadata c) m'.
Proof.
  revert node c res m'. induction fuel as [|fuel IH]; intros node c res m' Hf;
    cbn [try_replace_tree_range_single_path_at replace_tree_range_at]; [done|].
  rewrite !st_bind_lift. destruct (BlockRange_overlaps _ _) as [ov|]; [|done]. cbv zeta.
  destruct ov; cbn [negb]; [|intros [= <- <-]; split; [by destruct c|reflexivity]].
  destruct (mn_kind node) as [cs|es xs].
  - rewrite st_bind_lift. destruct (overlapping_children _ _) as [[|[i ch] [|]]|] eqn:Hov; try done.
    apply overlapping_children_one in Hov as (pre & post & -> & -> & Hch & Hrest).
    rewrite st_bind_run. unfold st_ask, get_metadata_node.
    destruct (metadata_nodes (co_metadata c) !! mc_node_id ch) as [n|] eqn:Hn; cbn [ok_or]; [|done].
    rewrite st_bind_run. destruct (try_replace_tree_range_single_path_at _ _ n _ _ _) as [[[r1|]|] m1] eqn:Hrec; try done.
    destruct (IH n c r1 m1 Hf Hrec) as [Hgen HG].
    rewrite st_bind_run, (edit_one_child _ pre ch post n r1 c _ Hrest Hch Hn Hgen). cbn [fst snd].
    destruct (tr_changed r1); cbn [negb]; [|intros [= <- <-]; by split].
    rewrite insert_app_r_alt, Nat.sub_diag by lia. cbn [insert list_insert].
    set (new := pre ++ _). assert (Hf1 : ids_fresh m1) by (by eapply nodes_grow_fresh).
    rewrite insert_new_node. destruct (MetadataNode_validate _ []) as [[]|] eqn:Hv; [|done].
    intros [= <- <-]. split.
    + exact (persist_new_node (set_co_metadata m1 c) _ (Internal new) [] Hf1 Hv).
    + etrans; [exact HG|]. by apply (node_added_grow m1 (mn_covered_range node) (Internal new)).
  - rewrite !st_bind_lift. destruct (edit_leaf _ _ _ _) as [acc|]; [|done].
    destruct (_ && _); [intros [= <- <-]; split; [by destruct c|reflexivity]|].
    destruct (bool_decide (acc.2 = [])); cbn [negb]; [|done].
    destruct (leaf_descriptors _ acc.1 []) as [ds|] eqn:Hds; [|done].
    rewrite insert_new_node. destruct (MetadataNode_validate _ ds) as [[]|] eqn:Hv; [|done].
    intros [= <- <-]. split.
    + by rewrite (shortcut_leaf c _ _ _ ds Hf Hds Hv).
    + by apply node_added_grow.
Qed.
End shortcut.

Lemma Forall2_refl {A} (R : relation A) l : (forall x, R x x) -> Forall2 R l l.
Proof. intros HR. induction l; by constructor. Qed.

Section total.
Context (config : LocalStoreConfig) (size : SegmentId -> option Z)
  (adds : list VerifiedSegmentReceipt).
Local Abbreviation bs := (cfg_block_size config).
Local Abbreviation descriptors := (vr_descriptor <$> receipts_by_segment adds).
Hypothesis Hbs : 0 < bs.

Lemma overlapping_children_total r cs :
  wf_block_range r -> 0 < bk_blocks r ->
  Forall (fun ch => wf_block_range (mc_range ch) /\ 0 < bk_blocks (mc_range ch)) cs ->
  exists l, overlapping_children r cs = Ok l.
Proof.
  intros Hr Hpos Hcs. unfold overlapping_children.
  enough (Hgen : forall ps out, Forall (fun p : nat * MetadataChild => wf_block_range (mc_range p.2) /\ 0 < bk_blocks (mc_range p.2)) ps ->
    exists l, try_fold (fun out p => ov ← BlockRange_overlaps (mc_range p.2) r;
      Ok (if (ov : bool) then out ++ [p] else out)) out ps = Ok l).
  { apply Hgen. apply Forall_forall. intros [i ch] Hin. apply elem_of_lookup_imap in Hin as (j & c & [= -> ->] & Hc).
    rewrite Forall_forall in Hcs. apply Hcs. by eapply list_elem_of_lookup_2. }
  induction ps as [|p ps IH]; intros out Hps; cbn [try_fold]; [eauto|].
  apply Forall_cons in Hps as [[? ?] Hps]. rewrite overlaps_eval by done. cbn [mbind Result_bind]. by apply IH.
Qed.

Lemma shortcut_leaf_valid c r es xs ds :
  receipts_ready size c adds -> range_ok bs r -> leaf_ok bs size r es xs ->
  leaf_descriptors descriptors es [] = Some ds ->
  forall id, MetadataNode_validate (mkMetadataNode id r (Leaf es xs)) ds = Ok tt.
Proof.
  intros Hready (Hwr & Hpos & _) Hl Hds id. unfold MetadataNode_validate, BlockRange_validate_non_empty, BlockRange_is_empty.
  cbn [mn_covered_range mn_kind]. range_wf. ztest.
  rewrite (validate_leaf_complete bs size r es xs ds); [|done..|].
  - cbn [mbind Result_bind]. apply validate_extents_complete; apply Hl.
  - intros e n He Hn.
    destruct (shortcut_descriptors adds es ds (receipts_by_segment adds) e Hds) as (v & Hv & Hfind & _); [done| |done|].
    { intros e' He'. apply leaf_descriptors_Some in Hds as (H1 & _). specialize (H1 e' He').
      by rewrite lookup_fmap, fmap_is_Some in H1. }
    destruct (Hready _ _ Hn) as (v' & Hsrc & Hid & Hle). unfold receipt_source in Hsrc. rewrite Hv in Hsrc.
    injection Hsrc as ->. eauto.
Qed.

(** The shortcut returns on every well-formed tree, and changes nothing when it
    gives up. *)
Lemma single_path_total edit h node c r :
  edit_ok size edit -> receipts_ready size c adds ->
  tree_ok bs size h (metadata_nodes (co_metadata c)) (mn_node_id node) r ->
  metadata_nodes (co_metadata c) !! mn_node_id node = Some node ->
  exists o m', try_replace_tree_range_single_path_at config h node edit descriptors (co_metadata c) = (Ok o, m') /\
    (o = None -> m' = co_metadata c).
Proof.
  intros He Hready. pose proof He as (Hwe & Hepos & _). revert node r.
  induction h as [|h IH]; intros node r Hok Hn; [done|].
  pose proof Hok as (n & Hn' & _ & Hr & Hrok & Hk). assert (n = node) as -> by congruence.
  pose proof Hrok as (Hwr & Hpos & _). cbn [try_replace_tree_range_single_path_at].
  rewrite st_bind_lift, Hr, overlaps_eval by done. cbv zeta. destruct (_ && _); cbn [negb]; [|by eauto].
  destruct (mn_kind node) as [cs|es xs] eqn:Hkind.
  - destruct Hk as (Hne & Hch & Hcs). rewrite st_bind_lift.
    destruct (overlapping_children_total (te_range edit) cs Hwe Hepos) as [l Hl].
    { eapply Forall_impl; [exact Hcs|]. intros ch (? & ? & _)%tree_ok_range. done. }
    rewrite Hl. destruct l as [|[i ch] [|]]; [by eauto| |by eauto].
    apply overlapping_children_one in Hl as (pre & post & -> & -> & _).
    apply Forall_app in Hcs as [_ [Hch' _]%Forall_cons].
    destruct h as [|h]; [done|]. pose proof Hch' as (n & Hn1 & Hid & _).
    rewrite st_bind_run. unfold st_ask, get_metadata_node. rewrite Hn1. cbn [ok_or].
    destruct (IH n (mc_range ch)) as (o & m1 & Hrec & Hsame); [by rewrite Hid|by rewrite Hid|].
    rewrite st_bind_run, Hrec. destruct o as [res|]; [|eexists _, _; split; [done|by auto]].
    destruct (tr_changed res); cbn [negb]; [|eexists _, _; by split].
    rewrite insert_app_r_alt, Nat.sub_diag by lia. cbn [insert list_insert]. rewrite insert_new_node.
    assert (Hv : forall id, MetadataNode_validate (mkMetadataNode id r
      (Internal (pre ++ mkMetadataChild (mc_range ch) (tr_root res) :: post))) [] = Ok tt).
    { intros id. unfold MetadataNode_validate, BlockRange_validate_non_empty, BlockRange_is_empty.
      cbn [mn_covered_range mn_kind]. range_wf. ztest. apply validate_internal_complete; [done|by destruct pre|].
      eapply children_same_ranges; [|exact Hch]. apply Forall2_app; [by apply Forall2_refl|].
      constructor; [done|by apply Forall2_refl]. }
    rewrite Hv. eexists _, _; by split.
  - rewrite st_bind_lift. destruct (edit_leaf_ok config size Hbs r (es, xs) edit Hrok Hk He) as (out & -> & Hl & _).
    destruct (_ && _); [by eauto|]. destruct (bool_decide (out.2 = [])); cbn [negb]; [|by eauto].
    destruct (leaf_descriptors descriptors out.1 []) as [ds|] eqn:Hds; [|by eauto].
    rewrite insert_new_node, (shortcut_leaf_valid c r out.1 out.2 ds) by done. eexists _, _; by split.
Qed.
End total.

(** ** Whole edits *)

Lemma apart_overlay es b o :
  iv_apart (fun e => bk_start (te_range e)) (fun e => bk_end (te_range e)) es ->
  overlay es b o = match List.find (fun e => in_range (bk_start (te_range e)) (bk_end (te_range e)) b) es with
    | Some e => (fun rp => (rp_segment_id rp, b - rp_segment_base rp)) <$> te_replacement e
    | None => o
    end.
Proof.
  intros [HS _]. revert o. induction HS as [|e es HS IH Hf]; intros o; [done|]. cbn [List.find].
  change (overlay (e :: es) b o) with (overlay es b (overlay1 e b o)). unfold overlay1.
  destruct (in_range _ _ _) eqn:Hin; [|apply IH].
  rewrite overlay_miss; [done|]. unfold covered. apply not_true_is_false. rewrite existsb_exists.
  intros (e' & He' & Hin'). rewrite <-list_elem_of_In in He'. rewrite Forall_forall in Hf. specialize (Hf e' He').
  apply in_range_true in Hin, Hin'. unfold iv_disjoint, iv_before in Hf. lia.
Qed.

Lemma covered_find es b :
  covered es b = bool_decide (is_Some (List.find
    (fun e => in_range (bk_start (te_range e)) (bk_end (te_range e)) b) es)).
Proof.
  unfold covered. induction es as [|e es IH]; [done|]. cbn [existsb List.find].
  destruct (in_range _ _ _); [|exact IH]. by rewrite bool_decide_eq_true_2.
Qed.

(** The edit that a block belongs to does not depend on the order of disjoint
    edits. *)
Lemma find_edit_perm es es' b :
  iv_apart (fun e => bk_start (te_range e)) (fun e => bk_end (te_range e)) es -> es ≡ₚ es' ->
  List.find (fun e => in_range (bk_start (te_range e)) (bk_end (te_range e)) b) es' =
  List.find (fun e => in_range (bk_start (te_range e)) (bk_end (te_range e)) b) es.
Proof.
  set (f (e : TreeRangeEdit) (x : Z) :=
    if in_range (bk_start (te_range e)) (bk_end (te_range e)) x then Some e else None).
  assert (Hf : forall l, List.find (fun e => in_range (bk_start (te_range e)) (bk_end (te_range e)) b) l = first_at f l b).
  { induction l as [|e l IH]; [done|]. cbn. unfold f at 1. by destruct (in_range _ _ _). }
  intros Ha Hp. rewrite !Hf. symmetry. eapply (first_at_perm _ _ f); [|exact Ha|exact Hp].
  intros e x e'. unfold f. destruct (in_range _ _ _) eqn:Hin; [|done]. intros _. by apply in_range_true in Hin.
Qed.

(** The block and the bytes of an append log that a tree gives. *)
Definition tree_block (m : MetadataInner) (root : MetadataNodeId) (r : BlockRange) (b : Z)
    : option (SegmentId * BlockIndex) :=
  match leaf_at (tree_fuel (bk_blocks r)) (metadata_nodes m) root b with
  | Some l => entries_lookup l.1 b
  | None => None
  end.
Definition tree_run (bs : Z) (m : MetadataInner) (root : MetadataNodeId) (r : BlockRange) (y : Z)
    (loc : StorageNodeId * Z * Z) : Prop :=
  exists l, leaf_at (tree_fuel (bk_blocks r)) (metadata_nodes m) root (y / bs) = Some l /\
    runs_at (rx_run <$> l.2) y loc.

(** What the edits do to the whole tree: the block and the append-log bytes of
    every position. *)
Definition tree_overlaid (bs : Z) (m m' : MetadataInner) (root root' : MetadataNodeId) (r : BlockRange)
    (edits : list TreeRangeEdit) : Prop :=
  forall b, in_block_range r b ->
    match List.find (fun e => in_range (bk_start (te_range e)) (bk_end (te_range e)) b) edits with
    | Some e =>
        tree_block m' root' r b =
          (fun rp => (rp_segment_id rp, b - rp_segment_base rp)) <$> te_replacement e /\
        forall y loc, y / bs = b -> ~ tree_run bs m' root' r y loc
    | None =>
        tree_block m' root' r b = tree_block m root r b /\
        forall y loc, y / bs = b -> tree_run bs m' root' r y loc <-> tree_run bs m root r y loc
    end.

Section whole.
Context (config : LocalStoreConfig) (size : SegmentId -> option Z)
  (adds : list VerifiedSegmentReceipt).
Local Abbreviation bs := (cfg_block_size config).
Hypothesis Hbs : 0 < bs.

Definition shard_tree (c : LocalCoordinator) (root : MetadataNodeId) (r : BlockRange) : Prop :=
  tree_ok bs size (tree_fuel (bk_blocks r)) (metadata_nodes (co_metadata c)) root r.

Lemma edited_overlaid c c' root r res es es' :
  edit_result config size (tree_fuel (bk_blocks r)) es c root r res c' -> es ≡ₚ es' ->
  iv_apart (fun e => bk_start (te_range e)) (fun e => bk_end (te_range e)) es ->
  tree_overlaid bs (co_metadata c) (co_metadata c') root (tr_root res) r es'.
Proof.
  intros (_ & [_ Hl] & _) Hp Ha b Hb. destruct (Hl b Hb) as (l & l' & H1 & H2 & Hblk & Hrun).
  rewrite (find_edit_perm es es' b Ha Hp). rewrite (apart_overlay es b _ Ha) in Hblk. rewrite covered_find in Hrun.
  assert (Hb' : tree_block (co_metadata c') (tr_root res) r b = entries_lookup l'.1 b) by (unfold tree_block; by rewrite H2).
  assert (Hy' : forall y loc, y / bs = b -> tree_run bs (co_metadata c') (tr_root res) r y loc <-> runs_at (rx_run <$> l'.2) y loc).
  { intros y loc Hy. unfold tree_run. rewrite Hy, H2. naive_solver. }
  destruct (List.find _ es) as [e|]; split.
  - by rewrite Hb'.
  - intros y loc Hy. rewrite Hy', Hrun by done. rewrite bool_decide_eq_true_2 by done. naive_solver.
  - unfold tree_block at 2. by rewrite Hb', H1.
  - intros y loc Hy. rewrite Hy', Hrun by done. rewrite bool_decide_eq_false_2 by (by intros []).
    unfold tree_run. rewrite Hy, H1. naive_solver.
Qed.

Lemma contains_eval a b : wf_block_range a -> wf_block_range b ->
  bk_start a <= bk_start b -> bk_end b <= bk_end a -> BlockRange_contains_range a b = Ok true.
Proof. intros. unfold BlockRange_contains_range. range_wf. by ztest. Qed.

(** The routine for one range takes the shortcut or the general path; on a
    well-formed tree both give the same. *)
Lemma replace_range_with_receipts_eq c root_id root r edit :
  ids_fresh (co_metadata c) -> receipts_ready size c adds -> shard_tree c root_id r ->
  metadata_nodes (co_metadata c) !! root_id = Some root -> edit_ok size edit ->
  bk_start r <= bk_start (te_range edit) -> bk_end (te_range edit) <= bk_end r ->
  replace_tree_range_with_receipts config root_id edit adds c =
  replace_tree_ranges_at config (tree_fuel (bk_blocks r)) root [edit] adds c.
Proof using Hbs.
  intros Hf Hready Hok Hroot He Hlo Hhi. pose proof He as (Hwe & Hepos & _).
  pose proof (tree_ok_range _ _ _ _ _ _ Hok) as (Hwr & Hpos & _).
  assert (Hr : mn_covered_range root = r /\ mn_node_id root = root_id).
  { unfold shard_tree, tree_fuel in Hok. destruct Hok as (n & Hn & ? & ? & _). assert (n = root) as -> by congruence. done. }
  destruct Hr as [Hr Hid]. unfold replace_tree_range_with_receipts.
  assert (Hne : BlockRange_validate_non_empty (te_range edit) = Ok tt).
  { unfold BlockRange_validate_non_empty, BlockRange_is_empty. range_wf. by ztest. }
  rewrite st_bind_lift, Hne, <-replace_range_at_many.
  assert (Hgeneral : forall c0, co_metadata c0 = co_metadata c ->
    (root ← ask_metadata (fun m => get_metadata_node m root_id);
     inside ← st_lift (BlockRange_contains_range (mn_covered_range root) (te_range edit));
     st_reject_if (negb inside) edit_outside;;
     replace_tree_range_at config (node_fuel root) root edit adds) c0 =
    replace_tree_range_at config (tree_fuel (bk_blocks r)) root edit adds c0).
  { intros c0 Hc0. rewrite st_bind_run. unfold ask_metadata, st_ask, get_metadata_node. rewrite Hc0, Hroot. cbn [ok_or].
    rewrite st_bind_lift, Hr, contains_eval by done. cbn [negb].
    rewrite st_bind_run. unfold st_reject_if, st_lift, reject_if. cbv beta iota. unfold node_fuel. by rewrite Hr. }
  rewrite st_bind_run. unfold try_replace_tree_range_single_path.
  destruct (bool_decide _); [by apply Hgeneral|]. cbv zeta. destruct (bool_decide _); [by apply Hgeneral|].
  rewrite st_bind_run. unfold ask_metadata, st_ask, get_metadata_node. rewrite Hroot. cbn [ok_or].
  rewrite st_bind_lift, Hr, contains_eval by done. cbn [negb]. rewrite st_bind_run.
  change (st_reject_if false edit_outside c) with ((Ok tt, c) : Result unit * LocalCoordinator). cbv beta iota.
  unfold on_metadata at 1, node_fuel. rewrite Hr.
  destruct (single_path_total config size adds Hbs edit (tree_fuel (bk_blocks r)) root c r He Hready)
    as (o & m' & Hrun & Hsame); [by rewrite Hid|by rewrite Hid|]. rewrite Hrun. destruct o as [res|].
  - destruct (single_path_agrees_at config edit adds _ root c res m' Hf Hrun) as [-> _]. done.
  - rewrite (Hsame eq_refl). replace (set_co_metadata (co_metadata c) c) with c by (by destruct c).
    by apply Hgeneral.
Qed.

Lemma edit_order_ok es prev :
  Forall (edit_ok size) es ->
  StronglySorted (iv_before (fun e => bk_start (te_range e)) (fun e => bk_end (te_range e))) es ->
  (forall p e, prev = Some p -> e ∈ es -> p <= bk_start (te_range e)) ->
  exists acc, try_fold edit_order_step prev es = Ok acc.
Proof.
  intros Hes. revert prev. induction Hes as [|e es (He & Hpos & _) Hes IH]; intros prev Hs Hprev; cbn [try_fold]; [eauto|].
  apply StronglySorted_inv in Hs as [Hs Hafter].
  destruct (IH (Some (bk_end (te_range e))) Hs) as [acc Hacc].
  { intros p e' [= <-] He'. rewrite Forall_forall in Hafter. by apply Hafter. }
  exists acc. rewrite <-Hacc. unfold edit_order_step, BlockRange_validate_non_empty, BlockRange_is_empty.
  range_wf. ztest. destruct prev as [p|]; [|done].
  specialize (Hprev p e eq_refl ltac:(by left)). by ztest.
Qed.

Definition edits_within (r : BlockRange) (edits : list TreeRangeEdit) : Prop :=
  Forall (edit_ok size) edits /\
  Forall (fun e => bk_start r <= bk_start (te_range e) /\ bk_end (te_range e) <= bk_end r) edits /\
  iv_apart (fun e => bk_start (te_range e)) (fun e => bk_end (te_range e)) edits.

Lemma replace_ranges_ok c root r edits :
  ids_fresh (co_metadata c) -> receipts_ready size c adds -> shard_tree c root r -> edits_within r edits ->
  exists res c', replace_tree_ranges_with_receipts config root edits adds c = (Ok res, c') /\
    cow_rel c c' /\ shard_tree c' (tr_root res) r /\
    tree_overlaid bs (co_metadata c) (co_metadata c') root (tr_root res) r edits /\
    (tr_changed res = false -> tr_root res = root) /\
    (tr_changed res = true -> metadata_nodes (co_metadata c) !! tr_root res = None).
Proof using Hbs.
  intros Hf Hready Hok (Hes & Hin & Ha). pose proof (tree_ok_range _ _ _ _ _ _ Hok) as (Hwr & Hpos & _).
  assert (Hroot : exists n, metadata_nodes (co_metadata c) !! root = Some n /\ mn_covered_range n = r /\ mn_node_id n = root).
  { unfold shard_tree, tree_fuel in Hok. destruct Hok as (n & ? & ? & ? & _). eauto. }
  destruct Hroot as (n & Hn & Hr & Hid).
  assert (Hgen : forall es, es ≡ₚ edits -> Forall (edit_ok size) es ->
    exists res c', replace_tree_ranges_at config (tree_fuel (bk_blocks r)) n es adds c = (Ok res, c') /\
    cow_rel c c' /\ shard_tree c' (tr_root res) r /\
    tree_overlaid bs (co_metadata c) (co_metadata c') root (tr_root res) r edits /\
    (tr_changed res = false -> tr_root res = root) /\
    (tr_changed res = true -> metadata_nodes (co_metadata c) !! tr_root res = None)).
  { intros es Hp Hes'. destruct (replace_tree_ranges_at_ok config size adds Hbs (tree_fuel (bk_blocks r)) n c es r)
      as (res & c' & Hrun & Hres); [done|done|by rewrite Hid|by rewrite Hid|done|]. rewrite Hid in Hres.
    exists res, c'. pose proof Hres as (R & [Hok' _] & Hsame & Hnew). split_and!; try done.
    eapply edited_overlaid; [exact Hres|done|]. by eapply iv_apart_perm; [symmetry|]. }
  unfold replace_tree_ranges_with_receipts. destruct edits as [|e [|e' edits]].
  - exists (mkTreeEditResult root false), c. split_and!; [done|reflexivity|done| |done|done].
    intros b Hb. cbn. done.
  - pose proof (proj1 (Forall_singleton _ _) Hes) as He. destruct (proj1 (Forall_singleton _ _) Hin) as [Hlo Hhi].
    rewrite (replace_range_with_receipts_eq c root n r e Hf Hready Hok Hn He Hlo Hhi). by apply Hgen.
  - set (es := e :: e' :: edits) in *. set (sorted := sort_by_key (fun e => bk_start (te_range e)) es).
    assert (Hp : sorted ≡ₚ es) by apply sort_by_key_perm.
    assert (Hes' : Forall (edit_ok size) sorted) by (by rewrite Hp).
    destruct (edit_order_ok sorted None Hes') as [acc Hacc]; [apply (iv_apart_sort _ _ es Ha)|done|].
    cbv zeta. rewrite st_bind_lift, Hacc, st_bind_run. unfold ask_metadata, st_ask, get_metadata_node. rewrite Hn.
    cbn [ok_or]. rewrite st_bind_lift, Hr.
    assert (Hall : try_for (fun edit => inside ← BlockRange_contains_range r (te_range edit);
      reject_if (negb inside) edit_outside) sorted = Ok tt).
    { apply try_for_Ok, Forall_forall. intros x Hx. rewrite Hp in Hx. rewrite Forall_forall in Hin, Hes. destruct (Hin x Hx).
      destruct (Hes x Hx) as (? & _). by rewrite contains_eval. }
    rewrite Hall. unfold node_fuel. rewrite Hr. by apply Hgen.
Qed.
End whole.
