(* ===== verification/Trees.v ===== *)
(** * Whole trees: creation and edits

    A tree that [create_empty_tree] builds is well formed and empty, and the
    copy-on-write edits of a well-formed tree are pointwise overlays. *)

From S2P Require Import Prelude Intervals Api Object TreeEdit Provider Authority Config Catalog.
From S2P Require Import SegmentStore StorageNode Streams Plane Timeline Coordinator CowTree.
From S2P Require Import CowSpec.

(** ** Equal parts of a range *)

Lemma part_bounds blocks n i :
  1 <= n <= blocks -> 0 <= i < n ->
  0 <= blocks * i / n < blocks * (i + 1) / n /\ blocks * (i + 1) / n <= blocks.
Proof.
  intros Hn Hi.
  pose proof (Z.div_mod (blocks * i) n ltac:(lia)). pose proof (Z.mod_pos_bound (blocks * i) n ltac:(lia)).
  pose proof (Z.div_mod (blocks * (i + 1)) n ltac:(lia)). pose proof (Z.mod_pos_bound (blocks * (i + 1)) n ltac:(lia)).
  assert (0 <= blocks * i / n) by (apply Z.div_pos; nia). split_and!; [lia|nia|nia].
Qed.

Lemma part_half blocks n i :
  2 <= n <= blocks -> 0 <= i < n -> 2 * (blocks * (i + 1) / n - blocks * i / n) <= blocks + 1.
Proof.
  intros Hn Hi. pose proof (part_bounds blocks n i ltac:(lia) Hi).
  pose proof (Z.div_mod (blocks * i) n ltac:(lia)). pose proof (Z.mod_pos_bound (blocks * i) n ltac:(lia)).
  pose proof (Z.div_mod (blocks * (i + 1)) n ltac:(lia)). pose proof (Z.mod_pos_bound (blocks * (i + 1)) n ltac:(lia)).
  set (s := blocks * i / n) in *. set (e := blocks * (i + 1) / n) in *.
  assert (n * (e - s) <= blocks + n - 1) by lia.
  destruct (decide (2 * (e - s) <= blocks + 1)) as [|Hbig]; [done|exfalso]. nia.
Qed.

Lemma part_range_ok blocks n i e1 e2 :
  0 <= blocks -> 0 <= i < n -> blocks * n < U64_MOD ->
  part_range blocks n i e1 e2 = Ok (blocks * i / n, blocks * (i + 1) / n).
Proof.
  intros Hb Hi Hov. unfold part_range, checked_mul, in_u64. assert (0 <= blocks * i < U64_MOD) by nia.
  assert (0 <= blocks * (i + 1) < U64_MOD) by nia. by ztest.
Qed.

Lemma half_log b l : 1 < b -> 0 < l -> 2 * l <= b + 1 -> Z.log2_up l < Z.log2_up b.
Proof.
  intros Hb Hl Hle. assert (Hp : 0 < Z.log2_up b) by (by apply Z.log2_up_pos).
  apply Z.lt_le_pred, Z.log2_up_le_pow2; [done|].
  pose proof (proj2 (Z.log2_log2_up_spec b ltac:(lia))) as Hu.
  replace (Z.log2_up b) with (Z.succ (Z.pred (Z.log2_up b))) in Hu by lia.
  rewrite Z.pow_succ_r in Hu by lia. lia.
Qed.

(** ** Loops over indexes *)

Lemma st_map_run {T A B} (R : relation T) `{!PreOrder R} (I : T -> Prop) (P : A -> B -> T -> Prop)
    (f : A -> ST T B) l s :
  (forall a s1, a ∈ l -> I s1 -> exists b s2, f a s1 = (Ok b, s2) /\ R s1 s2 /\ I s2 /\ P a b s2) ->
  (forall a b s1 s2, R s1 s2 -> P a b s1 -> P a b s2) -> I s ->
  exists bs s', st_map f l s = (Ok bs, s') /\ R s s' /\ I s' /\ Forall2 (fun a b => P a b s') l bs.
Proof.
  intros Hf HP. revert s. induction l as [|a l IH]; intros s Hs; cbn [st_map].
  - exists [], s. split_and!; [done|reflexivity|done|by constructor].
  - destruct (Hf a s ltac:(by left) Hs) as (b & s1 & Ha & R1 & I1 & Pb).
    destruct (IH ltac:(intros; apply Hf; [by right|done]) s1 I1) as (bs & s2 & Hl & R2 & I2 & Pbs).
    exists (b :: bs), s2. rewrite st_bind_run, Ha, st_bind_run, Hl.
    split_and!; [done|by etrans|done|]. constructor; [by eapply HP|done].
Qed.

(** Parts that follow each other form a chain. *)
Lemma parts_chain (g : Z -> Z) (cs : list MetadataChild) k n :
  0 <= n -> Forall2 (fun i c => bk_start (mc_range c) = g i /\ bk_end (mc_range c) = g (i + 1) /\ 0 < bk_blocks (mc_range c))
    (seqZ k n) cs -> children_chain (g k) cs (g (k + n)).
Proof.
  intros Hn. revert k cs. pattern n. apply natlike_ind; [..|done].
  - intros k cs H. inversion H; subst. cbn. by rewrite Z.add_0_r.
  - clear n Hn. intros n Hn IH k cs H. rewrite seqZ_cons in H by lia. rewrite Z.pred_succ in H.
    inversion H as [|? c ? cs' (Hs & He & Hp) Hrest]; subst. cbn. split_and!; [done..|].
    rewrite He. replace (k + Z.succ n) with (k + 1 + n) by lia. apply IH. by rewrite Z.add_1_r.
Qed.

(** ** Empty trees *)

Section create.
Context (config : LocalStoreConfig) (size : SegmentId -> option Z).
Local Abbreviation bs := (cfg_block_size config).
Hypothesis Hfan : 2 <= metadata_fanout config.
Hypothesis Hleaf : 1 <= metadata_leaf_blocks config.

Definition empty_tree (h : nat) (nodes : gmap MetadataNodeId MetadataNode) (id : MetadataNodeId)
    (r : BlockRange) : Prop :=
  tree_ok bs size h nodes id r /\
  forall b, in_block_range r b -> leaf_at h nodes id b = Some ([], []).

Lemma empty_tree_grow h nodes nodes' id r :
  nodes ⊆ nodes' -> empty_tree h nodes id r -> empty_tree h nodes' id r.
Proof.
  intros Hs [Hok Hl]. split; [by eapply tree_ok_grow|]. intros b Hb.
  rewrite (leaf_at_grow bs size h nodes nodes' id r b Hs Hok Hb). by apply Hl.
Qed.

(** Writing the node of a new tree. *)
Lemma create_node_run m r kind :
  MetadataNode_validate (mkMetadataNode (next_metadata_node_id m) r kind) [] = Ok tt ->
  (node_id ← alloc_metadata_node_id;
   let node := mkMetadataNode node_id r kind in
   st_lift (MetadataNode_validate node []);;
   insert_metadata_node node;;
   mret node) m = (Ok (mkMetadataNode (next_metadata_node_id m) r kind), node_added m r kind).
Proof.
  intros Hv. rewrite st_bind_run. change (alloc_metadata_node_id m) with
    (Ok (next_metadata_node_id m), set_next_metadata_node_id (next_metadata_node_id m + 1) m).
  cbv beta iota zeta. by rewrite st_bind_lift, Hv.
Qed.

Definition created (h : nat) (r : BlockRange) (m m' : MetadataInner) (node : MetadataNode) : Prop :=
  nodes_grow m m' /\ ids_fresh m' /\ empty_tree h (metadata_nodes m') (mn_node_id node) r.

Lemma created_leaf h r m :
  range_ok bs r -> ids_fresh m ->
  created (S h) r m (node_added m r (Leaf [] [])) (mkMetadataNode (next_metadata_node_id m) r (Leaf [] [])).
Proof.
  intros Hr Hf. pose proof (node_added_grow m r (Leaf [] []) Hf) as G.
  split; [done|]. split; [by eapply nodes_grow_fresh|]. cbn [mn_node_id metadata_nodes node_added set_metadata_nodes]. split.
  - cbn [tree_ok]. rewrite lookup_insert_eq. eexists. split_and!; [done..|]. cbn.
    split; [by repeat constructor|apply Forall_nil_2|done|apply Forall_nil_2|by repeat constructor|].
    by intros y loc (? & ?%not_elem_of_nil & _).
  - intros b _. cbn [leaf_at]. by rewrite lookup_insert_eq.
Qed.

Lemma created_internal h r m m1 cs :
  range_ok bs r -> nodes_grow m m1 -> ids_fresh m1 -> cs <> [] ->
  children_chain (bk_start r) cs (bk_end r) ->
  Forall (fun c => empty_tree h (metadata_nodes m1) (mc_node_id c) (mc_range c)) cs ->
  created (S h) r m (node_added m1 r (Internal cs)) (mkMetadataNode (next_metadata_node_id m1) r (Internal cs)).
Proof.
  intros Hr G1 Hf Hne Hch Hcs. pose proof (node_added_grow m1 r (Internal cs) Hf) as G.
  split; [by etrans|]. split; [by eapply nodes_grow_fresh|].
  assert (Hcs' : Forall (fun c => empty_tree h (metadata_nodes (node_added m1 r (Internal cs))) (mc_node_id c) (mc_range c)) cs).
  { eapply Forall_impl; [exact Hcs|]. intros c. apply empty_tree_grow, G. }
  cbn [mn_node_id]. split.
  - cbn [tree_ok]. eexists. split; [apply lookup_insert_eq|]. split_and!; [done..|]. cbn [mn_kind]. split_and!; [done..|].
    eapply Forall_impl; [exact Hcs'|]. by intros c [? _].
  - intros b Hb. cbn [leaf_at]. cbn [metadata_nodes node_added set_metadata_nodes]. rewrite lookup_insert_eq. cbn [mn_kind].
    destruct (child_at_Some (bk_start r) cs (bk_end r) b Hch) as (c & -> & Hc & Hcb); [apply Hb|].
    rewrite Forall_forall in Hcs'. by apply (Hcs' c Hc).
Qed.

(** The tree over a range is built, whatever its size. *)
Lemma create_empty_tree_ok h r m :
  range_ok bs r -> bk_blocks r * metadata_fanout config < U64_MOD -> ids_fresh m ->
  Z.log2_up (bk_blocks r) < Z.of_nat h ->
  exists node m', create_empty_tree h config r m = (Ok node, m') /\ mn_covered_range node = r /\
    created h r m m' node.
Proof.
  revert r m. induction h as [|h IH]; intros r m Hr Hov Hf Hh.
  { pose proof (Z.log2_up_nonneg (bk_blocks r)). lia. }
  pose proof Hr as (Hwr & Hpos & Hbytes). cbn [create_empty_tree]. rewrite st_bind_lift.
  assert (Hne : BlockRange_validate_non_empty r = Ok tt).
  { unfold BlockRange_validate_non_empty, BlockRange_is_empty. range_wf. by ztest. }
  rewrite Hne. destruct (bk_blocks r <=? metadata_leaf_blocks config) eqn:Hsmall.
  { rewrite create_node_run.
    - eexists _, _. split; [done|]. split; [done|]. by apply created_leaf.
    - unfold MetadataNode_validate. cbn [mn_covered_range mn_kind]. by rewrite Hne. }
  bool_prop. cbv zeta. set (n := Z.min (metadata_fanout config) (bk_blocks r)).
  assert (Hn : 2 <= n <= bk_blocks r) by lia. set (g := fun i => bk_start r + bk_blocks r * i / n).
  destruct (st_map_run nodes_grow ids_fresh (fun i c m' =>
      (bk_start (mc_range c) = g i /\ bk_end (mc_range c) = g (i + 1) /\ 0 < bk_blocks (mc_range c)) /\
      empty_tree h (metadata_nodes m') (mc_node_id c) (mc_range c))
    (fun child_index =>
       offsets ← st_lift (part_range (bk_blocks r) n child_index
         (InvalidArgument "child range start overflows") (InvalidArgument "child range end overflows"));
       child_start ← st_lift (ok_or (checked_add U64_MOD (bk_start r) offsets.1)
         (InvalidArgument "child range start overflows"));
       let child_range := mkBlockRange child_start (offsets.2 - offsets.1) in
       child ← create_empty_tree h config child_range;
       mret (mkMetadataChild child_range (mn_node_id child)))
    (seqZ 0 n) m) as (cs & m1 & Hrun & G1 & Hf1 & Hcs); [| |done|].
  - intros i m1 Hi Hm1. apply elem_of_seqZ in Hi.
    destruct (part_bounds (bk_blocks r) n i ltac:(lia) ltac:(lia)) as (Hse & Hend).
    pose proof (part_half (bk_blocks r) n i Hn ltac:(lia)) as Hhalf.
    rewrite st_bind_lift, part_range_ok by nia. rewrite st_bind_lift. cbn [fst snd]. unfold checked_add, in_u64.
    unfold wf_block_range, in_u64, bk_end in Hwr, Hbytes. ztest. cbn [ok_or]. cbv zeta. rewrite st_bind_run.
    set (r' := mkBlockRange _ _).
    destruct (IH r' m1) as (node & m2 & -> & _ & G2 & F2 & E2); [|unfold r'; cbn; nia|done| |].
    + unfold range_ok, wf_block_range, in_u64, bk_end, r'. cbn. split_and!; try lia. nia.
    + cbn [r' bk_blocks]. pose proof (half_log (bk_blocks r) (bk_blocks r') ltac:(lia) ltac:(cbn; lia) Hhalf). cbn in *. lia.
    + eexists _, _. split; [done|]. split_and!; try done; unfold g, bk_end; cbn; lia.
  - intros i c m1 m2 G [? ?]. split; [done|]. eapply empty_tree_grow; [apply G|done].
  - cbv zeta in Hrun. rewrite st_bind_run, Hrun.
    assert (Hch : children_chain (bk_start r) cs (bk_end r)).
    { replace (bk_start r) with (g 0) at 1 by (unfold g; rewrite Z.mul_0_r, Z.div_0_l by lia; lia).
      replace (bk_end r) with (g (0 + n)) by (unfold g, bk_end; rewrite Z.add_0_l, Z.div_mul by lia; lia).
      apply parts_chain; [lia|]. eapply Forall2_impl; [exact Hcs|]. by intros ?? [? _]. }
    assert (Hcne : cs <> []) by (apply Forall2_length in Hcs; rewrite length_seqZ in Hcs; intros ->; cbn in Hcs; lia).
    rewrite create_node_run.
    + eexists _, _. split; [done|]. split; [done|]. apply created_internal; try done.
      apply Forall_forall. intros c Hc. apply list_elem_of_lookup_1 in Hc as [i Hi].
      eapply Forall2_lookup_r in Hcs as (? & _ & _ & ?); [done|exact Hi].
    + unfold MetadataNode_validate. cbn [mn_covered_range mn_kind]. rewrite Hne. by apply validate_internal_complete.
Qed.

(** ** The shards of a device *)

Definition shard_range (blocks i : Z) : BlockRange :=
  let n := shard_count config in
  mkBlockRange (blocks * i / n) (blocks * (i + 1) / n - blocks * i / n).

(** The roots of a device are the trees of its shards. *)
Definition device_trees (nodes : gmap MetadataNodeId MetadataNode) (blocks : Z)
    (roots : list MetadataNodeId) : Prop :=
  Forall2 (fun i root => let r := shard_range blocks i in
    tree_ok bs size (tree_fuel (bk_blocks r)) nodes root r) (seqZ 0 (shard_count config)) roots.

Lemma shard_range_ok blocks i :
  1 <= shard_count config <= blocks -> 0 <= i < shard_count config -> 0 < bs -> blocks * bs < U64_MOD ->
  range_ok bs (shard_range blocks i).
Proof.
  intros Hn Hi Hbs Hov. pose proof (part_bounds blocks (shard_count config) i Hn Hi).
  assert (blocks < U64_MOD) by nia.
  unfold range_ok, wf_block_range, in_u64, bk_end, shard_range. cbn. split_and!; try lia. nia.
Qed.

Lemma tree_fuel_log blocks : Z.log2_up blocks < Z.of_nat (tree_fuel blocks).
Proof. unfold tree_fuel. pose proof (Z.log2_up_nonneg blocks). lia. Qed.

(** A device that fits the address space is created, its shards empty. *)
Lemma create_device_ok spec m :
  LocalStoreConfig_validate config = Ok tt -> DeviceSpec_validate spec = Ok tt ->
  1 <= shard_count config <= ds_logical_blocks spec -> 0 < bs -> ids_fresh m ->
  ds_logical_blocks spec * bs < U64_MOD -> ds_logical_blocks spec * shard_count config < U64_MOD ->
  ds_logical_blocks spec * metadata_fanout config < U64_MOD ->
  exists roots m', create_device config spec m = (Ok (mkDeviceHead (next_device_id m) 0 roots 0), m') /\
    device_heads m' = <[next_device_id m := mkDeviceHead (next_device_id m) 0 roots 0]> (device_heads m) /\
    device_specs m' = <[next_device_id m := spec]> (device_specs m) /\ next_device_id m' = next_device_id m + 1 /\
    next_commit_seq m' = next_commit_seq m /\
    metadata_nodes m ⊆ metadata_nodes m' /\ ids_fresh m' /\
    device_trees (metadata_nodes m') (ds_logical_blocks spec) roots /\
    Forall2 (fun i root => let r := shard_range (ds_logical_blocks spec) i in
      forall b, in_block_range r b -> tree_block m' root r b = None) (seqZ 0 (shard_count config)) roots.
Proof.
  intros Hcfg Hspec Hn Hbs Hf Hbytes Hsh Hfo. set (L := ds_logical_blocks spec) in *.
  set (m0 := set_next_device_id (next_device_id m + 1) m).
  destruct (st_map_run nodes_grow ids_fresh (fun i root m' => let r := shard_range L i in
      empty_tree (tree_fuel (bk_blocks r)) (metadata_nodes m') root r)
    (fun shard =>
      offsets ← st_lift (part_range L (shard_count config) shard
        (InvalidArgument "shard start overflows") (InvalidArgument "shard end overflows"));
      node ← create_empty_tree (tree_fuel (offsets.2 - offsets.1)) config
        (mkBlockRange offsets.1 (offsets.2 - offsets.1));
      mret (mn_node_id node)) (seqZ 0 (shard_count config)) m0) as (roots & m1 & Hrun & G & F1 & Hroots).
  - intros i m1 Hi Hm1. apply elem_of_seqZ in Hi.
    pose proof (part_bounds L (shard_count config) i Hn ltac:(lia)).
    rewrite st_bind_lift, part_range_ok by lia. cbn [fst snd]. rewrite st_bind_run.
    destruct (create_empty_tree_ok (tree_fuel (bk_blocks (shard_range L i))) (shard_range L i) m1)
      as (node & m2 & Hnode & _ & G2 & F2 & E2).
    + apply shard_range_ok; [done|lia|done|done].
    + cbn. nia.
    + done.
    + apply tree_fuel_log.
    + unfold shard_range in Hnode. cbn [bk_blocks] in Hnode. cbv zeta in Hnode. rewrite Hnode.
      eexists _, _. split; [done|]. by split_and!.
  - intros i root m1 m2 G. apply empty_tree_grow, G.
  - exact Hf.
  - pose proof (Forall2_length _ _ _ Hroots) as Hlen. rewrite length_seqZ in Hlen.
    unfold create_device. rewrite st_bind_lift, Hcfg, st_bind_lift, Hspec, st_bind_run. fold L.
    unfold st_reject_if, st_lift at 1. ztest. cbn [reject_if]. rewrite st_bind_run.
    change (alloc_device_id m) with (Ok (next_device_id m), m0). cbv beta iota. rewrite st_bind_run, Hrun. cbv zeta.
    rewrite st_bind_lift. unfold DeviceHead_validate. cbn [dh_shard_roots]. rewrite <-Hlen, Z2Nat.id by lia.
    rewrite Z.eqb_refl. ztest. cbn [negb reject_if mbind Result_bind]. eexists roots, _. split; [reflexivity|].
    split_and!.
    + cbn. by rewrite (ng_eq _ _ G).
    + cbn. by rewrite (ng_eq _ _ G).
    + cbn. by rewrite (ng_eq _ _ G).
    + cbn. by rewrite (ng_eq _ _ G).
    + cbn. exact (ng_nodes _ _ G).
    + split; [apply F1|]. cbn. intros k. rewrite lookup_insert_is_Some'. destruct F1 as [_ Hck].
      intros [<-|Hk%Hck]; lia.
    + eapply Forall2_impl; [exact Hroots|]. by intros i root [? _].
    + eapply Forall2_impl; [exact Hroots|]. intros i root Hroot b Hb. destruct Hroot as [_ Hl]. unfold tree_block.
      cbn [metadata_nodes]. change (metadata_nodes _) with (metadata_nodes m1). by rewrite Hl.
Qed.
End create.

(** ** The edits of a whole tree *)

(** The tree of a device of one shard. *)
Lemma created_shard config size spec m c root d :
  LocalStoreConfig_validate config = Ok tt -> DeviceSpec_validate spec = Ok tt ->
  shard_count config = 1 /\ 1 <= ds_logical_blocks spec /\ 0 < cfg_block_size config /\
    2 <= metadata_fanout config /\ 1 <= metadata_leaf_blocks config ->
  ids_fresh m ->
  ds_logical_blocks spec * cfg_block_size config < U64_MOD /\
    ds_logical_blocks spec * metadata_fanout config < U64_MOD ->
  (create_device config spec m).1 = Ok (mkDeviceHead d 0 [root] 0) ->
  (create_device config spec m).2 = co_metadata c ->
  ids_fresh (co_metadata c) /\ shard_tree config size c root (mkBlockRange 0 (ds_logical_blocks spec)).
Proof.
  intros Hcfg Hspec (Hn & Hb & Hbs & Hfan & Hleaf) Hf (Hbytes & Hfo).
  destruct (create_device_ok config size Hfan Hleaf spec m Hcfg Hspec ltac:(lia) Hbs Hf Hbytes ltac:(nia) Hfo)
    as (roots & m' & -> & _ & _ & _ & _ & _ & Hf' & Ht & _).
  intros [= _ ->]. cbn [snd]. intros ->. split; [done|].
  unfold device_trees in Ht. rewrite Hn in Ht. inversion Ht as [|? ? ? ? Htree]; subst.
  unfold shard_range in Htree. rewrite Hn, Z.mul_0_r, Z.mul_1_r, !Z.div_1_r, Z.sub_0_r in Htree by done.
  exact Htree.
Qed.

Lemma grow_reads bs size m m' root r :
  nodes_grow m m' -> tree_ok bs size (tree_fuel (bk_blocks r)) (metadata_nodes m) root r ->
  tree_ok bs size (tree_fuel (bk_blocks r)) (metadata_nodes m') root r /\
  forall b, in_block_range r b -> tree_block m' root r b = tree_block m root r b /\
    forall y loc, y / bs = b -> tree_run bs m' root r y loc <-> tree_run bs m root r y loc.
Proof.
  intros G Hok. split; [by eapply tree_ok_grow; [apply G|]|]. intros b Hb.
  pose proof (leaf_at_grow bs size _ _ _ _ _ b (ng_nodes _ _ G) Hok Hb) as Hl.
  unfold tree_block, tree_run. split; [by rewrite Hl|]. intros y loc ->. by rewrite Hl.
Qed.

(** A block device is created whenever its blocks fit the 64-bit address
    space.  The shard trees built by the recursive halving of the ranges are
    well formed, tile the device, and map every block to nothing; nothing that
    was stored is touched. *)
Lemma created_device_empty config size spec m :
  LocalStoreConfig_validate config = Ok tt -> DeviceSpec_validate spec = Ok tt ->
  config_typed config -> ids_fresh m ->
  shard_count config <= ds_logical_blocks spec /\
  ds_logical_blocks spec * cfg_block_size config < U64_MOD /\
  ds_logical_blocks spec * shard_count config < U64_MOD /\
  ds_logical_blocks spec * metadata_fanout config < U64_MOD ->
  exists roots m', create_device config spec m = (Ok (mkDeviceHead (next_device_id m) 0 roots 0), m') /\
    device_heads m' = <[next_device_id m := mkDeviceHead (next_device_id m) 0 roots 0]> (device_heads m) /\
    metadata_nodes m ⊆ metadata_nodes m' /\
    device_trees config size (metadata_nodes m') (ds_logical_blocks spec) roots /\
    Forall2 (fun i root => let r := shard_range config (ds_logical_blocks spec) i in
      forall b, in_block_range r b -> tree_block m' root r b = None) (seqZ 0 (shard_count config)) roots.
Proof.
  intros Hcfg Hspec (Hs & Hb & _ & _ & Hl & _) Hf (Hn & Hbytes & Hsh & Hfo).
  pose proof Hcfg as (? & ? & _ & _ & ? & ? & _)%config_valid. unfold in_u64, in_u32 in *.
  destruct (create_device_ok config size ltac:(lia) ltac:(lia) spec m Hcfg Hspec ltac:(lia) ltac:(lia) Hf Hbytes Hsh Hfo)
    as (roots & m' & ? & ? & _ & _ & _ & ? & _ & ? & ?). by exists roots, m'.
Qed.

(** C15: A copy-on-write edit of a well-formed shard or file tree always
    succeeds.  The new root is again well formed and is the pointwise overlay of
    the edits on the old one: a block of an edit maps to its segment (or to
    nothing, for a discard) and loses its append runs, every other block and
    append-run byte is as before.  Every tree that was stored, the old root
    included, still reads exactly as it did. *)
Theorem tree_edit_overlay config size adds c root r edits :
  0 < cfg_block_size config -> ids_fresh (co_metadata c) -> receipts_ready size c adds ->
  shard_tree config size c root r -> edits_within size r edits ->
  exists res c', replace_tree_ranges_with_receipts config root edits adds c = (Ok res, c') /\
    shard_tree config size c' (tr_root res) r /\
    tree_overlaid (cfg_block_size config) (co_metadata c) (co_metadata c') root (tr_root res) r edits /\
    forall root0 r0, shard_tree config size c root0 r0 ->
      shard_tree config size c' root0 r0 /\
      tree_overlaid (cfg_block_size config) (co_metadata c) (co_metadata c') root0 root0 r0 [].
Proof.
  intros Hbs Hf Hready Hok Hes.
  destruct (replace_ranges_ok config size adds Hbs c root r edits Hf Hready Hok Hes)
    as (res & c' & Hrun & R & Hok' & Hov & _). exists res, c'. split_and!; [done..|].
  intros root0 r0 H0. by apply grow_reads; [apply R|].
Qed.

(** C19: The single-path shortcut is only an optimisation.  When it applies, the
    general recursive edit gives the same result and the same state, down to
    the ids of the nodes it writes. *)
Theorem shortcut_agrees config c root_id root edit adds res c' :
  ids_fresh (co_metadata c) -> metadata_nodes (co_metadata c) !! root_id = Some root ->
  try_replace_tree_range_single_path config root_id edit adds c = (Ok (Some res), c') ->
  replace_tree_range_at config (node_fuel root) root edit adds c = (Ok res, c').
Proof.
  intros Hf Hroot. unfold try_replace_tree_range_single_path.
  destruct (bool_decide _); [done|]. cbv zeta. destruct (bool_decide _); [done|].
  rewrite st_bind_run. unfold ask_metadata, st_ask, get_metadata_node. rewrite Hroot. cbn [ok_or].
  rewrite st_bind_lift. destruct (BlockRange_contains_range _ _) as [[|]|]; try done.
  rewrite st_bind_run. change (st_reject_if (negb true) edit_outside c) with ((Ok tt, c) : Result unit * LocalCoordinator).
  cbv beta iota. unfold on_metadata.
  destruct (try_replace_tree_range_single_path_at _ _ _ _ _ _) as [[o|] m'] eqn:Hrun; [|done].
  intros [= -> <-]. by apply single_path_agrees_at.
Qed.

(** ** A concrete edit

    A device of eight blocks in one shard, its leaves two blocks each, and a
    segment of two blocks written for it. *)

Definition demo_cow_config : LocalStoreConfig := mkLocalStoreConfig 1 2 1 4 4 1 1024 None.
Definition demo_cow_setup : ST LocalCoordinator VerifiedSegmentReceipt :=
  on_metadata (create_device demo_cow_config (mkDeviceSpec 8 2));;
  @write_segment_for_intent sum_crc (IntentBlockWrite 1 (mkBlockRange 1 2) 0 0 5) 1 [7; 8; 9; 10]
    Acknowledged Verified.
Definition demo_cow_start : LocalCoordinator :=
  mkLocalCoordinator MetadataInner_new (Allocator_new 0) ∅
    (mkStorageNodeRegistry demo_cow_config [1] {[1 := node_new demo_cow_config]} 0 1) ∅ ∅ 1 1 ∅.
Definition demo_cow_run := demo_cow_setup demo_cow_start.
Definition demo_cow : LocalCoordinator := demo_cow_run.2.
Definition demo_ok {A} (r : Result A) : list A := match r with Ok v => [v] | Err _ => [] end.
Definition demo_cow_receipts : list VerifiedSegmentReceipt := demo_ok demo_cow_run.1.
Definition demo_cow_size (id : SegmentId) : option Z := if id =? 1 then Some 2 else None.

Lemma created_device_empty_witness :
  exists m', create_device demo_cow_config (mkDeviceSpec 8 2) MetadataInner_new =
      (Ok (mkDeviceHead 1 0 [5] 0), m') /\
    device_trees demo_cow_config demo_cow_size (metadata_nodes m') 8 [5].
Proof.
  destruct (created_device_empty demo_cow_config demo_cow_size (mkDeviceSpec 8 2) MetadataInner_new)
    as (roots & m' & Hrun & _ & _ & Ht & _); [by vm_compute|by vm_compute|by vm_compute|..].
  - by split; intros k [? ?].
  - by vm_compute.
  - exists m'. assert (Hr : (create_device demo_cow_config (mkDeviceSpec 8 2) MetadataInner_new).1 =
      Ok (mkDeviceHead 1 0 [5] 0)) by (vm_compute; reflexivity).
    rewrite Hrun in Hr. injection Hr as ->. by split.
Defined.

Lemma demo_cow_device : (create_device demo_cow_config (mkDeviceSpec 8 2) MetadataInner_new).1 =
  Ok (mkDeviceHead 1 0 [5] 0).
Proof. by vm_compute. Qed.
Lemma demo_cow_metadata :
  (create_device demo_cow_config (mkDeviceSpec 8 2) MetadataInner_new).2 = co_metadata demo_cow.
Proof. vm_compute. reflexivity. Qed.

Lemma demo_cow_tree : ids_fresh (co_metadata demo_cow) /\
  shard_tree demo_cow_config demo_cow_size demo_cow 5 (mkBlockRange 0 8).
Proof.
  apply (created_shard demo_cow_config demo_cow_size (mkDeviceSpec 8 2) MetadataInner_new demo_cow 5 1).
  - reflexivity.
  - reflexivity.
  - by split_and!.
  - by split; intros k [? ?].
  - by split.
  - exact demo_cow_device.
  - exact demo_cow_metadata.
Qed.

Lemma demo_cow_receipt : (fun v => (sd_segment_id (vr_descriptor v), sd_blocks (vr_descriptor v))) <$>
    receipts_by_segment demo_cow_receipts !! 1 = Some (1, 2).
Proof. by vm_compute. Qed.

Lemma demo_cow_ready : receipts_ready demo_cow_size demo_cow demo_cow_receipts.
Proof.
  intros id n. unfold demo_cow_size. destruct (Z.eqb_spec id 1) as [->|]; [|discriminate]. intros [= <-].
  pose proof demo_cow_receipt as Hv. unfold receipt_source.
  destruct (receipts_by_segment demo_cow_receipts !! 1) as [v|]; [|discriminate Hv].
  exists v. injection Hv as Hid Hb. split; [reflexivity|]. split; [exact Hid|lia].
Qed.

(** Blocks 1 and 2 are written, block 5 is discarded. *)
Definition demo_edits : list TreeRangeEdit :=
  [mkTreeRangeEdit (mkBlockRange 5 1) None;
   mkTreeRangeEdit (mkBlockRange 1 2) (Some (mkSegmentReplacement 1 1))].

Lemma demo_edits_within : edits_within demo_cow_size (mkBlockRange 0 8) demo_edits.
Proof.
  split_and!.
  - apply Forall_cons_2; [|apply Forall_cons_2; [|apply Forall_nil_2]].
    + split_and!; [by vm_compute|by vm_compute|done].
    + split_and!; [by vm_compute|by vm_compute|]. intros rp [= <-]. exists 2. by split_and!.
  - by apply Forall_cons_2; [|apply Forall_cons_2; [|apply Forall_nil_2]].
  - split.
    + apply SSorted_cons; [apply SSorted_cons; [apply SSorted_nil|apply Forall_nil_2]|].
      apply Forall_cons_2; [|apply Forall_nil_2]. right. by vm_compute.
    + by apply Forall_cons_2; [|apply Forall_cons_2; [|apply Forall_nil_2]].
Qed.

Lemma tree_edit_overlay_witness :
  exists res c', replace_tree_ranges_with_receipts demo_cow_config 5 demo_edits
      demo_cow_receipts demo_cow = (Ok res, c') /\
    tree_overlaid 2 (co_metadata demo_cow) (co_metadata c') 5 (tr_root res) (mkBlockRange 0 8) demo_edits.
Proof.
  destruct (tree_edit_overlay demo_cow_config demo_cow_size demo_cow_receipts demo_cow 5
    (mkBlockRange 0 8) demo_edits) as (res & c' & Hrun & _ & Hov & _);
    [done|apply demo_cow_tree|apply demo_cow_ready|apply demo_cow_tree|apply demo_edits_within|].
  exists res, c'. split; [exact Hrun|exact Hov].
Defined.

Definition demo_short_edit : TreeRangeEdit :=
  mkTreeRangeEdit (mkBlockRange 2 2) (Some (mkSegmentReplacement 1 2)).
Definition demo_short := try_replace_tree_range_single_path demo_cow_config 5 demo_short_edit
  demo_cow_receipts demo_cow.
Definition demo_root : MetadataNode :=
  mkMetadataNode 5 (mkBlockRange 0 8) (Internal [mkMetadataChild (mkBlockRange 0 2) 1;
    mkMetadataChild (mkBlockRange 2 2) 2; mkMetadataChild (mkBlockRange 4 2) 3;
    mkMetadataChild (mkBlockRange 6 2) 4]).

Lemma demo_short_Ok : demo_short = (Ok (Some (mkTreeEditResult 7 true)), demo_short.2).
Proof. apply pair_of_fst. by vm_compute. Qed.
Lemma demo_root_stored : metadata_nodes (co_metadata demo_cow) !! 5 = Some demo_root.
Proof. by vm_compute. Qed.

Lemma shortcut_agrees_witness :
  replace_tree_range_at demo_cow_config (node_fuel demo_root) demo_root demo_short_edit
    demo_cow_receipts demo_cow = (Ok (mkTreeEditResult 7 true), demo_short.2).
Proof.
  exact (shortcut_agrees demo_cow_config demo_cow 5 demo_root demo_short_edit demo_cow_receipts _ _
    (proj1 demo_cow_tree) demo_root_stored demo_short_Ok).
Defined.
