(* ===== verification/ReadPath.v ===== *)
(** * The read path ([local/read_path.rs] and the plans of [local/coordinator.rs])

    A read is resolved into a plan, a list of extents that tiles the output, and
    assembled from the storage nodes.  The storage side is an interface: the
    assembly is proved against what it promises, and the coordinator implements
    it. *)

From S2P Require Import Prelude Intervals Api Object TreeEdit Provider Authority Config Catalog.
From S2P Require Import SegmentStore StorageNode Streams Plane Coordinator CowTree.

(** ** Plans *)

Inductive ReadSource :=
| RsZero
| RsSegment (storage_node : StorageNodeId) (segment_id : SegmentId) (segment_offset : Z)
    (integrity : SegmentPayloadIntegrity)
| RsAppendRun (storage_node : StorageNodeId) (log_id : Z) (payload_offset : Z)
    (integrity : SegmentPayloadIntegrity).

Record ReadExtent := mkReadExtent {
  re_output_offset : Z;
  re_len : Z;
  re_source : ReadSource;
}.

Record ReadPlan := mkReadPlan {
  rpl_logical_len : Z;
  rpl_extents : list ReadExtent;
}.

(** The loop of [from_non_zero_extents]: the extents so far and the cursor. *)
Definition plan_step (logical_len : Z) (acc : list ReadExtent * Z) (extent : ReadExtent)
    : Result (list ReadExtent * Z) :=
  let '(out, cursor) := acc in
  reject_if (re_len extent =? 0) (InvalidArgument "read plan extent must not be empty");;
  end_ ← ok_or (checked_add U64_MOD (re_output_offset extent) (re_len extent))
    (InvalidArgument "read plan extent overflows");
  reject_if (logical_len <? end_) (Corrupt "read plan extent exceeds logical output length");;
  reject_if (re_output_offset extent <? cursor)
    (Corrupt "read plan contains overlapping non-zero extents");;
  let gap := if cursor <? re_output_offset extent
    then [mkReadExtent cursor (wsub64 (re_output_offset extent) cursor) RsZero] else [] in
  Ok (out ++ gap ++ [extent], end_).

Definition from_non_zero_extents (logical_len : Z) (extents : list ReadExtent) : Result ReadPlan :=
  acc ← try_fold (plan_step logical_len) ([], 0) (sort_by_key re_output_offset extents);
  let '(out, cursor) := acc in
  let tail := if cursor <? logical_len
    then [mkReadExtent cursor (wsub64 logical_len cursor) RsZero] else [] in
  Ok (mkReadPlan logical_len (out ++ tail)).

(** ** The storage side *)

Class StorageNodeReadService (S : Type) := {
  read_segment_source : S -> StorageNodeId -> SegmentId -> ByteRange -> SegmentPayloadIntegrity ->
    ReadVerification -> list Z -> Result (list Z);
  read_append_run_source : S -> StorageNodeId -> Z -> ByteRange -> SegmentPayloadIntegrity ->
    ReadVerification -> list Z -> Result (list Z);
}.

(** [read_output_slice]: the part of the output that an extent fills.  Offsets
    and lengths are 64-bit, as [usize] is. *)
Definition read_output_slice (buf : list Z) (output_offset len : Z) : Result (list Z) :=
  end_ ← ok_or (checked_add U64_MOD output_offset len)
    (InvalidArgument "read output end overflows usize");
  reject_if (Z.of_nat (length buf) <? end_) (Corrupt "read plan output range exceeds buffer");;
  Ok (slice buf output_offset len).

Section assemble.
Context {S : Type} {SR : StorageNodeReadService S}.

Definition read_extent (storage : S) (verification : ReadVerification) (buf : list Z)
    (extent : ReadExtent) : Result (list Z) :=
  match re_source extent with
  | RsZero => Ok buf
  | RsSegment storage_node segment_id segment_offset integrity =>
      output ← read_output_slice buf (re_output_offset extent) (re_len extent);
      bytes ← read_segment_source storage storage_node segment_id
        (mkByteRange segment_offset (re_len extent)) integrity verification output;
      Ok (splice buf (re_output_offset extent) bytes)
  | RsAppendRun storage_node log_id payload_offset integrity =>
      output ← read_output_slice buf (re_output_offset extent) (re_len extent);
      bytes ← read_append_run_source storage storage_node log_id
        (mkByteRange payload_offset (re_len extent)) integrity verification output;
      Ok (splice buf (re_output_offset extent) bytes)
  end.

Definition assemble_read_plan (storage : S) (plan : ReadPlan) (verification : ReadVerification)
    (buf : list Z) : Result (list Z) :=
  buf_len ← len_u64 buf (InvalidArgument "read buffer length overflows u64");
  reject_if (negb (buf_len =? rpl_logical_len plan))
    (InvalidArgument "read buffer length must match read plan length");;
  try_fold (read_extent storage verification) (zeros buf_len) (rpl_extents plan).
End assemble.

(** ** The coordinator as the storage side *)

Section coordinator_reads.
Context {CR : Crc32cCrate}.

Definition read_append_run_source_from_memory (c : LocalCoordinator) (storage_node : StorageNodeId)
    (log_id : Z) (range : ByteRange) (integrity : SegmentPayloadIntegrity)
    (verification : ReadVerification) (buf : list Z) : Result (list Z) :=
  verify_read_integrity_policy integrity verification;;
  log ← ok_or (co_append_run_logs c !! (storage_node, log_id))
    (Corrupt "append-run log is missing from local store");
  end_ ← ok_or (checked_add U64_MOD (br_offset range) (br_len range))
    (Corrupt "append-run range overflows");
  reject_if (Z.of_nat (length log) <? end_) (Corrupt "append-run range exceeds local log");;
  let bytes := slice log (br_offset range) (br_len range) in
  reject_if (negb (bool_decide (length bytes = length buf)))
    (Corrupt "append-run read length disagrees with output buffer");;
  (if negb (bool_decide (verification = RvSkip)) && negb (bool_decide (integrity = SpUnchecked))
   then verify_segment_payload_integrity integrity bytes else Ok tt);;
  Ok bytes.

#[export] Instance coordinator_read_service : StorageNodeReadService LocalCoordinator := {|
  read_segment_source c storage_node segment_id range integrity verification buf :=
    read_segment_from_node (co_storage_nodes c) storage_node segment_id range integrity
      verification buf;
  read_append_run_source := read_append_run_source_from_memory;
|}.

(** ** Resolving a read *)

(** [collect_segment_entry_read_extent] *)
Definition collect_segment_entry_read_extent (c : LocalCoordinator) (entry : LeafEntry)
    (requested_bytes : ByteRange) (block_size : Z) : Result (list ReadExtent) :=
  entry_start ← ok_or (checked_mul U64_MOD (le_logical_start entry) block_size)
    (InvalidArgument "entry byte start overflows");
  entry_len ← ok_or (checked_mul U64_MOD (le_blocks entry) block_size)
    (InvalidArgument "entry byte length overflows");
  overlap ← byte_range_intersection (mkByteRange entry_start entry_len) requested_bytes;
  match overlap with
  | None => Ok []
  | Some overlap =>
      segment_start ← ok_or (checked_mul U64_MOD (le_segment_offset entry) block_size)
        (InvalidArgument "segment byte start overflows");
      segment_offset ← ok_or (checked_add U64_MOD segment_start
          (wsub64 (br_offset overlap) entry_start))
        (InvalidArgument "segment read offset overflows");
      output_offset ← ok_or (checked_sub (br_offset overlap) (br_offset requested_bytes))
        (Corrupt "read extent precedes requested range");
      receipt ← Registry_receipt_for_segment (co_storage_nodes c) (le_segment_id entry);
      verified ← verify_segment_receipt receipt;
      let descriptor := vr_descriptor verified in
      segment_end ← ok_or (checked_add U64_MOD segment_offset (br_len overlap))
        (InvalidArgument "segment read end overflows");
      reject_if (sd_bytes descriptor <? segment_end)
        (Corrupt "metadata read extent exceeds segment descriptor");;
      Ok [mkReadExtent output_offset (br_len overlap)
        (RsSegment (sr_storage_node (vr_receipt verified)) (le_segment_id entry) segment_offset
          (sd_integrity descriptor))]
  end.

(** The walk of [collect_*_read_extents_for_metadata_node]: [leaf] collects
    from a leaf. *)
Fixpoint collect_read_extents (fuel : nat) (c : LocalCoordinator) (requested_blocks : BlockRange)
    (leaf : list LeafEntry -> list RunBackedFileExtent -> Result (list ReadExtent))
    (node : MetadataNode) : Result (list ReadExtent) :=
  match fuel with
  | O => Err (Unsupported "metadata tree recursion depth")
  | S fuel =>
      match mn_kind node with
      | Leaf entries run_extents => leaf entries run_extents
      | Internal children =>
          parts ← try_map (fun child =>
              ov ← BlockRange_overlaps (mc_range child) requested_blocks;
              if (ov : bool) then
                child_node ← get_metadata_node (co_metadata c) (mc_node_id child);
                collect_read_extents fuel c requested_blocks leaf child_node
              else Ok []) children;
          Ok (concat parts)
      end
  end.

Definition collect_segment_read_extents (c : LocalCoordinator) (node : MetadataNode)
    (requested_blocks : BlockRange) (requested_bytes : ByteRange) (block_size : Z)
    : Result (list ReadExtent) :=
  collect_read_extents (node_fuel node) c requested_blocks (fun entries _ =>
    parts ← try_map (fun entry => collect_segment_entry_read_extent c entry requested_bytes block_size)
      entries;
    Ok (concat parts)) node.

(** [collect_append_run_read_extent] *)
Definition collect_append_run_read_extent (extent : RunBackedFileExtent) (requested_bytes : ByteRange)
    : Result (list ReadExtent) :=
  overlap ← byte_range_intersection
    (mkByteRange (rx_file_offset_start extent) (rx_payload_len extent)) requested_bytes;
  match overlap with
  | None => Ok []
  | Some overlap =>
      end_ ← ByteRange_end_exclusive overlap;
      sliced ← slice_run_extent extent (br_offset overlap) end_;
      match sliced with
      | None => Ok []
      | Some sliced =>
          Ok [mkReadExtent (wsub64 (rx_file_offset_start sliced) (br_offset requested_bytes))
            (rx_payload_len sliced)
            (RsAppendRun (rr_storage_node (rx_run sliced)) (rr_log_id (rx_run sliced))
              (rr_log_payload_offset (rx_run sliced)) (rr_integrity (rx_run sliced)))]
      end
  end.

Definition collect_append_run_read_extents (c : LocalCoordinator) (node : MetadataNode)
    (requested_blocks : BlockRange) (requested_bytes : ByteRange) : Result (list ReadExtent) :=
  collect_read_extents (node_fuel node) c requested_blocks (fun _ run_extents =>
    parts ← try_map (fun extent => collect_append_run_read_extent extent requested_bytes) run_extents;
    Ok (concat parts)) node.

(** [slice_read_extent] *)
Definition slice_read_extent (extent : ReadExtent) (output_offset len : Z) : Result ReadExtent :=
  reject_if (len =? 0) (InvalidArgument "read extent slice must not be empty");;
  delta ← ok_or (checked_sub output_offset (re_output_offset extent))
    (Corrupt "read extent slice precedes source extent");
  source ← match re_source extent with
    | RsZero => Ok RsZero
    | RsSegment storage_node segment_id segment_offset integrity =>
        segment_offset ← ok_or (checked_add U64_MOD segment_offset delta)
          (Corrupt "segment read extent slice offset overflows");
        Ok (RsSegment storage_node segment_id segment_offset integrity)
    | RsAppendRun storage_node log_id payload_offset integrity =>
        payload_offset ← ok_or (checked_add U64_MOD payload_offset delta)
          (Corrupt "append-run read extent slice offset overflows");
        Ok (RsAppendRun storage_node log_id payload_offset integrity)
    end;
  Ok (mkReadExtent output_offset len source).

(** What remains of a segment extent beside an append run. *)
Definition trim_piece (run_start run_end : Z) (piece : ReadExtent) : Result (list ReadExtent) :=
  let piece_start := re_output_offset piece in
  piece_end ← ok_or (checked_add U64_MOD piece_start (re_len piece))
    (Corrupt "segment read extent overflows");
  let overlap_start := Z.max piece_start run_start in
  let overlap_end := Z.min piece_end run_end in
  if overlap_end <=? overlap_start then Ok [piece]
  else
    left ← (if piece_start <? overlap_start
      then e ← slice_read_extent piece piece_start (wsub64 overlap_start piece_start); Ok [e]
      else Ok []);
    right ← (if overlap_end <? piece_end
      then e ← slice_read_extent piece overlap_end (wsub64 piece_end overlap_end); Ok [e]
      else Ok []);
    Ok (left ++ right).

(** The loop over the runs; [break] when nothing is left. *)
Fixpoint trim_pieces (runs pieces : list ReadExtent) : Result (list ReadExtent) :=
  match runs with
  | [] => Ok pieces
  | run :: runs =>
      run_end ← ok_or (checked_add U64_MOD (re_output_offset run) (re_len run))
        (Corrupt "append-run read extent overflows");
      next ← try_map (trim_piece (re_output_offset run) run_end) pieces;
      let pieces := concat next in
      if bool_decide (pieces = []) then Ok [] else trim_pieces runs pieces
  end.

Definition trim_segment_read_extents_for_append_runs (segment_extents run_extents : list ReadExtent)
    : Result (list ReadExtent) :=
  parts ← try_map (fun segment => trim_pieces run_extents [segment]) segment_extents;
  Ok (concat parts).

(** [resolve_block_read_plan] *)
Definition resolve_block_read_plan (c : LocalCoordinator) (device_id : DeviceId) (range : ByteRange)
    : Result ReadPlan :=
  info ← device_info (co_metadata c) device_id;
  ByteRange_validate_for_device range (di_spec info);;
  if br_len range =? 0 then from_non_zero_extents 0 []
  else
    let block_size := ds_block_size (di_spec info) in
    let requested := mkBlockRange (br_offset range / block_size) (br_len range / block_size) in
    head ← get_head (co_metadata c) device_id;
    parts ← try_map (fun root =>
        node ← get_metadata_node (co_metadata c) root;
        ov ← BlockRange_overlaps (mn_covered_range node) requested;
        if (ov : bool) then collect_segment_read_extents c node requested range block_size
        else Ok []) (dh_shard_roots head);
    from_non_zero_extents (br_len range) (concat parts).

(** [resolve_file_read_plan] *)
Definition resolve_file_read_plan (config : LocalStoreConfig) (c : LocalCoordinator)
    (keyspace_id : KeyspaceId) (file_id : FileId) (range : ByteRange) : Result ReadPlan :=
  head ← file_head_locked (co_metadata c) keyspace_id file_id;
  end_ ← ByteRange_end_exclusive range;
  reject_if (fh_size head <? end_) (InvalidArgument "native file read extends past end of file");;
  if br_len range =? 0 then
    get_metadata_node (co_metadata c) (fh_root head);;
    from_non_zero_extents 0 []
  else
    let block_size := cfg_block_size config in
    let first_block := br_offset range / block_size in
    requested_start ← ok_or (checked_mul U64_MOD first_block block_size)
      (InvalidArgument "native read range overflows");
    requested_blocks ← blocks_for_bytes (wsub64 end_ requested_start) block_size;
    let requested := mkBlockRange first_block requested_blocks in
    root ← get_metadata_node (co_metadata c) (fh_root head);
    segment_extents ← collect_segment_read_extents c root requested range block_size;
    run_extents ← collect_append_run_read_extents c root requested range;
    extents ← trim_segment_read_extents_for_append_runs segment_extents run_extents;
    from_non_zero_extents (br_len range) (extents ++ run_extents).

(** [read_device_with_verification] and [read_file_with_verification]; the
    buffer is returned. *)
Definition read_device (c : LocalCoordinator) (device_id : DeviceId) (range : ByteRange)
    (buf : list Z) (verification : ReadVerification) : Result (list Z) :=
  plan ← resolve_block_read_plan c device_id range;
  assemble_read_plan c plan verification buf.
Definition read_file (config : LocalStoreConfig) (c : LocalCoordinator) (keyspace_id : KeyspaceId)
    (file_id : FileId) (range : ByteRange) (buf : list Z) (verification : ReadVerification)
    : Result (list Z) :=
  plan ← resolve_file_read_plan config c keyspace_id file_id range;
  assemble_read_plan c plan verification buf.
End coordinator_reads.
