(* ===== verification/ReadSpec.v ===== *)
(** * What a read returns

    A read plan tiles the output, and its assembly fills every byte from the
    extent that covers it, or with zero.  The plan of a device read covers
    exactly the mapped blocks, so that the read returns the contents of the
    device: the payload bytes its shard trees point to, and zero elsewhere.  A
    read that insists on verified payloads fails exactly when a byte in its range
    was written without a checksum. *)

From S2P Require Import Prelude Intervals Api Object TreeEdit Provider Authority Config Catalog.
From S2P Require Import SegmentStore StorageNode Streams Plane Coordinator SegmentPool CowTree.
From S2P Require Import CowSpec Trees ReadPath.

(** ** Cells *)

(** A byte of a device, and whether its payload was written to be verified. *)
Abbreviation cell := (Z * PayloadIntegrity)%type (only parsing).

(** What was never written is zero, and nothing of it can fail to verify. *)
Definition blank : cell := (0, Verified).

(** The cells a read accepts. *)
Definition readable (v : ReadVerification) (l : list cell) : bool := forallb (fun x => accepts v x.2) l.

Lemma readable_elem v l : readable v l = true <-> forall x, x ∈ l -> accepts v x.2 = true.
Proof. unfold readable. rewrite forallb_forall. by setoid_rewrite <-list_elem_of_In. Qed.

Lemma unreadable_elem v l : readable v l = false -> exists x, x ∈ l /\ accepts v x.2 = false.
Proof.
  induction l as [|x l IH]; [done|]. cbn. intros [Hx|Hl]%andb_false_iff.
  - exists x. split; [by left|done].
  - destruct (IH Hl) as (y & Hy & Hacc). exists y. split; [by right|done].
Qed.

Lemma accepts_blank v : accepts v blank.2 = true.
Proof. by destruct v. Qed.

(** ** Assembly *)

Definition re_end (x : ReadExtent) : Z := re_output_offset x + re_len x.

Section assembly.
Context {S : Type} {SR : StorageNodeReadService S} (storage : S) (v : ReadVerification).

(** The read of an extent into a buffer. *)
Definition source_read (x : ReadExtent) (buf : list Z) : Result (list Z) :=
  match re_source x with
  | RsZero => Ok buf
  | RsSegment node id offset integrity =>
      read_segment_source storage node id (mkByteRange offset (re_len x)) integrity v buf
  | RsAppendRun node log offset integrity =>
      read_append_run_source storage node log (mkByteRange offset (re_len x)) integrity v buf
  end.

(** The cells of an extent. *)
Definition extent_cells (want : Z -> cell) (x : ReadExtent) : list cell :=
  want <$> seqZ (re_output_offset x) (re_len x).

(** The storage side delivers the bytes of the cells [want] for an extent, or
    refuses them. *)
Definition delivers (want : Z -> cell) (x : ReadExtent) : Prop :=
  forall buf, Z.of_nat (length buf) = re_len x ->
    if readable v (extent_cells want x) then source_read x buf = Ok (extent_cells want x).*1
    else exists e, source_read x buf = Err e.

Lemma delivers_ext want want' x :
  (forall p, re_output_offset x <= p < re_end x -> want' p = want p) -> delivers want x -> delivers want' x.
Proof.
  intros Heq Hd buf Hb. specialize (Hd buf Hb).
  assert (Hl : extent_cells want' x = extent_cells want x).
  { apply list_fmap_ext. intros i p [-> Hi]%lookup_seqZ. apply Heq. unfold re_end. lia. }
  by rewrite Hl.
Qed.

Lemma read_extent_source L b x :
  Z.of_nat (length b) = L -> in_u64 L -> 0 <= re_output_offset x -> 0 <= re_len x -> re_end x <= L ->
  re_source x <> RsZero -> exists buf, Z.of_nat (length buf) = re_len x /\
    read_extent storage v b x =
      match source_read x buf with Ok out => Ok (splice b (re_output_offset x) out) | Err e => Err e end.
Proof.
  intros Hlen Hu H0 H1 H2 Hz. unfold re_end, in_u64 in *.
  assert (Hs : read_output_slice b (re_output_offset x) (re_len x) = Ok (slice b (re_output_offset x) (re_len x))).
  { unfold read_output_slice. rewrite checked_add_ok by lia. cbn [ok_or mbind Result_bind]. by ztest. }
  exists (slice b (re_output_offset x) (re_len x)). split; [apply slice_length; lia|].
  unfold read_extent, source_read. destruct (re_source x); [done|..]; by rewrite Hs; cbn [mbind Result_bind].
Qed.

Lemma read_extent_run want L b x :
  Z.of_nat (length b) = L -> in_u64 L -> 0 <= re_output_offset x -> 0 <= re_len x -> re_end x <= L ->
  re_source x <> RsZero -> delivers want x ->
  if readable v (extent_cells want x)
  then read_extent storage v b x = Ok (splice b (re_output_offset x) (extent_cells want x).*1)
  else exists e, read_extent storage v b x = Err e.
Proof.
  intros Hlen Hu H0 H1 H2 Hz Hd. destruct (read_extent_source L b x) as (buf & Hb & ->); [done..|].
  specialize (Hd buf Hb). destruct (readable v _); [by rewrite Hd|]. destruct Hd as [e ->]. by exists e.
Qed.

(** What is left to fill when the extents [xs] remain. *)
Definition filled (want : Z -> cell) (L : Z) (xs : list ReadExtent) (b : list Z) : Prop :=
  Z.of_nat (length b) = L /\
  forall p, 0 <= p < L -> b !! Z.to_nat p = Some (want p).1 \/
    exists x, x ∈ xs /\ re_source x <> RsZero /\ re_output_offset x <= p < re_end x.

Lemma fill_extent want L x xs b :
  in_u64 L -> 0 <= re_output_offset x -> 0 <= re_len x -> re_end x <= L ->
  (re_source x <> RsZero -> delivers want x) -> readable v (extent_cells want x) = true -> filled want L (x :: xs) b ->
  exists b', read_extent storage v b x = Ok b' /\ filled want L xs b'.
Proof.
  intros Hu H0 H1 H2 Hd Hacc [Hlen Hf].
  assert (Hdec : re_source x = RsZero \/ re_source x <> RsZero) by (destruct (re_source x); auto).
  destruct Hdec as [Hz|Hnz].
  { exists b. split; [by unfold read_extent; rewrite Hz|]. split; [done|]. intros p Hp.
    destruct (Hf p Hp) as [?|(y & [->|Hy]%elem_of_cons & ? & ?)]; [by left|done|right; eauto]. }
  pose proof (read_extent_run want L b x Hlen Hu H0 H1 H2 Hnz (Hd Hnz)) as Hrun. rewrite Hacc in Hrun.
  eexists. split; [exact Hrun|]. set (src := (extent_cells want x).*1).
  assert (Hsrc : Z.of_nat (length src) = re_len x) by (unfold src, extent_cells; rewrite !length_fmap, length_seqZ; lia).
  unfold re_end in H2. split; [by rewrite splice_length by lia|]. intros p Hp.
  destruct (decide (re_output_offset x <= p < re_end x)) as [Hin|Hout]; unfold re_end in *.
  - left. rewrite splice_lookup_in by lia. unfold src, extent_cells. rewrite !list_lookup_fmap, lookup_seqZ_lt by lia.
    cbn. do 3 f_equal. lia.
  - rewrite splice_lookup_out by lia.
    destruct (Hf p Hp) as [?|(y & [->|Hy]%elem_of_cons & ? & ?)]; [by left|done|right; eauto].
Qed.

(** An extent of a plan. *)
Definition extent_in (want : Z -> cell) (L : Z) (x : ReadExtent) : Prop :=
  0 <= re_output_offset x /\ 0 <= re_len x /\ re_end x <= L /\ (re_source x <> RsZero -> delivers want x).

Lemma fill_extents want L xs b :
  in_u64 L -> Forall (extent_in want L) xs -> Forall (fun x => readable v (extent_cells want x) = true) xs ->
  filled want L xs b ->
  exists b', try_fold (read_extent storage v) b xs = Ok b' /\ filled want L [] b'.
Proof.
  intros Hu Hok Hacc. revert b. induction xs as [|x xs IH]; intros b Hf; [by exists b|].
  apply Forall_cons in Hok as [(H0 & H1 & H2 & Hd) Hok]. apply Forall_cons in Hacc as [Hx Hacc].
  destruct (fill_extent want L x xs b) as (b1 & Hb1 & Hf1); [done..|]. cbn [try_fold]. rewrite Hb1. by apply IH.
Qed.

(** One extent that is refused fails the whole read. *)
Lemma refuse_extents want L xs b x :
  in_u64 L -> Forall (extent_in want L) xs -> Z.of_nat (length b) = L ->
  x ∈ xs -> re_source x <> RsZero -> readable v (extent_cells want x) = false ->
  exists e, try_fold (read_extent storage v) b xs = Err e.
Proof.
  intros Hu Hok Hlen Hx Hz Hacc. revert b Hlen. induction xs as [|y xs IH]; intros b Hlen; [by apply not_elem_of_nil in Hx|].
  apply Forall_cons in Hok as [(H0 & H1 & H2 & Hd) Hok]. cbn [try_fold].
  assert (Hstep : (exists e, read_extent storage v b y = Err e) \/
    exists b', read_extent storage v b y = Ok b' /\ Z.of_nat (length b') = L /\ y <> x).
  { assert (Hdec : re_source y = RsZero \/ re_source y <> RsZero) by (destruct (re_source y); auto).
    destruct Hdec as [Hy|Hy].
    - right. exists b. split_and!; [by unfold read_extent; rewrite Hy|done|congruence].
    - pose proof (read_extent_run want L b y Hlen Hu H0 H1 H2 Hy (Hd Hy)) as Hrun.
      destruct (readable v (extent_cells want y)) eqn:Hr; [right|by left]. eexists. split_and!; [exact Hrun| |congruence].
      unfold re_end in H2. rewrite splice_length; [done|done|]. unfold extent_cells. rewrite !length_fmap, length_seqZ. lia. }
  destruct Hstep as [[e He]|(b' & Hb' & Hlen' & Hne)]; [rewrite He; by exists e|]. rewrite Hb'. cbn [mbind Result_bind].
  apply elem_of_cons in Hx as [->|Hx]; [done|]. by apply IH.
Qed.

(** The output is [want], when every extent delivers it and it is blank where no
    extent is; or the read fails, when a cell is not acceptable. *)
Lemma assemble_ok want plan buf :
  let L := rpl_logical_len plan in
  in_u64 L -> Z.of_nat (length buf) = L -> Forall (extent_in want L) (rpl_extents plan) ->
  (forall p, 0 <= p < L -> want p = blank \/
    exists x, x ∈ rpl_extents plan /\ re_source x <> RsZero /\ re_output_offset x <= p < re_end x) ->
  if readable v (want <$> seqZ 0 L) then assemble_read_plan storage plan v buf = Ok (want <$> seqZ 0 L).*1
  else exists e, assemble_read_plan storage plan v buf = Err e.
Proof.
  intros L Hu Hbuf Hxs Hcov. unfold assemble_read_plan.
  assert (Hl : len_u64 buf (InvalidArgument "read buffer length overflows u64") = Ok L) by (by apply len_u64_Ok).
  rewrite Hl. cbn [mbind Result_bind]. fold L. rewrite Z.eqb_refl. cbn [negb reject_if mbind Result_bind].
  assert (Hz : Z.of_nat (length (zeros L)) = L) by (unfold in_u64 in Hu; unfold zeros; rewrite length_replicate; lia).
  destruct (readable v _) eqn:Hr.
  - rewrite readable_elem in Hr.
    destruct (fill_extents want L (rpl_extents plan) (zeros L) Hu Hxs) as (b & -> & Hlen & Hb).
    { rewrite Forall_forall in Hxs |- *. intros x Hx. apply readable_elem. intros w Hw.
      apply list_elem_of_fmap in Hw as (p & -> & Hp%elem_of_seqZ). destruct (Hxs x Hx) as (? & ? & ? & _).
      apply Hr, list_elem_of_fmap. exists p. split; [done|]. apply elem_of_seqZ. unfold re_end in *. lia. }
    { split; [done|]. intros p Hp. destruct (Hcov p Hp) as [-> |?]; [left|by right]. apply lookup_replicate_2. lia. }
    f_equal. apply list_eq. intros i. destruct (decide (Z.of_nat i < L)) as [Hi|Hi].
    + destruct (Hb (Z.of_nat i) ltac:(lia)) as [Hbi|(x & ?%not_elem_of_nil & _)]; [|done].
      rewrite Nat2Z.id in Hbi. rewrite Hbi, !list_lookup_fmap, lookup_seqZ_lt by lia. done.
    + rewrite !lookup_ge_None_2; [done|rewrite !length_fmap, length_seqZ; lia|lia].
  - apply unreadable_elem in Hr as (w & (p & -> & Hp%elem_of_seqZ)%list_elem_of_fmap & Hacc).
    destruct (Hcov p ltac:(lia)) as [Hb|(x & Hx & Hnz & Hpx)]; [by rewrite Hb, accepts_blank in Hacc|].
    eapply (refuse_extents want L _ _ x); [done..|]. apply not_true_is_false. rewrite readable_elem. intros Hall.
    rewrite Hall in Hacc; [done|]. apply list_elem_of_fmap. exists p. split; [done|]. apply elem_of_seqZ. unfold re_end in *. lia.
Qed.
End assembly.

(** ** Plans *)

(** The extents of a plan: those given, and zeros inside the output. *)
Definition plan_of (L : Z) (xs es : list ReadExtent) : Prop :=
  xs ⊆ es /\ forall x, x ∈ es -> x ∈ xs \/
    (re_source x = RsZero /\ 0 <= re_output_offset x /\ 0 <= re_len x /\ re_end x <= L).

Definition plan_gap (cursor : Z) (x : ReadExtent) : list ReadExtent :=
  if cursor <? re_output_offset x
  then [mkReadExtent cursor (wsub64 (re_output_offset x) cursor) RsZero] else [].

Lemma plan_step_run L out cursor x :
  in_u64 L -> 0 <= cursor <= re_output_offset x -> 0 < re_len x -> re_end x <= L ->
  plan_step L (out, cursor) x = Ok (out ++ plan_gap cursor x ++ [x], re_end x) /\
  forall y, y ∈ plan_gap cursor x ->
    re_source y = RsZero /\ 0 <= re_output_offset y /\ 0 <= re_len y /\ re_end y <= L.
Proof.
  unfold re_end, in_u64. intros Hu Hc Hx Hhi. split.
  - unfold plan_step. ztest. cbn [reject_if mbind Result_bind]. rewrite checked_add_ok by lia.
    cbn [ok_or mbind Result_bind]. by ztest.
  - intros y. unfold plan_gap. destruct (cursor <? re_output_offset x) eqn:Hlt; [|by intros ?%not_elem_of_nil].
    intros ->%list_elem_of_singleton. cbn. bool_prop. rewrite wsub64_exact by (u64_unfold; lia). split_and!; [done|lia..].
Qed.

Lemma plan_fold L xs out cursor :
  in_u64 L -> 0 <= cursor <= L -> iv_sorted re_output_offset re_end xs ->
  Forall (fun x => cursor <= re_output_offset x /\ re_end x <= L) xs ->
  exists es cursor', try_fold (plan_step L) (out, cursor) xs = Ok (out ++ es, cursor') /\
    0 <= cursor' <= L /\ plan_of L xs es.
Proof.
  intros Hu. revert out cursor. induction xs as [|x xs IH]; intros out cursor Hc [Hs Hne] Hin; cbn [try_fold].
  { exists [], cursor. rewrite app_nil_r. split_and!; [done|lia|lia|]. split; [done|]. by intros ? ?%not_elem_of_nil. }
  apply StronglySorted_inv in Hs as [Hs Hafter]. apply Forall_cons in Hne as [Hx Hne].
  apply Forall_cons in Hin as [[Hlo Hhi] Hin]. unfold iv_nonempty in Hx. unfold re_end in Hx, Hhi.
  destruct (plan_step_run L out cursor x) as [-> Hgap]; [done|unfold re_end; lia..|].
  cbn [mbind Result_bind]. set (gap := plan_gap cursor x) in *.
  destruct (IH (out ++ gap ++ [x]) (re_end x)) as (es & cursor' & Hrun & Hc' & Hsub & Hes); [unfold re_end; lia|done| |].
  { apply Forall_forall. intros y Hy. rewrite Forall_forall in Hafter, Hin. split; [by apply Hafter|by apply Hin]. }
  exists (gap ++ [x] ++ es), cursor'. rewrite Hrun, <-!app_assoc. split_and!; [done|lia|lia|]. split.
  - intros y [->|Hy]%elem_of_cons; rewrite !elem_of_app, list_elem_of_singleton; [by auto|]. right. right. by apply Hsub.
  - intros y [Hy|[->%list_elem_of_singleton|Hy]%elem_of_app]%elem_of_app.
    + right. by apply Hgap.
    + left. by left.
    + destruct (Hes y Hy) as [?|?]; [left; by right|by right].
Qed.

Lemma plan_ok L xs :
  in_u64 L -> iv_apart re_output_offset re_end xs ->
  Forall (fun x => 0 <= re_output_offset x /\ re_end x <= L) xs ->
  exists es, from_non_zero_extents L xs = Ok (mkReadPlan L es) /\ plan_of L xs es.
Proof.
  intros Hu Ha Hin. unfold from_non_zero_extents.
  pose proof (sort_by_key_perm re_output_offset xs) as Hp.
  destruct (plan_fold L (sort_by_key re_output_offset xs) [] 0) as (es & cursor & -> & Hc & Hsub & Hes);
    [done|unfold in_u64 in Hu; lia|by apply iv_apart_sort|by rewrite Hp|].
  cbn [mbind Result_bind app]. eexists. split; [reflexivity|]. split.
  - intros x Hx. apply elem_of_app. left. apply Hsub. by rewrite Hp.
  - intros x [Hx|Hx]%elem_of_app.
    + destruct (Hes x Hx) as [Hxs|?]; [left; by rewrite <-Hp|by right].
    + right. destruct (cursor <? L) eqn:Hlt; [|by apply not_elem_of_nil in Hx].
      apply list_elem_of_singleton in Hx as ->. unfold re_end, in_u64 in *. cbn. bool_prop.
      rewrite wsub64_exact by (u64_unfold; lia). split_and!; [done|lia..].
Qed.

(** A plan of delivering extents that cover what is not blank is read back. *)
Lemma plan_read {S} {SR : StorageNodeReadService S} (storage : S) v want L xs buf :
  in_u64 L -> Z.of_nat (length buf) = L -> iv_apart re_output_offset re_end xs ->
  Forall (fun x => 0 <= re_output_offset x /\ re_end x <= L /\ re_source x <> RsZero /\ delivers storage v want x) xs ->
  (forall p, 0 <= p < L -> want p = blank \/ exists x, x ∈ xs /\ re_output_offset x <= p < re_end x) ->
  let read := plan ← from_non_zero_extents L xs; assemble_read_plan storage plan v buf in
  if readable v (want <$> seqZ 0 L) then read = Ok (want <$> seqZ 0 L).*1 else exists e, read = Err e.
Proof.
  intros Hu Hlen Ha Hxs Hcov read. unfold read. rewrite Forall_forall in Hxs. pose proof Ha as [_ Hne]. rewrite Forall_forall in Hne.
  destruct (plan_ok L xs Hu Ha) as (es & -> & Hsub & Hes).
  { apply Forall_forall. intros x Hx. by destruct (Hxs x Hx) as (? & ? & _). }
  cbn [mbind Result_bind]. apply (assemble_ok storage v want (mkReadPlan L es)); cbn [rpl_logical_len rpl_extents]; [done|done| |].
  - apply Forall_forall. intros x Hx. destruct (Hes x Hx) as [Hx'|(? & ? & ? & ?)]; [|by split_and!].
    destruct (Hxs x Hx') as (? & ? & ? & ?). specialize (Hne x Hx'). unfold extent_in, iv_nonempty, re_end in *. split_and!; [lia..|done].
  - intros p Hp. destruct (Hcov p Hp) as [?|(x & Hx & ?)]; [by left|right]. exists x.
    destruct (Hxs x Hx) as (_ & _ & ? & _). split_and!; [by apply Hsub|done|lia..].
Qed.

(** ** The cells of a device *)

(** The cell at an offset of a mapped block. *)
Definition location_cell (bs : Z) (self : StorageNodeRegistry) (loc : option (SegmentId * BlockIndex)) (off : Z) : cell :=
  match loc with
  | None => blank
  | Some (id, k) =>
      match segment_payload self id with
      | Some bytes => (default 0 (bytes !! Z.to_nat (k * bs + off)), segment_mode self id)
      | None => blank
      end
  end.

Definition block_cell (bs : Z) (self : StorageNodeRegistry) (B : Z -> option (SegmentId * BlockIndex)) (y : Z) : cell :=
  location_cell bs self (B (y / bs)) (y mod bs).

(** The size in blocks of the payload of a segment. *)
Definition segment_size (bs : Z) (self : StorageNodeRegistry) (id : SegmentId) : option Z :=
  (fun bytes => Z.of_nat (length bytes) / bs) <$> segment_payload self id.

Section collect.
Context {CR : Crc32cCrate} (bs : Z) (c : LocalCoordinator) (v : ReadVerification).
Local Abbreviation pool := (co_storage_nodes c).
Context (o n : Z).
Hypothesis Hbs : 0 < bs.
Hypothesis Hpool : pool_wf bs pool.
Hypothesis Hreq : 0 <= o /\ 0 <= n /\ o + n < U64_MOD.

(** The extents collected for the blocks from [a] to [b], mapped by [B]. *)
Record collected (a b : Z) (B : Z -> option (SegmentId * BlockIndex)) (xs : list ReadExtent) : Prop := {
  cl_apart : iv_apart re_output_offset re_end xs;
  cl_in : Forall (fun x => 0 <= re_output_offset x /\ re_end x <= n /\
    a * bs <= o + re_output_offset x /\ o + re_end x <= b * bs) xs;
  cl_reads : Forall (fun x => re_source x <> RsZero /\
    delivers c v (fun p => block_cell bs pool B (o + p)) x) xs;
  cl_cover : forall p, 0 <= p < n -> a * bs <= o + p < b * bs -> is_Some (B ((o + p) / bs)) ->
    exists x, x ∈ xs /\ re_output_offset x <= p < re_end x;
}.

Lemma collected_ext a b B B' xs :
  (forall k, a <= k < b -> B' k = B k) -> collected a b B xs -> collected a b B' xs.
Proof using Hbs.
  intros Heq [Ha Hi Hr Hc]. constructor; [done|done| |].
  - rewrite Forall_forall in Hi, Hr |- *. intros x Hx. destruct (Hr x Hx) as [? Hd]. split; [done|].
    eapply delivers_ext; [|exact Hd]. intros p Hp. destruct (Hi x Hx) as (_ & _ & H1 & H2).
    unfold block_cell. rewrite Heq; [done|]. apply byte_in_blocks; [done|]. unfold re_end in *. lia.
  - intros p Hp Hab. rewrite Heq by (by apply byte_in_blocks). by apply Hc.
Qed.

Lemma collected_none a b B :
  (forall k, a <= k < b -> B k = None) -> collected a b B [].
Proof using Hbs.
  intros HN. constructor; [apply iv_apart_nil|done|done|]. intros p Hp Hab [l Hl].
  rewrite HN in Hl; [done|]. by apply byte_in_blocks.
Qed.

Lemma collected_away a b B :
  Z.min (b * bs) (o + n) <= Z.max (a * bs) o -> collected a b B [].
Proof using Type.
  intros HN. constructor; [apply iv_apart_nil|done|done|]. intros p Hp Hab. lia.
Qed.

Lemma collected_app a m b B xs ys :
  a <= m <= b -> collected a m B xs -> collected m b B ys -> collected a b B (xs ++ ys).
Proof using Hbs.
  intros Hm [A1 I1 R1 C1] [A2 I2 R2 C2]. constructor.
  - apply iv_apart_app. split_and!; [done|done|]. intros x y Hx Hy. left.
    rewrite Forall_forall in I1, I2. pose proof (I1 x Hx). pose proof (I2 y Hy). unfold iv_before. lia.
  - rewrite Forall_app, !Forall_forall in *. split; intros x Hx;
      [destruct (I1 x Hx) as (? & ? & ? & ?)|destruct (I2 x Hx) as (? & ? & ? & ?)]; split_and!; nia.
  - by apply Forall_app.
  - intros p Hp Hab Hs. destruct (decide (o + p < m * bs)) as [Hlt|Hge].
    + destruct (C1 p Hp ltac:(lia) Hs) as (x & ? & ?). exists x. rewrite elem_of_app. auto.
    + destruct (C2 p Hp ltac:(lia) Hs) as (x & ? & ?). exists x. rewrite elem_of_app. auto.
Qed.

(** ** One entry *)

Lemma entry_read_byte e bytes y :
  segment_payload pool (le_segment_id e) = Some bytes -> 0 <= le_segment_offset e ->
  le_logical_start e * bs <= y < le_end e * bs ->
  (le_segment_offset e + le_blocks e) * bs <= Z.of_nat (length bytes) ->
  exists x, bytes !! Z.to_nat (le_segment_offset e * bs + (y - le_logical_start e * bs)) = Some x /\
    block_cell bs pool (entry_lookup e) y = (x, segment_mode pool (le_segment_id e)).
Proof using Hbs.
  intros Hp Hk Hy Hlen. pose proof (proj1 (byte_in_blocks bs _ _ y Hbs) Hy) as Hb.
  unfold block_cell. rewrite (proj2 (entry_lookup_Some e (y / bs) _) (conj Hb eq_refl)). unfold location_cell. rewrite Hp.
  pose proof (Z.div_mod y bs ltac:(lia)) as Hdm. pose proof (Z.mod_pos_bound y bs Hbs).
  replace ((le_segment_offset e + (y / bs - le_logical_start e)) * bs + y mod bs)
    with (le_segment_offset e * bs + (y - le_logical_start e * bs)) by lia.
  unfold le_end in Hy. destruct (lookup_lt_is_Some_2 bytes
    (Z.to_nat (le_segment_offset e * bs + (y - le_logical_start e * bs)))) as [x Hx]; [nia|].
  exists x. by rewrite Hx.
Qed.

(** An extent of one entry: its bytes, and which reads accept it. *)
Lemma extent_bytes e bytes p len :
  segment_payload pool (le_segment_id e) = Some bytes -> 0 <= le_segment_offset e -> 0 < len ->
  le_logical_start e * bs <= o + p /\ o + p + len <= le_end e * bs ->
  (le_segment_offset e + le_blocks e) * bs <= Z.of_nat (length bytes) ->
  slice bytes (le_segment_offset e * bs + (o + p - le_logical_start e * bs)) len =
    ((fun q => block_cell bs pool (entry_lookup e) (o + q)) <$> seqZ p len).*1.
Proof using Hbs.
  intros Hp Hk Hl Hin Hlen. apply list_eq. intros i. destruct (decide (Z.of_nat i < len)) as [Hi|Hi].
  - rewrite slice_lookup by nia. rewrite !list_lookup_fmap, lookup_seqZ_lt by lia. cbn [fmap option_fmap option_map].
    destruct (entry_read_byte e bytes (o + (p + Z.of_nat i))) as (x & Hx & ->); [done|done|lia|done|].
    cbn [fst]. rewrite <-Hx. f_equal. nia.
  - unfold le_end in Hin. rewrite !lookup_ge_None_2; [done|rewrite !length_fmap, length_seqZ; lia|].
    pose proof (slice_length bytes (le_segment_offset e * bs + (o + p - le_logical_start e * bs)) len ltac:(nia) ltac:(lia) ltac:(nia)). lia.
Qed.

Lemma extent_mode e bytes p len :
  segment_payload pool (le_segment_id e) = Some bytes -> 0 <= le_segment_offset e -> 0 < len ->
  le_logical_start e * bs <= o + p /\ o + p + len <= le_end e * bs ->
  (le_segment_offset e + le_blocks e) * bs <= Z.of_nat (length bytes) ->
  readable v ((fun q => block_cell bs pool (entry_lookup e) (o + q)) <$> seqZ p len) =
    accepts v (segment_mode pool (le_segment_id e)).
Proof using Hbs.
  intros Hp Hk Hl Hin Hlen.
  assert (Hall : forall q, p <= q < p + len ->
    (block_cell bs pool (entry_lookup e) (o + q)).2 = segment_mode pool (le_segment_id e)).
  { intros q Hq. by destruct (entry_read_byte e bytes (o + q)) as (x & _ & ->); [done|done|lia|done|]. }
  apply eq_true_iff_eq. rewrite readable_elem. split.
  - intros H. rewrite <-(Hall p) by lia. apply H, list_elem_of_fmap. exists p. split; [done|]. apply elem_of_seqZ. lia.
  - intros H x (q & -> & Hq%elem_of_seqZ)%list_elem_of_fmap. by rewrite Hall.
Qed.

Lemma entry_collected e bytes :
  segment_payload pool (le_segment_id e) = Some bytes -> wf_entry e -> le_end e * bs < U64_MOD ->
  (le_segment_offset e + le_blocks e) * bs <= Z.of_nat (length bytes) ->
  exists xs, collect_segment_entry_read_extent c e (mkByteRange o n) bs = Ok xs /\
    collected (le_logical_start e) (le_end e) (entry_lookup e) xs.
Proof using Hbs Hpool Hreq.
  intros Hpay (Hs & Hb & Hend & Hk & Hkb) Hov Hlen. unfold le_end in Hend, Hov.
  destruct (payload_receipt bs pool _ bytes Hpool Hpay) as (rc & Hrc & Hrok & _ & _ & Hu & _ & Hsb & _ & Hread).
  unfold in_u64 in Hu. unfold collect_segment_entry_read_extent.
  rewrite !checked_mul_ok by nia. cbn [ok_or mbind Result_bind].
  unfold byte_range_intersection, ByteRange_end_exclusive. cbn [br_offset br_len].
  rewrite !checked_add_ok by lia. cbn [ok_or mbind Result_bind].
  set (s := Z.max (le_logical_start e * bs) o). set (t := Z.min (le_logical_start e * bs + le_blocks e * bs) (o + n)).
  destruct (t <=? s) eqn:Hts; bool_prop.
  { exists []. split; [done|]. apply collected_away. unfold le_end. lia. }
  cbn [ok_or mbind Result_bind br_offset br_len].
  rewrite !wsub64_exact by (u64_unfold; lia). rewrite checked_add_ok by nia. cbn [ok_or mbind Result_bind].
  unfold checked_sub. replace (o <=? s) with true by (symmetry; apply Z.leb_le; lia). cbn [ok_or mbind Result_bind].
  rewrite Hrc. cbn [mbind Result_bind]. rewrite (proj2 (verify_segment_receipt_Ok rc _) (conj Hrok eq_refl)).
  cbn [mbind Result_bind vr_descriptor vr_receipt]. rewrite checked_add_ok by nia. cbn [ok_or mbind Result_bind].
  rewrite Hsb. replace (_ <? _) with false by (symmetry; apply Z.ltb_ge; nia). cbn [reject_if mbind Result_bind].
  eexists. split; [reflexivity|]. set (x := mkReadExtent _ _ _).
  assert (Hx : re_output_offset x = s - o /\ re_end x = t - o) by (unfold re_end; cbn; lia). destruct Hx as [Hx1 Hx2].
  constructor.
  - apply iv_apart_singleton. unfold iv_nonempty. lia.
  - apply Forall_singleton. unfold le_end. lia.
  - apply Forall_singleton. split; [done|]. intros buf Hbuf. unfold extent_cells, source_read.
    cbn [x re_source re_len re_output_offset read_segment_source coordinator_read_service].
    cbn [x re_len] in Hbuf. specialize (Hread (mkByteRange (le_segment_offset e * bs + (s - le_logical_start e * bs)) (t - s)) v buf).
    cbn [br_offset br_len] in Hread. specialize (Hread ltac:(nia) ltac:(lia) ltac:(nia) Hbuf).
    rewrite (extent_mode e bytes (s - o) (t - s)); [|done|done|lia|unfold le_end; lia|done].
    destruct (accepts v (segment_mode pool (le_segment_id e))); [|exact Hread]. etrans; [exact Hread|]. f_equal.
    replace (le_segment_offset e * bs + (s - le_logical_start e * bs))
      with (le_segment_offset e * bs + (o + (s - o) - le_logical_start e * bs)) by lia.
    apply (extent_bytes e); [done|done|lia|unfold le_end; lia|done].
  - intros p Hp Hab _. exists x. split; [by left|]. unfold le_end in Hab. lia.
Qed.

(** ** Leaves and trees *)

Definition entry_backed_by (e : LeafEntry) : Prop :=
  wf_entry e /\ le_end e * bs < U64_MOD /\
  exists bytes, segment_payload pool (le_segment_id e) = Some bytes /\
    (le_segment_offset e + le_blocks e) * bs <= Z.of_nat (length bytes).

Lemma entries_collected es a b :
  leaf_sorted es -> Forall entry_backed_by es -> a <= b ->
  Forall (fun e => a <= le_logical_start e /\ le_end e <= b) es ->
  exists parts, try_map (fun e => collect_segment_entry_read_extent c e (mkByteRange o n) bs) es = Ok parts /\
    collected a b (entries_lookup es) (concat parts).
Proof using Hbs Hpool Hreq.
  intros [Hs _] Hr. revert a. induction Hs as [|e es Hs IH Hafter]; intros a Hab Hin.
  { exists []. split; [done|]. by apply collected_none. }
  apply Forall_cons in Hr as [(Hwf & Hov & bytes & Hp & Hlen) Hr]. apply Forall_cons in Hin as [[Hlo Hhi] Hin].
  destruct (entry_collected e bytes Hp Hwf Hov Hlen) as (xs & Hxs & Hcol).
  destruct (IH Hr (le_end e) Hhi) as (parts & Hparts & Hrest).
  { rewrite Forall_forall in Hafter, Hin |- *. intros y Hy. split; [by apply Hafter|by apply Hin]. }
  exists (xs :: parts). split; [cbn [try_map]; by rewrite Hxs; cbn [mbind Result_bind]; rewrite Hparts|].
  cbn [concat]. destruct Hwf as (_ & Hb & _). rewrite <-(app_nil_l (xs ++ _)).
  assert (Hout : forall k, ~ (le_logical_start e <= k < le_end e) -> entry_lookup e k = None).
  { intros k Hk. destruct (entry_lookup e k) as [l|] eqn:He; [|done]. by apply entry_lookup_Some in He as [? _]. }
  apply (collected_app a (le_logical_start e)); [unfold le_end in *; lia| |apply (collected_app _ (le_end e)); [unfold le_end in *; lia|..]].
  - apply collected_none. intros k Hk. cbn. rewrite Hout by lia. apply first_at_None. intros y Hy.
    rewrite Forall_forall in Hafter. specialize (Hafter y Hy). unfold iv_before in Hafter.
    destruct (entry_lookup y k) as [l|] eqn:He; [|done]. apply entry_lookup_Some in He as [? _]. unfold le_end in *. lia.
  - eapply collected_ext; [|exact Hcol]. intros k Hk. cbn.
    by rewrite (proj2 (entry_lookup_Some e k _) (conj Hk eq_refl)).
  - eapply collected_ext; [|exact Hrest]. intros k Hk. cbn. by rewrite Hout by lia.
Qed.

Lemma leaf_collected r es xs :
  range_ok bs r -> leaf_ok bs (segment_size bs pool) r es xs ->
  exists parts, try_map (fun e => collect_segment_entry_read_extent c e (mkByteRange o n) bs) es = Ok parts /\
    collected (bk_start r) (bk_end r) (entries_lookup es) (concat parts).
Proof using Hbs Hpool Hreq.
  intros (_ & Hpos & Hov) Hl.
  assert (Hb : forall e, e ∈ es -> _) by exact (fun e => leaf_entry_bounds bs (segment_size bs pool) r es xs e Hl).
  apply entries_collected; [apply Hl| |unfold bk_end; lia|].
  - apply Forall_forall. intros e He. destruct (Hb e He) as (H1 & H2 & k & Hk & Hle).
    pose proof (lo_wf _ _ _ _ _ Hl) as Hwf. rewrite Forall_forall in Hwf. split; [by apply Hwf|]. split; [nia|].
    unfold segment_size in Hk. destruct (segment_payload _ _) as [bytes|]; [|done]. injection Hk as <-.
    exists bytes. split; [done|]. pose proof (Z.mul_div_le (Z.of_nat (length bytes)) bs Hbs). nia.
  - apply Forall_forall. intros e He. by destruct (Hb e He) as (? & ? & _).
Qed.

Context (q : BlockRange).
Hypothesis Hq : wf_block_range q /\ bk_start q * bs <= o /\ o + n <= bk_end q * bs.

Lemma skipped_away r B :
  range_ok bs r -> BlockRange_overlaps r q = Ok false -> collected (bk_start r) (bk_end r) B [].
Proof using Hbs Hq.
  intros (Hwr & _) Hov. destruct Hq as (Hwq & Hqa & Hqb).
  destruct (overlaps_spec r q Hwr Hwq) as (ov & Heq & Hiff). rewrite Hov in Heq. injection Heq as <-.
  apply collected_away. destruct (decide (Z.min (bk_end r * bs) (o + n) <= Z.max (bk_start r * bs) o)) as [?|Hno]; [done|].
  exfalso. assert (false = true); [|done]. apply Hiff. exists (Z.max (bk_start r * bs) o / bs).
  split; apply byte_in_blocks; try done; unfold bk_end in *; lia.
Qed.

Lemma child_at_in s cs e ch k :
  children_chain s cs e -> ch ∈ cs -> in_block_range (mc_range ch) k -> child_at cs k = Some ch.
Proof using Type.
  intros Hch Hin Hk. pose proof (children_chain_bounds _ _ _ _ Hch Hin).
  assert (Hse : s <= k < e) by (unfold in_block_range, bk_end in *; lia).
  destruct (child_at_Some s cs e k Hch Hse) as (ch' & -> & Hin' & Hk'). f_equal.
  destruct (children_chain_unique s cs e k Hch Hse) as (pre & c0 & post & -> & _ & Hout).
  rewrite Forall_forall in Hout.
  assert (Hone : forall x, x ∈ pre ++ c0 :: post -> in_block_range (mc_range x) k -> x = c0).
  { intros x Hx Hxk. rewrite elem_of_app, elem_of_cons in Hx. destruct Hx as [?|[?|?]]; [|done|];
      exfalso; apply (Hout x); [apply elem_of_app; by auto|done|apply elem_of_app; by auto|done]. }
  by rewrite (Hone ch Hin Hk), (Hone ch' Hin' Hk').
Qed.

Lemma children_collected (f : MetadataChild -> Result (list ReadExtent)) B cs s e :
  children_chain s cs e ->
  Forall (fun ch => exists xs, f ch = Ok xs /\ collected (bk_start (mc_range ch)) (bk_end (mc_range ch)) B xs) cs ->
  exists parts, try_map f cs = Ok parts /\ collected s e B (concat parts).
Proof using Hbs.
  revert s. induction cs as [|ch cs IH]; intros s Hch Hcs.
  { cbn in Hch. subst e. exists []. split; [done|]. apply collected_none. lia. }
  destruct Hch as (Hs & Hpos & Hch). apply Forall_cons in Hcs as [(xs & Hxs & Hcol) Hcs].
  destruct (IH _ Hch Hcs) as (parts & Hparts & Hrest). apply children_chain_le in Hch.
  exists (xs :: parts). split; [cbn [try_map]; by rewrite Hxs; cbn [mbind Result_bind]; rewrite Hparts|].
  cbn [concat]. subst s. apply (collected_app _ (bk_end (mc_range ch))); [unfold bk_end in *; lia|done|done].
Qed.

Definition tree_blocks (h : nat) (nodes : gmap MetadataNodeId MetadataNode) (id : MetadataNodeId) (k : Z)
    : option (SegmentId * BlockIndex) :=
  match leaf_at h nodes id k with Some l => entries_lookup l.1 k | None => None end.

Lemma tree_collected h id r node :
  tree_ok bs (segment_size bs pool) h (metadata_nodes (co_metadata c)) id r ->
  metadata_nodes (co_metadata c) !! id = Some node ->
  exists xs, collect_read_extents h c q (fun entries _ =>
      parts ← try_map (fun e => collect_segment_entry_read_extent c e (mkByteRange o n) bs) entries;
      Ok (concat parts)) node = Ok xs /\
    collected (bk_start r) (bk_end r) (tree_blocks h (metadata_nodes (co_metadata c)) id) xs.
Proof using Hbs Hpool Hreq Hq.
  revert id r node. induction h as [|h IH]; intros id r node Ht Hn; [done|].
  destruct Ht as (n0 & Hn0 & Hid & Hr & Hrok & Hk). assert (n0 = node) as -> by congruence.
  cbn [collect_read_extents]. unfold tree_blocks. cbn [leaf_at]. rewrite Hn.
  destruct (mn_kind node) as [cs|es xs].
  - destruct Hk as (_ & Hch & Hcs).
    set (B := fun k => match match child_at cs k with Some ch => leaf_at h (metadata_nodes (co_metadata c)) (mc_node_id ch) k | None => None end with
      | Some l => entries_lookup l.1 k | None => None end).
    destruct (children_collected (fun child =>
        ov ← BlockRange_overlaps (mc_range child) q;
        if (ov : bool) then
          child_node ← get_metadata_node (co_metadata c) (mc_node_id child);
          collect_read_extents h c q (fun entries _ =>
            parts ← try_map (fun e => collect_segment_entry_read_extent c e (mkByteRange o n) bs) entries;
            Ok (concat parts)) child_node
        else Ok []) B cs (bk_start r) (bk_end r) Hch) as (parts & Hparts & Hcol).
    { rewrite Forall_forall in Hcs |- *. intros ch Hin. specialize (Hcs ch Hin).
      pose proof (tree_ok_range _ _ _ _ _ _ Hcs) as Hcok. pose proof Hcok as (Hcw & _).
      destruct Hq as (Hwq & _). destruct (overlaps_spec _ q Hcw Hwq) as (ov & Hov & _). rewrite Hov. cbn [mbind Result_bind].
      destruct ov; [|exists []; split; [done|by apply skipped_away]].
      assert (Hnode : exists node, metadata_nodes (co_metadata c) !! mc_node_id ch = Some node).
      { destruct h; [done|]. destruct Hcs as (m & ? & _). eauto. }
      destruct Hnode as [cn Hcn]. unfold get_metadata_node. rewrite Hcn. cbn [ok_or mbind Result_bind].
      destruct (IH _ _ cn Hcs Hcn) as (xs & Hxs & Hcol). exists xs. split; [done|].
      eapply collected_ext; [|exact Hcol]. intros k Hk. unfold B, tree_blocks.
      by rewrite (child_at_in _ _ _ ch k Hch Hin Hk). }
    rewrite Hparts. cbn [mbind Result_bind]. eauto.
  - destruct (leaf_collected r es xs Hrok Hk) as (parts & -> & Hcol). cbn [mbind Result_bind]. eauto.
Qed.
End collect.

(** ** Devices *)

(** The shards of a device, as the children of one node. *)
Definition device_shards (config : LocalStoreConfig) (blocks : Z) (roots : list MetadataNodeId)
    : list MetadataChild :=
  zip_with (fun i root => mkMetadataChild (shard_range config blocks i) root)
    (seqZ 0 (shard_count config)) roots.

(** Where the block of a device is stored. *)
Definition device_block (config : LocalStoreConfig) (m : MetadataInner) (blocks : Z)
    (roots : list MetadataNodeId) (b : Z) : option (SegmentId * BlockIndex) :=
  match child_at (device_shards config blocks roots) b with
  | Some ch => tree_block m (mc_node_id ch) (mc_range ch) b
  | None => None
  end.

(** The trees of a device of [blocks] blocks with the store's block size. *)
Record device_ok (config : LocalStoreConfig) (c : LocalCoordinator) (blocks : Z)
    (roots : list MetadataNodeId) : Prop := {
  dok_shards : 1 <= shard_count config <= blocks;
  dok_bytes : blocks * cfg_block_size config < U64_MOD;
  dok_trees : device_trees config (segment_size (cfg_block_size config) (co_storage_nodes c))
    (metadata_nodes (co_metadata c)) blocks roots;
}.

Lemma device_shards_chain config blocks roots :
  1 <= shard_count config <= blocks -> Z.of_nat (length roots) = shard_count config ->
  children_chain 0 (device_shards config blocks roots) blocks /\
  mc_node_id <$> device_shards config blocks roots = roots.
Proof.
  intros Hn Hlen. unfold device_shards. set (n := shard_count config) in *. split.
  - pose proof (parts_chain (fun i => blocks * i / n)
      (zip_with (fun i root => mkMetadataChild (shard_range config blocks i) root) (seqZ 0 n) roots) 0 n ltac:(lia)) as H.
    cbv beta in H. rewrite Z.mul_0_r, Z.div_0_l, Z.add_0_l, Z.div_mul in H by lia. apply H.
    apply Forall2_same_length_lookup_2.
    { rewrite length_zip_with, length_seqZ. lia. }
    intros k i ch [-> Hk]%lookup_seqZ (i' & root & -> & [-> _]%lookup_seqZ & _)%lookup_zip_with_Some.
    unfold shard_range, bk_end. cbn. pose proof (part_bounds blocks n (0 + Z.of_nat k) Hn ltac:(lia)). fold n. lia.
  - rewrite fmap_zip_with_r; [done|done|rewrite length_seqZ; lia].
Qed.

Lemma device_shard_ok config c blocks roots ch :
  device_ok config c blocks roots -> ch ∈ device_shards config blocks roots ->
  tree_ok (cfg_block_size config) (segment_size (cfg_block_size config) (co_storage_nodes c))
    (tree_fuel (bk_blocks (mc_range ch))) (metadata_nodes (co_metadata c)) (mc_node_id ch) (mc_range ch).
Proof.
  intros Hd (k & Hk)%list_elem_of_lookup. apply lookup_zip_with_Some in Hk as (i & root & -> & Hi & Hroot).
  pose proof (dok_trees _ _ _ _ Hd) as Ht. eapply Forall2_lookup_lr in Ht; [|exact Hi|exact Hroot]. exact Ht.
Qed.

Lemma try_map_fmap {A B C} (g : A -> B) (f : B -> Result C) l : try_map f (g <$> l) = try_map (fun x => f (g x)) l.
Proof. induction l as [|x l IH]; [done|]. cbn. destruct (f (g x)); [|done]. cbn. by rewrite <-IH. Qed.

Section device_read.
Context {CR : Crc32cCrate} (config : LocalStoreConfig) (c : LocalCoordinator).
Local Abbreviation bs := (cfg_block_size config).
Local Abbreviation pool := (co_storage_nodes c).

(** The cell [y] of a device with these roots. *)
Definition device_cell (blocks : Z) (roots : list MetadataNodeId) (y : Z) : cell :=
  block_cell bs pool (device_block config (co_metadata c) blocks roots) y.

Lemma device_collected v o n blocks roots :
  0 < bs -> pool_wf bs pool -> 0 <= o -> 0 <= n -> o mod bs = 0 -> n mod bs = 0 -> o + n <= blocks * bs ->
  device_ok config c blocks roots ->
  let q := mkBlockRange (o / bs) (n / bs) in
  exists parts, try_map (fun root =>
      node ← get_metadata_node (co_metadata c) root;
      ov ← BlockRange_overlaps (mn_covered_range node) q;
      if (ov : bool) then collect_segment_read_extents c node q (mkByteRange o n) bs
      else Ok []) roots = Ok parts /\
    collected bs c v o n 0 blocks (device_block config (co_metadata c) blocks roots) (concat parts).
Proof.
  intros Hbs Hpool Ho Hn Hom Hnm Hend Hd q. pose proof (dok_shards _ _ _ _ Hd) as Hsh.
  pose proof (dok_bytes _ _ _ _ Hd) as Hbytes.
  assert (Hlen : Z.of_nat (length roots) = shard_count config).
  { pose proof (Forall2_length _ _ _ (dok_trees _ _ _ _ Hd)) as Hl. rewrite length_seqZ in Hl. lia. }
  destruct (device_shards_chain config blocks roots Hsh Hlen) as [Hch Hids].
  assert (Hreq : 0 <= o /\ 0 <= n /\ o + n < U64_MOD) by lia.
  assert (Ho' : o = bs * (o / bs)) by (pose proof (Z.div_mod o bs ltac:(lia)); lia).
  assert (Hn' : n = bs * (n / bs)) by (pose proof (Z.div_mod n bs ltac:(lia)); lia).
  assert (Hq : wf_block_range q /\ bk_start q * bs <= o /\ o + n <= bk_end q * bs).
  { unfold q, wf_block_range, in_u64, bk_end. cbn. pose proof (Z.div_pos o bs Ho Hbs). pose proof (Z.div_pos n bs Hn Hbs).
    split_and!; try nia. }
  set (f := fun root => _ ← get_metadata_node _ root; _).
  cut (exists parts, try_map f (mc_node_id <$> device_shards config blocks roots) = Ok parts /\
    collected bs c v o n 0 blocks (device_block config (co_metadata c) blocks roots) (concat parts)).
  { by rewrite Hids. }
  clear Hids. setoid_rewrite try_map_fmap. eapply children_collected; [done|exact Hch|].
  apply Forall_forall. intros ch Hin. pose proof (device_shard_ok _ _ _ _ ch Hd Hin) as Ht.
  pose proof (tree_ok_range _ _ _ _ _ _ Ht) as Hrok. pose proof Hrok as (Hcw & _).
  assert (Hnode : exists node, metadata_nodes (co_metadata c) !! mc_node_id ch = Some node /\ mn_covered_range node = mc_range ch).
  { unfold tree_fuel in Ht. destruct Ht as (m & ? & _ & ? & _). eauto. }
  destruct Hnode as (node & Hnode & Hcov). unfold f, get_metadata_node. rewrite Hnode. cbn [ok_or mbind Result_bind].
  rewrite Hcov. destruct Hq as (Hwq & Hqo). destruct (overlaps_spec _ q Hcw Hwq) as (ov & Hov & _). rewrite Hov. cbn [mbind Result_bind].
  destruct ov; [|exists []; split; [done|exact (skipped_away bs c v o n Hbs q (conj Hwq Hqo) _ _ Hrok Hov)]].
  unfold collect_segment_read_extents, node_fuel. rewrite Hcov.
  destruct (tree_collected bs c v o n Hbs Hpool Hreq q (conj Hwq Hqo) _ _ _ node Ht Hnode) as (xs & Hxs & Hcol).
  exists xs. split; [exact Hxs|]. eapply collected_ext; [done| |exact Hcol]. intros k Hk.
  unfold device_block. by rewrite (child_at_in _ _ _ ch k Hch Hin Hk).
Qed.

(** A read of a device returns its bytes, or fails when it does not accept one. *)
Lemma read_device_ok d head spec range buf v :
  0 < bs -> pool_wf bs pool -> device_heads (co_metadata c) !! d = Some head ->
  device_specs (co_metadata c) !! d = Some spec -> ds_block_size spec = bs ->
  device_ok config c (ds_logical_blocks spec) (dh_shard_roots head) ->
  ByteRange_validate_for_device range spec = Ok tt -> 0 <= br_offset range -> 0 <= br_len range ->
  Z.of_nat (length buf) = br_len range ->
  let cells := (fun p => device_cell (ds_logical_blocks spec) (dh_shard_roots head) (br_offset range + p)) <$>
    seqZ 0 (br_len range) in
  if readable v cells then read_device c d range buf v = Ok cells.*1 else exists e, read_device c d range buf v = Err e.
Proof.
  intros Hbs Hpool Hh Hs Hsb Hd Hval Ho Hn Hbuf cells. unfold cells.
  pose proof Hval as (_ & Hom & Hnm & Hov & _ & Hend)%validate_for_device_Ok. rewrite Hsb in Hom, Hnm, Hend.
  assert (Hu : in_u64 (br_len range)) by (unfold in_u64; lia).
  unfold read_device, resolve_block_read_plan, device_info, get_head. rewrite Hh, Hs. cbn [ok_or mbind Result_bind di_spec].
  rewrite Hval. cbn [mbind Result_bind]. destruct (br_len range =? 0) eqn:Hz; bool_prop.
  { rewrite Hz in *. apply plan_read; [done|done|apply iv_apart_nil|done|lia]. }
  rewrite Hsb. destruct range as [o n]. cbn [br_offset br_len] in *.
  destruct (device_collected v o n (ds_logical_blocks spec) (dh_shard_roots head)) as (parts & -> & [Ha Hi Hr Hc]); [done..|].
  cbn [mbind Result_bind]. apply plan_read; [done|done|done| |].
  - rewrite Forall_forall in Hi, Hr |- *. intros x Hx. destruct (Hi x Hx) as (? & ? & _), (Hr x Hx) as [? ?]. by split_and!.
  - intros p Hp. unfold device_cell, block_cell.
    destruct (device_block _ _ _ _ ((o + p) / bs)) as [l|] eqn:Hl; [right|by left].
    destruct (Hc p Hp ltac:(lia)) as (x & ? & ?); [by rewrite Hl|]. eauto.
Qed.
End device_read.
