(* ===== verification/BlockOps.v ===== *)
(** * Block operations of the coordinator ([local/coordinator.rs])

    Writes, batches, zeroing and discards of a block device; the replay of a
    recorded block delta ([local/durable/block_delta.rs]); direct writes with a
    grant; forks, restores, deletions; and the two custodians. *)

From S2P Require Import Prelude Api Object TreeEdit Batch Provider Authority Config Catalog.
From S2P Require Import SegmentStore StorageNode Streams Plane Gc Coordinator CowTree.

Definition DEFAULT_BLOCK_BATCH_MAX_BYTES : Z := 128 * 1024 * 1024.

Definition usize_to_u64 (value : Z) : Z := if value <? U64_MOD then value else U64_MAX.

(** ** Data *)

Record DeviceWriteChunk := mkDeviceWriteChunk {
  dwc_shard_id : ShardId;
  dwc_old_root : MetadataNodeId;
  dwc_range : BlockRange;
}.

Record BlockBatchShardChunk := mkBlockBatchShardChunk {
  bsc_range : BlockRange;
  bsc_bytes : list Z;
  bsc_payload_integrity : PayloadIntegrity;
}.

Record BlockBatchShardPending := mkBlockBatchShardPending {
  bsp_old_root : MetadataNodeId;
  bsp_chunks : list BlockBatchShardChunk;
}.

Record BlockBatchShardEdit := mkBlockBatchShardEdit {
  bse_range : BlockRange;
  bse_receipt : VerifiedSegmentReceipt;
  bse_segment_offset : BlockIndex;
}.

Record BlockBatchShardEdits := mkBlockBatchShardEdits {
  bss_old_root : MetadataNodeId;
  bss_edits : list BlockBatchShardEdit;
}.

Inductive BlockDeltaReplacement :=
  | BdSegment (segment_id : SegmentId) (segment_offset : BlockIndex)
  | BdSparse.

Record BlockDeltaEntry := mkBlockDeltaEntry {
  bde_shard_id : ShardId;
  bde_range : BlockRange;
  bde_replacement : BlockDeltaReplacement;
}.

Record BlockDeltaCommit := mkBlockDeltaCommit {
  bdc_device_id : DeviceId;
  bdc_commit_seq : CommitSeq;
  bdc_write_count : Z;
  bdc_collapsed_range_count : Z;
  bdc_committed_bytes : Z;
  bdc_entries : list BlockDeltaEntry;
}.

Record BlockBatchCommitWithDelta := mkBlockBatchCommitWithDelta {
  bbd_commit : BlockBatchCommit;
  bbd_delta : option BlockDeltaCommit;
}.

Record BlockMappingCommitWithDelta := mkBlockMappingCommitWithDelta {
  bmd_commit : WriteCommit;
  bmd_delta : option BlockDeltaCommit;
}.

Definition BlockDeltaReplacement_segment_id (self : BlockDeltaReplacement) : option SegmentId :=
  match self with BdSegment segment_id _ => Some segment_id | BdSparse => None end.

Definition BlockDeltaCommit_segment_ids (self : BlockDeltaCommit) : gset SegmentId :=
  list_to_set (omap (fun entry => BlockDeltaReplacement_segment_id (bde_replacement entry))
    (bdc_entries self)).

(** ** Splitting a range over the shards *)

Definition split_shard (inner : MetadataInner) (requested : BlockRange)
    (chunks : list DeviceWriteChunk) (shard : nat * MetadataNodeId) : Result (list DeviceWriteChunk) :=
  let '(shard, root) := shard in
  node ← get_metadata_node inner root;
  overlap ← BlockRange_intersection (mn_covered_range node) requested;
  match overlap with
  | None => Ok chunks
  | Some overlap =>
      reject_if (U32_MOD <=? Z.of_nat shard) (InvalidArgument "shard index overflows u32");;
      Ok (chunks ++ [mkDeviceWriteChunk (Z.of_nat shard) root overlap])
  end.

Definition split_device_range (inner : MetadataInner) (info : DeviceInfo) (range : ByteRange)
    : Result (list DeviceWriteChunk) :=
  let block_size := ds_block_size (di_spec info) in
  let requested := mkBlockRange (br_offset range / block_size) (br_len range / block_size) in
  head ← get_head inner (di_device_id info);
  chunks ← try_fold (split_shard inner requested) [] (imap pair (dh_shard_roots head));
  reject_if (bool_decide (chunks = []) && negb (br_len range =? 0))
    (Corrupt "device range did not overlap any shard roots");;
  Ok chunks.

(** The loop of [single_shard_for_block_range] from a shard on. *)
Fixpoint find_single_shard (inner : MetadataInner) (range : BlockRange) (shard : Z)
    (shard_roots : list MetadataNodeId) : Result (ShardId * MetadataNodeId) :=
  match shard_roots with
  | [] => Err (InvalidArgument "block range is not contained by one shard")
  | root :: shard_roots =>
      node ← get_metadata_node inner root;
      contains ← BlockRange_contains_range (mn_covered_range node) range;
      if (contains : bool) then
        reject_if (U32_MOD <=? shard) (InvalidArgument "shard index overflows u32");;
        Ok (shard, root)
      else find_single_shard inner range (shard + 1) shard_roots
  end.

Definition single_shard_for_block_range (inner : MetadataInner) (head : DeviceHead)
    (range : BlockRange) : Result (ShardId * MetadataNodeId) :=
  find_single_shard inner range 0 (dh_shard_roots head).

(** ** Collecting a batch by shard *)

Definition pend_chunk (block_size : Z) (write : CollapsedBlockWrite)
    (shard_pending : gmap ShardId BlockBatchShardPending) (chunk : DeviceWriteChunk)
    : Result (gmap ShardId BlockBatchShardPending) :=
  chunk_range ← block_range_to_byte_range (dwc_range chunk) block_size;
  byte_start ← ok_or (checked_sub (br_offset chunk_range) (cb_offset write))
    (InvalidArgument "write chunk underflows");
  let byte_len := br_len chunk_range in
  byte_end ← ok_or (checked_add U64_MOD byte_start byte_len)
    (InvalidArgument "write chunk end overflows");
  reject_if (Z.of_nat (length (cb_bytes write)) <? byte_end)
    (Corrupt "write chunk is outside collapsed batch bytes");;
  let chunk_bytes := slice (cb_bytes write) byte_start byte_len in
  let shard := default (mkBlockBatchShardPending (dwc_old_root chunk) [])
    (shard_pending !! dwc_shard_id chunk) in
  reject_if (negb (bsp_old_root shard =? dwc_old_root chunk))
    (Conflict "block batch observed inconsistent shard roots");;
  Ok (<[dwc_shard_id chunk := mkBlockBatchShardPending (bsp_old_root shard)
    (bsp_chunks shard ++
      [mkBlockBatchShardChunk (dwc_range chunk) chunk_bytes (cb_payload_integrity write)])]>
    shard_pending).

Definition pend_write (inner : MetadataInner) (info : DeviceInfo)
    (shard_pending : gmap ShardId BlockBatchShardPending) (write : CollapsedBlockWrite)
    : Result (gmap ShardId BlockBatchShardPending) :=
  write_range ← CollapsedBlockWrite_byte_range write;
  chunks ← split_device_range inner info write_range;
  try_fold (pend_chunk (ds_block_size (di_spec info)) write) shard_pending chunks.

(** The longest runs of consecutive chunks with the same payload integrity. *)
Fixpoint integrity_runs (chunks : list BlockBatchShardChunk) : list (list BlockBatchShardChunk) :=
  match chunks with
  | [] => []
  | chunk :: chunks =>
      match integrity_runs chunks with
      | (next :: run) :: runs =>
          if decide (bsc_payload_integrity next = bsc_payload_integrity chunk)
          then (chunk :: next :: run) :: runs
          else [chunk] :: (next :: run) :: runs
      | runs => [chunk] :: runs
      end
  end.

(** The edits of a run packed into one segment, from a segment offset on. *)
Fixpoint run_edits (verified_receipt : VerifiedSegmentReceipt) (segment_offset : Z)
    (run : list BlockBatchShardChunk) : Result (list BlockBatchShardEdit) :=
  match run with
  | [] => Ok []
  | chunk :: run =>
      next ← ok_or (checked_add U64_MOD segment_offset (bk_blocks (bsc_range chunk)))
        (InvalidArgument "block batch segment offset overflows");
      edits ← run_edits verified_receipt next run;
      Ok (mkBlockBatchShardEdit (bsc_range chunk) verified_receipt segment_offset :: edits)
  end.

(** One edit as a tree edit and as an entry of the delta. *)
Definition edit_of (shard_id : ShardId) (edit : BlockBatchShardEdit)
    : Result (TreeRangeEdit * BlockDeltaEntry) :=
  segment_base ← ok_or (checked_sub (bk_start (bse_range edit)) (bse_segment_offset edit))
    (InvalidArgument "block batch segment offset exceeds logical start");
  let segment_id := sd_segment_id (vr_descriptor (bse_receipt edit)) in
  Ok (mkTreeRangeEdit (bse_range edit) (Some (mkSegmentReplacement segment_id segment_base)),
      mkBlockDeltaEntry shard_id (bse_range edit) (BdSegment segment_id (bse_segment_offset edit))).

Section block_ops.
Context {CR : Crc32cCrate} (config : LocalStoreConfig).

(** [LocalCoordinator::publish_commit_group_observed] *)
Definition publish_commit_group_observed (intent : CommitGroupIntent) : ST LocalCoordinator CommitGroup :=
  on_metadata (publish_commit_group config intent).

(** ** Batches *)

(** One run of a shard: its payload becomes a segment. *)
Definition write_run (device_id : DeviceId) (block_size : Z) (current : DeviceHead)
    (write_intent : WriteIntentId) (durability : WriteDurability) (shard_id : ShardId)
    (old_root : MetadataNodeId)
    (acc : list BlockBatchShardEdit * list VerifiedSegmentReceipt) (run : list BlockBatchShardChunk)
    : ST LocalCoordinator (list BlockBatchShardEdit * list VerifiedSegmentReceipt) :=
  packed_blocks ← st_lift (try_fold (fun total chunk =>
    ok_or (checked_add U64_MOD total (bk_blocks (bsc_range chunk)))
      (InvalidArgument "block batch packed segment overflows")) 0 run);
  st_lift (ok_or (checked_mul U64_MOD packed_blocks block_size)
    (InvalidArgument "block batch packed segment bytes overflow"));;
  let packed_bytes := concat (bsc_bytes <$> run) in
  let intent := match run with
    | [chunk] => IntentBlockWrite device_id (bsc_range chunk) (dh_generation current) shard_id old_root
    | _ => IntentInternal (OwnBlockDevice device_id)
    end in
  let payload_integrity := match run with
    | chunk :: _ => bsc_payload_integrity chunk
    | [] => Verified
    end in
  verified_receipt ← write_segment_for_intent intent write_intent packed_bytes durability
    payload_integrity;
  edits ← st_lift (run_edits verified_receipt 0 run);
  mret (acc.1 ++ edits, acc.2 ++ [verified_receipt]).

Definition write_shard (device_id : DeviceId) (block_size : Z) (current : DeviceHead)
    (write_intent : WriteIntentId) (durability : WriteDurability)
    (acc : gmap ShardId BlockBatchShardEdits * list VerifiedSegmentReceipt)
    (pending : ShardId * BlockBatchShardPending)
    : ST LocalCoordinator (gmap ShardId BlockBatchShardEdits * list VerifiedSegmentReceipt) :=
  let '(shard_id, shard) := pending in
  let chunks := sort_by_key (fun chunk => bk_start (bsc_range chunk)) (bsp_chunks shard) in
  out ← st_fold (write_run device_id block_size current write_intent durability shard_id
      (bsp_old_root shard)) ([], acc.2) (integrity_runs chunks);
  mret (<[shard_id := mkBlockBatchShardEdits (bsp_old_root shard) out.1]> acc.1, out.2).

(** The new tree of one shard. *)
Definition edit_shard (segment_receipts : list VerifiedSegmentReceipt)
    (acc : list RootUpdate * list BlockDeltaEntry) (shard : ShardId * BlockBatchShardEdits)
    : ST LocalCoordinator (list RootUpdate * list BlockDeltaEntry) :=
  let '(shard_id, shard) := shard in
  let sorted := sort_by_key (fun edit => bk_start (bse_range edit)) (bss_edits shard) in
  edits ← st_lift (try_map (edit_of shard_id) sorted);
  result ← replace_tree_ranges_with_receipts config (bss_old_root shard) edits.*1 segment_receipts;
  let root := tr_root result in
  mret (acc.1 ++ (if root =? bss_old_root shard then []
    else [RuBlockShard (mkShardRootUpdate shard_id (bss_old_root shard) root)]),
    acc.2 ++ edits.*2).

Definition commit_block_batch_with_delta (device_id : DeviceId) (writes : list BlockBatchWrite)
    (durability : WriteDurability) : ST LocalCoordinator BlockBatchCommitWithDelta :=
  info ← ask_metadata (fun m => device_info m device_id);
  collapsed ← st_lift (collapse_block_batch_writes writes (di_spec info) DEFAULT_BLOCK_BATCH_MAX_BYTES);
  let block_size := ds_block_size (di_spec info) in
  let owner := OwnBlockDevice device_id in
  write_intent ← next_write_intent;
  current ← ask_metadata (fun m => get_head m device_id);
  shard_pending ← ask_metadata (fun m => try_fold (pend_write m info) ∅ collapsed);
  out ← st_fold (write_shard device_id block_size current write_intent durability) (∅, [])
    (bt_iter shard_pending);
  let '(shard_edits, segment_receipts) := out in
  out ← st_fold (edit_shard segment_receipts) ([], []) (bt_iter shard_edits);
  let '(updates, delta_entries) := out in
  let write_count := usize_to_u64 (Z.of_nat (length writes)) in
  let collapsed_range_count := usize_to_u64 (Z.of_nat (length collapsed)) in
  if bool_decide (updates = []) || bool_decide (delta_entries = []) then
    mret (mkBlockBatchCommitWithDelta (mkBlockBatchCommit device_id (di_latest_commit info)
      write_count collapsed_range_count 0 durability) None)
  else
    commit_group ← publish_commit_group_observed (mkCommitGroupIntent owner
      (MfDeviceGeneration (dh_generation current)) updates);
    st_for (fun receipt => on_storage_nodes
      (Registry_mark_segment_referenced (vr_receipt receipt) (cg_commit_seq commit_group)))
      segment_receipts;;
    let committed_bytes := fold_left (fun total write =>
      Z.min U64_MAX (total + usize_to_u64 (Z.of_nat (length (cb_bytes write))))) collapsed 0 in
    mret (mkBlockBatchCommitWithDelta
      (mkBlockBatchCommit device_id (cg_commit_seq commit_group) write_count collapsed_range_count
        committed_bytes durability)
      (Some (mkBlockDeltaCommit device_id (cg_commit_seq commit_group) write_count
        collapsed_range_count committed_bytes delta_entries))).

Definition commit_block_batch (device_id : DeviceId) (writes : list BlockBatchWrite)
    (durability : WriteDurability) : ST LocalCoordinator BlockBatchCommit :=
  committed ← commit_block_batch_with_delta device_id writes durability;
  mret (bbd_commit committed).

Definition write_device_with_integrity (device_id : DeviceId) (offset : Z) (data : list Z)
    (durability : WriteDurability) (payload_integrity : PayloadIntegrity)
    : ST LocalCoordinator WriteCommit :=
  info ← ask_metadata (fun m => device_info m device_id);
  len ← st_lift (len_u64 data (InvalidArgument "write byte length overflows u64"));
  let range := mkByteRange offset len in
  st_lift (ByteRange_validate_for_device range (di_spec info));;
  if len =? 0 then mret (mkWriteCommit device_id (di_latest_commit info) range durability)
  else
    commit ← commit_block_batch device_id [mkBlockBatchWrite offset data payload_integrity] durability;
    mret (mkWriteCommit (bbc_device_id commit) (bbc_commit_seq commit) range (bbc_durability commit)).

Definition write_device (device_id : DeviceId) (offset : Z) (data : list Z)
    (durability : WriteDurability) : ST LocalCoordinator WriteCommit :=
  write_device_with_integrity device_id offset data durability Verified.

(** ** Replaying a block delta *)

Definition delta_edit (entry : BlockDeltaEntry) : Result TreeRangeEdit :=
  replacement ← match bde_replacement entry with
    | BdSegment segment_id segment_offset =>
        segment_base ← ok_or (checked_sub (bk_start (bde_range entry)) segment_offset)
          (Corrupt "block delta segment offset exceeds logical start");
        Ok (Some (mkSegmentReplacement segment_id segment_base))
    | BdSparse => Ok None
    end;
  Ok (mkTreeRangeEdit (bde_range entry) replacement).

Definition replay_shard_entries (current : DeviceHead) (all_receipts : list VerifiedSegmentReceipt)
    (updates : list RootUpdate) (shard : ShardId * list BlockDeltaEntry)
    : ST LocalCoordinator (list RootUpdate) :=
  let '(shard_id, entries) := shard in
  let entries := sort_by_key (fun entry => bk_start (bde_range entry)) entries in
  old_root ← st_lift (ok_or (dh_shard_roots current !! Z.to_nat shard_id)
    (Corrupt "block delta shard is outside device"));
  tree_edits ← st_lift (try_map delta_edit entries);
  result ← replace_tree_ranges_with_receipts config old_root tree_edits all_receipts;
  let root := tr_root result in
  mret (updates ++ (if root =? old_root then []
    else [RuBlockShard (mkShardRootUpdate shard_id old_root root)])).

Definition delta_receipt (receipts : gmap SegmentId VerifiedSegmentReceipt) (segment_id : SegmentId)
    : ST LocalCoordinator (gmap SegmentId VerifiedSegmentReceipt) :=
  receipt ← st_ask (fun c => Registry_receipt_for_segment (co_storage_nodes c) segment_id);
  verified ← st_lift (verify_segment_receipt receipt);
  mret (<[segment_id := verified]> receipts).

Definition replay_block_delta_commit (commit : BlockDeltaCommit) : ST LocalCoordinator unit :=
  st_reject_if (bool_decide (bdc_entries commit = []))
    (Corrupt "block delta commit has no entries");;
  current ← ask_metadata (fun m => get_head m (bdc_device_id commit));
  on_metadata (st_modify (set_next_commit_seq (bdc_commit_seq commit)));;
  receipts ← st_fold delta_receipt ∅ (bs_iter (BlockDeltaCommit_segment_ids commit));
  let by_shard := fold_left (fun by_shard entry =>
    <[bde_shard_id entry := default [] (by_shard !! bde_shard_id entry) ++ [entry]]> by_shard)
    (bdc_entries commit) (∅ : gmap ShardId (list BlockDeltaEntry)) in
  updates ← st_fold (replay_shard_entries current (bt_values receipts)) [] (bt_iter by_shard);
  if bool_decide (updates = []) then mret tt
  else
    group ← publish_commit_group_observed (mkCommitGroupIntent (OwnBlockDevice (bdc_device_id commit))
      (MfDeviceGeneration (dh_generation current)) updates);
    st_reject_if (negb (cg_commit_seq group =? bdc_commit_seq commit))
      (Corrupt "block delta replay produced unexpected commit sequence");;
    st_for (fun receipt => on_storage_nodes
      (Registry_mark_segment_referenced (vr_receipt receipt) (bdc_commit_seq commit)))
      (bt_values receipts).

(** ** Zeroing and discarding *)

Definition discard_chunk (acc : list RootUpdate * list BlockDeltaEntry) (chunk : DeviceWriteChunk)
    : ST LocalCoordinator (list RootUpdate * list BlockDeltaEntry) :=
  edit_result ← replace_tree_range config (dwc_old_root chunk) (mkTreeRangeEdit (dwc_range chunk) None);
  if tr_changed edit_result then
    mret (acc.1 ++ [RuBlockShard (mkShardRootUpdate (dwc_shard_id chunk) (dwc_old_root chunk)
      (tr_root edit_result))],
      acc.2 ++ [mkBlockDeltaEntry (dwc_shard_id chunk) (dwc_range chunk) BdSparse])
  else mret acc.

Definition discard_device_with_delta (device_id : DeviceId) (offset len : Z)
    : ST LocalCoordinator BlockMappingCommitWithDelta :=
  info ← ask_metadata (fun m => device_info m device_id);
  let range := mkByteRange offset len in
  st_lift (ByteRange_validate_for_device range (di_spec info));;
  let unchanged := mkBlockMappingCommitWithDelta
    (mkWriteCommit device_id (di_latest_commit info) range Acknowledged) None in
  if len =? 0 then mret unchanged
  else
    chunks ← ask_metadata (fun m => split_device_range m info range);
    out ← st_fold discard_chunk ([], []) chunks;
    let '(updates, delta_entries) := out in
    if bool_decide (updates = []) then mret unchanged
    else
      current ← ask_metadata (fun m => get_head m device_id);
      commit_group ← publish_commit_group_observed (mkCommitGroupIntent (OwnBlockDevice device_id)
        (MfDeviceGeneration (dh_generation current)) updates);
      mret (mkBlockMappingCommitWithDelta
        (mkWriteCommit device_id (cg_commit_seq commit_group) range Acknowledged)
        (Some (mkBlockDeltaCommit device_id (cg_commit_seq commit_group) 1
          (usize_to_u64 (Z.of_nat (length delta_entries))) len delta_entries))).

Definition discard_device (device_id : DeviceId) (offset len : Z) : ST LocalCoordinator WriteCommit :=
  committed ← discard_device_with_delta device_id offset len; mret (bmd_commit committed).

Definition write_zeroes_with_delta (device_id : DeviceId) (offset len : Z)
    : ST LocalCoordinator BlockMappingCommitWithDelta :=
  discard_device_with_delta device_id offset len.

Definition write_zeroes (device_id : DeviceId) (offset len : Z) : ST LocalCoordinator WriteCommit :=
  committed ← write_zeroes_with_delta device_id offset len; mret (bmd_commit committed).

(** ** Direct writes: a grant, the segment, the receipt *)

Definition issue_block_write_grant (device_id : DeviceId) (range : BlockRange)
    (durability : WriteDurability) : ST LocalCoordinator WriteGrant :=
  st_lift (BlockRange_validate_non_empty range);;
  head ← ask_metadata (fun m => get_head m device_id);
  shard ← ask_metadata (fun m => single_shard_for_block_range m head range);
  let '(shard_id, old_root) := shard in
  max_bytes ← st_lift (ok_or (checked_mul U64_MOD (bk_blocks range) (cfg_block_size config))
    (InvalidArgument "grant byte length overflows"));
  candidates ← st_gets (fun c => node_order (co_storage_nodes c));
  storage_node ← on_storage_nodes (choose_storage_node candidates);
  segment_id ← on_storage_nodes allocate_segment_id;
  write_intent ← next_write_intent;
  st_lift (issue_write_grant (mkWriteGrantRequest LOCAL_TENANT_ID LOCAL_PRINCIPAL_ID
    (IntentBlockWrite device_id range (dh_generation head) shard_id old_root) write_intent segment_id
    storage_node max_bytes Verified durability LOCAL_GRANT_EXPIRATION)).

Definition write_granted_segment (grant : WriteGrant) (data : list Z)
    : ST LocalCoordinator SegmentWriteReceipt :=
  verified ← write_granted_segment_verified grant data; mret (vr_receipt verified).

(** The node a grant may be used at; the grant must verify. *)
Definition storage_node_transport_for_grant (c : LocalCoordinator) (grant : WriteGrant)
    : Result LocalStorageNode :=
  verify_write_grant grant (wg_storage_node grant) (wg_segment_id grant) (wg_max_bytes grant);;
  registry_node (co_storage_nodes c) (wg_storage_node grant).

Definition submit_block_write_receipt (grant : WriteGrant) (receipt : SegmentWriteReceipt)
    : ST LocalCoordinator WriteCommit :=
  verified ← verify_receipt_matches_grant_observed grant receipt;
  match sr_intent receipt with
  | IntentBlockWrite device_id range fence shard_id old_root =>
      st_reject_if (negb (bool_decide (sr_owner receipt = OwnBlockDevice device_id)))
        (Conflict "receipt owner does not match block device intent");;
      current ← ask_metadata (fun m => get_head m device_id);
      current_root ← st_lift (ok_or (dh_shard_roots current !! Z.to_nat shard_id)
        (InvalidArgument "receipt shard is outside device"));
      st_reject_if (negb (current_root =? old_root)) (Conflict "stale shard root");;
      result ← replace_tree_range_with_receipts config old_root
        (mkTreeRangeEdit range
          (Some (mkSegmentReplacement (sd_segment_id (vr_descriptor verified)) (bk_start range))))
        [verified];
      commit_group ← publish_commit_group_observed (mkCommitGroupIntent (OwnBlockDevice device_id)
        (MfDeviceGeneration fence)
        [RuBlockShard (mkShardRootUpdate shard_id old_root (tr_root result))]);
      on_storage_nodes (Registry_mark_segment_referenced receipt (cg_commit_seq commit_group));;
      byte_offset ← st_lift (ok_or (checked_mul U64_MOD (bk_start range) (cfg_block_size config))
        (InvalidArgument "receipt byte offset overflows"));
      byte_len ← st_lift (ok_or (checked_mul U64_MOD (bk_blocks range) (cfg_block_size config))
        (InvalidArgument "receipt byte length overflows"));
      mret (mkWriteCommit device_id (cg_commit_seq commit_group) (mkByteRange byte_offset byte_len)
        (sr_durability receipt))
  | _ => st_lift (Err (InvalidArgument "trusted block publish requires a block write receipt"))
  end.

(** ** Forks, restores, deletions *)

Definition Coordinator_fork_device (source : DeviceId) (request : ForkRequest)
    : ST LocalCoordinator DeviceId :=
  head ← on_metadata (fork_device config source (fkr_target request)); mret (dh_device_id head).

Definition Coordinator_restore_device (source : DeviceId) (point : RestorePoint)
    : ST LocalCoordinator DeviceId :=
  head ← on_metadata (restore_device config source point); mret (dh_device_id head).

Definition Coordinator_restore_keyspace (source : KeyspaceId) (point : RestorePoint)
    : ST LocalCoordinator KeyspaceId :=
  head ← on_metadata (restore_keyspace source point); mret (kh_keyspace_id head).

Definition Coordinator_delete_device (device_id : DeviceId) : ST LocalCoordinator DeleteResult :=
  on_metadata (delete_device device_id).

(** ** Custodians *)

Record MetadataCustodianReport := mkMetadataCustodianReport {
  mcr_mark : MetadataMarkReport;
  mcr_sweep : MetadataSweepReport;
  mcr_catalog_released_segments : list SegmentId;
}.

Definition Coordinator_mark_reachable_for_gc (policy : RetentionPolicy)
    : ST LocalCoordinator MetadataMarkReport := on_metadata (mark_reachable_for_gc policy).

Definition collect_append_run_log_refs_from_node (node : MetadataNode)
    (out : gset (StorageNodeId * Z)) : gset (StorageNodeId * Z) :=
  match mn_kind node with
  | Leaf _ run_extents =>
      out ∪ list_to_set ((fun extent => (rr_storage_node (rx_run extent), rr_log_id (rx_run extent)))
        <$> run_extents)
  | Internal _ => out
  end.

Definition retain_reachable_append_run_logs : ST LocalCoordinator unit :=
  metadata ← st_gets co_metadata;
  let retained := fold_left (fun out node => collect_append_run_log_refs_from_node node out)
    (bt_values (metadata_nodes metadata)) ∅ in
  let retained := fold_left (fun out stream =>
      if decide (ss_status stream = AsActive) then
        out ∪ list_to_set ((fun record => (alr_storage_node (asr_run record), alr_log_id (asr_run record)))
          <$> ss_records stream)
      else out) (bt_values (append_streams metadata)) retained in
  st_modify (fun c => set_co_append_run_logs
    (filter (fun entry => entry.1 ∈ retained) (co_append_run_logs c)) c).

Definition release_swept (segment_id : SegmentId) : ST LocalCoordinator unit :=
  st_modify (fun c => set_co_verified_receipt_cache
    (delete segment_id (co_verified_receipt_cache c)) c);;
  state ← st_ask (fun c => Registry_state (co_storage_nodes c) segment_id);
  if decide (state = Referenced) then on_storage_nodes (Registry_release_segment segment_id)
  else mret tt.

Definition sweep_metadata_after_mark (policy : RetentionPolicy) (epoch : Z)
    : ST LocalCoordinator MetadataSweepReport :=
  sweep ← on_metadata (sweep_unmarked_after_mark policy epoch);
  retain_reachable_append_run_logs;;
  st_for release_swept (sw_released_segments sweep);;
  mret sweep.

Definition run_metadata_custodian (policy : RetentionPolicy)
    : ST LocalCoordinator MetadataCustodianReport :=
  mark ← Coordinator_mark_reachable_for_gc policy;
  sweep ← sweep_metadata_after_mark policy (mk_epoch mark);
  catalog_released_segments ← st_fold (fun released segment_id =>
      state ← st_ask (fun c => Registry_state (co_storage_nodes c) segment_id);
      mret (if decide (state = Released) then released ++ [segment_id] else released))
    [] (sw_released_segments sweep);
  mret (mkMetadataCustodianReport mark sweep catalog_released_segments).

Definition custodian_node (expired_write_intents : gset WriteIntentId)
    (report : StorageNodeCustodianReport) (storage_node : StorageNodeId)
    : ST LocalCoordinator StorageNodeCustodianReport :=
  response ← on_storage_nodes (on_node storage_node (send (SnRunCustodian expired_write_intents)));
  match response with
  | SnrCustodian node_report =>
      mret (mkStorageNodeCustodianReport
        (cr_expired_reservations report ++ cr_expired_reservations node_report)
        (cr_failed_writes report ++ cr_failed_writes node_report)
        (cr_orphan_segments report ++ cr_orphan_segments node_report)
        (cr_deleted_released_segments report ++ cr_deleted_released_segments node_report))
  | _ => st_lift (Err (Corrupt "storage node returned unexpected custodian response"))
  end.

Definition run_storage_node_custodian (expired_write_intents : gset WriteIntentId)
    : ST LocalCoordinator StorageNodeCustodianReport :=
  storage_nodes ← st_gets (fun c => node_order (co_storage_nodes c));
  st_fold (custodian_node expired_write_intents) (mkStorageNodeCustodianReport [] [] [] [])
    storage_nodes.
End block_ops.
