(* ===== verification/BlockPlan.v ===== *)
(** * Splitting a batch over the shards of a device

    A range of a device is cut at the shard boundaries, and the collapsed writes
    of a batch are collected by shard.  What a shard receives is, byte for byte,
    the part of the collapsed writes inside its range. *)

From S2P Require Import Prelude Intervals Api Object TreeEdit Batch Provider Authority Config.
From S2P Require Import Catalog SegmentStore StorageNode Streams Plane Coordinator SegmentPool.
From S2P Require Import CowTree CowSpec Trees ReadPath ReadSpec BlockOps.

Lemma elem_of_concat {A} (x : A) ls : x ∈ concat ls <-> exists l, l ∈ ls /\ x ∈ l.
Proof. rewrite list_elem_of_In, in_concat. by setoid_rewrite list_elem_of_In. Qed.

(** ** Overlaps *)

Definition overlap (a b : BlockRange) : option BlockRange :=
  let s := Z.max (bk_start a) (bk_start b) in
  let e := Z.min (bk_end a) (bk_end b) in
  if s <? e then Some (mkBlockRange s (e - s)) else None.

Lemma overlap_Some a b r :
  overlap a b = Some r -> 0 < bk_blocks r /\
  forall x, in_block_range r x <-> in_block_range a x /\ in_block_range b x.
Proof.
  unfold overlap. destruct (_ <? _) eqn:Hlt; [|done]. intros [= <-]. bool_prop. unfold in_block_range, bk_end in *. cbn.
  split; [lia|intros x; lia].
Qed.

Lemma overlap_None a b x : overlap a b = None -> ~ (in_block_range a x /\ in_block_range b x).
Proof.
  unfold overlap. destruct (_ <? _) eqn:Hlt; [done|]. intros _. bool_prop. unfold in_block_range, bk_end in *. lia.
Qed.

Lemma overlap_within a b r :
  overlap a b = Some r -> bk_start a <= bk_start r /\ bk_end r <= bk_end a /\
    bk_start b <= bk_start r /\ bk_end r <= bk_end b /\ 0 < bk_blocks r.
Proof.
  unfold overlap. destruct (_ <? _) eqn:Hlt; [|done]. intros [= <-]. bool_prop. unfold bk_end in *. cbn. lia.
Qed.

Lemma intersection_eval a b :
  wf_block_range a -> wf_block_range b -> BlockRange_intersection a b = Ok (overlap a b).
Proof.
  intros Ha Hb. destruct (intersection_spec a b Ha Hb) as (o & Ho & Hx). rewrite Ho. f_equal. destruct o as [r|].
  - destruct (intersection_wf_aux a b r Ha Hb Ho) as [-> Hpos]. unfold overlap. cbn in Hpos. by ztest.
  - unfold overlap. destruct (_ <? _) eqn:Hlt; [|done]. bool_prop. exfalso.
    apply (Hx (Z.max (bk_start a) (bk_start b))). unfold in_block_range, bk_end in *. lia.
Qed.

(** ** One range *)

Section plan.
Context (config : LocalStoreConfig) (c : LocalCoordinator).
Local Abbreviation bs := (cfg_block_size config).
Local Abbreviation m := (co_metadata c).
Context (d : DeviceId) (head : DeviceHead) (spec : DeviceSpec).
Local Abbreviation blocks := (ds_logical_blocks spec).
Local Abbreviation roots := (dh_shard_roots head).
Hypothesis Hbs : 0 < bs.
Hypothesis Hhead : device_heads m !! d = Some head.
Hypothesis Hspec : device_specs m !! d = Some spec.
Hypothesis Hsize : ds_block_size spec = bs.
Hypothesis Hdev : device_ok config c blocks roots.
Hypothesis Hmany : shard_count config <= U32_MOD.

(** The range of a shard, by its index in the head. *)
Definition rng (i : nat) : BlockRange := shard_range config blocks (Z.of_nat i).

(** The shards as the loops see them. *)
Definition shards : list (nat * MetadataNodeId) := imap pair roots.

Lemma shards_length : Z.of_nat (length roots) = shard_count config.
Proof using Hdev.
  pose proof (Forall2_length _ _ _ (dok_trees _ _ _ _ Hdev)) as Hl. rewrite length_seqZ in Hl.
  pose proof (dok_shards _ _ _ _ Hdev). lia.
Qed.

Lemma elem_of_shards i root : (i, root) ∈ shards <-> roots !! i = Some root.
Proof using Type.
  unfold shards. split.
  - intros (k & Hk)%list_elem_of_lookup. rewrite list_lookup_imap in Hk.
    destruct (roots !! k) as [r|] eqn:Hr; [|done]. cbn in Hk. by injection Hk as -> ->.
  - intros Hr. apply list_elem_of_lookup. exists i. by rewrite list_lookup_imap, Hr.
Qed.

Lemma shards_nodup : NoDup shards.*1.
Proof using Type.
  assert (H : shards.*1 = seq 0 (length roots)); [|rewrite H; apply NoDup_seq].
  apply list_eq. intros k. unfold shards. rewrite list_lookup_fmap, list_lookup_imap.
  destruct (roots !! k) as [r|] eqn:Hr; cbn.
  - apply lookup_lt_Some in Hr. by rewrite lookup_seq_lt.
  - apply lookup_ge_None in Hr. by rewrite lookup_seq_ge.
Qed.

Lemma shard_of_root i root : roots !! i = Some root ->
  Z.of_nat i < shard_count config /\ range_ok bs (rng i) /\
  tree_ok bs (segment_size bs (co_storage_nodes c)) (tree_fuel (bk_blocks (rng i))) (metadata_nodes m) root (rng i).
Proof using Hdev.
  intros Hr. pose proof (lookup_lt_Some _ _ _ Hr). pose proof shards_length as Hl.
  assert (Ht : tree_ok bs (segment_size bs (co_storage_nodes c)) (tree_fuel (bk_blocks (rng i))) (metadata_nodes m) root (rng i)).
  { pose proof (dok_trees _ _ _ _ Hdev) as Ht. eapply (Forall2_lookup_lr _ _ _ i) in Ht; [|apply lookup_seqZ_lt; lia|exact Hr]. exact Ht. }
  split_and!; [lia|by apply tree_ok_range in Ht|exact Ht].
Qed.

Lemma shard_node i root : roots !! i = Some root ->
  exists n, metadata_nodes m !! root = Some n /\ mn_covered_range n = rng i.
Proof using Hdev.
  intros Hr. destruct (shard_of_root i root Hr) as (_ & _ & Ht). unfold tree_fuel in Ht.
  destruct Ht as (n & ? & _ & ? & _). eauto.
Qed.

(** The chunks of a range. *)
Definition chunk_at_shard (q : BlockRange) (s : nat * MetadataNodeId) : option DeviceWriteChunk :=
  mkDeviceWriteChunk (Z.of_nat s.1) s.2 <$> overlap (rng s.1) q.

Lemma split_shard_run q i root acc :
  wf_block_range q -> roots !! i = Some root ->
  split_shard m q acc (i, root) =
    Ok (acc ++ match chunk_at_shard q (i, root) with Some ch => [ch] | None => [] end).
Proof using Hdev Hmany.
  intros Hq Hr. destruct (shard_node i root Hr) as (n & Hn & Hcov). destruct (shard_of_root i root Hr) as (Hi & (Hwr & _) & _).
  unfold split_shard, get_metadata_node. rewrite Hn. cbn [ok_or mbind Result_bind].
  rewrite Hcov, intersection_eval by done. cbn [mbind Result_bind]. unfold chunk_at_shard. cbn [fst snd].
  destruct (overlap (rng i) q) as [ov|]; cbn [fmap option_fmap option_map]; [|by rewrite app_nil_r].
  by replace (U32_MOD <=? Z.of_nat i) with false by (symmetry; apply Z.leb_gt; lia).
Qed.

Lemma split_shards q l acc :
  wf_block_range q -> (forall s, s ∈ l -> roots !! s.1 = Some s.2) ->
  try_fold (split_shard m q) acc l = Ok (acc ++ omap (chunk_at_shard q) l).
Proof using Hdev Hmany.
  intros Hq. revert acc. induction l as [|[i root] l IH]; intros acc Hl; cbn [try_fold omap list_omap].
  { by rewrite app_nil_r. }
  rewrite split_shard_run by (done || exact (Hl (i, root) ltac:(by left))). cbn [mbind Result_bind].
  rewrite IH by (intros; apply Hl; by right). rewrite <-app_assoc. by destruct (chunk_at_shard q (i, root)).
Qed.

(** The blocks of an aligned byte range. *)
Definition byte_blocks (o n : Z) : BlockRange := mkBlockRange (o / bs) (n / bs).

Lemma shard_of_block b : 0 <= b < blocks -> exists i root, roots !! i = Some root /\ in_block_range (rng i) b.
Proof using Hdev.
  intros Hb. destruct (device_shards_chain config blocks roots (dok_shards _ _ _ _ Hdev) shards_length) as [Hch _].
  destruct (child_at_Some _ _ _ b Hch Hb) as (ch & _ & (k & Hk)%list_elem_of_lookup & Hin).
  apply lookup_zip_with_Some in Hk as (i & root & -> & [-> _]%lookup_seqZ & Hroot). exists k, root. split; [done|exact Hin].
Qed.

Lemma rng_disjoint i j ri rj b :
  roots !! i = Some ri -> roots !! j = Some rj -> in_block_range (rng i) b -> in_block_range (rng j) b -> i = j.
Proof using Hdev.
  intros Hi Hj Hbi Hbj. destruct (shard_of_root i ri Hi) as (Hil & _). destruct (shard_of_root j rj Hj) as (Hjl & _).
  pose proof (dok_shards _ _ _ _ Hdev) as Hn. set (n := shard_count config) in *.
  assert (Hmono : forall a e, 0 <= a -> a <= e -> blocks * a / n <= blocks * e / n) by (intros; apply Z.div_le_mono; nia).
  unfold rng, shard_range, in_block_range in *. fold n in Hbi, Hbj. cbn in Hbi, Hbj.
  destruct (decide (i < j)%nat) as [Hlt|Hge]; [pose proof (Hmono (Z.of_nat i + 1) (Z.of_nat j)); lia|].
  destruct (decide (j < i)%nat) as [Hlt|?]; [pose proof (Hmono (Z.of_nat j + 1) (Z.of_nat i)); lia|lia].
Qed.

Lemma split_range_run o n latest gen :
  0 <= o -> 0 < n -> o mod bs = 0 -> n mod bs = 0 -> o + n <= blocks * bs ->
  split_device_range m (mkDeviceInfo d gen spec latest) (mkByteRange o n) =
    Ok (omap (chunk_at_shard (byte_blocks o n)) shards).
Proof using Hbs Hdev Hhead Hmany Hsize.
  intros Ho Hn Hom Hnm Hend. pose proof (dok_bytes _ _ _ _ Hdev) as Hbytes.
  pose proof (Z.div_mod o bs ltac:(lia)). pose proof (Z.div_mod n bs ltac:(lia)).
  pose proof (Z.div_pos o bs Ho Hbs). assert (0 < n / bs) by nia.
  assert (Hq : wf_block_range (byte_blocks o n)).
  { unfold byte_blocks, wf_block_range, in_u64. cbn. split_and!; nia. }
  unfold split_device_range, get_head. cbn [di_spec di_device_id br_offset br_len]. rewrite Hsize, Hhead. cbn [ok_or mbind Result_bind].
  fold (byte_blocks o n) shards. rewrite split_shards; [|done|by intros [i root] ?%elem_of_shards].
  cbn [mbind Result_bind app].
  destruct (shard_of_block (o / bs)) as (i & root & Hr & Hin); [nia|].
  assert (Hne : omap (chunk_at_shard (byte_blocks o n)) shards <> []).
  { intros Heq. destruct (overlap (rng i) (byte_blocks o n)) as [ov|] eqn:Hov.
    - apply (not_elem_of_nil (mkDeviceWriteChunk (Z.of_nat i) root ov)). rewrite <-Heq. apply list_elem_of_omap.
      exists (i, root). split; [by apply elem_of_shards|]. unfold chunk_at_shard. cbn. by rewrite Hov.
    - apply (overlap_None _ _ (o / bs) Hov). split; [done|]. unfold in_block_range, byte_blocks. cbn. lia. }
  by rewrite bool_decide_eq_false_2.
Qed.

(** ** Collecting the writes *)

Definition write_blocks (w : CollapsedBlockWrite) : BlockRange :=
  byte_blocks (cb_offset w) (zlen (cb_bytes w)).

(** The part of a write inside a block range. *)
Definition chunk_of (w : CollapsedBlockWrite) (ov : BlockRange) : BlockBatchShardChunk :=
  mkBlockBatchShardChunk ov (slice (cb_bytes w) (bk_start ov * bs - cb_offset w) (bk_blocks ov * bs))
    (cb_payload_integrity w).

Definition shard_chunk (i : nat) (w : CollapsedBlockWrite) : option BlockBatchShardChunk :=
  chunk_of w <$> overlap (rng i) (write_blocks w).

(** A collapsed write of this device. *)
Definition fits (w : CollapsedBlockWrite) : Prop := wf_cb bs w /\ cb_end w <= blocks * bs.

Definition pending_chunks (pm : gmap ShardId BlockBatchShardPending) (i : nat) : list BlockBatchShardChunk :=
  default [] (bsp_chunks <$> pm !! Z.of_nat i).

Definition pending_ok (pm : gmap ShardId BlockBatchShardPending) : Prop :=
  forall i p, pm !! i = Some p ->
    0 <= i /\ roots !! Z.to_nat i = Some (bsp_old_root p) /\ bsp_chunks p <> [].

Lemma write_blocks_bounds w : fits w ->
  bk_start (write_blocks w) * bs = cb_offset w /\ bk_end (write_blocks w) * bs = cb_end w.
Proof using Hbs.
  intros ((H0 & Hl & _ & Hm & Hlm) & _). unfold write_blocks, byte_blocks, bk_end, cb_end. cbn.
  pose proof (Z.div_mod (cb_offset w) bs ltac:(lia)). pose proof (Z.div_mod (zlen (cb_bytes w)) bs ltac:(lia)). lia.
Qed.

Lemma pend_chunk_run w i root ov pm :
  fits w -> roots !! i = Some root -> overlap (rng i) (write_blocks w) = Some ov -> pending_ok pm ->
  pend_chunk bs w pm (mkDeviceWriteChunk (Z.of_nat i) root ov) =
    Ok (<[Z.of_nat i := mkBlockBatchShardPending root (pending_chunks pm i ++ [chunk_of w ov])]> pm).
Proof using Hbs Hdev.
  intros Hw Hr Hov Hpm. destruct (write_blocks_bounds w Hw) as [Hs He].
  pose proof (overlap_within _ _ _ Hov) as (H1 & H2 & H3 & H4 & H5).
  destruct (shard_of_root i root Hr) as (_ & ((? & _) & _ & Hb) & _). destruct Hw as ((? & ? & Hend & _) & _).
  unfold in_u64, cb_end, bk_end, zlen in *. unfold pend_chunk. cbn [dwc_range dwc_shard_id dwc_old_root].
  apply (Z.mul_le_mono_nonneg_r _ _ bs) in H3, H4; [|lia..].
  assert (Hin : cb_offset w <= bk_start ov * bs /\
    (bk_start ov + bk_blocks ov) * bs <= cb_offset w + Z.of_nat (length (cb_bytes w))) by lia.
  unfold block_range_to_byte_range. rewrite !checked_mul_ok by nia. cbn [ok_or mbind Result_bind br_offset br_len].
  rewrite checked_sub_ok by lia. cbn [ok_or mbind Result_bind]. rewrite checked_add_ok by nia. cbn [ok_or mbind Result_bind].
  replace (Z.of_nat (length (cb_bytes w)) <? _) with false by (symmetry; apply Z.ltb_ge; nia). cbn [reject_if mbind Result_bind].
  unfold pending_chunks, chunk_of. destruct (pm !! Z.of_nat i) as [p|] eqn:Hp; cbn [from_option id fmap option_fmap option_map bsp_old_root bsp_chunks].
  - destruct (Hpm _ _ Hp) as (_ & Hroot & _). rewrite Nat2Z.id in Hroot. assert (bsp_old_root p = root) as -> by congruence.
    by rewrite Z.eqb_refl.
  - by rewrite Z.eqb_refl.
Qed.

Lemma pend_chunks_run w l pm :
  fits w -> pending_ok pm -> (forall s, s ∈ l -> roots !! s.1 = Some s.2) -> NoDup l.*1 ->
  exists pm', try_fold (pend_chunk bs w) pm (omap (chunk_at_shard (write_blocks w)) l) = Ok pm' /\ pending_ok pm' /\
    forall i, pending_chunks pm' i = pending_chunks pm i ++
      (if decide (i ∈ l.*1) then option_list (shard_chunk i w) else []).
Proof using Hbs Hdev.
  intros Hw. revert pm. induction l as [|[i root] l IH]; intros pm Hpm Hl Hnd; cbn [omap list_omap].
  { exists pm. split_and!; [done|done|]. intros i. by rewrite app_nil_r. }
  apply NoDup_cons in Hnd as [Hni Hnd]. specialize (Hl (i, root) ltac:(by left)) as Hr. cbn in Hr.
  assert (Hl' : forall s, s ∈ l -> roots !! s.1 = Some s.2) by (intros; apply Hl; by right).
  unfold chunk_at_shard at 1. cbn [fst snd]. destruct (overlap (rng i) (write_blocks w)) as [ov|] eqn:Hov; cbn [fmap option_fmap option_map].
  - cbn [try_fold]. rewrite (pend_chunk_run w i root ov pm) by done. cbn [mbind Result_bind].
    set (pm1 := <[Z.of_nat i := _]> pm).
    destruct (IH pm1) as (pm' & Hrun & Hok & Hch); [|done|done|].
    { intros j p. unfold pm1. intros [[<- <-]|[Hne Hj]]%lookup_insert_Some; [|by apply Hpm].
      cbn. rewrite Nat2Z.id. split_and!; [lia|done|]. intros [_ [=]]%app_eq_nil. }
    exists pm'. split_and!; [done|done|]. intros j. rewrite Hch.
    destruct (decide (j = i)) as [->|Hne].
    + rewrite decide_False, decide_True; [|by left|done]. unfold pending_chunks at 1, pm1. rewrite lookup_insert_eq. cbn.
      unfold shard_chunk. rewrite Hov. cbn. by rewrite app_nil_r.
    + assert (Hpc : pending_chunks pm1 j = pending_chunks pm j).
      { unfold pending_chunks, pm1. by rewrite lookup_insert_ne by lia. }
      rewrite Hpc. f_equal. cbn [list_fmap fmap]. destruct (decide (j ∈ l.*1)) as [Hj|Hj].
      * rewrite decide_True; [done|by right].
      * rewrite decide_False; [done|]. cbn. rewrite elem_of_cons. naive_solver.
  - destruct (IH pm Hpm Hl' Hnd) as (pm' & Hrun & Hok & Hch). exists pm'. split_and!; [done|done|]. intros j. rewrite Hch. f_equal.
    destruct (decide (j = i)) as [->|Hne].
    + rewrite decide_False, decide_True; [|by left|done]. unfold shard_chunk. by rewrite Hov.
    + destruct (decide (j ∈ l.*1)) as [Hj|Hj].
      * rewrite decide_True; [done|by right].
      * rewrite decide_False; [done|]. cbn. rewrite elem_of_cons. naive_solver.
Qed.

Lemma pend_writes_run ws pm gen latest :
  Forall fits ws -> pending_ok pm ->
  exists pm', try_fold (pend_write m (mkDeviceInfo d gen spec latest)) pm ws = Ok pm' /\ pending_ok pm' /\
    forall i, (i < length roots)%nat -> pending_chunks pm' i = pending_chunks pm i ++ omap (shard_chunk i) ws.
Proof using Hbs Hdev Hhead Hmany Hsize.
  intros Hws. revert pm. induction Hws as [|w ws Hw Hws IH]; intros pm Hpm; cbn [try_fold].
  { exists pm. split_and!; [done|done|]. intros. by rewrite app_nil_r. }
  pose proof Hw as ((H0 & Hl & Hend & Hm & Hlm) & Hfit).
  destruct (pend_chunks_run w shards pm) as (pm1 & Hrun & Hok1 & Hch1); [done|done|by intros [i root] ?%elem_of_shards|apply shards_nodup|].
  assert (Hpw : pend_write m (mkDeviceInfo d gen spec latest) pm w = Ok pm1).
  { unfold pend_write, CollapsedBlockWrite_byte_range. unfold cb_end in *. rewrite len_u64_ok by lia. cbn [mbind Result_bind].
    rewrite split_range_run by (done || lia). cbn [mbind Result_bind di_spec]. by rewrite Hsize. }
  destruct (IH pm1 Hok1) as (pm' & Hrun' & Hok' & Hch'). exists pm'.
  split_and!; [by rewrite Hpw|done|]. intros i Hi. rewrite Hch', Hch1 by done. rewrite decide_True.
  - rewrite <-app_assoc. f_equal. cbn [omap list_omap]. by destruct (shard_chunk i w).
  - destruct (lookup_lt_is_Some_2 roots i Hi) as [root Hr]. apply list_elem_of_fmap. exists (i, root). split; [done|by apply elem_of_shards].
Qed.

(** ** What the shards receive *)

Definition ch_start (ch : BlockBatchShardChunk) : Z := bk_start (bsc_range ch).
Definition ch_end (ch : BlockBatchShardChunk) : Z := bk_end (bsc_range ch).
Definition ch_at (ch : BlockBatchShardChunk) (y : Z) : option cell :=
  (fun b => (b, bsc_payload_integrity ch)) <$> bytes_at (ch_start ch * bs) (bsc_bytes ch) y.

(** A chunk inside a range, with a payload of its size. *)
Definition chunk_in (r : BlockRange) (ch : BlockBatchShardChunk) : Prop :=
  bk_start r <= ch_start ch /\ ch_end ch <= bk_end r /\ 0 < bk_blocks (bsc_range ch) /\
  zlen (bsc_bytes ch) = bk_blocks (bsc_range ch) * bs.

Lemma chunk_of_ok w ov r :
  fits w -> overlap r (write_blocks w) = Some ov ->
  chunk_in r (chunk_of w ov) /\ bk_start (write_blocks w) <= bk_start ov /\ bk_end ov <= bk_end (write_blocks w) /\
  forall y, ch_at (chunk_of w ov) y =
    if in_range (bk_start ov * bs) (bk_end ov * bs) y then cb_at w y else None.
Proof using Hbs.
  intros Hw Hov. destruct (write_blocks_bounds w Hw) as [Hs He].
  pose proof (overlap_within _ _ _ Hov) as (H1 & H2 & H3 & H4 & H5).
  pose proof (Z.mul_le_mono_nonneg_r _ _ bs ltac:(lia) H3). pose proof (Z.mul_le_mono_nonneg_r _ _ bs ltac:(lia) H4).
  unfold chunk_in, ch_start, ch_end, ch_at. cbn [chunk_of bsc_range bsc_bytes]. unfold bk_end, cb_end, zlen in *.
  split_and!; try lia; [apply slice_length; nia|]. intros y. unfold slice, ch_start, cb_at. cbn [bsc_range bsc_payload_integrity chunk_of].
  replace (bk_blocks ov * bs) with ((bk_start ov + bk_blocks ov) * bs - bk_start ov * bs) by lia.
  rewrite bytes_at_take by nia. destruct (in_range _ _ y) eqn:Hin; [|done]. apply in_range_true in Hin.
  rewrite bytes_at_drop by lia. by ztest.
Qed.

Lemma shard_chunk_at i w y :
  fits w -> in_block_range (rng i) (y / bs) ->
  (match shard_chunk i w with Some ch => ch_at ch y | None => None end) = cb_at w y.
Proof using Hbs.
  intros Hw Hy. unfold shard_chunk. destruct (write_blocks_bounds w Hw) as [Hs He]. unfold cb_end in He.
  assert (Hq : forall ov, overlap (rng i) (write_blocks w) = ov ->
    (exists b, cb_at w y = Some b) -> in_block_range (write_blocks w) (y / bs)).
  { intros ov _ [b Hb%cb_at_dom]. apply byte_in_blocks; [done|]. unfold bk_end, cb_end in *. lia. }
  destruct (overlap (rng i) (write_blocks w)) as [ov|] eqn:Hov; cbn [fmap option_fmap option_map].
  - destruct (chunk_of_ok w ov (rng i) Hw Hov) as (_ & _ & _ & ->).
    destruct (in_range _ _ y) eqn:Hin; [done|]. apply in_range_false in Hin.
    destruct (cb_at w y) as [b|] eqn:Hb; [exfalso|done]. apply Hin. apply byte_in_blocks; [done|].
    apply (overlap_Some _ _ _ Hov). split; [exact Hy|]. eapply Hq; eauto.
  - destruct (cb_at w y) as [b|] eqn:Hb; [exfalso|done]. eapply overlap_None; [exact Hov|]. split; [exact Hy|]. eapply Hq; eauto.
Qed.

Lemma shard_chunks_at i ws y :
  Forall fits ws -> in_block_range (rng i) (y / bs) ->
  first_at ch_at (omap (shard_chunk i) ws) y = first_at cb_at ws y.
Proof using Hbs.
  intros Hws Hy. induction Hws as [|w ws Hw Hws IH]; [done|]. cbn [omap list_omap first_at].
  pose proof (shard_chunk_at i w y Hw Hy) as Hat.
  destruct (shard_chunk i w) as [ch|]; cbn [first_at]; rewrite <-Hat; [|exact IH].
  destruct (ch_at ch y); [done|exact IH].
Qed.

Lemma shard_chunks_sorted i ws :
  Forall fits ws -> iv_sorted cb_offset cb_end ws ->
  iv_sorted ch_start ch_end (omap (shard_chunk i) ws) /\ Forall (chunk_in (rng i)) (omap (shard_chunk i) ws).
Proof using Hbs.
  intros Hws [Hs _]. induction Hs as [|w ws Hs IH Hafter]; [by repeat constructor|].
  apply Forall_cons in Hws as [Hw Hws]. destruct (IH Hws) as [[Hs' Hn'] Hin']. cbn [omap list_omap].
  destruct (shard_chunk i w) as [ch0|] eqn:Hsc; [|done]. unfold shard_chunk in Hsc.
  destruct (overlap (rng i) (write_blocks w)) as [ov|] eqn:Hov; [|done]. injection Hsc as <-.
  destruct (chunk_of_ok w ov (rng i) Hw Hov) as (Hch & Hlo & Hhi & _). split; [split|].
  - constructor; [done|]. apply Forall_forall. intros ch (w' & Hw' & Hch')%list_elem_of_omap.
    unfold shard_chunk in Hch'. destruct (overlap (rng i) (write_blocks w')) as [ov'|] eqn:Hov'; [|done]. injection Hch' as <-.
    rewrite Forall_forall in Hws, Hafter. destruct (chunk_of_ok w' ov' (rng i) (Hws w' Hw') Hov') as (_ & Hlo' & _).
    specialize (Hafter w' Hw'). unfold iv_before in *. destruct (write_blocks_bounds w Hw) as [_ He].
    destruct (write_blocks_bounds w' (Hws w' Hw')) as [Hs2 _]. unfold ch_end, ch_start. cbn [chunk_of bsc_range]. nia.
  - constructor; [|done]. unfold iv_nonempty, ch_start, ch_end, bk_end. destruct Hch as (_ & _ & ? & _). lia.
  - by constructor.
Qed.

(** The payloads of all shards together are those of the collapsed writes. *)
Definition all_chunks (pm : gmap ShardId BlockBatchShardPending) : list BlockBatchShardChunk :=
  concat ((fun p => bsp_chunks p.2) <$> bt_iter pm).

Definition chunk_bytes (chs : list BlockBatchShardChunk) : Z := foldr (fun ch n => zlen (bsc_bytes ch) + n) 0 chs.

Lemma chunk_byte_end r ch : chunk_in r ch -> ch_start ch * bs + zlen (bsc_bytes ch) = ch_end ch * bs.
Proof using Type. intros (_ & _ & _ & ->). unfold ch_start, ch_end, bk_end. lia. Qed.

Lemma chunks_apart r chs :
  iv_sorted ch_start ch_end chs -> Forall (chunk_in r) chs ->
  iv_apart (fun ch => ch_start ch * bs) (fun ch => ch_start ch * bs + zlen (bsc_bytes ch)) chs.
Proof using Hbs.
  intros [Hs _] Hin. split.
  - induction Hs as [|ch chs Hs IH Hafter]; [constructor|]. apply Forall_cons in Hin as [Hch Hin].
    constructor; [by apply IH|]. rewrite Forall_forall in Hafter |- *. intros ch' Hch'. left. unfold iv_before.
    rewrite (chunk_byte_end r ch Hch). specialize (Hafter ch' Hch'). unfold iv_before in Hafter. nia.
  - eapply Forall_impl; [exact Hin|]. intros ch Hch. unfold iv_nonempty. rewrite (chunk_byte_end r ch Hch).
    destruct Hch as (_ & _ & ? & _). unfold ch_start, ch_end, bk_end. nia.
Qed.

(** A map of chunks that respects the shards. *)
Definition shards_ok (l : list (ShardId * BlockBatchShardPending)) : Prop :=
  forall i p, (i, p) ∈ l -> 0 <= i /\ is_Some (roots !! Z.to_nat i) /\
    iv_sorted ch_start ch_end (bsp_chunks p) /\ Forall (chunk_in (rng (Z.to_nat i))) (bsp_chunks p).

Lemma shards_apart (l : list (ShardId * BlockBatchShardPending)) :
  NoDup l.*1 -> shards_ok l ->
  iv_apart (fun ch => ch_start ch * bs) (fun ch => ch_start ch * bs + zlen (bsc_bytes ch))
    (concat ((fun p => bsp_chunks p.2) <$> l)).
Proof using Hbs Hdev.
  induction l as [|[i p] l IH]; intros Hnd Hl; [apply iv_apart_nil|].
  apply NoDup_cons in Hnd as [Hni Hnd]. cbn [fmap list_fmap concat snd].
  destruct (Hl i p ltac:(by left)) as (Hi & [ri Hri] & Hs & Hin). apply iv_apart_app. split_and!.
  - by eapply chunks_apart.
  - apply IH; [done|]. intros j q Hq. apply Hl. by right.
  - intros ch ch' Hch Hch'. rewrite elem_of_concat in Hch'. destruct Hch' as (chs & ([j q] & -> & Hq)%list_elem_of_fmap & Hch').
    destruct (Hl j q ltac:(by right)) as (Hj & [rj Hrj] & _ & Hin'). rewrite Forall_forall in Hin, Hin'.
    specialize (Hin ch Hch). specialize (Hin' ch' Hch'). unfold iv_disjoint, iv_before.
    rewrite (chunk_byte_end _ _ Hin), (chunk_byte_end _ _ Hin').
    destruct (decide (ch_end ch <= ch_start ch')) as [|H1]; [left; nia|].
    destruct (decide (ch_end ch' <= ch_start ch)) as [|H2]; [right; nia|]. exfalso.
    assert (Z.to_nat i = Z.to_nat j) as Heq.
    { apply (rng_disjoint _ _ ri rj (Z.max (ch_start ch) (ch_start ch')) Hri Hrj);
        unfold chunk_in, in_block_range, ch_start, ch_end, bk_end in *; lia. }
    apply Hni. apply list_elem_of_fmap. exists (j, q). split; [cbn; lia|done].
Qed.

(** The batch by shard. *)
Lemma pending_run ws gen latest :
  Forall fits ws -> iv_sorted cb_offset cb_end ws ->
  exists pm, try_fold (pend_write m (mkDeviceInfo d gen spec latest)) ∅ ws = Ok pm /\ pending_ok pm /\
    shards_ok (bt_iter pm) /\
    (forall i y, (i < length roots)%nat -> in_block_range (rng i) (y / bs) ->
      first_at ch_at (pending_chunks pm i) y = first_at cb_at ws y) /\
    chunk_bytes (all_chunks pm) <= foldr (fun w n => zlen (cb_bytes w) + n) 0 ws.
Proof using Hbs Hdev Hhead Hmany Hsize.
  intros Hws Hs. destruct (pend_writes_run ws ∅ gen latest Hws) as (pm & Hrun & Hok & Hch); [done|].
  assert (Hch' : forall i, (i < length roots)%nat -> pending_chunks pm i = omap (shard_chunk i) ws).
  { intros i Hi. rewrite Hch by done. unfold pending_chunks. by rewrite lookup_empty. }
  assert (Hentry : forall i p, pm !! i = Some p ->
    0 <= i /\ is_Some (roots !! Z.to_nat i) /\ bsp_chunks p = omap (shard_chunk (Z.to_nat i)) ws).
  { intros i p Hp. destruct (Hok i p Hp) as (Hi & Hr & _). split_and!; [done|by rewrite Hr|].
    rewrite <-Hch' by (by eapply lookup_lt_Some). unfold pending_chunks. rewrite Z2Nat.id by done. by rewrite Hp. }
  assert (Hshards : shards_ok (bt_iter pm)).
  { intros i p Hp%elem_of_bt_iter. destruct (Hentry i p Hp) as (Hi & Hr & ->).
    split_and!; [done|done|by apply shard_chunks_sorted..]. }
  exists pm. split_and!; [done|done|done| |].
  - intros i y Hi Hy. rewrite Hch' by done. by apply shard_chunks_at.
  - unfold chunk_bytes. rewrite <-(points_size_apart (fun ch => ch_start ch * bs) (fun ch => zlen (bsc_bytes ch))).
    2:{ apply shards_apart; [|done]. apply bt_keys_nodup. }
    pose proof (iv_sorted_apart _ _ _ Hs) as Ha. unfold cb_end in Ha.
    rewrite <-(points_size_apart cb_offset (fun w => zlen (cb_bytes w)) ws Ha).
    apply inj_le, subseteq_size. intros y (ch & Hin & Hy)%elem_of_points. apply elem_of_points.
    unfold all_chunks in Hin. rewrite elem_of_concat in Hin. destruct Hin as (chs & ([i p] & -> & Hp%elem_of_bt_iter)%list_elem_of_fmap & Hin).
    destruct (Hentry i p Hp) as (_ & _ & Heq). cbn [snd] in Hin. rewrite Heq in Hin.
    apply list_elem_of_omap in Hin as (w & Hw & Hc). exists w. split; [done|].
    rewrite Forall_forall in Hws. specialize (Hws w Hw). unfold shard_chunk in Hc.
    destruct (overlap (rng (Z.to_nat i)) (write_blocks w)) as [ov|] eqn:Hov; [|done]. injection Hc as <-.
    destruct (chunk_of_ok w ov _ Hws Hov) as (Hcin & Hlo & Hhi & _). rewrite (chunk_byte_end _ _ Hcin) in Hy.
    destruct (write_blocks_bounds w Hws) as [Hs1 He1]. unfold cb_end, ch_start, ch_end in *. cbn [chunk_of bsc_range] in Hy. nia.
Qed.
End plan.
