(* ===== verification/BlockCommit.v ===== *)
(** * Committing a batch to a device

    The payloads of a batch are written as new segments, the trees of the shards
    are edited to point to them, the new roots are published in one commit, and
    the segments are marked as referenced.  Each phase is proved to succeed, and
    to do exactly this, on a well-formed store with room. *)

From S2P Require Import Prelude Intervals Api Object TreeEdit Batch Provider Authority Config.
From S2P Require Import Catalog SegmentStore StorageNode Streams Plane Timeline History Coordinator.
From S2P Require Import SegmentPool CowTree CowSpec Trees ReadPath ReadSpec BlockOps BlockPlan.

#[local] Opaque WriteGrant_hash deterministic_test_proof_for_grant
  deterministic_test_proof_for_receipt deterministic_test_proof_for_reference.

(** A loop with an invariant over the elements it has passed. *)
Lemma st_fold_run {T A B} (I : list A -> B -> T -> Prop) (f : B -> A -> ST T B) l b s :
  I [] b s ->
  (forall pre x rest b s, l = pre ++ x :: rest -> I pre b s ->
    exists b' s', f b x s = (Ok b', s') /\ I (pre ++ [x]) b' s') ->
  exists b' s', st_fold f b l s = (Ok b', s') /\ I l b' s'.
Proof.
  intros H0 Hf.
  assert (Hgen : forall rest pre b s, l = pre ++ rest -> I pre b s ->
    exists b' s', st_fold f b rest s = (Ok b', s') /\ I l b' s').
  2:{ by apply (Hgen l []). }
  induction rest as [|x rest IH]; intros pre b0 s0 Hl HI; cbn [st_fold].
  { rewrite app_nil_r in Hl. subst. by exists b0, s0. }
  destruct (Hf pre x rest b0 s0 Hl HI) as (b1 & s1 & Hx & HI1). rewrite st_bind_run, Hx.
  apply (IH (pre ++ [x])); [by rewrite <-app_assoc|done].
Qed.

(** ** Segments *)

Section segments.
Context {CR : Crc32cCrate} (bs : Z).
Hypothesis Hbs : 0 < bs.

(** Segments were written: the rest of the coordinator is as before, and so is
    every payload and every receipt. *)
Record stored (c c' : LocalCoordinator) : Prop := {
  st_rest : c' = set_co_verified_receipt_cache (co_verified_receipt_cache c')
    (set_co_storage_nodes (co_storage_nodes c') c);
  st_payload : forall id bytes, segment_payload (co_storage_nodes c) id = Some bytes ->
    segment_payload (co_storage_nodes c') id = Some bytes;
  st_receipt : forall id rc, Registry_receipt_for_segment (co_storage_nodes c) id = Ok rc ->
    Registry_receipt_for_segment (co_storage_nodes c') id = Ok rc;
}.

#[export] Instance stored_preorder : PreOrder stored.
Proof using Type.
  split.
  - intros c. constructor; [by destruct c|done|done].
  - intros c1 c2 c3 [R12 P12 E12] [R23 P23 E23]. constructor; [|by auto|by auto]. rewrite R23, R12. by destruct c1.
Qed.

Lemma stored_metadata c c' : stored c c' -> co_metadata c' = co_metadata c.
Proof using Type. intros [R _ _]. by rewrite R. Qed.

Lemma stored_fetch c c' id v : stored c c' -> fetch_receipt c id = Ok v -> fetch_receipt c' id = Ok v.
Proof using Type.
  intros S. unfold fetch_receipt. intros (rc & Hrc & Hv)%bind_Ok. by rewrite (st_receipt _ _ S _ _ Hrc).
Qed.

(** A receipt of a stored segment, as the storage nodes would give it. *)
Definition known (c : LocalCoordinator) (v : VerifiedSegmentReceipt) : Prop :=
  let id := sd_segment_id (vr_descriptor v) in
  is_Some (segment_payload (co_storage_nodes c) id) /\ fetch_receipt c id = Ok v.

(** The receipts of what was written: each is known, and no other segment waits
    for a reference. *)
Definition written (c c' : LocalCoordinator) (vs : list VerifiedSegmentReceipt) : Prop :=
  Forall (known c') vs /\
  forall id, pending (co_storage_nodes c') id ->
    pending (co_storage_nodes c) id \/ id ∈ (fun v => sd_segment_id (vr_descriptor v)) <$> vs.

(** The cache agrees with the storage nodes. *)
Definition cache_ok (c : LocalCoordinator) : Prop :=
  forall id v, co_verified_receipt_cache c !! id = Some v -> fetch_receipt c id = Ok v.

Lemma known_stored c c' v : stored c c' -> known c v -> known c' v.
Proof using Type.
  intros S [[bytes Hb] Hf]. split; [|by eapply stored_fetch]. by rewrite (st_payload _ _ S _ _ Hb).
Qed.

Lemma written_nil c : written c c [].
Proof using Type. split; [done|by left]. Qed.

Lemma written_app c c1 c2 vs ws :
  stored c1 c2 -> written c c1 vs -> written c1 c2 ws -> written c c2 (vs ++ ws).
Proof using Type.
  intros S [K1 P1] [K2 P2]. split.
  - apply Forall_app. split; [|done]. eapply Forall_impl; [exact K1|]. intros v. by apply known_stored.
  - intros id. rewrite fmap_app, elem_of_app. intros [[?|?]%P1|?]%P2; auto.
Qed.

(** What the writes need of the store: room for [b] more bytes. *)
Record segments_ok (b : Z) (c : LocalCoordinator) : Prop := {
  so_pool : pool_wf bs (co_storage_nodes c);
  so_room : pool_room (co_storage_nodes c) b;
  so_cache : cache_ok c;
}.

Lemma write_segment_stored intent wi data dur pi c b :
  segments_ok b c -> data <> [] -> zlen data mod bs = 0 -> zlen data <= b ->
  exists v c', write_segment_for_intent intent wi data dur pi c = (Ok v, c') /\
    stored c c' /\ segments_ok (b - zlen data) c' /\ written c c' [v] /\
    segment_payload (co_storage_nodes c') (sd_segment_id (vr_descriptor v)) = Some data /\
    segment_payload (co_storage_nodes c) (sd_segment_id (vr_descriptor v)) = None /\
    Registry_receipt_for_segment (co_storage_nodes c') (sd_segment_id (vr_descriptor v)) = Ok (vr_receipt v) /\
    receipt_mode (vr_receipt v) = pi.
Proof using Type.
  intros [Hp Hr Hc] Hne Hmod Hb.
  destruct (write_segment_run bs intent wi data dur pi c b Hp Hr Hne Hmod Hb) as (v & s & Hrun & Hp' & Hr' & Hw).
  set (c' := set_co_verified_receipt_cache _ _) in Hrun. exists v, c'.
  assert (Hnone : segment_payload (co_storage_nodes c) (rg_next_segment_id (co_storage_nodes c)) = None).
  { destruct (segment_payload _ _) as [x|] eqn:Hx; [|done]. apply (payload_not_fresh bs) in Hx; [lia|done]. }
  assert (Hst : stored c c').
  { constructor; [by destruct c|..]; intros id x Hid; cbn; destruct (pwr_others _ _ _ _ _ Hw id) as [Hpo Hro];
      rewrite ?Hpo, ?Hro; try done; intros ->; [congruence|].
    by apply (receipt_not_fresh bs) in Hid; [lia|]. }
  assert (Hk : known c' v).
  { unfold known. rewrite (pwr_id _ _ _ _ _ Hw). cbn. split; [rewrite (pwr_payload _ _ _ _ _ Hw); by eauto|].
    unfold fetch_receipt. cbn. rewrite (pwr_receipt _ _ _ _ _ Hw). exact (pwr_verified _ _ _ _ _ Hw). }
  assert (Hwr : written c c' [v]).
  { split; [by apply Forall_singleton|]. intros id [?| ->]%(pwr_pending _ _ _ _ _ Hw); [by left|right].
    rewrite <-(pwr_id _ _ _ _ _ Hw). by left. }
  pose proof (pwr_receipt _ _ _ _ _ Hw) as Hrec. pose proof (pwr_mode _ _ _ _ _ Hw) as Hmode.
  unfold segment_mode in Hmode. rewrite Hrec in Hmode.
  split_and!; [done|done| |done|rewrite (pwr_id _ _ _ _ _ Hw); by try apply Hw..|done].
  constructor; [done|done|]. intros id v'. cbn. intros [[<- <-]|[Hne' Hl]]%lookup_insert_Some.
  - destruct Hk as [_ Hk]. by rewrite (pwr_id _ _ _ _ _ Hw) in Hk.
  - eapply stored_fetch; [exact Hst|]. by apply Hc.
Qed.

Lemma receipts_by_segment_elem adds id v : receipts_by_segment adds !! id = Some v -> v ∈ adds.
Proof using Type.
  unfold receipts_by_segment.
  enough (Hgen : forall m : gmap SegmentId VerifiedSegmentReceipt,
    fold_left (fun m v => <[sd_segment_id (vr_descriptor v) := v]> m) adds m !! id = Some v ->
    m !! id = Some v \/ v ∈ adds).
  { intros [H|H]%Hgen; [by rewrite lookup_empty in H|done]. }
  induction adds as [|w adds IH]; intros m; cbn [fold_left]; [by left|].
  intros [[[_ <-]|[_ ?]]%lookup_insert_Some|?]%IH; [right; by left|by left|right; by right].
Qed.

(** Every receipt the tree edits ask for is there. *)
Lemma known_ready c adds :
  pool_wf bs (co_storage_nodes c) -> cache_ok c -> Forall (known c) adds ->
  receipts_ready (segment_size bs (co_storage_nodes c)) c adds.
Proof using Hbs.
  intros Hp Hc Ha id n Hn. unfold segment_size in Hn.
  destruct (segment_payload (co_storage_nodes c) id) as [bytes|] eqn:Hb; [|done]. injection Hn as <-.
  destruct (payload_receipt bs _ id bytes Hp Hb) as (rc & Hrc & Hok & _ & _ & _ & Hid & _ & Hblk & _).
  set (v := mkVerifiedSegmentReceipt rc (sr_descriptor rc)).
  assert (Hfetch : fetch_receipt c id = Ok v).
  { unfold fetch_receipt. rewrite Hrc. cbn [mbind Result_bind]. by apply verify_segment_receipt_Ok. }
  exists v. split_and!; [|done|cbn; rewrite <-Hblk, Z.div_mul; lia]. unfold receipt_source.
  destruct (receipts_by_segment adds !! id) as [w|] eqn:Hw.
  - pose proof (receipts_by_segment_elem _ _ _ Hw) as Hin. apply receipts_by_segment_key in Hw as Hwid. rewrite Forall_forall in Ha. destruct (Ha w Hin) as [_ Hf].
    rewrite Hwid, Hfetch in Hf. congruence.
  - destruct (co_verified_receipt_cache c !! id) as [w|] eqn:Hcw; [|done].
    specialize (Hc id w Hcw). congruence.
Qed.
End segments.

(** ** Runs and shards *)

Lemma iv_sorted_by {A} (lo hi : A -> Z) l : iv_sorted lo hi l -> sorted_by lo l.
Proof.
  intros [Hs Hn]. unfold sorted_by. induction Hs as [|x l Hs IH Hf]; [constructor|]. apply Forall_cons in Hn as [Hx Hn].
  constructor; [by apply IH|]. eapply Forall_impl; [exact Hf|]. intros y Hy. unfold iv_before, iv_nonempty in *. lia.
Qed.

Lemma integrity_runs_concat chs :
  concat (integrity_runs chs) = chs /\ Forall (fun run => run <> []) (integrity_runs chs).
Proof.
  induction chs as [|ch chs [IHc IHf]]; [done|]. cbn [integrity_runs].
  destruct (integrity_runs chs) as [|[|next run] runs]; cbn in IHc |- *.
  - subst chs. split; [done|]. by repeat constructor.
  - apply Forall_cons in IHf as [? _]. done.
  - apply Forall_cons in IHf as [_ IHf]. destruct (decide _); cbn; (split; [by rewrite IHc|by repeat constructor]).
Qed.

(** The mode a run is written with, and that all of its chunks have it. *)
Definition run_mode (run : list BlockBatchShardChunk) : PayloadIntegrity :=
  match run with chunk :: _ => bsc_payload_integrity chunk | [] => Verified end.

Definition uniform (run : list BlockBatchShardChunk) : Prop :=
  Forall (fun ch => bsc_payload_integrity ch = run_mode run) run.

Lemma integrity_runs_uniform chs : Forall uniform (integrity_runs chs).
Proof.
  induction chs as [|ch chs IH]; [done|]. cbn [integrity_runs].
  assert (Hone : uniform [ch]) by (by repeat constructor).
  destruct (integrity_runs chs) as [|[|next run] runs]; [by constructor..|].
  destruct (decide _) as [Heq|Hne]; [|by constructor]. apply Forall_cons in IH as [Hu IH].
  constructor; [|done]. unfold uniform in *. cbn [run_mode] in *. rewrite Heq in Hu. by constructor.
Qed.

Lemma iv_sorted_fmap {A B} (f : A -> B) (lo hi : B -> Z) l :
  iv_sorted lo hi (f <$> l) <-> iv_sorted (fun a => lo (f a)) (fun a => hi (f a)) l.
Proof.
  unfold iv_sorted. rewrite Forall_fmap. apply and_iff_compat_r.
  induction l as [|a l IH]; cbn; [split; constructor|]. split; intros [Hs Hf]%StronglySorted_inv.
  - constructor; [by apply IH|]. rewrite Forall_fmap in Hf. exact Hf.
  - constructor; [by apply IH|]. rewrite Forall_fmap. exact Hf.
Qed.

Lemma chunk_bytes_app l1 l2 : chunk_bytes (l1 ++ l2) = chunk_bytes l1 + chunk_bytes l2.
Proof. unfold chunk_bytes. induction l1 as [|ch l1 IH]; cbn; lia. Qed.

Lemma chunk_bytes_nonneg l : 0 <= chunk_bytes l.
Proof. unfold chunk_bytes, zlen. induction l; cbn; lia. Qed.

Lemma chunk_bytes_concat chs : zlen (concat (bsc_bytes <$> chs)) = chunk_bytes chs.
Proof. unfold zlen, chunk_bytes. induction chs as [|ch chs IH]; cbn; [done|]. rewrite length_app. unfold zlen in *. lia. Qed.

Section runs.
Context {CR : Crc32cCrate} (config : LocalStoreConfig).
Local Abbreviation bs := (cfg_block_size config).
Hypothesis Hbs : 0 < bs.

(** An edit stores a chunk at its place of a segment. *)
Definition edit_backed (c : LocalCoordinator) (ch : BlockBatchShardChunk) (e : BlockBatchShardEdit) : Prop :=
  bse_range e = bsc_range ch /\ 0 <= bse_segment_offset e <= bk_start (bse_range e) /\
  exists bytes, segment_payload (co_storage_nodes c) (sd_segment_id (vr_descriptor (bse_receipt e))) = Some bytes /\
    (bse_segment_offset e + bk_blocks (bse_range e)) * bs <= zlen bytes /\
    slice bytes (bse_segment_offset e * bs) (bk_blocks (bse_range e) * bs) = bsc_bytes ch /\
    segment_mode (co_storage_nodes c) (sd_segment_id (vr_descriptor (bse_receipt e))) = bsc_payload_integrity ch /\
    Registry_receipt_for_segment (co_storage_nodes c) (sd_segment_id (vr_descriptor (bse_receipt e))) =
      Ok (vr_receipt (bse_receipt e)).

Lemma edit_backed_stored c c' ch e : stored c c' -> edit_backed c ch e -> edit_backed c' ch e.
Proof using Type.
  intros S (H1 & H2 & bytes & Hb & H3 & H4 & H5 & H6). split_and!; [done|lia|lia|]. exists bytes.
  pose proof (st_payload _ _ S _ _ Hb). pose proof (st_receipt _ _ S _ _ H6) as H7. unfold segment_mode in *.
  rewrite H6 in H5. rewrite H7. by split_and!.
Qed.

Lemma edits_backed_stored c c' chs es :
  stored c c' -> Forall2 (edit_backed c) chs es -> Forall2 (edit_backed c') chs es.
Proof using Type. intros S H. eapply Forall2_impl; [exact H|]. intros ch e. by apply edit_backed_stored. Qed.

(** The segment of an edit was not there before. *)
Definition edit_fresh (c : LocalCoordinator) (e : BlockBatchShardEdit) : Prop :=
  segment_payload (co_storage_nodes c) (sd_segment_id (vr_descriptor (bse_receipt e))) = None.

Lemma edits_fresh_stored c c' es : stored c c' -> Forall (edit_fresh c') es -> Forall (edit_fresh c) es.
Proof using Type.
  intros S H. eapply Forall_impl; [exact H|]. unfold edit_fresh. intros e He.
  destruct (segment_payload (co_storage_nodes c) _) as [bytes|] eqn:Hb; [|done].
  pose proof (st_payload _ _ S _ _ Hb). congruence.
Qed.

Lemma run_edits_ok r c v run off pre bytes :
  Forall (chunk_in config r) run -> StronglySorted (iv_before ch_start ch_end) run ->
  bk_end r < U64_MOD -> 0 <= off -> zlen pre = off * bs ->
  (forall ch, head run = Some ch -> off <= ch_start ch) ->
  segment_payload (co_storage_nodes c) (sd_segment_id (vr_descriptor v)) = Some bytes ->
  bytes = pre ++ concat (bsc_bytes <$> run) ->
  Registry_receipt_for_segment (co_storage_nodes c) (sd_segment_id (vr_descriptor v)) = Ok (vr_receipt v) ->
  Forall (fun ch => bsc_payload_integrity ch = receipt_mode (vr_receipt v)) run ->
  exists es, run_edits v off run = Ok es /\ Forall2 (edit_backed c) run es /\
    Forall (fun e => bse_receipt e = v) es.
Proof using Hbs.
  intros Hin Hs Hr. revert off pre. induction Hs as [|ch run Hs IH Hafter]; intros off pre Hoff Hpre Hlo Hp Hbytes Hrec Hmode.
  { exists []. by split_and!. }
  apply Forall_cons in Hin as [Hch Hin]. apply Forall_cons in Hmode as [Hcm Hmode].
  pose proof Hch as (H1 & H2 & H3 & H4). specialize (Hlo ch eq_refl).
  cbn [run_edits]. unfold ch_start, ch_end, bk_end in *. rewrite checked_add_ok by lia. cbn [ok_or mbind Result_bind].
  destruct (IH Hin (off + bk_blocks (bsc_range ch)) (pre ++ bsc_bytes ch)) as (es & Hes & Hback & Hv).
  - lia.
  - unfold zlen in *. rewrite length_app. lia.
  - intros ch' Hch'. rewrite Forall_forall in Hafter. destruct run as [|x run]; [done|]. injection Hch' as ->.
    specialize (Hafter ch' ltac:(by left)). unfold iv_before in Hafter. lia.
  - done.
  - rewrite Hbytes, <-app_assoc. done.
  - done.
  - done.
  - exists (mkBlockBatchShardEdit (bsc_range ch) v off :: es). split; [by rewrite Hes|]. split; [|by constructor].
    constructor; [|done].
    unfold edit_backed. cbn [bse_range bse_segment_offset bse_receipt]. split_and!; [done|lia|lia|].
    exists bytes. split_and!; [done|rewrite Hbytes; cbn [fmap list_fmap concat]; unfold zlen in *; rewrite !length_app; lia| |by unfold segment_mode; rewrite Hrec|done].
    rewrite Hbytes. cbn [fmap list_fmap concat]. unfold slice, zlen in *.
    rewrite drop_app_length' by lia. rewrite take_app_length' by lia. done.
Qed.

Lemma packed_blocks_run r run total :
  Forall (chunk_in config r) run -> 0 <= total -> total * bs + chunk_bytes run < U64_MOD ->
  try_fold (fun total chunk => ok_or (checked_add U64_MOD total (bk_blocks (bsc_range chunk)))
    (InvalidArgument "block batch packed segment overflows")) total run =
    Ok (total + foldr (fun ch n => bk_blocks (bsc_range ch) + n) 0 run) /\
  foldr (fun ch n => bk_blocks (bsc_range ch) + n) 0 run * bs = chunk_bytes run.
Proof using Hbs.
  intros Hin. revert total. induction Hin as [|ch run (_ & _ & H3 & H4) Hin IH]; intros total H0 Hlt.
  { cbn. rewrite Z.add_0_r. done. }
  cbn [chunk_bytes foldr] in Hlt. fold (chunk_bytes run) in Hlt. pose proof (chunk_bytes_nonneg run).
  destruct (IH (total + bk_blocks (bsc_range ch))) as [Hf Hs]; [lia|lia|]. cbn [try_fold foldr].
  rewrite checked_add_ok by nia. cbn [ok_or mbind Result_bind]. rewrite Hf. split; [f_equal; lia|].
  cbn [chunk_bytes foldr]. fold (chunk_bytes run). lia.
Qed.

Lemma write_run_ok r d current wi dur sid root acc run c b :
  run <> [] -> uniform run -> Forall (chunk_in config r) run -> StronglySorted (iv_before ch_start ch_end) run ->
  0 <= bk_start r -> bk_end r < U64_MOD -> segments_ok bs b c -> chunk_bytes run <= b -> b < U64_MOD ->
  exists es v c', write_run d bs current wi dur sid root acc run c = (Ok (acc.1 ++ es, acc.2 ++ [v]), c') /\
    stored c c' /\ segments_ok bs (b - chunk_bytes run) c' /\ written c c' [v] /\ Forall2 (edit_backed c') run es /\
    Forall (edit_fresh c) es.
Proof using Hbs.
  intros Hne Huni Hin Hs Hr0 Hr Hok Hb HbU. destruct (packed_blocks_run r run 0 Hin) as [Hpk Hmul]; [lia|lia|].
  pose proof (chunk_bytes_concat run) as Hlen. pose proof (chunk_bytes_nonneg run).
  unfold write_run. rewrite st_bind_lift, Hpk, st_bind_lift. rewrite Z.add_0_l, checked_mul_ok by lia. cbn [ok_or].
  set (intent := match run with [chunk] => _ | _ => _ end). change (match run with chunk :: _ => bsc_payload_integrity chunk | _ => _ end) with (run_mode run).
  destruct (write_segment_stored bs intent wi (concat (bsc_bytes <$> run)) dur (run_mode run) c b Hok)
    as (v & c' & Hw & Hst & Hok' & Hk & Hpay & Hfresh & Hrec & Hmode).
  - destruct run as [|ch run]; [done|]. apply Forall_cons in Hin as [(_ & _ & H3 & H4) _]. cbn. intros Hnil%app_eq_nil.
    destruct Hnil as [Hnil _]. rewrite Hnil in H4. unfold zlen in H4. cbn in H4. nia.
  - rewrite Hlen, <-Hmul. apply Z.mod_mul. lia.
  - lia.
  - destruct (run_edits_ok r c' v run 0 [] (concat (bsc_bytes <$> run))) as (es & Hes & Hback & Hv); try done.
    { intros ch Hch. destruct run as [|x run]; [done|]. injection Hch as ->. apply Forall_cons in Hin as [(H1 & _) _]. lia. }
    { by rewrite Hmode. }
    exists es, v, c'. rewrite st_bind_run, Hw, st_bind_lift, Hes. rewrite Hlen in Hok'. split_and!; try done.
    eapply Forall_impl; [exact Hv|]. unfold edit_fresh. by intros e ->.
Qed.

Lemma write_shard_ok r d current wi dur acc i p c b :
  iv_sorted ch_start ch_end (bsp_chunks p) -> Forall (chunk_in config r) (bsp_chunks p) ->
  0 <= bk_start r -> bk_end r < U64_MOD -> segments_ok bs b c -> chunk_bytes (bsp_chunks p) <= b -> b < U64_MOD ->
  exists es vs c', write_shard d bs current wi dur acc (i, p) c =
      (Ok (<[i := mkBlockBatchShardEdits (bsp_old_root p) es]> acc.1, acc.2 ++ vs), c') /\
    stored c c' /\ segments_ok bs (b - chunk_bytes (bsp_chunks p)) c' /\ written c c' vs /\
    Forall2 (edit_backed c') (bsp_chunks p) es /\ Forall (edit_fresh c) es.
Proof using Hbs.
  intros Hsorted Hin Hr0 Hr Hok Hb HbU. pose proof Hsorted as [Hs _]. unfold write_shard.
  change (fun chunk => bk_start (bsc_range chunk)) with ch_start. rewrite (sort_by_key_id ch_start) by (by eapply iv_sorted_by).
  destruct (integrity_runs_concat (bsp_chunks p)) as [Hcat Hrne]. pose proof (integrity_runs_uniform (bsp_chunks p)) as Huni.
  set (runs := integrity_runs (bsp_chunks p)) in *.
  rewrite st_bind_run.
  destruct (st_fold_run (fun pre (out : list BlockBatchShardEdit * list VerifiedSegmentReceipt) c1 =>
      stored c c1 /\ segments_ok bs (b - chunk_bytes (concat pre)) c1 /\
      exists vs, out.2 = acc.2 ++ vs /\ written c c1 vs /\ Forall2 (edit_backed c1) (concat pre) out.1 /\
        Forall (edit_fresh c) out.1)
    (write_run d bs current wi dur i (bsp_old_root p)) runs ([], acc.2) c) as (out & c' & Hrun & Hst & Hok' & vs & Hvs & Hk & Hback & Hfr).
  - split; [reflexivity|]. cbn. rewrite Z.sub_0_r. split; [done|]. exists []. rewrite app_nil_r. split_and!; [done|apply written_nil|done|done].
  - intros pre run rest out c1 Hruns (Hst & Hok1 & vs & Hvs & Hk & Hback & Hfr).
    rewrite Hruns in Hcat, Hrne, Huni. apply Forall_app in Huni as [_ [Hu _]%Forall_cons]. rewrite concat_app in Hcat. cbn in Hcat.
    rewrite <-Hcat in Hin, Hs, Hb. apply Forall_app in Hin as [_ Hin]. apply Forall_app in Hin as [Hin _].
    apply StronglySorted_app in Hs as (_ & _ & Hs). apply StronglySorted_app in Hs as (_ & Hs & _).
    rewrite !chunk_bytes_app in Hb. pose proof (chunk_bytes_nonneg (concat pre)). pose proof (chunk_bytes_nonneg (concat rest)).
    apply Forall_app in Hrne as [_ Hrne]. apply Forall_cons in Hrne as [Hne _].
    destruct (write_run_ok r d current wi dur i (bsp_old_root p) out run c1 (b - chunk_bytes (concat pre)))
      as (es & v & c2 & Hw & Hst2 & Hok2 & Hk2 & Hback2 & Hfr2); try done; [lia|lia|].
    eexists _, c2. split; [exact Hw|]. cbn [fst snd]. split; [by etrans|].
    rewrite concat_app, chunk_bytes_app. cbn [concat]. rewrite app_nil_r. split; [by rewrite Z.sub_add_distr|].
    exists (vs ++ [v]). split_and!; [by rewrite Hvs, app_assoc| | |].
    + by eapply written_app.
    + apply Forall2_app; [by eapply edits_backed_stored|done].
    + apply Forall_app. split; [done|by eapply edits_fresh_stored].
  - rewrite Hrun. cbn [fst snd]. rewrite Hcat in Hok', Hback. destruct out as [es rs]. cbn in *. subst rs.
    exists es, vs, c'. by split_and!.
Qed.

(** The edits of a shard store its chunks. *)
Definition shard_written (c c' : LocalCoordinator) (p : BlockBatchShardPending) (e : BlockBatchShardEdits) : Prop :=
  bss_old_root e = bsp_old_root p /\ Forall2 (edit_backed c') (bsp_chunks p) (bss_edits e) /\
  Forall (edit_fresh c) (bss_edits e).

Lemma write_shards_ok (R : ShardId -> BlockRange) d current wi dur l c b :
  NoDup l.*1 ->
  (forall i p, (i, p) ∈ l -> iv_sorted ch_start ch_end (bsp_chunks p) /\
    Forall (chunk_in config (R i)) (bsp_chunks p) /\ 0 <= bk_start (R i) /\ bk_end (R i) < U64_MOD) ->
  segments_ok bs b c -> chunk_bytes (concat ((fun p => bsp_chunks p.2) <$> l)) <= b -> b < U64_MOD ->
  exists se vs c', st_fold (write_shard d bs current wi dur) (∅, []) l c = (Ok (se, vs), c') /\
    stored c c' /\ segments_ok bs (b - chunk_bytes (concat ((fun p => bsp_chunks p.2) <$> l))) c' /\
    written c c' vs /\
    (forall i p, (i, p) ∈ l -> exists e, se !! i = Some e /\ shard_written c c' p e) /\
    forall i, is_Some (se !! i) -> i ∈ l.*1.
Proof using Hbs.
  intros Hnd Hl Hok Hb HbU. set (bytes := fun l : list (ShardId * BlockBatchShardPending) =>
    chunk_bytes (concat ((fun p => bsp_chunks p.2) <$> l))).
  destruct (st_fold_run (fun pre (out : gmap ShardId BlockBatchShardEdits * list VerifiedSegmentReceipt) c1 =>
      stored c c1 /\ segments_ok bs (b - bytes pre) c1 /\ written c c1 out.2 /\
      (forall i p, (i, p) ∈ pre -> exists e, out.1 !! i = Some e /\ shard_written c c1 p e) /\
      forall i, is_Some (out.1 !! i) -> i ∈ pre.*1)
    (write_shard d bs current wi dur) l (∅, []) c) as ([se vs] & c' & Hrun & Hst & Hok' & Hk & Hse & Hdom).
  - split; [reflexivity|]. unfold bytes. cbn. rewrite Z.sub_0_r. split_and!; try done.
    + split; [done|by left].
    + by intros i p ?%not_elem_of_nil.
    + intros i. rewrite lookup_empty. by intros [? ?].
  - intros pre [i p] rest [se vs] c1 Heq (Hst & Hok1 & Hk & Hse & Hdom). cbn [fst snd] in *.
    assert (Hin : (i, p) ∈ l) by (rewrite Heq; apply elem_of_app; right; by left).
    destruct (Hl i p Hin) as (Hs & Hch & Hr0 & Hr).
    assert (Hsplit : bytes l = bytes pre + chunk_bytes (bsp_chunks p) + bytes rest).
    { unfold bytes. rewrite Heq, fmap_app, concat_app, chunk_bytes_app. cbn. rewrite chunk_bytes_app. lia. }
    pose proof (chunk_bytes_nonneg (concat ((fun p => bsp_chunks p.2) <$> pre))) as Hpre.
    pose proof (chunk_bytes_nonneg (concat ((fun p => bsp_chunks p.2) <$> rest))) as Hrest.
    fold (bytes l) in Hb. fold (bytes pre) in Hpre. fold (bytes rest) in Hrest.
    destruct (write_shard_ok (R i) d current wi dur (se, vs) i p c1 (b - bytes pre))
      as (es & ws & c2 & Hw & Hst2 & Hok2 & Hk2 & Hback & Hfr); try done; [lia|lia|].
    eexists _, c2. split; [exact Hw|]. cbn [fst snd]. split; [by etrans|].
    assert (Hnew : bytes (pre ++ [(i, p)]) = bytes pre + chunk_bytes (bsp_chunks p)).
    { unfold bytes. rewrite fmap_app, concat_app, chunk_bytes_app. cbn. rewrite app_nil_r. done. }
    rewrite Hnew, Z.sub_add_distr. split_and!; [done| | |].
    + by eapply written_app.
    + intros j q [Hj|Hj]%elem_of_app.
      * destruct (Hse j q Hj) as (e & He & Hold & Hb1 & Hf1). exists e. split.
        { rewrite lookup_insert_ne; [done|]. intros <-. rewrite Heq, fmap_app in Hnd. apply NoDup_app in Hnd as (_ & Hnd & _).
          apply (Hnd i); [by apply (list_elem_of_fmap_2 fst _ (i, q))|by left]. }
        split_and!; [done|by eapply edits_backed_stored|done].
      * apply list_elem_of_singleton in Hj as [= -> ->]. eexists. split; [apply lookup_insert_eq|].
        split_and!; [done|done|by eapply edits_fresh_stored].
    + intros j. rewrite lookup_insert_is_Some'. rewrite fmap_app. intros [<-|Hj]; apply elem_of_app; [right; by left|left; by apply Hdom].
  - exists se, vs, c'. by split_and!.
Qed.
End runs.

(** ** Tree edits *)

Section edits.
Context {CR : Crc32cCrate} (config : LocalStoreConfig).
Local Abbreviation bs := (cfg_block_size config).
Hypothesis Hbs : 0 < bs.

Definition tree_edit (e : BlockBatchShardEdit) : TreeRangeEdit :=
  mkTreeRangeEdit (bse_range e) (Some (mkSegmentReplacement (sd_segment_id (vr_descriptor (bse_receipt e)))
    (bk_start (bse_range e) - bse_segment_offset e))).

Definition delta_entry (sid : ShardId) (e : BlockBatchShardEdit) : BlockDeltaEntry :=
  mkBlockDeltaEntry sid (bse_range e)
    (BdSegment (sd_segment_id (vr_descriptor (bse_receipt e))) (bse_segment_offset e)).

Lemma edit_of_run c ch e sid :
  edit_backed config c ch e -> edit_of sid e = Ok (tree_edit e, delta_entry sid e).
Proof using Type. intros (_ & [H1 H2] & _). unfold edit_of. by rewrite checked_sub_ok. Qed.

Lemma edits_of_run c chs es sid :
  Forall2 (edit_backed config c) chs es ->
  try_map (edit_of sid) es = Ok ((fun e => (tree_edit e, delta_entry sid e)) <$> es).
Proof using Type.
  induction 1 as [|ch e chs es Hb Hes IH]; [done|]. cbn [try_map]. rewrite (edit_of_run c ch e sid Hb).
  cbn [mbind Result_bind]. by rewrite IH.
Qed.

Lemma backed_within c r chs es :
  pool_wf bs (co_storage_nodes c) -> range_ok bs r ->
  Forall2 (edit_backed config c) chs es -> Forall (chunk_in config r) chs -> iv_sorted ch_start ch_end chs ->
  edits_within (segment_size bs (co_storage_nodes c)) r (tree_edit <$> es) /\
  sorted_by (fun e => bk_start (bse_range e)) es.
Proof using Hbs.
  intros Hp ((Hr0 & Hr1 & Hr2) & _ & _) Hback Hin Hs.
  assert (Hranges : bse_range <$> es = bsc_range <$> chs).
  { clear Hin Hs. induction Hback as [|ch e chs es (He & _) _ IH]; [done|]. cbn. by rewrite He, IH. }
  assert (Hall : Forall (fun e => edit_ok (segment_size bs (co_storage_nodes c)) (tree_edit e) /\
    bk_start r <= bk_start (bse_range e) /\ bk_end (bse_range e) <= bk_end r) es).
  { clear Hs Hranges. revert Hin. induction Hback as [|ch e chs es Hb Hback IH]; intros Hin; [constructor|].
    apply Forall_cons in Hin as [(H1 & H2 & H3 & H4) Hin]. constructor; [|by apply IH].
    destruct Hb as (He & [Ho1 Ho2] & bytes & Hpay & Hlen & _). unfold ch_start, ch_end, bk_end in *. rewrite He in *.
    destruct (payload_receipt bs _ _ bytes Hp Hpay) as (_ & _ & _ & _ & _ & Hu & _). unfold in_u64, zlen in *.
    split; [|lia]. unfold edit_ok. cbn [tree_edit te_range te_replacement]. rewrite He.
    unfold wf_block_range, in_u64. split_and!; try lia. intros rp [= <-]. cbn [rp_segment_id rp_segment_base].
    exists (Z.of_nat (length bytes) / bs). unfold segment_size. rewrite Hpay. cbn. split_and!; [done| |lia|lia|].
    - apply Z.div_lt_upper_bound; nia.
    - apply Z.div_le_lower_bound; [done|]. unfold bk_end. nia. }
  assert (Hsorted : iv_sorted (fun e => bk_start (bse_range e)) (fun e => bk_end (bse_range e)) es).
  { apply (iv_sorted_fmap bse_range bk_start bk_end). rewrite Hranges. by apply (iv_sorted_fmap bsc_range). }
  split; [|by eapply iv_sorted_by]. split_and!.
  - rewrite Forall_fmap. eapply Forall_impl; [exact Hall|]. by intros e [? _].
  - rewrite Forall_fmap. eapply Forall_impl; [exact Hall|]. by intros e [_ ?].
  - apply iv_sorted_apart. by apply (iv_sorted_fmap tree_edit).
Qed.

(** The edits keep their meaning when nodes are added. *)
Lemma overlaid_grow size m m1 m2 root root' r es :
  nodes_grow m1 m2 -> tree_ok bs size (tree_fuel (bk_blocks r)) (metadata_nodes m1) root' r ->
  tree_overlaid bs m m1 root root' r es -> tree_overlaid bs m m2 root root' r es.
Proof using Type.
  intros G Ht Ho b Hb. specialize (Ho b Hb). destruct (grow_reads bs size m1 m2 root' r G Ht) as [_ Hg].
  destruct (Hg b Hb) as [Hblk Hrun]. destruct (List.find _ es); destruct Ho as [H1 H2]; split.
  - by rewrite Hblk.
  - intros y loc Hy. by rewrite Hrun by done; apply H2.
  - by rewrite Hblk.
  - intros y loc Hy. rewrite Hrun by done. by apply H2.
Qed.

Lemma overlaid_from size m m1 m2 root root' r es :
  nodes_grow m m1 -> tree_ok bs size (tree_fuel (bk_blocks r)) (metadata_nodes m) root r ->
  tree_overlaid bs m1 m2 root root' r es -> tree_overlaid bs m m2 root root' r es.
Proof using Type.
  intros G Ht Ho b Hb. specialize (Ho b Hb). destruct (grow_reads bs size m m1 root r G Ht) as [_ Hg].
  destruct (Hg b Hb) as [Hblk Hrun]. destruct (List.find _ es); destruct Ho as [H1 H2]; split; [done|done| |].
  - by rewrite H1, Hblk.
  - intros y loc Hy. rewrite H2 by done. by apply Hrun.
Qed.

Definition shard_update (i : ShardId) (old root : MetadataNodeId) : list RootUpdate :=
  if root =? old then [] else [RuBlockShard (mkShardRootUpdate i old root)].

Lemma edit_shard_ok vs acc i e r chs c :
  pool_wf bs (co_storage_nodes c) -> ids_fresh (co_metadata c) ->
  receipts_ready (segment_size bs (co_storage_nodes c)) c vs ->
  shard_tree config (segment_size bs (co_storage_nodes c)) c (bss_old_root e) r ->
  Forall2 (edit_backed config c) chs (bss_edits e) -> Forall (chunk_in config r) chs -> iv_sorted ch_start ch_end chs ->
  exists root' c', edit_shard config vs acc (i, e) c =
      (Ok (acc.1 ++ shard_update i (bss_old_root e) root', acc.2 ++ (delta_entry i <$> bss_edits e)), c') /\
    cow_rel c c' /\ shard_tree config (segment_size bs (co_storage_nodes c)) c' root' r /\
    tree_overlaid bs (co_metadata c) (co_metadata c') (bss_old_root e) root' r (tree_edit <$> bss_edits e).
Proof using Hbs.
  intros Hp Hf Hready Ht Hback Hin Hs. pose proof (tree_ok_range _ _ _ _ _ _ Ht) as Hrok.
  destruct (backed_within c r chs (bss_edits e) Hp Hrok Hback Hin Hs) as [Hwithin Hsorted].
  destruct (replace_ranges_ok config _ vs Hbs c (bss_old_root e) r (tree_edit <$> bss_edits e) Hf Hready Ht Hwithin)
    as (res & c' & Hrun & R & Ht' & Hov & _). exists (tr_root res), c'. split_and!; try done.
  unfold edit_shard. rewrite sort_by_key_id by done. rewrite st_bind_lift, (edits_of_run c chs _ i Hback).
  assert (Hfst : ((fun e => (tree_edit e, delta_entry i e)) <$> bss_edits e).*1 = tree_edit <$> bss_edits e) by (by rewrite <-list_fmap_compose).
  assert (Hsnd : ((fun e => (tree_edit e, delta_entry i e)) <$> bss_edits e).*2 = delta_entry i <$> bss_edits e) by (by rewrite <-list_fmap_compose).
  rewrite Hfst, Hsnd, st_bind_run, Hrun. done.
Qed.

Lemma edits_backed_registry c c' chs es :
  co_storage_nodes c' = co_storage_nodes c -> Forall2 (edit_backed config c) chs es -> Forall2 (edit_backed config c') chs es.
Proof using Type. intros Hreg H. eapply Forall2_impl; [exact H|]. intros ch e. unfold edit_backed. by rewrite Hreg. Qed.

(** What the edit of a shard leaves behind. *)
Definition shard_edited (R : ShardId -> BlockRange) (c c' : LocalCoordinator)
    (s : ShardId * BlockBatchShardEdits) (root' : MetadataNodeId) : Prop :=
  shard_tree config (segment_size bs (co_storage_nodes c)) c' root' (R s.1) /\
  tree_overlaid bs (co_metadata c) (co_metadata c') (bss_old_root s.2) root' (R s.1) (tree_edit <$> bss_edits s.2).

Definition shard_updates (l : list (ShardId * MetadataNodeId)) (rs : list MetadataNodeId) : list RootUpdate :=
  concat (zip_with (fun s root' => shard_update s.1 s.2 root') l rs).

(** The edited shards with their old roots. *)
Definition old_roots (l : list (ShardId * BlockBatchShardEdits)) : list (ShardId * MetadataNodeId) :=
  (fun s => (s.1, bss_old_root s.2)) <$> l.

Lemma edit_shards_ok (R : ShardId -> BlockRange) vs l c :
  pool_wf bs (co_storage_nodes c) -> ids_fresh (co_metadata c) ->
  receipts_ready (segment_size bs (co_storage_nodes c)) c vs ->
  (forall i e, (i, e) ∈ l -> shard_tree config (segment_size bs (co_storage_nodes c)) c (bss_old_root e) (R i) /\
    exists chs, Forall2 (edit_backed config c) chs (bss_edits e) /\ Forall (chunk_in config (R i)) chs /\ iv_sorted ch_start ch_end chs) ->
  exists rs c', st_fold (edit_shard config vs) ([], []) l c =
      (Ok (shard_updates (old_roots l) rs, concat ((fun s => delta_entry s.1 <$> bss_edits s.2) <$> l)), c') /\
    cow_rel c c' /\ Forall2 (shard_edited R c c') l rs.
Proof using Hbs.
  intros Hp Hf Hready Hl.
  destruct (st_fold_run (fun pre (out : list RootUpdate * list BlockDeltaEntry) c1 =>
      cow_rel c c1 /\ exists rs, out.1 = shard_updates (old_roots pre) rs /\
        out.2 = concat ((fun s => delta_entry s.1 <$> bss_edits s.2) <$> pre) /\ Forall2 (shard_edited R c c1) pre rs)
    (edit_shard config vs) l ([], []) c) as ([ups ds] & c' & Hrun & Rel & rs & Hups & Hds & Hed).
  - split; [reflexivity|]. by exists [].
  - intros pre [i e] rest [ups ds] c1 Heq (Rel & rs & Hups & Hds & Hed). cbn [fst snd] in *. subst ups ds.
    destruct (Hl i e) as (Ht & chs & Hback & Hin & Hs); [rewrite Heq; apply elem_of_app; right; by left|].
    pose proof (cr_registry _ _ Rel) as Hreg. pose proof (cr_nodes _ _ Rel) as G.
    destruct (edit_shard_ok vs (shard_updates (old_roots pre) rs, concat ((fun s => delta_entry s.1 <$> bss_edits s.2) <$> pre)) i e (R i) chs c1)
      as (root' & c2 & Hw & Rel2 & Ht2 & Hov); try done; rewrite ?Hreg in *; try done.
    + by eapply nodes_grow_fresh.
    + by eapply receipts_ready_grow.
    + by apply (grow_reads bs _ _ _ _ _ G).
    + by eapply edits_backed_registry.
    + eexists _, c2. split; [exact Hw|]. split; [by etrans|]. exists (rs ++ [root']). cbn [fst snd].
      pose proof (Forall2_length _ _ _ Hed) as Hlen. split_and!.
      * unfold shard_updates, old_roots. rewrite fmap_app, zip_with_app, concat_app by (by rewrite length_fmap).
        cbn. by rewrite app_nil_r.
      * rewrite fmap_app, concat_app. cbn. by rewrite app_nil_r.
      * apply Forall2_app.
        -- eapply Forall2_impl; [exact Hed|]. intros s root0 [Ht0 Hov0]. split.
           ++ by apply (grow_reads bs _ _ _ _ _ (cr_nodes _ _ Rel2)).
           ++ by eapply overlaid_grow; [apply (cr_nodes _ _ Rel2)|exact Ht0|].
        -- constructor; [|constructor]. split; [done|]. cbn [fst snd]. by eapply overlaid_from.
  - cbn [fst snd] in Hups, Hds. subst. by exists rs, c'.
Qed.
End edits.

(** ** Publishing *)

Lemma shard_updates_nil l rs :
  shard_updates l rs = [] -> length l = length rs -> Forall2 (fun s root' => root' = s.2) l rs.
Proof.
  revert rs. induction l as [|s l IH]; intros [|r rs] Hnil Hlen; try discriminate Hlen; constructor.
  - unfold shard_updates in Hnil. cbn in Hnil. apply app_eq_nil in Hnil as [Hnil _]. unfold shard_update in Hnil.
    destruct (r =? s.2) eqn:Heq; [|done]. by bool_prop.
  - apply IH; [|by injection Hlen]. unfold shard_updates in *. cbn in Hnil. by apply app_eq_nil in Hnil as [_ ?].
Qed.

(** The roots after the updates of the edited shards. *)
Definition new_roots (roots : list MetadataNodeId) (l : list (ShardId * MetadataNodeId))
    (rs : list MetadataNodeId) : list MetadataNodeId :=
  fold_left (fun roots p => <[Z.to_nat p.1.1 := p.2]> roots) (zip l rs) roots.

Lemma updates_run m l rs roots cs :
  NoDup ((fun s => Z.to_nat s.1) <$> l) -> length l = length rs ->
  (forall s, s ∈ l -> roots !! Z.to_nat s.1 = Some s.2) ->
  Forall (fun root' => is_Some (metadata_nodes m !! root')) rs ->
  exists cs', try_fold (block_update_step m) (roots, cs) (shard_updates l rs) = Ok (new_roots roots l rs, cs').
Proof.
  revert rs roots cs. induction l as [|[i old] l IH]; intros [|root' rs] roots cs Hnd Hlen Hl Hrs; try discriminate Hlen.
  { by exists cs. }
  apply NoDup_cons in Hnd as [Hni Hnd]. apply Forall_cons in Hrs as [Hn Hrs]. injection Hlen as Hlen.
  pose proof (Hl (i, old) ltac:(by left)) as Hr. cbn [fst snd] in Hr.
  unfold shard_updates, new_roots. cbn [zip zip_with concat fold_left fst snd].
  fold (shard_updates l rs). fold (new_roots (<[Z.to_nat i := root']> roots) l rs).
  assert (Hl' : forall s, s ∈ l -> <[Z.to_nat i := root']> roots !! Z.to_nat s.1 = Some s.2).
  { intros s Hs. rewrite list_lookup_insert_ne; [apply Hl; by right|]. intros Heq. apply Hni. cbv beta. cbn [fst].
    rewrite Heq. by apply (list_elem_of_fmap_2 (fun s => Z.to_nat s.1)). }
  unfold shard_update. destruct (root' =? old) eqn:Heq; bool_prop.
  - cbn [app]. subst root'. rewrite list_insert_id in Hl' |- * by done. by apply IH.
  - cbn [app try_fold]. unfold block_update_step at 2. cbn [sru_shard_id sru_old_root sru_new_root].
    rewrite Hr, Z.eqb_refl. cbn [negb reject_if mbind Result_bind].
    rewrite bool_decide_eq_false_2 by (by apply not_eq_None_Some). cbn [reject_if mbind Result_bind]. by apply IH.
Qed.

Lemma new_roots_length roots l rs : length (new_roots roots l rs) = length roots.
Proof.
  unfold new_roots. generalize (zip l rs). intros ps. revert roots.
  induction ps as [|p ps IH]; intros roots; [done|]. cbn [fold_left]. by rewrite IH, length_insert.
Qed.

Lemma new_roots_same roots l rs :
  Forall2 (fun s root' => root' = s.2) l rs ->
  Forall (fun s => 0 <= s.1 /\ roots !! Z.to_nat s.1 = Some s.2) l -> new_roots roots l rs = roots.
Proof.
  intros Hl. revert roots. induction Hl as [|s r l rs -> Hl IH]; intros roots Hr; [done|].
  apply Forall_cons in Hr as [[_ Hs] Hr]. unfold new_roots. cbn [zip zip_with fold_left fst snd].
  rewrite list_insert_id by done. by apply IH.
Qed.

Lemma new_roots_other roots l rs j :
  j ∉ (fun s => Z.to_nat s.1) <$> l -> new_roots roots l rs !! j = roots !! j.
Proof.
  revert roots rs. induction l as [|s l IH]; intros roots [|r rs] Hj; try done.
  unfold new_roots. cbn [zip zip_with fold_left fst snd]. fold (new_roots (<[Z.to_nat s.1 := r]> roots) l rs).
  cbn in Hj. apply not_elem_of_cons in Hj as [Hne Hj]. rewrite IH by done. by rewrite list_lookup_insert_ne.
Qed.

Lemma new_roots_edited (P : ShardId * MetadataNodeId -> MetadataNodeId -> Prop) roots l rs s :
  NoDup ((fun s => Z.to_nat s.1) <$> l) -> Forall2 P l rs -> s ∈ l -> (Z.to_nat s.1 < length roots)%nat ->
  exists root', new_roots roots l rs !! Z.to_nat s.1 = Some root' /\ P s root'.
Proof.
  intros Hnd Hl. revert roots. induction Hl as [|s0 r l rs HP Hl IH]; intros roots Hs Hlt; [by apply not_elem_of_nil in Hs|].
  apply NoDup_cons in Hnd as [Hni Hnd]. unfold new_roots. cbn [zip zip_with fold_left fst snd].
  fold (new_roots (<[Z.to_nat s0.1 := r]> roots) l rs). apply elem_of_cons in Hs as [->|Hs].
  - exists r. split; [|done]. rewrite new_roots_other by done. by apply list_lookup_insert_eq.
  - destruct (IH Hnd (<[Z.to_nat s0.1 := r]> roots) Hs) as (root' & ? & ?); [by rewrite length_insert|]. eauto.
Qed.

(** [publish_block] commits when its updates apply. *)
Lemma publish_block_run d gen updates m h roots ups :
  device_heads m !! d = Some h -> dh_generation h < next_commit_seq m -> next_commit_seq m + 1 < U64_MOD ->
  updates <> [] -> try_fold (block_update_step m) (dh_shard_roots h, []) updates = Ok (roots, ups) ->
  let intent := mkCommitGroupIntent (OwnBlockDevice d) (MfDeviceGeneration gen) updates in
  publish_block d intent m =
    (Ok (mkCommitGroup (next_commit_group_id m) (next_commit_seq m) (OwnBlockDevice d) updates),
     published m d h intent roots ups).
Proof.
  intros Hh Hgen Hseq Hne Hf intent.
  destruct (publish_block d intent m) as [r m'] eqn:H.
  pose proof H as H'. apply publish_block_cases in H' as [[[e ->] ->]|(h' & roots' & ups' & Hh' & _ & _ & Hf' & _ & -> & ->)].
  - exfalso. revert H. unfold publish_block, get_head, st_get, st_lift, st_reject_if, st_modify,
      alloc_commit_seq, alloc_checked, alloc_commit_group_id, alloc, st_gets, mret, ST_ret, mbind, ST_bind.
    rewrite Hh. cbn [ok_or intent ci_fence ci_updates]. rewrite bool_decide_eq_false_2 by done. unfold st_lift. cbn [reject_if].
    rewrite Hf, checked_add_ok by done. cbn [ok_or]. unfold next_generation. rewrite checked_add_ok by lia. done.
  - assert (h' = h) as -> by congruence. cbn [intent ci_updates] in Hf'. rewrite Hf in Hf'. by injection Hf' as -> ->.
  - intros h0 Hh0. congruence.
Qed.

(** ** The contents of the edited shards *)

Section contents.
Context {CR : Crc32cCrate} (config : LocalStoreConfig).
Local Abbreviation bs := (cfg_block_size config).
Hypothesis Hbs : 0 < bs.

Lemma edit_contents c r ch e y :
  edit_backed config c ch e -> chunk_in config r ch -> in_block_range (bsc_range ch) (y / bs) ->
  ch_at config ch y = Some (location_cell bs (co_storage_nodes c)
    (Some (sd_segment_id (vr_descriptor (bse_receipt e)), y / bs - (bk_start (bse_range e) - bse_segment_offset e))) (y mod bs)).
Proof using Hbs.
  intros (He & [Ho1 Ho2] & bytes & Hp & Hlen & Hsl & Hmode & _) (H1 & H2 & H3 & H4) Hin. unfold location_cell. rewrite Hp, Hmode.
  unfold ch_at, bytes_at, ch_start, zlen in *. rewrite He in *.
  pose proof (Z.div_mod y bs ltac:(lia)) as Hdm. pose proof (Z.mod_pos_bound y bs Hbs) as Hm. unfold in_block_range in Hin.
  replace (bk_start (bsc_range ch) * bs <=? y) with true by (symmetry; apply Z.leb_le; nia).
  rewrite <-Hsl, slice_lookup by nia.
  replace ((y / bs - (bk_start (bsc_range ch) - bse_segment_offset e)) * bs + y mod bs)
    with (bse_segment_offset e * bs + (y - bk_start (bsc_range ch) * bs)) by nia.
  destruct (lookup_lt_is_Some_2 bytes (Z.to_nat (bse_segment_offset e * bs + (y - bk_start (bsc_range ch) * bs)))) as [x Hx]; [nia|].
  replace (Z.to_nat (bse_segment_offset e * bs) + Z.to_nat (y - bk_start (bsc_range ch) * bs))%nat
    with (Z.to_nat (bse_segment_offset e * bs + (y - bk_start (bsc_range ch) * bs))) by nia.
  by rewrite Hx.
Qed.

Lemma edits_contents c r chs es y :
  Forall2 (edit_backed config c) chs es -> Forall (chunk_in config r) chs ->
  match List.find (fun e => in_range (bk_start (te_range e)) (bk_end (te_range e)) (y / bs)) (tree_edit <$> es) with
  | Some e => first_at (ch_at config) chs y = Some (location_cell bs (co_storage_nodes c)
      ((fun rp => (rp_segment_id rp, y / bs - rp_segment_base rp)) <$> te_replacement e) (y mod bs))
  | None => first_at (ch_at config) chs y = None
  end.
Proof using Hbs.
  intros Hback. induction Hback as [|ch e chs es Hb Hback IH]; intros Hin; [done|].
  apply Forall_cons in Hin as [Hch Hin]. cbn [fmap list_fmap List.find first_at].
  pose proof Hb as (He & _). change (te_range (tree_edit e)) with (bse_range e). rewrite He.
  destruct (in_range _ _ _) eqn:Hr.
  - apply in_range_true in Hr. rewrite (edit_contents c r ch e y Hb Hch Hr). done.
  - apply in_range_false in Hr. destruct (ch_at config ch y) as [x|] eqn:Hx; [|by apply IH]. exfalso. apply Hr.
    unfold ch_at in Hx. apply fmap_Some in Hx as (b & Hx & _). apply bytes_at_dom in Hx. rewrite (chunk_byte_end config r ch Hch) in Hx. by apply byte_in_blocks.
Qed.
End contents.

(** ** Marking *)

Section marks.
Context {CR : Crc32cCrate} (bs : Z).

Lemma mark_all_run vs seq c :
  pool_wf bs (co_storage_nodes c) -> Forall (known c) vs ->
  exists s, st_for (fun receipt => on_storage_nodes (Registry_mark_segment_referenced (vr_receipt receipt) seq)) vs c =
      (Ok tt, set_co_storage_nodes s c) /\ pool_wf bs s /\ pool_same (co_storage_nodes c) s /\
    forall id, pending s id -> id ∉ (fun v => sd_segment_id (vr_descriptor v)) <$> vs.
Proof.
  revert c. induction vs as [|v vs IH]; intros c Hp Hk.
  { exists (co_storage_nodes c). split_and!; [by destruct c|done|reflexivity|]. intros id _. apply not_elem_of_nil. }
  apply Forall_cons in Hk as [[[bytes Hb] Hf] Hk]. set (id := sd_segment_id (vr_descriptor v)) in *.
  unfold fetch_receipt in Hf. apply bind_Ok in Hf as (rc & Hrc & Hv). apply verify_segment_receipt_Ok in Hv as [_ ->].
  destruct (mark_referenced_run bs (co_storage_nodes c) id bytes rc seq Hp Hb Hrc) as (s1 & Hm & Hp1 & Hs1 & Hnp).
  destruct (IH (set_co_storage_nodes s1 c)) as (s & Hrun & Hps & Hss & Hnot); [done| |].
  { eapply Forall_impl; [exact Hk|]. intros w [[b Hb'] Hf']. unfold known, fetch_receipt in *.
    cbn [co_storage_nodes set_co_storage_nodes]. rewrite (psm_payload _ _ Hs1), (psm_receipt _ _ Hs1). by eauto. }
  exists s. split_and!; [|done| |].
  - cbn [st_for]. rewrite st_bind_run. unfold on_storage_nodes at 1. cbn [vr_receipt]. rewrite Hm. rewrite Hrun. by destruct c.
  - by etrans.
  - intros i Hi. cbn. intros [->|Hin]%elem_of_cons; [|by apply (Hnot i)]. by apply Hnp, (psm_pending _ _ Hss).
Qed.
End marks.
