(* ===== verification/Store.v ===== *)
(** * The store invariant and the contents of devices

    What a well-formed store is, the contents of a device as an array of cells,
    that nothing stored is ever lost, and the step every mutation ends with: new
    trees beside the old ones become the contents of the device in one commit. *)

From S2P Require Import Prelude Intervals Api Object TreeEdit Batch Provider Authority Config.
From S2P Require Import Catalog SegmentStore StorageNode Streams Plane Timeline History Coordinator.
From S2P Require Import SegmentPool CowTree CowSpec Trees ReadPath ReadSpec BlockOps BlockPlan.
From S2P Require Import BlockCommit.

#[local] Opaque WriteGrant_hash deterministic_test_proof_for_grant
  deterministic_test_proof_for_receipt deterministic_test_proof_for_reference.

(** ** What is stored stays readable *)

Section sizes.
Context (bs : Z) (size size' : SegmentId -> option Z).
Hypothesis Hsize : forall id n, size id = Some n -> size' id = Some n.

Lemma leaf_ok_size r es xs : leaf_ok bs size r es xs -> leaf_ok bs size' r es xs.
Proof using Hsize.
  intros [H1 H2 H3 H4 H5 H6]. constructor; try done. intros b id k Hb.
  destruct (H3 b id k Hb) as [Hin (n & Hn & ?)]. split; [done|]. exists n. auto.
Qed.

Lemma tree_ok_size h nodes id r : tree_ok bs size h nodes id r -> tree_ok bs size' h nodes id r.
Proof using Hsize.
  revert id r. induction h as [|h IH]; intros id r; [done|]. intros (n & Hn & Hid & Hr & Hok & Hk).
  exists n. split_and!; try done. destruct (mn_kind n) as [cs|es xs]; [|by apply leaf_ok_size].
  destruct Hk as (? & ? & Hcs). split_and!; [done..|]. eapply Forall_impl; [exact Hcs|]. intros c. apply IH.
Qed.
End sizes.

(** No metadata node and no payload is lost or changed, nor how it was written. *)
Record keeps (c c' : LocalCoordinator) : Prop := {
  kp_nodes : metadata_nodes (co_metadata c) ⊆ metadata_nodes (co_metadata c');
  kp_payload : forall id bytes, segment_payload (co_storage_nodes c) id = Some bytes ->
    segment_payload (co_storage_nodes c') id = Some bytes;
  kp_mode : forall id bytes, segment_payload (co_storage_nodes c) id = Some bytes ->
    segment_mode (co_storage_nodes c') id = segment_mode (co_storage_nodes c) id;
}.

#[export] Instance keeps_preorder : PreOrder keeps.
Proof.
  split; [by constructor|]. intros c1 c2 c3 [N12 P12 M12] [N23 P23 M23]. constructor; [by etrans|by auto|].
  intros id bytes Hb. rewrite (M23 id bytes); [by eapply M12|by apply P12].
Qed.

Section keeps.
Context {CR : Crc32cCrate} (config : LocalStoreConfig).
Local Abbreviation bs := (cfg_block_size config).

Lemma keeps_tree c c' h root r :
  keeps c c' ->
  tree_ok bs (segment_size bs (co_storage_nodes c)) h (metadata_nodes (co_metadata c)) root r ->
  tree_ok bs (segment_size bs (co_storage_nodes c')) h (metadata_nodes (co_metadata c')) root r.
Proof using Type.
  intros K Ht. apply (tree_ok_size bs (segment_size bs (co_storage_nodes c))).
  - intros id n. unfold segment_size. destruct (segment_payload (co_storage_nodes c) id) as [bytes|] eqn:Hb; [|done].
    by rewrite (kp_payload _ _ K _ _ Hb).
  - eapply tree_ok_grow; [apply K|done].
Qed.

Lemma tree_block_payload c root r b id k :
  tree_ok bs (segment_size bs (co_storage_nodes c)) (tree_fuel (bk_blocks r)) (metadata_nodes (co_metadata c)) root r ->
  in_block_range r b -> tree_block (co_metadata c) root r b = Some (id, k) ->
  is_Some (segment_payload (co_storage_nodes c) id).
Proof using Type.
  intros Ht Hb. unfold tree_block. destruct (leaf_at_ok _ _ _ _ _ _ b Ht Hb) as (es & xs & r' & -> & Hl).
  intros He. destruct (lo_in _ _ _ _ _ Hl _ _ _ He) as (_ & n & Hn & _). unfold segment_size in Hn.
  by destruct (segment_payload _ _).
Qed.

Lemma keeps_tree_cell c c' root r y :
  keeps c c' ->
  tree_ok bs (segment_size bs (co_storage_nodes c)) (tree_fuel (bk_blocks r)) (metadata_nodes (co_metadata c)) root r ->
  in_block_range r (y / bs) ->
  tree_block (co_metadata c') root r (y / bs) = tree_block (co_metadata c) root r (y / bs) /\
  block_cell bs (co_storage_nodes c') (tree_block (co_metadata c') root r) y =
    block_cell bs (co_storage_nodes c) (tree_block (co_metadata c) root r) y.
Proof using Type.
  intros K Ht Hr.
  assert (Hblk : tree_block (co_metadata c') root r (y / bs) = tree_block (co_metadata c) root r (y / bs)).
  { unfold tree_block. by rewrite (leaf_at_grow _ _ _ _ _ _ _ _ (kp_nodes _ _ K) Ht Hr). }
  split; [done|]. unfold block_cell. rewrite Hblk. clear Hblk.
  destruct (tree_block (co_metadata c) _ _ _) as [[id k]|] eqn:Hb; [|done]. unfold location_cell.
  destruct (tree_block_payload c _ _ _ id k Ht Hr Hb) as [bytes Hp].
  by rewrite Hp, (kp_payload _ _ K _ _ Hp), (kp_mode _ _ K _ _ Hp).
Qed.

Lemma keeps_device c c' blocks roots :
  keeps c c' -> device_ok config c blocks roots ->
  device_ok config c' blocks roots /\ forall y, device_cell config c' blocks roots y = device_cell config c blocks roots y.
Proof using Type.
  intros K Hd. split.
  - destruct Hd as [H1 H2 H3]. constructor; [done|done|]. eapply Forall2_impl; [exact H3|]. intros i root. by apply keeps_tree.
  - intros y. unfold device_cell, block_cell, device_block.
    destruct (child_at _ (y / bs)) as [ch|] eqn:Hch; [|done].
    unfold child_at in Hch. apply find_some in Hch as [Hin Hr]. apply in_range_true in Hr. apply list_elem_of_In in Hin.
    pose proof (device_shard_ok config c blocks roots ch Hd Hin) as Ht. by apply keeps_tree_cell.
Qed.
End keeps.

Lemma stored_keeps `{Crc32cCrate} bs c c' : pool_wf bs (co_storage_nodes c) -> stored c c' -> keeps c c'.
Proof.
  intros Hp S. constructor; [by rewrite (stored_metadata _ _ S)|apply S|]. intros id bytes Hb.
  destruct (payload_receipt bs _ _ _ Hp Hb) as (rc & Hrc & _). unfold segment_mode.
  by rewrite Hrc, (st_receipt _ _ S _ _ Hrc).
Qed.

Lemma cow_keeps c c' : cow_rel c c' -> keeps c c'.
Proof. intros R. constructor; [apply R|by rewrite (cr_registry _ _ R)..]. Qed.

(** ** The store invariant *)

Section store.
Context {CR : Crc32cCrate} (config : LocalStoreConfig).
Local Abbreviation bs := (cfg_block_size config).

(** The configuration is valid, and shards are numbered with 32 bits. *)
Definition config_ok : Prop :=
  LocalStoreConfig_validate config = Ok tt /\ config_typed config /\ shard_count config <= U32_MOD.

(** A device is as the store needs it: its blocks have the size of the store's. *)
Definition device_wf (c : LocalCoordinator) (d : DeviceId) (head : DeviceHead) : Prop :=
  exists spec, device_specs (co_metadata c) !! d = Some spec /\ DeviceSpec_validate spec = Ok tt /\
    ds_block_size spec = bs /\ device_ok config c (ds_logical_blocks spec) (dh_shard_roots head).

Record cow_wf (c : LocalCoordinator) : Prop := {
  sw_plane : plane_wf config (co_metadata c);
  sw_pool : pool_wf bs (co_storage_nodes c);
  sw_cache : cache_ok c;
  sw_devices : map_Forall (device_wf c) (device_heads (co_metadata c));
  sw_specs : forall d, is_Some (device_specs (co_metadata c) !! d) -> is_Some (device_roots (co_metadata c) d);
}.

(** The contents of a device. *)
Definition device_contents (c : LocalCoordinator) (d : DeviceId) : option (list cell) :=
  head ← device_heads (co_metadata c) !! d;
  spec ← device_specs (co_metadata c) !! d;
  Some (device_cell config c (ds_logical_blocks spec) (dh_shard_roots head) <$>
    seqZ 0 (ds_logical_blocks spec * bs)).

Lemma config_bs : config_ok -> 0 < bs.
Proof using Type.
  intros (Hv & Hty & _). apply config_valid in Hv as (_ & Hb & _). destruct Hty as (_ & Hb' & _).
  unfold in_u32 in Hb'. lia.
Qed.

Lemma keeps_device_wf c c' d head :
  keeps c c' -> device_specs (co_metadata c') !! d = device_specs (co_metadata c) !! d ->
  device_wf c d head -> device_wf c' d head.
Proof using Type.
  intros K Hs (spec & H1 & H2 & H3 & H4). exists spec. split_and!; [by rewrite Hs|done|done|]. by eapply keeps_device.
Qed.

(** Devices whose head and spec did not change have the same contents. *)
Lemma keeps_contents c c' d :
  keeps c c' -> map_Forall (device_wf c) (device_heads (co_metadata c)) ->
  device_heads (co_metadata c') !! d = device_heads (co_metadata c) !! d ->
  device_specs (co_metadata c') !! d = device_specs (co_metadata c) !! d ->
  device_contents c' d = device_contents c d.
Proof using Type.
  intros K Hd Hh Hs. unfold device_contents. rewrite Hh, Hs.
  destruct (device_heads (co_metadata c) !! d) as [head|] eqn:Hhead; [|done]. cbn.
  destruct (device_specs (co_metadata c) !! d) as [spec|] eqn:Hspec; [|done]. cbn. f_equal.
  destruct (Hd d head Hhead) as (spec' & Hspec' & _ & _ & Hok). assert (spec' = spec) as -> by congruence.
  apply list_fmap_ext. intros i y _. by apply keeps_device.
Qed.

(** A read is a slice of the contents, or fails when it does not accept a cell. *)
Lemma read_contents c d l spec range buf v :
  config_ok -> cow_wf c -> device_contents c d = Some l -> device_specs (co_metadata c) !! d = Some spec ->
  ByteRange_validate_for_device range spec = Ok tt -> 0 <= br_offset range -> 0 <= br_len range ->
  Z.of_nat (length buf) = br_len range ->
  let cells := slice l (br_offset range) (br_len range) in
  if readable v cells then read_device c d range buf v = Ok cells.*1 else exists e, read_device c d range buf v = Err e.
Proof using Type.
  intros Hcfg Hwf Hc Hspec Hval Ho Hl Hbuf. pose proof (config_bs Hcfg) as Hbs. unfold device_contents in Hc.
  destruct (device_heads (co_metadata c) !! d) as [head|] eqn:Hhead; [|done]. cbn in Hc. rewrite Hspec in Hc. injection Hc as <-.
  destruct (sw_devices _ Hwf d head Hhead) as (spec' & Hspec' & Hsv & Hsb & Hok). assert (spec' = spec) as -> by congruence.
  pose proof (read_device_ok config c d head spec range buf v) as Hread. cbv zeta in Hread.
  pose proof Hval as (_ & _ & _ & _ & _ & Hend)%validate_for_device_Ok. rewrite Hsb in Hend.
  replace (slice _ (br_offset range) (br_len range))
    with ((fun p => device_cell config c (ds_logical_blocks spec) (dh_shard_roots head) (br_offset range + p)) <$>
      seqZ 0 (br_len range)); [apply Hread; try done; apply Hwf|].
  apply list_eq. intros i. destruct (decide (Z.of_nat i < br_len range)) as [Hi|Hi].
  - rewrite slice_lookup by lia. rewrite !list_lookup_fmap, !lookup_seqZ_lt by lia. cbn. do 2 f_equal. lia.
  - rewrite !lookup_ge_None_2; [done| |rewrite length_fmap, length_seqZ; lia].
    unfold slice. rewrite length_take. lia.
Qed.
End store.

Lemma nodes_grow_frame m m' : nodes_grow m m' -> frame_rel m m'.
Proof.
  intros G Hf. pose proof (ng_eq _ _ G) as E. split; [by eapply nodes_grow_fresh|].
  constructor; try (by rewrite E); [apply G|]. intros k c. rewrite E. by left.
Qed.

Lemma cow_cache_ok `{Crc32cCrate} c c' : cow_rel c c' -> cache_ok c -> cache_ok c'.
Proof.
  intros R Hc id v Hv. rewrite (fetch_registry c c' id (cr_registry _ _ R)).
  apply (cr_cache _ _ R) in Hv as [Hv|(_ & _ & Hv)]; [by apply Hc|done].
Qed.

Lemma pool_room_le s b b' : b' <= b -> pool_room s b -> pool_room s b'.
Proof.
  intros Hle (H1 & H2 & H3). split_and!; [lia|lia|]. intros k n Hn. specialize (H3 k n Hn). cbn in *. lia.
Qed.

(** ** Arrays of cells *)

(** The cells of a payload. *)
Definition cells (mode : PayloadIntegrity) (bytes : list Z) : list cell := (fun b => (b, mode)) <$> bytes.

Definition blanks (n : Z) : list cell := replicate (Z.to_nat n) blank.

Definition apply_write (l : list cell) (w : BlockBatchWrite) : list cell :=
  splice l (bw_offset w) (cells (bw_payload_integrity w) (bw_bytes w)).

Lemma cells_length mode bytes : length (cells mode bytes) = length bytes.
Proof. apply length_fmap. Qed.

Definition write_inside (n : Z) (w : BlockBatchWrite) : Prop :=
  0 <= bw_offset w /\ bw_offset w + zlen (bw_bytes w) <= n.

Lemma apply_writes_length ws l :
  Forall (write_inside (zlen l)) ws -> length (fold_left apply_write ws l) = length l.
Proof.
  revert l. induction ws as [|w ws IH]; intros l Hws; [done|]. apply Forall_cons in Hws as [[H0 H1] Hws]. cbn [fold_left].
  unfold zlen in *. assert (Hl : length (apply_write l w) = length l) by (apply splice_length; by rewrite ?cells_length).
  rewrite IH; [done|]. by rewrite Hl.
Qed.

Lemma apply_writes_lookup ws l (y : nat) :
  Forall (write_inside (zlen l)) ws ->
  fold_left apply_write ws l !! y =
    match last_writer bw_at ws (Z.of_nat y) with Some p => Some p | None => l !! y end.
Proof.
  induction ws as [|w ws IH] using rev_ind; intros Hws; [done|]. apply Forall_app in Hws as [Hws Hw].
  apply Forall_singleton in Hw as [H0 H1]. rewrite fold_left_app, last_writer_snoc. cbn [fold_left].
  pose proof (apply_writes_length ws l Hws) as Hlen. unfold apply_write at 1, bw_at at 1, bytes_at. unfold zlen in *.
  destruct (decide (bw_offset w <= Z.of_nat y < bw_offset w + Z.of_nat (length (bw_bytes w)))) as [Hin|Hout].
  - rewrite splice_lookup_in by (rewrite ?cells_length; lia).
    replace (bw_offset w <=? Z.of_nat y) with true by (symmetry; apply Z.leb_le; lia).
    replace (Z.to_nat (Z.of_nat y - bw_offset w)) with (y - Z.to_nat (bw_offset w))%nat by lia.
    destruct (lookup_lt_is_Some_2 (bw_bytes w) (y - Z.to_nat (bw_offset w))) as [x Hx]; [lia|].
    unfold cells. by rewrite list_lookup_fmap, Hx.
  - rewrite splice_lookup_out by (rewrite ?cells_length; lia). rewrite IH by done.
    destruct (bw_offset w <=? Z.of_nat y) eqn:Hle; [|done]. bool_prop.
    by rewrite (lookup_ge_None_2 (bw_bytes w)) by lia.
Qed.

(** Cells replaced where the edit gives one. *)
Definition overlay (edit : Z -> option cell) (l : list cell) : list cell :=
  imap (fun y x => default x (edit (Z.of_nat y))) l.

(** ** Committing new trees *)

(** The device [d] holds [l] afterwards; everything else is as before. *)
Record updated `{Crc32cCrate} (config : LocalStoreConfig) (c : LocalCoordinator) (d : DeviceId) (l : list cell)
    (c' : LocalCoordinator) : Prop := {
  up_wf : cow_wf config c';
  up_keeps : keeps c c';
  up_extends : extends (co_metadata c) (co_metadata c');
  up_anchored : anchored (co_metadata c) -> anchored (co_metadata c');
  up_specs : device_specs (co_metadata c) ⊆ device_specs (co_metadata c');
  up_contents : device_contents config c' d = Some l;
  up_others : forall d', d' <> d -> device_contents config c' d' = device_contents config c d';
  up_used : forall d', device_roots (co_metadata c') d' = None <-> d' <> d /\ device_roots (co_metadata c) d' = None;
  up_next : next_device_id (co_metadata c') = Z.max (next_device_id (co_metadata c)) (d + 1);
}.

(** A live device has roots and an id below the next one. *)
Lemma live_used `{Crc32cCrate} config c d head :
  cow_wf config c -> device_heads (co_metadata c) !! d = Some head ->
  (forall d', device_roots (co_metadata c) d' = None <-> d' <> d /\ device_roots (co_metadata c) d' = None) /\
  next_device_id (co_metadata c) = Z.max (next_device_id (co_metadata c)) (d + 1).
Proof.
  intros Hwf Hh. destruct (pw_heads _ _ (sw_plane _ _ Hwf) _ _ Hh) as (_ & Hlt & _). split; [|lia].
  intros d'. split; [|tauto]. intros Hr. split; [|done]. intros ->. unfold device_roots in Hr. by rewrite Hh in Hr.
Qed.

(** A later state of the store: everything stored, and the whole history, is kept. *)
Record later (c c' : LocalCoordinator) : Prop := {
  lt_keeps : keeps c c';
  lt_extends : extends (co_metadata c) (co_metadata c');
  lt_anchored : anchored (co_metadata c) -> anchored (co_metadata c');
  lt_specs : device_specs (co_metadata c) ⊆ device_specs (co_metadata c');
}.

#[export] Instance later_preorder : PreOrder later.
Proof.
  split; [by constructor|]. intros c1 c2 c3 [A1 A2 A3 A4] [B1 B2 B3 B4]. constructor; [by etrans..|by auto|by etrans].
Qed.

Lemma updated_later `{Crc32cCrate} config c d l c' : updated config c d l c' -> later c c'.
Proof. intros []. by constructor. Qed.

Lemma updated_refl `{Crc32cCrate} config c d l :
  cow_wf config c -> device_contents config c d = Some l -> updated config c d l c.
Proof.
  intros Hwf Hl. unfold device_contents in Hl. destruct (device_heads (co_metadata c) !! d) as [head|] eqn:Hh; [|done].
  destruct (live_used config c d head Hwf Hh). constructor; try done. unfold device_contents. by rewrite Hh.
Qed.

(** No write is under way, and the counters can still grow by [n] operations and
    [b] bytes of payload. *)
Definition capacity (c : LocalCoordinator) (n b : Z) : Prop :=
  pool_ready (co_storage_nodes c) b /\ co_next_write_intent c + n < U128_MOD /\ next_commit_seq (co_metadata c) + n < U64_MOD.

Lemma capacity_le c n b n' b' : n' <= n -> b' <= b -> capacity c n b -> capacity c n' b'.
Proof. intros Hn Hb ([? ?] & ? & ?). split_and!; [split; [by eapply pool_room_le|done]|lia|lia]. Qed.

(** What only changes the state of segments changes no contents. *)
Lemma updated_same `{Crc32cCrate} config c d l c' s :
  updated config c d l c' -> pool_wf (cfg_block_size config) s -> pool_same (co_storage_nodes c') s ->
  updated config c d l (set_co_storage_nodes s c').
Proof.
  intros [[W1 W2 W3 W4 W5] K X Ha Hs Hl Ho Hu Hn] Hp Hsame.
  assert (K' : keeps c' (set_co_storage_nodes s c')).
  { constructor; [done|intros id bytes; cbn; by rewrite (psm_payload _ _ Hsame)|]. intros id bytes _. unfold segment_mode.
    cbn. by rewrite (psm_receipt _ _ Hsame). }
  constructor; [constructor| | | | | | | |]; cbn [co_metadata set_co_storage_nodes]; try done.
  - intros id v Hv. unfold fetch_receipt. cbn [co_storage_nodes set_co_storage_nodes].
    rewrite (psm_receipt _ _ Hsame). by apply W3.
  - intros d' h Hh. eapply keeps_device_wf; [exact K'|done|by apply W4].
  - by etrans.
  - rewrite <-Hl. by apply keeps_contents.
  - intros d' Hd'. rewrite <-Ho by done. by apply keeps_contents.
Qed.

Section commit.
Context {CR : Crc32cCrate} (config : LocalStoreConfig) (c : LocalCoordinator).
Context (d : DeviceId) (head : DeviceHead) (spec : DeviceSpec).
Local Abbreviation bs := (cfg_block_size config).
Local Abbreviation blocks := (ds_logical_blocks spec).
Local Abbreviation roots := (dh_shard_roots head).
Local Abbreviation range := (rng config spec).
Hypothesis Hcfg : config_ok config.
Hypothesis Hwf : cow_wf config c.
Hypothesis Hhead : device_heads (co_metadata c) !! d = Some head.
Hypothesis Hspec : device_specs (co_metadata c) !! d = Some spec.

Lemma batch_device : ds_block_size spec = bs /\ device_ok config c blocks roots.
Proof using Hwf Hhead Hspec.
  destruct (sw_devices _ _ Hwf d head Hhead) as (spec' & Hs & _ & ? & ?). by assert (spec' = spec) as -> by congruence.
Qed.

(** The state before the commit: the payloads are stored, and the new trees
    stand beside the old ones. [edit] gives the new cells. *)
Record staged (edit : Z -> option cell) (b : Z) (c' : LocalCoordinator) (l : list (ShardId * MetadataNodeId))
    (rs : list MetadataNodeId) : Prop := {
  sg_keeps : keeps c c';
  sg_nodes : nodes_grow (co_metadata c) (co_metadata c');
  sg_segments : segments_ok bs b c';
  sg_nodup : NoDup ((fun s => Z.to_nat s.1) <$> l);
  sg_index : Forall (fun s => 0 <= s.1 /\ roots !! Z.to_nat s.1 = Some s.2) l;
  sg_trees : Forall2 (fun s root' => tree_ok bs (segment_size bs (co_storage_nodes c'))
    (tree_fuel (bk_blocks (range (Z.to_nat s.1)))) (metadata_nodes (co_metadata c')) root' (range (Z.to_nat s.1))) l rs;
  sg_bytes : forall j root root' y, roots !! j = Some root -> new_roots roots l rs !! j = Some root' ->
    in_block_range (range j) (y / bs) ->
    block_cell bs (co_storage_nodes c') (tree_block (co_metadata c') root' (range j)) y =
    default (block_cell bs (co_storage_nodes c) (tree_block (co_metadata c) root (range j)) y) (edit y);
}.

Lemma device_cell_shard c0 roots0 j root y :
  device_ok config c0 blocks roots0 -> roots0 !! j = Some root -> in_block_range (range j) (y / bs) ->
  device_cell config c0 blocks roots0 y =
    block_cell bs (co_storage_nodes c0) (tree_block (co_metadata c0) root (range j)) y.
Proof using Type.
  intros Hok Hr Hy. pose proof (Forall2_length _ _ _ (dok_trees _ _ _ _ Hok)) as Hl. rewrite length_seqZ in Hl.
  pose proof (dok_shards _ _ _ _ Hok) as Hn. pose proof (lookup_lt_Some _ _ _ Hr).
  destruct (device_shards_chain config blocks roots0 Hn ltac:(lia)) as [Hch _].
  unfold device_cell, block_cell, device_block.
  rewrite (child_at_in _ _ _ (mkMetadataChild (range j) root) (y / bs) Hch); [done| |exact Hy].
  apply list_elem_of_lookup. exists j. apply lookup_zip_with_Some. exists (Z.of_nat j), root. split_and!; [done| |done].
  apply lookup_seqZ_lt. lia.
Qed.

Lemma staged_root edit b c' l rs j root' :
  staged edit b c' l rs -> new_roots roots l rs !! j = Some root' ->
  tree_ok bs (segment_size bs (co_storage_nodes c')) (tree_fuel (bk_blocks (range j)))
    (metadata_nodes (co_metadata c')) root' (range j).
Proof using Hwf Hhead Hspec.
  intros S Hr'. destruct batch_device as [_ Hdev]. pose proof (lookup_lt_Some _ _ _ Hr') as Hlt.
  rewrite new_roots_length in Hlt.
  destruct (decide (j ∈ (fun s : ShardId * MetadataNodeId => Z.to_nat s.1) <$> l)) as [Hj|Hj].
  - apply list_elem_of_fmap in Hj as (s & -> & Hs).
    destruct (new_roots_edited _ roots l rs s (sg_nodup _ _ _ _ _ S) (sg_trees _ _ _ _ _ S) Hs Hlt) as (r & ? & Ht).
    by assert (r = root') as -> by congruence.
  - rewrite new_roots_other in Hr' by done. eapply keeps_tree; [apply S|].
    by apply (shard_of_root config c head spec Hdev).
Qed.

(** The device with the new roots. *)
Lemma staged_device edit b c' l rs :
  staged edit b c' l rs ->
  device_ok config c' blocks (new_roots roots l rs) /\
  forall y, 0 <= y < blocks * bs -> device_cell config c' blocks (new_roots roots l rs) y =
    default (device_cell config c blocks roots y) (edit y).
Proof using Hcfg Hwf Hhead Hspec.
  intros S. destruct batch_device as [_ Hdev]. pose proof (config_bs config Hcfg) as Hbs.
  assert (Hok : device_ok config c' blocks (new_roots roots l rs)).
  { destruct Hdev as [H1 H2 H3]. constructor; [done|done|]. apply Forall2_length in H3 as H3'.
    apply Forall2_same_length_lookup_2; [by rewrite new_roots_length|]. intros j i root' [-> _]%lookup_seqZ Hr'.
    rewrite Z.add_0_l. by apply (staged_root edit b c' l rs). }
  split; [done|]. intros y Hy.
  destruct (shard_of_block config c head spec Hdev (y / bs)) as (j & root & Hr & Hin); [by apply byte_in_blocks|].
  destruct (lookup_lt_is_Some_2 (new_roots roots l rs) j) as [root' Hr'].
  { rewrite new_roots_length. by eapply lookup_lt_Some. }
  rewrite (device_cell_shard c' _ j root' y Hok Hr' Hin), (device_cell_shard c _ j root y Hdev Hr Hin).
  by apply (sg_bytes _ _ _ _ _ S).
Qed.

Lemma shard_updates_typed l rs :
  Forall (fun s => 0 <= s.1 /\ roots !! Z.to_nat s.1 = Some s.2) l -> Forall update_typed (shard_updates l rs).
Proof using Type.
  intros Hl. apply Forall_forall. intros u Hu. unfold shard_updates in Hu.
  apply elem_of_concat in Hu as (us & Hus & Hu). apply elem_of_lookup_zip_with in Hus as (i & s & r & -> & Hs & _).
  rewrite Forall_forall in Hl. destruct (Hl s (list_elem_of_lookup_2 _ _ _ Hs)) as [H0 _]. unfold shard_update in Hu.
  destruct (r =? s.2); [by apply not_elem_of_nil in Hu|]. apply list_elem_of_singleton in Hu as ->. exact H0.
Qed.

Lemma tree_ok_node size h nodes id r : tree_ok bs size h nodes id r -> is_Some (nodes !! id).
Proof using Type. destruct h; [done|]. intros (n & Hn & _). by exists n. Qed.

(** The store after the head of the device got new roots. *)
Lemma staged_updated edit b c' l rs l0 m' gen seq :
  staged edit b c' l rs -> device_contents config c d = Some l0 ->
  plane_wf config m' -> (anchored (co_metadata c) -> anchored m') -> extends (co_metadata c') m' -> metadata_nodes m' = metadata_nodes (co_metadata c') ->
  device_specs m' = device_specs (co_metadata c) -> next_device_id m' = next_device_id (co_metadata c) ->
  deleted_device_heads m' = deleted_device_heads (co_metadata c) ->
  device_heads m' = <[d := mkDeviceHead (dh_device_id head) gen (new_roots roots l rs) seq]> (device_heads (co_metadata c)) ->
  updated config c d (overlay edit l0) (set_co_metadata m' c').
Proof using Hcfg Hwf Hhead Hspec.
  intros S Hl0 Hp Ha Hext Hnodes Hspecs Hnext Hdel Hheads. destruct batch_device as [Hsb Hdev].
  destruct (staged_device edit b c' l rs S) as [Hok Hbytes].
  assert (K' : keeps c' (set_co_metadata m' c')) by (constructor; [by apply ex_nodes|done..]).
  assert (K : keeps c (set_co_metadata m' c')) by (etrans; [apply S|exact K']).
  destruct (keeps_device config _ _ _ _ K' Hok) as [Hok' Hbytes'].
  assert (Hold : forall d', d' <> d -> device_heads m' !! d' = device_heads (co_metadata c) !! d')
    by (intros d' Hd'; by rewrite Hheads, lookup_insert_ne).
  destruct (live_used config c d head Hwf Hhead) as [Hused Hmax].
  assert (Hroots : forall d', device_roots m' d' = None <-> device_roots (co_metadata c) d' = None).
  { intros d'. unfold device_roots. rewrite Hdel, Hheads. destruct (decide (d = d')) as [<-|Hne].
    - by rewrite lookup_insert_eq, Hhead.
    - by rewrite lookup_insert_ne. }
  constructor; [constructor| | | | | | | |]; cbn [co_metadata set_co_metadata].
  - exact Hp.
  - apply S.
  - apply S.
  - rewrite Hheads. intros d' h'. rewrite lookup_insert_Some. intros [[<- <-]|[Hd Hh']].
    + destruct (sw_devices _ _ Hwf d head Hhead) as (spec' & Hs & Hv & _). assert (spec' = spec) as -> by congruence.
      exists spec. cbn [co_metadata set_co_metadata]. by rewrite Hspecs.
    + eapply keeps_device_wf; [exact K|cbn; by rewrite Hspecs|]. by apply (sw_devices _ _ Hwf).
  - rewrite Hspecs. intros d' Hs. apply (sw_specs _ _ Hwf) in Hs.
    rewrite <-not_eq_None_Some in *. by rewrite Hroots.
  - exact K.
  - etrans; [|exact Hext]. apply frame_extends. eapply nodes_grow_frame; [apply S|apply Hwf].
  - exact Ha.
  - by rewrite Hspecs.
  - unfold device_contents in *. cbn [co_metadata set_co_metadata]. rewrite Hheads, Hspecs, lookup_insert_eq, Hspec.
    rewrite Hhead, Hspec in Hl0. cbn in Hl0 |- *. injection Hl0 as <-. f_equal. unfold overlay.
    apply list_eq. intros i. rewrite list_lookup_imap, !list_lookup_fmap.
    destruct (seqZ 0 (blocks * bs) !! i) as [y|] eqn:Hy; [|done]. cbn. apply lookup_seqZ in Hy as [-> Hi]. f_equal.
    rewrite Z.add_0_l. rewrite <-Hbytes by lia. apply Hbytes'.
  - intros d' Hd'. apply keeps_contents; [done|apply Hwf|by apply Hold|cbn; by rewrite Hspecs].
  - intros d'. rewrite Hroots. apply Hused.
  - by rewrite Hnext.
Qed.

(** Nothing to publish: the edits change no byte. *)
Lemma staged_unchanged edit b c' l rs l0 :
  staged edit b c' l rs -> shard_updates l rs = [] -> device_contents config c d = Some l0 ->
  updated config c d (overlay edit l0) c'.
Proof using Hcfg Hwf Hhead Hspec.
  intros S Hnil Hl0. pose proof (sg_nodes _ _ _ _ _ S) as G. pose proof (ng_eq _ _ G) as E.
  assert (Hsame : new_roots roots l rs = roots).
  { apply new_roots_same; [|apply S]. apply shard_updates_nil; [done|]. eapply Forall2_length, S. }
  replace c' with (set_co_metadata (co_metadata c') c') by (by destruct c').
  eapply (staged_updated edit b c' l rs l0 (co_metadata c') (dh_generation head) (dh_latest_commit head)); try done.
  - eapply plane_wf_frame; [apply Hwf|by apply nodes_grow_frame].
  - intros Ha. eapply frame_anchored; [apply Hwf|by apply nodes_grow_frame|done].
  - by rewrite E.
  - by rewrite E.
  - by rewrite E.
  - rewrite Hsame, insert_id; [by rewrite E|]. rewrite Hhead. by destruct head.
Qed.

(** Publishing the new roots makes the edits the contents of the device. *)
Lemma staged_commit edit b c' l rs gen l0 :
  staged edit b c' l rs -> shard_updates l rs <> [] -> device_contents config c d = Some l0 ->
  next_commit_seq (co_metadata c) + 1 < U64_MOD ->
  exists group m',
    publish_commit_group_observed config (mkCommitGroupIntent (OwnBlockDevice d) (MfDeviceGeneration gen)
      (shard_updates l rs)) c' = (Ok group, set_co_metadata m' c') /\
    cg_commit_seq group = next_commit_seq (co_metadata c) /\
    next_commit_seq m' = next_commit_seq (co_metadata c) + 1 /\
    updated config c d (overlay edit l0) (set_co_metadata m' c').
Proof using Hcfg Hwf Hhead Hspec.
  intros S Hne Hl0 Hseq. pose proof (sg_nodes _ _ _ _ _ S) as G. pose proof (ng_eq _ _ G) as E.
  set (m := co_metadata c') in *.
  assert (Hheads : device_heads m = device_heads (co_metadata c)) by by rewrite E.
  assert (Hspecs : device_specs m = device_specs (co_metadata c)) by by rewrite E.
  assert (Hnext : next_commit_seq m = next_commit_seq (co_metadata c)) by by rewrite E.
  assert (Hwf' : plane_wf config m) by (eapply plane_wf_frame; [apply Hwf|by apply nodes_grow_frame]).
  pose proof (pw_heads _ _ (sw_plane _ _ Hwf) d head Hhead) as (_ & _ & Hgen & _ & _ & Hlat & _).
  destruct (updates_run m l rs roots []) as [ups Hups].
  { apply S. }
  { eapply Forall2_length, S. }
  { intros s Hs. by apply (proj1 (Forall_forall _ _) (sg_index _ _ _ _ _ S) s Hs). }
  { apply Forall_forall. intros r (k & Hr)%list_elem_of_lookup.
    destruct (Forall2_lookup_r _ _ _ _ _ (sg_trees _ _ _ _ _ S) Hr) as (s & _ & Ht). by eapply tree_ok_node. }
  pose proof (publish_block_run d gen (shard_updates l rs) m head (new_roots roots l rs) ups) as Hrun.
  specialize (Hrun ltac:(by rewrite Hheads) ltac:(lia) ltac:(lia) Hne Hups). cbv zeta in Hrun.
  set (intent := mkCommitGroupIntent _ _ _) in *.
  set (m' := published m d head intent (new_roots roots l rs) ups) in *.
  eexists _, m'. split_and!.
  { unfold publish_commit_group_observed, on_metadata. cbn [publish_commit_group ci_owner intent]. fold m. by rewrite Hrun. }
  { exact Hnext. }
  { rewrite <-Hnext. done. }
  pose proof (publish_block_step config d intent m Hwf' (shard_updates_typed _ _ (sg_index _ _ _ _ _ S))) as (Hp & Hext & Ha).
  rewrite Hrun in Hp, Hext, Ha. cbn [snd] in Hp, Hext, Ha.
  eapply staged_updated; try done; [|cbn; by rewrite E..|cbn; by rewrite Hheads].
  intros Ha0. apply Ha. eapply frame_anchored; [apply Hwf|by apply nodes_grow_frame|done].
Qed.
End commit.
