(* ===== verification/Device.v ===== *)
(** * Block devices as arrays of cells

    The store invariant, and what the operations of the coordinator do to the
    bytes of its devices: a batch overlays its writes, the last writer of a byte
    winning, in one commit; reads return the current bytes; and every other
    device, with everything that was ever stored, is left alone. *)

From S2P Require Import Prelude Intervals Api Object TreeEdit Batch Provider Authority Config.
From S2P Require Import Catalog SegmentStore StorageNode Streams Plane Timeline History Coordinator.
From S2P Require Import SegmentPool CowTree CowSpec Trees ReadPath ReadSpec BlockOps BlockPlan.
From S2P Require Import BlockCommit Store.

#[local] Opaque WriteGrant_hash deterministic_test_proof_for_grant
  deterministic_test_proof_for_receipt deterministic_test_proof_for_reference.

(** ** A batch, up to the commit *)

Section batch.
Context {CR : Crc32cCrate} (config : LocalStoreConfig) (c : LocalCoordinator).
Context (d : DeviceId) (head : DeviceHead) (spec : DeviceSpec) (writes : list BlockBatchWrite) (b : Z).
Local Abbreviation bs := (cfg_block_size config).
Local Abbreviation blocks := (ds_logical_blocks spec).
Local Abbreviation roots := (dh_shard_roots head).
Local Abbreviation range := (rng config spec).
Hypothesis Hcfg : config_ok config.
Hypothesis Hwf : cow_wf config c.
Hypothesis Hhead : device_heads (co_metadata c) !! d = Some head.
Hypothesis Hspec : device_specs (co_metadata c) !! d = Some spec.
Hypothesis Htyped : Forall (fun w => 0 <= bw_offset w) writes.
Hypothesis Hvalid : Forall (fun w => BlockBatchWrite_validate_for_device w spec = Ok tt) writes.
Hypothesis Hsize : batch_bytes writes <= b.
Hypothesis Hroom : pool_room (co_storage_nodes c) b.

Lemma room_bound : b < U64_MOD.
Proof using Hwf Hroom.
  destruct Hroom as (H1 & _). pose proof (po_next _ _ (sw_pool _ _ Hwf)) as Hn. unfold in_u64, U64_MAX in *. lia.
Qed.

Lemma collapsed_fit out :
  iv_sorted cb_offset cb_end out -> Forall (wf_cb bs) out ->
  (forall x, first_at cb_at out x = last_writer bw_at writes x) -> Forall (fits config spec) out.
Proof using Hwf Hhead Hspec Hvalid.
  destruct (batch_device config c d head spec Hwf Hhead Hspec) as [Hsb _]. intros Hs Hw Hat. apply Forall_forall. intros w Hin. rewrite Forall_forall in Hw.
  pose proof (proj1 (Forall_forall _ _) Hvalid) as Hval.
  split; [by apply Hw|]. destruct (Hw w Hin) as (_ & Hl & _). unfold cb_end.
  destruct (bytes_at_inside (cb_offset w) (cb_bytes w) (cb_offset w + zlen (cb_bytes w) - 1)) as [x Hx]; [lia|].
  destruct (last_writer bw_at writes (cb_offset w + zlen (cb_bytes w) - 1)) as [p|] eqn:Hlw.
  2:{ rewrite <-Hat, first_at_None in Hlw. specialize (Hlw w Hin). unfold cb_at in Hlw. by rewrite Hx in Hlw. }
  apply first_at_Some_elem in Hlw as (w' & Hw' & Hb'). rewrite list_elem_of_In, <-in_rev, <-list_elem_of_In in Hw'.
  unfold bw_at in Hb'. destruct (bytes_at (bw_offset w') _ _) as [x'|] eqn:Hx'; [|done]. apply bytes_at_dom in Hx'.
  specialize (Hval w' Hw'). unfold BlockBatchWrite_validate_for_device, BlockBatchWrite_byte_range in Hval.
  ok_inv. match goal with H : ByteRange_validate_for_device _ _ = _ |- _ =>
    apply validate_for_device_Ok in H as (_ & _ & _ & _ & _ & Hend) end. cbn in Hend. rewrite Hsb in Hend. unfold zlen in *. lia.
Qed.

(** What the shards of the batch look like between the phases. *)
Section phases.
Context (out : list CollapsedBlockWrite) (c1 c2 c3 : LocalCoordinator).
Context (pm : gmap ShardId BlockBatchShardPending) (se : gmap ShardId BlockBatchShardEdits) (rs : list MetadataNodeId).
Hypothesis Hc1 : co_metadata c1 = co_metadata c /\ co_storage_nodes c1 = co_storage_nodes c.
Hypothesis Hat : forall x, first_at cb_at out x = last_writer bw_at writes x.
Hypothesis Hpm : pending_ok head pm.
Hypothesis Hshards : shards_ok config head spec (bt_iter pm).
Hypothesis Hchunks : forall i y, (i < length roots)%nat -> in_block_range (range i) (y / bs) ->
  first_at (ch_at config) (pending_chunks pm i) y = first_at cb_at out y.
Hypothesis Hst : stored c1 c2.
Hypothesis Hse : forall i p, (i, p) ∈ bt_iter pm -> exists e, se !! i = Some e /\ shard_written config c1 c2 p e.
Hypothesis Hdom : forall i, is_Some (se !! i) -> i ∈ (bt_iter pm).*1.
Hypothesis Hcow : cow_rel c2 c3.
Hypothesis Hed : Forall2 (shard_edited config (fun i => range (Z.to_nat i)) c2 c3) (bt_iter se) rs.

Lemma phase_metadata : co_metadata c2 = co_metadata c.
Proof using Hc1 Hst. rewrite (stored_metadata _ _ Hst). apply Hc1. Qed.

Lemma phase_keeps : keeps c c3.
Proof using Hwf Hc1 Hst Hcow.
  destruct Hc1 as [E1 E2]. transitivity c1; [constructor; rewrite ?E1, ?E2; by auto|].
  transitivity c2; [|by apply cow_keeps]. apply (stored_keeps bs); [rewrite E2; apply Hwf|done].
Qed.

Lemma phase_entry i e : se !! i = Some e ->
  exists p, pm !! i = Some p /\ shard_written config c1 c2 p e /\ 0 <= i /\
    roots !! Z.to_nat i = Some (bss_old_root e) /\ Forall (chunk_in config (range (Z.to_nat i))) (bsp_chunks p) /\
    iv_sorted ch_start ch_end (bsp_chunks p) /\ bsp_chunks p <> [].
Proof using Hpm Hshards Hse Hdom.
  intros He. assert (Hin : i ∈ (bt_iter pm).*1) by (apply Hdom; by eauto).
  apply list_elem_of_fmap in Hin as ([i' p] & -> & Hin). cbn [fst] in *.
  destruct (Hse i' p Hin) as (e' & He' & Hw). assert (e' = e) as -> by congruence.
  destruct (Hshards i' p Hin) as (_ & _ & Hs & Hch). apply elem_of_bt_iter in Hin.
  destruct (Hpm i' p Hin) as (Hi & Hr & Hne). pose proof Hw as (Hold & _). rewrite Hold. exists p. by split_and!.
Qed.

Lemma phase_nodup : NoDup ((fun s => Z.to_nat s.1) <$> old_roots (bt_iter se)).
Proof using Hpm Hshards Hse Hdom.
  assert (Hnd : NoDup (Z.to_nat <$> (bt_iter se).*1)).
  { apply NoDup_fmap_2_strong; [|apply bt_keys_nodup]. intros i j Hi Hj Hij.
    apply list_elem_of_fmap in Hi as ([i' e] & -> & Hi%elem_of_bt_iter), Hj as ([j' e'] & -> & Hj%elem_of_bt_iter). cbn in *.
    destruct (phase_entry i' e Hi) as (_ & _ & _ & ? & _). destruct (phase_entry j' e' Hj) as (_ & _ & _ & ? & _). lia. }
  rewrite <-list_fmap_compose in Hnd. unfold old_roots. rewrite <-list_fmap_compose. exact Hnd.
Qed.

(** One block of an edited shard. *)
Lemma phase_block i e root' y :
  se !! i = Some e -> shard_edited config (fun i => range (Z.to_nat i)) c2 c3 (i, e) root' ->
  in_block_range (range (Z.to_nat i)) (y / bs) ->
  match last_writer bw_at writes y with
  | Some p => block_cell bs (co_storage_nodes c3) (tree_block (co_metadata c3) root' (range (Z.to_nat i))) y = p /\
      exists id k, tree_block (co_metadata c3) root' (range (Z.to_nat i)) (y / bs) = Some (id, k) /\
        segment_payload (co_storage_nodes c) id = None
  | None => tree_block (co_metadata c3) root' (range (Z.to_nat i)) (y / bs) =
      tree_block (co_metadata c) (bss_old_root e) (range (Z.to_nat i)) (y / bs)
  end.
Proof using Hcfg Hc1 Hat Hpm Hshards Hchunks Hst Hse Hdom Hcow.
  intros He [_ Hov] Hin. destruct (phase_entry i e He) as (p & Hp & (_ & Hback & Hfresh) & Hi & Hr & Hch & _ & _).
  pose proof (config_bs config Hcfg) as Hbs. cbn [fst snd] in Hov. specialize (Hov (y / bs) Hin).
  pose proof (edits_contents config Hbs c2 _ _ _ y Hback Hch) as Hec.
  assert (Hpc : first_at (ch_at config) (bsp_chunks p) y = last_writer bw_at writes y).
  { rewrite <-Hat, <-(Hchunks (Z.to_nat i) y); [|by eapply lookup_lt_Some|done].
    unfold pending_chunks. rewrite Z2Nat.id by done. by rewrite Hp. }
  rewrite Hpc in Hec. destruct (List.find _ _) as [te|] eqn:Hfind.
  - destruct Hov as [Hblk _]. destruct (last_writer bw_at writes y) as [q|]; [|done]. injection Hec as Hq.
    apply find_some in Hfind as [Hte _]. apply list_elem_of_In, list_elem_of_fmap in Hte as (ed & -> & Hed').
    split; [unfold block_cell; by rewrite Hblk, (cr_registry _ _ Hcow), Hq|].
    eexists _, _. split; [exact Hblk|]. rewrite Forall_forall in Hfresh. destruct Hc1 as [_ <-]. exact (Hfresh ed Hed').
  - destruct Hov as [Hblk _]. destruct (last_writer bw_at writes y) as [q|]; [done|]. by rewrite Hblk, phase_metadata.
Qed.

Lemma phase_edited s : s ∈ bt_iter se ->
  exists root', new_roots roots (old_roots (bt_iter se)) rs !! Z.to_nat s.1 = Some root' /\
    shard_edited config (fun i => range (Z.to_nat i)) c2 c3 s root' /\
    (shard_updates (old_roots (bt_iter se)) rs = [] -> root' = bss_old_root s.2).
Proof using Hpm Hshards Hse Hdom Hed.
  destruct s as [i e]. intros Hin. pose proof Hin as He%elem_of_bt_iter.
  destruct (phase_entry i e He) as (p & _ & _ & _ & Hr & _).
  pose proof (Forall2_length _ _ _ Hed) as Hlen.
  assert (Hlen' : length (old_roots (bt_iter se)) = length rs) by (unfold old_roots; by rewrite length_fmap).
  destruct (new_roots_edited (fun s r => (exists e, (s.1, e) ∈ bt_iter se /\ s.2 = bss_old_root e /\
      shard_edited config (fun i => range (Z.to_nat i)) c2 c3 (s.1, e) r) /\
      (shard_updates (old_roots (bt_iter se)) rs = [] -> r = s.2)) roots (old_roots (bt_iter se)) rs (i, bss_old_root e)
    phase_nodup) as (root' & Hroot & (e' & He'%elem_of_bt_iter & _ & Hsh) & Hold).
  - apply Forall2_same_length_lookup_2; [done|]. intros k s r Hs Hr'. split.
    + unfold old_roots in Hs. rewrite list_lookup_fmap in Hs. destruct (bt_iter se !! k) as [[i' e']|] eqn:Hk; [|done].
      injection Hs as <-. exists e'. split_and!; [by eapply list_elem_of_lookup_2|done|].
      exact (Forall2_lookup_lr _ _ _ _ _ _ Hed Hk Hr').
    + intros Hnil. exact (Forall2_lookup_lr _ _ _ _ _ _ (shard_updates_nil _ _ Hnil Hlen') Hs Hr').
  - unfold old_roots. by apply (list_elem_of_fmap_2 (fun s => (s.1, bss_old_root s.2)) _ (i, e)).
  - cbn. by eapply lookup_lt_Some.
  - cbn [fst snd] in *. assert (e' = e) as -> by congruence. eauto.
Qed.

(** A shard without writes keeps its root, and no byte of it is written. *)
Lemma phase_untouched j y :
  (j < length roots)%nat -> pm !! Z.of_nat j = None -> in_block_range (range j) (y / bs) ->
  last_writer bw_at writes y = None /\ new_roots roots (old_roots (bt_iter se)) rs !! j = roots !! j.
Proof using Hat Hpm Hshards Hchunks Hse Hdom.
  intros Hj Hnone Hy. split.
  - rewrite <-Hat. specialize (Hchunks j y Hj Hy). unfold pending_chunks in Hchunks. rewrite Hnone in Hchunks.
    by rewrite <-Hchunks.
  - apply new_roots_other. unfold old_roots. rewrite <-list_fmap_compose.
    intros ([i e] & Heq & He%elem_of_bt_iter)%list_elem_of_fmap. cbn in Heq.
    destruct (phase_entry i e He) as (p & Hp & _ & Hi & _). subst j. rewrite Z2Nat.id in Hnone by done. congruence.
Qed.

Lemma phase_bytes j root root' y :
  roots !! j = Some root -> new_roots roots (old_roots (bt_iter se)) rs !! j = Some root' -> in_block_range (range j) (y / bs) ->
  block_cell bs (co_storage_nodes c3) (tree_block (co_metadata c3) root' (range j)) y =
  match last_writer bw_at writes y with
  | Some p => p
  | None => block_cell bs (co_storage_nodes c) (tree_block (co_metadata c) root (range j)) y
  end.
Proof using Hcfg Hwf Hhead Hspec Hc1 Hat Hpm Hshards Hchunks Hst Hse Hdom Hcow Hed.
  intros Hr Hr' Hy. destruct (batch_device config c d head spec Hwf Hhead Hspec) as [_ Hdev].
  destruct (shard_of_root config c head spec Hdev j root Hr) as (_ & _ & Ht).
  destruct (keeps_tree_cell config c c3 root (range j) y phase_keeps Ht Hy) as [Hsame Hbyte].
  destruct (pm !! Z.of_nat j) as [p|] eqn:Hp.
  - destruct (Hse (Z.of_nat j) p) as (e & He & Hold & _); [by apply elem_of_bt_iter|].
    destruct (phase_edited (Z.of_nat j, e)) as (root'' & Hr'' & Hsh & _); [by apply elem_of_bt_iter|].
    cbn [fst] in Hr''. rewrite Nat2Z.id in Hr''. assert (root'' = root') as -> by congruence.
    pose proof (phase_block (Z.of_nat j) e root' y He Hsh) as Hb. rewrite Nat2Z.id in Hb. specialize (Hb Hy).
    destruct (phase_entry _ _ He) as (_ & _ & _ & _ & Hr0 & _). rewrite Nat2Z.id in Hr0.
    destruct (last_writer bw_at writes y) as [q|]; [by destruct Hb as [-> _]|].
    assert (bss_old_root e = root) as Heq by congruence. rewrite Heq in Hb.
    rewrite <-Hbyte. unfold block_cell. by rewrite Hb, Hsame.
  - destruct (phase_untouched j y) as [-> Hnr]; [by eapply lookup_lt_Some|done|done|].
    assert (root' = root) as -> by congruence. done.
Qed.

Lemma phase_changed : Forall (fits config spec) out -> out <> [] -> shard_updates (old_roots (bt_iter se)) rs <> [].
Proof using Hcfg Hwf Hhead Hspec Hc1 Hat Hpm Hshards Hchunks Hst Hse Hdom Hcow Hed.
  intros Hfits Hne Hnil. destruct (batch_device config c d head spec Hwf Hhead Hspec) as [_ Hdev]. pose proof (config_bs config Hcfg) as Hbs.
  assert (Hw : exists w, w ∈ out).
  { apply (proj2 (head_is_Some out)) in Hne as [w Hw]. exists w. by apply head_Some_elem_of. }
  destruct Hw as [w Hw]. rewrite Forall_forall in Hfits. destruct (Hfits w Hw) as ((H0 & Hl & _) & Hend). set (y := cb_offset w).
  destruct (bytes_at_inside (cb_offset w) (cb_bytes w) y) as [x Hx]; [unfold y; lia|].
  destruct (last_writer bw_at writes y) as [q|] eqn:Hq.
  2:{ rewrite <-Hat, first_at_None in Hq. specialize (Hq w Hw). unfold cb_at in Hq. by rewrite Hx in Hq. }
  unfold cb_end in Hend.
  destruct (shard_of_block config c head spec Hdev (y / bs)) as (j & root & Hr & Hy).
  { apply byte_in_blocks; [done|]. unfold y. lia. }
  destruct (shard_of_root config c head spec Hdev j root Hr) as (_ & _ & Ht).
  destruct (keeps_tree_cell config c c3 root (range j) y phase_keeps Ht Hy) as [Hsame _].
  destruct (pm !! Z.of_nat j) as [p|] eqn:Hp.
  - destruct (Hse (Z.of_nat j) p) as (e & He & _); [by apply elem_of_bt_iter|].
    destruct (phase_edited (Z.of_nat j, e)) as (root' & _ & Hsh & Hold); [by apply elem_of_bt_iter|]. specialize (Hold Hnil).
    cbn [snd] in Hold. subst root'.
    pose proof (phase_block (Z.of_nat j) e _ y He Hsh) as Hb. rewrite Nat2Z.id, Hq in Hb. destruct (Hb Hy) as (_ & id & k & Hblk & Hno).
    destruct (phase_entry _ _ He) as (_ & _ & _ & _ & Hr0 & _). rewrite Nat2Z.id in Hr0.
    assert (bss_old_root e = root) as Heq by congruence. rewrite Heq, Hsame in Hblk.
    destruct (tree_block_payload config c _ _ _ id k Ht Hy Hblk) as [? ?]. congruence.
  - destruct (phase_untouched j y) as [? _]; [by eapply lookup_lt_Some|done|done|]. congruence.
Qed.
End phases.

Lemma batch_staged out wi dur gen latest :
  iv_sorted cb_offset cb_end out -> Forall (wf_cb bs) out -> out <> [] ->
  (forall x, first_at cb_at out x = last_writer bw_at writes x) ->
  let c1 := set_co_next_write_intent (co_next_write_intent c + 1) c in
  exists pm se vs rs ds c2 c3,
    try_fold (pend_write (co_metadata c) (mkDeviceInfo d gen spec latest)) ∅ out = Ok pm /\
    st_fold (write_shard d bs head wi dur) (∅, []) (bt_iter pm) c1 = (Ok (se, vs), c2) /\
    st_fold (edit_shard config vs) ([], []) (bt_iter se) c2 = (Ok (shard_updates (old_roots (bt_iter se)) rs, ds), c3) /\
    ds <> [] /\ shard_updates (old_roots (bt_iter se)) rs <> [] /\ written c c3 vs /\
    co_next_write_intent c3 = co_next_write_intent c + 1 /\
    staged config c head spec (last_writer bw_at writes) (b - batch_bytes writes) c3
      (old_roots (bt_iter se)) rs.
Proof using Hcfg Hwf Hhead Hspec Hvalid Hsize Hroom.
  intros Hs Hw Hne Hat c1. destruct (batch_device config c d head spec Hwf Hhead Hspec) as [Hsb Hdev]. pose proof (config_bs config Hcfg) as Hbs.
  pose proof (collapsed_fit out Hs Hw Hat) as Hfits. pose proof room_bound as HbU.
  destruct Hcfg as (_ & _ & Hmany).
  destruct (pending_run config c d head spec Hbs Hhead Hsb Hdev Hmany out gen latest Hfits Hs)
    as (pm & Hpend & Hpm & Hshards & Hchunks & Htotal).
  pose proof (collapsed_bytes out writes Hs Hat) as Hcol.
  destruct (write_shards_ok config Hbs (fun i => range (Z.to_nat i)) d head wi dur (bt_iter pm) c1 b)
    as (se & vs & c2 & Hwrite & Hst & Hseg & Hk & Hse & Hdom).
  { apply bt_keys_nodup. }
  { intros i p Hin. destruct (Hshards i p Hin) as (Hi & [root Hr] & Hsrt & Hch).
    destruct (shard_of_root config c head spec Hdev _ root Hr) as (_ & ((Hr0 & _ & Hr1) & _) & _).
    unfold in_u64 in Hr0. split_and!; [done|done|lia|exact Hr1]. }
  { constructor; [exact (sw_pool _ _ Hwf)|exact Hroom|exact (sw_cache _ _ Hwf)]. }
  { unfold all_chunks in Htotal. lia. }
  { exact HbU. }
  set (R := fun i => range (Z.to_nat i)).
  assert (Hentry : forall i e, se !! i = Some e -> _) by exact (fun i e =>
    phase_entry c1 c2 pm se Hpm Hshards Hse Hdom i e).
  assert (Hm2 : co_metadata c2 = co_metadata c) by exact (stored_metadata _ _ Hst).
  assert (Hk12 : keeps c c2) by (transitivity c1; [by constructor|apply (stored_keeps bs); [apply Hwf|done]]).
  destruct (edit_shards_ok config Hbs R vs (bt_iter se) c2) as (rs & c3 & Hedit & Hcow & Hed).
  { apply Hseg. }
  { rewrite Hm2. apply Hwf. }
  { apply known_ready; [done|apply Hseg|apply Hseg|apply Hk]. }
  { intros i e He%elem_of_bt_iter. destruct (Hentry i e He) as (p & Hp & (_ & Hback & _) & _ & Hr & Hch & Hsrt & _). split.
    - apply (keeps_tree config c c2 _ _ _ Hk12). by apply (shard_of_root config c head spec Hdev).
    - by exists (bsp_chunks p). }
  exists pm, se, vs, rs, (concat ((fun s => delta_entry s.1 <$> bss_edits s.2) <$> bt_iter se)), c2, c3.
  assert (Hc1 : co_metadata c1 = co_metadata c /\ co_storage_nodes c1 = co_storage_nodes c) by done.
  pose proof (cr_registry _ _ Hcow) as Hreg. split_and!; [done|done|done| | | | |].
  - intros Hnil. apply (phase_changed out c1 c2 c3 pm se rs Hc1 Hat Hpm Hshards Hchunks Hst Hse Hdom Hcow Hed Hfits Hne).
    destruct (bt_iter se) as [|[i e] l] eqn:Hl; [done|]. exfalso.
    destruct (Hentry i e) as (p & _ & (_ & Hback & _) & _ & _ & _ & _ & Hpne); [apply elem_of_bt_iter; rewrite Hl; by left|].
    cbn in Hnil. apply app_eq_nil in Hnil as [Hnil _]. apply fmap_nil_inv in Hnil. rewrite Hnil in Hback.
    by apply Forall2_nil_inv_r in Hback.
  - exact (phase_changed out c1 c2 c3 pm se rs Hc1 Hat Hpm Hshards Hchunks Hst Hse Hdom Hcow Hed Hfits Hne).
  - destruct Hk as [Hk Hpd]. split; [|rewrite Hreg; exact Hpd].
    eapply Forall_impl; [exact Hk|]. intros v [Hv Hf]. split; [by rewrite Hreg|by rewrite (fetch_registry c2 c3)].
  - rewrite (cr_intent _ _ Hcow), (st_rest _ _ Hst). done.
  - constructor.
    + exact (phase_keeps c1 c2 c3 Hc1 Hst Hcow).
    + rewrite <-Hm2. apply Hcow.
    + destruct Hseg as [Hp Hr Hc]. constructor; rewrite ?Hreg; [done| |by eapply cow_cache_ok].
      eapply pool_room_le; [|exact Hr]. unfold all_chunks in Htotal. lia.
    + exact (phase_nodup c1 c2 pm se Hpm Hshards Hse Hdom).
    + unfold old_roots. apply Forall_fmap, Forall_forall. intros [i e] He%elem_of_bt_iter. cbn.
      by destruct (Hentry i e He) as (_ & _ & _ & ? & ? & _).
    + unfold old_roots. apply Forall2_fmap_l. eapply Forall2_impl; [exact Hed|]. intros [i e] root' [Ht _]. rewrite Hreg. exact Ht.
    + intros j root root' y Hr Hr' Hy.
      rewrite (phase_bytes out c1 c2 c3 pm se rs Hc1 Hat Hpm Hshards Hchunks Hst Hse Hdom Hcow Hed j root root' y Hr Hr' Hy).
      by destruct (last_writer bw_at writes y).
Qed.
End batch.


(** ** Batches *)

Section commit_batch.
Context {CR : Crc32cCrate} (config : LocalStoreConfig).
Hypothesis Hcfg : config_ok config.
Local Abbreviation bs := (cfg_block_size config).

(** A batch a device of [spec] accepts. *)
Definition batch_ok (spec : DeviceSpec) (writes : list BlockBatchWrite) : Prop :=
  writes <> [] /\ Forall (fun w => 0 <= bw_offset w) writes /\
  Forall (fun w => BlockBatchWrite_validate_for_device w spec = Ok tt) writes /\
  batch_bytes writes <= DEFAULT_BLOCK_BATCH_MAX_BYTES.

Lemma contents_head c d l :
  device_contents config c d = Some l ->
  exists head spec, device_heads (co_metadata c) !! d = Some head /\ device_specs (co_metadata c) !! d = Some spec /\
    Z.of_nat (length l) = Z.max 0 (ds_logical_blocks spec * bs).
Proof using Type.
  unfold device_contents. destruct (device_heads (co_metadata c) !! d) as [head|]; [|done]. cbn.
  destruct (device_specs (co_metadata c) !! d) as [spec|]; [|done]. cbn. intros [= <-].
  exists head, spec. rewrite length_fmap, length_seqZ. split_and!; [done|done|lia].
Qed.

Lemma contents_length c d l spec :
  cow_wf config c -> device_contents config c d = Some l -> device_specs (co_metadata c) !! d = Some spec ->
  zlen l = ds_logical_blocks spec * bs.
Proof using Hcfg.
  intros Hwf Hl Hs. destruct (contents_head c d l Hl) as (head & spec' & Hh & Hs' & Hlen).
  assert (spec' = spec) as -> by congruence.
  destruct (batch_device config c d head spec Hwf Hh Hs) as [_ Hdev].
  pose proof (dok_shards _ _ _ _ Hdev). pose proof (config_bs config Hcfg). unfold zlen. nia.
Qed.

Lemma batch_inside spec writes (l : list cell) :
  zlen l = ds_logical_blocks spec * bs -> ds_block_size spec = bs ->
  Forall (fun w => 0 <= bw_offset w) writes ->
  Forall (fun w => BlockBatchWrite_validate_for_device w spec = Ok tt) writes ->
  Forall (write_inside (zlen l)) writes.
Proof using Type.
  intros Hl Hsb Hty Hval. apply Forall_forall. intros w Hw.
  pose proof (proj1 (Forall_forall _ _) Hval w Hw) as Hv. pose proof (proj1 (Forall_forall _ _) Hty w Hw) as H0.
  unfold BlockBatchWrite_validate_for_device, BlockBatchWrite_byte_range in Hv. ok_inv.
  match goal with H : ByteRange_validate_for_device _ _ = _ |- _ =>
    apply validate_for_device_Ok in H as (_ & _ & _ & _ & _ & Hend) end. cbn in Hend. rewrite Hsb in Hend.
  split; [done|]. unfold zlen in *. lia.
Qed.

Lemma overlay_writes writes (l : list cell) :
  Forall (write_inside (zlen l)) writes ->
  overlay (last_writer bw_at writes) l = fold_left apply_write writes l.
Proof using Type.
  intros Hin. apply list_eq. intros i. rewrite apply_writes_lookup by done. unfold overlay. rewrite list_lookup_imap.
  destruct (last_writer bw_at writes (Z.of_nat i)) as [p|] eqn:Hp; [|by destruct (l !! i)].
  assert (is_Some (l !! i)) as [x ->]; [|done]. apply lookup_lt_is_Some_2.
  apply first_at_Some_elem in Hp as (w & Hw & Hb). rewrite list_elem_of_In, <-in_rev, <-list_elem_of_In in Hw.
  pose proof (proj1 (Forall_forall _ _) Hin w Hw) as [H0 H1].
  unfold bw_at in Hb. destruct (bytes_at _ _ _) eqn:Hx; [|done]. apply bytes_at_dom in Hx. unfold zlen in *. lia.
Qed.

Lemma get_head_run m d head : device_heads m !! d = Some head -> get_head m d = Ok head.
Proof using Type. intros H. unfold get_head. by rewrite H. Qed.

Lemma device_info_run m d head spec :
  device_heads m !! d = Some head -> device_specs m !! d = Some spec ->
  device_info m d = Ok (mkDeviceInfo d (dh_generation head) spec (dh_latest_commit head)).
Proof using Type. intros Hh Hs. unfold device_info, get_head. by rewrite Hh, Hs. Qed.

Lemma next_write_intent_run c :
  co_next_write_intent c + 1 < U128_MOD ->
  next_write_intent c = (Ok (co_next_write_intent c), set_co_next_write_intent (co_next_write_intent c + 1) c).
Proof using Type.
  intros H. unfold next_write_intent. rewrite st_bind_run. unfold st_gets at 1. rewrite st_bind_lift.
  by rewrite checked_add_ok.
Qed.

Lemma batch_commit c d l spec writes dur n b :
  cow_wf config c -> device_contents config c d = Some l -> device_specs (co_metadata c) !! d = Some spec ->
  batch_ok spec writes -> batch_bytes writes <= b -> 1 <= n -> capacity c n b ->
  exists r c', commit_block_batch_with_delta config d writes dur c = (Ok r, c') /\
    bbc_commit_seq (bbd_commit r) = next_commit_seq (co_metadata c) /\
    updated config c d (fold_left apply_write writes l) c' /\
    capacity c' (n - 1) (b - batch_bytes writes).
Proof using Hcfg.
  intros Hwf Hl Hspec (Hne & Hty & Hval & Hmax) Hb Hn ([Hroom Hidle] & Hwi & Hseq).
  destruct (contents_head c d l Hl) as (head & spec' & Hhead & Hs' & _). assert (spec' = spec) as -> by congruence.
  destruct (batch_device config c d head spec Hwf Hhead Hspec) as [Hsb _].
  destruct (collapse_block_batch_total spec DEFAULT_BLOCK_BATCH_MAX_BYTES writes) as [out Hout]; try done.
  pose proof (collapse_block_batch_sound spec _ writes out Hty Hout) as (_ & Hsrt & Hcw & Hone & Hat). rewrite Hsb in Hcw.
  destruct (batch_staged config c d head spec writes b Hcfg Hwf Hhead Hspec Hval Hb Hroom out
    (co_next_write_intent c) dur (dh_generation head) (dh_latest_commit head) Hsrt Hcw Hone Hat)
    as (pm & se & vs & rs & ds & c2 & c3 & Hpend & Hwrite & Hedit & Hds & Hups & Hk & Hint & S).
  destruct (staged_commit config c d head spec Hcfg Hwf Hhead Hspec _ _ _ _ _ (dh_generation head) l S Hups Hl)
    as (group & m' & Hpub & Hgs & Hm' & Hup); [lia|].
  destruct (mark_all_run bs vs (cg_commit_seq group) (set_co_metadata m' c3)) as (s & Hmark & Hps & Hsame & Hnot);
    [apply Hup|apply Hk|].
  eexists _, (set_co_storage_nodes s (set_co_metadata m' c3)). split.
  { unfold commit_block_batch_with_delta.
    erewrite st_bind_step by exact (f_equal (fun x => (x, c)) (device_info_run _ _ _ _ Hhead Hspec)).
    cbn [di_spec di_latest_commit]. rewrite st_bind_lift, Hout. erewrite st_bind_step by (apply next_write_intent_run; lia).
    erewrite st_bind_step by exact (f_equal (fun x => (x, _)) (get_head_run _ _ _ Hhead)).
    erewrite st_bind_step by exact (f_equal (fun x => (x, _)) Hpend).
    rewrite Hsb. erewrite st_bind_step by exact Hwrite. cbv iota beta. erewrite st_bind_step by exact Hedit. cbv iota beta zeta.
    rewrite !bool_decide_eq_false_2 by done. cbn [orb].
    erewrite st_bind_step by exact Hpub. erewrite st_bind_step by exact Hmark. reflexivity. }
  assert (Hin : Forall (write_inside (zlen l)) writes).
  { apply (batch_inside spec); try done. by eapply contents_length. }
  split_and!.
  - exact Hgs.
  - rewrite <-overlay_writes by done. by apply updated_same.
  - split_and!; cbn [co_storage_nodes co_metadata co_next_write_intent set_co_storage_nodes set_co_metadata].
    + split; [apply (psm_room _ _ Hsame), S|]. intros id Hid. apply (Hnot id Hid).
      apply (psm_pending _ _ Hsame), (proj2 Hk) in Hid as [Hid|Hid]; [by apply Hidle in Hid|done].
    + lia.
    + lia.
Qed.
End commit_batch.
