(* ===== verification/DeviceOps.v ===== *)
(** * Discards, and the other operations of a device

    Discarding or zeroing a range of a device blanks it in its contents. *)

From S2P Require Import Prelude Intervals Api Object TreeEdit Batch Provider Authority Config.
From S2P Require Import Catalog SegmentStore StorageNode Streams Plane Timeline History Coordinator.
From S2P Require Import SegmentPool CowTree CowSpec Trees ReadPath ReadSpec BlockOps BlockPlan.
From S2P Require Import BlockCommit Store Device.

#[local] Opaque WriteGrant_hash deterministic_test_proof_for_grant
  deterministic_test_proof_for_receipt deterministic_test_proof_for_reference.

(** ** Discards *)

Section discard.
Context {CR : Crc32cCrate} (config : LocalStoreConfig).
Hypothesis Hcfg : config_ok config.
Local Abbreviation bs := (cfg_block_size config).

Definition chunk_root (ch : DeviceWriteChunk) : ShardId * MetadataNodeId := (dwc_shard_id ch, dwc_old_root ch).

Definition chunk_edit (ch : DeviceWriteChunk) : TreeRangeEdit := mkTreeRangeEdit (dwc_range ch) None.

(** What the edit of a chunk leaves behind. *)
Definition chunk_edited (R : ShardId -> BlockRange) (c c' : LocalCoordinator) (ch : DeviceWriteChunk)
    (root' : MetadataNodeId) : Prop :=
  shard_tree config (segment_size bs (co_storage_nodes c)) c' root' (R (dwc_shard_id ch)) /\
  tree_overlaid bs (co_metadata c) (co_metadata c') (dwc_old_root ch) root' (R (dwc_shard_id ch)) [chunk_edit ch].

(** A chunk of a shard: a part of its range. *)
Definition chunk_ok (R : ShardId -> BlockRange) (c : LocalCoordinator) (ch : DeviceWriteChunk) : Prop :=
  shard_tree config (segment_size bs (co_storage_nodes c)) c (dwc_old_root ch) (R (dwc_shard_id ch)) /\
  0 < bk_blocks (dwc_range ch) /\ bk_start (R (dwc_shard_id ch)) <= bk_start (dwc_range ch) /\
  bk_end (dwc_range ch) <= bk_end (R (dwc_shard_id ch)).

Lemma discard_chunk_ok R acc ch c :
  ids_fresh (co_metadata c) -> receipts_ready (segment_size bs (co_storage_nodes c)) c [] -> chunk_ok R c ch ->
  exists root' ds c', discard_chunk config acc ch c =
      (Ok (acc.1 ++ shard_update (dwc_shard_id ch) (dwc_old_root ch) root', ds), c') /\
    cow_rel c c' /\ chunk_edited R c c' ch root'.
Proof using Hcfg.
  intros Hf Hready (Ht & H0 & H1 & H2). pose proof (config_bs config Hcfg) as Hbs.
  pose proof (tree_ok_range _ _ _ _ _ _ Ht) as ((Hr0 & Hr1 & Hr2) & _ & _).
  destruct (replace_ranges_ok config _ [] Hbs c (dwc_old_root ch) _ [chunk_edit ch] Hf Hready Ht)
    as (res & c' & Hrun & R' & Ht' & Hov & Hsame & Hnew).
  { unfold in_u64, bk_end in *. split_and!; [apply Forall_singleton|by apply Forall_singleton|].
    - unfold edit_ok, wf_block_range, in_u64. cbn. split_and!; try lia. done.
    - apply iv_sorted_apart. split; [by repeat constructor|]. apply Forall_singleton. unfold iv_nonempty, bk_end. cbn. lia. }
  change (replace_tree_ranges_with_receipts config (dwc_old_root ch) [chunk_edit ch] [])
    with (replace_tree_range config (dwc_old_root ch) (chunk_edit ch)) in Hrun.
  unfold discard_chunk. fold (chunk_edit ch). rewrite (st_bind_step _ _ _ _ _ Hrun). unfold shard_update.
  destruct (tr_changed res) eqn:Hch.
  - specialize (Hnew eq_refl). destruct (tr_root res =? dwc_old_root ch) eqn:Heq; bool_prop.
    { rewrite Heq in Hnew. destruct (tree_ok_node config _ _ _ _ _ Ht). congruence. }
    exists (tr_root res). eexists _, c'. rewrite (proj2 (Z.eqb_neq _ _) Heq). split_and!; [reflexivity|done|by split].
  - specialize (Hsame eq_refl). rewrite Hsame in *. exists (dwc_old_root ch), acc.2, c'.
    rewrite Z.eqb_refl, app_nil_r. split_and!; [by destruct acc|done|by split].
Qed.

Lemma discard_chunks_ok R chs c :
  ids_fresh (co_metadata c) -> receipts_ready (segment_size bs (co_storage_nodes c)) c [] -> Forall (chunk_ok R c) chs ->
  exists rs ds c', st_fold (discard_chunk config) ([], []) chs c = (Ok (shard_updates (chunk_root <$> chs) rs, ds), c') /\
    cow_rel c c' /\ Forall2 (chunk_edited R c c') chs rs.
Proof using Hcfg.
  intros Hf Hready Hchs.
  destruct (st_fold_run (fun pre (out : list RootUpdate * list BlockDeltaEntry) c1 =>
      cow_rel c c1 /\ exists rs, out.1 = shard_updates (chunk_root <$> pre) rs /\ Forall2 (chunk_edited R c c1) pre rs)
    (discard_chunk config) chs ([], []) c) as ([ups ds] & c' & Hrun & Rel & rs & Hups & Hed).
  - split; [reflexivity|]. by exists [].
  - intros pre ch rest [ups ds] c1 Heq (Rel & rs & Hups & Hed). cbn [fst snd] in *. subst ups.
    rewrite Forall_forall in Hchs. destruct (Hchs ch) as (Ht & Hch); [rewrite Heq; apply elem_of_app; right; by left|].
    pose proof (cr_registry _ _ Rel) as Hreg. pose proof (cr_nodes _ _ Rel) as G.
    destruct (discard_chunk_ok R (shard_updates (chunk_root <$> pre) rs, ds) ch c1) as (root' & ds' & c2 & Hw & Rel2 & Ht2 & Hov).
    + by eapply nodes_grow_fresh.
    + rewrite Hreg. by eapply receipts_ready_grow.
    + split; [|done]. rewrite Hreg. by apply (grow_reads bs _ _ _ _ _ G).
    + eexists _, c2. split; [exact Hw|]. split; [by etrans|]. exists (rs ++ [root']). rewrite Hreg in Ht2. cbn [fst snd].
      pose proof (Forall2_length _ _ _ Hed) as Hlen. split.
      * unfold shard_updates. rewrite fmap_app, zip_with_app, concat_app by (by rewrite length_fmap). cbn. by rewrite app_nil_r.
      * apply Forall2_app.
        -- eapply Forall2_impl; [exact Hed|]. intros s root0 [Ht0 Hov0]. split.
           ++ by apply (grow_reads bs _ _ _ _ _ (cr_nodes _ _ Rel2)).
           ++ by eapply overlaid_grow; [apply (cr_nodes _ _ Rel2)|exact Ht0|].
        -- constructor; [|constructor]. split; [done|]. by eapply overlaid_from.
  - cbn [fst snd] in Hups. subst ups. by exists rs, ds, c'.
Qed.

Section device.
Context (c : LocalCoordinator) (d : DeviceId) (head : DeviceHead) (spec : DeviceSpec) (o n : Z).
Hypothesis Hwf : cow_wf config c.
Hypothesis Hhead : device_heads (co_metadata c) !! d = Some head.
Hypothesis Hspec : device_specs (co_metadata c) !! d = Some spec.
Hypothesis Hval : ByteRange_validate_for_device (mkByteRange o n) spec = Ok tt.
Hypothesis Ho : 0 <= o.
Hypothesis Hn : 0 < n.
Local Abbreviation roots := (dh_shard_roots head).
Local Abbreviation range := (rng config spec).

Definition discarded (y : Z) : option cell := if in_range o (o + n) y then Some blank else None.

Definition discard_chunks : list DeviceWriteChunk :=
  omap (chunk_at_shard config spec (byte_blocks config o n)) (shards head).

Lemma discard_chunk_in ch : ch ∈ discard_chunks ->
  exists i, dwc_shard_id ch = Z.of_nat i /\ roots !! i = Some (dwc_old_root ch) /\
    overlap (range i) (byte_blocks config o n) = Some (dwc_range ch).
Proof using Type.
  intros ([i root] & Hs%elem_of_shards & Hc)%list_elem_of_omap. unfold chunk_at_shard in Hc. cbn [fst snd] in Hc.
  destruct (overlap _ _) as [ov|] eqn:Hov; [|done]. injection Hc as <-. by exists i.
Qed.

Lemma discard_nodup : NoDup ((fun s => Z.to_nat s.1) <$> (chunk_root <$> discard_chunks)).
Proof using Type.
  rewrite <-list_fmap_compose. unfold discard_chunks. pose proof (shards_nodup head) as Hnd. revert Hnd.
  induction (shards head) as [|[i root] l IH]; intros Hnd; [constructor|]. apply NoDup_cons in Hnd as [Hni Hnd].
  cbn [omap list_omap]. unfold chunk_at_shard at 1. cbn [fst snd]. destruct (overlap _ _) as [ov|]; [|by apply IH].
  cbn. rewrite Nat2Z.id. apply NoDup_cons. split; [|by apply IH]. intros Hi.
  apply list_elem_of_fmap in Hi as (ch & Heq & ([j root'] & Hj & Hc)%list_elem_of_omap). apply Hni.
  unfold chunk_at_shard in Hc. cbn in Hc. destruct (overlap _ _); [|done]. injection Hc as <-. cbn in Heq.
  rewrite Nat2Z.id in Heq. subst j. by apply (list_elem_of_fmap_2 fst _ (i, root')).
Qed.

Lemma discard_range :
  o mod bs = 0 /\ n mod bs = 0 /\ o + n <= ds_logical_blocks spec * bs /\
  bk_start (byte_blocks config o n) * bs = o /\ bk_end (byte_blocks config o n) * bs = o + n.
Proof using Hcfg Hwf Hhead Hspec Hval.
  destruct (batch_device config c d head spec Hwf Hhead Hspec) as [Hsb _]. pose proof (config_bs config Hcfg) as Hbs.
  apply validate_for_device_Ok in Hval as (_ & H1 & H2 & _ & _ & H3). cbn in H1, H2, H3. rewrite Hsb in *.
  pose proof (Z.div_mod o bs ltac:(lia)). pose proof (Z.div_mod n bs ltac:(lia)).
  unfold byte_blocks, bk_end. cbn. split_and!; lia.
Qed.

Lemma discarded_block y : in_range o (o + n) y = true <-> in_block_range (byte_blocks config o n) (y / bs).
Proof using Hcfg Hwf Hhead Hspec Hval.
  destruct discard_range as (_ & _ & _ & H1 & H2). pose proof (config_bs config Hcfg) as Hbs.
  rewrite in_range_true, <-H2, <-H1 at 1. unfold in_block_range. by rewrite byte_in_blocks.
Qed.

Lemma discard_chunks_in : Forall (chunk_ok (fun i => range (Z.to_nat i)) c) discard_chunks.
Proof using Hwf Hhead Hspec.
  destruct (batch_device config c d head spec Hwf Hhead Hspec) as [_ Hdev].
  apply Forall_forall. intros ch Hch. destruct (discard_chunk_in ch Hch) as (i & Hi & Hr & Hov).
  unfold chunk_ok. rewrite Hi, Nat2Z.id. apply overlap_within in Hov as (? & ? & _ & _ & ?).
  split; [by apply (shard_of_root config c head spec Hdev)|done].
Qed.

Lemma discard_byte c' i root root' ch y :
  cow_rel c c' -> roots !! i = Some root -> overlap (range i) (byte_blocks config o n) = Some (dwc_range ch) ->
  tree_overlaid bs (co_metadata c) (co_metadata c') root root' (range i) [chunk_edit ch] ->
  in_block_range (range i) (y / bs) ->
  block_cell bs (co_storage_nodes c') (tree_block (co_metadata c') root' (range i)) y =
  default (block_cell bs (co_storage_nodes c) (tree_block (co_metadata c) root (range i)) y) (discarded y).
Proof using Hcfg Hwf Hhead Hspec Hval.
  intros R Hr Hov Ht Hy. specialize (Ht (y / bs) Hy). apply overlap_Some in Hov as [_ Hov]. specialize (Hov (y / bs)).
  unfold discarded, block_cell. rewrite (cr_registry _ _ R). cbn [List.find chunk_edit te_range te_replacement fmap option_fmap option_map] in Ht.
  destruct (in_range o (o + n) y) eqn:Hin.
  - apply discarded_block in Hin. assert (Hch : in_block_range (dwc_range ch) (y / bs)) by (apply Hov; by split).
    replace (in_range (bk_start _) _ _) with true in Ht by (symmetry; by apply in_range_true). by destruct Ht as [-> _].
  - destruct (in_range (bk_start _) _ _) eqn:Hch.
    + apply in_range_true in Hch. apply Hov in Hch as [_ Hch]. apply discarded_block in Hch. congruence.
    + by destruct Ht as [-> _].
Qed.

Lemma discard_staged b c' rs :
  pool_room (co_storage_nodes c) b -> cow_rel c c' ->
  Forall2 (chunk_edited (fun i => range (Z.to_nat i)) c c') discard_chunks rs ->
  staged config c head spec discarded b c' (chunk_root <$> discard_chunks) rs.
Proof using Hcfg Hwf Hhead Hspec Hval.
  intros Hroom R Hed. pose proof (cr_registry _ _ R) as Hreg.
  assert (Hidx : Forall (fun s => 0 <= s.1 /\ roots !! Z.to_nat s.1 = Some s.2) (chunk_root <$> discard_chunks)).
  { apply Forall_fmap, Forall_forall. intros ch Hch. destruct (discard_chunk_in ch Hch) as (i & Hi & Hr & _).
    cbn. rewrite Hi, Nat2Z.id. split; [lia|done]. }
  constructor; try done.
  - by apply cow_keeps.
  - apply R.
  - constructor; rewrite ?Hreg; [apply Hwf|done|]. eapply cow_cache_ok; [done|apply Hwf].
  - apply discard_nodup.
  - apply Forall2_fmap_l. eapply Forall2_impl; [exact Hed|]. intros ch root' [Ht _]. rewrite Hreg. exact Ht.
  - intros j root root' y Hr Hr' Hy. destruct (overlap (range j) (byte_blocks config o n)) as [ov|] eqn:Hov.
    + set (ch := mkDeviceWriteChunk (Z.of_nat j) root ov).
      assert (Hch : ch ∈ discard_chunks).
      { apply list_elem_of_omap. exists (j, root). split; [by apply elem_of_shards|]. unfold chunk_at_shard. cbn. by rewrite Hov. }
      destruct (new_roots_edited (fun s root' => exists ch, s = chunk_root ch /\ ch ∈ discard_chunks /\
          chunk_edited (fun i => range (Z.to_nat i)) c c' ch root') roots (chunk_root <$> discard_chunks) rs (chunk_root ch))
        as (r & Hr'' & ch' & Heq & Hch' & Ht & Hovl).
      * apply discard_nodup.
      * apply Forall2_fmap_l, Forall2_same_length_lookup_2; [by eapply Forall2_length|]. intros k ch0 r0 Hk Hr0.
        exists ch0. split_and!; [done|by eapply list_elem_of_lookup_2|]. by apply (Forall2_lookup_lr _ _ _ _ _ _ Hed Hk).
      * by apply list_elem_of_fmap_2.
      * cbn. rewrite Nat2Z.id. by eapply lookup_lt_Some.
      * cbn [chunk_root fst ch dwc_shard_id dwc_old_root] in *. rewrite Nat2Z.id in Hr''.
        assert (r = root') as -> by congruence. unfold chunk_root in Heq. injection Heq as Hi Hold.
        rewrite <-Hi, <-Hold, Nat2Z.id in Hovl. eapply discard_byte; try done.
        destruct (discard_chunk_in ch' Hch') as (i & Hi' & _ & Hovi). assert (i = j) as -> by lia. done.
    + rewrite new_roots_other in Hr'.
      * assert (root' = root) as -> by congruence. unfold discarded. destruct (in_range o (o + n) y) eqn:Hin.
        { apply discarded_block in Hin. by destruct (overlap_None _ _ _ Hov (conj Hy Hin)). }
        destruct (batch_device config c d head spec Hwf Hhead Hspec) as [_ Hdev].
        apply keeps_tree_cell; [by apply cow_keeps| |done]. by apply (shard_of_root config c head spec Hdev).
      * intros (s & Heq & (ch & -> & Hch)%list_elem_of_fmap)%list_elem_of_fmap. cbn in Heq.
        destruct (discard_chunk_in ch Hch) as (i & Hi & _ & Hovi). rewrite Hi, Nat2Z.id in Heq. congruence.
Qed.
End device.

Lemma overlay_discarded o n (l : list cell) :
  0 <= o -> 0 <= n -> o + n <= zlen l -> overlay (discarded o n) l = splice l o (blanks n).
Proof using Type.
  intros Ho Hn Hl. apply list_eq. intros i. unfold overlay. rewrite list_lookup_imap. unfold zlen in *.
  assert (Hz : Z.of_nat (length (blanks n)) = n) by (unfold blanks; rewrite length_replicate; lia).
  unfold discarded. destruct (in_range o (o + n) (Z.of_nat i)) eqn:Hin.
  - apply in_range_true in Hin. rewrite splice_lookup_in by lia. destruct (lookup_lt_is_Some_2 l i) as [x ->]; [lia|]. cbn.
    unfold blanks. symmetry. apply lookup_replicate. split; [done|lia].
  - apply in_range_false in Hin. rewrite splice_lookup_out by lia. by destruct (l !! i).
Qed.

Lemma cow_capacity c c' k b : cow_rel c c' -> capacity c k b -> capacity c' k b.
Proof using Type.
  intros R (H1 & H2 & H3). unfold capacity. rewrite (cr_registry _ _ R), (cr_intent _ _ R).
  rewrite (ng_eq _ _ (cr_nodes _ _ R)). done.
Qed.

Lemma discard_run c d l spec o n k b :
  cow_wf config c -> device_contents config c d = Some l -> device_specs (co_metadata c) !! d = Some spec ->
  ByteRange_validate_for_device (mkByteRange o n) spec = Ok tt -> 0 <= o -> 0 <= n -> 1 <= k -> capacity c k b ->
  exists r c', discard_device_with_delta config d o n c = (Ok r, c') /\
    updated config c d (splice l o (blanks n)) c' /\ capacity c' (k - 1) b.
Proof using Hcfg.
  intros Hwf Hl Hspec Hval Ho Hn Hk Hcap.
  destruct (contents_head config c d l Hl) as (head & spec' & Hhead & Hs' & _). assert (spec' = spec) as -> by congruence.
  pose proof (contents_length config Hcfg c d l spec Hwf Hl Hspec) as Hlen.
  destruct (batch_device config c d head spec Hwf Hhead Hspec) as [Hsb Hdev]. pose proof (config_bs config Hcfg) as Hbs.
  unfold discard_device_with_delta.
  erewrite st_bind_step by exact (f_equal (fun x => (x, c)) (device_info_run _ _ _ _ Hhead Hspec)).
  cbn [di_spec di_latest_commit]. rewrite st_bind_lift, Hval. destruct (n =? 0) eqn:Hn0; bool_prop.
  { subst n. eexists _, c. split_and!; [reflexivity| |by eapply capacity_le; [..|exact Hcap]; lia].
    replace (splice l o (blanks 0)) with l; [by apply updated_refl|].
    change (blanks 0) with (@nil cell). unfold splice. by rewrite app_nil_l, Nat.add_0_r, take_drop. }
  destruct (discard_range c d head spec o n Hwf Hhead Hspec Hval) as (Hom & Hnm & Hend & _).
  destruct Hcfg as (_ & _ & Hmany).
  erewrite st_bind_step by exact (f_equal (fun x => (x, c))
    (split_range_run config c d head spec Hbs Hhead Hsb Hdev Hmany o n _ _ Ho ltac:(lia) Hom Hnm Hend)).
  fold (discard_chunks head spec o n).
  destruct (discard_chunks_ok (fun i => rng config spec (Z.to_nat i)) (discard_chunks head spec o n) c)
    as (rs & ds & c' & Hrun & R & Hed).
  { apply Hwf. }
  { apply known_ready; [done|apply Hwf|apply Hwf|constructor]. }
  { by eapply discard_chunks_in. }
  rewrite (st_bind_step _ _ _ _ _ Hrun). cbv iota beta.
  pose proof (discard_staged c d head spec o n Hwf Hhead Hspec Hval b c' rs (proj1 (proj1 Hcap)) R Hed) as S.
  rewrite <-overlay_discarded by lia.
  destruct (shard_updates _ rs) as [|u us] eqn:Hups.
  - rewrite bool_decide_eq_true_2 by done. eexists _, c'. split_and!; [reflexivity|by eapply staged_unchanged|].
    eapply cow_capacity; [exact R|]. eapply capacity_le; [..|exact Hcap]; lia.
  - rewrite bool_decide_eq_false_2 by done. rewrite <-Hups.
    pose proof (cow_capacity c c' k b R Hcap) as (Hroom' & Hint' & Hseq').
    destruct (staged_commit config c d head spec Hcfg Hwf Hhead Hspec _ _ _ _ _ (dh_generation head) l S)
      as (group & m' & Hpub & Hgs & Hm' & Hup); [by rewrite Hups|done|destruct Hcap as (_ & _ & ?); lia|].
    erewrite st_bind_step.
    2:{ unfold ask_metadata, st_ask. rewrite (get_head_run _ _ head); [reflexivity|].
        rewrite (ng_eq _ _ (cr_nodes _ _ R)). exact Hhead. }
    rewrite (st_bind_step _ _ _ _ _ Hpub). eexists _, _. split_and!; [reflexivity|exact Hup|].
    destruct Hcap as (_ & _ & Hseq). split_and!; cbn [co_storage_nodes co_next_write_intent co_metadata set_co_metadata]; [done|lia|lia].
Qed.
End discard.
