(* ===== verification/Devices.v ===== *)
(** * Devices that come and go

    Creating, forking, restoring and deleting devices of a store, as operations
    on arrays of cells: a new device is blank, a fork starts with the
    contents of its source, a restored device has the contents its source had at
    the commit, and no other device changes. *)

From S2P Require Import Prelude Intervals Api Object TreeEdit Batch Provider Authority Config.
From S2P Require Import Catalog SegmentStore StorageNode Streams Plane Timeline History Coordinator.
From S2P Require Import SegmentPool CowTree CowSpec Trees ReadPath ReadSpec BlockOps BlockPlan.
From S2P Require Import BlockCommit Store Device DeviceOps.

#[local] Opaque WriteGrant_hash deterministic_test_proof_for_grant
  deterministic_test_proof_for_receipt deterministic_test_proof_for_reference.

Section devices.
Context {CR : Crc32cCrate} (config : LocalStoreConfig).
Hypothesis Hcfg : config_ok config.
Local Abbreviation bs := (cfg_block_size config).

(** The cells of the device that some roots would be. *)
Definition roots_contents (c : LocalCoordinator) (blocks : Z) (roots : list MetadataNodeId) : list cell :=
  device_cell config c blocks roots <$> seqZ 0 (blocks * bs).

Lemma roots_contents_keeps c c' blocks roots :
  keeps c c' -> device_ok config c blocks roots -> roots_contents c' blocks roots = roots_contents c blocks roots.
Proof using Type.
  intros K Hok. apply list_fmap_ext. intros i y _. by apply (keeps_device config c c').
Qed.

(** A device added to the plane has the contents of its roots. *)
Lemma added_updated c m' h spec :
  cow_wf config c -> added config (co_metadata c) m' h ->
  device_specs m' = <[dh_device_id h := spec]> (device_specs (co_metadata c)) ->
  next_device_id m' = Z.max (next_device_id (co_metadata c)) (dh_device_id h + 1) ->
  DeviceSpec_validate spec = Ok tt -> ds_block_size spec = bs ->
  device_ok config (set_co_metadata m' c) (ds_logical_blocks spec) (dh_shard_roots h) ->
  let c' := set_co_metadata m' c in
  updated config c (dh_device_id h) (roots_contents c' (ds_logical_blocks spec) (dh_shard_roots h)) c' /\
  device_contents config c (dh_device_id h) = None.
Proof using Type.
  intros Hwf Hadd Hspecs Hnext Hv Hb Hok c'. pose proof Hadd as (Hp & Hext & Hfresh & Hheads & Hdel & _). set (d := dh_device_id h) in *.
  assert (Hno : device_heads (co_metadata c) !! d = None).
  { unfold device_roots in Hfresh. by destruct (device_heads (co_metadata c) !! d). }
  assert (Hns : device_specs (co_metadata c) !! d = None).
  { apply eq_None_not_Some. intros Hs%(sw_specs _ _ Hwf). rewrite Hfresh in Hs. by destruct Hs. }
  assert (K : keeps c c') by (constructor; [by apply ex_nodes|done..]).
  assert (Hso : forall d', d' <> d -> device_specs (co_metadata c') !! d' = device_specs (co_metadata c) !! d').
  { intros d' Hd. cbn. by rewrite Hspecs, lookup_insert_ne. }
  split; [|by unfold device_contents; rewrite Hno].
  constructor; [constructor| | | | | | | |]; cbn [c' co_metadata set_co_metadata].
  - exact Hp.
  - apply Hwf.
  - apply Hwf.
  - rewrite Hheads. intros d' h'. rewrite lookup_insert_Some. intros [[<- <-]|[Hd Hh']].
    + exists spec. cbn [c' co_metadata set_co_metadata]. by rewrite Hspecs, lookup_insert_eq.
    + eapply keeps_device_wf; [exact K|by apply Hso|]. by apply (sw_devices _ _ Hwf).
  - intros d'. rewrite Hspecs, lookup_insert_is_Some'. unfold device_roots. rewrite Hheads, Hdel.
    intros [<-|Hs%(sw_specs _ _ Hwf)]; [by rewrite lookup_insert_eq|].
    destruct (decide (d = d')) as [<-|Hne]; [by rewrite lookup_insert_eq|by rewrite lookup_insert_ne].
  - exact K.
  - exact Hext.
  - intros Ha. by eapply added_anchored.
  - rewrite Hspecs. by apply insert_subseteq.
  - unfold device_contents. cbn [c' co_metadata set_co_metadata]. by rewrite Hheads, Hspecs, !lookup_insert_eq.
  - intros d' Hd'. apply keeps_contents; [done|apply Hwf|cbn; by rewrite Hheads, lookup_insert_ne|by apply Hso].
  - intros d'. unfold device_roots. rewrite Hheads, Hdel. destruct (decide (d = d')) as [<-|Hne].
    + rewrite lookup_insert_eq. naive_solver.
    + rewrite lookup_insert_ne by done. naive_solver.
  - exact Hnext.
Qed.

(** ** Creating *)

Definition creatable (spec : DeviceSpec) : Prop :=
  DeviceSpec_validate spec = Ok tt /\ ds_block_size spec = bs /\ shard_count config <= ds_logical_blocks spec /\
  ds_logical_blocks spec * bs < U64_MOD /\ ds_logical_blocks spec * shard_count config < U64_MOD /\
  ds_logical_blocks spec * metadata_fanout config < U64_MOD.

Lemma create_run c spec :
  cow_wf config c -> creatable spec ->
  exists h m', create_device config spec (co_metadata c) = (Ok h, m') /\
    dh_device_id h = next_device_id (co_metadata c) /\ device_contents config c (dh_device_id h) = None /\
    next_commit_seq m' = next_commit_seq (co_metadata c) /\
    updated config c (dh_device_id h) (blanks (ds_logical_blocks spec * bs)) (set_co_metadata m' c).
Proof using Hcfg.
  intros Hwf (Hv & Hb & Hn & Hbytes & Hsh & Hfo). pose proof Hcfg as (Hval & (Hs & Hbt & _ & _ & Hl & _) & _).
  pose proof (config_bs config Hcfg) as Hbs.
  pose proof Hval as (? & ? & _ & _ & ? & ? & _)%config_valid. unfold in_u64, in_u32 in *.
  destruct (create_device_ok config (segment_size bs (co_storage_nodes c)) ltac:(lia) ltac:(lia) spec (co_metadata c))
    as (roots & m' & Hrun & Hheads & Hspecs & Hnext & Hseq & Hsub & _ & Htrees & Hempty); try done; [lia|apply Hwf|].
  destruct (create_device_Ok config spec (co_metadata c) _ _ (sw_plane _ _ Hwf) Hrun) as (_ & _ & _ & Hadd).
  set (c' := set_co_metadata m' c) in *.
  assert (Hok : device_ok config c' (ds_logical_blocks spec) roots) by (by constructor; [lia| |]).
  destruct (added_updated c m' _ spec Hwf Hadd Hspecs) as [Hup Hnone]; [cbn; lia|done..|]. cbn [dh_device_id dh_shard_roots] in *.
  eexists _, m'. split_and!; [exact Hrun|done|done|done|].
  replace (blanks (ds_logical_blocks spec * bs)) with (roots_contents c' (ds_logical_blocks spec) roots); [exact Hup|].
  unfold roots_contents, blanks. apply list_eq. intros i. rewrite list_lookup_fmap.
  destruct (decide (Z.of_nat i < ds_logical_blocks spec * bs)) as [Hi|Hi].
  - rewrite lookup_seqZ_lt by lia. cbn. rewrite lookup_replicate_2 by lia. f_equal. rewrite Z.add_0_l.
    set (head := mkDeviceHead (next_device_id (co_metadata c)) 0 roots 0).
    destruct (shard_of_block config c' head spec Hok (Z.of_nat i / bs)) as (j & root & Hr & Hin).
    { apply byte_in_blocks; [done|]. lia. }
    rewrite (device_cell_shard config spec c' roots j root _ Hok Hr Hin). unfold block_cell.
    pose proof (proj1 (shard_of_root config c' head spec Hok j root Hr)) as Hj.
    eapply (Forall2_lookup_lr _ _ _ j) in Hempty; [|apply lookup_seqZ_lt; lia|exact Hr].
    rewrite Z.add_0_l in Hempty. cbv zeta in Hempty. fold (rng config spec j) in Hempty. by rewrite Hempty.
  - rewrite lookup_seqZ_ge by lia. symmetry. apply lookup_replicate_None. lia.
Qed.

(** ** Forking *)

Definition target_free (m : MetadataInner) (target : option DeviceId) : Prop :=
  match target with Some t => device_roots m t = None /\ t + 1 < U128_MOD | None => True end.

Lemma fork_target_run m target :
  target_free m target ->
  exists t m1, (match target with
   | Some target =>
       st_reject_if (bool_decide (is_Some (device_heads m !! target)) ||
           bool_decide (is_Some (deleted_device_heads m !! target)))
         (Conflict "target device already exists");;
       reserve_device_id_at_least_after target;;
       mret target
   | None => alloc_device_id
   end) m = (Ok t, m1) /\ device_specs m1 = device_specs m /\ next_commit_seq m1 = next_commit_seq m /\
   t = default (next_device_id m) target /\ next_device_id m1 = Z.max (next_device_id m) (t + 1).
Proof using Type.
  destruct target as [t|]; cbn [target_free].
  - intros [Hfree Ht]. unfold device_roots in Hfree.
    destruct (device_heads m !! t) eqn:Hh; [done|]. destruct (deleted_device_heads m !! t) eqn:Hd; [done|].
    rewrite !bool_decide_eq_false_2 by (by intros [? ?]). cbn [orb]. exists t.
    rewrite (st_bind_step _ _ _ tt m) by done. unfold reserve_device_id_at_least_after, reserve_at_least_after.
    destruct (next_device_id m <=? t) eqn:Hle; bool_prop.
    + exists (set_next_device_id (t + 1) m). split_and!; [|done|done|done|cbn; lia]. apply Z.leb_le in Hle.
      rewrite (st_bind_step _ _ _ tt (set_next_device_id (t + 1) m)); [done|]. rewrite st_bind_run. unfold st_gets.
      rewrite Hle, st_bind_lift, checked_add_ok by done. done.
    + exists m. split_and!; [|done|done|done|lia]. apply Z.leb_gt in Hle. rewrite (st_bind_step _ _ _ tt m); [done|]. rewrite st_bind_run. unfold st_gets. by rewrite Hle.
  - intros _. eexists _, _. split_and!; [reflexivity|done|done|done|cbn; lia].
Qed.

Lemma head_valid h : Z.of_nat (length (dh_shard_roots h)) = shard_count config -> DeviceHead_validate h (shard_count config) = Ok tt.
Proof using Hcfg.
  intros Hlen. destruct Hcfg as ((Hs & _)%config_valid & _). unfold DeviceHead_validate. rewrite Hlen.
  by ztest.
Qed.

Lemma fork_device_run m source target hs sp :
  plane_wf config m -> device_heads m !! source = Some hs -> device_specs m !! source = Some sp ->
  next_commit_seq m + 1 < U64_MOD -> target_free m target ->
  exists h m', fork_device config source target m = (Ok h, m') /\
    device_specs m' = <[dh_device_id h := sp]> (device_specs m) /\ next_commit_seq m' = next_commit_seq m + 1 /\
    dh_device_id h = default (next_device_id m) target /\
    next_device_id m' = Z.max (next_device_id m) (dh_device_id h + 1).
Proof using Hcfg.
  intros Hwf Hh Hs Hseq Hfree. destruct (fork_target_run m target Hfree) as (t & m1 & Ht & Hs1 & Hq1 & Hid & Hnx).
  destruct (pw_heads _ _ Hwf _ _ Hh) as (_ & _ & _ & Hlen & _).
  unfold fork_device. rewrite (st_bind_step st_get _ _ m m) by done.
  rewrite st_bind_lift, (get_head_run _ _ _ Hh), st_bind_lift, Hs. cbn [ok_or].
  rewrite (st_bind_step _ _ _ _ _ Ht).
  rewrite (st_bind_step alloc_commit_seq _ m1 (next_commit_seq m) (set_next_commit_seq (next_commit_seq m + 1) m1)).
  2:{ unfold alloc_commit_seq, alloc_checked. rewrite st_bind_run. unfold st_gets. by rewrite st_bind_lift, checked_add_ok, Hq1 by lia. }
  cbv zeta. rewrite st_bind_lift, head_valid by exact Hlen.
  eexists _, _. split_and!; [reflexivity| | |exact Hid|exact Hnx]; cbn.
  - by rewrite Hs1.
  - done.
Qed.

Lemma fork_run c source l target name n b :
  cow_wf config c -> device_contents config c source = Some l -> target_free (co_metadata c) target ->
  1 <= n -> capacity c n b ->
  exists d c', Coordinator_fork_device config source (mkForkRequest target name) c = (Ok d, c') /\
    d = default (next_device_id (co_metadata c)) target /\ device_contents config c d = None /\
    updated config c d l c' /\ capacity c' (n - 1) b.
Proof using Hcfg.
  intros Hwf Hl Hfree Hn (Hroom & Hint & Hseq).
  destruct (contents_head config c source l Hl) as (hs & sp & Hh & Hs & _).
  destruct (fork_device_run (co_metadata c) source target hs sp (sw_plane _ _ Hwf) Hh Hs ltac:(lia) Hfree)
    as (h & m' & Hrun & Hspecs & Hseq' & Hid & Hnext).
  destruct (fork_device_Ok config source target _ h m' (sw_plane _ _ Hwf) Hrun) as (hs' & Hhs' & _ & Hroots & _ & Hadd).
  assert (hs' = hs) as -> by congruence.
  destruct (sw_devices _ _ Hwf source hs Hh) as (sp' & Hsp' & Hv & Hb & Hok). assert (sp' = sp) as -> by congruence.
  assert (K : keeps c (set_co_metadata m' c)) by (constructor; [apply ex_nodes, Hadd|done..]).
  destruct (added_updated c m' h sp Hwf Hadd Hspecs Hnext Hv Hb) as [Hup Hnone].
  { rewrite Hroots. by eapply keeps_device. }
  exists (dh_device_id h), (set_co_metadata m' c). split_and!; [| |done| |].
  - unfold Coordinator_fork_device. rewrite st_bind_run. unfold on_metadata. cbn [fkr_target]. by rewrite Hrun.
  - done.
  - assert (Heq : roots_contents (set_co_metadata m' c) (ds_logical_blocks sp) (dh_shard_roots h) = l); [|by rewrite <-Heq].
    rewrite Hroots, (roots_contents_keeps c) by done. unfold device_contents in Hl. rewrite Hh, Hs in Hl. by injection Hl.
  - split_and!; cbn; [done|lia|lia].
Qed.

(** ** Restoring *)

Lemma restore_run c0 c d head l n b :
  cow_wf config c0 -> device_heads (co_metadata c0) !! d = Some head -> device_contents config c0 d = Some l ->
  anchored (co_metadata c0) -> later c0 c -> cow_wf config c -> 1 <= n -> capacity c n b ->
  exists d' c', Coordinator_restore_device config d (RpCommit (dh_latest_commit head)) c = (Ok d', c') /\
    d' = next_device_id (co_metadata c) /\ device_contents config c d' = None /\
    updated config c d' l c' /\ capacity c' (n - 1) b.
Proof using Hcfg.
  intros Hwf0 Hh Hl Ha [K E _ Hsub] Hwf Hn (Hroom & Hint & Hseq).
  destruct (sw_devices _ _ Hwf0 d head Hh) as (sp & Hsp & Hv & Hb & Hok).
  assert (Hsp' : device_specs (co_metadata c) !! d = Some sp) by (by eapply lookup_weaken).
  pose proof (pw_heads _ _ (sw_plane _ _ Hwf0) _ _ Hh) as (_ & _ & _ & Hlen & Hnodes & Hlt & _).
  destruct (anchored_at_extends _ _ _ _ E (Ha _ _ Hh)) as [Hc Hcp].
  assert (Hat : roots_at (co_metadata c) d (dh_latest_commit head) (dh_shard_roots head)).
  { apply (ex_roots _ _ E); [lia|]. apply (roots_at_latest config _ d head); [apply Hwf0|by left|lia|done]. }
  assert (Hpos : 0 < shard_count config) by (destruct (dok_shards _ _ _ _ Hok); lia).
  destruct (restore_device_succeeds config d (RpCommit (dh_latest_commit head)) (co_metadata c) (dh_latest_commit head)
    (dh_shard_roots head)) as (h & m' & Hrun & Hhd & Hseq' & Hnext & Hspecs); try done.
  { cbn. by rewrite Hc. }
  { apply (replay_device_roots_Ok config); [apply Hwf|]. by split. }
  { eapply Forall_impl; [exact Hnodes|]. intros x [x' Hx]. exists x'. by eapply lookup_weaken, (ex_nodes _ _ E). }
  { lia. }
  destruct (restore_device_Ok config d _ _ h m' (sw_plane _ _ Hwf) Hrun) as (_ & _ & _ & _ & Hadd).
  assert (K' : keeps c0 (set_co_metadata m' c)) by (etrans; [exact K|]; constructor; [apply ex_nodes, Hadd|done..]).
  rewrite Hhd in Hadd.
  destruct (added_updated c m' _ sp Hwf Hadd (Hspecs sp Hsp')) as [Hup Hnone]; [cbn; lia|done|done| |].
  { by eapply keeps_device. }
  cbn [dh_device_id dh_shard_roots] in Hup, Hnone.
  exists (next_device_id (co_metadata c)), (set_co_metadata m' c). split_and!; [|done|done| |].
  - unfold Coordinator_restore_device. rewrite st_bind_run. unfold on_metadata. rewrite Hrun. cbn. by rewrite Hhd.
  - assert (Heq : roots_contents (set_co_metadata m' c) (ds_logical_blocks sp) (dh_shard_roots head) = l); [|by rewrite <-Heq].
    rewrite (roots_contents_keeps c0) by done. unfold device_contents in Hl. rewrite Hh, Hsp in Hl. by injection Hl.
  - split_and!; cbn; [done|lia|lia].
Qed.

(** ** Deleting *)

(** The device [d] is gone; everything else is as before. *)
Record dropped (c : LocalCoordinator) (d : DeviceId) (c' : LocalCoordinator) : Prop := {
  dr_wf : cow_wf config c';
  dr_later : later c c';
  dr_gone : device_contents config c' d = None;
  dr_others : forall d', d' <> d -> device_contents config c' d' = device_contents config c d';
  dr_used : forall d', device_roots (co_metadata c') d' = None <-> device_roots (co_metadata c) d' = None;
  dr_next : next_device_id (co_metadata c') = next_device_id (co_metadata c);
}.

Lemma delete_run c d l n b :
  cow_wf config c -> device_contents config c d = Some l -> 1 <= n -> capacity c n b ->
  exists c', Coordinator_delete_device d c = (Ok (mkDeleteResult d (next_commit_seq (co_metadata c))), c') /\
    dropped c d c' /\ capacity c' (n - 1) b.
Proof using Type.
  intros Hwf Hl Hn (Hroom & Hint & Hseq). destruct (contents_head config c d l Hl) as (h & sp & Hh & Hs & _).
  set (m := co_metadata c) in *. set (c' := set_co_metadata (removed m d h) c).
  destruct (delete_device d m) as [r m'] eqn:Hrun. pose proof Hrun as Hcases.
  apply delete_device_cases in Hcases as [[[e ->] ->]|(h' & Hh' & _ & -> & ->)].
  { exfalso. revert Hrun. unfold delete_device, st_get, st_lift, get_head, alloc_commit_seq, alloc_checked, st_gets, mbind, ST_bind.
    rewrite Hh. cbn [ok_or]. unfold st_lift. by rewrite checked_add_ok by lia. }
  assert (h' = h) as -> by congruence. exists c'.
  assert (K : keeps c c') by (by constructor).
  assert (E : extends m (removed m d h)) by (by apply removed_extends).
  assert (Hho : forall d', d' <> d -> device_heads (co_metadata c') !! d' = device_heads m !! d').
  { intros d' Hd. cbn. by rewrite lookup_delete_ne. }
  split_and!; [|constructor; [constructor| | | | |]|].
  - unfold Coordinator_delete_device, on_metadata. fold m. by rewrite Hrun.
  - apply removed_wf; [apply Hwf|done].
  - apply Hwf.
  - apply Hwf.
  - intros d' hd. cbn. intros [Hd Hhd]%lookup_delete_Some. eapply keeps_device_wf; [exact K|done|]. by apply (sw_devices _ _ Hwf).
  - intros d' Hd'. cbn. rewrite (removed_device_roots m d h Hh). by apply (sw_specs _ _ Hwf).
  - constructor; [done|done| |done]. apply same_heads_anchored; [exact E|]. intros d' hd. cbn. by intros [_ ?]%lookup_delete_Some.
  - unfold device_contents. cbn. by rewrite lookup_delete_eq.
  - intros d' Hd. apply keeps_contents; [done|apply Hwf|by apply Hho|done].
  - intros d'. cbn. by rewrite (removed_device_roots m d h Hh).
  - done.
  - split_and!; cbn; [done|lia|lia].
Qed.
End devices.
