(* ===== verification/Arrays.v ===== *)
(** * The store as a machine of arrays

    The abstract specification of the block side of a store: numbered arrays that
    are created, written, zeroed, read, forked and deleted.  A cell of an array
    is a byte and whether it was written to be verified, so that the arrays tell
    which reads that insist on verified payloads fail.  The coordinator, with its copy-on-write trees, segments and commits, implements
    it: every sequence of operations gives the results the arrays give. *)

From S2P Require Import Prelude Intervals Api Object TreeEdit Batch Provider Authority Config.
From S2P Require Import Catalog SegmentStore StorageNode Streams Plane Timeline History Coordinator.
From S2P Require Import SegmentPool CowTree CowSpec Trees ReadPath ReadSpec BlockOps BlockPlan.
From S2P Require Import BlockCommit Store Device DeviceOps Devices.

#[local] Opaque WriteGrant_hash deterministic_test_proof_for_grant
  deterministic_test_proof_for_receipt deterministic_test_proof_for_reference.

(** ** The abstract machine *)

(** The next id, and the contents of the devices; [None] for a deleted one. *)
Record arrays := mkArrays {
  ar_next : DeviceId;
  ar_devices : gmap DeviceId (option (list cell));
}.

Inductive array_op :=
  | ArCreate (blocks : Z)
  | ArBatch (d : DeviceId) (writes : list BlockBatchWrite) (durability : WriteDurability)
  | ArWrite (d : DeviceId) (offset : Z) (data : list Z) (durability : WriteDurability)
      (payload_integrity : PayloadIntegrity)
  | ArZero (d : DeviceId) (offset len : Z)
  | ArFork (source : DeviceId) (target : option DeviceId)
  | ArDelete (d : DeviceId)
  | ArRead (d : DeviceId) (offset len : Z) (verification : ReadVerification).

Inductive array_result :=
  | ArDone
  | ArDevice (d : DeviceId)
  | ArBytes (bytes : list Z).

Section machine.
Context (config : LocalStoreConfig).
Local Abbreviation bs := (cfg_block_size config).

(** A block-aligned range inside an array. *)
Definition array_range (l : list cell) (offset len : Z) : bool :=
  (offset mod bs =? 0) && (len mod bs =? 0) && (offset + len <=? zlen l).

Definition array_write (l : list cell) (w : BlockBatchWrite) : bool :=
  negb (zlen (bw_bytes w) =? 0) && array_range l (bw_offset w) (zlen (bw_bytes w)).

Definition array_batch (l : list cell) (writes : list BlockBatchWrite) : bool :=
  negb (bool_decide (writes = [])) && forallb (array_write l) writes &&
  (batch_bytes writes <=? DEFAULT_BLOCK_BATCH_MAX_BYTES).

Definition array_set (d : DeviceId) (x : option (list cell)) (A : arrays) : arrays :=
  mkArrays (ar_next A) (<[d := x]> (ar_devices A)).

(** A live array, on which the operation is accepted. *)
Definition with_array {B} (A : arrays) (d : DeviceId) (ok : list cell -> bool) (f : list cell -> B) (fail : B) : B :=
  match ar_devices A !! d with
  | Some (Some l) => if ok l then f l else fail
  | _ => fail
  end.

Definition array_add (d : DeviceId) (l : list cell) (A : arrays) : arrays :=
  mkArrays (Z.max (ar_next A) (d + 1)) (<[d := Some l]> (ar_devices A)).

Definition array_exec (op : array_op) (A : arrays) : option array_result * arrays :=
  let fail := (None, A) in
  match op with
  | ArCreate blocks =>
      if shard_count config <=? blocks
      then (Some (ArDevice (ar_next A)), array_add (ar_next A) (blanks (blocks * bs)) A) else fail
  | ArBatch d writes _ =>
      with_array A d (fun l => array_batch l writes)
        (fun l => (Some ArDone, array_set d (Some (fold_left apply_write writes l)) A)) fail
  | ArWrite d offset data _ payload_integrity =>
      with_array A d (fun l => array_range l offset (zlen data) && (zlen data <=? DEFAULT_BLOCK_BATCH_MAX_BYTES))
        (fun l => (Some ArDone, array_set d (Some (splice l offset (cells payload_integrity data))) A)) fail
  | ArZero d offset len =>
      with_array A d (fun l => array_range l offset len)
        (fun l => (Some ArDone, array_set d (Some (splice l offset (blanks len))) A)) fail
  | ArFork source target =>
      with_array A source
        (fun _ => match target with Some t => bool_decide (ar_devices A !! t = None) | None => true end)
        (fun l => let d := default (ar_next A) target in (Some (ArDevice d), array_add d l A)) fail
  | ArDelete d => with_array A d (fun _ => true) (fun _ => (Some ArDone, array_set d None A)) fail
  | ArRead d offset len verification =>
      with_array A d (fun l => array_range l offset len && readable verification (slice l offset len))
        (fun l => (Some (ArBytes (slice l offset len).*1), A)) fail
  end.

(** ** The coordinator *)

Section exec.
Context {CR : Crc32cCrate}.

Definition outcome {B} (f : B -> array_result) (r : Result B * LocalCoordinator)
    : option array_result * LocalCoordinator :=
  (match r.1 with Ok b => Some (f b) | Err _ => None end, r.2).

Definition device_exec (op : array_op) (c : LocalCoordinator) : option array_result * LocalCoordinator :=
  match op with
  | ArCreate blocks =>
      outcome (fun h => ArDevice (dh_device_id h)) (on_metadata (create_device config (mkDeviceSpec blocks bs)) c)
  | ArBatch d writes durability => outcome (fun _ => ArDone) (commit_block_batch config d writes durability c)
  | ArWrite d offset data durability payload_integrity =>
      outcome (fun _ => ArDone) (write_device_with_integrity config d offset data durability payload_integrity c)
  | ArZero d offset len => outcome (fun _ => ArDone) (write_zeroes config d offset len c)
  | ArFork source target => outcome ArDevice (Coordinator_fork_device config source (mkForkRequest target None) c)
  | ArDelete d => outcome (fun _ => ArDone) (Coordinator_delete_device d c)
  | ArRead d offset len verification =>
      outcome ArBytes (read_device c d (mkByteRange offset len) (zeros len) verification, c)
  end.

(** The bounds of the arguments.  Numbers are not negative; a created device
    has fewer than 2^64 bytes, and its number of blocks times the number of shards
    and times the fanout of the metadata trees stays below 2^64; an explicit fork
    target is not the last 128-bit number. *)
Definition op_bounded (op : array_op) : Prop :=
  match op with
  | ArCreate blocks => 0 <= blocks /\ blocks * bs < U64_MOD /\ blocks * shard_count config < U64_MOD /\
      blocks * metadata_fanout config < U64_MOD
  | ArBatch _ writes _ => Forall (fun w => 0 <= bw_offset w) writes
  | ArWrite _ offset _ _ _ => 0 <= offset
  | ArZero _ offset len => 0 <= offset /\ 0 <= len
  | ArFork _ (Some t) => t + 1 < U128_MOD
  | ArRead _ offset len _ => 0 <= offset /\ 0 <= len
  | _ => True
  end.

Definition op_bytes (op : array_op) : Z :=
  match op with
  | ArBatch _ writes _ => batch_bytes writes
  | ArWrite _ _ data _ _ => zlen data
  | _ => 0
  end.

(** ** The refinement *)

Record represents (c : LocalCoordinator) (A : arrays) : Prop := {
  rp_next : ar_next A = next_device_id (co_metadata c);
  rp_live : forall d, device_contents config c d = mjoin (ar_devices A !! d);
  rp_used : forall d, ar_devices A !! d = None <-> device_roots (co_metadata c) d = None;
}.

Hypothesis Hcfg : config_ok config.

(** One step of the coordinator against one step of the arrays. *)
Definition step_refines (op : array_op) (c : LocalCoordinator) (A : arrays) (n b : Z) : Prop :=
  (device_exec op c).1 = (array_exec op A).1 /\
  let c' := (device_exec op c).2 in
  cow_wf config c' /\ represents c' (array_exec op A).2 /\ capacity c' (n - 1) (b - op_bytes op) /\ later c c'.

Lemma represents_updated c A d l c' :
  represents c A -> updated config c d l c' -> represents c' (array_add d l A).
Proof using Type.
  intros [R1 R2 R3] U. constructor; cbn [array_add ar_next ar_devices].
  - by rewrite (up_next _ _ _ _ _ U), R1.
  - intros d'. destruct (decide (d' = d)) as [->|Hne].
    + by rewrite lookup_insert_eq, (up_contents _ _ _ _ _ U).
    + by rewrite lookup_insert_ne, (up_others _ _ _ _ _ U).
  - intros d'. rewrite (up_used _ _ _ _ _ U), <-R3, lookup_insert_None. naive_solver.
Qed.

Lemma represents_set c A d l l' :
  cow_wf config c -> represents c A -> device_contents config c d = Some l ->
  array_add d l' A = array_set d (Some l') A.
Proof using Type.
  intros Hwf [R1 _ _] Hl. destruct (contents_head config c d l Hl) as (h & _ & Hh & _).
  unfold array_add, array_set. rewrite R1. by destruct (live_used config c d h Hwf Hh) as [_ <-].
Qed.

Lemma represents_dropped c A d c' :
  represents c A -> is_Some (device_contents config c d) -> dropped config c d c' -> represents c' (array_set d None A).
Proof using Type.
  intros [R1 R2 R3] [l Hl] D. constructor; cbn [array_set ar_next ar_devices].
  - by rewrite (dr_next _ _ _ _ D).
  - intros d'. destruct (decide (d' = d)) as [->|Hne].
    + by rewrite lookup_insert_eq, (dr_gone _ _ _ _ D).
    + by rewrite lookup_insert_ne, (dr_others _ _ _ _ D).
  - intros d'. rewrite (dr_used _ _ _ _ D), <-R3, lookup_insert_None. split; [naive_solver|]. intros HA. split; [done|].
    intros <-. rewrite R2, HA in Hl. done.
Qed.

(** The two ways an operation ends. *)
Lemma refines_failure op c A n b :
  cow_wf config c -> represents c A -> capacity c n b -> 0 <= op_bytes op ->
  device_exec op c = (None, c) -> array_exec op A = (None, A) -> step_refines op c A n b.
Proof using Type.
  intros Hwf R Hcap Hb Hd Ha. unfold step_refines. rewrite Hd, Ha. cbn. split_and!; try done.
  eapply capacity_le; [..|exact Hcap]; lia.
Qed.

Lemma refines_update op c A n b d l c' res :
  represents c A -> updated config c d l c' -> capacity c' (n - 1) (b - op_bytes op) ->
  device_exec op c = (Some res, c') -> array_exec op A = (Some res, array_add d l A) -> step_refines op c A n b.
Proof using Type.
  intros R U Hcap Hd Ha. unfold step_refines. rewrite Hd, Ha. cbn. split_and!; try done.
  - apply U.
  - by apply (represents_updated c).
  - by eapply updated_later.
Qed.

(** ** Which operations are accepted *)

Lemma no_contents c d : cow_wf config c -> device_contents config c d = None -> device_heads (co_metadata c) !! d = None.
Proof using Type.
  intros Hwf Hc. destruct (device_heads (co_metadata c) !! d) as [h|] eqn:Hh; [|done].
  destruct (sw_devices _ _ Hwf d h Hh) as (spec & Hs & _). unfold device_contents in Hc. by rewrite Hh, Hs in Hc.
Qed.

Lemma no_device c d : device_heads (co_metadata c) !! d = None -> exists e, device_info (co_metadata c) d = Err e.
Proof using Type. intros Hh. unfold device_info, get_head. rewrite Hh. by eexists. Qed.

Section live.
Context (c : LocalCoordinator) (d : DeviceId) (l : list cell) (spec : DeviceSpec).
Hypothesis Hwf : cow_wf config c.
Hypothesis Hl : device_contents config c d = Some l.
Hypothesis Hspec : device_specs (co_metadata c) !! d = Some spec.

Lemma live_spec : DeviceSpec_validate spec = Ok tt /\ ds_block_size spec = bs /\
  ds_logical_blocks spec * bs < U64_MOD /\ zlen l = ds_logical_blocks spec * bs.
Proof using Hcfg Hwf Hl Hspec.
  destruct (contents_head config c d l Hl) as (h & spec' & Hh & Hs & _). assert (spec' = spec) as -> by congruence.
  destruct (sw_devices _ _ Hwf d h Hh) as (spec' & Hs' & Hv & Hb & Hok). assert (spec' = spec) as -> by congruence.
  split_and!; [done|done|apply Hok|]. by eapply contents_length.
Qed.

Lemma range_accepted o n :
  ByteRange_validate_for_device (mkByteRange o n) spec = Ok tt <-> array_range l o n = true.
Proof using Hcfg Hwf Hl Hspec.
  destruct live_spec as (Hv & Hb & Hu & Hlen). rewrite validate_for_device_Ok, Hb. cbn [br_offset br_len].
  unfold array_range. rewrite !andb_true_iff, !Z.eqb_eq, Z.leb_le, Hlen. split; [tauto|]. intros [[? ?] ?]. split_and!; try done; lia.
Qed.

Lemma write_accepted w : 0 <= bw_offset w ->
  BlockBatchWrite_validate_for_device w spec = Ok tt <-> array_write l w = true.
Proof using Hcfg Hwf Hl Hspec.
  intros H0. destruct live_spec as (_ & _ & Hu & Hlen).
  unfold BlockBatchWrite_validate_for_device, BlockBatchWrite_byte_range, array_write.
  rewrite andb_true_iff, negb_true_iff, Z.eqb_neq, <-range_accepted. fold (zlen (bw_bytes w)). split.
  - intros H. ok_inv. bool_prop. fold (zlen (bw_bytes w)) in *. done.
  - intros [Hne Hr]. pose proof Hr as Hr'. rewrite range_accepted in Hr'. unfold array_range in Hr'. bool_prop.
    rewrite (proj2 (len_u64_Ok (bw_bytes w) _ (zlen (bw_bytes w)))).
    + cbn [mbind Result_bind br_len]. rewrite (proj2 (Z.eqb_neq _ _) Hne). exact Hr.
    + split; [done|]. unfold in_u64, zlen in *. lia.
Qed.

Lemma batch_accepted writes : Forall (fun w => 0 <= bw_offset w) writes ->
  batch_ok spec writes <-> array_batch l writes = true.
Proof using Hcfg Hwf Hl Hspec.
  intros Hty. unfold batch_ok, array_batch. rewrite !andb_true_iff, negb_true_iff, bool_decide_eq_false, Z.leb_le.
  rewrite forallb_forall. setoid_rewrite <-list_elem_of_In. rewrite Forall_forall in Hty. rewrite !Forall_forall.
  assert (Hw : (forall w, w ∈ writes -> BlockBatchWrite_validate_for_device w spec = Ok tt) <->
    (forall w, w ∈ writes -> array_write l w = true)); [|tauto].
  split; intros H w Hin; apply write_accepted; auto.
Qed.

(** ** Each operation *)

Lemma info_run : exists info, device_info (co_metadata c) d = Ok info /\ di_spec info = spec.
Proof using Hl Hspec.
  destruct (contents_head config c d l Hl) as (h & spec' & Hh & Hs & _). assert (spec' = spec) as -> by congruence.
  by rewrite (device_info_run _ _ _ _ Hh Hs); eexists.
Qed.

Lemma batch_runs writes dur n b :
  Forall (fun w => 0 <= bw_offset w) writes -> 1 <= n -> capacity c n b -> batch_bytes writes <= b ->
  if array_batch l writes
  then exists r c', commit_block_batch config d writes dur c = (Ok r, c') /\
    updated config c d (fold_left apply_write writes l) c' /\ capacity c' (n - 1) (b - batch_bytes writes)
  else exists e, commit_block_batch config d writes dur c = (Err e, c).
Proof using Hcfg Hwf Hl Hspec.
  intros Hty Hn Hcap Hb. pose proof (batch_accepted writes Hty) as Hacc. unfold commit_block_batch.
  destruct (array_batch l writes).
  - destruct (batch_commit config Hcfg c d l spec writes dur n b Hwf Hl Hspec (proj2 Hacc eq_refl) Hb Hn Hcap)
      as (r & c' & Hrun & _ & U & Hcap'). rewrite (st_bind_step _ _ _ _ _ Hrun). by exists (bbd_commit r), c'.
  - destruct info_run as (info & Hinfo & Hs).
    destruct (collapse_block_batch_writes writes spec DEFAULT_BLOCK_BATCH_MAX_BYTES) as [out|e] eqn:Hout.
    + apply collapse_block_batch_sound in Hout as [(? & ? & ?) _]; [|done].
      assert (false = true) by (by apply Hacc). done.
    + exists e. rewrite st_bind_run. unfold commit_block_batch_with_delta, ask_metadata.
      rewrite (st_bind_step _ _ c info c) by (unfold st_ask; by rewrite Hinfo). by rewrite st_bind_lift, Hs, Hout.
Qed.

Lemma write_runs o data dur pi n b :
  0 <= o -> 1 <= n -> capacity c n b -> zlen data <= b ->
  if array_range l o (zlen data) && (zlen data <=? DEFAULT_BLOCK_BATCH_MAX_BYTES)
  then exists r c', write_device_with_integrity config d o data dur pi c = (Ok r, c') /\
    updated config c d (splice l o (cells pi data)) c' /\ capacity c' (n - 1) (b - zlen data)
  else exists e, write_device_with_integrity config d o data dur pi c = (Err e, c).
Proof using Hcfg Hwf Hl Hspec.
  intros Ho Hn Hcap Hb. destruct info_run as (info & Hinfo & Hs). destruct live_spec as (_ & _ & Hu & Hlen).
  pose proof (range_accepted o (zlen data)) as Hacc. unfold write_device_with_integrity, ask_metadata.
  rewrite (st_bind_step _ _ c info c) by (unfold st_ask; by rewrite Hinfo). rewrite st_bind_lift.
  set (e0 := InvalidArgument _). destruct (len_u64 data e0) as [len|e] eqn:Hlu.
  2:{ assert (Hbig : array_range l o (zlen data) = false); [|rewrite Hbig; by exists e].
      apply not_true_is_false. unfold array_range. intros Hr. bool_prop. unfold len_u64, zlen in *.
      destruct (_ <? U64_MOD) eqn:Hlt; [done|]. bool_prop. lia. }
  apply len_u64_Ok in Hlu as [-> _]. fold (zlen data). rewrite Hs, st_bind_lift.
  destruct (ByteRange_validate_for_device (mkByteRange o (zlen data)) spec) as [[]|e].
  2:{ assert (Hbad : array_range l o (zlen data) = false) by (apply not_true_is_false; by intros ?%Hacc).
      rewrite Hbad. by exists e. }
  rewrite (proj1 Hacc eq_refl). cbn [andb]. destruct (zlen data =? 0) eqn:Hz; bool_prop.
  - rewrite (proj2 (Z.leb_le _ _)) by (rewrite Hz; done). eexists _, c. split_and!; [reflexivity| |].
    + assert (data = []) as -> by (destruct data; [done|unfold zlen in Hz; cbn in Hz; lia]).
      unfold splice. cbn [cells fmap list_fmap app length]. rewrite Nat.add_0_r, take_drop. by apply updated_refl.
    + eapply capacity_le; [..|exact Hcap]; unfold zlen in *; lia.
  - pose proof (batch_runs [mkBlockBatchWrite o data pi] dur n b) as Hrun. unfold array_batch, array_write in Hrun.
    cbn [forallb bw_bytes bw_offset batch_bytes foldr fold_left] in Hrun. rewrite Z.add_0_r in Hrun.
    rewrite (proj1 Hacc eq_refl), (proj2 (Z.eqb_neq _ _) Hz) in Hrun. cbn [andb negb bool_decide decide_rel] in Hrun.
    rewrite bool_decide_eq_false_2 in Hrun by done. cbn [andb negb] in Hrun.
    specialize (Hrun ltac:(by apply Forall_singleton) Hn Hcap Hb).
    destruct (zlen data <=? DEFAULT_BLOCK_BATCH_MAX_BYTES).
    + destruct Hrun as (r & c' & Hr & U & Hc'). rewrite (st_bind_step _ _ _ _ _ Hr). by eexists _, c'.
    + destruct Hrun as (e & He). rewrite st_bind_run, He. by exists e.
Qed.

Lemma zero_runs o len n b :
  0 <= o -> 0 <= len -> 1 <= n -> capacity c n b ->
  if array_range l o len
  then exists r c', write_zeroes config d o len c = (Ok r, c') /\
    updated config c d (splice l o (blanks len)) c' /\ capacity c' (n - 1) b
  else exists e, write_zeroes config d o len c = (Err e, c).
Proof using Hcfg Hwf Hl Hspec.
  intros Ho Hlen Hn Hcap. pose proof (range_accepted o len) as Hacc. unfold write_zeroes, write_zeroes_with_delta.
  destruct (array_range l o len).
  - destruct (discard_run config Hcfg c d l spec o len n b Hwf Hl Hspec (proj2 Hacc eq_refl) Ho Hlen Hn Hcap)
      as (r & c' & Hrun & U & Hcap'). rewrite (st_bind_step _ _ _ _ _ Hrun). by exists (bmd_commit r), c'.
  - destruct info_run as (info & Hinfo & Hs).
    destruct (ByteRange_validate_for_device (mkByteRange o len) spec) as [[]|e] eqn:Hv; [discriminate (proj1 Hacc eq_refl)|].
    exists e. rewrite st_bind_run. unfold discard_device_with_delta, ask_metadata.
    rewrite (st_bind_step _ _ c info c) by (unfold st_ask; by rewrite Hinfo). by rewrite st_bind_lift, Hs, Hv.
Qed.

Lemma read_runs o len v :
  0 <= o -> 0 <= len ->
  if array_range l o len && readable v (slice l o len)
  then read_device c d (mkByteRange o len) (zeros len) v = Ok (slice l o len).*1
  else exists e, read_device c d (mkByteRange o len) (zeros len) v = Err e.
Proof using Hcfg Hwf Hl Hspec.
  intros Ho Hlen. pose proof (range_accepted o len) as Hacc. destruct (array_range l o len); cbn [andb].
  - apply (read_contents config c d l spec (mkByteRange o len) (zeros len) v); try done; [by apply Hacc|].
    unfold zeros. rewrite length_replicate. cbn. lia.
  - destruct info_run as (info & Hinfo & Hs).
    destruct (ByteRange_validate_for_device (mkByteRange o len) spec) as [[]|e] eqn:Hval; [discriminate (proj1 Hacc eq_refl)|].
    exists e. unfold read_device, resolve_block_read_plan. rewrite Hinfo. cbn [mbind Result_bind]. by rewrite Hs, Hval.
Qed.
End live.

Lemma array_cases c A d :
  cow_wf config c -> represents c A ->
  (exists l spec, ar_devices A !! d = Some (Some l) /\ device_contents config c d = Some l /\
    device_specs (co_metadata c) !! d = Some spec) \/
  (device_heads (co_metadata c) !! d = None /\
   forall B ok (f : list cell -> B) fail, with_array A d ok f fail = fail).
Proof using Type.
  intros Hwf R. pose proof (rp_live _ _ R d) as Hl. unfold with_array.
  destruct (ar_devices A !! d) as [[l|]|] eqn:HA; cbn in Hl; [left|right..]; [|by split; [apply no_contents|]..].
  destruct (contents_head config c d l Hl) as (_ & spec & _ & Hs & _). by exists l, spec.
Qed.

Lemma with_array_live {B} A d l ok (f : list cell -> B) fail :
  ar_devices A !! d = Some (Some l) -> with_array A d ok f fail = if ok l then f l else fail.
Proof using Type. intros H. unfold with_array. by rewrite H. Qed.

Lemma missing_device {B} (k : DeviceInfo -> ST LocalCoordinator B) c d :
  device_heads (co_metadata c) !! d = None ->
  (ask_metadata (fun m => device_info m d) ≫= k) c = (Err (not_found "device" d), c).
Proof using Type.
  intros Hh. rewrite st_bind_run. unfold ask_metadata, st_ask, device_info, get_head. by rewrite Hh.
Qed.

(** An operation that changes one live device. *)
Lemma refines_live op c A n b d ok f :
  cow_wf config c -> represents c A -> capacity c n b -> 0 <= op_bytes op ->
  array_exec op A = with_array A d ok (fun l => (Some ArDone, array_set d (Some (f l)) A)) (None, A) ->
  (forall l spec, device_contents config c d = Some l -> device_specs (co_metadata c) !! d = Some spec ->
    if ok l then exists c', device_exec op c = (Some ArDone, c') /\ updated config c d (f l) c' /\
      capacity c' (n - 1) (b - op_bytes op)
    else device_exec op c = (None, c)) ->
  (device_heads (co_metadata c) !! d = None -> device_exec op c = (None, c)) ->
  step_refines op c A n b.
Proof using Type.
  intros Hwf R Hcap Hb Hexec Hlive Hmissing.
  destruct (array_cases c A d Hwf R) as [(l & spec & HA & Hl & Hs)|(Hno & Hfail)].
  - specialize (Hlive l spec Hl Hs). rewrite (with_array_live _ _ _ _ _ _ HA) in Hexec. destruct (ok l).
    + destruct Hlive as (c' & Hr & U & Hcap'). rewrite <-(represents_set c A d l) in Hexec by done. by eapply refines_update.
    + by apply refines_failure.
  - rewrite Hfail in Hexec. apply refines_failure; auto.
Qed.

Ltac run_outcome H := cbn [device_exec]; unfold outcome; rewrite H; reflexivity.

Lemma refines_batch d writes dur c A n b :
  cow_wf config c -> represents c A -> op_bounded (ArBatch d writes dur) -> 1 <= n -> capacity c n b ->
  batch_bytes writes <= b -> step_refines (ArBatch d writes dur) c A n b.
Proof using Hcfg.
  intros Hwf R Hty Hn Hcap Hb. eapply refines_live; [done..|apply batch_bytes_nonneg|reflexivity| |].
  - intros l spec Hl Hs. pose proof (batch_runs c d l spec Hwf Hl Hs writes dur n b Hty Hn Hcap Hb) as Hrun.
    destruct (array_batch l writes).
    + destruct Hrun as (r & c' & Hr & U & Hcap'). exists c'. split; [run_outcome Hr|done].
    + destruct Hrun as (e & He). run_outcome He.
  - intros Hno. cbn [device_exec]. unfold outcome, commit_block_batch, commit_block_batch_with_delta.
    rewrite st_bind_run. by rewrite missing_device.
Qed.

Lemma refines_write d o data dur pi c A n b :
  cow_wf config c -> represents c A -> op_bounded (ArWrite d o data dur pi) -> 1 <= n -> capacity c n b ->
  zlen data <= b -> step_refines (ArWrite d o data dur pi) c A n b.
Proof using Hcfg.
  intros Hwf R Ho Hn Hcap Hb. eapply refines_live; [done..|cbn; unfold zlen; lia|reflexivity| |].
  - intros l spec Hl Hs. pose proof (write_runs c d l spec Hwf Hl Hs o data dur pi n b Ho Hn Hcap Hb) as Hrun. cbv beta.
    destruct (array_range l o (zlen data) && _).
    + destruct Hrun as (r & c' & Hr & U & Hcap'). exists c'. split; [run_outcome Hr|done].
    + destruct Hrun as (e & He). run_outcome He.
  - intros Hno. cbn [device_exec]. unfold outcome, write_device_with_integrity. by rewrite missing_device.
Qed.

Lemma refines_zero d o len c A n b :
  cow_wf config c -> represents c A -> op_bounded (ArZero d o len) -> 1 <= n -> capacity c n b ->
  step_refines (ArZero d o len) c A n b.
Proof using Hcfg.
  intros Hwf R [Ho Hlen] Hn Hcap. eapply refines_live; [done..|reflexivity| |].
  - intros l spec Hl Hs. pose proof (zero_runs c d l spec Hwf Hl Hs o len n b Ho Hlen Hn Hcap) as Hrun. cbv beta.
    destruct (array_range l o len).
    + destruct Hrun as (r & c' & Hr & U & Hcap'). exists c'. cbn [op_bytes]. rewrite Z.sub_0_r. split; [run_outcome Hr|done].
    + destruct Hrun as (e & He). run_outcome He.
  - intros Hno. cbn [device_exec]. unfold outcome, write_zeroes, write_zeroes_with_delta, discard_device_with_delta.
    rewrite st_bind_run. by rewrite missing_device.
Qed.

Lemma refines_create blocks c A n b :
  cow_wf config c -> represents c A -> op_bounded (ArCreate blocks) -> 1 <= n -> capacity c n b ->
  step_refines (ArCreate blocks) c A n b.
Proof using Hcfg.
  intros Hwf R (H0 & H1 & H2 & H3) Hn Hcap. pose proof (config_bs config Hcfg) as Hbs.
  pose proof Hcfg as (Hval & (Hs0 & _) & _). pose proof Hval as (Hs & _ & Hp & _)%config_valid. unfold in_u64 in Hs0.
  destruct (shard_count config <=? blocks) eqn:Hle; bool_prop.
  - destruct (create_run config Hcfg c (mkDeviceSpec blocks bs) Hwf) as (h & m' & Hrun & Hid & _ & Hseq & U).
    { split_and!; try done. apply DeviceSpec_validate_Ok. cbn. split_and!; [lia|lia|done]. }
    eapply refines_update; [done|exact U| | |].
    + destruct Hcap as (? & ? & ?). split_and!; cbn [co_storage_nodes co_metadata co_next_write_intent set_co_metadata op_bytes].
      * by rewrite Z.sub_0_r.
      * lia.
      * lia.
    + cbn [device_exec]. unfold on_metadata, outcome. by rewrite Hrun.
    + cbn [array_exec]. rewrite (proj2 (Z.leb_le _ _) Hle), Hid, (rp_next _ _ R). done.
  - apply refines_failure; [done|done|done|done| |].
    + cbn [device_exec]. unfold on_metadata, outcome, create_device. rewrite st_bind_lift, Hval, st_bind_lift.
      destruct (DeviceSpec_validate _); [|by destruct c]. rewrite st_bind_run. unfold st_reject_if, st_lift. cbn [ds_logical_blocks].
      rewrite (proj2 (Z.ltb_lt _ _)) by lia. cbn. by destruct c.
    + cbn [array_exec]. by rewrite (proj2 (Z.leb_gt _ _)) by lia.
Qed.

Lemma fork_missing source target c :
  device_heads (co_metadata c) !! source = None -> device_exec (ArFork source target) c = (None, c).
Proof using Type.
  intros Hno. cbn [device_exec]. unfold outcome, Coordinator_fork_device. rewrite st_bind_run. unfold on_metadata, fork_device.
  rewrite (st_bind_step st_get _ _ (co_metadata c) (co_metadata c)) by done. rewrite st_bind_lift. unfold get_head.
  rewrite Hno. cbn. by destruct c.
Qed.

Lemma fork_taken source t hs sp c :
  device_heads (co_metadata c) !! source = Some hs -> device_specs (co_metadata c) !! source = Some sp ->
  device_roots (co_metadata c) t <> None -> device_exec (ArFork source (Some t)) c = (None, c).
Proof using Type.
  intros Hh Hs Ht. cbn [device_exec]. unfold outcome, Coordinator_fork_device. rewrite st_bind_run. unfold on_metadata, fork_device.
  rewrite (st_bind_step st_get _ _ (co_metadata c) (co_metadata c)) by done.
  rewrite st_bind_lift, (get_head_run _ _ _ Hh), st_bind_lift, Hs. cbn [ok_or fkr_target].
  assert (Htaken : bool_decide (is_Some (device_heads (co_metadata c) !! t)) ||
    bool_decide (is_Some (deleted_device_heads (co_metadata c) !! t)) = true).
  { apply orb_true_iff. rewrite !bool_decide_eq_true. unfold device_roots in Ht.
    destruct (device_heads (co_metadata c) !! t); [by left|]. destruct (deleted_device_heads (co_metadata c) !! t); [by right|done]. }
  rewrite Htaken. cbn. by destruct c.
Qed.

Lemma refines_fork source target c A n b :
  cow_wf config c -> represents c A -> op_bounded (ArFork source target) -> 1 <= n -> capacity c n b ->
  step_refines (ArFork source target) c A n b.
Proof using Hcfg.
  intros Hwf R Hty Hn Hcap.
  destruct (array_cases c A source Hwf R) as [(l & spec & HA & Hl & Hs)|(Hno & Hfail)].
  2:{ apply refines_failure; [done..|by apply fork_missing|apply Hfail]. }
  set (free := match target with Some t => bool_decide (ar_devices A !! t = None) | None => true end).
  assert (Hexec : array_exec (ArFork source target) A =
    if free then (Some (ArDevice (default (ar_next A) target)), array_add (default (ar_next A) target) l A) else (None, A)).
  { cbn [array_exec]. by rewrite (with_array_live _ _ _ _ _ _ HA). }
  destruct free eqn:Hfree.
  - destruct (fork_run config Hcfg c source l target None n b Hwf Hl) as (d & c' & Hrun & -> & _ & U & Hcap'); [|done|done|].
    { destruct target as [t|]; [|done]. split; [|exact Hty]. apply bool_decide_eq_true in Hfree. by apply (rp_used _ _ R). }
    rewrite <-(rp_next _ _ R) in *. eapply refines_update; [done|exact U|by rewrite Z.sub_0_r| |exact Hexec]. run_outcome Hrun.
  - destruct target as [t|]; [|done]. apply bool_decide_eq_false in Hfree. rewrite (rp_used _ _ R) in Hfree.
    destruct (contents_head config c source l Hl) as (hs & sp & Hh & Hsp & _).
    apply refines_failure; [done..| |done]. by eapply fork_taken.
Qed.

Lemma refines_delete d c A n b :
  cow_wf config c -> represents c A -> 1 <= n -> capacity c n b -> step_refines (ArDelete d) c A n b.
Proof using Type.
  intros Hwf R Hn Hcap. destruct (array_cases c A d Hwf R) as [(l & spec & HA & Hl & Hs)|(Hno & Hfail)].
  - destruct (delete_run config c d l n b Hwf Hl Hn Hcap) as (c' & Hrun & D & Hcap'). unfold step_refines.
    assert (Hd : device_exec (ArDelete d) c = (Some ArDone, c')) by run_outcome Hrun.
    assert (Ha : array_exec (ArDelete d) A = (Some ArDone, array_set d None A)) by (cbn [array_exec]; by rewrite (with_array_live _ _ _ _ _ _ HA)).
    rewrite Hd, Ha. cbn [fst snd op_bytes]. rewrite Z.sub_0_r. split_and!; [done|apply D| |done|apply D].
    eapply represents_dropped; [done|by rewrite Hl|done].
  - apply refines_failure; [done..| |apply Hfail]. cbn [device_exec].
    unfold outcome, Coordinator_delete_device, on_metadata, delete_device.
    rewrite (st_bind_step st_get _ _ (co_metadata c) (co_metadata c)) by done. rewrite st_bind_lift. unfold get_head.
    rewrite Hno. cbn. by destruct c.
Qed.

Lemma refines_read d o len v c A n b :
  cow_wf config c -> represents c A -> op_bounded (ArRead d o len v) -> 1 <= n -> capacity c n b ->
  step_refines (ArRead d o len v) c A n b.
Proof using Hcfg.
  intros Hwf R (Ho & Hlen) Hn Hcap.
  destruct (array_cases c A d Hwf R) as [(l & spec & HA & Hl & Hs)|(Hno & Hfail)].
  - pose proof (read_runs c d l spec Hwf Hl Hs o len v Ho Hlen) as Hrun.
    assert (Hexec : array_exec (ArRead d o len v) A =
      if array_range l o len && readable v (slice l o len) then (Some (ArBytes (slice l o len).*1), A) else (None, A))
      by (cbn [array_exec]; by rewrite (with_array_live _ _ _ _ _ _ HA)).
    destruct (array_range l o len && readable v (slice l o len)).
    + assert (Hd : device_exec (ArRead d o len v) c = (Some (ArBytes (slice l o len).*1), c))
        by (cbn [device_exec]; unfold outcome; by rewrite Hrun).
      unfold step_refines. rewrite Hd, Hexec. cbn [fst snd op_bytes]. split_and!; try done.
      eapply capacity_le; [..|exact Hcap]; lia.
    + destruct Hrun as (e & He). apply refines_failure; [done..| |done]. cbn [device_exec]. unfold outcome. by rewrite He.
  - apply refines_failure; [done..| |apply Hfail]. cbn [device_exec]. unfold outcome, read_device, resolve_block_read_plan.
    destruct (no_device c d Hno) as [e ->]. done.
Qed.

Lemma exec_refines op c A n b :
  cow_wf config c -> represents c A -> op_bounded op -> 1 <= n -> capacity c n b -> op_bytes op <= b ->
  step_refines op c A n b.
Proof using Hcfg.
  destruct op; cbn [op_bytes]; intros.
  - by apply refines_create.
  - by apply refines_batch.
  - by apply refines_write.
  - by apply refines_zero.
  - by apply refines_fork.
  - by apply refines_delete.
  - by apply refines_read.
Qed.

(** ** Sequences of operations *)

Fixpoint run_all {T} (exec : array_op -> T -> option array_result * T) (ops : list array_op) (s : T)
    : list (option array_result) * T :=
  match ops with
  | [] => ([], s)
  | op :: ops => let '(r, s1) := exec op s in let '(rs, s2) := run_all exec ops s1 in (r :: rs, s2)
  end.

Definition ops_bytes (ops : list array_op) : Z := foldr (fun op n => op_bytes op + n) 0 ops.

Lemma op_bytes_nonneg op : 0 <= op_bytes op.
Proof using Type. destruct op; cbn; try lia; [apply batch_bytes_nonneg|unfold zlen; lia]. Qed.

Lemma ops_bytes_nonneg ops : 0 <= ops_bytes ops.
Proof using Type. induction ops as [|op ops IH]; cbn; [lia|]. pose proof (op_bytes_nonneg op). unfold ops_bytes in IH. lia. Qed.

Lemma ops_bytes_app ops ops' : ops_bytes (ops ++ ops') = ops_bytes ops + ops_bytes ops'.
Proof using Type.
  induction ops as [|op ops IH]; [done|]. cbn [app ops_bytes foldr]. fold (ops_bytes (ops ++ ops')) (ops_bytes ops). lia.
Qed.

Lemma runs_refine ops c A n b :
  cow_wf config c -> represents c A -> Forall op_bounded ops -> Z.of_nat (length ops) <= n -> capacity c n b ->
  ops_bytes ops <= b ->
  (run_all device_exec ops c).1 = (run_all array_exec ops A).1 /\
  let c' := (run_all device_exec ops c).2 in
  cow_wf config c' /\ represents c' (run_all array_exec ops A).2 /\ later c c' /\
  capacity c' (n - Z.of_nat (length ops)) (b - ops_bytes ops).
Proof using Hcfg.
  revert c A n b. induction ops as [|op ops IH]; intros c A n b Hwf R Hty Hn Hcap Hb.
  { cbn. split_and!; try done. eapply capacity_le; [..|exact Hcap]; cbn; lia. }
  apply Forall_cons in Hty as [Hop Hty]. cbn [length ops_bytes foldr] in Hn, Hb. fold (ops_bytes ops) in Hb.
  pose proof (ops_bytes_nonneg ops). pose proof (op_bytes_nonneg op).
  destruct (exec_refines op c A n b Hwf R Hop ltac:(lia) Hcap ltac:(lia)) as (Hr & Hwf1 & R1 & Hcap1 & L1).
  cbn [run_all]. destruct (device_exec op c) as [r c1], (array_exec op A) as [r' A1]. cbn [fst snd] in *. subst r'.
  destruct (IH c1 A1 (n - 1) (b - op_bytes op) Hwf1 R1 Hty ltac:(lia) Hcap1 ltac:(lia)) as (Hrs & Hwf2 & R2 & L2 & Hcap2).
  destruct (run_all device_exec ops c1) as [rs c2], (run_all array_exec ops A1) as [rs' A2]. cbn [fst snd] in *. subst rs'.
  split_and!; [done|done|done|by etrans|]. eapply capacity_le; [..|exact Hcap2]; cbn [length ops_bytes foldr]; fold (ops_bytes ops); lia.
Qed.

(** ** A new store *)

Definition no_arrays : arrays := mkArrays (next_device_id MetadataInner_new) ∅.

Lemma new_pool storage_nodes s b :
  Registry_new config storage_nodes = Ok s -> b < U64_MAX -> pool_wf bs s /\ pool_ready s b.
Proof using Type.
  intros Hnew Hb. destruct (registry_new_wf config storage_nodes s Hnew) as [Hwf Hin].
  unfold Registry_new in Hnew. apply bind_Ok in Hnew as (_ & _ & Hnew). apply bind_Ok in Hnew as (ns & Hns & [= <-]).
  apply (build_nodes_spec (fun node_id => _ ← LocalStoreConfig_validate
    (for_storage_node config node_id); Ok (node_new (for_storage_node config node_id)))) in Hns as [_ Hnodes].
  2:{ intros acc id. by destruct (LocalStoreConfig_validate _). }
  assert (Hnode : forall k n, ns !! k = Some n ->
    n = node_new (for_storage_node config k) /\ LocalStoreConfig_validate (for_storage_node config k) = Ok tt).
  { intros k n [[_ Hn]|Hn]%Hnodes; [|by rewrite lookup_empty in Hn]. destruct (LocalStoreConfig_validate _) as [[]|]; [|done].
    by injection Hn as <-. }
  cbn [nodes rg_next_segment_id next_placement_index node_order] in *.
  assert (Hempty : forall k n id, ns !! k = Some n -> entries (ln_catalog n) !! id = None).
  { intros k n id [-> _]%Hnode. done. }
  split; [constructor|split; [split_and!|]]; cbn [nodes rg_next_segment_id next_placement_index node_order].
  - exact Hwf.
  - intros k n [-> Hv]%Hnode. done.
  - intros k1 n1 k2 n2 id H1 _ [e He]. by rewrite (Hempty k1 n1 id H1) in He.
  - intros k n id Hk [e He]. by rewrite (Hempty k n id Hk) in He.
  - done.
  - done.
  - intros Hnil. assert (Hp : cfg_storage_node config ∈ normalize_storage_nodes (cfg_storage_node config) storage_nodes).
    { apply normalize_storage_nodes_spec. by left. }
    rewrite Hnil in Hp. by apply not_elem_of_nil in Hp.
  - lia.
  - unfold U64_MAX in Hb. lia.
  - intros k n [-> _]%Hnode. cbn. unfold U64_MAX in Hb. lia.
  - intros id (k & n & e & Hk & He & _). by rewrite (Hempty k n id Hk) in He.
Qed.

Lemma new_store storage_nodes c n b :
  with_storage_nodes config storage_nodes = Ok c -> n + 1 < U64_MOD -> b < U64_MAX ->
  cow_wf config c /\ represents c no_arrays /\ capacity c n b.
Proof using Hcfg.
  intros Hnew Hn Hb. unfold with_storage_nodes in Hnew. apply bind_Ok in Hnew as (_ & _ & Hnew).
  apply bind_Ok in Hnew as (s & Hs & [= <-]). destruct (new_pool storage_nodes s b Hs Hb) as [Hp Hroom].
  split_and!; [constructor|constructor|split_and!]; cbn; try done.
  - apply new_wf.
  - by intros d [x Hx].
  - unfold U64_MOD, U128_MOD in *. lia.
  - lia.
Qed.
End exec.
End machine.



(** ** A concrete run

    Two storage nodes and devices of two shards; a device is created, written
    and forked, the two then differ, and one is deleted.  Two bytes of the fork
    are written unchecked, and a read that insists on verified payloads fails
    where it meets them. *)

Definition demo_arrays_config : LocalStoreConfig := mkLocalStoreConfig 2 2 1 2 1 1 1024 None.

Definition demo_ops : list array_op :=
  [ArCreate 8; ArWrite 1 2 [7; 8; 9; 10] Acknowledged Verified; ArFork 1 None;
   ArBatch 2 [mkBlockBatchWrite 4 [1; 2; 3; 4; 5; 6] Verified; mkBlockBatchWrite 6 [0; 0] Unchecked] Acknowledged;
   ArRead 1 0 10 RvDefault].

Definition demo_later_ops : list array_op :=
  [ArZero 1 2 2; ArRead 2 2 8 RvDefault; ArRead 1 0 4 RvDefault; ArRead 2 2 4 RvRequireVerified;
   ArRead 2 4 4 RvRequireVerified; ArDelete 2; ArRead 2 0 2 RvDefault].

Definition demo_arrays_store : LocalCoordinator :=
  mkLocalCoordinator MetadataInner_new (Allocator_new 0) ∅
    (mkStorageNodeRegistry demo_arrays_config [1; 5]
      {[1 := node_new (for_storage_node demo_arrays_config 1); 5 := node_new (for_storage_node demo_arrays_config 5)]}
      0 1) ∅ ∅ 1 1 ∅.


