(* ===== verification/Collection.v ===== *)
(** * What the custodians do to the bytes of devices

    The metadata custodian removes tree nodes and releases segments; the storage
    node custodian frees segments.  Neither changes a byte of a live device: the
    machine of arrays is also implemented by a store whose custodians run
    at any time between the operations. *)

From S2P Require Import Prelude Intervals Api Object TreeEdit Batch Provider Authority Config.
From S2P Require Import Catalog SegmentStore StorageNode Streams Plane Timeline History Gc Retention.
From S2P Require Import Coordinator SegmentPool CowTree CowSpec Trees ReadPath ReadSpec BlockOps.
From S2P Require Import BlockPlan BlockCommit Store Device DeviceOps Devices Arrays.

#[local] Opaque WriteGrant_hash deterministic_test_proof_for_grant
  deterministic_test_proof_for_receipt deterministic_test_proof_for_reference.

(** ** Trees whose nodes are kept *)

Section subtree.
Context (bs : Z) (size size' : SegmentId -> option Z) (nodes nodes' : gmap MetadataNodeId MetadataNode).
Context (Q : MetadataNodeId -> Prop).
Hypothesis Hclosed : forall p n ch, Q p -> nodes !! p = Some n -> ch ∈ node_children n -> Q ch.
Hypothesis Hnodes : forall p n, Q p -> nodes !! p = Some n -> nodes' !! p = Some n.
Hypothesis Hsize : forall p n s z, Q p -> nodes !! p = Some n -> s ∈ node_segments n -> size s = Some z -> size' s = Some z.

Lemma leaf_segment n es xs b id k :
  mn_kind n = Leaf es xs -> entries_lookup es b = Some (id, k) -> id ∈ node_segments n.
Proof using Type.
  intros Hk Hb. unfold node_segments. rewrite Hk.
  apply first_at_Some_elem in Hb as (e & He & Hb). apply entry_lookup_Some in Hb as [_ [= -> _]]. by apply list_elem_of_fmap_2.
Qed.

(** The leaf of a block is the contents of a node of the subtree. *)
Lemma leaf_at_node h id b es xs :
  Q id -> leaf_at h nodes id b = Some (es, xs) -> exists p n, Q p /\ nodes !! p = Some n /\ mn_kind n = Leaf es xs.
Proof using Hclosed.
  revert id. induction h as [|h IH]; intros id HQ; cbn [leaf_at]; [done|].
  destruct (nodes !! id) as [n|] eqn:Hn; [|done]. destruct (mn_kind n) as [cs|es' xs'] eqn:Hk.
  - destruct (child_at cs b) as [ch|] eqn:Hch; [|done]. apply IH, (Hclosed id n); [done|done|].
    apply find_some in Hch as [Hin%list_elem_of_In _]. unfold node_children. rewrite Hk. by apply list_elem_of_fmap_2.
  - intros [= -> ->]. by exists id, n.
Qed.

Lemma kept_leaf p n r es xs :
  Q p -> nodes !! p = Some n -> mn_kind n = Leaf es xs -> leaf_ok bs size r es xs -> leaf_ok bs size' r es xs.
Proof using Hsize.
  intros Hp Hn Hk [H1 H2 H3 H4 H5 H6]. constructor; try done. intros b id k Hb.
  destruct (H3 b id k Hb) as [Hin (z & Hz & ?)]. split; [done|]. exists z. split; [|done].
  apply (Hsize p n); [done..| |done]. by eapply leaf_segment.
Qed.

Lemma kept_tree h id r :
  Q id -> tree_ok bs size h nodes id r ->
  tree_ok bs size' h nodes' id r /\ forall b, in_block_range r b -> leaf_at h nodes' id b = leaf_at h nodes id b.
Proof using Hclosed Hnodes Hsize.
  revert id r. induction h as [|h IH]; intros id r HQ; [done|]. intros (n & Hn & Hid & Hr & Hok & Hk).
  pose proof (Hnodes id n HQ Hn) as Hn'. cbn [leaf_at]. rewrite Hn, Hn'.
  destruct (mn_kind n) as [cs|es xs] eqn:Hkind.
  - destruct Hk as (Hne & Hch & Hcs).
    assert (HQc : forall c, c ∈ cs -> Q (mc_node_id c)).
    { intros c Hc. apply (Hclosed id n); [done|done|]. unfold node_children. rewrite Hkind. by apply list_elem_of_fmap_2. }
    rewrite Forall_forall in Hcs. split.
    + cbn [tree_ok]. exists n. rewrite Hkind. split_and!; [done..|]. apply Forall_forall. intros c Hc. by apply IH; [apply HQc|apply Hcs].
    + intros b Hb. destruct (child_at_Some _ _ _ b Hch) as (c & -> & Hin & Hc); [exact Hb|].
      by apply (IH _ (mc_range c)); [apply HQc|apply Hcs|].
  - split; [|done]. cbn [tree_ok]. exists n. rewrite Hkind. split_and!; [done..|]. by apply (kept_leaf id n).
Qed.
End subtree.

(** ** Live trees *)

(** A node below the roots of a live device. *)
Definition live_node (m : MetadataInner) (p : MetadataNodeId) : Prop :=
  exists d h, device_heads m !! d = Some h /\ reach (metadata_nodes m) (dh_shard_roots h) p.

(** The live devices keep their heads, specs, nodes and payloads; every segment
    keeps its receipt, and so whether it was written to be verified. *)
Record retains (c c' : LocalCoordinator) : Prop := {
  rn_heads : device_heads (co_metadata c') = device_heads (co_metadata c);
  rn_specs : forall d, is_Some (device_heads (co_metadata c) !! d) ->
    device_specs (co_metadata c') !! d = device_specs (co_metadata c) !! d;
  rn_nodes : forall p n, live_node (co_metadata c) p -> metadata_nodes (co_metadata c) !! p = Some n ->
    metadata_nodes (co_metadata c') !! p = Some n;
  rn_payload : forall p n s bytes, live_node (co_metadata c) p -> metadata_nodes (co_metadata c) !! p = Some n ->
    s ∈ node_segments n -> segment_payload (co_storage_nodes c) s = Some bytes ->
    segment_payload (co_storage_nodes c') s = Some bytes;
  rn_mode : forall id, segment_mode (co_storage_nodes c') id = segment_mode (co_storage_nodes c) id;
}.

(** What a collection leaves: the invariant, the contents of all live devices,
    and as much room as before; some identifiers of deleted devices may be
    forgotten. *)
Record preserved `{Crc32cCrate} (config : LocalStoreConfig) (c c' : LocalCoordinator) : Prop := {
  pv_wf : cow_wf config c';
  pv_contents : forall d, device_contents config c' d = device_contents config c d;
  pv_next : next_device_id (co_metadata c') = next_device_id (co_metadata c);
  pv_used : forall d, device_roots (co_metadata c) d = None -> device_roots (co_metadata c') d = None;
  pv_capacity : forall n b, capacity c n b -> capacity c' n b;
}.

Section live.
Context {CR : Crc32cCrate} (config : LocalStoreConfig).
Local Abbreviation bs := (cfg_block_size config).

Lemma live_child m p n ch :
  live_node m p -> metadata_nodes m !! p = Some n -> ch ∈ node_children n -> live_node m ch.
Proof using Type. intros (d & h & Hh & Hp) Hn Hch. exists d, h. split; [done|]. by eapply reach_child. Qed.

Lemma retains_tree c c' root r :
  retains c c' -> live_node (co_metadata c) root ->
  tree_ok bs (segment_size bs (co_storage_nodes c)) (tree_fuel (bk_blocks r)) (metadata_nodes (co_metadata c)) root r ->
  tree_ok bs (segment_size bs (co_storage_nodes c')) (tree_fuel (bk_blocks r)) (metadata_nodes (co_metadata c')) root r /\
  forall y, in_block_range r (y / bs) ->
    block_cell bs (co_storage_nodes c') (tree_block (co_metadata c') root r) y =
    block_cell bs (co_storage_nodes c) (tree_block (co_metadata c) root r) y.
Proof using Type.
  intros K HL Ht.
  destruct (kept_tree bs (segment_size bs (co_storage_nodes c)) (segment_size bs (co_storage_nodes c'))
    (metadata_nodes (co_metadata c)) (metadata_nodes (co_metadata c')) (live_node (co_metadata c)) (live_child _)
    (rn_nodes _ _ K)) with (tree_fuel (bk_blocks r)) root r as [Ht' Hleaf]; [|done|done|].
  { intros p n s z Hp Hn Hs. unfold segment_size. destruct (segment_payload (co_storage_nodes c) s) as [bytes|] eqn:Hb; [|done].
    by rewrite (rn_payload _ _ K p n s bytes). }
  split; [done|]. intros y Hy. unfold block_cell, tree_block. rewrite Hleaf by done.
  pose proof (tree_block_payload config c root r (y / bs)) as Hpay. unfold tree_block in Hpay.
  destruct (leaf_at _ (metadata_nodes (co_metadata c)) root (y / bs)) as [[es xs]|] eqn:Hl; [|done]. cbn [fst] in *.
  destruct (entries_lookup es (y / bs)) as [[id k]|] eqn:He; [|done]. unfold location_cell.
  destruct (Hpay id k Ht Hy eq_refl) as [bytes Hb].
  destruct (leaf_at_node _ (live_node (co_metadata c)) (live_child _) _ _ _ _ _ HL Hl) as (p & n & Hp & Hn & Hk).
  by rewrite Hb, (rn_payload _ _ K p n id bytes Hp Hn (leaf_segment _ _ _ _ _ _ Hk He) Hb), (rn_mode _ _ K).
Qed.

Lemma retains_device c c' d head blocks :
  retains c c' -> device_heads (co_metadata c) !! d = Some head -> device_ok config c blocks (dh_shard_roots head) ->
  device_ok config c' blocks (dh_shard_roots head) /\
  forall y, device_cell config c' blocks (dh_shard_roots head) y = device_cell config c blocks (dh_shard_roots head) y.
Proof using Type.
  intros K Hh Hd.
  assert (HL : forall root, root ∈ dh_shard_roots head -> live_node (co_metadata c) root)
    by (intros root Hr; exists d, head; split; [done|by apply reach_root]).
  split.
  - destruct Hd as [H1 H2 H3]. constructor; [done|done|]. apply Forall2_same_length_lookup_2; [by eapply Forall2_length|].
    intros k i root Hi Hr. eapply Forall2_lookup_lr in H3; [|exact Hi|exact Hr].
    apply (retains_tree c c'); [done| |done]. apply HL. by eapply list_elem_of_lookup_2.
  - intros y. unfold device_cell, block_cell, device_block.
    destruct (child_at _ (y / bs)) as [ch|] eqn:Hch; [|done].
    unfold child_at in Hch. apply find_some in Hch as [Hin Hr]. apply in_range_true in Hr. apply list_elem_of_In in Hin.
    pose proof (device_shard_ok config c blocks _ ch Hd Hin) as Ht. apply (retains_tree c c'); [done| |done|done].
    apply HL. apply list_elem_of_lookup in Hin as [k Hk]. apply lookup_zip_with_Some in Hk as (i & root & -> & _ & Hroot).
    by eapply list_elem_of_lookup_2.
Qed.

Lemma retains_preserved c c' :
  cow_wf config c -> retains c c' -> plane_wf config (co_metadata c') -> pool_wf bs (co_storage_nodes c') -> cache_ok c' ->
  (forall d, is_Some (device_specs (co_metadata c') !! d) -> is_Some (device_roots (co_metadata c') d)) ->
  next_device_id (co_metadata c') = next_device_id (co_metadata c) ->
  (forall d, device_roots (co_metadata c) d = None -> device_roots (co_metadata c') d = None) ->
  (forall n b, capacity c n b -> capacity c' n b) -> preserved config c c'.
Proof using Type.
  intros Hwf K Hp Hpool Hcache Hspecs Hnext Hused Hcap. constructor; [constructor| | | |]; try done.
  - rewrite (rn_heads _ _ K). intros d h Hh. destruct (sw_devices _ _ Hwf d h Hh) as (spec & Hs & Hv & Hb & Hd).
    exists spec. split_and!; [|done|done|by apply (retains_device c c' d h)]. rewrite (rn_specs _ _ K); [done|by eauto].
  - intros d. unfold device_contents. rewrite (rn_heads _ _ K).
    destruct (device_heads (co_metadata c) !! d) as [h|] eqn:Hh; [|done]. cbn. rewrite (rn_specs _ _ K) by eauto.
    destruct (sw_devices _ _ Hwf d h Hh) as (spec & Hs & Hv & Hb & Hd). rewrite Hs. cbn. f_equal.
    apply list_fmap_ext. intros i y _. by apply (retains_device c c' d h).
Qed.

(** ** The steps of a collection *)

(** What is collected from an idle store changes nothing that is live. *)
Definition collects (c c' : LocalCoordinator) : Prop :=
  cow_wf config c -> (forall id, ~ pending (co_storage_nodes c) id) ->
  preserved config c c' /\ forall id, ~ pending (co_storage_nodes c') id.

#[export] Instance collects_preorder : PreOrder collects.
Proof using Type.
  split; [by intros c Hwf Hi|]. intros c1 c2 c3 H12 H23 Hwf Hi. destruct (H12 Hwf Hi) as [[A1 A2 A3 A4 A5] Hi2].
  destruct (H23 A1 Hi2) as [[B1 B2 B3 B4 B5] Hi3]. split; [|done].
  constructor; [done|intros; by rewrite B2|by rewrite B3|auto..].
Qed.

(** The trees stay; the plane keeps its invariant. *)
Lemma still_collects c m' : still_wf config (co_metadata c) m' -> collects c (set_co_metadata m' c).
Proof using Type.
  intros Hst Hwf Hi. destruct (Hst (sw_plane _ _ Hwf)) as [Hm' [S1 S2 S3 S4 S5 S6]]. split; [|exact Hi].
  assert (Hroots : forall d, device_roots m' d = device_roots (co_metadata c) d) by (intros d; unfold device_roots; by rewrite S1, S2).
  apply retains_preserved; cbn [co_metadata co_storage_nodes set_co_metadata]; try done; try apply Hwf.
  - constructor; cbn [co_metadata co_storage_nodes set_co_metadata]; [done|by intros; rewrite S3|by intros; rewrite S4|by intros|done].
  - intros d. rewrite Hroots, S3. apply Hwf.
  - intros d. by rewrite Hroots.
  - intros n b (H1 & H2 & H3). split_and!; [done|done|cbn; by rewrite S5].
Qed.

(** Segments outside the live trees go. *)
Lemma shrinks_collects P c s :
  (forall p n id, live_node (co_metadata c) p -> metadata_nodes (co_metadata c) !! p = Some n -> id ∈ node_segments n -> P id) ->
  shrinks bs P (co_storage_nodes c) s -> collects c (set_co_storage_nodes s c).
Proof using Type.
  intros HP Hs Hwf Hi. destruct (Hs (sw_pool _ _ Hwf) Hi) as [S1 S2 S3 S4 S5]. split; [|intros id Hp; by apply (Hi id), S5].
  apply retains_preserved; cbn [co_metadata co_storage_nodes set_co_storage_nodes]; try done; try apply Hwf.
  - constructor; try done.
    + intros p n id bytes Hp Hn Hid Hb. cbn. rewrite S3; [done|]. by eapply HP.
    + intros id. unfold segment_mode. cbn. by rewrite S2.
  - intros id v Hv. unfold fetch_receipt. cbn [co_storage_nodes set_co_storage_nodes]. rewrite S2. by apply (sw_cache _ _ Hwf).
  - intros n b (H1 & H2 & H3). split_and!; [by apply S4|done|done].
Qed.

(** What the coordinator keeps besides devices does not matter. *)
Lemma rest_collects c c' :
  co_metadata c' = co_metadata c -> co_storage_nodes c' = co_storage_nodes c ->
  co_verified_receipt_cache c' ⊆ co_verified_receipt_cache c -> co_next_write_intent c' = co_next_write_intent c ->
  collects c c'.
Proof using Type.
  intros Em Es Hc Hi Hwf Hidle. rewrite Es. split; [|done]. apply retains_preserved; rewrite ?Em, ?Es; try done; try apply Hwf.
  - constructor; rewrite ?Em, ?Es; auto.
  - intros id v Hv. rewrite (fetch_registry c c' id Es). apply (sw_cache _ _ Hwf). by eapply lookup_weaken.
  - intros n b. unfold capacity. by rewrite Em, Es, Hi.
Qed.

Lemma on_metadata_collects {A} (m : ST MetadataInner A) : st_rel (still_wf config) m -> st_rel collects (on_metadata m).
Proof using Type.
  intros Hm c r c' Hrun. unfold on_metadata in Hrun. destruct (m (co_metadata c)) as [r1 m'] eqn:Hr. injection Hrun as _ <-.
  apply still_collects. by eapply Hm.
Qed.

(** The state a sweep leaves, seen from the state before it. *)
Lemma sweep_fields policy epoch m rep m' :
  sweep_unmarked_after_mark policy epoch m = (Ok rep, m') -> plane_wf config m ->
  exists m1, quiet m m1 /\ plane_wf config m1 /\ plane_wf config m' /\
    device_heads m' = device_heads m1 /\ metadata_nodes m' ⊆ metadata_nodes m1 /\
    next_device_id m' = next_device_id m1 /\ next_commit_seq m' = next_commit_seq m1 /\
    deleted_device_heads m' = filter (fun p => p.1 ∉ expired_devices m1 policy) (deleted_device_heads m1) /\
    device_specs m' = filter (fun p => p.1 ∉ expired_devices m1 policy) (device_specs m1).
Proof using Type.
  intros Hrun Hp. apply (sweep_run config) in Hrun as (m1 & roots & out & _ & Hwf1 & Q & Ha & Hr & Hc & -> & _); [|done].
  exists m1. split_and!; [done|done|by eapply swept_wf|..];
    destruct (swept_fields m1 policy (sweep_candidates m1 epoch out.1)) as (? & _ & _ & ? & ? & _ & _ & Hn & ? & ? & _); try done.
  rewrite Hn. apply map_filter_subseteq.
Qed.

(** The sweep: what is live stays, and nothing live is in the report. *)
Lemma sweep_collects policy epoch m rep m' c :
  co_metadata c = m -> sweep_unmarked_after_mark policy epoch m = (Ok rep, m') ->
  collects c (set_co_metadata m' c) /\
  (plane_wf config m -> forall p n id, live_node m' p -> metadata_nodes m' !! p = Some n -> id ∈ node_segments n ->
    id ∉ sw_released_segments rep).
Proof using Type.
  intros <- Hrun.
  assert (Hlive : plane_wf config (co_metadata c) -> forall p, live_node (co_metadata c) p ->
    exists n, metadata_nodes (co_metadata c) !! p = Some n /\ metadata_nodes m' !! p = Some n /\
      forall s, s ∈ node_segments n -> s ∉ sw_released_segments rep).
  { intros Hp p (d & h & Hh & Hr). eapply sweep_live; [exact Hp|exact Hrun| |exact Hr].
    apply Forall_forall. intros r Hin. by eapply lr_device. }
  pose proof (sweep_fields policy epoch _ rep m' Hrun) as Hfields.
  split.
  - intros Hwf Hi. split; [|exact Hi]. pose proof (sw_plane _ _ Hwf) as Hp.
    destruct (Hfields Hp) as (m1 & Q & Hp1 & Hp' & Eh & Hn & Ed & Es & Edel & Esp). destruct Q as [Q1 Q2 Q3 Q4 _ Q6 _ _ _ _ _ Q12].
    assert (Hroots : forall d, d ∉ expired_devices m1 policy -> device_roots m' d = device_roots (co_metadata c) d).
    { intros d Hd. unfold device_roots. rewrite Eh, Q1, Edel, Q2. destruct (device_heads (co_metadata c) !! d); [done|]. f_equal.
      apply option_eq. intros h. rewrite map_lookup_filter_Some. cbn. by split; [intros [? _]|]. }
    apply retains_preserved; cbn [co_metadata co_storage_nodes set_co_metadata]; try done; try apply Hwf.
    + constructor; cbn [co_metadata co_storage_nodes set_co_metadata]; [congruence| | |done|done].
      * intros d [h Hh]. rewrite Esp, Q3. apply option_eq. intros sp. rewrite map_lookup_filter_Some. cbn.
        split; [by intros [? _]|]. intros Hsp. split; [done|]. apply (live_not_expired config); [done|]. rewrite Q1. by eauto.
      * intros p n HL Hpn. destruct (Hlive Hp p HL) as (n' & Hn1 & Hn2 & _). congruence.
    + intros d. rewrite Esp, Q3. intros [sp [Hsp Hd]%map_lookup_filter_Some]. cbn in Hd. rewrite Hroots by done. apply Hwf. by eauto.
    + congruence.
    + intros d. unfold device_roots. rewrite Eh, Q1, Edel, Q2. destruct (device_heads (co_metadata c) !! d); [done|]. cbn.
      intros Hd. destruct (deleted_device_heads (co_metadata c) !! d) eqn:Hdd; [done|].
      by rewrite (proj2 (map_lookup_filter_None _ _ _) (or_introl Hdd)).
    + intros k b (H1 & H2 & H3). split_and!; [done|done|cbn; congruence].
  - intros Hp p n id (d & h & Hh & Hr) Hpn Hid. destruct (Hfields Hp) as (m1 & Q & _ & _ & Eh & Hn & _).
    rewrite (q_nodes _ _ Q) in Hn.
    destruct (Hlive Hp p) as (n' & Hn1 & Hn2 & Hrel).
    { exists d, h. rewrite Eh, (q_heads _ _ Q) in Hh. split; [done|]. eapply reach_mono; [| |exact Hr]; [done|].
      intros q k _ Hq. by eapply lookup_weaken. }
    apply Hrel. congruence.
Qed.

(** ** The custodians *)

(** Steps that leave the metadata alone and keep the segments of live trees. *)
Definition releases (P : SegmentId -> Prop) (c c' : LocalCoordinator) : Prop :=
  co_metadata c' = co_metadata c /\
  ((forall p n id, live_node (co_metadata c) p -> metadata_nodes (co_metadata c) !! p = Some n -> id ∈ node_segments n -> P id) ->
   collects c c').

#[export] Instance releases_preorder P : PreOrder (releases P).
Proof using Type.
  split; [by intros c|]. intros c1 c2 c3 [E12 H12] [E23 H23]. split; [congruence|]. intros HP.
  etrans; [by apply H12|]. apply H23. by rewrite E12.
Qed.

Lemma release_swept_releases (l : list SegmentId) id :
  id ∈ l -> st_rel (releases (fun i => i ∉ l)) (release_swept id).
Proof using Type.
  intros Hid. unfold release_swept. st_rel_tac; try apply _.
  - apply st_rel_modify. intros c. split; [done|]. intros _. apply rest_collects; try done. apply delete_subseteq.
  - intros c r c' Hrun. unfold on_storage_nodes in Hrun.
    destruct (Registry_release_segment id (co_storage_nodes c)) as [r1 s] eqn:Hr. injection Hrun as _ <-. split; [done|].
    intros HP. apply (shrinks_collects (fun i => i <> id)).
    + intros p n i Hp Hn Hi ->. by eapply HP.
    + by eapply release_shrinks.
Qed.

Lemma st_rel_for_in {A} (R : relation LocalCoordinator) `{!PreOrder R} (f : A -> ST LocalCoordinator unit) l :
  (forall a, a ∈ l -> st_rel R (f a)) -> st_rel R (st_for f l).
Proof using Type.
  induction l as [|x l IH]; intros Hf; cbn [st_for]; [by apply st_rel_ret|].
  apply st_rel_bind; [done|apply Hf; by left|]. intros _. apply IH. intros a Ha. apply Hf. by right.
Qed.

(** The metadata custodian changes no byte of a live device, whether it
    completes or fails. *)
Lemma metadata_custodian_collects policy : st_rel collects (run_metadata_custodian policy).
Proof using Type.
  unfold run_metadata_custodian. apply st_rel_bind; [apply _|apply on_metadata_collects, mark_still|]. intros mark.
  apply st_rel_bind; [apply _| |intros sweep; st_rel_tac].
  intros c r c' Hrun. unfold sweep_metadata_after_mark in Hrun. rewrite st_bind_run in Hrun. unfold on_metadata at 1 in Hrun.
  destruct (sweep_unmarked_after_mark policy (mk_epoch mark) (co_metadata c)) as [[rep|e] m'] eqn:Hsweep.
  2:{ injection Hrun as _ <-. apply still_collects. by eapply sweep_failed_still. }
  destruct (sweep_collects policy _ _ rep m' c eq_refl Hsweep) as [Hc Hrel].
  assert (HR : releases (fun i => i ∉ sw_released_segments rep) (set_co_metadata m' c) c').
  { revert Hrun. generalize (set_co_metadata m' c). intros c1.
    apply (fun (X : st_rel (releases (fun i => i ∉ sw_released_segments rep)) _) => X c1 r c').
    apply st_rel_bind; [apply _|unfold retain_reachable_append_run_logs; st_rel_tac|intros _].
    { apply st_rel_modify. intros c2. split; [done|]. intros _. by apply rest_collects. }
    apply st_rel_bind; [apply _| |intros; apply st_rel_ret; apply _].
    apply st_rel_for_in; [apply _|]. intros id Hid. by apply release_swept_releases. }
  intros Hwf Hi. revert Hwf Hi. change (collects c c').
  intros Hwf. pose proof (Hrel (sw_plane _ _ Hwf)) as Hrel'. revert Hwf. change (collects c c').
  etrans; [exact Hc|]. by apply HR.
Qed.

(** The storage node custodian leaves the metadata alone. *)
Lemma storage_custodian_collects expired c r c' :
  run_storage_node_custodian expired c = (r, c') -> co_metadata c' = co_metadata c /\ collects c c'.
Proof using Type.
  intros Hrun. cut (releases (fun _ => True) c c'); [intros [? Hc]; split; [done|by apply Hc]|]. revert Hrun.
  apply (fun (X : st_rel (releases (fun _ => True)) (run_storage_node_custodian expired)) => X c r c').
  unfold run_storage_node_custodian. apply st_rel_bind; [apply _|apply st_rel_gets; apply _|intros l].
  apply st_rel_fold; [apply _|]. intros report k. unfold custodian_node. apply st_rel_bind; [apply _| |intros; st_rel_tac].
  intros c1 r1 c2 Hrun. unfold on_storage_nodes in Hrun.
  destruct (on_node k (send (SnRunCustodian expired)) (co_storage_nodes c1)) as [r2 s] eqn:Hr. injection Hrun as _ <-.
  split; [done|]. intros _. apply (shrinks_collects (fun _ => True)); [done|]. by eapply custodian_shrinks.
Qed.
End live.

(** ** Histories with collections *)

Inductive store_event :=
  | EvOp (op : array_op)
  | EvMetadataCustodian (policy : RetentionPolicy)
  | EvStorageCustodian (expired_write_intents : gset WriteIntentId).

(** The operations of a history. *)
Definition event_ops (evs : list store_event) : list array_op :=
  omap (fun ev => match ev with EvOp op => Some op | _ => None end) evs.

(** Identifiers of deleted arrays may be forgotten, and so become free again. *)
Definition forgets (A A' : arrays) : Prop :=
  ar_next A' = ar_next A /\
  forall d, ar_devices A' !! d = ar_devices A !! d \/ (ar_devices A !! d = Some None /\ ar_devices A' !! d = None).

Section histories.
Context {CR : Crc32cCrate} (config : LocalStoreConfig).

(** The coordinator: the results of the operations; a custodian may fail. *)
Fixpoint run_events (evs : list store_event) (c : LocalCoordinator) : list (option array_result) * LocalCoordinator :=
  match evs with
  | [] => ([], c)
  | EvOp op :: evs =>
      let '(r, c1) := device_exec config op c in let '(rs, c2) := run_events evs c1 in (r :: rs, c2)
  | EvMetadataCustodian policy :: evs => run_events evs (run_metadata_custodian policy c).2
  | EvStorageCustodian expired :: evs => run_events evs (run_storage_node_custodian expired c).2
  end.

(** The arrays. *)
Inductive arrays_run : list store_event -> arrays -> list (option array_result) -> arrays -> Prop :=
| run_done A : arrays_run [] A [] A
| run_op op evs A rs A' :
    arrays_run evs (array_exec config op A).2 rs A' ->
    arrays_run (EvOp op :: evs) A ((array_exec config op A).1 :: rs) A'
| run_metadata policy evs A A1 rs A' :
    forgets A A1 -> arrays_run evs A1 rs A' -> arrays_run (EvMetadataCustodian policy :: evs) A rs A'
| run_storage expired evs A rs A' :
    arrays_run evs A rs A' -> arrays_run (EvStorageCustodian expired :: evs) A rs A'.

Hypothesis Hcfg : config_ok config.

Lemma preserved_represents c A c' :
  represents config c A -> preserved config c c' ->
  exists A', forgets A A' /\ represents config c' A'.
Proof using Type.
  intros [R1 R2 R3] [_ P2 P3 P4 _].
  set (keep := filter (fun p : DeviceId * option (list cell) => device_roots (co_metadata c') p.1 <> None) (ar_devices A)).
  assert (Hkeep : forall d, (device_roots (co_metadata c') d <> None /\ keep !! d = ar_devices A !! d) \/
    (device_roots (co_metadata c') d = None /\ keep !! d = None)).
  { intros d. destruct (device_roots (co_metadata c') d) as [r|] eqn:Hr.
    - left. split; [done|]. apply option_eq. intros x. unfold keep. rewrite map_lookup_filter_Some. cbn. rewrite Hr. by split; [intros [? _]|].
    - right. split; [done|]. apply map_lookup_filter_None. right. intros x _. cbn. rewrite Hr. by intros []. }
  assert (Hlive : forall d l, ar_devices A !! d = Some (Some l) -> device_roots (co_metadata c') d <> None).
  { intros d l Hd. pose proof (R2 d) as Hl. rewrite Hd, <-P2 in Hl. cbn in Hl.
    destruct (contents_head config c' d l Hl) as (h & _ & Hh & _). unfold device_roots. by rewrite Hh. }
  assert (Hgone : forall d, device_roots (co_metadata c') d = None -> ar_devices A !! d = None \/ ar_devices A !! d = Some None).
  { intros d Hd. destruct (ar_devices A !! d) as [[l|]|] eqn:HA; [by apply Hlive in HA|by right|by left]. }
  exists (mkArrays (ar_next A) keep). split; [split; [done|]|constructor]; cbn [ar_next ar_devices].
  - intros d. destruct (Hkeep d) as [[_ ?]|[Hr Hn]]; [by left|]. destruct (Hgone d Hr) as [HA|HA]; [left; congruence|by right].
  - congruence.
  - intros d. rewrite P2, R2. destruct (Hkeep d) as [[_ ->]|[Hr ->]]; [done|]. by destruct (Hgone d Hr) as [->| ->].
  - intros d. destruct (Hkeep d) as [[Hr ->]|[Hr ->]]; [|done]. split; [intros HA; apply P4; by apply R3|done].
Qed.

Lemma events_refine evs c A n b :
  cow_wf config c -> represents config c A -> Forall (op_bounded config) (event_ops evs) ->
  Z.of_nat (length (event_ops evs)) <= n -> capacity c n b -> ops_bytes (event_ops evs) <= b ->
  exists A', arrays_run evs A (run_events evs c).1 A' /\ represents config (run_events evs c).2 A' /\
    cow_wf config (run_events evs c).2.
Proof using Hcfg.
  revert c A n b. induction evs as [|[op|policy|expired] evs IH]; intros c A n b Hwf R Hty Hn Hcap Hb.
  - exists A. by split_and!; [constructor|..].
  - cbn [event_ops omap list_omap] in Hty, Hn, Hb. fold (event_ops evs) in Hty, Hn, Hb.
    apply Forall_cons in Hty as [Hop Hty]. cbn [length ops_bytes foldr] in Hn, Hb. fold (ops_bytes (event_ops evs)) in Hb.
    pose proof (ops_bytes_nonneg (event_ops evs)).
    destruct (exec_refines config Hcfg op c A n b Hwf R Hop ltac:(lia) Hcap ltac:(lia)) as (Hr & Hwf1 & R1 & Hcap1 & _).
    cbn [run_events]. destruct (device_exec config op c) as [r c1]. cbn [fst snd] in *. subst r.
    destruct (IH c1 (array_exec config op A).2 (n - 1) (b - op_bytes op) Hwf1 R1 Hty ltac:(lia) Hcap1 ltac:(lia)) as (A' & Hrun & R' & Hwf').
    destruct (run_events evs c1) as [rs c2]. cbn [fst snd] in *. exists A'. split_and!; [by constructor|done|done].
  - cbn [run_events]. destruct (run_metadata_custodian policy c) as [r c1] eqn:Hc. cbn [snd].
    destruct (metadata_custodian_collects config policy c r c1 Hc Hwf) as [P _]; [apply Hcap|].
    destruct (preserved_represents c A c1 R P) as (A1 & Hf & R1).
    destruct (IH c1 A1 n b) as (A' & Hrun & HR); [apply P|done|done|done|by apply P|done|].
    exists A'. split; [by econstructor|done].
  - cbn [run_events]. destruct (run_storage_node_custodian expired c) as [r c1] eqn:Hc. cbn [snd].
    destruct (storage_custodian_collects config expired c r c1 Hc) as [Em [P _]%(fun X => X Hwf)]; [apply Hcap|].
    assert (R1 : represents config c1 A).
    { destruct R as [R1 R2 R3]. constructor; [by rewrite Em|intros; by rewrite (pv_contents _ _ _ P)|by rewrite Em]. }
    destruct (IH c1 A n b) as (A' & Hrun & HR); [apply P|done|done|done|by apply P|done|].
    exists A'. split; [by econstructor|done].
Qed.
End histories.


(** ** A concrete history

    A device is overwritten unchecked and a fork of it deleted; the collections in
    between remove nodes and free segments, and the device then reads as before. *)

Definition demo_events : list store_event :=
  [EvOp (ArCreate 4); EvOp (ArWrite 1 2 [7; 8] Acknowledged Verified); EvOp (ArFork 1 None);
   EvOp (ArWrite 1 2 [1; 1] Acknowledged Unchecked); EvOp (ArDelete 2);
   EvMetadataCustodian (mkRetentionPolicy false 0 0); EvStorageCustodian ∅;
   EvOp (ArRead 1 0 8 RvDefault); EvOp (ArRead 1 0 8 RvRequireVerified)].
Definition demo_results : list (option array_result) :=
  [Some (ArDevice 1); Some ArDone; Some (ArDevice 2); Some ArDone; Some ArDone;
   Some (ArBytes [0; 0; 1; 1; 0; 0; 0; 0]); None].


(** The collections of this history did remove nodes and free segments. *)
Definition collected (before after : LocalCoordinator) : bool :=
  (size (metadata_nodes (co_metadata after)) <? size (metadata_nodes (co_metadata before)))%nat &&
  bool_decide (is_Some (segment_payload (co_storage_nodes before) 1)) &&
  bool_decide (segment_payload (co_storage_nodes after) 1 = None).

Lemma demo_collected :
  (let before := (@run_events sum_crc demo_arrays_config (take 5 demo_events) demo_arrays_store).2 in
   collected before (@run_events sum_crc demo_arrays_config (drop 5 demo_events) before).2) = true.
Proof. vm_compute. reflexivity. Qed.
