(* ===== verification/StreamOps.v ===== *)
(** * Append streams of the metadata plane ([local/metadata_plane.rs])

    Opening a stream, which fences the streams of the same file; the range of
    the next append; recording, persisting, publishing, aborting and releasing;
    and the tickets of asynchronous publishes.  The operations on the state of
    one stream are in [Streams]; here they are run on the stream a token names,
    after the token has been validated. *)

From S2P Require Import Prelude Api Object Provider Config Catalog StorageNode Streams Plane.
From S2P Require Import Coordinator.

(** ** Access *)

Definition on_allocator {A} (p : ST AppendStreamAllocator A) : ST LocalCoordinator A :=
  fun c => let '(r, a) := p (co_append_stream_allocator c) in (r, set_co_append_stream_allocator a c).

(** [inner.append_streams.get(..)] and [validate_token]. *)
Definition token_state (inner : MetadataInner) (stream : AppendStream) : Result AppendStreamState :=
  state ← ok_or (append_streams inner !! as_stream_id stream) (Conflict "stale append stream");
  validate_token state stream;;
  Ok state.

Definition ask_stream {A} (stream : AppendStream) (f : AppendStreamState -> Result A)
    : ST LocalCoordinator A :=
  ask_metadata (fun inner => state ← token_state inner stream; f state).

(** The same with [get_mut]. *)
Definition on_stream {A} (stream : AppendStream) (p : ST AppendStreamState A)
    : ST LocalCoordinator A :=
  state ← ask_metadata (fun inner => token_state inner stream);
  let '(r, state') := p state in
  on_metadata (st_modify (fun m =>
    set_append_streams (<[as_stream_id stream := state']> (append_streams m)) m));;
  st_lift r.

Definition stream_of_file (keyspace_id : KeyspaceId) (file_id : FileId) (s : AppendStreamState) : bool :=
  (ss_keyspace_id s =? keyspace_id) && (ss_file_id s =? file_id).

(** ** Opening and fencing *)

Definition is_active (s : AppendStreamState) : bool := bool_decide (ss_status s = AsActive).

Definition fence_streams (keyspace_id : KeyspaceId) (file_id : FileId)
    (streams : gmap AppendStreamId AppendStreamState) : gmap AppendStreamId AppendStreamState :=
  (fun s => if stream_of_file keyspace_id file_id s && is_active s
    then set_stream_status s AsFenced else s) <$> streams.

Definition replay_base_epoch (inner : MetadataInner) (keyspace_id : KeyspaceId) (file_id : FileId)
    (persisted_epoch : WriterEpoch) : WriterEpoch :=
  match (fun s => if ss_visible_base_size s <? ss_durable_through s then ss_writer_epoch s
          else ss_base_writer_epoch s) <$>
        List.filter (stream_of_file keyspace_id file_id) (bt_values (append_streams inner)) with
  | [] => persisted_epoch
  | epoch :: epochs => fold_left Z.max epochs epoch
  end.

Definition current_epoch (inner : MetadataInner) (keyspace_id : KeyspaceId) (file_id : FileId)
    (persisted_epoch : WriterEpoch) : WriterEpoch :=
  fold_left Z.max
    (ss_writer_epoch <$> List.filter (fun s => stream_of_file keyspace_id file_id s && is_active s)
      (bt_values (append_streams inner))) persisted_epoch.

Definition open_append_stream (keyspace_id : KeyspaceId) (file_id : FileId)
    : ST LocalCoordinator AppendStream :=
  stream_id ← on_allocator next_raw;
  inner ← st_gets co_metadata;
  st_reject_if (append_publish_in_flight_for_file inner keyspace_id file_id)
    (Conflict "append publish already in flight for file");;
  head ← st_lift (file_head_locked inner keyspace_id file_id);
  let persisted_epoch := default 0 (file_writer_epochs inner !! (keyspace_id, file_id)) in
  let base_epoch := replay_base_epoch inner keyspace_id file_id persisted_epoch in
  writer_epoch ← st_lift (ok_or
    (checked_add U64_MOD (current_epoch inner keyspace_id file_id persisted_epoch) 1)
    (Conflict "writer epoch overflow"));
  let stream := mkAppendStreamState keyspace_id file_id stream_id base_epoch writer_epoch
    (fh_version head) (fh_size head) (fh_size head) (fh_size head) (fh_size head) AsActive [] in
  on_metadata (st_modify (fun m =>
    set_append_streams (<[stream_id := stream]> (fence_streams keyspace_id file_id (append_streams m)))
      (set_file_writer_epochs (<[(keyspace_id, file_id) := writer_epoch]> (file_writer_epochs m)) m)));;
  mret (public_stream stream).

Definition invalidate_append_streams_for_file (keyspace_id : KeyspaceId) (file_id : FileId)
    : ST LocalCoordinator unit :=
  inner ← st_gets co_metadata;
  st_reject_if (append_publish_in_flight_for_file inner keyspace_id file_id)
    (Conflict "append publish already in flight for file");;
  on_metadata (st_modify (fun m =>
    set_append_streams (fence_streams keyspace_id file_id (append_streams m)) m)).

Definition set_status_if_idle (stream : AppendStream) (status : AppendStreamStatus)
    : ST LocalCoordinator unit :=
  inner ← st_gets co_metadata;
  st_reject_if (append_publish_in_flight_for_stream inner stream)
    (Conflict "append publish already in flight for stream");;
  on_stream stream (st_modify (fun s => set_stream_status s status)).

Definition plane_abort_append_stream (stream : AppendStream) : ST LocalCoordinator unit :=
  set_status_if_idle stream AsAborted.
Definition plane_release_append_stream (stream : AppendStream) : ST LocalCoordinator unit :=
  set_status_if_idle stream AsReleased.

(** ** Appending *)

Definition prepare_append_stream_range (stream : AppendStream) (len : Z)
    : ST LocalCoordinator ByteRange :=
  st_reject_if (len =? 0) (InvalidArgument "append payload must not be empty");;
  inner ← st_gets co_metadata;
  st_lift (file_head_locked inner (as_keyspace_id stream) (as_file_id stream));;
  state ← st_lift (token_state inner stream);
  st_lift (ok_or (checked_add U64_MOD (ss_accepted_tail state) len)
    (InvalidArgument "append stream tail overflows file"));;
  mret (mkByteRange (ss_accepted_tail state) len).

Section crc.
Context {CR : Crc32cCrate}.

Definition record_append_stream_run (stream : AppendStream) (ticket_id : AppendTicketId)
    (range : ByteRange) (run : AppendLogRun) : ST LocalCoordinator AppendTicket :=
  st_reject_if (br_len range =? 0) (InvalidArgument "append payload must not be empty");;
  st_lift (AppendLogRun_validate run);;
  st_reject_if (negb (alr_stream_id run =? as_stream_id stream) ||
      negb (alr_writer_epoch run =? as_writer_epoch stream) ||
      negb (alr_keyspace_id run =? as_keyspace_id stream) ||
      negb (alr_file_id run =? as_file_id stream) ||
      negb (alr_file_offset_start run =? br_offset range) ||
      negb (alr_payload_len run =? br_len range))
    (InvalidArgument "append run does not match stream record range");;
  ask_metadata (fun inner => file_head_locked inner (as_keyspace_id stream) (as_file_id stream));;
  on_stream stream (record_run ticket_id range run);;
  mret (mkAppendTicket (as_keyspace_id stream) (as_file_id stream) (as_stream_id stream) ticket_id
    (as_writer_epoch stream) range).
End crc.

(** ** Persisting *)

Definition mark_append_stream_durable (stream : AppendStream) : ST LocalCoordinator Z :=
  on_stream stream mark_durable.

Definition append_stream_prefix_persist_target (stream : AppendStream) : ST LocalCoordinator Z :=
  ask_stream stream (fun state => contiguous_record_tail_from state (ss_durable_through state)).

Definition append_stream_auto_persist_target (stream : AppendStream) (threshold : Z)
    : ST LocalCoordinator (option Z) :=
  st_reject_if (threshold =? 0)
    (InvalidArgument "append stream auto-persist threshold must be greater than zero");;
  ask_stream stream (fun state =>
    contiguous ← contiguous_record_tail_from state (ss_durable_through state);
    let dirty_bytes := saturating_sub contiguous (ss_durable_through state) in
    Ok (if dirty_bytes <? threshold then None else Some contiguous)).

Definition append_stream_private_records_from_durable_through (stream : AppendStream) (end_ : Z)
    : ST LocalCoordinator (Z * list AppendStreamRunRecord) :=
  ask_stream stream (fun state =>
    if end_ <=? ss_durable_through state then Ok (ss_durable_through state, [])
    else
      reject_if (ss_accepted_tail state <? end_)
        (Conflict "append private sync target exceeds accepted stream bytes");;
      tail ← contiguous_record_tail_from state (ss_durable_through state);
      reject_if (tail <? end_)
        (Conflict "append private sync target exceeds contiguous stream records");;
      records ← publish_records state (ss_durable_through state) end_;
      Ok (ss_durable_through state, records)).

Definition mark_append_stream_durable_through (stream : AppendStream) (durable_through : Z)
    : ST LocalCoordinator Z := on_stream stream (mark_durable_through durable_through).

Definition append_stream_durable_high_water_if_reached (stream : AppendStream) (durable_through : Z)
    : ST LocalCoordinator (option Z) :=
  ask_stream stream (fun state =>
    Ok (if ss_durable_through state <? durable_through then None
        else Some (ss_durable_through state))).

Definition append_stream_durable_export_at (stream : AppendStream) (durable_through : Z)
    : ST LocalCoordinator AppendStreamState :=
  ask_stream stream (fun state => durable_export_at state durable_through).

Record AppendStreamPrefixPersistPlan := mkAppendStreamPrefixPersistPlan {
  pp_stream : AppendStream;
  pp_batch : AppendStreamPrefixPersistBatch;
}.

(** One request: its batch, unless it would take a storage node beyond the cap. *)
Definition prefix_persist_plan_step (inner : MetadataInner) (max_batch_bytes : Z)
    (acc : gmap StorageNodeId Z * list AppendStreamPrefixPersistPlan) (request : AppendStream * Z)
    : Result (gmap StorageNodeId Z * list AppendStreamPrefixPersistPlan) :=
  let '(used, plans) := acc in
  let '(stream, durable_through) := request in
  let overflow := InvalidArgument "append batch bytes overflow" in
  state ← token_state inner stream;
  if negb (is_active state) || (durable_through <=? ss_durable_through state) then Ok acc
  else
    batch ← prefix_persist_batch state max_batch_bytes;
    if bool_decide (pb_records batch = []) then Ok acc
    else
      batch_payload_bytes ← payload_bytes_by_storage_node batch;
      let total node bytes := ok_or
        (checked_add U64_MOD (default 0 (used !! node)) bytes) overflow in
      would_exceed ← (if bool_decide (plans = []) then Ok false
        else try_fold (fun (exceeded : bool) entry =>
          next ← total entry.1 entry.2; Ok (exceeded || (max_batch_bytes <? next))) false
          (bt_iter batch_payload_bytes));
      if (would_exceed : bool) then Ok acc
      else
        used ← try_fold (fun (m : gmap StorageNodeId Z) entry =>
            next ← ok_or (checked_add U64_MOD (default 0 (m !! entry.1)) entry.2) overflow;
            Ok (<[entry.1 := next]> m)) used (bt_iter batch_payload_bytes);
        Ok (used,
          plans ++ [mkAppendStreamPrefixPersistPlan (public_stream state) batch]).

Definition append_stream_prefix_persist_plans_for (inner : MetadataInner)
    (requests : list (AppendStream * Z)) (max_batch_bytes : Z)
    : Result (list AppendStreamPrefixPersistPlan) :=
  out ← try_fold (prefix_persist_plan_step inner max_batch_bytes) (∅, []) requests;
  Ok out.2.

(** ** Publishing *)

Definition mark_append_stream_published (stream : AppendStream) (durable_through : Z)
    : ST LocalCoordinator unit := on_stream stream (mark_published durable_through).

(** What a publish through [publish_through] requires of the stream. *)
Definition publish_target_check (state : AppendStreamState) (publish_through : Z) : Result unit :=
  reject_if (publish_through <=? ss_published_through state)
    (InvalidArgument "append publish target must advance published stream prefix");;
  reject_if (ss_accepted_tail state <? publish_through)
    (Conflict "append publish target exceeds accepted stream bytes");;
  tail ← contiguous_record_tail_from state (ss_published_through state);
  reject_if (tail <? publish_through)
    (Conflict "append publish target exceeds contiguous stream records").

Definition append_stream_publish_records (stream : AppendStream) (start end_ : Z)
    : ST LocalCoordinator (list AppendStreamRunRecord) :=
  ask_stream stream (fun state =>
    reject_if (negb (start =? ss_published_through state))
      (Conflict "append publish start no longer matches stream high-water");;
    publish_target_check state end_;;
    publish_records state start end_).

Inductive AppendPublishTicketStatus :=
  | TsPending (stream : AppendStream)
  | TsCompleted (commit : AppendPublishCommit).

(** The ticket is stored before a reuse of its identifier is reported. *)
Definition plane_submit_append_publish (stream : AppendStream) (ticket_id : AppendPublishTicketId)
    (publish_through : Z) : ST LocalCoordinator AppendPublishTicket :=
  ask_metadata (fun inner =>
    state ← token_state inner stream;
    reject_if (append_publish_in_flight_for_file inner (as_keyspace_id stream) (as_file_id stream))
      (Conflict "append publish already in flight for file");;
    publish_target_check state publish_through);;
  let ticket := mkAppendPublishTicket (as_keyspace_id stream) (as_file_id stream)
    (as_stream_id stream) ticket_id (as_writer_epoch stream) publish_through in
  previous ← st_gets (fun c => co_append_publish_tickets c !! ticket_id);
  st_modify (fun c => set_co_append_publish_tickets
    (<[ticket_id := mkAppendPublishTicketRecord ticket None]> (co_append_publish_tickets c)) c);;
  st_reject_if (bool_decide (is_Some previous)) (Conflict "append publish ticket id reused");;
  mret ticket.

Definition append_publish_ticket_status (c : LocalCoordinator) (ticket : AppendPublishTicket)
    : Result AppendPublishTicketStatus :=
  let stale := Conflict "stale append publish ticket" in
  record ← ok_or (co_append_publish_tickets c !! pt_ticket_id ticket) stale;
  reject_if (negb (bool_decide (ptr_ticket record = ticket))) stale;;
  match ptr_completed record with
  | Some commit => Ok (TsCompleted commit)
  | None =>
      let inner := co_metadata c in
      state ← ok_or (append_streams inner !! pt_stream_id ticket) stale;
      stale_state ← (if negb (ss_keyspace_id state =? pt_keyspace_id ticket) ||
          negb (ss_file_id state =? pt_file_id ticket) ||
          negb (ss_stream_id state =? pt_stream_id ticket) ||
          negb (ss_writer_epoch state =? pt_writer_epoch ticket) ||
          negb (is_active state) ||
          (pt_publish_through ticket <=? ss_published_through state) ||
          (ss_accepted_tail state <? pt_publish_through ticket) then Ok true
        else
          tail ← contiguous_record_tail_from state (ss_published_through state);
          Ok (tail <? pt_publish_through ticket));
      reject_if stale_state stale;;
      reject_if (append_publish_in_flight_for_file inner (pt_keyspace_id ticket) (pt_file_id ticket))
        (Conflict "append publish already in flight for file");;
      Ok (TsPending (public_stream state))
  end.

Definition pending_append_publish_tickets (c : LocalCoordinator) : list AppendPublishTicket :=
  ptr_ticket <$> filter (fun record => ptr_completed record = None)
    (bt_values (co_append_publish_tickets c)).

Definition complete_append_publish_ticket (ticket : AppendPublishTicket) (commit : AppendPublishCommit)
    : ST LocalCoordinator unit :=
  let stale := Conflict "stale append publish ticket" in
  record ← st_ask (fun c => ok_or (co_append_publish_tickets c !! pt_ticket_id ticket) stale);
  st_reject_if (negb (bool_decide (ptr_ticket record = ticket))) stale;;
  st_modify (fun c => set_co_append_publish_tickets
    (<[pt_ticket_id ticket := mkAppendPublishTicketRecord (ptr_ticket record) (Some commit)]>
      (co_append_publish_tickets c)) c).
