(* ===== verification/NativeOps.v ===== *)
(** * Native file operations of the coordinator ([local/coordinator.rs])

    Appending to a stream, publishing what was appended, prepared publishes that
    are applied once they are durable, the replay of published records and of
    file deltas ([local/durable/native_file_delta.rs]), and file batches. *)

From S2P Require Import Prelude Api Object TreeEdit Batch Provider Authority Config Catalog.
From S2P Require Import SegmentStore StorageNode Streams NativeApi Plane Coordinator CowTree.
From S2P Require Import ReadPath BlockOps StreamOps.

Definition DEFAULT_NATIVE_FILE_BATCH_MAX_BYTES : Z := 32 * 1024 * 1024.

(** ** Information *)

Definition get_keyspace_info (inner : MetadataInner) (keyspace_id : KeyspaceId) : Result KeyspaceInfo :=
  head ← get_keyspace_head inner keyspace_id;
  Ok (mkKeyspaceInfo keyspace_id (kh_generation head) (kh_latest_commit head) (kh_file_count head)).

Definition get_file_head (inner : MetadataInner) (keyspace_id : KeyspaceId) (file_id : FileId)
    : Result FileHead := file_head_locked inner keyspace_id file_id.

Definition get_file_info (inner : MetadataInner) (keyspace_id : KeyspaceId) (file_id : FileId)
    : Result FileInfo :=
  head ← get_file_head inner keyspace_id file_id;
  Ok (mkFileInfo keyspace_id file_id (fh_size head) (fh_version head)).

(** ** Appending *)

Record PreparedAppendStreamRun := mkPreparedAppendStreamRun {
  par_stream : AppendStream;
  par_ticket_id : AppendTicketId;
  par_range : ByteRange;
  par_storage_node : StorageNodeId;
  par_run_id : AppendRunId;
}.

Definition append_stream_storage_node (stream_id : AppendStreamId) : ST LocalCoordinator StorageNodeId :=
  lane ← st_gets (fun c => co_append_stream_storage_lanes c !! stream_id);
  match lane with
  | Some storage_node =>
      st_ask (fun c => registry_node (co_storage_nodes c) storage_node);; mret storage_node
  | None =>
      candidates ← st_gets (fun c => node_order (co_storage_nodes c));
      storage_node ← on_storage_nodes (choose_storage_node candidates);
      st_modify (fun c => set_co_append_stream_storage_lanes
        (<[stream_id := storage_node]> (co_append_stream_storage_lanes c)) c);;
      mret storage_node
  end.

(** The lower 64 bits of the identifier. *)
Definition append_run_log_id (stream_id : AppendStreamId) : Z := stream_id mod U64_MOD.

Definition prepare_append_stream_run (stream : AppendStream) (data_len : Z)
    (durability : WriteDurability) : ST LocalCoordinator PreparedAppendStreamRun :=
  st_reject_if (data_len =? 0) (InvalidArgument "append payload must not be empty");;
  st_reject_if (bool_decide (durability = Flushed))
    (InvalidArgument "append stream persisted durability is handled by DurableCoordinator");;
  ticket_id ← on_allocator next_raw;
  range ← prepare_append_stream_range stream data_len;
  storage_node ← append_stream_storage_node (as_stream_id stream);
  mret (mkPreparedAppendStreamRun stream ticket_id range storage_node ticket_id).

(** The extents of the records of a publish. *)
Definition run_extents_of (records : list AppendStreamRunRecord) : Result (list RunBackedFileExtent) :=
  try_map (fun record =>
    let extent := mkRunBackedFileExtent (asr_offset record) (asr_len record)
      (AppendLogRun_full_range (asr_run record)) in
    RunExtent_validate extent;;
    Ok extent) records.

Section native_ops.
Context {CR : Crc32cCrate} (config : LocalStoreConfig).

(** The payload is in the log before the run is validated. *)
Definition write_append_run_payload_to_memory (prepared : PreparedAppendStreamRun) (data : list Z)
    (payload_integrity : PayloadIntegrity) : ST LocalCoordinator AppendLogRun :=
  payload_len ← st_lift (len_u64 data (InvalidArgument "append byte length overflows u64"));
  st_reject_if (negb (payload_len =? br_len (par_range prepared)))
    (InvalidArgument "append payload length disagrees with prepared stream range");;
  let stream := par_stream prepared in
  let log_id := append_run_log_id (as_stream_id stream) in
  let key := (par_storage_node prepared, log_id) in
  log ← st_gets (fun c => default [] (co_append_run_logs c !! key));
  st_modify (fun c => set_co_append_run_logs (<[key := log ++ data]> (co_append_run_logs c)) c);;
  let run := mkAppendLogRun (par_run_id prepared) (par_storage_node prepared) (as_stream_id stream)
    (as_writer_epoch stream) (as_keyspace_id stream) (as_file_id stream)
    (br_offset (par_range prepared)) payload_len log_id (usize_to_u64 (Z.of_nat (length log)))
    payload_len (segment_payload_integrity payload_integrity data) in
  st_lift (AppendLogRun_validate run);;
  mret run.

Definition record_prepared_append_stream_run (prepared : PreparedAppendStreamRun) (run : AppendLogRun)
    : ST LocalCoordinator AppendTicket :=
  let stream := par_stream prepared in
  st_reject_if (negb (alr_run_id run =? par_run_id prepared) ||
      negb (alr_storage_node run =? par_storage_node prepared) ||
      negb (alr_stream_id run =? as_stream_id stream) ||
      negb (alr_writer_epoch run =? as_writer_epoch stream) ||
      negb (alr_keyspace_id run =? as_keyspace_id stream) ||
      negb (alr_file_id run =? as_file_id stream) ||
      negb (alr_file_offset_start run =? br_offset (par_range prepared)) ||
      negb (alr_payload_len run =? br_len (par_range prepared)))
    (Corrupt "append run manifest disagrees with prepared stream range");;
  record_append_stream_run stream (par_ticket_id prepared) (par_range prepared) run.

Definition append_stream_with_integrity (stream : AppendStream) (data : list Z)
    (durability : WriteDurability) (payload_integrity : PayloadIntegrity)
    : ST LocalCoordinator AppendTicket :=
  st_reject_if (bool_decide (data = [])) (InvalidArgument "append payload must not be empty");;
  prepared ← prepare_append_stream_run stream (Z.of_nat (length data)) Acknowledged;
  run ← write_append_run_payload_to_memory prepared data payload_integrity;
  ticket ← record_prepared_append_stream_run prepared run;
  (if bool_decide (durability = Flushed) then mark_append_stream_durable stream;; mret tt
   else mret tt);;
  mret ticket.

Definition append_stream (stream : AppendStream) (data : list Z) (durability : WriteDurability)
    : ST LocalCoordinator AppendTicket :=
  append_stream_with_integrity stream data durability Verified.

(** ** Publishing *)

Definition submit_append_publish (stream : AppendStream) (publish_through : Z)
    : ST LocalCoordinator AppendPublishTicket :=
  ticket_id ← on_allocator next_raw;
  plane_submit_append_publish stream ticket_id publish_through.

Definition wait_append_publish (ticket : AppendPublishTicket) (durability : WriteDurability)
    : ST LocalCoordinator AppendPublishCommit :=
  status ← st_ask (fun c => append_publish_ticket_status c ticket);
  match status with
  | TsCompleted commit => mret commit
  | TsPending stream =>
      let keyspace_id := pt_keyspace_id ticket in
      let file_id := pt_file_id ticket in
      let publish_through := pt_publish_through ticket in
      head ← ask_metadata (fun m => get_file_head m keyspace_id file_id);
      unpublished ← append_stream_publish_records stream (fh_size head) publish_through;
      run_extents ← st_lift (run_extents_of unpublished);
      let publish_range := mkByteRange (fh_size head) (wsub64 publish_through (fh_size head)) in
      result ← replace_tree_byte_range_with_run_extents config (fh_root head) publish_range run_extents;
      publish_commit_group_observed config (mkCommitGroupIntent (OwnNativeKeyspace keyspace_id)
        (MfAppendStream (pt_stream_id ticket) (pt_writer_epoch ticket))
        [RuFileRoot file_id (fh_root head) (tr_root result) publish_through]);;
      mark_append_stream_published stream publish_through;;
      committed ← ask_metadata (fun m => get_file_head m keyspace_id file_id);
      let commit := mkAppendPublishCommit keyspace_id file_id publish_range (fh_version committed)
        (fh_latest_commit committed) durability in
      complete_append_publish_ticket ticket commit;;
      mret commit
  end.

Definition publish_append_stream (stream : AppendStream) (publish_through : Z)
    (durability : WriteDurability) : ST LocalCoordinator AppendPublishCommit :=
  ticket ← submit_append_publish stream publish_through;
  wait_append_publish ticket durability.

Definition drop_storage_lane (stream : AppendStream) : ST LocalCoordinator unit :=
  st_modify (fun c => set_co_append_stream_storage_lanes
    (delete (as_stream_id stream) (co_append_stream_storage_lanes c)) c).

Definition release_append_stream (stream : AppendStream) : ST LocalCoordinator unit :=
  plane_release_append_stream stream;; drop_storage_lane stream.
Definition abort_append_stream (stream : AppendStream) : ST LocalCoordinator unit :=
  plane_abort_append_stream stream;; drop_storage_lane stream.

(** ** Prepared publishes *)

Record AppendPublishPlan := mkAppendPublishPlan {
  pl_ticket : AppendPublishTicket;
  pl_stream : AppendStream;
  pl_old_head : FileHead;
  pl_new_head : FileHead;
  pl_new_keyspace_shard : KeyspaceCatalogShard;
  pl_commit_group : CommitGroup;
  pl_keyspace_commit : KeyspaceCommit;
  pl_file_commit : FileCommit;
  pl_commit : AppendPublishCommit;
  pl_publish_range : ByteRange;
  pl_payload_persist_start : Z;
  pl_run_extents : list RunBackedFileExtent;
  pl_visible_publish : AppendVisiblePublish;
  pl_in_flight : AppendPublishInFlight;
}.

(** The loop over the commits in flight, in order. *)
Fixpoint gap_filled (in_flight : list CommitSeq) (expected : Z) : Result (option Z) :=
  match in_flight with
  | [] => Ok (Some expected)
  | seq :: in_flight =>
      if seq <? expected then gap_filled in_flight expected
      else if negb (seq =? expected) then Ok None
      else
        expected ← ok_or (checked_add U64_MOD expected 1)
          (Conflict "append publish commit sequence overflows");
        gap_filled in_flight expected
  end.

Definition append_publish_commit_gap_is_in_flight (metadata : MetadataInner)
    (durable_next_commit_seq local_next_commit_seq : Z) : Result bool :=
  if local_next_commit_seq <? durable_next_commit_seq then Ok false
  else if durable_next_commit_seq =? local_next_commit_seq then Ok true
  else
    let in_flight := sort_by_key id (List.filter (fun seq =>
        (durable_next_commit_seq <=? seq) && (seq <? local_next_commit_seq))
      (if_commit_seq <$> bt_values (append_publish_in_flight metadata))) in
    expected ← gap_filled in_flight durable_next_commit_seq;
    Ok (match expected with Some expected => expected =? local_next_commit_seq | None => false end).

Definition draft_keyspace (metadata : MetadataInner) (drafts : gmap KeyspaceId KeyspaceHead)
    (keyspace_id : KeyspaceId) : Result KeyspaceHead :=
  match drafts !! keyspace_id with
  | Some head => Ok head
  | None => get_keyspace_head metadata keyspace_id
  end.

(** [prepare_append_publish_plan_with_drafts] from the second lock on.  [previous]
    is the next commit sequence of what is already exported. *)
Definition reserve_append_publish (ticket : AppendPublishTicket) (durability : WriteDurability)
    (previous : Z) (drafts : gmap KeyspaceId KeyspaceHead) (stream : AppendStream)
    (old_head : FileHead) (new_root : MetadataNodeId) (publish_range : ByteRange)
    (run_extents : list RunBackedFileExtent)
    : ST MetadataInner (AppendPublishPlan * gmap KeyspaceId KeyspaceHead) :=
  let keyspace_id := pt_keyspace_id ticket in
  let file_id := pt_file_id ticket in
  let publish_through := pt_publish_through ticket in
  metadata ← st_get;
  gap ← st_lift (append_publish_commit_gap_is_in_flight metadata previous (next_commit_seq metadata));
  st_reject_if (negb gap) (Conflict "prepared append publish requires prior metadata durable");;
  st_reject_if (append_publish_in_flight_for_file metadata keyspace_id file_id)
    (Conflict "append publish already in flight for file");;
  current_keyspace ← st_lift (draft_keyspace metadata drafts keyspace_id);
  current_entry ← st_lift (keyspace_file_in_shards metadata (kh_shard_roots current_keyspace) file_id);
  let current := kf_head current_entry in
  st_reject_if (negb (fh_root current =? fh_root old_head) || negb (fh_size current =? fh_size old_head) ||
      negb (fh_version current =? fh_version old_head) ||
      negb (fh_latest_commit current =? fh_latest_commit old_head))
    (Conflict "append publish file head changed before plan");;
  stream_state ← st_lift (ok_or (append_streams metadata !! pt_stream_id ticket)
    (Conflict "stale append publish ticket"));
  st_lift (validate_token stream_state stream);;
  changed ← st_lift (if negb (ss_published_through stream_state =? fh_size old_head) ||
      (publish_through <=? ss_published_through stream_state) ||
      (ss_accepted_tail stream_state <? publish_through) then Ok true
    else
      tail ← contiguous_record_tail_from stream_state (ss_published_through stream_state);
      Ok (tail <? publish_through));
  st_reject_if changed (Conflict "append publish stream state changed before plan");;
  let payload_persist_start := Z.min (ss_durable_through stream_state) publish_through in
  let record_base_writer_epoch :=
    if ss_visible_base_size stream_state <? ss_durable_through stream_state
    then ss_writer_epoch stream_state else ss_base_writer_epoch stream_state in
  new_root_node ← st_lift (get_metadata_node metadata new_root);
  commit_seq ← alloc_commit_seq;
  commit_group_id ← alloc_commit_group_id;
  let commit_group := mkCommitGroup commit_group_id commit_seq (OwnNativeKeyspace keyspace_id)
    [RuFileRoot file_id (fh_root old_head) new_root publish_through] in
  version ← st_lift (next_file_version (fh_version current));
  let new_head := mkFileHead (fh_file_id current) version new_root publish_through commit_seq in
  st_lift (FileHead_validate_transition_from new_head current (mn_covered_range new_root_node)
    (cfg_block_size config));;
  updated ← update_keyspace_file (kh_shard_roots current_keyspace) (kh_file_count current_keyspace)
    file_id (mkKeyspaceFile (kf_name current_entry) new_head);
  let '(shard_index, old_shard, new_keyspace_shard, new_file_count) := updated in
  generation ← st_lift (next_keyspace_generation (kh_generation current_keyspace));
  let new_keyspace_head := advance_keyspace current_keyspace generation commit_seq shard_index
    (kcs_shard_id new_keyspace_shard) new_file_count in
  st_reject_if (U32_MOD <=? shard_index) (InvalidArgument "keyspace shard index overflows u32");;
  let keyspace_commit := mkKeyspaceCommit commit_seq commit_group_id commit_seq keyspace_id shard_index
    old_shard (kcs_shard_id new_keyspace_shard) (kh_file_count current_keyspace) new_file_count in
  let file_commit := mkFileCommit commit_seq commit_group_id commit_seq keyspace_id file_id
    (Some (fh_root old_head)) new_root (Some (fh_version old_head)) version (fh_size old_head)
    publish_through in
  let in_flight := mkAppendPublishInFlight (pt_ticket_id ticket) (pt_stream_id ticket) commit_seq
    (pt_writer_epoch ticket) keyspace_id file_id publish_through (fh_root old_head)
    (fh_size old_head) in
  occupied ← st_gets (fun m => bool_decide (is_Some (append_publish_in_flight m !! pt_ticket_id ticket)));
  st_modify (fun m => set_append_publish_in_flight
    (<[pt_ticket_id ticket := in_flight]> (append_publish_in_flight m)) m);;
  st_reject_if occupied (Conflict "append publish ticket already has in-flight plan");;
  let commit := mkAppendPublishCommit keyspace_id file_id publish_range version commit_seq durability in
  let visible_publish := mkAppendVisiblePublish (pt_ticket_id ticket) commit_seq keyspace_id file_id
    record_base_writer_epoch (pt_writer_epoch ticket) (fh_version old_head) version
    (fh_size old_head) publish_through publish_through run_extents in
  st_lift (AppendVisiblePublish_validate visible_publish);;
  mret (mkAppendPublishPlan ticket stream old_head new_head new_keyspace_shard commit_group
      keyspace_commit file_commit commit publish_range payload_persist_start run_extents
      visible_publish in_flight,
    <[keyspace_id := new_keyspace_head]> drafts).

Definition prepare_append_publish_plan_with_drafts (ticket : AppendPublishTicket)
    (durability : WriteDurability) (previous : Z) (drafts : gmap KeyspaceId KeyspaceHead)
    : ST LocalCoordinator (AppendPublishPlan * gmap KeyspaceId KeyspaceHead) :=
  status ← st_ask (fun c => append_publish_ticket_status c ticket);
  match status with
  | TsCompleted _ => st_lift (Err (Conflict "append publish ticket is already completed"))
  | TsPending stream =>
      old_head ← ask_metadata (fun metadata =>
        current_keyspace ← draft_keyspace metadata drafts (pt_keyspace_id ticket);
        entry ← keyspace_file_in_shards metadata (kh_shard_roots current_keyspace)
          (pt_file_id ticket);
        Ok (kf_head entry));
      unpublished ← append_stream_publish_records stream (fh_size old_head) (pt_publish_through ticket);
      run_extents ← st_lift (run_extents_of unpublished);
      len ← st_lift (ok_or (checked_sub (pt_publish_through ticket) (fh_size old_head))
        (Conflict "append publish range underflows"));
      let publish_range := mkByteRange (fh_size old_head) len in
      result ← replace_tree_byte_range_with_run_extents config (fh_root old_head) publish_range
        run_extents;
      on_metadata (reserve_append_publish ticket durability previous drafts stream old_head
        (tr_root result) publish_range run_extents)
  end.

Definition in_flight_eqb (a b : AppendPublishInFlight) : bool :=
  (if_ticket_id a =? if_ticket_id b) && (if_stream_id a =? if_stream_id b) &&
  (if_commit_seq a =? if_commit_seq b) && (if_writer_epoch a =? if_writer_epoch b) &&
  (if_keyspace_id a =? if_keyspace_id b) && (if_file_id a =? if_file_id b) &&
  (if_publish_through a =? if_publish_through b) && (if_old_root a =? if_old_root b) &&
  (if_old_size a =? if_old_size b).

Definition cancel_append_publish_plan (plan : AppendPublishPlan) : ST LocalCoordinator unit :=
  on_metadata (st_modify (fun m =>
    match append_publish_in_flight m !! pt_ticket_id (pl_ticket plan) with
    | Some current =>
        if in_flight_eqb current (pl_in_flight plan) then
          set_append_publish_in_flight
            (delete (pt_ticket_id (pl_ticket plan)) (append_publish_in_flight m)) m
        else m
    | None => m
    end)).

Definition plan_check (plan : AppendPublishPlan) : Result unit :=
  try_for RunExtent_validate (pl_run_extents plan);;
  expected_publish_len ← ok_or
    (checked_sub (if_publish_through (pl_in_flight plan)) (fh_size (pl_old_head plan)))
    (Corrupt "append publish plan range underflows");
  reject_if (negb (br_offset (pl_publish_range plan) =? fh_size (pl_old_head plan)) ||
      negb (br_len (pl_publish_range plan) =? expected_publish_len) ||
      negb (fh_root (pl_new_head plan) =? fc_new_root (pl_file_commit plan)) ||
      negb (fh_size (pl_new_head plan) =? fc_new_size (pl_file_commit plan)) ||
      negb (fh_version (pl_new_head plan) =? fc_new_version (pl_file_commit plan)) ||
      negb (fh_latest_commit (pl_new_head plan) =? pc_commit_seq (pl_commit plan)) ||
      negb (if_old_root (pl_in_flight plan) =? fh_root (pl_old_head plan)) ||
      negb (if_old_size (pl_in_flight plan) =? fh_size (pl_old_head plan)))
    (Corrupt "append publish plan range is invalid").

Definition keyspace_commit_key (c : KeyspaceCommit) : list Z := [kc_commit_seq c; kc_shard_index c].
Definition file_commit_key (c : FileCommit) : list Z := [fc_commit_seq c; fc_keyspace_id c; fc_file_id c].

(** The stream of a plan is advanced: both marks, then the records. *)
Definition advance_stream (publish_through : Z) : ST AppendStreamState unit :=
  stream ← st_get;
  st_put (set_stream stream (ss_accepted_tail stream)
    (Z.max (ss_durable_through stream) publish_through) publish_through (ss_status stream)
    (ss_records stream));;
  retained ← st_lift (retain_after publish_through (ss_records stream));
  st_modify (fun s => set_stream s (ss_accepted_tail s) (ss_durable_through s)
    (ss_published_through s) (ss_status s) retained).

(** The part of [apply_append_publish_plan] under the lock of the plane.  The
    stream is advanced before the catalog shard is checked. *)
Definition apply_plan_locked (plan : AppendPublishPlan) : ST MetadataInner unit :=
  let ticket := pl_ticket plan in
  metadata ← st_get;
  current_in_flight ← st_lift (ok_or (append_publish_in_flight metadata !! pt_ticket_id ticket)
    (Corrupt "prepared append publish is not in flight"));
  st_reject_if (negb (in_flight_eqb current_in_flight (pl_in_flight plan)))
    (Corrupt "prepared append publish in-flight marker changed");;
  current_keyspace ← st_lift (get_keyspace_head metadata (pt_keyspace_id ticket));
  current_entry ← st_lift (keyspace_file_in_shards metadata (kh_shard_roots current_keyspace)
    (pt_file_id ticket));
  let current := kf_head current_entry in
  let old_head := pl_old_head plan in
  st_reject_if (negb (fh_root current =? fh_root old_head) || negb (fh_size current =? fh_size old_head) ||
      negb (fh_version current =? fh_version old_head) ||
      negb (fh_latest_commit current =? fh_latest_commit old_head))
    (Corrupt "prepared append publish file head changed before apply");;
  stream ← st_lift (ok_or (append_streams metadata !! pt_stream_id ticket)
    (Conflict "stale append stream"));
  st_lift (validate_token stream (pl_stream plan));;
  st_reject_if (negb (ss_published_through stream =? fh_size old_head))
    (Corrupt "prepared append publish stream state changed before apply");;
  let '(r, stream') := advance_stream (pt_publish_through ticket) stream in
  st_modify (fun m => set_append_streams (<[pt_stream_id ticket := stream']> (append_streams m)) m);;
  st_lift r;;
  let keyspace_commit := pl_keyspace_commit plan in
  let shard_index := kc_shard_index keyspace_commit in
  st_reject_if (negb (bool_decide (kh_shard_roots current_keyspace !! Z.to_nat shard_index =
      Some (kc_old_shard keyspace_commit))))
    (Corrupt "prepared append publish catalog shard changed before apply");;
  let file_count := kh_file_count current_keyspace in
  let keyspace_commit := mkKeyspaceCommit (kc_commit_seq keyspace_commit)
    (kc_commit_group keyspace_commit) (kc_time keyspace_commit) (kc_keyspace_id keyspace_commit)
    shard_index (kc_old_shard keyspace_commit) (kc_new_shard keyspace_commit) file_count file_count in
  generation ← st_lift (next_keyspace_generation (kh_generation current_keyspace));
  let new_keyspace_head := advance_keyspace current_keyspace generation
    (Z.max (kh_latest_commit current_keyspace) (pc_commit_seq (pl_commit plan))) shard_index
    (kcs_shard_id (pl_new_keyspace_shard plan)) file_count in
  put_keyspace_head (pt_keyspace_id ticket) new_keyspace_head;;
  st_modify (fun m => set_keyspace_catalog_shards
    (<[kcs_shard_id (pl_new_keyspace_shard plan) := pl_new_keyspace_shard plan]>
      (keyspace_catalog_shards m)) m);;
  st_modify (fun m => set_keyspace_commits
    (sort_by_tuple keyspace_commit_key (keyspace_commits m ++ [keyspace_commit])) m);;
  st_modify (fun m => set_file_commits
    (sort_by_tuple file_commit_key (file_commits m ++ [pl_file_commit plan])) m);;
  put_commit_group (pl_commit_group plan);;
  st_modify (fun m => set_file_writer_epochs
    (<[(pt_keyspace_id ticket, pt_file_id ticket) := pt_writer_epoch ticket]>
      (file_writer_epochs m)) m);;
  st_modify (fun m => set_append_publish_in_flight
    (delete (pt_ticket_id ticket) (append_publish_in_flight m)) m).

Definition apply_append_publish_plan (plan : AppendPublishPlan) : ST LocalCoordinator AppendPublishCommit :=
  let stale := Conflict "stale append publish ticket" in
  st_lift (plan_check plan);;
  record ← st_ask (fun c => ok_or (co_append_publish_tickets c !! pt_ticket_id (pl_ticket plan)) stale);
  st_reject_if (negb (bool_decide (ptr_ticket record = pl_ticket plan)) ||
      bool_decide (is_Some (ptr_completed record))) stale;;
  on_metadata (apply_plan_locked plan);;
  complete_append_publish_ticket (pl_ticket plan) (pl_commit plan);;
  mret (pl_commit plan).

(** ** Replaying a published record *)

Definition append_visible_publish_already_materialized (head : FileHead) (record : AppendVisiblePublish)
    : bool :=
  (avp_new_file_version record <=? fh_version head) && (avp_new_size record <=? fh_size head) &&
  (avp_commit_seq record <=? fh_latest_commit head).

(** What is read of the file under one lock; [None] when the record is already
    reflected by the head. *)
Definition materialize_base (metadata : MetadataInner) (record : AppendVisiblePublish)
    : Result (option (KeyspaceHead * KeyspaceFile * WriterEpoch)) :=
  let keyspace_id := avp_keyspace_id record in
  let file_id := avp_file_id record in
  keyspace_head ← get_keyspace_head metadata keyspace_id;
  entry ← keyspace_file_in_shards metadata (kh_shard_roots keyspace_head) file_id;
  if append_visible_publish_already_materialized (kf_head entry) record then Ok None
  else Ok (Some (keyspace_head, entry, default 0 (file_writer_epochs metadata !! (keyspace_id, file_id)))).

Definition record_fits (record : AppendVisiblePublish) (head : FileHead) : Result unit :=
  AppendVisiblePublish_validate_for_reconstructed_head record (avp_keyspace_id record)
    (avp_file_id record) (fh_version head) (fh_size head) (fh_latest_commit head).

(** The second lock of [materialize_append_visible_publish_record]. *)
Definition materialize_locked (record : AppendVisiblePublish) (old_entry : KeyspaceFile)
    (file_writer_epoch : WriterEpoch) (new_root : MetadataNodeId) (new_root_node : MetadataNode)
    : ST MetadataInner unit :=
  let keyspace_id := avp_keyspace_id record in
  let file_id := avp_file_id record in
  let commit_seq := avp_commit_seq record in
  let old_head := kf_head old_entry in
  base ← st_ask (fun metadata => materialize_base metadata record);
  match base with
  | None => mret tt
  | Some (current_keyspace, current_entry, current_writer_epoch) =>
      st_reject_if (negb (bool_decide (kf_head current_entry = old_head)))
        (Conflict "append visible publish file head changed before materialization");;
      st_reject_if (negb (current_writer_epoch =? file_writer_epoch))
        (Conflict "append visible publish writer epoch changed before materialization");;
      st_lift (record_fits record (kf_head current_entry));;
      exists_ ← st_gets (fun m => existsb (fun group => cg_commit_seq group =? commit_seq)
        (bt_values (commit_groups m)));
      st_reject_if exists_ (Corrupt "append visible publish commit sequence already exists");;
      commit_group_id ← alloc_commit_group_id;
      let commit_group := mkCommitGroup commit_group_id commit_seq (OwnNativeKeyspace keyspace_id)
        [RuFileRoot file_id (fh_root old_head) new_root (avp_new_size record)] in
      let new_head := mkFileHead (fh_file_id (kf_head current_entry)) (avp_new_file_version record)
        new_root (avp_new_size record) commit_seq in
      st_lift (FileHead_validate_transition_from new_head (kf_head current_entry)
        (mn_covered_range new_root_node) (cfg_block_size config));;
      updated ← update_keyspace_file (kh_shard_roots current_keyspace)
        (kh_file_count current_keyspace) file_id (mkKeyspaceFile (kf_name old_entry) new_head);
      let '(shard_index, old_shard, new_keyspace_shard, new_file_count) := updated in
      generation ← st_lift (next_keyspace_generation (kh_generation current_keyspace));
      let new_keyspace_head := advance_keyspace current_keyspace generation
        (if kh_latest_commit current_keyspace <? commit_seq then commit_seq
         else kh_latest_commit current_keyspace) shard_index (kcs_shard_id new_keyspace_shard)
        new_file_count in
      st_reject_if (U32_MOD <=? shard_index) (InvalidArgument "keyspace shard index overflows u32");;
      let keyspace_commit := mkKeyspaceCommit commit_seq commit_group_id commit_seq keyspace_id
        shard_index old_shard (kcs_shard_id new_keyspace_shard) (kh_file_count current_keyspace)
        new_file_count in
      let file_commit := mkFileCommit commit_seq commit_group_id commit_seq keyspace_id file_id
        (Some (fh_root old_head)) new_root (Some (fh_version old_head)) (avp_new_file_version record)
        (fh_size old_head) (avp_new_size record) in
      next ← st_lift (ok_or (checked_add U64_MOD commit_seq 1) (Conflict "commit sequence overflow"));
      st_modify (fun m => set_next_commit_seq (Z.max (next_commit_seq m) next) m);;
      put_keyspace_head keyspace_id new_keyspace_head;;
      st_modify (fun m => set_keyspace_catalog_shards
        (<[kcs_shard_id new_keyspace_shard := new_keyspace_shard]> (keyspace_catalog_shards m)) m);;
      put_commit_group commit_group;;
      st_modify (fun m => set_keyspace_commits
        (sort_by_tuple keyspace_commit_key (keyspace_commits m ++ [keyspace_commit])) m);;
      st_modify (fun m => set_file_commits
        (sort_by_tuple file_commit_key (file_commits m ++ [file_commit])) m);;
      st_modify (fun m => set_file_writer_epochs
        (<[(keyspace_id, file_id) := Z.max current_writer_epoch (avp_writer_epoch record)]>
          (file_writer_epochs m)) m)
  end.

Definition materialize_append_visible_publish_record (record : AppendVisiblePublish)
    : ST LocalCoordinator unit :=
  st_lift (AppendVisiblePublish_validate record);;
  base ← ask_metadata (fun metadata =>
    base ← materialize_base metadata record;
    match base with
    | None => Ok None
    | Some (_, entry, epoch) => record_fits record (kf_head entry);; Ok (Some (entry, epoch))
    end);
  match base with
  | None => mret tt
  | Some (old_entry, file_writer_epoch) =>
      let old_head := kf_head old_entry in
      publish_len ← st_lift (ok_or (checked_sub (avp_new_size record) (fh_size old_head))
        (Corrupt "append visible publish range underflows"));
      result ← replace_tree_byte_range_with_run_extents config (fh_root old_head)
        (mkByteRange (fh_size old_head) publish_len) (avp_run_extents record);
      new_root_node ← ask_metadata (fun m => get_metadata_node m (tr_root result));
      on_metadata (materialize_locked record old_entry file_writer_epoch (tr_root result) new_root_node)
  end.

(** ** File batches *)

Record NativeFileReceiptEdit := mkNativeFileReceiptEdit {
  nfe_range : BlockRange;
  nfe_receipt : VerifiedSegmentReceipt;
}.

Record NativeFileReceiptPublish := mkNativeFileReceiptPublish {
  nfp_keyspace_id : KeyspaceId;
  nfp_file_id : FileId;
  nfp_base_version : FileVersion;
  nfp_committed_range : ByteRange;
  nfp_new_size : Z;
  nfp_edits : list NativeFileReceiptEdit;
  nfp_durability : WriteDurability;
}.

Inductive NativeFileDeltaReplacement :=
  | NdSegment (segment_id : SegmentId) (segment_offset : BlockIndex).

Record NativeFileDeltaEntry := mkNativeFileDeltaEntry {
  nde_range : BlockRange;
  nde_replacement : NativeFileDeltaReplacement;
}.

Record NativeFileDeltaCommit := mkNativeFileDeltaCommit {
  ndc_keyspace_id : KeyspaceId;
  ndc_file_id : FileId;
  ndc_commit_seq : CommitSeq;
  ndc_base_file_version : FileVersion;
  ndc_new_file_version : FileVersion;
  ndc_old_size : Z;
  ndc_new_size : Z;
  ndc_write_count : Z;
  ndc_collapsed_range_count : Z;
  ndc_committed_bytes : Z;
  ndc_entries : list NativeFileDeltaEntry;
}.

Record NativeFileCommitWithDelta := mkNativeFileCommitWithDelta {
  nfd_commit : FileWriteCommit;
  nfd_delta : option NativeFileDeltaCommit;
}.

Definition NativeFileDeltaReplacement_segment_id (self : NativeFileDeltaReplacement) : SegmentId :=
  match self with NdSegment segment_id _ => segment_id end.

Definition NativeFileDeltaCommit_segment_ids (self : NativeFileDeltaCommit) : gset SegmentId :=
  list_to_set ((fun entry => NativeFileDeltaReplacement_segment_id (nde_replacement entry)) <$>
    ndc_entries self).

Definition outside_root : StorageError :=
  InvalidArgument "native file batch exceeds file root coverage".

(** One edit of the file's tree; the root so far. *)
Definition publish_edit (root : MetadataNode) (new_root : MetadataNodeId) (edit : NativeFileReceiptEdit)
    : ST LocalCoordinator MetadataNodeId :=
  contains ← st_lift (BlockRange_contains_range (mn_covered_range root) (nfe_range edit));
  st_reject_if (negb contains) outside_root;;
  expected_segment_bytes ← st_lift (ok_or
    (checked_mul U64_MOD (bk_blocks (nfe_range edit)) (cfg_block_size config))
    (InvalidArgument "native write segment length overflows"));
  let descriptor := vr_descriptor (nfe_receipt edit) in
  st_reject_if (negb (sd_bytes descriptor =? expected_segment_bytes))
    (Conflict "native write receipt byte count does not match metadata intent");;
  result ← replace_tree_range_with_receipts config new_root
    (mkTreeRangeEdit (nfe_range edit)
      (Some (mkSegmentReplacement (sd_segment_id descriptor) (bk_start (nfe_range edit)))))
    [nfe_receipt edit];
  mret (tr_root result).

Definition publish_native_file_receipt_edits_with_delta (publish : NativeFileReceiptPublish)
    (write_count collapsed_range_count committed_bytes : Z)
    : ST LocalCoordinator NativeFileCommitWithDelta :=
  let keyspace_id := nfp_keyspace_id publish in
  let file_id := nfp_file_id publish in
  head ← ask_metadata (fun m => get_file_head m keyspace_id file_id);
  st_reject_if (negb (fh_version head =? nfp_base_version publish))
    (Conflict "stale native file version");;
  if bool_decide (nfp_edits publish = []) then
    mret (mkNativeFileCommitWithDelta (mkFileWriteCommit keyspace_id file_id
      (nfp_committed_range publish) (fh_version head) (fh_latest_commit head)
      (nfp_durability publish)) None)
  else
    root ← ask_metadata (fun m => get_metadata_node m (fh_root head));
    new_root ← st_fold (publish_edit root) (fh_root head) (nfp_edits publish);
    commit_group ← publish_commit_group_observed config (mkCommitGroupIntent
      (OwnNativeKeyspace keyspace_id) (MfFileVersion (nfp_base_version publish))
      [RuFileRoot file_id (fh_root head) new_root (nfp_new_size publish)]);
    st_for (fun edit => on_storage_nodes (Registry_mark_segment_referenced
      (vr_receipt (nfe_receipt edit)) (cg_commit_seq commit_group))) (nfp_edits publish);;
    invalidate_append_streams_for_file keyspace_id file_id;;
    committed ← ask_metadata (fun m => get_file_head m keyspace_id file_id);
    let commit := mkFileWriteCommit keyspace_id file_id (nfp_committed_range publish)
      (fh_version committed) (fh_latest_commit committed) (nfp_durability publish) in
    let entries := (fun edit => mkNativeFileDeltaEntry (nfe_range edit)
      (NdSegment (sd_segment_id (vr_descriptor (nfe_receipt edit))) 0)) <$> nfp_edits publish in
    mret (mkNativeFileCommitWithDelta commit (Some (mkNativeFileDeltaCommit keyspace_id file_id
      (fwc_commit_seq commit) (nfp_base_version publish) (fwc_version commit) (fh_size head)
      (nfp_new_size publish) write_count collapsed_range_count committed_bytes entries))).

Definition publish_native_file_receipt_edits (publish : NativeFileReceiptPublish)
    : ST LocalCoordinator FileWriteCommit :=
  let edit_count := usize_to_u64 (Z.of_nat (length (nfp_edits publish))) in
  committed ← publish_native_file_receipt_edits_with_delta publish edit_count edit_count
    (br_len (nfp_committed_range publish));
  mret (nfd_commit committed).

(** The bytes of a group: what is preserved of the file, overlaid with the writes. *)
Definition group_bytes (keyspace_id : KeyspaceId) (file_id : FileId) (head : FileHead)
    (collapsed : list CollapsedFileWrite) (group : NativeBatchSegmentGroup) (segment_len : Z)
    : ST LocalCoordinator (list Z) :=
  let writes := slice collapsed (ng_first_write group) (ng_last_write group - ng_first_write group) in
  segment_bytes ← (if ng_start group <? fh_size head then
      let preserved_len := Z.min (saturating_sub (fh_size head) (ng_start group)) segment_len in
      let preserved_range := mkByteRange (ng_start group) preserved_len in
      fully_covered ← st_lift (native_batch_writes_cover_range writes preserved_range);
      if (fully_covered : bool) then mret (zeros segment_len)
      else
        preserved ← st_ask (fun c =>
          plan ← resolve_file_read_plan config c keyspace_id file_id preserved_range;
          assemble_read_plan c plan RvDefault (zeros preserved_len));
        mret (splice (zeros segment_len) 0 preserved)
    else mret (zeros segment_len));
  st_lift (overlay_native_batch_writes (ng_start group) writes segment_bytes).

Definition write_group (keyspace_id : KeyspaceId) (file_id : FileId) (head : FileHead)
    (root : MetadataNode) (collapsed : list CollapsedFileWrite) (durability : WriteDurability)
    (payload_integrity : PayloadIntegrity) (group : NativeBatchSegmentGroup)
    : ST LocalCoordinator NativeFileReceiptEdit :=
  let block_size := cfg_block_size config in
  segment_len ← st_lift (ok_or (checked_sub (ng_end group) (ng_start group))
    (InvalidArgument "native batch segment range underflows"));
  segment_blocks ← st_lift (blocks_for_bytes segment_len block_size);
  let write_range := mkBlockRange (ng_start group / block_size) segment_blocks in
  contains ← st_lift (BlockRange_contains_range (mn_covered_range root) write_range);
  st_reject_if (negb contains) outside_root;;
  segment_bytes ← group_bytes keyspace_id file_id head collapsed group segment_len;
  write_intent ← next_write_intent;
  verified_receipt ← write_segment_for_intent
    (IntentNativeWrite keyspace_id file_id (mkByteRange (ng_start group) segment_len) (fh_version head))
    write_intent segment_bytes durability payload_integrity;
  mret (mkNativeFileReceiptEdit write_range verified_receipt).

Definition commit_file_batch_with_delta_and_integrity (keyspace_id : KeyspaceId) (file_id : FileId)
    (writes : list FileBatchWrite) (durability : WriteDurability)
    (payload_integrity : PayloadIntegrity) : ST LocalCoordinator NativeFileCommitWithDelta :=
  head ← ask_metadata (fun m => get_file_head m keyspace_id file_id);
  out ← st_lift (collapse_native_file_batch_writes writes (fh_size head)
    DEFAULT_NATIVE_FILE_BATCH_MAX_BYTES);
  let '(collapsed, range, new_size) := out in
  if bool_decide (collapsed = []) then
    mret (mkNativeFileCommitWithDelta (mkFileWriteCommit keyspace_id file_id range (fh_version head)
      (fh_latest_commit head) durability) None)
  else
    root ← ask_metadata (fun m => get_metadata_node m (fh_root head));
    groups ← st_lift (native_batch_segment_groups collapsed (cfg_block_size config));
    edits ← st_map (write_group keyspace_id file_id head root collapsed durability payload_integrity)
      groups;
    let committed_bytes := fold_left (fun total write =>
      Z.min U64_MAX (total + usize_to_u64 (Z.of_nat (length (cf_bytes write))))) collapsed 0 in
    publish_native_file_receipt_edits_with_delta
      (mkNativeFileReceiptPublish keyspace_id file_id (fh_version head) range new_size edits durability)
      (usize_to_u64 (Z.of_nat (length writes))) (usize_to_u64 (Z.of_nat (length collapsed)))
      committed_bytes.

Definition commit_file_batch_with_integrity (keyspace_id : KeyspaceId) (file_id : FileId)
    (writes : list FileBatchWrite) (durability : WriteDurability)
    (payload_integrity : PayloadIntegrity) : ST LocalCoordinator FileWriteCommit :=
  committed ← commit_file_batch_with_delta_and_integrity keyspace_id file_id writes durability
    payload_integrity;
  mret (nfd_commit committed).

Definition commit_file_batch (keyspace_id : KeyspaceId) (file_id : FileId)
    (writes : list FileBatchWrite) (durability : WriteDurability)
    : ST LocalCoordinator FileWriteCommit :=
  commit_file_batch_with_integrity keyspace_id file_id writes durability Verified.

(** ** Direct writes of a file *)

Definition issue_native_write_grant (keyspace_id : KeyspaceId) (file_id : FileId) (range : ByteRange)
    (segment_bytes : Z) (durability : WriteDurability) : ST LocalCoordinator WriteGrant :=
  st_reject_if ((br_len range =? 0) || (segment_bytes =? 0))
    (InvalidArgument "native write grant must contain bytes");;
  head ← ask_metadata (fun m => get_file_head m keyspace_id file_id);
  candidates ← st_gets (fun c => node_order (co_storage_nodes c));
  storage_node ← on_storage_nodes (choose_storage_node candidates);
  segment_id ← on_storage_nodes allocate_segment_id;
  write_intent ← next_write_intent;
  st_lift (issue_write_grant (mkWriteGrantRequest LOCAL_TENANT_ID LOCAL_PRINCIPAL_ID
    (IntentNativeWrite keyspace_id file_id range (fh_version head)) write_intent segment_id
    storage_node segment_bytes Verified durability LOCAL_GRANT_EXPIRATION)).

Definition submit_native_write_receipt (grant : WriteGrant) (receipt : SegmentWriteReceipt)
    : ST LocalCoordinator FileWriteCommit :=
  verified ← verify_receipt_matches_grant_observed grant receipt;
  match sr_intent receipt with
  | IntentNativeWrite keyspace_id file_id range base_version =>
      st_reject_if (negb (bool_decide (sr_owner receipt = OwnNativeKeyspace keyspace_id)))
        (Conflict "receipt owner does not match native keyspace intent");;
      end_ ← st_lift (ByteRange_end_exclusive range);
      let block_size := cfg_block_size config in
      let first_block := br_offset range / block_size in
      requested_start ← st_lift (ok_or (checked_mul U64_MOD first_block block_size)
        (InvalidArgument "native write range overflows"));
      segment_blocks ← st_lift (blocks_for_bytes (wsub64 end_ requested_start) block_size);
      head ← ask_metadata (fun m => get_file_head m keyspace_id file_id);
      publish_native_file_receipt_edits (mkNativeFileReceiptPublish keyspace_id file_id base_version
        range (Z.max (fh_size head) end_)
        [mkNativeFileReceiptEdit (mkBlockRange first_block segment_blocks) verified]
        (sr_durability receipt))
  | _ => st_lift (Err (InvalidArgument "trusted native write publish requires a native write receipt"))
  end.

(** ** Replaying a file delta *)

Definition replay_file_entry (root : MetadataNode) (all_receipts : list VerifiedSegmentReceipt)
    (new_root : MetadataNodeId) (entry : NativeFileDeltaEntry) : ST LocalCoordinator MetadataNodeId :=
  contains ← st_lift (BlockRange_contains_range (mn_covered_range root) (nde_range entry));
  st_reject_if (negb contains) (Corrupt "native file delta range exceeds file root coverage");;
  replacement ← match nde_replacement entry with
    | NdSegment segment_id segment_offset =>
        segment_base ← st_lift (ok_or (checked_sub (bk_start (nde_range entry)) segment_offset)
          (Corrupt "native file delta segment offset exceeds logical start"));
        mret (mkSegmentReplacement segment_id segment_base)
    end;
  result ← replace_tree_range_with_receipts config new_root
    (mkTreeRangeEdit (nde_range entry) (Some replacement)) all_receipts;
  mret (tr_root result).

Definition replay_native_file_delta_commit (commit : NativeFileDeltaCommit) : ST LocalCoordinator unit :=
  let keyspace_id := ndc_keyspace_id commit in
  let file_id := ndc_file_id commit in
  st_reject_if (bool_decide (ndc_entries commit = []))
    (Corrupt "native file delta commit has no entries");;
  current ← ask_metadata (fun m => get_file_head m keyspace_id file_id);
  st_reject_if (negb (fh_version current =? ndc_base_file_version commit) ||
      negb (fh_size current =? ndc_old_size commit))
    (Corrupt "native file delta base head disagrees with replay state");;
  on_metadata (st_modify (set_next_commit_seq (ndc_commit_seq commit)));;
  receipts ← st_fold delta_receipt ∅ (bs_iter (NativeFileDeltaCommit_segment_ids commit));
  root ← ask_metadata (fun m => get_metadata_node m (fh_root current));
  new_root ← st_fold (replay_file_entry root (bt_values receipts)) (fh_root current)
    (sort_by_key (fun entry => bk_start (nde_range entry)) (ndc_entries commit));
  group ← publish_commit_group_observed config (mkCommitGroupIntent (OwnNativeKeyspace keyspace_id)
    (MfFileVersion (ndc_base_file_version commit))
    [RuFileRoot file_id (fh_root current) new_root (ndc_new_size commit)]);
  st_reject_if (negb (cg_commit_seq group =? ndc_commit_seq commit))
    (Corrupt "native file delta replay produced unexpected commit sequence");;
  replayed ← ask_metadata (fun m => get_file_head m keyspace_id file_id);
  st_reject_if (negb (fh_version replayed =? ndc_new_file_version commit) ||
      negb (fh_size replayed =? ndc_new_size commit))
    (Corrupt "native file delta replay produced unexpected file head");;
  st_for (fun receipt => on_storage_nodes
    (Registry_mark_segment_referenced (vr_receipt receipt) (ndc_commit_seq commit))) (bt_values receipts);;
  invalidate_append_streams_for_file keyspace_id file_id.
End native_ops.
