(* ===== verification/Server.v ===== *)
(** * Request servers ([local/server.rs], [local/transport/in_process.rs])

    The block server and the native server run a request against the coordinator
    at most once per request identity: the outcome, an error included, is
    remembered under the client epoch and the request identifier and returned to
    every retry.  The lock stripes only serialise requests for one target and
    have no state. *)

From S2P Require Import Prelude Api Object Batch Provider Config Streams NativeApi Plane.
From S2P Require Import Coordinator ReadPath BlockOps StreamOps NativeOps.

Definition SERVER_LOCK_STRIPES : Z := 64.

Definition stripe_for_raw (raw : Z) : Z := raw mod SERVER_LOCK_STRIPES.

Definition block_request_stripe (request : BlockRequest) : Z :=
  match BlockRequest_target_device_id request with
  | Some device_id => stripe_for_raw device_id
  | None => 0
  end.

Definition native_request_stripe (request : NativeRequest) : Z :=
  match NativeRequest_target_keyspace_id request, NativeRequest_target_file_id request with
  | Some keyspace_id, Some file_id =>
      stripe_for_raw (Z.lxor ((keyspace_id * 1099511628211) mod U128_MOD) file_id)
  | Some keyspace_id, None => stripe_for_raw keyspace_id
  | None, _ => 0
  end.

(** ** Equality of requests *)

#[export] Instance FlushScope_eq_dec : EqDecision FlushScope.
Proof. solve_decision. Defined.
#[export] Instance CreateDeviceRequest_eq_dec : EqDecision CreateDeviceRequest.
Proof. solve_decision. Defined.
#[export] Instance BlockBatchWrite_eq_dec : EqDecision BlockBatchWrite.
Proof. solve_decision. Defined.
#[export] Instance ForkRequest_eq_dec : EqDecision ForkRequest.
Proof. solve_decision. Defined.
#[export] Instance RestorePoint_eq_dec : EqDecision RestorePoint.
Proof. solve_decision. Defined.
#[export] Instance BlockRequest_eq_dec : EqDecision BlockRequest.
Proof. solve_decision. Defined.
#[export] Instance CreateKeyspaceRequest_eq_dec : EqDecision CreateKeyspaceRequest.
Proof. solve_decision. Defined.
#[export] Instance FileSpec_eq_dec : EqDecision FileSpec.
Proof. solve_decision. Defined.
#[export] Instance CreateFileRequest_eq_dec : EqDecision CreateFileRequest.
Proof. solve_decision. Defined.
#[export] Instance SnapshotKeyspaceRequest_eq_dec : EqDecision SnapshotKeyspaceRequest.
Proof. solve_decision. Defined.
#[export] Instance FileBatchWrite_eq_dec : EqDecision FileBatchWrite.
Proof. solve_decision. Defined.
#[export] Instance AppendStream_eq_dec : EqDecision AppendStream.
Proof. solve_decision. Defined.
#[export] Instance NativeRequest_eq_dec : EqDecision NativeRequest.
Proof. solve_decision. Defined.

(** ** The traits *)

Class BlockServer (S : Type) :=
  block_handle : BlockRequestEnvelope -> ST S BlockResponseEnvelope.
Class NativeServer (S : Type) :=
  native_handle : NativeRequestEnvelope -> ST S NativeResponseEnvelope.
Class BlockTransport (S : Type) :=
  block_call : BlockRequestEnvelope -> ST S BlockResponseEnvelope.
Class NativeTransport (S : Type) :=
  native_call : NativeRequestEnvelope -> ST S NativeResponseEnvelope.

(** ** Remembered requests

    The two servers differ in the types of requests and responses and in how a
    request is executed. *)

Record CachedRequest (Rq Env : Type) := mkCachedRequest {
  cq_request : Rq;
  cq_result : Result Env;
}.
Arguments mkCachedRequest {Rq Env} _ _.
Arguments cq_request {Rq Env} _.
Arguments cq_result {Rq Env} _.

Record RequestServer (Rq Env : Type) := mkRequestServer {
  rs_store : LocalCoordinator;
  rs_request_log : list RequestId;
  rs_responses : gmap (ClientEpoch * RequestId) (CachedRequest Rq Env);
}.
Arguments mkRequestServer {Rq Env} _ _ _.
Arguments rs_store {Rq Env} _.
Arguments rs_request_log {Rq Env} _.
Arguments rs_responses {Rq Env} _.

Section dedupe.
Context {Rq Rs Env : Type} `{!EqDecision Rq}.
Context (respond : RequestId -> Rs -> Env) (execute : Rq -> ST LocalCoordinator Rs)
  (reused : StorageError).

Definition RequestServer_new (store : LocalCoordinator) : RequestServer Rq Env :=
  mkRequestServer store [] ∅.

Definition cached_response (self : RequestServer Rq Env) (client_epoch : ClientEpoch)
    (request_id : RequestId) (request : Rq) : Result (option Env) :=
  match rs_responses self !! (client_epoch, request_id) with
  | None => Ok None
  | Some cached =>
      reject_if (negb (bool_decide (cq_request cached = request))) reused;;
      response ← cq_result cached;
      Ok (Some response)
  end.

Definition remember_response (client_epoch : ClientEpoch) (request_id : RequestId) (request : Rq)
    (result : Result Env) : ST (RequestServer Rq Env) Env :=
  st_modify (fun self => mkRequestServer (rs_store self) (rs_request_log self)
    (<[(client_epoch, request_id) := mkCachedRequest request result]> (rs_responses self)));;
  st_lift result.

Definition push_request_log (request_id : RequestId) : ST (RequestServer Rq Env) unit :=
  st_modify (fun self => mkRequestServer (rs_store self) (rs_request_log self ++ [request_id])
    (rs_responses self)).

(** Run on the store; the outcome is a value, not an early return. *)
Definition run_on_store (request : Rq) : ST (RequestServer Rq Env) (Result Rs) :=
  fun self =>
    let '(response, store) := execute request (rs_store self) in
    (Ok response, mkRequestServer store (rs_request_log self) (rs_responses self)).

Definition serve (client_epoch : ClientEpoch) (request_id : RequestId) (request : Rq)
    : ST (RequestServer Rq Env) Env :=
  cached ← st_ask (fun self => cached_response self client_epoch request_id request);
  match cached with
  | Some response => mret response
  | None =>
      push_request_log request_id;;
      response ← run_on_store request;
      remember_response client_epoch request_id request (respond request_id <$> response)
  end.
End dedupe.

(** ** Executing a request *)

Section execute.
Context {CR : Crc32cCrate} (config : LocalStoreConfig).

Definition execute_block (request : BlockRequest) : ST LocalCoordinator BlockResponse :=
  match request with
  | RqCreate request =>
      head ← on_metadata (create_device config (cdr_spec request)); mret (RsCreated (dh_device_id head))
  | RqInfo device_id =>
      info ← ask_metadata (fun m => device_info m device_id); mret (RsInfo info)
  | RqRead device_id range verification =>
      bytes ← st_ask (fun c => read_device c device_id range (zeros (br_len range)) verification);
      mret (RsRead bytes)
  | RqWrite device_id offset bytes payload_integrity durability =>
      commit ← write_device_with_integrity config device_id offset bytes durability payload_integrity;
      mret (RsWrite commit)
  | RqCommitBatch device_id writes durability =>
      commit ← commit_block_batch config device_id writes durability; mret (RsBatchCommitted commit)
  | RqWriteZeroes device_id range =>
      commit ← write_zeroes config device_id (br_offset range) (br_len range); mret (RsWrite commit)
  | RqDiscard device_id range =>
      commit ← discard_device config device_id (br_offset range) (br_len range); mret (RsWrite commit)
  | RqFlush device_id _ =>
      info ← ask_metadata (fun m => device_info m device_id);
      mret (RsFlush (mkFlushResult device_id (di_latest_commit info)))
  | RqFork source request =>
      device_id ← Coordinator_fork_device config source request; mret (RsForked device_id)
  | RqRestore source point =>
      device_id ← Coordinator_restore_device config source point; mret (RsRestored device_id)
  | RqDelete device_id =>
      result ← Coordinator_delete_device device_id; mret (RsDeleted result)
  end.

Definition execute_native (request : NativeRequest) : ST LocalCoordinator NativeResponse :=
  match request with
  | NrCreateKeyspace _ =>
      head ← on_metadata (create_keyspace config); mret (NsKeyspaceCreated (kh_keyspace_id head))
  | NrKeyspaceInfo keyspace_id =>
      info ← ask_metadata (fun m => get_keyspace_info m keyspace_id); mret (NsKeyspaceInfo info)
  | NrCreateFile keyspace_id request =>
      head ← on_metadata (create_file config keyspace_id (fsp_name (cfr_spec request)));
      mret (NsFileCreated (fh_file_id head))
  | NrFileInfo keyspace_id file_id =>
      info ← ask_metadata (fun m => get_file_info m keyspace_id file_id); mret (NsFileInfo info)
  | NrRead keyspace_id file_id range verification =>
      bytes ← st_ask (fun c =>
        read_file config c keyspace_id file_id range (zeros (br_len range)) verification);
      mret (NsRead bytes)
  | NrCommitFileBatch keyspace_id file_id writes payload_integrity durability =>
      commit ← commit_file_batch_with_integrity config keyspace_id file_id writes durability
        payload_integrity;
      mret (NsFileBatchCommitted commit)
  | NrOpenAppendStream keyspace_id file_id =>
      stream ← open_append_stream keyspace_id file_id; mret (NsAppendStreamOpened stream)
  | NrAppendStream keyspace_id file_id stream bytes payload_integrity =>
      st_lift (stream_target_check keyspace_id file_id stream);;
      ticket ← append_stream_with_integrity stream bytes Acknowledged payload_integrity;
      mret (NsAppendTicket ticket)
  | NrSubmitAppendPublish keyspace_id file_id stream publish_through =>
      st_lift (stream_target_check keyspace_id file_id stream);;
      ticket ← submit_append_publish stream publish_through; mret (NsAppendPublishSubmitted ticket)
  | NrWaitAppendPublish keyspace_id file_id ticket =>
      st_reject_if (negb (keyspace_id =? pt_keyspace_id ticket) || negb (file_id =? pt_file_id ticket))
        (InvalidArgument "append publish target does not match ticket");;
      commit ← wait_append_publish config ticket Acknowledged; mret (NsAppendPublished commit)
  | NrPublishAppendStream keyspace_id file_id stream publish_through =>
      st_lift (stream_target_check keyspace_id file_id stream);;
      commit ← publish_append_stream config stream publish_through Acknowledged;
      mret (NsAppendPublished commit)
  | NrReleaseAppendStream keyspace_id file_id stream =>
      st_lift (stream_target_check keyspace_id file_id stream);;
      release_append_stream stream;; mret NsAppendReleased
  | NrAbortAppendStream keyspace_id file_id stream =>
      st_lift (stream_target_check keyspace_id file_id stream);;
      abort_append_stream stream;; mret NsAppendAborted
  | NrFlush keyspace_id file_id =>
      info ← ask_metadata (fun m => get_file_info m keyspace_id file_id);
      head ← ask_metadata (fun m => get_file_head m keyspace_id file_id);
      mret (NsFlush (mkFlushResult (fi_file_id info) (fh_latest_commit head)))
  | NrCheckpointKeyspace keyspace_id =>
      checkpoint_id ← on_metadata (checkpoint_keyspace keyspace_id);
      mret (NsKeyspaceCheckpointed checkpoint_id)
  | NrSnapshotKeyspace source request =>
      head ← on_metadata (snapshot_keyspace source (skr_target request));
      mret (NsKeyspaceSnapshotted (kh_keyspace_id head))
  | NrRestoreKeyspace source point =>
      keyspace_id ← Coordinator_restore_keyspace source point; mret (NsKeyspaceRestored keyspace_id)
  end.

(** ** The servers *)

Definition LocalBlockServer : Type := RequestServer BlockRequest BlockResponseEnvelope.
Definition LocalNativeServer : Type := RequestServer NativeRequest NativeResponseEnvelope.

Definition LocalBlockServer_new (store : LocalCoordinator) : LocalBlockServer := RequestServer_new store.
Definition LocalNativeServer_new (store : LocalCoordinator) : LocalNativeServer := RequestServer_new store.

Definition LocalBlockServer_handle (request : BlockRequestEnvelope)
    : ST LocalBlockServer BlockResponseEnvelope :=
  serve mkBlockResponseEnvelope execute_block
    (Conflict "request ID and client epoch reused for a different block request")
    (bre_client_epoch request) (bre_request_id request) (bre_request request).

Definition LocalNativeServer_handle (request : NativeRequestEnvelope)
    : ST LocalNativeServer NativeResponseEnvelope :=
  serve mkNativeResponseEnvelope execute_native
    (Conflict "request ID and client epoch reused for a different native request")
    (nre_client_epoch request) (nre_request_id request) (nre_request request).

#[export] Instance local_block_server : BlockServer LocalBlockServer := LocalBlockServer_handle.
#[export] Instance local_native_server : NativeServer LocalNativeServer := LocalNativeServer_handle.
End execute.

(** ** In-process transports *)

Definition InProcessBlockTransport_call {T : Type} `{!BlockServer T} (request : BlockRequestEnvelope)
    : ST T BlockResponseEnvelope := block_handle request.
Definition InProcessNativeTransport_call {T : Type} `{!NativeServer T} (request : NativeRequestEnvelope)
    : ST T NativeResponseEnvelope := native_handle request.
