(* ===== verification/Client.v ===== *)
(** * Clients ([local/client.rs])

    A client turns every method into one request envelope with a fresh request
    identifier and checks that the response is the one the method expects.  A
    device or file handle shares the transport and the identifier counter with
    the client that opened it, so one state serves all of them. *)

From S2P Require Import Prelude Api Object Batch Streams NativeApi Server.

(** ** State *)

Record LocalClient (T : Type) := mkLocalClient {
  cl_transport : T;
  cl_client_epoch : ClientEpoch;
  cl_next_request_id : Z;
}.
Arguments mkLocalClient {T} _ _ _.
Arguments cl_transport {T} _.
Arguments cl_client_epoch {T} _.
Arguments cl_next_request_id {T} _.

(** [with_transport]: every client starts with the same epoch and counter. *)
Definition with_transport {T} (transport : T) : LocalClient T := mkLocalClient transport 1 1.

Section client.
Context {T : Type}.

Definition next_request_id : ST (LocalClient T) RequestId :=
  self ← st_get;
  let request_id := cl_next_request_id self in
  next ← st_lift (ok_or (checked_add U128_MOD request_id 1) (Conflict "request id overflow"));
  st_put (mkLocalClient (cl_transport self) (cl_client_epoch self) next);;
  mret request_id.

Definition on_transport {A} (p : ST T A) : ST (LocalClient T) A :=
  fun self => let '(r, transport) := p (cl_transport self) in
    (r, mkLocalClient transport (cl_client_epoch self) (cl_next_request_id self)).

Definition unexpected {A} (reason : string) : ST (LocalClient T) A := st_lift (Err (Corrupt reason)).
End client.

(** ** Block clients and devices *)

Section block.
Context {T : Type} `{!BlockTransport T}.

Definition call_block (request : BlockRequest) : ST (LocalClient T) BlockResponse :=
  request_id ← next_request_id;
  client_epoch ← st_gets cl_client_epoch;
  response ← on_transport (block_call (mkBlockRequestEnvelope request_id client_epoch None request));
  mret (bse_response response).

Definition LocalBlockClient_create_device (request : CreateDeviceRequest) : ST (LocalClient T) DeviceId :=
  response ← call_block (RqCreate request);
  match response with
  | RsCreated device_id => mret device_id
  | _ => unexpected "unexpected create-device response"
  end.

Definition LocalBlockClient_device_info (device_id : DeviceId) : ST (LocalClient T) DeviceInfo :=
  response ← call_block (RqInfo device_id);
  match response with
  | RsInfo info => mret info
  | _ => unexpected "unexpected device-info response"
  end.

(** The handle is the device identifier. *)
Definition LocalBlockClient_open_device (device_id : DeviceId) : ST (LocalClient T) DeviceId :=
  LocalBlockClient_device_info device_id;; mret device_id.

Context (device_id : DeviceId).

Definition LocalBlockDevice_info : ST (LocalClient T) DeviceInfo :=
  response ← call_block (RqInfo device_id);
  match response with
  | RsInfo info => mret info
  | _ => unexpected "unexpected device-info response"
  end.

Definition LocalBlockDevice_read_at_with_verification (offset len : Z)
    (verification : ReadVerification) : ST (LocalClient T) (list Z) :=
  response ← call_block (RqRead device_id (mkByteRange offset len) verification);
  match response with
  | RsRead bytes =>
      st_reject_if (negb (Z.of_nat (length bytes) =? len))
        (Corrupt "read response length does not match request");;
      mret bytes
  | _ => unexpected "unexpected block-read response"
  end.

Definition LocalBlockDevice_commit_batch (writes : list BlockBatchWrite)
    : ST (LocalClient T) BlockBatchCommit :=
  response ← call_block (RqCommitBatch device_id writes Acknowledged);
  match response with
  | RsBatchCommitted commit => mret commit
  | _ => unexpected "unexpected block-batch response"
  end.

Definition LocalBlockDevice_write_at_with_integrity (offset : Z) (data : list Z)
    (payload_integrity : PayloadIntegrity) : ST (LocalClient T) WriteCommit :=
  len ← st_lift (len_u64 data (InvalidArgument "write byte length overflows u64"));
  let range := mkByteRange offset len in
  if bool_decide (data = []) then
    info ← LocalBlockDevice_info;
    mret (mkWriteCommit device_id (di_latest_commit info) range Acknowledged)
  else
    commit ← LocalBlockDevice_commit_batch [mkBlockBatchWrite offset data payload_integrity];
    mret (mkWriteCommit (bbc_device_id commit) (bbc_commit_seq commit) range (bbc_durability commit)).

Definition LocalBlockDevice_flush : ST (LocalClient T) FlushResult :=
  response ← call_block (RqFlush device_id FlushDevice);
  match response with
  | RsFlush flush => mret flush
  | _ => unexpected "unexpected block-flush response"
  end.

Definition LocalBlockDevice_write_zeroes (offset len : Z) : ST (LocalClient T) WriteCommit :=
  response ← call_block (RqWriteZeroes device_id (mkByteRange offset len));
  match response with
  | RsWrite commit => mret commit
  | _ => unexpected "unexpected write-zeroes response"
  end.

Definition LocalBlockDevice_discard (offset len : Z) : ST (LocalClient T) WriteCommit :=
  response ← call_block (RqDiscard device_id (mkByteRange offset len));
  match response with
  | RsWrite commit => mret commit
  | _ => unexpected "unexpected discard response"
  end.

Definition LocalBlockDevice_fork (request : ForkRequest) : ST (LocalClient T) DeviceId :=
  response ← call_block (RqFork device_id request);
  match response with
  | RsForked device_id => mret device_id
  | _ => unexpected "unexpected fork response"
  end.

Definition LocalBlockDevice_restore (point : RestorePoint) : ST (LocalClient T) DeviceId :=
  response ← call_block (RqRestore device_id point);
  match response with
  | RsRestored device_id => mret device_id
  | _ => unexpected "unexpected restore response"
  end.

Definition LocalBlockDevice_delete : ST (LocalClient T) DeleteResult :=
  response ← call_block (RqDelete device_id);
  match response with
  | RsDeleted delete => mret delete
  | _ => unexpected "unexpected block-delete response"
  end.

#[export] Instance local_block_device : BlockDevice (LocalClient T) := {|
  bd_device_id := device_id;
  bd_info := LocalBlockDevice_info;
  bd_read_at_with_verification := LocalBlockDevice_read_at_with_verification;
  bd_commit_batch := LocalBlockDevice_commit_batch;
  bd_flush := LocalBlockDevice_flush;
  bd_write_zeroes := LocalBlockDevice_write_zeroes;
  bd_discard := LocalBlockDevice_discard;
  bd_fork := LocalBlockDevice_fork;
  bd_restore := LocalBlockDevice_restore;
  bd_delete := LocalBlockDevice_delete;
|}.
End block.

(** ** Native clients and files *)

Section native.
Context {T : Type} `{!NativeTransport T}.

Definition call_native (request : NativeRequest) : ST (LocalClient T) NativeResponse :=
  request_id ← next_request_id;
  client_epoch ← st_gets cl_client_epoch;
  response ← on_transport (native_call (mkNativeRequestEnvelope request_id client_epoch None request));
  mret (nse_response response).

Definition LocalNativeClient_create_keyspace (request : CreateKeyspaceRequest)
    : ST (LocalClient T) KeyspaceId :=
  response ← call_native (NrCreateKeyspace request);
  match response with
  | NsKeyspaceCreated keyspace_id => mret keyspace_id
  | _ => unexpected "unexpected create-keyspace response"
  end.

Definition LocalNativeClient_keyspace_info (keyspace_id : KeyspaceId) : ST (LocalClient T) KeyspaceInfo :=
  response ← call_native (NrKeyspaceInfo keyspace_id);
  match response with
  | NsKeyspaceInfo info => mret info
  | _ => unexpected "unexpected keyspace-info response"
  end.

Definition LocalNativeClient_create_file (keyspace_id : KeyspaceId) (request : CreateFileRequest)
    : ST (LocalClient T) FileId :=
  response ← call_native (NrCreateFile keyspace_id request);
  match response with
  | NsFileCreated file_id => mret file_id
  | _ => unexpected "unexpected create-file response"
  end.

Definition LocalNativeClient_file_info (keyspace_id : KeyspaceId) (file_id : FileId)
    : ST (LocalClient T) FileInfo :=
  response ← call_native (NrFileInfo keyspace_id file_id);
  match response with
  | NsFileInfo info => mret info
  | _ => unexpected "unexpected file-info response"
  end.

Definition LocalNativeClient_open_file (keyspace_id : KeyspaceId) (file_id : FileId)
    : ST (LocalClient T) (KeyspaceId * FileId) :=
  LocalNativeClient_file_info keyspace_id file_id;; mret (keyspace_id, file_id).

Definition LocalNativeClient_open_append_stream (keyspace_id : KeyspaceId) (file_id : FileId)
    : ST (LocalClient T) AppendStream :=
  response ← call_native (NrOpenAppendStream keyspace_id file_id);
  match response with
  | NsAppendStreamOpened stream => mret stream
  | _ => unexpected "unexpected append-stream response"
  end.

Definition LocalNativeClient_checkpoint_keyspace (keyspace_id : KeyspaceId)
    : ST (LocalClient T) CheckpointId :=
  response ← call_native (NrCheckpointKeyspace keyspace_id);
  match response with
  | NsKeyspaceCheckpointed checkpoint_id => mret checkpoint_id
  | _ => unexpected "unexpected keyspace-checkpoint response"
  end.

Definition LocalNativeClient_snapshot_keyspace (source : KeyspaceId) (request : SnapshotKeyspaceRequest)
    : ST (LocalClient T) KeyspaceId :=
  response ← call_native (NrSnapshotKeyspace source request);
  match response with
  | NsKeyspaceSnapshotted keyspace_id => mret keyspace_id
  | _ => unexpected "unexpected keyspace-snapshot response"
  end.

Definition LocalNativeClient_restore_keyspace (source : KeyspaceId) (point : RestorePoint)
    : ST (LocalClient T) KeyspaceId :=
  response ← call_native (NrRestoreKeyspace source point);
  match response with
  | NsKeyspaceRestored keyspace_id => mret keyspace_id
  | _ => unexpected "unexpected keyspace-restore response"
  end.

Context (keyspace_id : KeyspaceId) (file_id : FileId).

Definition LocalNativeFile_info : ST (LocalClient T) FileInfo :=
  response ← call_native (NrFileInfo keyspace_id file_id);
  match response with
  | NsFileInfo info => mret info
  | _ => unexpected "unexpected file-info response"
  end.

Definition LocalNativeFile_read_at_with_verification (offset : Z) (buf : list Z)
    (verification : ReadVerification) : ST (LocalClient T) (list Z) :=
  len ← st_lift (len_u64 buf (InvalidArgument "read buffer length overflows u64"));
  response ← call_native (NrRead keyspace_id file_id (mkByteRange offset len) verification);
  match response with
  | NsRead bytes =>
      st_reject_if (negb (bool_decide (length bytes = length buf)))
        (Corrupt "read response length does not match request");;
      mret bytes
  | _ => unexpected "unexpected native-read response"
  end.

Definition LocalNativeFile_commit_batch_with_integrity (writes : list FileBatchWrite)
    (payload_integrity : PayloadIntegrity) : ST (LocalClient T) FileWriteCommit :=
  response ← call_native (NrCommitFileBatch keyspace_id file_id writes payload_integrity Acknowledged);
  match response with
  | NsFileBatchCommitted commit => mret commit
  | _ => unexpected "unexpected native-file-batch response"
  end.

Definition LocalNativeFile_open_append_stream : ST (LocalClient T) AppendStream :=
  response ← call_native (NrOpenAppendStream keyspace_id file_id);
  match response with
  | NsAppendStreamOpened stream => mret stream
  | _ => unexpected "unexpected append-stream response"
  end.

Definition LocalNativeFile_append_stream_with_integrity (stream : AppendStream) (data : list Z)
    (payload_integrity : PayloadIntegrity) : ST (LocalClient T) AppendTicket :=
  response ← call_native (NrAppendStream keyspace_id file_id stream data payload_integrity);
  match response with
  | NsAppendTicket ticket => mret ticket
  | _ => unexpected "unexpected append-ticket response"
  end.

Definition LocalNativeFile_submit_append_publish (stream : AppendStream) (publish_through : Z)
    : ST (LocalClient T) AppendPublishTicket :=
  response ← call_native (NrSubmitAppendPublish keyspace_id file_id stream publish_through);
  match response with
  | NsAppendPublishSubmitted ticket => mret ticket
  | _ => unexpected "unexpected append-publish-submit response"
  end.

Definition LocalNativeFile_wait_append_publish (ticket : AppendPublishTicket)
    : ST (LocalClient T) AppendPublishCommit :=
  response ← call_native (NrWaitAppendPublish keyspace_id file_id ticket);
  match response with
  | NsAppendPublished commit => mret commit
  | _ => unexpected "unexpected append-publish-wait response"
  end.

Definition LocalNativeFile_release_append_stream (stream : AppendStream) : ST (LocalClient T) unit :=
  response ← call_native (NrReleaseAppendStream keyspace_id file_id stream);
  match response with
  | NsAppendReleased => mret tt
  | _ => unexpected "unexpected append-release response"
  end.

Definition LocalNativeFile_abort_append_stream (stream : AppendStream) : ST (LocalClient T) unit :=
  response ← call_native (NrAbortAppendStream keyspace_id file_id stream);
  match response with
  | NsAppendAborted => mret tt
  | _ => unexpected "unexpected append-abort response"
  end.

Definition LocalNativeFile_flush : ST (LocalClient T) FlushResult :=
  response ← call_native (NrFlush keyspace_id file_id);
  match response with
  | NsFlush flush => mret flush
  | _ => unexpected "unexpected native-flush response"
  end.

#[export] Instance local_native_file : NativeFile (LocalClient T) := {|
  nf_commit_batch_with_integrity := LocalNativeFile_commit_batch_with_integrity;
  nf_read_at_with_verification := LocalNativeFile_read_at_with_verification;
  nf_append_stream_with_integrity := LocalNativeFile_append_stream_with_integrity;
  nf_submit_append_publish := LocalNativeFile_submit_append_publish;
  nf_wait_append_publish := LocalNativeFile_wait_append_publish;
|}.
End native.
