(* ===== verification/ServerSpec.v ===== *)
(** * What the servers promise

    A server executes every request identity once, in the order of first
    arrival, and answers every call from the outcomes of those executions: a
    retry gets the outcome of the first call, a different request under a used
    identity gets a conflict.  Two clients that start from the same identity
    therefore collide. *)

From S2P Require Import Prelude Api Config Catalog StorageNode NativeApi Plane Coordinator.
From S2P Require Import CowTree ReadPath BlockOps StreamOps NativeOps Server Client.

(** ** Requests executed once *)

Section dedupe.
Context {Rq Rs Env : Type} `{!EqDecision Rq}.
Context (respond : RequestId -> Rs -> Env) (execute : Rq -> ST LocalCoordinator Rs)
  (reused : StorageError).

(** A call: client epoch, request identifier, request. *)
Definition call_key (call : ClientEpoch * RequestId * Rq) : ClientEpoch * RequestId := call.1.

(** The calls that use their identity for the first time. *)
Fixpoint first_uses (seen : gset (ClientEpoch * RequestId)) (calls : list (ClientEpoch * RequestId * Rq))
    : list (ClientEpoch * RequestId * Rq) :=
  match calls with
  | [] => []
  | call :: calls =>
      if decide (call_key call ∈ seen) then first_uses seen calls
      else call :: first_uses ({[call_key call]} ∪ seen) calls
  end.

Definition exec_all (calls : list (ClientEpoch * RequestId * Rq)) (store : LocalCoordinator)
    : LocalCoordinator := fold_left (fun store call => (execute call.2 store).2) calls store.

(** The outcomes of executing the calls one after the other. *)
Fixpoint outcomes (calls : list (ClientEpoch * RequestId * Rq)) (store : LocalCoordinator)
    : list ((ClientEpoch * RequestId) * CachedRequest Rq Env) :=
  match calls with
  | [] => []
  | call :: calls =>
      let '(r, store') := execute call.2 store in
      (call_key call, mkCachedRequest call.2 (respond call.1.2 <$> r)) :: outcomes calls store'
  end.

(** The answer to a call given the outcomes. *)
Definition answer (log : gmap (ClientEpoch * RequestId) (CachedRequest Rq Env))
    (call : ClientEpoch * RequestId * Rq) : Result Env :=
  match log !! call_key call with
  | Some cached => if decide (cq_request cached = call.2) then cq_result cached else Err reused
  | None => Err reused
  end.

Definition serve_call (call : ClientEpoch * RequestId * Rq) : ST (RequestServer Rq Env) Env :=
  serve respond execute reused call.1.1 call.1.2 call.2.

Fixpoint serve_all (calls : list (ClientEpoch * RequestId * Rq)) (s : RequestServer Rq Env)
    : list (Result Env) * RequestServer Rq Env :=
  match calls with
  | [] => ([], s)
  | call :: calls =>
      let '(r, s) := serve_call call s in
      let '(rs, s) := serve_all calls s in (r :: rs, s)
  end.

Lemma serve_seen call s cached :
  rs_responses s !! call_key call = Some cached ->
  serve_call call s = (answer (rs_responses s) call, s).
Proof.
  destruct call as [[e i] rq]; unfold call_key; cbn; intros H.
  unfold serve_call, serve, answer, call_key. rewrite st_bind_run. unfold st_ask, cached_response.
  cbn [fst snd]. rewrite H.
  destruct (decide (cq_request cached = rq)) as [Heq|Hne].
  - rewrite bool_decide_true by done; cbn. by destruct (cq_result cached).
  - by rewrite bool_decide_false.
Qed.

Lemma serve_fresh call s r store :
  rs_responses s !! call_key call = None -> execute call.2 (rs_store s) = (r, store) ->
  serve_call call s = (respond call.1.2 <$> r, mkRequestServer store (rs_request_log s ++ [call.1.2])
    (<[call_key call := mkCachedRequest call.2 (respond call.1.2 <$> r)]> (rs_responses s))).
Proof.
  destruct call as [[e i] rq]; unfold call_key; cbn; intros H Hx.
  unfold serve_call, serve. rewrite st_bind_run. unfold st_ask, cached_response.
  cbn [fst snd]. rewrite H, !st_bind_run. cbn [push_request_log st_modify].
  rewrite st_bind_run. unfold run_on_store at 1; cbn. by rewrite Hx.
Qed.

Lemma first_uses_fresh seen calls key :
  key ∈ seen -> key ∉ (call_key <$> first_uses seen calls).
Proof.
  revert seen; induction calls as [|call calls IH]; intros seen Hin; cbn; [set_solver|].
  destruct (decide _); [by apply IH|]. cbn.
  apply not_elem_of_cons; split; [by intros ->|apply IH; set_solver].
Qed.

Lemma outcomes_keys calls store : (outcomes calls store).*1 = call_key <$> calls.
Proof.
  revert store; induction calls as [|call calls IH]; intros store; [done|]; cbn.
  destruct (execute _ _); cbn. by rewrite IH.
Qed.

Lemma outcomes_fresh seen calls store key :
  key ∈ seen ->
  (list_to_map (outcomes (first_uses seen calls) store) : gmap _ (CachedRequest Rq Env)) !! key = None.
Proof.
  intros Hin. apply not_elem_of_list_to_map_1. rewrite outcomes_keys. by apply first_uses_fresh.
Qed.

Lemma serve_all_run calls s :
  let uses := first_uses (dom (rs_responses s)) calls in
  let log := list_to_map (outcomes uses (rs_store s)) ∪ rs_responses s in
  serve_all calls s = (answer log <$> calls,
    mkRequestServer (exec_all uses (rs_store s)) (rs_request_log s ++ ((fun call => call.1.2) <$> uses)) log).
Proof.
  revert s; induction calls as [|call calls IH]; intros s uses log; subst uses log; cbn.
  { rewrite app_nil_r, (left_id_L ∅ (∪)). by destruct s. }
  destruct (rs_responses s !! call_key call) as [cached|] eqn:Hk.
  - assert (Hd : call_key call ∈ dom (rs_responses s)) by by apply elem_of_dom_2 in Hk.
    rewrite (serve_seen call s cached Hk), IH, decide_True by done; cbn.
    do 2 f_equal. unfold answer at 1 2.
    by rewrite lookup_union_r by (by apply outcomes_fresh).
  - assert (Hd : call_key call ∉ dom (rs_responses s)) by by apply not_elem_of_dom.
    destruct (execute call.2 (rs_store s)) as [r store] eqn:Hx.
    rewrite (serve_fresh call s r store Hk Hx), IH, decide_False by done; cbn.
    rewrite Hx, dom_insert_L; cbn.
    rewrite <- (insert_union_r _ (rs_responses s)) by (apply outcomes_fresh; set_solver).
    rewrite insert_union_l, <- app_assoc. do 2 f_equal.
    unfold answer at 1. rewrite lookup_union_l', lookup_insert_eq by (rewrite lookup_insert_eq; eauto).
    cbn. by rewrite decide_True.
Qed.

Lemma served_from_new calls store :
  serve_all calls (RequestServer_new store) =
    (answer (list_to_map (outcomes (first_uses ∅ calls) store)) <$> calls,
     mkRequestServer (exec_all (first_uses ∅ calls) store)
       ((fun call => call.1.2) <$> first_uses ∅ calls)
       (list_to_map (outcomes (first_uses ∅ calls) store))).
Proof.
  rewrite serve_all_run; cbn. by rewrite dom_empty_L, (right_id_L ∅ (∪)).
Qed.
End dedupe.

(** ** The block server *)

Definition block_call_of (request : BlockRequestEnvelope) : ClientEpoch * RequestId * BlockRequest :=
  (bre_client_epoch request, bre_request_id request, bre_request request).

Section block.
Context {CR : Crc32cCrate} (config : LocalStoreConfig).

Definition block_reused : StorageError :=
  Conflict "request ID and client epoch reused for a different block request".

Fixpoint handle_all (requests : list BlockRequestEnvelope) (s : LocalBlockServer)
    : list (Result BlockResponseEnvelope) * LocalBlockServer :=
  match requests with
  | [] => ([], s)
  | request :: requests =>
      let '(r, s) := LocalBlockServer_handle config request s in
      let '(rs, s) := handle_all requests s in (r :: rs, s)
  end.

Lemma handle_all_serve requests s :
  handle_all requests s =
    serve_all mkBlockResponseEnvelope (execute_block config) block_reused (block_call_of <$> requests) s.
Proof.
  revert s; induction requests as [|request requests IH]; intros s; [done|].
  cbn [handle_all fmap list_fmap serve_all].
  change (serve_call _ _ _ _ s) with (LocalBlockServer_handle config request s).
  destruct (LocalBlockServer_handle _ _ _) as [r s1]. by rewrite IH.
Qed.

(** C20: a block server that starts on a store executes every request identity
    (client epoch and request identifier) exactly once, in the order of first
    arrival, whatever is retried in between: the store is the result of those
    executions alone, the request log lists them, and every call is answered
    with the outcome of the first call of its identity, or with a conflict when
    it carries a different request. *)
Theorem block_served_once (store : LocalCoordinator) (requests : list BlockRequestEnvelope) :
  let calls := block_call_of <$> requests in
  let uses := first_uses ∅ calls in
  let log := list_to_map (outcomes mkBlockResponseEnvelope (execute_block config) uses store) in
  handle_all requests (LocalBlockServer_new store) =
    (answer block_reused log <$> calls,
     mkRequestServer (exec_all (execute_block config) uses store) ((fun call => call.1.2) <$> uses) log).
Proof. intros calls uses log. rewrite handle_all_serve. apply served_from_new. Qed.

(** ** Two clients *)

#[local] Instance block_server : BlockServer LocalBlockServer := LocalBlockServer_handle config.
#[local] Instance in_process_block : BlockTransport LocalBlockServer := InProcessBlockTransport_call.

(** The envelope of the first request of a client. *)
Definition first_envelope (request : BlockRequest) : BlockRequestEnvelope :=
  mkBlockRequestEnvelope 1 1 None request.

Lemma first_create request (s : LocalBlockServer) :
  LocalBlockClient_create_device request (with_transport s) =
    let '(r, s') := LocalBlockServer_handle config (first_envelope (RqCreate request)) s in
    (match r with
     | Ok envelope => match bse_response envelope with
         | RsCreated device_id => Ok device_id
         | _ => Err (Corrupt "unexpected create-device response")
         end
     | Err e => Err e
     end, mkLocalClient s' 1 2).
Proof.
  unfold LocalBlockClient_create_device. rewrite st_bind_run. unfold call_block.
  rewrite st_bind_run.
  change (next_request_id (with_transport s)) with
    ((Ok 1, mkLocalClient s 1 2) : Result RequestId * LocalClient LocalBlockServer).
  cbv iota beta. rewrite st_bind_run. cbn [st_gets cl_client_epoch].
  rewrite st_bind_run. unfold on_transport; cbn [cl_transport cl_client_epoch cl_next_request_id].
  change (block_call _ s) with (LocalBlockServer_handle config (first_envelope (RqCreate request)) s).
  destruct (LocalBlockServer_handle _ _ _) as [[envelope|e] s']; [|done].
  cbn. by destruct (bse_response envelope).
Qed.

(** The server after one request of a new client. *)
Lemma first_handled request store :
  exists outcome s',
    LocalBlockServer_handle config (first_envelope request) (LocalBlockServer_new store) = (outcome, s') /\
    rs_responses s' = {[(1, 1) := mkCachedRequest request outcome]}.
Proof.
  destruct (execute_block config request store) as [r store'] eqn:Hx.
  pose proof (serve_fresh mkBlockResponseEnvelope (execute_block config) block_reused
    (block_call_of (first_envelope request)) (LocalBlockServer_new store) r store') as Hs.
  cbn [block_call_of first_envelope bre_client_epoch bre_request_id bre_request fst snd call_key
    LocalBlockServer_new RequestServer_new rs_responses rs_store rs_request_log] in Hs.
  specialize (Hs (lookup_empty _) Hx).
  eexists _, _; split; [exact Hs|]. by rewrite insert_empty.
Qed.

(** C24: two clients of one block server share their request identities, because
    every client starts with epoch 1 and counter 1: when the first client has
    created a device, a second new client that creates a device with the same
    request is handed the first client's device (or error) without anything
    being created, and with any other request it gets a conflict. *)
Theorem clients_collide (store : LocalCoordinator) (first second : CreateDeviceRequest) :
  let '(created, c1) := LocalBlockClient_create_device first (with_transport (LocalBlockServer_new store)) in
  let '(answered, c2) := LocalBlockClient_create_device second (with_transport (cl_transport c1)) in
  answered = (if decide (first = second) then created else Err block_reused) /\
  cl_transport c2 = cl_transport c1.
Proof.
  destruct (first_handled (RqCreate first) store) as (outcome & s' & Hrun & Hcache).
  rewrite first_create, Hrun. cbn [cl_transport].
  rewrite first_create.
  assert (Hs : LocalBlockServer_handle config (first_envelope (RqCreate second)) s' =
    (answer block_reused (rs_responses s') (block_call_of (first_envelope (RqCreate second))), s')).
  { eapply (serve_seen mkBlockResponseEnvelope (execute_block config) block_reused
      (block_call_of (first_envelope (RqCreate second)))).
    rewrite Hcache. apply lookup_singleton_eq. }
  rewrite Hs. split; [|done].
  unfold answer. rewrite Hcache. cbn [call_key block_call_of first_envelope fst snd].
  rewrite lookup_singleton_eq; cbn [cq_request cq_result].
  destruct (decide (first = second)) as [->|Hne]; [by rewrite decide_True|].
  by rewrite decide_False by (intros [= ?]; by apply Hne).
Qed.
End block.
