(* ===== verification/Codec.v ===== *)
(** * The durable codec ([local/codec.rs])

    The encoder, the decoder, the codecs of the primitive types and of the
    containers, and the two laws a codec may have: a value that fits the limits
    is read back ([RoundTrip]), and whatever is accepted is the encoding of the
    value it is read as ([Canonical]).  The trait [DurableCodec] is a record of
    its two methods, since the identifiers of the source are all integers here. *)

From S2P Require Import Prelude Provider.

Definition MAX_DURABLE_COLLECTION_LEN : Z := 1000000.
Definition MAX_DURABLE_STRING_LEN : Z := 1048576.

Definition durable_codec_error (reason : string) : StorageError :=
  Corrupt ("durable codec failed: " +:+ reason).

(** ** Encoder and decoder *)

(** The bytes written so far. *)
Definition DurableEncoder : Type := list Z.

Record DurableDecoder := mkDurableDecoder {
  dd_bytes : list Z;
  dd_offset : Z;
}.

Record DurableCodec (A : Type) := mkDurableCodec {
  encode : A -> ST DurableEncoder unit;
  decode : ST DurableDecoder A;
}.
Arguments encode {A} _ _.
Arguments decode {A} _.
Arguments mkDurableCodec {A} _ _.

Definition Encoder_extend (bytes : list Z) : ST DurableEncoder unit :=
  st_modify (fun out => out ++ bytes).
Definition Encoder_put_u8 (value : Z) : ST DurableEncoder unit := Encoder_extend [value].
Definition Encoder_put_u16 (value : Z) : ST DurableEncoder unit := Encoder_extend (be_bytes 2 value).
Definition Encoder_put_u32 (value : Z) : ST DurableEncoder unit := Encoder_extend (be_bytes 4 value).
Definition Encoder_put_u64 (value : Z) : ST DurableEncoder unit := Encoder_extend (be_bytes 8 value).
Definition Encoder_put_u128 (value : Z) : ST DurableEncoder unit :=
  Encoder_extend (be_bytes 16 value).

(** [DurableDecoder::finish] *)
Definition Decoder_finish (self : DurableDecoder) : Result unit :=
  reject_if (negb (dd_offset self =? Z.of_nat (length (dd_bytes self))))
    (durable_codec_error "trailing bytes in durable buffer").

(** [DurableDecoder::take] *)
Definition Decoder_take (len : Z) : ST DurableDecoder (list Z) :=
  self ← st_get;
  end_ ← st_lift (ok_or (checked_add U64_MOD (dd_offset self) len)
    (durable_codec_error "durable buffer offset overflow"));
  st_reject_if (Z.of_nat (length (dd_bytes self)) <? end_)
    (durable_codec_error "unexpected end of durable buffer");;
  st_put (mkDurableDecoder (dd_bytes self) end_);;
  mret (slice (dd_bytes self) (dd_offset self) len).

(** [from_be_bytes] *)
Definition be_value (bytes : list Z) : Z := fold_left (fun acc b => 256 * acc + b) bytes 0.

Definition Decoder_u8 : ST DurableDecoder Z :=
  bytes ← Decoder_take 1;
  st_lift (ok_or (head bytes) (durable_codec_error "unexpected end of durable buffer")).
Definition Decoder_u16 : ST DurableDecoder Z := bytes ← Decoder_take 2; mret (be_value bytes).
Definition Decoder_u32 : ST DurableDecoder Z := bytes ← Decoder_take 4; mret (be_value bytes).
Definition Decoder_u64 : ST DurableDecoder Z := bytes ← Decoder_take 8; mret (be_value bytes).
Definition Decoder_u128 : ST DurableDecoder Z := bytes ← Decoder_take 16; mret (be_value bytes).

(** [match u8::decode(input)? { ... }] *)
Definition decode_tag {A} (cases : Z -> ST DurableDecoder A) : ST DurableDecoder A :=
  tag ← Decoder_u8; cases tag.

(** ** Primitive types *)

Definition bool_codec : DurableCodec bool := {|
  encode (self : bool) := Encoder_put_u8 (if self then 1 else 0);
  decode := decode_tag (fun tag =>
    match tag with
    | 0 => mret false
    | 1 => mret true
    | _ => st_lift (Err (durable_codec_error "invalid bool tag"))
    end);
|}.

Definition u8_codec : DurableCodec Z := {| encode := Encoder_put_u8; decode := Decoder_u8 |}.
Definition u32_codec : DurableCodec Z := {| encode := Encoder_put_u32; decode := Decoder_u32 |}.
Definition u64_codec : DurableCodec Z := {| encode := Encoder_put_u64; decode := Decoder_u64 |}.
Definition u128_codec : DurableCodec Z := {| encode := Encoder_put_u128; decode := Decoder_u128 |}.

(** A [usize] has 64 bits, so neither conversion fails. *)
Definition usize_codec : DurableCodec Z := {|
  encode (self : Z) := encode u64_codec self;
  decode := decode u64_codec;
|}.

(** The identifiers encode their raw integer ([durable_id_codec_u128] and the
    two other macros). *)
Definition id128_codec : DurableCodec Z := {| encode (self : Z) := encode u128_codec self; decode := decode u128_codec |}.
Definition id64_codec : DurableCodec Z := {| encode (self : Z) := encode u64_codec self; decode := decode u64_codec |}.
Definition id32_codec : DurableCodec Z := {| encode (self : Z) := encode u32_codec self; decode := decode u32_codec |}.

(** ** Containers *)

Definition option_codec {A} (T : DurableCodec A) : DurableCodec (option A) := {|
  encode (self : option A) :=
    match self with
    | Some value => Encoder_put_u8 1;; encode T value
    | None => Encoder_put_u8 0
    end;
  decode := decode_tag (fun tag =>
    match tag with
    | 0 => mret None
    | 1 => value ← decode T; mret (Some value)
    | _ => st_lift (Err (durable_codec_error "invalid option tag"))
    end);
|}.

(** [for _ in 0..len { values.push(T::decode(input)?) }] *)
Fixpoint decode_n {A} (T : DurableCodec A) (len : nat) : ST DurableDecoder (list A) :=
  match len with
  | O => mret []
  | S len => value ← decode T; values ← decode_n T len; mret (value :: values)
  end.

Definition vec_codec {A} (T : DurableCodec A) : DurableCodec (list A) := {|
  encode (self : list A) :=
    len ← st_lift (len_u64 self (durable_codec_error "vector length exceeds u64"));
    encode u64_codec len;;
    st_for (encode T) self;
  decode :=
    len ← decode u64_codec;
    st_reject_if (MAX_DURABLE_COLLECTION_LEN <? len)
      (durable_codec_error "vector length exceeds durable limit");;
    decode_n T (Z.to_nat len);
|}.

(** The loop of the map decoder; [values] is the map so far. *)
Fixpoint decode_entries {V} (K : DurableCodec Z) (T : DurableCodec V) (len : nat) (values : gmap Z V)
    : ST DurableDecoder (gmap Z V) :=
  match len with
  | O => mret values
  | S len =>
      key ← decode K;
      value ← decode T;
      st_reject_if (negb (bool_decide (values !! key = None)))
        (durable_codec_error "duplicate key in durable map");;
      decode_entries K T len (<[key := value]> values)
  end.

(** A [BTreeMap] with integer keys. *)
Definition map_codec {V} (K : DurableCodec Z) (T : DurableCodec V) : DurableCodec (gmap Z V) := {|
  encode (self : gmap Z V) :=
    len ← st_lift (len_u64 (bt_iter self) (durable_codec_error "map length exceeds u64"));
    encode u64_codec len;;
    st_for (fun e => encode K e.1;; encode T e.2) (bt_iter self);
  decode :=
    len ← decode u64_codec;
    st_reject_if (MAX_DURABLE_COLLECTION_LEN <? len)
      (durable_codec_error "map length exceeds durable limit");;
    decode_entries K T (Z.to_nat len) ∅;
|}.

(** A continuation byte in [lo, hi]. *)
Definition utf8_cont (lo hi b : Z) : bool := (lo <=? b) && (b <=? hi).

(** The well-formed UTF-8 byte sequences, as [String::from_utf8] accepts them. *)
Fixpoint utf8_valid (bytes : list Z) : bool :=
  match bytes with
  | [] => true
  | b0 :: rest =>
      if utf8_cont 0 127 b0 then utf8_valid rest
      else
        match rest with
        | [] => false
        | b1 :: rest =>
            if utf8_cont 194 223 b0 then utf8_cont 128 191 b1 && utf8_valid rest
            else
              match rest with
              | [] => false
              | b2 :: rest =>
                  if utf8_cont 224 239 b0 then
                    utf8_cont (if b0 =? 224 then 160 else 128) (if b0 =? 237 then 159 else 191) b1 &&
                    utf8_cont 128 191 b2 && utf8_valid rest
                  else
                    match rest with
                    | [] => false
                    | b3 :: rest =>
                        utf8_cont 240 244 b0 &&
                        utf8_cont (if b0 =? 240 then 144 else 128) (if b0 =? 244 then 143 else 191) b1 &&
                        utf8_cont 128 191 b2 && utf8_cont 128 191 b3 && utf8_valid rest
                    end
              end
        end
  end.

(** A [String] is the string of its bytes. *)
Fixpoint string_of_bytes (bytes : list Z) : string :=
  match bytes with
  | [] => EmptyString
  | b :: bytes => String (Ascii.ascii_of_nat (Z.to_nat b)) (string_of_bytes bytes)
  end.

Definition string_codec : DurableCodec string := {|
  encode (self : string) :=
    let bytes := ascii_bytes self in
    len ← st_lift (len_u64 bytes (durable_codec_error "string length exceeds u64"));
    encode u64_codec len;;
    Encoder_extend bytes;
  decode :=
    len ← decode u64_codec;
    st_reject_if (MAX_DURABLE_STRING_LEN <? len)
      (durable_codec_error "string length exceeds durable limit");;
    bytes ← Decoder_take len;
    st_reject_if (negb (utf8_valid bytes)) (durable_codec_error "invalid UTF-8 string");;
    mret (string_of_bytes bytes);
|}.

(** [ProofTag] and [GrantHash]: 32 bytes. *)
Definition bytes32_codec : DurableCodec (list Z) := {|
  encode (self : list Z) := Encoder_extend self;
  decode := Decoder_take 32;
|}.

(** ** The laws *)

Definition is_byte (b : Z) : Prop := 0 <= b < 256.

(** The decoder between what was read and what is left. *)
Definition decoder_at (pre rest : list Z) : DurableDecoder :=
  mkDurableDecoder (pre ++ rest) (Z.of_nat (length pre)).

(** The program appends exactly [e]. *)
Definition emits (p : ST DurableEncoder unit) (e : list Z) : Prop :=
  forall out, p out = (Ok tt, out ++ e).

(** The program reads exactly [e], wherever it stands, as [a]. *)
Definition reads {A} (q : ST DurableDecoder A) (e : list Z) (a : A) : Prop :=
  forall pre rest, Z.of_nat (length (pre ++ e ++ rest)) < U64_MOD ->
    q (decoder_at pre (e ++ rest)) = (Ok a, decoder_at (pre ++ e) rest).

(** Whatever the program accepts is related by [Q] to the bytes it read. *)
Definition consumes {A} (q : ST DurableDecoder A) (Q : A -> list Z -> Prop) : Prop :=
  forall pre rest a d, Forall is_byte rest -> q (decoder_at pre rest) = (Ok a, d) ->
    exists e rest', rest = e ++ rest' /\ d = decoder_at (pre ++ e) rest' /\ Q a e.

Class RoundTrip {A} (c : DurableCodec A) (ok : A -> Prop) :=
  round_trip : forall a, ok a -> exists e, emits (encode c a) e /\ reads (decode c) e a.

Class Canonical {A} (c : DurableCodec A) (ok : A -> Prop) :=
  canonical : consumes (decode c) (fun a e => ok a /\ emits (encode c a) e).

(** *** Writing *)

Lemma emits_extend e : emits (Encoder_extend e) e.
Proof. done. Qed.

Lemma emits_bind p q e1 e2 : emits p e1 -> emits q e2 -> emits (p;; q) (e1 ++ e2).
Proof. intros Hp Hq out. rewrite st_bind_run, Hp, Hq. by rewrite app_assoc. Qed.

Lemma emits_nil p e : emits p e -> emits p (e ++ []).
Proof. by rewrite app_nil_r. Qed.

Lemma emits_len {A B} (l : list A) err (k : Z -> ST DurableEncoder B) out :
  Z.of_nat (length l) < U64_MOD ->
  (len ← st_lift (len_u64 l err); k len) out = k (Z.of_nat (length l)) out.
Proof. intros H. rewrite st_bind_lift. unfold len_u64. by ztest. Qed.

Lemma emits_unique p e e' : emits p e -> emits p e' -> e = e'.
Proof. intros H H'. specialize (H []). rewrite (H' []) in H. by injection H. Qed.

(** *** Reading *)

Lemma reads_ret {A} (a : A) : reads (mret a) [] a.
Proof. intros pre rest _. by rewrite app_nil_r. Qed.

Lemma reads_bind {A B} (p : ST DurableDecoder A) (k : A -> ST DurableDecoder B) e1 e2 a b :
  reads p e1 a -> reads (k a) e2 b -> reads (p ≫= k) (e1 ++ e2) b.
Proof.
  intros Hp Hk pre rest Hlen. rewrite st_bind_run, <-app_assoc, Hp by (by rewrite <-app_assoc in Hlen).
  rewrite Hk; [by rewrite app_assoc|]. by rewrite <-!app_assoc in *.
Qed.

Lemma reads_bind_ret {A B} (p : ST DurableDecoder A) (k : A -> ST DurableDecoder B) e a b :
  reads p e a -> k a = mret b -> reads (p ≫= k) e b.
Proof. intros Hp Hk pre rest Hlen. by rewrite st_bind_run, Hp, Hk. Qed.

Lemma reads_guard {A} (cond : bool) err (q : ST DurableDecoder A) e a :
  cond = false -> reads q e a -> reads (st_reject_if cond err;; q) e a.
Proof. by intros ->. Qed.

Lemma reads_take e : reads (Decoder_take (Z.of_nat (length e))) e e.
Proof.
  intros pre rest Hlen. rewrite !length_app in Hlen. unfold Decoder_take, decoder_at. rewrite st_bind_run.
  cbn [st_get dd_bytes dd_offset]. rewrite st_bind_lift, checked_add_ok by lia. cbn [ok_or].
  rewrite st_bind_run. unfold st_reject_if, st_lift, reject_if.
  rewrite (proj2 (Z.ltb_ge _ _)) by (rewrite !length_app; lia).
  unfold st_put, slice. cbn [mbind ST_bind mret ST_ret].
  rewrite !Nat2Z.id, drop_app_length, take_app_length, <-app_assoc, length_app, Nat2Z.inj_add. done.
Qed.

Lemma reads_uint n e : length e = n -> reads (bytes ← Decoder_take (Z.of_nat n); mret (be_value bytes)) e (be_value e).
Proof. intros <-. by eapply reads_bind_ret; [apply reads_take|]. Qed.

(** *** Accepting *)

Lemma consumes_ret {A} (a : A) (Q : A -> list Z -> Prop) : Q a [] -> consumes (mret a) Q.
Proof. intros HQ pre rest a' d _ [= -> <-]. exists [], rest. by rewrite app_nil_r. Qed.

Lemma consumes_err {A} err (Q : A -> list Z -> Prop) : consumes (st_lift (Err err)) Q.
Proof. by intros pre rest a d _ ?. Qed.

Lemma consumes_bind {A B} (p : ST DurableDecoder A) (k : A -> ST DurableDecoder B) P Q :
  consumes p P -> (forall a e1, P a e1 -> consumes (k a) (fun b e2 => Q b (e1 ++ e2))) ->
  consumes (p ≫= k) Q.
Proof.
  intros Hp Hk pre rest b d Hb. rewrite st_bind_run.
  destruct (p (decoder_at pre rest)) as [[a|] d1] eqn:Hrun; [|done].
  destruct (Hp _ _ _ _ Hb Hrun) as (e1 & rest1 & -> & -> & HP). apply Forall_app in Hb as [_ Hb].
  intros H. destruct (Hk a e1 HP _ _ _ _ Hb H) as (e2 & rest2 & -> & -> & HQ).
  exists (e1 ++ e2), rest2. by rewrite !app_assoc.
Qed.

Lemma consumes_guard {A} (cond : bool) err (q : ST DurableDecoder A) Q :
  (cond = false -> consumes q Q) -> consumes (st_reject_if cond err;; q) Q.
Proof. intros Hq pre rest a d Hb. destruct cond; [done|]. by apply Hq. Qed.

Lemma consumes_take len : 0 <= len ->
  consumes (Decoder_take len) (fun a e => a = e /\ Z.of_nat (length e) = len /\ Forall is_byte e).
Proof.
  intros Hl pre rest a d Hb. unfold Decoder_take, decoder_at. rewrite st_bind_run.
  cbn [st_get dd_bytes dd_offset]. rewrite st_bind_lift. unfold checked_add.
  destruct (_ <? U64_MOD); [|done]. cbn [ok_or]. rewrite st_bind_run.
  unfold st_reject_if, st_lift, reject_if. destruct (_ <? _) eqn:Hlen; [done|]. apply Z.ltb_ge in Hlen.
  rewrite length_app in Hlen. unfold st_put, slice. cbn [mbind ST_bind mret ST_ret].
  rewrite Nat2Z.id, drop_app_length. intros [= <- <-].
  assert (Htake : Z.of_nat (length (take (Z.to_nat len) rest)) = len) by (rewrite length_take; lia).
  exists (take (Z.to_nat len) rest), (drop (Z.to_nat len) rest).
  split; [by rewrite take_drop|]. split; [|split_and!; [done|done|by apply Forall_take]].
  rewrite <-app_assoc, take_drop, length_app, Nat2Z.inj_add. by rewrite Htake.
Qed.

(** *** Big-endian integers *)

Lemma be_value_acc l acc :
  fold_left (fun acc b => 256 * acc + b) l acc = acc * 256 ^ Z.of_nat (length l) + be_value l.
Proof.
  unfold be_value. revert acc. induction l as [|b l IH]; intros acc; cbn [fold_left length]; [lia|].
  rewrite IH, (IH (256 * 0 + b)), Nat2Z.inj_succ, Z.pow_succ_r by lia. lia.
Qed.

Lemma be_value_cons b l : be_value (b :: l) = b * 256 ^ Z.of_nat (length l) + be_value l.
Proof. unfold be_value at 1. cbn [fold_left]. by rewrite be_value_acc. Qed.

Lemma be_value_bound l : Forall is_byte l -> 0 <= be_value l < 256 ^ Z.of_nat (length l).
Proof.
  induction 1 as [|b l Hb _ IH]; [done|]. rewrite be_value_cons. cbn [length].
  rewrite Nat2Z.inj_succ, Z.pow_succ_r by lia. unfold is_byte in Hb. nia.
Qed.

Lemma be_bytes_are n v : Forall is_byte (be_bytes n v).
Proof. induction n; cbn [be_bytes]; constructor; [apply Z.mod_pos_bound; lia|done]. Qed.

Lemma be_value_be_bytes n v : be_value (be_bytes n v) = v mod 256 ^ Z.of_nat n.
Proof.
  induction n as [|n IH]; [by rewrite Z.mod_1_r|]. cbn [be_bytes]. rewrite be_value_cons, be_bytes_length, IH.
  rewrite Nat2Z.inj_succ, Z.pow_succ_r, (Z.mul_comm 256), Z.rem_mul_r by lia. lia.
Qed.

Lemma be_bytes_be_value l : Forall is_byte l -> be_bytes (length l) (be_value l) = l.
Proof.
  assert (Hmod : forall n v w, v mod 256 ^ Z.of_nat n = w mod 256 ^ Z.of_nat n -> be_bytes n v = be_bytes n w).
  { induction n as [|n IH]; [done|]. intros v w. cbn [be_bytes].
    rewrite Nat2Z.inj_succ, Z.pow_succ_r, (Z.mul_comm 256), !Z.rem_mul_r by lia.
    set (m := 256 ^ Z.of_nat n). assert (0 < m) by (apply Z.pow_pos_nonneg; lia). intros Hvw.
    pose proof (Z.mod_pos_bound v m ltac:(lia)). pose proof (Z.mod_pos_bound w m ltac:(lia)).
    destruct (Z.div_mod_unique m ((v / m) mod 256) ((w / m) mod 256) (v mod m) (w mod m)) as [-> Heq]; [lia|lia|lia|].
    f_equal. by apply IH. }
  induction 1 as [|b l Hb Hl IH]; [done|]. cbn [length be_bytes]. rewrite be_value_cons.
  pose proof (be_value_bound l Hl). set (m := 256 ^ Z.of_nat (length l)) in *. unfold is_byte in Hb. f_equal.
  - rewrite Z.div_add_l, Z.div_small, Z.add_0_r, Z.mod_small by lia. done.
  - etrans; [|exact IH]. apply Hmod. fold m. by rewrite Z.add_comm, Z.mod_add by lia.
Qed.

Definition in_u8 (z : Z) : Prop := is_byte z.
Definition in_u16 (z : Z) : Prop := 0 <= z < 2 ^ 16.

(** An integer of [n] bytes. *)
Lemma uint_round_trip n v :
  0 <= v < 256 ^ Z.of_nat n ->
  emits (Encoder_extend (be_bytes n v)) (be_bytes n v) /\
  reads (bytes ← Decoder_take (Z.of_nat n); mret (be_value bytes)) (be_bytes n v) v.
Proof.
  intros Hv. split; [done|]. pose proof (be_value_be_bytes n v) as Hval. rewrite Z.mod_small in Hval by done.
  rewrite <-Hval at 2. apply reads_uint, be_bytes_length.
Qed.

Lemma uint_canonical n :
  consumes (bytes ← Decoder_take (Z.of_nat n); mret (be_value bytes))
    (fun v e => 0 <= v < 256 ^ Z.of_nat n /\ emits (Encoder_extend (be_bytes n v)) e).
Proof.
  eapply consumes_bind; [apply consumes_take; lia|]. intros a e (-> & Hlen & Hb). apply consumes_ret.
  rewrite app_nil_r. apply Nat2Z.inj in Hlen as <-. split; [by apply be_value_bound|]. by rewrite be_bytes_be_value.
Qed.

#[export] Instance u8_round_trip : RoundTrip u8_codec in_u8.
Proof.
  intros v Hv. exists [v]. split; [done|]. cbn [decode u8_codec]. unfold Decoder_u8.
  intros pre rest Hlen. rewrite st_bind_run. change 1 with (Z.of_nat (length [v])). by rewrite reads_take.
Qed.
#[export] Instance u8_canonical : Canonical u8_codec in_u8.
Proof.
  cbn. eapply consumes_bind; [by apply consumes_take|]. intros a e (-> & Hlen & Hb).
  destruct e as [|v [|]]; cbn in Hlen; try lia. inversion_clear Hb as [|? ? Hv _].
  apply consumes_ret. split; [exact Hv|by intros out].
Qed.

#[export] Instance u32_round_trip : RoundTrip u32_codec in_u32.
Proof. intros v Hv. eexists. by apply (uint_round_trip 4). Qed.
#[export] Instance u32_canonical : Canonical u32_codec in_u32.
Proof. exact (uint_canonical 4). Qed.
#[export] Instance u64_round_trip : RoundTrip u64_codec in_u64.
Proof. intros v Hv. eexists. by apply (uint_round_trip 8). Qed.
#[export] Instance u64_canonical : Canonical u64_codec in_u64.
Proof. exact (uint_canonical 8). Qed.
#[export] Instance u128_round_trip : RoundTrip u128_codec in_u128.
Proof. intros v Hv. eexists. by apply (uint_round_trip 16). Qed.
#[export] Instance u128_canonical : Canonical u128_codec in_u128.
Proof. exact (uint_canonical 16). Qed.
#[export] Instance usize_round_trip : RoundTrip usize_codec in_u64 := u64_round_trip.
#[export] Instance usize_canonical : Canonical usize_codec in_u64 := u64_canonical.
#[export] Instance id128_round_trip : RoundTrip id128_codec in_u128 := u128_round_trip.
#[export] Instance id128_canonical : Canonical id128_codec in_u128 := u128_canonical.
#[export] Instance id64_round_trip : RoundTrip id64_codec in_u64 := u64_round_trip.
#[export] Instance id64_canonical : Canonical id64_codec in_u64 := u64_canonical.
#[export] Instance id32_round_trip : RoundTrip id32_codec in_u32 := u32_round_trip.
#[export] Instance id32_canonical : Canonical id32_codec in_u32 := u32_canonical.

(** *** Automation for records and variants *)

Lemma reads_tag {A} (cases : Z -> ST DurableDecoder A) t e a :
  in_u8 t -> reads (cases t) e a -> reads (decode_tag cases) ([t] ++ e) a.
Proof.
  intros Ht Hc. destruct (round_trip (c := u8_codec) t Ht) as (e' & He & Hr).
  assert (e' = [t]) as -> by (by eapply emits_unique). by eapply reads_bind.
Qed.

Lemma reads_tag_only {A} (cases : Z -> ST DurableDecoder A) t a :
  in_u8 t -> cases t = mret a -> reads (decode_tag cases) [t] a.
Proof. intros Ht Hc. rewrite <-(app_nil_r [t]). apply reads_tag; [done|]. rewrite Hc. apply reads_ret. Qed.

Lemma consumes_tag {A} (cases : Z -> ST DurableDecoder A) (Q : A -> list Z -> Prop) :
  (forall t, in_u8 t -> consumes (cases t) (fun a e => Q a ([t] ++ e))) -> consumes (decode_tag cases) Q.
Proof.
  intros Hc. eapply consumes_bind; [apply u8_canonical|]. intros t e [Ht He].
  assert (e = [t]) as -> by (by eapply emits_unique). by apply Hc.
Qed.

Lemma consumes_field {A B} (c : DurableCodec A) (ok : A -> Prop) `{!Canonical c ok}
    (k : A -> ST DurableDecoder B) (Q : B -> list Z -> Prop) :
  (forall a e1, ok a -> emits (encode c a) e1 -> consumes (k a) (fun b e2 => Q b (e1 ++ e2))) ->
  consumes (decode c ≫= k) Q.
Proof. intros Hk. eapply consumes_bind; [apply canonical|]. intros a e [??]. by apply Hk. Qed.

(** [emit_tac]: split what a program writes into what its parts write. *)
Ltac emit_step :=
  lazymatch goal with
  | |- emits (_ ;; _) _ => eapply emits_bind
  | |- emits (encode u8_codec _) _ => first [apply emits_extend|apply emits_nil, emits_extend]
  | |- emits (Encoder_put_u8 _) _ => first [apply emits_extend|apply emits_nil, emits_extend]
  | |- emits (encode _ _) _ => first [eassumption|apply emits_nil; eassumption]
  end.
Ltac emit_tac := repeat emit_step.

(** [read_tac]: the same for what a program reads. *)
Ltac read_step :=
  match goal with
  | |- reads (decode_tag _) [_] _ => apply reads_tag_only; [by vm_compute|reflexivity]
  | |- reads (decode_tag _) ([_] ++ _) _ => apply reads_tag; [by vm_compute|cbv beta iota]
  | H : reads ?p ?e _ |- reads ?p ?e _ => exact H
  | H : reads ?p ?e _ |- reads (?p ≫= _) ?e _ => eapply reads_bind_ret; [exact H|reflexivity]
  | H : reads ?p ?e _ |- reads (?p ≫= _) (?e ++ _) _ => eapply reads_bind; [exact H|cbv beta]
  end.
Ltac read_tac := repeat read_step.

(** [use_fields]: the laws of the fields, which the hypotheses say are fit. *)
Ltac use_field c x :=
  let e := fresh "e" in let He := fresh "He" in let Hd := fresh "Hd" in
  let law := constr:(round_trip (c := c) x) in
  destruct (law ltac:(assumption)) as (e & He & Hd).
Ltac use_fields :=
  repeat match goal with
  | |- context [encode ?c ?x] =>
      lazymatch c with u8_codec => fail | _ => idtac end;
      lazymatch goal with
      | _ : emits (encode c x) _ |- _ => fail
      | _ => use_field c x
      end
  end.

(** [codec_unfold]: the methods of one codec, leaving those of its fields. *)
Ltac codec_unfold c := unfold c; cbn [encode decode]; cbn -[encode decode app].

(** [codec_rt]: the round trip of a record or a variant. *)
Ltac codec_rt c ok :=
  let a := fresh "a" in let H := fresh "H" in
  intros a H; unfold ok in H; destruct a; cbn in H; destruct_and?;
  codec_unfold c; use_fields; (eexists; split; [by emit_tac|by read_tac]).

(** [codec_canon]: everything a record or a variant accepts is canonical. *)
Ltac canon_step :=
  match goal with
  | |- consumes (decode_tag _) _ => apply consumes_tag; intros ? _
  | |- consumes (match ?t with _ => _ end) _ => destruct t
  | |- consumes (st_lift (Err _)) _ => apply consumes_err
  | |- consumes (decode _ ≫= _) _ => eapply consumes_field; [typeclasses eauto|intros]
  | |- consumes (mret _) _ => apply consumes_ret
  end.
Ltac codec_canon c ok :=
  unfold Canonical; codec_unfold c; repeat canon_step;
  (split; [unfold ok; cbn; split_and?; (assumption || done)|cbn -[encode app]; by emit_tac]).

(** *** Containers *)

#[export] Instance bool_round_trip : RoundTrip bool_codec (fun _ => True).
Proof. intros [] _; cbn; eexists; (split; [by emit_tac|by read_tac]). Qed.
#[export] Instance bool_canonical : Canonical bool_codec (fun _ => True).
Proof. unfold Canonical; cbn; repeat canon_step; (split; [done|cbn -[app]; by emit_tac]). Qed.

Definition option_ok {A} (ok : A -> Prop) (o : option A) : Prop :=
  match o with Some a => ok a | None => True end.
#[export] Instance option_round_trip {A} (c : DurableCodec A) ok :
  RoundTrip c ok -> RoundTrip (option_codec c) (option_ok ok).
Proof. intros Hc. codec_rt @option_codec @option_ok. Qed.
#[export] Instance option_canonical {A} (c : DurableCodec A) ok :
  Canonical c ok -> Canonical (option_codec c) (option_ok ok).
Proof. intros Hc. codec_canon @option_codec @option_ok. Qed.

Definition vec_ok {A} (ok : A -> Prop) (l : list A) : Prop :=
  Forall ok l /\ Z.of_nat (length l) <= MAX_DURABLE_COLLECTION_LEN.

Lemma max_len_u64 n : n <= MAX_DURABLE_COLLECTION_LEN -> n < U64_MOD.
Proof. unfold MAX_DURABLE_COLLECTION_LEN. u64_unfold. lia. Qed.

Lemma decode_n_reads {A} (c : DurableCodec A) ok `{!RoundTrip c ok} l :
  Forall ok l -> exists e, emits (st_for (encode c) l) e /\ reads (decode_n c (length l)) e l.
Proof.
  induction 1 as [|a l Ha _ IH]; cbn [st_for length decode_n].
  - exists []. split; [intros out; by rewrite app_nil_r|apply reads_ret].
  - destruct (round_trip (c := c) a Ha) as (e1 & He1 & Hr1). destruct IH as (e2 & He2 & Hr2).
    exists (e1 ++ e2). split; [by apply emits_bind|].
    eapply reads_bind; [exact Hr1|]. by eapply reads_bind_ret.
Qed.

Lemma decode_n_consumes {A} (c : DurableCodec A) ok `{!Canonical c ok} n :
  consumes (decode_n c n) (fun l e => length l = n /\ Forall ok l /\ emits (st_for (encode c) l) e).
Proof.
  induction n as [|n IH]; cbn [decode_n].
  - apply consumes_ret. split_and!; [done|by constructor|]. intros out. by rewrite app_nil_r.
  - eapply consumes_field; [typeclasses eauto|]. intros a e1 Ha He1.
    eapply consumes_bind; [exact IH|]. intros l e2 (Hlen & Hl & He2). apply consumes_ret.
    rewrite app_nil_r. split_and!; [cbn; lia|by constructor|]. cbn [st_for]. by apply emits_bind.
Qed.

#[export] Instance vec_round_trip {A} (c : DurableCodec A) ok :
  RoundTrip c ok -> RoundTrip (vec_codec c) (vec_ok ok).
Proof.
  intros Hc l [Hl Hlen]. destruct (decode_n_reads c ok l Hl) as (e2 & He2 & Hr2).
  assert (Hu : in_u64 (Z.of_nat (length l))) by (apply max_len_u64 in Hlen; split; [lia|done]).
  destruct (round_trip (c := u64_codec) (Z.of_nat (length l)) Hu) as (e1 & He1 & Hr1).
  exists (e1 ++ e2). cbn. split.
  - intros out. rewrite emits_len by apply Hu. by apply emits_bind.
  - eapply reads_bind; [exact Hr1|]. apply reads_guard; [by apply Z.ltb_ge|]. by rewrite Nat2Z.id.
Qed.

#[export] Instance vec_canonical {A} (c : DurableCodec A) ok :
  Canonical c ok -> Canonical (vec_codec c) (vec_ok ok).
Proof.
  intros Hc. unfold Canonical. cbn [decode encode vec_codec]. eapply consumes_field; [apply u64_canonical|]. intros len e1 Hu He1.
  apply consumes_guard. intros Hmax%Z.ltb_ge.
  intros pre rest l d Hb Hrun.
  destruct (decode_n_consumes c ok _ _ _ _ _ Hb Hrun) as (e2 & rest' & -> & -> & Hlen & Hl & He2).
  exists e2, rest'. destruct Hu as [Hu0 Hu1]. assert (Hz : Z.of_nat (length l) = len) by lia.
  split_and!; [done|done|split; [done|lia]|]. intros out. rewrite emits_len by lia. rewrite Hz. by apply emits_bind.
Qed.

(** A byte string. *)
Definition bytes_ok : list Z -> Prop := vec_ok in_u8.

(** *** Maps *)

Definition map_ok {V} (okK : Z -> Prop) (ok : V -> Prop) (m : gmap Z V) : Prop :=
  (forall k v, m !! k = Some v -> okK k /\ ok v) /\
  Z.of_nat (length (bt_iter m)) <= MAX_DURABLE_COLLECTION_LEN.

Definition insert_all {V} (l : list (Z * V)) (m : gmap Z V) : gmap Z V :=
  fold_left (fun m e => <[e.1 := e.2]> m) l m.

Lemma insert_all_lookup {V} (l : list (Z * V)) m k v :
  NoDup l.*1 ->
  insert_all l m !! k = Some v <-> ((k, v) ∈ l) \/ ((k ∉ l.*1) /\ m !! k = Some v).
Proof.
  revert m. induction l as [|[k' v'] l IH]; cbn; intros m Hnd; [set_solver|].
  apply NoDup_cons in Hnd as [Hk' Hnd]. unfold insert_all in *. cbn [fold_left fst snd]. rewrite IH by done.
  rewrite elem_of_cons. destruct (decide (k = k')) as [->|Hne].
  - rewrite lookup_insert_eq. split; [intros [H|[_ [= ->]]]|intros [H|H]]; [|by left; left| |set_solver].
    + contradict Hk'. apply list_elem_of_fmap. by exists (k', v).
    + destruct H as [[= ->]|H]; [by right|]. contradict Hk'. apply list_elem_of_fmap. by exists (k', v).
  - rewrite lookup_insert_ne by done. set_solver.
Qed.

Lemma insert_all_iter {V} (m : gmap Z V) : insert_all (bt_iter m) ∅ = m.
Proof.
  apply map_eq. intros k. apply option_eq. intros v.
  rewrite insert_all_lookup by apply bt_keys_nodup. rewrite elem_of_bt_iter, lookup_empty. naive_solver.
Qed.

Lemma decode_entries_reads {V} (K : DurableCodec Z) (T : DurableCodec V) okK ok
    `{!RoundTrip K okK, !RoundTrip T ok} l m :
  Forall (fun e => okK e.1 /\ ok e.2) l -> NoDup l.*1 -> (forall k, k ∈ l.*1 -> m !! k = None) ->
  exists e, emits (st_for (fun e => encode K e.1;; encode T e.2) l) e /\
    reads (decode_entries K T (length l) m) e (insert_all l m).
Proof.
  intros Hl. revert m. induction Hl as [|[k v] l [Hk Hv] _ IH]; intros m Hnd Hfree; cbn [st_for length decode_entries].
  - exists []. split; [intros out; by rewrite app_nil_r|apply reads_ret].
  - cbn in Hnd, Hfree. apply NoDup_cons in Hnd as [Hkl Hnd]. cbn [fst snd] in *.
    destruct (round_trip (c := K) k Hk) as (e1 & He1 & Hr1). destruct (round_trip (c := T) v Hv) as (e2 & He2 & Hr2).
    destruct (IH (<[k := v]> m) Hnd) as (e3 & He3 & Hr3).
    { intros k' Hk'. rewrite lookup_insert_ne by (intros ->; done). apply Hfree. by right. }
    exists ((e1 ++ e2) ++ e3). split; [by apply emits_bind; [apply emits_bind|]|]. rewrite <-app_assoc.
    eapply reads_bind; [exact Hr1|]. eapply reads_bind; [exact Hr2|]. apply reads_guard; [|exact Hr3].
    rewrite bool_decide_eq_true_2; [done|]. apply Hfree. by left.
Qed.

#[export] Instance map_round_trip {V} (K : DurableCodec Z) (T : DurableCodec V) okK ok :
  RoundTrip K okK -> RoundTrip T ok -> RoundTrip (map_codec K T) (map_ok okK ok).
Proof.
  intros HK HT m [Hm Hlen].
  destruct (decode_entries_reads K T okK ok (bt_iter m) ∅) as (e2 & He2 & Hr2).
  { apply Forall_forall. intros [k v] Hkv%elem_of_bt_iter. by apply Hm. }
  { apply bt_keys_nodup. }
  { intros k _. apply lookup_empty. }
  rewrite insert_all_iter in Hr2.
  assert (Hu : in_u64 (Z.of_nat (length (bt_iter m)))) by (apply max_len_u64 in Hlen; split; [lia|done]).
  destruct (round_trip (c := u64_codec) _ Hu) as (e1 & He1 & Hr1).
  exists (e1 ++ e2). cbn. split.
  - intros out. rewrite emits_len by apply Hu. by apply emits_bind.
  - eapply reads_bind; [exact Hr1|]. apply reads_guard; [by apply Z.ltb_ge|]. by rewrite Nat2Z.id.
Qed.

(** *** Strings and tags *)

Lemma string_bytes_are s : Forall is_byte (ascii_bytes s).
Proof.
  induction s as [|c s IH]; cbn [ascii_bytes]; constructor; [|done].
  pose proof (Ascii.nat_ascii_bounded c). unfold is_byte. lia.
Qed.

Lemma string_of_ascii_bytes s : string_of_bytes (ascii_bytes s) = s.
Proof.
  induction s as [|c s IH]; cbn [ascii_bytes string_of_bytes]; [done|].
  by rewrite Nat2Z.id, Ascii.ascii_nat_embedding, IH.
Qed.

Lemma ascii_bytes_string l : Forall is_byte l -> ascii_bytes (string_of_bytes l) = l.
Proof.
  induction 1 as [|b l Hb _ IH]; cbn [ascii_bytes string_of_bytes]; [done|]. unfold is_byte in Hb.
  rewrite Ascii.nat_ascii_embedding by lia. rewrite IH. f_equal. lia.
Qed.

Definition string_ok (s : string) : Prop :=
  utf8_valid (ascii_bytes s) = true /\ Z.of_nat (length (ascii_bytes s)) <= MAX_DURABLE_STRING_LEN.

Lemma max_string_u64 n : n <= MAX_DURABLE_STRING_LEN -> n < U64_MOD.
Proof. unfold MAX_DURABLE_STRING_LEN. u64_unfold. lia. Qed.

#[export] Instance string_round_trip : RoundTrip string_codec string_ok.
Proof.
  intros s [Hutf Hlen]. set (l := ascii_bytes s) in *.
  assert (Hu : in_u64 (Z.of_nat (length l))) by (apply max_string_u64 in Hlen; split; [lia|done]).
  destruct (round_trip (c := u64_codec) _ Hu) as (e1 & He1 & Hr1).
  exists (e1 ++ l). cbn. fold l. split.
  - intros out. rewrite emits_len by apply Hu. by apply emits_bind; [|apply emits_extend].
  - eapply reads_bind; [exact Hr1|]. apply reads_guard; [by apply Z.ltb_ge|].
    eapply reads_bind_ret; [apply reads_take|]. rewrite Hutf. unfold l. by rewrite string_of_ascii_bytes.
Qed.

#[export] Instance string_canonical : Canonical string_codec string_ok.
Proof.
  unfold Canonical. cbn [decode encode string_codec]. eapply consumes_field; [apply u64_canonical|]. intros len e1 [Hu0 Hu1] He1.
  apply consumes_guard. intros Hmax%Z.ltb_ge. eapply consumes_bind; [by apply consumes_take|].
  intros l e2 (-> & Hlen & Hb). apply consumes_guard. intros Hutf%negb_false_iff. apply consumes_ret.
  rewrite app_nil_r. unfold string_ok. rewrite !ascii_bytes_string by done. split; [split; [done|lia]|].
  intros out. rewrite emits_len by lia. rewrite Hlen. by apply emits_bind; [|apply emits_extend].
Qed.

Definition bytes32_ok (l : list Z) : Prop := length l = 32%nat /\ Forall is_byte l.

#[export] Instance bytes32_round_trip : RoundTrip bytes32_codec bytes32_ok.
Proof. intros l [Hlen _]. exists l. split; [done|]. cbn. replace 32 with (Z.of_nat (length l)) by lia. apply reads_take. Qed.
#[export] Instance bytes32_canonical : Canonical bytes32_codec bytes32_ok.
Proof.
  intros pre rest l d Hb Hrun. destruct (consumes_take 32 ltac:(lia) _ _ _ _ Hb Hrun) as (e & rest' & -> & -> & -> & Hl & He).
  exists e, rest'. split_and!; [done|done|split; [lia|done]|done].
Qed.

(** ** Consequences of the two laws *)

Section laws.
Context {A : Type} (c : DurableCodec A) (ok : A -> Prop) `{!RoundTrip c ok, !Canonical c ok}.

(** Two encodings are equal, or neither is a prefix of the other. *)
Lemma codec_prefix_free a b e1 e2 rest :
  ok a -> ok b -> emits (encode c a) e1 -> emits (encode c b) e2 -> e1 = e2 ++ rest ->
  Z.of_nat (length e1) < U64_MOD -> a = b /\ rest = [].
Proof.
  intros Ha Hb H1 H2 -> Hlen.
  destruct (round_trip (c := c) a Ha) as (e & He & Hra). pose proof (emits_unique _ _ _ He H1) as ->.
  destruct (round_trip (c := c) b Hb) as (e' & He' & Hrb). pose proof (emits_unique _ _ _ He' H2) as ->.
  specialize (Hra [] []). specialize (Hrb [] rest). rewrite !app_nil_r in Hra. cbn [app] in *.
  rewrite Hra in Hrb by done. specialize (Hrb Hlen). injection Hrb as -> _ Hl.
  split; [done|]. rewrite length_app in Hl. destruct rest; [done|]. cbn in Hl. lia.
Qed.
End laws.
