(* ===== verification/CodecObjects.v ===== *)
(** * Codecs of the stored objects ([local/codec.rs])

    One codec per type of the object model, of the provider protocol and of the
    segment catalog, with the values that fit it ([X_ok]: every integer within
    its width, every collection within the decoder's limit) and its laws.  The
    catalog shard holds a map, whose decoder also accepts keys out of order, so
    it is read back but its encoding is not the only one accepted. *)

From S2P Require Import Prelude Api Object Provider Config Catalog Codec.

(** ** Rows of the metadata database ([local/durable/sqlite.rs]) *)

Record DurableDeviceManifest := mkDurableDeviceManifest {
  ddm_device_id : DeviceId;
  ddm_shard_count : Z;
}.

Record DurableDeviceShardHead := mkDurableDeviceShardHead {
  ddh_device_id : DeviceId;
  ddh_shard_id : ShardId;
  ddh_root : MetadataNodeId;
  ddh_generation : DeviceGeneration;
  ddh_latest_commit : CommitSeq;
}.

Record DurableKeyspaceManifest := mkDurableKeyspaceManifest {
  dkm_keyspace_id : KeyspaceId;
  dkm_shard_count : Z;
  dkm_file_count : Z;
}.

Record DurableKeyspaceShardHead := mkDurableKeyspaceShardHead {
  dkh_keyspace_id : KeyspaceId;
  dkh_shard_index : Z;
  dkh_root : KeyspaceCatalogShardId;
  dkh_generation : KeyspaceGeneration;
  dkh_latest_commit : CommitSeq;
}.

(** ** Codecs *)

Definition WriteDurability_codec : DurableCodec WriteDurability := {|
  encode (self : WriteDurability) :=
    match self with
    | Acknowledged => encode u8_codec 1
    | Flushed => encode u8_codec 2
    end;
  decode := decode_tag (fun tag =>
    match tag with
    | 1 => mret Acknowledged
    | 2 => mret Flushed
    | _ => st_lift (Err (durable_codec_error "invalid write durability tag"))
    end);
|}.

Definition LocalStoreConfig_codec : DurableCodec LocalStoreConfig := {|
  encode (self : LocalStoreConfig) :=
    encode usize_codec (shard_count self);;
    encode u32_codec (cfg_block_size self);;
    encode u64_codec (file_root_blocks self);;
    encode usize_codec (metadata_fanout self);;
    encode u64_codec (metadata_leaf_blocks self);;
    encode id128_codec (cfg_storage_node self);;
    encode usize_codec (observability_event_capacity self);;
    encode (option_codec u64_codec) (stream_auto_persist_bytes self);
  decode :=
    shard_count ← decode usize_codec;
    block_size ← decode u32_codec;
    file_root_blocks ← decode u64_codec;
    metadata_fanout ← decode usize_codec;
    metadata_leaf_blocks ← decode u64_codec;
    storage_node ← decode id128_codec;
    observability_event_capacity ← decode usize_codec;
    stream_auto_persist_bytes ← decode (option_codec u64_codec);
    mret (mkLocalStoreConfig shard_count block_size file_root_blocks metadata_fanout
      metadata_leaf_blocks storage_node observability_event_capacity
      stream_auto_persist_bytes);
|}.

Definition DeviceSpec_codec : DurableCodec DeviceSpec := {|
  encode (self : DeviceSpec) :=
    encode u64_codec (ds_logical_blocks self);;
    encode u32_codec (ds_block_size self);
  decode :=
    logical_blocks ← decode u64_codec;
    block_size ← decode u32_codec;
    mret (mkDeviceSpec logical_blocks block_size);
|}.

Definition ByteRange_codec : DurableCodec ByteRange := {|
  encode (self : ByteRange) :=
    encode u64_codec (br_offset self);;
    encode u64_codec (br_len self);
  decode :=
    offset ← decode u64_codec;
    len ← decode u64_codec;
    mret (mkByteRange offset len);
|}.

Definition BlockRange_codec : DurableCodec BlockRange := {|
  encode (self : BlockRange) :=
    encode id64_codec (bk_start self);;
    encode id64_codec (bk_blocks self);
  decode :=
    start ← decode id64_codec;
    blocks ← decode id64_codec;
    mret (mkBlockRange start blocks);
|}.

Definition MappingOwner_codec : DurableCodec MappingOwner := {|
  encode (self : MappingOwner) :=
    match self with
    | OwnBlockDevice device_id =>
        encode u8_codec 1;;
        encode id128_codec device_id
    | OwnNativeKeyspace keyspace_id =>
        encode u8_codec 2;;
        encode id128_codec keyspace_id
    end;
  decode := decode_tag (fun tag =>
    match tag with
    | 1 => device_id ← decode id128_codec; mret (OwnBlockDevice device_id)
    | 2 => keyspace_id ← decode id128_codec; mret (OwnNativeKeyspace keyspace_id)
    | _ => st_lift (Err (durable_codec_error "invalid mapping owner tag"))
    end);
|}.

Definition DeviceHead_codec : DurableCodec DeviceHead := {|
  encode (self : DeviceHead) :=
    encode id128_codec (dh_device_id self);;
    encode id64_codec (dh_generation self);;
    encode (vec_codec id128_codec) (dh_shard_roots self);;
    encode id64_codec (dh_latest_commit self);
  decode :=
    device_id ← decode id128_codec;
    generation ← decode id64_codec;
    shard_roots ← decode (vec_codec id128_codec);
    latest_commit ← decode id64_codec;
    mret (mkDeviceHead device_id generation shard_roots latest_commit);
|}.

Definition DurableDeviceManifest_codec : DurableCodec DurableDeviceManifest := {|
  encode (self : DurableDeviceManifest) :=
    encode id128_codec (ddm_device_id self);;
    encode u64_codec (ddm_shard_count self);
  decode :=
    device_id ← decode id128_codec;
    shard_count ← decode u64_codec;
    mret (mkDurableDeviceManifest device_id shard_count);
|}.

Definition DurableDeviceShardHead_codec : DurableCodec DurableDeviceShardHead := {|
  encode (self : DurableDeviceShardHead) :=
    encode id128_codec (ddh_device_id self);;
    encode id32_codec (ddh_shard_id self);;
    encode id128_codec (ddh_root self);;
    encode id64_codec (ddh_generation self);;
    encode id64_codec (ddh_latest_commit self);
  decode :=
    device_id ← decode id128_codec;
    shard_id ← decode id32_codec;
    root ← decode id128_codec;
    generation ← decode id64_codec;
    latest_commit ← decode id64_codec;
    mret (mkDurableDeviceShardHead device_id shard_id root generation latest_commit);
|}.

Definition DurableKeyspaceManifest_codec : DurableCodec DurableKeyspaceManifest := {|
  encode (self : DurableKeyspaceManifest) :=
    encode id128_codec (dkm_keyspace_id self);;
    encode u64_codec (dkm_shard_count self);;
    encode u64_codec (dkm_file_count self);
  decode :=
    keyspace_id ← decode id128_codec;
    shard_count ← decode u64_codec;
    file_count ← decode u64_codec;
    mret (mkDurableKeyspaceManifest keyspace_id shard_count file_count);
|}.

Definition DurableKeyspaceShardHead_codec : DurableCodec DurableKeyspaceShardHead := {|
  encode (self : DurableKeyspaceShardHead) :=
    encode id128_codec (dkh_keyspace_id self);;
    encode u32_codec (dkh_shard_index self);;
    encode id128_codec (dkh_root self);;
    encode id64_codec (dkh_generation self);;
    encode id64_codec (dkh_latest_commit self);
  decode :=
    keyspace_id ← decode id128_codec;
    shard_index ← decode u32_codec;
    root ← decode id128_codec;
    generation ← decode id64_codec;
    latest_commit ← decode id64_codec;
    mret (mkDurableKeyspaceShardHead keyspace_id shard_index root generation latest_commit);
|}.

Definition KeyspaceHead_codec : DurableCodec KeyspaceHead := {|
  encode (self : KeyspaceHead) :=
    encode id128_codec (kh_keyspace_id self);;
    encode id64_codec (kh_generation self);;
    encode (vec_codec id128_codec) (kh_shard_roots self);;
    encode usize_codec (kh_file_count self);;
    encode id64_codec (kh_latest_commit self);
  decode :=
    keyspace_id ← decode id128_codec;
    generation ← decode id64_codec;
    shard_roots ← decode (vec_codec id128_codec);
    file_count ← decode usize_codec;
    latest_commit ← decode id64_codec;
    mret (mkKeyspaceHead keyspace_id generation shard_roots file_count latest_commit);
|}.

Definition FileHead_codec : DurableCodec FileHead := {|
  encode (self : FileHead) :=
    encode id128_codec (fh_file_id self);;
    encode id64_codec (fh_version self);;
    encode id128_codec (fh_root self);;
    encode u64_codec (fh_size self);;
    encode id64_codec (fh_latest_commit self);
  decode :=
    file_id ← decode id128_codec;
    version ← decode id64_codec;
    root ← decode id128_codec;
    size ← decode u64_codec;
    latest_commit ← decode id64_codec;
    mret (mkFileHead file_id version root size latest_commit);
|}.

Definition KeyspaceFile_codec : DurableCodec KeyspaceFile := {|
  encode (self : KeyspaceFile) :=
    encode (option_codec string_codec) (kf_name self);;
    encode FileHead_codec (kf_head self);
  decode :=
    name ← decode (option_codec string_codec);
    head ← decode FileHead_codec;
    mret (mkKeyspaceFile name head);
|}.

Definition KeyspaceCatalogShard_codec : DurableCodec KeyspaceCatalogShard := {|
  encode (self : KeyspaceCatalogShard) :=
    encode id128_codec (kcs_shard_id self);;
    encode (map_codec id128_codec KeyspaceFile_codec) (kcs_files self);
  decode :=
    shard_id ← decode id128_codec;
    files ← decode (map_codec id128_codec KeyspaceFile_codec);
    mret (mkKeyspaceCatalogShard shard_id files);
|}.

Definition KeyspaceRoot_codec : DurableCodec KeyspaceRoot := {|
  encode (self : KeyspaceRoot) :=
    encode id128_codec (kr_root_id self);;
    encode (vec_codec id128_codec) (kr_shard_roots self);;
    encode usize_codec (kr_file_count self);
  decode :=
    root_id ← decode id128_codec;
    shard_roots ← decode (vec_codec id128_codec);
    file_count ← decode usize_codec;
    mret (mkKeyspaceRoot root_id shard_roots file_count);
|}.

Definition MetadataChild_codec : DurableCodec MetadataChild := {|
  encode (self : MetadataChild) :=
    encode BlockRange_codec (mc_range self);;
    encode id128_codec (mc_node_id self);
  decode :=
    range ← decode BlockRange_codec;
    node_id ← decode id128_codec;
    mret (mkMetadataChild range node_id);
|}.

Definition LeafEntry_codec : DurableCodec LeafEntry := {|
  encode (self : LeafEntry) :=
    encode id64_codec (le_logical_start self);;
    encode id64_codec (le_blocks self);;
    encode id128_codec (le_segment_id self);;
    encode id64_codec (le_segment_offset self);
  decode :=
    logical_start ← decode id64_codec;
    blocks ← decode id64_codec;
    segment_id ← decode id128_codec;
    segment_offset ← decode id64_codec;
    mret (mkLeafEntry logical_start blocks segment_id segment_offset);
|}.

Definition SegmentPayloadIntegrity_codec : DurableCodec SegmentPayloadIntegrity := {|
  encode (self : SegmentPayloadIntegrity) :=
    match self with
    | Crc32c checksum =>
        encode u8_codec 1;;
        encode u64_codec checksum
    | SpUnchecked => encode u8_codec 2
    end;
  decode := decode_tag (fun tag =>
    match tag with
    | 1 => checksum ← decode u64_codec; mret (Crc32c checksum)
    | 2 => mret SpUnchecked
    | _ => st_lift (Err (durable_codec_error "invalid segment payload integrity tag"))
    end);
|}.

Definition AppendLogRun_codec : DurableCodec AppendLogRun := {|
  encode (self : AppendLogRun) :=
    encode id128_codec (alr_run_id self);;
    encode id128_codec (alr_storage_node self);;
    encode id128_codec (alr_stream_id self);;
    encode id64_codec (alr_writer_epoch self);;
    encode id128_codec (alr_keyspace_id self);;
    encode id128_codec (alr_file_id self);;
    encode u64_codec (alr_file_offset_start self);;
    encode u64_codec (alr_payload_len self);;
    encode u64_codec (alr_log_id self);;
    encode u64_codec (alr_log_payload_offset self);;
    encode u64_codec (alr_log_record_bytes self);;
    encode SegmentPayloadIntegrity_codec (alr_integrity self);
  decode :=
    run_id ← decode id128_codec;
    storage_node ← decode id128_codec;
    stream_id ← decode id128_codec;
    writer_epoch ← decode id64_codec;
    keyspace_id ← decode id128_codec;
    file_id ← decode id128_codec;
    file_offset_start ← decode u64_codec;
    payload_len ← decode u64_codec;
    log_id ← decode u64_codec;
    log_payload_offset ← decode u64_codec;
    log_record_bytes ← decode u64_codec;
    integrity ← decode SegmentPayloadIntegrity_codec;
    mret (mkAppendLogRun run_id storage_node stream_id writer_epoch keyspace_id file_id
      file_offset_start payload_len log_id log_payload_offset log_record_bytes integrity);
|}.

Definition AppendLogRunRange_codec : DurableCodec AppendLogRunRange := {|
  encode (self : AppendLogRunRange) :=
    encode id128_codec (rr_run_id self);;
    encode id128_codec (rr_storage_node self);;
    encode id128_codec (rr_stream_id self);;
    encode id64_codec (rr_writer_epoch self);;
    encode id128_codec (rr_keyspace_id self);;
    encode id128_codec (rr_file_id self);;
    encode u64_codec (rr_file_offset_start self);;
    encode u64_codec (rr_payload_len self);;
    encode u64_codec (rr_log_id self);;
    encode u64_codec (rr_log_payload_offset self);;
    encode SegmentPayloadIntegrity_codec (rr_integrity self);
  decode :=
    run_id ← decode id128_codec;
    storage_node ← decode id128_codec;
    stream_id ← decode id128_codec;
    writer_epoch ← decode id64_codec;
    keyspace_id ← decode id128_codec;
    file_id ← decode id128_codec;
    file_offset_start ← decode u64_codec;
    payload_len ← decode u64_codec;
    log_id ← decode u64_codec;
    log_payload_offset ← decode u64_codec;
    integrity ← decode SegmentPayloadIntegrity_codec;
    mret (mkAppendLogRunRange run_id storage_node stream_id writer_epoch keyspace_id file_id
      file_offset_start payload_len log_id log_payload_offset integrity);
|}.

Definition RunBackedFileExtent_codec : DurableCodec RunBackedFileExtent := {|
  encode (self : RunBackedFileExtent) :=
    encode u64_codec (rx_file_offset_start self);;
    encode u64_codec (rx_payload_len self);;
    encode AppendLogRunRange_codec (rx_run self);
  decode :=
    file_offset_start ← decode u64_codec;
    payload_len ← decode u64_codec;
    run ← decode AppendLogRunRange_codec;
    mret (mkRunBackedFileExtent file_offset_start payload_len run);
|}.

Definition AppendVisiblePublish_codec : DurableCodec AppendVisiblePublish := {|
  encode (self : AppendVisiblePublish) :=
    encode u8_codec 1;;
    encode id128_codec (avp_record_id self);;
    encode id64_codec (avp_commit_seq self);;
    encode id128_codec (avp_keyspace_id self);;
    encode id128_codec (avp_file_id self);;
    encode id64_codec (avp_base_writer_epoch self);;
    encode id64_codec (avp_writer_epoch self);;
    encode id64_codec (avp_base_file_version self);;
    encode id64_codec (avp_new_file_version self);;
    encode u64_codec (avp_old_size self);;
    encode u64_codec (avp_new_size self);;
    encode u64_codec (avp_publish_through self);;
    encode (vec_codec RunBackedFileExtent_codec) (avp_run_extents self);
  decode := decode_tag (fun tag =>
    match tag with
    | 1 =>
        record_id ← decode id128_codec;
        commit_seq ← decode id64_codec;
        keyspace_id ← decode id128_codec;
        file_id ← decode id128_codec;
        base_writer_epoch ← decode id64_codec;
        writer_epoch ← decode id64_codec;
        base_file_version ← decode id64_codec;
        new_file_version ← decode id64_codec;
        old_size ← decode u64_codec;
        new_size ← decode u64_codec;
        publish_through ← decode u64_codec;
        run_extents ← decode (vec_codec RunBackedFileExtent_codec);
        mret (mkAppendVisiblePublish record_id commit_seq keyspace_id file_id
          base_writer_epoch writer_epoch base_file_version new_file_version old_size
          new_size publish_through run_extents)
    | _ => st_lift (Err (durable_codec_error "invalid append visible publish version"))
    end);
|}.

Definition MetadataNodeKind_codec : DurableCodec MetadataNodeKind := {|
  encode (self : MetadataNodeKind) :=
    match self with
    | Internal children =>
        encode u8_codec 1;;
        encode (vec_codec MetadataChild_codec) children
    | Leaf entries run_extents =>
        encode u8_codec 2;;
        encode (vec_codec LeafEntry_codec) entries;;
        encode (vec_codec RunBackedFileExtent_codec) run_extents
    end;
  decode := decode_tag (fun tag =>
    match tag with
    | 1 => children ← decode (vec_codec MetadataChild_codec); mret (Internal children)
    | 2 => 
        entries ← decode (vec_codec LeafEntry_codec);
        run_extents ← decode (vec_codec RunBackedFileExtent_codec);
        mret (Leaf entries run_extents)
    | _ => st_lift (Err (durable_codec_error "invalid metadata node kind tag"))
    end);
|}.

Definition MetadataNode_codec : DurableCodec MetadataNode := {|
  encode (self : MetadataNode) :=
    encode id128_codec (mn_node_id self);;
    encode BlockRange_codec (mn_covered_range self);;
    encode MetadataNodeKind_codec (mn_kind self);
  decode :=
    node_id ← decode id128_codec;
    covered_range ← decode BlockRange_codec;
    kind ← decode MetadataNodeKind_codec;
    mret (mkMetadataNode node_id covered_range kind);
|}.

Definition SegmentDescriptor_codec : DurableCodec SegmentDescriptor := {|
  encode (self : SegmentDescriptor) :=
    encode id128_codec (sd_segment_id self);;
    encode id64_codec (sd_blocks self);;
    encode u64_codec (sd_bytes self);;
    encode SegmentPayloadIntegrity_codec (sd_integrity self);
  decode :=
    segment_id ← decode id128_codec;
    blocks ← decode id64_codec;
    bytes ← decode u64_codec;
    integrity ← decode SegmentPayloadIntegrity_codec;
    mret (mkSegmentDescriptor segment_id blocks bytes integrity);
|}.

Definition ShardRootUpdate_codec : DurableCodec ShardRootUpdate := {|
  encode (self : ShardRootUpdate) :=
    encode id32_codec (sru_shard_id self);;
    encode id128_codec (sru_old_root self);;
    encode id128_codec (sru_new_root self);
  decode :=
    shard_id ← decode id32_codec;
    old_root ← decode id128_codec;
    new_root ← decode id128_codec;
    mret (mkShardRootUpdate shard_id old_root new_root);
|}.

Definition RootUpdate_codec : DurableCodec RootUpdate := {|
  encode (self : RootUpdate) :=
    match self with
    | RuBlockShard update =>
        encode u8_codec 1;;
        encode ShardRootUpdate_codec update
    | RuFileCreated file_id new_root new_size =>
        encode u8_codec 2;;
        encode id128_codec file_id;;
        encode id128_codec new_root;;
        encode u64_codec new_size
    | RuFileRoot file_id old_root new_root new_size =>
        encode u8_codec 3;;
        encode id128_codec file_id;;
        encode id128_codec old_root;;
        encode id128_codec new_root;;
        encode u64_codec new_size
    end;
  decode := decode_tag (fun tag =>
    match tag with
    | 1 => update ← decode ShardRootUpdate_codec; mret (RuBlockShard update)
    | 2 => 
        file_id ← decode id128_codec;
        new_root ← decode id128_codec;
        new_size ← decode u64_codec;
        mret (RuFileCreated file_id new_root new_size)
    | 3 => 
        file_id ← decode id128_codec;
        old_root ← decode id128_codec;
        new_root ← decode id128_codec;
        new_size ← decode u64_codec;
        mret (RuFileRoot file_id old_root new_root new_size)
    | _ => st_lift (Err (durable_codec_error "invalid root update tag"))
    end);
|}.

Definition CommitGroup_codec : DurableCodec CommitGroup := {|
  encode (self : CommitGroup) :=
    encode id128_codec (cg_commit_group self);;
    encode id64_codec (cg_commit_seq self);;
    encode MappingOwner_codec (cg_owner self);;
    encode (vec_codec RootUpdate_codec) (cg_updates self);
  decode :=
    commit_group ← decode id128_codec;
    commit_seq ← decode id64_codec;
    owner ← decode MappingOwner_codec;
    updates ← decode (vec_codec RootUpdate_codec);
    mret (mkCommitGroup commit_group commit_seq owner updates);
|}.

Definition ForkRecord_codec : DurableCodec ForkRecord := {|
  encode (self : ForkRecord) :=
    encode id64_codec (fk_commit_seq self);;
    encode id128_codec (fk_source self);;
    encode id128_codec (fk_target self);;
    encode (vec_codec id128_codec) (fk_shard_roots self);
  decode :=
    commit_seq ← decode id64_codec;
    source ← decode id128_codec;
    target ← decode id128_codec;
    shard_roots ← decode (vec_codec id128_codec);
    mret (mkForkRecord commit_seq source target shard_roots);
|}.

Definition ShardCommit_codec : DurableCodec ShardCommit := {|
  encode (self : ShardCommit) :=
    encode id64_codec (sc_commit_seq self);;
    encode id128_codec (sc_commit_group self);;
    encode id64_codec (sc_time self);;
    encode id128_codec (sc_device_id self);;
    encode id32_codec (sc_shard_id self);;
    encode id128_codec (sc_old_root self);;
    encode id128_codec (sc_new_root self);
  decode :=
    commit_seq ← decode id64_codec;
    commit_group ← decode id128_codec;
    time ← decode id64_codec;
    device_id ← decode id128_codec;
    shard_id ← decode id32_codec;
    old_root ← decode id128_codec;
    new_root ← decode id128_codec;
    mret (mkShardCommit commit_seq commit_group time device_id shard_id old_root new_root);
|}.

Definition KeyspaceCommit_codec : DurableCodec KeyspaceCommit := {|
  encode (self : KeyspaceCommit) :=
    encode id64_codec (kc_commit_seq self);;
    encode id128_codec (kc_commit_group self);;
    encode id64_codec (kc_time self);;
    encode id128_codec (kc_keyspace_id self);;
    encode u32_codec (kc_shard_index self);;
    encode id128_codec (kc_old_shard self);;
    encode id128_codec (kc_new_shard self);;
    encode usize_codec (kc_old_file_count self);;
    encode usize_codec (kc_new_file_count self);
  decode :=
    commit_seq ← decode id64_codec;
    commit_group ← decode id128_codec;
    time ← decode id64_codec;
    keyspace_id ← decode id128_codec;
    shard_index ← decode u32_codec;
    old_shard ← decode id128_codec;
    new_shard ← decode id128_codec;
    old_file_count ← decode usize_codec;
    new_file_count ← decode usize_codec;
    mret (mkKeyspaceCommit commit_seq commit_group time keyspace_id shard_index old_shard
      new_shard old_file_count new_file_count);
|}.

Definition FileCommit_codec : DurableCodec FileCommit := {|
  encode (self : FileCommit) :=
    encode id64_codec (fc_commit_seq self);;
    encode id128_codec (fc_commit_group self);;
    encode id64_codec (fc_time self);;
    encode id128_codec (fc_keyspace_id self);;
    encode id128_codec (fc_file_id self);;
    encode (option_codec id128_codec) (fc_old_root self);;
    encode id128_codec (fc_new_root self);;
    encode (option_codec id64_codec) (fc_old_version self);;
    encode id64_codec (fc_new_version self);;
    encode u64_codec (fc_old_size self);;
    encode u64_codec (fc_new_size self);
  decode :=
    commit_seq ← decode id64_codec;
    commit_group ← decode id128_codec;
    time ← decode id64_codec;
    keyspace_id ← decode id128_codec;
    file_id ← decode id128_codec;
    old_root ← decode (option_codec id128_codec);
    new_root ← decode id128_codec;
    old_version ← decode (option_codec id64_codec);
    new_version ← decode id64_codec;
    old_size ← decode u64_codec;
    new_size ← decode u64_codec;
    mret (mkFileCommit commit_seq commit_group time keyspace_id file_id old_root new_root
      old_version new_version old_size new_size);
|}.

Definition DeleteRecord_codec : DurableCodec DeleteRecord := {|
  encode (self : DeleteRecord) :=
    encode id64_codec (del_commit_seq self);;
    encode id64_codec (del_time self);;
    encode id128_codec (del_device_id self);;
    encode (vec_codec id128_codec) (del_shard_roots self);
  decode :=
    commit_seq ← decode id64_codec;
    time ← decode id64_codec;
    device_id ← decode id128_codec;
    shard_roots ← decode (vec_codec id128_codec);
    mret (mkDeleteRecord commit_seq time device_id shard_roots);
|}.

Definition CheckpointRoots_codec : DurableCodec CheckpointRoots := {|
  encode (self : CheckpointRoots) :=
    match self with
    | CrBlockShard roots =>
        encode u8_codec 1;;
        encode (vec_codec id128_codec) roots
    | CrNativeKeyspace root =>
        encode u8_codec 2;;
        encode id128_codec root
    end;
  decode := decode_tag (fun tag =>
    match tag with
    | 1 => roots ← decode (vec_codec id128_codec); mret (CrBlockShard roots)
    | 2 => root ← decode id128_codec; mret (CrNativeKeyspace root)
    | _ => st_lift (Err (durable_codec_error "invalid checkpoint roots tag"))
    end);
|}.

Definition Checkpoint_codec : DurableCodec Checkpoint := {|
  encode (self : Checkpoint) :=
    encode id128_codec (cp_checkpoint_id self);;
    encode id64_codec (cp_commit_seq self);;
    encode id64_codec (cp_time self);;
    encode MappingOwner_codec (cp_owner self);;
    encode CheckpointRoots_codec (cp_roots self);
  decode :=
    checkpoint_id ← decode id128_codec;
    commit_seq ← decode id64_codec;
    time ← decode id64_codec;
    owner ← decode MappingOwner_codec;
    roots ← decode CheckpointRoots_codec;
    mret (mkCheckpoint checkpoint_id commit_seq time owner roots);
|}.

Definition SegmentReservationIntent_codec : DurableCodec SegmentReservationIntent := {|
  encode (self : SegmentReservationIntent) :=
    encode id128_codec (ri_write_intent self);;
    encode MappingOwner_codec (ri_owner self);;
    encode u64_codec (ri_bytes self);
  decode :=
    write_intent ← decode id128_codec;
    owner ← decode MappingOwner_codec;
    bytes ← decode u64_codec;
    mret (mkSegmentReservationIntent write_intent owner bytes);
|}.

Definition SegmentReservation_codec : DurableCodec SegmentReservation := {|
  encode (self : SegmentReservation) :=
    encode id128_codec (rs_segment_id self);;
    encode u64_codec (rs_bytes self);
  decode :=
    segment_id ← decode id128_codec;
    bytes ← decode u64_codec;
    mret (mkSegmentReservation segment_id bytes);
|}.

Definition SegmentReplicaPlacement_codec : DurableCodec SegmentReplicaPlacement := {|
  encode (self : SegmentReplicaPlacement) :=
    encode id128_codec (pl_segment_id self);;
    encode id128_codec (pl_storage_node self);;
    encode u64_codec (pl_offset self);;
    encode u64_codec (pl_bytes self);
  decode :=
    segment_id ← decode id128_codec;
    storage_node ← decode id128_codec;
    offset ← decode u64_codec;
    bytes ← decode u64_codec;
    mret (mkSegmentReplicaPlacement segment_id storage_node offset bytes);
|}.

Definition SegmentReplicaCommit_codec : DurableCodec SegmentReplicaCommit := {|
  encode (self : SegmentReplicaCommit) :=
    encode SegmentDescriptor_codec (rcm_descriptor self);;
    encode SegmentReplicaPlacement_codec (rcm_placement self);
  decode :=
    descriptor ← decode SegmentDescriptor_codec;
    placement ← decode SegmentReplicaPlacement_codec;
    mret (mkSegmentReplicaCommit descriptor placement);
|}.

Definition ProofScheme_codec : DurableCodec ProofScheme := {|
  encode (self : ProofScheme) :=
    match self with
    | DeterministicTestMacV1 => encode u8_codec 1
    | NodeSignatureV1 => encode u8_codec 2
    end;
  decode := decode_tag (fun tag =>
    match tag with
    | 1 => mret DeterministicTestMacV1
    | 2 => mret NodeSignatureV1
    | _ => st_lift (Err (durable_codec_error "invalid proof scheme tag"))
    end);
|}.

Definition WriteGrantIntent_codec : DurableCodec WriteGrantIntent := {|
  encode (self : WriteGrantIntent) :=
    match self with
    | IntentBlockWrite device_id range fence shard_id old_root =>
        encode u8_codec 1;;
        encode id128_codec device_id;;
        encode BlockRange_codec range;;
        encode id64_codec fence;;
        encode id32_codec shard_id;;
        encode id128_codec old_root
    | IntentNativeWrite keyspace_id file_id range base_version =>
        encode u8_codec 2;;
        encode id128_codec keyspace_id;;
        encode id128_codec file_id;;
        encode ByteRange_codec range;;
        encode id64_codec base_version
    | IntentNativeAppendStream keyspace_id file_id stream_id ticket_id append_offset bytes
      writer_epoch =>
        encode u8_codec 3;;
        encode id128_codec keyspace_id;;
        encode id128_codec file_id;;
        encode id128_codec stream_id;;
        encode id128_codec ticket_id;;
        encode u64_codec append_offset;;
        encode u64_codec bytes;;
        encode id64_codec writer_epoch
    | IntentInternal owner =>
        encode u8_codec 4;;
        encode MappingOwner_codec owner
    end;
  decode := decode_tag (fun tag =>
    match tag with
    | 1 => 
        device_id ← decode id128_codec;
        range ← decode BlockRange_codec;
        fence ← decode id64_codec;
        shard_id ← decode id32_codec;
        old_root ← decode id128_codec;
        mret (IntentBlockWrite device_id range fence shard_id old_root)
    | 2 => 
        keyspace_id ← decode id128_codec;
        file_id ← decode id128_codec;
        range ← decode ByteRange_codec;
        base_version ← decode id64_codec;
        mret (IntentNativeWrite keyspace_id file_id range base_version)
    | 3 => 
        keyspace_id ← decode id128_codec;
        file_id ← decode id128_codec;
        stream_id ← decode id128_codec;
        ticket_id ← decode id128_codec;
        append_offset ← decode u64_codec;
        bytes ← decode u64_codec;
        writer_epoch ← decode id64_codec;
        mret (IntentNativeAppendStream keyspace_id file_id stream_id ticket_id
          append_offset bytes writer_epoch)
    | 4 => owner ← decode MappingOwner_codec; mret (IntentInternal owner)
    | _ => st_lift (Err (durable_codec_error "invalid write grant intent tag"))
    end);
|}.

Definition SegmentReceiptLifecycle_codec : DurableCodec SegmentReceiptLifecycle := {|
  encode (self : SegmentReceiptLifecycle) :=
    match self with
    | RlDurablePendingMetadata => encode u8_codec 1
    end;
  decode := decode_tag (fun tag =>
    match tag with
    | 1 => mret RlDurablePendingMetadata
    | _ => st_lift (Err (durable_codec_error "invalid segment receipt lifecycle tag"))
    end);
|}.

Definition SegmentWriteReceipt_codec : DurableCodec SegmentWriteReceipt := {|
  encode (self : SegmentWriteReceipt) :=
    encode id128_codec (sr_tenant self);;
    encode id128_codec (sr_grant_id self);;
    encode bytes32_codec (sr_grant_hash self);;
    encode id128_codec (sr_principal self);;
    encode MappingOwner_codec (sr_owner self);;
    encode id128_codec (sr_storage_node self);;
    encode id64_codec (sr_storage_node_incarnation self);;
    encode id128_codec (sr_segment_id self);;
    encode id128_codec (sr_write_intent self);;
    encode WriteGrantIntent_codec (sr_intent self);;
    encode u64_codec (sr_bytes self);;
    encode SegmentPayloadIntegrity_codec (sr_integrity self);;
    encode WriteDurability_codec (sr_durability self);;
    encode SegmentReceiptLifecycle_codec (sr_lifecycle self);;
    encode id64_codec (sr_receipt_epoch self);;
    encode id64_codec (sr_expires_at self);;
    encode id128_codec (sr_node_key_id self);;
    encode ProofScheme_codec (sr_proof_scheme self);;
    encode bytes32_codec (sr_proof self);;
    encode SegmentDescriptor_codec (sr_descriptor self);;
    encode SegmentReplicaPlacement_codec (sr_placement self);
  decode :=
    tenant ← decode id128_codec;
    grant_id ← decode id128_codec;
    grant_hash ← decode bytes32_codec;
    principal ← decode id128_codec;
    owner ← decode MappingOwner_codec;
    storage_node ← decode id128_codec;
    storage_node_incarnation ← decode id64_codec;
    segment_id ← decode id128_codec;
    write_intent ← decode id128_codec;
    intent ← decode WriteGrantIntent_codec;
    bytes ← decode u64_codec;
    integrity ← decode SegmentPayloadIntegrity_codec;
    durability ← decode WriteDurability_codec;
    lifecycle ← decode SegmentReceiptLifecycle_codec;
    receipt_epoch ← decode id64_codec;
    expires_at ← decode id64_codec;
    node_key_id ← decode id128_codec;
    proof_scheme ← decode ProofScheme_codec;
    proof ← decode bytes32_codec;
    descriptor ← decode SegmentDescriptor_codec;
    placement ← decode SegmentReplicaPlacement_codec;
    mret (mkSegmentWriteReceipt tenant grant_id grant_hash principal owner storage_node
      storage_node_incarnation segment_id write_intent intent bytes integrity durability
      lifecycle receipt_epoch expires_at node_key_id proof_scheme proof descriptor
      placement);
|}.

Definition SegmentLifecycleState_codec : DurableCodec SegmentLifecycleState := {|
  encode (self : SegmentLifecycleState) :=
    match self with
    | Reserved => encode u8_codec 1
    | Writing => encode u8_codec 2
    | DurablePendingMetadata => encode u8_codec 3
    | Referenced => encode u8_codec 4
    | Released => encode u8_codec 5
    | Freed => encode u8_codec 6
    end;
  decode := decode_tag (fun tag =>
    match tag with
    | 1 => mret Reserved
    | 2 => mret Writing
    | 3 => mret DurablePendingMetadata
    | 4 => mret Referenced
    | 5 => mret Released
    | 6 => mret Freed
    | _ => st_lift (Err (durable_codec_error "invalid segment lifecycle tag"))
    end);
|}.

Definition CatalogEntry_codec : DurableCodec CatalogEntry := {|
  encode (self : CatalogEntry) :=
    encode SegmentReservationIntent_codec (ce_intent self);;
    encode SegmentReservation_codec (ce_reservation self);;
    encode SegmentLifecycleState_codec (ce_state self);;
    encode (option_codec SegmentWriteReceipt_codec) (ce_receipt self);
  decode :=
    intent ← decode SegmentReservationIntent_codec;
    reservation ← decode SegmentReservation_codec;
    state ← decode SegmentLifecycleState_codec;
    receipt ← decode (option_codec SegmentWriteReceipt_codec);
    mret (mkCatalogEntry intent reservation state receipt);
|}.

(** ** Laws *)

Definition WriteDurability_ok (self : WriteDurability) : Prop :=
  match self with
  | Acknowledged => True
  | Flushed => True
  end.
#[export] Instance WriteDurability_round_trip : RoundTrip WriteDurability_codec
  WriteDurability_ok.
Proof. codec_rt WriteDurability_codec WriteDurability_ok. Qed.
#[export] Instance WriteDurability_canonical : Canonical WriteDurability_codec WriteDurability_ok.
Proof. codec_canon WriteDurability_codec WriteDurability_ok. Qed.

Definition LocalStoreConfig_ok (self : LocalStoreConfig) : Prop :=
  in_u64 (shard_count self) /\ in_u32 (cfg_block_size self) /\ in_u64 (file_root_blocks self) /\
  in_u64 (metadata_fanout self) /\ in_u64 (metadata_leaf_blocks self) /\
  in_u128 (cfg_storage_node self) /\ in_u64 (observability_event_capacity self) /\
  option_ok in_u64 (stream_auto_persist_bytes self).
#[export] Instance LocalStoreConfig_round_trip : RoundTrip LocalStoreConfig_codec
  LocalStoreConfig_ok.
Proof. codec_rt LocalStoreConfig_codec LocalStoreConfig_ok. Qed.
#[export] Instance LocalStoreConfig_canonical : Canonical LocalStoreConfig_codec
  LocalStoreConfig_ok.
Proof. codec_canon LocalStoreConfig_codec LocalStoreConfig_ok. Qed.

Definition DeviceSpec_ok (self : DeviceSpec) : Prop :=
  in_u64 (ds_logical_blocks self) /\ in_u32 (ds_block_size self).
#[export] Instance DeviceSpec_round_trip : RoundTrip DeviceSpec_codec DeviceSpec_ok.
Proof. codec_rt DeviceSpec_codec DeviceSpec_ok. Qed.
#[export] Instance DeviceSpec_canonical : Canonical DeviceSpec_codec DeviceSpec_ok.
Proof. codec_canon DeviceSpec_codec DeviceSpec_ok. Qed.

Definition ByteRange_ok (self : ByteRange) : Prop :=
  in_u64 (br_offset self) /\ in_u64 (br_len self).
#[export] Instance ByteRange_round_trip : RoundTrip ByteRange_codec ByteRange_ok.
Proof. codec_rt ByteRange_codec ByteRange_ok. Qed.
#[export] Instance ByteRange_canonical : Canonical ByteRange_codec ByteRange_ok.
Proof. codec_canon ByteRange_codec ByteRange_ok. Qed.

Definition BlockRange_ok (self : BlockRange) : Prop :=
  in_u64 (bk_start self) /\ in_u64 (bk_blocks self).
#[export] Instance BlockRange_round_trip : RoundTrip BlockRange_codec BlockRange_ok.
Proof. codec_rt BlockRange_codec BlockRange_ok. Qed.
#[export] Instance BlockRange_canonical : Canonical BlockRange_codec BlockRange_ok.
Proof. codec_canon BlockRange_codec BlockRange_ok. Qed.

Definition MappingOwner_ok (self : MappingOwner) : Prop :=
  match self with
  | OwnBlockDevice device_id => in_u128 device_id
  | OwnNativeKeyspace keyspace_id => in_u128 keyspace_id
  end.
#[export] Instance MappingOwner_round_trip : RoundTrip MappingOwner_codec MappingOwner_ok.
Proof. codec_rt MappingOwner_codec MappingOwner_ok. Qed.
#[export] Instance MappingOwner_canonical : Canonical MappingOwner_codec MappingOwner_ok.
Proof. codec_canon MappingOwner_codec MappingOwner_ok. Qed.

Definition DeviceHead_ok (self : DeviceHead) : Prop :=
  in_u128 (dh_device_id self) /\ in_u64 (dh_generation self) /\
  vec_ok in_u128 (dh_shard_roots self) /\ in_u64 (dh_latest_commit self).
#[export] Instance DeviceHead_round_trip : RoundTrip DeviceHead_codec DeviceHead_ok.
Proof. codec_rt DeviceHead_codec DeviceHead_ok. Qed.
#[export] Instance DeviceHead_canonical : Canonical DeviceHead_codec DeviceHead_ok.
Proof. codec_canon DeviceHead_codec DeviceHead_ok. Qed.

Definition DurableDeviceManifest_ok (self : DurableDeviceManifest) : Prop :=
  in_u128 (ddm_device_id self) /\ in_u64 (ddm_shard_count self).
#[export] Instance DurableDeviceManifest_round_trip : RoundTrip DurableDeviceManifest_codec
  DurableDeviceManifest_ok.
Proof. codec_rt DurableDeviceManifest_codec DurableDeviceManifest_ok. Qed.
#[export] Instance DurableDeviceManifest_canonical : Canonical DurableDeviceManifest_codec
  DurableDeviceManifest_ok.
Proof. codec_canon DurableDeviceManifest_codec DurableDeviceManifest_ok. Qed.

Definition DurableDeviceShardHead_ok (self : DurableDeviceShardHead) : Prop :=
  in_u128 (ddh_device_id self) /\ in_u32 (ddh_shard_id self) /\ in_u128 (ddh_root self) /\
  in_u64 (ddh_generation self) /\ in_u64 (ddh_latest_commit self).
#[export] Instance DurableDeviceShardHead_round_trip : RoundTrip DurableDeviceShardHead_codec
  DurableDeviceShardHead_ok.
Proof. codec_rt DurableDeviceShardHead_codec DurableDeviceShardHead_ok. Qed.
#[export] Instance DurableDeviceShardHead_canonical : Canonical DurableDeviceShardHead_codec
  DurableDeviceShardHead_ok.
Proof. codec_canon DurableDeviceShardHead_codec DurableDeviceShardHead_ok. Qed.

Definition DurableKeyspaceManifest_ok (self : DurableKeyspaceManifest) : Prop :=
  in_u128 (dkm_keyspace_id self) /\ in_u64 (dkm_shard_count self) /\
  in_u64 (dkm_file_count self).
#[export] Instance DurableKeyspaceManifest_round_trip : RoundTrip DurableKeyspaceManifest_codec
  DurableKeyspaceManifest_ok.
Proof. codec_rt DurableKeyspaceManifest_codec DurableKeyspaceManifest_ok. Qed.
#[export] Instance DurableKeyspaceManifest_canonical : Canonical DurableKeyspaceManifest_codec
  DurableKeyspaceManifest_ok.
Proof. codec_canon DurableKeyspaceManifest_codec DurableKeyspaceManifest_ok. Qed.

Definition DurableKeyspaceShardHead_ok (self : DurableKeyspaceShardHead) : Prop :=
  in_u128 (dkh_keyspace_id self) /\ in_u32 (dkh_shard_index self) /\ in_u128 (dkh_root self) /\
  in_u64 (dkh_generation self) /\ in_u64 (dkh_latest_commit self).
#[export] Instance DurableKeyspaceShardHead_round_trip : RoundTrip
  DurableKeyspaceShardHead_codec DurableKeyspaceShardHead_ok.
Proof. codec_rt DurableKeyspaceShardHead_codec DurableKeyspaceShardHead_ok. Qed.
#[export] Instance DurableKeyspaceShardHead_canonical : Canonical DurableKeyspaceShardHead_codec
  DurableKeyspaceShardHead_ok.
Proof. codec_canon DurableKeyspaceShardHead_codec DurableKeyspaceShardHead_ok. Qed.

Definition KeyspaceHead_ok (self : KeyspaceHead) : Prop :=
  in_u128 (kh_keyspace_id self) /\ in_u64 (kh_generation self) /\
  vec_ok in_u128 (kh_shard_roots self) /\ in_u64 (kh_file_count self) /\
  in_u64 (kh_latest_commit self).
#[export] Instance KeyspaceHead_round_trip : RoundTrip KeyspaceHead_codec KeyspaceHead_ok.
Proof. codec_rt KeyspaceHead_codec KeyspaceHead_ok. Qed.
#[export] Instance KeyspaceHead_canonical : Canonical KeyspaceHead_codec KeyspaceHead_ok.
Proof. codec_canon KeyspaceHead_codec KeyspaceHead_ok. Qed.

Definition FileHead_ok (self : FileHead) : Prop :=
  in_u128 (fh_file_id self) /\ in_u64 (fh_version self) /\ in_u128 (fh_root self) /\
  in_u64 (fh_size self) /\ in_u64 (fh_latest_commit self).
#[export] Instance FileHead_round_trip : RoundTrip FileHead_codec FileHead_ok.
Proof. codec_rt FileHead_codec FileHead_ok. Qed.
#[export] Instance FileHead_canonical : Canonical FileHead_codec FileHead_ok.
Proof. codec_canon FileHead_codec FileHead_ok. Qed.

Definition KeyspaceFile_ok (self : KeyspaceFile) : Prop :=
  option_ok string_ok (kf_name self) /\ FileHead_ok (kf_head self).
#[export] Instance KeyspaceFile_round_trip : RoundTrip KeyspaceFile_codec KeyspaceFile_ok.
Proof. codec_rt KeyspaceFile_codec KeyspaceFile_ok. Qed.
#[export] Instance KeyspaceFile_canonical : Canonical KeyspaceFile_codec KeyspaceFile_ok.
Proof. codec_canon KeyspaceFile_codec KeyspaceFile_ok. Qed.

Definition KeyspaceCatalogShard_ok (self : KeyspaceCatalogShard) : Prop :=
  in_u128 (kcs_shard_id self) /\ map_ok in_u128 KeyspaceFile_ok (kcs_files self).
#[export] Instance KeyspaceCatalogShard_round_trip : RoundTrip KeyspaceCatalogShard_codec
  KeyspaceCatalogShard_ok.
Proof. codec_rt KeyspaceCatalogShard_codec KeyspaceCatalogShard_ok. Qed.

Definition KeyspaceRoot_ok (self : KeyspaceRoot) : Prop :=
  in_u128 (kr_root_id self) /\ vec_ok in_u128 (kr_shard_roots self) /\
  in_u64 (kr_file_count self).
#[export] Instance KeyspaceRoot_round_trip : RoundTrip KeyspaceRoot_codec KeyspaceRoot_ok.
Proof. codec_rt KeyspaceRoot_codec KeyspaceRoot_ok. Qed.
#[export] Instance KeyspaceRoot_canonical : Canonical KeyspaceRoot_codec KeyspaceRoot_ok.
Proof. codec_canon KeyspaceRoot_codec KeyspaceRoot_ok. Qed.

Definition MetadataChild_ok (self : MetadataChild) : Prop :=
  BlockRange_ok (mc_range self) /\ in_u128 (mc_node_id self).
#[export] Instance MetadataChild_round_trip : RoundTrip MetadataChild_codec MetadataChild_ok.
Proof. codec_rt MetadataChild_codec MetadataChild_ok. Qed.
#[export] Instance MetadataChild_canonical : Canonical MetadataChild_codec MetadataChild_ok.
Proof. codec_canon MetadataChild_codec MetadataChild_ok. Qed.

Definition LeafEntry_ok (self : LeafEntry) : Prop :=
  in_u64 (le_logical_start self) /\ in_u64 (le_blocks self) /\ in_u128 (le_segment_id self) /\
  in_u64 (le_segment_offset self).
#[export] Instance LeafEntry_round_trip : RoundTrip LeafEntry_codec LeafEntry_ok.
Proof. codec_rt LeafEntry_codec LeafEntry_ok. Qed.
#[export] Instance LeafEntry_canonical : Canonical LeafEntry_codec LeafEntry_ok.
Proof. codec_canon LeafEntry_codec LeafEntry_ok. Qed.

Definition SegmentPayloadIntegrity_ok (self : SegmentPayloadIntegrity) : Prop :=
  match self with
  | Crc32c checksum => in_u64 checksum
  | SpUnchecked => True
  end.
#[export] Instance SegmentPayloadIntegrity_round_trip : RoundTrip SegmentPayloadIntegrity_codec
  SegmentPayloadIntegrity_ok.
Proof. codec_rt SegmentPayloadIntegrity_codec SegmentPayloadIntegrity_ok. Qed.
#[export] Instance SegmentPayloadIntegrity_canonical : Canonical SegmentPayloadIntegrity_codec
  SegmentPayloadIntegrity_ok.
Proof. codec_canon SegmentPayloadIntegrity_codec SegmentPayloadIntegrity_ok. Qed.

Definition AppendLogRun_ok (self : AppendLogRun) : Prop :=
  in_u128 (alr_run_id self) /\ in_u128 (alr_storage_node self) /\ in_u128 (alr_stream_id self) /\
  in_u64 (alr_writer_epoch self) /\ in_u128 (alr_keyspace_id self) /\
  in_u128 (alr_file_id self) /\ in_u64 (alr_file_offset_start self) /\
  in_u64 (alr_payload_len self) /\ in_u64 (alr_log_id self) /\
  in_u64 (alr_log_payload_offset self) /\ in_u64 (alr_log_record_bytes self) /\
  SegmentPayloadIntegrity_ok (alr_integrity self).
#[export] Instance AppendLogRun_round_trip : RoundTrip AppendLogRun_codec AppendLogRun_ok.
Proof. codec_rt AppendLogRun_codec AppendLogRun_ok. Qed.
#[export] Instance AppendLogRun_canonical : Canonical AppendLogRun_codec AppendLogRun_ok.
Proof. codec_canon AppendLogRun_codec AppendLogRun_ok. Qed.

Definition AppendLogRunRange_ok (self : AppendLogRunRange) : Prop :=
  in_u128 (rr_run_id self) /\ in_u128 (rr_storage_node self) /\ in_u128 (rr_stream_id self) /\
  in_u64 (rr_writer_epoch self) /\ in_u128 (rr_keyspace_id self) /\ in_u128 (rr_file_id self) /\
  in_u64 (rr_file_offset_start self) /\ in_u64 (rr_payload_len self) /\
  in_u64 (rr_log_id self) /\ in_u64 (rr_log_payload_offset self) /\
  SegmentPayloadIntegrity_ok (rr_integrity self).
#[export] Instance AppendLogRunRange_round_trip : RoundTrip AppendLogRunRange_codec
  AppendLogRunRange_ok.
Proof. codec_rt AppendLogRunRange_codec AppendLogRunRange_ok. Qed.
#[export] Instance AppendLogRunRange_canonical : Canonical AppendLogRunRange_codec
  AppendLogRunRange_ok.
Proof. codec_canon AppendLogRunRange_codec AppendLogRunRange_ok. Qed.

Definition RunBackedFileExtent_ok (self : RunBackedFileExtent) : Prop :=
  in_u64 (rx_file_offset_start self) /\ in_u64 (rx_payload_len self) /\
  AppendLogRunRange_ok (rx_run self).
#[export] Instance RunBackedFileExtent_round_trip : RoundTrip RunBackedFileExtent_codec
  RunBackedFileExtent_ok.
Proof. codec_rt RunBackedFileExtent_codec RunBackedFileExtent_ok. Qed.
#[export] Instance RunBackedFileExtent_canonical : Canonical RunBackedFileExtent_codec
  RunBackedFileExtent_ok.
Proof. codec_canon RunBackedFileExtent_codec RunBackedFileExtent_ok. Qed.

Definition AppendVisiblePublish_ok (self : AppendVisiblePublish) : Prop :=
  in_u128 (avp_record_id self) /\ in_u64 (avp_commit_seq self) /\
  in_u128 (avp_keyspace_id self) /\ in_u128 (avp_file_id self) /\
  in_u64 (avp_base_writer_epoch self) /\ in_u64 (avp_writer_epoch self) /\
  in_u64 (avp_base_file_version self) /\ in_u64 (avp_new_file_version self) /\
  in_u64 (avp_old_size self) /\ in_u64 (avp_new_size self) /\
  in_u64 (avp_publish_through self) /\ vec_ok RunBackedFileExtent_ok (avp_run_extents self).
#[export] Instance AppendVisiblePublish_round_trip : RoundTrip AppendVisiblePublish_codec
  AppendVisiblePublish_ok.
Proof. codec_rt AppendVisiblePublish_codec AppendVisiblePublish_ok. Qed.
#[export] Instance AppendVisiblePublish_canonical : Canonical AppendVisiblePublish_codec
  AppendVisiblePublish_ok.
Proof. codec_canon AppendVisiblePublish_codec AppendVisiblePublish_ok. Qed.

Definition MetadataNodeKind_ok (self : MetadataNodeKind) : Prop :=
  match self with
  | Internal children => vec_ok MetadataChild_ok children
  | Leaf entries run_extents => vec_ok LeafEntry_ok entries /\ vec_ok RunBackedFileExtent_ok
    run_extents
  end.
#[export] Instance MetadataNodeKind_round_trip : RoundTrip MetadataNodeKind_codec
  MetadataNodeKind_ok.
Proof. codec_rt MetadataNodeKind_codec MetadataNodeKind_ok. Qed.
#[export] Instance MetadataNodeKind_canonical : Canonical MetadataNodeKind_codec
  MetadataNodeKind_ok.
Proof. codec_canon MetadataNodeKind_codec MetadataNodeKind_ok. Qed.

Definition MetadataNode_ok (self : MetadataNode) : Prop :=
  in_u128 (mn_node_id self) /\ BlockRange_ok (mn_covered_range self) /\
  MetadataNodeKind_ok (mn_kind self).
#[export] Instance MetadataNode_round_trip : RoundTrip MetadataNode_codec MetadataNode_ok.
Proof. codec_rt MetadataNode_codec MetadataNode_ok. Qed.
#[export] Instance MetadataNode_canonical : Canonical MetadataNode_codec MetadataNode_ok.
Proof. codec_canon MetadataNode_codec MetadataNode_ok. Qed.

Definition SegmentDescriptor_ok (self : SegmentDescriptor) : Prop :=
  in_u128 (sd_segment_id self) /\ in_u64 (sd_blocks self) /\ in_u64 (sd_bytes self) /\
  SegmentPayloadIntegrity_ok (sd_integrity self).
#[export] Instance SegmentDescriptor_round_trip : RoundTrip SegmentDescriptor_codec
  SegmentDescriptor_ok.
Proof. codec_rt SegmentDescriptor_codec SegmentDescriptor_ok. Qed.
#[export] Instance SegmentDescriptor_canonical : Canonical SegmentDescriptor_codec
  SegmentDescriptor_ok.
Proof. codec_canon SegmentDescriptor_codec SegmentDescriptor_ok. Qed.

Definition ShardRootUpdate_ok (self : ShardRootUpdate) : Prop :=
  in_u32 (sru_shard_id self) /\ in_u128 (sru_old_root self) /\ in_u128 (sru_new_root self).
#[export] Instance ShardRootUpdate_round_trip : RoundTrip ShardRootUpdate_codec
  ShardRootUpdate_ok.
Proof. codec_rt ShardRootUpdate_codec ShardRootUpdate_ok. Qed.
#[export] Instance ShardRootUpdate_canonical : Canonical ShardRootUpdate_codec ShardRootUpdate_ok.
Proof. codec_canon ShardRootUpdate_codec ShardRootUpdate_ok. Qed.

Definition RootUpdate_ok (self : RootUpdate) : Prop :=
  match self with
  | RuBlockShard update => ShardRootUpdate_ok update
  | RuFileCreated file_id new_root new_size => in_u128 file_id /\ in_u128 new_root /\ in_u64
    new_size
  | RuFileRoot file_id old_root new_root new_size => in_u128 file_id /\ in_u128 old_root /\
    in_u128 new_root /\ in_u64 new_size
  end.
#[export] Instance RootUpdate_round_trip : RoundTrip RootUpdate_codec RootUpdate_ok.
Proof. codec_rt RootUpdate_codec RootUpdate_ok. Qed.
#[export] Instance RootUpdate_canonical : Canonical RootUpdate_codec RootUpdate_ok.
Proof. codec_canon RootUpdate_codec RootUpdate_ok. Qed.

Definition CommitGroup_ok (self : CommitGroup) : Prop :=
  in_u128 (cg_commit_group self) /\ in_u64 (cg_commit_seq self) /\
  MappingOwner_ok (cg_owner self) /\ vec_ok RootUpdate_ok (cg_updates self).
#[export] Instance CommitGroup_round_trip : RoundTrip CommitGroup_codec CommitGroup_ok.
Proof. codec_rt CommitGroup_codec CommitGroup_ok. Qed.
#[export] Instance CommitGroup_canonical : Canonical CommitGroup_codec CommitGroup_ok.
Proof. codec_canon CommitGroup_codec CommitGroup_ok. Qed.

Definition ForkRecord_ok (self : ForkRecord) : Prop :=
  in_u64 (fk_commit_seq self) /\ in_u128 (fk_source self) /\ in_u128 (fk_target self) /\
  vec_ok in_u128 (fk_shard_roots self).
#[export] Instance ForkRecord_round_trip : RoundTrip ForkRecord_codec ForkRecord_ok.
Proof. codec_rt ForkRecord_codec ForkRecord_ok. Qed.
#[export] Instance ForkRecord_canonical : Canonical ForkRecord_codec ForkRecord_ok.
Proof. codec_canon ForkRecord_codec ForkRecord_ok. Qed.

Definition ShardCommit_ok (self : ShardCommit) : Prop :=
  in_u64 (sc_commit_seq self) /\ in_u128 (sc_commit_group self) /\ in_u64 (sc_time self) /\
  in_u128 (sc_device_id self) /\ in_u32 (sc_shard_id self) /\ in_u128 (sc_old_root self) /\
  in_u128 (sc_new_root self).
#[export] Instance ShardCommit_round_trip : RoundTrip ShardCommit_codec ShardCommit_ok.
Proof. codec_rt ShardCommit_codec ShardCommit_ok. Qed.
#[export] Instance ShardCommit_canonical : Canonical ShardCommit_codec ShardCommit_ok.
Proof. codec_canon ShardCommit_codec ShardCommit_ok. Qed.

Definition KeyspaceCommit_ok (self : KeyspaceCommit) : Prop :=
  in_u64 (kc_commit_seq self) /\ in_u128 (kc_commit_group self) /\ in_u64 (kc_time self) /\
  in_u128 (kc_keyspace_id self) /\ in_u32 (kc_shard_index self) /\ in_u128 (kc_old_shard self) /\
  in_u128 (kc_new_shard self) /\ in_u64 (kc_old_file_count self) /\
  in_u64 (kc_new_file_count self).
#[export] Instance KeyspaceCommit_round_trip : RoundTrip KeyspaceCommit_codec KeyspaceCommit_ok.
Proof. codec_rt KeyspaceCommit_codec KeyspaceCommit_ok. Qed.
#[export] Instance KeyspaceCommit_canonical : Canonical KeyspaceCommit_codec KeyspaceCommit_ok.
Proof. codec_canon KeyspaceCommit_codec KeyspaceCommit_ok. Qed.

Definition FileCommit_ok (self : FileCommit) : Prop :=
  in_u64 (fc_commit_seq self) /\ in_u128 (fc_commit_group self) /\ in_u64 (fc_time self) /\
  in_u128 (fc_keyspace_id self) /\ in_u128 (fc_file_id self) /\
  option_ok in_u128 (fc_old_root self) /\ in_u128 (fc_new_root self) /\
  option_ok in_u64 (fc_old_version self) /\ in_u64 (fc_new_version self) /\
  in_u64 (fc_old_size self) /\ in_u64 (fc_new_size self).
#[export] Instance FileCommit_round_trip : RoundTrip FileCommit_codec FileCommit_ok.
Proof. codec_rt FileCommit_codec FileCommit_ok. Qed.
#[export] Instance FileCommit_canonical : Canonical FileCommit_codec FileCommit_ok.
Proof. codec_canon FileCommit_codec FileCommit_ok. Qed.

Definition DeleteRecord_ok (self : DeleteRecord) : Prop :=
  in_u64 (del_commit_seq self) /\ in_u64 (del_time self) /\ in_u128 (del_device_id self) /\
  vec_ok in_u128 (del_shard_roots self).
#[export] Instance DeleteRecord_round_trip : RoundTrip DeleteRecord_codec DeleteRecord_ok.
Proof. codec_rt DeleteRecord_codec DeleteRecord_ok. Qed.
#[export] Instance DeleteRecord_canonical : Canonical DeleteRecord_codec DeleteRecord_ok.
Proof. codec_canon DeleteRecord_codec DeleteRecord_ok. Qed.

Definition CheckpointRoots_ok (self : CheckpointRoots) : Prop :=
  match self with
  | CrBlockShard roots => vec_ok in_u128 roots
  | CrNativeKeyspace root => in_u128 root
  end.
#[export] Instance CheckpointRoots_round_trip : RoundTrip CheckpointRoots_codec
  CheckpointRoots_ok.
Proof. codec_rt CheckpointRoots_codec CheckpointRoots_ok. Qed.
#[export] Instance CheckpointRoots_canonical : Canonical CheckpointRoots_codec CheckpointRoots_ok.
Proof. codec_canon CheckpointRoots_codec CheckpointRoots_ok. Qed.

Definition Checkpoint_ok (self : Checkpoint) : Prop :=
  in_u128 (cp_checkpoint_id self) /\ in_u64 (cp_commit_seq self) /\ in_u64 (cp_time self) /\
  MappingOwner_ok (cp_owner self) /\ CheckpointRoots_ok (cp_roots self).
#[export] Instance Checkpoint_round_trip : RoundTrip Checkpoint_codec Checkpoint_ok.
Proof. codec_rt Checkpoint_codec Checkpoint_ok. Qed.
#[export] Instance Checkpoint_canonical : Canonical Checkpoint_codec Checkpoint_ok.
Proof. codec_canon Checkpoint_codec Checkpoint_ok. Qed.

Definition SegmentReservationIntent_ok (self : SegmentReservationIntent) : Prop :=
  in_u128 (ri_write_intent self) /\ MappingOwner_ok (ri_owner self) /\ in_u64 (ri_bytes self).
#[export] Instance SegmentReservationIntent_round_trip : RoundTrip
  SegmentReservationIntent_codec SegmentReservationIntent_ok.
Proof. codec_rt SegmentReservationIntent_codec SegmentReservationIntent_ok. Qed.
#[export] Instance SegmentReservationIntent_canonical : Canonical SegmentReservationIntent_codec
  SegmentReservationIntent_ok.
Proof. codec_canon SegmentReservationIntent_codec SegmentReservationIntent_ok. Qed.

Definition SegmentReservation_ok (self : SegmentReservation) : Prop :=
  in_u128 (rs_segment_id self) /\ in_u64 (rs_bytes self).
#[export] Instance SegmentReservation_round_trip : RoundTrip SegmentReservation_codec
  SegmentReservation_ok.
Proof. codec_rt SegmentReservation_codec SegmentReservation_ok. Qed.
#[export] Instance SegmentReservation_canonical : Canonical SegmentReservation_codec
  SegmentReservation_ok.
Proof. codec_canon SegmentReservation_codec SegmentReservation_ok. Qed.

Definition SegmentReplicaPlacement_ok (self : SegmentReplicaPlacement) : Prop :=
  in_u128 (pl_segment_id self) /\ in_u128 (pl_storage_node self) /\ in_u64 (pl_offset self) /\
  in_u64 (pl_bytes self).
#[export] Instance SegmentReplicaPlacement_round_trip : RoundTrip SegmentReplicaPlacement_codec
  SegmentReplicaPlacement_ok.
Proof. codec_rt SegmentReplicaPlacement_codec SegmentReplicaPlacement_ok. Qed.
#[export] Instance SegmentReplicaPlacement_canonical : Canonical SegmentReplicaPlacement_codec
  SegmentReplicaPlacement_ok.
Proof. codec_canon SegmentReplicaPlacement_codec SegmentReplicaPlacement_ok. Qed.

Definition SegmentReplicaCommit_ok (self : SegmentReplicaCommit) : Prop :=
  SegmentDescriptor_ok (rcm_descriptor self) /\
  SegmentReplicaPlacement_ok (rcm_placement self).
#[export] Instance SegmentReplicaCommit_round_trip : RoundTrip SegmentReplicaCommit_codec
  SegmentReplicaCommit_ok.
Proof. codec_rt SegmentReplicaCommit_codec SegmentReplicaCommit_ok. Qed.
#[export] Instance SegmentReplicaCommit_canonical : Canonical SegmentReplicaCommit_codec
  SegmentReplicaCommit_ok.
Proof. codec_canon SegmentReplicaCommit_codec SegmentReplicaCommit_ok. Qed.

Definition ProofScheme_ok (self : ProofScheme) : Prop :=
  match self with
  | DeterministicTestMacV1 => True
  | NodeSignatureV1 => True
  end.
#[export] Instance ProofScheme_round_trip : RoundTrip ProofScheme_codec ProofScheme_ok.
Proof. codec_rt ProofScheme_codec ProofScheme_ok. Qed.
#[export] Instance ProofScheme_canonical : Canonical ProofScheme_codec ProofScheme_ok.
Proof. codec_canon ProofScheme_codec ProofScheme_ok. Qed.

Definition WriteGrantIntent_ok (self : WriteGrantIntent) : Prop :=
  match self with
  | IntentBlockWrite device_id range fence shard_id old_root => in_u128 device_id /\
    BlockRange_ok range /\ in_u64 fence /\ in_u32 shard_id /\ in_u128 old_root
  | IntentNativeWrite keyspace_id file_id range base_version => in_u128 keyspace_id /\ in_u128
    file_id /\ ByteRange_ok range /\ in_u64 base_version
  | IntentNativeAppendStream keyspace_id file_id stream_id ticket_id append_offset bytes
    writer_epoch => in_u128 keyspace_id /\ in_u128 file_id /\ in_u128 stream_id /\ in_u128
    ticket_id /\ in_u64 append_offset /\ in_u64 bytes /\ in_u64 writer_epoch
  | IntentInternal owner => MappingOwner_ok owner
  end.
#[export] Instance WriteGrantIntent_round_trip : RoundTrip WriteGrantIntent_codec
  WriteGrantIntent_ok.
Proof. codec_rt WriteGrantIntent_codec WriteGrantIntent_ok. Qed.
#[export] Instance WriteGrantIntent_canonical : Canonical WriteGrantIntent_codec
  WriteGrantIntent_ok.
Proof. codec_canon WriteGrantIntent_codec WriteGrantIntent_ok. Qed.

Definition SegmentReceiptLifecycle_ok (self : SegmentReceiptLifecycle) : Prop :=
  match self with
  | RlDurablePendingMetadata => True
  end.
#[export] Instance SegmentReceiptLifecycle_round_trip : RoundTrip SegmentReceiptLifecycle_codec
  SegmentReceiptLifecycle_ok.
Proof. codec_rt SegmentReceiptLifecycle_codec SegmentReceiptLifecycle_ok. Qed.
#[export] Instance SegmentReceiptLifecycle_canonical : Canonical SegmentReceiptLifecycle_codec
  SegmentReceiptLifecycle_ok.
Proof. codec_canon SegmentReceiptLifecycle_codec SegmentReceiptLifecycle_ok. Qed.

Definition SegmentWriteReceipt_ok (self : SegmentWriteReceipt) : Prop :=
  in_u128 (sr_tenant self) /\ in_u128 (sr_grant_id self) /\ bytes32_ok (sr_grant_hash self) /\
  in_u128 (sr_principal self) /\ MappingOwner_ok (sr_owner self) /\
  in_u128 (sr_storage_node self) /\ in_u64 (sr_storage_node_incarnation self) /\
  in_u128 (sr_segment_id self) /\ in_u128 (sr_write_intent self) /\
  WriteGrantIntent_ok (sr_intent self) /\ in_u64 (sr_bytes self) /\
  SegmentPayloadIntegrity_ok (sr_integrity self) /\ WriteDurability_ok (sr_durability self) /\
  SegmentReceiptLifecycle_ok (sr_lifecycle self) /\ in_u64 (sr_receipt_epoch self) /\
  in_u64 (sr_expires_at self) /\ in_u128 (sr_node_key_id self) /\
  ProofScheme_ok (sr_proof_scheme self) /\ bytes32_ok (sr_proof self) /\
  SegmentDescriptor_ok (sr_descriptor self) /\ SegmentReplicaPlacement_ok (sr_placement self).
#[export] Instance SegmentWriteReceipt_round_trip : RoundTrip SegmentWriteReceipt_codec
  SegmentWriteReceipt_ok.
Proof. codec_rt SegmentWriteReceipt_codec SegmentWriteReceipt_ok. Qed.
#[export] Instance SegmentWriteReceipt_canonical : Canonical SegmentWriteReceipt_codec
  SegmentWriteReceipt_ok.
Proof. codec_canon SegmentWriteReceipt_codec SegmentWriteReceipt_ok. Qed.

Definition SegmentLifecycleState_ok (self : SegmentLifecycleState) : Prop :=
  match self with
  | Reserved => True
  | Writing => True
  | DurablePendingMetadata => True
  | Referenced => True
  | Released => True
  | Freed => True
  end.
#[export] Instance SegmentLifecycleState_round_trip : RoundTrip SegmentLifecycleState_codec
  SegmentLifecycleState_ok.
Proof. codec_rt SegmentLifecycleState_codec SegmentLifecycleState_ok. Qed.
#[export] Instance SegmentLifecycleState_canonical : Canonical SegmentLifecycleState_codec
  SegmentLifecycleState_ok.
Proof. codec_canon SegmentLifecycleState_codec SegmentLifecycleState_ok. Qed.

Definition CatalogEntry_ok (self : CatalogEntry) : Prop :=
  SegmentReservationIntent_ok (ce_intent self) /\ SegmentReservation_ok (ce_reservation self) /\
  SegmentLifecycleState_ok (ce_state self) /\
  option_ok SegmentWriteReceipt_ok (ce_receipt self).
#[export] Instance CatalogEntry_round_trip : RoundTrip CatalogEntry_codec CatalogEntry_ok.
Proof. codec_rt CatalogEntry_codec CatalogEntry_ok. Qed.
#[export] Instance CatalogEntry_canonical : Canonical CatalogEntry_codec CatalogEntry_ok.
Proof. codec_canon CatalogEntry_codec CatalogEntry_ok. Qed.
