(* ===== verification/CodecApi.v ===== *)
(** * Codecs of the requests and responses ([local/codec.rs])

    One codec per type of the block and native interfaces, their envelopes and
    the wire messages of the remote transport ([local/transport/remote.rs]),
    with the values that fit it and its laws.  All of them are canonical: a
    message is accepted only in the form the encoder gives it. *)

From S2P Require Import Prelude Api Object Batch Streams NativeApi Codec CodecObjects.

(** ** Wire messages *)

Record RemoteWireRequest (T : Type) := mkRemoteWireRequest {
  rwr_incarnation : ServerIncarnation;
  rwr_envelope : T;
}.
Arguments mkRemoteWireRequest {T} _ _.
Arguments rwr_incarnation {T} _.
Arguments rwr_envelope {T} _.

Inductive RemoteWireReply (T : Type) :=
  | RwOk (incarnation : ServerIncarnation) (envelope : T)
  | RwErr (incarnation : ServerIncarnation) (reason : string).
Arguments RwOk {T} _ _.
Arguments RwErr {T} _ _.

(** ** Codecs *)

Definition PayloadIntegrity_codec : DurableCodec PayloadIntegrity := {|
  encode (self : PayloadIntegrity) :=
    match self with
    | Verified => encode u8_codec 1
    | Unchecked => encode u8_codec 2
    end;
  decode := decode_tag (fun tag =>
    match tag with
    | 1 => mret Verified
    | 2 => mret Unchecked
    | _ => st_lift (Err (durable_codec_error "invalid payload integrity tag"))
    end);
|}.

Definition ReadVerification_codec : DurableCodec ReadVerification := {|
  encode (self : ReadVerification) :=
    match self with
    | RvDefault => encode u8_codec 1
    | RvRequireVerified => encode u8_codec 2
    | RvSkip => encode u8_codec 3
    end;
  decode := decode_tag (fun tag =>
    match tag with
    | 1 => mret RvDefault
    | 2 => mret RvRequireVerified
    | 3 => mret RvSkip
    | _ => st_lift (Err (durable_codec_error "invalid read verification tag"))
    end);
|}.

Definition FlushScope_codec : DurableCodec FlushScope := {|
  encode (self : FlushScope) :=
    match self with
    | FlushDevice => encode u8_codec 1
    | FlushAll => encode u8_codec 2
    end;
  decode := decode_tag (fun tag =>
    match tag with
    | 1 => mret FlushDevice
    | 2 => mret FlushAll
    | _ => st_lift (Err (durable_codec_error "invalid flush scope tag"))
    end);
|}.

Definition RestorePoint_codec : DurableCodec RestorePoint := {|
  encode (self : RestorePoint) :=
    match self with
    | RpCommit commit =>
        encode u8_codec 1;;
        encode id64_codec commit
    | RpCheckpoint checkpoint =>
        encode u8_codec 2;;
        encode id128_codec checkpoint
    | RpTime time =>
        encode u8_codec 3;;
        encode id64_codec time
    end;
  decode := decode_tag (fun tag =>
    match tag with
    | 1 => commit ← decode id64_codec; mret (RpCommit commit)
    | 2 => checkpoint ← decode id128_codec; mret (RpCheckpoint checkpoint)
    | 3 => time ← decode id64_codec; mret (RpTime time)
    | _ => st_lift (Err (durable_codec_error "invalid restore point tag"))
    end);
|}.

Definition DeviceInfo_codec : DurableCodec DeviceInfo := {|
  encode (self : DeviceInfo) :=
    encode id128_codec (di_device_id self);;
    encode id64_codec (di_generation self);;
    encode DeviceSpec_codec (di_spec self);;
    encode id64_codec (di_latest_commit self);
  decode :=
    device_id ← decode id128_codec;
    generation ← decode id64_codec;
    spec ← decode DeviceSpec_codec;
    latest_commit ← decode id64_codec;
    mret (mkDeviceInfo device_id generation spec latest_commit);
|}.

Definition CreateDeviceRequest_codec : DurableCodec CreateDeviceRequest := {|
  encode (self : CreateDeviceRequest) :=
    encode DeviceSpec_codec (cdr_spec self);;
    encode (option_codec string_codec) (cdr_name self);
  decode :=
    spec ← decode DeviceSpec_codec;
    name ← decode (option_codec string_codec);
    mret (mkCreateDeviceRequest spec name);
|}.

Definition WriteCommit_codec : DurableCodec WriteCommit := {|
  encode (self : WriteCommit) :=
    encode id128_codec (wc_device_id self);;
    encode id64_codec (wc_commit_seq self);;
    encode ByteRange_codec (wc_range self);;
    encode WriteDurability_codec (wc_durability self);
  decode :=
    device_id ← decode id128_codec;
    commit_seq ← decode id64_codec;
    range ← decode ByteRange_codec;
    durability ← decode WriteDurability_codec;
    mret (mkWriteCommit device_id commit_seq range durability);
|}.

Definition BlockBatchWrite_codec : DurableCodec BlockBatchWrite := {|
  encode (self : BlockBatchWrite) :=
    encode u64_codec (bw_offset self);;
    encode (vec_codec u8_codec) (bw_bytes self);;
    encode PayloadIntegrity_codec (bw_payload_integrity self);
  decode :=
    offset ← decode u64_codec;
    bytes ← decode (vec_codec u8_codec);
    payload_integrity ← decode PayloadIntegrity_codec;
    mret (mkBlockBatchWrite offset bytes payload_integrity);
|}.

Definition BlockBatchCommit_codec : DurableCodec BlockBatchCommit := {|
  encode (self : BlockBatchCommit) :=
    encode id128_codec (bbc_device_id self);;
    encode id64_codec (bbc_commit_seq self);;
    encode u64_codec (bbc_write_count self);;
    encode u64_codec (bbc_collapsed_range_count self);;
    encode u64_codec (bbc_committed_bytes self);;
    encode WriteDurability_codec (bbc_durability self);
  decode :=
    device_id ← decode id128_codec;
    commit_seq ← decode id64_codec;
    write_count ← decode u64_codec;
    collapsed_range_count ← decode u64_codec;
    committed_bytes ← decode u64_codec;
    durability ← decode WriteDurability_codec;
    mret (mkBlockBatchCommit device_id commit_seq write_count collapsed_range_count
      committed_bytes durability);
|}.

Definition FlushResult_codec : DurableCodec FlushResult := {|
  encode (self : FlushResult) :=
    encode id128_codec (fr_device_id self);;
    encode id64_codec (fr_durable_through self);
  decode :=
    device_id ← decode id128_codec;
    durable_through ← decode id64_codec;
    mret (mkFlushResult device_id durable_through);
|}.

Definition DeleteResult_codec : DurableCodec DeleteResult := {|
  encode (self : DeleteResult) :=
    encode id128_codec (dr_device_id self);;
    encode id64_codec (dr_commit_seq self);
  decode :=
    device_id ← decode id128_codec;
    commit_seq ← decode id64_codec;
    mret (mkDeleteResult device_id commit_seq);
|}.

Definition ForkRequest_codec : DurableCodec ForkRequest := {|
  encode (self : ForkRequest) :=
    encode (option_codec id128_codec) (fkr_target self);;
    encode (option_codec string_codec) (fkr_name self);
  decode :=
    target ← decode (option_codec id128_codec);
    name ← decode (option_codec string_codec);
    mret (mkForkRequest target name);
|}.

(** The payload of a read response is its bytes. *)
Definition ReadResponse_codec : DurableCodec (list Z) := {|
  encode (self : list Z) := encode (vec_codec u8_codec) self;
  decode := bytes ← decode (vec_codec u8_codec); mret bytes;
|}.

Definition BlockRequest_codec : DurableCodec BlockRequest := {|
  encode (self : BlockRequest) :=
    match self with
    | RqCreate request =>
        encode u8_codec 1;;
        encode CreateDeviceRequest_codec request
    | RqInfo device_id =>
        encode u8_codec 2;;
        encode id128_codec device_id
    | RqRead device_id range verification =>
        encode u8_codec 3;;
        encode id128_codec device_id;;
        encode ByteRange_codec range;;
        encode ReadVerification_codec verification
    | RqWrite device_id offset bytes payload_integrity durability =>
        encode u8_codec 4;;
        encode id128_codec device_id;;
        encode u64_codec offset;;
        encode (vec_codec u8_codec) bytes;;
        encode PayloadIntegrity_codec payload_integrity;;
        encode WriteDurability_codec durability
    | RqCommitBatch device_id writes durability =>
        encode u8_codec 11;;
        encode id128_codec device_id;;
        encode (vec_codec BlockBatchWrite_codec) writes;;
        encode WriteDurability_codec durability
    | RqFlush device_id scope =>
        encode u8_codec 5;;
        encode id128_codec device_id;;
        encode FlushScope_codec scope
    | RqWriteZeroes device_id range =>
        encode u8_codec 6;;
        encode id128_codec device_id;;
        encode ByteRange_codec range
    | RqDiscard device_id range =>
        encode u8_codec 7;;
        encode id128_codec device_id;;
        encode ByteRange_codec range
    | RqFork source request =>
        encode u8_codec 8;;
        encode id128_codec source;;
        encode ForkRequest_codec request
    | RqRestore source point =>
        encode u8_codec 9;;
        encode id128_codec source;;
        encode RestorePoint_codec point
    | RqDelete device_id =>
        encode u8_codec 10;;
        encode id128_codec device_id
    end;
  decode := decode_tag (fun tag =>
    match tag with
    | 1 => request ← decode CreateDeviceRequest_codec; mret (RqCreate request)
    | 2 => device_id ← decode id128_codec; mret (RqInfo device_id)
    | 3 => 
        device_id ← decode id128_codec;
        range ← decode ByteRange_codec;
        verification ← decode ReadVerification_codec;
        mret (RqRead device_id range verification)
    | 4 => 
        device_id ← decode id128_codec;
        offset ← decode u64_codec;
        bytes ← decode (vec_codec u8_codec);
        payload_integrity ← decode PayloadIntegrity_codec;
        durability ← decode WriteDurability_codec;
        mret (RqWrite device_id offset bytes payload_integrity durability)
    | 11 => 
        device_id ← decode id128_codec;
        writes ← decode (vec_codec BlockBatchWrite_codec);
        durability ← decode WriteDurability_codec;
        mret (RqCommitBatch device_id writes durability)
    | 5 => 
        device_id ← decode id128_codec;
        scope ← decode FlushScope_codec;
        mret (RqFlush device_id scope)
    | 6 => 
        device_id ← decode id128_codec;
        range ← decode ByteRange_codec;
        mret (RqWriteZeroes device_id range)
    | 7 => 
        device_id ← decode id128_codec;
        range ← decode ByteRange_codec;
        mret (RqDiscard device_id range)
    | 8 => 
        source ← decode id128_codec;
        request ← decode ForkRequest_codec;
        mret (RqFork source request)
    | 9 => 
        source ← decode id128_codec;
        point ← decode RestorePoint_codec;
        mret (RqRestore source point)
    | 10 => device_id ← decode id128_codec; mret (RqDelete device_id)
    | _ => st_lift (Err (durable_codec_error "invalid block request tag"))
    end);
|}.

Definition BlockResponse_codec : DurableCodec BlockResponse := {|
  encode (self : BlockResponse) :=
    match self with
    | RsCreated device_id =>
        encode u8_codec 1;;
        encode id128_codec device_id
    | RsInfo info =>
        encode u8_codec 2;;
        encode DeviceInfo_codec info
    | RsRead read =>
        encode u8_codec 3;;
        encode ReadResponse_codec read
    | RsWrite commit =>
        encode u8_codec 4;;
        encode WriteCommit_codec commit
    | RsBatchCommitted commit =>
        encode u8_codec 9;;
        encode BlockBatchCommit_codec commit
    | RsFlush flush =>
        encode u8_codec 5;;
        encode FlushResult_codec flush
    | RsForked device_id =>
        encode u8_codec 6;;
        encode id128_codec device_id
    | RsRestored device_id =>
        encode u8_codec 7;;
        encode id128_codec device_id
    | RsDeleted delete =>
        encode u8_codec 8;;
        encode DeleteResult_codec delete
    end;
  decode := decode_tag (fun tag =>
    match tag with
    | 1 => device_id ← decode id128_codec; mret (RsCreated device_id)
    | 2 => info ← decode DeviceInfo_codec; mret (RsInfo info)
    | 3 => read ← decode ReadResponse_codec; mret (RsRead read)
    | 4 => commit ← decode WriteCommit_codec; mret (RsWrite commit)
    | 9 => commit ← decode BlockBatchCommit_codec; mret (RsBatchCommitted commit)
    | 5 => flush ← decode FlushResult_codec; mret (RsFlush flush)
    | 6 => device_id ← decode id128_codec; mret (RsForked device_id)
    | 7 => device_id ← decode id128_codec; mret (RsRestored device_id)
    | 8 => delete ← decode DeleteResult_codec; mret (RsDeleted delete)
    | _ => st_lift (Err (durable_codec_error "invalid block response tag"))
    end);
|}.

Definition BlockRequestEnvelope_codec : DurableCodec BlockRequestEnvelope := {|
  encode (self : BlockRequestEnvelope) :=
    encode id128_codec (bre_request_id self);;
    encode id64_codec (bre_client_epoch self);;
    encode (option_codec id64_codec) (bre_deadline self);;
    encode BlockRequest_codec (bre_request self);
  decode :=
    request_id ← decode id128_codec;
    client_epoch ← decode id64_codec;
    deadline ← decode (option_codec id64_codec);
    request ← decode BlockRequest_codec;
    mret (mkBlockRequestEnvelope request_id client_epoch deadline request);
|}.

Definition BlockResponseEnvelope_codec : DurableCodec BlockResponseEnvelope := {|
  encode (self : BlockResponseEnvelope) :=
    encode id128_codec (bse_request_id self);;
    encode BlockResponse_codec (bse_response self);
  decode :=
    request_id ← decode id128_codec;
    response ← decode BlockResponse_codec;
    mret (mkBlockResponseEnvelope request_id response);
|}.

Definition CreateKeyspaceRequest_codec : DurableCodec CreateKeyspaceRequest := {|
  encode (self : CreateKeyspaceRequest) :=
    encode (option_codec string_codec) (ckr_name self);
  decode :=
    name ← decode (option_codec string_codec);
    mret (mkCreateKeyspaceRequest name);
|}.

Definition KeyspaceInfo_codec : DurableCodec KeyspaceInfo := {|
  encode (self : KeyspaceInfo) :=
    encode id128_codec (ki_keyspace_id self);;
    encode id64_codec (ki_generation self);;
    encode id64_codec (ki_latest_commit self);;
    encode usize_codec (ki_file_count self);
  decode :=
    keyspace_id ← decode id128_codec;
    generation ← decode id64_codec;
    latest_commit ← decode id64_codec;
    file_count ← decode usize_codec;
    mret (mkKeyspaceInfo keyspace_id generation latest_commit file_count);
|}.

Definition SnapshotKeyspaceRequest_codec : DurableCodec SnapshotKeyspaceRequest := {|
  encode (self : SnapshotKeyspaceRequest) :=
    encode (option_codec id128_codec) (skr_target self);;
    encode (option_codec string_codec) (skr_name self);
  decode :=
    target ← decode (option_codec id128_codec);
    name ← decode (option_codec string_codec);
    mret (mkSnapshotKeyspaceRequest target name);
|}.

Definition FileSpec_codec : DurableCodec FileSpec := {|
  encode (self : FileSpec) :=
    encode (option_codec string_codec) (fsp_name self);
  decode :=
    name ← decode (option_codec string_codec);
    mret (mkFileSpec name);
|}.

Definition CreateFileRequest_codec : DurableCodec CreateFileRequest := {|
  encode (self : CreateFileRequest) :=
    encode FileSpec_codec (cfr_spec self);
  decode :=
    spec ← decode FileSpec_codec;
    mret (mkCreateFileRequest spec);
|}.

Definition FileInfo_codec : DurableCodec FileInfo := {|
  encode (self : FileInfo) :=
    encode id128_codec (fi_keyspace_id self);;
    encode id128_codec (fi_file_id self);;
    encode u64_codec (fi_size self);;
    encode id64_codec (fi_version self);
  decode :=
    keyspace_id ← decode id128_codec;
    file_id ← decode id128_codec;
    size ← decode u64_codec;
    version ← decode id64_codec;
    mret (mkFileInfo keyspace_id file_id size version);
|}.

Definition AppendStream_codec : DurableCodec AppendStream := {|
  encode (self : AppendStream) :=
    encode id128_codec (as_keyspace_id self);;
    encode id128_codec (as_file_id self);;
    encode id128_codec (as_stream_id self);;
    encode id64_codec (as_writer_epoch self);;
    encode id64_codec (as_base_version self);;
    encode u64_codec (as_visible_base_size self);
  decode :=
    keyspace_id ← decode id128_codec;
    file_id ← decode id128_codec;
    stream_id ← decode id128_codec;
    writer_epoch ← decode id64_codec;
    base_version ← decode id64_codec;
    visible_base_size ← decode u64_codec;
    mret (mkAppendStream keyspace_id file_id stream_id writer_epoch base_version
      visible_base_size);
|}.

Definition AppendTicket_codec : DurableCodec AppendTicket := {|
  encode (self : AppendTicket) :=
    encode id128_codec (at_keyspace_id self);;
    encode id128_codec (at_file_id self);;
    encode id128_codec (at_stream_id self);;
    encode id128_codec (at_ticket_id self);;
    encode id64_codec (at_writer_epoch self);;
    encode ByteRange_codec (at_range self);
  decode :=
    keyspace_id ← decode id128_codec;
    file_id ← decode id128_codec;
    stream_id ← decode id128_codec;
    ticket_id ← decode id128_codec;
    writer_epoch ← decode id64_codec;
    range ← decode ByteRange_codec;
    mret (mkAppendTicket keyspace_id file_id stream_id ticket_id writer_epoch range);
|}.

Definition AppendPublishTicket_codec : DurableCodec AppendPublishTicket := {|
  encode (self : AppendPublishTicket) :=
    encode id128_codec (pt_keyspace_id self);;
    encode id128_codec (pt_file_id self);;
    encode id128_codec (pt_stream_id self);;
    encode id128_codec (pt_ticket_id self);;
    encode id64_codec (pt_writer_epoch self);;
    encode u64_codec (pt_publish_through self);
  decode :=
    keyspace_id ← decode id128_codec;
    file_id ← decode id128_codec;
    stream_id ← decode id128_codec;
    ticket_id ← decode id128_codec;
    writer_epoch ← decode id64_codec;
    publish_through ← decode u64_codec;
    mret (mkAppendPublishTicket keyspace_id file_id stream_id ticket_id writer_epoch
      publish_through);
|}.

Definition AppendPublishCommit_codec : DurableCodec AppendPublishCommit := {|
  encode (self : AppendPublishCommit) :=
    encode id128_codec (pc_keyspace_id self);;
    encode id128_codec (pc_file_id self);;
    encode ByteRange_codec (pc_range self);;
    encode id64_codec (pc_version self);;
    encode id64_codec (pc_commit_seq self);;
    encode WriteDurability_codec (pc_durability self);
  decode :=
    keyspace_id ← decode id128_codec;
    file_id ← decode id128_codec;
    range ← decode ByteRange_codec;
    version ← decode id64_codec;
    commit_seq ← decode id64_codec;
    durability ← decode WriteDurability_codec;
    mret (mkAppendPublishCommit keyspace_id file_id range version commit_seq durability);
|}.

Definition FileWriteCommit_codec : DurableCodec FileWriteCommit := {|
  encode (self : FileWriteCommit) :=
    encode id128_codec (fwc_keyspace_id self);;
    encode id128_codec (fwc_file_id self);;
    encode ByteRange_codec (fwc_range self);;
    encode id64_codec (fwc_version self);;
    encode id64_codec (fwc_commit_seq self);;
    encode WriteDurability_codec (fwc_durability self);
  decode :=
    keyspace_id ← decode id128_codec;
    file_id ← decode id128_codec;
    range ← decode ByteRange_codec;
    version ← decode id64_codec;
    commit_seq ← decode id64_codec;
    durability ← decode WriteDurability_codec;
    mret (mkFileWriteCommit keyspace_id file_id range version commit_seq durability);
|}.

Definition FileBatchWrite_codec : DurableCodec FileBatchWrite := {|
  encode (self : FileBatchWrite) :=
    encode u64_codec (fw_offset self);;
    encode (vec_codec u8_codec) (fw_bytes self);
  decode :=
    offset ← decode u64_codec;
    bytes ← decode (vec_codec u8_codec);
    mret (mkFileBatchWrite offset bytes);
|}.

Definition AppendStreamStatus_codec : DurableCodec AppendStreamStatus := {|
  encode (self : AppendStreamStatus) :=
    match self with
    | AsActive => encode u8_codec 1
    | AsReleased => encode u8_codec 2
    | AsFenced => encode u8_codec 3
    | AsAborted => encode u8_codec 4
    end;
  decode := decode_tag (fun tag =>
    match tag with
    | 1 => mret AsActive
    | 2 => mret AsReleased
    | 3 => mret AsFenced
    | 4 => mret AsAborted
    | _ => st_lift (Err (durable_codec_error "invalid append stream status tag"))
    end);
|}.

Definition AppendStreamRunRecord_codec : DurableCodec AppendStreamRunRecord := {|
  encode (self : AppendStreamRunRecord) :=
    encode id128_codec (asr_ticket_id self);;
    encode u64_codec (asr_offset self);;
    encode u64_codec (asr_len self);;
    encode AppendLogRun_codec (asr_run self);
  decode :=
    ticket_id ← decode id128_codec;
    offset ← decode u64_codec;
    len ← decode u64_codec;
    run ← decode AppendLogRun_codec;
    mret (mkAppendStreamRunRecord ticket_id offset len run);
|}.

Definition AppendStreamState_codec : DurableCodec AppendStreamState := {|
  encode (self : AppendStreamState) :=
    encode id128_codec (ss_keyspace_id self);;
    encode id128_codec (ss_file_id self);;
    encode id128_codec (ss_stream_id self);;
    encode id64_codec (ss_base_writer_epoch self);;
    encode id64_codec (ss_writer_epoch self);;
    encode id64_codec (ss_base_version self);;
    encode u64_codec (ss_visible_base_size self);;
    encode u64_codec (ss_accepted_tail self);;
    encode u64_codec (ss_durable_through self);;
    encode u64_codec (ss_published_through self);;
    encode AppendStreamStatus_codec (ss_status self);;
    encode (vec_codec AppendStreamRunRecord_codec) (ss_records self);
  decode :=
    keyspace_id ← decode id128_codec;
    file_id ← decode id128_codec;
    stream_id ← decode id128_codec;
    base_writer_epoch ← decode id64_codec;
    writer_epoch ← decode id64_codec;
    base_version ← decode id64_codec;
    visible_base_size ← decode u64_codec;
    accepted_tail ← decode u64_codec;
    durable_through ← decode u64_codec;
    published_through ← decode u64_codec;
    status ← decode AppendStreamStatus_codec;
    records ← decode (vec_codec AppendStreamRunRecord_codec);
    mret (mkAppendStreamState keyspace_id file_id stream_id base_writer_epoch writer_epoch
      base_version visible_base_size accepted_tail durable_through published_through status
      records);
|}.

Definition NativeRequest_codec : DurableCodec NativeRequest := {|
  encode (self : NativeRequest) :=
    match self with
    | NrCreateKeyspace request =>
        encode u8_codec 1;;
        encode CreateKeyspaceRequest_codec request
    | NrKeyspaceInfo keyspace_id =>
        encode u8_codec 2;;
        encode id128_codec keyspace_id
    | NrCreateFile keyspace_id request =>
        encode u8_codec 3;;
        encode id128_codec keyspace_id;;
        encode CreateFileRequest_codec request
    | NrFileInfo keyspace_id file_id =>
        encode u8_codec 4;;
        encode id128_codec keyspace_id;;
        encode id128_codec file_id
    | NrRead keyspace_id file_id range verification =>
        encode u8_codec 5;;
        encode id128_codec keyspace_id;;
        encode id128_codec file_id;;
        encode ByteRange_codec range;;
        encode ReadVerification_codec verification
    | NrCommitFileBatch keyspace_id file_id writes payload_integrity durability =>
        encode u8_codec 6;;
        encode id128_codec keyspace_id;;
        encode id128_codec file_id;;
        encode (vec_codec FileBatchWrite_codec) writes;;
        encode PayloadIntegrity_codec payload_integrity;;
        encode WriteDurability_codec durability
    | NrOpenAppendStream keyspace_id file_id =>
        encode u8_codec 7;;
        encode id128_codec keyspace_id;;
        encode id128_codec file_id
    | NrAppendStream keyspace_id file_id stream bytes payload_integrity =>
        encode u8_codec 8;;
        encode id128_codec keyspace_id;;
        encode id128_codec file_id;;
        encode AppendStream_codec stream;;
        encode (vec_codec u8_codec) bytes;;
        encode PayloadIntegrity_codec payload_integrity
    | NrSubmitAppendPublish keyspace_id file_id stream publish_through =>
        encode u8_codec 9;;
        encode id128_codec keyspace_id;;
        encode id128_codec file_id;;
        encode AppendStream_codec stream;;
        encode u64_codec publish_through
    | NrWaitAppendPublish keyspace_id file_id ticket =>
        encode u8_codec 10;;
        encode id128_codec keyspace_id;;
        encode id128_codec file_id;;
        encode AppendPublishTicket_codec ticket
    | NrPublishAppendStream keyspace_id file_id stream publish_through =>
        encode u8_codec 11;;
        encode id128_codec keyspace_id;;
        encode id128_codec file_id;;
        encode AppendStream_codec stream;;
        encode u64_codec publish_through
    | NrReleaseAppendStream keyspace_id file_id stream =>
        encode u8_codec 12;;
        encode id128_codec keyspace_id;;
        encode id128_codec file_id;;
        encode AppendStream_codec stream
    | NrAbortAppendStream keyspace_id file_id stream =>
        encode u8_codec 13;;
        encode id128_codec keyspace_id;;
        encode id128_codec file_id;;
        encode AppendStream_codec stream
    | NrFlush keyspace_id file_id =>
        encode u8_codec 14;;
        encode id128_codec keyspace_id;;
        encode id128_codec file_id
    | NrCheckpointKeyspace keyspace_id =>
        encode u8_codec 15;;
        encode id128_codec keyspace_id
    | NrSnapshotKeyspace source request =>
        encode u8_codec 16;;
        encode id128_codec source;;
        encode SnapshotKeyspaceRequest_codec request
    | NrRestoreKeyspace source point =>
        encode u8_codec 17;;
        encode id128_codec source;;
        encode RestorePoint_codec point
    end;
  decode := decode_tag (fun tag =>
    match tag with
    | 1 => request ← decode CreateKeyspaceRequest_codec; mret (NrCreateKeyspace request)
    | 2 => keyspace_id ← decode id128_codec; mret (NrKeyspaceInfo keyspace_id)
    | 3 => 
        keyspace_id ← decode id128_codec;
        request ← decode CreateFileRequest_codec;
        mret (NrCreateFile keyspace_id request)
    | 4 => 
        keyspace_id ← decode id128_codec;
        file_id ← decode id128_codec;
        mret (NrFileInfo keyspace_id file_id)
    | 5 => 
        keyspace_id ← decode id128_codec;
        file_id ← decode id128_codec;
        range ← decode ByteRange_codec;
        verification ← decode ReadVerification_codec;
        mret (NrRead keyspace_id file_id range verification)
    | 6 => 
        keyspace_id ← decode id128_codec;
        file_id ← decode id128_codec;
        writes ← decode (vec_codec FileBatchWrite_codec);
        payload_integrity ← decode PayloadIntegrity_codec;
        durability ← decode WriteDurability_codec;
        mret (NrCommitFileBatch keyspace_id file_id writes payload_integrity durability)
    | 7 => 
        keyspace_id ← decode id128_codec;
        file_id ← decode id128_codec;
        mret (NrOpenAppendStream keyspace_id file_id)
    | 8 => 
        keyspace_id ← decode id128_codec;
        file_id ← decode id128_codec;
        stream ← decode AppendStream_codec;
        bytes ← decode (vec_codec u8_codec);
        payload_integrity ← decode PayloadIntegrity_codec;
        mret (NrAppendStream keyspace_id file_id stream bytes payload_integrity)
    | 9 => 
        keyspace_id ← decode id128_codec;
        file_id ← decode id128_codec;
        stream ← decode AppendStream_codec;
        publish_through ← decode u64_codec;
        mret (NrSubmitAppendPublish keyspace_id file_id stream publish_through)
    | 10 => 
        keyspace_id ← decode id128_codec;
        file_id ← decode id128_codec;
        ticket ← decode AppendPublishTicket_codec;
        mret (NrWaitAppendPublish keyspace_id file_id ticket)
    | 11 => 
        keyspace_id ← decode id128_codec;
        file_id ← decode id128_codec;
        stream ← decode AppendStream_codec;
        publish_through ← decode u64_codec;
        mret (NrPublishAppendStream keyspace_id file_id stream publish_through)
    | 12 => 
        keyspace_id ← decode id128_codec;
        file_id ← decode id128_codec;
        stream ← decode AppendStream_codec;
        mret (NrReleaseAppendStream keyspace_id file_id stream)
    | 13 => 
        keyspace_id ← decode id128_codec;
        file_id ← decode id128_codec;
        stream ← decode AppendStream_codec;
        mret (NrAbortAppendStream keyspace_id file_id stream)
    | 14 => 
        keyspace_id ← decode id128_codec;
        file_id ← decode id128_codec;
        mret (NrFlush keyspace_id file_id)
    | 15 => keyspace_id ← decode id128_codec; mret (NrCheckpointKeyspace keyspace_id)
    | 16 => 
        source ← decode id128_codec;
        request ← decode SnapshotKeyspaceRequest_codec;
        mret (NrSnapshotKeyspace source request)
    | 17 => 
        source ← decode id128_codec;
        point ← decode RestorePoint_codec;
        mret (NrRestoreKeyspace source point)
    | _ => st_lift (Err (durable_codec_error "invalid native request tag"))
    end);
|}.

Definition NativeResponse_codec : DurableCodec NativeResponse := {|
  encode (self : NativeResponse) :=
    match self with
    | NsKeyspaceCreated keyspace_id =>
        encode u8_codec 1;;
        encode id128_codec keyspace_id
    | NsKeyspaceInfo info =>
        encode u8_codec 2;;
        encode KeyspaceInfo_codec info
    | NsFileCreated file_id =>
        encode u8_codec 3;;
        encode id128_codec file_id
    | NsFileInfo info =>
        encode u8_codec 4;;
        encode FileInfo_codec info
    | NsRead read =>
        encode u8_codec 5;;
        encode ReadResponse_codec read
    | NsFileBatchCommitted commit =>
        encode u8_codec 6;;
        encode FileWriteCommit_codec commit
    | NsAppendStreamOpened stream =>
        encode u8_codec 7;;
        encode AppendStream_codec stream
    | NsAppendTicket ticket =>
        encode u8_codec 8;;
        encode AppendTicket_codec ticket
    | NsAppendPublishSubmitted ticket =>
        encode u8_codec 9;;
        encode AppendPublishTicket_codec ticket
    | NsAppendPublished commit =>
        encode u8_codec 10;;
        encode AppendPublishCommit_codec commit
    | NsAppendReleased => encode u8_codec 11
    | NsAppendAborted => encode u8_codec 12
    | NsFlush flush =>
        encode u8_codec 13;;
        encode FlushResult_codec flush
    | NsKeyspaceCheckpointed checkpoint_id =>
        encode u8_codec 14;;
        encode id128_codec checkpoint_id
    | NsKeyspaceSnapshotted keyspace_id =>
        encode u8_codec 15;;
        encode id128_codec keyspace_id
    | NsKeyspaceRestored keyspace_id =>
        encode u8_codec 16;;
        encode id128_codec keyspace_id
    end;
  decode := decode_tag (fun tag =>
    match tag with
    | 1 => keyspace_id ← decode id128_codec; mret (NsKeyspaceCreated keyspace_id)
    | 2 => info ← decode KeyspaceInfo_codec; mret (NsKeyspaceInfo info)
    | 3 => file_id ← decode id128_codec; mret (NsFileCreated file_id)
    | 4 => info ← decode FileInfo_codec; mret (NsFileInfo info)
    | 5 => read ← decode ReadResponse_codec; mret (NsRead read)
    | 6 => commit ← decode FileWriteCommit_codec; mret (NsFileBatchCommitted commit)
    | 7 => stream ← decode AppendStream_codec; mret (NsAppendStreamOpened stream)
    | 8 => ticket ← decode AppendTicket_codec; mret (NsAppendTicket ticket)
    | 9 => ticket ← decode AppendPublishTicket_codec; mret (NsAppendPublishSubmitted ticket)
    | 10 => commit ← decode AppendPublishCommit_codec; mret (NsAppendPublished commit)
    | 11 => mret NsAppendReleased
    | 12 => mret NsAppendAborted
    | 13 => flush ← decode FlushResult_codec; mret (NsFlush flush)
    | 14 => checkpoint_id ← decode id128_codec; mret (NsKeyspaceCheckpointed checkpoint_id)
    | 15 => keyspace_id ← decode id128_codec; mret (NsKeyspaceSnapshotted keyspace_id)
    | 16 => keyspace_id ← decode id128_codec; mret (NsKeyspaceRestored keyspace_id)
    | _ => st_lift (Err (durable_codec_error "invalid native response tag"))
    end);
|}.

Definition NativeRequestEnvelope_codec : DurableCodec NativeRequestEnvelope := {|
  encode (self : NativeRequestEnvelope) :=
    encode id128_codec (nre_request_id self);;
    encode id64_codec (nre_client_epoch self);;
    encode (option_codec id64_codec) (nre_deadline self);;
    encode NativeRequest_codec (nre_request self);
  decode :=
    request_id ← decode id128_codec;
    client_epoch ← decode id64_codec;
    deadline ← decode (option_codec id64_codec);
    request ← decode NativeRequest_codec;
    mret (mkNativeRequestEnvelope request_id client_epoch deadline request);
|}.

Definition NativeResponseEnvelope_codec : DurableCodec NativeResponseEnvelope := {|
  encode (self : NativeResponseEnvelope) :=
    encode id128_codec (nse_request_id self);;
    encode NativeResponse_codec (nse_response self);
  decode :=
    request_id ← decode id128_codec;
    response ← decode NativeResponse_codec;
    mret (mkNativeResponseEnvelope request_id response);
|}.

Definition RemoteWireRequest_codec {A} (T : DurableCodec A) : DurableCodec (RemoteWireRequest A)
  := {|
  encode (self : RemoteWireRequest A) :=
    encode id64_codec (rwr_incarnation self);;
    encode T (rwr_envelope self);
  decode :=
    incarnation ← decode id64_codec;
    envelope ← decode T;
    mret (mkRemoteWireRequest incarnation envelope);
|}.

Definition RemoteWireReply_codec {A} (T : DurableCodec A) : DurableCodec (RemoteWireReply A) := {|
  encode (self : RemoteWireReply A) :=
    match self with
    | RwOk incarnation envelope =>
        encode u8_codec 1;;
        encode id64_codec incarnation;;
        encode T envelope
    | RwErr incarnation reason =>
        encode u8_codec 2;;
        encode id64_codec incarnation;;
        encode string_codec reason
    end;
  decode := decode_tag (fun tag =>
    match tag with
    | 1 => 
        incarnation ← decode id64_codec;
        envelope ← decode T;
        mret (RwOk incarnation envelope)
    | 2 => 
        incarnation ← decode id64_codec;
        reason ← decode string_codec;
        mret (RwErr incarnation reason)
    | _ => st_lift (Err (durable_codec_error "invalid remote wire reply tag"))
    end);
|}.

(** ** Laws *)

Definition PayloadIntegrity_ok (self : PayloadIntegrity) : Prop :=
  match self with
  | Verified => True
  | Unchecked => True
  end.
#[export] Instance PayloadIntegrity_round_trip : RoundTrip PayloadIntegrity_codec
  PayloadIntegrity_ok.
Proof. codec_rt PayloadIntegrity_codec PayloadIntegrity_ok. Qed.
#[export] Instance PayloadIntegrity_canonical : Canonical PayloadIntegrity_codec
  PayloadIntegrity_ok.
Proof. codec_canon PayloadIntegrity_codec PayloadIntegrity_ok. Qed.

Definition ReadVerification_ok (self : ReadVerification) : Prop :=
  match self with
  | RvDefault => True
  | RvRequireVerified => True
  | RvSkip => True
  end.
#[export] Instance ReadVerification_round_trip : RoundTrip ReadVerification_codec
  ReadVerification_ok.
Proof. codec_rt ReadVerification_codec ReadVerification_ok. Qed.
#[export] Instance ReadVerification_canonical : Canonical ReadVerification_codec
  ReadVerification_ok.
Proof. codec_canon ReadVerification_codec ReadVerification_ok. Qed.

Definition FlushScope_ok (self : FlushScope) : Prop :=
  match self with
  | FlushDevice => True
  | FlushAll => True
  end.
#[export] Instance FlushScope_round_trip : RoundTrip FlushScope_codec FlushScope_ok.
Proof. codec_rt FlushScope_codec FlushScope_ok. Qed.
#[export] Instance FlushScope_canonical : Canonical FlushScope_codec FlushScope_ok.
Proof. codec_canon FlushScope_codec FlushScope_ok. Qed.

Definition RestorePoint_ok (self : RestorePoint) : Prop :=
  match self with
  | RpCommit commit => in_u64 commit
  | RpCheckpoint checkpoint => in_u128 checkpoint
  | RpTime time => in_u64 time
  end.
#[export] Instance RestorePoint_round_trip : RoundTrip RestorePoint_codec RestorePoint_ok.
Proof. codec_rt RestorePoint_codec RestorePoint_ok. Qed.
#[export] Instance RestorePoint_canonical : Canonical RestorePoint_codec RestorePoint_ok.
Proof. codec_canon RestorePoint_codec RestorePoint_ok. Qed.

Definition DeviceInfo_ok (self : DeviceInfo) : Prop :=
  in_u128 (di_device_id self) /\ in_u64 (di_generation self) /\ DeviceSpec_ok (di_spec self) /\
  in_u64 (di_latest_commit self).
#[export] Instance DeviceInfo_round_trip : RoundTrip DeviceInfo_codec DeviceInfo_ok.
Proof. codec_rt DeviceInfo_codec DeviceInfo_ok. Qed.
#[export] Instance DeviceInfo_canonical : Canonical DeviceInfo_codec DeviceInfo_ok.
Proof. codec_canon DeviceInfo_codec DeviceInfo_ok. Qed.

Definition CreateDeviceRequest_ok (self : CreateDeviceRequest) : Prop :=
  DeviceSpec_ok (cdr_spec self) /\ option_ok string_ok (cdr_name self).
#[export] Instance CreateDeviceRequest_round_trip : RoundTrip CreateDeviceRequest_codec
  CreateDeviceRequest_ok.
Proof. codec_rt CreateDeviceRequest_codec CreateDeviceRequest_ok. Qed.
#[export] Instance CreateDeviceRequest_canonical : Canonical CreateDeviceRequest_codec
  CreateDeviceRequest_ok.
Proof. codec_canon CreateDeviceRequest_codec CreateDeviceRequest_ok. Qed.

Definition WriteCommit_ok (self : WriteCommit) : Prop :=
  in_u128 (wc_device_id self) /\ in_u64 (wc_commit_seq self) /\ ByteRange_ok (wc_range self) /\
  WriteDurability_ok (wc_durability self).
#[export] Instance WriteCommit_round_trip : RoundTrip WriteCommit_codec WriteCommit_ok.
Proof. codec_rt WriteCommit_codec WriteCommit_ok. Qed.
#[export] Instance WriteCommit_canonical : Canonical WriteCommit_codec WriteCommit_ok.
Proof. codec_canon WriteCommit_codec WriteCommit_ok. Qed.

Definition BlockBatchWrite_ok (self : BlockBatchWrite) : Prop :=
  in_u64 (bw_offset self) /\ vec_ok in_u8 (bw_bytes self) /\
  PayloadIntegrity_ok (bw_payload_integrity self).
#[export] Instance BlockBatchWrite_round_trip : RoundTrip BlockBatchWrite_codec
  BlockBatchWrite_ok.
Proof. codec_rt BlockBatchWrite_codec BlockBatchWrite_ok. Qed.
#[export] Instance BlockBatchWrite_canonical : Canonical BlockBatchWrite_codec BlockBatchWrite_ok.
Proof. codec_canon BlockBatchWrite_codec BlockBatchWrite_ok. Qed.

Definition BlockBatchCommit_ok (self : BlockBatchCommit) : Prop :=
  in_u128 (bbc_device_id self) /\ in_u64 (bbc_commit_seq self) /\
  in_u64 (bbc_write_count self) /\ in_u64 (bbc_collapsed_range_count self) /\
  in_u64 (bbc_committed_bytes self) /\ WriteDurability_ok (bbc_durability self).
#[export] Instance BlockBatchCommit_round_trip : RoundTrip BlockBatchCommit_codec
  BlockBatchCommit_ok.
Proof. codec_rt BlockBatchCommit_codec BlockBatchCommit_ok. Qed.
#[export] Instance BlockBatchCommit_canonical : Canonical BlockBatchCommit_codec
  BlockBatchCommit_ok.
Proof. codec_canon BlockBatchCommit_codec BlockBatchCommit_ok. Qed.

Definition FlushResult_ok (self : FlushResult) : Prop :=
  in_u128 (fr_device_id self) /\ in_u64 (fr_durable_through self).
#[export] Instance FlushResult_round_trip : RoundTrip FlushResult_codec FlushResult_ok.
Proof. codec_rt FlushResult_codec FlushResult_ok. Qed.
#[export] Instance FlushResult_canonical : Canonical FlushResult_codec FlushResult_ok.
Proof. codec_canon FlushResult_codec FlushResult_ok. Qed.

Definition DeleteResult_ok (self : DeleteResult) : Prop :=
  in_u128 (dr_device_id self) /\ in_u64 (dr_commit_seq self).
#[export] Instance DeleteResult_round_trip : RoundTrip DeleteResult_codec DeleteResult_ok.
Proof. codec_rt DeleteResult_codec DeleteResult_ok. Qed.
#[export] Instance DeleteResult_canonical : Canonical DeleteResult_codec DeleteResult_ok.
Proof. codec_canon DeleteResult_codec DeleteResult_ok. Qed.

Definition ForkRequest_ok (self : ForkRequest) : Prop :=
  option_ok in_u128 (fkr_target self) /\ option_ok string_ok (fkr_name self).
#[export] Instance ForkRequest_round_trip : RoundTrip ForkRequest_codec ForkRequest_ok.
Proof. codec_rt ForkRequest_codec ForkRequest_ok. Qed.
#[export] Instance ForkRequest_canonical : Canonical ForkRequest_codec ForkRequest_ok.
Proof. codec_canon ForkRequest_codec ForkRequest_ok. Qed.

Definition ReadResponse_ok (self : list Z) : Prop := bytes_ok self.
#[export] Instance ReadResponse_round_trip : RoundTrip ReadResponse_codec ReadResponse_ok.
Proof. codec_rt ReadResponse_codec ReadResponse_ok. Qed.
#[export] Instance ReadResponse_canonical : Canonical ReadResponse_codec ReadResponse_ok.
Proof. codec_canon ReadResponse_codec ReadResponse_ok. Qed.

Definition BlockRequest_ok (self : BlockRequest) : Prop :=
  match self with
  | RqCreate request => CreateDeviceRequest_ok request
  | RqInfo device_id => in_u128 device_id
  | RqRead device_id range verification => in_u128 device_id /\ ByteRange_ok range /\
    ReadVerification_ok verification
  | RqWrite device_id offset bytes payload_integrity durability => in_u128 device_id /\ in_u64
    offset /\ vec_ok in_u8 bytes /\ PayloadIntegrity_ok payload_integrity /\
    WriteDurability_ok durability
  | RqCommitBatch device_id writes durability => in_u128 device_id /\ vec_ok
    BlockBatchWrite_ok writes /\ WriteDurability_ok durability
  | RqFlush device_id scope => in_u128 device_id /\ FlushScope_ok scope
  | RqWriteZeroes device_id range => in_u128 device_id /\ ByteRange_ok range
  | RqDiscard device_id range => in_u128 device_id /\ ByteRange_ok range
  | RqFork source request => in_u128 source /\ ForkRequest_ok request
  | RqRestore source point => in_u128 source /\ RestorePoint_ok point
  | RqDelete device_id => in_u128 device_id
  end.
#[export] Instance BlockRequest_round_trip : RoundTrip BlockRequest_codec BlockRequest_ok.
Proof. codec_rt BlockRequest_codec BlockRequest_ok. Qed.
#[export] Instance BlockRequest_canonical : Canonical BlockRequest_codec BlockRequest_ok.
Proof. codec_canon BlockRequest_codec BlockRequest_ok. Qed.

Definition BlockResponse_ok (self : BlockResponse) : Prop :=
  match self with
  | RsCreated device_id => in_u128 device_id
  | RsInfo info => DeviceInfo_ok info
  | RsRead read => ReadResponse_ok read
  | RsWrite commit => WriteCommit_ok commit
  | RsBatchCommitted commit => BlockBatchCommit_ok commit
  | RsFlush flush => FlushResult_ok flush
  | RsForked device_id => in_u128 device_id
  | RsRestored device_id => in_u128 device_id
  | RsDeleted delete => DeleteResult_ok delete
  end.
#[export] Instance BlockResponse_round_trip : RoundTrip BlockResponse_codec BlockResponse_ok.
Proof. codec_rt BlockResponse_codec BlockResponse_ok. Qed.
#[export] Instance BlockResponse_canonical : Canonical BlockResponse_codec BlockResponse_ok.
Proof. codec_canon BlockResponse_codec BlockResponse_ok. Qed.

Definition BlockRequestEnvelope_ok (self : BlockRequestEnvelope) : Prop :=
  in_u128 (bre_request_id self) /\ in_u64 (bre_client_epoch self) /\
  option_ok in_u64 (bre_deadline self) /\ BlockRequest_ok (bre_request self).
#[export] Instance BlockRequestEnvelope_round_trip : RoundTrip BlockRequestEnvelope_codec
  BlockRequestEnvelope_ok.
Proof. codec_rt BlockRequestEnvelope_codec BlockRequestEnvelope_ok. Qed.
#[export] Instance BlockRequestEnvelope_canonical : Canonical BlockRequestEnvelope_codec
  BlockRequestEnvelope_ok.
Proof. codec_canon BlockRequestEnvelope_codec BlockRequestEnvelope_ok. Qed.

Definition BlockResponseEnvelope_ok (self : BlockResponseEnvelope) : Prop :=
  in_u128 (bse_request_id self) /\ BlockResponse_ok (bse_response self).
#[export] Instance BlockResponseEnvelope_round_trip : RoundTrip BlockResponseEnvelope_codec
  BlockResponseEnvelope_ok.
Proof. codec_rt BlockResponseEnvelope_codec BlockResponseEnvelope_ok. Qed.
#[export] Instance BlockResponseEnvelope_canonical : Canonical BlockResponseEnvelope_codec
  BlockResponseEnvelope_ok.
Proof. codec_canon BlockResponseEnvelope_codec BlockResponseEnvelope_ok. Qed.

Definition CreateKeyspaceRequest_ok (self : CreateKeyspaceRequest) : Prop :=
  option_ok string_ok (ckr_name self).
#[export] Instance CreateKeyspaceRequest_round_trip : RoundTrip CreateKeyspaceRequest_codec
  CreateKeyspaceRequest_ok.
Proof. codec_rt CreateKeyspaceRequest_codec CreateKeyspaceRequest_ok. Qed.
#[export] Instance CreateKeyspaceRequest_canonical : Canonical CreateKeyspaceRequest_codec
  CreateKeyspaceRequest_ok.
Proof. codec_canon CreateKeyspaceRequest_codec CreateKeyspaceRequest_ok. Qed.

Definition KeyspaceInfo_ok (self : KeyspaceInfo) : Prop :=
  in_u128 (ki_keyspace_id self) /\ in_u64 (ki_generation self) /\
  in_u64 (ki_latest_commit self) /\ in_u64 (ki_file_count self).
#[export] Instance KeyspaceInfo_round_trip : RoundTrip KeyspaceInfo_codec KeyspaceInfo_ok.
Proof. codec_rt KeyspaceInfo_codec KeyspaceInfo_ok. Qed.
#[export] Instance KeyspaceInfo_canonical : Canonical KeyspaceInfo_codec KeyspaceInfo_ok.
Proof. codec_canon KeyspaceInfo_codec KeyspaceInfo_ok. Qed.

Definition SnapshotKeyspaceRequest_ok (self : SnapshotKeyspaceRequest) : Prop :=
  option_ok in_u128 (skr_target self) /\ option_ok string_ok (skr_name self).
#[export] Instance SnapshotKeyspaceRequest_round_trip : RoundTrip SnapshotKeyspaceRequest_codec
  SnapshotKeyspaceRequest_ok.
Proof. codec_rt SnapshotKeyspaceRequest_codec SnapshotKeyspaceRequest_ok. Qed.
#[export] Instance SnapshotKeyspaceRequest_canonical : Canonical SnapshotKeyspaceRequest_codec
  SnapshotKeyspaceRequest_ok.
Proof. codec_canon SnapshotKeyspaceRequest_codec SnapshotKeyspaceRequest_ok. Qed.

Definition FileSpec_ok (self : FileSpec) : Prop :=
  option_ok string_ok (fsp_name self).
#[export] Instance FileSpec_round_trip : RoundTrip FileSpec_codec FileSpec_ok.
Proof. codec_rt FileSpec_codec FileSpec_ok. Qed.
#[export] Instance FileSpec_canonical : Canonical FileSpec_codec FileSpec_ok.
Proof. codec_canon FileSpec_codec FileSpec_ok. Qed.

Definition CreateFileRequest_ok (self : CreateFileRequest) : Prop :=
  FileSpec_ok (cfr_spec self).
#[export] Instance CreateFileRequest_round_trip : RoundTrip CreateFileRequest_codec
  CreateFileRequest_ok.
Proof. codec_rt CreateFileRequest_codec CreateFileRequest_ok. Qed.
#[export] Instance CreateFileRequest_canonical : Canonical CreateFileRequest_codec
  CreateFileRequest_ok.
Proof. codec_canon CreateFileRequest_codec CreateFileRequest_ok. Qed.

Definition FileInfo_ok (self : FileInfo) : Prop :=
  in_u128 (fi_keyspace_id self) /\ in_u128 (fi_file_id self) /\ in_u64 (fi_size self) /\
  in_u64 (fi_version self).
#[export] Instance FileInfo_round_trip : RoundTrip FileInfo_codec FileInfo_ok.
Proof. codec_rt FileInfo_codec FileInfo_ok. Qed.
#[export] Instance FileInfo_canonical : Canonical FileInfo_codec FileInfo_ok.
Proof. codec_canon FileInfo_codec FileInfo_ok. Qed.

Definition AppendStream_ok (self : AppendStream) : Prop :=
  in_u128 (as_keyspace_id self) /\ in_u128 (as_file_id self) /\ in_u128 (as_stream_id self) /\
  in_u64 (as_writer_epoch self) /\ in_u64 (as_base_version self) /\
  in_u64 (as_visible_base_size self).
#[export] Instance AppendStream_round_trip : RoundTrip AppendStream_codec AppendStream_ok.
Proof. codec_rt AppendStream_codec AppendStream_ok. Qed.
#[export] Instance AppendStream_canonical : Canonical AppendStream_codec AppendStream_ok.
Proof. codec_canon AppendStream_codec AppendStream_ok. Qed.

Definition AppendTicket_ok (self : AppendTicket) : Prop :=
  in_u128 (at_keyspace_id self) /\ in_u128 (at_file_id self) /\ in_u128 (at_stream_id self) /\
  in_u128 (at_ticket_id self) /\ in_u64 (at_writer_epoch self) /\ ByteRange_ok (at_range self).
#[export] Instance AppendTicket_round_trip : RoundTrip AppendTicket_codec AppendTicket_ok.
Proof. codec_rt AppendTicket_codec AppendTicket_ok. Qed.
#[export] Instance AppendTicket_canonical : Canonical AppendTicket_codec AppendTicket_ok.
Proof. codec_canon AppendTicket_codec AppendTicket_ok. Qed.

Definition AppendPublishTicket_ok (self : AppendPublishTicket) : Prop :=
  in_u128 (pt_keyspace_id self) /\ in_u128 (pt_file_id self) /\ in_u128 (pt_stream_id self) /\
  in_u128 (pt_ticket_id self) /\ in_u64 (pt_writer_epoch self) /\
  in_u64 (pt_publish_through self).
#[export] Instance AppendPublishTicket_round_trip : RoundTrip AppendPublishTicket_codec
  AppendPublishTicket_ok.
Proof. codec_rt AppendPublishTicket_codec AppendPublishTicket_ok. Qed.
#[export] Instance AppendPublishTicket_canonical : Canonical AppendPublishTicket_codec
  AppendPublishTicket_ok.
Proof. codec_canon AppendPublishTicket_codec AppendPublishTicket_ok. Qed.

Definition AppendPublishCommit_ok (self : AppendPublishCommit) : Prop :=
  in_u128 (pc_keyspace_id self) /\ in_u128 (pc_file_id self) /\ ByteRange_ok (pc_range self) /\
  in_u64 (pc_version self) /\ in_u64 (pc_commit_seq self) /\
  WriteDurability_ok (pc_durability self).
#[export] Instance AppendPublishCommit_round_trip : RoundTrip AppendPublishCommit_codec
  AppendPublishCommit_ok.
Proof. codec_rt AppendPublishCommit_codec AppendPublishCommit_ok. Qed.
#[export] Instance AppendPublishCommit_canonical : Canonical AppendPublishCommit_codec
  AppendPublishCommit_ok.
Proof. codec_canon AppendPublishCommit_codec AppendPublishCommit_ok. Qed.

Definition FileWriteCommit_ok (self : FileWriteCommit) : Prop :=
  in_u128 (fwc_keyspace_id self) /\ in_u128 (fwc_file_id self) /\
  ByteRange_ok (fwc_range self) /\ in_u64 (fwc_version self) /\ in_u64 (fwc_commit_seq self) /\
  WriteDurability_ok (fwc_durability self).
#[export] Instance FileWriteCommit_round_trip : RoundTrip FileWriteCommit_codec
  FileWriteCommit_ok.
Proof. codec_rt FileWriteCommit_codec FileWriteCommit_ok. Qed.
#[export] Instance FileWriteCommit_canonical : Canonical FileWriteCommit_codec FileWriteCommit_ok.
Proof. codec_canon FileWriteCommit_codec FileWriteCommit_ok. Qed.

Definition FileBatchWrite_ok (self : FileBatchWrite) : Prop :=
  in_u64 (fw_offset self) /\ vec_ok in_u8 (fw_bytes self).
#[export] Instance FileBatchWrite_round_trip : RoundTrip FileBatchWrite_codec FileBatchWrite_ok.
Proof. codec_rt FileBatchWrite_codec FileBatchWrite_ok. Qed.
#[export] Instance FileBatchWrite_canonical : Canonical FileBatchWrite_codec FileBatchWrite_ok.
Proof. codec_canon FileBatchWrite_codec FileBatchWrite_ok. Qed.

Definition AppendStreamStatus_ok (self : AppendStreamStatus) : Prop :=
  match self with
  | AsActive => True
  | AsReleased => True
  | AsFenced => True
  | AsAborted => True
  end.
#[export] Instance AppendStreamStatus_round_trip : RoundTrip AppendStreamStatus_codec
  AppendStreamStatus_ok.
Proof. codec_rt AppendStreamStatus_codec AppendStreamStatus_ok. Qed.
#[export] Instance AppendStreamStatus_canonical : Canonical AppendStreamStatus_codec
  AppendStreamStatus_ok.
Proof. codec_canon AppendStreamStatus_codec AppendStreamStatus_ok. Qed.

Definition AppendStreamRunRecord_ok (self : AppendStreamRunRecord) : Prop :=
  in_u128 (asr_ticket_id self) /\ in_u64 (asr_offset self) /\ in_u64 (asr_len self) /\
  AppendLogRun_ok (asr_run self).
#[export] Instance AppendStreamRunRecord_round_trip : RoundTrip AppendStreamRunRecord_codec
  AppendStreamRunRecord_ok.
Proof. codec_rt AppendStreamRunRecord_codec AppendStreamRunRecord_ok. Qed.
#[export] Instance AppendStreamRunRecord_canonical : Canonical AppendStreamRunRecord_codec
  AppendStreamRunRecord_ok.
Proof. codec_canon AppendStreamRunRecord_codec AppendStreamRunRecord_ok. Qed.

Definition AppendStreamState_ok (self : AppendStreamState) : Prop :=
  in_u128 (ss_keyspace_id self) /\ in_u128 (ss_file_id self) /\ in_u128 (ss_stream_id self) /\
  in_u64 (ss_base_writer_epoch self) /\ in_u64 (ss_writer_epoch self) /\
  in_u64 (ss_base_version self) /\ in_u64 (ss_visible_base_size self) /\
  in_u64 (ss_accepted_tail self) /\ in_u64 (ss_durable_through self) /\
  in_u64 (ss_published_through self) /\ AppendStreamStatus_ok (ss_status self) /\
  vec_ok AppendStreamRunRecord_ok (ss_records self).
#[export] Instance AppendStreamState_round_trip : RoundTrip AppendStreamState_codec
  AppendStreamState_ok.
Proof. codec_rt AppendStreamState_codec AppendStreamState_ok. Qed.
#[export] Instance AppendStreamState_canonical : Canonical AppendStreamState_codec
  AppendStreamState_ok.
Proof. codec_canon AppendStreamState_codec AppendStreamState_ok. Qed.

Definition NativeRequest_ok (self : NativeRequest) : Prop :=
  match self with
  | NrCreateKeyspace request => CreateKeyspaceRequest_ok request
  | NrKeyspaceInfo keyspace_id => in_u128 keyspace_id
  | NrCreateFile keyspace_id request => in_u128 keyspace_id /\ CreateFileRequest_ok request
  | NrFileInfo keyspace_id file_id => in_u128 keyspace_id /\ in_u128 file_id
  | NrRead keyspace_id file_id range verification => in_u128 keyspace_id /\ in_u128 file_id /\
    ByteRange_ok range /\ ReadVerification_ok verification
  | NrCommitFileBatch keyspace_id file_id writes payload_integrity durability => in_u128
    keyspace_id /\ in_u128 file_id /\ vec_ok FileBatchWrite_ok writes /\ PayloadIntegrity_ok
    payload_integrity /\ WriteDurability_ok durability
  | NrOpenAppendStream keyspace_id file_id => in_u128 keyspace_id /\ in_u128 file_id
  | NrAppendStream keyspace_id file_id stream bytes payload_integrity => in_u128 keyspace_id
    /\ in_u128 file_id /\ AppendStream_ok stream /\ vec_ok in_u8 bytes /\ PayloadIntegrity_ok
    payload_integrity
  | NrSubmitAppendPublish keyspace_id file_id stream publish_through => in_u128 keyspace_id /\
    in_u128 file_id /\ AppendStream_ok stream /\ in_u64 publish_through
  | NrWaitAppendPublish keyspace_id file_id ticket => in_u128 keyspace_id /\ in_u128 file_id
    /\ AppendPublishTicket_ok ticket
  | NrPublishAppendStream keyspace_id file_id stream publish_through => in_u128 keyspace_id /\
    in_u128 file_id /\ AppendStream_ok stream /\ in_u64 publish_through
  | NrReleaseAppendStream keyspace_id file_id stream => in_u128 keyspace_id /\ in_u128 file_id
    /\ AppendStream_ok stream
  | NrAbortAppendStream keyspace_id file_id stream => in_u128 keyspace_id /\ in_u128 file_id
    /\ AppendStream_ok stream
  | NrFlush keyspace_id file_id => in_u128 keyspace_id /\ in_u128 file_id
  | NrCheckpointKeyspace keyspace_id => in_u128 keyspace_id
  | NrSnapshotKeyspace source request => in_u128 source /\ SnapshotKeyspaceRequest_ok request
  | NrRestoreKeyspace source point => in_u128 source /\ RestorePoint_ok point
  end.
#[export] Instance NativeRequest_round_trip : RoundTrip NativeRequest_codec NativeRequest_ok.
Proof. codec_rt NativeRequest_codec NativeRequest_ok. Qed.
#[export] Instance NativeRequest_canonical : Canonical NativeRequest_codec NativeRequest_ok.
Proof. codec_canon NativeRequest_codec NativeRequest_ok. Qed.

Definition NativeResponse_ok (self : NativeResponse) : Prop :=
  match self with
  | NsKeyspaceCreated keyspace_id => in_u128 keyspace_id
  | NsKeyspaceInfo info => KeyspaceInfo_ok info
  | NsFileCreated file_id => in_u128 file_id
  | NsFileInfo info => FileInfo_ok info
  | NsRead read => ReadResponse_ok read
  | NsFileBatchCommitted commit => FileWriteCommit_ok commit
  | NsAppendStreamOpened stream => AppendStream_ok stream
  | NsAppendTicket ticket => AppendTicket_ok ticket
  | NsAppendPublishSubmitted ticket => AppendPublishTicket_ok ticket
  | NsAppendPublished commit => AppendPublishCommit_ok commit
  | NsAppendReleased => True
  | NsAppendAborted => True
  | NsFlush flush => FlushResult_ok flush
  | NsKeyspaceCheckpointed checkpoint_id => in_u128 checkpoint_id
  | NsKeyspaceSnapshotted keyspace_id => in_u128 keyspace_id
  | NsKeyspaceRestored keyspace_id => in_u128 keyspace_id
  end.
#[export] Instance NativeResponse_round_trip : RoundTrip NativeResponse_codec NativeResponse_ok.
Proof. codec_rt NativeResponse_codec NativeResponse_ok. Qed.
#[export] Instance NativeResponse_canonical : Canonical NativeResponse_codec NativeResponse_ok.
Proof. codec_canon NativeResponse_codec NativeResponse_ok. Qed.

Definition NativeRequestEnvelope_ok (self : NativeRequestEnvelope) : Prop :=
  in_u128 (nre_request_id self) /\ in_u64 (nre_client_epoch self) /\
  option_ok in_u64 (nre_deadline self) /\ NativeRequest_ok (nre_request self).
#[export] Instance NativeRequestEnvelope_round_trip : RoundTrip NativeRequestEnvelope_codec
  NativeRequestEnvelope_ok.
Proof. codec_rt NativeRequestEnvelope_codec NativeRequestEnvelope_ok. Qed.
#[export] Instance NativeRequestEnvelope_canonical : Canonical NativeRequestEnvelope_codec
  NativeRequestEnvelope_ok.
Proof. codec_canon NativeRequestEnvelope_codec NativeRequestEnvelope_ok. Qed.

Definition NativeResponseEnvelope_ok (self : NativeResponseEnvelope) : Prop :=
  in_u128 (nse_request_id self) /\ NativeResponse_ok (nse_response self).
#[export] Instance NativeResponseEnvelope_round_trip : RoundTrip NativeResponseEnvelope_codec
  NativeResponseEnvelope_ok.
Proof. codec_rt NativeResponseEnvelope_codec NativeResponseEnvelope_ok. Qed.
#[export] Instance NativeResponseEnvelope_canonical : Canonical NativeResponseEnvelope_codec
  NativeResponseEnvelope_ok.
Proof. codec_canon NativeResponseEnvelope_codec NativeResponseEnvelope_ok. Qed.

Definition RemoteWireRequest_ok {A} (ok : A -> Prop) (self : RemoteWireRequest A) : Prop :=
  in_u64 (rwr_incarnation self) /\ ok (rwr_envelope self).
#[export] Instance RemoteWireRequest_round_trip {A} (T : DurableCodec A) ok :
  RoundTrip T ok -> RoundTrip (RemoteWireRequest_codec T) (RemoteWireRequest_ok ok).
Proof. intros HT. codec_rt @RemoteWireRequest_codec @RemoteWireRequest_ok. Qed.
#[export] Instance RemoteWireRequest_canonical {A} (T : DurableCodec A) ok :
  Canonical T ok -> Canonical (RemoteWireRequest_codec T) (RemoteWireRequest_ok ok).
Proof. intros HT. codec_canon @RemoteWireRequest_codec @RemoteWireRequest_ok. Qed.

Definition RemoteWireReply_ok {A} (ok : A -> Prop) (self : RemoteWireReply A) : Prop :=
  match self with
  | RwOk incarnation envelope => in_u64 incarnation /\ ok envelope
  | RwErr incarnation reason => in_u64 incarnation /\ string_ok reason
  end.
#[export] Instance RemoteWireReply_round_trip {A} (T : DurableCodec A) ok :
  RoundTrip T ok -> RoundTrip (RemoteWireReply_codec T) (RemoteWireReply_ok ok).
Proof. intros HT. codec_rt @RemoteWireReply_codec @RemoteWireReply_ok. Qed.
#[export] Instance RemoteWireReply_canonical {A} (T : DurableCodec A) ok :
  Canonical T ok -> Canonical (RemoteWireReply_codec T) (RemoteWireReply_ok ok).
Proof. intros HT. codec_canon @RemoteWireReply_codec @RemoteWireReply_ok. Qed.
