(* ===== verification/Network.v ===== *)
(** * Remote transports ([local/transport/network.rs], [remote.rs], [tcp.rs])

    The frames of the network protocol, the endpoints that answer requests at
    most once while they remember them, the typed transports of the clients, and
    the length-prefixed frames of the TCP pipe.

    The block and the native endpoints, and the ones over [bincode] and over the
    crate's own codec, have the same code up to the encoding of the messages and
    the words of the error texts; those are collected in a [WireFormat].  The
    [bincode] crate is outside the repository: its two functions are a parameter. *)

From S2P Require Import Prelude Api Provider NativeApi Server Codec CodecObjects CodecApi.

(** ** Errors as text ([error.rs]) *)

Definition StorageError_to_string (self : StorageError) : string :=
  match self with
  | InvalidArgument reason => "invalid argument: " +:+ reason
  | NotFound kind id => kind +:+ " not found: " +:+ id
  | Conflict reason => "conflict: " +:+ reason
  | Unavailable reason => "unavailable: " +:+ reason
  | Corrupt reason => "corrupt: " +:+ reason
  | Unsupported reason => "unsupported: " +:+ reason
  end.

(** ** Frames *)

Definition NETWORK_WIRE_MAGIC : list Z := ascii_bytes "TCOWWIRE".
Definition NETWORK_WIRE_VERSION : Z := 1.
Definition NETWORK_BLOCK_REQUEST : Z := 1.
Definition NETWORK_BLOCK_RESPONSE : Z := 2.
Definition NETWORK_NATIVE_REQUEST : Z := 3.
Definition NETWORK_NATIVE_RESPONSE : Z := 4.
Definition DEFAULT_NETWORK_MAX_FRAME_BYTES : Z := 16 * 1024 * 1024.

Definition network_codec_error (reason : string) : StorageError :=
  Corrupt ("network wire codec failed: " +:+ reason).

Definition network_io_error (error : string) : StorageError :=
  Unavailable ("network I/O failed: " +:+ error).

Definition serde_error (error : string) : StorageError :=
  Corrupt ("binary envelope codec failed: " +:+ error).

Definition write_frame {A} (T : DurableCodec A) (kind : Z) (value : A) : ST DurableEncoder unit :=
  Encoder_extend NETWORK_WIRE_MAGIC;;
  Encoder_put_u16 NETWORK_WIRE_VERSION;;
  Encoder_put_u8 kind;;
  encode T value.

Definition encode_network_frame {A} (T : DurableCodec A) (kind : Z) (value : A) : Result (list Z) :=
  let '(r, out) := write_frame T kind value [] in
  r;; Ok out.

Definition read_frame {A} (T : DurableCodec A) (expected_kind : Z) : ST DurableDecoder A :=
  magic ← Decoder_take (Z.of_nat (length NETWORK_WIRE_MAGIC));
  st_reject_if (negb (bool_decide (magic = NETWORK_WIRE_MAGIC)))
    (network_codec_error "bad frame magic");;
  version ← Decoder_u16;
  st_reject_if (negb (version =? NETWORK_WIRE_VERSION))
    (network_codec_error "unsupported frame version");;
  kind ← Decoder_u8;
  st_reject_if (negb (kind =? expected_kind)) (network_codec_error "frame kind mismatch");;
  decode T.

Definition decode_network_frame {A} (T : DurableCodec A) (expected_kind : Z) (bytes : list Z) : Result A :=
  let '(r, input) := read_frame T expected_kind (mkDurableDecoder bytes 0) in
  value ← r;
  match Decoder_finish input with
  | Ok _ => Ok value
  | Err _ => Err (network_codec_error "trailing bytes in frame")
  end.

(** ** Envelopes and formats *)

Class RequestEnvelope (Req : Type) := {
  env_request_id : Req -> RequestId;
  env_client_epoch : Req -> ClientEpoch;
  env_deadline : Req -> option LogicalDeadline;
}.
Class ResponseEnvelope (Env : Type) := env_response_id : Env -> RequestId.

#[export] Instance block_request_envelope : RequestEnvelope BlockRequestEnvelope :=
  {| env_request_id := bre_request_id; env_client_epoch := bre_client_epoch; env_deadline := bre_deadline |}.
#[export] Instance native_request_envelope : RequestEnvelope NativeRequestEnvelope :=
  {| env_request_id := nre_request_id; env_client_epoch := nre_client_epoch; env_deadline := nre_deadline |}.
#[export] Instance block_response_envelope : ResponseEnvelope BlockResponseEnvelope := bse_request_id.
#[export] Instance native_response_envelope : ResponseEnvelope NativeResponseEnvelope := nse_request_id.

(** [wf_answers_bad_request]: whether a request that cannot be decoded is
    answered with an error message or fails the call. *)
Record WireFormat (Req Env : Type) := mkWireFormat {
  wf_medium : string;
  wf_side : string;
  wf_encode_request : RemoteWireRequest Req -> Result (list Z);
  wf_decode_request : list Z -> Result (RemoteWireRequest Req);
  wf_encode_reply : RemoteWireReply Env -> Result (list Z);
  wf_decode_reply : list Z -> Result (RemoteWireReply Env);
  wf_answers_bad_request : bool;
}.
Arguments mkWireFormat {Req Env} _ _ _ _ _ _ _.
Arguments wf_medium {Req Env} _.
Arguments wf_side {Req Env} _.
Arguments wf_encode_request {Req Env} _ _.
Arguments wf_decode_request {Req Env} _ _.
Arguments wf_encode_reply {Req Env} _ _.
Arguments wf_decode_reply {Req Env} _ _.
Arguments wf_answers_bad_request {Req Env} _.

Definition network_format {Req Env} (medium side : string) (RQ : DurableCodec Req)
    (RS : DurableCodec Env) (request_kind response_kind : Z) : WireFormat Req Env :=
  mkWireFormat medium side
    (encode_network_frame (RemoteWireRequest_codec RQ) request_kind)
    (decode_network_frame (RemoteWireRequest_codec RQ) request_kind)
    (encode_network_frame (RemoteWireReply_codec RS) response_kind)
    (decode_network_frame (RemoteWireReply_codec RS) response_kind) true.

Definition network_block : WireFormat BlockRequestEnvelope BlockResponseEnvelope :=
  network_format "network" "block" BlockRequestEnvelope_codec BlockResponseEnvelope_codec
    NETWORK_BLOCK_REQUEST NETWORK_BLOCK_RESPONSE.
Definition network_native : WireFormat NativeRequestEnvelope NativeResponseEnvelope :=
  network_format "network" "native" NativeRequestEnvelope_codec NativeResponseEnvelope_codec
    NETWORK_NATIVE_REQUEST NETWORK_NATIVE_RESPONSE.

(** [bincode::serialize] and [bincode::deserialize] at one type, with the text
    of their errors. *)
Record Bincode (A : Type) := mkBincode {
  bincode_serialize : A -> string + list Z;
  bincode_deserialize : list Z -> string + A;
}.
Arguments mkBincode {A} _ _.
Arguments bincode_serialize {A} _ _.
Arguments bincode_deserialize {A} _ _.

Definition map_serde {A} (r : string + A) : Result A :=
  match r with inl e => Err (serde_error e) | inr a => Ok a end.

Definition bincode_format {Req Env} (side : string) (RQ : Bincode (RemoteWireRequest Req))
    (RS : Bincode (RemoteWireReply Env)) : WireFormat Req Env :=
  mkWireFormat "remote" side
    (fun request => map_serde (bincode_serialize RQ request))
    (fun bytes => map_serde (bincode_deserialize RQ bytes))
    (fun reply => map_serde (bincode_serialize RS reply))
    (fun bytes => map_serde (bincode_deserialize RS bytes)) false.

(** ** Endpoints *)

Abbreviation RemoteRequestKey := (ServerIncarnation * ClientEpoch * RequestId)%type (only parsing).

Record RemoteCacheEntry := mkRemoteCacheEntry {
  rce_request_bytes : list Z;
  rce_response_bytes : list Z;
}.

Record RemoteEndpointState := mkRemoteEndpointState {
  es_cache : gmap RemoteRequestKey RemoteCacheEntry;
  es_order : list RemoteRequestKey;
  es_in_flight : Z;
  es_shutdown : bool;
  es_logical_time : LogicalTime;
}.

Definition RemoteEndpointState_new : RemoteEndpointState := mkRemoteEndpointState ∅ [] 0 false 0.

Definition set_es_in_flight (v : Z) (s : RemoteEndpointState) : RemoteEndpointState :=
  mkRemoteEndpointState (es_cache s) (es_order s) v (es_shutdown s) (es_logical_time s).

Record RemoteEndpoint (S : Type) := mkRemoteEndpoint {
  ep_server : S;
  ep_incarnation : ServerIncarnation;
  ep_dedupe_capacity : Z;
  ep_mailbox_capacity : Z;
  ep_state : RemoteEndpointState;
}.
Arguments mkRemoteEndpoint {S} _ _ _ _ _.
Arguments ep_server {S} _.
Arguments ep_incarnation {S} _.
Arguments ep_dedupe_capacity {S} _.
Arguments ep_mailbox_capacity {S} _.
Arguments ep_state {S} _.

Definition RemoteEndpoint_new {S} (server : S) (incarnation : ServerIncarnation)
    (dedupe_capacity mailbox_capacity : Z) : RemoteEndpoint S :=
  mkRemoteEndpoint server incarnation dedupe_capacity mailbox_capacity RemoteEndpointState_new.

Definition on_endpoint_state {S A} (p : ST RemoteEndpointState A) : ST (RemoteEndpoint S) A :=
  fun self => let '(r, state) := p (ep_state self) in
    (r, mkRemoteEndpoint (ep_server self) (ep_incarnation self) (ep_dedupe_capacity self)
      (ep_mailbox_capacity self) state).

Definition set_shutdown {S} (shutdown : bool) : ST (RemoteEndpoint S) unit :=
  on_endpoint_state (st_modify (fun s =>
    mkRemoteEndpointState (es_cache s) (es_order s) (es_in_flight s) shutdown (es_logical_time s))).
Definition set_logical_time {S} (logical_time : LogicalTime) : ST (RemoteEndpoint S) unit :=
  on_endpoint_state (st_modify (fun s =>
    mkRemoteEndpointState (es_cache s) (es_order s) (es_in_flight s) (es_shutdown s) logical_time)).

(** [while order.len() > capacity]: the oldest keys are forgotten. *)
Fixpoint evict (capacity : Z) (order : list RemoteRequestKey)
    (cache : gmap RemoteRequestKey RemoteCacheEntry)
    : list RemoteRequestKey * gmap RemoteRequestKey RemoteCacheEntry :=
  match order with
  | [] => (order, cache)
  | evicted :: rest =>
      if capacity <? Z.of_nat (length order) then evict capacity rest (delete evicted cache)
      else (order, cache)
  end.

Definition remember (capacity : Z) (key : RemoteRequestKey) (entry : RemoteCacheEntry)
    (s : RemoteEndpointState) : RemoteEndpointState :=
  let '(order, cache) := evict capacity (es_order s ++ [key]) (<[key := entry]> (es_cache s)) in
  mkRemoteEndpointState cache order (es_in_flight s) (es_shutdown s) (es_logical_time s).

Section endpoint.
Context {Req Env S : Type} `{!RequestEnvelope Req}.
Context (fmt : WireFormat Req Env) (handle : Req -> ST S Env).

Definition encode_error (incarnation : ServerIncarnation) (reason : string) : Result (list Z) :=
  wf_encode_reply fmt (RwErr incarnation reason).

(** Everything up to the call of the server: an answer, or the key and the
    request to run. *)
Definition admit_request (request_bytes : list Z)
    : ST (RemoteEndpoint S) (list Z + RemoteRequestKey * Req) :=
  self ← st_get;
  let incarnation := ep_incarnation self in
  let state := ep_state self in
  let answer reason := reply ← st_lift (encode_error incarnation reason); mret (inl reply) in
  match wf_decode_request fmt request_bytes with
  | Err error =>
      if wf_answers_bad_request fmt then answer (StorageError_to_string error)
      else st_lift (Err error)
  | Ok wire =>
      let envelope := rwr_envelope wire in
      if negb (rwr_incarnation wire =? incarnation) then
        answer ("stale " +:+ wf_side fmt +:+ " server incarnation")
      else if match env_deadline envelope with
              | Some deadline => deadline <? es_logical_time state
              | None => false
              end then
        answer (wf_side fmt +:+ " request deadline expired")
      else
        let key := (incarnation, env_client_epoch envelope, env_request_id envelope) in
        if es_shutdown state then answer (wf_side fmt +:+ " endpoint is shut down")
        else
          match es_cache state !! key with
          | Some entry =>
              if bool_decide (rce_request_bytes entry = request_bytes)
              then mret (inl (rce_response_bytes entry))
              else answer ("request ID and client epoch reused for a different " +:+ wf_medium fmt +:+
                " " +:+ wf_side fmt +:+ " request")
          | None =>
              if ep_mailbox_capacity self <=? es_in_flight state then
                answer (wf_side fmt +:+ " endpoint mailbox is full")
              else
                on_endpoint_state (st_modify (fun s => set_es_in_flight (es_in_flight s + 1) s));;
                mret (inr (key, envelope))
          end
  end.

Definition run_server (envelope : Req) : ST (RemoteEndpoint S) (Result Env) :=
  fun self => let '(response, server) := handle envelope (ep_server self) in
    (Ok response, mkRemoteEndpoint server (ep_incarnation self) (ep_dedupe_capacity self)
      (ep_mailbox_capacity self) (ep_state self)).

(** Everything after the call of the server. *)
Definition finish_request (request_bytes : list Z) (key : RemoteRequestKey) (response : Result Env)
    : ST (RemoteEndpoint S) (list Z) :=
  self ← st_get;
  on_endpoint_state (st_modify (fun s => set_es_in_flight (saturating_sub (es_in_flight s) 1) s));;
  response_bytes ← st_lift (match response with
    | Ok envelope => wf_encode_reply fmt (RwOk (ep_incarnation self) envelope)
    | Err error => encode_error (ep_incarnation self) (StorageError_to_string error)
    end);
  (if ep_dedupe_capacity self =? 0 then mret tt
   else on_endpoint_state (st_modify (remember (ep_dedupe_capacity self) key
     (mkRemoteCacheEntry request_bytes response_bytes))));;
  mret response_bytes.

Definition handle_wire (request_bytes : list Z) : ST (RemoteEndpoint S) (list Z) :=
  admitted ← admit_request request_bytes;
  match admitted with
  | inl reply => mret reply
  | inr (key, envelope) =>
      response ← run_server envelope;
      finish_request request_bytes key response
  end.
End endpoint.

(** The four endpoints. *)
Section endpoints.
Context {S : Type}.

Definition NetworkBlockEndpoint_handle_wire `{!BlockServer S} : list Z -> ST (RemoteEndpoint S) (list Z) :=
  handle_wire network_block block_handle.
Definition NetworkNativeEndpoint_handle_wire `{!NativeServer S}
    : list Z -> ST (RemoteEndpoint S) (list Z) :=
  handle_wire network_native native_handle.
Definition RemoteBlockEndpoint_handle_wire `{!BlockServer S}
    (RQ : Bincode (RemoteWireRequest BlockRequestEnvelope))
    (RS : Bincode (RemoteWireReply BlockResponseEnvelope)) : list Z -> ST (RemoteEndpoint S) (list Z) :=
  handle_wire (bincode_format "block" RQ RS) block_handle.
Definition RemoteNativeEndpoint_handle_wire `{!NativeServer S}
    (RQ : Bincode (RemoteWireRequest NativeRequestEnvelope))
    (RS : Bincode (RemoteWireReply NativeResponseEnvelope))
    : list Z -> ST (RemoteEndpoint S) (list Z) :=
  handle_wire (bincode_format "native" RQ RS) native_handle.
End endpoints.

(** ** Typed transports *)

(** A wire: one encoded request in, one encoded response out. *)
Class RemoteWireTransport (W : Type) := call_wire : list Z -> ST W (list Z).

Section transport.
Context {Req Env W : Type} `{!RequestEnvelope Req, !ResponseEnvelope Env, !RemoteWireTransport W}.
Context (fmt : WireFormat Req Env) (incarnation : ServerIncarnation).

Definition encode_request (request : Req) : Result (list Z) :=
  wf_encode_request fmt (mkRemoteWireRequest incarnation request).

Definition decode_response (request_id : RequestId) (bytes : list Z) : Result Env :=
  let stale := Conflict ("stale " +:+ wf_side fmt +:+ " server incarnation") in
  reply ← wf_decode_reply fmt bytes;
  match reply with
  | RwOk reply_incarnation envelope =>
      if (reply_incarnation =? incarnation) && (env_response_id envelope =? request_id) then Ok envelope
      else if negb (reply_incarnation =? incarnation) then Err stale
      else Err (Corrupt (wf_medium fmt +:+ " " +:+ wf_side fmt +:+
        " response request ID does not match request"))
  | RwErr reply_incarnation reason =>
      if reply_incarnation =? incarnation then Err (Unavailable reason) else Err stale
  end.

Definition transport_call (request : Req) : ST W Env :=
  request_bytes ← st_lift (encode_request request);
  response_bytes ← call_wire request_bytes;
  st_lift (decode_response (env_request_id request) response_bytes).
End transport.

Section transports.
Context {W : Type} `{!RemoteWireTransport W}.

Definition NetworkBlockTransport_call (incarnation : ServerIncarnation)
    : BlockRequestEnvelope -> ST W BlockResponseEnvelope := transport_call network_block incarnation.
Definition NetworkNativeTransport_call (incarnation : ServerIncarnation)
    : NativeRequestEnvelope -> ST W NativeResponseEnvelope := transport_call network_native incarnation.
Definition RemoteBlockTransport_call (RQ : Bincode (RemoteWireRequest BlockRequestEnvelope))
    (RS : Bincode (RemoteWireReply BlockResponseEnvelope)) (incarnation : ServerIncarnation)
    : BlockRequestEnvelope -> ST W BlockResponseEnvelope :=
  transport_call (bincode_format "block" RQ RS) incarnation.
Definition RemoteNativeTransport_call (RQ : Bincode (RemoteWireRequest NativeRequestEnvelope))
    (RS : Bincode (RemoteWireReply NativeResponseEnvelope)) (incarnation : ServerIncarnation)
    : NativeRequestEnvelope -> ST W NativeResponseEnvelope :=
  transport_call (bincode_format "native" RQ RS) incarnation.
End transports.

(** ** TCP frames

    A connection is the bytes still to be read and the bytes written so far;
    connecting, timeouts and failing writes belong to the operating system. *)

Record TcpStream := mkTcpStream {
  tcp_input : list Z;
  tcp_output : list Z;
}.

Definition write_all (bytes : list Z) : ST TcpStream unit :=
  st_modify (fun s => mkTcpStream (tcp_input s) (tcp_output s ++ bytes)).

Definition read_exact (len : Z) : ST TcpStream (list Z) :=
  s ← st_get;
  st_reject_if (Z.of_nat (length (tcp_input s)) <? len) (network_io_error "failed to fill whole buffer");;
  st_put (mkTcpStream (drop (Z.to_nat len) (tcp_input s)) (tcp_output s));;
  mret (take (Z.to_nat len) (tcp_input s)).

Definition write_tcp_frame (bytes : list Z) (max_frame_bytes : Z) : ST TcpStream unit :=
  let len := Z.of_nat (length bytes) in
  st_reject_if (max_frame_bytes <? len) (InvalidArgument "network frame exceeds limit");;
  st_reject_if (U32_MOD <=? len) (InvalidArgument "network frame length exceeds u32");;
  write_all (be_bytes 4 len);;
  write_all bytes.

Definition read_tcp_frame (max_frame_bytes : Z) : ST TcpStream (list Z) :=
  len_bytes ← read_exact 4;
  let len := be_value len_bytes in
  st_reject_if (max_frame_bytes <? len) (InvalidArgument "network frame exceeds limit");;
  read_exact len.

(** One accepted connection of [TcpRemoteWireServer]: a response is written when
    there is one; a failure closes the connection silently. *)
Definition serve_connection {W} `{!RemoteWireTransport W} (max_frame_bytes : Z) (stream : TcpStream)
    (endpoint : W) : TcpStream * W :=
  match read_tcp_frame max_frame_bytes stream with
  | (Err _, stream) => (stream, endpoint)
  | (Ok request, stream) =>
      match call_wire request endpoint with
      | (Err _, endpoint) => (stream, endpoint)
      | (Ok response, endpoint) => ((write_tcp_frame response max_frame_bytes stream).2, endpoint)
      end
  end.

(** [TcpRemoteWireTransport::call_wire] against such a server: a connection of
    its own per call, closed by the server when it has written or given up. *)
Definition tcp_call_wire {W} `{!RemoteWireTransport W} (max_frame_bytes : Z) (request_bytes : list Z)
    : ST W (list Z) :=
  fun endpoint =>
    match write_tcp_frame request_bytes max_frame_bytes (mkTcpStream [] []) with
    | (Err error, _) => (Err error, endpoint)
    | (Ok _, client) =>
        let '(server, endpoint) :=
          serve_connection max_frame_bytes (mkTcpStream (tcp_output client) []) endpoint in
        ((read_tcp_frame max_frame_bytes (mkTcpStream (tcp_output server) [])).1, endpoint)
    end.
