(* ===== verification/Chaos.v ===== *)
(** * Fault injection ([local/transport/chaos.rs])

    A wire and a storage-node transport that lose, repeat, delay, reorder and
    corrupt messages on request.  The faults of the next call are flags of the
    state; a call consumes at most one of the faults of the wire. *)

From S2P Require Import Prelude Api Object Provider Authority Catalog StorageNode Network.

(** ** State *)

Record ChaosTransportMetrics := mkChaosTransportMetrics {
  ctm_request_drops : Z;
  ctm_response_drops : Z;
  ctm_corrupted_responses : Z;
  ctm_duplicated_requests : Z;
  ctm_delayed_responses : Z;
  ctm_reordered_responses : Z;
  ctm_injected_failures : Z;
}.
Definition set_ctm_request_drops (v : Z) (s : ChaosTransportMetrics) : ChaosTransportMetrics :=
  mkChaosTransportMetrics v (ctm_response_drops s) (ctm_corrupted_responses s)
    (ctm_duplicated_requests s) (ctm_delayed_responses s) (ctm_reordered_responses s)
    (ctm_injected_failures s).
Definition set_ctm_response_drops (v : Z) (s : ChaosTransportMetrics) : ChaosTransportMetrics :=
  mkChaosTransportMetrics (ctm_request_drops s) v (ctm_corrupted_responses s)
    (ctm_duplicated_requests s) (ctm_delayed_responses s) (ctm_reordered_responses s)
    (ctm_injected_failures s).
Definition set_ctm_corrupted_responses (v : Z) (s : ChaosTransportMetrics) : ChaosTransportMetrics :=
  mkChaosTransportMetrics (ctm_request_drops s) (ctm_response_drops s) v
    (ctm_duplicated_requests s) (ctm_delayed_responses s) (ctm_reordered_responses s)
    (ctm_injected_failures s).
Definition set_ctm_duplicated_requests (v : Z) (s : ChaosTransportMetrics) : ChaosTransportMetrics :=
  mkChaosTransportMetrics (ctm_request_drops s) (ctm_response_drops s)
    (ctm_corrupted_responses s) v (ctm_delayed_responses s) (ctm_reordered_responses s)
    (ctm_injected_failures s).
Definition set_ctm_delayed_responses (v : Z) (s : ChaosTransportMetrics) : ChaosTransportMetrics :=
  mkChaosTransportMetrics (ctm_request_drops s) (ctm_response_drops s)
    (ctm_corrupted_responses s) (ctm_duplicated_requests s) v (ctm_reordered_responses s)
    (ctm_injected_failures s).
Definition set_ctm_reordered_responses (v : Z) (s : ChaosTransportMetrics) : ChaosTransportMetrics :=
  mkChaosTransportMetrics (ctm_request_drops s) (ctm_response_drops s)
    (ctm_corrupted_responses s) (ctm_duplicated_requests s) (ctm_delayed_responses s) v
    (ctm_injected_failures s).
Definition set_ctm_injected_failures (v : Z) (s : ChaosTransportMetrics) : ChaosTransportMetrics :=
  mkChaosTransportMetrics (ctm_request_drops s) (ctm_response_drops s)
    (ctm_corrupted_responses s) (ctm_duplicated_requests s) (ctm_delayed_responses s)
    (ctm_reordered_responses s) v.

(** [field.saturating_add(1)] *)
Definition bump (get : ChaosTransportMetrics -> Z)
    (put : Z -> ChaosTransportMetrics -> ChaosTransportMetrics) (m : ChaosTransportMetrics)
    : ChaosTransportMetrics := put (Z.min U64_MAX (get m + 1)) m.

Record ChaosWireState := mkChaosWireState {
  cws_delayed : list (Result (list Z));
  cws_trace : list string;
  cws_metrics : ChaosTransportMetrics;
  cws_fail_next_call : bool;
  cws_drop_next_request : bool;
  cws_drop_next_response : bool;
  cws_corrupt_next_response : bool;
  cws_duplicate_next_request : bool;
  cws_delay_next_response : bool;
  cws_return_delayed_next : bool;
  cws_reorder_next_response : bool;
}.
Definition set_cws_delayed (v : list (Result (list Z))) (s : ChaosWireState) : ChaosWireState :=
  mkChaosWireState v (cws_trace s) (cws_metrics s) (cws_fail_next_call s)
    (cws_drop_next_request s) (cws_drop_next_response s) (cws_corrupt_next_response s)
    (cws_duplicate_next_request s) (cws_delay_next_response s) (cws_return_delayed_next s)
    (cws_reorder_next_response s).
Definition set_cws_trace (v : list string) (s : ChaosWireState) : ChaosWireState :=
  mkChaosWireState (cws_delayed s) v (cws_metrics s) (cws_fail_next_call s)
    (cws_drop_next_request s) (cws_drop_next_response s) (cws_corrupt_next_response s)
    (cws_duplicate_next_request s) (cws_delay_next_response s) (cws_return_delayed_next s)
    (cws_reorder_next_response s).
Definition set_cws_metrics (v : ChaosTransportMetrics) (s : ChaosWireState) : ChaosWireState :=
  mkChaosWireState (cws_delayed s) (cws_trace s) v (cws_fail_next_call s)
    (cws_drop_next_request s) (cws_drop_next_response s) (cws_corrupt_next_response s)
    (cws_duplicate_next_request s) (cws_delay_next_response s) (cws_return_delayed_next s)
    (cws_reorder_next_response s).
Definition set_cws_fail_next_call (v : bool) (s : ChaosWireState) : ChaosWireState :=
  mkChaosWireState (cws_delayed s) (cws_trace s) (cws_metrics s) v (cws_drop_next_request s)
    (cws_drop_next_response s) (cws_corrupt_next_response s) (cws_duplicate_next_request s)
    (cws_delay_next_response s) (cws_return_delayed_next s) (cws_reorder_next_response s).
Definition set_cws_drop_next_request (v : bool) (s : ChaosWireState) : ChaosWireState :=
  mkChaosWireState (cws_delayed s) (cws_trace s) (cws_metrics s) (cws_fail_next_call s) v
    (cws_drop_next_response s) (cws_corrupt_next_response s) (cws_duplicate_next_request s)
    (cws_delay_next_response s) (cws_return_delayed_next s) (cws_reorder_next_response s).
Definition set_cws_drop_next_response (v : bool) (s : ChaosWireState) : ChaosWireState :=
  mkChaosWireState (cws_delayed s) (cws_trace s) (cws_metrics s) (cws_fail_next_call s)
    (cws_drop_next_request s) v (cws_corrupt_next_response s) (cws_duplicate_next_request s)
    (cws_delay_next_response s) (cws_return_delayed_next s) (cws_reorder_next_response s).
Definition set_cws_corrupt_next_response (v : bool) (s : ChaosWireState) : ChaosWireState :=
  mkChaosWireState (cws_delayed s) (cws_trace s) (cws_metrics s) (cws_fail_next_call s)
    (cws_drop_next_request s) (cws_drop_next_response s) v (cws_duplicate_next_request s)
    (cws_delay_next_response s) (cws_return_delayed_next s) (cws_reorder_next_response s).
Definition set_cws_duplicate_next_request (v : bool) (s : ChaosWireState) : ChaosWireState :=
  mkChaosWireState (cws_delayed s) (cws_trace s) (cws_metrics s) (cws_fail_next_call s)
    (cws_drop_next_request s) (cws_drop_next_response s) (cws_corrupt_next_response s) v
    (cws_delay_next_response s) (cws_return_delayed_next s) (cws_reorder_next_response s).
Definition set_cws_delay_next_response (v : bool) (s : ChaosWireState) : ChaosWireState :=
  mkChaosWireState (cws_delayed s) (cws_trace s) (cws_metrics s) (cws_fail_next_call s)
    (cws_drop_next_request s) (cws_drop_next_response s) (cws_corrupt_next_response s)
    (cws_duplicate_next_request s) v (cws_return_delayed_next s) (cws_reorder_next_response s).
Definition set_cws_return_delayed_next (v : bool) (s : ChaosWireState) : ChaosWireState :=
  mkChaosWireState (cws_delayed s) (cws_trace s) (cws_metrics s) (cws_fail_next_call s)
    (cws_drop_next_request s) (cws_drop_next_response s) (cws_corrupt_next_response s)
    (cws_duplicate_next_request s) (cws_delay_next_response s) v (cws_reorder_next_response s).
Definition set_cws_reorder_next_response (v : bool) (s : ChaosWireState) : ChaosWireState :=
  mkChaosWireState (cws_delayed s) (cws_trace s) (cws_metrics s) (cws_fail_next_call s)
    (cws_drop_next_request s) (cws_drop_next_response s) (cws_corrupt_next_response s)
    (cws_duplicate_next_request s) (cws_delay_next_response s) (cws_return_delayed_next s) v.

Definition ChaosWireState_new : ChaosWireState :=
  mkChaosWireState [] [] (mkChaosTransportMetrics 0 0 0 0 0 0 0) false false false false false false
    false false.

Record ChaosStorageNodeState := mkChaosStorageNodeState {
  cns_delayed : list (Result StorageNodeResponse);
  cns_trace : list string;
  cns_metrics : ChaosTransportMetrics;
  cns_fail_next_call : bool;
  cns_drop_next_request : bool;
  cns_drop_next_response : bool;
  cns_corrupt_next_grant : bool;
  cns_corrupt_next_receipt : bool;
  cns_duplicate_next_request : bool;
  cns_delay_next_response : bool;
  cns_return_delayed_next : bool;
}.
Definition set_cns_delayed (v : list (Result StorageNodeResponse)) (s : ChaosStorageNodeState) : ChaosStorageNodeState :=
  mkChaosStorageNodeState v (cns_trace s) (cns_metrics s) (cns_fail_next_call s)
    (cns_drop_next_request s) (cns_drop_next_response s) (cns_corrupt_next_grant s)
    (cns_corrupt_next_receipt s) (cns_duplicate_next_request s) (cns_delay_next_response s)
    (cns_return_delayed_next s).
Definition set_cns_trace (v : list string) (s : ChaosStorageNodeState) : ChaosStorageNodeState :=
  mkChaosStorageNodeState (cns_delayed s) v (cns_metrics s) (cns_fail_next_call s)
    (cns_drop_next_request s) (cns_drop_next_response s) (cns_corrupt_next_grant s)
    (cns_corrupt_next_receipt s) (cns_duplicate_next_request s) (cns_delay_next_response s)
    (cns_return_delayed_next s).
Definition set_cns_metrics (v : ChaosTransportMetrics) (s : ChaosStorageNodeState) : ChaosStorageNodeState :=
  mkChaosStorageNodeState (cns_delayed s) (cns_trace s) v (cns_fail_next_call s)
    (cns_drop_next_request s) (cns_drop_next_response s) (cns_corrupt_next_grant s)
    (cns_corrupt_next_receipt s) (cns_duplicate_next_request s) (cns_delay_next_response s)
    (cns_return_delayed_next s).
Definition set_cns_fail_next_call (v : bool) (s : ChaosStorageNodeState) : ChaosStorageNodeState :=
  mkChaosStorageNodeState (cns_delayed s) (cns_trace s) (cns_metrics s) v
    (cns_drop_next_request s) (cns_drop_next_response s) (cns_corrupt_next_grant s)
    (cns_corrupt_next_receipt s) (cns_duplicate_next_request s) (cns_delay_next_response s)
    (cns_return_delayed_next s).
Definition set_cns_drop_next_request (v : bool) (s : ChaosStorageNodeState) : ChaosStorageNodeState :=
  mkChaosStorageNodeState (cns_delayed s) (cns_trace s) (cns_metrics s) (cns_fail_next_call s) v
    (cns_drop_next_response s) (cns_corrupt_next_grant s) (cns_corrupt_next_receipt s)
    (cns_duplicate_next_request s) (cns_delay_next_response s) (cns_return_delayed_next s).
Definition set_cns_drop_next_response (v : bool) (s : ChaosStorageNodeState) : ChaosStorageNodeState :=
  mkChaosStorageNodeState (cns_delayed s) (cns_trace s) (cns_metrics s) (cns_fail_next_call s)
    (cns_drop_next_request s) v (cns_corrupt_next_grant s) (cns_corrupt_next_receipt s)
    (cns_duplicate_next_request s) (cns_delay_next_response s) (cns_return_delayed_next s).
Definition set_cns_corrupt_next_grant (v : bool) (s : ChaosStorageNodeState) : ChaosStorageNodeState :=
  mkChaosStorageNodeState (cns_delayed s) (cns_trace s) (cns_metrics s) (cns_fail_next_call s)
    (cns_drop_next_request s) (cns_drop_next_response s) v (cns_corrupt_next_receipt s)
    (cns_duplicate_next_request s) (cns_delay_next_response s) (cns_return_delayed_next s).
Definition set_cns_corrupt_next_receipt (v : bool) (s : ChaosStorageNodeState) : ChaosStorageNodeState :=
  mkChaosStorageNodeState (cns_delayed s) (cns_trace s) (cns_metrics s) (cns_fail_next_call s)
    (cns_drop_next_request s) (cns_drop_next_response s) (cns_corrupt_next_grant s) v
    (cns_duplicate_next_request s) (cns_delay_next_response s) (cns_return_delayed_next s).
Definition set_cns_duplicate_next_request (v : bool) (s : ChaosStorageNodeState) : ChaosStorageNodeState :=
  mkChaosStorageNodeState (cns_delayed s) (cns_trace s) (cns_metrics s) (cns_fail_next_call s)
    (cns_drop_next_request s) (cns_drop_next_response s) (cns_corrupt_next_grant s)
    (cns_corrupt_next_receipt s) v (cns_delay_next_response s) (cns_return_delayed_next s).
Definition set_cns_delay_next_response (v : bool) (s : ChaosStorageNodeState) : ChaosStorageNodeState :=
  mkChaosStorageNodeState (cns_delayed s) (cns_trace s) (cns_metrics s) (cns_fail_next_call s)
    (cns_drop_next_request s) (cns_drop_next_response s) (cns_corrupt_next_grant s)
    (cns_corrupt_next_receipt s) (cns_duplicate_next_request s) v (cns_return_delayed_next s).
Definition set_cns_return_delayed_next (v : bool) (s : ChaosStorageNodeState) : ChaosStorageNodeState :=
  mkChaosStorageNodeState (cns_delayed s) (cns_trace s) (cns_metrics s) (cns_fail_next_call s)
    (cns_drop_next_request s) (cns_drop_next_response s) (cns_corrupt_next_grant s)
    (cns_corrupt_next_receipt s) (cns_duplicate_next_request s) (cns_delay_next_response s) v.

Definition ChaosStorageNodeState_new : ChaosStorageNodeState :=
  mkChaosStorageNodeState [] [] (mkChaosTransportMetrics 0 0 0 0 0 0 0) false false false false false
    false false false.

(** ** The wire *)

Inductive ChaosWireAction :=
  | CwPass | CwFail | CwDropRequest | CwDropResponse | CwCorruptResponse | CwDuplicateRequest
  | CwDelayResponse | CwReturnDelayed | CwReorderWithDelayed.

(** The flag is cleared, the fault counted and traced. *)
Definition wire_fault (clear : ChaosWireState -> ChaosWireState)
    (count : ChaosTransportMetrics -> ChaosTransportMetrics) (line : string) (action : ChaosWireAction)
    (s : ChaosWireState) : ChaosWireAction * ChaosWireState :=
  let s := clear s in
  let s := set_cws_metrics (count (cws_metrics s)) s in
  (action, set_cws_trace (cws_trace s ++ [line]) s).

Definition take_action (s : ChaosWireState) : ChaosWireAction * ChaosWireState :=
  if cws_fail_next_call s then
    wire_fault (set_cws_fail_next_call false) (bump ctm_injected_failures set_ctm_injected_failures)
      "fail call before send" CwFail s
  else if cws_drop_next_request s then
    wire_fault (set_cws_drop_next_request false) (bump ctm_request_drops set_ctm_request_drops)
      "drop request before send" CwDropRequest s
  else if cws_return_delayed_next s then
    wire_fault (set_cws_return_delayed_next false) (fun m => m)
      "return delayed response before sending request" CwReturnDelayed s
  else if cws_reorder_next_response s then
    wire_fault (set_cws_reorder_next_response false) (bump ctm_reordered_responses set_ctm_reordered_responses)
      "reorder current response behind delayed response" CwReorderWithDelayed s
  else if cws_drop_next_response s then
    wire_fault (set_cws_drop_next_response false) (bump ctm_response_drops set_ctm_response_drops)
      "drop response after send" CwDropResponse s
  else if cws_corrupt_next_response s then
    wire_fault (set_cws_corrupt_next_response false) (bump ctm_corrupted_responses set_ctm_corrupted_responses)
      "corrupt response after send" CwCorruptResponse s
  else if cws_duplicate_next_request s then
    wire_fault (set_cws_duplicate_next_request false) (bump ctm_duplicated_requests set_ctm_duplicated_requests)
      "duplicate request delivery" CwDuplicateRequest s
  else if cws_delay_next_response s then
    wire_fault (set_cws_delay_next_response false) (bump ctm_delayed_responses set_ctm_delayed_responses)
      "delay response after send" CwDelayResponse s
  else (CwPass, s).

Record ChaosRemoteWireTransport (W : Type) := mkChaosRemoteWireTransport {
  cw_inner : W;
  cw_state : ChaosWireState;
}.
Arguments mkChaosRemoteWireTransport {W} _ _.
Arguments cw_inner {W} _.
Arguments cw_state {W} _.

(** The request to inject a fault into the next call. *)
Inductive ChaosWireScript :=
  | InjFail | InjDropRequest | InjDropResponse | InjCorruptResponse | InjDuplicateRequest
  | InjDelayResponse | InjReturnDelayed | InjReorder.

Definition inject (fault : ChaosWireScript) : ChaosWireState -> ChaosWireState :=
  match fault with
  | InjFail => set_cws_fail_next_call true
  | InjDropRequest => set_cws_drop_next_request true
  | InjDropResponse => set_cws_drop_next_response true
  | InjCorruptResponse => set_cws_corrupt_next_response true
  | InjDuplicateRequest => set_cws_duplicate_next_request true
  | InjDelayResponse => set_cws_delay_next_response true
  | InjReturnDelayed => set_cws_return_delayed_next true
  | InjReorder => set_cws_reorder_next_response true
  end.

Section wire.
Context {W : Type} `{!RemoteWireTransport W}.

Definition inject_fault (fault : ChaosWireScript) : ST (ChaosRemoteWireTransport W) unit :=
  st_modify (fun self => mkChaosRemoteWireTransport (cw_inner self) (inject fault (cw_state self))).

Definition next_action : ST (ChaosRemoteWireTransport W) ChaosWireAction :=
  fun self => let '(action, state) := take_action (cw_state self) in
    (Ok action, mkChaosRemoteWireTransport (cw_inner self) state).

(** The call of the wrapped transport, as a value. *)
Definition inner_call (request_bytes : list Z) : ST (ChaosRemoteWireTransport W) (Result (list Z)) :=
  fun self => let '(r, inner) := call_wire request_bytes (cw_inner self) in
    (Ok r, mkChaosRemoteWireTransport inner (cw_state self)).

Definition pop_delayed : ST (ChaosRemoteWireTransport W) (Result (list Z)) :=
  self ← st_get;
  match cws_delayed (cw_state self) with
  | [] => st_lift (Err (Unavailable "chaos transport has no delayed response"))
  | response :: delayed =>
      st_put (mkChaosRemoteWireTransport (cw_inner self) (set_cws_delayed delayed (cw_state self)));;
      mret response
  end.

Definition push_delayed (response : Result (list Z)) : ST (ChaosRemoteWireTransport W) unit :=
  st_modify (fun self => mkChaosRemoteWireTransport (cw_inner self)
    (set_cws_delayed (cws_delayed (cw_state self) ++ [response]) (cw_state self))).

Definition corrupt (response : list Z) : list Z :=
  match response with
  | first :: rest => Z.lxor first 255 :: rest
  | [] => [255]
  end.

Definition chaos_call_wire (request_bytes : list Z) : ST (ChaosRemoteWireTransport W) (list Z) :=
  action ← next_action;
  match action with
  | CwPass => r ← inner_call request_bytes; st_lift r
  | CwFail => st_lift (Err (Unavailable "chaos transport failed call"))
  | CwDropRequest => st_lift (Err (Unavailable "chaos transport dropped request before send"))
  | CwDropResponse =>
      inner_call request_bytes;;
      st_lift (Err (Unavailable "chaos transport dropped response after send"))
  | CwCorruptResponse =>
      r ← inner_call request_bytes;
      response ← st_lift r;
      mret (corrupt response)
  | CwDuplicateRequest =>
      first ← inner_call request_bytes;
      second ← inner_call request_bytes;
      st_lift (match first, second with
        | Ok response, Ok _ => Ok response
        | Err error, _ => Err error
        | Ok _, Err error => Err error
        end)
  | CwDelayResponse =>
      response ← inner_call request_bytes;
      push_delayed response;;
      st_lift (Err (Unavailable "chaos transport delayed response after send"))
  | CwReturnDelayed => r ← pop_delayed; st_lift r
  | CwReorderWithDelayed =>
      delayed ← pop_delayed;
      current ← inner_call request_bytes;
      push_delayed current;;
      st_lift delayed
  end.

#[export] Instance chaos_wire : RemoteWireTransport (ChaosRemoteWireTransport W) := chaos_call_wire.
End wire.

(** ** Storage nodes *)

Class StorageNodeTransport (N : Type) := node_send : StorageNodeRequest -> ST N StorageNodeResponse.

Record ChaosStorageNodeTransport (N : Type) := mkChaosStorageNodeTransport {
  cn_inner : N;
  cn_state : ChaosStorageNodeState;
}.
Arguments mkChaosStorageNodeTransport {N} _ _.
Arguments cn_inner {N} _.
Arguments cn_state {N} _.

Definition flip_first (proof : list Z) : list Z :=
  match proof with b :: rest => Z.lxor b 255 :: rest | [] => [] end.

Definition mutate_request (request : StorageNodeRequest) : StorageNodeRequest :=
  match request with
  | SnWriteSegment grant bytes => SnWriteSegment (set_wg_proof grant (flip_first (wg_proof grant))) bytes
  | _ => request
  end.

Definition mutate_response (response : StorageNodeResponse) : StorageNodeResponse :=
  match response with
  | SnrWriteSegment receipt => SnrWriteSegment (set_sr_proof receipt (flip_first (sr_proof receipt)))
  | _ => response
  end.

Section node.
Context {N : Type} `{!StorageNodeTransport N}.

(** The flag is cleared, the fault counted and traced. *)
Definition node_fault (clear : ChaosStorageNodeState -> ChaosStorageNodeState)
    (count : ChaosTransportMetrics -> ChaosTransportMetrics) (line : string)
    : ST (ChaosStorageNodeTransport N) unit :=
  st_modify (fun self =>
    let s := clear (cn_state self) in
    let s := set_cns_metrics (count (cns_metrics s)) s in
    mkChaosStorageNodeTransport (cn_inner self) (set_cns_trace (cns_trace s ++ [line]) s)).

Definition node_flag (flag : ChaosStorageNodeState -> bool) : ST (ChaosStorageNodeTransport N) bool :=
  st_gets (fun self => flag (cn_state self)).

Definition node_call (request : StorageNodeRequest)
    : ST (ChaosStorageNodeTransport N) (Result StorageNodeResponse) :=
  fun self => let '(r, inner) := node_send request (cn_inner self) in
    (Ok r, mkChaosStorageNodeTransport inner (cn_state self)).

Definition node_pop_delayed : ST (ChaosStorageNodeTransport N) (Result StorageNodeResponse) :=
  self ← st_get;
  match cns_delayed (cn_state self) with
  | [] => st_lift (Err (Unavailable "chaos storage node has no delayed response"))
  | response :: delayed =>
      st_put (mkChaosStorageNodeTransport (cn_inner self) (set_cns_delayed delayed (cn_state self)));;
      mret response
  end.

(** After the faults that keep the request from being sent. *)
Definition chaos_deliver (request : StorageNodeRequest)
    : ST (ChaosStorageNodeTransport N) StorageNodeResponse :=
  duplicate ← node_flag cns_duplicate_next_request;
  r ← (if (duplicate : bool) then
      node_fault (set_cns_duplicate_next_request false)
        (bump ctm_duplicated_requests set_ctm_duplicated_requests) "duplicate storage-node request";;
      first ← node_call request;
      second ← node_call request;
      mret (match first, second with
        | Ok response, Ok _ => Ok response
        | Err error, _ => Err error
        | Ok _, Err error => Err error
        end)
    else node_call request);
  response ← st_lift r;
  dropped ← node_flag cns_drop_next_response;
  if (dropped : bool) then
    node_fault (set_cns_drop_next_response false) (bump ctm_response_drops set_ctm_response_drops)
      "drop storage-node response";;
    st_lift (Err (Unavailable "chaos storage node dropped response after send"))
  else
    corrupted ← node_flag cns_corrupt_next_receipt;
    response ← (if (corrupted : bool) then
        node_fault (set_cns_corrupt_next_receipt false)
          (bump ctm_corrupted_responses set_ctm_corrupted_responses) "corrupt storage-node receipt";;
        mret (mutate_response response)
      else mret response);
    delayed ← node_flag cns_delay_next_response;
    if (delayed : bool) then
      node_fault (set_cns_delay_next_response false) (bump ctm_delayed_responses set_ctm_delayed_responses)
        "delay storage-node response";;
      st_modify (fun self => mkChaosStorageNodeTransport (cn_inner self)
        (set_cns_delayed (cns_delayed (cn_state self) ++ [Ok response]) (cn_state self)));;
      st_lift (Err (Unavailable "chaos storage node delayed response after send"))
    else mret response.

Definition chaos_send (request : StorageNodeRequest)
    : ST (ChaosStorageNodeTransport N) StorageNodeResponse :=
  fail ← node_flag cns_fail_next_call;
  if (fail : bool) then
    node_fault (set_cns_fail_next_call false) (bump ctm_injected_failures set_ctm_injected_failures)
      "fail storage-node call";;
    st_lift (Err (Unavailable "chaos storage node failed call"))
  else
    dropped ← node_flag cns_drop_next_request;
    if (dropped : bool) then
      node_fault (set_cns_drop_next_request false) (bump ctm_request_drops set_ctm_request_drops)
        "drop storage-node request";;
      st_lift (Err (Unavailable "chaos storage node dropped request before send"))
    else
      return_delayed ← node_flag cns_return_delayed_next;
      if (return_delayed : bool) then
        node_fault (set_cns_return_delayed_next false) (fun m => m)
          "return delayed storage-node response";;
        r ← node_pop_delayed; st_lift r
      else
        corrupted ← node_flag cns_corrupt_next_grant;
        if (corrupted : bool) then
          node_fault (set_cns_corrupt_next_grant false)
            (bump ctm_corrupted_responses set_ctm_corrupted_responses) "corrupt storage-node grant";;
          chaos_deliver (mutate_request request)
        else chaos_deliver request.
End node.
