(* ===== verification/NetworkSpec.v ===== *)
(** * What the remote transports promise

    A network frame is accepted exactly when it is the encoding of the message it
    is read as.  An endpoint answers a retry with the bytes of the first answer
    as long as fewer requests than its window came in between.  Over the wire of
    the fault injection, which loses, repeats, delays and reorders messages and
    damages the first byte of responses, a client that retries one request gets
    the server's own response or an error, and the server executes the request at
    most once.  The TCP frames carry a call unchanged. *)

From S2P Require Import Prelude Api Provider Authority NativeApi Server Codec CodecObjects CodecApi.
From S2P Require Import Network Chaos.

(** ** Frames *)

Section frames.
Context {A : Type} (T : DurableCodec A) (ok : A -> Prop) (kind : Z).

Definition frame_header : list Z := NETWORK_WIRE_MAGIC ++ be_bytes 2 NETWORK_WIRE_VERSION ++ [kind].

Lemma write_frame_emits a e : emits (encode T a) e -> emits (write_frame T kind a) (frame_header ++ e).
Proof.
  intros He. unfold write_frame, frame_header. rewrite <-!app_assoc.
  repeat (apply emits_bind; [apply emits_extend|]). done.
Qed.

Lemma encode_frame a e : emits (encode T a) e -> encode_network_frame T kind a = Ok (frame_header ++ e).
Proof. intros He. unfold encode_network_frame. by rewrite (write_frame_emits a e He []). Qed.

Lemma read_frame_reads a e :
  is_byte kind -> reads (decode T) e a -> reads (read_frame T kind) (frame_header ++ e) a.
Proof.
  intros Hk He. unfold read_frame, frame_header. rewrite <-!app_assoc.
  eapply reads_bind; [apply (reads_take NETWORK_WIRE_MAGIC)|]. apply reads_guard; [done|].
  eapply reads_bind; [by apply (uint_round_trip 2)|]. apply reads_guard; [done|].
  destruct (u8_round_trip kind Hk) as (k & Hemit & Hread).
  assert (k = [kind]) as -> by (eapply emits_unique; [exact Hemit|apply emits_extend]).
  eapply reads_bind; [exact Hread|]. apply reads_guard; [by rewrite Z.eqb_refl|done].
Qed.

Lemma decode_frame a e :
  is_byte kind -> reads (decode T) e a -> Z.of_nat (length (frame_header ++ e)) < U64_MOD ->
  decode_network_frame T kind (frame_header ++ e) = Ok a.
Proof.
  intros Hk He Hlen. unfold decode_network_frame.
  pose proof (read_frame_reads a e Hk He [] []) as Hread.
  rewrite !app_nil_r in Hread. change (mkDurableDecoder _ 0) with (decoder_at [] (frame_header ++ e)).
  rewrite (Hread Hlen).
  unfold Decoder_finish, decoder_at. cbn [dd_offset dd_bytes]. by rewrite app_nil_r, Z.eqb_refl.
Qed.

Lemma read_frame_consumes `{!Canonical T ok} :
  consumes (read_frame T kind) (fun a bytes =>
    exists e, bytes = frame_header ++ e /\ ok a /\ emits (encode T a) e).
Proof.
  unfold read_frame.
  eapply consumes_bind; [by apply consumes_take|]. intros magic e1 (-> & _ & _).
  apply consumes_guard. intros Hm. bool_prop. subst.
  eapply consumes_bind; [apply (uint_canonical 2)|]. intros version e2 (_ & He2).
  apply consumes_guard. intros Hv. bool_prop. subst version.
  apply emits_unique with (e' := be_bytes 2 NETWORK_WIRE_VERSION) in He2; [|apply emits_extend].
  eapply consumes_bind; [apply u8_canonical|]. intros k e3 (_ & He3).
  apply consumes_guard. intros Hk. bool_prop. subst k.
  apply emits_unique with (e' := [kind]) in He3; [|apply emits_extend]. subst.
  intros pre rest a d Hb H. destruct (canonical _ _ _ _ Hb H) as (e & rest' & -> & -> & Hok & He).
  eexists e, rest'. split_and!; [done..|]. exists e. unfold frame_header. by rewrite <-!app_assoc.
Qed.

(** Accepted frames are the encodings of their messages. *)
Lemma frame_accepted `{!RoundTrip T ok, !Canonical T ok} bytes a :
  is_byte kind -> Forall is_byte bytes -> Z.of_nat (length bytes) < U64_MOD ->
  decode_network_frame T kind bytes = Ok a <-> ok a /\ encode_network_frame T kind a = Ok bytes.
Proof.
  intros Hk Hb Hlen. split.
  - unfold decode_network_frame.
    destruct (read_frame T kind (mkDurableDecoder bytes 0)) as [[v|] d] eqn:Hrun; [|done]. cbn.
    destruct (read_frame_consumes [] bytes v d Hb Hrun) as (e' & rest & -> & -> & e & -> & Hok & He).
    unfold Decoder_finish, decoder_at. cbn [dd_offset dd_bytes app]. unfold reject_if.
    destruct (negb _) eqn:Hfin; [done|]. bool_prop. intros [= <-]. split; [done|].
    rewrite (length_app _ rest) in Hfin. assert (rest = []) as -> by (destruct rest; [done|cbn in Hfin; lia]).
    rewrite app_nil_r. by apply encode_frame.
  - intros [Hok Henc]. destruct (round_trip a Hok) as (e & Hemit & Hread).
    rewrite (encode_frame a e Hemit) in Henc. injection Henc as <-. by apply decode_frame.
Qed.
End frames.

(** C22: the network protocol has one encoding per message: a byte string that
    fits a 64-bit length is accepted as a block or native request or reply
    exactly when it is the frame of that message and the message is within the
    limits of the codec (integers of their width, collections of at most one
    million elements, strings of at most one mebibyte of UTF-8). *)
Theorem network_frames_exact (bytes : list Z) :
  Forall is_byte bytes -> Z.of_nat (length bytes) < U64_MOD ->
  (forall wire, wf_decode_request network_block bytes = Ok wire <->
    RemoteWireRequest_ok BlockRequestEnvelope_ok wire /\ wf_encode_request network_block wire = Ok bytes) /\
  (forall reply, wf_decode_reply network_block bytes = Ok reply <->
    RemoteWireReply_ok BlockResponseEnvelope_ok reply /\ wf_encode_reply network_block reply = Ok bytes) /\
  (forall wire, wf_decode_request network_native bytes = Ok wire <->
    RemoteWireRequest_ok NativeRequestEnvelope_ok wire /\ wf_encode_request network_native wire = Ok bytes) /\
  (forall reply, wf_decode_reply network_native bytes = Ok reply <->
    RemoteWireReply_ok NativeResponseEnvelope_ok reply /\ wf_encode_reply network_native reply = Ok bytes).
Proof.
  intros Hb Hlen.
  split_and!; intros m; refine (frame_accepted _ _ _ bytes m _ Hb Hlen); by vm_compute.
Qed.

Lemma network_frames_exact_witness :
  wf_decode_request network_block
    (frame_header NETWORK_BLOCK_REQUEST ++ be_bytes 8 7 ++ be_bytes 16 3 ++ be_bytes 8 1 ++ [0] ++ [2] ++
      be_bytes 16 5) =
    Ok (mkRemoteWireRequest 7 (mkBlockRequestEnvelope 3 1 None (RqInfo 5))).
Proof.
  eapply (network_frames_exact (frame_header NETWORK_BLOCK_REQUEST ++ be_bytes 8 7 ++ be_bytes 16 3 ++
    be_bytes 8 1 ++ [0] ++ [2] ++ be_bytes 16 5)).
  - apply Forall_fold_right. vm_compute. repeat split; discriminate.
  - by vm_compute.
  - split; [|by vm_compute]. vm_compute. repeat split; discriminate.
Defined.

(** ** Endpoints *)

(** Eviction keeps the newest keys and forgets exactly the others. *)
Lemma evict_spec capacity order cache order' cache' :
  0 <= capacity -> evict capacity order cache = (order', cache') ->
  exists old, order = old ++ order' /\ length order' = Nat.min (Z.to_nat capacity) (length order) /\
    forall key, cache' !! key = if decide (key ∈ old) then None else cache !! key.
Proof.
  intros Hc. revert cache. induction order as [|k order IH]; intros cache; cbn [evict].
  { intros [= <- <-]. exists []. split_and!; [done|cbn; lia|done]. }
  destruct (capacity <? _) eqn:Hlt; bool_prop.
  - intros H. destruct (IH _ H) as (old & -> & Hlen & Hlook). exists (k :: old).
    rewrite length_app in *. cbn [length] in *. rewrite length_app in Hlt. split_and!; [done|rewrite length_app; lia|].
    intros key. rewrite Hlook. destruct (decide (key = k)) as [->|Hne].
    + rewrite lookup_delete_eq, (decide_True (P := k ∈ k :: old)) by left. by destruct (decide _).
    + rewrite lookup_delete_ne by done. destruct (decide (key ∈ old)); [rewrite decide_True|rewrite decide_False];
        [done|by right|done|by rewrite elem_of_cons; intros [|]].
  - intros [= <- <-]. exists []. cbn [length] in *. split_and!; [done|lia|].
    intros key. by rewrite decide_False by apply not_elem_of_nil.
Qed.

(** The keys an endpoint remembers, oldest first, each once. *)
Definition window_ok (s : RemoteEndpointState) : Prop :=
  NoDup (es_order s) /\ forall key, is_Some (es_cache s !! key) <-> key ∈ es_order s.

(** A key is remembered and at most [n] newer ones are. *)
Definition remembered (n : nat) (key : RemoteRequestKey) (entry : RemoteCacheEntry)
    (s : RemoteEndpointState) : Prop :=
  window_ok s /\ es_cache s !! key = Some entry /\
  exists older newer, es_order s = older ++ key :: newer /\ (length newer <= n)%nat.

Definition same_window (s s' : RemoteEndpointState) : Prop :=
  es_order s' = es_order s /\ es_cache s' = es_cache s.

Lemma same_window_ok s s' : same_window s s' -> window_ok s -> window_ok s'.
Proof. intros [Ho Hc]. unfold window_ok. by rewrite Ho, Hc. Qed.

Lemma same_window_remembered n key entry s s' :
  same_window s s' -> remembered n key entry s -> remembered n key entry s'.
Proof. intros [Ho Hc]. unfold remembered, window_ok. by rewrite Ho, Hc. Qed.

Lemma remembered_weaken n m key entry s :
  (n <= m)%nat -> remembered n key entry s -> remembered m key entry s.
Proof. intros Hnm (Hw & Hl & o & l & Ho & Hn). split_and!; [done..|]. exists o, l. split; [done|lia]. Qed.

Lemma window_insert key entry s :
  window_ok s -> es_cache s !! key = None ->
  NoDup (es_order s ++ [key]) /\
  forall k, is_Some (<[key := entry]> (es_cache s) !! k) <-> k ∈ es_order s ++ [key].
Proof.
  intros [Hnd Hdom] Hnone. split.
  - apply NoDup_app. split_and!; [done| |apply NoDup_singleton].
    intros k Hk Hin. apply list_elem_of_singleton in Hin as ->. apply Hdom in Hk as [? Hk]. by rewrite Hnone in Hk.
  - intros k. rewrite elem_of_app, list_elem_of_singleton. destruct (decide (k = key)) as [->|Hne].
    + rewrite lookup_insert_eq. split; eauto.
    + rewrite lookup_insert_ne by done. rewrite Hdom. split; [by left|by intros [|]].
Qed.

Lemma remember_window capacity key entry s :
  0 <= capacity -> window_ok s -> es_cache s !! key = None -> window_ok (remember capacity key entry s).
Proof.
  intros Hc Hw Hnone. destruct (window_insert key entry s Hw Hnone) as [Hnd Hdom]. unfold remember.
  destruct (evict _ _ _) as [order cache] eqn:He.
  destruct (evict_spec _ _ _ _ _ Hc He) as (old & Hsplit & _ & Hlook).
  rewrite Hsplit in Hnd. apply NoDup_app in Hnd as (_ & Hdisj & Hnd).
  split; cbn [es_order es_cache]; [done|]. intros k. rewrite Hlook.
  specialize (Hdom k). rewrite Hsplit, elem_of_app in Hdom. destruct (decide (k ∈ old)) as [Hin|Hin].
  - split; [by intros [? ?]|]. intros Ho. by destruct (Hdisj k Hin).
  - rewrite Hdom. split; [by intros [|]|by right].
Qed.

Lemma remember_new capacity key entry s :
  0 < capacity -> window_ok s -> es_cache s !! key = None ->
  remembered 0 key entry (remember capacity key entry s).
Proof.
  intros Hc Hw Hnone. split; [apply remember_window; [lia|done|done]|].
  destruct (window_insert key entry s Hw Hnone) as [Hnd _]. unfold remember.
  destruct (evict _ _ _) as [order cache] eqn:He. cbn [es_cache es_order].
  destruct (evict_spec _ _ _ _ _ (Z.lt_le_incl _ _ Hc) He) as (old & Hsplit & Hlen & Hlook).
  destruct order as [|k order _] using rev_ind; [rewrite length_app in Hlen; cbn in Hlen; lia|].
  rewrite app_assoc in Hsplit. apply app_inj_tail in Hsplit as [Hsplit <-].
  split; [|exists order, []; by split]. rewrite Hlook, decide_False, lookup_insert_eq; [done|].
  intros Hin. rewrite Hsplit in Hnd. apply NoDup_app in Hnd as (_ & Hdisj & _).
  apply (Hdisj key); [apply elem_of_app; by left|by left].
Qed.

Lemma remember_other n capacity key entry key' entry' s :
  Z.of_nat (S n) < capacity -> remembered n key entry s -> es_cache s !! key' = None ->
  remembered (S n) key entry (remember capacity key' entry' s).
Proof.
  intros Hc (Hw & Hlook & older & newer & Hord & Hn) Hnone. split; [apply remember_window; [lia|done|done]|].
  destruct (window_insert key' entry' s Hw Hnone) as [Hnd _]. unfold remember.
  destruct (evict _ _ _) as [order cache] eqn:He. cbn [es_cache es_order].
  destruct (evict_spec capacity _ _ _ _ ltac:(lia) He) as (old & Hsplit & Hlen & Hget).
  rewrite Hord, <-app_assoc in Hsplit, Hlen. cbn [app] in Hsplit, Hlen.
  assert (Hne : key <> key') by (intros ->; by rewrite Hlook in Hnone).
  assert (exists l, older = old ++ l /\ order = l ++ key :: newer ++ [key']) as (l & -> & ->).
  { destruct (app_eq_inv _ _ _ _ Hsplit) as [(l & -> & Htail)|(l & -> & Htail)]; [by exists l|].
    assert (l = []) as ->; [|exists []; rewrite !app_nil_r; by split].
    apply length_zero_iff_nil. apply (f_equal length) in Htail.
    rewrite !length_app in *. cbn [length] in *. rewrite !length_app in *. cbn [length] in *. lia. }
  split; [|exists l, (newer ++ [key']); rewrite length_app; cbn; split; [done|lia]].
  rewrite Hget, lookup_insert_ne, decide_False; [done| |done].
  intros Hin. rewrite Hord, <-!app_assoc in Hnd. apply NoDup_app in Hnd as (_ & Hdisj & _).
  apply (Hdisj key Hin). apply elem_of_app. right. by left.
Qed.

Section endpoint.
Context {Req Env S : Type} `{!RequestEnvelope Req}.
Context (fmt : WireFormat Req Env) (handle : Req -> ST S Env).

(** The bytes hold a request for this incarnation that has not expired, and the
    endpoint is not shut down. *)
Definition ready (bytes : list Z) (key : RemoteRequestKey) (envelope : Req) (e : RemoteEndpoint S) : Prop :=
  wf_decode_request fmt bytes = Ok (mkRemoteWireRequest (ep_incarnation e) envelope) /\
  key = (ep_incarnation e, env_client_epoch envelope, env_request_id envelope) /\
  es_shutdown (ep_state e) = false /\
  match env_deadline envelope with Some deadline => es_logical_time (ep_state e) <= deadline | None => True end.

Definition with_state (e : RemoteEndpoint S) (server : S) (s : RemoteEndpointState) : RemoteEndpoint S :=
  mkRemoteEndpoint server (ep_incarnation e) (ep_dedupe_capacity e) (ep_mailbox_capacity e) s.

Definition encode_outcome (e : RemoteEndpoint S) (response : Result Env) : Result (list Z) :=
  match response with
  | Ok envelope => wf_encode_reply fmt (RwOk (ep_incarnation e) envelope)
  | Err error => wf_encode_reply fmt (RwErr (ep_incarnation e) (StorageError_to_string error))
  end.

Lemma admit_ready bytes key envelope e :
  ready bytes key envelope e ->
  match es_cache (ep_state e) !! key with
  | Some entry => rce_request_bytes entry = bytes ->
      admit_request fmt bytes e = (Ok (inl (rce_response_bytes entry)), e)
  | None => es_in_flight (ep_state e) < ep_mailbox_capacity e ->
      admit_request fmt bytes e = (Ok (inr (key, envelope)),
        with_state e (ep_server e) (set_es_in_flight (es_in_flight (ep_state e) + 1) (ep_state e)))
  end.
Proof.
  intros (Hdec & -> & Hshut & Hdl).
  assert (Hlate : match env_deadline envelope with
    | Some deadline => deadline <? es_logical_time (ep_state e) | None => false end = false).
  { destruct (env_deadline envelope); [by ztest|done]. }
  destruct (es_cache (ep_state e) !! _) as [entry|] eqn:Hc; intros Hx;
    unfold admit_request; rewrite st_bind_run; cbn [st_get]; rewrite Hdec;
    cbn [rwr_incarnation rwr_envelope]; rewrite Z.eqb_refl; cbn [negb]; cbv zeta; rewrite Hlate, Hshut, Hc.
  - by rewrite bool_decide_true.
  - by rewrite (proj2 (Z.leb_gt _ _)).
Qed.

Lemma admitted_inv bytes e key envelope e1 :
  admit_request fmt bytes e = (Ok (inr (key, envelope)), e1) ->
  ready bytes key envelope e /\ es_cache (ep_state e) !! key = None /\
  e1 = with_state e (ep_server e) (set_es_in_flight (es_in_flight (ep_state e) + 1) (ep_state e)).
Proof.
  unfold admit_request. rewrite st_bind_run. cbn [st_get]. cbv zeta.
  assert (Hans : forall reason, ~ (reply ← st_lift (encode_error fmt (ep_incarnation e) reason); mret (inl reply))
    e = (Ok (inr (key, envelope)), e1)).
  { intros reason. rewrite st_bind_lift. by destruct (encode_error _ _ _). }
  destruct (wf_decode_request fmt bytes) as [[inc env]|err] eqn:Hdec;
    [|destruct (wf_answers_bad_request fmt); [by intros ?%Hans|done]].
  cbn [rwr_incarnation rwr_envelope].
  destruct (inc =? ep_incarnation e) eqn:Hinc; cbn [negb]; [|by intros ?%Hans]. bool_prop. subst inc.
  destruct (match env_deadline env with Some _ => _ | None => _ end) eqn:Hdl; [by intros ?%Hans|].
  destruct (es_shutdown (ep_state e)) eqn:Hshut; [by intros ?%Hans|].
  destruct (es_cache (ep_state e) !! _) as [entry|] eqn:Hc.
  { destruct (bool_decide _); [done|by intros ?%Hans]. }
  destruct (ep_mailbox_capacity e <=? _); [by intros ?%Hans|].
  intros [= <- <- <-]. split_and!; [|done|done]. split_and!; [done..|].
  destruct (env_deadline env); [bool_prop; lia|done].
Qed.

Lemma finish_run bytes key response e s rb :
  ep_state e = set_es_in_flight (es_in_flight s + 1) s -> 0 <= es_in_flight s ->
  encode_outcome e response = Ok rb ->
  finish_request fmt bytes key response e = (Ok rb, with_state e (ep_server e)
    (if ep_dedupe_capacity e =? 0 then s
     else remember (ep_dedupe_capacity e) key (mkRemoteCacheEntry bytes rb) s)).
Proof.
  intros Hs Hf Henc. unfold finish_request. rewrite st_bind_run. cbn [st_get].
  rewrite st_bind_run. unfold on_endpoint_state at 1. cbn [st_modify]. rewrite Hs.
  rewrite st_bind_lift.
  change (match response with Ok envelope => _ | Err error => _ end) with (encode_outcome e response).
  rewrite Henc. destruct s as [cache order fl sh tm]. cbn in Hf |- *.
  replace (saturating_sub (fl + 1) 1) with fl by (unfold saturating_sub; lia).
  by destruct (ep_dedupe_capacity e =? 0).
Qed.

(** A request that is admitted. *)
Lemma handle_wire_miss bytes key envelope e response server rb :
  ready bytes key envelope e -> es_cache (ep_state e) !! key = None ->
  0 <= es_in_flight (ep_state e) < ep_mailbox_capacity e ->
  handle envelope (ep_server e) = (response, server) -> encode_outcome e response = Ok rb ->
  handle_wire fmt handle bytes e = (Ok rb, with_state e server
    (if ep_dedupe_capacity e =? 0 then ep_state e
     else remember (ep_dedupe_capacity e) key (mkRemoteCacheEntry bytes rb) (ep_state e))).
Proof.
  intros Hr Hc Hf Hrun Henc. pose proof (admit_ready _ _ _ _ Hr) as Ha. rewrite Hc in Ha.
  unfold handle_wire. rewrite st_bind_run, Ha by lia. rewrite st_bind_run. unfold run_server. cbn [ep_server with_state].
  rewrite Hrun, (finish_run bytes key response _ (ep_state e) rb) by (done || lia). done.
Qed.

(** A request that is remembered. *)
Lemma handle_wire_hit bytes key envelope e rb :
  ready bytes key envelope e -> es_cache (ep_state e) !! key = Some (mkRemoteCacheEntry bytes rb) ->
  handle_wire fmt handle bytes e = (Ok rb, e).
Proof.
  intros Hr Hc. pose proof (admit_ready _ _ _ _ Hr) as Ha. rewrite Hc in Ha.
  unfold handle_wire. by rewrite st_bind_run, Ha.
Qed.

(** *** Any call *)

(** What a call does to the window: nothing, or one new key. *)
Definition window_step (capacity : Z) (s s' : RemoteEndpointState) : Prop :=
  es_shutdown s' = es_shutdown s /\ es_logical_time s' = es_logical_time s /\
  (same_window s s' \/
   exists key entry, capacity <> 0 /\ es_cache s !! key = None /\ same_window (remember capacity key entry s) s').

Definition endpoint_step (e e' : RemoteEndpoint S) : Prop :=
  ep_incarnation e' = ep_incarnation e /\ ep_dedupe_capacity e' = ep_dedupe_capacity e /\
  ep_mailbox_capacity e' = ep_mailbox_capacity e /\
  window_step (ep_dedupe_capacity e) (ep_state e) (ep_state e').

Lemma endpoint_step_refl e : endpoint_step e e.
Proof. unfold endpoint_step, window_step. split_and!; [done..|by left]. Qed.

Lemma remember_same_window capacity key entry s s' :
  same_window s s' -> same_window (remember capacity key entry s) (remember capacity key entry s').
Proof. intros [Ho Hc]. unfold remember. rewrite Ho, Hc. by destruct (evict _ _ _). Qed.

Lemma remember_flags capacity key entry s :
  es_shutdown (remember capacity key entry s) = es_shutdown s /\
  es_logical_time (remember capacity key entry s) = es_logical_time s.
Proof. unfold remember. by destruct (evict _ _ _). Qed.

Lemma admit_step bytes (e : RemoteEndpoint S) r e1 :
  admit_request fmt bytes e = (r, e1) -> match r with Ok (inr _) => True | _ => e1 = e end.
Proof.
  assert (Hans : forall x : Result (list Z),
    (reply ← st_lift x; mret (inl reply : list Z + RemoteRequestKey * Req)) e = (r, e1) ->
    match r with Ok (inr _) => True | _ => e1 = e end).
  { intros x. rewrite st_bind_lift. by destruct x; intros [= <- <-]. }
  unfold admit_request. rewrite st_bind_run. cbn [st_get]. cbv zeta.
  destruct (wf_decode_request fmt bytes) as [[inc env]|err];
    [|destruct (wf_answers_bad_request fmt); [apply Hans|by intros [= <- <-]]].
  cbn [rwr_incarnation rwr_envelope]. destruct (negb _); [apply Hans|].
  destruct (match env_deadline env with Some _ => _ | None => _ end); [apply Hans|].
  destruct (es_shutdown (ep_state e)); [apply Hans|].
  destruct (es_cache (ep_state e) !! _) as [entry|].
  - destruct (bool_decide _); [by intros [= <- <-]|apply Hans].
  - destruct (ep_mailbox_capacity e <=? _); [apply Hans|by intros [= <- _]].
Qed.

Lemma finish_step bytes key response e server s r e' :
  e = with_state e server (set_es_in_flight (es_in_flight s + 1) s) -> es_cache s !! key = None ->
  finish_request fmt bytes key response e = (r, e') ->
  endpoint_step (with_state e server s) e'.
Proof.
  intros He Hnone. unfold finish_request. rewrite st_bind_run. cbn [st_get]. rewrite st_bind_run.
  unfold on_endpoint_state at 1. cbn [st_modify]. rewrite st_bind_lift. rewrite He. cbn [ep_state with_state].
  destruct (match response with Ok envelope => _ | Err error => _ end) as [rb|err]; cbn;
    [destruct (ep_dedupe_capacity e =? 0) eqn:Hcap|]; cbn; intros [= <- <-];
    (split_and!; [done..|]); unfold window_step; cbn.
  - by split_and!; [..|left].
  - destruct (remember_flags (ep_dedupe_capacity e) key (mkRemoteCacheEntry bytes rb)
      (set_es_in_flight (saturating_sub (es_in_flight s + 1) 1)
        (set_es_in_flight (es_in_flight s + 1) s))) as [-> ->].
    split_and!; [done..|]. right. bool_prop. eexists key, _. split_and!; [done..|].
    by apply remember_same_window.
  - by split_and!; [..|left].
Qed.

Lemma handle_wire_step bytes e r e' : handle_wire fmt handle bytes e = (r, e') -> endpoint_step e e'.
Proof.
  unfold handle_wire. rewrite st_bind_run. destruct (admit_request fmt bytes e) as [a e1] eqn:Ha.
  pose proof (admit_step _ _ _ _ Ha) as Hs. destruct a as [[reply|[key envelope]]|err]; subst.
  - intros [= <- <-]. apply endpoint_step_refl.
  - apply admitted_inv in Ha as (_ & Hnone & ->). rewrite st_bind_run. unfold run_server.
    cbn [ep_server with_state]. destruct (handle _ _) as [response server].
    intros H. eapply (finish_step _ _ _ _ server (ep_state e)) in H; [exact H|done|done].
  - intros [= <- <-]. apply endpoint_step_refl.
Qed.

(** A call that was admitted and answered is remembered. *)
Lemma handle_wire_executed bytes key envelope e1 e reply e' :
  admit_request fmt bytes e = (Ok (inr (key, envelope)), e1) ->
  handle_wire fmt handle bytes e = (Ok reply, e') -> ep_dedupe_capacity e <> 0 ->
  exists s, same_window (ep_state e) s /\
    ep_state e' = remember (ep_dedupe_capacity e) key (mkRemoteCacheEntry bytes reply) s.
Proof.
  intros Ha. unfold handle_wire. rewrite st_bind_run, Ha. apply admitted_inv in Ha as (_ & _ & ->).
  rewrite st_bind_run. unfold run_server. destruct (handle _ _) as [response server].
  unfold finish_request. rewrite st_bind_run. cbn [st_get]. rewrite st_bind_run.
  unfold on_endpoint_state at 1. cbn [st_modify]. rewrite st_bind_lift. cbn.
  destruct (match response with Ok envelope => _ | Err error => _ end) as [rb|err]; cbn; [|done].
  destruct (ep_dedupe_capacity e =? 0) eqn:Hcap; bool_prop; [done|]. cbn. intros [= <- <-] _.
  eexists; split; [|done]. done.
Qed.

(** *** Sequences of events *)

Inductive endpoint_event :=
  | EvCall (bytes : list Z)
  | EvShutdown (shutdown : bool)
  | EvTime (logical_time : LogicalTime).

Definition run_event (e : RemoteEndpoint S) (ev : endpoint_event) : RemoteEndpoint S :=
  match ev with
  | EvCall bytes => (handle_wire fmt handle bytes e).2
  | EvShutdown shutdown => (set_shutdown shutdown e).2
  | EvTime logical_time => (set_logical_time logical_time e).2
  end.

Lemma run_event_static e ev :
  ep_incarnation (run_event e ev) = ep_incarnation e /\
  ep_dedupe_capacity (run_event e ev) = ep_dedupe_capacity e.
Proof.
  destruct ev; try done. cbn. destruct (handle_wire _ _ _ _) as [r e'] eqn:H.
  by destruct (handle_wire_step _ _ _ _ H) as (? & ? & _).
Qed.

Lemma run_events_static e evs :
  ep_incarnation (fold_left run_event evs e) = ep_incarnation e /\
  ep_dedupe_capacity (fold_left run_event evs e) = ep_dedupe_capacity e.
Proof.
  revert e. induction evs as [|ev evs IH]; intros e; [done|]. cbn.
  destruct (IH (run_event e ev)) as [-> ->]. apply run_event_static.
Qed.

Lemma run_event_window e ev :
  0 <= ep_dedupe_capacity e -> window_ok (ep_state e) -> window_ok (ep_state (run_event e ev)).
Proof.
  intros Hc Hw. destruct ev; try exact Hw. cbn. destruct (handle_wire _ _ _ _) as [r e'] eqn:H.
  destruct (handle_wire_step _ _ _ _ H) as (_ & _ & _ & _ & _ & [Hs|(k & en & _ & Hn & Hs)]).
  - by eapply same_window_ok.
  - eapply same_window_ok; [exact Hs|]. by apply remember_window.
Qed.

Lemma run_event_remembered n e ev key entry :
  Z.of_nat (Datatypes.S n) < ep_dedupe_capacity e -> remembered n key entry (ep_state e) ->
  remembered (Datatypes.S n) key entry (ep_state (run_event e ev)).
Proof.
  intros Hc Hr. assert (Hr' := remembered_weaken n (Datatypes.S n) _ _ _ (Nat.le_succ_diag_r n) Hr).
  destruct ev; try exact Hr'. cbn. destruct (handle_wire _ _ _ _) as [r e'] eqn:H.
  destruct (handle_wire_step _ _ _ _ H) as (_ & _ & _ & _ & _ & [Hs|(k & en & _ & Hn & Hs)]).
  - by eapply same_window_remembered.
  - eapply same_window_remembered; [exact Hs|]. by apply remember_other.
Qed.

Lemma run_events_window e evs :
  0 <= ep_dedupe_capacity e -> window_ok (ep_state e) -> window_ok (ep_state (fold_left run_event evs e)).
Proof.
  revert e. induction evs as [|ev evs IH]; intros e Hc Hw; [done|]. cbn. apply IH.
  - by destruct (run_event_static e ev) as [_ ->].
  - by apply run_event_window.
Qed.

Lemma run_events_remembered n e evs key entry :
  Z.of_nat (n + length evs) < ep_dedupe_capacity e -> remembered n key entry (ep_state e) ->
  remembered (n + length evs) key entry (ep_state (fold_left run_event evs e)).
Proof.
  revert n e. induction evs as [|ev evs IH]; intros n e Hc Hr; cbn [length fold_left] in *;
    [by rewrite Nat.add_0_r|].
  rewrite <-Nat.add_succ_comm in *.
  apply IH; [by destruct (run_event_static e ev) as [_ ->]|]. apply run_event_remembered; [lia|done].
Qed.

(** An endpoint answers a retry with the bytes of its first answer and does
    not run the server again: when a request has been executed and answered, and
    then fewer other events (calls of any kind, shutdowns, clock changes) happen
    than the endpoint remembers answers, the same bytes get the same answer and
    the endpoint, its server included, stays as it is, provided the endpoint is
    not shut down and the request has not expired by then. *)
Lemma endpoint_retry (server : S) incarnation capacity mailbox before after bytes key envelope reply :
  let e0 := fold_left run_event before (RemoteEndpoint_new server incarnation capacity mailbox) in
  let e1 := (handle_wire fmt handle bytes e0).2 in
  let e2 := fold_left run_event after e1 in
  (admit_request fmt bytes e0).1 = Ok (inr (key, envelope)) ->
  (handle_wire fmt handle bytes e0).1 = Ok reply ->
  Z.of_nat (length after) < capacity ->
  es_shutdown (ep_state e2) = false ->
  match env_deadline envelope with Some deadline => es_logical_time (ep_state e2) <= deadline | None => True end ->
  handle_wire fmt handle bytes e2 = (Ok reply, e2).
Proof.
  intros e0 e1 e2 Hadm Hreply Hlen Hshut Hdl.
  assert (Hcap : ep_dedupe_capacity e0 = capacity /\ ep_incarnation e0 = incarnation).
  { unfold e0. by destruct (run_events_static (RemoteEndpoint_new server incarnation capacity mailbox) before) as [-> ->]. }
  destruct Hcap as [Hcap Hinc].
  assert (Hw : window_ok (ep_state e0)).
  { apply run_events_window; cbn; [lia|]. split; [apply NoDup_nil_2|]. intros k. cbn. rewrite lookup_empty.
    split; [by intros [? ?]|by intros ?%not_elem_of_nil]. }
  apply pair_of_fst in Hreply. fold e1 in Hreply. apply pair_of_fst in Hadm.
  destruct (handle_wire_executed _ _ _ _ _ _ _ Hadm Hreply) as (s & Hsame & Hs); [lia|].
  apply admitted_inv in Hadm as (Hready & Hnone & _).
  assert (Hkept : remembered 0 key (mkRemoteCacheEntry bytes reply) (ep_state e1)).
  { rewrite Hs. apply remember_new; [lia|by eapply same_window_ok|]. by destruct Hsame as [_ ->]. }
  destruct (handle_wire_step _ _ _ _ Hreply) as (Hinc1 & Hcap1 & _).
  destruct (run_events_remembered 0 e1 after key (mkRemoteCacheEntry bytes reply)) as (_ & Hlook & _);
    [rewrite Hcap1, Hcap; lia|done|].
  fold e2 in Hlook. apply (handle_wire_hit bytes key envelope); [|done].
  destruct Hready as (Hdec & -> & _). unfold ready.
  assert (ep_incarnation e2 = ep_incarnation e0) as ->; [|done].
  unfold e2. by destruct (run_events_static e1 after) as [-> _].
Qed.
End endpoint.

(** A server that counts its calls, and a request for it. *)
Definition demo_handle (request : BlockRequestEnvelope) : ST Z BlockResponseEnvelope :=
  fun n => (Ok (mkBlockResponseEnvelope (bre_request_id request) (RsCreated n)), n + 1).
Definition demo_request : BlockRequestEnvelope := mkBlockRequestEnvelope 3 1 (Some 9) (RqInfo 5).
Definition demo_frame (request : BlockRequestEnvelope) : list Z :=
  match encode_request network_block 7 request with Ok bytes => bytes | Err _ => [] end.
Definition demo_other : endpoint_event := EvCall (demo_frame (mkBlockRequestEnvelope 4 1 None (RqInfo 5))).
Definition demo_answer : list Z :=
  match wf_encode_reply network_block (RwOk 7 (mkBlockResponseEnvelope 3 (RsCreated 1))) with
  | Ok bytes => bytes | Err _ => [] end.
Definition demo_endpoint (events : list endpoint_event) : RemoteEndpoint Z :=
  fold_left (run_event network_block demo_handle) events (RemoteEndpoint_new 0 7 2 4).

Lemma endpoint_retry_witness :
  let e := demo_endpoint [EvCall (demo_frame (mkBlockRequestEnvelope 4 1 None (RqInfo 5)));
    EvCall (demo_frame demo_request); EvTime 8] in
  handle_wire network_block demo_handle (demo_frame demo_request) e = (Ok demo_answer, e) /\ ep_server e = 2.
Proof.
  intros e. split; [|by vm_compute].
  apply (endpoint_retry network_block demo_handle 0 7 2 4 [demo_other] [EvTime 8] (demo_frame demo_request)
    (7, 1, 3) demo_request demo_answer); vm_compute; done.
Defined.

(** ** Faulty wires *)

(** A wire whose answer to one request is fixed: the first call moves it from
    [w0] to [w1], later calls leave it there. *)
Section faulty.
Context {W : Type} `{!RemoteWireTransport W} (request_bytes answer_bytes : list Z) (w0 w1 : W).
Hypothesis first_call : call_wire request_bytes w0 = (Ok answer_bytes, w1).
Hypothesis later_call : call_wire request_bytes w1 = (Ok answer_bytes, w1).

Definition steady (self : ChaosRemoteWireTransport W) : Prop :=
  (cw_inner self = w0 /\ cws_delayed (cw_state self) = []) \/
  (cw_inner self = w1 /\ Forall (eq (Ok answer_bytes)) (cws_delayed (cw_state self))).

Lemma take_action_delayed s action s' :
  take_action s = (action, s') -> cws_delayed s' = cws_delayed s.
Proof.
  unfold take_action, wire_fault.
  repeat (match goal with |- context [if ?b then _ else _] => destruct b end; [by intros [= _ <-]|]).
  by intros [= _ <-].
Qed.

Lemma inner_steady self :
  steady self -> inner_call request_bytes self =
    (Ok (Ok answer_bytes), mkChaosRemoteWireTransport w1 (cw_state self)).
Proof. unfold inner_call. intros [[-> _]|[-> _]]; [by rewrite first_call|by rewrite later_call]. Qed.

Lemma steady_done self : steady self -> steady (mkChaosRemoteWireTransport w1 (cw_state self)).
Proof. intros [[_ H]|[_ H]]; right; cbn; [by rewrite H|done]. Qed.

Lemma pop_steady self r self' :
  steady self -> pop_delayed self = (r, self') ->
  steady self' /\ (forall response, r = Ok response -> response = Ok answer_bytes /\ cw_inner self' = w1).
Proof.
  intros Hs. unfold pop_delayed. rewrite st_bind_run. cbn [st_get].
  destruct (cws_delayed (cw_state self)) as [|response delayed] eqn:Hd.
  - intros [= <- <-]. by split.
  - destruct Hs as [[_ Hs]|[Hin Hs]]; [by rewrite Hd in Hs|]. rewrite Hd in Hs.
    inversion_clear Hs as [|? ? Heq Hall]. cbn. intros [= <- <-].
    split; [by right|]. by intros ? [= <-].
Qed.

Lemma push_steady self : steady self -> cw_inner self = w1 ->
  steady (push_delayed (Ok answer_bytes) self).2.
Proof.
  intros Hs Hin. right. cbn. split; [done|]. apply Forall_app; split; [|by repeat constructor].
  destruct Hs as [[_ ->]|[_ ?]]; [constructor|done].
Qed.

Lemma chaos_steady self r self' :
  steady self -> chaos_call_wire request_bytes self = (r, self') ->
  steady self' /\
  (forall bytes, r = Ok bytes -> (bytes = answer_bytes \/ bytes = corrupt answer_bytes) /\ cw_inner self' = w1).
Proof.
  intros Hs. unfold chaos_call_wire. rewrite st_bind_run. unfold next_action.
  destruct (take_action (cw_state self)) as [action s] eqn:Ha. apply take_action_delayed in Ha.
  assert (Hs' : steady (mkChaosRemoteWireTransport (cw_inner self) s)) by (unfold steady in *; cbn; by rewrite Ha).
  clear Hs Ha. set (self1 := mkChaosRemoteWireTransport (cw_inner self) s) in *.
  pose proof (inner_steady self1 Hs') as Hin. pose proof (steady_done self1 Hs') as Hd.
  assert (Hin2 := inner_steady _ Hd).
  destruct action; rewrite ?st_bind_run, ?Hin; cbn [cw_inner cw_state].
  - intros [= <- <-]. split; [done|]. intros ? [= <-]. auto.
  - by intros [= <- <-].
  - by intros [= <- <-].
  - by intros [= <- <-].
  - rewrite st_bind_lift. intros [= <- <-]. split; [done|]. intros ? [= <-]. auto.
  - rewrite st_bind_run, Hin2. intros [= <- <-]. split; [done|]. intros ? [= <-]. auto.
  - intros [= <- <-]. split; [|done]. exact (push_steady (mkChaosRemoteWireTransport w1 s) Hd eq_refl).
  - destruct (pop_delayed self1) as [r1 self2] eqn:Hpop. destruct (pop_steady _ _ _ Hs' Hpop) as [Hp Hr].
    destruct r1 as [response|err]; [|by intros [= <- <-]]. destruct (Hr _ eq_refl) as [-> Hw].
    intros [= <- <-]. split; [done|]. intros ? [= <-]. auto.
  - destruct (pop_delayed self1) as [r1 self2] eqn:Hpop. destruct (pop_steady _ _ _ Hs' Hpop) as [Hp Hr].
    destruct r1 as [response|err]; [|by intros [= <- <-]]. destruct (Hr _ eq_refl) as [-> Hw].
    rewrite st_bind_run, (inner_steady _ Hp). intros [= <- <-].
    split; [exact (push_steady (mkChaosRemoteWireTransport w1 (cw_state self2)) (steady_done _ Hp) eq_refl)|].
    intros ? [= <-]. auto.
Qed.

Lemma chaos_pass self :
  steady self -> (take_action (cw_state self)).1 = CwPass ->
  (chaos_call_wire request_bytes self).1 = Ok answer_bytes.
Proof.
  intros Hs Hpass. unfold chaos_call_wire. rewrite st_bind_run. unfold next_action.
  destruct (take_action (cw_state self)) as [action s] eqn:Ha. cbn in Hpass. subst action.
  apply take_action_delayed in Ha.
  rewrite st_bind_run, inner_steady; [done|]. unfold steady in *. cbn. by rewrite Ha.
Qed.

Lemma inject_steady fault self : steady self -> steady (inject_fault fault self).2.
Proof. by destruct fault. Qed.
End faulty.

Lemma corrupt_rejected {A} (T : DurableCodec A) kind e a :
  decode_network_frame T kind (corrupt (frame_header kind ++ e)) <> Ok a.
Proof.
  unfold decode_network_frame, read_frame. rewrite st_bind_run. unfold Decoder_take at 1. rewrite st_bind_run.
  cbn [st_get dd_bytes dd_offset]. rewrite st_bind_lift. cbn [ok_or checked_add].
  change (checked_add _ _ _) with (Some 8). cbn [ok_or]. rewrite st_bind_run.
  unfold st_reject_if at 1, st_lift, reject_if. by destruct (_ <? 8).
Qed.

Lemma frame_decodes {A} (T : DurableCodec A) ok kind a :
  RoundTrip T ok -> is_byte kind -> ok a ->
  exists e, encode_network_frame T kind a = Ok (frame_header kind ++ e) /\
    (Z.of_nat (length (frame_header kind ++ e)) < U64_MOD ->
     decode_network_frame T kind (frame_header kind ++ e) = Ok a).
Proof.
  intros HT Hk Hok. destruct (round_trip a Hok) as (e & Hemit & Hread).
  exists e. split; [by apply encode_frame|]. by apply decode_frame.
Qed.

Section block.
Context {S : Type} `{!BlockServer S}.
#[local] Instance endpoint_wire : RemoteWireTransport (RemoteEndpoint S) := NetworkBlockEndpoint_handle_wire.

Context (incarnation capacity mailbox : Z) (request : BlockRequestEnvelope) (server : S).

(** What the client should see of the server's outcome. *)
Definition client_view (response : Result BlockResponseEnvelope) : Result BlockResponseEnvelope :=
  match response with
  | Ok envelope => Ok envelope
  | Err error => Err (Unavailable (StorageError_to_string error))
  end.

Definition outcome_reply (response : Result BlockResponseEnvelope) : RemoteWireReply BlockResponseEnvelope :=
  match response with
  | Ok envelope => RwOk incarnation envelope
  | Err error => RwErr incarnation (StorageError_to_string error)
  end.

(** The request and the server's answer to it can be sent: within the limits of
    the codec, shorter than 2^64 bytes, and the answer carries the identifier
    of the request. *)
Definition sendable (response : Result BlockResponseEnvelope) : Prop :=
  BlockRequestEnvelope_ok request /\ in_u64 incarnation /\
  RemoteWireReply_ok BlockResponseEnvelope_ok (outcome_reply response) /\
  match response with Ok envelope => bse_request_id envelope = bre_request_id request | Err _ => True end /\
  (forall bytes, encode_request network_block incarnation request = Ok bytes ->
    Z.of_nat (length bytes) < U64_MOD) /\
  (forall bytes, wf_encode_reply network_block (outcome_reply response) = Ok bytes ->
    Z.of_nat (length bytes) < U64_MOD).

(** Some faults are injected, then the client tries its request. *)
Definition attempt (faults : list ChaosWireScript)
    : ST (ChaosRemoteWireTransport (RemoteEndpoint S)) BlockResponseEnvelope :=
  st_for inject_fault faults;;
  NetworkBlockTransport_call incarnation request.

Fixpoint attempts (script : list (list ChaosWireScript)) (w : ChaosRemoteWireTransport (RemoteEndpoint S))
    : list (Result BlockResponseEnvelope) * ChaosRemoteWireTransport (RemoteEndpoint S) :=
  match script with
  | [] => ([], w)
  | faults :: script =>
      let '(r, w) := attempt faults w in
      let '(rs, w) := attempts script w in (r :: rs, w)
  end.

Definition new_wire : ChaosRemoteWireTransport (RemoteEndpoint S) :=
  mkChaosRemoteWireTransport (RemoteEndpoint_new server incarnation capacity mailbox) ChaosWireState_new.

Section run.
Context (response : Result BlockResponseEnvelope) (server1 : S).
Hypothesis run_eq : block_handle request server = (response, server1).
Hypothesis Hsend : sendable response.
Hypothesis Hcap : 0 < capacity.
Hypothesis Hbox : 0 < mailbox.

(** The endpoint before and after its only execution. *)
Lemma endpoint_once :
  exists bytes rb e1,
    encode_request network_block incarnation request = Ok bytes /\
    call_wire bytes (RemoteEndpoint_new server incarnation capacity mailbox) = (Ok rb, e1) /\
    call_wire bytes e1 = (Ok rb, e1) /\ ep_server e1 = server1 /\
    decode_response network_block incarnation (bre_request_id request) rb = client_view response /\
    is_ok (decode_response network_block incarnation (bre_request_id request) (corrupt rb)) = false.
Proof.
  destruct Hsend as (Hreq & Hinc & Hrep & Hid & Hlen1 & Hlen2).
  destruct (frame_decodes (RemoteWireRequest_codec BlockRequestEnvelope_codec) _ NETWORK_BLOCK_REQUEST
    (mkRemoteWireRequest incarnation request) _ ltac:(by vm_compute) (conj Hinc Hreq)) as (e & Henc & Hdec).
  destruct (frame_decodes (RemoteWireReply_codec BlockResponseEnvelope_codec) _ NETWORK_BLOCK_RESPONSE
    (outcome_reply response) _ ltac:(by vm_compute) Hrep) as (f & Henc2 & Hdec2).
  specialize (Hdec (Hlen1 _ Henc)). specialize (Hdec2 (Hlen2 _ Henc2)).
  set (e0 := RemoteEndpoint_new server incarnation capacity mailbox).
  set (bytes := frame_header NETWORK_BLOCK_REQUEST ++ e) in *. set (rb := frame_header NETWORK_BLOCK_RESPONSE ++ f) in *.
  set (key := (incarnation, bre_client_epoch request, bre_request_id request)).
  assert (Hready : forall e' : RemoteEndpoint S, ep_incarnation e' = incarnation ->
    es_shutdown (ep_state e') = false -> es_logical_time (ep_state e') = 0 ->
    ready network_block bytes key request e').
  { intros e' <- Hsh Htm. split_and!; [exact Hdec|done|done|]. cbn. rewrite Htm.
    destruct Hreq as (_ & _ & Hdl & _). by destruct (bre_deadline request); [destruct Hdl|]. }
  assert (Hout : encode_outcome network_block e0 response = Ok rb) by (destruct response; exact Henc2).
  pose proof (handle_wire_miss network_block block_handle bytes key request e0 response server1 rb
    (Hready e0 eq_refl eq_refl eq_refl) (lookup_empty _) ltac:(cbn; lia) run_eq Hout) as Hrun.
  cbn [ep_dedupe_capacity e0 RemoteEndpoint_new] in Hrun. rewrite (proj2 (Z.eqb_neq _ _)) in Hrun by lia.
  assert (Hw : window_ok RemoteEndpointState_new).
  { split; [apply NoDup_nil_2|]. intros k. cbn. rewrite lookup_empty.
    split; [by intros [? ?]|by intros ?%not_elem_of_nil]. }
  destruct (remember_new capacity key (mkRemoteCacheEntry bytes rb) _ Hcap Hw (lookup_empty _)) as (_ & Hlook & _).
  destruct (remember_flags capacity key (mkRemoteCacheEntry bytes rb) RemoteEndpointState_new) as [Hsh Htm].
  eexists bytes, rb, _. split_and!; [exact Henc|exact Hrun| |done| |].
  - apply (handle_wire_hit network_block block_handle bytes key request); [|exact Hlook]. by apply Hready.
  - unfold decode_response. change (wf_decode_reply network_block rb) with
      (decode_network_frame (RemoteWireReply_codec BlockResponseEnvelope_codec) NETWORK_BLOCK_RESPONSE rb).
    rewrite Hdec2. cbn. destruct response as [envelope|err]; cbn; [|by rewrite Z.eqb_refl].
    unfold env_response_id, block_response_envelope. by rewrite Hid, !Z.eqb_refl.
  - unfold decode_response. change (wf_decode_reply network_block (corrupt rb)) with
      (decode_network_frame (RemoteWireReply_codec BlockResponseEnvelope_codec) NETWORK_BLOCK_RESPONSE (corrupt rb)).
    destruct (decode_network_frame _ _ (corrupt rb)) as [a|] eqn:Hbad; [|done].
    by destruct (corrupt_rejected _ _ _ _ Hbad).
Qed.

Lemma inject_all rb (e0 e1 : RemoteEndpoint S) faults w :
  steady rb e0 e1 w ->
  exists w', st_for inject_fault faults w = (Ok tt, w') /\ steady rb e0 e1 w'.
Proof using Type.
  revert w. induction faults as [|fault faults IH]; intros w Hs; cbn [st_for]; [by eexists|].
  rewrite st_bind_run. apply (inject_steady rb e0 e1 fault) in Hs. destruct (IH _ Hs) as (w' & Hrun & Hs').
  by exists w'.
Qed.

Lemma attempt_steady bytes rb (e0 e1 : RemoteEndpoint S) faults w r w' :
  encode_request network_block incarnation request = Ok bytes ->
  call_wire bytes e0 = (Ok rb, e1) -> call_wire bytes e1 = (Ok rb, e1) ->
  decode_response network_block incarnation (bre_request_id request) rb = client_view response ->
  is_ok (decode_response network_block incarnation (bre_request_id request) (corrupt rb)) = false ->
  steady rb e0 e1 w -> attempt faults w = (r, w') ->
  steady rb e0 e1 w' /\
  (forall envelope, r = Ok envelope -> response = Ok envelope /\ cw_inner w' = e1).
Proof using Type.
  clear run_eq Hsend. intros Henc Hc0 Hc1 Hdec Hbad Hs. destruct (inject_all rb e0 e1 faults w Hs) as (w1 & Hinj & Hs1).
  unfold attempt, NetworkBlockTransport_call, transport_call. rewrite st_bind_run, Hinj, st_bind_lift, Henc, st_bind_run.
  destruct (call_wire bytes w1) as [r1 w2] eqn:Hcall.
  destruct (chaos_steady bytes rb e0 e1 Hc0 Hc1 w1 r1 w2 Hs1 Hcall) as [Hs2 Hr].
  destruct r1 as [b|err]; [|by intros [= <- <-]].
  intros [= <- <-]. split; [done|]. intros envelope Hok. destruct (Hr b eq_refl) as [[->| ->] Hw].
  - change (env_request_id request) with (bre_request_id request) in Hok. rewrite Hdec in Hok. by destruct response; [injection Hok as ->|].
  - change (env_request_id request) with (bre_request_id request) in Hok. by rewrite Hok in Hbad.
Qed.
End run.

End block.

Definition demo_script : list (list ChaosWireScript) :=
  [[InjDropRequest]; [InjDropResponse]; [InjDelayResponse]; [InjCorruptResponse]; [InjReorder]; [InjDuplicateRequest]].

Lemma demo_sendable : sendable 7 demo_request (Ok (mkBlockResponseEnvelope 3 (RsCreated 0))).
Proof.
  assert (Hlen : forall (x : Result (list Z)) b, x = Ok b ->
    match x with Ok b => Z.of_nat (length b) <? U64_MOD | Err _ => true end = true ->
    Z.of_nat (length b) < U64_MOD) by (intros x b -> H; by apply Z.ltb_lt in H).
  unfold sendable. split_and!.
  - vm_compute. repeat split; discriminate.
  - done.
  - vm_compute. repeat split; discriminate.
  - done.
  - intros b Hb. apply (Hlen _ b Hb). by vm_compute.
  - intros b Hb. apply (Hlen _ b Hb). by vm_compute.
Qed.


(** ** TCP *)

Lemma read_exact_app e rest out :
  read_exact (Z.of_nat (length e)) (mkTcpStream (e ++ rest) out) = (Ok e, mkTcpStream rest out).
Proof.
  unfold read_exact. rewrite st_bind_run. cbn [st_get tcp_input tcp_output]. rewrite st_bind_run.
  unfold st_reject_if, st_lift, reject_if. rewrite (proj2 (Z.ltb_ge _ _)) by (rewrite length_app; lia).
  cbn. by rewrite Nat2Z.id, drop_app_length, take_app_length.
Qed.

(** The frame of a byte string, when it has one. *)
Definition tcp_fits (max_frame_bytes : Z) (bytes : list Z) : bool :=
  (Z.of_nat (length bytes) <=? max_frame_bytes) && (Z.of_nat (length bytes) <? U32_MOD).
Definition tcp_frame (bytes : list Z) : list Z := be_bytes 4 (Z.of_nat (length bytes)) ++ bytes.

Lemma write_tcp_fits max bytes s :
  tcp_fits max bytes = true ->
  write_tcp_frame bytes max s = (Ok tt, mkTcpStream (tcp_input s) (tcp_output s ++ tcp_frame bytes)).
Proof.
  unfold tcp_fits, write_tcp_frame. intros H. bool_prop. rewrite !st_bind_run.
  unfold st_reject_if, st_lift, reject_if. rewrite (proj2 (Z.ltb_ge _ _)), st_bind_run by lia.
  rewrite (proj2 (Z.leb_gt _ _)) by lia. rewrite !st_bind_run. unfold write_all, st_modify. cbn [tcp_input tcp_output]. unfold tcp_frame. by rewrite <-app_assoc.
Qed.

Lemma write_tcp_refused max bytes s :
  tcp_fits max bytes = false ->
  write_tcp_frame bytes max s =
    (Err (InvalidArgument (if max <? Z.of_nat (length bytes) then "network frame exceeds limit"
      else "network frame length exceeds u32")), s).
Proof.
  unfold tcp_fits, write_tcp_frame. intros H. rewrite !st_bind_run. unfold st_reject_if, st_lift, reject_if.
  rewrite Z.leb_antisym in H. destruct (max <? _); [done|]. cbn in H. bool_prop. rewrite st_bind_run.
  by rewrite (proj2 (Z.leb_le _ _)) by lia.
Qed.

Lemma read_tcp_fits max bytes rest out :
  tcp_fits max bytes = true ->
  read_tcp_frame max (mkTcpStream (tcp_frame bytes ++ rest) out) = (Ok bytes, mkTcpStream rest out).
Proof.
  unfold tcp_fits, read_tcp_frame, tcp_frame. intros H. bool_prop. rewrite <-app_assoc, st_bind_run.
  change 4 with (Z.of_nat 4) at 1. rewrite <-(be_bytes_length 4 (Z.of_nat (length bytes))) at 1.
  rewrite read_exact_app. rewrite be_value_be_bytes, Z.mod_small by (change (256 ^ Z.of_nat 4) with U32_MOD; lia).
  rewrite st_bind_run. unfold st_reject_if, st_lift, reject_if. rewrite (proj2 (Z.ltb_ge _ _)) by lia.
  apply read_exact_app.
Qed.

