(* ===== verification/DataLog.v ===== *)
(** * Data-log records and pending appends ([local/durable/data_log.rs],
    [local/durable/reopen.rs])

    The durable store keeps segment payloads in append-only data-log files, one
    record per payload.  This file holds the format of a record, the rows that
    say where a record is, and [PendingDataLogAppend], the records that were
    written to the files and are not yet published in the catalogs.  The
    properties: decoding gives back exactly what was encoded, and accepts
    nothing whose payload fails its checksum. *)

From S2P Require Import Prelude Api Object Provider Config Codec.

(** [DurableDataLogRef]: a log of a storage node. *)
Record DurableDataLogRef := mkLogRef {
  lr_storage_node : StorageNodeId;
  lr_log_id : Z;
}.

#[export] Instance DurableDataLogRef_eq_dec : EqDecision DurableDataLogRef.
Proof. solve_decision. Defined.

#[export] Instance DurableDataLogRef_countable : Countable DurableDataLogRef.
Proof.
  refine (inj_countable' (fun r => (lr_storage_node r, lr_log_id r)) (fun p => mkLogRef p.1 p.2) _).
  by intros [].
Defined.

(** The derived order of the fields. *)
Definition log_ref_key (r : DurableDataLogRef) : list Z := [lr_storage_node r; lr_log_id r].
Definition log_ref_ltb (r s : DurableDataLogRef) : bool :=
  (lr_storage_node r <? lr_storage_node s) ||
  ((lr_storage_node r =? lr_storage_node s) && (lr_log_id r <? lr_log_id s)).

(** A [BTreeMap] keyed by log references, in key order. *)
Definition log_iter {V} (m : gmap DurableDataLogRef V) : list (DurableDataLogRef * V) :=
  sort_by_tuple (fun kv => log_ref_key kv.1) (map_to_list m).

Record SegmentPlacementRow := mkPlacementRow {
  sp_segment_id : SegmentId;
  sp_storage_node : StorageNodeId;
  sp_data_log_id : Z;
  sp_record_offset : Z;
  sp_record_bytes : Z;
  sp_payload_offset : Z;
  sp_payload_bytes : Z;
  sp_integrity : SegmentPayloadIntegrity;
}.

Record DataLogRow := mkDataLogRow {
  dr_storage_node : StorageNodeId;
  dr_log_id : Z;
  dr_total_bytes : Z;
  dr_live_bytes : Z;
  dr_dead_bytes : Z;
}.

Definition set_dr_total_bytes (b : Z) (r : DataLogRow) : DataLogRow :=
  mkDataLogRow (dr_storage_node r) (dr_log_id r) b (dr_live_bytes r) (dr_dead_bytes r).

(** ** The record format *)

Section records.
Context `{Crc32cCrate}.

Definition DATA_LOG_MAGIC : list Z := ascii_bytes "TCOWDAT!".
Definition DATA_LOG_VERSION : Z := 3.
Definition DATA_LOG_HEADER_LEN : Z := 8 + 2 + 1 + 16 + 8 + 1 + 8.
Definition DATA_LOG_CHECKSUM_OFFSET : Z := 8 + 2 + 1 + 16 + 8 + 1.
Definition DATA_LOG_KIND_SEGMENT : Z := 1.
Definition DATA_LOG_KIND_APPEND_RUN : Z := 2.

Definition encode_typed_data_log_header (kind identity : Z) (integrity : SegmentPayloadIntegrity)
    (payload_len : Z) : Result (list Z) :=
  reject_if (negb ((kind =? DATA_LOG_KIND_SEGMENT) || (kind =? DATA_LOG_KIND_APPEND_RUN)))
    (InvalidArgument "unknown data-log record kind");;
  let out := DATA_LOG_MAGIC ++ be_bytes 2 DATA_LOG_VERSION ++ [kind] ++ be_bytes 16 identity ++
    be_bytes 8 payload_len in
  Ok (out ++ match integrity with
             | Crc32c checksum => [1] ++ be_bytes 8 checksum
             | SpUnchecked => [2] ++ be_bytes 8 0
             end).

Definition encode_typed_data_log_record (kind identity : Z) (integrity : SegmentPayloadIntegrity)
    (bytes : list Z) : Result (list Z) :=
  payload_len ← len_u64 bytes (InvalidArgument "data-log payload length overflows u64");
  out ← encode_typed_data_log_header kind identity integrity payload_len;
  Ok (out ++ bytes).

Definition encode_data_log_record (segment_id : SegmentId) (integrity : SegmentPayloadIntegrity)
    (bytes : list Z) : Result (list Z) :=
  encode_typed_data_log_record DATA_LOG_KIND_SEGMENT segment_id integrity bytes.

Record DataLogSegmentData := mkSegmentData {
  ld_segment_id : SegmentId;
  ld_integrity : SegmentPayloadIntegrity;
  ld_bytes : list Z;
}.

(** Outside the tests the second constructor has no contents. *)
Inductive DataLogRecordData :=
| LogSegment (data : DataLogSegmentData)
| LogAppendRun.

(** [record[at]] for an index below the length. *)
Definition byte_at (record : list Z) (at_ : Z) : Z := nth (Z.to_nat at_) record 0.

Definition decode_data_log_record (record : list Z) : Result DataLogRecordData :=
  reject_if (Z.of_nat (length record) <? DATA_LOG_HEADER_LEN)
    (Corrupt "data-log record is truncated");;
  reject_if (negb (bool_decide (slice record 0 8 = DATA_LOG_MAGIC))) (Corrupt "bad data-log magic");;
  let version_offset := 8 in
  let version := be_value (slice record version_offset 2) in
  reject_if (negb (version =? DATA_LOG_VERSION)) (Corrupt "unsupported data-log version");;
  let kind_offset := version_offset + 2 in
  let kind := byte_at record kind_offset in
  let identity_start := kind_offset + 1 in
  let identity := be_value (slice record identity_start 16) in
  let payload_len_start := identity_start + 16 in
  let payload_len := be_value (slice record payload_len_start 8) in
  let integrity_start := payload_len_start + 8 in
  let integrity_tag := byte_at record integrity_start in
  let expected_checksum := be_value (slice record DATA_LOG_CHECKSUM_OFFSET 8) in
  expected_record_len ← ok_or (checked_add U64_MOD DATA_LOG_HEADER_LEN payload_len)
    (Corrupt "data-log record length overflow");
  reject_if (negb (Z.of_nat (length record) =? expected_record_len))
    (Corrupt "data-log record length mismatch");;
  let bytes := drop (Z.to_nat DATA_LOG_HEADER_LEN) record in
  integrity ←
    (if integrity_tag =? 1 then Ok (Crc32c expected_checksum)
     else if integrity_tag =? 2 then
       if expected_checksum =? 0 then Ok SpUnchecked
       else Err (Corrupt "unchecked data-log record has nonzero checksum")
     else Err (Corrupt "invalid data-log integrity tag"));
  verify_segment_payload_integrity integrity bytes;;
  if kind =? DATA_LOG_KIND_SEGMENT then Ok (LogSegment (mkSegmentData identity integrity bytes))
  else if kind =? DATA_LOG_KIND_APPEND_RUN then Ok LogAppendRun
  else Err (Corrupt "invalid data-log record kind").

Definition decode_segment_data_log_record (record : list Z) : Result DataLogSegmentData :=
  data ← decode_data_log_record record;
  match data with
  | LogSegment data => Ok data
  | LogAppendRun =>
      Err (Corrupt "expected segment data-log record, found append-run record")
  end.
End records.

(** ** Pending appends *)

Record PendingDataLogManifest := mkManifest {
  pm_storage_node : StorageNodeId;
  pm_log_id : Z;
  pm_state : string;
  pm_total_bytes : Z;
  pm_needs_dir_sync : bool;
}.

Record PendingDataLogAppend := mkPendingAppend {
  pa_placements : list SegmentPlacementRow;
  pa_logs : gmap DurableDataLogRef PendingDataLogManifest;
  pa_sealed_logs : list DurableDataLogRef;
}.

Definition PendingDataLogAppend_default : PendingDataLogAppend := mkPendingAppend [] ∅ [].

(** [DurableDataLogRef { storage_node, log_id }] of a placement. *)
Definition placement_ref (p : SegmentPlacementRow) : DurableDataLogRef :=
  mkLogRef (sp_storage_node p) (sp_data_log_id p).

Section pending.
Implicit Types self : PendingDataLogAppend.

Definition pending_is_empty self : bool :=
  bool_decide (pa_placements self = []) && bool_decide (pa_logs self = ∅) &&
  bool_decide (pa_sealed_logs self = []).

Definition segment_ids self : gset SegmentId := list_to_set (sp_segment_id <$> pa_placements self).

Definition placement_count self : Z := Z.of_nat (length (pa_placements self)).

Definition placement_payload_bytes self : Z :=
  fold_left (saturating_add U64_MOD) (sp_payload_bytes <$> pa_placements self) 0.

Definition log_refs self : gset DurableDataLogRef :=
  dom (pa_logs self) ∪ list_to_set (pa_sealed_logs self) ∪
  list_to_set (placement_ref <$> pa_placements self).

Definition log_ref_count self : Z := Z.of_nat (size (log_refs self)).

Definition storage_node_count self : Z :=
  Z.of_nat (size (set_map lr_storage_node (log_refs self) : gset StorageNodeId)).

Definition manifest_storage_nodes_except self (excluded : gset StorageNodeId)
    : PendingDataLogAppend :=
  mkPendingAppend []
    (filter (fun kv => lr_storage_node kv.1 ∉ excluded) (pa_logs self))
    (filter (fun r => lr_storage_node r ∉ excluded) (pa_sealed_logs self)).

Definition selected_log_refs self (selected : gset DurableDataLogRef) : PendingDataLogAppend :=
  mkPendingAppend []
    (filter (fun kv => kv.1 ∈ selected) (pa_logs self))
    (filter (fun r => r ∈ selected) (pa_sealed_logs self)).

Definition remove_log_refs (refs : gset DurableDataLogRef) self : PendingDataLogAppend :=
  mkPendingAppend (pa_placements self)
    (filter (fun kv => kv.1 ∉ refs) (pa_logs self))
    (filter (fun r => r ∉ refs) (pa_sealed_logs self)).

(** [file_len] is the length of the log's file, if there is one. *)
Definition active_log_for_node self (storage_node : StorageNodeId)
    (file_len : DurableDataLogRef -> option Z) (active_state : string) : option DataLogRow :=
  let candidates := List.filter (fun kv =>
    (lr_storage_node kv.1 =? storage_node) && String.eqb (pm_state kv.2) active_state &&
    negb (bool_decide (kv.1 ∈ pa_sealed_logs self))) (log_iter (pa_logs self)) in
  '(log_ref, manifest) ← max_by_key (fun kv => lr_log_id kv.1) candidates;
  let total_bytes := match file_len log_ref with
                     | Some len => Z.max len (pm_total_bytes manifest)
                     | None => pm_total_bytes manifest
                     end in
  Some (mkDataLogRow storage_node (lr_log_id log_ref) total_bytes 0 0).

Definition prune_unreferenced_logs self : PendingDataLogAppend :=
  let retained_refs : gset DurableDataLogRef := list_to_set (placement_ref <$> pa_placements self) in
  mkPendingAppend (pa_placements self)
    (filter (fun kv => kv.1 ∈ retained_refs) (pa_logs self))
    (filter (fun r => r ∈ retained_refs) (pa_sealed_logs self)).

Definition retain_current_placements (current_segments : gset SegmentId) self
    : PendingDataLogAppend :=
  prune_unreferenced_logs (mkPendingAppend
    (filter (fun p => sp_segment_id p ∈ current_segments) (pa_placements self))
    (pa_logs self) (pa_sealed_logs self)).

Definition remove_segments (ids : gset SegmentId) self : PendingDataLogAppend :=
  prune_unreferenced_logs (mkPendingAppend
    (filter (fun p => sp_segment_id p ∉ ids) (pa_placements self))
    (pa_logs self) (pa_sealed_logs self)).

(** The entry of a log in both appends. *)
Definition merge_manifest (existing manifest : PendingDataLogManifest) : PendingDataLogManifest :=
  mkManifest (pm_storage_node existing) (pm_log_id existing) (pm_state manifest)
    (Z.max (pm_total_bytes existing) (pm_total_bytes manifest))
    (pm_needs_dir_sync existing || pm_needs_dir_sync manifest).

Definition pending_merge self (other : PendingDataLogAppend) : PendingDataLogAppend :=
  mkPendingAppend (pa_placements self ++ pa_placements other)
    (union_with (fun x y => Some (merge_manifest x y)) (pa_logs self) (pa_logs other))
    (fold_left (fun sealed r => if bool_decide (r ∈ sealed) then sealed else sealed ++ [r])
      (pa_sealed_logs other) (pa_sealed_logs self)).
End pending.

(** ** Properties *)

Lemma slice_mid {A} (a b c : list A) s n :
  s = Z.of_nat (length a) -> n = Z.of_nat (length b) -> slice (a ++ b ++ c) s n = b.
Proof. intros -> ->. unfold slice. rewrite !Nat2Z.id, drop_app_length, take_app_length. done. Qed.

Lemma byte_at_mid (a c : list Z) b s : s = Z.of_nat (length a) -> byte_at (a ++ b :: c) s = b.
Proof. intros ->. unfold byte_at. rewrite Nat2Z.id, app_nth2, Nat.sub_diag by lia. done. Qed.

Lemma split_front {A} (n : nat) (l : list A) :
  (n <= length l)%nat -> exists a b, l = a ++ b /\ length a = n.
Proof. intros. exists (take n l), (drop n l). by rewrite take_drop, length_take_le. Qed.

Section record_theory.
Context `{Crc32cCrate}.

(** A record in its parts. *)
Definition record_parts (magic version : list Z) (kind : Z) (identity len : list Z) (tag : Z)
    (checksum bytes : list Z) : list Z :=
  magic ++ version ++ [kind] ++ identity ++ len ++ [tag] ++ checksum ++ bytes.

Definition parts_sized (magic version identity len checksum : list Z) : Prop :=
  length magic = 8%nat /\ length version = 2%nat /\ length identity = 16%nat /\
  length len = 8%nat /\ length checksum = 8%nat.

Lemma record_split record :
  DATA_LOG_HEADER_LEN <= Z.of_nat (length record) ->
  exists magic version kind identity len tag checksum bytes,
    record = record_parts magic version kind identity len tag checksum bytes /\
    parts_sized magic version identity len checksum.
Proof.
  unfold DATA_LOG_HEADER_LEN, parts_sized. intros Hl.
  destruct (split_front 8 record) as (magic & r1 & -> & L1); [lia|]. rewrite length_app in Hl.
  destruct (split_front 2 r1) as (version & r2 & -> & L2); [lia|]. rewrite length_app in Hl.
  destruct r2 as [|kind r3]; [simpl in Hl; lia|]. rewrite length_cons in Hl.
  destruct (split_front 16 r3) as (identity & r4 & -> & L3); [lia|]. rewrite length_app in Hl.
  destruct (split_front 8 r4) as (len & r5 & -> & L4); [lia|]. rewrite length_app in Hl.
  destruct r5 as [|tag r6]; [simpl in Hl; lia|]. rewrite length_cons in Hl.
  destruct (split_front 8 r6) as (checksum & bytes & -> & L5); [lia|].
  by exists magic, version, kind, identity, len, tag, checksum, bytes.
Qed.

(** What [decode_data_log_record] makes of a record in parts. *)
Lemma decode_parts magic version kind identity len tag checksum bytes :
  parts_sized magic version identity len checksum ->
  decode_segment_data_log_record (record_parts magic version kind identity len tag checksum bytes) =
    (reject_if (negb (bool_decide (magic = DATA_LOG_MAGIC))) (Corrupt "bad data-log magic");;
     reject_if (negb (be_value version =? DATA_LOG_VERSION)) (Corrupt "unsupported data-log version");;
     expected ← ok_or (checked_add U64_MOD DATA_LOG_HEADER_LEN (be_value len))
       (Corrupt "data-log record length overflow");
     reject_if (negb (DATA_LOG_HEADER_LEN + Z.of_nat (length bytes) =? expected))
       (Corrupt "data-log record length mismatch");;
     integrity ←
       (if tag =? 1 then Ok (Crc32c (be_value checksum))
        else if tag =? 2 then
          if be_value checksum =? 0 then Ok SpUnchecked
          else Err (Corrupt "unchecked data-log record has nonzero checksum")
        else Err (Corrupt "invalid data-log integrity tag"));
     verify_segment_payload_integrity integrity bytes;;
     if kind =? DATA_LOG_KIND_SEGMENT then Ok (mkSegmentData (be_value identity) integrity bytes)
     else if kind =? DATA_LOG_KIND_APPEND_RUN
       then Err (Corrupt "expected segment data-log record, found append-run record")
     else Err (Corrupt "invalid data-log record kind")).
Proof.
  intros (L1 & L2 & L3 & L4 & L5). set (r := record_parts _ _ _ _ _ _ _ _).
  assert (Hlen : Z.of_nat (length r) = DATA_LOG_HEADER_LEN + Z.of_nat (length bytes)).
  { subst r. unfold record_parts, DATA_LOG_HEADER_LEN. rewrite !length_app. simpl. lia. }
  unfold decode_segment_data_log_record, decode_data_log_record. rewrite Hlen.
  rewrite (proj2 (Z.ltb_ge (DATA_LOG_HEADER_LEN + _) _)) by lia. cbn [reject_if mbind Result_bind].
  assert (E1 : slice r 0 8 = magic).
  { apply (slice_mid [] magic); [done|lia]. }
  assert (E2 : slice r 8 2 = version).
  { apply (slice_mid magic version); lia. }
  assert (E3 : byte_at r (8 + 2) = kind).
  { subst r. unfold record_parts. rewrite app_assoc. apply byte_at_mid. rewrite length_app. lia. }
  assert (E4 : slice r (8 + 2 + 1) 16 = identity).
  { subst r. unfold record_parts. rewrite (app_assoc magic), (app_assoc _ [kind]). apply slice_mid; [|lia].
    rewrite !length_app. simpl. lia. }
  assert (E5 : slice r (8 + 2 + 1 + 16) 8 = len).
  { subst r. unfold record_parts. rewrite (app_assoc magic), (app_assoc _ [kind]), (app_assoc _ identity).
    apply slice_mid; [|lia]. rewrite !length_app. simpl. lia. }
  assert (E6 : byte_at r (8 + 2 + 1 + 16 + 8) = tag).
  { subst r. unfold record_parts. rewrite (app_assoc magic), (app_assoc _ [kind]), (app_assoc _ identity), (app_assoc _ len).
    apply byte_at_mid. rewrite !length_app. simpl. lia. }
  assert (E7 : slice r DATA_LOG_CHECKSUM_OFFSET 8 = checksum).
  { subst r. unfold record_parts, DATA_LOG_CHECKSUM_OFFSET.
    rewrite (app_assoc magic), (app_assoc _ [kind]), (app_assoc _ identity), (app_assoc _ len), (app_assoc _ [tag]).
    apply slice_mid; [|lia]. rewrite !length_app. simpl. lia. }
  assert (E8 : drop (Z.to_nat DATA_LOG_HEADER_LEN) r = bytes).
  { subst r. unfold record_parts.
    rewrite (app_assoc magic), (app_assoc _ [kind]), (app_assoc _ identity), (app_assoc _ len), (app_assoc _ [tag]),
      (app_assoc _ checksum). apply drop_app_length'. rewrite !length_app. unfold DATA_LOG_HEADER_LEN. simpl. lia. }
  rewrite E1, E2, E3, E4, E5, E6, E7, E8. clear.
  repeat (match goal with |- context [reject_if ?b _] => destruct b; [done|]; cbn [reject_if mbind Result_bind] end).
  destruct (ok_or _ _) as [expected|]; [|done]. cbn [reject_if mbind Result_bind].
  destruct (negb _); [done|]. cbn [reject_if mbind Result_bind].
  destruct (if tag =? 1 then _ else _) as [integrity|]; [|done]. cbn [reject_if mbind Result_bind].
  destruct (verify_segment_payload_integrity _ _); [|done]. cbn [reject_if mbind Result_bind].
  by repeat case_match.
Qed.
Definition integrity_tag (i : SegmentPayloadIntegrity) : Z :=
  match i with Crc32c _ => 1 | SpUnchecked => 2 end.
Definition integrity_checksum (i : SegmentPayloadIntegrity) : Z :=
  match i with Crc32c c => c | SpUnchecked => 0 end.
Definition encoded_record (id : SegmentId) (i : SegmentPayloadIntegrity) (bytes : list Z) : list Z :=
  record_parts DATA_LOG_MAGIC (be_bytes 2 DATA_LOG_VERSION) DATA_LOG_KIND_SEGMENT (be_bytes 16 id)
    (be_bytes 8 (Z.of_nat (length bytes))) (integrity_tag i) (be_bytes 8 (integrity_checksum i)) bytes.

(** Identifiers and checksums that fit their fields. *)
Definition record_typed (id : SegmentId) (i : SegmentPayloadIntegrity) : Prop :=
  in_u128 id /\ in_u64 (integrity_checksum i).

Lemma encode_data_log_record_run id i bytes record :
  encode_data_log_record id i bytes = Ok record <->
  Z.of_nat (length bytes) < U64_MOD /\ record = encoded_record id i bytes.
Proof.
  unfold encode_data_log_record, encode_typed_data_log_record, encode_typed_data_log_header, encoded_record,
    record_parts.
  destruct (len_u64 bytes _) as [n|e] eqn:E; cbn [mbind Result_bind].
  - apply len_u64_Ok in E as [-> [_ Hn]].
    replace (reject_if _ _) with (Ok tt : Result unit) by done. cbn [mbind Result_bind].
    rewrite <-!app_assoc. destruct i; cbn [integrity_tag integrity_checksum]; split; [by intros [= <-]|by intros [_ ->]|by intros [= <-]|by intros [_ ->]].
  - split; [done|]. intros [Hn _]. exfalso. unfold len_u64 in E. case_match; simplify_eq. lia.
Qed.

Lemma encoded_record_length id i bytes :
  Z.of_nat (length (encoded_record id i bytes)) = DATA_LOG_HEADER_LEN + Z.of_nat (length bytes).
Proof.
  unfold encoded_record, record_parts, DATA_LOG_HEADER_LEN. rewrite !length_app, !be_bytes_length. simpl. lia.
Qed.

Lemma be_value_small n v : 0 <= v < 256 ^ Z.of_nat n -> be_value (be_bytes n v) = v.
Proof. intros. by rewrite be_value_be_bytes, Z.mod_small. Qed.

Lemma decode_encoded id i bytes :
  record_typed id i -> DATA_LOG_HEADER_LEN + Z.of_nat (length bytes) < U64_MOD ->
  decode_segment_data_log_record (encoded_record id i bytes) =
    (verify_segment_payload_integrity i bytes;; Ok (mkSegmentData id i bytes)).
Proof.
  intros [Hid Hc] Hlen. unfold encoded_record. rewrite decode_parts.
  2: { unfold parts_sized. by rewrite !be_bytes_length. }
  rewrite !be_value_small.
  2-5: unfold DATA_LOG_HEADER_LEN, in_u64, in_u128, U64_MOD, U128_MOD, DATA_LOG_VERSION in *; simpl; lia.
  rewrite bool_decide_true by done. cbn [negb reject_if mbind Result_bind].
  unfold checked_add. rewrite (proj2 (Z.ltb_lt _ _)) by lia. cbn [ok_or mbind Result_bind].
  rewrite !Z.eqb_refl. cbn [negb reject_if mbind Result_bind]. destruct i; cbn [integrity_tag integrity_checksum Z.eqb Pos.eqb mbind Result_bind]; by destruct (verify_segment_payload_integrity _ _).
Qed.

Lemma be_bytes_value n l v :
  Forall is_byte l -> length l = n -> be_value l = v -> l = be_bytes n v /\ 0 <= v < 256 ^ Z.of_nat n.
Proof. intros Hl <- <-. split; [by rewrite be_bytes_be_value|by apply be_value_bound]. Qed.

Lemma decoded_parts magic version kind identity len tag checksum payload id i bytes :
  let record := record_parts magic version kind identity len tag checksum payload in
  parts_sized magic version identity len checksum -> Forall is_byte record ->
  decode_segment_data_log_record record = Ok (mkSegmentData id i bytes) ->
  record = encoded_record id i bytes /\ record_typed id i /\
  verify_segment_payload_integrity i bytes = Ok tt.
Proof.
  intros record Hsz Hb. subst record. rewrite decode_parts by done. destruct Hsz as (L1 & L2 & L3 & L4 & L5).
  unfold record_parts in Hb. rewrite !Forall_app in Hb. destruct Hb as (_ & B2 & _ & B3 & B4 & _ & B5 & _).
  intros Hd. apply bind_Ok in Hd as ([] & Hm & Hd). apply reject_if_Ok, negb_false_iff, bool_decide_eq_true in Hm.
  apply bind_Ok in Hd as ([] & Hver & Hd). apply reject_if_Ok, negb_false_iff, Z.eqb_eq in Hver.
  apply bind_Ok in Hd as (expected & Hex & Hd). apply ok_or_Ok, checked_add_Some in Hex as [Hex ->].
  apply bind_Ok in Hd as ([] & Hl & Hd). apply reject_if_Ok, negb_false_iff, Z.eqb_eq in Hl.
  apply bind_Ok in Hd as (i' & Hi & Hd). apply bind_Ok in Hd as ([] & Hv & Hd).
  destruct (kind =? DATA_LOG_KIND_SEGMENT) eqn:Ek; [|by case_match]. injection Hd as <- -> <-.
  apply Z.eqb_eq in Ek. apply (be_bytes_value 2) in Hver as [-> _]; [|done..].
  destruct (be_bytes_value 16 identity _ B3 L3 eq_refl) as [Eid Hid].
  destruct (be_bytes_value 8 len (Z.of_nat (length payload)) B4 L4) as [-> _]; [lia|].
  destruct (be_bytes_value 8 checksum _ B5 L5 eq_refl) as [Ec Hc].
  assert (tag = integrity_tag i /\ be_value checksum = integrity_checksum i) as [-> Hck].
  { destruct (tag =? 1) eqn:E1; [apply Z.eqb_eq in E1; by simplify_eq/=|].
    destruct (tag =? 2) eqn:E2; [|done]. apply Z.eqb_eq in E2.
    destruct (be_value checksum =? 0) eqn:E3; [|done]. apply Z.eqb_eq in E3. by simplify_eq/=. }
  unfold encoded_record. rewrite Hck in *. split; [|done]. subst magic kind. by rewrite <-Eid, <-Ec.
Qed.

(** C16: The data-log records are exact.  A string of bytes decodes to a segment
    identifier, an integrity value and a payload if and only if the payload
    passes its integrity check and the string is what
    [encode_data_log_record] writes for the three: every record that was
    written reads back, and no other string of bytes is taken for a record. *)
Theorem data_log_records_exact record id i bytes :
  Forall is_byte record -> Z.of_nat (length record) < U64_MOD ->
  decode_segment_data_log_record record = Ok (mkSegmentData id i bytes) <->
  record_typed id i /\ verify_segment_payload_integrity i bytes = Ok tt /\
  encode_data_log_record id i bytes = Ok record.
Proof.
  intros Hbytes Hlen. split.
  - destruct (decide (DATA_LOG_HEADER_LEN <= Z.of_nat (length record))) as [Hl|Hl]; cycle 1.
    { unfold decode_segment_data_log_record, decode_data_log_record. rewrite (proj2 (Z.ltb_lt _ _)) by lia. done. }
    destruct (record_split record Hl) as (magic & version & kind & identity & len & tag & checksum & payload & -> & Hsz).
    intros Hd. apply decoded_parts in Hd as (Heq & Hty & Hver); [|done..]. split; [done|split; [done|]].
    rewrite Heq in Hlen |- *. rewrite encoded_record_length in Hlen. unfold DATA_LOG_HEADER_LEN in Hlen.
    apply encode_data_log_record_run. split; [lia|done].
  - intros (Hty & Hver & Henc). apply encode_data_log_record_run in Henc as [_ ->].
    rewrite encoded_record_length in Hlen. by rewrite decode_encoded, Hver by done.
Qed.
End record_theory.

(** A record of three bytes whose payload is checked. *)
Lemma data_log_records_exact_witness :
  let record := @encoded_record 7 (Crc32c (@crc32c sum_crc [1; 2; 3])) [1; 2; 3] in
  @decode_segment_data_log_record sum_crc record =
    Ok (mkSegmentData 7 (Crc32c (@crc32c sum_crc [1; 2; 3])) [1; 2; 3]).
Proof.
  intros record. apply (@data_log_records_exact sum_crc record).
  - vm_compute. repeat constructor; discriminate.
  - vm_compute. reflexivity.
  - vm_compute. repeat split; discriminate.
Defined.
