(* ===== verification/LogStore.v ===== *)
(** * The data logs and catalogs of the durable store ([local/durable/sqlite.rs],
    [local/durable/persist.rs], [local/durable/reopen.rs], [local/durable/paths.rs])

    The part of [DurableSqliteStore] that keeps segment payloads: for every
    storage node a directory of data-log files and an SQLite catalog with the
    tables [data_logs], [segment_placements], [segment_catalog_entries] and the
    row [node_meta].  A table is a map from its primary key; a statement is the
    change it makes to the map, with the constraints of the schema; a
    transaction that fails leaves its catalog as it was.  A file is its bytes,
    the number of them that were synced, and whether its directory entry was:
    [crash_files] says what a crash may leave. *)

From S2P Require Import Prelude Api Object Provider Config Catalog SegmentStore StorageNode.
From S2P Require Import Codec CodecObjects DataLog.

(** ** Policy *)

Record DurableDataLogPolicy := mkDataLogPolicy {
  target_data_log_bytes : Z;
  file_sync_fanout : Z;
  min_reclaimable_ratio_ppm : Z;
  min_reclaimable_bytes : Z;
  max_compaction_copy_bytes : Z;
}.

Definition DataLogPolicy_default : DurableDataLogPolicy :=
  mkDataLogPolicy (64 * 1024 * 1024) 4 500000 (4 * 1024 * 1024) (64 * 1024 * 1024).

Definition DataLogPolicy_validate (self : DurableDataLogPolicy) : Result unit :=
  reject_if (target_data_log_bytes self =? 0)
    (InvalidArgument "target_data_log_bytes must be greater than zero");;
  reject_if (file_sync_fanout self =? 0)
    (InvalidArgument "file_sync_fanout must be greater than zero");;
  reject_if (1000000 <? min_reclaimable_ratio_ppm self)
    (InvalidArgument "min_reclaimable_ratio_ppm must be <= 1_000_000");;
  reject_if (max_compaction_copy_bytes self =? 0)
    (InvalidArgument "max_compaction_copy_bytes must be greater than zero").

(** ** Files, tables and the store *)

Record LogFile := mkLogFile {
  lf_bytes : list Z;
  lf_synced : Z;
  lf_linked : bool;
}.

(** A row of the table [data_logs]; the log's identifier is the key. *)
Record LogManifestRow := mkLogManifestRow {
  lg_state : string;
  lg_total_bytes : Z;
  lg_live_bytes : Z;
  lg_dead_bytes : Z;
}.

Record DurableStorageNodeRow := mkNodeRow {
  nr_storage_node : StorageNodeId;
  nr_ordinal : Z;
  nr_next_catalog_segment_id : Z;
  nr_segment_store_next_offset : Z;
}.

(** The catalog of a storage node.  A placement comes with its column [current]. *)
Record NodeCatalog := mkNodeCatalog {
  nc_meta : option DurableStorageNodeRow;
  nc_data_logs : gmap Z LogManifestRow;
  nc_placements : gmap SegmentId (SegmentPlacementRow * bool);
  nc_entries : gmap SegmentId (list Z);
}.

Record LogStore := mkLogStore {
  ls_policy : DurableDataLogPolicy;
  ls_catalogs : gmap StorageNodeId NodeCatalog;
  ls_files : gmap DurableDataLogRef LogFile;
  (** [StorageNodeAppendLogService]: what it knows to be synced. *)
  ls_synced_logs : gmap DurableDataLogRef Z;
  ls_dir_synced_logs : gset DurableDataLogRef;
  (** The table [maintenance_state]. *)
  ls_cursor : option DurableDataLogRef;
}.

Definition set_ls_catalogs c s := mkLogStore (ls_policy s) c (ls_files s) (ls_synced_logs s)
  (ls_dir_synced_logs s) (ls_cursor s).
Definition set_ls_files f s := mkLogStore (ls_policy s) (ls_catalogs s) f (ls_synced_logs s)
  (ls_dir_synced_logs s) (ls_cursor s).
Definition set_ls_synced l d s := mkLogStore (ls_policy s) (ls_catalogs s) (ls_files s) l d
  (ls_cursor s).
Definition set_ls_cursor c s := mkLogStore (ls_policy s) (ls_catalogs s) (ls_files s)
  (ls_synced_logs s) (ls_dir_synced_logs s) c.

Definition set_nc_meta m c := mkNodeCatalog m (nc_data_logs c) (nc_placements c) (nc_entries c).
Definition set_nc_data_logs l c := mkNodeCatalog (nc_meta c) l (nc_placements c) (nc_entries c).
Definition set_nc_placements p c := mkNodeCatalog (nc_meta c) (nc_data_logs c) p (nc_entries c).
Definition set_nc_entries e c := mkNodeCatalog (nc_meta c) (nc_data_logs c) (nc_placements c) e.

(** The texts of the errors of the operating system and of SQLite are left out. *)
Definition fs_error : StorageError := Unavailable "filesystem operation failed".
Definition sqlite_error : StorageError := Unavailable "sqlite operation failed".

Definition u64_to_i64 (value : Z) : Result Z :=
  if value <? 2 ^ 63 then Ok value else Err (InvalidArgument "u64 value overflows SQLite i64").

(** ** Files *)

Definition file_len (s : LogStore) (r : DurableDataLogRef) : option Z :=
  (fun f => Z.of_nat (length (lf_bytes f))) <$> ls_files s !! r.

(** [OpenOptions::new().create(true).append(true)] *)
Definition create_file (r : DurableDataLogRef) (s : LogStore) : LogStore :=
  match ls_files s !! r with
  | Some _ => s
  | None => set_ls_files (<[r := mkLogFile [] 0 false]> (ls_files s)) s
  end.

(** [file.write_all(record)] on a file opened for appending. *)
Definition append_file (r : DurableDataLogRef) (record : list Z) (s : LogStore) : LogStore :=
  set_ls_files (alter (fun f => mkLogFile (lf_bytes f ++ record) (lf_synced f) (lf_linked f)) r
    (ls_files s)) s.

(** [file.sync_data()] *)
Definition sync_file (r : DurableDataLogRef) (s : LogStore) : LogStore :=
  set_ls_files (alter (fun f => mkLogFile (lf_bytes f) (Z.of_nat (length (lf_bytes f))) (lf_linked f)) r
    (ls_files s)) s.

(** [sync_dir] of the directory of a node. *)
Definition sync_dir (node : StorageNodeId) (s : LogStore) : LogStore :=
  set_ls_files (map_imap (fun r f => Some (mkLogFile (lf_bytes f) (lf_synced f)
    (lf_linked f || (lr_storage_node r =? node)))) (ls_files s)) s.

(** The directory is synced after a file was removed. *)
Definition delete_data_log (r : DurableDataLogRef) (s : LogStore) : LogStore :=
  match ls_files s !! r with
  | Some _ => sync_dir (lr_storage_node r) (set_ls_files (delete r (ls_files s)) s)
  | None => s
  end.

Definition sync_data_log_files_with_fanout (files : list DurableDataLogRef) (fanout : Z)
    : ST LogStore unit :=
  st_reject_if (fanout =? 0)
    (InvalidArgument "data-log file sync fanout must be greater than zero");;
  st_modify (fun s => fold_left (fun s r => sync_file r s) files s).

(** What a crash may leave of the files: the synced bytes of every file whose
    directory entry was synced, any part of what was written after them, and
    any of the other files. *)
Definition crash_file (f f' : option LogFile) : Prop :=
  match f, f' with
  | Some f, Some f' =>
      lf_bytes f' `prefix_of` lf_bytes f /\ lf_synced f <= Z.of_nat (length (lf_bytes f')) /\
      lf_synced f' = Z.of_nat (length (lf_bytes f')) /\ lf_linked f' = true
  | Some f, None => lf_linked f = false
  | None, f' => f' = None
  end.
Definition crash_files (m m' : gmap DurableDataLogRef LogFile) : Prop :=
  forall r, crash_file (m !! r) (m' !! r).

(** ** Log states *)

Definition GENERIC_DATA_LOG_STATE_ACTIVE : string := "active".
Definition STREAM_DATA_LOG_STATE_ACTIVE : string := "stream-active".

Fixpoint strip_prefix (prefix s : string) : option string :=
  match prefix, s with
  | EmptyString, _ => Some s
  | String a prefix, String b s => if Ascii.eqb a b then strip_prefix prefix s else None
  | String _ _, EmptyString => None
  end.

Fixpoint parse_digits (acc : Z) (bytes : list Z) : option Z :=
  match bytes with
  | [] => Some acc
  | b :: bytes => if (48 <=? b) && (b <=? 57) then parse_digits (10 * acc + (b - 48)) bytes else None
  end.

(** [lane.parse::<usize>()] *)
Definition parse_usize (s : string) : option Z :=
  let digits := match ascii_bytes s with 43 :: rest => rest | bytes => bytes end in
  match digits with
  | [] => None
  | _ => v ← parse_digits 0 digits; if v <? U64_MOD then Some v else None
  end.

Definition is_stream_data_log_state (state : string) : bool :=
  String.eqb state STREAM_DATA_LOG_STATE_ACTIVE ||
  match strip_prefix "stream-active-" state with
  | Some lane => negb (String.eqb lane EmptyString) && bool_decide (is_Some (parse_usize lane))
  | None => false
  end.

(** ** Queries on a catalog *)

(** [NodeCatalogs::lock] *)
Definition node_catalog (node : StorageNodeId) : ST LogStore NodeCatalog :=
  st_ask (fun s => ok_or (ls_catalogs s !! node) (not_found "storage_node_catalog" node)).

Definition decode_node_data_log_row (node : StorageNodeId) (log_id : Z) (row : LogManifestRow)
    : DataLogRow :=
  mkDataLogRow node log_id (lg_total_bytes row) (lg_live_bytes row) (lg_dead_bytes row).

Definition fs_data_log_max_id (files : gmap DurableDataLogRef LogFile) (node : StorageNodeId) : Z :=
  fold_left (fun max_id r => if lr_storage_node r =? node then Z.max max_id (lr_log_id r) else max_id)
    (map_to_list files).*1 0.

Definition next_data_log_id (conn : NodeCatalog) (files : gmap DurableDataLogRef LogFile)
    (node : StorageNodeId) (floor : Z) : Result Z :=
  let db_max := fold_left Z.max (bt_keys (nc_data_logs conn)) 0 in
  let fs_max := fs_data_log_max_id files node in
  ok_or (checked_add U64_MOD (Z.max (Z.max db_max fs_max) floor) 1)
    (Conflict "data-log id overflow").

Definition next_data_log (conn : NodeCatalog) (files : gmap DurableDataLogRef LogFile)
    (node : StorageNodeId) (previous : Z) : Result DataLogRow :=
  log_id ← next_data_log_id conn files node previous;
  Ok (mkDataLogRow node log_id 0 0 0).

(** [ORDER BY log_id DESC LIMIT 1] takes the last row in key order. *)
Definition active_data_log_with_state (conn : NodeCatalog) (files : gmap DurableDataLogRef LogFile)
    (node : StorageNodeId) (active_state : string) : Result DataLogRow :=
  match last (List.filter (fun kv => String.eqb (lg_state kv.2) active_state)
                (bt_iter (nc_data_logs conn))) with
  | Some (log_id, row) =>
      let row := decode_node_data_log_row node log_id row in
      Ok match files !! mkLogRef node log_id with
         | Some f => set_dr_total_bytes (Z.max (Z.of_nat (length (lf_bytes f))) (dr_total_bytes row)) row
         | None => row
         end
  | None =>
      log_id ← next_data_log_id conn files node 0;
      Ok (mkDataLogRow node log_id 0 0 0)
  end.

Definition current_placements_for_log (conn : NodeCatalog) (log_id : Z)
    : list SegmentPlacementRow :=
  sort_by_key sp_record_offset
    (List.filter (fun p => sp_data_log_id p =? log_id)
      (fst <$> List.filter snd (bt_values (nc_placements conn)))).

Definition placement_for_segment_on_node (conn : NodeCatalog) (segment_id : SegmentId)
    : Result SegmentPlacementRow :=
  match nc_placements conn !! segment_id with
  | Some (p, true) => Ok p
  | _ => Err (Corrupt "committed segment missing SQLite placement")
  end.

Definition placement_for_segment (s : LogStore) (segment_id : SegmentId)
    : Result SegmentPlacementRow :=
  let found := omap (fun conn => match placement_for_segment_on_node conn segment_id with
                                 | Ok p => Some p
                                 | Err _ => None
                                 end) (bt_values (ls_catalogs s)) in
  ok_or (head found) (Corrupt "committed segment missing SQLite placement").

(** ** Reading *)

Section reading.
Context `{Crc32cCrate}.

Definition read_segment_payload (s : LogStore) (placement : SegmentPlacementRow)
    : Result (list Z) :=
  file ← ok_or (ls_files s !! placement_ref placement) fs_error;
  reject_if (Z.of_nat (length (lf_bytes file)) <?
      sp_record_offset placement + sp_record_bytes placement) fs_error;;
  let record := slice (lf_bytes file) (sp_record_offset placement) (sp_record_bytes placement) in
  data ← decode_segment_data_log_record record;
  reject_if (negb (ld_segment_id data =? sp_segment_id placement) ||
      negb (Z.of_nat (length (ld_bytes data)) =? sp_payload_bytes placement) ||
      negb (bool_decide (ld_integrity data = sp_integrity placement)))
    (Corrupt "data-log record disagrees with SQLite placement");;
  Ok (ld_bytes data).
End reading.

(** ** Appending *)

Inductive DataLogSyncMode := Sync | NoSync.

(** The variables of the loop of [append_segments_profiled_with_state]:
    [active_logs], [open_log], [files_to_sync], [synced_dirs] and [append]. *)
Record AppendLoop := mkAppendLoop {
  al_active : gmap StorageNodeId DataLogRow;
  al_open : option (DurableDataLogRef * bool);
  al_files : list DurableDataLogRef;
  al_dirs : gset StorageNodeId;
  al_append : PendingDataLogAppend;
}.

Definition is_sync (mode : DataLogSyncMode) : bool :=
  match mode with Sync => true | NoSync => false end.

(** The entry of [active_logs] for a node. *)
Definition active_log_of (pending_base : option PendingDataLogAppend) (active_state : string)
    (node : StorageNodeId) (loop : AppendLoop) : ST LogStore DataLogRow :=
  match al_active loop !! node with
  | Some row => mret row
  | None =>
      s ← st_get;
      match (pending ← pending_base; active_log_for_node pending node (file_len s) active_state) with
      | Some row => mret row
      | None =>
          conn ← node_catalog node;
          st_lift (active_data_log_with_state conn (ls_files s) node active_state)
      end
  end.

(** Sealing the active log when the record does not fit. *)
Definition roll_log (node : StorageNodeId) (record_len : Z) (active : DataLogRow)
    (append : PendingDataLogAppend) : ST LogStore (DataLogRow * PendingDataLogAppend) :=
  if dr_total_bytes active =? 0 then mret (active, append)
  else
    size ← st_lift (ok_or (checked_add U64_MOD (dr_total_bytes active) record_len)
      (Conflict "data-log size overflow"));
    s ← st_get;
    if target_data_log_bytes (ls_policy s) <? size then
      conn ← node_catalog node;
      next ← st_lift (next_data_log conn (ls_files s) node (dr_log_id active));
      mret (next, mkPendingAppend (pa_placements append) (pa_logs append)
        (pa_sealed_logs append ++ [mkLogRef node (dr_log_id active)]))
    else mret (active, append).

(** [files] is [files_to_sync] with the file that was open before. *)
Definition open_new_log (mode : DataLogSyncMode) (log_ref : DurableDataLogRef) (active : DataLogRow)
    (loop : AppendLoop) (files : list DurableDataLogRef)
    : ST LogStore (DataLogRow * AppendLoop * bool) :=
  existed ← st_gets (fun s => bool_decide (is_Some (ls_files s !! log_ref)));
  st_modify (create_file log_ref);;
  len ← st_gets (fun s => default 0 (file_len s log_ref));
  let needs_dir_sync := negb (is_sync mode) && negb existed in
  let dirs := if existed then al_dirs loop else {[lr_storage_node log_ref]} ∪ al_dirs loop in
  mret (set_dr_total_bytes (Z.max (dr_total_bytes active) len) active,
    mkAppendLoop (al_active loop) (Some (log_ref, needs_dir_sync)) files dirs (al_append loop),
    needs_dir_sync).

(** Opening the file of the active log, unless it is the one that is open. *)
Definition open_log (mode : DataLogSyncMode) (log_ref : DurableDataLogRef) (active : DataLogRow)
    (loop : AppendLoop) : ST LogStore (DataLogRow * AppendLoop * bool) :=
  match al_open loop with
  | Some (r, needs_dir_sync) =>
      if bool_decide (r = log_ref) then mret (active, loop, needs_dir_sync)
      else open_new_log mode log_ref active loop
        (if is_sync mode then al_files loop ++ [r] else al_files loop)
  | None => open_new_log mode log_ref active loop (al_files loop)
  end.

(** One segment. *)
Definition append_segment (mode : DataLogSyncMode) (pending_base : option PendingDataLogAppend)
    (active_state : string) (loop : AppendLoop) (segment : DurableSegmentPayload)
    : ST LogStore AppendLoop :=
  let node := dp_storage_node segment in
  active ← active_log_of pending_base active_state node loop;
  payload_bytes ← st_lift (len_u64 (dp_bytes segment)
    (InvalidArgument "payload length overflows u64"));
  record_len ← st_lift (ok_or (checked_add U64_MOD DATA_LOG_HEADER_LEN payload_bytes)
    (InvalidArgument "data-log record length overflows"));
  '(active, append) ← roll_log node record_len active (al_append loop);
  let log_ref := mkLogRef node (dr_log_id active) in
  '(active, loop, needs_dir_sync) ← open_log mode log_ref active loop;
  let offset := dr_total_bytes active in
  record ← st_lift (encode_data_log_record (dp_segment_id segment) (dp_integrity segment)
    (dp_bytes segment));
  st_modify (append_file log_ref record);;
  payload_offset ← st_lift (ok_or (checked_add U64_MOD offset DATA_LOG_HEADER_LEN)
    (Conflict "data-log payload offset overflow"));
  new_total ← st_lift (ok_or (checked_add U64_MOD offset record_len)
    (Conflict "data-log size overflow"));
  let manifest := mkManifest node (dr_log_id active) active_state new_total needs_dir_sync in
  let placement := mkPlacementRow (dp_segment_id segment) node (dr_log_id active) offset record_len
    payload_offset payload_bytes (dp_integrity segment) in
  mret (mkAppendLoop (<[node := set_dr_total_bytes new_total active]> (al_active loop))
    (al_open loop) (al_files loop) (al_dirs loop)
    (mkPendingAppend (pa_placements append ++ [placement]) (<[log_ref := manifest]> (pa_logs append))
      (pa_sealed_logs append))).

Definition append_segments_with_state (segments : list DurableSegmentPayload)
    (mode : DataLogSyncMode) (pending_base : option PendingDataLogAppend) (active_state : string)
    : ST LogStore PendingDataLogAppend :=
  if bool_decide (segments = []) then mret PendingDataLogAppend_default
  else
    loop ← st_fold (append_segment mode pending_base active_state)
      (mkAppendLoop ∅ None [] ∅ PendingDataLogAppend_default) segments;
    (if is_sync mode then
       let files := match al_open loop with
                    | Some (r, _) => al_files loop ++ [r]
                    | None => al_files loop
                    end in
       fanout ← st_gets (fun s => file_sync_fanout (ls_policy s));
       sync_data_log_files_with_fanout files fanout;;
       st_modify (fun s => fold_left (fun s node => sync_dir node s) (bs_iter (al_dirs loop)) s)
     else mret tt);;
    mret (al_append loop).

Definition append_segments (segments : list DurableSegmentPayload) (mode : DataLogSyncMode)
    (pending_base : option PendingDataLogAppend) : ST LogStore PendingDataLogAppend :=
  append_segments_with_state segments mode pending_base GENERIC_DATA_LOG_STATE_ACTIVE.

Definition prestage_segments (segments : list DurableSegmentPayload)
    (pending_base : PendingDataLogAppend) : ST LogStore PendingDataLogAppend :=
  append_segments segments NoSync (Some pending_base).

Definition MAX_DATA_LOG_SYNC_GROUP_BYTES : Z := 32 * 1024 * 1024.

(** The variables of the loop of [append_segments_bounded]. *)
Record BoundedLoop := mkBoundedLoop {
  bl_appended : PendingDataLogAppend;
  bl_base : PendingDataLogAppend;
  bl_chunk : list DurableSegmentPayload;
  bl_chunk_bytes : Z;
}.

Definition append_bounded_step (loop : BoundedLoop) (segment : DurableSegmentPayload)
    : ST LogStore BoundedLoop :=
  let segment_bytes := Z.of_nat (length (dp_bytes segment)) in
  loop ←
    (if negb (bool_decide (bl_chunk loop = [])) &&
        (MAX_DATA_LOG_SYNC_GROUP_BYTES <? saturating_add U64_MOD (bl_chunk_bytes loop) segment_bytes)
     then
       new_append ← append_segments (bl_chunk loop) Sync (Some (bl_base loop));
       mret (mkBoundedLoop (pending_merge (bl_appended loop) new_append)
         (pending_merge (bl_base loop) new_append) [] 0)
     else mret loop);
  mret (mkBoundedLoop (bl_appended loop) (bl_base loop) (bl_chunk loop ++ [segment])
    (saturating_add U64_MOD (bl_chunk_bytes loop) segment_bytes)).

Definition append_segments_bounded (segments : list DurableSegmentPayload)
    (pending_base : PendingDataLogAppend) : ST LogStore PendingDataLogAppend :=
  loop ← st_fold append_bounded_step
    (mkBoundedLoop PendingDataLogAppend_default pending_base [] 0) segments;
  if bool_decide (bl_chunk loop = []) then mret (bl_appended loop)
  else
    new_append ← append_segments (bl_chunk loop) Sync (Some (bl_base loop));
    mret (pending_merge (bl_appended loop) new_append).

(** ** Syncing pending appends *)

Definition sync_pending_data_logs (pending : PendingDataLogAppend) : ST LogStore unit :=
  if pending_is_empty pending then mret tt
  else
    let logs := (log_iter (pa_logs pending)).*1 in
    s ← st_get;
    st_lift (try_for (fun r => reject_if (bool_decide (ls_files s !! r = None)) fs_error) logs);;
    sync_data_log_files_with_fanout logs 4;;
    st_modify (fun s => fold_left (fun s node => sync_dir node s)
      (bs_iter (list_to_set (lr_storage_node <$> logs))) s).

Record AppendLogPayloadSyncRequest := mkSyncRequest {
  sq_log_ref : DurableDataLogRef;
  sq_bytes : Z;
  sq_sync_dir : bool;
}.

Definition pending_sync_requests (appended : PendingDataLogAppend)
    : ST LogStore (list AppendLogPayloadSyncRequest) :=
  let logs := (fun '(r, m) => mkSyncRequest r (pm_total_bytes m) (pm_needs_dir_sync m)) <$>
    log_iter (pa_logs appended) in
  sealed ← st_map (fun r =>
      len ← st_ask (fun s => ok_or (file_len s r) fs_error);
      mret (mkSyncRequest r len false))
    (List.filter (fun r => bool_decide (pa_logs appended !! r = None)) (pa_sealed_logs appended));
  mret (logs ++ sealed).

(** The variables of the loop of [sync_append_run_log_requests]: [files] and
    [synced_after] (the same logs), [dir_synced_after] and
    [storage_nodes_needing_dir_sync]. *)
Record SyncLoop := mkSyncLoop {
  sy_files : list (DurableDataLogRef * Z);
  sy_dirs_after : gset DurableDataLogRef;
  sy_nodes : gset StorageNodeId;
}.

Definition sync_request_step (s : LogStore) (loop : SyncLoop) (request : AppendLogPayloadSyncRequest)
    : Result SyncLoop :=
  let r := sq_log_ref request in
  let bytes_already_synced := sq_bytes request <=? default 0 (ls_synced_logs s !! r) in
  let needs_dir_sync := sq_sync_dir request && bool_decide (r ∉ ls_dir_synced_logs s) in
  let loop :=
    if needs_dir_sync
    then mkSyncLoop (sy_files loop) ({[r]} ∪ sy_dirs_after loop) ({[lr_storage_node r]} ∪ sy_nodes loop)
    else loop in
  if bytes_already_synced then Ok loop
  else
    len ← ok_or (file_len s r) fs_error;
    reject_if (len <? sq_bytes request)
      (Corrupt "append-log payload sync request exceeds file length");;
    Ok (mkSyncLoop (sy_files loop ++ [(r, len)]) (sy_dirs_after loop) (sy_nodes loop)).

(** The directories are synced on a thread of their own, so also when syncing
    the files fails. *)
Definition sync_append_run_log_requests (requests : list AppendLogPayloadSyncRequest)
    : ST LogStore unit :=
  s ← st_get;
  loop ← st_lift (try_fold (sync_request_step s) (mkSyncLoop [] ∅ ∅) requests);
  if bool_decide (sy_files loop = []) && bool_decide (sy_nodes loop = ∅) then mret tt
  else
    st_modify (fun s => fold_left (fun s node => sync_dir node s) (bs_iter (sy_nodes loop)) s);;
    sync_data_log_files_with_fanout (sy_files loop).*1 (file_sync_fanout (ls_policy s));;
    st_modify (fun s => set_ls_synced
      (fold_left (fun m '(r, bytes) => <[r := Z.max (default 0 (m !! r)) bytes]> m) (sy_files loop)
        (ls_synced_logs s))
      (ls_dir_synced_logs s ∪ sy_dirs_after loop) s).

Definition sync_pending_append (appended : PendingDataLogAppend) : ST LogStore unit :=
  if bool_decide (pa_logs appended = ∅) && bool_decide (pa_sealed_logs appended = []) then mret tt
  else
    requests ← pending_sync_requests appended;
    sync_append_run_log_requests requests.

(** ** Transactions on a catalog *)

(** [conn.transaction()], the statements, [tx.commit()]. *)
Definition node_tx {A} (node : StorageNodeId) (body : ST NodeCatalog A) : ST LogStore A :=
  conn ← node_catalog node;
  match body conn with
  | (Ok a, conn') => st_modify (fun s => set_ls_catalogs (<[node := conn']> (ls_catalogs s)) s);; mret a
  | (Err e, _) => st_lift (Err e)
  end.

Definition alter_log (log_id : Z) (f : LogManifestRow -> LogManifestRow) (c : NodeCatalog) : NodeCatalog :=
  set_nc_data_logs (alter f log_id (nc_data_logs c)) c.

Definition persist_data_log_manifest (log : PendingDataLogManifest) : ST NodeCatalog unit :=
  let live_bytes := if is_stream_data_log_state (pm_state log) then pm_total_bytes log else 0 in
  st_lift (u64_to_i64 (pm_log_id log));;
  st_lift (u64_to_i64 (pm_total_bytes log));;
  st_lift (u64_to_i64 live_bytes);;
  st_modify (fun c => set_nc_data_logs
    (<[pm_log_id log :=
        match nc_data_logs c !! pm_log_id log with
        | None => mkLogManifestRow (pm_state log) (pm_total_bytes log) live_bytes 0
        | Some row => mkLogManifestRow (pm_state log) (Z.max (lg_total_bytes row) (pm_total_bytes log))
                        (Z.max (lg_live_bytes row) live_bytes) (lg_dead_bytes row)
        end]> (nc_data_logs c)) c).

Definition seal_data_log_manifest (log_ref : DurableDataLogRef) : ST NodeCatalog unit :=
  st_lift (u64_to_i64 (lr_log_id log_ref));;
  st_modify (alter_log (lr_log_id log_ref) (fun row =>
    if String.eqb (lg_state row) "deleted" then row
    else mkLogManifestRow "sealed" (lg_total_bytes row) (lg_live_bytes row) (lg_dead_bytes row))).

(** The schema asks for positive lengths and for the log of the placement. *)
Definition persist_segment_placement (placement : SegmentPlacementRow) : ST NodeCatalog unit :=
  st_lift (u64_to_i64 (sp_data_log_id placement));;
  st_lift (u64_to_i64 (sp_record_offset placement));;
  st_lift (u64_to_i64 (sp_record_bytes placement));;
  st_lift (u64_to_i64 (sp_payload_offset placement));;
  st_lift (u64_to_i64 (sp_payload_bytes placement));;
  c ← st_get;
  st_reject_if ((sp_record_bytes placement <=? 0) || (sp_payload_bytes placement <=? 0) ||
    bool_decide (nc_data_logs c !! sp_data_log_id placement = None)) sqlite_error;;
  st_modify (fun c => set_nc_placements
    (<[sp_segment_id placement := (placement, true)]> (nc_placements c)) c);;
  st_modify (alter_log (sp_data_log_id placement) (fun row =>
    mkLogManifestRow (lg_state row) (lg_total_bytes row)
      (lg_live_bytes row + sp_payload_bytes placement) (lg_dead_bytes row))).

Definition mark_placement_dead (placement : SegmentPlacementRow) : ST NodeCatalog unit :=
  st_modify (fun c => set_nc_placements
    (alter (fun pc => (pc.1, false)) (sp_segment_id placement) (nc_placements c)) c);;
  st_lift (u64_to_i64 (sp_data_log_id placement));;
  st_lift (u64_to_i64 (sp_payload_bytes placement));;
  st_modify (alter_log (sp_data_log_id placement) (fun row =>
    mkLogManifestRow (lg_state row) (lg_total_bytes row)
      (Z.max (lg_live_bytes row - sp_payload_bytes placement) 0)
      (lg_dead_bytes row + sp_payload_bytes placement))).

(** The rows of one node: manifests, seals and placements. *)
Definition persist_manifests_of (node : StorageNodeId) (appended : PendingDataLogAppend)
    : ST NodeCatalog unit :=
  st_for persist_data_log_manifest
    (List.filter (fun m => pm_storage_node m =? node) (log_iter (pa_logs appended)).*2);;
  st_for seal_data_log_manifest
    (List.filter (fun r => lr_storage_node r =? node) (pa_sealed_logs appended)).

Definition persist_placements_of (node : StorageNodeId) (appended : PendingDataLogAppend)
    : ST NodeCatalog unit :=
  st_for persist_segment_placement
    (List.filter (fun p => sp_storage_node p =? node) (pa_placements appended)).
