(* ===== verification/LogSpec.v ===== *)
(** * The data logs keep what was placed in them

    The invariant [store_ok] of the data logs: every current placement names a
    record that is complete and synced in the file of a log that is not deleted,
    and the live bytes of a log are at least those of its current placements.
    Appending grows files and places the given payloads; syncing makes them
    durable; a crash keeps the invariant and every payload. *)

From S2P Require Import Prelude Api Object Provider Config SegmentStore Codec DataLog LogStore.

(** ** Records in files *)

Section placed.
Context `{Crc32cCrate}.

(** The contents of a file hold the record of a placement with this payload. *)
Definition placed (content : list Z) (p : SegmentPlacementRow) (bytes : list Z) : Prop :=
  exists pre post,
    content = pre ++ encoded_record (sp_segment_id p) (sp_integrity p) bytes ++ post /\
    sp_record_offset p = Z.of_nat (length pre) /\
    sp_record_bytes p = DATA_LOG_HEADER_LEN + Z.of_nat (length bytes) /\
    sp_payload_bytes p = Z.of_nat (length bytes) /\
    record_typed (sp_segment_id p) (sp_integrity p) /\
    verify_segment_payload_integrity (sp_integrity p) bytes = Ok tt /\
    sp_record_bytes p < U64_MOD.

Lemma placed_prefix content content' p bytes :
  content `prefix_of` content' -> placed content p bytes -> placed content' p bytes.
Proof.
  intros [suf ->] (pre & post & -> & Hrest). exists pre, (post ++ suf). by rewrite <-!app_assoc.
Qed.

Lemma placed_read s p f bytes :
  ls_files s !! placement_ref p = Some f -> placed (lf_bytes f) p bytes ->
  read_segment_payload s p = Ok bytes.
Proof.
  intros Hf (pre & post & Hc & Hoff & Hrec & Hpay & Hty & Hver & Hlt). unfold read_segment_payload.
  rewrite Hf. cbn [ok_or mbind Result_bind]. pose proof (encoded_record_length (sp_segment_id p) (sp_integrity p) bytes) as Hel.
  rewrite (proj2 (Z.ltb_ge _ _)); cycle 1.
  { rewrite Hc, !length_app. lia. }
  cbn [reject_if mbind Result_bind]. rewrite Hc, slice_mid by lia. rewrite decode_encoded by (done || lia).
  rewrite Hver. cbn [mbind Result_bind ld_segment_id ld_bytes ld_integrity].
  rewrite Z.eqb_refl, Hpay, Z.eqb_refl, bool_decide_true by done. done.
Qed.

Lemma placed_within content p bytes :
  placed content p bytes -> sp_record_offset p + sp_record_bytes p <= Z.of_nat (length content).
Proof.
  intros (pre & post & -> & Hoff & Hrec & _). pose proof (encoded_record_length (sp_segment_id p) (sp_integrity p) bytes).
  rewrite !length_app. lia.
Qed.
End placed.

(** ** Growing files *)

(** A file that only grew: bytes are appended, more of them are synced, and the
    directory entry stays. *)
Definition file_grows (f f' : LogFile) : Prop :=
  lf_bytes f `prefix_of` lf_bytes f' /\ lf_synced f <= lf_synced f' /\
  (lf_linked f = true -> lf_linked f' = true).

Definition synced_ok (f : LogFile) : Prop := 0 <= lf_synced f <= Z.of_nat (length (lf_bytes f)).
Definition synced_bytes (f : LogFile) : list Z := take (Z.to_nat (lf_synced f)) (lf_bytes f).

(** The store changed in its files only, and they grew. *)
Record grows (s s' : LogStore) : Prop := mkGrows {
  gr_files : forall r f, ls_files s !! r = Some f ->
    exists f', ls_files s' !! r = Some f' /\ file_grows f f';
  gr_catalogs : ls_catalogs s' = ls_catalogs s;
  gr_policy : ls_policy s' = ls_policy s;
  gr_cursor : ls_cursor s' = ls_cursor s;
  gr_synced : map_Forall (fun _ f => synced_ok f) (ls_files s) ->
    map_Forall (fun _ f => synced_ok f) (ls_files s');
}.

#[export] Instance file_grows_preorder : PreOrder file_grows.
Proof.
  split.
  - intros f. by split.
  - intros f g h (A1 & A2 & A3) (B1 & B2 & B3). split; [by etrans|split; [lia|auto]].
Qed.

#[export] Instance grows_preorder : PreOrder grows.
Proof.
  split.
  - intros s. split; try done. intros r f Hf. by exists f.
  - intros s1 s2 s3 [A1 A2 A3 A4 A5] [B1 B2 B3 B4 B5]. split; try congruence; [|auto].
    intros r f Hf. destruct (A1 r f Hf) as (g & Hg & Hfg). destruct (B1 r g Hg) as (h & Hh & Hgh).
    exists h. split; [done|by etrans].
Qed.

Lemma synced_bytes_prefix f g : file_grows f g -> synced_bytes f `prefix_of` synced_bytes g.
Proof.
  unfold synced_bytes. intros ([suf ->] & Hs & _). rewrite take_app.
  assert (Z.to_nat (lf_synced f) <= Z.to_nat (lf_synced g))%nat by lia.
  destruct (le_lt_dec (Z.to_nat (lf_synced g)) (length (lf_bytes f))).
  - exists (drop (Z.to_nat (lf_synced f)) (take (Z.to_nat (lf_synced g)) (lf_bytes f)) ++
      take (Z.to_nat (lf_synced g) - length (lf_bytes f)) suf).
    rewrite app_assoc. f_equal. rewrite <-(take_drop (Z.to_nat (lf_synced f)) (take (Z.to_nat (lf_synced g)) (lf_bytes f))) at 1.
    f_equal. rewrite take_take. f_equal. lia.
  - rewrite (take_ge (lf_bytes f) (Z.to_nat (lf_synced g))) by lia. apply prefix_app_r, prefix_take.
Qed.

Lemma synced_bytes_le f : synced_bytes f `prefix_of` lf_bytes f.
Proof. apply prefix_take. Qed.

(** One file changed. *)
Lemma grows_alter s r g :
  (forall f, file_grows f (g f) /\ (synced_ok f -> synced_ok (g f))) ->
  grows s (set_ls_files (alter g r (ls_files s)) s).
Proof.
  intros Hg. split; try done; cbn [set_ls_files ls_files].
  - intros r' f Hf. destruct (decide (r = r')) as [<-|Hne].
    + exists (g f). rewrite lookup_alter_eq, Hf. split; [done|apply Hg].
    + exists f. by rewrite lookup_alter_ne.
  - intros Hall r' f. rewrite lookup_alter_Some. intros [(-> & f' & Hf' & ->)|[_ Hf']]; [|by eapply Hall].
    apply Hg. by eapply Hall.
Qed.

Lemma create_file_grows r s : grows s (create_file r s).
Proof.
  unfold create_file. destruct (ls_files s !! r) as [f|] eqn:E; [reflexivity|].
  split; try done; cbn [set_ls_files ls_files].
  - intros r' f Hf. exists f. rewrite lookup_insert_ne by congruence. by split.
  - intros Hall. apply map_Forall_insert_2; [|done]. by split.
Qed.
Lemma append_file_grows r record s : grows s (append_file r record s).
Proof.
  apply grows_alter. intros f. unfold file_grows, synced_ok. cbn. rewrite length_app.
  split; [|lia]. split; [by apply prefix_app_r|by split].
Qed.
Lemma sync_file_grows r s :
  map_Forall (fun _ f => synced_ok f) (ls_files s) -> grows s (sync_file r s).
Proof.
  intros Hall. split; try done; cbn [sync_file set_ls_files ls_files].
  - intros r' f Hf. destruct (decide (r = r')) as [<-|Hne].
    + rewrite lookup_alter_eq, Hf. eexists. split; [done|]. apply Hall in Hf as [_ Hs]. by split.
    + exists f. by rewrite lookup_alter_ne.
  - intros _ r' f. rewrite lookup_alter_Some. intros [(-> & f' & Hf' & ->)|[_ Hf']]; [|by eapply Hall].
    split; cbn; lia.
Qed.
Lemma sync_dir_grows node s : grows s (sync_dir node s).
Proof.
  split; try done; cbn [sync_dir set_ls_files ls_files].
  - intros r f Hf. rewrite map_lookup_imap, Hf. cbn. eexists. split; [done|].
    unfold file_grows. cbn. split; [done|split; [done|]]. by intros ->.
  - intros Hall r f. rewrite map_lookup_imap. destruct (ls_files s !! r) as [g|] eqn:E; [|done].
    cbn. intros [= <-]. by apply (Hall r g).
Qed.

(** What the two kinds of syncing make of a file. *)
Lemma sync_file_lookup r s f :
  ls_files s !! r = Some f ->
  ls_files (sync_file r s) !! r = Some (mkLogFile (lf_bytes f) (Z.of_nat (length (lf_bytes f))) (lf_linked f)).
Proof. intros Hf. cbn. by rewrite lookup_alter_eq, Hf. Qed.
Lemma sync_dir_lookup node s r f :
  ls_files s !! r = Some f ->
  ls_files (sync_dir node s) !! r =
    Some (mkLogFile (lf_bytes f) (lf_synced f) (lf_linked f || (lr_storage_node r =? node))).
Proof. intros Hf. cbn. by rewrite map_lookup_imap, Hf. Qed.

(** Syncing changes no bytes. *)
Definition same_bytes (s s' : LogStore) : Prop :=
  forall r, lf_bytes <$> ls_files s' !! r = lf_bytes <$> ls_files s !! r.
#[export] Instance same_bytes_preorder : PreOrder same_bytes.
Proof. split; [by intros s r|]. intros s1 s2 s3 H1 H2 r. by rewrite H2. Qed.
Lemma sync_file_same r s : same_bytes s (sync_file r s).
Proof.
  intros r'. cbn. destruct (decide (r = r')) as [<-|Hne]; [|by rewrite lookup_alter_ne].
  rewrite lookup_alter_eq. by destruct (ls_files s !! r).
Qed.
Lemma sync_dir_same node s : same_bytes s (sync_dir node s).
Proof. intros r. cbn. rewrite map_lookup_imap. by destruct (ls_files s !! r). Qed.

Section syncs.
Implicit Types files : list DurableDataLogRef.

Lemma sync_files_run files s :
  map_Forall (fun _ f => synced_ok f) (ls_files s) ->
  let s' := fold_left (fun s r => sync_file r s) files s in
  grows s s' /\ same_bytes s s' /\
  forall r f, r ∈ files -> ls_files s' !! r = Some f -> lf_synced f = Z.of_nat (length (lf_bytes f)).
Proof.
  revert s. induction files as [|r files IH]; intros s Hok; cbn [fold_left].
  { split; [reflexivity|split; [reflexivity|]]. by intros r f ?%not_elem_of_nil. }
  pose proof (sync_file_grows r s Hok) as G. destruct (IH (sync_file r s)) as (G' & B' & Hs).
  { by apply (gr_synced _ _ G). }
  split; [by etrans|split; [etrans; [apply sync_file_same|done]|]]. intros r' f [->|Hin]%elem_of_cons Hf; [|by eapply Hs].
  destruct (decide (r ∈ files)); [by eapply Hs|].
  assert (Hkeep : forall l s0 f, r ∉ l -> ls_files (fold_left (fun s r => sync_file r s) l s0) !! r = Some f ->
    ls_files s0 !! r = Some f).
  { clear. induction l as [|x l IH]; intros s0 f Hn Hf; [done|]. cbn [fold_left] in Hf.
    apply not_elem_of_cons in Hn as [Hne Hn]. apply IH in Hf; [|done]. cbn in Hf. by rewrite lookup_alter_ne in Hf. }
  apply Hkeep in Hf; [|done]. cbn in Hf. rewrite lookup_alter_eq in Hf.
  destruct (ls_files s !! r); [|done]. by injection Hf as <-.
Qed.

Lemma sync_dirs_run (nodes : list StorageNodeId) s :
  let s' := fold_left (fun s node => sync_dir node s) nodes s in
  grows s s' /\ same_bytes s s' /\
  (forall r f f', ls_files s !! r = Some f -> ls_files s' !! r = Some f' ->
     lf_synced f' = lf_synced f /\ (lr_storage_node r ∈ nodes -> lf_linked f' = true)).
Proof.
  revert s. induction nodes as [|node nodes IH]; intros s; cbn [fold_left].
  { split; [reflexivity|split; [reflexivity|]]. intros r f f' -> [= <-]. split; [done|by intros ?%not_elem_of_nil]. }
  destruct (IH (sync_dir node s)) as (G' & B' & Hs).
  split; [etrans; [apply sync_dir_grows|done]|split; [etrans; [apply sync_dir_same|done]|]].
  intros r f f' Hf Hf'. pose proof (sync_dir_lookup node s r f Hf) as Hf1.
  destruct (Hs r _ f' Hf1 Hf') as [Hsy Hln]. split; [done|]. intros [Heq|Hin]%elem_of_cons; [|by apply Hln].
  destruct (gr_files _ _ G' r _ Hf1) as (f2 & Hf2 & _ & _ & Hl). assert (f2 = f') as <- by congruence.
  apply Hl. cbn. rewrite Heq, Z.eqb_refl. apply orb_true_r.
Qed.
End syncs.

(** ** The invariant *)

(** The bytes of the current placements of a log. *)
Definition live_of (log : Z) (pc : SegmentPlacementRow * bool) : Z :=
  if pc.2 && (sp_data_log_id pc.1 =? log) then sp_payload_bytes pc.1 else 0.
Definition live_in (ps : gmap SegmentId (SegmentPlacementRow * bool)) (log : Z) : Z :=
  map_fold (fun _ pc acc => live_of log pc + acc) 0 ps.

Section invariant.
Context `{Crc32cCrate}.

Record node_ok (files : gmap DurableDataLogRef LogFile) (node : StorageNodeId) (c : NodeCatalog)
    : Prop := mkNodeOk {
  nk_placed : forall id p, nc_placements c !! id = Some (p, true) ->
    sp_segment_id p = id /\ sp_storage_node p = node /\ 0 < sp_payload_bytes p /\
    (exists row, nc_data_logs c !! sp_data_log_id p = Some row /\ lg_state row <> "deleted") /\
    exists f bytes, files !! placement_ref p = Some f /\ lf_linked f = true /\
      placed (synced_bytes f) p bytes;
  nk_rows : forall log row, nc_data_logs c !! log = Some row -> lg_state row <> "deleted" ->
    exists f, files !! mkLogRef node log = Some f /\ lf_linked f = true /\
      lg_total_bytes row <= lf_synced f;
  nk_live : forall log row, nc_data_logs c !! log = Some row ->
    live_in (nc_placements c) log <= lg_live_bytes row;
}.

Record store_ok (s : LogStore) : Prop := mkStoreOk {
  so_synced : map_Forall (fun _ f => synced_ok f) (ls_files s);
  so_nodes : forall node c, ls_catalogs s !! node = Some c -> node_ok (ls_files s) node c;
}.

(** The payload of a segment of a node, as its placement and the file give it. *)
Definition segment_payload (s : LogStore) (node : StorageNodeId) (id : SegmentId) : Result (list Z) :=
  c ← ok_or (ls_catalogs s !! node) (not_found "storage_node_catalog" node);
  p ← placement_for_segment_on_node c id;
  read_segment_payload s p.

Definition same_payloads (s s' : LogStore) : Prop :=
  forall node id, segment_payload s' node id = segment_payload s node id.

#[export] Instance same_payloads_preorder : PreOrder same_payloads.
Proof. split; [by intros s node id|]. intros s1 s2 s3 H1 H2 node id. by rewrite H2. Qed.

Lemma live_in_delete ps id pc log :
  ps !! id = Some pc -> live_in ps log = live_of log pc + live_in (delete id ps) log.
Proof.
  intros Hid. unfold live_in. rewrite <-(insert_delete_id ps id pc Hid) at 1.
  rewrite (map_fold_insert_L (fun _ pc acc => live_of log pc + acc)); [done| |by rewrite lookup_delete_eq].
  intros. lia.
Qed.
Lemma live_in_insert ps id pc log :
  live_in (<[id := pc]> ps) log = live_of log pc + live_in (delete id ps) log.
Proof. rewrite (live_in_delete _ id pc) by apply lookup_insert_eq. by rewrite delete_insert_eq. Qed.

Definition payloads_pos (ps : gmap SegmentId (SegmentPlacementRow * bool)) : Prop :=
  forall id p, ps !! id = Some (p, true) -> 0 < sp_payload_bytes p.

Lemma live_in_nonneg ps log : payloads_pos ps -> 0 <= live_in ps log.
Proof.
  unfold live_in. induction ps as [|id [p cur] ps Hid IH] using map_ind; intros Hpos.
  { by rewrite map_fold_empty. }
  rewrite map_fold_insert_L; [|intros; lia|done].
  assert (0 <= live_of log (p, cur)).
  { unfold live_of. destruct cur; cbn; [|lia]. case_match; [|lia].
    specialize (Hpos id p). rewrite lookup_insert_eq in Hpos. by specialize (Hpos eq_refl); lia. }
  assert (payloads_pos ps); [|specialize (IH ltac:(done)); lia].
  intros id' p' Hp. apply (Hpos id'). rewrite lookup_insert_ne; [done|]. congruence.
Qed.
Lemma payloads_pos_delete ps id : payloads_pos ps -> payloads_pos (delete id ps).
Proof. intros Hpos id' p [_ Hp]%lookup_delete_Some. by apply (Hpos id'). Qed.

Lemma node_ok_pos files node c : node_ok files node c -> payloads_pos (nc_placements c).
Proof. intros Hok id p Hp. by apply (nk_placed _ _ _ Hok id p Hp). Qed.

(** A log without live bytes has no current placement. *)
Lemma live_zero files node c log row id p :
  node_ok files node c -> nc_data_logs c !! log = Some row -> lg_live_bytes row = 0 ->
  nc_placements c !! id = Some (p, true) -> sp_data_log_id p <> log.
Proof.
  intros Hok Hrow Hz Hp Heq. pose proof (nk_live _ _ _ Hok log row Hrow) as Hl.
  pose proof (node_ok_pos _ _ _ Hok) as Hpos. rewrite (live_in_delete _ id (p, true)) in Hl by done.
  pose proof (live_in_nonneg (delete id (nc_placements c)) log (payloads_pos_delete _ id Hpos)).
  specialize (Hpos id p Hp). unfold live_of in Hl. cbn in Hl. rewrite Heq, Z.eqb_refl in Hl. lia.
Qed.

Lemma node_ok_grows s s' node c :
  grows s s' -> node_ok (ls_files s) node c -> node_ok (ls_files s') node c.
Proof.
  intros G [P R L]. split; [| |done].
  - intros id p Hp. destruct (P id p Hp) as (H1 & H2 & H3 & H4 & f & bytes & Hf & Hl & Hpl).
    destruct (gr_files _ _ G _ _ Hf) as (f' & Hf' & Hg). conj_split; try done. exists f', bytes.
    split; [done|]. split; [by apply Hg|]. eapply placed_prefix; [by apply synced_bytes_prefix|done].
  - intros log row Hrow Hst. destruct (R log row Hrow Hst) as (f & Hf & Hl & Ht).
    destruct (gr_files _ _ G _ _ Hf) as (f' & Hf' & Hg). exists f'. split; [done|].
    destruct Hg as (_ & Hg & Hl'). split; [by apply Hl'|lia].
Qed.

Lemma store_ok_grows s s' : grows s s' -> store_ok s -> store_ok s'.
Proof.
  intros G [Hs Hn]. split; [by apply (gr_synced _ _ G)|]. intros node c. rewrite (gr_catalogs _ _ G). intros Hc.
  eapply node_ok_grows; [done|by apply Hn].
Qed.

Lemma current_payload s node c id p :
  store_ok s -> ls_catalogs s !! node = Some c -> nc_placements c !! id = Some (p, true) ->
  exists f bytes, ls_files s !! placement_ref p = Some f /\ placed (synced_bytes f) p bytes /\
    segment_payload s node id = Ok bytes /\ read_segment_payload s p = Ok bytes.
Proof.
  intros [_ Hn] Hc Hp. destruct (nk_placed _ _ _ (Hn node c Hc) id p Hp) as (_ & _ & _ & _ & f & bytes & Hf & _ & Hpl).
  exists f, bytes. assert (Hread : read_segment_payload s p = Ok bytes).
  { eapply placed_read; [done|]. eapply placed_prefix; [apply synced_bytes_le|done]. }
  split; [done|split; [done|split; [|done]]]. unfold segment_payload, placement_for_segment_on_node.
  rewrite Hc. cbn [ok_or mbind Result_bind]. rewrite Hp. done.
Qed.

Lemma grows_same_payloads s s' : store_ok s -> grows s s' -> same_payloads s s'.
Proof.
  intros Hok G node id. unfold segment_payload, placement_for_segment_on_node. rewrite (gr_catalogs _ _ G).
  destruct (ls_catalogs s !! node) as [c|] eqn:Hc; [|done]. cbn [ok_or mbind Result_bind].
  destruct (nc_placements c !! id) as [[p [|]]|] eqn:Hp; [|done|done]. cbn [mbind Result_bind].
  destruct (current_payload s node c id p Hok Hc Hp) as (f & bytes & Hf & Hpl & _ & ->).
  destruct (gr_files _ _ G _ _ Hf) as (f' & Hf' & Hg). eapply placed_read; [done|].
  eapply placed_prefix; [|done]. etrans; [by apply synced_bytes_le|]. apply Hg.
Qed.
End invariant.

(** ** Appending *)

Lemma fold_max_ge l a : a <= fold_left Z.max l a /\ forall x, x ∈ l -> x <= fold_left Z.max l a.
Proof.
  revert a. induction l as [|y l IH]; intros a; cbn [fold_left]; [by split; [lia|intros x ?%not_elem_of_nil]|].
  destruct (IH (Z.max a y)) as [H1 H2]. split; [lia|]. intros x [->|Hx]%elem_of_cons; [lia|by apply H2].
Qed.
Lemma fs_max_ge (l : list DurableDataLogRef) node a :
  let m := fold_left (fun max_id r => if lr_storage_node r =? node then Z.max max_id (lr_log_id r) else max_id) l a in
  a <= m /\ forall r, r ∈ l -> lr_storage_node r = node -> lr_log_id r <= m.
Proof.
  revert a. induction l as [|y l IH]; intros a; cbn [fold_left]; [by split; [lia|intros x ?%not_elem_of_nil]|].
  destruct (IH (if lr_storage_node y =? node then Z.max a (lr_log_id y) else a)) as [H1 H2].
  split; [case_match; lia|]. intros r [->|Hr]%elem_of_cons Hn; [|by apply H2]. rewrite Hn, Z.eqb_refl in H1 |- *. lia.
Qed.

Lemma max_by_key_elem {A} (key : A -> Z) l x : max_by_key key l = Some x -> x ∈ l.
Proof.
  unfold max_by_key. cut (forall best, fold_left (fun best x => match best with
    | Some b => if key b <=? key x then Some x else best | None => Some x end) l best = Some x ->
    x ∈ l \/ best = Some x).
  { intros Hc E. by destruct (Hc None E). }
  induction l as [|y l IH]; intros best E; [by right|]. cbn [fold_left] in E. destruct (IH _ E) as [Hx|Hx].
  - left. by right.
  - destruct best as [b|]; [case_match|]; simplify_eq; first [by left; left|by right].
Qed.

Section appending.
Context `{Crc32cCrate}.

(** A log that a writer of generic records may append to: its row, if there is
    one, is active. *)
Definition open_ok (s : LogStore) (r : DurableDataLogRef) : Prop :=
  exists c, ls_catalogs s !! lr_storage_node r = Some c /\
    forall row, nc_data_logs c !! lr_log_id r = Some row -> lg_state row = GENERIC_DATA_LOG_STATE_ACTIVE.

(** Where a log that is appended to comes from: it is new, or has a row, or the
    pending append names it. *)
Definition known (s0 : LogStore) (pb : option PendingDataLogAppend) (r : DurableDataLogRef) : Prop :=
  ls_files s0 !! r = None \/
  (exists c row, ls_catalogs s0 !! lr_storage_node r = Some c /\ nc_data_logs c !! lr_log_id r = Some row) \/
  (exists pend, pb = Some pend /\ is_Some (pa_logs pend !! r)).

Definition row_ready (s0 : LogStore) (pb : option PendingDataLogAppend) (s : LogStore)
    (node : StorageNodeId) (row : DataLogRow) : Prop :=
  known s0 pb (mkLogRef node (dr_log_id row)) /\
  open_ok s (mkLogRef node (dr_log_id row)) /\
  dr_total_bytes row = default 0 (file_len s (mkLogRef node (dr_log_id row))).

(** The records of a pending append are in their files. *)
Record pending_ok (s : LogStore) (pa : PendingDataLogAppend) : Prop := mkPendingOk {
  pk_logs : forall r m, pa_logs pa !! r = Some m ->
    pm_storage_node m = lr_storage_node r /\ pm_log_id m = lr_log_id r /\
    pm_state m = GENERIC_DATA_LOG_STATE_ACTIVE /\ open_ok s r /\
    exists f, ls_files s !! r = Some f /\ pm_total_bytes m <= Z.of_nat (length (lf_bytes f));
  pk_placed : forall p, p ∈ pa_placements pa ->
    is_Some (pa_logs pa !! placement_ref p) /\
    exists f bytes, ls_files s !! placement_ref p = Some f /\ placed (lf_bytes f) p bytes;
}.

(** The payload can be written as a record and read back. *)
Definition payload_ok (seg : DurableSegmentPayload) : Prop :=
  record_typed (dp_segment_id seg) (dp_integrity seg) /\
  verify_segment_payload_integrity (dp_integrity seg) (dp_bytes seg) = Ok tt.

Definition seg_placed (s : LogStore) (seg : DurableSegmentPayload) (p : SegmentPlacementRow) : Prop :=
  sp_segment_id p = dp_segment_id seg /\ sp_storage_node p = dp_storage_node seg /\
  sp_integrity p = dp_integrity seg /\
  exists f, ls_files s !! placement_ref p = Some f /\ placed (lf_bytes f) p (dp_bytes seg).

Lemma open_ok_grows s s' r : grows s s' -> open_ok s r -> open_ok s' r.
Proof. intros G. unfold open_ok. by rewrite (gr_catalogs _ _ G). Qed.
Lemma placed_grows s s' r f p bytes :
  grows s s' -> ls_files s !! r = Some f -> placed (lf_bytes f) p bytes ->
  exists f', ls_files s' !! r = Some f' /\ placed (lf_bytes f') p bytes.
Proof.
  intros G Hf Hp. destruct (gr_files _ _ G _ _ Hf) as (f' & Hf' & Hg). exists f'. split; [done|].
  eapply placed_prefix; [apply Hg|done].
Qed.
Lemma seg_placed_grows s s' seg p : grows s s' -> seg_placed s seg p -> seg_placed s' seg p.
Proof.
  intros G (H1 & H2 & H3 & f & Hf & Hp). do 3 (split; [done|]). by eapply placed_grows.
Qed.
Lemma pending_ok_grows s s' pa : grows s s' -> pending_ok s pa -> pending_ok s' pa.
Proof.
  intros G [L P]. split.
  - intros r m Hm. destruct (L r m Hm) as (H1 & H2 & H3 & H4 & f & Hf & Ht). conj_split; try done.
    { by eapply open_ok_grows. }
    destruct (gr_files _ _ G _ _ Hf) as (f' & Hf' & Hg & _). exists f'. split; [done|].
    apply prefix_length in Hg. lia.
  - intros p Hp. destruct (P p Hp) as (H1 & f & bytes & Hf & Hpl). split; [done|].
    destruct (placed_grows _ _ _ _ _ _ G Hf Hpl) as (f' & ? & ?). by exists f', bytes.
Qed.
Lemma pending_ok_default s : pending_ok s PendingDataLogAppend_default.
Proof. split; [done|]. by intros p ?%not_elem_of_nil. Qed.

(** *** Choosing the log *)

Lemma next_data_log_id_fresh c files node floor id :
  next_data_log_id c files node floor = Ok id ->
  nc_data_logs c !! id = None /\ files !! mkLogRef node id = None.
Proof.
  unfold next_data_log_id, fs_data_log_max_id. intros [Hlt ->]%ok_or_Ok%checked_add_Some.
  destruct (fold_max_ge (bt_keys (nc_data_logs c)) 0) as [_ Hdb].
  destruct (fs_max_ge (map_to_list files).*1 node 0) as [_ Hfs]. cbv zeta in Hfs.
  set (m := fold_left _ (map_to_list files).*1 0) in *. split.
  - apply eq_None_not_Some. intros [row Hrow]. specialize (Hdb _ (proj2 (elem_of_bt_keys _ _) (ex_intro _ row Hrow))). lia.
  - apply eq_None_not_Some. intros [f Hf].
    assert (Hin : mkLogRef node (Z.max (Z.max (fold_left Z.max (bt_keys (nc_data_logs c)) 0) m) floor + 1) ∈
      (map_to_list files).*1).
    { apply list_elem_of_fmap. eexists (_, f). split; [done|]. by apply elem_of_map_to_list. }
    specialize (Hfs _ Hin eq_refl). cbn in Hfs. lia.
Qed.

Lemma grows_new s s' r : grows s s' -> ls_files s' !! r = None -> ls_files s !! r = None.
Proof.
  intros G Hr. destruct (ls_files s !! r) as [f|] eqn:Hf; [|done].
  destruct (gr_files _ _ G _ _ Hf) as (f' & Hf' & _). congruence.
Qed.

Lemma fresh_ready s0 pb s node c id total live dead :
  grows s0 s -> ls_catalogs s !! node = Some c -> nc_data_logs c !! id = None ->
  ls_files s !! mkLogRef node id = None -> total = 0 ->
  row_ready s0 pb s node (mkDataLogRow node id total live dead).
Proof.
  intros G Hc Hid Hf ->. split; [left; by eapply grows_new|split].
  - exists c. split; [done|]. cbn. intros row Hr. congruence.
  - unfold file_len. cbn. by rewrite Hf.
Qed.

Lemma elem_of_log_iter {V} (m : gmap DurableDataLogRef V) kv : kv ∈ log_iter m <-> m !! kv.1 = Some kv.2.
Proof. unfold log_iter. rewrite sort_by_tuple_perm. destruct kv. apply elem_of_map_to_list. Qed.

Lemma pending_active_ready s0 s pend node row :
  let pb := Some pend in
  pending_ok s pend ->
  active_log_for_node pend node (file_len s) GENERIC_DATA_LOG_STATE_ACTIVE = Some row ->
  row_ready s0 pb s node row.
Proof.
  intros pb Hok Hr. unfold active_log_for_node in Hr. apply bind_Some in Hr as ([r m] & Hm & [= <-]).
  apply max_by_key_elem, list_elem_of_In, List.filter_In in Hm as [Hin Hcond].
  apply list_elem_of_In, elem_of_log_iter in Hin. cbn [fst snd] in *. bool_prop.
  destruct (pk_logs _ _ Hok r m Hin) as (_ & _ & _ & Ho & f & Hf & Ht). destruct r as [n l]. cbn in *. simplify_eq.
  split; [|split; [done|]].
  { right. right. exists pend. split; [done|]. cbn. by rewrite Hin. }
  unfold file_len. cbn. rewrite Hf. cbn. lia.
Qed.

Lemma catalog_active_ready s0 pb s node c row :
  grows s0 s -> store_ok s -> ls_catalogs s !! node = Some c ->
  active_data_log_with_state c (ls_files s) node GENERIC_DATA_LOG_STATE_ACTIVE = Ok row ->
  row_ready s0 pb s node row.
Proof.
  intros G Hok Hc. unfold active_data_log_with_state. destruct (last _) as [[log_id mrow]|] eqn:El.
  - apply last_Some_elem_of, list_elem_of_In, List.filter_In in El as [Hin Hst].
    apply list_elem_of_In, elem_of_bt_iter in Hin. cbn in Hst. apply String.eqb_eq in Hst.
    destruct (nk_rows _ _ _ (so_nodes _ Hok node c Hc) log_id mrow Hin) as (f & Hf & _ & Ht); [by rewrite Hst|].
    pose proof (so_synced _ Hok _ _ Hf) as [_ Hsy]. rewrite Hf. intros [= <-]. cbn. split; [|split].
    + right. left. exists c, mrow. by rewrite <-(gr_catalogs _ _ G).
    + exists c. split; [done|]. cbn. intros row Hr. congruence.
    + unfold file_len. cbn. rewrite Hf. cbn. lia.
  - intros (id & Hid & [= <-])%bind_Ok. apply next_data_log_id_fresh in Hid as [H1 H2]. by eapply fresh_ready.
Qed.

Lemma active_log_of_run s0 s pb node loop :
  grows s0 s -> store_ok s -> (forall pend, pb = Some pend -> pending_ok s pend) ->
  (forall row, al_active loop !! node = Some row -> row_ready s0 pb s node row) ->
  st_run (active_log_of pb GENERIC_DATA_LOG_STATE_ACTIVE node loop) s
    (fun row s' => s' = s /\ row_ready s0 pb s node row) (fun s' => s' = s).
Proof.
  intros G Hok Hpb Hact. unfold active_log_of. destruct (al_active loop !! node) as [row|]; [st_step; auto|].
  do 2 st_step. destruct (pb ≫= _) as [row|] eqn:Epb.
  { st_step. split; [done|]. destruct pb as [pend|]; [|done]. cbn in Epb. by eapply pending_active_ready; eauto. }
  st_step. unfold node_catalog. st_step; [|done]. rename select (ok_or _ _ = _) into Hc. apply ok_or_Ok in Hc.
  st_step; [|done]. split; [done|]. by eapply catalog_active_ready.
Qed.

Lemma roll_log_run s0 pb s node record_len row append :
  grows s0 s -> row_ready s0 pb s node row ->
  st_run (roll_log node record_len row append) s
    (fun '(row', append') s' => s' = s /\ row_ready s0 pb s node row' /\
       pa_placements append' = pa_placements append /\ pa_logs append' = pa_logs append)
    (fun s' => s' = s).
Proof.
  intros G Hr. unfold roll_log, node_catalog. case_match; [by st_step|]. do 2 st_step; [|done]. do 2 st_step.
  case_match; [|by st_step]. do 2 st_step; [|done]. rename select (ok_or _ _ = _) into Hc. apply ok_or_Ok in Hc.
  do 2 st_step; [|done]. rename select (next_data_log _ _ _ _ = _) into Hn.
  unfold next_data_log in Hn. apply bind_Ok in Hn as (id & Hid & [= <-]).
  apply next_data_log_id_fresh in Hid as [Hn1 Hn2]. st_step. conj_split; try done. by eapply fresh_ready.
Qed.

(** What the sync at the end will reach. *)
Definition will_sync (loop : AppendLoop) (r : DurableDataLogRef) : Prop :=
  r ∈ al_files loop \/ exists b, al_open loop = Some (r, b).

Record opened (mode : DataLogSyncMode) (s : LogStore) (r : DurableDataLogRef) (row : DataLogRow)
    (loop : AppendLoop) (row' : DataLogRow) (loop' : AppendLoop) (s' : LogStore) : Prop := mkOpened {
  op_grows : grows s s';
  op_log : dr_log_id row' = dr_log_id row;
  op_file : exists f, ls_files s' !! r = Some f /\ dr_total_bytes row' = Z.of_nat (length (lf_bytes f));
  op_other : forall r', r' <> r -> ls_files s' !! r' = ls_files s !! r';
  op_same : forall f, ls_files s !! r = Some f -> ls_files s' !! r = Some f;
  op_open : exists b, al_open loop' = Some (r, b);
  op_active : al_active loop' = al_active loop;
  op_append : al_append loop' = al_append loop;
  op_sync : mode = Sync -> forall x, will_sync loop x -> will_sync loop' x;
  op_dirs : al_dirs loop ⊆ al_dirs loop';
  op_new : ls_files s !! r = None -> lr_storage_node r ∈ al_dirs loop';
}.

Lemma create_file_lookup r s :
  ls_files (create_file r s) !! r = Some (default (mkLogFile [] 0 false) (ls_files s !! r)).
Proof.
  unfold create_file. destruct (ls_files s !! r) eqn:E; [done|]. cbn. by rewrite lookup_insert_eq.
Qed.
Lemma create_file_other r r' s : r' <> r -> ls_files (create_file r s) !! r' = ls_files s !! r'.
Proof. intros. unfold create_file. case_match; [done|]. cbn. by rewrite lookup_insert_ne. Qed.

Lemma open_new_log_run mode s r row loop files :
  dr_total_bytes row = default 0 (file_len s r) ->
  (mode = Sync -> forall x, will_sync loop x -> x ∈ files) ->
  st_run (open_new_log mode r row loop files) s
    (fun '(row', loop', b) s' => opened mode s r row loop row' loop' s') (fun s' => s' = s).
Proof.
  intros Hrow Hfiles. unfold open_new_log. do 6 st_step.
  set (f := default (mkLogFile [] 0 false) (ls_files s !! r)).
  assert (Hf : ls_files (create_file r s) !! r = Some f) by apply create_file_lookup.
  assert (Hlen : default 0 (file_len s r) = Z.of_nat (length (lf_bytes f))).
  { unfold file_len. subst f. by destruct (ls_files s !! r). }
  split.
  - apply create_file_grows.
  - done.
  - exists f. split; [done|]. cbn. rewrite Hrow, Hlen. unfold file_len. rewrite Hf. cbn. lia.
  - intros r' Hne. by apply create_file_other.
  - intros f' Hf'. rewrite Hf. subst f. by rewrite Hf'.
  - by eexists.
  - done.
  - done.
  - intros Hm x Hx. left. by apply Hfiles.
  - cbn. case_match; set_solver.
  - intros Hn. cbn. rewrite bool_decide_false by (rewrite Hn; apply is_Some_None). set_solver.
Qed.

Lemma open_log_run mode s0 pb s node row loop :
  let r := mkLogRef node (dr_log_id row) in
  row_ready s0 pb s node row ->
  (forall x b, al_open loop = Some (x, b) -> is_Some (ls_files s !! x)) ->
  st_run (open_log mode r row loop) s
    (fun '(row', loop', b) s' => opened mode s r row loop row' loop' s') (fun s' => s' = s).
Proof.
  intros r (_ & _ & Hrow) Hopen. unfold open_log. destruct (al_open loop) as [[x b]|] eqn:Eo.
  - case_bool_decide as Hx.
    + subst x. st_step. destruct (Hopen r b eq_refl) as [f Hf]. split; try done.
      * exists f. split; [done|]. subst r. rewrite Hrow. unfold file_len. by rewrite Hf.
      * by exists b.
      * congruence.
    + apply open_new_log_run; [done|]. intros -> y [Hy|[b' Hb']]; cbn; [set_solver|]. simplify_eq. set_solver.
  - apply open_new_log_run; [done|]. intros -> y [Hy|[b' Hb']]; [done|congruence].
Qed.
End appending.

(** *** The loop *)

Section append_loop.
Context `{Crc32cCrate}.

Record loop_ok (mode : DataLogSyncMode) (pb : option PendingDataLogAppend) (s0 : LogStore) (done : list DurableSegmentPayload)
    (loop : AppendLoop) (s : LogStore) : Prop := mkLoopOk {
  lo_grows : grows s0 s;
  lo_active : forall node row, al_active loop !! node = Some row -> row_ready s0 pb s node row;
  lo_open : forall x b, al_open loop = Some (x, b) -> is_Some (ls_files s !! x);
  lo_pending : pending_ok s (al_append loop);
  lo_done : Forall2 (seg_placed s) done (pa_placements (al_append loop));
  lo_known : forall r, is_Some (pa_logs (al_append loop) !! r) -> known s0 pb r;
  lo_nodes : forall r, is_Some (pa_logs (al_append loop) !! r) ->
    exists seg, seg ∈ done /\ dp_storage_node seg = lr_storage_node r;
  lo_sync : mode = Sync -> forall r, is_Some (pa_logs (al_append loop) !! r) -> will_sync loop r;
  lo_dirs : forall r, is_Some (ls_files s !! r) -> ls_files s0 !! r = None ->
    lr_storage_node r ∈ al_dirs loop;
  lo_frame : forall r, pa_logs (al_append loop) !! r = None ->
    lf_bytes <$> ls_files s !! r = lf_bytes <$> ls_files s0 !! r;
}.

Lemma append_file_lookup r record s f :
  ls_files s !! r = Some f ->
  ls_files (append_file r record s) !! r =
    Some (mkLogFile (lf_bytes f ++ record) (lf_synced f) (lf_linked f)).
Proof. intros Hf. cbn. by rewrite lookup_alter_eq, Hf. Qed.
Lemma append_file_other r record s r' :
  r' <> r -> ls_files (append_file r record s) !! r' = ls_files s !! r'.
Proof. intros. cbn. by rewrite lookup_alter_ne. Qed.

(** A file that is not the one written stays ready. *)
Lemma row_ready_other s0 pb s s' r node row :
  grows s s' -> (forall r', r' <> r -> ls_files s' !! r' = ls_files s !! r') ->
  node <> lr_storage_node r -> row_ready s0 pb s node row -> row_ready s0 pb s' node row.
Proof.
  intros G Hoth Hne (Hk & Ho & Ht). split; [done|]. split; [by eapply open_ok_grows|]. rewrite Ht. unfold file_len.
  rewrite Hoth; [done|]. intros <-. by apply Hne.
Qed.

(** The record of a segment at the end of a file. *)
Lemma placed_at_end seg f log payload_offset :
  payload_ok seg -> DATA_LOG_HEADER_LEN + Z.of_nat (length (dp_bytes seg)) < U64_MOD ->
  placed (lf_bytes f ++ encoded_record (dp_segment_id seg) (dp_integrity seg) (dp_bytes seg))
    (mkPlacementRow (dp_segment_id seg) (dp_storage_node seg) log (Z.of_nat (length (lf_bytes f)))
      (DATA_LOG_HEADER_LEN + Z.of_nat (length (dp_bytes seg))) payload_offset
      (Z.of_nat (length (dp_bytes seg))) (dp_integrity seg)) (dp_bytes seg).
Proof.
  intros [Hty Hver] Hlt. exists (lf_bytes f), []. cbn. by rewrite app_nil_r.
Qed.

Lemma pending_ok_add s pa r m p f bytes sealed :
  pending_ok s pa -> pm_storage_node m = lr_storage_node r -> pm_log_id m = lr_log_id r ->
  pm_state m = GENERIC_DATA_LOG_STATE_ACTIVE -> open_ok s r -> ls_files s !! r = Some f ->
  pm_total_bytes m <= Z.of_nat (length (lf_bytes f)) -> placement_ref p = r -> placed (lf_bytes f) p bytes ->
  pending_ok s (mkPendingAppend (pa_placements pa ++ [p]) (<[r := m]> (pa_logs pa)) sealed).
Proof.
  intros [L P] H1 H2 H3 H4 Hf Ht Hr Hp. split; cbn.
  - intros r' m' [[<- <-]|[Hne Hm']]%lookup_insert_Some; [|by apply L]. conj_split; try done. by exists f.
  - intros p' [Hp'|Hp']%elem_of_app; [|apply list_elem_of_singleton in Hp'; subst p'].
    + destruct (P p' Hp') as [Hs Hpl]. split; [|done]. apply lookup_insert_is_Some'. by right.
    + rewrite Hr, lookup_insert_eq. split; [done|]. by exists f, bytes.
Qed.

Lemma appended_loop_ok mode pb s0 done loop s seg row row' loop' s1 append payload_offset b :
  let r := mkLogRef (dp_storage_node seg) (dr_log_id row) in
  let len := DATA_LOG_HEADER_LEN + Z.of_nat (length (dp_bytes seg)) in
  let total := dr_total_bytes row' + len in
  loop_ok mode pb s0 done loop s -> payload_ok seg -> len < U64_MOD -> known s0 pb r -> open_ok s r ->
  opened mode s r row loop row' loop' s1 ->
  pa_placements append = pa_placements (al_append loop) -> pa_logs append = pa_logs (al_append loop) ->
  loop_ok mode pb s0 (done ++ [seg])
    (mkAppendLoop (<[dp_storage_node seg := set_dr_total_bytes total row']> (al_active loop'))
      (al_open loop') (al_files loop') (al_dirs loop')
      (mkPendingAppend
        (pa_placements append ++ [mkPlacementRow (dp_segment_id seg) (dp_storage_node seg) (dr_log_id row')
          (dr_total_bytes row') len payload_offset (Z.of_nat (length (dp_bytes seg))) (dp_integrity seg)])
        (<[r := mkManifest (dp_storage_node seg) (dr_log_id row') GENERIC_DATA_LOG_STATE_ACTIVE total b]>
          (pa_logs append)) (pa_sealed_logs append)))
    (append_file r (encoded_record (dp_segment_id seg) (dp_integrity seg) (dp_bytes seg)) s1).
Proof.
  intros r len total HI Hseg Hlen Hk Ho O Epl Elg.
  destruct O as [G1 Elog (f & Hf & Htot) Hother Hsame [b' Hopen] Eact Eapp Hsync Hdirs Hnew].
  set (record := encoded_record _ _ _). set (s2 := append_file r record s1).
  set (f2 := mkLogFile (lf_bytes f ++ record) (lf_synced f) (lf_linked f)).
  assert (Hf2 : ls_files s2 !! r = Some f2) by by apply append_file_lookup.
  assert (G2 : grows s s2) by (etrans; [done|apply append_file_grows]).
  assert (Hoth2 : forall r', r' <> r -> ls_files s2 !! r' = ls_files s !! r').
  { intros r' Hne. subst s2. rewrite append_file_other by done. by apply Hother. }
  assert (Hlen2 : Z.of_nat (length (lf_bytes f2)) = total).
  { subst f2 total record. cbn [lf_bytes]. rewrite length_app, Nat2Z.inj_add, encoded_record_length. lia. }
  assert (Hplaced := placed_at_end seg f (dr_log_id row') payload_offset Hseg Hlen).
  split; cbn [al_active al_open al_files al_dirs al_append pa_logs pa_placements].
  - etrans; [apply (lo_grows _ _ _ _ _ _ HI)|done].
  - rewrite Eact. intros node row2 [[<- <-]|[Hne Hr2]]%lookup_insert_Some.
    + split; [|split]; cbn [dr_log_id dr_total_bytes set_dr_total_bytes]; rewrite Elog; [done|by eapply open_ok_grows|]. unfold file_len. fold r. by rewrite Hf2, <-Hlen2.
    + eapply (row_ready_other _ _ s _ r); [done|done|by cbn; congruence|]. by apply (lo_active _ _ _ _ _ _ HI).
  - rewrite Hopen. intros x b2 [= <- <-]. by rewrite Hf2.
  - rewrite Epl, Elg. eapply pending_ok_add with (f := f2); try done.
    + by eapply pending_ok_grows, (lo_pending _ _ _ _ _ _ HI).
    + by eapply open_ok_grows.
    + cbn [pm_total_bytes]. lia.
    + unfold placement_ref. cbn [sp_storage_node sp_data_log_id]. by rewrite Elog.
    + rewrite Htot. exact Hplaced.
  - rewrite Epl. apply Forall2_app.
    + eapply Forall2_impl; [apply (lo_done _ _ _ _ _ _ HI)|]. intros x p. by apply seg_placed_grows.
    + constructor; [|done]. do 3 (split; [done|]). exists f2. unfold placement_ref. cbn [sp_storage_node sp_data_log_id]. rewrite Elog.
      split; [done|]. rewrite Htot. exact Hplaced.
  - rewrite Elg. intros x [->|Hx]%lookup_insert_is_Some'; [done|]. by apply (lo_known _ _ _ _ _ _ HI).
  - rewrite Elg. intros x [<-|Hx]%lookup_insert_is_Some'; [exists seg; split; [apply elem_of_app; right; by left|done]|].
    destruct (lo_nodes _ _ _ _ _ _ HI x Hx) as (seg' & Hin & Heq). exists seg'.
    split; [apply elem_of_app; by left|done].
  - rewrite Elg. intros Hm x [->|Hx]%lookup_insert_is_Some'; unfold will_sync; cbn.
    + right. by exists b'.
    + by apply (Hsync Hm), (lo_sync _ _ _ _ _ _ HI).
  - intros r' Hr' H0. destruct (decide (r' = r)) as [->|Hne].
    + destruct (ls_files s !! r) as [g|] eqn:Es; [|by apply Hnew]. apply Hdirs, (lo_dirs _ _ _ _ _ _ HI); [by rewrite Es|done].
    + rewrite Hoth2 in Hr' by done. by apply Hdirs, (lo_dirs _ _ _ _ _ _ HI).
  - rewrite Elg. intros x [Hx Hne]%lookup_insert_None. rewrite Hoth2 by done. by apply (lo_frame _ _ _ _ _ _ HI).
Qed.

Lemma append_segment_run mode pb s0 done loop s seg :
  store_ok s0 -> (forall pend, pb = Some pend -> pending_ok s0 pend) -> payload_ok seg ->
  loop_ok mode pb s0 done loop s ->
  st_run (append_segment mode pb GENERIC_DATA_LOG_STATE_ACTIVE loop seg) s
    (fun loop' s' => loop_ok mode pb s0 (done ++ [seg]) loop' s') (fun s' => grows s0 s').
Proof.
  intros Hok Hpb Hseg HI. pose proof (lo_grows _ _ _ _ _ _ HI) as G. unfold append_segment.
  st_step. eapply st_run_mono; [apply active_log_of_run; [done|..]| |by intros ? ->].
  { by eapply store_ok_grows. }
  { intros pend ->. eapply pending_ok_grows; [done|by apply Hpb]. }
  { apply (lo_active _ _ _ _ _ _ HI). }
  intros row ? [-> Hready]. do 2 st_step; [|done]. rename select (len_u64 _ _ = _) into Hlen.
  apply len_u64_Ok in Hlen as [-> _]. do 2 st_step; [|done]. rename select (ok_or _ _ = _) into Hrec.
  apply ok_or_Ok, checked_add_Some in Hrec as [Hrec ->].
  st_step. eapply st_run_mono; [by apply roll_log_run| |by intros ? ->].
  intros [row' append'] ? (-> & Hready' & Happ & Hlogs).
  st_step. eapply st_run_mono; [by eapply open_log_run, (lo_open _ _ _ _ _ _ HI)| |by intros ? ->].
  intros [[row'' loop'] b] s1 O. pose proof (op_grows _ _ _ _ _ _ _ _ O) as G1.
  do 2 st_step; [|by etrans]. rename select (encode_data_log_record _ _ _ = _) into Henc.
  apply encode_data_log_record_run in Henc as [_ ->]. do 2 st_step.
  set (r := mkLogRef (dp_storage_node seg) (dr_log_id row')) in *.
  set (record := encoded_record _ _ _). set (s2 := append_file r record s1).
  assert (G2 : grows s1 s2) by apply append_file_grows.
  do 2 st_step; [|by do 2 (etrans; [done|])]. do 2 st_step; [|by do 2 (etrans; [done|])].
  rename select (ok_or (checked_add _ _ (_ + _)) _ = _) into Hnew. apply ok_or_Ok, checked_add_Some in Hnew as [_ ->].
  st_step. eapply appended_loop_ok; [done|done|done|apply Hready'|apply Hready'|done|done|done].
Qed.
End append_loop.

(** *** The whole append *)

Section append_all.
Context `{Crc32cCrate}.

(** Every byte of the logs of a pending append is synced, and so are their
    directory entries. *)
Definition logs_synced (s : LogStore) (pa : PendingDataLogAppend) : Prop :=
  forall r, is_Some (pa_logs pa !! r) -> exists f, ls_files s !! r = Some f /\
    lf_synced f = Z.of_nat (length (lf_bytes f)) /\ lf_linked f = true.

(** The same, but for the directory entries of the logs of [base]. *)
Definition synced_but (base : gmap DurableDataLogRef PendingDataLogManifest) (s : LogStore)
    (pa : PendingDataLogAppend) : Prop :=
  forall r, is_Some (pa_logs pa !! r) -> exists f, ls_files s !! r = Some f /\
    lf_synced f = Z.of_nat (length (lf_bytes f)) /\ (lf_linked f = true \/ is_Some (base !! r)).

Definition base_logs (pb : option PendingDataLogAppend) : gmap DurableDataLogRef PendingDataLogManifest :=
  match pb with Some pend => pa_logs pend | None => ∅ end.

Lemma synced_but_none s pa : synced_but ∅ s pa -> logs_synced s pa.
Proof. intros Hs r Hr. destruct (Hs r Hr) as (f & ? & ? & [?|[? ?]]); [|done]. by exists f. Qed.

(** What an append of [segs] leaves. *)
Record appended (mode : DataLogSyncMode) (pb : option PendingDataLogAppend) (s : LogStore)
    (segs : list DurableSegmentPayload) (pa : PendingDataLogAppend) (s' : LogStore) : Prop := mkAppended {
  ap_grows : grows s s';
  ap_pending : pending_ok s' pa;
  ap_placed : Forall2 (seg_placed s') segs (pa_placements pa);
  ap_nodes : forall r, is_Some (pa_logs pa !! r) ->
    exists seg, seg ∈ segs /\ dp_storage_node seg = lr_storage_node r;
  ap_sync : mode = Sync -> synced_but (base_logs pb) s' pa;
  ap_frame : forall r, pa_logs pa !! r = None -> lf_bytes <$> ls_files s' !! r = lf_bytes <$> ls_files s !! r;
}.

Lemma same_bytes_seg s s' seg p : same_bytes s s' -> seg_placed s seg p -> seg_placed s' seg p.
Proof.
  intros B (H1 & H2 & H3 & f & Hf & Hp). do 3 (split; [done|]). specialize (B (placement_ref p)).
  rewrite Hf in B. destruct (ls_files s' !! placement_ref p) as [f'|]; [|done]. cbn in B. injection B as B.
  exists f'. by rewrite B.
Qed.

Lemma known_linked s pb r f :
  store_ok s -> known s pb r -> open_ok s r -> ls_files s !! r = Some f ->
  lf_linked f = true \/ is_Some (base_logs pb !! r).
Proof.
  intros Hok [Hn|[(c & row & Hc & Hrow)|(pend & -> & Hp)]] (c' & Hc' & Hact) Hf; [congruence| |by right].
  left. assert (c' = c) as -> by congruence.
  destruct (nk_rows _ _ _ (so_nodes _ Hok _ _ Hc) _ _ Hrow) as (f' & Hf' & Hl & _); [by rewrite (Hact _ Hrow)|].
  destruct r as [node log]. cbn in Hf'. congruence.
Qed.

(** The syncs at the end of an append. *)
Lemma appended_synced pb s segs loop s1 files :
  store_ok s -> loop_ok Sync pb s segs loop s1 -> (forall r, will_sync loop r -> r ∈ files) ->
  appended Sync pb s segs (al_append loop)
    (fold_left (fun s node => sync_dir node s) (bs_iter (al_dirs loop)) (fold_left (fun s r => sync_file r s) files s1)).
Proof.
  intros Hok HI Hfiles. pose proof (lo_grows _ _ _ _ _ _ HI) as G. pose proof (store_ok_grows _ _ G Hok) as Hok1.
  destruct (sync_files_run files s1 (so_synced _ Hok1)) as (G2 & B2 & S2). set (s2 := fold_left _ files s1) in *.
  destruct (sync_dirs_run (bs_iter (al_dirs loop)) s2) as (G3 & B3 & S3). set (s3 := fold_left _ _ s2) in *.
  assert (G23 : grows s1 s3) by (etrans; done).
  assert (B23 : same_bytes s1 s3) by (etrans; done). split.
  - by etrans.
  - by eapply pending_ok_grows, (lo_pending _ _ _ _ _ _ HI).
  - eapply Forall2_impl; [apply (lo_done _ _ _ _ _ _ HI)|]. intros seg p. by apply same_bytes_seg.
  - apply (lo_nodes _ _ _ _ _ _ HI).
  - intros _ r Hr. destruct Hr as [m Hm].
    destruct (pk_logs _ _ (lo_pending _ _ _ _ _ _ HI) r m Hm) as (_ & _ & _ & Ho & f1 & Hf1 & _).
    destruct (gr_files _ _ G2 _ _ Hf1) as (f2 & Hf2 & Hg2). destruct (gr_files _ _ G3 _ _ Hf2) as (f3 & Hf3 & Hg3).
    exists f3. split; [done|]. destruct (S3 r f2 f3 Hf2 Hf3) as [Hsy Hln].
    assert (Hb3 : lf_bytes f3 = lf_bytes f2).
    { specialize (B3 r). rewrite Hf2, Hf3 in B3. cbn in B3. congruence. }
    split.
    { rewrite Hsy, Hb3. apply (S2 r f2); [|done]. apply Hfiles, (lo_sync _ _ _ _ _ _ HI eq_refl). by eexists. }
    destruct (ls_files s !! r) as [f0|] eqn:Hf0.
    + destruct (gr_files _ _ G _ _ Hf0) as (f1' & Hf1' & _ & _ & Hl1). assert (f1' = f1) as -> by congruence.
      destruct (known_linked s pb r f0) as [Hl|Hb]; [done|by apply (lo_known _ _ _ _ _ _ HI); eexists| |done| |by right].
      * unfold open_ok in *. by rewrite <-(gr_catalogs _ _ G).
      * left. by apply Hg3, Hg2, Hl1.
    + left. apply Hln, elem_of_bs_iter, (lo_dirs _ _ _ _ _ _ HI); [by rewrite Hf1|done].
  - intros r Hr. rewrite (B23 r). by apply (lo_frame _ _ _ _ _ _ HI).
Qed.

Lemma append_segments_run mode pb segs s :
  store_ok s -> (forall pend, pb = Some pend -> pending_ok s pend) -> Forall payload_ok segs ->
  st_run (append_segments segs mode pb) s (fun pa s' => appended mode pb s segs pa s') (fun s' => grows s s').
Proof.
  intros Hok Hpb Hsegs. unfold append_segments, append_segments_with_state. case_bool_decide as Hnil.
  { st_step. subst segs. split; try done; [apply pending_ok_default|by intros r [? ?]|]. intros _ r [? ?]. done. }
  st_step. eapply st_run_mono with (E := grows s).
  { apply (st_run_fold _ (fun done loop s' => loop_ok mode pb s done loop s')).
    - split; cbn; try done; try reflexivity; [apply pending_ok_default|by intros r [? ?]|by intros r [? ?]|by intros _ r [? ?]|].
      intros r Hr Hn. rewrite Hn in Hr. by destruct Hr.
    - intros done seg rest loop s' -> HI. apply append_segment_run; try done.
      apply Forall_app in Hsegs as [_ [Hseg _]%Forall_cons]. done. }
  2: done.
  intros loop s1 HI. destruct mode; cbn [is_sync]; cycle 1.
  { do 3 st_step. destruct HI. by split. }
  pose proof (lo_grows _ _ _ _ _ _ HI) as G. st_step. cbv zeta. do 2 st_step.
  unfold sync_data_log_files_with_fanout. do 3 st_step; [|done].
  set (files := match al_open loop with Some (r, _) => _ | None => _ end). do 3 st_step.
  apply appended_synced; [done|done|]. intros r Hr. subst files. destruct Hr as [Hin|[b Hopen]].
  - case_match; [case_match; set_solver|done].
  - rewrite Hopen. set_solver.
Qed.
End append_all.

(** ** Transactions *)

Lemma st_run_node_catalog node c s (Q : NodeCatalog -> LogStore -> Prop) E :
  ls_catalogs s !! node = Some c -> Q c s -> st_run (node_catalog node) s Q E.
Proof. intros Hc HQ. unfold st_run, node_catalog, st_ask. by rewrite Hc. Qed.

Lemma st_run_tx {A} node c (body : ST NodeCatalog A) s (Q : A -> LogStore -> Prop) (E : LogStore -> Prop) :
  ls_catalogs s !! node = Some c ->
  st_run body c (fun a c' => Q a (set_ls_catalogs (<[node := c']> (ls_catalogs s)) s)) (fun _ => E s) ->
  st_run (node_tx node body) s Q E.
Proof.
  intros Hc Hb. unfold node_tx. apply st_run_bind. eapply st_run_node_catalog; [done|].
  unfold st_run in Hb. destruct (body c) as [[a|e] c'].
  - apply st_run_bind, st_run_modify. by apply st_run_ret.
  - by apply st_run_lift.
Qed.
