(* ===== verification/Maintenance.v ===== *)
(** * Maintenance of the data logs ([local/durable/policy.rs],
    [local/durable/maintenance.rs], [local/durable/sqlite.rs])

    Dead records are reclaimed by compaction: the live payloads of a sealed log
    are copied to the active log, their placements are moved in one transaction,
    and the file is removed.  [MaintenanceScheduler] chooses the logs of a tick
    from an observation and decides on the admission of writes; a tick observes,
    plans, compacts and moves the fairness cursor; the background worker runs
    ticks until one has nothing to do. *)

From S2P Require Import Prelude Api Object Provider Config SegmentStore DataLog LogStore.

(** ** Policy *)

Inductive MaintenanceMode := Manual | Opportunistic | AlwaysOn.

Record MaintenancePolicy := mkMaintenancePolicy {
  mode : MaintenanceMode;
  data_log_policy : DurableDataLogPolicy;
  write_backpressure_enabled : bool;
  dirty_low_watermark_bytes : Z;
  dirty_high_watermark_bytes : Z;
  max_sealed_logs : Z;
  max_reclaimable_debt_bytes : Z;
  compaction_copy_budget_per_tick : Z;
  max_sqlite_wal_bytes : Z;
  max_logs_scanned_per_tick : Z;
  max_concurrent_compaction_jobs : Z;
}.

Definition MaintenancePolicy_default : MaintenancePolicy :=
  mkMaintenancePolicy Manual DataLogPolicy_default false (16 * 1024 * 1024) (128 * 1024 * 1024) 128
    (512 * 1024 * 1024) (32 * 1024 * 1024) (128 * 1024 * 1024) 16 1.

Definition MaintenancePolicy_validate (self : MaintenancePolicy) : Result unit :=
  DataLogPolicy_validate (data_log_policy self);;
  reject_if (dirty_high_watermark_bytes self <? dirty_low_watermark_bytes self)
    (InvalidArgument "dirty_low_watermark_bytes must be <= dirty_high_watermark_bytes");;
  reject_if (max_sealed_logs self =? 0) (InvalidArgument "max_sealed_logs must be greater than zero");;
  reject_if (max_reclaimable_debt_bytes self =? 0)
    (InvalidArgument "max_reclaimable_debt_bytes must be greater than zero");;
  reject_if (compaction_copy_budget_per_tick self =? 0)
    (InvalidArgument "compaction_copy_budget_per_tick must be greater than zero");;
  reject_if (max_sqlite_wal_bytes self =? 0)
    (InvalidArgument "max_sqlite_wal_bytes must be greater than zero");;
  reject_if (max_logs_scanned_per_tick self =? 0)
    (InvalidArgument "max_logs_scanned_per_tick must be greater than zero");;
  reject_if (negb (max_concurrent_compaction_jobs self =? 1))
    (Unsupported "local maintenance supports exactly one compaction executor").

Inductive WriteAdmission :=
| Accept
| AcceptAndSchedule
| Throttle (reason : string)
| Reject (reason : string).

Definition unavailable_reason (self : WriteAdmission) : option string :=
  match self with
  | Throttle reason | Reject reason => Some reason
  | Accept | AcceptAndSchedule => None
  end.

(** ** Observations *)

Record MaintenanceDataLogObservation := mkLogObservation {
  ob_log_ref : DurableDataLogRef;
  ob_total_bytes : Z;
  ob_live_bytes : Z;
  ob_dead_bytes : Z;
  ob_reclaimable_bytes : Z;
}.

Record MaintenanceNodeObservation := mkNodeObservation {
  on_storage_node : StorageNodeId;
  on_active_log_bytes : Z;
  on_sealed_log_count : Z;
  on_dirty_bytes : Z;
  on_reclaimable_bytes : Z;
  on_logs : list MaintenanceDataLogObservation;
}.

Record MaintenanceObservation := mkObservation {
  obs_nodes : list MaintenanceNodeObservation;
  obs_sqlite_wal_bytes : Z;
  obs_recent_write_bytes : Z;
  obs_recent_flushed_write_bytes : Z;
  obs_compaction_cursor : option DurableDataLogRef;
}.

(** The loop over the rows of a node. *)
Definition observe_log (node : StorageNodeId) (o : MaintenanceNodeObservation)
    (kv : Z * LogManifestRow) : MaintenanceNodeObservation :=
  let '(log_id, row) := kv in
  if String.eqb (lg_state row) GENERIC_DATA_LOG_STATE_ACTIVE || is_stream_data_log_state (lg_state row)
  then mkNodeObservation node (saturating_add U64_MOD (on_active_log_bytes o) (lg_total_bytes row))
    (on_sealed_log_count o) (on_dirty_bytes o) (on_reclaimable_bytes o) (on_logs o)
  else if negb (String.eqb (lg_state row) "sealed") then o
  else mkNodeObservation node (on_active_log_bytes o)
    (saturating_add U64_MOD (on_sealed_log_count o) 1)
    (saturating_add U64_MOD (on_dirty_bytes o) (lg_dead_bytes row))
    (saturating_add U64_MOD (on_reclaimable_bytes o) (lg_dead_bytes row))
    (on_logs o ++ [mkLogObservation (mkLogRef node log_id) (lg_total_bytes row) (lg_live_bytes row)
      (lg_dead_bytes row) (lg_dead_bytes row)]).

Definition observe_node (node : StorageNodeId) (conn : NodeCatalog) : MaintenanceNodeObservation :=
  fold_left (observe_log node)
    (List.filter (fun kv => negb (String.eqb (lg_state kv.2) "deleted")) (bt_iter (nc_data_logs conn)))
    (mkNodeObservation node 0 0 0 0 []).

(** [wal_bytes] is the size of SQLite's write-ahead logs, or zero when the
    policy does not ask for it. *)
Definition maintenance_observation (s : LogStore) (cursor : option DurableDataLogRef)
    (recent_write_bytes recent_flushed_write_bytes wal_bytes : Z) : MaintenanceObservation :=
  mkObservation ((fun '(node, conn) => observe_node node conn) <$> bt_iter (ls_catalogs s))
    wal_bytes recent_write_bytes recent_flushed_write_bytes cursor.

(** ** The scheduler *)

Record MaintenanceSkippedLog := mkSkippedLog {
  sk_log_ref : DurableDataLogRef;
  sk_reason : string;
}.

Record MaintenanceDiagnostics := mkDiagnostics {
  dg_dirty_bytes : Z;
  dg_reclaimable_bytes : Z;
  dg_sealed_log_count : Z;
  dg_sqlite_wal_bytes : Z;
  dg_selected_logs : list DurableDataLogRef;
  dg_skipped_logs : list MaintenanceSkippedLog;
  dg_throttle_reason : option string;
}.

(** [MaintenanceCommand::CompactDataLogs { logs }] *)
Inductive MaintenanceCommand := CompactDataLogs (logs : list DurableDataLogRef).

Record MaintenanceTickPlan := mkTickPlan {
  tp_admission : WriteAdmission;
  tp_commands : list MaintenanceCommand;
  tp_diagnostics : MaintenanceDiagnostics;
  tp_next_cursor : option DurableDataLogRef;
}.

Definition reclaimable_ratio (dead_bytes total_bytes : Z) : Z :=
  Z.min (U64_MOD - 1) (dead_bytes * 1000000) / total_bytes.

Section scheduler.
Variable policy : MaintenancePolicy.

Definition log_is_compaction_candidate (log : MaintenanceDataLogObservation) : bool :=
  if ob_total_bytes log =? 0 then false
  else if (ob_live_bytes log =? 0) && negb (ob_dead_bytes log =? 0) then true
  else (min_reclaimable_bytes (data_log_policy policy) <=? ob_dead_bytes log) &&
    (min_reclaimable_ratio_ppm (data_log_policy policy) <=?
      reclaimable_ratio (ob_dead_bytes log) (ob_total_bytes log)).

Definition admission (d : MaintenanceDiagnostics) : WriteAdmission :=
  if max_reclaimable_debt_bytes policy <? dg_reclaimable_bytes d
  then Reject "maintenance reclaimable debt exceeds hard limit"
  else if dirty_high_watermark_bytes policy <=? dg_dirty_bytes d
  then Throttle "maintenance dirty bytes above high watermark"
  else if max_sealed_logs policy <? dg_sealed_log_count d
  then Throttle "maintenance sealed log count above limit"
  else if max_sqlite_wal_bytes policy <? dg_sqlite_wal_bytes d
  then Throttle "maintenance SQLite WAL above limit"
  else if dirty_low_watermark_bytes policy <=? dg_dirty_bytes d then AcceptAndSchedule
  else Accept.

(** [candidate_logs.sort_by_key(log_ref)] and the rotation to the first log
    after the cursor. *)
Definition rotate_to_cursor (cursor : option DurableDataLogRef)
    (logs : list MaintenanceDataLogObservation) : list MaintenanceDataLogObservation :=
  match cursor with
  | None => logs
  | Some c =>
      match list_find (fun log => log_ref_ltb c (ob_log_ref log) = true) logs with
      | Some (index, _) => drop index logs ++ take index logs
      | None => logs
      end
  end.

(** The loop over the scanned candidates: the remaining budget, the selected
    logs and the skipped ones. *)
Definition select_step (acc : Z * list DurableDataLogRef * list MaintenanceSkippedLog)
    (log : MaintenanceDataLogObservation) : Z * list DurableDataLogRef * list MaintenanceSkippedLog :=
  let '(copy_budget, selected, skipped) := acc in
  if copy_budget <? ob_live_bytes log
  then (copy_budget, selected, skipped ++ [mkSkippedLog (ob_log_ref log) "copy_budget_exhausted"])
  else (saturating_sub copy_budget (ob_live_bytes log), selected ++ [ob_log_ref log], skipped).

Definition candidates_of (observation : MaintenanceObservation) : list MaintenanceDataLogObservation :=
  rotate_to_cursor (obs_compaction_cursor observation)
    (sort_by_tuple (fun log => log_ref_key (ob_log_ref log))
      (List.filter log_is_compaction_candidate (obs_nodes observation ≫= on_logs))).

Definition step (observation : MaintenanceObservation) : MaintenanceTickPlan :=
  let sum (f : MaintenanceNodeObservation -> Z) :=
    fold_left (fun acc node => saturating_add U64_MOD acc (f node)) (obs_nodes observation) 0 in
  let below := (fun log => mkSkippedLog (ob_log_ref log) "below_reclaim_threshold") <$>
    List.filter (fun log => negb (log_is_compaction_candidate log)) (obs_nodes observation ≫= on_logs) in
  let diagnostics := mkDiagnostics (sum on_dirty_bytes) (sum on_reclaimable_bytes)
    (sum on_sealed_log_count) (obs_sqlite_wal_bytes observation) [] below None in
  let adm := admission diagnostics in
  let '(_, selected, skipped) := fold_left select_step
    (take (Z.to_nat (max_logs_scanned_per_tick policy)) (candidates_of observation))
    (compaction_copy_budget_per_tick policy, [], below) in
  let next_cursor := match last selected with
                     | Some r => Some r
                     | None => obs_compaction_cursor observation
                     end in
  let commands := if bool_decide (selected = []) then [] else [CompactDataLogs selected] in
  mkTickPlan
    (match adm with
     | Accept => if bool_decide (commands = []) then Accept else AcceptAndSchedule
     | _ => adm
     end)
    commands
    (mkDiagnostics (dg_dirty_bytes diagnostics) (dg_reclaimable_bytes diagnostics)
      (dg_sealed_log_count diagnostics) (dg_sqlite_wal_bytes diagnostics) selected skipped
      (unavailable_reason adm))
    next_cursor.
End scheduler.

#[export] Instance MaintenanceCommand_eq_dec : EqDecision MaintenanceCommand.
Proof. solve_decision. Defined.

(** ** Compaction *)

(** The rows that a query [WHERE state = 'sealed'] finds with enough to reclaim. *)
Definition enough_reclaimable (policy : DurableDataLogPolicy) (row : DataLogRow) : bool :=
  (min_reclaimable_bytes policy <=? dr_dead_bytes row) &&
  (min_reclaimable_ratio_ppm policy <=? reclaimable_ratio (dr_dead_bytes row) (dr_total_bytes row)).

Definition compaction_candidates (s : LogStore) (policy : DurableDataLogPolicy) : list DataLogRow :=
  let rows := bt_iter (ls_catalogs s) ≫= fun '(node, conn) =>
    List.filter (fun row => negb (dr_total_bytes row =? 0) && enough_reclaimable policy row)
      ((fun kv => decode_node_data_log_row node kv.1 kv.2) <$>
        List.filter (fun kv => String.eqb (lg_state kv.2) "sealed") (bt_iter (nc_data_logs conn))) in
  sort_by_tuple (fun row => [- dr_dead_bytes row; dr_storage_node row; dr_log_id row]) rows.

Definition candidate_for_ref (s : LogStore) (policy : DurableDataLogPolicy) (r : DurableDataLogRef)
    : Result (option DataLogRow) :=
  conn ← ok_or (ls_catalogs s !! lr_storage_node r) (not_found "storage_node_catalog" (lr_storage_node r));
  u64_to_i64 (lr_log_id r);;
  Ok (row ← nc_data_logs conn !! lr_log_id r;
      if String.eqb (lg_state row) "sealed" then
        let row := decode_node_data_log_row (lr_storage_node r) (lr_log_id r) row in
        if dr_total_bytes row =? 0 then None
        else if (dr_live_bytes row =? 0) || enough_reclaimable policy row then Some row
        else None
      else None).

Definition compaction_candidates_for_refs (s : LogStore) (policy : DurableDataLogPolicy)
    (logs : list DurableDataLogRef) : Result (list DataLogRow) :=
  found ← try_map (candidate_for_ref s policy) logs;
  Ok (omap (fun row => row) (found : list (option DataLogRow))).

Record DurableCompactionReport := mkCompactionReport {
  cr_deleted_logs : list DurableDataLogRef;
  cr_relocated_logs : list DurableDataLogRef;
  cr_relocated_segments : list SegmentId;
  cr_bytes_copied : Z;
  cr_bytes_deleted : Z;
}.

Definition empty_compaction_report : DurableCompactionReport := mkCompactionReport [] [] [] 0 0.

Section compaction.
Context `{Crc32cCrate}.

(** A log without live bytes is removed. *)
Definition delete_dead_log (report : DurableCompactionReport) (log : DataLogRow)
    : ST LogStore DurableCompactionReport :=
  let log_ref := mkLogRef (dr_storage_node log) (dr_log_id log) in
  node_tx (dr_storage_node log)
    (st_lift (u64_to_i64 (dr_log_id log));;
     st_modify (alter_log (dr_log_id log) (fun row =>
       mkLogManifestRow "deleted" (lg_total_bytes row) (lg_live_bytes row) (lg_dead_bytes row))));;
  st_modify (delete_data_log log_ref);;
  bytes_deleted ← st_lift (ok_or (checked_add U64_MOD (cr_bytes_deleted report) (dr_total_bytes log))
    (Conflict "compaction byte count overflow"));
  mret (mkCompactionReport (cr_deleted_logs report ++ [log_ref]) (cr_relocated_logs report)
    (cr_relocated_segments report) (cr_bytes_copied report) bytes_deleted).

Definition payload_of_placement (placement : SegmentPlacementRow) : ST LogStore DurableSegmentPayload :=
  bytes ← st_ask (fun s => read_segment_payload s placement);
  mret (mkDurableSegmentPayload (sp_segment_id placement) (sp_storage_node placement)
    (sp_integrity placement) bytes).

(** The placements of the transaction, with the count of the copied bytes. *)
Definition relocate_placement (bytes_copied : Z) (placement : SegmentPlacementRow)
    : ST NodeCatalog Z :=
  persist_segment_placement placement;;
  st_lift (ok_or (checked_add U64_MOD bytes_copied (sp_payload_bytes placement))
    (Conflict "compaction byte count overflow")).

(** The statements of the transaction that moves the placements of a log. *)
Definition relocate_rows (log : DataLogRow) (placements : list SegmentPlacementRow)
    (appended : PendingDataLogAppend) (bytes_copied : Z) : ST NodeCatalog Z :=
  st_for persist_data_log_manifest (log_iter (pa_logs appended)).*2;;
  st_for seal_data_log_manifest (pa_sealed_logs appended);;
  st_for mark_placement_dead placements;;
  bytes_copied ← st_fold relocate_placement bytes_copied (pa_placements appended);
  st_lift (u64_to_i64 (dr_log_id log));;
  st_modify (alter_log (dr_log_id log) (fun row =>
    mkLogManifestRow "deleted" (lg_total_bytes row) 0 (lg_total_bytes row)));;
  mret bytes_copied.

Definition relocate_log (report : DurableCompactionReport) (log : DataLogRow)
    : ST LogStore DurableCompactionReport :=
  let log_ref := mkLogRef (dr_storage_node log) (dr_log_id log) in
  conn ← node_catalog (dr_storage_node log);
  st_lift (u64_to_i64 (dr_log_id log));;
  let placements := current_placements_for_log conn (dr_log_id log) in
  payloads ← st_map payload_of_placement placements;
  appended ← append_segments payloads Sync None;
  bytes_copied ← node_tx (dr_storage_node log)
    (relocate_rows log placements appended (cr_bytes_copied report));
  st_modify (delete_data_log log_ref);;
  bytes_deleted ← st_lift (ok_or (checked_add U64_MOD (cr_bytes_deleted report) (dr_total_bytes log))
    (Conflict "compaction byte count overflow"));
  mret (mkCompactionReport (cr_deleted_logs report) (cr_relocated_logs report ++ [log_ref])
    (cr_relocated_segments report ++ (sp_segment_id <$> pa_placements appended)) bytes_copied
    bytes_deleted).

(** One candidate. *)
Definition compact_log (policy : DurableDataLogPolicy) (report : DurableCompactionReport)
    (log : DataLogRow) : ST LogStore DurableCompactionReport :=
  if dr_live_bytes log =? 0 then delete_dead_log report log
  else
    bytes ← st_lift (ok_or (checked_add U64_MOD (cr_bytes_copied report) (dr_live_bytes log))
      (Conflict "compaction byte count overflow"));
    if max_compaction_copy_bytes policy <? bytes then mret report else relocate_log report log.

Definition compact_data_log_rows (policy : DurableDataLogPolicy) (candidates : list DataLogRow)
    : ST LogStore DurableCompactionReport :=
  st_fold (compact_log policy) empty_compaction_report candidates.

Definition compact_data_logs (policy : DurableDataLogPolicy) : ST LogStore DurableCompactionReport :=
  st_lift (DataLogPolicy_validate policy);;
  candidates ← st_gets (fun s => compaction_candidates s policy);
  compact_data_log_rows policy candidates.

Definition compact_data_log_refs (policy : DurableDataLogPolicy) (logs : list DurableDataLogRef)
    : ST LogStore DurableCompactionReport :=
  st_lift (DataLogPolicy_validate policy);;
  candidates ← st_ask (fun s => compaction_candidates_for_refs s policy logs);
  compact_data_log_rows policy candidates.
End compaction.

(** ** Ticks and the worker *)

(** [DurableMaintenanceParts]: the store, the cursor in memory and the policy. *)
Record DurableMaintenanceParts := mkMaintenanceParts {
  mp_durable : LogStore;
  mp_cursor : option DurableDataLogRef;
  mp_policy : MaintenancePolicy;
}.

Definition on_durable {A} (m : ST LogStore A) : ST DurableMaintenanceParts A :=
  fun parts => let '(r, s) := m (mp_durable parts) in
    (r, mkMaintenanceParts s (mp_cursor parts) (mp_policy parts)).

Record MaintenanceTickReport := mkTickReport {
  tr_plan : MaintenanceTickPlan;
  tr_compaction : DurableCompactionReport;
}.

Definition maintenance_tick_data_log_policy (policy : MaintenancePolicy) : DurableDataLogPolicy :=
  let p := data_log_policy policy in
  mkDataLogPolicy (target_data_log_bytes p) (file_sync_fanout p) (min_reclaimable_ratio_ppm p)
    (min_reclaimable_bytes p)
    (Z.min (max_compaction_copy_bytes p) (compaction_copy_budget_per_tick policy)).

Definition policy_uses_sqlite_wal_pressure (policy : MaintenancePolicy) : bool :=
  negb (max_sqlite_wal_bytes policy =? U64_MAX).

(** [INSERT INTO maintenance_state ...] *)
Definition persist_maintenance_cursor (cursor : option DurableDataLogRef) : ST LogStore unit :=
  match cursor with
  | Some c => st_lift (u64_to_i64 (lr_log_id c));; st_modify (set_ls_cursor cursor)
  | None => st_modify (set_ls_cursor None)
  end.

Section ticks.
Context `{Crc32cCrate}.

Definition run_command (compaction : DurableCompactionReport) (command : MaintenanceCommand)
    : ST DurableMaintenanceParts DurableCompactionReport :=
  let 'CompactDataLogs logs := command in
  policy ← st_gets mp_policy;
  report ← on_durable (compact_data_log_refs (maintenance_tick_data_log_policy policy) logs);
  bytes_copied ← st_lift (ok_or (checked_add U64_MOD (cr_bytes_copied compaction) (cr_bytes_copied report))
    (Conflict "maintenance bytes_copied overflow"));
  bytes_deleted ← st_lift (ok_or (checked_add U64_MOD (cr_bytes_deleted compaction) (cr_bytes_deleted report))
    (Conflict "maintenance bytes_deleted overflow"));
  mret (mkCompactionReport (cr_deleted_logs compaction ++ cr_deleted_logs report)
    (cr_relocated_logs compaction ++ cr_relocated_logs report)
    (cr_relocated_segments compaction ++ cr_relocated_segments report) bytes_copied bytes_deleted).

(** [wal_bytes] is the size of the write-ahead logs at the time of the tick. *)
Definition run_maintenance_tick_parts (recent_write_bytes recent_flushed_write_bytes wal_bytes : Z)
    : ST DurableMaintenanceParts MaintenanceTickReport :=
  parts ← st_get;
  st_lift (MaintenancePolicy_validate (mp_policy parts));;
  let cursor := mp_cursor parts in
  let observation := maintenance_observation (mp_durable parts) cursor recent_write_bytes
    recent_flushed_write_bytes
    (if policy_uses_sqlite_wal_pressure (mp_policy parts) then wal_bytes else 0) in
  let plan := step (mp_policy parts) observation in
  compaction ← st_fold run_command empty_compaction_report (tp_commands plan);
  (if bool_decide (tp_next_cursor plan = cursor) then mret tt
   else
     on_durable (persist_maintenance_cursor (tp_next_cursor plan));;
     st_modify (fun parts => mkMaintenanceParts (mp_durable parts) (tp_next_cursor plan)
       (mp_policy parts)));;
  mret (mkTickReport plan compaction).

(** The inner loop of [maintenance_worker_loop], for at most [fuel] ticks: how it
    ended, by a failed tick or by one without commands.  [wal n] is the size of
    the write-ahead logs at the tick that leaves [n]. *)
Fixpoint drain (wal : nat -> Z) (fuel : nat) (parts : DurableMaintenanceParts)
    : option (Result unit) * DurableMaintenanceParts :=
  match fuel with
  | O => (None, parts)
  | S fuel =>
      match run_maintenance_tick_parts 0 0 (wal fuel) parts with
      | (Ok report, parts') =>
          if bool_decide (tp_commands (tr_plan report) = []) then (Some (Ok tt), parts')
          else drain wal fuel parts'
      | (Err e, parts') => (Some (Err e), parts')
      end
  end.
End ticks.
