(* ===== verification/Compaction.v ===== *)
(** * Compaction reclaims logs and loses nothing

    The theory of [Maintenance].  A compaction, a maintenance tick and the
    background worker keep the invariant of the data logs and the payload of
    every segment, whatever fails and after a crash; every tick that has work
    removes a log with dead bytes, so the worker comes to rest. *)

From S2P Require Import Prelude Api Object Provider Config SegmentStore Codec DataLog LogStore.
From S2P Require Import LogSpec Maintenance.

(** ** Rows of a catalog *)

Section rows.
Context `{Crc32cCrate}.
Variables (files : gmap DurableDataLogRef LogFile) (node : StorageNodeId).

(** A file that can carry the row of a log up to [total] bytes. *)
Definition carries (log total : Z) : Prop :=
  exists f, files !! mkLogRef node log = Some f /\ lf_linked f = true /\ total <= lf_synced f.

(** A change of one row that leaves the placements alone. *)
Lemma node_ok_row c log row :
  node_ok files node c ->
  (lg_state row <> "deleted" -> carries log (lg_total_bytes row)) ->
  (lg_state row = "deleted" -> forall id p, nc_placements c !! id = Some (p, true) -> sp_data_log_id p <> log) ->
  live_in (nc_placements c) log <= lg_live_bytes row ->
  node_ok files node (set_nc_data_logs (<[log := row]> (nc_data_logs c)) c).
Proof.
  intros [P R L] Hc Hd Hl. split; cbn.
  - intros id p Hp. destruct (P id p Hp) as (H1 & H2 & H3 & (row0 & Hr0 & Hs0) & H5). conj_split; try done.
    destruct (decide (sp_data_log_id p = log)) as [E|E]; [|exists row0; by rewrite lookup_insert_ne].
    exists row. rewrite E, lookup_insert_eq. split; [done|]. intros Hst. by apply (Hd Hst id p Hp).
  - intros log' row' [[<- <-]|[_ Hr]]%lookup_insert_Some; [by apply Hc|by apply R].
  - intros log' row' [[<- <-]|[_ Hr]]%lookup_insert_Some; [done|by apply L].
Qed.

(** The live bytes of a log without current placements, and so of one without a row. *)
Lemma live_in_none ps log :
  (forall id p, ps !! id = Some (p, true) -> sp_data_log_id p <> log) -> live_in ps log = 0.
Proof.
  unfold live_in. induction ps as [|id [p cur] ps Hid IH] using map_ind; intros Hall; [done|].
  rewrite map_fold_insert_L; [|intros; lia|done]. rewrite IH.
  - unfold live_of. cbn. destruct cur; cbn; [|done]. rewrite (proj2 (Z.eqb_neq _ _)); [done|].
    apply (Hall id p). apply lookup_insert_eq.
  - intros id' p' Hp'. apply (Hall id'). rewrite lookup_insert_ne; [done|]. congruence.
Qed.
Lemma live_in_absent c log :
  node_ok files node c -> nc_data_logs c !! log = None -> live_in (nc_placements c) log = 0.
Proof.
  intros [P _ _] Hn. apply live_in_none. intros id p Hp E.
  destruct (P id p Hp) as (_ & _ & _ & (row & Hr & _) & _). congruence.
Qed.

(** What the statements on [data_logs] make of a catalog: the rows keep their
    live and dead bytes; states only move to [sealed], and new rows are clean. *)
Record rows_kept (c c' : NodeCatalog) : Prop := mkRowsKept {
  rk_placements : nc_placements c' = nc_placements c;
  rk_old : forall log row, nc_data_logs c !! log = Some row -> exists row',
    nc_data_logs c' !! log = Some row' /\ lg_live_bytes row' = lg_live_bytes row /\
    lg_dead_bytes row' = lg_dead_bytes row /\
    (lg_state row' = lg_state row \/ lg_state row <> "deleted" /\ lg_state row' = "sealed");
  rk_new : forall log row', nc_data_logs c !! log = None -> nc_data_logs c' !! log = Some row' ->
    lg_dead_bytes row' = 0 /\ lg_state row' <> "deleted";
}.

#[export] Instance rows_kept_preorder : PreOrder rows_kept.
Proof.
  split.
  - intros c. split; [done| |congruence]. intros log row Hr. exists row. conj_split; auto.
  - intros c1 c2 c3 [A1 A2 A3] [B1 B2 B3]. split; [congruence| |].
    + intros log row Hr. destruct (A2 log row Hr) as (row2 & Hr2 & L2 & D2 & S2).
      destruct (B2 log row2 Hr2) as (row3 & Hr3 & L3 & D3 & S3). exists row3. conj_split; [done|congruence..|].
      destruct S2 as [S2|[S2 S2']], S3 as [S3|[S3 S3']]; [left; congruence|right..]; split; congruence.
    + intros log row3 Hn Hr3. destruct (nc_data_logs c2 !! log) as [row2|] eqn:Hr2; [|by eapply B3].
      destruct (A3 log row2 Hn Hr2) as [D2 S2]. destruct (B2 log row2 Hr2) as (row3' & Hr3' & _ & D3 & S3).
      assert (row3' = row3) as -> by congruence. split; [congruence|].
      destruct S3 as [->|[_ ->]]; [done|]. discriminate.
Qed.

Lemma persist_manifest_run c m :
  node_ok files node c -> pm_state m = GENERIC_DATA_LOG_STATE_ACTIVE ->
  carries (pm_log_id m) (pm_total_bytes m) ->
  (forall row, nc_data_logs c !! pm_log_id m = Some row -> lg_state row = GENERIC_DATA_LOG_STATE_ACTIVE) ->
  st_run (persist_data_log_manifest m) c
    (fun _ c' => node_ok files node c' /\ rows_kept c c' /\
       (exists row, nc_data_logs c' !! pm_log_id m = Some row /\ lg_state row = GENERIC_DATA_LOG_STATE_ACTIVE) /\
       forall log, log <> pm_log_id m -> nc_data_logs c' !! log = nc_data_logs c !! log)
    (fun _ => True).
Proof.
  intros Hok Hst Hc Hact. unfold persist_data_log_manifest. rewrite Hst.
  change (is_stream_data_log_state GENERIC_DATA_LOG_STATE_ACTIVE) with false. cbv iota zeta.
  do 3 (do 2 st_step; [|done]). st_step. set (row := match nc_data_logs c !! _ with None => _ | Some _ => _ end).
  assert (Hrow : lg_state row = GENERIC_DATA_LOG_STATE_ACTIVE /\ carries (pm_log_id m) (lg_total_bytes row) /\
    live_in (nc_placements c) (pm_log_id m) <= lg_live_bytes row).
  { subst row. destruct (nc_data_logs c !! pm_log_id m) as [row0|] eqn:Hr; cbn.
    - destruct (nk_rows _ _ _ Hok _ _ Hr) as (f & Hf & Hl & Ht); [by rewrite (Hact _ eq_refl)|].
      split; [done|]. split; [|pose proof (nk_live _ _ _ Hok _ _ Hr); lia].
      destruct Hc as (f' & Hf' & _ & Ht'). exists f. split; [done|split; [done|]].
      assert (f' = f) as -> by congruence. lia.
    - split; [done|]. split; [done|]. by rewrite live_in_absent. }
  destruct Hrow as (Hs & Hca & Hli). split; [|split; [|split]].
  - apply node_ok_row; [done|done| |done]. rewrite Hs. discriminate.
  - split; [done|..]; cbn.
    + intros log row0 Hr0. destruct (decide (log = pm_log_id m)) as [->|Hne].
      * exists row. rewrite lookup_insert_eq. split; [done|]. subst row. rewrite Hr0. cbn.
        conj_split; [|done|left; by rewrite (Hact _ Hr0)].
        pose proof (nk_live _ _ _ Hok _ _ Hr0). pose proof (live_in_nonneg _ (pm_log_id m) (node_ok_pos _ _ _ Hok)). lia.
      * exists row0. rewrite lookup_insert_ne by done. auto.
    + intros log row' Hn. destruct (decide (log = pm_log_id m)) as [->|Hne].
      * rewrite lookup_insert_eq. intros [= <-]. split; [|rewrite Hs; discriminate]. subst row. by rewrite Hn.
      * rewrite lookup_insert_ne by done. congruence.
  - exists row. cbn. by rewrite lookup_insert_eq.
  - intros log Hne. cbn. by rewrite lookup_insert_ne.
Qed.

Lemma alter_log_cases log g c :
  (nc_data_logs c !! log = None /\ alter_log log g c = c) \/
  exists row, nc_data_logs c !! log = Some row /\
    alter_log log g c = set_nc_data_logs (<[log := g row]> (nc_data_logs c)) c.
Proof.
  unfold alter_log. destruct (nc_data_logs c !! log) as [row|] eqn:Hr.
  - right. exists row. split; [done|]. f_equal. apply map_eq. intros k. destruct (decide (k = log)) as [->|Hne].
    + by rewrite lookup_alter_eq, lookup_insert_eq, Hr.
    + by rewrite lookup_alter_ne, lookup_insert_ne by done.
  - left. split; [done|]. destruct c as [a logs b d]. unfold set_nc_data_logs. cbn in *. f_equal. apply map_eq. intros k.
    destruct (decide (k = log)) as [->|Hne]; [by rewrite lookup_alter_eq, Hr|by rewrite lookup_alter_ne].
Qed.

Lemma seal_manifest_run c r :
  node_ok files node c ->
  st_run (seal_data_log_manifest r) c
    (fun _ c' => node_ok files node c' /\ rows_kept c c') (fun _ => True).
Proof.
  intros Hok. unfold seal_data_log_manifest. do 2 st_step; [|done]. st_step. set (log := lr_log_id r).
  destruct (alter_log_cases log (fun row => if String.eqb (lg_state row) "deleted" then row
    else mkLogManifestRow "sealed" (lg_total_bytes row) (lg_live_bytes row) (lg_dead_bytes row)) c)
    as [[_ ->]|(row & Hr & ->)]; [split; [done|reflexivity]|].
  destruct (String.eqb_spec (lg_state row) "deleted") as [Hd|Hd].
  { rewrite insert_id by done. by destruct c. }
  split.
  - apply node_ok_row; cbn; [done| |discriminate|by apply (nk_live _ _ _ Hok)].
    intros _. destruct (nk_rows _ _ _ Hok _ _ Hr Hd) as (f & ? & ? & ?). by exists f.
  - split; cbn; [done|..].
    + intros log' row' Hr'. destruct (decide (log' = log)) as [->|Hne].
      * rewrite lookup_insert_eq. eexists. split; [done|]. assert (row' = row) as -> by congruence. cbn. auto.
      * exists row'. rewrite lookup_insert_ne by done. auto.
    + intros log' row' Hn. rewrite lookup_insert_ne; [congruence|]. congruence.
Qed.

(** Changes of the placements keep the states, and the dead bytes of all logs
    but those of [L]. *)
Record rows_of (L : Z -> Prop) (c c' : NodeCatalog) : Prop := mkRowsOf {
  ro_some : forall log row, nc_data_logs c !! log = Some row -> exists row',
    nc_data_logs c' !! log = Some row' /\ lg_state row' = lg_state row /\
    lg_total_bytes row' = lg_total_bytes row /\ (~ L log -> lg_dead_bytes row' = lg_dead_bytes row);
  ro_none : forall log, nc_data_logs c !! log = None -> nc_data_logs c' !! log = None;
}.

#[export] Instance rows_of_preorder L : PreOrder (rows_of L).
Proof.
  split.
  - intros c. split; [|done]. intros log row Hr. by exists row.
  - intros c1 c2 c3 [A1 A2] [B1 B2]. split; [|auto]. intros log row Hr.
    destruct (A1 log row Hr) as (row2 & Hr2 & S2 & T2 & D2). destruct (B1 log row2 Hr2) as (row3 & Hr3 & S3 & T3 & D3).
    exists row3. conj_split; [done|congruence..|]. intros Hne. rewrite D3, D2; done.
Qed.

Lemma rows_of_mono (L L' : Z -> Prop) c c' : (forall log, L log -> L' log) -> rows_of L c c' -> rows_of L' c c'.
Proof.
  intros HL [A1 A2]. split; [|done]. intros log row Hr. destruct (A1 log row Hr) as (row' & ? & ? & ? & ?).
  exists row'. conj_split; auto.
Qed.

Lemma rows_of_alter L c ps log g :
  (forall row, lg_state (g row) = lg_state row /\ lg_total_bytes (g row) = lg_total_bytes row /\
    (~ L log -> lg_dead_bytes (g row) = lg_dead_bytes row)) ->
  rows_of L c (alter_log log g (set_nc_placements ps c)).
Proof.
  intros Hg. split; cbn.
  - intros log' row Hr. destruct (decide (log' = log)) as [->|Hne].
    + rewrite lookup_alter_eq, Hr. exists (g row). split; [done|]. apply Hg.
    + rewrite lookup_alter_ne by done. by exists row.
  - intros log' Hn. rewrite lookup_alter_None. done.
Qed.

(** A change of the placement of one segment, with the live bytes of one log. *)
Lemma node_ok_placement c id pc log g :
  node_ok files node c ->
  (forall row, lg_state (g row) = lg_state row /\ lg_total_bytes (g row) = lg_total_bytes row) ->
  (forall p, pc = (p, true) -> sp_segment_id p = id /\ sp_storage_node p = node /\ 0 < sp_payload_bytes p /\
    (exists row, nc_data_logs c !! sp_data_log_id p = Some row /\ lg_state row <> "deleted") /\
    exists f bytes, files !! placement_ref p = Some f /\ lf_linked f = true /\ placed (synced_bytes f) p bytes) ->
  (forall log' row, nc_data_logs c !! log' = Some row ->
    live_in (<[id := pc]> (nc_placements c)) log' <= lg_live_bytes (if decide (log' = log) then g row else row)) ->
  node_ok files node (alter_log log g (set_nc_placements (<[id := pc]> (nc_placements c)) c)).
Proof.
  intros [P R L] Hg Hp Hl.
  assert (Hrow : forall log' row, nc_data_logs c !! log' = Some row ->
    alter g log (nc_data_logs c) !! log' = Some (if decide (log' = log) then g row else row)).
  { intros log' row Hr. case_decide as E; [subst; by rewrite lookup_alter_eq, Hr|by rewrite lookup_alter_ne]. }
  assert (Hst : forall log' row, lg_state (if decide (log' = log) then g row else row) = lg_state row).
  { intros. case_decide; [apply Hg|done]. }
  assert (Hinv : forall log' row', alter g log (nc_data_logs c) !! log' = Some row' -> exists row,
    nc_data_logs c !! log' = Some row /\ row' = if decide (log' = log) then g row else row).
  { intros log' row' Hr'. destruct (nc_data_logs c !! log') as [row|] eqn:Hr.
    - exists row. rewrite (Hrow _ _ Hr) in Hr'. by injection Hr' as <-.
    - apply (lookup_alter_None g _ log) in Hr. congruence. }
  split; cbn.
  - intros id' p Hid. assert (Hold : sp_segment_id p = id' /\ sp_storage_node p = node /\ 0 < sp_payload_bytes p /\
      (exists row, nc_data_logs c !! sp_data_log_id p = Some row /\ lg_state row <> "deleted") /\
      exists f bytes, files !! placement_ref p = Some f /\ lf_linked f = true /\ placed (synced_bytes f) p bytes).
    { apply lookup_insert_Some in Hid as [[<- E]|[_ Hid]]; [by apply Hp|by apply P]. }
    destruct Hold as (H1 & H2 & H3 & (row & Hr & Hd) & H5). conj_split; try done.
    eexists. split; [by apply Hrow|]. by rewrite Hst.
  - intros log' row' (row & Hr & ->)%Hinv. rewrite Hst. intros Hd. destruct (R log' row Hr Hd) as (f & ? & ? & ?).
    exists f. conj_split; try done. case_decide; [|done]. by rewrite (proj2 (Hg row)).
  - intros log' row' (row & Hr & ->)%Hinv. by apply Hl.
Qed.

Lemma mark_dead_run c old :
  node_ok files node c -> nc_placements c !! sp_segment_id old = Some (old, true) ->
  st_run (mark_placement_dead old) c
    (fun _ c' => node_ok files node c' /\
       nc_placements c' = <[sp_segment_id old := (old, false)]> (nc_placements c) /\
       rows_of (eq (sp_data_log_id old)) c c')
    (fun _ => True).
Proof.
  intros Hok Hold. unfold mark_placement_dead. do 2 st_step. do 2 (do 2 st_step; [|done]). st_step.
  assert (Halt : alter (fun pc : SegmentPlacementRow * bool => (pc.1, false)) (sp_segment_id old) (nc_placements c) =
    <[sp_segment_id old := (old, false)]> (nc_placements c)).
  { apply map_eq. intros k. destruct (decide (k = sp_segment_id old)) as [->|Hne].
    - by rewrite lookup_alter_eq, lookup_insert_eq, Hold.
    - by rewrite lookup_alter_ne, lookup_insert_ne by done. }
  rewrite Halt. split; [|split; [done|by apply rows_of_alter]].
  apply node_ok_placement; [done|done|done|]. intros log row Hr. pose proof (nk_live _ _ _ Hok _ _ Hr) as Hl.
  pose proof (live_in_nonneg _ log (payloads_pos_delete _ (sp_segment_id old) (node_ok_pos _ _ _ Hok))).
  rewrite live_in_insert. rewrite (live_in_delete _ _ _ _ Hold) in Hl. unfold live_of in *. cbn in *.
  case_decide as E; cbn.
  - subst. rewrite Z.eqb_refl in Hl. lia.
  - rewrite (proj2 (Z.eqb_neq _ _)) in Hl by congruence. lia.
Qed.

Lemma persist_placement_run c p bytes f :
  node_ok files node c -> sp_storage_node p = node -> files !! placement_ref p = Some f ->
  lf_linked f = true -> placed (synced_bytes f) p bytes ->
  (forall row, nc_data_logs c !! sp_data_log_id p = Some row -> lg_state row <> "deleted") ->
  st_run (persist_segment_placement p) c
    (fun _ c' => node_ok files node c' /\
       nc_placements c' = <[sp_segment_id p := (p, true)]> (nc_placements c) /\ rows_of (fun _ => False) c c')
    (fun _ => True).
Proof.
  intros Hok Hn Hf Hl Hp Hd. unfold persist_segment_placement. do 5 (do 2 st_step; [|done]). do 2 st_step.
  do 2 st_step; [|done]. bool_prop. do 3 st_step. split; [|split; [done|by apply rows_of_alter]].
  destruct (nc_data_logs c !! sp_data_log_id p) as [row|] eqn:Hrow; [|done].
  pose proof (node_ok_pos _ _ _ Hok) as Hpos. apply node_ok_placement; [done|done| |].
  - intros p' [= <-]. conj_split; try done; [exists row; split; [done|by apply Hd]|by exists f, bytes].
  - intros log row' Hr'. pose proof (nk_live _ _ _ Hok _ _ Hr') as Hli. rewrite live_in_insert.
    assert (Hdel : live_in (delete (sp_segment_id p) (nc_placements c)) log <= live_in (nc_placements c) log).
    { destruct (nc_placements c !! sp_segment_id p) as [[q cur]|] eqn:Hq; [|by rewrite delete_id].
      rewrite (live_in_delete _ _ _ log Hq). unfold live_of. cbn. destruct cur; cbn; [|lia].
      specialize (Hpos _ _ Hq). case_match; lia. }
    unfold live_of. cbn. case_decide as E; cbn.
    + subst. rewrite Z.eqb_refl. lia.
    + rewrite (proj2 (Z.eqb_neq _ _)) by congruence. lia.
Qed.
End rows.

(** ** The transaction that moves the placements of a log *)

(** The current placements of a log, as the query gives them. *)
Lemma elem_of_current c log p :
  p ∈ current_placements_for_log c log <->
  exists id, nc_placements c !! id = Some (p, true) /\ sp_data_log_id p = log.
Proof.
  unfold current_placements_for_log. rewrite sort_by_key_perm, list_elem_of_In, List.filter_In.
  rewrite <-list_elem_of_In, list_elem_of_fmap, Z.eqb_eq. split.
  - intros [([q cur] & -> & Hin) Hl]. apply list_elem_of_In, List.filter_In in Hin as [Hin Hc].
    apply list_elem_of_In, elem_of_bt_values in Hin as [id Hid]. cbn in *. destruct cur; [|done]. eauto.
  - intros (id & Hid & Hl). split; [|done]. exists (p, true). split; [done|].
    apply list_elem_of_In, List.filter_In. split; [|done]. apply list_elem_of_In, elem_of_bt_values. eauto.
Qed.

Lemma current_ids_nodup (l : list (Z * (SegmentPlacementRow * bool))) log :
  NoDup l.*1 -> (forall id p, (id, (p, true)) ∈ l -> sp_segment_id p = id) ->
  NoDup (sp_segment_id <$> List.filter (fun p => sp_data_log_id p =? log) (fst <$> List.filter snd l.*2)).
Proof.
  induction l as [|[k [p cur]] l IH]; cbn; intros Hnd Hid; [constructor|]. apply NoDup_cons in Hnd as [Hk Hnd].
  assert (Hid' : forall id p, (id, (p, true)) ∈ l -> sp_segment_id p = id) by (intros; apply Hid; by right).
  specialize (IH Hnd Hid'). destruct cur; [|done]. cbn. destruct (sp_data_log_id p =? log); [|done]. cbn.
  apply NoDup_cons. split; [|done]. rewrite (Hid k p) by left. intros Hin. apply Hk.
  apply list_elem_of_fmap in Hin as (q & -> & Hin). apply list_elem_of_In, List.filter_In in Hin as [Hin _].
  apply list_elem_of_In, list_elem_of_fmap in Hin as ([q' cur] & -> & Hin).
  apply list_elem_of_In, List.filter_In in Hin as [Hin Hc]. cbn in *. destruct cur; [|done].
  apply list_elem_of_In, list_elem_of_fmap in Hin as ([k' pc] & E & Hin). cbn in *. subst pc.
  rewrite (Hid' k' q') by done. apply list_elem_of_fmap. by eexists (_, _).
Qed.

Section relocation.
Context `{Crc32cCrate}.
Variables (files : gmap DurableDataLogRef LogFile) (node : StorageNodeId).

Lemma current_nodup c log :
  node_ok files node c -> NoDup (sp_segment_id <$> current_placements_for_log c log).
Proof.
  intros Hok. unfold current_placements_for_log. rewrite sort_by_key_perm. apply current_ids_nodup; [apply bt_keys_nodup|].
  intros id p Hin. apply elem_of_bt_iter in Hin. by apply (nk_placed _ _ _ Hok id p).
Qed.

(** The records that replace the placements. *)
Record replacement (c : NodeCatalog) (pa : PendingDataLogAppend) : Prop := mkReplacement {
  re_logs : forall r m, pa_logs pa !! r = Some m -> lr_storage_node r = node /\ pm_log_id m = lr_log_id r /\
    pm_state m = GENERIC_DATA_LOG_STATE_ACTIVE /\ carries files node (lr_log_id r) (pm_total_bytes m) /\
    forall row, nc_data_logs c !! lr_log_id r = Some row -> lg_state row = GENERIC_DATA_LOG_STATE_ACTIVE;
  re_placed : forall p, p ∈ pa_placements pa -> is_Some (pa_logs pa !! placement_ref p) /\
    sp_storage_node p = node /\
    exists f bytes, files !! placement_ref p = Some f /\ lf_linked f = true /\ placed (synced_bytes f) p bytes;
}.

(** Every placement has a log that is not deleted. *)
Definition placements_ready (c : NodeCatalog) (ps : list SegmentPlacementRow) : Prop :=
  forall p, p ∈ ps -> sp_storage_node p = node /\
    (exists row, nc_data_logs c !! sp_data_log_id p = Some row /\ lg_state row <> "deleted") /\
    exists f bytes, files !! placement_ref p = Some f /\ lf_linked f = true /\ placed (synced_bytes f) p bytes.

Definition manifest_ready (c : NodeCatalog) (m : PendingDataLogManifest) : Prop :=
  pm_state m = GENERIC_DATA_LOG_STATE_ACTIVE /\ carries files node (pm_log_id m) (pm_total_bytes m) /\
  forall row, nc_data_logs c !! pm_log_id m = Some row -> lg_state row = GENERIC_DATA_LOG_STATE_ACTIVE.

Lemma persist_manifests_run c ms :
  node_ok files node c -> (forall m, m ∈ ms -> manifest_ready c m) ->
  st_run (st_for persist_data_log_manifest ms) c
    (fun _ c' => node_ok files node c' /\ rows_kept c c' /\
       forall m, m ∈ ms -> exists row, nc_data_logs c' !! pm_log_id m = Some row /\
         lg_state row = GENERIC_DATA_LOG_STATE_ACTIVE)
    (fun _ => True).
Proof.
  intros Hok Hms.
  eapply st_run_mono; [apply (st_run_for _ (fun done c' => node_ok files node c' /\ rows_kept c c' /\
    (forall m row, m ∈ ms -> nc_data_logs c' !! pm_log_id m = Some row ->
       lg_state row = GENERIC_DATA_LOG_STATE_ACTIVE) /\
    (forall m, m ∈ done -> is_Some (nc_data_logs c' !! pm_log_id m))))| |done].
  - split; [done|]. split; [reflexivity|]. split; [|by intros m ?%not_elem_of_nil].
    intros m row Hm. by apply (Hms m Hm).
  - intros done m rest c1 Hl (Hok1 & K1 & Hact & Hd). assert (Hin : m ∈ ms) by (rewrite Hl; set_solver).
    destruct (Hms m Hin) as (Hst & Hc & _).
    eapply st_run_mono; [apply persist_manifest_run|..]; [done|done|done| | |done].
    { intros row. by apply (Hact m row). }
    intros _ c2 (Hok2 & K2 & (row2 & Hr2 & Hs2) & Hoth). split; [done|]. split; [by etrans|]. split.
    + intros m' row' Hm' Hrow'. destruct (decide (pm_log_id m' = pm_log_id m)) as [E|E]; [congruence|].
      rewrite Hoth in Hrow' by done. by apply (Hact m').
    + intros m' Hm'. destruct (decide (pm_log_id m' = pm_log_id m)) as [->|E]; [by rewrite Hr2|].
      rewrite Hoth by done. apply elem_of_app in Hm' as [Hm'|Hm']; [by apply Hd|].
      apply list_elem_of_singleton in Hm'. by subst.
  - intros _ c' (Hok' & K & Hact & Hd). split; [done|]. split; [done|]. intros m Hm.
    destruct (Hd m Hm) as [row Hrow]. exists row. split; [done|]. by apply (Hact m row).
Qed.

Lemma seal_manifests_run c l :
  node_ok files node c ->
  st_run (st_for seal_data_log_manifest l) c (fun _ c' => node_ok files node c' /\ rows_kept c c') (fun _ => True).
Proof.
  intros Hok. apply (st_run_for _ (fun _ c' => node_ok files node c' /\ rows_kept c c')); [by split|].
  intros done r rest c1 _ [Hok1 K1]. eapply st_run_mono; [by apply seal_manifest_run| |done].
  intros _ c2 [Hok2 K2]. split; [done|by etrans].
Qed.

Lemma mark_all_dead_run c (L : Z -> Prop) ps :
  node_ok files node c -> NoDup (sp_segment_id <$> ps) ->
  (forall p, p ∈ ps -> nc_placements c !! sp_segment_id p = Some (p, true) /\ L (sp_data_log_id p)) ->
  st_run (st_for mark_placement_dead ps) c
    (fun _ c' => node_ok files node c' /\ rows_of L c c' /\
       (forall p, p ∈ ps -> nc_placements c' !! sp_segment_id p = Some (p, false)) /\
       (forall id, id ∉ sp_segment_id <$> ps -> nc_placements c' !! id = nc_placements c !! id))
    (fun _ => True).
Proof.
  intros Hok Hnd Hps. apply (st_run_for _ (fun done c' => node_ok files node c' /\ rows_of L c c' /\
    (forall p, p ∈ done -> nc_placements c' !! sp_segment_id p = Some (p, false)) /\
    (forall id, id ∉ sp_segment_id <$> done -> nc_placements c' !! id = nc_placements c !! id))).
  - split; [done|]. split; [reflexivity|]. split; [by intros p ?%not_elem_of_nil|done].
  - intros done p rest c1 Hl (Hok1 & R1 & Hd & Ho). destruct (Hps p) as [Hp HL]; [rewrite Hl; set_solver|].
    assert (Hnew : sp_segment_id p ∉ sp_segment_id <$> done).
    { rewrite Hl, fmap_app, fmap_cons in Hnd. apply NoDup_app in Hnd as (_ & Hdis & _). intros Hin.
      by eapply Hdis; [done|left]. }
    eapply st_run_mono; [apply mark_dead_run; [done|by rewrite Ho]| |done].
    intros _ c2 (Hok2 & Epl & R2). apply (rows_of_mono _ L) in R2; [|by intros ? <-]. split; [done|]. split; [by etrans|]. rewrite Epl. split.
    + intros q [Hq|Hq]%elem_of_app; [|apply list_elem_of_singleton in Hq; subst q; by rewrite lookup_insert_eq].
      rewrite lookup_insert_ne; [by apply Hd|]. intros E. apply Hnew. rewrite E. by apply list_elem_of_fmap_2.
    + intros id Hid. rewrite fmap_app in Hid. apply not_elem_of_app in Hid as [Hid1 Hid2].
      rewrite lookup_insert_ne; [by apply Ho|]. intros <-. apply Hid2. by left.
Qed.

(** The placements [done] were persisted. *)
Definition persisted (c : NodeCatalog) (done : list SegmentPlacementRow) (c' : NodeCatalog) : Prop :=
  node_ok files node c' /\ rows_of (fun _ => False) c c' /\
  (forall p, p ∈ done -> nc_placements c' !! sp_segment_id p = Some (p, true)) /\
  (forall id, id ∉ sp_segment_id <$> done -> nc_placements c' !! id = nc_placements c !! id).

Lemma persisted_nil c : node_ok files node c -> persisted c [] c.
Proof. intros Hok. split; [done|]. split; [reflexivity|]. split; [by intros p ?%not_elem_of_nil|done]. Qed.

Lemma persisted_step c ps done p rest c1 :
  placements_ready c ps -> NoDup (sp_segment_id <$> ps) -> ps = done ++ p :: rest -> persisted c done c1 ->
  st_run (persist_segment_placement p) c1 (fun _ c2 => persisted c (done ++ [p]) c2) (fun _ => True).
Proof.
  intros Hre Hnd Hl (Hok1 & R1 & Hd & Ho).
  destruct (Hre p) as (Hn & (row & Hrow & Hst) & f & bytes & Hf & Hlk & Hp); [rewrite Hl; set_solver|].
  eapply st_run_mono; [eapply persist_placement_run; [done..|]| |done].
  { intros row' Hrow'. destruct (ro_some _ _ _ R1 _ _ Hrow) as (row1 & Hrow1 & Hs1 & _). congruence. }
  intros _ c2 (Hok2 & Epl & R2). split; [done|]. split; [by etrans|]. rewrite Epl. split.
  - assert (Hnew : sp_segment_id p ∉ sp_segment_id <$> done).
    { rewrite Hl, fmap_app, fmap_cons in Hnd. apply NoDup_app in Hnd as (_ & Hdis & _). intros Hin.
      by eapply Hdis; [done|left]. }
    intros q [Hq|Hq]%elem_of_app; [|apply list_elem_of_singleton in Hq; subst q; by rewrite lookup_insert_eq].
    rewrite lookup_insert_ne; [by apply Hd|]. intros E. apply Hnew. rewrite E. by apply list_elem_of_fmap_2.
  - intros id Hid. rewrite fmap_app in Hid. apply not_elem_of_app in Hid as [Hid1 Hid2].
    rewrite lookup_insert_ne; [by apply Ho|]. intros <-. apply Hid2. by left.
Qed.

Lemma persist_all_run c ps :
  node_ok files node c -> placements_ready c ps -> NoDup (sp_segment_id <$> ps) ->
  st_run (st_for persist_segment_placement ps) c (fun _ c' => persisted c ps c') (fun _ => True).
Proof.
  intros Hok Hre Hnd. apply (st_run_for _ (fun done c' => persisted c done c')); [by apply persisted_nil|].
  intros done p rest c1 Hl. by eapply persisted_step.
Qed.

Lemma relocate_all_run c ps n :
  node_ok files node c -> placements_ready c ps -> NoDup (sp_segment_id <$> ps) ->
  st_run (st_fold relocate_placement n ps) c (fun _ c' => persisted c ps c') (fun _ => True).
Proof.
  intros Hok Hre Hnd. apply (st_run_fold _ (fun done _ c' => persisted c done c')); [by apply persisted_nil|].
  intros done p rest b c1 Hl HI. unfold relocate_placement. st_step.
  eapply st_run_mono; [by eapply persisted_step| |done]. intros u c2 HI2. by st_step.
Qed.

(** What became of a catalog whose log [L] was emptied. *)
Record relocated (L : Z) (moved : list SegmentPlacementRow) (c c' : NodeCatalog) : Prop := mkRelocated {
  rl_moved : forall p, p ∈ moved -> nc_placements c' !! sp_segment_id p = Some (p, true);
  rl_other : forall id, id ∉ sp_segment_id <$> moved -> nc_placements c' !! id = nc_placements c !! id;
  rl_deleted : exists row, nc_data_logs c' !! L = Some row /\ lg_state row = "deleted";
  rl_empty : forall id p, nc_placements c' !! id = Some (p, true) -> sp_data_log_id p <> L;
  rl_old : forall log row, nc_data_logs c !! log = Some row -> log <> L -> exists row',
    nc_data_logs c' !! log = Some row' /\ lg_dead_bytes row' = lg_dead_bytes row /\
    (lg_state row' = lg_state row \/ lg_state row <> "deleted" /\ lg_state row' = "sealed");
  rl_new : forall log row', nc_data_logs c !! log = None -> log <> L -> nc_data_logs c' !! log = Some row' ->
    lg_dead_bytes row' = 0;
}.

(** The final update of the log's own row. *)
Lemma delete_row_ok c L row :
  node_ok files node c -> nc_data_logs c !! L = Some row ->
  (forall id p, nc_placements c !! id = Some (p, true) -> sp_data_log_id p <> L) ->
  live_in (nc_placements c) L = 0 /\
  forall total live dead, 0 <= live -> node_ok files node
    (set_nc_data_logs (<[L := mkLogManifestRow "deleted" total live dead]> (nc_data_logs c)) c).
Proof.
  intros Hok Hrow Hno. assert (Hz : live_in (nc_placements c) L = 0) by by apply live_in_none.
  split; [done|]. intros total live dead Hl. apply node_ok_row; cbn; [done|done|by intros _|lia].
Qed.

Lemma relocated_rows c c2 c3 c4 L row0 ps pa :
  node_ok files node c -> nc_data_logs c !! L = Some row0 ->
  lg_state row0 <> GENERIC_DATA_LOG_STATE_ACTIVE -> replacement c pa ->
  sp_segment_id <$> pa_placements pa = sp_segment_id <$> ps -> ps = current_placements_for_log c L ->
  rows_kept c c2 -> rows_of (eq L) c2 c3 -> rows_of (fun _ => False) c3 c4 -> node_ok files node c4 ->
  (forall id, id ∉ sp_segment_id <$> ps -> nc_placements c3 !! id = nc_placements c2 !! id) ->
  (forall p, p ∈ pa_placements pa -> nc_placements c4 !! sp_segment_id p = Some (p, true)) ->
  (forall id, id ∉ sp_segment_id <$> pa_placements pa -> nc_placements c4 !! id = nc_placements c3 !! id) ->
  let c5 := alter_log L (fun row => mkLogManifestRow "deleted" (lg_total_bytes row) 0 (lg_total_bytes row)) c4 in
  node_ok files node c5 /\ relocated L (pa_placements pa) c c5.
Proof.
  intros Hok Hrow0 Hst0 Hre Hids Eps K R3 R4 Hok4 Ho3 Hd4 Ho4 c5.
  destruct (rk_old _ _ K _ _ Hrow0) as (row2 & Hr2 & _). destruct (ro_some _ _ _ R3 _ _ Hr2) as (row3 & Hr3 & _).
  destruct (ro_some _ _ _ R4 _ _ Hr3) as (row4 & Hr4 & _).
  assert (Hother : forall id, id ∉ sp_segment_id <$> pa_placements pa -> nc_placements c4 !! id = nc_placements c !! id).
  { intros id Hid. rewrite Ho4, Ho3, (rk_placements _ _ K); [done|by rewrite <-Hids|done]. }
  assert (Hno : forall id p, nc_placements c4 !! id = Some (p, true) -> sp_data_log_id p <> L).
  { intros id p Hp HL. destruct (decide (id ∈ sp_segment_id <$> pa_placements pa)) as [Hin|Hout].
    - apply list_elem_of_fmap in Hin as (q & -> & Hq). rewrite (Hd4 q Hq) in Hp. injection Hp as <-.
      destruct (re_placed _ _ Hre q Hq) as ([m Hm] & _). destruct (re_logs _ _ Hre _ _ Hm) as (_ & _ & _ & _ & Hact).
      cbn in Hact. rewrite HL in Hact. by apply Hst0, Hact.
    - rewrite Hother in Hp by done. apply Hout. rewrite Hids, Eps. apply list_elem_of_fmap. exists p.
      split; [|apply elem_of_current; by exists id]. by destruct (nk_placed _ _ _ Hok id p Hp) as (-> & _). }
  subst c5. destruct (alter_log_cases L (fun row => mkLogManifestRow "deleted" (lg_total_bytes row) 0 (lg_total_bytes row)) c4)
    as [[Hn _]|(row & Hr & ->)]; [congruence|].
  split; [by eapply delete_row_ok|]. split; cbn; [done|done|..].
  - eexists. by rewrite lookup_insert_eq.
  - done.
  - intros log row' Hlog Hne. rewrite lookup_insert_ne by done.
    destruct (rk_old _ _ K _ _ Hlog) as (r2 & H2 & _ & D2 & S2). destruct (ro_some _ _ _ R3 _ _ H2) as (r3 & H3 & S3 & _ & D3).
    destruct (ro_some _ _ _ R4 _ _ H3) as (r4 & H4 & S4 & _ & D4). exists r4. split; [done|].
    rewrite D4, D3, S4, S3, D2 by congruence. done.
  - intros log row' Hn Hne. rewrite lookup_insert_ne by done. intros Hr'.
    destruct (nc_data_logs c2 !! log) as [r2|] eqn:H2.
    2: { rewrite (ro_none _ _ _ R4), ?(ro_none _ _ _ R3) in Hr'; [done|by apply (ro_none _ _ _ R3)|done..]. }
    destruct (rk_new _ _ K _ _ Hn H2) as [D2 _]. destruct (ro_some _ _ _ R3 _ _ H2) as (r3 & H3 & _ & _ & D3).
    destruct (ro_some _ _ _ R4 _ _ H3) as (r4 & H4 & _ & _ & D4). assert (r4 = row') as -> by congruence.
    rewrite D4, D3 by congruence. done.
Qed.

(** A row that is not deleted stays so. *)
Lemma row_not_deleted c1 c2 c3 L log row1 :
  rows_kept c1 c2 -> rows_of L c2 c3 -> nc_data_logs c1 !! log = Some row1 -> lg_state row1 <> "deleted" ->
  exists row3, nc_data_logs c3 !! log = Some row3 /\ lg_state row3 <> "deleted".
Proof.
  intros K R Hr Hs. destruct (rk_old _ _ K _ _ Hr) as (row2 & Hr2 & _ & _ & Hs2).
  destruct (ro_some _ _ _ R _ _ Hr2) as (row3 & Hr3 & Hs3 & _). exists row3. split; [done|]. rewrite Hs3.
  by destruct Hs2 as [->|[_ ->]].
Qed.

Lemma relocate_rows_run c row0 log pa n :
  let L := dr_log_id log in
  node_ok files node c -> nc_data_logs c !! L = Some row0 ->
  lg_state row0 <> GENERIC_DATA_LOG_STATE_ACTIVE -> replacement c pa ->
  sp_segment_id <$> pa_placements pa = sp_segment_id <$> current_placements_for_log c L ->
  st_run (relocate_rows log (current_placements_for_log c L) pa n) c
    (fun _ c' => node_ok files node c' /\ relocated L (pa_placements pa) c c') (fun _ => True).
Proof.
  intros L Hok Hrow0 Hst0 Hre Hids. set (ps := current_placements_for_log c L) in *.
  assert (Hnd : NoDup (sp_segment_id <$> ps)) by by apply current_nodup.
  unfold relocate_rows. st_step. eapply st_run_mono; [apply persist_manifests_run; [done|]| |done].
  { intros m (kv & -> & Hin%elem_of_log_iter)%list_elem_of_fmap.
    destruct (re_logs _ _ Hre _ _ Hin) as (_ & Eid & Hst & Hca & Hact). split; [done|]. by rewrite Eid. }
  intros _ c1 (Hok1 & K1 & Hin1). st_step. eapply st_run_mono; [by apply seal_manifests_run| |done].
  intros _ c2 (Hok2 & K2). pose proof (PreOrder_Transitive _ _ _ K1 K2) as K.
  assert (Hps : forall p, p ∈ ps -> nc_placements c2 !! sp_segment_id p = Some (p, true) /\ L = sp_data_log_id p).
  { intros p (id & Hp & HL)%elem_of_current. rewrite (rk_placements _ _ K).
    destruct (nk_placed _ _ _ Hok id p Hp) as (-> & _). done. }
  st_step. eapply st_run_mono; [by eapply mark_all_dead_run| |done]. intros _ c3 (Hok3 & R3 & Hd3 & Ho3).
  assert (Hre3 : placements_ready c3 (pa_placements pa)).
  { intros p Hp. destruct (re_placed _ _ Hre p Hp) as ([m Hm] & Hn & Hpl). split; [done|]. split; [|done].
    destruct (re_logs _ _ Hre _ _ Hm) as (_ & Eid & _). cbn in Eid.
    destruct (Hin1 m) as (row1 & Hrow1 & Hs1).
    { apply list_elem_of_fmap. exists (placement_ref p, m). split; [done|]. by apply elem_of_log_iter. }
    rewrite Eid in Hrow1. eapply (row_not_deleted c1 c2); [done|done|exact Hrow1|by rewrite Hs1]. }
  st_step. eapply st_run_mono; [apply relocate_all_run; [done|done|by rewrite Hids]| |done].
  intros n' c4 (Hok4 & R4 & Hd4 & Ho4). do 2 st_step; [|done]. do 3 st_step. fold L.
  eapply relocated_rows; done.
Qed.
End relocation.

(** ** Compaction of a store *)

Definition log_row (s : LogStore) (r : DurableDataLogRef) (row : LogManifestRow) : Prop :=
  exists c, ls_catalogs s !! lr_storage_node r = Some c /\ nc_data_logs c !! lr_log_id r = Some row.
Definition current (s : LogStore) (node : StorageNodeId) (id : SegmentId) (p : SegmentPlacementRow) : Prop :=
  exists c, ls_catalogs s !! node = Some c /\ nc_placements c !! id = Some (p, true).

(** A log that no writer of generic records appends to. *)
Definition closed (s : LogStore) (r : DurableDataLogRef) : Prop :=
  exists row, log_row s r row /\ lg_state row <> GENERIC_DATA_LOG_STATE_ACTIVE.
Definition vacant (s : LogStore) (r : DurableDataLogRef) : Prop :=
  forall id p, current s (lr_storage_node r) id p -> sp_data_log_id p <> lr_log_id r.

(** The logs that have dead bytes and are not deleted. *)
Definition is_dirty (row : LogManifestRow) : bool :=
  negb (String.eqb (lg_state row) "deleted") && negb (lg_dead_bytes row =? 0).
Definition dirty (s : LogStore) : gset DurableDataLogRef :=
  list_to_set (map_to_list (ls_catalogs s) ≫= fun '(node, c) =>
    mkLogRef node <$> (List.filter (fun kv => is_dirty kv.2) (map_to_list (nc_data_logs c))).*1).

Lemma elem_of_dirty s r : r ∈ dirty s <-> exists row, log_row s r row /\ is_dirty row = true.
Proof.
  unfold dirty, log_row. rewrite elem_of_list_to_set, list_elem_of_bind. split.
  - intros ([node c] & Hr & Hc). apply elem_of_map_to_list in Hc.
    apply list_elem_of_fmap in Hr as (log & -> & Hr). apply list_elem_of_fmap in Hr as ([log' row] & -> & Hr).
    apply list_elem_of_In, List.filter_In in Hr as [Hr Hd]. apply list_elem_of_In, elem_of_map_to_list in Hr. eauto.
  - intros (row & (c & Hc & Hr) & Hd). exists (lr_storage_node r, c). split; [|by apply elem_of_map_to_list].
    apply list_elem_of_fmap. exists (lr_log_id r). split; [by destruct r|].
    apply list_elem_of_fmap. exists (lr_log_id r, row). split; [done|].
    apply list_elem_of_In, List.filter_In. split; [|done]. by apply list_elem_of_In, elem_of_map_to_list.
Qed.

Section upkeep.
Context `{Crc32cCrate}.

(** What compaction does to a good store: it stays good, no payload changes, a
    closed log stays closed and gets no placement, no log becomes dirty. *)
Record kept (s s' : LogStore) : Prop := mkKept {
  kp_ok : store_ok s';
  kp_payloads : same_payloads s s';
  kp_closed : forall r, closed s r -> closed s' r;
  kp_vacant : forall r, closed s r -> vacant s r -> vacant s' r;
  kp_dirty : dirty s' ⊆ dirty s;
  kp_policy : ls_policy s' = ls_policy s;
}.
Definition upkeep (s s' : LogStore) : Prop := store_ok s -> kept s s'.

#[export] Instance upkeep_preorder : PreOrder upkeep.
Proof.
  split.
  - intros s Hok. by split.
  - intros s1 s2 s3 H1 H2 Hok. destruct (H1 Hok) as [A1 A2 A3 A4 A5 A6]. destruct (H2 A1) as [B1 B2 B3 B4 B5 B6].
    split; [done|by etrans|auto|auto|set_solver|congruence].
Qed.

Lemma grows_upkeep s s' : grows s s' -> upkeep s s'.
Proof.
  intros G Hok. unfold closed, vacant, current, log_row. pose proof (gr_catalogs _ _ G) as Ec.
  split; [by eapply store_ok_grows|by apply grows_same_payloads|..].
  - intros r (row & (c & Hc & Hr) & Hs). exists row. split; [|done]. exists c. by rewrite Ec.
  - unfold vacant, current. by rewrite Ec.
  - unfold dirty. by rewrite Ec.
  - apply (gr_policy _ _ G).
Qed.

(** The log is gone: its row says deleted. *)
Definition gone (s : LogStore) (r : DurableDataLogRef) : Prop :=
  exists row, log_row s r row /\ lg_state row = "deleted".

(** Removing the file of a deleted log without placements. *)
Lemma delete_log_catalogs r s : ls_catalogs (delete_data_log r s) = ls_catalogs s.
Proof. unfold delete_data_log. by case_match. Qed.
Lemma gone_delete s r : gone s r -> gone (delete_data_log r s) r.
Proof. unfold gone, log_row. by rewrite delete_log_catalogs. Qed.

(** The row says deleted and there is no file. *)
Definition removed (s : LogStore) (r : DurableDataLogRef) : Prop := gone s r /\ ls_files s !! r = None.
(** A removed log is not brought back. *)
Definition stays (s s' : LogStore) : Prop := forall r, removed s r -> removed s' r.

Lemma sync_dir_absent node s r : ls_files s !! r = None -> ls_files (sync_dir node s) !! r = None.
Proof. intros Hr. cbn. by rewrite map_lookup_imap, Hr. Qed.
Lemma delete_log_stays r s : stays s (delete_data_log r s).
Proof.
  intros r' [Hg Hf]. split; [by unfold gone, log_row; rewrite delete_log_catalogs|]. unfold delete_data_log.
  case_match; [|done]. apply sync_dir_absent. cbn. destruct (decide (r' = r)) as [->|Hne]; [apply lookup_delete_eq|].
  by rewrite lookup_delete_ne.
Qed.
Lemma delete_log_removed s r : gone s r -> removed (delete_data_log r s) r.
Proof.
  intros Hg. split; [by apply gone_delete|]. unfold delete_data_log. case_match; [|done].
  apply sync_dir_absent. cbn. apply lookup_delete_eq.
Qed.
Lemma appended_stays mode pb s segs pa s' : appended mode pb s segs pa s' -> stays s s'.
Proof.
  intros A r [Hg Hf]. pose proof (gr_catalogs _ _ (ap_grows _ _ _ _ _ _ A)) as Ec.
  split; [by unfold gone, log_row; rewrite Ec|]. destruct (pa_logs pa !! r) as [m|] eqn:Hm.
  - destruct (pk_logs _ _ (ap_pending _ _ _ _ _ _ A) r m Hm) as (_ & _ & _ & (c & Hc & Hact) & _).
    destruct Hg as (row & (c' & Hc' & Hr) & Hs). rewrite Ec in Hc. assert (c' = c) as -> by congruence.
    by rewrite (Hact row Hr) in Hs.
  - pose proof (ap_frame _ _ _ _ _ _ A r Hm) as E. rewrite Hf in E. by destruct (ls_files s' !! r).
Qed.
Lemma tx_stays s node c c' :
  ls_catalogs s !! node = Some c ->
  (forall log row, nc_data_logs c !! log = Some row -> lg_state row = "deleted" ->
    exists row', nc_data_logs c' !! log = Some row' /\ lg_state row' = "deleted") ->
  stays s (set_ls_catalogs (<[node := c']> (ls_catalogs s)) s).
Proof.
  intros Hc Hrows r [(row & (x & Hx & Hr) & Hs) Hf]. split; [|done]. unfold gone, log_row. cbn.
  destruct (decide (lr_storage_node r = node)) as [E|Hne].
  - rewrite E in Hx |- *. rewrite lookup_insert_eq. assert (x = c) as -> by congruence.
    destruct (Hrows _ _ Hr Hs) as (row' & ? & ?). exists row'. eauto.
  - rewrite lookup_insert_ne by done. exists row. eauto.
Qed.

Lemma remove_file_upkeep s r row :
  log_row s r row -> lg_state row = "deleted" -> vacant s r -> upkeep s (set_ls_files (delete r (ls_files s)) s).
Proof.
  intros (c & Hc & Hr) Hst Hv Hok. set (s' := set_ls_files _ s).
  assert (Hkeep : forall node' c' id p, ls_catalogs s !! node' = Some c' -> nc_placements c' !! id = Some (p, true) ->
    placement_ref p <> r).
  { intros node' c' id p Hc' Hp E. destruct (nk_placed _ _ _ (so_nodes _ Hok _ _ Hc') id p Hp) as (_ & Hn & _).
    subst r. cbn in *. apply (Hv id p); [|done]. exists c'. cbn. by rewrite Hn. }
  split; try done.
  - split; cbn.
    + apply map_Forall_delete, Hok.
    + intros node' c' Hc'. destruct (so_nodes _ Hok _ _ Hc') as [P R L]. split; [..|done].
      * intros id p Hp. destruct (P id p Hp) as (H1 & H2 & H3 & H4 & f & bytes & Hf & Hl & Hpl). conj_split; try done.
        exists f, bytes. rewrite lookup_delete_ne; [done|]. by apply not_eq_sym, (Hkeep node' c' id p).
      * intros log row' Hr' Hs'. destruct (R log row' Hr' Hs') as (f & Hf & Hl & Ht). exists f.
        rewrite lookup_delete_ne; [done|]. intros ->. cbn in *. congruence.
  - intros node' id. unfold segment_payload, placement_for_segment_on_node. cbn.
    destruct (ls_catalogs s !! node') as [c'|] eqn:Hc'; [|done]. cbn.
    destruct (nc_placements c' !! id) as [[p [|]]|] eqn:Hp; [|done|done]. cbn.
    unfold read_segment_payload. cbn. rewrite lookup_delete_ne; [done|]. by apply not_eq_sym, (Hkeep node' c' id p).
Qed.
Lemma remove_log_upkeep s r row :
  log_row s r row -> lg_state row = "deleted" -> vacant s r -> upkeep s (delete_data_log r s).
Proof.
  intros Hr Hst Hv. unfold delete_data_log. case_match; [|reflexivity].
  etrans; [by eapply remove_file_upkeep|]. apply grows_upkeep, sync_dir_grows.
Qed.

Definition node_payload (s : LogStore) (c : NodeCatalog) (id : SegmentId) : Result (list Z) :=
  p ← placement_for_segment_on_node c id; read_segment_payload s p.

(** A transaction on the catalog of one node. *)
Record tx_kept (s : LogStore) (c c' : NodeCatalog) : Prop := mkTxKept {
  tk_payload : forall id, node_payload s c' id = node_payload s c id;
  tk_closed : forall log row, nc_data_logs c !! log = Some row -> lg_state row <> GENERIC_DATA_LOG_STATE_ACTIVE ->
    exists row', nc_data_logs c' !! log = Some row' /\ lg_state row' <> GENERIC_DATA_LOG_STATE_ACTIVE;
  tk_vacant : forall log row, nc_data_logs c !! log = Some row -> lg_state row <> GENERIC_DATA_LOG_STATE_ACTIVE ->
    (forall id p, nc_placements c !! id = Some (p, true) -> sp_data_log_id p <> log) ->
    forall id p, nc_placements c' !! id = Some (p, true) -> sp_data_log_id p <> log;
  tk_dirty : forall log row', nc_data_logs c' !! log = Some row' -> is_dirty row' = true ->
    exists row, nc_data_logs c !! log = Some row /\ is_dirty row = true;
}.

Lemma tx_upkeep s node c c' :
  ls_catalogs s !! node = Some c -> node_ok (ls_files s) node c' -> tx_kept s c c' ->
  upkeep s (set_ls_catalogs (<[node := c']> (ls_catalogs s)) s).
Proof.
  intros Hc Hok' [Tp Tc Tv Td] Hok. set (s' := set_ls_catalogs _ s).
  assert (Hlk : forall n, ls_catalogs s' !! n = if decide (n = node) then Some c' else ls_catalogs s !! n).
  { intros n. cbn. case_decide as E; [subst; apply lookup_insert_eq|by apply lookup_insert_ne]. }
  split.
  - split; [apply Hok|]. intros n x Hx. rewrite Hlk in Hx. case_decide as E; [by simplify_eq|by apply Hok].
  - intros n id. unfold segment_payload. rewrite Hlk. case_decide as E; [|done]. subst n. rewrite Hc. apply Tp.
  - intros r (row & (x & Hx & Hr) & Hs). unfold closed, log_row. rewrite Hlk. case_decide as E; [|by eauto].
    rewrite E, Hc in Hx. injection Hx as <-. destruct (Tc _ _ Hr Hs) as (row' & ? & ?). eauto.
  - intros r (row & (x & Hx & Hr) & Hs) Hv id p (y & Hy & Hp). rewrite Hlk in Hy. case_decide as E.
    + injection Hy as <-. rewrite E, Hc in Hx. injection Hx as <-. eapply (Tv _ _ Hr Hs); [|done].
      intros id' p' Hp'. apply (Hv id' p'). exists c. by rewrite E.
    + apply (Hv id p). by exists y.
  - intros r. rewrite !elem_of_dirty. unfold log_row. intros (row & (x & Hx & Hr) & Hd). rewrite Hlk in Hx.
    case_decide as E; [|by eauto 6]. injection Hx as <-. destruct (Td _ _ Hr Hd) as (row' & ? & ?). exists row'.
    split; [|done]. exists c. by rewrite E.
  - done.
Qed.

Lemma delete_tx_kept s c L row :
  nc_data_logs c !! L = Some row ->
  tx_kept s c (set_nc_data_logs (<[L := mkLogManifestRow "deleted" (lg_total_bytes row) (lg_live_bytes row)
    (lg_dead_bytes row)]> (nc_data_logs c)) c).
Proof.
  intros Hr. split; cbn.
  - done.
  - intros log row' Hr' Hs. destruct (decide (log = L)) as [->|Hne].
    + rewrite lookup_insert_eq. by eexists.
    + rewrite lookup_insert_ne by done. eauto.
  - intros log row' _ _ Hv. done.
  - intros log row' [[<- <-]|[_ Hr']]%lookup_insert_Some Hd; [done|eauto].
Qed.

Lemma delete_dead_log_run s report log :
  let r := mkLogRef (dr_storage_node log) (dr_log_id log) in
  store_ok s -> closed s r -> vacant s r ->
  st_run (delete_dead_log report log) s
    (fun _ s' => kept s s' /\ removed s' r /\ stays s s') (kept s).
Proof.
  intros r Hok (row & (c & Hc & Hr) & Hs) Hv. cbn in Hc, Hr. unfold delete_dead_log.
  pose proof (upkeep_preorder.(PreOrder_Reflexive) s Hok) as Hrefl.
  st_step. eapply st_run_tx; [done|]. do 2 st_step; [|done]. st_step.
  destruct (alter_log_cases (dr_log_id log) (fun row => mkLogManifestRow "deleted" (lg_total_bytes row)
    (lg_live_bytes row) (lg_dead_bytes row)) c) as [[Hn _]|(row' & Hr' & ->)]; [congruence|].
  assert (row' = row) as -> by congruence. set (c' := set_nc_data_logs _ c).
  assert (Hno : forall id p, nc_placements c !! id = Some (p, true) -> sp_data_log_id p <> dr_log_id log).
  { intros id p Hp. apply (Hv id p). by exists c. }
  assert (Hok' : node_ok (ls_files s) (dr_storage_node log) c').
  { apply node_ok_row; cbn; [by apply Hok|done|by intros _|]. by apply (nk_live _ _ _ (so_nodes _ Hok _ _ Hc)). }
  pose proof (tx_upkeep s _ c c' Hc Hok' (delete_tx_kept s c _ row Hr)) as U1. set (s1 := set_ls_catalogs _ s) in *.
  assert (Hrow1 : log_row s1 r (mkLogManifestRow "deleted" (lg_total_bytes row) (lg_live_bytes row) (lg_dead_bytes row))).
  { exists c'. cbn. by rewrite !lookup_insert_eq. }
  assert (U : upkeep s (delete_data_log r s1)).
  { etrans; [exact U1|]. eapply remove_log_upkeep; [done|done|].
    eapply (kp_vacant _ _ (U1 Hok)); [|done]. exists row. split; [by exists c|done]. }
  assert (S1 : stays s s1).
  { apply (tx_stays s _ c c' Hc). intros log' row0 Hr0 Hs0. subst c'. cbn. destruct (decide (log' = dr_log_id log)) as [->|Hne].
    - rewrite lookup_insert_eq. by eexists.
    - rewrite lookup_insert_ne by done. eauto. }
  specialize (U Hok). do 4 st_step; [|done]. st_step. split; [done|]. split.
  - apply delete_log_removed. eexists. split; [exact Hrow1|done].
  - intros r' Hr'0. by apply delete_log_stays, S1.
Qed.

(** Reading the payloads of the current placements of a log. *)
Lemma payloads_of_log s node c ps :
  store_ok s -> ls_catalogs s !! node = Some c ->
  (forall p, p ∈ ps -> exists id, nc_placements c !! id = Some (p, true)) ->
  st_run (st_map payload_of_placement ps) s
    (fun segs s' => Forall2 (fun p seg => exists bytes, read_segment_payload s p = Ok bytes /\ payload_ok seg /\
       seg = mkDurableSegmentPayload (sp_segment_id p) (sp_storage_node p) (sp_integrity p) bytes) ps segs /\ s' = s)
    (fun s' => s' = s).
Proof.
  intros Hok Hc Hps. apply st_run_map. intros p Hin. destruct (Hps p Hin) as [id Hp].
  destruct (current_payload s node c id p Hok Hc Hp) as (f & bytes & _ & (pre & post & _ & _ & _ & _ & Hty & Hver & _) & _ & Hread).
  unfold payload_of_placement. do 2 st_step; [|done]. st_step. split; [|done]. rewrite Hread in *. simplify_eq.
  eexists. split; [done|]. split; [|done]. by split.
Qed.

Lemma relocated_tx_kept s c c' L row0 pa files node :
  nc_data_logs c !! L = Some row0 -> replacement files node c pa ->
  relocated L (pa_placements pa) c c' ->
  (forall p, p ∈ pa_placements pa -> exists bytes, read_segment_payload s p = Ok bytes /\
    node_payload s c (sp_segment_id p) = Ok bytes) ->
  tx_kept s c c'.
Proof.
  intros Hrow Hre Hrl Hread. split.
  - intros id. destruct (decide (id ∈ sp_segment_id <$> pa_placements pa)) as [Hin|Hout].
    + apply list_elem_of_fmap in Hin as (p & -> & Hp). destruct (Hread p Hp) as (bytes & Hr & ->).
      unfold node_payload, placement_for_segment_on_node. by rewrite (rl_moved _ _ _ _ Hrl p Hp).
    + unfold node_payload, placement_for_segment_on_node. by rewrite (rl_other _ _ _ _ Hrl id Hout).
  - intros log row Hr Hs. destruct (decide (log = L)) as [->|Hne].
    + destruct (rl_deleted _ _ _ _ Hrl) as (row' & ? & Hd). exists row'. split; [done|]. by rewrite Hd.
    + destruct (rl_old _ _ _ _ Hrl log row Hr Hne) as (row' & ? & _ & Hs'). exists row'. split; [done|].
      by destruct Hs' as [->|[_ ->]].
  - intros log row Hr Hs Hv id p Hp. destruct (decide (id ∈ sp_segment_id <$> pa_placements pa)) as [Hin|Hout].
    + apply list_elem_of_fmap in Hin as (q & -> & Hq). rewrite (rl_moved _ _ _ _ Hrl q Hq) in Hp. injection Hp as <-.
      destruct (re_placed _ _ _ _ Hre q Hq) as ([m Hm] & _). destruct (re_logs _ _ _ _ Hre _ _ Hm) as (_ & _ & _ & _ & Hact).
      cbn in Hact. intros E. rewrite E in Hact. by apply Hs, Hact.
    + rewrite (rl_other _ _ _ _ Hrl id Hout) in Hp. by apply (Hv id).
  - intros log row' Hr' Hd. destruct (decide (log = L)) as [->|Hne].
    { destruct (rl_deleted _ _ _ _ Hrl) as (row & Hr & Hs). assert (row = row') as -> by congruence.
      unfold is_dirty in Hd. by rewrite Hs in Hd. }
    destruct (nc_data_logs c !! log) as [row|] eqn:Hr; unfold is_dirty in *.
    + destruct (rl_old _ _ _ _ Hrl log row Hr Hne) as (row2 & Hr2 & Hdead & Hs'). assert (row2 = row') as -> by congruence.
      exists row. split; [done|]. rewrite <-Hdead. bool_prop. rewrite (proj2 (Z.eqb_neq _ _)) by done.
      rewrite (proj2 (String.eqb_neq _ _)); [done|]. intros E. destruct Hs' as [Hs'|[Hs' _]]; [|done].
      rewrite Hs', E in *. done.
    + rewrite (rl_new _ _ _ _ Hrl log row' Hr Hne Hr') in Hd. by rewrite andb_false_r in Hd.
Qed.

(** The records appended for the payloads of a log replace its placements. *)
Lemma appended_replacement s s1 node c segs pa :
  ls_catalogs s !! node = Some c -> grows s s1 -> pending_ok s1 pa -> logs_synced s1 pa ->
  Forall2 (seg_placed s1) segs (pa_placements pa) ->
  (forall r, is_Some (pa_logs pa !! r) -> exists seg, seg ∈ segs /\ dp_storage_node seg = lr_storage_node r) ->
  (forall seg, seg ∈ segs -> dp_storage_node seg = node) ->
  replacement (ls_files s1) node c pa.
Proof.
  intros Hc G [Pl Pp] Hsy Hseg Hn Hnode.
  assert (Hlog : forall r m, pa_logs pa !! r = Some m -> lr_storage_node r = node).
  { intros r m Hm. destruct (Hn r) as (seg & Hin & <-); [by eexists|]. by apply Hnode. }
  split.
  - intros r m Hm. destruct (Pl r m Hm) as (_ & Hid & Hst & (c1 & Hc1 & Hact) & f & Hf & Ht).
    pose proof (Hlog r m Hm) as Er. conj_split; try done.
    + destruct (Hsy r) as (f' & Hf' & Hs & Hl); [by eexists|]. assert (f' = f) as -> by congruence.
      exists f. rewrite <-Er. destruct r. cbn. split; [done|]. split; [done|lia].
    + rewrite (gr_catalogs _ _ G), Er, Hc in Hc1. by injection Hc1 as <-.
  - intros p Hp. destruct (Pp p Hp) as ([m Hm] & f & bytes & Hf & Hpl). split; [by eexists|]. split; [by apply (Hlog _ m Hm)|].
    destruct (Hsy (placement_ref p)) as (f' & Hf' & Hs & Hl); [by eexists|]. assert (f' = f) as -> by congruence.
    exists f, bytes. split; [done|]. split; [done|]. unfold synced_bytes. by rewrite Hs, Nat2Z.id, firstn_all.
Qed.

(** A placement that replaces one of the same segment carries its payload. *)
Lemma replacing_payload s s1 node c ps segs pa p :
  store_ok s -> ls_catalogs s !! node = Some c -> grows s s1 ->
  (forall q, q ∈ ps -> exists id, nc_placements c !! id = Some (q, true)) ->
  Forall2 (fun p seg => exists bytes, read_segment_payload s p = Ok bytes /\ payload_ok seg /\
    seg = mkDurableSegmentPayload (sp_segment_id p) (sp_storage_node p) (sp_integrity p) bytes) ps segs ->
  Forall2 (seg_placed s1) segs (pa_placements pa) -> p ∈ pa_placements pa ->
  exists bytes, read_segment_payload s1 p = Ok bytes /\ node_payload s1 c (sp_segment_id p) = Ok bytes.
Proof.
  intros Hok Hc G Hps Hsegs Hpl Hp.
  apply list_elem_of_lookup_1 in Hp as [i Hi]. destruct (Forall2_lookup_r _ _ _ _ _ Hpl Hi) as (seg & Hs & Hid & _ & _ & f & Hf & Hplc).
  destruct (Forall2_lookup_r _ _ _ _ _ Hsegs Hs) as (q & Hq & bytes & Hread & _ & ->).
  exists bytes. split; [by eapply placed_read|]. cbn in Hid. destruct (Hps q) as [id Hcur]; [by eapply list_elem_of_lookup_2|].
  assert (id = sp_segment_id q) as -> by (by destruct (nk_placed _ _ _ (so_nodes _ Hok _ _ Hc) id q Hcur) as (<- & _)).
  pose proof (grows_same_payloads s s1 Hok G node (sp_segment_id q)) as Hsame. unfold segment_payload in Hsame.
  rewrite (gr_catalogs _ _ G), Hc in Hsame. unfold node_payload. rewrite Hid.
  etrans; [exact Hsame|]. cbn. unfold placement_for_segment_on_node. by rewrite Hcur.
Qed.

Lemma same_ids s s1 ps segs pa :
  Forall2 (fun p seg => exists bytes, read_segment_payload s p = Ok bytes /\ payload_ok seg /\
    seg = mkDurableSegmentPayload (sp_segment_id p) (sp_storage_node p) (sp_integrity p) bytes) ps segs ->
  Forall2 (seg_placed s1) segs (pa_placements pa) ->
  sp_segment_id <$> pa_placements pa = sp_segment_id <$> ps.
Proof.
  intros Hsegs Hpl. revert Hpl. generalize (pa_placements pa) as l. induction Hsegs as [|p seg ps segs (bytes & _ & _ & ->) _ IH].
  - by intros l ->%Forall2_nil_inv_l.
  - intros l (q & l' & (Hid & _) & Hl & ->)%Forall2_cons_inv_l. cbn in *. by rewrite Hid, (IH l' Hl).
Qed.

Lemma relocate_log_run s report log :
  let r := mkLogRef (dr_storage_node log) (dr_log_id log) in
  store_ok s -> closed s r ->
  st_run (relocate_log report log) s (fun _ s' => kept s s' /\ removed s' r /\ stays s s') (kept s).
Proof.
  intros r Hok (row & (c & Hc & Hr) & Hs). cbn in Hc, Hr. unfold relocate_log. fold r.
  pose proof (upkeep_preorder.(PreOrder_Reflexive) s Hok) as Hrefl.
  st_step. eapply st_run_node_catalog; [done|]. do 2 st_step; [|done].
  set (ps := current_placements_for_log c (dr_log_id log)).
  assert (Hps : forall p, p ∈ ps -> exists id, nc_placements c !! id = Some (p, true)).
  { intros p (id & Hp & _)%elem_of_current. eauto. }
  st_step. eapply st_run_mono; [by apply (payloads_of_log s (dr_storage_node log) c)| |by intros ? ->]. intros segs ? [Hsegs ->].
  assert (Hsok : Forall payload_ok segs).
  { apply Forall_lookup. intros i seg Hi. by destruct (Forall2_lookup_r _ _ _ _ _ Hsegs Hi) as (? & ? & ? & ? & ? & ?). }
  assert (Hnode : forall seg, seg ∈ segs -> dp_storage_node seg = dr_storage_node log).
  { intros seg [i Hi]%list_elem_of_lookup_1. destruct (Forall2_lookup_r _ _ _ _ _ Hsegs Hi) as (p & Hp & bytes & _ & _ & ->).
    destruct (Hps p) as [id Hcur]; [by eapply list_elem_of_lookup_2|].
    by destruct (nk_placed _ _ _ (so_nodes _ Hok _ _ Hc) id p Hcur) as (_ & Hn & _). }
  st_step. eapply st_run_mono; [by apply append_segments_run| |intros s1 G; by apply grows_upkeep].
  intros pa s1 A. pose proof (appended_stays _ _ _ _ _ _ A) as S1. destruct A as [G Hpend Hpl Hfrom Hsync _]. pose proof (synced_but_none s1 pa (Hsync eq_refl)) as Hlsync.
  pose proof (grows_upkeep s s1 G Hok) as K1. pose proof (kp_ok _ _ K1) as Hok1.
  assert (Hc1 : ls_catalogs s1 !! dr_storage_node log = Some c) by by rewrite (gr_catalogs _ _ G).
  pose proof (appended_replacement s s1 _ c segs pa Hc G Hpend Hlsync Hpl Hfrom Hnode) as Hre.
  assert (Hids : sp_segment_id <$> pa_placements pa = sp_segment_id <$> ps) by by eapply same_ids.
  st_step. eapply st_run_tx; [done|]. eapply st_run_mono; [eapply relocate_rows_run; [by apply Hok1|done|done|done|done]| |done].
  intros n c' [Hok' Hrl]. set (s2 := set_ls_catalogs _ s1).
  assert (U2 : upkeep s1 s2).
  { apply (tx_upkeep s1 _ c c' Hc1 Hok'). eapply relocated_tx_kept; [done|done|done|]. intros p Hp.
    by apply (replacing_payload s s1 (dr_storage_node log) c ps segs pa p). }
  destruct (rl_deleted _ _ _ _ Hrl) as (row' & Hr' & Hd').
  assert (Hrow2 : log_row s2 r row') by (exists c'; cbn; by rewrite lookup_insert_eq).
  assert (U3 : upkeep s (delete_data_log r s2)).
  { etrans; [by apply grows_upkeep|]. etrans; [exact U2|]. eapply remove_log_upkeep; [done|done|].
    intros id p (x & Hx & Hp). cbn in Hx. rewrite lookup_insert_eq in Hx. injection Hx as <-.
    by apply (rl_empty _ _ _ _ Hrl id p). }
  assert (S2 : stays s1 s2).
  { apply (tx_stays s1 _ c c' Hc1). intros log' row0 Hr0 Hs0. destruct (decide (log' = dr_log_id log)) as [->|Hne]; [by eauto|].
    destruct (rl_old _ _ _ _ Hrl log' row0 Hr0 Hne) as (row2 & ? & _ & Hst). exists row2. split; [done|].
    destruct Hst as [->|[? _]]; done. }
  specialize (U3 Hok). do 2 st_step. do 2 st_step; [|done]. st_step. split; [done|]. split.
  - apply delete_log_removed. by exists row'.
  - intros r' Hr0. by apply delete_log_stays, S2, S1.
Qed.

(** *** Candidates *)

Definition row_ref (row : DataLogRow) : DurableDataLogRef := mkLogRef (dr_storage_node row) (dr_log_id row).

(** A row found by a query for sealed logs, then or before other logs were
    compacted. *)
Definition candidate_ok (s : LogStore) (row : DataLogRow) : Prop :=
  closed s (row_ref row) /\ (dr_live_bytes row = 0 -> vacant s (row_ref row)).

Lemma candidate_kept s s' row : kept s s' -> candidate_ok s row -> candidate_ok s' row.
Proof.
  intros K [Hc Hv]. split; [by apply (kp_closed _ _ K)|]. intros Hz. apply (kp_vacant _ _ K); auto.
Qed.

Lemma sealed_candidate s node c log row :
  store_ok s -> ls_catalogs s !! node = Some c -> nc_data_logs c !! log = Some row -> lg_state row = "sealed" ->
  candidate_ok s (decode_node_data_log_row node log row).
Proof.
  intros Hok Hc Hr Hs. split; cbn.
  - exists row. split; [by exists c|]. by rewrite Hs.
  - intros Hz id p (c' & Hc' & Hp). cbn in *. assert (c' = c) as -> by congruence.
    by eapply (live_zero _ _ _ log row), Hp; [by apply Hok|..].
Qed.

Lemma compact_log_run policy s report row :
  store_ok s -> candidate_ok s row ->
  st_run (compact_log policy report row) s
    (fun _ s' => kept s s' /\
       (cr_bytes_copied report + dr_live_bytes row <= max_compaction_copy_bytes policy -> gone s' (row_ref row)) /\
       (dr_live_bytes row = 0 -> removed s' (row_ref row)) /\ stays s s')
    (kept s).
Proof.
  intros Hok [Hc Hv]. pose proof (upkeep_preorder.(PreOrder_Reflexive) s Hok) as Hrefl. unfold compact_log.
  destruct (dr_live_bytes row =? 0) eqn:Ez; bool_prop.
  - eapply st_run_mono; [apply delete_dead_log_run; auto| |done]. intros report' s' (K & Hr & S).
    split; [done|]. split; [intros _; apply Hr|]. split; [intros _; exact Hr|exact S].
  - do 2 st_step; [|done]. rename select (ok_or _ _ = _) into Hb. apply ok_or_Ok, checked_add_Some in Hb as [_ ->].
    case_match; bool_prop; [st_step; split; [done|]; split; [lia|]; split; [lia|by intros r Hr]|].
    eapply st_run_mono; [by apply relocate_log_run| |done]. intros ? s' (K & Hr & S).
    split; [done|]. split; [intros _; apply Hr|]. split; [intros _; exact Hr|exact S].
Qed.

Lemma kept_trans s1 s2 s3 : kept s1 s2 -> kept s2 s3 -> kept s1 s3.
Proof.
  intros [A1 A2 A3 A4 A5 A6] [B1 B2 B3 B4 B5 B6]. split; [done|by etrans|auto|auto|set_solver|congruence].
Qed.

Lemma compact_rows_fold policy s report rows :
  store_ok s -> Forall (candidate_ok s) rows ->
  st_run (st_fold (compact_log policy) report rows) s
    (fun _ s' => kept s s' /\ forall row, row ∈ rows -> dr_live_bytes row = 0 -> removed s' (row_ref row)) (kept s).
Proof.
  intros Hok Hrows. apply (st_run_fold _ (fun passed _ s' => kept s s' /\
    forall row, row ∈ passed -> dr_live_bytes row = 0 -> removed s' (row_ref row))).
  { split; [by apply upkeep_preorder|]. by intros row ?%not_elem_of_nil. }
  intros done row rest rep s1 -> [K Hpast]. apply Forall_app in Hrows as [_ [Hrow _]%Forall_cons].
  eapply st_run_mono; [apply compact_log_run; [by apply K|by eapply candidate_kept]| |].
  - intros ? s2 (K2 & _ & Hz & S). split; [by eapply kept_trans|].
    intros row' [Hin| ->%list_elem_of_singleton]%elem_of_app Hl; [by apply S, Hpast|by apply Hz].
  - intros s2 K2. by eapply kept_trans.
Qed.

Lemma gone_clean s r : gone s r -> r ∉ dirty s.
Proof.
  intros (row & (c & Hc & Hr) & Hs) (row' & (c' & Hc' & Hr') & Hd)%elem_of_dirty. unfold is_dirty in Hd. simplify_eq.
  by rewrite Hs in Hd.
Qed.

(** Compaction of candidates keeps the store, and the first one that fits the
    copy budget is removed. *)
Lemma compact_rows_run policy s rows :
  store_ok s -> Forall (candidate_ok s) rows ->
  st_run (compact_data_log_rows policy rows) s
    (fun _ s' => kept s s' /\ (forall row rest, rows = row :: rest ->
       dr_live_bytes row <= max_compaction_copy_bytes policy -> row_ref row ∉ dirty s') /\
       forall row, row ∈ rows -> dr_live_bytes row = 0 -> removed s' (row_ref row))
    (kept s).
Proof.
  intros Hok Hrows. unfold compact_data_log_rows.
  assert (Hall := compact_rows_fold policy s empty_compaction_report rows Hok Hrows). revert Hall.
  destruct rows as [|row rest]; cbn [st_fold].
  { intros _. st_step. split; [by apply upkeep_preorder|]. split; [done|]. by intros row ?%not_elem_of_nil. }
  apply Forall_cons in Hrows as [Hrow Hrest]. intros Hall.
  enough (Hfirst : st_run (rep ← compact_log policy empty_compaction_report row; st_fold (compact_log policy) rep rest) s
    (fun _ s' => dr_live_bytes row <= max_compaction_copy_bytes policy -> row_ref row ∉ dirty s') (kept s)).
  { unfold st_run in *. destruct ((compact_log policy empty_compaction_report row ≫= _) s) as [[a|e] s2]; [|done]. destruct Hall as [K Hz]. split; [done|]. split; [|done].
    by intros row' rest' [= <- <-]. }
  st_step. eapply st_run_mono; [by apply compact_log_run| |done]. intros rep s1 (K1 & Hg & _).
  eapply st_run_mono; [apply compact_rows_fold; [by apply K1|]| |].
  - eapply Forall_impl; [done|]. intros x. by apply candidate_kept.
  - intros ? s2 [K2 _] Hle Hd. apply (kp_dirty _ _ K2) in Hd. apply gone_clean in Hd; [done|]. apply Hg. cbn. lia.
  - intros s2 K2. by eapply kept_trans.
Qed.

Lemma compaction_candidates_ok s policy :
  store_ok s -> Forall (candidate_ok s) (compaction_candidates s policy).
Proof.
  intros Hok. unfold compaction_candidates. rewrite sort_by_tuple_perm. apply Forall_forall. intros row Hin.
  apply list_elem_of_bind in Hin as ([node c] & Hin & Hc%elem_of_bt_iter).
  apply list_elem_of_In, List.filter_In in Hin as [Hin _]. apply list_elem_of_In, list_elem_of_fmap in Hin as ([log r] & -> & Hin).
  apply list_elem_of_In, List.filter_In in Hin as [Hin Hs]. apply list_elem_of_In, elem_of_bt_iter in Hin.
  eapply sealed_candidate; [done|done|done|]. by apply String.eqb_eq.
Qed.

Lemma compact_data_logs_run policy s :
  store_ok s -> st_run (compact_data_logs policy) s (fun _ s' => kept s s') (kept s).
Proof.
  intros Hok. unfold compact_data_logs. do 2 st_step; [|by apply upkeep_preorder]. do 2 st_step.
  eapply st_run_mono; [by apply compact_rows_run, compaction_candidates_ok|by intros ? ? [? _]|done].
Qed.

(** What [compaction_candidates_for_refs] finds for a log. *)
Lemma candidate_for_ref_Ok s policy r row :
  candidate_for_ref s policy r = Ok row -> exists c, ls_catalogs s !! lr_storage_node r = Some c /\
    row = (m ← nc_data_logs c !! lr_log_id r;
           if String.eqb (lg_state m) "sealed" then
             let d := decode_node_data_log_row (lr_storage_node r) (lr_log_id r) m in
             if lg_total_bytes m =? 0 then None
             else if (lg_live_bytes m =? 0) || enough_reclaimable policy d then Some d else None
           else None).
Proof.
  unfold candidate_for_ref. intros (c & Hc%ok_or_Ok & Hr)%bind_Ok. apply bind_Ok in Hr as (i & _ & [= <-]).
  exists c. split; [done|]. by destruct (nc_data_logs c !! lr_log_id r).
Qed.

Lemma refs_candidates_ok s policy logs rows :
  store_ok s -> compaction_candidates_for_refs s policy logs = Ok rows -> Forall (candidate_ok s) rows.
Proof.
  intros Hok (found & Hf & [= <-])%bind_Ok. apply try_map_Ok in Hf. apply Forall_forall. intros row Hin.
  apply list_elem_of_omap in Hin as (o & Hin & ->). apply list_elem_of_lookup_1 in Hin as [i Hi].
  destruct (Forall2_lookup_r _ _ _ _ _ Hf Hi) as (r & _ & Hr). apply candidate_for_ref_Ok in Hr as (c & Hc & E).
  symmetry in E. apply bind_Some in E as (m & Hm & E). destruct (String.eqb_spec (lg_state m) "sealed") as [Hs|]; [|done].
  cbn in E. destruct (lg_total_bytes m =? 0); [done|]. destruct (_ || _); [|done]. injection E as <-.
  by eapply sealed_candidate.
Qed.

Lemma compact_refs_run policy s logs :
  store_ok s ->
  st_run (compact_data_log_refs policy logs) s
    (fun _ s' => kept s s' /\ exists rows, compaction_candidates_for_refs s policy logs = Ok rows /\
       (forall row rest, rows = row :: rest -> dr_live_bytes row <= max_compaction_copy_bytes policy ->
          row_ref row ∉ dirty s') /\
       forall row, row ∈ rows -> dr_live_bytes row = 0 -> removed s' (row_ref row))
    (kept s).
Proof.
  intros Hok. unfold compact_data_log_refs. do 2 st_step; [|by apply upkeep_preorder].
  do 2 st_step; [|by apply upkeep_preorder]. rename select (compaction_candidates_for_refs _ _ _ = _) into Hc.
  eapply st_run_mono; [by eapply compact_rows_run, refs_candidates_ok| |done]. intros ? s' [K Hd].
  split; [done|]. by eexists.
Qed.
End upkeep.

(** ** Crashes *)

Section crashes.
Context `{Crc32cCrate}.

Lemma crash_synced f f' :
  synced_ok f -> crash_file (Some f) (Some f') -> synced_bytes f `prefix_of` synced_bytes f'.
Proof.
  intros Hs ([suf E] & Hle & Hs' & _). unfold synced_bytes. rewrite Hs', Nat2Z.id, firstn_all, E.
  rewrite take_app_le by lia. apply prefix_take.
Qed.

(** A crash loses what was not synced and nothing that a placement names. *)
Lemma crash_ok s files' :
  store_ok s -> crash_files (ls_files s) files' ->
  store_ok (set_ls_files files' s) /\ same_payloads s (set_ls_files files' s).
Proof.
  intros Hok Hcr.
  assert (Hlinked : forall r f, ls_files s !! r = Some f -> lf_linked f = true -> exists f',
    files' !! r = Some f' /\ lf_linked f' = true /\ lf_synced f <= lf_synced f' /\ synced_bytes f `prefix_of` synced_bytes f').
  { intros r f Hf Hl. pose proof (Hcr r) as Hr. rewrite Hf in Hr. destruct (files' !! r) as [f'|]; [|cbn in Hr; congruence].
    exists f'. pose proof (so_synced _ Hok _ _ Hf) as Hs. split; [done|]. pose proof (crash_synced _ _ Hs Hr).
    destruct Hr as (_ & Hle & Hs' & Hl'). split; [done|]. split; [lia|done]. }
  split.
  - split; cbn.
    + intros r f' Hf'. pose proof (Hcr r) as Hr. rewrite Hf' in Hr. destruct (ls_files s !! r); [|done].
      destruct Hr as (_ & _ & Hs' & _). unfold synced_ok. lia.
    + intros node c Hc. destruct (so_nodes _ Hok _ _ Hc) as [P R L]. split; [..|done].
      * intros id p Hp. destruct (P id p Hp) as (H1 & H2 & H3 & H4 & f & bytes & Hf & Hl & Hpl). conj_split; try done.
        destruct (Hlinked _ _ Hf Hl) as (f' & Hf' & Hl' & _ & Hpre). exists f', bytes. conj_split; try done.
        by eapply placed_prefix.
      * intros log row Hr Hs. destruct (R log row Hr Hs) as (f & Hf & Hl & Ht).
        destruct (Hlinked _ _ Hf Hl) as (f' & Hf' & Hl' & Hle & _). exists f'. conj_split; try done. lia.
  - intros node id. unfold segment_payload, placement_for_segment_on_node. cbn.
    destruct (ls_catalogs s !! node) as [c|] eqn:Hc; [|done]. cbn.
    destruct (nc_placements c !! id) as [[p [|]]|] eqn:Hp; [|done|done]. cbn.
    destruct (current_payload s node c id p Hok Hc Hp) as (f & bytes & Hf & Hpl & _ & ->).
    destruct (nk_placed _ _ _ (so_nodes _ Hok _ _ Hc) id p Hp) as (_ & _ & _ & _ & f0 & b0 & Hf0 & Hl & _).
    assert (f0 = f) as -> by congruence. destruct (Hlinked _ _ Hf Hl) as (f' & Hf' & _ & _ & Hpre).
    eapply placed_read; [done|]. eapply placed_prefix; [apply synced_bytes_le|]. by eapply placed_prefix.
Qed.
End crashes.

(** ** Ticks *)

Section tick_theory.
Context `{Crc32cCrate}.

Lemma on_durable_run {A} (m : ST LogStore A) parts (Q : A -> DurableMaintenanceParts -> Prop) E :
  st_run m (mp_durable parts) (fun a s => Q a (mkMaintenanceParts s (mp_cursor parts) (mp_policy parts)))
    (fun s => E (mkMaintenanceParts s (mp_cursor parts) (mp_policy parts))) ->
  st_run (on_durable m) parts Q E.
Proof. unfold st_run, on_durable. by destruct (m (mp_durable parts)) as [[a|e] s]. Qed.

Lemma observed_log node conn log :
  log ∈ on_logs (observe_node node conn) -> exists row,
    nc_data_logs conn !! lr_log_id (ob_log_ref log) = Some row /\ lg_state row = "sealed" /\
    log = mkLogObservation (mkLogRef node (lr_log_id (ob_log_ref log))) (lg_total_bytes row) (lg_live_bytes row)
      (lg_dead_bytes row) (lg_dead_bytes row).
Proof.
  unfold observe_node.
  assert (Hgen : forall l o, (forall kv, kv ∈ l -> nc_data_logs conn !! kv.1 = Some kv.2) ->
    log ∈ on_logs (fold_left (observe_log node) l o) -> log ∈ on_logs o \/ exists row,
      nc_data_logs conn !! lr_log_id (ob_log_ref log) = Some row /\ lg_state row = "sealed" /\
      log = mkLogObservation (mkLogRef node (lr_log_id (ob_log_ref log))) (lg_total_bytes row) (lg_live_bytes row)
        (lg_dead_bytes row) (lg_dead_bytes row)).
  { induction l as [|[k row] l IH]; intros o Hl Hin; [by left|]. cbn [fold_left] in Hin.
    destruct (IH _ ltac:(intros; apply Hl; by right) Hin) as [Ho|Ho]; [|by right].
    unfold observe_log in Ho. destruct (_ || _); [by left|]. destruct (String.eqb_spec (lg_state row) "sealed") as [Hs|]; [|by left].
    cbn in Ho. apply elem_of_app in Ho as [Ho|Ho]; [by left|]. apply list_elem_of_singleton in Ho. subst log.
    right. exists row. cbn. split; [by apply (Hl (k, row)); left|done]. }
  intros Hin. destruct (Hgen _ _ ltac:(intros kv Hkv; apply list_elem_of_In, List.filter_In in Hkv as [Hkv _];
    destruct kv; by apply elem_of_bt_iter, list_elem_of_In) Hin) as [?%not_elem_of_nil|?]; done.
Qed.

Lemma candidate_observed policy s cursor w1 w2 wal log :
  log ∈ candidates_of policy (maintenance_observation s cursor w1 w2 wal) ->
  log_is_compaction_candidate policy log = true /\ exists row, log_row s (ob_log_ref log) row /\
    lg_state row = "sealed" /\ ob_total_bytes log = lg_total_bytes row /\ ob_live_bytes log = lg_live_bytes row /\
    ob_dead_bytes log = lg_dead_bytes row.
Proof.
  unfold candidates_of. intros Hin.
  assert (Hin' : log ∈ List.filter (log_is_compaction_candidate policy)
    (obs_nodes (maintenance_observation s cursor w1 w2 wal) ≫= on_logs)).
  { rewrite <-(sort_by_tuple_perm (fun log => log_ref_key (ob_log_ref log))). unfold rotate_to_cursor in Hin.
    destruct (obs_compaction_cursor _); [|done]. destruct (list_find _ _) as [[i x]|]; [|done].
    apply elem_of_app in Hin. rewrite <-(take_drop i (sort_by_tuple _ _)). apply elem_of_app. tauto. }
  apply list_elem_of_In, List.filter_In in Hin' as [Hin' Hc]. split; [done|].
  apply list_elem_of_In, list_elem_of_bind in Hin' as (o & Hlog & Ho). cbn in Ho.
  apply list_elem_of_fmap in Ho as ([node conn] & -> & Hn%elem_of_bt_iter).
  destruct (observed_log _ _ _ Hlog) as (row & Hr & Hs & E). exists row. rewrite E. cbn.
  split; [by exists conn|]. done.
Qed.

Lemma select_run l budget selected skipped :
  exists b new skipped', fold_left select_step l (budget, selected, skipped) = (b, selected ++ new, skipped') /\
    match new with
    | [] => forall log, log ∈ l -> budget < ob_live_bytes log
    | r :: _ => exists log, log ∈ l /\ ob_log_ref log = r /\ ob_live_bytes log <= budget
    end.
Proof.
  revert budget selected skipped. induction l as [|log l IH]; intros budget selected skipped; cbn [fold_left].
  { exists budget, [], skipped. rewrite app_nil_r. split; [done|]. by intros log ?%not_elem_of_nil. }
  unfold select_step at 2. case_match; bool_prop.
  - destruct (IH budget selected (skipped ++ [mkSkippedLog (ob_log_ref log) "copy_budget_exhausted"])) as (b & new & sk & -> & Hnew).
    exists b, new, sk. split; [done|]. destruct new as [|r new].
    + intros log' [->|Hin]%elem_of_cons; [done|by apply Hnew].
    + destruct Hnew as (log' & ? & ? & ?). exists log'. split; [by right|done].
  - destruct (IH (saturating_sub budget (ob_live_bytes log)) (selected ++ [ob_log_ref log]) skipped) as (b & new & sk & -> & _).
    exists b, (ob_log_ref log :: new), sk. rewrite <-app_assoc. split; [done|]. exists log. split; [by left|done].
Qed.

(** The plan of a tick: nothing to do, and every scanned candidate is over the
    budget; or logs to compact, the first of which is a candidate within it. *)
Lemma step_plan policy obs :
  let plan := step policy obs in
  let scanned := take (Z.to_nat (max_logs_scanned_per_tick policy)) (candidates_of policy obs) in
  let budget := compaction_copy_budget_per_tick policy in
  (tp_commands plan = [] /\ tp_next_cursor plan = obs_compaction_cursor obs /\
    forall log, log ∈ scanned -> budget < ob_live_bytes log) \/
  (exists log rest, tp_commands plan = [CompactDataLogs (ob_log_ref log :: rest)] /\ log ∈ scanned /\
    ob_live_bytes log <= budget).
Proof.
  intros plan scanned budget. subst plan. unfold step. cbv zeta.
  destruct (select_run scanned budget [] ((fun log => mkSkippedLog (ob_log_ref log) "below_reclaim_threshold") <$>
    List.filter (fun log => negb (log_is_compaction_candidate policy log)) (obs_nodes obs ≫= on_logs)))
    as (b & new & sk & E & Hnew). subst scanned budget. rewrite E. cbn [app tp_commands tp_next_cursor]. destruct new as [|r new].
  - left. rewrite bool_decide_true by done. done.
  - right. destruct Hnew as (log & Hin & <- & Hle). exists log, new. rewrite bool_decide_false by done. done.
Qed.

Lemma cursor_kept s cursor : store_ok s -> kept s (set_ls_cursor cursor s).
Proof. intros [A B]. by split. Qed.

(** Compaction can make progress under the policy: a log without dead bytes is
    never a candidate, and what the scheduler selects the executor copies. *)
Definition productive (policy : MaintenancePolicy) : Prop :=
  (1 <= min_reclaimable_bytes (data_log_policy policy) \/
   1 <= min_reclaimable_ratio_ppm (data_log_policy policy)) /\
  compaction_copy_budget_per_tick policy <= max_compaction_copy_bytes (data_log_policy policy).

(** The first selected log is found again by the executor. *)
Lemma selected_found policy s cursor w1 w2 wal log rest rows :
  productive policy ->
  log ∈ candidates_of policy (maintenance_observation s cursor w1 w2 wal) ->
  compaction_candidates_for_refs s (maintenance_tick_data_log_policy policy) (ob_log_ref log :: rest) = Ok rows ->
  ob_log_ref log ∈ dirty s /\
  exists row rest', rows = row :: rest' /\ row_ref row = ob_log_ref log /\ dr_live_bytes row = ob_live_bytes log.
Proof.
  intros [Hpos _] Hin Hrows. destruct (candidate_observed _ _ _ _ _ _ _ Hin) as (Hc & m & (c & Hcat & Hm) & Hs & Et & El & Ed).
  unfold log_is_compaction_candidate in Hc. rewrite Et, El, Ed in Hc.
  destruct (lg_total_bytes m =? 0) eqn:E0; [done|].
  assert (Hdead : lg_dead_bytes m <> 0).
  { intros Hz. rewrite Hz in Hc. cbn [Z.eqb negb] in Hc. rewrite andb_false_r in Hc. bool_prop.
    unfold reclaimable_ratio in *. change (Z.min (U64_MOD - 1) (0 * 1000000)) with 0 in *. rewrite Z.div_0_l in * by done. lia. }
  split.
  { apply elem_of_dirty. exists m. split; [by exists c|]. unfold is_dirty. rewrite Hs. cbn. by apply negb_true_iff, Z.eqb_neq. }
  unfold compaction_candidates_for_refs in Hrows. apply bind_Ok in Hrows as (found & Hf & [= <-]).
  apply try_map_Ok, Forall2_cons_inv_l in Hf as (o & found' & Ho & _ & ->).
  apply candidate_for_ref_Ok in Ho as (c' & Hc' & ->). assert (c' = c) as -> by congruence. rewrite Hm. cbn [mbind option_bind].
  rewrite Hs. cbn [String.eqb Ascii.eqb Bool.eqb]. cbv zeta. rewrite E0.
  replace (_ || _) with true.
  { cbn. eexists _, _. split; [done|]. cbn. split; [by destruct (ob_log_ref log)|done]. }
  symmetry. unfold enough_reclaimable. cbn. destruct (lg_live_bytes m =? 0) eqn:E1; [done|]. cbn in Hc |- *. exact Hc.
Qed.

Lemma run_command_run parts logs :
  store_ok (mp_durable parts) ->
  st_run (run_command empty_compaction_report (CompactDataLogs logs)) parts
    (fun _ parts' => kept (mp_durable parts) (mp_durable parts') /\ mp_policy parts' = mp_policy parts /\
       mp_cursor parts' = mp_cursor parts /\
       exists rows, compaction_candidates_for_refs (mp_durable parts)
           (maintenance_tick_data_log_policy (mp_policy parts)) logs = Ok rows /\
         (forall row rest, rows = row :: rest ->
           dr_live_bytes row <= max_compaction_copy_bytes (maintenance_tick_data_log_policy (mp_policy parts)) ->
           row_ref row ∉ dirty (mp_durable parts')) /\
         forall row, row ∈ rows -> dr_live_bytes row = 0 -> removed (mp_durable parts') (row_ref row))
    (fun parts' => kept (mp_durable parts) (mp_durable parts') /\ mp_policy parts' = mp_policy parts).
Proof.
  intros Hok. unfold run_command. do 2 st_step. st_step. apply on_durable_run.
  eapply st_run_mono; [by apply compact_refs_run| |by split]. intros report s' [K Hrows].
  do 2 (do 2 st_step; [|by split]). st_step. by split.
Qed.

Lemma tick_run w1 w2 wal parts :
  let scanned := take (Z.to_nat (max_logs_scanned_per_tick (mp_policy parts)))
    (candidates_of (mp_policy parts) (maintenance_observation (mp_durable parts) (mp_cursor parts) w1 w2
      (if policy_uses_sqlite_wal_pressure (mp_policy parts) then wal else 0))) in
  store_ok (mp_durable parts) ->
  st_run (run_maintenance_tick_parts w1 w2 wal) parts
    (fun report parts' => kept (mp_durable parts) (mp_durable parts') /\ mp_policy parts' = mp_policy parts /\
       (tp_commands (tr_plan report) = [] -> parts' = parts /\
          forall log, log ∈ scanned -> compaction_copy_budget_per_tick (mp_policy parts) < ob_live_bytes log) /\
       (tp_commands (tr_plan report) <> [] -> productive (mp_policy parts) ->
          dirty (mp_durable parts') ⊂ dirty (mp_durable parts)))
    (fun parts' => kept (mp_durable parts) (mp_durable parts') /\ mp_policy parts' = mp_policy parts).
Proof.
  intros scanned Hok. pose proof (upkeep_preorder.(PreOrder_Reflexive) _ Hok) as Hrefl.
  unfold run_maintenance_tick_parts. do 2 st_step. do 2 st_step; [|by split]. cbv zeta.
  set (obs := maintenance_observation _ _ _ _ _) in *. set (plan := step (mp_policy parts) obs).
  destruct (step_plan (mp_policy parts) obs) as [(Ec & En & Hover)|(log & rest & Ec & Hlog & Hle)]; fold plan in Ec.
  - rewrite Ec. cbn [st_fold]. do 2 st_step. fold plan in En. rewrite En, bool_decide_true by done. do 3 st_step.
    cbn [tr_plan]. by rewrite Ec.
  - rewrite Ec. cbn [st_fold]. do 2 st_step. eapply st_run_mono; [by apply run_command_run| |done].
    intros rep p1 (K1 & Ep1 & Ecur & rows & Hrows & Hclean & _). do 2 st_step.
    assert (Hpost : forall p2, kept (mp_durable p1) (mp_durable p2) -> mp_policy p2 = mp_policy p1 ->
      kept (mp_durable parts) (mp_durable p2) /\ mp_policy p2 = mp_policy parts /\
      (tp_commands plan = [] -> p2 = parts /\ forall l, l ∈ scanned ->
         compaction_copy_budget_per_tick (mp_policy parts) < ob_live_bytes l) /\
      (tp_commands plan <> [] -> productive (mp_policy parts) -> dirty (mp_durable p2) ⊂ dirty (mp_durable parts))).
    { intros p2 K2 Ep2. split; [by eapply kept_trans|]. split; [congruence|]. rewrite Ec. split; [done|]. intros _ Hprod.
      assert (Hin : log ∈ candidates_of (mp_policy parts) obs) by (rewrite <-(take_drop (Z.to_nat (max_logs_scanned_per_tick (mp_policy parts))) (candidates_of _ _)); apply elem_of_app; by left).
      destruct (selected_found _ _ _ _ _ _ _ _ _ Hprod Hin Hrows) as (Hd & row & rest' & Er & Eref & El).
      pose proof (kp_dirty _ _ K1). pose proof (kp_dirty _ _ K2).
      assert (ob_log_ref log ∉ dirty (mp_durable p1)); [|set_solver]. rewrite <-Eref. apply (Hclean row rest' Er).
      rewrite El. cbn. destruct Hprod as [_ Hb]. lia. }
    pose proof (kp_ok _ _ K1) as Hok1. pose proof (upkeep_preorder.(PreOrder_Reflexive) _ Hok1) as Hrefl1.
    case_bool_decide; [do 2 st_step; by apply Hpost|]. st_step. apply on_durable_run.
    unfold persist_maintenance_cursor. destruct (tp_next_cursor plan) as [cur|].
    + st_step. st_step; [|by split]. do 3 st_step. apply Hpost; [by apply cursor_kept|done].
    + do 3 st_step. apply Hpost; [by apply cursor_kept|done].
Qed.

(** *** Logs without live bytes *)

Lemma select_zero l budget selected skipped :
  exists b new skipped', fold_left select_step l (budget, selected, skipped) = (b, selected ++ new, skipped') /\
    (0 <= budget -> forall log, log ∈ l -> ob_live_bytes log = 0 -> ob_log_ref log ∈ new).
Proof.
  revert budget selected skipped. induction l as [|log l IH]; intros budget selected skipped; cbn [fold_left].
  { exists budget, [], skipped. rewrite app_nil_r. split; [done|]. by intros _ log ?%not_elem_of_nil. }
  unfold select_step at 2. case_match; bool_prop.
  - destruct (IH budget selected (skipped ++ [mkSkippedLog (ob_log_ref log) "copy_budget_exhausted"]))
      as (b & new & sk & -> & Hnew). exists b, new, sk. split; [done|].
    intros Hb log' [->|Hin]%elem_of_cons Hz; [lia|by apply Hnew].
  - destruct (IH (saturating_sub budget (ob_live_bytes log)) (selected ++ [ob_log_ref log]) skipped)
      as (b & new & sk & -> & Hnew). exists b, (ob_log_ref log :: new), sk. rewrite <-app_assoc. split; [done|].
    intros Hb log' [->|Hin]%elem_of_cons Hz; [by left|]. right. apply Hnew; [|done..]. unfold saturating_sub. lia.
Qed.

(** A tick selects every scanned log without live bytes. *)
Lemma step_zero policy obs log :
  0 <= compaction_copy_budget_per_tick policy ->
  log ∈ take (Z.to_nat (max_logs_scanned_per_tick policy)) (candidates_of policy obs) -> ob_live_bytes log = 0 ->
  exists logs, tp_commands (step policy obs) = [CompactDataLogs logs] /\ ob_log_ref log ∈ logs.
Proof.
  intros Hb Hin Hz. unfold step. cbv zeta.
  destruct (select_zero (take (Z.to_nat (max_logs_scanned_per_tick policy)) (candidates_of policy obs))
    (compaction_copy_budget_per_tick policy) [] ((fun log => mkSkippedLog (ob_log_ref log) "below_reclaim_threshold") <$>
    List.filter (fun log => negb (log_is_compaction_candidate policy log)) (obs_nodes obs ≫= on_logs)))
    as (b & new & sk & -> & Hnew). cbn [app tp_commands]. specialize (Hnew Hb log Hin Hz).
  destruct new as [|r new]; [by apply not_elem_of_nil in Hnew|]. rewrite bool_decide_false by done. by eexists.
Qed.

Lemma zero_found policy s cursor w1 w2 wal log logs rows :
  log ∈ candidates_of policy (maintenance_observation s cursor w1 w2 wal) -> ob_live_bytes log = 0 ->
  ob_log_ref log ∈ logs ->
  compaction_candidates_for_refs s (maintenance_tick_data_log_policy policy) logs = Ok rows ->
  exists row, row ∈ rows /\ row_ref row = ob_log_ref log /\ dr_live_bytes row = 0.
Proof.
  intros Hin Hz Hlog Hrows. destruct (candidate_observed _ _ _ _ _ _ _ Hin) as (Hc & m & (c & Hcat & Hm) & Hs & Et & El & _).
  unfold log_is_compaction_candidate in Hc. rewrite Et in Hc. destruct (lg_total_bytes m =? 0) eqn:E0; [done|].
  unfold compaction_candidates_for_refs in Hrows. apply bind_Ok in Hrows as (found & Hf & [= <-]). apply try_map_Ok in Hf.
  apply list_elem_of_lookup_1 in Hlog as [i Hi]. destruct (Forall2_lookup_l _ _ _ _ _ Hf Hi) as (o & Ho & Hr).
  apply candidate_for_ref_Ok in Hr as (c' & Hc' & ->). assert (c' = c) as -> by congruence.
  rewrite Hm in Ho. cbn [mbind option_bind] in Ho. rewrite Hs in Ho. cbn [String.eqb Ascii.eqb Bool.eqb] in Ho. cbv zeta in Ho.
  rewrite E0, <-El, Hz in Ho. cbn [Z.eqb orb] in Ho.
  eexists. split; [apply list_elem_of_omap; eexists; split; [by eapply list_elem_of_lookup_2|reflexivity]|].
  cbn. rewrite <-El, Hz. by destruct (ob_log_ref log).
Qed.

(** A tick that succeeds removes every scanned log without live bytes. *)
Lemma tick_removes w1 w2 wal parts log report parts' :
  store_ok (mp_durable parts) -> 0 <= compaction_copy_budget_per_tick (mp_policy parts) ->
  log ∈ take (Z.to_nat (max_logs_scanned_per_tick (mp_policy parts)))
    (candidates_of (mp_policy parts) (maintenance_observation (mp_durable parts) (mp_cursor parts) w1 w2
      (if policy_uses_sqlite_wal_pressure (mp_policy parts) then wal else 0))) ->
  ob_live_bytes log = 0 -> run_maintenance_tick_parts w1 w2 wal parts = (Ok report, parts') ->
  removed (mp_durable parts') (ob_log_ref log).
Proof.
  intros Hok Hb Hin Hz. enough (Hrun : st_run (run_maintenance_tick_parts w1 w2 wal) parts
    (fun _ parts' => removed (mp_durable parts') (ob_log_ref log)) (fun _ => True)).
  { intros E. unfold st_run in Hrun. by rewrite E in Hrun. }
  unfold run_maintenance_tick_parts. do 2 st_step. do 2 st_step; [|done]. cbv zeta.
  set (obs := maintenance_observation _ _ _ _ _) in *. set (plan := step (mp_policy parts) obs).
  destruct (step_zero (mp_policy parts) obs log Hb Hin Hz) as (logs & Ec & Hlogs). fold plan in Ec. rewrite Ec. cbn [st_fold].
  do 2 st_step. eapply st_run_mono; [by apply run_command_run| |done].
  intros rep p1 (_ & _ & _ & rows & Hrows & _ & Hrem).
  assert (Hin' : log ∈ candidates_of (mp_policy parts) obs).
  { rewrite <-(take_drop (Z.to_nat (max_logs_scanned_per_tick (mp_policy parts))) (candidates_of _ _)). apply elem_of_app. by left. }
  destruct (zero_found _ _ _ _ _ _ _ _ _ Hin' Hz Hlogs Hrows) as (row & Hrow & Eref & El).
  specialize (Hrem row Hrow El). rewrite Eref in Hrem. do 2 st_step.
  case_bool_decide; [by do 2 st_step|]. st_step. apply on_durable_run.
  unfold persist_maintenance_cursor. destruct (tp_next_cursor plan) as [cur|].
  - st_step. st_step; [|done]. by do 3 st_step.
  - by do 3 st_step.
Qed.

(** *** Logs that the executor skips *)

Lemma elem_of_rotate cursor logs log : log ∈ rotate_to_cursor cursor logs <-> log ∈ logs.
Proof.
  unfold rotate_to_cursor. destruct cursor as [c|]; [|done]. destruct (list_find _ _) as [[i x]|]; [|done].
  rewrite <-(take_drop i logs) at 3. rewrite !elem_of_app. tauto.
Qed.

Lemma select_from l budget selected skipped :
  exists b new skipped', fold_left select_step l (budget, selected, skipped) = (b, selected ++ new, skipped') /\
    forall r, r ∈ new -> exists log, log ∈ l /\ ob_log_ref log = r.
Proof.
  revert budget selected skipped. induction l as [|log l IH]; intros budget selected skipped; cbn [fold_left].
  { exists budget, [], skipped. rewrite app_nil_r. split; [done|]. by intros r ?%not_elem_of_nil. }
  unfold select_step at 2. case_match.
  - destruct (IH budget selected (skipped ++ [mkSkippedLog (ob_log_ref log) "copy_budget_exhausted"]))
      as (b & new & sk & -> & Hnew). exists b, new, sk. split; [done|].
    intros r Hr. destruct (Hnew r Hr) as (log' & ? & ?). exists log'. split; [by right|done].
  - destruct (IH (saturating_sub budget (ob_live_bytes log)) (selected ++ [ob_log_ref log]) skipped)
      as (b & new & sk & -> & Hnew). exists b, (ob_log_ref log :: new), sk. rewrite <-app_assoc. split; [done|].
    intros r [->|Hr]%elem_of_cons; [exists log; split; [by left|done]|].
    destruct (Hnew r Hr) as (log' & ? & ?). exists log'. split; [by right|done].
Qed.

(** What a tick compacts was scanned, and its cursor is one of these logs. *)
Lemma step_from policy obs logs :
  tp_commands (step policy obs) = [CompactDataLogs logs] ->
  (forall r, r ∈ logs -> exists log, log ∈ candidates_of policy obs /\ ob_log_ref log = r) /\
  exists r, r ∈ logs /\ tp_next_cursor (step policy obs) = Some r.
Proof.
  unfold step. cbv zeta.
  destruct (select_from (take (Z.to_nat (max_logs_scanned_per_tick policy)) (candidates_of policy obs))
    (compaction_copy_budget_per_tick policy) [] ((fun log => mkSkippedLog (ob_log_ref log) "below_reclaim_threshold") <$>
    List.filter (fun log => negb (log_is_compaction_candidate policy log)) (obs_nodes obs ≫= on_logs)))
    as (b & new & sk & -> & Hnew). cbn [app tp_commands tp_next_cursor]. case_bool_decide as Hn; [done|]. intros [= <-]. split.
  - intros r Hr. destruct (Hnew r Hr) as (log & Hin & ?). exists log. split; [|done].
    rewrite <-(take_drop (Z.to_nat (max_logs_scanned_per_tick policy)) (candidates_of policy obs)). apply elem_of_app. by left.
  - destruct (last new) as [r|] eqn:E; [|by apply last_None in E]. exists r. split; [|done]. by apply last_Some_elem_of.
Qed.

(** More than a compaction may copy, and not more than the budget of a tick. *)
Definition skipped_log (policy : MaintenancePolicy) (log : MaintenanceDataLogObservation) : Prop :=
  max_compaction_copy_bytes (data_log_policy policy) < ob_live_bytes log <= compaction_copy_budget_per_tick policy.

(** The types of the fields that a plan uses. *)
Definition policy_typed (policy : MaintenancePolicy) : Prop :=
  0 <= max_compaction_copy_bytes (data_log_policy policy) /\ in_u64 (compaction_copy_budget_per_tick policy) /\
  0 <= max_logs_scanned_per_tick policy.

Lemma refs_found policy s logs :
  (forall r, r ∈ logs -> lr_log_id r < 2 ^ 63 /\ exists row, log_row s r row) ->
  exists rows, compaction_candidates_for_refs s policy logs = Ok rows /\
    forall d, d ∈ rows -> exists r row, r ∈ logs /\ log_row s r row /\ dr_live_bytes d = lg_live_bytes row.
Proof.
  unfold compaction_candidates_for_refs. induction logs as [|r logs IH]; intros Hl.
  { exists []. split; [done|]. by intros d ?%not_elem_of_nil. }
  destruct IH as (rows & Hrows & Hin); [intros; apply Hl; by right|].
  apply bind_Ok in Hrows as (found & Hf & [= <-]). destruct (Hl r ltac:(by left)) as (Hi & row & c & Hc & Hr).
  assert (Hone : exists o, candidate_for_ref s policy r = Ok o /\ forall d, o = Some d -> dr_live_bytes d = lg_live_bytes row).
  { unfold candidate_for_ref. rewrite Hc. cbn [ok_or mbind Result_bind]. unfold u64_to_i64.
    rewrite (proj2 (Z.ltb_lt _ _) Hi), Hr. cbn [mbind Result_bind option_bind]. eexists. split; [done|]. intros d.
    destruct (String.eqb _ _); [|done]. cbv zeta. destruct (dr_total_bytes _ =? 0); [done|].
    destruct (_ || _); [|done]. by intros [= <-]. }
  destruct Hone as (o & Ho & Hd). eexists. cbn [try_map]. rewrite Ho. cbn [mbind Result_bind]. rewrite Hf.
  split; [reflexivity|]. intros d. rewrite list_elem_of_omap. intros (x & [->|Hx]%elem_of_cons & Hxd); cbn in Hxd.
  - exists r, row. split; [by left|]. split; [by exists c|]. by apply Hd.
  - destruct (Hin d) as (r' & row' & ? & ? & ?); [apply list_elem_of_omap; by exists x|]. exists r', row'. split; [by right|done].
Qed.

Lemma skipped_rows policy rows report s :
  cr_bytes_copied report = 0 ->
  (forall row, row ∈ rows -> 0 < dr_live_bytes row < U64_MOD /\ max_compaction_copy_bytes policy < dr_live_bytes row) ->
  st_fold (compact_log policy) report rows s = (Ok report, s).
Proof.
  intros Hz. induction rows as [|row rows IH]; intros Hr; cbn [st_fold]; [done|].
  destruct (Hr row ltac:(by left)) as [Hp Hm].
  assert (E : compact_log policy report row s = (Ok report, s)).
  { unfold compact_log. rewrite (proj2 (Z.eqb_neq _ _)) by lia. rewrite st_bind_lift, Hz, checked_add_ok by lia. cbn [ok_or].
    by rewrite (proj2 (Z.ltb_lt _ _)) by lia. }
  rewrite (st_bind_step _ _ _ _ _ E). apply IH. intros. apply Hr. by right.
Qed.

Lemma tick_policy_validate policy :
  MaintenancePolicy_validate policy = Ok tt -> policy_typed policy ->
  DataLogPolicy_validate (maintenance_tick_data_log_policy policy) = Ok tt.
Proof.
  intros Hv (H0 & [H1 _] & _). unfold MaintenancePolicy_validate in Hv. ok_inv. bool_prop.
  rename select (DataLogPolicy_validate _ = Ok _) into Hd. unfold DataLogPolicy_validate in Hd |- *. ok_inv. bool_prop.
  cbn [maintenance_tick_data_log_policy target_data_log_bytes file_sync_fanout min_reclaimable_ratio_ppm max_compaction_copy_bytes].
  rewrite (proj2 (Z.eqb_neq _ _)) by lia. cbn [reject_if mbind Result_bind].
  rewrite (proj2 (Z.eqb_neq _ _)) by lia. cbn [reject_if mbind Result_bind].
  rewrite (proj2 (Z.ltb_ge _ _)) by lia. cbn [reject_if mbind Result_bind].
  by rewrite (proj2 (Z.eqb_neq _ _)) by lia.
Qed.

(** A tick over logs that are all skipped by the executor has commands, and
    moves only the cursors. *)
Lemma tick_skips wal parts :
  let logs := candidates_of (mp_policy parts) (maintenance_observation (mp_durable parts) (mp_cursor parts) 0 0 0) in
  MaintenancePolicy_validate (mp_policy parts) = Ok tt -> policy_typed (mp_policy parts) -> logs <> [] ->
  (forall log, log ∈ logs -> skipped_log (mp_policy parts) log /\ lr_log_id (ob_log_ref log) < 2 ^ 63) ->
  exists report c1 c2, run_maintenance_tick_parts 0 0 wal parts =
      (Ok report, mkMaintenanceParts (set_ls_cursor c1 (mp_durable parts)) c2 (mp_policy parts)) /\
    tp_commands (tr_plan report) <> [].
Proof.
  intros logs Hval Hty Hne Hlogs. pose proof Hty as (H0 & [_ Hb] & Hscan).
  assert (Hn : max_logs_scanned_per_tick (mp_policy parts) <> 0).
  { pose proof Hval as Hv. unfold MaintenancePolicy_validate in Hv. ok_inv. by bool_prop. }
  unfold run_maintenance_tick_parts. rewrite st_bind_run. cbn [st_get]. rewrite st_bind_lift, Hval. cbv zeta.
  set (obs := maintenance_observation _ _ _ _ _). set (plan := step (mp_policy parts) obs).
  change logs with (candidates_of (mp_policy parts) obs) in *.
  destruct (step_plan (mp_policy parts) obs) as [(_ & _ & Hover)|(log & rest & Ec & _ & _)].
  { exfalso. destruct (candidates_of (mp_policy parts) obs) as [|log l] eqn:El; [done|].
    destruct (Hlogs log ltac:(by left)) as [[_ Hle] _]. specialize (Hover log).
    replace (Z.to_nat _) with (S (Z.to_nat (max_logs_scanned_per_tick (mp_policy parts)) - 1)) in Hover by lia.
    cbn [take] in Hover. specialize (Hover ltac:(by left)). lia. }
  destruct (step_from _ _ _ Ec) as [Hfrom (r & Hr & Ecur)]. fold plan in Ec, Ecur. set (sel := ob_log_ref log :: rest) in *.
  assert (Hrow : forall r, r ∈ sel -> lr_log_id r < 2 ^ 63 /\ exists row, log_row (mp_durable parts) r row).
  { intros r' (l' & Hl' & <-)%Hfrom. split; [by apply Hlogs|].
    destruct (candidate_observed _ _ _ _ _ _ _ Hl') as (_ & row & ? & _). by exists row. }
  destruct (refs_found (maintenance_tick_data_log_policy (mp_policy parts)) _ sel Hrow) as (rows & Hrows & Hlive).
  assert (Hcmd : run_command empty_compaction_report (CompactDataLogs sel) parts = (Ok empty_compaction_report, parts)).
  { unfold run_command. rewrite st_bind_run. cbn [st_gets]. rewrite st_bind_run. unfold on_durable, compact_data_log_refs.
    rewrite st_bind_lift, tick_policy_validate by done. rewrite st_bind_run. unfold st_ask. rewrite Hrows.
    unfold compact_data_log_rows. rewrite skipped_rows; [by destruct parts|done|]. intros d Hd.
    destruct (Hlive d Hd) as (r' & row & (l' & Hl' & <-)%Hfrom & (c & Hc & Hr') & ->).
    destruct (candidate_observed _ _ _ _ _ _ _ Hl') as (_ & row' & (c' & Hc' & Hr'') & _ & _ & El & _).
    assert (row' = row) as -> by congruence. destruct (Hlogs l' Hl') as [[Hlo Hhi] _]. cbn. lia. }
  rewrite Ec. cbn [st_fold]. rewrite st_bind_run, st_bind_run, Hcmd. cbn [mret ST_ret].
  rewrite Ecur. case_bool_decide as Ecase; rewrite st_bind_run.
  - eexists _, (ls_cursor (mp_durable parts)), (mp_cursor parts). split; [cbn; by destruct parts as [[]]|]. cbn. by rewrite Ec.
  - eexists _, (Some r), (Some r). rewrite st_bind_run. unfold on_durable, persist_maintenance_cursor.
    rewrite st_bind_lift. unfold u64_to_i64. rewrite (proj2 (Z.ltb_lt _ _)) by (by apply Hrow).
    split; [reflexivity|]. cbn. by rewrite Ec.
Qed.
End tick_theory.
