(* ===== verification/Publish.v ===== *)
(** * Publishing segments and loading them again ([local/durable/sqlite.rs],
    [local/durable/persist.rs], [local/durable/reopen.rs])

    [persist] appends the payloads of new segments to the data logs, and then
    publishes, node by node and in one transaction each, the logs, the
    placements and the catalog entries; removed segments become dead.  Loading
    rebuilds the storage nodes from the catalogs and reads every payload. *)

From S2P Require Import Prelude Api Object Provider Config Catalog SegmentStore StorageNode.
From S2P Require Import Codec CodecObjects DataLog LogStore.

(** ** Rows *)

Definition encode_row {A} (c : DurableCodec A) (value : A) : Result (list Z) :=
  match encode c value [] with (Ok _, out) => Ok out | (Err e, _) => Err e end.

Definition decode_row {A} (c : DurableCodec A) (bytes : list Z) : Result A :=
  match decode c (mkDurableDecoder bytes 0) with
  | (Ok value, input) => Decoder_finish input;; Ok value
  | (Err e, _) => Err e
  end.

Definition sync_node_meta_row (row : DurableStorageNodeRow) : ST NodeCatalog unit :=
  st_lift (u64_to_i64 (nr_ordinal row));;
  st_lift (u64_to_i64 (nr_segment_store_next_offset row));;
  st_modify (set_nc_meta (Some row)).

(** A segment that was published before its metadata is written as pending. *)
Definition encode_catalog_entry_for_pre_root_publish (segment_id : SegmentId) (entry : CatalogEntry)
    (pre_root_pending_segments : gset SegmentId) : Result (list Z) :=
  if bool_decide (segment_id ∈ pre_root_pending_segments) && bool_decide (ce_state entry = Referenced)
  then encode_row CatalogEntry_codec (set_ce_state entry DurablePendingMetadata)
  else encode_row CatalogEntry_codec entry.

Definition put_catalog_entry (segment_id : SegmentId) (entry : CatalogEntry)
    (pre_root_pending_segments : gset SegmentId) : ST NodeCatalog unit :=
  payload ← st_lift (encode_catalog_entry_for_pre_root_publish segment_id entry pre_root_pending_segments);
  st_modify (fun c => set_nc_entries (<[segment_id := payload]> (nc_entries c)) c).

(** All the entries are encoded before the first statement. *)
Definition sync_node_segment_catalog_entries (node : StorageNodeInner)
    (pre_root_pending_segments : gset SegmentId) : ST NodeCatalog unit :=
  desired ← st_lift (try_map (fun '(segment_id, entry) =>
      payload ← encode_catalog_entry_for_pre_root_publish segment_id entry pre_root_pending_segments;
      Ok (segment_id, payload)) (bt_iter (entries (si_segment_catalog node))));
  st_modify (fun c => set_nc_entries (list_to_map desired) c).

Definition sync_node_segment_catalog_entries_for_ids (node : StorageNodeInner)
    (segment_ids pre_root_pending_segments : gset SegmentId) : ST NodeCatalog unit :=
  st_for (fun segment_id =>
    match entries (si_segment_catalog node) !! segment_id with
    | Some entry => put_catalog_entry segment_id entry pre_root_pending_segments
    | None => st_modify (fun c => set_nc_entries (delete segment_id (nc_entries c)) c)
    end) (bs_iter segment_ids).

Inductive SegmentCatalogSync := SyncFull | SyncOnly (segment_ids : gset SegmentId) | SyncSkip.

Definition sync_node_catalog_state_for_node (ordinal : Z) (storage_node : StorageNodeId)
    (node : StorageNodeInner) (catalog_sync : SegmentCatalogSync)
    (pre_root_pending_segments : gset SegmentId) : ST NodeCatalog unit :=
  sync_node_meta_row (mkNodeRow storage_node ordinal (next_segment_id (si_segment_catalog node))
    (next_offset (si_segment_store node)));;
  match catalog_sync with
  | SyncFull => sync_node_segment_catalog_entries node pre_root_pending_segments
  | SyncOnly segment_ids =>
      sync_node_segment_catalog_entries_for_ids node segment_ids pre_root_pending_segments
  | SyncSkip => mret tt
  end.

(** ** Publishing *)

Definition durable_state_storage_node_for_catalog_segment (image : StorageNodeRegistryInner)
    (segment_id : SegmentId) : option StorageNodeId :=
  head (omap (fun '(node_id, node) =>
    if bool_decide (is_Some (entries (si_segment_catalog node) !! segment_id)) then Some node_id else None)
    (bt_iter (rgi_nodes image))).

(** [map.entry(node).or_default().insert(id)] *)
Definition add_id (node : StorageNodeId) (id : SegmentId) (m : gmap StorageNodeId (gset SegmentId))
    : gmap StorageNodeId (gset SegmentId) :=
  <[node := {[id]} ∪ default ∅ (m !! node)]> m.

(** The transaction of one node. *)
Definition publish_node (ordinal : Z) (node_id : StorageNodeId) (node : StorageNodeInner)
    (appended : PendingDataLogAppend) (dead : list SegmentPlacementRow)
    (catalog_sync : SegmentCatalogSync) (pre_root_pending_segments : gset SegmentId)
    : ST NodeCatalog unit :=
  persist_manifests_of node_id appended;;
  st_for mark_placement_dead dead;;
  persist_placements_of node_id appended;;
  sync_node_catalog_state_for_node ordinal node_id node catalog_sync pre_root_pending_segments.

Definition persist_node_catalog_publish (image : StorageNodeRegistryInner)
    (previous_segments current_segments : gset SegmentId) (appended : PendingDataLogAppend)
    (changed_catalog_segments : option (gset SegmentId)) : ST LogStore unit :=
  let removed := bs_iter (previous_segments ∖ current_segments) in
  let incremental := bool_decide (is_Some changed_catalog_segments) ||
    (negb (bool_decide (pa_placements appended = [])) && bool_decide (removed = [])) in
  dead ← st_map (fun id => st_ask (fun s => placement_for_segment s id)) removed;
  let changed := if incremental then
      fold_left (fun m p => add_id (sp_storage_node p) (sp_segment_id p) m)
        (pa_placements appended ++ dead) ∅
    else ∅ in
  changed ← st_fold (fun m id =>
      node ← match durable_state_storage_node_for_catalog_segment image id with
             | Some node => mret node
             | None => p ← st_ask (fun s => placement_for_segment s id); mret (sp_storage_node p)
             end;
      mret (add_id node id m)) changed (bs_iter (default ∅ changed_catalog_segments));
  let pre_root_pending_segments := segment_ids appended in
  st_for (fun '(ordinal, node_id) =>
    node ← st_lift (ok_or (rgi_nodes image !! node_id)
      (Corrupt "storage node order references missing node"));
    node_tx node_id (publish_node ordinal node_id node appended
      (List.filter (fun p => sp_storage_node p =? node_id) dead)
      (if incremental then
         match changed !! node_id with Some ids => SyncOnly ids | None => SyncSkip end
       else SyncFull) pre_root_pending_segments))
    (imap (fun i node_id => (Z.of_nat i, node_id)) (rgi_node_order image)).

(** The part of [persist] that keeps the payloads: it precedes the transaction
    on the metadata. *)
Definition persist_data (image : StorageNodeRegistryInner)
    (previous_segments current_segments : gset SegmentId) (new_segments : list DurableSegmentPayload)
    (pending_append : PendingDataLogAppend) (changed_catalog_segments : option (gset SegmentId))
    : ST LogStore unit :=
  let pending_append := retain_current_placements current_segments pending_append in
  new_append ← append_segments_bounded new_segments pending_append;
  sync_pending_data_logs pending_append;;
  persist_node_catalog_publish image previous_segments current_segments
    (pending_merge pending_append new_append) changed_catalog_segments.

(** The prestaged path: [PrestagedBlockDelta] of [prepare_durable_bundle_payload]. *)
Definition prepare_prestaged (pending_append : PendingDataLogAppend)
    (segments : list DurableSegmentPayload) : ST LogStore PendingDataLogAppend :=
  pending_append ←
    (if bool_decide (segments = []) then mret pending_append
     else
       appended ← append_segments segments NoSync (Some pending_append);
       mret (pending_merge pending_append appended));
  (if pending_is_empty pending_append then mret tt else sync_pending_append pending_append);;
  mret pending_append.

Definition persist_selected_for_node (node_id : StorageNodeId) (ordinal : Z) (node : StorageNodeInner)
    (node_segment_ids : gset SegmentId) (appended : PendingDataLogAppend)
    (pre_root_pending_segments : gset SegmentId) : ST LogStore unit :=
  node_tx node_id
    (persist_manifests_of node_id appended;;
     persist_placements_of node_id appended;;
     sync_node_catalog_state_for_node ordinal node_id node (SyncOnly node_segment_ids)
       pre_root_pending_segments).

(** The nodes are published by threads of their own: each one runs, and the
    first error in order is returned. *)
Fixpoint run_all {A} (f : A -> ST LogStore unit) (l : list A) : ST LogStore unit :=
  match l with
  | [] => mret tt
  | x :: l => fun s => let '(r, s) := f x s in let '(r', s) := run_all f l s in
      (match r with Ok _ => r' | Err e => Err e end, s)
  end.

(** [SelectedStorageNodeState]: the selected nodes with their ordinals. *)
Definition selected_nodes (nodes : gmap StorageNodeId (Z * StorageNodeInner)) (ids : gset SegmentId)
    : list (StorageNodeId * Z * StorageNodeInner * gset SegmentId) :=
  omap (fun '(node_id, (ordinal, node)) =>
    let node_ids := filter (fun id => is_Some (entries (si_segment_catalog node) !! id)) ids in
    if bool_decide (node_ids = ∅) then None else Some (node_id, ordinal, node, node_ids)) (bt_iter nodes).

Definition persist_selected_node_catalog_publish (nodes : gmap StorageNodeId (Z * StorageNodeInner))
    (ids : gset SegmentId) (appended : PendingDataLogAppend) (pre_root_pending_segments : gset SegmentId)
    : ST LogStore unit :=
  run_all (fun '(node_id, ordinal, node, node_ids) =>
    persist_selected_for_node node_id ordinal node node_ids appended pre_root_pending_segments)
    (selected_nodes nodes ids).

Definition persist_data_log_manifests_only (appended : PendingDataLogAppend) : ST LogStore unit :=
  let touched : gset StorageNodeId := list_to_set (pm_storage_node <$> (log_iter (pa_logs appended)).*2) ∪
    list_to_set (lr_storage_node <$> pa_sealed_logs appended) in
  run_all (fun node_id => node_tx node_id (persist_manifests_of node_id appended)) (bs_iter touched).

Definition persist_durable_bundle_catalog (nodes : gmap StorageNodeId (Z * StorageNodeInner))
    (changed_segments : gset SegmentId) (appended : PendingDataLogAppend)
    (pre_root_pending_segments : gset SegmentId) : ST LogStore unit :=
  let selected : gset StorageNodeId :=
    list_to_set ((fun '(node_id, _, _, _) => node_id) <$> selected_nodes nodes changed_segments) in
  persist_selected_node_catalog_publish nodes changed_segments appended pre_root_pending_segments;;
  persist_data_log_manifests_only (manifest_storage_nodes_except appended selected).

(** The part of [persist_block_delta_commits] before the transaction on the
    metadata. *)
Definition persist_delta_data (nodes : gmap StorageNodeId (Z * StorageNodeInner))
    (ids : gset SegmentId) (segments : list DurableSegmentPayload) (pending_append : PendingDataLogAppend)
    : ST LogStore unit :=
  appended ← prepare_prestaged (retain_current_placements ids pending_append) segments;
  persist_durable_bundle_catalog nodes ids appended (segment_ids appended).

(** ** Loading *)

Section loading.
Context `{Crc32cCrate}.

Definition load_storage_node_row (catalog_node : StorageNodeId) (conn : NodeCatalog)
    : Result (option DurableStorageNodeRow) :=
  match nc_meta conn with
  | None => Ok None
  | Some row =>
      reject_if (negb (nr_storage_node row =? catalog_node))
        (Corrupt "storage-node catalog metadata disagrees with catalog path");;
      Ok (Some row)
  end.

Definition load_storage_node_rows (s : LogStore) : Result (list DurableStorageNodeRow) :=
  rows ← try_map (fun '(node, conn) => load_storage_node_row node conn) (bt_iter (ls_catalogs s));
  let out := sort_by_key nr_ordinal (omap (fun row => row) (rows : list (option DurableStorageNodeRow))) in
  try_for (fun '(index, row) => reject_if (negb (nr_ordinal row =? index))
    (Corrupt "storage node ordinals are not contiguous"))
    (imap (fun i row => (Z.of_nat i, row)) out);;
  Ok out.

Definition load_catalog_entry (storage_node : StorageNodeId) (acc : gmap SegmentId CatalogEntry)
    (kv : SegmentId * list Z) : Result (gmap SegmentId CatalogEntry) :=
  let '(segment_id, payload) := kv in
  entry ← decode_row CatalogEntry_codec payload;
  reject_if (negb (rs_segment_id (ce_reservation entry) =? segment_id))
    (Corrupt "segment catalog row key disagrees with payload");;
  reject_if (match ce_receipt entry with
             | Some receipt => negb (pl_storage_node (sr_placement receipt) =? storage_node)
             | None => false
             end) (Corrupt "segment catalog receipt storage node disagrees with row");;
  reject_if (bool_decide (is_Some (acc !! segment_id))) (Corrupt "duplicate segment catalog row");;
  Ok (<[segment_id := entry]> acc).

Definition load_catalog_inner (conn : NodeCatalog) (storage_node : StorageNodeId) (next : Z)
    : Result CatalogInner :=
  entries ← try_fold (load_catalog_entry storage_node) ∅ (bt_iter (nc_entries conn));
  Ok (mkCatalogInner next entries).

Definition validate_durable_segment_placement (segment_id : SegmentId) (commit : SegmentReplicaCommit)
    (placement : SegmentPlacementRow) : Result unit :=
  reject_if (negb (sp_segment_id placement =? segment_id) ||
      negb (sp_storage_node placement =? pl_storage_node (rcm_placement commit)) ||
      negb (sp_payload_bytes placement =? pl_bytes (rcm_placement commit)))
    (Corrupt "SQLite placement disagrees with durable segment commit").

Definition validate_durable_segment_bytes (segment_id : SegmentId) (commit : SegmentReplicaCommit)
    (bytes : list Z) : Result unit :=
  bytes_len ← len_u64 bytes (Corrupt "durable segment length overflows u64");
  reject_if (negb (bytes_len =? sd_bytes (rcm_descriptor commit)))
    (Corrupt "durable segment length does not match journal commit");;
  reject_if (negb (sd_segment_id (rcm_descriptor commit) =? segment_id))
    (Corrupt "durable segment record key disagrees with descriptor");;
  verify_segment_payload_integrity (sd_integrity (rcm_descriptor commit)) bytes.

(** The payload of an entry: none if it was not written or was freed. *)
Definition load_segment (s : LogStore) (conn : NodeCatalog) (segment_id : SegmentId) (entry : CatalogEntry)
    : Result (option SegmentRecord) :=
  match ce_receipt entry with
  | None => Ok None
  | Some receipt =>
      if bool_decide (ce_state entry = Freed) then Ok None
      else
        let commit := SegmentWriteReceipt_replica_commit receipt in
        placement ← placement_for_segment_on_node conn segment_id;
        validate_durable_segment_placement segment_id commit placement;;
        bytes ← read_segment_payload s placement;
        validate_durable_segment_bytes segment_id commit bytes;;
        Ok (Some (mkSegmentRecord bytes true commit))
  end.

(** The variables of the loops of [load_storage_registry_from_node_catalogs]:
    [nodes], [next_segment_id], [next_write_intent] and [catalog_entry_count]. *)
Record LoadLoop := mkLoadLoop {
  ll_nodes : gmap StorageNodeId StorageNodeInner;
  ll_next_segment_id : Z;
  ll_next_write_intent : Z;
  ll_catalog_entry_count : Z;
}.

Definition load_entry (s : LogStore) (conn : NodeCatalog)
    (acc : gmap SegmentId SegmentRecord * LoadLoop) (kv : SegmentId * CatalogEntry)
    : Result (gmap SegmentId SegmentRecord * LoadLoop) :=
  let '(records, loop) := acc in
  let '(segment_id, entry) := kv in
  count ← ok_or (checked_add U64_MOD (ll_catalog_entry_count loop) 1)
    (Corrupt "segment catalog entry count overflows u64");
  let loop := mkLoadLoop (ll_nodes loop)
    (Z.max (ll_next_segment_id loop) (saturating_add U128_MOD segment_id 1))
    (Z.max (ll_next_write_intent loop) (saturating_add U128_MOD (ri_write_intent (ce_intent entry)) 1))
    count in
  record ← load_segment s conn segment_id entry;
  Ok (match record with Some record => <[segment_id := record]> records | None => records end, loop).

Definition load_node (s : LogStore) (loop : LoadLoop) (row : DurableStorageNodeRow) : Result LoadLoop :=
  conn ← ok_or (ls_catalogs s !! nr_storage_node row)
    (not_found "storage_node_catalog" (nr_storage_node row));
  let loop := mkLoadLoop (ll_nodes loop)
    (Z.max (ll_next_segment_id loop) (nr_next_catalog_segment_id row))
    (ll_next_write_intent loop) (ll_catalog_entry_count loop) in
  catalog ← load_catalog_inner conn (nr_storage_node row) (nr_next_catalog_segment_id row);
  '(records, loop) ← try_fold (load_entry s conn) (∅, loop) (bt_iter (entries catalog));
  Ok (mkLoadLoop
    (<[nr_storage_node row :=
        mkStorageNodeInner (mkSegmentStoreInner (nr_segment_store_next_offset row) records) catalog]>
      (ll_nodes loop))
    (ll_next_segment_id loop) (ll_next_write_intent loop) (ll_catalog_entry_count loop)).

Definition load_storage_registry_from_node_catalogs (s : LogStore)
    (cursor_next_segment_id cursor_next_placement_index cursor_next_write_intent : Z)
    : Result (StorageNodeRegistryInner * Z) :=
  rows ← load_storage_node_rows s;
  loop ← try_fold (load_node s)
    (mkLoadLoop ∅ cursor_next_segment_id cursor_next_write_intent 0) rows;
  Ok (mkStorageNodeRegistryInner (ll_next_segment_id loop)
        (Z.max cursor_next_placement_index (ll_catalog_entry_count loop))
        (nr_storage_node <$> rows) (ll_nodes loop),
      ll_next_write_intent loop).
End loading.
