(* ===== verification/PublishSpec.v ===== *)
(** * The data logs are a map of segments

    The theory of [Publish].  What the current placements give is a finite map
    from segments to nodes and payloads.  [persist] changes that map as its
    arguments say: the removed segments go, the prestaged and the new ones
    come; if it fails, every segment has its old or its new state. *)

From S2P Require Import Prelude Api Object Provider Config Catalog SegmentStore StorageNode.
From S2P Require Import Codec CodecObjects DataLog LogStore LogSpec Maintenance Compaction Publish.

(** ** Merging pending appends *)

Section merging.
Context `{Crc32cCrate}.
Implicit Types a b pend : PendingDataLogAppend.

Lemma merge_logs_is_Some a b r :
  is_Some (pa_logs (pending_merge a b) !! r) <-> is_Some (pa_logs a !! r) \/ is_Some (pa_logs b !! r).
Proof.
  cbn. rewrite lookup_union_with. destruct (pa_logs a !! r), (pa_logs b !! r); cbn; rewrite <-?not_eq_None_Some; naive_solver.
Qed.

Lemma pending_ok_merge s a b : pending_ok s a -> pending_ok s b -> pending_ok s (pending_merge a b).
Proof.
  intros [La Pa] [Lb Pb]. split.
  - intros r m. cbn. rewrite lookup_union_with.
    destruct (pa_logs a !! r) as [x|] eqn:Ea, (pa_logs b !! r) as [y|] eqn:Eb; cbn; intros [= <-]; [|by apply La|by apply Lb].
    destruct (La r x Ea) as (H1 & H2 & _ & _ & f & Hf & Ht). destruct (Lb r y Eb) as (_ & _ & H3 & H4 & f' & Hf' & Ht').
    conj_split; try done. exists f. split; [done|]. assert (f' = f) as -> by congruence. cbn. lia.
  - intros p [Hp|Hp]%elem_of_app; [destruct (Pa p Hp) as [Hl Hpl]|destruct (Pb p Hp) as [Hl Hpl]];
      (split; [apply merge_logs_is_Some; by auto|done]).
Qed.

Lemma pending_ok_retain s ids pend : pending_ok s pend -> pending_ok s (retain_current_placements ids pend).
Proof.
  intros [L P]. split; cbn.
  - intros r m [Hm _]%map_lookup_filter_Some. by apply L.
  - intros p Hp. destruct (P p) as [[m Hm] Hpl]; [by apply list_elem_of_filter in Hp as [_ Hp]|]. split; [|done].
    exists m. apply map_lookup_filter_Some. split; [done|]. apply elem_of_list_to_set, list_elem_of_fmap. by exists p.
Qed.
End merging.

(** ** Appending in groups *)

Section bounded.
Context `{Crc32cCrate}.

Lemma appended_nil pb s : appended Sync pb s [] PendingDataLogAppend_default s.
Proof. split; try done; [apply pending_ok_default|by intros r [? ?]|]. intros _ r [? ?]. done. Qed.

Lemma appended_merge pend s0 segs1 a s1 base segs2 b s2 :
  store_ok s0 -> appended Sync (Some pend) s0 segs1 a s1 ->
  (forall r, is_Some (pa_logs base !! r) -> is_Some (pa_logs pend !! r) \/ is_Some (pa_logs a !! r)) ->
  appended Sync (Some base) s1 segs2 b s2 ->
  appended Sync (Some pend) s0 (segs1 ++ segs2) (pending_merge a b) s2.
Proof.
  intros Hok [G1 P1 L1 N1 S1 F1] Hbase [G2 P2 L2 N2 S2 F2]. split.
  - by etrans.
  - apply pending_ok_merge; [by eapply pending_ok_grows|done].
  - apply Forall2_app; [|done]. eapply Forall2_impl; [done|]. intros seg p. by apply seg_placed_grows.
  - intros r [Hr|Hr]%merge_logs_is_Some; [destruct (N1 r Hr) as (seg & ? & ?)|destruct (N2 r Hr) as (seg & ? & ?)];
      exists seg; (split; [apply elem_of_app; by auto|done]).
  - intros _ r Hr. destruct (pa_logs b !! r) as [m|] eqn:Eb.
    + destruct (S2 eq_refl r) as (f2 & Hf2 & Hs2 & Hl); [by eexists|]. exists f2. split; [done|]. split; [done|].
      destruct Hl as [Hl|Hl]; [by left|]. destruct (Hbase r Hl) as [Hp|Ha]; [by right|].
      destruct (S1 eq_refl r Ha) as (f1 & Hf1 & _ & [Hl1|Hp]); [|by right]. left.
      destruct (gr_files _ _ G2 _ _ Hf1) as (f2' & Hf2' & _ & _ & Hln). assert (f2' = f2) as -> by congruence. auto.
    + assert (Ha : is_Some (pa_logs a !! r)) by (apply merge_logs_is_Some in Hr as [?|[? ?]]; [done|congruence]).
      destruct (S1 eq_refl r Ha) as (f1 & Hf1 & Hs1 & Hl1). destruct (gr_files _ _ G2 _ _ Hf1) as (f2 & Hf2 & _ & Hge & Hln).
      exists f2. split; [done|]. split; [|destruct Hl1 as [Hl1|Hl1]; auto].
      specialize (F2 r Eb). rewrite Hf1, Hf2 in F2. cbn in F2. injection F2 as Hb.
      pose proof (gr_synced _ _ G2 (so_synced _ (store_ok_grows _ _ G1 Hok)) _ _ Hf2) as [_ Hle]. rewrite Hb in *. lia.
  - intros r Hr. apply eq_None_not_Some in Hr. rewrite merge_logs_is_Some in Hr.
    rewrite F2, F1; [done|apply eq_None_not_Some; tauto..].
Qed.

(** The loop: what is flushed, and the group that is not. *)
Definition bounded_ok (pend : PendingDataLogAppend) (s0 : LogStore) (done : list DurableSegmentPayload)
    (loop : BoundedLoop) (s : LogStore) : Prop :=
  exists flushed, done = flushed ++ bl_chunk loop /\ appended Sync (Some pend) s0 flushed (bl_appended loop) s /\
    pending_ok s (bl_base loop) /\
    (forall r, is_Some (pa_logs (bl_base loop) !! r) ->
       is_Some (pa_logs pend !! r) \/ is_Some (pa_logs (bl_appended loop) !! r)).

Lemma flush_group_run pend s0 flushed a base chunk s :
  store_ok s0 -> Forall payload_ok chunk -> appended Sync (Some pend) s0 flushed a s -> pending_ok s base ->
  (forall r, is_Some (pa_logs base !! r) -> is_Some (pa_logs pend !! r) \/ is_Some (pa_logs a !! r)) ->
  st_run (append_segments chunk Sync (Some base)) s
    (fun b s' => appended Sync (Some pend) s0 (flushed ++ chunk) (pending_merge a b) s' /\
       pending_ok s' (pending_merge base b))
    (grows s0).
Proof.
  intros Hok Hch Ha Hb Hbase. pose proof (store_ok_grows _ _ (ap_grows _ _ _ _ _ _ Ha) Hok) as Hok1.
  eapply st_run_mono; [apply append_segments_run; [done| |done]| |].
  - by intros ? [= <-].
  - intros b s' Hap. split; [by eapply appended_merge|]. apply pending_ok_merge; [|apply Hap].
    eapply pending_ok_grows; [apply Hap|done].
  - intros s' G. etrans; [apply Ha|done].
Qed.

Lemma append_segments_bounded_run pend segs s :
  store_ok s -> pending_ok s pend -> Forall payload_ok segs ->
  st_run (append_segments_bounded segs pend) s (fun a s' => appended Sync (Some pend) s segs a s') (grows s).
Proof.
  intros Hok Hp Hsegs. unfold append_segments_bounded. st_step.
  eapply st_run_mono with (E := grows s); [apply (st_run_fold _ (bounded_ok pend s))| |done].
  - exists []. split; [done|]. split; [apply appended_nil|]. split; [done|]. by left.
  - intros done seg rest loop s1 Hl (flushed & -> & Ha & Hb & Hbase). unfold append_bounded_step.
    rewrite Hl in Hsegs. apply Forall_app in Hsegs as [[_ Hch]%Forall_app _]. st_step. case_match.
    + st_step. eapply st_run_mono; [by eapply flush_group_run| |done]. intros b s2 [Ha2 Hb2]. do 2 st_step.
      exists (flushed ++ bl_chunk loop). cbn. split; [done|]. split; [done|]. split; [done|].
      intros r [Hr|Hr]%merge_logs_is_Some; [destruct (Hbase r Hr); [by left|]|]; right; apply merge_logs_is_Some; auto.
    + do 2 st_step. exists flushed. cbn. by rewrite app_assoc.
  - intros loop s1 (flushed & -> & Ha & Hb & Hbase). case_bool_decide as Hc.
    + st_step. by rewrite Hc, app_nil_r.
    + apply Forall_app in Hsegs as [_ Hch]. st_step. eapply st_run_mono; [by eapply flush_group_run| |done].
      intros b s2 [Ha2 _]. by st_step.
Qed.

(** [sync_pending_data_logs] makes the logs of a pending append durable. *)
Lemma sync_pending_run pend s :
  store_ok s -> pending_ok s pend ->
  st_run (sync_pending_data_logs pend) s
    (fun _ s' => grows s s' /\ same_bytes s s' /\ logs_synced s' pend) (fun s' => s' = s).
Proof.
  intros Hok Hp. unfold sync_pending_data_logs. case_match eqn:He.
  { unfold pending_is_empty in He. bool_prop. st_step. split; [done|]. split; [done|]. intros r [m Hm].
    assert (E : pa_logs pend = ∅) by done. by rewrite E in Hm. }
  do 2 st_step. do 2 st_step; [|done]. set (logs := (log_iter (pa_logs pend)).*1).
  unfold sync_data_log_files_with_fanout. do 3 st_step; [|done]. do 2 st_step.
  destruct (sync_files_run logs s (so_synced _ Hok)) as (G2 & B2 & S2). set (s2 := fold_left _ logs s) in *.
  set (nodes := bs_iter _). destruct (sync_dirs_run nodes s2) as (G3 & B3 & S3). set (s3 := fold_left _ _ s2) in *.
  split; [by etrans|]. split; [by etrans|]. intros r [m Hm].
  destruct (pk_logs _ _ Hp r m Hm) as (_ & _ & _ & _ & f & Hf & _).
  destruct (gr_files _ _ G2 _ _ Hf) as (f2 & Hf2 & _). destruct (gr_files _ _ G3 _ _ Hf2) as (f3 & Hf3 & _).
  assert (Hin : r ∈ logs).
  { apply list_elem_of_fmap. exists (r, m). split; [done|]. by apply elem_of_log_iter. }
  exists f3. split; [done|]. destruct (S3 r f2 f3 Hf2 Hf3) as [Hsy Hln].
  specialize (B3 r). rewrite Hf2, Hf3 in B3. cbn in B3. injection B3 as B3. split.
  - rewrite Hsy, B3. by apply (S2 r f2).
  - apply Hln, elem_of_bs_iter, elem_of_list_to_set, list_elem_of_fmap. by exists r.
Qed.

(** With the new ones, then. *)
Lemma synced_merge s s' pend a :
  grows s s' -> same_bytes s s' -> store_ok s -> synced_but (pa_logs pend) s a -> logs_synced s' pend ->
  logs_synced s' (pending_merge pend a).
Proof.
  intros G B Hok Ha Hp r Hr. destruct (pa_logs pend !! r) as [m|] eqn:Ep; [apply Hp; by eexists|].
  destruct (Ha r) as (f & Hf & Hs & Hl); [apply merge_logs_is_Some in Hr as [[? ?]|?]; [congruence|done]|].
  destruct (gr_files _ _ G _ _ Hf) as (f' & Hf' & _ & Hge & Hln). exists f'. split; [done|].
  specialize (B r). rewrite Hf, Hf' in B. cbn in B. injection B as B.
  pose proof (gr_synced _ _ G (so_synced _ Hok) _ _ Hf') as [_ Hle]. split; [rewrite B in *; lia|].
  destruct Hl as [Hl|[? ?]]; [auto|congruence].
Qed.
End bounded.

(** ** The transaction of a node *)

Lemma elem_of_List_filter {A} (f : A -> bool) l x : x ∈ List.filter f l <-> f x = true /\ x ∈ l.
Proof. rewrite list_elem_of_In, List.filter_In, <-list_elem_of_In. tauto. Qed.

Lemma nodup_fmap_filter {A} (g : A -> Z) (f : A -> bool) l : NoDup (g <$> l) -> NoDup (g <$> List.filter f l).
Proof.
  induction l as [|x l IH]; cbn; [done|]. intros [Hx Hl]%NoDup_cons. destruct (f x); [|auto]. cbn.
  apply NoDup_cons. split; [|auto]. intros Hin. apply Hx. apply list_elem_of_fmap in Hin as (y & -> & Hy).
  apply elem_of_List_filter in Hy as [_ Hy]. by apply list_elem_of_fmap_2.
Qed.

Section node_publish.
Context `{Crc32cCrate}.

Lemma node_ok_same files node c c' :
  nc_data_logs c' = nc_data_logs c -> nc_placements c' = nc_placements c ->
  node_ok files node c -> node_ok files node c'.
Proof. intros El Ep [P R L]. split; rewrite ?El, ?Ep; done. Qed.

Definition same_logs (c c' : NodeCatalog) : Prop :=
  nc_data_logs c' = nc_data_logs c /\ nc_placements c' = nc_placements c.

(** The entries of the segment catalog are rows of their own. *)
Lemma sync_entries_run node ids pre c :
  st_run (sync_node_segment_catalog_entries_for_ids node ids pre) c (fun _ c' => same_logs c c') (fun _ => True).
Proof.
  apply (st_run_for _ (fun _ c' => same_logs c c')); [done|]. intros done id rest c1 _ [E1 E2]. case_match.
  - unfold put_catalog_entry. do 2 st_step; [|done]. by st_step.
  - by st_step.
Qed.
Lemma sync_state_run ordinal id node sync pre c :
  st_run (sync_node_catalog_state_for_node ordinal id node sync pre) c (fun _ c' => same_logs c c') (fun _ => True).
Proof.
  unfold sync_node_catalog_state_for_node, sync_node_meta_row. st_step. do 2 (do 2 st_step; [|done]).
  st_step. destruct sync as [|ids|].
  - unfold sync_node_segment_catalog_entries. do 2 st_step; [|done]. by st_step.
  - eapply st_run_mono; [apply sync_entries_run|done|done].
  - by st_step.
Qed.

(** The pending append is in the files, and they are durable. *)
Definition publishable (s : LogStore) (pa : PendingDataLogAppend) : Prop := pending_ok s pa /\ logs_synced s pa.

Lemma publishable_manifest s pa node c m :
  publishable s pa -> ls_catalogs s !! node = Some c ->
  m ∈ List.filter (fun m => pm_storage_node m =? node) (log_iter (pa_logs pa)).*2 ->
  manifest_ready (ls_files s) node c m.
Proof.
  intros [Hp Hs] Hc [Hn Hin]%elem_of_List_filter. apply list_elem_of_fmap in Hin as ([r m'] & -> & Hm%elem_of_log_iter).
  cbn in *. bool_prop. destruct (pk_logs _ _ Hp r m' Hm) as (En & Ei & Hst & (c' & Hc' & Hact) & f & Hf & Ht).
  assert (lr_storage_node r = node) as Er by congruence. rewrite Er, Hc in Hc'. injection Hc' as <-.
  destruct (Hs r) as (f' & Hf' & Hsy & Hl); [by eexists|]. assert (f' = f) as -> by congruence.
  split; [done|]. rewrite Ei. split; [|done]. exists f. split; [by destruct r; cbn in *; subst|]. split; [done|lia].
Qed.

Lemma publishable_placement s pa p :
  publishable s pa -> p ∈ pa_placements pa ->
  exists m, m ∈ (log_iter (pa_logs pa)).*2 /\ pm_storage_node m = sp_storage_node p /\ pm_log_id m = sp_data_log_id p /\
    exists f bytes, ls_files s !! placement_ref p = Some f /\ lf_linked f = true /\ placed (synced_bytes f) p bytes.
Proof.
  intros [Hp Hs] Hin. destruct (pk_placed _ _ Hp p Hin) as ([m Hm] & f & bytes & Hf & Hpl).
  destruct (pk_logs _ _ Hp _ m Hm) as (En & Ei & _). exists m.
  split; [apply list_elem_of_fmap; exists (placement_ref p, m); split; [done|by apply elem_of_log_iter]|].
  split; [done|]. split; [done|]. destruct (Hs (placement_ref p)) as (f' & Hf' & Hsy & Hl); [by eexists|].
  assert (f' = f) as -> by congruence. exists f, bytes. split; [done|]. split; [done|].
  unfold synced_bytes. by rewrite Hsy, Nat2Z.id, firstn_all.
Qed.

Definition on_node (node : StorageNodeId) (ps : list SegmentPlacementRow) : list SegmentPlacementRow :=
  List.filter (fun p => sp_storage_node p =? node) ps.

(** What the transaction makes of the placements. *)
Record published (files : gmap DurableDataLogRef LogFile) (node : StorageNodeId)
    (new dead : list SegmentPlacementRow) (c c' : NodeCatalog) : Prop := mkPublished {
  pb_ok : node_ok files node c';
  pb_new : forall p, p ∈ new -> nc_placements c' !! sp_segment_id p = Some (p, true);
  pb_dead : forall p, p ∈ dead -> sp_segment_id p ∉ sp_segment_id <$> new ->
    nc_placements c' !! sp_segment_id p = Some (p, false);
  pb_other : forall id, id ∉ sp_segment_id <$> new -> id ∉ sp_segment_id <$> dead ->
    nc_placements c' !! id = nc_placements c !! id;
}.

Lemma publish_rows_run s pa node c dead :
  store_ok s -> ls_catalogs s !! node = Some c -> publishable s pa -> NoDup (sp_segment_id <$> pa_placements pa) ->
  NoDup (sp_segment_id <$> dead) -> (forall p, p ∈ dead -> nc_placements c !! sp_segment_id p = Some (p, true)) ->
  st_run (persist_manifests_of node pa;; st_for mark_placement_dead dead;; persist_placements_of node pa) c
    (fun _ c' => published (ls_files s) node (on_node node (pa_placements pa)) dead c c') (fun _ => True).
Proof.
  intros Hok Hc Hpa Hnd Hdn Hdead. pose proof (so_nodes _ Hok _ _ Hc) as Hnode. unfold persist_manifests_of.
  do 2 st_step. eapply st_run_mono; [apply persist_manifests_run; [done|]| |done].
  { intros m. by apply publishable_manifest. }
  intros _ c1 (Hok1 & K1 & Hin1). eapply st_run_mono; [by apply seal_manifests_run| |done].
  intros _ c2 (Hok2 & K2). pose proof (PreOrder_Transitive _ _ _ K1 K2) as K. st_step.
  eapply st_run_mono; [apply (mark_all_dead_run (ls_files s) node c2 (fun _ => True)); [done|done|]| |done].
  { intros p Hp. rewrite (rk_placements _ _ K). auto. }
  intros _ c3 (Hok3 & R3 & Hd3 & Ho3). unfold persist_placements_of. fold (on_node node (pa_placements pa)).
  eapply st_run_mono; [apply persist_all_run; [done| |by apply nodup_fmap_filter]| |done].
  - intros p [Hn Hp]%elem_of_List_filter. bool_prop. split; [done|].
    destruct (publishable_placement s pa p Hpa Hp) as (m & Hm & En & Ei & Hpl). split; [|done].
    destruct (Hin1 m) as (row1 & Hrow1 & Hs1); [apply elem_of_List_filter; split; [apply Z.eqb_eq; congruence|done]|].
    rewrite Ei in Hrow1. eapply (row_not_deleted c1 c2); [done|done|exact Hrow1|by rewrite Hs1].
  - intros _ c4 (Hok4 & R4 & Hd4 & Ho4). split; [done|done|..].
    + intros p Hp Hnew. rewrite Ho4 by done. by apply Hd3.
    + intros id Hnew Hde. by rewrite Ho4, Ho3, (rk_placements _ _ K) by done.
Qed.

Lemma publish_node_run s pa node c ordinal inner dead sync pre :
  store_ok s -> ls_catalogs s !! node = Some c -> publishable s pa -> NoDup (sp_segment_id <$> pa_placements pa) ->
  NoDup (sp_segment_id <$> dead) -> (forall p, p ∈ dead -> nc_placements c !! sp_segment_id p = Some (p, true)) ->
  st_run (publish_node ordinal node inner pa dead sync pre) c
    (fun _ c' => published (ls_files s) node (on_node node (pa_placements pa)) dead c c') (fun _ => True).
Proof.
  intros Hok Hc Hpa Hnd Hdn Hdead. unfold publish_node.
  pose proof (publish_rows_run s pa node c dead Hok Hc Hpa Hnd Hdn Hdead) as Hrun.
  unfold st_run in Hrun |- *. rewrite !st_bind_run in *. destruct (persist_manifests_of node pa c) as [[u|e] c1]; [|done].
  rewrite !st_bind_run in *. destruct (st_for mark_placement_dead dead c1) as [[u2|e] c2]; [|done].
  rewrite !st_bind_run in *. destruct (persist_placements_of node pa c2) as [[u3|e] c3]; [|done].
  pose proof (sync_state_run ordinal node inner sync pre c3) as Hs. unfold st_run in Hs.
  destruct (sync_node_catalog_state_for_node _ _ _ _ _ c3) as [[u4|e] c4]; [|done]. destruct Hs as [El Ep].
  destruct Hrun as [A B D E]. split; [by eapply node_ok_same|rewrite Ep; done..].
Qed.
End node_publish.

(** ** The map of segments *)

Abbreviation SegmentMap := (gmap SegmentId (StorageNodeId * list Z)) (only parsing).

Section segment_map.
Context `{Crc32cCrate}.
Implicit Types m t : SegmentMap.

(** The store is good and gives the segments of [m]. *)
Definition represents (s : LogStore) m : Prop :=
  store_ok s /\ forall node id bytes, segment_payload s node id = Ok bytes <-> m !! id = Some (node, bytes).

Lemma represents_same s s' m : represents s m -> store_ok s' -> same_payloads s s' -> represents s' m.
Proof. intros [_ Hm] Hok Hs. split; [done|]. intros node id bytes. by rewrite Hs. Qed.

Lemma segment_payload_Ok s node id bytes :
  segment_payload s node id = Ok bytes <-> exists c p, ls_catalogs s !! node = Some c /\
    nc_placements c !! id = Some (p, true) /\ read_segment_payload s p = Ok bytes.
Proof.
  unfold segment_payload, placement_for_segment_on_node. split.
  - intros (c & Hc%ok_or_Ok & Hp)%bind_Ok. apply bind_Ok in Hp as (p & Hp & Hr). exists c, p.
    destruct (nc_placements c !! id) as [[q [|]]|]; by simplify_eq.
  - intros (c & p & Hc & Hp & Hr). rewrite Hc. cbn [ok_or mbind Result_bind]. by rewrite Hp.
Qed.

Lemma current_represented s m node c id p :
  represents s m -> ls_catalogs s !! node = Some c -> nc_placements c !! id = Some (p, true) ->
  exists bytes, m !! id = Some (node, bytes) /\ sp_segment_id p = id /\ sp_storage_node p = node.
Proof.
  intros [Hok Hm] Hc Hp. destruct (current_payload s node c id p Hok Hc Hp) as (_ & bytes & _ & _ & Hr & _).
  exists bytes. rewrite <-Hm. split; [done|]. by destruct (nk_placed _ _ _ (so_nodes _ Hok _ _ Hc) id p Hp) as (? & ? & _).
Qed.

Lemma placement_for_segment_Ok s m id p :
  represents s m -> placement_for_segment s id = Ok p -> exists c, ls_catalogs s !! sp_storage_node p = Some c /\
    nc_placements c !! id = Some (p, true) /\ sp_segment_id p = id.
Proof.
  intros Hm Hp. unfold placement_for_segment in Hp. apply ok_or_Ok, head_Some_elem_of in Hp.
  apply list_elem_of_omap in Hp as (c & Hin & Hp). apply elem_of_bt_values in Hin as [node Hc].
  unfold placement_for_segment_on_node in Hp. destruct (nc_placements c !! id) as [[q [|]]|] eqn:Hq; simplify_eq.
  destruct (current_represented s m node c id p Hm Hc Hq) as (bytes & _ & <- & <-). by exists c.
Qed.

(** Segments removed and segments added. *)
Definition publish_map (removed : gset SegmentId) (segs : list DurableSegmentPayload) m : SegmentMap :=
  foldr (fun seg => <[dp_segment_id seg := (dp_storage_node seg, dp_bytes seg)]>)
    (filter (fun kv => kv.1 ∉ removed) m) segs.

(** Every segment is as in one of the two maps. *)
Definition between m t m' : Prop := forall id, m' !! id = m !! id \/ m' !! id = t !! id.

Lemma publish_map_spec s removed segs ps m node id bytes :
  Forall2 (seg_placed s) segs ps -> NoDup (sp_segment_id <$> ps) ->
  (forall p, p ∈ ps -> m !! sp_segment_id p = None) ->
  publish_map removed segs m !! id = Some (node, bytes) <->
  (exists p, p ∈ ps /\ sp_segment_id p = id /\ sp_storage_node p = node /\ read_segment_payload s p = Ok bytes) \/
  (m !! id = Some (node, bytes) /\ id ∉ removed).
Proof.
  induction 1 as [|seg p segs ps (Ei & En & _ & f & Hf & Hpl) Hps IH]; cbn [publish_map foldr fmap list_fmap].
  { intros _ _. rewrite map_lookup_filter_Some. cbn. split; [by right|]. intros [(p & ?%not_elem_of_nil & _)|?]; done. }
  intros [Hp Hnd]%NoDup_cons Hfresh. pose proof (placed_read _ _ _ _ Hf Hpl) as Hr.
  specialize (IH Hnd (fun q Hq => Hfresh q (list_elem_of_further _ _ _ Hq))). fold (publish_map removed segs m).
  destruct (decide (id = sp_segment_id p)) as [->|Hne].
  - rewrite <-Ei, lookup_insert_eq. split.
    + intros [= <- <-]. left. exists p. split; [by left|]. done.
    + intros [(q & [->|Hq]%elem_of_cons & Eq & Enq & Hrq)|[Hm _]].
      * rewrite En in Enq. congruence.
      * exfalso. apply Hp. rewrite <-Eq. by apply list_elem_of_fmap_2.
      * rewrite (Hfresh p) in Hm by left. done.
  - rewrite lookup_insert_ne by congruence. rewrite IH. split; (intros [(q & Hq & Eq & Hrest)|Hm]; [left|by right]).
    + exists q. split; [by right|done].
    + exists q. split; [|done]. apply elem_of_cons in Hq as [->|Hq]; [congruence|done].
Qed.

(** The nodes of [done] as in [t], the others as in [m]. *)
Definition mix (done : list StorageNodeId) m t : SegmentMap :=
  filter (fun kv => kv.2.1 ∈ done) t ∪ filter (fun kv => kv.2.1 ∉ done) m.
Definition compatible m t : Prop := forall id x y, m !! id = Some x -> t !! id = Some y -> x = y.

Lemma lookup_mix done m t id node bytes :
  compatible m t ->
  mix done m t !! id = Some (node, bytes) <->
  (node ∈ done /\ t !! id = Some (node, bytes)) \/ ((node ∉ done) /\ m !! id = Some (node, bytes)).
Proof.
  intros Hc. unfold mix. rewrite lookup_union_Some_raw, !map_lookup_filter_Some, map_lookup_filter_None.
  cbn [fst snd]. split.
  - intros [[? ?]|[_ [? ?]]]; auto.
  - intros [[? ?]|[Hn Hm]]; [auto|]. right. split; [|done]. destruct (t !! id) as [y|] eqn:Ht; [|by left].
    right. intros ? [= <-]. by rewrite <-(Hc id _ _ Hm Ht).
Qed.

Lemma mix_between done m t : compatible m t -> between m t (mix done m t).
Proof.
  intros Hc id. destruct (mix done m t !! id) as [[n b]|] eqn:E.
  { apply lookup_mix in E as [[_ ->]|[_ ->]]; auto. }
  destruct (m !! id) as [[n b]|] eqn:Em; [|by left]. destruct (t !! id) as [[n' b']|] eqn:Et; [|by right].
  assert ((n, b) = (n', b')) as [= <- <-] by by eapply Hc. exfalso. apply eq_None_not_Some in E. apply E.
  exists (n, b). apply lookup_mix; [done|]. destruct (decide (n ∈ done)); auto.
Qed.

Lemma mix_all done m t :
  compatible m t -> (forall id n b, m !! id = Some (n, b) -> n ∈ done \/ t !! id = Some (n, b)) ->
  (forall id n b, t !! id = Some (n, b) -> n ∈ done \/ m !! id = Some (n, b)) -> mix done m t = t.
Proof.
  intros Hc Hm Ht. apply map_eq. intros id. apply option_eq. intros [n b]. rewrite lookup_mix by done. split.
  - intros [[_ ?]|[Hn Hmi]]; [done|]. by destruct (Hm id n b Hmi).
  - intros Hti. destruct (decide (n ∈ done)); [by left|]. destruct (Ht id n b Hti); auto.
Qed.
End segment_map.

(** ** Publishing all nodes *)

Section publish_all.
Context `{Crc32cCrate}.
Context (s : LogStore) (m : SegmentMap) (pa : PendingDataLogAppend) (removed : gset SegmentId) (t : SegmentMap)
  (dead : list SegmentPlacementRow).
Hypothesis Hrep : represents s m.
Hypothesis Hpa : publishable s pa.
Hypothesis Hnd : NoDup (sp_segment_id <$> pa_placements pa).
Hypothesis Hfresh : forall p, p ∈ pa_placements pa -> m !! sp_segment_id p = None.
Hypothesis Htarget : forall node id bytes, t !! id = Some (node, bytes) <->
  (exists p, p ∈ pa_placements pa /\ sp_segment_id p = id /\ sp_storage_node p = node /\
    read_segment_payload s p = Ok bytes) \/ (m !! id = Some (node, bytes) /\ id ∉ removed).
Hypothesis Hdead : Forall2 (fun id p => placement_for_segment s id = Ok p) (bs_iter removed) dead.

Lemma target_compatible : compatible m t.
Proof.
  intros id x [n b] Hm Ht. apply Htarget in Ht as [(p & Hp & <- & _)|[Ht _]]; [|congruence].
  rewrite Hfresh in Hm by done. done.
Qed.

Lemma dead_current p :
  p ∈ dead -> exists c, ls_catalogs s !! sp_storage_node p = Some c /\
    nc_placements c !! sp_segment_id p = Some (p, true) /\ sp_segment_id p ∈ removed.
Proof.
  intros [i Hi]%list_elem_of_lookup_1. destruct (Forall2_lookup_r _ _ _ _ _ Hdead Hi) as (id & Hid & Hp).
  destruct (placement_for_segment_Ok s m id p Hrep Hp) as (c & Hc & Hcur & ->). exists c. split; [done|].
  split; [done|]. by apply elem_of_bs_iter, list_elem_of_lookup_2 with i.
Qed.
Lemma dead_ids : sp_segment_id <$> dead = bs_iter removed.
Proof.
  revert Hdead. generalize (bs_iter removed) as l. generalize dead as ps. induction 1 as [|id p l ps Hp _ IH]; [done|].
  cbn. rewrite IH. f_equal. by destruct (placement_for_segment_Ok s m id p Hrep Hp) as (c & _ & _ & ->).
Qed.
Lemma dead_nodup : NoDup (sp_segment_id <$> dead).
Proof. rewrite dead_ids. unfold bs_iter. rewrite merge_sort_Permutation. apply NoDup_elements. Qed.

(** A removed segment that the node has is among the dead ones. *)
Lemma removed_dead node id bytes :
  m !! id = Some (node, bytes) -> id ∈ removed -> exists p, p ∈ dead /\ sp_segment_id p = id /\ sp_storage_node p = node.
Proof.
  intros Hm Hin. apply elem_of_bs_iter in Hin. rewrite <-dead_ids in Hin. apply list_elem_of_fmap in Hin as (p & -> & Hp).
  exists p. split; [done|]. split; [done|]. destruct (dead_current p Hp) as (c & Hc & Hcur & _).
  destruct (current_represented s m _ c _ p Hrep Hc Hcur) as (b & Hm' & _). congruence.
Qed.

(** The nodes of [done] are published. *)
Definition publishing (done : list StorageNodeId) (s' : LogStore) : Prop :=
  represents s' (mix done m t) /\ ls_files s' = ls_files s /\
  forall n, n ∉ done -> ls_catalogs s' !! n = ls_catalogs s !! n.

Lemma publishing_nil : publishing [] s.
Proof.
  split; [|done]. split; [apply Hrep|]. intros node id bytes. rewrite lookup_mix by apply target_compatible.
  rewrite (proj2 Hrep). split; [intros; right; split; [apply not_elem_of_nil|done]|].
  by intros [[?%not_elem_of_nil _]|[_ ?]].
Qed.

(** What the transaction leaves of the segments of its node. *)
Lemma published_payload node c c' id bytes :
  ls_catalogs s !! node = Some c ->
  published (ls_files s) node (on_node node (pa_placements pa)) (on_node node dead) c c' ->
  (exists p, nc_placements c' !! id = Some (p, true) /\ read_segment_payload s p = Ok bytes) <->
  t !! id = Some (node, bytes).
Proof.
  intros Hc [_ Hnew Hde Hoth]. rewrite Htarget.
  assert (Hin : forall p l, p ∈ on_node node l <-> sp_storage_node p = node /\ p ∈ l).
  { intros p l. unfold on_node. by rewrite elem_of_List_filter, Z.eqb_eq. }
  assert (Hold : id ∉ sp_segment_id <$> on_node node (pa_placements pa) -> id ∉ sp_segment_id <$> on_node node dead ->
    (exists p, nc_placements c' !! id = Some (p, true) /\ read_segment_payload s p = Ok bytes) <->
    m !! id = Some (node, bytes)).
  { intros H1 H2. rewrite (Hoth id H1 H2), <-(proj2 Hrep), segment_payload_Ok. split.
    - intros (p & ? & ?). by exists c, p.
    - intros (c2 & p & Hc2 & ? & ?). exists p. by assert (c2 = c) as -> by congruence. }
  destruct (decide (id ∈ sp_segment_id <$> on_node node (pa_placements pa))) as [Hi|Hi].
  { apply list_elem_of_fmap in Hi as (p & -> & [Hn Hp]%Hin). rewrite (Hnew p) by by apply Hin. split.
    - intros (q & [= <-] & Hr). left. by exists p.
    - intros [(q & Hq & Eq & Enq & Hr)|[Hm _]]; [|by rewrite Hfresh in Hm].
      exists q. split; [|done]. rewrite <-(Hnew p), <-Eq by by apply Hin. apply Hnew, Hin. done. }
  destruct (decide (id ∈ sp_segment_id <$> on_node node dead)) as [Hd|Hd].
  { apply list_elem_of_fmap in Hd as (p & -> & Hp). rewrite (Hde p Hp Hi). split; [by intros (q & ? & _)|].
    apply Hin in Hp as [Hn Hp]. intros [(q & Hq & Eq & Enq & _)|[_ Hr]].
    - exfalso. apply Hi. rewrite <-Eq. apply list_elem_of_fmap_2, Hin. done.
    - exfalso. apply Hr. by destruct (dead_current p Hp) as (? & _ & _ & ?). }
  rewrite (Hold Hi Hd). split.
  - intros Hm. right. split; [done|]. intros Hr. destruct (removed_dead node id bytes Hm Hr) as (p & Hp & <- & Hn).
    apply Hd, list_elem_of_fmap_2, Hin. done.
  - intros [(q & Hq & Eq & Enq & _)|[? _]]; [|done]. exfalso. apply Hi. rewrite <-Eq. apply list_elem_of_fmap_2, Hin. done.
Qed.

Lemma publish_step node done ordinal inner sync pre s1 :
  node ∉ done -> publishing done s1 ->
  st_run (node_tx node (publish_node ordinal node inner pa (on_node node dead) sync pre)) s1
    (fun _ s2 => publishing (done ++ [node]) s2) (publishing done).
Proof.
  intros Hn (Hr1 & Ef & Ec). destruct (ls_catalogs s !! node) as [c|] eqn:Hc.
  2: { unfold node_tx, node_catalog. do 2 st_step; [|done]. rename select (ok_or _ _ = _) into Hx. rewrite Ec, Hc in Hx by done. done. }
  assert (Hc1 : ls_catalogs s1 !! node = Some c) by by rewrite Ec.
  eapply st_run_tx; [done|]. eapply st_run_mono; [apply (publish_node_run s); [apply Hrep|done|done|done|..]| |done].
  { apply nodup_fmap_filter, dead_nodup. }
  { intros p [Hpn Hp]%elem_of_List_filter. bool_prop. destruct (dead_current p Hp) as (c2 & Hc2 & Hcur & _). congruence. }
  intros ? c' Hpub. set (s2 := set_ls_catalogs _ s1).
  assert (Hlk : forall n, ls_catalogs s2 !! n = if decide (n = node) then Some c' else ls_catalogs s1 !! n).
  { intros n. cbn. case_decide as E; [subst; apply lookup_insert_eq|by apply lookup_insert_ne]. }
  split; [split|split; [done|]].
  - split; [apply Hr1|]. intros n x Hx. rewrite Hlk in Hx. case_decide as E; [|by apply Hr1].
    simplify_eq. cbn. rewrite Ef. apply Hpub.
  - intros n id bytes. rewrite lookup_mix by apply target_compatible. destruct (decide (n = node)) as [->|Hne].
    + transitivity (exists p, nc_placements c' !! id = Some (p, true) /\ read_segment_payload s p = Ok bytes).
      * rewrite segment_payload_Ok. setoid_rewrite Hlk. rewrite decide_True by done. unfold read_segment_payload. cbn.
        rewrite Ef. split; [intros (? & p & [= <-] & ? & ?); by exists p|intros (p & ? & ?); by exists c', p].
      * rewrite (published_payload node c c' id bytes Hc Hpub). split; [left; split; [set_solver|done]|].
        intros [[_ ?]|[Hx _]]; [done|]. exfalso. set_solver.
    + transitivity (segment_payload s1 n id = Ok bytes).
      * rewrite !segment_payload_Ok. setoid_rewrite Hlk. by rewrite decide_False.
      * rewrite (proj2 Hr1), lookup_mix by apply target_compatible. set_solver.
  - intros n Hx. rewrite Hlk, decide_False by set_solver. apply Ec. set_solver.
Qed.
End publish_all.

(** ** [persist] *)

Section persisting.
Context `{Crc32cCrate}.
Implicit Types m t : SegmentMap.

(** A failed publish leaves every segment as it was or as it is meant to be. *)
Definition partly (m t : SegmentMap) (s' : LogStore) : Prop := exists m', between m t m' /\ represents s' m'.

Lemma partly_old m t s' : represents s' m -> partly m t s'.
Proof. intros Hr. exists m. split; [by left|done]. Qed.

Lemma catalog_publish_run s m t image previous current pa changed :
  let removed := previous ∖ current in
  represents s m -> publishable s pa -> NoDup (sp_segment_id <$> pa_placements pa) ->
  (forall p, p ∈ pa_placements pa -> m !! sp_segment_id p = None) ->
  (forall node id bytes, t !! id = Some (node, bytes) <->
    (exists p, p ∈ pa_placements pa /\ sp_segment_id p = id /\ sp_storage_node p = node /\
      read_segment_payload s p = Ok bytes) \/ (m !! id = Some (node, bytes) /\ id ∉ removed)) ->
  NoDup (rgi_node_order image) ->
  (forall p, p ∈ pa_placements pa -> sp_storage_node p ∈ rgi_node_order image) ->
  (forall id node bytes, id ∈ removed -> m !! id = Some (node, bytes) -> node ∈ rgi_node_order image) ->
  st_run (persist_node_catalog_publish image previous current pa changed) s
    (fun _ s' => represents s' t) (partly m t).
Proof.
  intros removed Hrep Hpa Hnd Hfresh Ht Ho Hnodes Hrem. unfold persist_node_catalog_publish. fold removed. cbv zeta.
  st_step. eapply st_run_mono; [apply (st_run_map _ (fun id p => placement_for_segment s id = Ok p))| |].
  { intros id _. by st_step. }
  2: { intros ? ->. by apply partly_old. }
  intros dead ? [Hdead ->]. pose proof (target_compatible s m pa removed t Hfresh Ht) as Hcomp.
  assert (Hpartly : forall done s', publishing s m t done s' -> partly m t s').
  { intros done s' (Hr & _). exists (mix done m t). split; [by apply mix_between|done]. }
  set (ch := if _ : bool then _ else ∅). st_step. eapply st_run_mono with (Q := fun _ s' => s' = s) (E := fun s' => s' = s).
  { apply (st_run_fold _ (fun _ _ s' => s' = s)); [done|]. intros done id rest b ? _ ->. st_step.
    case_match; [by do 2 st_step|]. do 2 st_step; [|done]. by do 2 st_step. }
  2: { intros ? ->. by apply partly_old. }
  intros ch' ? ->. set (order := imap (fun i node_id => (Z.of_nat i, node_id)) (rgi_node_order image)).
  assert (Eorder : order.*2 = rgi_node_order image).
  { subst order. rewrite fmap_imap. rewrite <-(list_fmap_id (rgi_node_order image)) at 2.
    rewrite <-imap_const. by apply imap_ext. }
  eapply st_run_mono; [apply (st_run_for _ (fun done s' => publishing s m t done.*2 s') (fun s' => partly m t s'))| |done].
  - by apply (publishing_nil s m pa removed).
  - intros done [ordinal node] rest s1 Hl Hp. do 2 st_step; [|by eapply Hpartly].
    assert (Hn : node ∉ done.*2).
    { rewrite <-Eorder, Hl, fmap_app, fmap_cons in Ho. apply NoDup_app in Ho as (_ & Hdis & _). intros Hin.
      by eapply Hdis; [done|left]. }
    eapply st_run_mono; [by eapply (publish_step s m pa removed t)| |by eapply Hpartly]. intros ? s2. by rewrite fmap_app.
  - intros ? s' (Hr & _). rewrite Eorder, mix_all in Hr; [done|done|..].
    + intros id n b Hm. destruct (decide (id ∈ removed)) as [Hi|Hi]; [left; by eapply Hrem|]. right. apply Ht. by right.
    + intros id n b [(p & Hp & _ & <- & _)|[Hm _]]%Ht; [left; by apply Hnodes|by right].
Qed.

(** The arguments of [persist] fit the store: the pending append is there, with
    the payloads [psegs] that were prestaged; the new segments can be written;
    their ids are new; and all segments that change are on nodes of the image. *)
Record persist_fits (s : LogStore) (m : SegmentMap) (image : StorageNodeRegistryInner) (removed : gset SegmentId)
    (pending : PendingDataLogAppend) (psegs new : list DurableSegmentPayload) : Prop := mkPersistFits {
  pf_pending : pending_ok s pending;
  pf_prestaged : Forall2 (seg_placed s) psegs (pa_placements pending);
  pf_new : Forall payload_ok new;
  pf_ids : NoDup (dp_segment_id <$> psegs ++ new);
  pf_fresh : forall seg, seg ∈ psegs ++ new -> m !! dp_segment_id seg = None;
  pf_order : NoDup (rgi_node_order image);
  pf_nodes : forall seg, seg ∈ psegs ++ new -> dp_storage_node seg ∈ rgi_node_order image;
  pf_removed : forall id node bytes, id ∈ removed -> m !! id = Some (node, bytes) -> node ∈ rgi_node_order image;
}.

Lemma placed_ids s segs ps : Forall2 (seg_placed s) segs ps -> sp_segment_id <$> ps = dp_segment_id <$> segs.
Proof. induction 1 as [|seg p segs ps (Ei & _) _ IH]; [done|]. by rewrite !fmap_cons, Ei, IH. Qed.

Lemma placed_from s segs ps p :
  Forall2 (seg_placed s) segs ps -> p ∈ ps -> exists seg, seg ∈ segs /\ seg_placed s seg p.
Proof.
  intros Hps [i Hi]%list_elem_of_lookup_1. destruct (Forall2_lookup_r _ _ _ _ _ Hps Hi) as (seg & Hseg & Hp).
  exists seg. split; [by eapply list_elem_of_lookup_2|done].
Qed.

Lemma grows_represents s s' m : grows s s' -> represents s m -> represents s' m.
Proof.
  intros G Hr. eapply represents_same; [done|by eapply store_ok_grows, Hr|]. apply grows_same_payloads; [apply Hr|done].
Qed.

Lemma persist_data_run s m image previous current new pending psegs changed :
  let pend := retain_current_placements current pending in
  let t := publish_map (previous ∖ current) (psegs ++ new) m in
  represents s m -> persist_fits s m image (previous ∖ current) pend psegs new ->
  st_run (persist_data image previous current new pending changed) s
    (fun _ s' => represents s' t) (partly m t).
Proof.
  intros pend t Hrep Hfit. unfold persist_data. fold pend. destruct Hfit as [Hp Hps Hnew Hids Hfresh Ho Hnodes Hrem].
  st_step. eapply st_run_mono; [apply append_segments_bounded_run; [apply Hrep|done|done]| |].
  2: { intros s1 G. by eapply partly_old, grows_represents. }
  intros a s1 [G1 Pa1 Pl1 _ Sy1 _]. pose proof (grows_represents s s1 m G1 Hrep) as Hr1.
  st_step. eapply st_run_mono; [apply sync_pending_run; [apply Hr1|by eapply pending_ok_grows]| |].
  2: { intros ? ->. by apply partly_old. }
  intros ? s2 (G2 & B2 & Sy2). pose proof (grows_represents s1 s2 m G2 Hr1) as Hr2.
  assert (Hpl : Forall2 (seg_placed s2) (psegs ++ new) (pa_placements (pending_merge pend a))).
  { apply Forall2_app; (eapply Forall2_impl; [eassumption|]); intros seg p; [|by apply seg_placed_grows].
    apply seg_placed_grows. by etrans. }
  assert (Hnd : NoDup (sp_segment_id <$> pa_placements (pending_merge pend a))) by by rewrite (placed_ids _ _ _ Hpl).
  assert (Hfr : forall p, p ∈ pa_placements (pending_merge pend a) -> m !! sp_segment_id p = None).
  { intros p Hin. destruct (placed_from _ _ _ _ Hpl Hin) as (seg & Hseg & Ei & _). rewrite Ei. by apply Hfresh. }
  apply catalog_publish_run; [done| |done|done| |done| |done].
  - split.
    + apply pending_ok_merge; (eapply pending_ok_grows; [|eassumption]); [by etrans|done].
    + eapply synced_merge; [done|done|apply Hr1|by apply Sy1|done].
  - intros node id bytes. by apply publish_map_spec.
  - intros p Hin. destruct (placed_from _ _ _ _ Hpl Hin) as (seg & Hseg & _ & En & _). rewrite En. by apply Hnodes.
Qed.
End persisting.
