(* ===== verification/Durable.v ===== *)
(** * The durable store of segments

    What the data logs promise to the rest of the store, over any sequence of
    flushes, prestaged writes, maintenance ticks, compactions and crashes: the
    segments are a map, changed by flushes only.  The background worker comes
    to rest under a policy that lets it make progress, and not under every
    policy that is accepted; and maintenance does not know the writes that wait
    for a flush. *)

From S2P Require Import Prelude Api Object Provider Config Catalog SegmentStore StorageNode.
From S2P Require Import Codec CodecObjects DataLog LogStore LogSpec Maintenance Compaction Publish.
From S2P Require Import PublishSpec.

(** ** Histories *)

Section histories.
Context `{Crc32cCrate}.
Implicit Types m : SegmentMap.

(** What a step is to a reader of segments. *)
Inductive durable_event :=
| Flushed (removed : gset SegmentId) (segs : list DurableSegmentPayload) (ok : bool)
| Unseen.

Definition with_durable (parts : DurableMaintenanceParts) (s : LogStore) : DurableMaintenanceParts :=
  mkMaintenanceParts s (mp_cursor parts) (mp_policy parts).

(** The store in memory after a restart: the files that the crash left, no
    cached syncs, and the cursor from its table. *)
Definition restarted (parts : DurableMaintenanceParts) (files : gmap DurableDataLogRef LogFile)
    : DurableMaintenanceParts :=
  mkMaintenanceParts (set_ls_synced ∅ ∅ (set_ls_files files (mp_durable parts)))
    (ls_cursor (mp_durable parts)) (mp_policy parts).

Inductive durable_step (parts : DurableMaintenanceParts)
    : durable_event -> DurableMaintenanceParts -> Prop :=
| step_flush image previous current new pending psegs changed r s' :
    (forall m, represents (mp_durable parts) m ->
       persist_fits (mp_durable parts) m image (previous ∖ current)
         (retain_current_placements current pending) psegs new) ->
    persist_data image previous current new pending changed (mp_durable parts) = (r, s') ->
    durable_step parts (Flushed (previous ∖ current) (psegs ++ new) (is_ok r)) (with_durable parts s')
| step_prestage segs pending r s' :
    pending_ok (mp_durable parts) pending -> Forall payload_ok segs ->
    prestage_segments segs pending (mp_durable parts) = (r, s') ->
    durable_step parts Unseen (with_durable parts s')
| step_tick w1 w2 wal r parts' :
    run_maintenance_tick_parts w1 w2 wal parts = (r, parts') -> durable_step parts Unseen parts'
| step_compact policy r s' :
    compact_data_logs policy (mp_durable parts) = (r, s') -> durable_step parts Unseen (with_durable parts s')
| step_crash files :
    crash_files (ls_files (mp_durable parts)) files -> durable_step parts Unseen (restarted parts files).

(** The same of the map. *)
Inductive map_step m : durable_event -> gmap SegmentId (StorageNodeId * list Z) -> Prop :=
| map_flushed removed segs : map_step m (Flushed removed segs true) (publish_map removed segs m)
| map_partly removed segs m' :
    between m (publish_map removed segs m) m' -> map_step m (Flushed removed segs false) m'
| map_unseen : map_step m Unseen m.

Inductive history {A} (step : A -> durable_event -> A -> Prop) : A -> list durable_event -> A -> Prop :=
| history_nil a : history step a [] a
| history_cons a ev b evs c : step a ev b -> history step b evs c -> history step a (ev :: evs) c.

Lemma step_refines parts m ev parts' :
  represents (mp_durable parts) m -> durable_step parts ev parts' ->
  exists m', map_step m ev m' /\ represents (mp_durable parts') m'.
Proof.
  intros Hrep Hstep. pose proof (proj1 Hrep) as Hok.
  assert (Hkept : forall s', kept (mp_durable parts) s' -> exists m', map_step m Unseen m' /\ represents s' m').
  { intros s' K. exists m. split; [constructor|]. eapply represents_same; [done|apply K|apply K]. }
  destruct Hstep as [image previous current new pending psegs changed r s' Hfit Hrun|segs pending r s' Hp Hs Hrun
    |w1 w2 wal r parts' Hrun|policy r s' Hrun|files Hcr].
  - pose proof (st_run_elim _ _ _ _ _ _ (persist_data_run _ m image previous current new pending psegs changed Hrep (Hfit m Hrep)) Hrun) as Hpost.
    destruct r; cbn [is_ok]; [eexists; by split; [constructor|]|]. destruct Hpost as (m' & Hb & Hr). exists m'.
    split; [by constructor|done].
  - assert (grows (mp_durable parts) s') as G.
    { pose proof (st_run_elim _ _ _ _ _ _ (append_segments_run NoSync (Some pending) segs _ Hok
        ltac:(by intros ? [= <-]) Hs) Hrun) as Hpost. destruct r; [apply Hpost|done]. }
    exists m. split; [constructor|]. by eapply grows_represents.
  - apply Hkept. pose proof (st_run_elim _ _ _ _ _ _ (tick_run w1 w2 wal parts Hok) Hrun) as Hpost.
    destruct r; apply Hpost.
  - apply Hkept. pose proof (st_run_elim _ _ _ _ _ _ (compact_data_logs_run policy _ Hok) Hrun) as Hpost.
    by destruct r.
  - exists m. split; [constructor|]. destruct (crash_ok _ _ Hok Hcr) as [[A B] Hs'].
    eapply represents_same; [done|by split|exact Hs'].
Qed.

(** C3: the durable segments refine a map.  Over any sequence of flushes (whose
    arguments fit the store), prestaged writes, maintenance ticks, compactions
    and crashes with restarts, whatever fails: the current placements give the
    segments of a map that only flushes change.  A flush that succeeds removes
    the removed segments and adds the prestaged and the new ones; one that
    fails leaves every segment in its old or its new state; nothing else has an
    effect, and a crash loses nothing. *)
Theorem durable_segments_refine parts m evs parts' :
  represents (mp_durable parts) m -> history durable_step parts evs parts' ->
  exists m', history map_step m evs m' /\ represents (mp_durable parts') m'.
Proof.
  intros Hrep Hrun. revert m Hrep. induction Hrun as [parts|parts ev parts1 evs parts2 Hstep _ IH]; intros m Hrep.
  { exists m. split; [constructor|done]. }
  destruct (step_refines parts m ev parts1 Hrep Hstep) as (m1 & Hm1 & Hrep1). destruct (IH m1 Hrep1) as (m2 & Hm2 & Hrep2).
  exists m2. split; [by econstructor|done].
Qed.
End histories.

(** ** The background worker *)

Section worker.
Context `{Crc32cCrate}.

(** A flush fails when the file of a pending record is missing. *)
Lemma persist_missing_log image previous current pending changed s p :
  p ∈ pa_placements pending -> sp_segment_id p ∈ current -> is_Some (pa_logs pending !! placement_ref p) ->
  ls_files s !! placement_ref p = None ->
  persist_data image previous current [] pending changed s = (Err fs_error, s).
Proof.
  intros Hp Hcur [m Hm] Hf. unfold persist_data. set (pa := retain_current_placements current pending).
  assert (Hpa : pa_logs pa !! placement_ref p = Some m /\ p ∈ pa_placements pa).
  { subst pa. unfold retain_current_placements, prune_unreferenced_logs. cbn [pa_logs pa_placements].
    assert (Hin : p ∈ filter (fun p => sp_segment_id p ∈ current) (pa_placements pending)) by (by apply list_elem_of_filter).
    split; [|done]. apply map_lookup_filter_Some. split; [done|]. cbn. apply elem_of_list_to_set. by apply list_elem_of_fmap_2. }
  destruct Hpa as [Hlog Hin].
  assert (Hfor : forall l, placement_ref p ∈ l ->
    try_for (fun r => reject_if (bool_decide (ls_files s !! r = None)) fs_error) l = Err fs_error).
  { induction l as [|r l IH]; intros Hr; [by apply not_elem_of_nil in Hr|]. cbn [try_for].
    case_bool_decide as Hnone; [done|]. apply elem_of_cons in Hr as [<-|Hr]; [done|]. by apply IH. }
  assert (Hsync : sync_pending_data_logs pa s = (Err fs_error, s)).
  { unfold sync_pending_data_logs, pending_is_empty.
    rewrite (bool_decide_false (pa_placements pa = [])) by (intros E; rewrite E in Hin; by apply not_elem_of_nil in Hin).
    cbn [andb]. rewrite st_bind_run. cbn [st_get]. rewrite st_bind_lift, Hfor; [done|].
    apply list_elem_of_fmap. exists (placement_ref p, m). split; [done|]. by apply elem_of_log_iter. }
  rewrite (st_bind_step _ _ s PendingDataLogAppend_default s) by reflexivity. by rewrite st_bind_run, Hsync.
Qed.

(** The logs worth compacting, in the order in which the next tick looks at them,
    and the part of them that it looks at. *)
Definition worker_candidates (parts : DurableMaintenanceParts) : list MaintenanceDataLogObservation :=
  candidates_of (mp_policy parts) (maintenance_observation (mp_durable parts) (mp_cursor parts) 0 0 0).
Definition scanned_candidates (parts : DurableMaintenanceParts) : list MaintenanceDataLogObservation :=
  take (Z.to_nat (max_logs_scanned_per_tick (mp_policy parts))) (worker_candidates parts).

(** C6: the background worker comes to rest.  Under a policy that asks for some
    reclaimable bytes and lets a tick copy what the scheduler may select, the
    loop of the worker ends after at most one tick more than there are logs
    with dead bytes.  Either a tick fails, or every log among those that a tick
    scans (the first [max_logs_scanned_per_tick] candidates after the cursor) has
    more live bytes than a tick may copy; if no more candidates are left than a
    tick scans, that holds of all of them.  A log behind that many larger ones
    may stay.  The payload of every segment is the same. *)
Theorem worker_comes_to_rest wal fuel parts :
  productive (mp_policy parts) -> store_ok (mp_durable parts) -> (size (dirty (mp_durable parts)) < fuel)%nat ->
  exists r parts', drain wal fuel parts = (Some r, parts') /\
    store_ok (mp_durable parts') /\ same_payloads (mp_durable parts) (mp_durable parts') /\
    (r = Ok tt ->
       let too_large log := compaction_copy_budget_per_tick (mp_policy parts') < ob_live_bytes log in
       (forall log, log ∈ scanned_candidates parts' -> too_large log) /\
       (Z.of_nat (length (worker_candidates parts')) <= max_logs_scanned_per_tick (mp_policy parts') ->
        forall log, log ∈ worker_candidates parts' -> too_large log)).
Proof.
  revert parts. induction fuel as [|fuel IH]; intros parts Hprod Hok Hfuel; [lia|]. cbn [drain].
  pose proof (tick_run 0 0 (wal fuel) parts Hok) as Hrun. unfold st_run in Hrun.
  destruct (run_maintenance_tick_parts 0 0 (wal fuel) parts) as [[report|e] parts1].
  2: { destruct Hrun as [K _]. eexists _, parts1. split; [done|]. split; [apply K|]. split; [apply K|done]. }
  destruct Hrun as (K & Epol & Hnone & Hsome). case_bool_decide as Hc.
  - destruct (Hnone Hc) as [-> Hover]. eexists _, parts. split; [done|]. split; [done|]. split; [done|]. intros _.
    split; [exact Hover|]. intros Hall log Hlog. apply Hover. rewrite take_ge; [exact Hlog|].
    change (candidates_of _ _) with (worker_candidates parts). lia.
  - specialize (Hsome Hc Hprod). apply subset_size in Hsome.
    destruct (IH parts1) as (r & parts2 & Hd & Hok2 & Hs2 & Hover); [by rewrite Epol|apply K|lia|].
    exists r, parts2. split; [done|]. split; [done|]. split; [|done]. etrans; [apply K|done].
Qed.

(** C18: the background worker does not come to rest under every policy that is
    accepted.  If there are logs worth compacting, with numbers below 2^63 as
    SQLite keeps them, and each of them has more live bytes than one compaction
    may copy but no more than the budget of a tick, then the scheduler selects logs that the executor skips, in every tick: no
    number of ticks ends the loop of the worker, which changes nothing but its
    cursors. *)
Theorem worker_spins wal fuel parts :
  MaintenancePolicy_validate (mp_policy parts) = Ok tt -> policy_typed (mp_policy parts) ->
  worker_candidates parts <> [] ->
  (forall log, log ∈ worker_candidates parts ->
     max_compaction_copy_bytes (data_log_policy (mp_policy parts)) < ob_live_bytes log <=
       compaction_copy_budget_per_tick (mp_policy parts) /\
     lr_log_id (ob_log_ref log) < 2 ^ 63) ->
  exists c1 c2, drain wal fuel parts =
    (None, mkMaintenanceParts (set_ls_cursor c1 (mp_durable parts)) c2 (mp_policy parts)).
Proof.
  intros Hval Hty. revert parts Hval Hty. induction fuel as [|fuel IH]; intros parts Hval Hty Hne Hlogs; cbn [drain].
  { exists (ls_cursor (mp_durable parts)), (mp_cursor parts). by destruct parts as [[]]. }
  destruct (tick_skips (wal fuel) parts Hval Hty Hne Hlogs) as (report & c1 & c2 & -> & Hc).
  rewrite bool_decide_false by done. set (parts1 := mkMaintenanceParts _ _ _).
  assert (Hsame : forall log, log ∈ worker_candidates parts1 <-> log ∈ worker_candidates parts).
  { intros log. unfold worker_candidates, candidates_of. rewrite !elem_of_rotate. done. }
  destruct (IH parts1 Hval Hty) as (c3 & c4 & ->).
  - destruct (worker_candidates parts) as [|log l] eqn:E; [done|]. intros E1. assert (log ∈ worker_candidates parts1) as Hl.
    { apply Hsame. by left. } rewrite E1 in Hl. by apply not_elem_of_nil in Hl.
  - intros log Hlog%Hsame. by apply Hlogs.
  - by exists c3, c4.
Qed.

(** C17: maintenance does not know the writes that wait for a flush.  Let a
    record be written in advance for an acknowledged write and wait, with its
    log, in [pending]; if that log is among the candidates that the next tick
    scans and no published segment is live in it, then a tick that succeeds
    removes the log: the record can no longer be read, and a flush that would
    publish it, without new segments, fails. *)
Theorem maintenance_drops_prestaged w1 w2 wal parts pending p log report parts' :
  store_ok (mp_durable parts) -> policy_typed (mp_policy parts) ->
  p ∈ pa_placements pending -> is_Some (pa_logs pending !! placement_ref p) ->
  log ∈ scanned_candidates parts -> ob_log_ref log = placement_ref p -> ob_live_bytes log = 0 ->
  run_maintenance_tick_parts w1 w2 wal parts = (Ok report, parts') ->
  read_segment_payload (mp_durable parts') p = Err fs_error /\
  forall image previous current changed, sp_segment_id p ∈ current ->
    persist_data image previous current [] pending changed (mp_durable parts') = (Err fs_error, mp_durable parts').
Proof.
  intros Hok (_ & [Hb _] & _) Hp [m Hm] Hlog Eref Hz Htick.
  destruct (tick_removes w1 w2 wal parts log report parts' Hok Hb Hlog Hz Htick) as [_ Hf]. rewrite Eref in Hf.
  split; [unfold read_segment_payload; by rewrite Hf|]. intros image previous current changed Hcur.
  by apply (persist_missing_log _ _ _ _ _ _ p).
Qed.
End worker.

(** ** An example *)

Section demo.
#[local] Existing Instance sum_crc.

Definition demo_log_policy (max_copy : Z) : DurableDataLogPolicy := mkDataLogPolicy 100 4 0 1 max_copy.
Definition demo_maintenance_policy (max_copy : Z) : MaintenancePolicy :=
  mkMaintenancePolicy AlwaysOn (demo_log_policy max_copy) false 0 1000 128 1000 1000 U64_MAX 16 1.
Definition demo_segment (id : SegmentId) (bytes : list Z) : DurableSegmentPayload :=
  mkDurableSegmentPayload id 1 (Crc32c (crc32c bytes)) bytes.
Definition demo_image : StorageNodeRegistryInner :=
  mkStorageNodeRegistryInner 10 0 [1] {[1 := mkStorageNodeInner SegmentStore_new (mkCatalogInner 1 ∅)]}.

(** A store with one node; a flush of three segments, which fills a log and
    begins another; and a flush that removes a segment of each. *)
Definition demo_logs : LogStore := mkLogStore (demo_log_policy 1000) {[1 := mkNodeCatalog None ∅ ∅ ∅]} ∅ ∅ ∅ None.
Definition demo_segments : list DurableSegmentPayload :=
  [demo_segment 7 [1; 2; 3]; demo_segment 8 [4; 5]; demo_segment 9 [6; 6; 6]].
Definition demo_flush1 : Result unit * LogStore :=
  persist_data demo_image ∅ {[7; 8; 9]} demo_segments PendingDataLogAppend_default None demo_logs.
Definition demo_flush2 : Result unit * LogStore :=
  persist_data demo_image {[7; 8; 9]} {[8]} [] PendingDataLogAppend_default None demo_flush1.2.
(** A write that waits for a flush. *)
Definition demo_prestage : Result PendingDataLogAppend * LogStore :=
  prestage_segments [demo_segment 10 [9; 9]] PendingDataLogAppend_default demo_flush2.2.
Definition demo_pending : PendingDataLogAppend :=
  match demo_prestage.1 with Ok pending => pending | Err _ => PendingDataLogAppend_default end.
Definition demo_parts (max_copy : Z) (s : LogStore) : DurableMaintenanceParts :=
  mkMaintenanceParts s None (demo_maintenance_policy max_copy).

Lemma demo_represents : represents demo_logs ∅.
Proof.
  assert (Hc : forall node c, ls_catalogs demo_logs !! node = Some c -> c = mkNodeCatalog None ∅ ∅ ∅).
  { intros node c Hc. unfold demo_logs in Hc. cbn [ls_catalogs] in Hc. by apply lookup_singleton_Some in Hc as [_ <-]. }
  split.
  - split; [done|]. intros node c ->%Hc. by split.
  - intros node id bytes. rewrite segment_payload_Ok. split; [|done]. by intros (c & p & ->%Hc & Hp & _).
Qed.

Lemma demo_payload_ok id bytes :
  in_u128 id -> in_u64 (crc32c bytes) -> payload_ok (demo_segment id bytes).
Proof. intros ? ?. split; [by split|]. cbn. by rewrite Z.eqb_refl. Qed.

(** The flushes fit: all segments are on the one node. *)
Lemma demo_fits s m removed new c :
  ls_catalogs s = {[1 := c]} -> represents s m -> Forall payload_ok new -> NoDup (dp_segment_id <$> new) ->
  (forall seg, seg ∈ new -> dp_storage_node seg = 1 /\ nc_placements c !! dp_segment_id seg = None) ->
  persist_fits s m demo_image removed PendingDataLogAppend_default [] new.
Proof.
  intros Ec [_ Hm] Hok Hnd Hnew.
  assert (Hone : forall id node bytes, m !! id = Some (node, bytes) -> node = 1 /\ is_Some (nc_placements c !! id)).
  { intros id node bytes (c' & p & Hc & Hp & _)%Hm%segment_payload_Ok. rewrite Ec in Hc.
    apply lookup_singleton_Some in Hc as [<- <-]. split; [done|by eexists]. }
  split; cbn; [apply pending_ok_default|done|done|done| | | |].
  - intros seg Hseg. destruct (Hnew seg Hseg) as [_ Hn]. destruct (m !! _) as [[node bytes]|] eqn:E; [|done].
    destruct (Hone _ _ _ E) as [_ [? ?]]. congruence.
  - apply NoDup_singleton.
  - intros seg Hseg. destruct (Hnew seg Hseg) as [-> _]. by left.
  - intros id node bytes _ Hid. destruct (Hone _ _ _ Hid) as [-> _]. by left.
Qed.

Lemma demo_segments_ok : Forall payload_ok demo_segments.
Proof. repeat constructor; vm_compute; try done; discriminate. Qed.

Definition demo_catalog (s : LogStore) : NodeCatalog := default (mkNodeCatalog None ∅ ∅ ∅) (ls_catalogs s !! 1).

Lemma demo_flush1_step max_copy :
  durable_step (demo_parts max_copy demo_logs) (Flushed (∅ ∖ {[7; 8; 9]}) demo_segments true)
    (demo_parts max_copy demo_flush1.2).
Proof.
  apply (step_flush (demo_parts max_copy demo_logs) demo_image ∅ {[7; 8; 9]} demo_segments
    PendingDataLogAppend_default [] None (Ok tt) demo_flush1.2); [|vm_compute; reflexivity].
  intros m Hm. apply (demo_fits _ m _ _ (demo_catalog demo_logs)); [done|done|apply demo_segments_ok| |].
  - repeat (apply NoDup_cons; split; [cbn; set_solver|]). apply NoDup_nil_2.
  - intros seg Hseg. cbn in Hseg. split; [set_solver|done].
Qed.
Lemma demo_flush2_step max_copy :
  durable_step (demo_parts max_copy demo_flush1.2) (Flushed ({[7; 8; 9]} ∖ {[8]}) [] true)
    (demo_parts max_copy demo_flush2.2).
Proof.
  apply (step_flush (demo_parts max_copy demo_flush1.2) demo_image {[7; 8; 9]} {[8]} []
    PendingDataLogAppend_default [] None (Ok tt) demo_flush2.2); [|vm_compute; reflexivity].
  intros m Hm. apply (demo_fits _ m _ _ (demo_catalog demo_flush1.2)); [vm_compute; reflexivity|done|constructor| |].
  - apply NoDup_nil_2.
  - by intros seg ?%not_elem_of_nil.
Qed.

Lemma demo_prestage_step max_copy :
  durable_step (demo_parts max_copy demo_flush2.2) Unseen (demo_parts max_copy demo_prestage.2).
Proof.
  apply (step_prestage (demo_parts max_copy demo_flush2.2) [demo_segment 10 [9; 9]] PendingDataLogAppend_default
    (Ok demo_pending) demo_prestage.2); [apply pending_ok_default| |vm_compute; reflexivity].
  repeat constructor; vm_compute; try done; discriminate.
Qed.

(** A crash that loses the bytes that were not synced. *)
Lemma demo_crash_step max_copy :
  durable_step (demo_parts max_copy demo_prestage.2) Unseen (demo_parts max_copy demo_flush2.2).
Proof.
  apply (step_crash (demo_parts max_copy demo_prestage.2) (ls_files demo_flush2.2)).
  intros r. destruct (decide (r = mkLogRef 1 1)) as [->|Hr1].
  { vm_compute. repeat split; try discriminate. by exists []. }
  destruct (decide (r = mkLogRef 1 2)) as [->|Hr2].
  { vm_compute. repeat split; try discriminate. eexists. reflexivity. }
  assert (Hnone : forall s, (map_to_list (ls_files s)).*1 = [mkLogRef 1 2; mkLogRef 1 1] -> ls_files s !! r = None).
  { intros s Es. apply eq_None_not_Some. intros [f Hf%elem_of_map_to_list].
    apply (list_elem_of_fmap_2 fst) in Hf. rewrite Es in Hf. set_solver. }
  rewrite !Hnone; [done|vm_compute; reflexivity..].
Qed.
Definition demo_events : list durable_event :=
  [Flushed (∅ ∖ {[7; 8; 9]}) demo_segments true; Flushed ({[7; 8; 9]} ∖ {[8]}) [] true; Unseen; Unseen].

Lemma durable_segments_refine_witness :
  exists m', history map_step ∅ demo_events m' /\ represents demo_flush2.2 m' /\ segment_payload demo_flush2.2 1 8 = Ok [4; 5].
Proof.
  destruct (durable_segments_refine (demo_parts 1000 demo_logs) ∅ demo_events (demo_parts 1000 demo_flush2.2)) as (m' & Hh & Hr).
  - exact demo_represents.
  - econstructor; [apply demo_flush1_step|]. econstructor; [apply demo_flush2_step|].
    econstructor; [apply demo_prestage_step|]. econstructor; [apply demo_crash_step|]. constructor.
  - exists m'. split; [exact Hh|]. split; [exact Hr|]. vm_compute. reflexivity.
Defined.

Lemma demo_flushed : exists m, represents demo_flush2.2 m.
Proof.
  destruct (step_refines (demo_parts 1000 demo_logs) ∅ _ _ demo_represents (demo_flush1_step 1000)) as (m1 & _ & Hr1).
  destruct (step_refines _ m1 _ _ Hr1 (demo_flush2_step 1000)) as (m2 & _ & Hr2). by exists m2.
Qed.
Lemma demo_prestaged : exists m, represents demo_prestage.2 m.
Proof.
  destruct demo_flushed as [m Hm].
  destruct (step_refines (demo_parts 1000 demo_flush2.2) m _ _ Hm (demo_prestage_step 1000)) as (m2 & _ & Hr2). by exists m2.
Qed.

(** The two logs have dead bytes; the worker moves the one live segment and
    removes both. *)
Lemma worker_comes_to_rest_witness :
  let rested := drain (fun _ => 0) 3 (demo_parts 1000 demo_flush2.2) in
  rested.1 = Some (Ok tt) /\ scanned_candidates rested.2 = [] /\
  same_payloads demo_flush2.2 (mp_durable rested.2) /\
  segment_payload (mp_durable rested.2) 1 8 = Ok [4; 5].
Proof.
  intros rested. split; [vm_compute; reflexivity|]. split; [vm_compute; reflexivity|]. split; [|vm_compute; reflexivity].
  destruct (worker_comes_to_rest (fun _ => 0) 3 (demo_parts 1000 demo_flush2.2)) as (r & parts' & Hd & _ & Hs & _).
  - split; [left|]; vm_compute; discriminate.
  - destruct demo_flushed as [m Hm]. apply Hm.
  - vm_compute. repeat constructor.
  - subst rested. rewrite Hd. exact Hs.
Defined.

(** ** What maintenance does not do *)

(** A compaction may copy one byte; the log with two live bytes keeps the worker
    busy. *)
Lemma worker_spins_witness :
  exists c1 c2, drain (fun _ => 0) 1000 (demo_parts 1 demo_flush2.2) =
    (None, mkMaintenanceParts (set_ls_cursor c1 demo_flush2.2) c2 (demo_maintenance_policy 1)).
Proof.
  apply (worker_spins (fun _ => 0) 1000 (demo_parts 1 demo_flush2.2)).
  - vm_compute. reflexivity.
  - vm_compute. repeat split; discriminate.
  - vm_compute. discriminate.
  - assert (E : worker_candidates (demo_parts 1 demo_flush2.2) = [mkLogObservation (mkLogRef 1 1) 93 2 3 3])
      by (vm_compute; reflexivity).
    rewrite E. intros log ->%list_elem_of_singleton. vm_compute. repeat split; discriminate.
Defined.

(** The first tick moves the live segment of the other log, which seals the log
    that holds the prestaged record; the second one removes that log. *)
Definition demo_sealed : DurableMaintenanceParts :=
  (run_maintenance_tick_parts 0 0 0 (demo_parts 1000 demo_prestage.2)).2.
Definition demo_record : SegmentPlacementRow :=
  default (mkPlacementRow 0 0 0 0 0 0 0 SpUnchecked) (head (pa_placements demo_pending)).

Lemma demo_sealed_ok : store_ok (mp_durable demo_sealed).
Proof.
  destruct demo_prestaged as [m Hm].
  destruct (step_refines (demo_parts 1000 demo_prestage.2) m Unseen demo_sealed Hm) as (m2 & _ & Hr); [|apply Hr].
  eapply step_tick. unfold demo_sealed. apply surjective_pairing.
Qed.

Lemma maintenance_drops_prestaged_witness :
  let dropped := (run_maintenance_tick_parts 0 0 0 demo_sealed).2 in
  demo_prestage.1 = Ok demo_pending /\
  read_segment_payload demo_prestage.2 demo_record = Ok [9; 9] /\
  read_segment_payload (mp_durable dropped) demo_record = Err fs_error /\
  (persist_data demo_image {[8]} {[8; 10]} [] demo_pending None (mp_durable dropped)).1 = Err fs_error.
Proof.
  intros dropped. split; [vm_compute; reflexivity|]. split; [vm_compute; reflexivity|].
  destruct (run_maintenance_tick_parts 0 0 0 demo_sealed) as [[report|e] parts'] eqn:Htick; [|by vm_compute in Htick].
  destruct (maintenance_drops_prestaged 0 0 0 demo_sealed demo_pending demo_record
    (mkLogObservation (mkLogRef 1 2) 47 0 3 3) report parts') as [Hread Hflush].
  - exact demo_sealed_ok.
  - vm_compute. repeat split; discriminate.
  - vm_compute. left.
  - vm_compute. by eexists.
  - vm_compute. left.
  - vm_compute. reflexivity.
  - reflexivity.
  - exact Htick.
  - subst dropped. cbn [snd]. split; [exact Hread|]. rewrite Hflush; [done|]. vm_compute. reflexivity.
Defined.
End demo.
