(* ===== verification/Sim.v ===== *)
(** * The command core and the simulator ([core/mod.rs], [sim.rs])

    [StorageState] turns commands into effects for providers to run.  The
    simulator has a clock, a seeded generator, a fault injector and a minimizer
    of failing traces. *)

From S2P Require Import Prelude Api Object Provider Config Catalog Plane.

(** ** Commands and effects *)

Record StorageState := mkStorageState { steps_applied : Z }.

Definition StorageState_default : StorageState := mkStorageState 0.

Record WriteIntentRecord := mkWriteIntentRecord {
  wi_write_intent : WriteIntentId;
  wi_owner : MappingOwner;
  wi_bytes : Z;
  wi_deadline : option Z;
}.

Inductive StorageCommand :=
| Noop
| CmdCreateWriteIntent (intent : WriteIntentRecord)
| CmdReserveSegment (intent : SegmentReservationIntent)
| CmdBeginSegmentWrite (reservation : SegmentReservation)
| CmdWriteSegment (reservation : SegmentReservation) (bytes : list Z)
| CmdSyncSegment (segment_id : SegmentId)
| CmdCommitSegmentDurablePending (reservation : SegmentReservation) (commit : SegmentReplicaCommit)
| CmdMarkSegmentReferenced (segment_id : SegmentId) (owner : MappingOwner) (commit_group : CommitGroupId)
| CmdReleaseSegment (segment_id : SegmentId)
| CmdExpireSegmentReservation (segment_id : SegmentId)
| CmdFailSegmentWrite (segment_id : SegmentId)
| CmdPersistMetadataNode (node : MetadataNode)
| CmdPublishDeviceHead (head : DeviceHead)
| CmdPublishFileHead (head : FileHead)
| CmdPublishCommitGroup (intent : CommitGroupIntent)
| CmdAppendTimelineCommit (commit : CommitGroup)
| CmdPersistCheckpoint (checkpoint : Checkpoint)
| CmdRunMetadataCustodian (policy : RetentionPolicy)
| CmdRunStorageNodeCustodian (storage_node : StorageNodeId) (now : LogicalTime)
| CmdDeleteMetadataNode (node_id : MetadataNodeId)
| CmdDeleteSegmentReplica (segment_id : SegmentId) (storage_node : StorageNodeId).

Inductive StorageEffect :=
| EffCreateWriteIntent (intent : WriteIntentRecord)
| EffReserveSegment (intent : SegmentReservationIntent)
| EffBeginSegmentWrite (reservation : SegmentReservation)
| EffWriteSegment (reservation : SegmentReservation) (bytes : list Z)
| EffSyncSegment (segment_id : SegmentId)
| EffCommitSegmentDurablePending (reservation : SegmentReservation) (commit : SegmentReplicaCommit)
| EffMarkSegmentReferenced (segment_id : SegmentId) (owner : MappingOwner) (commit_group : CommitGroupId)
| EffReleaseSegment (segment_id : SegmentId)
| EffExpireSegmentReservation (segment_id : SegmentId)
| EffFailSegmentWrite (segment_id : SegmentId)
| EffPersistMetadataNode (node : MetadataNode)
| EffPublishDeviceHead (head : DeviceHead)
| EffPublishFileHead (head : FileHead)
| EffPublishCommitGroup (intent : CommitGroupIntent)
| EffAppendTimelineCommit (commit : CommitGroup)
| EffPersistCheckpoint (checkpoint : Checkpoint)
| EffRunMetadataCustodian (policy : RetentionPolicy)
| EffRunStorageNodeCustodian (storage_node : StorageNodeId) (now : LogicalTime)
| EffDeleteMetadataNode (node_id : MetadataNodeId)
| EffDeleteSegmentReplica (segment_id : SegmentId) (storage_node : StorageNodeId).

Definition core_step (self : StorageState) (command : StorageCommand) : list StorageEffect * StorageState :=
  let self := mkStorageState (saturating_add U64_MOD (steps_applied self) 1) in
  (match command with
   | Noop => []
   | CmdCreateWriteIntent intent => [EffCreateWriteIntent intent]
   | CmdReserveSegment intent => [EffReserveSegment intent]
   | CmdBeginSegmentWrite reservation => [EffBeginSegmentWrite reservation]
   | CmdWriteSegment reservation bytes => [EffWriteSegment reservation bytes]
   | CmdSyncSegment segment_id => [EffSyncSegment segment_id]
   | CmdCommitSegmentDurablePending reservation commit => [EffCommitSegmentDurablePending reservation commit]
   | CmdMarkSegmentReferenced segment_id owner commit_group =>
       [EffMarkSegmentReferenced segment_id owner commit_group]
   | CmdReleaseSegment segment_id => [EffReleaseSegment segment_id]
   | CmdExpireSegmentReservation segment_id => [EffExpireSegmentReservation segment_id]
   | CmdFailSegmentWrite segment_id => [EffFailSegmentWrite segment_id]
   | CmdPersistMetadataNode node => [EffPersistMetadataNode node]
   | CmdPublishDeviceHead head => [EffPublishDeviceHead head]
   | CmdPublishFileHead head => [EffPublishFileHead head]
   | CmdPublishCommitGroup intent => [EffPublishCommitGroup intent]
   | CmdAppendTimelineCommit commit => [EffAppendTimelineCommit commit]
   | CmdPersistCheckpoint checkpoint => [EffPersistCheckpoint checkpoint]
   | CmdRunMetadataCustodian policy => [EffRunMetadataCustodian policy]
   | CmdRunStorageNodeCustodian storage_node now => [EffRunStorageNodeCustodian storage_node now]
   | CmdDeleteMetadataNode node_id => [EffDeleteMetadataNode node_id]
   | CmdDeleteSegmentReplica segment_id storage_node => [EffDeleteSegmentReplica segment_id storage_node]
   end, self).

(** ** Faults *)

Inductive FaultKind :=
| PublishConflict
| DuplicateEffect
| DelayedEffect
| MissingObject
| WriteIntentExpiry
| OrphanSegment
| MissedAsyncFree
| CrashReplayBoundary.

(** [kind as u64] *)
Definition fault_index (kind : FaultKind) : Z :=
  match kind with
  | PublishConflict => 0
  | DuplicateEffect => 1
  | DelayedEffect => 2
  | MissingObject => 3
  | WriteIntentExpiry => 4
  | OrphanSegment => 5
  | MissedAsyncFree => 6
  | CrashReplayBoundary => 7
  end.

(** [x ^= x << n] and [x ^= x >> n] on 64 bits. *)
Definition xor_shl (n x : Z) : Z := Z.lxor x (Z.land (Z.shiftl x n) U64_MAX).
Definition xor_shr (n x : Z) : Z := Z.lxor x (Z.shiftr x n).
Definition xorshift (x : Z) : Z := xor_shl 17 (xor_shr 7 (xor_shl 13 x)).

Definition rotate_left (x n : Z) : Z := Z.lor (Z.land (Z.shiftl x n) U64_MAX) (Z.shiftr x (64 - n)).

Record FaultInjector := mkFaultInjector { fi_seed : Z }.

Definition should_inject (self : FaultInjector) (fault_step : Z) (kind : FaultKind) : bool :=
  is_multiple_of
    (xorshift (Z.lxor (Z.lxor (fi_seed self) (rotate_left fault_step 17)) (wmul64 (fault_index kind) 0x9e3779b9))) 11.

Record ObjectGraphSummary := mkObjectGraphSummary {
  og_live_devices : Z;
  og_deleted_devices : Z;
  og_native_files : Z;
  og_metadata_nodes : Z;
  og_gc_roots : Z;
  og_referenced_segments : Z;
  og_released_segments : Z;
  og_freed_segments : Z;
}.

Record FailureArtifact := mkFailureArtifact {
  fa_seed : Z;
  fa_trace : list string;
  fa_minimized_trace : list string;
  fa_object_graph : ObjectGraphSummary;
}.

Definition minimized_trace_suffix (trace : list string) (max_events : Z) : list string :=
  drop (Z.to_nat (saturating_sub (Z.of_nat (length trace)) max_events)) trace.

Definition FailureArtifact_new (seed : Z) (trace : list string) (object_graph : ObjectGraphSummary)
    : FailureArtifact :=
  mkFailureArtifact seed trace (minimized_trace_suffix trace 32) object_graph.

(** The loop of [minimize_trace_by_deletion]: [None] if the fuel runs out.  The
    closure [still_reproduces] gives the same answer whenever it is asked about
    the same trace. *)
Fixpoint minimize_loop {T} (still_reproduces : list T -> bool) (fuel : nat) (candidate : list T) (index : nat)
    : option (list T) :=
  if (index <? length candidate)%nat then
    match fuel with
    | O => None
    | S fuel =>
        let attempt := take index candidate ++ drop (S index) candidate in
        if still_reproduces attempt then minimize_loop still_reproduces fuel attempt index
        else minimize_loop still_reproduces fuel candidate (S index)
    end
  else Some candidate.

Definition minimize_trace_by_deletion {T} (trace : list T) (still_reproduces : list T -> bool)
    : option (list T) :=
  minimize_loop still_reproduces (length trace) trace 0.

(** ** Clock, generator and harness *)

Record FakeClock := mkFakeClock { clock_now : LogicalTime }.

Definition FakeClock_advance (self : FakeClock) (delta : Z) : FakeClock :=
  mkFakeClock (saturating_add U64_MOD (clock_now self) delta).

Record SeededRng := mkSeededRng { rng_state : Z }.

Definition SeededRng_new (seed : Z) : SeededRng :=
  mkSeededRng (if seed =? 0 then 0x9e3779b97f4a7c15 else seed).

Definition next_u64 (self : SeededRng) : Z * SeededRng :=
  let x := xorshift (rng_state self) in (x, mkSeededRng x).

Definition choose_index (self : SeededRng) (len : Z) : option Z * SeededRng :=
  if len =? 0 then (None, self)
  else let '(x, self) := next_u64 self in (Some (x mod len), self).

Record TraceRecorder := mkTraceRecorder { tr_events : list string }.

Definition TraceRecorder_record (self : TraceRecorder) (event : string) : TraceRecorder :=
  mkTraceRecorder (tr_events self ++ [event]).

Record DeterministicHarness := mkDeterministicHarness {
  dh_seed : Z;
  dh_rng : SeededRng;
  dh_clock : FakeClock;
  dh_trace : TraceRecorder;
}.

Definition DeterministicHarness_new (seed : Z) : DeterministicHarness :=
  mkDeterministicHarness seed (SeededRng_new seed) (mkFakeClock 0) (mkTraceRecorder []).

(** ** The generator is injective *)

Lemma in_u64_bits x : in_u64 x <-> 0 <= x /\ forall i, 64 <= i -> Z.testbit x i = false.
Proof.
  unfold in_u64, U64_MOD. split.
  - intros [H0 Hlt]. split; [done|]. intros i Hi. destruct (decide (x = 0)) as [->|]; [apply Z.bits_0|].
    apply Z.bits_above_log2; [done|]. apply Z.log2_lt_pow2; [lia|]. eapply Z.lt_le_trans; [done|].
    apply Z.pow_le_mono_r; lia.
  - intros [H0 Hb]. split; [done|]. destruct (decide (x = 0)) as [->|Hx]; [done|].
    apply Z.log2_lt_pow2; [lia|]. destruct (Z.lt_ge_cases (Z.log2 x) 64) as [|Hge]; [done|].
    specialize (Hb _ Hge). rewrite Z.bit_log2 in Hb by lia. done.
Qed.

Lemma u64_max_testbit i : 0 <= i -> Z.testbit U64_MAX i = (i <? 64).
Proof.
  intros Hi. change U64_MAX with (Z.ones 64). destruct (Z.ltb_spec i 64).
  - apply Z.ones_spec_low. lia.
  - apply Z.ones_spec_high. lia.
Qed.

Lemma xor_shl_testbit n x i :
  0 <= n -> 0 <= i ->
  Z.testbit (xor_shl n x) i = xorb (Z.testbit x i) (Z.testbit x (i - n) && (i <? 64)).
Proof.
  intros Hn Hi. unfold xor_shl. by rewrite Z.lxor_spec, Z.land_spec, Z.shiftl_spec, u64_max_testbit.
Qed.
Lemma xor_shr_testbit n x i :
  0 <= i -> Z.testbit (xor_shr n x) i = xorb (Z.testbit x i) (Z.testbit x (i + n)).
Proof. intros Hi. unfold xor_shr. by rewrite Z.lxor_spec, Z.shiftr_spec. Qed.

Lemma xor_shl_in n x : 0 <= n -> in_u64 x -> in_u64 (xor_shl n x).
Proof.
  rewrite !in_u64_bits. intros Hn [H0 Hb]. split.
  - apply Z.lxor_nonneg. split; intros _; [|done]. apply Z.land_nonneg. by right.
  - intros i Hi. rewrite xor_shl_testbit, Hb by lia. rewrite (proj2 (Z.ltb_ge _ _)) by lia. by rewrite andb_false_r.
Qed.
Lemma xor_shr_in n x : 0 <= n -> in_u64 x -> in_u64 (xor_shr n x).
Proof.
  rewrite !in_u64_bits. intros Hn [H0 Hb]. split.
  - apply Z.lxor_nonneg. split; intros _; [|done]. by apply Z.shiftr_nonneg.
  - intros i Hi. by rewrite xor_shr_testbit, !Hb by lia.
Qed.

Lemma u64_eq_bits x y :
  in_u64 x -> in_u64 y -> (forall i, 0 <= i < 64 -> Z.testbit x i = Z.testbit y i) -> x = y.
Proof.
  rewrite !in_u64_bits. intros [_ Hx] [_ Hy] Hb. apply Z.bits_inj'. intros i Hi.
  destruct (Z.lt_ge_cases i 64); [by apply Hb|]. by rewrite Hx, Hy.
Qed.

Lemma xorb_cancel_r a b c : xorb a c = xorb b c -> a = b.
Proof. by destruct a, b, c. Qed.

Lemma xor_shl_inj n x y : 0 < n -> in_u64 x -> in_u64 y -> xor_shl n x = xor_shl n y -> x = y.
Proof.
  intros Hn Hx Hy E. apply u64_eq_bits; [done|done|]. intros i Hi. destruct Hi as [H0 Hlt].
  revert Hlt. pattern i. revert i H0. apply Zlt_0_ind. intros i IH H0 Hlt.
  pose proof (f_equal (fun z => Z.testbit z i) E) as Eb. cbn beta in Eb. rewrite !xor_shl_testbit in Eb by lia.
  destruct (Z.lt_ge_cases i n).
  - rewrite !(Z.testbit_neg_r _ (i - n)) in Eb by lia. by rewrite !xorb_false_r in Eb.
  - rewrite (IH (i - n)) in Eb by lia. by apply xorb_cancel_r in Eb.
Qed.
Lemma xor_shr_inj n x y : 0 < n -> in_u64 x -> in_u64 y -> xor_shr n x = xor_shr n y -> x = y.
Proof.
  intros Hn Hx Hy E. apply u64_eq_bits; [done|done|]. intros i Hi.
  cut (forall j, 0 <= j -> forall i, 0 <= i < 64 -> 63 - i = j -> Z.testbit x i = Z.testbit y i).
  { intros Hc. apply (Hc (63 - i)); lia. }
  clear i Hi. apply (Zlt_0_ind (fun j => forall i, 0 <= i < 64 -> 63 - i = j -> Z.testbit x i = Z.testbit y i)).
  intros j IH Hj i Hi Ej. pose proof (f_equal (fun z => Z.testbit z i) E) as Eb. cbn beta in Eb.
  rewrite !xor_shr_testbit in Eb by lia.
  assert (Hin : Z.testbit x (i + n) = Z.testbit y (i + n)).
  { destruct (Z.lt_ge_cases (i + n) 64); [apply (IH (63 - (i + n))); lia|].
    apply in_u64_bits in Hx as [_ Hx]. apply in_u64_bits in Hy as [_ Hy]. by rewrite Hx, Hy by lia. }
  rewrite Hin in Eb. by apply xorb_cancel_r in Eb.
Qed.

(** The generator stays within 64 bits and never maps two states to one. *)
Lemma xorshift_in x : in_u64 x -> in_u64 (xorshift x).
Proof. intros Hx. by apply xor_shl_in, xor_shr_in, xor_shl_in. Qed.
Lemma xorshift_inj x y : in_u64 x -> in_u64 y -> xorshift x = xorshift y -> x = y.
Proof.
  intros Hx Hy E. unfold xorshift in E.
  apply xor_shl_inj in E; [|done|by apply xor_shr_in, xor_shl_in..].
  apply xor_shr_inj in E; [|done|by apply xor_shl_in..]. by apply xor_shl_inj in E.
Qed.

(** The generator of the simulator never gets stuck.  From any seed, every
    number it gives is a non-zero number of 64 bits, two different states never
    lead to the same one, and an index is always in range. *)
Lemma seeded_rng_alive seed n :
  in_u64 seed ->
  let rng := Nat.iter n (fun rng => (next_u64 rng).2) (SeededRng_new seed) in
  in_u64 (rng_state rng) /\ rng_state rng <> 0 /\ (next_u64 rng).1 <> 0 /\
  (forall other, in_u64 (rng_state other) -> (next_u64 other).2 = (next_u64 rng).2 -> other = rng) /\
  (forall len, 0 < len -> exists i, (choose_index rng len).1 = Some i /\ 0 <= i < len).
Proof.
  intros Hseed rng.
  assert (Hnz : forall x, in_u64 x -> x <> 0 -> xorshift x <> 0).
  { intros x Hx Hne E. apply Hne, (xorshift_inj x 0); [done|done|]. by rewrite E. }
  assert (Hrng : in_u64 (rng_state rng) /\ rng_state rng <> 0).
  { subst rng. induction n as [|n [IH1 IH2]]; cbn [Nat.iter].
    - unfold SeededRng_new. destruct (Z.eqb_spec seed 0); cbn; [|done]. by split.
    - cbn [next_u64 snd rng_state]. split; [by apply xorshift_in|by apply Hnz]. }
  destruct Hrng as [Hin Hne]. split; [done|]. split; [done|]. split; [by apply Hnz|]. split.
  - intros other Ho [= E]. apply xorshift_inj in E; [|done|done]. destruct other, rng. cbn in E. by subst.
  - intros len Hlen. unfold choose_index. rewrite (proj2 (Z.eqb_neq _ _)) by lia. cbn. eexists. split; [done|].
    by apply Z.mod_pos_bound.
Qed.

Lemma seeded_rng_alive_witness :
  let rng := Nat.iter 1 (fun rng => (next_u64 rng).2) (SeededRng_new 7) in
  (next_u64 (SeededRng_new 7)).1 = 7575888327 /\ rng_state rng <> 0.
Proof.
  intros rng. split; [vm_compute; reflexivity|]. apply (seeded_rng_alive 7 1). vm_compute. split; [discriminate|reflexivity].
Defined.

(** ** The minimizer *)

Section minimizer.
Context {T : Type} (still_reproduces : list T -> bool).

Lemma attempt_sublist (l : list T) i : (take i l ++ drop (S i) l) `sublist_of` l.
Proof.
  rewrite <-(take_drop i l) at 3. apply sublist_app; [done|].
  destruct (drop i l) as [|x d] eqn:E; [rewrite <-Nat.add_1_r, <-drop_drop, E; done|].
  rewrite <-Nat.add_1_r, <-drop_drop, E. cbn. rewrite drop_0. by constructor.
Qed.

Lemma attempt_length (l : list T) i : (i < length l)%nat -> length (take i l ++ drop (S i) l) = (length l - 1)%nat.
Proof. intros. rewrite length_app, length_take, length_drop. lia. Qed.

(** Removing an event at a place that was passed does not reproduce. *)
Definition passed (l : list T) (index : nat) : Prop :=
  forall i, (i < index)%nat -> still_reproduces (take i l ++ drop (S i) l) = false.

Definition monotone : Prop :=
  forall a b, a `sublist_of` b -> still_reproduces a = true -> still_reproduces b = true.

Lemma passed_attempt l i index :
  monotone -> (i < index)%nat -> (index < length l)%nat -> still_reproduces (take i l ++ drop (S i) l) = false ->
  let l' := take index l ++ drop (S index) l in still_reproduces (take i l' ++ drop (S i) l') = false.
Proof.
  intros Hm Hi Hl Hf l'. destruct (still_reproduces (take i l' ++ drop (S i) l')) eqn:E; [|done].
  assert (Hs : (take i l' ++ drop (S i) l') `sublist_of` (take i l ++ drop (S i) l)); [|by rewrite (Hm _ _ Hs E) in Hf].
  subst l'. rewrite take_app_le by (rewrite length_take; lia). rewrite take_take, Nat.min_l by lia.
  apply sublist_app; [done|]. rewrite drop_app_le by (rewrite length_take; lia).
  rewrite <-(take_drop (index - S i) (drop (S i) l)). rewrite drop_drop.
  rewrite skipn_firstn_comm. apply sublist_app; [done|].
  replace (S i + (index - S i))%nat with index by lia.
  rewrite <-(Nat.add_1_r index), <-drop_drop. apply sublist_drop.
Qed.

Lemma minimize_loop_run fuel candidate index :
  (length candidate - index <= fuel)%nat ->
  exists out, minimize_loop still_reproduces fuel candidate index = Some out /\ out `sublist_of` candidate /\
    (still_reproduces candidate = true -> still_reproduces out = true) /\
    (monotone -> passed candidate index -> passed out (length out)).
Proof.
  revert candidate index. induction fuel as [|fuel IH]; intros candidate index Hf; cbn [minimize_loop];
    (destruct (Nat.ltb_spec index (length candidate)) as [Hlt|Hge]; [|]).
  - lia.
  - exists candidate. conj_split; try done. intros _ Hp i Hi. apply Hp. lia.
  - pose proof (attempt_length candidate index Hlt) as Hlen. destruct (still_reproduces _) eqn:E.
    + destruct (IH (take index candidate ++ drop (S index) candidate) index) as (out & Eo & Hs & Hr & Hp); [lia|].
      exists out. split; [done|]. split; [etrans; [done|apply attempt_sublist]|]. split; [auto|].
      intros Hm Hpass. apply Hp; [done|]. intros i Hi. by apply passed_attempt, Hpass.
    + destruct (IH candidate (S index)) as (out & Eo & Hs & Hr & Hp); [lia|]. exists out. conj_split; try done.
      intros Hm Hpass. apply Hp; [done|]. intros i Hi. destruct (decide (i = index)) as [->|]; [done|]. apply Hpass. lia.
  - exists candidate. conj_split; try done. intros _ Hp i Hi. apply Hp. lia.
Qed.

Lemma sublist_length_eq (l1 l2 : list T) : l1 `sublist_of` l2 -> length l1 = length l2 -> l1 = l2.
Proof.
  induction 1 as [|x l1 l2 Hs IH|x l1 l2 Hs IH]; cbn; intros E; [done| |].
  - f_equal. apply IH. lia.
  - apply sublist_length in Hs. lia.
Qed.

(** A shorter sublist leaves out the event at some place. *)
Lemma sublist_skip_one (l1 l2 : list T) :
  l1 `sublist_of` l2 -> (length l1 < length l2)%nat ->
  exists i, (i < length l2)%nat /\ l1 `sublist_of` (take i l2 ++ drop (S i) l2).
Proof.
  induction 1 as [|x l1 l2 Hs IH|x l1 l2 Hs IH]; cbn [length]; intros Hlt; [lia| |].
  - destruct IH as (i & Hi & Hsi); [lia|]. exists (S i). split; [lia|]. cbn. by apply sublist_skip.
  - exists 0%nat. split; [lia|]. cbn. by rewrite drop_0.
Qed.
End minimizer.

(** C40: the minimizer of failing traces.  It ends, and gives a trace without some
    events of the given one, in their order, that still fails if the given one
    did; if adding events to a failing trace cannot repair it, then no event of
    the result can be left out. *)
Theorem minimizer_minimal {T} (trace : list T) (still_reproduces : list T -> bool) :
  still_reproduces trace = true ->
  exists out, minimize_trace_by_deletion trace still_reproduces = Some out /\
    out `sublist_of` trace /\ still_reproduces out = true /\
    ((forall a b, a `sublist_of` b -> still_reproduces a = true -> still_reproduces b = true) ->
     forall smaller, smaller `sublist_of` out -> still_reproduces smaller = true -> smaller = out).
Proof.
  intros Ht. destruct (minimize_loop_run still_reproduces (length trace) trace 0) as (out & Eo & Hs & Hr & Hp); [lia|].
  exists out. split; [done|]. split; [done|]. split; [auto|]. intros Hm smaller Hsub Hre.
  destruct (decide (length smaller = length out)) as [El|Hne]; [by apply sublist_length_eq|].
  assert (Hlt : (length smaller < length out)%nat) by (apply sublist_length in Hsub; lia).
  destruct (sublist_skip_one smaller out Hsub Hlt) as (i & Hi & Hsi).
  assert (Hpass : passed still_reproduces trace 0) by (intros i' Hi'; lia).
  specialize (Hp Hm Hpass i Hi). by rewrite (Hm _ _ Hsi Hre) in Hp.
Qed.

(** A failure that needs the events 2 and 5 is reduced to them. *)
Definition demo_reproduces (trace : list Z) : bool := bool_decide (2 ∈ trace) && bool_decide (5 ∈ trace).

Lemma minimizer_minimal_witness :
  minimize_trace_by_deletion [1; 2; 3; 4; 5; 6] demo_reproduces = Some [2; 5] /\
  exists out, minimize_trace_by_deletion [1; 2; 3; 4; 5; 6] demo_reproduces = Some out /\
    forall smaller, smaller `sublist_of` out -> demo_reproduces smaller = true -> smaller = out.
Proof.
  split; [vm_compute; reflexivity|].
  destruct (minimizer_minimal [1; 2; 3; 4; 5; 6] demo_reproduces) as (out & Eo & _ & _ & Hmin);
    [vm_compute; reflexivity|].
  exists out. split; [exact Eo|]. apply Hmin. intros a b Hab. unfold demo_reproduces.
  rewrite !andb_true_iff, !bool_decide_eq_true. intros [H2 H5].
  split; eapply elem_of_submseteq; eauto using sublist_submseteq.
Defined.
